(* ===== verification/_CoqProject ===== *)
-Q . S2P
Prelude.v
GraphAlgo.v
PacketDef.v
TokenBucket.v
Text.v
AclRules.v
AclProcessor.v
AclFilter.v
StatsManager.v
IpReassembler.v
Compressor.v
Encrypt.v
PeerConn.v
RpcPacket.v
SyncedRoute.v
RouteTable.v
SyncSession.v
RouteService.v
RouteExchange.v
RouteTasks.v
PeerMap.v
PeerManager.v
ForeignNetwork.v
Admission.v
PeerCenter.v
Framing.v
UdpTunnel.v
CidrSet.v
TcpProxy.v
RpcCall.v
IpProxy.v
UdpProxy.v
IcmpProxy.v
Stun.v
PeerTask.v
HolePunch.v
PunchProtocol.v
ManualConnector.v
DirectConnect.v
NetText.v
Config.v
NetworkConfig.v
Dhcp.v
Socks5.v
InstancePatch.v
CoreOptions.v
InstanceManager.v
