(* ===== verification/Prelude.v ===== *)
(** * EasyTier: packets, tunnels, filtering, routing, peers, connectors, proxies,
      configuration

    A verification library for the core of the EasyTier overlay network
    ([src/easytier]): the packet format, access control, rate limiting,
    encryption, statistics, fragmentation, framed and UDP tunnels, RPC calls,
    link-state routing, the connections between peers, the path of a packet
    through a node, relaying for foreign networks, the collection of latencies for
    route costs, the ways nodes find and reach each other through NATs, the
    proxies that let a node give access to its local network, and the
    configuration of an instance and its changes at run time.

    ** The program and its model

    A node reads packets from its virtual interface or from tunnels, filters
    them, looks up the next peer and passes them on; in the background nodes tell
    each other who is connected to whom.  Each part has a file:

    - [PacketDef]: [tunnel/packet_def.rs], headers, flags and the packet buffer
      [ZCPacket] that is re-framed in place.
    - [Compressor]: [common/compressor.rs], compression of payloads.
    - [Encrypt]: [peers/encrypt], the encryptors and the choice between them.
    - [PeerConn]: [peers/peer_conn.rs] and [peers/peer_conn_ping.rs], one
      connection: handshake, receive loop, pings.
    - [PeerMap]: [peers/peer.rs], [peers/peer_map.rs] and
      [peers/foreign_network_client.rs], the connections of a peer, all peers,
      next hops.
    - [PeerManager]: [peers/peer_manager.rs], what happens to a packet from the
      interface or from a peer: it composes [PacketDef], [Compressor],
      [Encrypt], [PeerConn], [PeerMap] and the access control, which it asks
      through the class [PacketAcl] ([acl_filter_stage] is its instance).
    - [ForeignNetwork]: [peers/foreign_network_manager.rs], the networks a node
      relays for without being in them, each with a peer map, a limiter and an
      identity of its own.  What [PeerManager] asks of it is the record
      [ForeignManager], which [fm_foreign_manager] provides.
    - [Admission]: the part of [peers/peer_manager.rs] that takes in tunnels and
      hands them to [PeerMap] or [ForeignNetwork], and what routes are told.
    - [PeerCenter]: [peer_center], the node that collects latencies; its costs
      are an instance of the class [CostCalculator] of [RouteService].
    - [Framing]: [tunnel/common.rs], [tunnel/buf.rs] and [tunnel/mpsc.rs],
      packets on a stream of bytes, and senders that share a sink.
    - [UdpTunnel]: [tunnel/udp.rs] and [tunnel/ring.rs], connections over
      datagrams: listener, connector and their handshake.
    - [Stun]: [common/stun.rs], [common/stun_codec_ext.rs] and the responder of
      [tunnel/udp.rs]; what kind of NAT a node is behind, and the public address
      of a socket.
    - [PeerTask]: [peers/peer_task.rs], the loop that keeps a task for each peer
      that needs one, over the class [PeerTaskLauncher] (a trait of the program),
      of which [HolePunch] and [DirectConnect] give the two instances.
    - [HolePunch]: [connector/udp_hole_punch/mod.rs] and the NAT types of
      [connector/udp_hole_punch/common.rs]; who punches a hole for whom, and the
      pauses between tries.  It asks [Stun] for the types.
    - [PunchProtocol]: the rest of [connector/udp_hole_punch]; sockets and
      listeners, and both sides of the three ways to punch a hole.
    - [DirectConnect]: [connector/direct.rs], trying the listeners of a peer.
    - [ManualConnector]: [connector/manual.rs], the configured peers.
    - [IpReassembler]: [gateway/ip_reassembler.rs], IPv4 fragments.
    - [CidrSet]: [gateway/mod.rs] and the proxied networks of the configuration,
      with the translation between a network and the one it is shown as.
    - [TcpProxy]: [gateway/tcp_proxy.rs] and the choice of a connector in
      [gateway/kcp_proxy.rs] and [gateway/quic_proxy.rs]; NAT on a node that
      terminates TCP connections.
    - [UdpProxy], [IcmpProxy]: [gateway/udp_proxy.rs] and
      [gateway/icmp_proxy.rs]; what they share is in [IpProxy], which cuts and puts
      together packets with [IpReassembler] and asks [CidrSet] for addresses.
    - [TokenBucket]: [common/token_bucket.rs], lock-free rate limiters.
    - [AclRules], [AclProcessor], [AclFilter]: [common/acl_processor.rs] and
      [peers/acl_filter.rs]; rules and whitelists, the engine with its cache,
      connection table and limiters, and the stage of the packet pipeline that
      asks it.  The engine uses the atomic buckets of [TokenBucket].
    - [StatsManager]: [common/stats_manager.rs], counters and their handles.
    - [RpcPacket]: [proto/rpc_impl/packet.rs], RPC messages cut into packets; it
      uses [Compressor] and [PacketDef].
    - [RpcCall]: [proto/rpc_impl] (client, server, bidirectional transport,
      registry), the errors of [proto/error.rs] and [peers/peer_rpc.rs]; calls
      and answers, on top of [RpcPacket].
    - [GraphAlgo]: [peers/graph_algo.rs], shortest paths with first hops.
    - [SyncedRoute], [RouteTable], [SyncSession], [RouteService],
      [RouteExchange], [RouteTasks]: [peers/peer_ospf_route.rs] (and
      [peers/route_trait.rs]).  What a node knows of the network, the table it
      builds from it with [GraphAlgo], the session with one peer, the service
      with all its operations, rounds between two nodes, and the tasks of a node
      in any order.
    - [Config]: [common/config.rs], the configuration of an instance with its
      getters and setters, read from and written to TOML.
    - [NetworkConfig]: the part of [launcher.rs] that turns the form of the front
      ends ([NetworkConfig] of [proto/api_manage.proto]) into a [Config] and back.
    - [InstancePatch]: [instance/instance.rs], an instance from the reading of its
      rules on, and [InstanceConfigPatcher], which changes it while it runs; it
      acts on the [Config], on the rules of [AclFilter], on [CidrSet], on
      [ManualConnector] and on the cached addresses of [common/global_ctx.rs].
    - [CoreOptions]: [NetworkOptions] of [easytier-core.rs], what the options of the
      command line change in a [Config].
    - [InstanceManager]: [instance_manager.rs], the launcher of [launcher.rs], the
      files of [common/config.rs], [rpc_service/instance_manage.rs] and [run_main] of
      [easytier-core.rs]; the instances of a process, kept in files that [Config]
      writes and reads, run on request from the forms of [NetworkConfig] or at the
      start with [CoreOptions].
    - [Dhcp]: the choice of a free address in [instance/instance.rs].
    - [Socks5]: [gateway/socks5.rs], port forwards over TCP and UDP and the packets
      the gateway takes for itself.
    - [NetText]: numbers, addresses and socket addresses as text, as the standard
      library prints and parses them.
    - [Text]: the strings of Rust's standard library the parts use.
    - [Prelude] (this file): machine integers, panics and errors, buffers,
      sorting, maps.

    ** How code is translated

    Structs are records, enums inductive types, methods functions that take and
    return the state they change, under the source's names (a prefix where two
    parts share a name).  Panics are values: code that can panic returns an
    [outcome], and a theorem that something "never panics" says its outcome is
    [Done].  [Result] is [result].  Unsigned integers are [Z] kept in range by
    [wrap]: the release build wraps.  [Instant]s are nanoseconds, and an operation
    takes the clock readings it makes as arguments, as it takes random numbers.
    Hash maps are [gmap]s; where code iterates over one, the order is that of the
    class [IterOrder], an arbitrary permutation, so results hold for every order.
    Objects shared through [Arc] live in a store of addresses (buckets, counters,
    sessions), so that aliasing is as in the code.

    Libraries are classes with their documented behaviour: [BinaryHeap] of the
    standard library, [RingAead], [AesGcmCrate] and [OpenSsl] (ring, aes-gcm,
    openssl), [Hasher64], [HandshakeCodec], [Pnet] and [Ipv4Codec] (pnet),
    [CidrLib] and [PrefixTrie] (cidr, prefix_trie), [Zstd], [Prost], [RouteLib]
    and [InfoWire] (prost, prost_reflect, hmac), [PetGraph], [WildMatch],
    [DebugFmt] and [RpcMessages] (the text of errors, the messages of services),
    [BytesAlloc], [AsyncRead], [AsyncWrite] and [RingBuffer] (bytes, tokio,
    crossbeam), [Ipv4CidrLib] (cidr), [TcpIpLib], [UdpLib] and [IcmpLib] (pnet),
    [StunCodec] and [Dns] (stun_codec, hickory_resolver), [TimedMap] (timedmap),
    [UrlLib], [UrlOps], [UrlParts] and [UrlTextLaws] (url), [UuidLib], [UuidLaws] and
    [UuidTextLaws] (uuid),
    [CidrText], [CidrTextLaws] and [CidrNew] (the text of cidr), [ConfigWire] and
    [ConfigWireLaws] (serde, toml and base64), [TcpPorts] (the ports of pnet).
    [CostCalculator], [NatDstConnector] and
    [PeerTaskLauncher] are interfaces of the program itself: route costs, the ways
    a TCP proxy reaches a destination, and what a task per peer does.  Every
    theorem about them has an example with concrete instances.

    Concurrency: the token bucket is modelled access by access.  Elsewhere a
    method is one step, which is what its locks or its single caller give, and
    interleavings are step relations over methods ([acl_step], [service_step],
    [pm_step], [fm_step], [report_step], [loop_step]) or functions of a label,
    iterated by [run] below ([rpc_step], [udp_step], [proxy_step], [up_step],
    [icmp_step], [process_step]; [manual_step] by [manual_run]);
    where a method lets others run in between, it is split ([sync_begin] and
    [sync_end], [add_conn_check] and [add_conn_commit], [add_begin] and
    [add_finish], [call_begin] and [call_end], [connect_begin] and
    [connect_end]).

    ** What is shown

    - Shortest paths (C1): the search terminates and is correct.
    - Routing (C2-C4): next hops lie on best paths; nodes that have heard the same
      announcements agree; groups are trusted on proof.
    - Synchronisation (C5-C7): after three rounds nothing is left to say; a round
      brings the other node up to date; one initiator session at most.
    - The path of a packet (C8-C9): no routing loop forwards a packet more than
      eight times; a packet from one interface reaches the other with its
      payload, through compression, encryption, re-framing and forwarding.
    - Foreign networks (C10-C12): connections of different networks never mix,
      whatever interleaves; packets cross two relays unchanged; a tunnel ends up
      in the network whose secret it presented.
    - Proxies (C13-C17): the TCP proxy's tables stay consistent and both ends see
      the addresses they used; answers through the UDP proxy come from the
      destination and go to the sender, with their payload; a ping is answered.
    - Tunnels (C18-C20): UDP connections never mix and deliver once set up; a
      stream cut anywhere delivers the packets that were framed.
    - RPC calls (C21-C22): an answer is that of the call that waits for it, and a
      call returns what its service answered.
    - Through NATs (C23-C26): the type a node publishes is that of its NAT; each
      peer that needs a task has exactly one; between cone NATs punching connects,
      whatever they filter; every port of an unpredictable NAT is tried in the
      end.
    - Connectors (C27): the configured peers are those added and not removed, and
      each stays connected or is reconnected.
    - Configuration (C28-C30): a configuration that is written is read back as it
      was; one that uses what the front ends know comes back from their form with
      the same settings; after an accepted patch an instance runs what its
      configuration says.
    - Instances (C31-C32): the instances of a process are those a later process starts
      from the files; the process ends when nothing runs, and not before.
    - Automatic addresses (C33): nodes that choose their addresses end up with
      different ones, whatever the order of their rounds, and keep them.
    - Port forwards (C34): a datagram through a UDP forward reaches its
      destination, and the answer the client.
    - Latencies (C35-C36): a client's view is at most two minutes old; costs are the
      reported latencies, within the bounds that C2 assumes.
    - Connections (C37): among any 32 ticks one sends a ping, and a tick sends one
      at once when a ping was lost or when packets go out and none come in.
    - Encryption (C38-C39): every encryptor round-trips, and malformed packets
      are errors.
    - Access control (C40): in every reachable state the verdict is that of the
      first matching rule, cache or not.

    Further theorems, without a number, show next hops with fewest hops, that a
    datagram that is cut is put together again from fragments in any order, that
    ICMP answers go to requests that were made, that a connection is closed
    exactly when it is silent and that handshakes agree, what whitelists and the
    filter do, that names are resolved unless they refer to themselves, the round
    trips of framings, compression, RPC messages and announced
    networks, that noticed changes bump versions and expiry never panics, the
    agreement on the center, the balance of counters, the order of rules, cache
    bounds, the choice of a connection, that pings are answered, that a bucket in
    use is never replaced, that the lock-free bucket refines an atomic one, that
    cleaning keeps exactly the peers that are alive, that addresses lead to the
    closest announcer, that of two peers the right one punches the hole, that
    every usable listener of a peer is tried by priority, that a live node's latencies
    never expire, that the address of a network that is shown under another is
    translated by the first network that contains it, and that the export of
    statistics is a function of the counters.

    Some theorems state behaviour that surprises: a stale info replacing group
    trusts, addresses kept after renumbering, foreign networks not sent again
    after a restart, idle counters detached from their handles, packets sent
    although the outbound rules drop them, connections lost to a race, short
    packets that make a task panic, foreign networks removed by the handler of
    their predecessor, latencies that a client hears of late, a framed stream
    ended by a full buffer, datagrams lost while a UDP tunnel is set up, a close
    event that hits the next connection, answers of a reused port under the wrong
    address, a UDP proxy that forgets a shown address or answers a peer that has
    been replaced, pings that share an identifier, a bare RPC request that makes
    the server's task panic, an open internet that is never detected, a name that
    is resolved for ever, predicted ports that are left out, wrap around or
    differ between the two sides, a stopped listener that is offered, a
    configured peer that is lost or panics a task when it is added again, a
    listener of another node that panics the task that reads it, a form that
    opens a whitelist, forgets settings or panics, an address that is taken in
    spite of a conflict, forwards without a stack or with answers from the wrong
    port, a stale cached address, a rejected whitelist that stays, a network
    that is announced and not served, a stray file that keeps a process from starting,
    instances that come back, and an error that is not reported.

    ** Fuel

    Loops that are not structural take fuel, with theorems that it suffices: the
    shortest-path search stops within one pop per edge and one more
    ([dijkstra_fuel] adds one), composing fragments within one round per fragment,
    cutting an RPC message within one round per piece, the synchronisation loop
    within three rounds, reading and flushing a stream within one round per
    byte, resolving names within one step per name when TXT records are acyclic,
    sending to a range of ports within one step per packet.

    ** Not modelled

    Sockets, the transports over WireGuard, QUIC and WebSocket, the endpoints of
    KCP and QUIC, the user-space TCP/IP stack, the SOCKS5 protocol itself, the
    creation of connectors from URLs, TUN devices, DNS, the VPN portal, the
    parsing of command lines, the client program, the RPC services that only pass
    calls on, the web client and the uptime node: they are I/O around third-party
    code.  Of the peer manager, the queries of the front ends are left out.
    Logging, [Debug] output and [Drop] messages are left out everywhere. *)

From stdpp Require Import base numbers list gmap strings sorting.
Open Scope Z_scope.

(** ** Machine integers

    Unsigned Rust integers are [Z] values kept in range by [wrap]: the
    production build uses Cargo's release profile (no [overflow-checks]), so
    [+], [-], [*] and [as] casts wrap around modulo [2^w]. *)

Definition wrap (w z : Z) : Z := z mod 2 ^ w.
Abbreviation as_u8 := (wrap 8).
Abbreviation as_u16 := (wrap 16).
Abbreviation as_u32 := (wrap 32).
Abbreviation as_u64 := (wrap 64).
Abbreviation as_usize := (wrap 64).

Definition in_width (w z : Z) : Prop := 0 <= z < 2 ^ w.
Definition U64_MAX : Z := 2 ^ 64 - 1.

(** [Instant]s and [Duration]s are nanoseconds. *)
Definition SEC : Z := 1000000000.

(** [Instant::duration_since], which is zero for a later instant, and
    [elapsed().as_secs()]. *)
Definition duration_since (now t : Z) : Z := Z.max 0 (now - t).
Definition elapsed_secs (now t : Z) : Z := duration_since now t / SEC.

Lemma elapsed_secs_lt now t n : 0 < n -> elapsed_secs now t < n <-> duration_since now t < n * SEC.
Proof.
  intros Hn. unfold elapsed_secs, duration_since, SEC.
  pose proof (Z.div_mod (Z.max 0 (now - t)) 1000000000 ltac:(lia)).
  pose proof (Z.mod_pos_bound (Z.max 0 (now - t)) 1000000000 ltac:(lia)). nia.
Qed.

#[global] Instance in_width_dec w z : Decision (in_width w z).
Proof. unfold in_width; apply _. Defined.

Lemma wrap_in_width w z : 0 <= w -> in_width w (wrap w z).
Proof. intros; apply Z.mod_pos_bound; lia. Qed.

Lemma wrap_small w z : in_width w z -> wrap w z = z.
Proof. apply Z.mod_small. Qed.

Lemma wrap_wrap w z : 0 <= w -> wrap w (wrap w z) = wrap w z.
Proof. intros; apply wrap_small, wrap_in_width; lia. Qed.

Lemma in_width_mono w w' z : w <= w' -> in_width w z -> in_width w' z.
Proof.
  intros Hw [H1 H2]; split; [done|].
  destruct (Z.le_gt_cases 0 w).
  - eapply Z.lt_le_trans; [done | apply Z.pow_le_mono_r; lia].
  - rewrite Z.pow_neg_r in H2; lia.
Qed.

(** [saturating_add] and [saturating_sub] of a [u64]. *)
Definition saturating_add64 (a b : Z) : Z := Z.min (a + b) U64_MAX.
Definition saturating_sub64 (a b : Z) : Z := Z.max (a - b) 0.

Lemma saturating_add64_bound a b :
  0 <= a -> 0 <= b -> 0 <= saturating_add64 a b <= U64_MAX.
Proof. unfold saturating_add64, U64_MAX; lia. Qed.

(** ** Panics and errors

    Code that can panic returns an [outcome]; code whose Rust type is
    [Result] returns a [result].  The monad notation is stdpp's. *)

Inductive panic : Type :=
| IndexOutOfRange    (** slice or array index outside the buffer *)
| UnwrapOnNone       (** [unwrap] of [None] or of an [Err] *)
| LengthMismatch     (** [copy_from_slice] between slices of different lengths *)
| SplitBeyondLen     (** [BytesMut::split_off] past the initialised bytes *)
| AssertionFailed    (** [assert!] / [assert_eq!] *)
| DivisionByZero
| ExplicitPanic      (** [panic!] *)
| UnreachableCode    (** [unreachable!] *)
| OutOfFuel          (** the fuel of a modelled loop ran out *).

Inductive outcome (A : Type) : Type :=
| Done (a : A)
| Panicked (p : panic).
Arguments Done {A} _.
Arguments Panicked {A} _.

Inductive result (E A : Type) : Type :=
| Ok (a : A)
| Err (e : E).
Arguments Ok {E A} _.
Arguments Err {E A} _.

#[global] Instance outcome_ret : MRet outcome := @Done.
#[global] Instance outcome_bind : MBind outcome := fun _ _ f m =>
  match m with Done a => f a | Panicked p => Panicked p end.
#[global] Instance outcome_fmap : FMap outcome := fun _ _ f m =>
  match m with Done a => Done (f a) | Panicked p => Panicked p end.

Definition unwrap {A} (o : option A) : outcome A :=
  match o with Some a => Done a | None => Panicked UnwrapOnNone end.

(** [Result::ok]; [unwrap] of it is [Result::unwrap]. *)
Definition ok_value {E A} (r : result E A) : option A :=
  match r with Ok a => Some a | Err _ => None end.

Definition is_done {A} (o : outcome A) : bool :=
  match o with Done _ => true | Panicked _ => false end.

(** [?] on a [Result] inside a function that may also panic. *)
Definition try {E A B} (r : result E A) (k : A -> outcome (result E B)) : outcome (result E B) :=
  match r with Ok a => k a | Err e => Done (Err e) end.

Lemma bind_Done {A B} (f : A -> outcome B) m b :
  m ≫= f = Done b <-> exists a, m = Done a /\ f a = Done b.
Proof. destruct m; simpl; naive_solver. Qed.

Lemma unwrap_Done {A} (o : option A) a : unwrap o = Done a <-> o = Some a.
Proof. destruct o; simpl; naive_solver. Qed.

(** Split hypotheses [(x ← m; k) = Done r] into the intermediate values. *)
Ltac inv_outcome :=
  repeat match goal with
  | H : mbind _ _ = Done _ |- _ => apply bind_Done in H as (? & ? & ?)
  | H : unwrap _ = Done _ |- _ => apply unwrap_Done in H
  | H : Done _ = Done _ |- _ => injection H as H
  | H : Panicked _ = Done _ |- _ => discriminate H
  | H : mret _ = Done _ |- _ => injection H as H
  end; try subst.

(** Case analysis on every [if] and [match] of the goal. *)
Ltac split_cases :=
  repeat match goal with
  | |- context [match ?x with _ => _ end] => destruct x eqn:?
  end.

(** ** Byte buffers *)

Abbreviation bytes := (list Z).
Definition is_byte (z : Z) : Prop := in_width 8 z.
Definition byte_list (l : bytes) : Prop := Forall is_byte l.

Definition len {A} (l : list A) : Z := Z.of_nat (length l).

(** [&l[from..]], [&l[from..to]] and [l[from..to].copy_from_slice(src)]. *)
Definition slice_from {A} (l : list A) (from : Z) : outcome (list A) :=
  if bool_decide (0 <= from <= len l) then Done (drop (Z.to_nat from) l)
  else Panicked IndexOutOfRange.

Definition slice {A} (l : list A) (from to : Z) : outcome (list A) :=
  if bool_decide (0 <= from <= to /\ to <= len l)
  then Done (take (Z.to_nat (to - from)) (drop (Z.to_nat from) l))
  else Panicked IndexOutOfRange.

Definition splice {A} (l : list A) (from : Z) (src : list A) : list A :=
  take (Z.to_nat from) l ++ src ++ drop (Z.to_nat from + length src) l.

Definition copy_into {A} (l : list A) (from to : Z) (src : list A) : outcome (list A) :=
  if bool_decide (0 <= from <= to /\ to <= len l) then
    if bool_decide (to - from = len src) then Done (splice l from src)
    else Panicked LengthMismatch
  else Panicked IndexOutOfRange.

(** [BytesMut::split_off(at)]: keeps [..at], returns [at..].  Past the length
    the result depends on the spare capacity of the allocation (an
    out-of-bounds panic or an empty tail); the model stops there. *)
Definition split_off {A} (l : list A) (at_ : Z) : outcome (list A * list A) :=
  if bool_decide (0 <= at_ <= len l)
  then Done (take (Z.to_nat at_) l, drop (Z.to_nat at_) l)
  else Panicked SplitBeyondLen.

Lemma len_nonneg {A} (l : list A) : 0 <= len l.
Proof. unfold len; lia. Qed.

Lemma len_app {A} (l k : list A) : len (l ++ k) = len l + len k.
Proof. unfold len; rewrite length_app; lia. Qed.

Lemma slice_from_Done {A} (l : list A) from r :
  slice_from l from = Done r <-> 0 <= from <= len l /\ r = drop (Z.to_nat from) l.
Proof. unfold slice_from; case_bool_decide; naive_solver. Qed.

Lemma slice_Done {A} (l : list A) from to r :
  slice l from to = Done r <->
  (0 <= from <= to /\ to <= len l) /\ r = take (Z.to_nat (to - from)) (drop (Z.to_nat from) l).
Proof. unfold slice; case_bool_decide; naive_solver. Qed.

Lemma splice_length {A} (l : list A) from src :
  0 <= from -> from + len src <= len l -> length (splice l from src) = length l.
Proof.
  unfold splice, len; intros.
  rewrite !length_app, length_take, length_drop; lia.
Qed.

Lemma splice_app {A} (p l s : list A) src :
  len src = len l -> splice (p ++ l ++ s) (len p) src = p ++ src ++ s.
Proof.
  unfold splice, len; intros Hl. rewrite Nat2Z.id.
  rewrite take_app_length. f_equal. f_equal.
  rewrite <- drop_drop, drop_app_length.
  replace (length src) with (length l) by lia. apply drop_app_length.
Qed.

Lemma copy_into_app {A} (p l s src : list A) from to :
  from = len p -> to = len p + len l -> len src = len l ->
  copy_into (p ++ l ++ s) from to src = Done (p ++ src ++ s).
Proof.
  intros -> -> E. unfold copy_into. pose proof (len_nonneg p). pose proof (len_nonneg l).
  pose proof (len_nonneg s).
  rewrite !bool_decide_eq_true_2 by (rewrite ?len_app; lia).
  by rewrite splice_app.
Qed.

Lemma copy_into_Done {A} (l : list A) from to src r :
  copy_into l from to src = Done r ->
  (0 <= from <= to /\ to <= len l) /\ to - from = len src /\ len r = len l.
Proof.
  unfold copy_into. repeat case_bool_decide; intros; simplify_eq. split_and!; try lia.
  unfold len. rewrite splice_length; unfold len in *; lia.
Qed.

Lemma slice_from_app {A} (p l : list A) from : from = len p -> slice_from (p ++ l) from = Done l.
Proof.
  intros ->. apply slice_from_Done. unfold len. rewrite length_app, Nat2Z.id, drop_app_length.
  split; [lia | done].
Qed.

Lemma slice_app {A} (p l s : list A) from to :
  from = len p -> to = len p + len l -> slice (p ++ l ++ s) from to = Done l.
Proof.
  intros -> ->. apply slice_Done. unfold len. rewrite !length_app.
  split; [lia|]. rewrite Nat2Z.id, drop_app_length.
  replace (Z.to_nat _) with (length l) by lia. by rewrite take_app_length.
Qed.

Lemma split_off_app {A} (p l : list A) at_ : at_ = len p -> split_off (p ++ l) at_ = Done (p, l).
Proof.
  intros ->. unfold split_off, len. rewrite bool_decide_eq_true_2 by (rewrite length_app; lia).
  by rewrite Nat2Z.id, take_app_length, drop_app_length.
Qed.

(** Little-endian encodings ([U16]/[U32] of zerocopy with [LittleEndian]). *)
Fixpoint le_bytes (n : nat) (z : Z) : bytes :=
  match n with
  | O => []
  | S n => z mod 256 :: le_bytes n (z / 256)
  end.

Fixpoint le_val (l : bytes) : Z :=
  match l with
  | [] => 0
  | b :: l => b + 256 * le_val l
  end.

Lemma le_bytes_length n z : length (le_bytes n z) = n.
Proof. revert z; induction n; simpl; auto. Qed.

Lemma le_bytes_bytes n z : byte_list (le_bytes n z).
Proof.
  unfold byte_list. revert z; induction n; intros z; simpl; constructor; [|done].
  unfold is_byte, in_width. apply Z.mod_pos_bound; lia.
Qed.

Lemma le_val_le_bytes n z : le_val (le_bytes n z) = z mod 2 ^ (8 * Z.of_nat n).
Proof.
  revert z; induction n as [|n IH]; intros z; simpl le_val.
  - by rewrite Z.mod_1_r.
  - simpl. rewrite IH.
    replace (8 * Z.of_nat (S n)) with (8 + 8 * Z.of_nat n) by lia.
    rewrite Z.pow_add_r by lia. change (2 ^ 8) with 256.
    rewrite Z.rem_mul_r; [lia | lia | apply Z.pow_pos_nonneg; lia].
Qed.

Lemma le_bytes_le_val l n : byte_list l -> length l = n -> le_bytes n (le_val l) = l.
Proof.
  intros Hb; revert n; induction Hb as [|b l Hb _ IH]; intros n <-; simpl; [done|].
  unfold is_byte, in_width in Hb. change (2 ^ 8) with 256 in Hb.
  f_equal.
  - rewrite (Z.mul_comm 256), Z.mod_add by lia. apply Z.mod_small; lia.
  - rewrite (Z.add_comm b), (Z.mul_comm 256), Z.div_add_l by lia.
    rewrite (Z.div_small b), Z.add_0_r by lia. by apply IH.
Qed.

(** ** Stable sorting ([slice::sort_by] and friends)

    Rust's [sort_by]/[sort_by_key] are stable; the model is insertion sort
    from the right with a boolean [le], which keeps equal elements in order. *)

Section stable_sort.
Context {A : Type} (le : A -> A -> bool).

Fixpoint sort_insert (x : A) (l : list A) : list A :=
  match l with
  | [] => [x]
  | y :: l => if le x y then x :: y :: l else y :: sort_insert x l
  end.

Definition stable_sort (l : list A) : list A := foldr sort_insert [] l.

Lemma sort_insert_perm x l : sort_insert x l ≡ₚ x :: l.
Proof.
  induction l as [|y l IH]; simpl; [done|].
  destruct (le x y); [done|]. rewrite IH. apply Permutation_swap.
Qed.

Lemma stable_sort_perm l : stable_sort l ≡ₚ l.
Proof.
  induction l as [|x l IH]; simpl; [done|]. by rewrite sort_insert_perm, IH.
Qed.

Lemma stable_sort_length l : length (stable_sort l) = length l.
Proof. by rewrite stable_sort_perm. Qed.

Hypothesis le_total : forall x y, le x y = true \/ le y x = true.
Hypothesis le_trans : forall x y z, le x y = true -> le y z = true -> le x z = true.

Lemma sort_insert_sorted x l :
  StronglySorted (fun a b => le a b = true) l ->
  StronglySorted (fun a b => le a b = true) (sort_insert x l).
Proof.
  induction 1 as [|y l Hs IH Hy]; simpl; [by repeat constructor|].
  destruct (le x y) eqn:E.
  - constructor; [by constructor|]. constructor; [done|].
    eapply Forall_impl; [exact Hy|]. eauto.
  - constructor; [done|]. rewrite sort_insert_perm. constructor; [|done].
    destruct (le_total x y); congruence.
Qed.

Lemma stable_sort_sorted l : StronglySorted (fun a b => le a b = true) (stable_sort l).
Proof. induction l; simpl; [constructor | by apply sort_insert_sorted]. Qed.

(** Stability: a sorted list is left alone, and elements that compare equal
    keep their relative order. *)
Lemma stable_sort_id l :
  StronglySorted (fun a b => le a b = true) l -> stable_sort l = l.
Proof.
  induction 1 as [|x l Hs IH Hx]; simpl; [done|]. rewrite IH.
  destruct l as [|y l]; simpl; [done|].
  apply Forall_cons_1 in Hx as [-> _]; done.
Qed.
End stable_sort.

(** Two sorted permutations agree when the order separates the elements. *)
Lemma sorted_perm_unique {A} (le : A -> A -> bool) (l k : list A) :
  (forall x y, x ∈ l -> y ∈ l -> le x y = true -> le y x = true -> x = y) ->
  StronglySorted (fun a b => le a b = true) l -> StronglySorted (fun a b => le a b = true) k ->
  l ≡ₚ k -> l = k.
Proof.
  intros Has Hl; revert k Has; induction Hl as [|x l Hl IH Hx]; intros k Has Hk Hp.
  { by apply Permutation_nil_l in Hp. }
  destruct Hk as [|y k Hk Hy]; [by apply Permutation_nil_r in Hp|].
  assert (x = y) as <-.
  { assert (y ∈ x :: l) as Hyl by (rewrite Hp; by left). assert (x ∈ y :: k) as Hxk by (rewrite <- Hp; by left).
    apply elem_of_cons in Hyl as [->|Hyl]; [done|]. apply elem_of_cons in Hxk as [->|Hxk]; [done|].
    rewrite Forall_forall in Hx, Hy. apply Has; [by left | by right | by apply Hx | by apply Hy]. }
  f_equal. apply IH; [|done|by apply Permutation_cons_inv in Hp].
  intros a b Ha Hb. apply Has; by right.
Qed.

(** ** Addresses ([std::net]) *)

Inductive IpAddr := V4 (a : Z) | V6 (a : Z).
#[global] Instance ip_addr_eq_dec : EqDecision IpAddr.
Proof. solve_decision. Defined.
#[global] Instance ip_addr_countable : Countable IpAddr.
Proof.
  apply (inj_countable' (fun a => match a with V4 z => inl z | V6 z => inr z end)
           (fun s => match s with inl z => V4 z | inr z => V6 z end)).
  by intros [].
Defined.

Abbreviation SocketAddr := (IpAddr * Z)%type.

(** [IpAddr::is_loopback]. *)
Definition is_loopback (ip : IpAddr) : bool :=
  match ip with V4 a => a / 2 ^ 24 =? 127 | V6 a => a =? 1 end.

(** ** Concurrent maps

    A [DashMap] is a [gmap]; [retain] keeps the entries that satisfy a boolean
    test, [entry(k).and_modify(f).or_insert(v)] is [upsert]. *)

Definition retain `{Countable K} {V} (f : K -> V -> bool) (m : gmap K V) : gmap K V :=
  filter (fun kv => f kv.1 kv.2 = true) m.

Definition upsert `{Countable K} {V} (k : K) (modify : V -> V) (new : V) (m : gmap K V) : gmap K V :=
  <[k := match m !! k with Some v => modify v | None => new end]> m.

Section maps.
Context `{Countable K} {V : Type}.
Implicit Types (m : gmap K V) (f : K -> V -> bool).

Lemma lookup_retain f m k :
  retain f m !! k = match m !! k with
                    | Some v => if f k v then Some v else None
                    | None => None
                    end.
Proof.
  unfold retain. destruct (m !! k) as [v|] eqn:E.
  - destruct (f k v) eqn:Ef.
    + by apply map_lookup_filter_Some_2.
    + apply map_lookup_filter_None_2; right; intros ??; simplify_eq/=; congruence.
  - apply map_lookup_filter_None_2; by left.
Qed.

Lemma retain_Some f m k v : retain f m !! k = Some v <-> m !! k = Some v /\ f k v = true.
Proof.
  rewrite lookup_retain; destruct (m !! k) as [w|]; [destruct (f k w) eqn:?|];
    split; intros; destruct_and?; simplify_eq; auto; congruence.
Qed.

Lemma retain_size f m : (size (retain f m) <= size m)%nat.
Proof. unfold retain. apply map_subseteq_size. apply map_filter_subseteq. Qed.

Lemma lookup_upsert k modify new m j :
  upsert k modify new m !! j =
  if decide (k = j) then Some (match m !! k with Some v => modify v | None => new end)
  else m !! j.
Proof. unfold upsert. rewrite lookup_insert. by case_decide. Qed.
End maps.

(** [DashMap] iteration visits every entry once in an unspecified order. *)
Class IterOrder (K V : Type) `{Countable K} := {
  map_iter : gmap K V -> list (K * V);
  map_iter_perm : forall m, map_iter m ≡ₚ map_to_list m
}.

#[global] Program Instance default_iter_order `{Countable K} {V} : IterOrder K V | 100 :=
  {| map_iter := map_to_list |}.
Next Obligation. done. Qed.

Lemma elem_of_map_iter `{IterOrder K V} (m : gmap K V) k v :
  (k, v) ∈ map_iter m <-> m !! k = Some v.
Proof. rewrite map_iter_perm. apply elem_of_map_to_list. Qed.

Lemma map_iter_length `{IterOrder K V} (m : gmap K V) : length (map_iter m) = size m.
Proof. rewrite map_iter_perm. apply length_map_to_list. Qed.

(** ** Runs

    A component with several tasks is a function from labels to steps: [None]
    where a step cannot be taken, else the new state and what leaves the
    component.  A run leaves the state where a step cannot be taken. *)

Section runs.
Context {L S A : Type} (step : L -> S -> outcome (option (S * list A))).

Fixpoint run (ls : list L) (s : S) : outcome (S * list A) :=
  match ls with
  | [] => Done (s, [])
  | l :: ls =>
      r ← step l s;
      let '(s, acts) := default (s, []) r in
      '(s, more) ← run ls s;
      Done (s, acts ++ more)
  end.

Lemma run_app ls ls' s s1 s2 acts acts' :
  run ls s = Done (s1, acts) -> run ls' s1 = Done (s2, acts') -> run (ls ++ ls') s = Done (s2, acts ++ acts').
Proof.
  revert s acts; induction ls as [|l ls IH]; intros s acts E E'; simpl in *; [by simplify_eq|].
  apply bind_Done in E as (r & -> & E). cbn [mbind outcome_bind]. destruct (default _ r) as [s0 acts0].
  apply bind_Done in E as ([s3 acts3] & E3 & E). assert (s3 = s1 /\ acts = acts0 ++ acts3) as [-> ->] by (split; congruence).
  rewrite (IH _ _ E3 E'). cbn [mbind outcome_bind]. by rewrite app_assoc.
Qed.

(** Invariants over a run: [P] of the labels so far and the state, [Q] of what
    has left; steps with [total] labels never panic. *)
Context (label_ok total : L -> Prop) (P : list L -> S -> Prop) (Q : list L -> S -> A -> Prop).

Definition step_inv : Prop := forall ls l s, P ls s -> Forall label_ok (ls ++ [l]) ->
  (total l -> exists r, step l s = Done r) /\
  (forall s' acts, step l s = Done (Some (s', acts)) ->
     P (ls ++ [l]) s' /\ (forall a, Q ls s a -> Q (ls ++ [l]) s' a) /\ Forall (Q (ls ++ [l]) s') acts) /\
  P (ls ++ [l]) s /\ (forall a, Q ls s a -> Q (ls ++ [l]) s a).

Lemma run_inv ls0 ls s acts0 : step_inv ->
  P ls0 s -> Forall label_ok (ls0 ++ ls) -> Forall (Q ls0 s) acts0 ->
  (Forall total ls -> exists r, run ls s = Done r) /\
  forall s' acts, run ls s = Done (s', acts) -> P (ls0 ++ ls) s' /\ Forall (Q (ls0 ++ ls) s') (acts0 ++ acts).
Proof.
  intros Hinv. revert ls0 s acts0; induction ls as [|l ls IH]; intros ls0 s acts0 Ho Hls Ha; cbn [run].
  - split; [eauto|]. intros s' acts [= <- <-]. by rewrite !app_nil_r.
  - rewrite cons_middle, app_assoc in *. assert (Forall label_ok (ls0 ++ [l])) as Hl by (by apply Forall_app in Hls as [? _]).
    destruct (Hinv ls0 l s Ho Hl) as (Hdone & Hok & Hidle & Hkeep).
    assert (forall r, step l s = Done r -> let '(s1, acts1) := default (s, []) r in
      P (ls0 ++ [l]) s1 /\ Forall (Q (ls0 ++ [l]) s1) (acts0 ++ acts1)) as Hstep.
    { intros [[s1 acts1]|] E; simpl.
      - destruct (Hok s1 acts1 E) as (Ho1 & Hm & Ha1). split; [done|]. apply Forall_app. split; [by eapply Forall_impl | done].
      - rewrite app_nil_r. split; [done | by eapply Forall_impl]. }
    split.
    + intros [Hf Hfs]%Forall_cons. destruct (Hdone Hf) as [r Er]. specialize (Hstep r Er). rewrite Er. cbn [mbind outcome_bind].
      destruct (default _ r) as [s1 acts1]. destruct Hstep as [Ho1 Ha1]. destruct (IH (ls0 ++ [l]) s1 _ Ho1 Hls Ha1) as [Hd _].
      destruct (Hd Hfs) as [[s2 acts2] ->]. by eexists.
    + intros s' acts E. apply bind_Done in E as (r & Er & E). specialize (Hstep r Er). destruct (default _ r) as [s1 acts1].
      destruct Hstep as [Ho1 Ha1]. apply bind_Done in E as ([s2 acts2] & E2 & E). injection E as <- <-.
      destruct (IH (ls0 ++ [l]) s1 _ Ho1 Hls Ha1) as [_ Hr]. destruct (Hr _ _ E2) as [Ho2 Ha2]. rewrite app_assoc. done.
Qed.
End runs.

(** ** Hints *)

Create HintDb rust.
Create HintDb rust_len.
#[export] Hint Resolve wrap_in_width len_nonneg le_bytes_bytes : rust.
#[export] Hint Rewrite @le_bytes_length @stable_sort_length @length_app @length_drop @length_take : rust_len.
