(* ===== verification/GraphAlgo.v ===== *)
(** Shortest paths with first hops: [easytier/src/peers/graph_algo.rs].

    [MinScored] is the reversed score order that turns the standard library's
    max-heap into a min-heap; [dijkstra_with_first_hop] is the routing core of
    the overlay.  [std::collections::BinaryHeap] is the interface [BinaryHeap]
    (a multiset whose [pop] removes a greatest element, in an unspecified order
    among equals), so the theorems hold for every way ties are broken.  The
    graph is given by its adjacency function, as petgraph's [IntoEdges] gives
    it.

    The main result, [dijkstra_total_correct], says the loop terminates within
    [1 + number of edges] pops, never panics, and that [scores] holds exactly
    the shortest distances; [first_hop] names the first node and the number of
    edges of a shortest path.  Scores are [usize]: sums wrap around, and the
    hypothesis [no_overflow] is what excludes it. *)

From stdpp Require Import base numbers list gmap sets sorting.
From S2P Require Import Prelude.
Open Scope Z_scope.

(** ** The score order *)

(** What [MinScored] uses of [K: PartialOrd]. *)
Class PartialOrd (K : Type) := {
  po_eq : K -> K -> bool;
  po_lt : K -> K -> bool
}.

Definition po_gt {K} `{PartialOrd K} (a b : K) : bool := po_lt b a.
Definition po_ne {K} `{PartialOrd K} (a b : K) : bool := negb (po_eq a b).

Record MinScored (K T : Type) := mkMinScored { ms_score : K; ms_item : T }.
Arguments mkMinScored {K T} _ _.
Arguments ms_score {K T} _.
Arguments ms_item {K T} _.

(** [Ord::cmp] of [MinScored]. *)
Definition min_scored_cmp {K T} `{PartialOrd K} (self other : MinScored K T) : comparison :=
  let a := ms_score self in
  let b := ms_score other in
  if po_eq a b then Eq
  else if po_lt a b then Gt
  else if po_gt a b then Lt
  else if po_ne a a && po_ne b b then Eq
  else if po_ne a a then Lt
  else Gt.

(** [usize] scores, and scores with an incomparable value (a float's NaN). *)
#[global] Instance po_Z : PartialOrd Z := {| po_eq := Z.eqb; po_lt := Z.ltb |}.

Definition option_eqb (a b : option Z) : bool :=
  match a, b with Some x, Some y => x =? y | _, _ => false end.
Definition option_ltb (a b : option Z) : bool :=
  match a, b with Some x, Some y => x <? y | _, _ => false end.
#[global] Instance po_float : PartialOrd (option Z) :=
  {| po_eq := option_eqb; po_lt := option_ltb |}.

Lemma min_scored_cmp_Z {T} (x y : MinScored Z T) :
  min_scored_cmp x y = Z.compare (ms_score y) (ms_score x).
Proof.
  unfold min_scored_cmp; simpl. unfold po_gt; simpl.
  destruct (Z.eqb_spec (ms_score x) (ms_score y)) as [->|?]; [by rewrite Z.compare_refl|].
  destruct (Z.ltb_spec (ms_score x) (ms_score y)).
  - symmetry; by apply Z.compare_gt_iff.
  - destruct (Z.ltb_spec (ms_score y) (ms_score x)); [|lia].
    symmetry; by apply Z.compare_lt_iff.
Qed.

(** The position of a float score in the order: NaN is below every number, and
    larger numbers are below smaller ones. *)
Definition float_rank_le (a b : option Z) : Prop :=
  match a, b with
  | None, _ => True
  | Some _, None => False
  | Some x, Some y => y <= x
  end.

Lemma min_scored_cmp_float {T} (x y : MinScored (option Z) T) :
  min_scored_cmp x y <> Gt <-> float_rank_le (ms_score x) (ms_score y).
Proof.
  unfold min_scored_cmp, po_gt, po_ne; simpl. unfold float_rank_le, option_eqb, option_ltb.
  destruct (ms_score x) as [a|], (ms_score y) as [b|]; simpl; rewrite ?Z.eqb_refl; simpl;
    repeat case_match; simpl in *; try done; split; intros; try done; lia.
Qed.

(** ** The heap interface *)

Class BinaryHeap {T : Type} (cmp : T -> T -> comparison) := {
  heap_pop : list T -> option (T * list T);
  heap_pop_None : forall l, heap_pop l = None -> l = [];
  heap_pop_Some : forall l x r, heap_pop l = Some (x, r) ->
    l ≡ₚ x :: r /\ forall y, y ∈ l -> cmp y x <> Gt
}.

(** The list-backed heap used to run the model: pops the first of the least scores. *)
Fixpoint pop_min {T} (l : list (MinScored Z T)) : option (MinScored Z T * list (MinScored Z T)) :=
  match l with
  | [] => None
  | x :: l =>
      match pop_min l with
      | None => Some (x, [])
      | Some (y, r) => if ms_score x <=? ms_score y then Some (x, l) else Some (y, x :: r)
      end
  end.

Lemma pop_min_None {T} (l : list (MinScored Z T)) : pop_min l = None -> l = [].
Proof. destruct l; simpl; [done|]. repeat case_match; done. Qed.

Lemma pop_min_Some {T} (l : list (MinScored Z T)) x r :
  pop_min l = Some (x, r) -> l ≡ₚ x :: r /\ forall y, y ∈ l -> min_scored_cmp y x <> Gt.
Proof.
  revert x r; induction l as [|a l IH]; intros x r; simpl; [done|].
  destruct (pop_min l) as [[y r']|] eqn:E.
  - specialize (IH y r' eq_refl) as [Hp Hm].
    destruct (Z.leb_spec (ms_score a) (ms_score y)); intros; simplify_eq.
    + split; [done|]. intros z [->|Hz]%elem_of_cons; rewrite min_scored_cmp_Z.
      * rewrite Z.compare_refl; done.
      * specialize (Hm z Hz). rewrite min_scored_cmp_Z in Hm.
        rewrite Z.compare_gt_iff in *; lia.
    + split; [rewrite Hp; apply Permutation_swap|].
      intros z [->|Hz]%elem_of_cons; [|by apply Hm].
      rewrite min_scored_cmp_Z, Z.compare_gt_iff; lia.
  - intros; simplify_eq. apply pop_min_None in E as ->.
    split; [done|]. intros z ->%list_elem_of_singleton.
    by rewrite min_scored_cmp_Z, Z.compare_refl.
Qed.

#[global] Instance list_heap T : BinaryHeap (@min_scored_cmp Z T _) | 100 :=
  {| heap_pop := pop_min; heap_pop_None := pop_min_None; heap_pop_Some := pop_min_Some |}.

(** ** The algorithm *)

Section dijkstra.
Context `{Countable NodeId} {EdgeRef : Type}.
Context `{!BinaryHeap (@min_scored_cmp Z NodeId _)}.
(** [graph.edges(node)], [edge.target()] and the closure [edge_cost]. *)
Context (graph_edges : NodeId -> list EdgeRef) (target : EdgeRef -> NodeId) (edge_cost : EdgeRef -> Z).
Context (start : NodeId).

Record dij_state := mkDij {
  visited : gset NodeId;
  scores : gmap NodeId Z;
  first_hop : gmap NodeId (NodeId * Z);
  visit_next : list (MinScored Z NodeId)
}.

Definition dij_init : dij_state := {|
  visited := ∅;
  scores := {[ start := 0 ]};
  first_hop := {[ start := (start, 0) ]};
  visit_next := [mkMinScored 0 start]
|}.

Definition improved (next : NodeId) (next_score : Z) (hop : NodeId * Z) (st : dij_state) : dij_state := {|
  visited := visited st;
  scores := <[next := next_score]> (scores st);
  first_hop := <[next := hop]> (first_hop st);
  visit_next := mkMinScored next_score next :: visit_next st
|}.

(** Record a better score: update [scores], push, and inherit the first hop
    of [node] (or start one). *)
Definition improve (node next : NodeId) (next_score : Z) (st : dij_state) : outcome dij_state :=
  hop ← (if bool_decide (node = start) then Done (next, 0)
         else match first_hop st !! node with
              | Some h => Done h
              | None => Panicked IndexOutOfRange
              end);
  Done (improved next next_score (hop.1, as_usize (hop.2 + 1)) st).

(** The body of [for edge in graph.edges(node)]. *)
Definition relax (node : NodeId) (node_score : Z) (edge : EdgeRef) (st : dij_state) : outcome dij_state :=
  let next := target edge in
  if bool_decide (next ∈ visited st) then Done st
  else
    let next_score := as_usize (node_score + edge_cost edge) in
    match scores st !! next with
    | Some old => if next_score <? old then improve node next next_score st else Done st
    | None => improve node next next_score st
    end.

Fixpoint relax_edges (node : NodeId) (node_score : Z) (es : list EdgeRef) (st : dij_state)
    : outcome dij_state :=
  match es with
  | [] => Done st
  | e :: es => st' ← relax node node_score e st; relax_edges node node_score es st'
  end.

Definition visit (node : NodeId) (st : dij_state) : dij_state :=
  {| visited := {[node]} ∪ visited st; scores := scores st; first_hop := first_hop st;
     visit_next := visit_next st |}.

Definition set_heap (h : list (MinScored Z NodeId)) (st : dij_state) : dij_state :=
  {| visited := visited st; scores := scores st; first_hop := first_hop st; visit_next := h |}.

(** [while let Some(MinScored(node_score, node)) = visit_next.pop()]. *)
Fixpoint dijkstra_loop (fuel : nat) (st : dij_state) : outcome dij_state :=
  match fuel with
  | O => Panicked OutOfFuel
  | S fuel =>
      match heap_pop (visit_next st) with
      | None => Done st
      | Some (MinScored_top, rest) =>
          let node := ms_item MinScored_top in
          let node_score := ms_score MinScored_top in
          let st := set_heap rest st in
          if bool_decide (node ∈ visited st) then dijkstra_loop fuel st
          else
            st' ← relax_edges node node_score (graph_edges node) st;
            dijkstra_loop fuel (visit node st')
      end
  end.

Definition dijkstra_with_first_hop (fuel : nat)
    : outcome (gmap NodeId Z * gmap NodeId (NodeId * Z)) :=
  st ← dijkstra_loop fuel dij_init;
  Done (scores st, first_hop st).

(** ** Paths *)

(** [walk v c n]: a walk of [n] edges and total cost [c] from [start] to [v]. *)
Inductive walk : NodeId -> Z -> Z -> Prop :=
| walk_nil : walk start 0 0
| walk_snoc v c n e :
    walk v c n -> e ∈ graph_edges v -> walk (target e) (c + edge_cost e) (n + 1).

(** [walk_via h v c n]: the same, at least one edge long, with [h] the node
    after [start]. *)
Inductive walk_via : NodeId -> NodeId -> Z -> Z -> Prop :=
| via_first e : e ∈ graph_edges start -> walk_via (target e) (target e) (edge_cost e) 1
| via_snoc h v c n e :
    walk_via h v c n -> e ∈ graph_edges v -> walk_via h (target e) (c + edge_cost e) (n + 1).

Lemma walk_via_walk h v c n : walk_via h v c n -> walk v c n.
Proof.
  induction 1.
  - replace (edge_cost e) with (0 + edge_cost e) by lia. change 1 with (0 + 1).
    apply (walk_snoc start); [constructor | done].
  - by apply (walk_snoc v).
Qed.

Definition shortest (v : NodeId) (d : Z) : Prop :=
  (exists n, walk v d n) /\ forall c n, walk v c n -> d <= c.

(** ** Correctness *)

Context (nodes : gset NodeId) (W : Z).
Hypothesis start_in_graph : start ∈ nodes.
Hypothesis edges_in_graph : forall u e, u ∈ nodes -> e ∈ graph_edges u -> target e ∈ nodes.
Hypothesis cost_bound : forall u e, e ∈ graph_edges u -> 0 <= edge_cost e <= W.
Hypothesis no_overflow : Z.of_nat (size nodes) * Z.max 1 W < 2 ^ 64.

(** What each recorded score and first hop stands for; [k] bounds the number
    of edges of the recorded paths. *)
Definition recorded (k : Z) (v : NodeId) (d : Z) (hop : NodeId * Z) : Prop :=
  (v = start /\ d = 0 /\ hop = (start, 0)) \/
  (v <> start /\ walk_via hop.1 v d hop.2 /\ hop.2 <= k /\ d <= k * Z.max 1 W).

Record dij_inv (k : Z) (st : dij_state) : Prop := {
  inv_visited : visited st ⊆ nodes;
  inv_dom : forall v, is_Some (scores st !! v) <-> is_Some (first_hop st !! v);
  inv_recorded : forall v d hop,
    scores st !! v = Some d -> first_hop st !! v = Some hop -> recorded k v d hop;
  inv_nodes : forall v d, scores st !! v = Some d -> v ∈ nodes;
  inv_start : scores st !! start = Some 0;
  inv_heap : forall m, m ∈ visit_next st ->
    exists d, scores st !! ms_item m = Some d /\ d <= ms_score m
}.

(** Every scored node outside [visited] (except the one in progress) is
    queued with its score; visited nodes are scored. *)
Definition queued (busy : NodeId -> Prop) (st : dij_state) : Prop :=
  forall v d, scores st !! v = Some d -> v ∉ visited st -> ~ busy v ->
    mkMinScored d v ∈ visit_next st.

(** The scores of visited nodes are below every queued one. *)
Definition settled (bound : Z) (st : dij_state) : Prop :=
  (forall v, v ∈ visited st -> exists d, scores st !! v = Some d /\ d <= bound) /\
  (forall m, m ∈ visit_next st -> bound <= ms_score m).

Definition relaxed (du : Z) (e : EdgeRef) (st : dij_state) : Prop :=
  exists d, scores st !! target e = Some d /\ d <= du + edge_cost e.

Definition all_relaxed (st : dij_state) : Prop :=
  forall u du e, u ∈ visited st -> scores st !! u = Some du -> e ∈ graph_edges u ->
    relaxed du e st.

(** The state while the edges of [u] (score [du]) are being scanned. *)
Record scanning (k : Z) (u : NodeId) (du : Z) (st : dij_state) : Prop := {
  scan_inv : dij_inv (k + 1) st;
  scan_queued : queued (fun v => v = u) st;
  scan_settled : settled du st;
  scan_relaxed : all_relaxed st;
  scan_score : scores st !! u = Some du;
  scan_hop : forall hop, first_hop st !! u = Some hop -> recorded k u du hop;
  scan_fresh : u ∉ visited st;
  scan_bound : 0 <= k /\ (k + 1) * Z.max 1 W < 2 ^ 64
}.

Definition decreased (st st' : dij_state) : Prop :=
  visited st' = visited st /\
  forall v d, scores st !! v = Some d -> exists d', scores st' !! v = Some d' /\ d' <= d.

Lemma walk_cost_nonneg v c n : walk v c n -> 0 <= c.
Proof. induction 1 as [|v c n e ? IH He]; [lia|]. apply cost_bound in He; lia. Qed.

Lemma recorded_cost k v d hop : 0 <= k -> recorded k v d hop -> 0 <= d <= k * Z.max 1 W.
Proof.
  intros ? [(-> & -> & ->) | (_ & Hw & _ & Hd)]; [lia|].
  apply walk_via_walk, walk_cost_nonneg in Hw. lia.
Qed.

Lemma recorded_mono k k' v d hop : k <= k' -> recorded k v d hop -> recorded k' v d hop.
Proof.
  intros ? [Hs | (? & ? & ? & ?)]; [by left | right; repeat split; try done; nia].
Qed.

Lemma walk_via_len h v c n : walk_via h v c n -> 1 <= n.
Proof. induction 1; lia. Qed.

(** The first hop that [improve] records for [next] belongs to the walk
    through [u]. *)
Lemma extended_hop k u du hop e :
  0 <= k -> (k + 1) * Z.max 1 W < 2 ^ 64 ->
  recorded k u du hop -> e ∈ graph_edges u -> target e <> start ->
  recorded (k + 1) (target e) (du + edge_cost e)
    (let h := if bool_decide (u = start) then (target e, 0) else hop in
     (h.1, as_usize (h.2 + 1))).
Proof.
  intros Hk Hov Hr He Hne. pose proof (cost_bound _ _ He).
  pose proof (recorded_cost _ _ _ _ Hk Hr) as Hd.
  assert (k + 1 < 2 ^ 64) by nia.
  right; split; [done|].
  destruct Hr as [(-> & -> & ->) | (Hu & Hw & Hn & Hdu)].
  - rewrite bool_decide_eq_true_2 by done. cbn -[wrap]. rewrite wrap_small by (split; lia).
    rewrite Z.add_0_l. split; [by constructor | nia].
  - rewrite bool_decide_eq_false_2 by done. cbn -[wrap].
    pose proof (walk_via_len _ _ _ _ Hw).
    rewrite wrap_small by (split; lia). split; [by eapply via_snoc | nia].
Qed.

Section improved.
Context (st : dij_state) (next : NodeId) (ns : Z) (hop : NodeId * Z).
Hypothesis better : forall old, scores st !! next = Some old -> ns < old.

Lemma improved_lower v d :
  scores st !! v = Some d ->
  exists d', scores (improved next ns hop st) !! v = Some d' /\ d' <= d.
Proof.
  intros Hd. cbn. rewrite lookup_insert. case_decide; [subst | by exists d].
  apply better in Hd. eexists; split; [done | lia].
Qed.

Lemma improved_decreased : decreased st (improved next ns hop st).
Proof. split; [done | apply improved_lower]. Qed.

Lemma improved_inv k :
  dij_inv k st -> next ∈ nodes -> next <> start -> recorded k next ns hop ->
  dij_inv k (improved next ns hop st).
Proof.
  intros [Hvis Hdom Hrec Hnodes Hstart Hheap] Hin Hns Hr.
  constructor; cbn; [done | | | | by rewrite lookup_insert_ne |].
  - intros v. rewrite !lookup_insert. case_decide; [by split; intros _; eexists | apply Hdom].
  - intros v d hop'. rewrite !lookup_insert. case_decide; intros; simplify_eq; [done|].
    by eapply Hrec.
  - intros v d. rewrite lookup_insert. case_decide; intros; simplify_eq; [done|].
    by eapply Hnodes.
  - intros m [->|Hm]%elem_of_cons; simpl.
    { rewrite lookup_insert_eq. eexists; split; [done | lia]. }
    destruct (Hheap m Hm) as (d & Hd & ?).
    destruct (improved_lower _ _ Hd) as (d' & ? & ?). exists d'; split; [done | lia].
Qed.

Lemma improved_queued busy : queued busy st -> queued busy (improved next ns hop st).
Proof.
  intros Hq v d. cbn. rewrite lookup_insert. case_decide; intros; simplify_eq.
  - by apply elem_of_cons; left.
  - apply elem_of_cons; right. by apply Hq.
Qed.

Lemma improved_settled bound :
  settled bound st -> next ∉ visited st -> bound <= ns -> settled bound (improved next ns hop st).
Proof.
  intros [Hs1 Hs2] Hnv ?; split; cbn.
  - intros v Hv. rewrite lookup_insert_ne by (intros <-; done). by apply Hs1.
  - intros m [->|Hm]%elem_of_cons; simpl; [lia | by apply Hs2].
Qed.

Lemma improved_all_relaxed :
  all_relaxed st -> next ∉ visited st -> all_relaxed (improved next ns hop st).
Proof.
  intros Har Hnv w dw e Hw. cbn. rewrite lookup_insert_ne by (intros <-; done).
  intros Hdw He. destruct (Har w dw e Hw Hdw He) as (d & Hd & ?).
  destruct (improved_lower _ _ Hd) as (d' & ? & ?). exists d'; split; [done | lia].
Qed.
End improved.

Lemma improve_spec k u du e st :
  scanning k u du st -> e ∈ graph_edges u -> target e ∉ visited st ->
  (forall old, scores st !! target e = Some old -> du + edge_cost e < old) ->
  exists st', improve u (target e) (du + edge_cost e) st = Done st' /\
    scanning k u du st' /\ decreased st st' /\ relaxed du e st' /\
    (length (visit_next st') <= length (visit_next st) + 1)%nat.
Proof.
  intros [Hinv Hq Hs Har Hsc Hhop Hfr [Hk Hov]] He Hnv Hold.
  pose proof (cost_bound _ _ He) as Hc.
  assert (exists hop, first_hop st !! u = Some hop) as [hop Hfh]
    by (apply (inv_dom _ _ Hinv); eauto).
  pose proof (recorded_cost _ _ _ _ Hk (Hhop _ Hfh)) as Hdu.
  assert (target e <> start) as Hns.
  { intros E. rewrite E in Hold. specialize (Hold 0 (inv_start _ _ Hinv)). lia. }
  assert (target e <> u) as Hnu.
  { intros E. rewrite E in Hold. specialize (Hold du Hsc). lia. }
  assert (target e ∈ nodes) as Hin
    by (eapply edges_in_graph; [by eapply (inv_nodes _ _ Hinv) | done]).
  pose proof (extended_hop _ _ _ _ _ Hk Hov (Hhop _ Hfh) He Hns) as Hnew. cbv zeta in Hnew.
  set (h := if bool_decide (u = start) then (target e, 0) else hop) in Hnew.
  exists (improved (target e) (du + edge_cost e) (h.1, as_usize (h.2 + 1)) st). split.
  { unfold improve, h. rewrite Hfh. by case_bool_decide. }
  split; [|split; [by apply improved_decreased | split]].
  - constructor; try done.
    + by apply improved_inv.
    + by apply improved_queued.
    + apply improved_settled; [done | done | lia].
    + by apply improved_all_relaxed.
    + cbn. by rewrite lookup_insert_ne.
    + cbn. by rewrite lookup_insert_ne.
  - unfold relaxed; cbn. rewrite lookup_insert_eq. eexists; split; [done | lia].
  - cbn. lia.
Qed.

Lemma decreased_refl st : decreased st st.
Proof. split; [done|]. intros v d ?; by exists d. Qed.

Lemma decreased_trans st1 st2 st3 : decreased st1 st2 -> decreased st2 st3 -> decreased st1 st3.
Proof.
  intros [E1 H1] [E2 H2]; split; [congruence|]. intros v d Hd.
  apply H1 in Hd as (d1 & Hd1 & ?). apply H2 in Hd1 as (d2 & ? & ?).
  exists d2; split; [done | lia].
Qed.

Lemma relaxed_decreased du e st st' : decreased st st' -> relaxed du e st -> relaxed du e st'.
Proof.
  intros [_ Hd] (d & Hs & ?). apply Hd in Hs as (d' & ? & ?). exists d'; split; [done | lia].
Qed.

Lemma scanning_score k u du st : scanning k u du st -> 0 <= du <= k * Z.max 1 W.
Proof.
  intros Hs. assert (exists hop, first_hop st !! u = Some hop) as [hop Hfh].
  { apply (inv_dom _ _ (scan_inv _ _ _ _ Hs)). rewrite (scan_score _ _ _ _ Hs); eauto. }
  apply (recorded_cost k u du hop); [apply (scan_bound _ _ _ _ Hs) | by apply (scan_hop _ _ _ _ Hs)].
Qed.

Lemma relax_spec k u du e st :
  scanning k u du st -> e ∈ graph_edges u ->
  exists st', relax u du e st = Done st' /\
    scanning k u du st' /\ decreased st st' /\ relaxed du e st' /\
    (length (visit_next st') <= length (visit_next st) + 1)%nat.
Proof.
  intros Hs He. pose proof (cost_bound _ _ He) as Hc. pose proof (scanning_score _ _ _ _ Hs) as Hdu.
  pose proof (scan_bound _ _ _ _ Hs) as [? ?].
  unfold relax. case_bool_decide as Hv.
  - exists st. split_and!; [done | done | apply decreased_refl | | lia].
    destruct (scan_settled _ _ _ _ Hs) as [Hset _].
    destruct (Hset _ Hv) as (d & ? & ?). exists d; split; [done | lia].
  - rewrite wrap_small by (split; nia).
    destruct (scores st !! target e) as [old|] eqn:Eo.
    + destruct (Z.ltb_spec (du + edge_cost e) old).
      * apply improve_spec; [done..|]. intros old' Ho; simplify_eq; done.
      * exists st. split_and!; [done | done | apply decreased_refl | by exists old | lia].
    + apply improve_spec; [done..|]. intros old' Ho; simplify_eq.
Qed.

Lemma relax_edges_spec k u du es st :
  scanning k u du st -> es ⊆ graph_edges u ->
  exists st', relax_edges u du es st = Done st' /\
    scanning k u du st' /\ decreased st st' /\
    (forall e, e ∈ es -> relaxed du e st') /\
    (length (visit_next st') <= length (visit_next st) + length es)%nat.
Proof.
  revert st; induction es as [|e es IH]; intros st Hs Hes; simpl.
  - exists st. split_and!; [done | done | apply decreased_refl | set_solver | lia].
  - destruct (relax_spec k u du e st) as (st1 & -> & Hs1 & Hd1 & Hr1 & Hl1); [done | set_solver |].
    simpl. destruct (IH st1) as (st2 & -> & Hs2 & Hd2 & Hr2 & Hl2); [done | set_solver |].
    exists st2. split; [done|]. split; [done|].
    split; [by eapply decreased_trans|]. split; [|lia].
    intros e' [->|?]%elem_of_cons; [by eapply relaxed_decreased | by apply Hr2].
Qed.

(** The state at the head of the [while] loop. *)
Record ready (st : dij_state) : Prop := {
  ready_inv : dij_inv (Z.of_nat (size (visited st))) st;
  ready_queued : queued (fun _ => False) st;
  ready_relaxed : all_relaxed st;
  ready_settled : exists bound, settled bound st
}.

Lemma dij_inv_heap k k' h st :
  k <= k' -> h ⊆ visit_next st -> dij_inv k st -> dij_inv k' (set_heap h st).
Proof.
  intros Hk Hh [? ? Hrec ? ? Hheap]; constructor; cbn; try done.
  - intros; eapply recorded_mono; [done | by eapply Hrec].
  - intros m Hm. by apply Hheap, Hh.
Qed.

Lemma queued_rest busy m rest st :
  visit_next st ≡ₚ m :: rest -> queued busy st ->
  queued (fun v => busy v \/ v = ms_item m) (set_heap rest st).
Proof.
  intros Hp Hq v d Hs Hv Hb. cbn in *.
  assert (mkMinScored d v ∈ m :: rest) as [E|?]%elem_of_cons; [| |done].
  - rewrite <- Hp. apply Hq; tauto.
  - destruct Hb. right. by rewrite <- E.
Qed.

(** A popped unvisited node carries its final score. *)
Lemma pop_score m rest st :
  ready st -> heap_pop (visit_next st) = Some (m, rest) -> ms_item m ∉ visited st ->
  scores st !! ms_item m = Some (ms_score m).
Proof.
  intros [Hinv Hq _ _] Hpop Hv. apply heap_pop_Some in Hpop as [Hp Hmin].
  destruct (inv_heap _ _ Hinv m) as (d & Hd & Hle); [rewrite Hp; set_solver|].
  assert (mkMinScored d (ms_item m) ∈ visit_next st) as Hin by (by apply Hq; auto).
  apply Hmin in Hin. rewrite min_scored_cmp_Z, Z.compare_gt_iff in Hin; simpl in Hin.
  rewrite Hd. f_equal. lia.
Qed.

Lemma visited_room st u : visited st ⊆ nodes -> u ∈ nodes -> u ∉ visited st ->
  (Z.of_nat (size (visited st)) + 1) * Z.max 1 W < 2 ^ 64.
Proof.
  intros Hsub Hu Hv. eapply Z.le_lt_trans; [|exact no_overflow].
  apply Z.mul_le_mono_nonneg_r; [lia|].
  assert (size ({[u]} ∪ visited st) <= size nodes)%nat as Hsz by (apply subseteq_size; set_solver).
  rewrite size_union, size_singleton in Hsz by set_solver. lia.
Qed.

Lemma pop_scanning m rest st :
  ready st -> heap_pop (visit_next st) = Some (m, rest) -> ms_item m ∉ visited st ->
  scanning (Z.of_nat (size (visited st))) (ms_item m) (ms_score m) (set_heap rest st).
Proof.
  intros Hready Hpop Hv. pose proof (pop_score _ _ _ Hready Hpop Hv) as Hsc.
  destruct Hready as [Hinv Hq Har [b [Hs1 Hs2]]].
  apply heap_pop_Some in Hpop as [Hp Hmin].
  constructor; cbn; try done.
  - eapply dij_inv_heap; [|intros x Hx; rewrite Hp; set_solver | done]. lia.
  - eapply queued_rest in Hq; [|done]. intros v d ?? Hne. apply Hq; tauto.
  - split; cbn.
    + intros v Hvis. destruct (Hs1 v Hvis) as (d & ? & ?). exists d; split; [done|].
      enough (b <= ms_score m) by lia. apply Hs2. rewrite Hp; set_solver.
    + intros m' Hm'. assert (m' ∈ visit_next st) as Hin by (rewrite Hp; set_solver).
      apply Hmin in Hin. rewrite min_scored_cmp_Z, Z.compare_gt_iff in Hin. lia.
  - intros hop Hfh. by eapply (inv_recorded _ _ Hinv).
  - split; [lia|]. apply (visited_room st (ms_item m)); [apply Hinv | | done].
    by eapply (inv_nodes _ _ Hinv).
Qed.

Lemma visit_ready u du st0 st :
  scanning (Z.of_nat (size (visited st0))) u du st -> visited st = visited st0 ->
  (forall e, e ∈ graph_edges u -> relaxed du e st) ->
  ready (visit u st).
Proof.
  intros [Hinv Hq [Hs1 Hs2] Har Hsc _ Hfr _] Ev Hrel. constructor.
  - cbn. rewrite size_union, size_singleton by set_solver. rewrite Ev.
    replace (Z.of_nat (1 + size (visited st0))) with (Z.of_nat (size (visited st0)) + 1) by lia.
    destruct Hinv as [Hvis ? ? Hn ? ?]; constructor; cbn; try done.
    apply Hn in Hsc. set_solver.
  - intros v d Hv Hnv _. cbn in *. apply Hq; set_solver.
  - intros w dw e Hw Hdw He. cbn in *. apply elem_of_union in Hw as [->%elem_of_singleton|Hw].
    + rewrite Hsc in Hdw. simplify_eq. by apply Hrel.
    + by apply (Har w dw e).
  - exists du. split; cbn; [|done]. intros v [->%elem_of_singleton|Hv]%elem_of_union; [|by apply Hs1].
    by exists du.
Qed.

Lemma skip_ready m rest st :
  ready st -> heap_pop (visit_next st) = Some (m, rest) -> ms_item m ∈ visited st ->
  ready (set_heap rest st).
Proof.
  intros [Hinv Hq Har [b [Hs1 Hs2]]] Hpop Hv. apply heap_pop_Some in Hpop as [Hp _].
  assert (rest ⊆ visit_next st) as Hsub by (intros x Hx; rewrite Hp; set_solver).
  constructor; try done.
  - eapply dij_inv_heap; [|done..]. done.
  - eapply queued_rest in Hq; [|done]. intros v d ? Hnv _. apply Hq; [done..|].
    cbn in Hnv. intros [[]| ->]. done.
  - exists b. split; [done|]. intros m' Hm'. by apply Hs2, Hsub.
Qed.

(** Work left: queued entries plus the edges of the unvisited nodes. *)
Definition pending_edges (X : gset NodeId) : nat := length (elements X ≫= graph_edges).

Definition work (st : dij_state) : nat :=
  (length (visit_next st) + pending_edges (nodes ∖ visited st))%nat.

Lemma pending_edges_delete u X :
  u ∈ X -> pending_edges X = (length (graph_edges u) + pending_edges (X ∖ {[u]}))%nat.
Proof.
  intros Hu. unfold pending_edges.
  rewrite (union_difference_singleton_L u X Hu) at 1.
  rewrite elements_union_singleton by set_solver. simpl. by rewrite length_app.
Qed.

Lemma dijkstra_loop_total fuel st :
  ready st -> (work st < fuel)%nat ->
  exists st', dijkstra_loop fuel st = Done st' /\ ready st' /\ visit_next st' = [].
Proof.
  revert st; induction fuel as [|fuel IH]; intros st Hr Hw; [lia|]. simpl.
  destruct (heap_pop (visit_next st)) as [[m rest]|] eqn:Hpop.
  2: { exists st. split_and!; try done. by apply heap_pop_None. }
  pose proof Hpop as [Hp _]%heap_pop_Some. apply Permutation_length in Hp; simpl in Hp.
  unfold work in Hw. case_bool_decide as Hv; cbn in Hv.
  - apply IH; [by eapply skip_ready|]. unfold work; cbn. lia.
  - pose proof (pop_scanning _ _ _ Hr Hpop Hv) as Hscan.
    assert (ms_item m ∈ nodes) as Hin
      by (eapply (inv_nodes _ _ (scan_inv _ _ _ _ Hscan)), scan_score; done).
    destruct (relax_edges_spec _ _ _ (graph_edges (ms_item m)) _ Hscan)
      as (st1 & -> & Hs1 & [Ev _] & Hrel & Hl); [done|].
    cbn in Ev, Hl |- *. apply IH; [by eapply visit_ready|].
    unfold work; cbn. rewrite Ev.
    rewrite (pending_edges_delete (ms_item m)) in Hw by set_solver.
    replace (nodes ∖ ({[ms_item m]} ∪ visited st)) with ((nodes ∖ visited st) ∖ {[ms_item m]})
      by set_solver. lia.
Qed.

Lemma init_ready : ready (dij_init).
Proof.
  constructor.
  - constructor; cbn; [set_solver | | | | by rewrite lookup_singleton_eq |].
    + intros v. destruct (decide (v = start)) as [->|?].
      * rewrite !lookup_singleton_eq. by split; intros _; eexists.
      * by rewrite !lookup_singleton_ne by done.
    + intros v d hop [<- <-]%lookup_singleton_Some [_ <-]%lookup_singleton_Some. by left.
    + intros v d [<- _]%lookup_singleton_Some. done.
    + intros m ->%list_elem_of_singleton; simpl. rewrite lookup_singleton_eq. by exists 0.
  - intros v d; cbn. intros [<- <-]%lookup_singleton_Some _ _. set_solver.
  - intros u du e Hu. cbn in Hu. set_solver.
  - exists 0. split; cbn; [set_solver|]. intros m ->%list_elem_of_singleton. done.
Qed.

(** In a finished state every walk is matched by a recorded score. *)
Lemma finished_lower st v c n :
  ready st -> visit_next st = [] -> walk v c n -> exists d, scores st !! v = Some d /\ d <= c.
Proof.
  intros [Hinv Hq Har _] Hh. induction 1 as [|v c n e Hw IH He].
  - exists 0. split; [apply Hinv | done].
  - destruct IH as (d & Hd & ?).
    assert (v ∈ visited st) as Hv.
    { destruct (decide (v ∈ visited st)) as [|Hv]; [done|].
      specialize (Hq v d Hd Hv (fun x => x)). rewrite Hh in Hq. set_solver. }
    destruct (Har v d e Hv Hd He) as (d' & ? & ?). exists d'. split; [done | lia].
Qed.

Lemma recorded_walk k v d hop : recorded k v d hop -> walk v d hop.2.
Proof.
  intros [(-> & -> & ->) | (_ & Hw & _)]; [constructor | by eapply walk_via_walk].
Qed.

Lemma finished_shortest st v d :
  ready st -> visit_next st = [] -> scores st !! v = Some d <-> shortest v d.
Proof.
  intros Hr Hh. split.
  - intros Hd. pose proof (ready_inv _ Hr) as Hinv.
    assert (exists hop, first_hop st !! v = Some hop) as [hop Hf]
      by (apply (inv_dom _ _ Hinv); eauto).
    split; [exists hop.2; by eapply recorded_walk, (inv_recorded _ _ Hinv)|].
    intros c n Hw. destruct (finished_lower st v c n) as (d' & ? & ?); [done..|].
    simplify_eq; lia.
  - intros [[n Hw] Hmin]. destruct (finished_lower st v d n) as (d' & Hd' & ?); [done..|].
    pose proof (ready_inv _ Hr) as Hinv.
    assert (exists hop, first_hop st !! v = Some hop) as [hop Hf]
      by (apply (inv_dom _ _ Hinv); eauto).
    pose proof (recorded_walk _ _ _ _ (inv_recorded _ _ Hinv _ _ _ Hd' Hf)) as Hw'.
    apply Hmin in Hw'. rewrite Hd'. f_equal. lia.
Qed.

(** What a result of [dijkstra_with_first_hop] promises to its callers. *)
Record dijkstra_result_spec (sc : gmap NodeId Z) (fh : gmap NodeId (NodeId * Z)) : Prop := {
  spec_scores : forall v d, sc !! v = Some d <-> shortest v d;
  spec_reach : forall v c n, walk v c n -> is_Some (sc !! v);
  spec_dom : forall v, is_Some (sc !! v) <-> is_Some (fh !! v);
  spec_start : fh !! start = Some (start, 0);
  spec_hop : forall v h n, v <> start -> fh !! v = Some (h, n) ->
    exists d, shortest v d /\ walk_via h v d n;
  spec_bound : forall v d, sc !! v = Some d -> d <= Z.of_nat (size nodes) * Z.max 1 W
}.

Lemma dijkstra_correct fuel :
  (1 + pending_edges nodes < fuel)%nat ->
  exists sc fh, dijkstra_with_first_hop fuel = Done (sc, fh) /\ dijkstra_result_spec sc fh.
Proof.
  intros Hfuel. destruct (dijkstra_loop_total fuel dij_init) as (st & Hrun & Hr & Hh).
  { apply init_ready. }
  { unfold work; cbn. rewrite difference_empty_L. lia. }
  exists (scores st), (first_hop st). unfold dijkstra_with_first_hop. rewrite Hrun.
  split; [done|]. pose proof (ready_inv _ Hr) as Hinv. constructor.
  - intros v d. by apply finished_shortest.
  - intros v c n Hw. edestruct finished_lower as (d & -> & _); [done..|]. by eexists.
  - apply Hinv.
  - pose proof (inv_start _ _ Hinv) as Hs.
    assert (exists hop, first_hop st !! start = Some hop) as [hop Hf]
      by (apply (inv_dom _ _ Hinv); eauto).
    destruct (inv_recorded _ _ Hinv _ _ _ Hs Hf) as [(_ & _ & ->) | (? & _)]; done.
  - intros v h n Hne Hf.
    assert (exists d, scores st !! v = Some d) as [d Hd] by (apply (inv_dom _ _ Hinv); eauto).
    exists d. split; [by apply (finished_shortest st)|].
    by destruct (inv_recorded _ _ Hinv _ _ _ Hd Hf) as [(? & _) | (_ & ? & _)].
  - intros v d Hd. assert (exists hop, first_hop st !! v = Some hop) as [hop Hf] by (apply (inv_dom _ _ Hinv); eauto).
    pose proof (recorded_cost _ _ _ _ (Nat2Z.is_nonneg _) (inv_recorded _ _ Hinv _ _ _ Hd Hf)) as [_ Hle].
    pose proof (subseteq_size _ _ (inv_visited _ _ Hinv)). nia.
Qed.
End dijkstra.

(** ** Properties *)

(** C1.  For a finite graph whose costs are non-negative and whose path sums
  stay within [usize], [dijkstra_with_first_hop] terminates without a panic
  once the heap may be popped [2 + edges] times, whatever the heap does with
  ties; [scores] then holds exactly the shortest distances from [start], a
  node is scored iff it is reachable, and [first_hop] gives, for each reachable
  node other than [start], the first node and the edge count of a walk of
  that shortest cost. *)
Theorem dijkstra_total_correct `{Countable NodeId} {EdgeRef : Type}
  `{!BinaryHeap (@min_scored_cmp Z NodeId _)}
  (graph_edges : NodeId -> list EdgeRef) (target : EdgeRef -> NodeId) (edge_cost : EdgeRef -> Z)
  (start : NodeId) (nodes : gset NodeId) (W : Z)
  (Hstart : start ∈ nodes)
  (Hclosed : forall u e, u ∈ nodes -> e ∈ graph_edges u -> target e ∈ nodes)
  (Hcost : forall u e, e ∈ graph_edges u -> 0 <= edge_cost e <= W)
  (Hov : Z.of_nat (size nodes) * Z.max 1 W < 2 ^ 64) :
exists sc fh,
  dijkstra_with_first_hop graph_edges target edge_cost start
    (2 + length (elements nodes ≫= graph_edges)) = Done (sc, fh) /\
  (forall v d, sc !! v = Some d <->
     (exists n, walk graph_edges target edge_cost start v d n) /\
     (forall c n, walk graph_edges target edge_cost start v c n -> d <= c)) /\
  (forall v, is_Some (sc !! v) <-> exists c n, walk graph_edges target edge_cost start v c n) /\
  fh !! start = Some (start, 0) /\
  (forall v h n, v <> start -> fh !! v = Some (h, n) ->
     exists d, sc !! v = Some d /\ walk_via graph_edges target edge_cost start h v d n) /\
  dom fh = dom sc.
Proof.
destruct (dijkstra_correct graph_edges target edge_cost start nodes W Hstart Hclosed Hcost Hov
            (2 + length (elements nodes ≫= graph_edges))) as (sc & fh & Hrun & Hs);
  [unfold pending_edges; lia|].
exists sc, fh. split_and!; try done.
- intros v d. apply (spec_scores _ _ _ _ _ _ _ _ Hs).
- intros v. split.
  + intros [d Hd]. apply (spec_scores _ _ _ _ _ _ _ _ Hs) in Hd as [[n ?] _]. eauto.
  + intros (c & n & Hw). by eapply (spec_reach _ _ _ _ _ _ _ _ Hs).
- apply (spec_start _ _ _ _ _ _ _ _ Hs).
- intros v h n Hne Hf. destruct (spec_hop _ _ _ _ _ _ _ _ Hs v h n Hne Hf) as (d & Hd & ?).
  exists d. by rewrite (spec_scores _ _ _ _ _ _ _ _ Hs).
- apply set_eq. intros v. rewrite !elem_of_dom. symmetry. apply (spec_dom _ _ _ _ _ _ _ _ Hs).
Qed.

(** The five-node graph of the source's unit test, as adjacency lists. *)
Definition test_graph (u : nat) : list (nat * Z) :=
match u with
| 0%nat => [(1%nat, 1); (2%nat, 2)]
| 1%nat => [(3%nat, 1)]
| 2%nat => [(3%nat, 3)]
| 3%nat => [(4%nat, 1)]
| _ => []
end.

Example test_graph_run :
dijkstra_with_first_hop test_graph fst snd 0%nat 7 =
Done (list_to_map [(0%nat, 0); (1%nat, 1); (2%nat, 2); (3%nat, 2); (4%nat, 3)],
      list_to_map [(0%nat, (0%nat, 0)); (1%nat, (1%nat, 1)); (2%nat, (2%nat, 1));
                   (3%nat, (1%nat, 2)); (4%nat, (1%nat, 3))]).
Proof. vm_compute. reflexivity. Qed.

Lemma dijkstra_total_correct_witness :
exists sc fh,
  dijkstra_with_first_hop test_graph fst snd 0%nat 7 = Done (sc, fh) /\
  (forall c n, walk test_graph fst snd 0%nat 4%nat c n -> 3 <= c) /\
  sc !! 4%nat = Some 3.
Proof.
assert (forall u e, e ∈ test_graph u -> (u < 4)%nat /\ (e.1 < 5)%nat /\ 0 <= e.2 <= 3) as Hg.
{ intros u e He. destruct u as [|[|[|[|u]]]]; simpl in He; set_unfold;
    destruct_or?; subst; simpl; try done; lia. }
destruct (dijkstra_total_correct test_graph fst snd 0%nat (set_seq 0 5) 3)
  as (sc & fh & Hrun & Hsc & _).
- apply elem_of_set_seq; lia.
- intros u e Hu He. apply Hg in He. apply elem_of_set_seq. lia.
- intros u e He. apply Hg in He. lia.
- vm_compute. reflexivity.
- change (2 + length (elements (set_seq 0 5 : gset nat) ≫= test_graph))%nat with 7%nat in Hrun.
  exists sc, fh. split; [exact Hrun|].
  assert (sc !! 4%nat = Some 3) as H4.
  { rewrite test_graph_run in Hrun. injection Hrun as <- _. vm_compute. reflexivity. }
  split; [|exact H4]. apply (proj1 (Hsc 4%nat 3) H4).
Defined.

(** [MinScored]'s [Ord] is a total order on scores even when some are
  incomparable (NaN): antisymmetric up to [Equal], transitive, and NaN never
  compares above a number. *)
Theorem min_scored_cmp_total {T} (x y z : MinScored (option Z) T) :
min_scored_cmp x y = CompOpp (min_scored_cmp y x) /\
(min_scored_cmp x y <> Gt -> min_scored_cmp y z <> Gt -> min_scored_cmp x z <> Gt) /\
(ms_score x = None -> min_scored_cmp x y <> Gt).
Proof.
split_and!.
- unfold min_scored_cmp, po_gt, po_ne; simpl. unfold option_eqb, option_ltb.
  destruct (ms_score x) as [a|], (ms_score y) as [b|]; simpl; rewrite ?Z.eqb_refl; simpl; try done;
    [| repeat case_match; try done; lia ..].
  rewrite (Z.eqb_sym b a). repeat case_match; simpl in *; try done; lia.
- rewrite !min_scored_cmp_float. unfold float_rank_le.
  destruct (ms_score x), (ms_score y), (ms_score z); try done; lia.
- rewrite min_scored_cmp_float. by intros ->.
Qed.

Lemma min_scored_cmp_total_witness :
min_scored_cmp (mkMinScored None 0%nat) (mkMinScored (Some 5) 1%nat) <> Gt.
Proof.
apply (proj2 (proj2 (min_scored_cmp_total (mkMinScored None 0%nat) (mkMinScored (Some 5) 1%nat)
                       (mkMinScored None 2%nat)))).
reflexivity.
Defined.
