(* ===== verification/PacketDef.v ===== *)
(** Wire format and zero-copy packet buffer:
    [easytier/src/tunnel/packet_def.rs].

    Packed headers are records with a byte encoding (class [Packed], the part
    of zerocopy's [AsBytes]/[FromBytes] the code uses, little-endian integers);
    a [ZCPacket] is its byte buffer and its type.  A [&mut] view of a header or
    of the payload is a pair of the current value and the write-back into the
    packet.  [BytesMut::set_len] exposes uninitialised memory: its content is
    the parameter [junk], so the theorems hold for every content.

    Results: headers round-trip through their encodings; each flag setter
    changes exactly its flag and never panics; [convert_type] keeps the peer
    manager header and payload for every pair of types; a packet wrapped for a
    foreign network unwraps to the same network name, peer and inner packet,
    and wrapping a name longer than the 16-bit header can describe panics. *)

From stdpp Require Import base numbers list sets.
From S2P Require Import Prelude.
Open Scope Z_scope.

(** ** Packed headers *)

(** [as_bytes], [from_bytes] and [size_of] of a [#[repr(C, packed)]] struct. *)
Class Packed (H : Type) := {
  size_of : nat;
  as_bytes : H -> bytes;
  from_bytes : bytes -> H;
  in_range : H -> Prop
}.

Class PackedLaws (H : Type) `{Packed H} := {
  as_bytes_length : forall h, in_range h -> length (as_bytes h) = size_of;
  as_bytes_byte_list : forall h, in_range h -> byte_list (as_bytes h);
  from_as_bytes : forall h, in_range h -> from_bytes (as_bytes h) = h;
  as_from_bytes : forall l, byte_list l -> length l = size_of -> as_bytes (from_bytes l) = l;
  from_bytes_in_range : forall l, byte_list l -> length l = size_of -> in_range (from_bytes l)
}.

(** [n] bytes at offset [k]: a little-endian integer, or the raw array. *)
Definition field_bytes (k n : nat) (l : bytes) : bytes := take n (drop k l).
Definition field (k n : nat) (l : bytes) : Z := le_val (field_bytes k n l).

Lemma field_bytes_length k n l : (k + n <= length l)%nat -> length (field_bytes k n l) = n.
Proof. unfold field_bytes. rewrite length_take, length_drop. lia. Qed.

Lemma field_bytes_byte_list k n l : byte_list l -> byte_list (field_bytes k n l).
Proof. intros. by apply Forall_take, Forall_drop. Qed.

Lemma le_bytes_field k n l :
  byte_list l -> (k + n <= length l)%nat -> le_bytes n (field k n l) = field_bytes k n l.
Proof.
  intros. apply le_bytes_le_val; [by apply field_bytes_byte_list | by apply field_bytes_length].
Qed.

Lemma field_in_width k n l : byte_list l -> (k + n <= length l)%nat ->
  in_width (8 * Z.of_nat n) (field k n l).
Proof.
  intros Hb Hl. pose proof (le_val_le_bytes n (field k n l)) as E.
  rewrite le_bytes_field in E by done. fold (field k n l) in E. rewrite E at 1.
  apply (wrap_in_width (8 * Z.of_nat n)). lia.
Qed.

Lemma field_app_here n z l : in_width (8 * Z.of_nat n) z -> field 0 n (le_bytes n z ++ l) = z.
Proof.
  intros Hz. unfold field, field_bytes. rewrite drop_0.
  rewrite take_app_length' by (symmetry; apply le_bytes_length).
  rewrite le_val_le_bytes. by apply wrap_small.
Qed.

Lemma field_here n z : in_width (8 * Z.of_nat n) z -> field 0 n (le_bytes n z) = z.
Proof. intros. rewrite <- (app_nil_r (le_bytes n z)). by apply field_app_here. Qed.

Lemma field_bytes_app_here n a l : length a = n -> field_bytes 0 n (a ++ l) = a.
Proof. intros. unfold field_bytes. rewrite drop_0. by apply take_app_length'. Qed.

Lemma field_bytes_here n a : length a = n -> field_bytes 0 n a = a.
Proof. intros. unfold field_bytes. rewrite drop_0. apply take_ge; lia. Qed.

Lemma field_bytes_skip a k n l :
  (length a <= k)%nat -> field_bytes k n (a ++ l) = field_bytes (k - length a) n l.
Proof. intros. unfold field_bytes. by rewrite drop_app_ge. Qed.

Lemma field_skip a k n l : (length a <= k)%nat -> field k n (a ++ l) = field (k - length a) n l.
Proof. intros. unfold field. by rewrite field_bytes_skip. Qed.

Lemma byte_list_app l k : byte_list (l ++ k) <-> byte_list l /\ byte_list k.
Proof. apply Forall_app. Qed.

Record TCPTunnelHeader := { tcp_len : Z }.
Definition TCP_TUNNEL_HEADER_SIZE : Z := 4.

#[global] Instance tcp_packed : Packed TCPTunnelHeader := {|
  size_of := 4;
  as_bytes h := le_bytes 4 (tcp_len h);
  from_bytes l := {| tcp_len := field 0 4 l |};
  in_range h := in_width 32 (tcp_len h)
|}.

Inductive UdpPacketType := UdpInvalid | UdpSyn | UdpSack | UdpData | UdpFin | UdpHolePunch | UdpV6HolePunch.

Definition udp_packet_type_u8 (t : UdpPacketType) : Z :=
  match t with
  | UdpInvalid => 0 | UdpSyn => 1 | UdpSack => 2 | UdpData => 3 | UdpFin => 4
  | UdpHolePunch => 5 | UdpV6HolePunch => 6
  end.

Record V6HolePunchPacket := { dst_ipv6 : bytes; dst_port : Z }.

#[global] Instance v6_hole_punch_packed : Packed V6HolePunchPacket := {|
  size_of := 18;
  as_bytes h := dst_ipv6 h ++ le_bytes 2 (dst_port h);
  from_bytes l := {| dst_ipv6 := field_bytes 0 16 l; dst_port := field 16 2 l |};
  in_range h := length (dst_ipv6 h) = 16%nat /\ byte_list (dst_ipv6 h) /\ in_width 16 (dst_port h)
|}.

Record UDPTunnelHeader := { udp_conn_id : Z; udp_msg_type : Z; udp_padding : Z; udp_len : Z }.
Definition UDP_TUNNEL_HEADER_SIZE : Z := 8.

#[global] Instance udp_packed : Packed UDPTunnelHeader := {|
  size_of := 8;
  as_bytes h := le_bytes 4 (udp_conn_id h) ++ le_bytes 1 (udp_msg_type h)
                ++ le_bytes 1 (udp_padding h) ++ le_bytes 2 (udp_len h);
  from_bytes l := {| udp_conn_id := field 0 4 l; udp_msg_type := field 4 1 l;
                     udp_padding := field 5 1 l; udp_len := field 6 2 l |};
  in_range h := in_width 32 (udp_conn_id h) /\ in_width 8 (udp_msg_type h) /\
                in_width 8 (udp_padding h) /\ in_width 16 (udp_len h)
|}.

Record WGTunnelHeader := { wg_ipv4_header : bytes }.
Definition WG_TUNNEL_HEADER_SIZE : Z := 20.

#[global] Instance wg_packed : Packed WGTunnelHeader := {|
  size_of := 20;
  as_bytes h := wg_ipv4_header h;
  from_bytes l := {| wg_ipv4_header := l |};
  in_range h := length (wg_ipv4_header h) = 20%nat /\ byte_list (wg_ipv4_header h)
|}.

Inductive PacketType :=
| PktInvalid | PktData | PktHandShake | PktRoutePacket | PktPing | PktPong | PktTaRpc | PktRoute
| PktRpcReq | PktRpcResp | PktForeignNetworkPacket | PktKcpSrc | PktKcpDst.

Definition packet_type_u8 (t : PacketType) : Z :=
  match t with
  | PktInvalid => 0 | PktData => 1 | PktHandShake => 2 | PktRoutePacket => 3 | PktPing => 4
  | PktPong => 5 | PktTaRpc => 6 | PktRoute => 7 | PktRpcReq => 8 | PktRpcResp => 9
  | PktForeignNetworkPacket => 10 | PktKcpSrc => 11 | PktKcpDst => 12
  end.

Record PeerManagerHeader := {
  from_peer_id : Z; to_peer_id : Z; pm_packet_type : Z; pm_flags : Z;
  forward_counter : Z; reserved : Z; pm_len : Z
}.
Definition PEER_MANAGER_HEADER_SIZE : Z := 16.

#[global] Instance pm_packed : Packed PeerManagerHeader := {|
  size_of := 16;
  as_bytes h := le_bytes 4 (from_peer_id h) ++ le_bytes 4 (to_peer_id h)
                ++ le_bytes 1 (pm_packet_type h) ++ le_bytes 1 (pm_flags h)
                ++ le_bytes 1 (forward_counter h) ++ le_bytes 1 (reserved h) ++ le_bytes 4 (pm_len h);
  from_bytes l := {| from_peer_id := field 0 4 l; to_peer_id := field 4 4 l;
                     pm_packet_type := field 8 1 l; pm_flags := field 9 1 l;
                     forward_counter := field 10 1 l; reserved := field 11 1 l;
                     pm_len := field 12 4 l |};
  in_range h := in_width 32 (from_peer_id h) /\ in_width 32 (to_peer_id h) /\
                in_width 8 (pm_packet_type h) /\ in_width 8 (pm_flags h) /\
                in_width 8 (forward_counter h) /\ in_width 8 (reserved h) /\ in_width 32 (pm_len h)
|}.

Record ForeignNetworkPacketHeader := {
  fn_header_len : Z; fn_dst_peer_id : Z; network_name_offset : Z; network_name_len : Z
}.

#[global] Instance fn_packed : Packed ForeignNetworkPacketHeader := {|
  size_of := 10;
  as_bytes h := le_bytes 2 (fn_header_len h) ++ le_bytes 4 (fn_dst_peer_id h)
                ++ le_bytes 2 (network_name_offset h) ++ le_bytes 2 (network_name_len h);
  from_bytes l := {| fn_header_len := field 0 2 l; fn_dst_peer_id := field 2 4 l;
                     network_name_offset := field 6 2 l; network_name_len := field 8 2 l |};
  in_range h := in_width 16 (fn_header_len h) /\ in_width 32 (fn_dst_peer_id h) /\
                in_width 16 (network_name_offset h) /\ in_width 16 (network_name_len h)
|}.

Record AesGcmTail := { aes_tag : bytes; aes_nonce : bytes }.
Definition AES_GCM_ENCRYPTION_RESERVED : Z := 28.

#[global] Instance aes_packed : Packed AesGcmTail := {|
  size_of := 28;
  as_bytes h := aes_tag h ++ aes_nonce h;
  from_bytes l := {| aes_tag := field_bytes 0 16 l; aes_nonce := field_bytes 16 12 l |};
  in_range h := (length (aes_tag h) = 16%nat /\ byte_list (aes_tag h)) /\
                (length (aes_nonce h) = 12%nat /\ byte_list (aes_nonce h))
|}.

Inductive CompressorAlgo := AlgoNone | ZstdDefault.

Definition compressor_algo_u8 (a : CompressorAlgo) : Z :=
  match a with AlgoNone => 0 | ZstdDefault => 1 end.

Record CompressorTail := { ct_algo : Z }.
Definition COMPRESSOR_TAIL_SIZE : Z := 1.

#[global] Instance ct_packed : Packed CompressorTail := {|
  size_of := 1;
  as_bytes h := le_bytes 1 (ct_algo h);
  from_bytes l := {| ct_algo := field 0 1 l |};
  in_range h := in_width 8 (ct_algo h)
|}.

Definition get_algo (t : CompressorTail) : option CompressorAlgo :=
  if ct_algo t =? 1 then Some ZstdDefault else None.

Definition compressor_tail_new (a : CompressorAlgo) : CompressorTail :=
  {| ct_algo := compressor_algo_u8 a |}.

Definition rmax (a b : Z) : Z := if a <? b then b else a.
Definition TAIL_RESERVED_SIZE : Z := rmax AES_GCM_ENCRYPTION_RESERVED COMPRESSOR_TAIL_SIZE.

(** Proves the [PackedLaws] of a header from the field lemmas. *)
Ltac eval_fields :=
  repeat match goal with
  | |- context [field ?k ?n (?a ++ ?l)] =>
      first [ rewrite (field_app_here n) by done
            | rewrite (field_skip a k n l) by (rewrite ?le_bytes_length; lia);
              rewrite ?le_bytes_length;
              try match goal with E : length _ = _ |- _ => rewrite E end; simpl Nat.sub ]
  | |- context [field_bytes ?k ?n (?a ++ ?l)] =>
      first [ rewrite (field_bytes_app_here n) by done
            | rewrite (field_bytes_skip a k n l) by (rewrite ?le_bytes_length; lia);
              rewrite ?le_bytes_length;
              try match goal with E : length _ = _ |- _ => rewrite E end; simpl Nat.sub ]
  | _ => rewrite field_here by done
  | _ => rewrite field_bytes_here by done
  end.

Ltac explode l Hl := repeat (destruct l as [|? l]; simpl in Hl; try discriminate Hl; try injection Hl as Hl).

Ltac solve_packed :=
  constructor; cbn -[le_bytes field field_bytes in_width byte_list Z.mul];
  [ intros h Hh; destruct_and?; rewrite ?length_app, ?le_bytes_length; lia
  | intros h Hh; destruct_and?; rewrite ?byte_list_app; split_and?; auto using le_bytes_bytes
  | intros h Hh; destruct_and?; eval_fields; by destruct h
  | intros l Hb Hl; rewrite ?le_bytes_field by (done || lia);
    unfold field_bytes; explode l Hl; done
  | intros l Hb Hl; split_and?;
    lazymatch goal with
    | |- in_width _ (field ?k ?n _) => apply (field_in_width k n l Hb); lia
    | |- length (field_bytes _ _ _) = _ => rewrite field_bytes_length; lia
    | _ => auto using field_bytes_byte_list
    end ].

#[global] Instance tcp_laws : PackedLaws TCPTunnelHeader.
Proof. solve_packed. Qed.
#[global] Instance v6_hole_punch_laws : PackedLaws V6HolePunchPacket.
Proof. solve_packed. Qed.
#[global] Instance udp_laws : PackedLaws UDPTunnelHeader.
Proof. solve_packed. Qed.
#[global] Instance wg_laws : PackedLaws WGTunnelHeader.
Proof. solve_packed. Qed.
#[global] Instance pm_laws : PackedLaws PeerManagerHeader.
Proof. solve_packed. Qed.
#[global] Instance fn_laws : PackedLaws ForeignNetworkPacketHeader.
Proof. solve_packed. Qed.
#[global] Instance aes_laws : PackedLaws AesGcmTail.
Proof. solve_packed. Qed.
#[global] Instance ct_laws : PackedLaws CompressorTail.
Proof. solve_packed. Qed.

#[global] Arguments as_bytes : simpl never.
#[global] Arguments from_bytes : simpl never.
#[global] Arguments wrap : simpl never.

(** ** Header flags *)

(** [bitflags!] with [const _ = !0]: every bit is known, so [from_bits]
    accepts every [u8]. *)
Definition FLAG_ENCRYPTED : Z := 1.
Definition FLAG_LATENCY_FIRST : Z := 2.
Definition FLAG_EXIT_NODE : Z := 4.
Definition FLAG_NO_PROXY : Z := 8.
Definition FLAG_COMPRESSED : Z := 16.
Definition FLAG_KCP_SRC_MODIFIED : Z := 32.
Definition FLAG_NOT_SEND_TO_TUN : Z := 64.
Definition FLAGS_ALL : Z := 255.

Definition flags_from_bits (bits : Z) : option Z :=
  if Z.land bits (Z.lnot FLAGS_ALL) =? 0 then Some bits else None.
Definition flags_contains (flags mask : Z) : bool := Z.land flags mask =? mask.
Definition flags_insert (flags mask : Z) : Z := Z.lor flags mask.
Definition flags_remove (flags mask : Z) : Z := Z.land flags (Z.ldiff FLAGS_ALL mask).

Definition with_flags (f : Z) (h : PeerManagerHeader) : PeerManagerHeader :=
  {| from_peer_id := from_peer_id h; to_peer_id := to_peer_id h; pm_packet_type := pm_packet_type h;
     pm_flags := f; forward_counter := forward_counter h; reserved := reserved h; pm_len := pm_len h |}.

Definition get_flag (mask : Z) (h : PeerManagerHeader) : outcome bool :=
  flags ← unwrap (flags_from_bits (pm_flags h)); Done (flags_contains flags mask).

Definition set_flag (mask : Z) (b : bool) (h : PeerManagerHeader) : outcome PeerManagerHeader :=
  flags ← unwrap (flags_from_bits (pm_flags h));
  Done (with_flags (if b then flags_insert flags mask else flags_remove flags mask) h).

Definition is_encrypted := get_flag FLAG_ENCRYPTED.
Definition set_encrypted := set_flag FLAG_ENCRYPTED.
Definition is_latency_first := get_flag FLAG_LATENCY_FIRST.
Definition is_exit_node := get_flag FLAG_EXIT_NODE.
Definition is_no_proxy := get_flag FLAG_NO_PROXY.
Definition is_compressed := get_flag FLAG_COMPRESSED.
Definition set_latency_first := set_flag FLAG_LATENCY_FIRST.
Definition set_exit_node := set_flag FLAG_EXIT_NODE.
Definition set_no_proxy := set_flag FLAG_NO_PROXY.
Definition set_compressed := set_flag FLAG_COMPRESSED.
Definition set_kcp_src_modified := set_flag FLAG_KCP_SRC_MODIFIED.
Definition is_kcp_src_modified := get_flag FLAG_KCP_SRC_MODIFIED.
Definition set_not_send_to_tun := set_flag FLAG_NOT_SEND_TO_TUN.
Definition is_not_send_to_tun := get_flag FLAG_NOT_SEND_TO_TUN.

(** The flags in use are the single bits 0 to 6. *)
Definition flag_masks : list Z :=
  [FLAG_ENCRYPTED; FLAG_LATENCY_FIRST; FLAG_EXIT_NODE; FLAG_NO_PROXY; FLAG_COMPRESSED;
   FLAG_KCP_SRC_MODIFIED; FLAG_NOT_SEND_TO_TUN].

Lemma flag_mask_bit m : m ∈ flag_masks -> exists i, 0 <= i < 7 /\ m = 2 ^ i.
Proof.
  intros Hm. unfold flag_masks in Hm. rewrite !elem_of_cons in Hm.
  destruct_or!; subst; [exists 0 | exists 1 | exists 2 | exists 3 | exists 4 | exists 5 | exists 6 |];
    try (split; [lia | reflexivity]). by apply not_elem_of_nil in Hm.
Qed.

Lemma flags_from_bits_u8 f : in_width 8 f -> flags_from_bits f = Some f.
Proof.
  intros Hf. unfold flags_from_bits.
  replace (Z.land f (Z.lnot FLAGS_ALL)) with 0; [done|].
  change FLAGS_ALL with (Z.ones 8). rewrite <- Z.ldiff_land, Z.ldiff_ones_r by lia.
  rewrite Z.shiftr_div_pow2 by lia. rewrite Z.div_small by apply Hf. reflexivity.
Qed.

Lemma flags_contains_bit f i : 0 <= i -> flags_contains f (2 ^ i) = Z.testbit f i.
Proof.
  intros Hi. unfold flags_contains.
  assert (Z.land f (2 ^ i) = if Z.testbit f i then 2 ^ i else 0) as ->.
  { apply Z.bits_inj'. intros n Hn. rewrite Z.land_spec, Z.pow2_bits_eqb by lia.
    destruct (Z.eqb_spec i n) as [->|Hne].
    - destruct (Z.testbit f n); [by rewrite Z.pow2_bits_true by lia | by rewrite Z.bits_0].
    - rewrite andb_false_r. destruct (Z.testbit f i); [by rewrite Z.pow2_bits_false by lia | by rewrite Z.bits_0]. }
  assert (0 < 2 ^ i) by (apply Z.pow_pos_nonneg; lia).
  destruct (Z.testbit f i); [apply Z.eqb_refl | apply Z.eqb_neq; lia].
Qed.

Lemma flags_insert_bit f i j : 0 <= i -> 0 <= j ->
  Z.testbit (flags_insert f (2 ^ i)) j = (Z.testbit f j || (i =? j))%bool.
Proof. intros. unfold flags_insert. by rewrite Z.lor_spec, Z.pow2_bits_eqb by lia. Qed.

Lemma flags_remove_bit f i j : 0 <= i -> 0 <= j < 8 ->
  Z.testbit (flags_remove f (2 ^ i)) j = (Z.testbit f j && negb (i =? j))%bool.
Proof.
  intros. unfold flags_remove. change FLAGS_ALL with (Z.ones 8).
  rewrite Z.land_spec, Z.ldiff_spec, Z.pow2_bits_eqb, Z.ones_spec_low by lia. done.
Qed.

Lemma flags_insert_width f m : in_width 8 f -> in_width 8 m -> in_width 8 (flags_insert f m).
Proof.
  unfold in_width, flags_insert. intros [? ?] [? ?]. split; [by apply Z.lor_nonneg|].
  destruct (Z.eq_dec (Z.lor f m) 0) as [->|Hnz]; [done|].
  apply Z.log2_lt_pow2; [assert (0 <= Z.lor f m) by (by apply Z.lor_nonneg); lia|].
  rewrite Z.log2_lor by done. apply Z.max_lub_lt.
  - destruct (Z.eq_dec f 0) as [->|]; [done | apply Z.log2_lt_pow2; lia].
  - destruct (Z.eq_dec m 0) as [->|]; [done | apply Z.log2_lt_pow2; lia].
Qed.

Lemma flags_remove_width f m : in_width 8 f -> in_width 8 (flags_remove f m).
Proof.
  unfold in_width, flags_remove. intros [? ?]. split; [apply Z.land_nonneg; by left|].
  eapply Z.le_lt_trans; [|done]. apply Z.ldiff_le; [done|].
  apply Z.bits_inj'. intros n Hn. rewrite Z.ldiff_spec, Z.land_spec, Z.bits_0.
  by destruct (Z.testbit f n), (Z.testbit (Z.ldiff FLAGS_ALL m) n).
Qed.

Lemma flag_mask_width m : m ∈ flag_masks -> in_width 8 m.
Proof.
  intros (i & Hi & ->)%flag_mask_bit. split; [apply Z.pow_nonneg; lia|].
  apply Z.pow_lt_mono_r; lia.
Qed.

(** What every setter does to every getter, and to the rest of the header. *)
Lemma set_flag_spec m b h :
  m ∈ flag_masks -> in_width 8 (pm_flags h) ->
  exists h', set_flag m b h = Done h' /\ in_width 8 (pm_flags h') /\
    h' = with_flags (pm_flags h') h /\
    forall m', m' ∈ flag_masks ->
      get_flag m' h' = if decide (m' = m) then Done b else get_flag m' h.
Proof.
  intros Hm Hf. pose proof (flag_mask_width _ Hm) as Hmw.
  unfold set_flag. rewrite flags_from_bits_u8 by done. simpl. eexists; split; [done|].
  set (f' := if b then _ else _).
  assert (in_width 8 f') as Hf'
    by (destruct b; [by apply flags_insert_width | by apply flags_remove_width]).
  split; [done|]. split; [done|].
  intros m' Hm'. unfold get_flag; simpl.
  rewrite !flags_from_bits_u8 by done. simpl.
  apply flag_mask_bit in Hm as (i & Hi & ->). apply flag_mask_bit in Hm' as (j & Hj & ->).
  rewrite !flags_contains_bit by lia.
  assert (Z.testbit f' j = if i =? j then b else Z.testbit (pm_flags h) j) as ->.
  { subst f'. destruct b; [rewrite flags_insert_bit by lia | rewrite flags_remove_bit by lia];
      destruct (i =? j); by destruct (Z.testbit (pm_flags h) j). }
  destruct (Z.eqb_spec i j) as [->|Hne]; [by rewrite decide_True|].
  rewrite decide_False; [done|]. intros E. apply Z.pow_inj_r in E; lia.
Qed.

(** A flag setter changes one flag of a header in range and nothing else. *)
Lemma set_flag_range m b h : m ∈ flag_masks -> in_range h ->
  exists h', set_flag m b h = Done h' /\ in_range h' /\ h' = with_flags (pm_flags h') h /\
    forall m', m' ∈ flag_masks -> get_flag m' h' = if decide (m' = m) then Done b else get_flag m' h.
Proof.
  intros Hm Hr. destruct (set_flag_spec m b h Hm) as (h' & Hs & Hw & Hrest & Hget); [apply Hr|].
  exists h'. split; [done|]. split; [|done]. rewrite Hrest. unfold in_range in *; simpl in *. destruct_and!. done.
Qed.

Lemma get_flag_done m h : in_range h -> exists b, get_flag m h = Done b.
Proof. intros Hr. unfold get_flag. rewrite flags_from_bits_u8 by apply Hr. eauto. Qed.

(** ** Foreign network header *)

(** [str::from_utf8]: the well-formed byte sequences of Unicode's table 3-7. *)
Definition between (lo b hi : Z) : bool := (lo <=? b) && (b <=? hi).

Fixpoint utf8_valid (l : bytes) : bool :=
  match l with
  | [] => true
  | b0 :: l1 =>
      if b0 <? 128 then utf8_valid l1
      else if between 194 b0 223 then
        match l1 with b1 :: l2 => between 128 b1 191 && utf8_valid l2 | _ => false end
      else if between 224 b0 239 then
        match l1 with
        | b1 :: b2 :: l3 =>
            between (if b0 =? 224 then 160 else 128) b1 (if b0 =? 237 then 159 else 191)
            && between 128 b2 191 && utf8_valid l3
        | _ => false
        end
      else if between 240 b0 244 then
        match l1 with
        | b1 :: b2 :: b3 :: l4 =>
            between (if b0 =? 240 then 144 else 128) b1 (if b0 =? 244 then 143 else 191)
            && between 128 b2 191 && between 128 b3 191 && utf8_valid l4
        | _ => false
        end
      else false
  end.

Definition foreign_header_new (dst_peer_id : Z) (network_name : bytes) : ForeignNetworkPacketHeader :=
  let network_name_offset := as_u16 10 in
  let network_name_len := as_u16 (len network_name) in
  let header_len := as_u16 (network_name_offset + network_name_len) in
  {| fn_header_len := header_len; fn_dst_peer_id := dst_peer_id;
     network_name_offset := network_name_offset; network_name_len := network_name_len |}.

Definition get_network_name (h : ForeignNetworkPacketHeader) (zc_packet_payload : bytes) : outcome bytes :=
  let offset := network_name_offset h in
  let l := network_name_len h in
  name ← slice zc_packet_payload offset (offset + l);
  if utf8_valid name then Done name else Panicked UnwrapOnNone.

Definition foreign_get_dst_peer_id (h : ForeignNetworkPacketHeader) : Z := fn_dst_peer_id h.
Definition get_header_len (h : ForeignNetworkPacketHeader) : Z := fn_header_len h.

(** ** Packet types and offsets *)

Record ZCPacketOffsets := {
  off_payload : Z; off_peer_manager_header : Z; off_tcp_tunnel_header : Z;
  off_udp_tunnel_header : Z; off_wg_tunnel_header : Z; off_dummy_tunnel_header : Z
}.

Inductive ZCPacketType := TCP | UDP | WG | NIC | DummyTunnel.

#[global] Instance zc_packet_type_eq_dec : EqDecision ZCPacketType.
Proof. solve_decision. Defined.

Definition PAYLOAD_OFFSET_FOR_NIC_PACKET : Z :=
  rmax (rmax TCP_TUNNEL_HEADER_SIZE UDP_TUNNEL_HEADER_SIZE) WG_TUNNEL_HEADER_SIZE
  + PEER_MANAGER_HEADER_SIZE.

Definition INVALID_OFFSET : Z := 2 ^ 64 - 1.

Definition get_converted_offset (old_hdr_size new_hdr_size : Z) : Z :=
  if old_hdr_size <? new_hdr_size then INVALID_OFFSET else old_hdr_size - new_hdr_size.

Definition get_packet_offsets (t : ZCPacketType) : ZCPacketOffsets :=
  match t with
  | TCP => {|
      off_payload := TCP_TUNNEL_HEADER_SIZE + PEER_MANAGER_HEADER_SIZE;
      off_peer_manager_header := TCP_TUNNEL_HEADER_SIZE;
      off_tcp_tunnel_header := 0;
      off_udp_tunnel_header := get_converted_offset TCP_TUNNEL_HEADER_SIZE UDP_TUNNEL_HEADER_SIZE;
      off_wg_tunnel_header := get_converted_offset TCP_TUNNEL_HEADER_SIZE WG_TUNNEL_HEADER_SIZE;
      off_dummy_tunnel_header := get_converted_offset TCP_TUNNEL_HEADER_SIZE 0 |}
  | UDP => {|
      off_payload := UDP_TUNNEL_HEADER_SIZE + PEER_MANAGER_HEADER_SIZE;
      off_peer_manager_header := UDP_TUNNEL_HEADER_SIZE;
      off_tcp_tunnel_header := get_converted_offset UDP_TUNNEL_HEADER_SIZE TCP_TUNNEL_HEADER_SIZE;
      off_udp_tunnel_header := 0;
      off_wg_tunnel_header := get_converted_offset UDP_TUNNEL_HEADER_SIZE WG_TUNNEL_HEADER_SIZE;
      off_dummy_tunnel_header := get_converted_offset UDP_TUNNEL_HEADER_SIZE 0 |}
  | WG => {|
      off_payload := WG_TUNNEL_HEADER_SIZE + PEER_MANAGER_HEADER_SIZE;
      off_peer_manager_header := WG_TUNNEL_HEADER_SIZE;
      off_tcp_tunnel_header := get_converted_offset WG_TUNNEL_HEADER_SIZE TCP_TUNNEL_HEADER_SIZE;
      off_udp_tunnel_header := get_converted_offset WG_TUNNEL_HEADER_SIZE UDP_TUNNEL_HEADER_SIZE;
      off_wg_tunnel_header := 0;
      off_dummy_tunnel_header := get_converted_offset WG_TUNNEL_HEADER_SIZE 0 |}
  | NIC => {|
      off_payload := PAYLOAD_OFFSET_FOR_NIC_PACKET;
      off_peer_manager_header := PAYLOAD_OFFSET_FOR_NIC_PACKET - PEER_MANAGER_HEADER_SIZE;
      off_tcp_tunnel_header :=
        PAYLOAD_OFFSET_FOR_NIC_PACKET - PEER_MANAGER_HEADER_SIZE - TCP_TUNNEL_HEADER_SIZE;
      off_udp_tunnel_header :=
        PAYLOAD_OFFSET_FOR_NIC_PACKET - PEER_MANAGER_HEADER_SIZE - UDP_TUNNEL_HEADER_SIZE;
      off_wg_tunnel_header :=
        PAYLOAD_OFFSET_FOR_NIC_PACKET - PEER_MANAGER_HEADER_SIZE - WG_TUNNEL_HEADER_SIZE;
      off_dummy_tunnel_header := PAYLOAD_OFFSET_FOR_NIC_PACKET - PEER_MANAGER_HEADER_SIZE |}
  | DummyTunnel => {|
      off_payload := PEER_MANAGER_HEADER_SIZE;
      off_peer_manager_header := 0;
      off_tcp_tunnel_header := get_converted_offset 0 TCP_TUNNEL_HEADER_SIZE;
      off_udp_tunnel_header := get_converted_offset 0 UDP_TUNNEL_HEADER_SIZE;
      off_wg_tunnel_header := get_converted_offset 0 WG_TUNNEL_HEADER_SIZE;
      off_dummy_tunnel_header := 0 |}
  end.

(** ** The packet *)

Record ZCPacket := mkZC { inner : bytes; packet_type : ZCPacketType }.

Definition new_nic_packet : ZCPacket := mkZC [] NIC.
Definition new_from_buf (buf : bytes) (t : ZCPacketType) : ZCPacket := mkZC buf t.

Definition payload_offset (p : ZCPacket) : Z := off_payload (get_packet_offsets (packet_type p)).
Definition pm_offset (p : ZCPacket) : Z := off_peer_manager_header (get_packet_offsets (packet_type p)).

(** A [&mut] view: the current value and the write-back. *)
Definition mut_from (p : ZCPacket) (offset : Z) : outcome (bytes * (bytes -> ZCPacket)) :=
  view ← slice_from (inner p) offset;
  Done (view, fun new => mkZC (take (Z.to_nat offset) (inner p) ++ new) (packet_type p)).

Definition ref_from_prefix {H} `{Packed H} (l : bytes) : option H :=
  if len l <? Z.of_nat size_of then None else Some (from_bytes (take size_of l)).

(** [ref_from_suffix]: the last [size_of] bytes. *)
Definition ref_from_suffix {H} `{Packed H} (l : bytes) : option H :=
  if len l <? Z.of_nat size_of then None else Some (from_bytes (drop (length l - size_of) l)).

Definition mut_from_prefix {H} `{Packed H} (p : ZCPacket) (offset : Z)
    : outcome (option (H * (H -> ZCPacket))) :=
  '(view, put) ← mut_from p offset;
  Done (match ref_from_prefix view with
        | Some h => Some (h, fun h' => put (as_bytes h' ++ drop size_of view))
        | None => None
        end).

Definition mut_payload (p : ZCPacket) : outcome (bytes * (bytes -> ZCPacket)) :=
  mut_from p (payload_offset p).
Definition mut_peer_manager_header (p : ZCPacket)
    : outcome (option (PeerManagerHeader * (PeerManagerHeader -> ZCPacket))) :=
  mut_from_prefix p (pm_offset p).
Definition mut_tcp_tunnel_header (p : ZCPacket)
    : outcome (option (TCPTunnelHeader * (TCPTunnelHeader -> ZCPacket))) :=
  mut_from_prefix p (off_tcp_tunnel_header (get_packet_offsets (packet_type p))).
Definition mut_udp_tunnel_header (p : ZCPacket)
    : outcome (option (UDPTunnelHeader * (UDPTunnelHeader -> ZCPacket))) :=
  mut_from_prefix p (off_udp_tunnel_header (get_packet_offsets (packet_type p))).
Definition mut_wg_tunnel_header (p : ZCPacket)
    : outcome (option (WGTunnelHeader * (WGTunnelHeader -> ZCPacket))) :=
  mut_from_prefix p (off_wg_tunnel_header (get_packet_offsets (packet_type p))).

Definition payload (p : ZCPacket) : outcome bytes := slice_from (inner p) (payload_offset p).
Definition payload_bytes (p : ZCPacket) : outcome bytes :=
  '(_, tail) ← split_off (inner p) (payload_offset p); Done tail.
Definition peer_manager_header (p : ZCPacket) : outcome (option PeerManagerHeader) :=
  l ← slice_from (inner p) (pm_offset p); Done (ref_from_prefix l).
Definition tcp_tunnel_header (p : ZCPacket) : outcome (option TCPTunnelHeader) :=
  l ← slice_from (inner p) (off_tcp_tunnel_header (get_packet_offsets (packet_type p)));
  Done (ref_from_prefix l).
Definition udp_tunnel_header (p : ZCPacket) : outcome (option UDPTunnelHeader) :=
  l ← slice_from (inner p) (off_udp_tunnel_header (get_packet_offsets (packet_type p)));
  Done (ref_from_prefix l).
Definition udp_payload (p : ZCPacket) : outcome bytes :=
  slice_from (inner p)
    (as_usize (off_udp_tunnel_header (get_packet_offsets (packet_type p)) + UDP_TUNNEL_HEADER_SIZE)).
Definition payload_len (p : ZCPacket) : Z := as_usize (len (inner p) - payload_offset p).
Definition buf_len (p : ZCPacket) : Z := len (inner p).

Definition fill_peer_manager_hdr (p : ZCPacket) (from_peer to_peer ptype : Z) : outcome ZCPacket :=
  let n := payload_len p in
  m ← mut_peer_manager_header p;
  '(hdr, put) ← unwrap m;
  Done (put {| from_peer_id := from_peer; to_peer_id := to_peer; pm_packet_type := ptype;
               pm_flags := 0; forward_counter := 1; reserved := reserved hdr; pm_len := as_u32 n |}).

Definition tunnel_payload (p : ZCPacket) : outcome bytes := slice_from (inner p) (pm_offset p).
Definition tunnel_payload_bytes (p : ZCPacket) : outcome bytes :=
  '(_, tail) ← split_off (inner p) (pm_offset p); Done tail.

Definition is_lossy (p : ZCPacket) : outcome bool :=
  h ← peer_manager_header p;
  Done (match h with Some hdr => pm_packet_type hdr =? packet_type_u8 PktData | None => false end).

Definition foreign_network_hdr (p : ZCPacket) : outcome (option ForeignNetworkPacketHeader) :=
  h ← peer_manager_header p;
  hdr ← unwrap h;
  if pm_packet_type hdr =? packet_type_u8 PktForeignNetworkPacket then
    l ← payload p; Done (ref_from_prefix l)
  else Done None.

Definition foreign_network_packet (p : ZCPacket) : outcome ZCPacket :=
  h ← foreign_network_hdr p;
  hdr ← unwrap h;
  '(_, tail) ← split_off (inner p) (get_header_len hdr + payload_offset p);
  Done (new_from_buf tail DummyTunnel).

Definition get_src_peer_id (p : ZCPacket) : outcome (option Z) :=
  h ← peer_manager_header p; Done (option_map from_peer_id h).
Definition get_dst_peer_id (p : ZCPacket) : outcome (option Z) :=
  h ← peer_manager_header p; Done (option_map to_peer_id h).

Definition into_bytes (p : ZCPacket) : bytes := inner p.

Section uninitialised.
(** What [set_len] finds in freshly reserved memory. *)
Context (junk : nat -> Z).
Definition uninit (n : Z) : bytes := junk <$> seq 0 (Z.to_nat n).

Definition new_with_payload (src : bytes) : outcome ZCPacket :=
  let ret := new_nic_packet in
  let payload_off := payload_offset ret in
  let total_len := payload_off + len src in
  let ret := mkZC (uninit total_len) (packet_type ret) in
  '(view, put) ← mut_payload ret;
  view' ← copy_into view 0 (len src) src;
  Done (put view').

Definition new_for_tun (cap packet_info_len : Z) : ZCPacket :=
  let ret := new_nic_packet in
  let total_len := as_usize (payload_offset ret - packet_info_len) in
  mkZC (uninit total_len) (packet_type ret).

(** The three copies into the payload: fixed header, name, inner packet. *)
Definition fill_foreign_view (view : bytes) (hdr : ForeignNetworkPacketHeader)
    (network_name tp : bytes) : outcome bytes :=
  let fixed_hdr_len := 10 in
  view ← copy_into view 0 fixed_hdr_len (as_bytes hdr);
  let name_offset := network_name_offset hdr in
  let name_len := network_name_len hdr in
  view ← copy_into view name_offset (name_offset + name_len) network_name;
  copy_into view (get_header_len hdr) (len view) tp.

Definition new_for_foreign_network (network_name : bytes) (dst_peer_id : Z)
    (foreign_zc_packet : ZCPacket) : outcome ZCPacket :=
  let foreign_network_hdr := foreign_header_new dst_peer_id network_name in
  tp ← tunnel_payload foreign_zc_packet;
  let total_payload_len := get_header_len foreign_network_hdr + len tp in
  let ret := new_nic_packet in
  let payload_off := payload_offset ret in
  let ret := mkZC (uninit (payload_off + total_payload_len)) (packet_type ret) in
  '(view, put) ← mut_payload ret;
  view ← fill_foreign_view view foreign_network_hdr network_name tp;
  m ← mut_peer_manager_header (put view);
  '(hdr, put) ← unwrap m;
  Done (put {| from_peer_id := 0; to_peer_id := 0;
               pm_packet_type := packet_type_u8 PktForeignNetworkPacket;
               pm_flags := pm_flags hdr; forward_counter := forward_counter hdr;
               reserved := reserved hdr; pm_len := as_u32 total_payload_len |}).

Definition convert_type (p : ZCPacket) (target_packet_type : ZCPacketType) : outcome ZCPacket :=
  if bool_decide (target_packet_type = packet_type p) then Done p
  else
    let offs := get_packet_offsets (packet_type p) in
    new_offset ← (match target_packet_type with
                  | TCP => Done (off_tcp_tunnel_header offs)
                  | UDP => Done (off_udp_tunnel_header offs)
                  | WG => Done (off_wg_tunnel_header offs)
                  | DummyTunnel => Done (off_dummy_tunnel_header offs)
                  | NIC => Panicked UnreachableCode
                  end);
    if new_offset =? INVALID_OFFSET then
      tp ← tunnel_payload p;
      let new_pm_offset := off_peer_manager_header (get_packet_offsets target_packet_type) in
      Done (new_from_buf (uninit new_pm_offset ++ tp) target_packet_type)
    else
      '(_, tail) ← split_off (inner p) new_offset;
      Done (new_from_buf tail target_packet_type).
End uninitialised.

(** ** Lemmas on the buffer operations *)

Lemma uninit_len junk n : 0 <= n -> len (uninit junk n) = n.
Proof. intros. unfold uninit, len. rewrite length_fmap, length_seq. lia. Qed.

Lemma uninit_byte_list junk n : (forall i, is_byte (junk i)) -> byte_list (uninit junk n).
Proof. intros Hj. apply Forall_fmap, Forall_true. intros; apply Hj. Qed.

Lemma ref_from_prefix_app {H} `{PackedLaws H} (h : H) l :
  in_range h -> ref_from_prefix (as_bytes h ++ l) = Some h.
Proof.
  intros Hr. unfold ref_from_prefix, len. rewrite length_app, as_bytes_length by done.
  destruct (Z.ltb_spec (Z.of_nat (size_of + length l)) (Z.of_nat size_of)); [lia|].
  rewrite take_app_length' by (symmetry; by apply as_bytes_length). by rewrite from_as_bytes.
Qed.

(** A packet laid out as: tunnel header space, peer manager header, payload. *)
Definition laid_out (p : ZCPacket) (pre : bytes) (h : PeerManagerHeader) (body : bytes) : Prop :=
  inner p = pre ++ as_bytes h ++ body /\ len pre = pm_offset p /\ in_range h.

Lemma offsets_gap t :
  0 <= off_peer_manager_header (get_packet_offsets t) /\
  off_payload (get_packet_offsets t) = off_peer_manager_header (get_packet_offsets t) + 16.
Proof. by destruct t. Qed.

Lemma pm_header_len (h : PeerManagerHeader) : len (as_bytes h) = 16.
Proof. unfold len, as_bytes; cbn -[le_bytes]. by rewrite !length_app, !le_bytes_length. Qed.

Section layout.
Context (p : ZCPacket) (pre : bytes) (h : PeerManagerHeader) (body : bytes).
Hypothesis Hl : laid_out p pre h body.

Lemma layout_payload : payload p = Done body.
Proof.
  destruct Hl as (Hi & Hp & _). unfold payload, payload_offset. rewrite Hi, app_assoc.
  apply slice_from_app. destruct (offsets_gap (packet_type p)) as [_ ->].
  rewrite len_app, pm_header_len, Hp. done.
Qed.

Lemma layout_header : peer_manager_header p = Done (Some h).
Proof.
  destruct Hl as (Hi & Hp & Hr). unfold peer_manager_header.
  rewrite Hi, slice_from_app by done. cbn [mbind outcome_bind]. by rewrite ref_from_prefix_app.
Qed.

Lemma layout_tunnel_payload : tunnel_payload p = Done (as_bytes h ++ body).
Proof. destruct Hl as (Hi & Hp & _). unfold tunnel_payload. by rewrite Hi, slice_from_app. Qed.

Lemma layout_mut_header :
  exists put, mut_peer_manager_header p = Done (Some (h, put)) /\
    forall h', in_range h' -> laid_out (put h') pre h' body /\ packet_type (put h') = packet_type p.
Proof.
  destruct Hl as (Hi & Hp & Hr). unfold mut_peer_manager_header, mut_from_prefix, mut_from.
  rewrite Hi, slice_from_app by done. cbn [mbind outcome_bind]. rewrite ref_from_prefix_app by done.
  eexists; split; [reflexivity|]. intros h' Hr'. split; [|done]. split; [|done]. simpl.
  f_equal.
  rewrite <- Hp. unfold len. by rewrite Nat2Z.id, take_app_length.
Qed.

Lemma layout_payload_len : len body < 2 ^ 64 -> payload_len p = len body.
Proof.
  intros. destruct Hl as (Hi & Hp & _). unfold payload_len, payload_offset.
  destruct (offsets_gap (packet_type p)) as [_ ->]. fold (pm_offset p).
  rewrite Hi, !len_app, pm_header_len, Hp. pose proof (len_nonneg body).
  replace (_ - _) with (len body) by lia. by apply wrap_small.
Qed.
End layout.

Lemma layout_mut_payload p pre h body : laid_out p pre h body ->
  exists put, mut_payload p = Done (body, put) /\
    forall l, laid_out (put l) pre h l /\ packet_type (put l) = packet_type p.
Proof.
  intros Hl. pose proof (layout_payload _ _ _ _ Hl) as Hpl. destruct Hl as (Hi & Hp & Hr).
  unfold mut_payload, mut_from, payload in *. rewrite Hpl. cbn [mbind outcome_bind].
  eexists. split; [reflexivity|]. intros l. split; [|done]. split; [|done]. simpl.
  rewrite Hi, app_assoc. rewrite take_app_length'; [by rewrite <- app_assoc|].
  rewrite length_app. unfold payload_offset. destruct (offsets_gap (packet_type p)) as [Hge ->].
  fold (pm_offset p) in *. pose proof (pm_header_len h). unfold len in *. lia.
Qed.

(** Every buffer of bytes with room for the header is laid out. *)
Lemma laid_out_intro p :
  byte_list (inner p) -> payload_offset p <= len (inner p) ->
  exists pre h body, laid_out p pre h body.
Proof.
  intros Hb Hlen. unfold payload_offset in Hlen. fold (pm_offset p) in Hlen.
  destruct (offsets_gap (packet_type p)) as [Hge E]. rewrite E in Hlen. fold (pm_offset p) in *.
  set (k := Z.to_nat (pm_offset p)). unfold len in Hlen.
  exists (take k (inner p)), (from_bytes (field_bytes k 16 (inner p))), (drop (k + 16) (inner p)).
  assert (length (field_bytes k 16 (inner p)) = 16%nat) by (apply field_bytes_length; lia).
  split_and!.
  - rewrite as_from_bytes; [|by apply field_bytes_byte_list | done].
    unfold field_bytes. rewrite <- drop_drop, take_drop. by rewrite take_drop.
  - unfold len. rewrite length_take. lia.
  - apply from_bytes_in_range; [by apply field_bytes_byte_list | done].
Qed.

(** The conversion offset leads from one peer manager header to the other. *)
Lemma conversion_offset t t' :
  t' <> NIC -> t' <> t ->
  let offs := get_packet_offsets t in
  let o := match t' with
           | TCP => off_tcp_tunnel_header offs | UDP => off_udp_tunnel_header offs
           | WG => off_wg_tunnel_header offs | DummyTunnel => off_dummy_tunnel_header offs
           | NIC => 0
           end in
  (o = INVALID_OFFSET /\ t <> NIC) \/
  (o <> INVALID_OFFSET /\ 0 <= o /\
   o + off_peer_manager_header (get_packet_offsets t') = off_peer_manager_header (get_packet_offsets t)).
Proof. destruct t, t'; intros; try done; vm_compute; intuition discriminate. Qed.

(** ** Properties *)

(** Conversion keeps the tunnel payload, and [NIC] packets their buffer. *)
Lemma convert_type_keeps junk p t : (t = NIC -> packet_type p = NIC) -> pm_offset p <= len (inner p) ->
  exists q, convert_type junk p t = Done q /\ packet_type q = t /\
    tunnel_payload q = tunnel_payload p /\ pm_offset q <= len (inner q) /\
    (packet_type p = NIC -> exists k, inner q = drop k (inner p)).
Proof.
  intros Hnic Hlen. unfold convert_type. case_bool_decide as Et.
  { exists p. split_and!; try done. intros _. by exists 0%nat. }
  assert (t <> NIC) as Hn by (intros ->; rewrite Hnic in Et; done).
  destruct (offsets_gap t) as [Hge _].
  destruct (offsets_gap (packet_type p)) as [Hge' _]. fold (pm_offset p) in Hge'.
  pose proof (conversion_offset (packet_type p) t Hn Et) as Ho. cbv zeta in Ho.
  set (o := match t with TCP => _ | UDP => _ | WG => _ | NIC => _ | DummyTunnel => _ end) in Ho.
  assert (tunnel_payload p = Done (drop (Z.to_nat (pm_offset p)) (inner p))) as Htp
    by (by apply slice_from_Done).
  replace (match t with TCP => _ | UDP => _ | WG => _ | NIC => _ | DummyTunnel => _ end)
    with (Done o) by (by destruct t).
  cbn [mbind outcome_bind]. rewrite Htp. destruct (Z.eqb_spec o INVALID_OFFSET) as [->|Hv].
  - destruct Ho as [[_ Hpn]|[? _]]; [|done].
    eexists; split; [reflexivity|]. unfold tunnel_payload, pm_offset; cbn [inner packet_type new_from_buf].
    split_and!; [done | | | done].
    + apply slice_from_app. by rewrite uninit_len.
    + rewrite len_app, uninit_len by done. pose proof (len_nonneg (drop (Z.to_nat (pm_offset p)) (inner p))).
      unfold pm_offset in *. lia.
  - destruct Ho as [[? _]|(_ & Ho0 & Ho)]; [done|]. fold (pm_offset p) in Ho.
    unfold split_off. rewrite bool_decide_eq_true_2 by lia. cbn [mbind outcome_bind].
    eexists; split; [reflexivity|]. unfold tunnel_payload. cbn [inner packet_type new_from_buf].
    assert (pm_offset (new_from_buf (drop (Z.to_nat o) (inner p)) t) <= len (drop (Z.to_nat o) (inner p))).
    { unfold pm_offset at 1; cbn. unfold len in *. rewrite length_drop. lia. }
    split_and!; [done | | done | by eexists].
    apply slice_from_Done. split; [by unfold pm_offset in *; cbn in *|].
    rewrite drop_drop. f_equal. unfold pm_offset at 2; cbn. lia.
Qed.

Lemma laid_out_convert junk p t pre h body : t <> NIC -> laid_out p pre h body ->
  exists q pre', convert_type junk p t = Done q /\ packet_type q = t /\ laid_out q pre' h body.
Proof.
  intros Hn Hl. pose proof (layout_tunnel_payload _ _ _ _ Hl) as Htp. pose proof Hl as (Hi & Hp & Hr).
  destruct (convert_type_keeps junk p t) as (q & E & Ht & Hq & Hlen & _); [done | |].
  { rewrite Hi, len_app, Hp. pose proof (len_nonneg (as_bytes h ++ body)). lia. }
  exists q, (take (Z.to_nat (pm_offset q)) (inner q)). split; [done|]. split; [done|].
  rewrite Htp in Hq. unfold tunnel_payload, slice_from in Hq. case_bool_decide; [|done].
  assert (drop (Z.to_nat (pm_offset q)) (inner q) = as_bytes h ++ body) as Hd by congruence.
  split_and!; [by rewrite <- Hd, take_drop | | done]. unfold len in *. rewrite length_take. lia.
Qed.

(** [convert_type] between any two packet types (to [NIC] only from
    [NIC], the case the code marks unreachable) succeeds on every packet that
    holds its tunnel header, keeps peer manager header and payload unchanged,
    leaves room for the new tunnel header, and from a [NIC] packet reuses the
    buffer without copying, whatever the reserved memory contained. *)
Theorem convert_type_preserves (junk : nat -> Z) (p : ZCPacket) (t : ZCPacketType)
    (Hnic : t = NIC -> packet_type p = NIC) (Hlen : pm_offset p <= len (inner p)) :
  exists q, convert_type junk p t = Done q /\ packet_type q = t /\
    tunnel_payload q = tunnel_payload p /\ pm_offset q <= len (inner q) /\
    (packet_type p = NIC -> exists k, inner q = drop k (inner p)).
Proof. by apply convert_type_keeps. Qed.

Lemma convert_type_preserves_witness :
  exists q, convert_type (fun _ => 170) (mkZC (repeat 7 40) DummyTunnel) UDP = Done q /\
    tunnel_payload q = Done (repeat 7 40) /\ len (inner q) = 48.
Proof.
  destruct (convert_type_preserves (fun _ => 170) (mkZC (repeat 7 40) DummyTunnel) UDP) as (q & Hq & _ & Htp & _).
  - discriminate.
  - vm_compute. discriminate.
  - exists q. split; [exact Hq|]. split; [rewrite Htp; reflexivity|].
    vm_compute in Hq. injection Hq as <-. reflexivity.
Defined.

(** Each of the seven header flags is set and cleared independently: a
    setter never panics on a [u8], its getter then reads back the value, every
    other getter is unchanged, and so is the rest of the header. *)
Theorem header_flags_independent (m m' : Z) (b : bool) (h : PeerManagerHeader)
    (Hm : m ∈ flag_masks) (Hm' : m' ∈ flag_masks) (Hf : in_width 8 (pm_flags h)) :
  exists h', set_flag m b h = Done h' /\ get_flag m h' = Done b /\
    (m' <> m -> get_flag m' h' = get_flag m' h) /\ is_done (get_flag m' h') = true /\
    h' = with_flags (pm_flags h') h /\ in_width 8 (pm_flags h').
Proof.
  destruct (set_flag_spec m b h Hm Hf) as (h' & Hs & Hw & Hrest & Hget).
  exists h'. split_and!; try done.
  - rewrite Hget by done. by rewrite decide_True.
  - intros. rewrite Hget by done. by rewrite decide_False.
  - unfold get_flag. by rewrite flags_from_bits_u8.
Qed.

Lemma header_flags_independent_witness :
  let h := {| from_peer_id := 1; to_peer_id := 2; pm_packet_type := 1; pm_flags := 129;
              forward_counter := 1; reserved := 0; pm_len := 5 |} in
  exists h', set_compressed true h = Done h' /\ is_compressed h' = Done true /\ is_encrypted h' = Done true.
Proof.
  intros h.
  destruct (header_flags_independent FLAG_COMPRESSED FLAG_ENCRYPTED true h) as (h' & Hs & Hg & Ho & _).
  - unfold flag_masks. set_solver.
  - unfold flag_masks. set_solver.
  - vm_compute. split; congruence.
  - exists h'. split; [exact Hs|]. split; [exact Hg|].
    unfold is_encrypted. rewrite Ho; [reflexivity | discriminate].
Defined.

(** The header [fill_peer_manager_hdr] writes over [h0]. *)
Definition filled_header (src dst ty : Z) (h0 : PeerManagerHeader) (body : bytes) : PeerManagerHeader :=
  {| from_peer_id := src; to_peer_id := dst; pm_packet_type := ty; pm_flags := 0;
     forward_counter := 1; reserved := reserved h0; pm_len := as_u32 (len body) |}.

Lemma fill_hdr_layout p pre h0 body src dst ty :
  laid_out p pre h0 body -> len body < 2 ^ 64 ->
  in_width 32 src -> in_width 32 dst -> in_width 8 ty ->
  exists q, fill_peer_manager_hdr p src dst ty = Done q /\ packet_type q = packet_type p /\
    laid_out q pre (filled_header src dst ty h0 body) body.
Proof.
  intros Hl Hlen Hsrc Hdst Hty. destruct (layout_mut_header _ _ _ _ Hl) as (put & Hmut & Hput).
  assert (in_range (filled_header src dst ty h0 body)) as Hr.
  { destruct Hl as (_ & _ & Hr0). destruct Hr0 as (_ & _ & _ & _ & _ & Hres & _).
    repeat split; try done; try apply Hsrc; try apply Hdst; try apply Hty; try apply Hres;
      apply wrap_in_width; lia. }
  destruct (Hput _ Hr) as [Hlq Ht]. eexists. split; [|by split].
  unfold fill_peer_manager_hdr. rewrite (layout_payload_len _ _ _ _ Hl), Hmut by lia. reflexivity.
Qed.

(** [fill_peer_manager_hdr] on a packet with room for the header writes
    the given ids and type, clears the flags, starts the forward counter at 1,
    records the payload length (modulo [2^32]) and keeps the payload. *)
Theorem fill_header_spec (p : ZCPacket) (src dst ty : Z)
    (Hb : byte_list (inner p)) (Hlen : payload_offset p <= len (inner p) < 2 ^ 64)
    (Hsrc : in_width 32 src) (Hdst : in_width 32 dst) (Hty : in_width 8 ty) :
  exists q h body, fill_peer_manager_hdr p src dst ty = Done q /\
    packet_type q = packet_type p /\ len (inner q) = len (inner p) /\
    payload p = Done body /\ payload q = Done body /\
    peer_manager_header q = Done (Some h) /\
    get_src_peer_id q = Done (Some src) /\ get_dst_peer_id q = Done (Some dst) /\
    pm_packet_type h = ty /\ pm_flags h = 0 /\ forward_counter h = 1 /\ pm_len h = as_u32 (len body).
Proof.
  destruct (laid_out_intro p Hb) as (pre & h0 & body & Hl); [lia|].
  assert (len (inner p) = len pre + 16 + len body) as Hlp.
  { destruct Hl as (-> & _ & _). rewrite !len_app, pm_header_len. lia. }
  pose proof (len_nonneg pre). pose proof (len_nonneg body).
  destruct (fill_hdr_layout p pre h0 body src dst ty Hl ltac:(lia) Hsrc Hdst Hty) as (q & Hq & Ht & Hlq).
  exists q, (filled_header src dst ty h0 body), body. split_and!; try done.
  - destruct Hlq as (-> & _ & _). rewrite !len_app, pm_header_len. lia.
  - by eapply layout_payload.
  - by eapply layout_payload.
  - by eapply layout_header.
  - unfold get_src_peer_id. by rewrite (layout_header _ _ _ _ Hlq).
  - unfold get_dst_peer_id. by rewrite (layout_header _ _ _ _ Hlq).
Qed.

Lemma fill_header_spec_witness :
  let p := mkZC (repeat 9 25) TCP in
  exists q, fill_peer_manager_hdr p 258 3 8 = Done q /\ get_src_peer_id q = Done (Some 258) /\
            payload q = Done (repeat 9 5).
Proof.
  intros p. destruct (fill_header_spec p 258 3 8) as (q & h & body & Hq & _ & _ & Hp & Hpq & _ & Hs & _).
  - unfold p, byte_list, is_byte. repeat constructor; lia.
  - vm_compute. split; congruence.
  - vm_compute. split; congruence.
  - vm_compute. split; congruence.
  - vm_compute. split; congruence.
  - exists q. split; [exact Hq|]. split; [exact Hs|]. rewrite Hpq, <- Hp. reflexivity.
Defined.

(** The fixed header of a name that fits. *)
Lemma foreign_header_fits name dst :
  len name + 10 < 2 ^ 16 -> in_width 32 dst ->
  let h := foreign_header_new dst name in
  in_range h /\ network_name_offset h = 10 /\ network_name_len h = len name /\
  get_header_len h = 10 + len name /\ fn_dst_peer_id h = dst.
Proof.
  intros Hn Hd. pose proof (len_nonneg name). unfold foreign_header_new, get_header_len; cbn -[wrap].
  rewrite !(wrap_small 16) by (split; rewrite ?(wrap_small 16); (split || idtac); lia).
  repeat split; try done; try apply Hd; lia.
Qed.

Lemma fn_header_len_bytes (h : ForeignNetworkPacketHeader) : len (as_bytes h) = 10.
Proof. unfold len, as_bytes; cbn -[le_bytes]. by rewrite !length_app, !le_bytes_length. Qed.

Lemma split_at {A} (l : list A) (n : Z) :
  0 <= n <= len l -> exists a b, l = a ++ b /\ len a = n.
Proof.
  intros. exists (take (Z.to_nat n) l), (drop (Z.to_nat n) l). rewrite take_drop.
  unfold len in *. rewrite length_take. split; [done | lia].
Qed.

Lemma fill_foreign_view_spec name dst tp view :
  len name + 10 < 2 ^ 16 -> in_width 32 dst -> len view = 10 + len name + len tp ->
  fill_foreign_view view (foreign_header_new dst name) name tp =
    Done (as_bytes (foreign_header_new dst name) ++ name ++ tp).
Proof.
  intros Hn Hd Hv. destruct (foreign_header_fits name dst Hn Hd) as (_ & Ho & Hnl & Hhl & _).
  pose proof (len_nonneg name). pose proof (len_nonneg tp).
  unfold fill_foreign_view. rewrite Ho, Hnl, Hhl. set (fh := foreign_header_new dst name) in *.
  destruct (split_at view 10) as (c1 & b & -> & Hl1); [lia|]. rewrite len_app, Hl1 in Hv.
  destruct (split_at b (len name)) as (c2 & c3 & -> & Hl2); [lia|]. rewrite len_app in Hv.
  rewrite <- (app_nil_l (c1 ++ c2 ++ c3)).
  rewrite (copy_into_app [] c1) by (rewrite ?fn_header_len_bytes; done). cbn [mbind outcome_bind app].
  rewrite copy_into_app by (rewrite ?fn_header_len_bytes; lia). cbn [mbind outcome_bind].
  rewrite (app_assoc (as_bytes fh)), <- (app_nil_r c3).
  rewrite copy_into_app by (rewrite ?len_app, ?fn_header_len_bytes; change (len (@nil Z)) with 0; lia).
  by rewrite app_nil_r, <- app_assoc.
Qed.

(** A fresh [NIC] buffer: room for a tunnel header, the peer manager header,
    and [n] bytes of payload. *)
Lemma uninit_nic junk n :
  (forall i, is_byte (junk i)) -> 0 <= n ->
  exists pre hb body, uninit junk (36 + n) = pre ++ hb ++ body /\
    len pre = 20 /\ length hb = 16%nat /\ byte_list hb /\ len body = n.
Proof.
  intros Hj Hn. pose proof (uninit_byte_list junk (36 + n) Hj) as Hb.
  pose proof (uninit_len junk (36 + n)) as Hl.
  destruct (split_at (uninit junk (36 + n)) 20) as (pre & r & E & Hp); [lia|].
  rewrite E in *. rewrite len_app in Hl.
  destruct (split_at r 16) as (hb & body & -> & Hh); [lia|]. rewrite len_app in Hl.
  apply byte_list_app in Hb as [_ [Hhb _]%byte_list_app].
  exists pre, hb, body. split_and!; try done; unfold len in *; lia.
Qed.

Lemma new_with_payload_layout junk src :
  (forall i, is_byte (junk i)) ->
  exists p pre h, new_with_payload junk src = Done p /\ packet_type p = NIC /\ laid_out p pre h src.
Proof.
  intros Hj. pose proof (len_nonneg src). unfold new_with_payload.
  change (payload_offset new_nic_packet) with 36.
  destruct (uninit_nic junk (len src) Hj) as (pre & hb & body & -> & Hp & Hh & Hhb & Hbody); [lia|].
  unfold mut_payload, mut_from. cbn [inner packet_type new_nic_packet].
  rewrite app_assoc, slice_from_app by (rewrite len_app; unfold len in *; change (payload_offset _) with 36; lia).
  cbn [mbind outcome_bind].
  assert (copy_into body 0 (len src) src = Done src) as ->.
  { pose proof (copy_into_app [] body [] src 0 (len src)) as Hc. rewrite !app_nil_r in Hc. apply Hc; [done| |done].
    change (len []) with 0. lia. }
  cbn [mbind outcome_bind]. do 3 eexists. split; [reflexivity|]. split; [reflexivity|].
  rewrite take_app_length' by (rewrite length_app; unfold len in *; change (payload_offset _) with 36; lia).
  split_and!; [|exact Hp | by apply from_bytes_in_range].
  cbn [inner]. rewrite as_from_bytes by done. by rewrite <- app_assoc.
Qed.

(** The buffer built for a foreign network, when the name fits. *)
Lemma new_for_foreign_network_layout junk name dst p tp :
  (forall i, is_byte (junk i)) -> len name + 10 < 2 ^ 16 -> in_width 32 dst ->
  tunnel_payload p = Done tp ->
  exists q pre h, new_for_foreign_network junk name dst p = Done q /\
    packet_type q = NIC /\ pm_packet_type h = packet_type_u8 PktForeignNetworkPacket /\
    laid_out q pre h (as_bytes (foreign_header_new dst name) ++ name ++ tp).
Proof.
  intros Hj Hn Hd Htp. destruct (foreign_header_fits name dst Hn Hd) as (_ & _ & _ & Hhl & _).
  pose proof (len_nonneg name). pose proof (len_nonneg tp).
  unfold new_for_foreign_network. rewrite Htp, Hhl. cbn [mbind outcome_bind].
  change (payload_offset new_nic_packet) with 36.
  destruct (uninit_nic junk (10 + len name + len tp) Hj) as (pre & hb & body & -> & Hp & Hh & Hhb & Hbody); [lia|].
  unfold mut_payload, mut_from. cbn [inner packet_type new_nic_packet].
  rewrite app_assoc, slice_from_app by (rewrite len_app; unfold len in *; change (payload_offset _) with 36; lia).
  cbn [mbind outcome_bind]. rewrite fill_foreign_view_spec by done. cbn [mbind outcome_bind].
  set (fh := foreign_header_new dst name).
  rewrite take_app_length' by (rewrite length_app; unfold len in *; change (payload_offset _) with 36; lia).
  assert (laid_out (mkZC ((pre ++ hb) ++ as_bytes fh ++ name ++ tp) NIC) pre (from_bytes hb)
            (as_bytes fh ++ name ++ tp)) as Hlay.
  { split_and!; [|done | by apply from_bytes_in_range].
    rewrite as_from_bytes by done. cbn [inner]. by rewrite <- !app_assoc. }
  destruct (layout_mut_header _ _ _ _ Hlay) as (put & Hmut & Hput).
  rewrite Hmut. cbn [mbind outcome_bind unwrap].
  destruct (proj2 (proj2 Hlay)) as (_ & _ & _ & Hfl & Hfc & Hres & _).
  match goal with |- context [put ?x] => set (h := x) end.
  assert (in_range h) as Hrh
    by (split_and!; [done | done | done | done | done | done | apply wrap_in_width; lia]).
  destruct (Hput h Hrh) as [Hq Ht]. by exists (put h), pre, h.
Qed.

(** Unwrapping such a buffer, whatever its framing and the rest of its header. *)
Lemma foreign_layout_unwrap q pre h name dst tp :
  let fh := foreign_header_new dst name in
  laid_out q pre h (as_bytes fh ++ name ++ tp) -> pm_packet_type h = packet_type_u8 PktForeignNetworkPacket ->
  utf8_valid name = true -> len name + 10 < 2 ^ 16 -> in_width 32 dst ->
  foreign_network_hdr q = Done (Some fh) /\ get_network_name fh (as_bytes fh ++ name ++ tp) = Done name /\
  foreign_get_dst_peer_id fh = dst /\ foreign_network_packet q = Done (new_from_buf tp DummyTunnel).
Proof.
  intros fh Hlay Hty Hutf Hname Hdst.
  destruct (foreign_header_fits name dst Hname Hdst) as (Hr & Ho & Hnl & Hhl & Hd). fold fh in Hr, Ho, Hnl, Hhl, Hd.
  assert (foreign_network_hdr q = Done (Some fh)) as Hfh.
  { unfold foreign_network_hdr. rewrite (layout_header _ _ _ _ Hlay). cbn [mbind outcome_bind unwrap].
    rewrite Hty, Z.eqb_refl, (layout_payload _ _ _ _ Hlay). cbn [mbind outcome_bind].
    by rewrite ref_from_prefix_app. }
  split_and!; try done.
  - unfold get_network_name. rewrite Ho, Hnl, slice_app by (rewrite ?fn_header_len_bytes; done).
    cbn [mbind outcome_bind]. by rewrite Hutf.
  - unfold foreign_network_packet. rewrite Hfh. cbn [mbind outcome_bind unwrap].
    destruct Hlay as (-> & Hp & _). rewrite Hhl.
    rewrite !app_assoc, split_off_app; [done|].
    rewrite !len_app, pm_header_len, fn_header_len_bytes, Hp. unfold payload_offset.
    destruct (offsets_gap (packet_type q)) as [_ ->]. unfold pm_offset. lia.
Qed.

(** Wrapping a packet for a foreign network and unwrapping it is the
    identity: if the network name fits the 16-bit header, the wrapped packet
    is recognised as a foreign network packet, its header yields the same
    destination peer and network name, and the unwrapped packet carries the
    original peer manager header and payload. *)
Theorem foreign_network_roundtrip (junk : nat -> Z) (name : bytes) (dst : Z) (p : ZCPacket) (tp : bytes)
    (Hj : forall i, is_byte (junk i)) (Hutf : utf8_valid name = true)
    (Hname : len name + 10 < 2 ^ 16) (Hdst : in_width 32 dst) (Htp : tunnel_payload p = Done tp) :
  exists q fh body r,
    new_for_foreign_network junk name dst p = Done q /\
    foreign_network_hdr q = Done (Some fh) /\ foreign_get_dst_peer_id fh = dst /\
    payload q = Done body /\ get_network_name fh body = Done name /\
    foreign_network_packet q = Done r /\ packet_type r = DummyTunnel /\ tunnel_payload r = Done tp.
Proof.
  destruct (new_for_foreign_network_layout junk name dst p tp Hj Hname Hdst Htp)
    as (q & pre & h & Hq & Hnic & Hty & Hlay).
  destruct (foreign_layout_unwrap _ _ _ _ _ _ Hlay Hty Hutf Hname Hdst) as (Hfh & Hn & Hd & Hr).
  eexists q, _, _, _. split_and!; try done; [by eapply layout_payload | by apply (slice_from_app [])].
Qed.

Lemma foreign_network_roundtrip_witness :
  exists q r, new_for_foreign_network (fun _ => 0) [110; 101; 116] 77 (mkZC [1; 2; 3] DummyTunnel) = Done q /\
    foreign_network_packet q = Done r /\ tunnel_payload r = Done [1; 2; 3].
Proof.
  destruct (foreign_network_roundtrip (fun _ => 0) [110; 101; 116] 77 (mkZC [1; 2; 3] DummyTunnel) [1; 2; 3])
    as (q & fh & body & r & Hq & _ & _ & _ & _ & Hr & _ & Htp).
  - intros i. vm_compute. split; congruence.
  - reflexivity.
  - vm_compute. congruence.
  - vm_compute. split; congruence.
  - reflexivity.
  - exists q, r. split; [exact Hq|]. split; [exact Hr | exact Htp].
Defined.

(** A network name of 65526 bytes or more cannot be described by the
    header's 16-bit fields: their sum or the length wraps around and wrapping
    the packet panics (for inner packets below 64 KiB). *)
Theorem foreign_name_too_long (junk : nat -> Z) (name : bytes) (dst : Z) (p : ZCPacket) (tp : bytes)
    (Hname : 65526 <= len name) (Htp : tunnel_payload p = Done tp) (Hsmall : len tp < 65536) :
  is_done (new_for_foreign_network junk name dst p) = false.
Proof.
  unfold new_for_foreign_network. rewrite Htp. cbn [mbind outcome_bind].
  destruct (mut_payload _) as [[view put]|pp] eqn:Hm; [|done]. cbn [mbind outcome_bind].
  pose proof (len_nonneg tp).
  assert (len view = as_u16 (10 + as_u16 (len name)) + len tp) as Hv.
  { unfold mut_payload, mut_from in Hm. inv_outcome. simplify_eq.
    apply slice_from_Done in H0 as [_ ->]. cbn [inner] in *.
    pose proof (wrap_in_width 16 (10 + as_u16 (len name))) as Hw. unfold in_width in Hw.
    unfold len at 1. rewrite length_drop. unfold uninit. rewrite length_fmap, length_seq.
    change (payload_offset _) with 36. cbn [get_header_len fn_header_len foreign_header_new].
    change (as_u16 10) with 10. lia. }
  enough (forall v, fill_foreign_view view (foreign_header_new dst name) name tp <> Done v) as Hn.
  { destruct (fill_foreign_view _ _ _ _); [by edestruct Hn | done]. }
  intros v (v1 & H1 & (v2 & H2 & _)%bind_Done)%bind_Done.
  apply copy_into_Done in H1 as (_ & _ & Hl1). apply copy_into_Done in H2 as (Hin & Hl2 & _).
  cbn [network_name_offset network_name_len foreign_header_new] in *. change (as_u16 10) with 10 in *.
  pose proof (wrap_in_width 16 (len name)) as Hw. unfold in_width in Hw.
  assert (as_u16 (len name) = len name) as E by lia. rewrite E in *.
  assert (as_u16 (10 + len name) = len name - 65526) as E'.
  { unfold wrap. rewrite <- (Z.mod_add _ (-1)) by lia. rewrite Z.mod_small; lia. }
  lia.
Qed.

Lemma foreign_name_too_long_witness :
  is_done (new_for_foreign_network (fun _ => 0) (repeat 97 65526) 1 (mkZC [1; 2] DummyTunnel)) = false.
Proof.
  apply (foreign_name_too_long (fun _ => 0) (repeat 97 65526) 1 (mkZC [1; 2] DummyTunnel) [1; 2]).
  - vm_compute. discriminate.
  - reflexivity.
  - reflexivity.
Defined.
