(* ===== verification/TokenBucket.v ===== *)
(** Rate limiting: [easytier/src/common/token_bucket.rs].

    [TokenBucket] is shared by many threads without a lock.  It is modelled at
    two levels: the atomic operations [try_consume] and [refill] (what a caller
    relies on, also used by the ACL model), and the lock-free code itself as
    a step relation over threads that load, compute and compare-exchange.
    Relaxed loads and failing compare-exchanges may return any value the
    location has held, and a weak compare-exchange may fail spuriously; a
    succeeding one acts on the latest value.  The refinement theorem says every
    interleaving is one of atomic operations; its corollary bounds the tokens
    ever consumed by the capacity plus the tokens refilled.

    The refill amount is computed in [f64]; it is evaluated exactly with the
    binary64 operations of [SpecFloat].

    [TokenBucketManager] hands out one shared bucket per key; reference counts
    are part of its state. *)

From stdpp Require Import base numbers list gmap strings.
From Stdlib Require Import SpecFloat.
From S2P Require Import Prelude.
Open Scope Z_scope.

(** ** Configuration *)

Record LimiterConfig := {
  lc_burst_rate : option Z; lc_bps : option Z; lc_fill_duration_ms : option Z
}.

Record BucketConfig := { capacity : Z; fill_rate : Z; refill_interval : Z }.

(** [From<LimiterConfig> for BucketConfig]; the interval is in milliseconds. *)
Definition bucket_config_from (cfg : LimiterConfig) : BucketConfig :=
  let burst_rate := Z.max 1 (default 1 (lc_burst_rate cfg)) in
  let fill_rate := Z.max 8196 (default (U64_MAX / burst_rate) (lc_bps cfg)) in
  let refill_interval :=
    match lc_fill_duration_ms cfg with Some x => Z.max 1 x | None => 10 end in
  {| capacity := as_u64 (burst_rate * fill_rate); fill_rate := fill_rate;
     refill_interval := refill_interval |}.

(** ** Atomic operations *)

Record TokenBucket := { available_tokens : Z; last_refill_time : Z; config : BucketConfig }.

Definition new_from_cfg (cfg : BucketConfig) : TokenBucket :=
  {| available_tokens := capacity cfg; last_refill_time := 0; config := cfg |}.

Definition token_bucket_new (cap bps interval : Z) : TokenBucket :=
  new_from_cfg {| capacity := cap; fill_rate := bps; refill_interval := interval |}.

(** [f64] arithmetic. *)
Definition f64_of_u64 (n : Z) : spec_float := binary_normalize 53 1024 n 0 false.
Definition f64_div := SFdiv 53 1024.
Definition f64_mul := SFmul 53 1024.
(** [as u64]: truncates, saturates, and sends NaN to 0. *)
Definition f64_to_u64 (x : spec_float) : Z :=
  match x with
  | S754_zero _ => 0
  | S754_nan => 0
  | S754_infinity s => if s then 0 else U64_MAX
  | S754_finite s m e =>
      if s then 0
      else Z.min U64_MAX (if 0 <=? e then Zpos m * 2 ^ e else Zpos m / 2 ^ (- e))
  end.

(** The amount a refill adds after [elapsed] microseconds. *)
Definition tokens_to_add (rate elapsed : Z) : Z :=
  let elapsed_secs := f64_div (f64_of_u64 elapsed) (f64_of_u64 1000000) in
  f64_to_u64 (f64_mul (f64_of_u64 rate) elapsed_secs).

(** The value [refill]'s compare-exchange installs. *)
Definition refilled (cap current add : Z) : Z := Z.min (saturating_add64 current add) cap.

Definition refill (now_micros : Z) (b : TokenBucket) : TokenBucket :=
  let add := tokens_to_add (fill_rate (config b)) (saturating_sub64 now_micros (last_refill_time b)) in
  {| available_tokens :=
       if add =? 0 then available_tokens b
       else refilled (capacity (config b)) (available_tokens b) add;
     last_refill_time := now_micros;
     config := config b |}.

Definition try_consume (tokens : Z) (b : TokenBucket) : bool * TokenBucket :=
  if capacity (config b) <? tokens then (false, b)
  else if available_tokens b <? tokens then (false, b)
  else (true, {| available_tokens := available_tokens b - tokens;
                 last_refill_time := last_refill_time b; config := config b |}).

(** ** The lock-free code *)

(** A thread inside [refill] or [try_consume]. *)
Inductive pc :=
| RefillSwap (now : Z)                 (** before [last_refill_time.swap] *)
| RefillLoad (add : Z)                 (** before the first load *)
| RefillCas (add current : Z)          (** at the head of the loop *)
| ConsumeStart (tokens : Z)
| ConsumeLoad (tokens : Z)
| ConsumeCas (tokens current : Z)
| Returned (res : option bool).        (** [refill] returns nothing *)

(** The atomics: the values [available_tokens] has held, newest first, and
    [last_refill_time]. *)
Record shared := { past : list Z; refill_at : Z }.

Definition latest (s : shared) : Z := default 0 (head (past s)).
Definition store (v : Z) (s : shared) : shared :=
  {| past := v :: past s; refill_at := refill_at s |}.

Inductive event := Tau | Added (n : Z) | Consumed (n : Z).

Section concurrent.
Context (cfg : BucketConfig).

Inductive thread_step : shared -> pc -> event -> shared -> pc -> Prop :=
| step_swap s now :
    thread_step s (RefillSwap now) Tau
      {| past := past s; refill_at := now |}
      (let add := tokens_to_add (fill_rate cfg) (saturating_sub64 now (refill_at s)) in
       if add =? 0 then Returned None else RefillLoad add)
| step_refill_load s add v :
    v ∈ past s -> thread_step s (RefillLoad add) Tau s (RefillCas add v)
| step_refill_cas s add :
    thread_step s (RefillCas add (latest s)) (Added add)
      (store (refilled (capacity cfg) (latest s) add) s) (Returned None)
| step_refill_retry s add current v :
    v ∈ past s -> thread_step s (RefillCas add current) Tau s (RefillCas add v)
| step_consume_oversized s tokens :
    capacity cfg < tokens -> thread_step s (ConsumeStart tokens) Tau s (Returned (Some false))
| step_consume_start s tokens :
    tokens <= capacity cfg -> thread_step s (ConsumeStart tokens) Tau s (ConsumeLoad tokens)
| step_consume_load s tokens v :
    v ∈ past s -> thread_step s (ConsumeLoad tokens) Tau s (ConsumeCas tokens v)
| step_consume_short s tokens current :
    current < tokens -> thread_step s (ConsumeCas tokens current) Tau s (Returned (Some false))
| step_consume_cas s tokens :
    tokens <= latest s ->
    thread_step s (ConsumeCas tokens (latest s)) (Consumed tokens)
      (store (latest s - tokens) s) (Returned (Some true))
| step_consume_retry s tokens current v :
    tokens <= current -> v ∈ past s ->
    thread_step s (ConsumeCas tokens current) Tau s (ConsumeCas tokens v).

Definition call_ok (p : pc) : Prop :=
  match p with
  | RefillSwap now => in_width 64 now
  | ConsumeStart tokens => in_width 64 tokens
  | _ => False
  end.

(** Threads start calls at any time and take steps in any order. *)
Inductive sys_step : shared * list pc -> event -> shared * list pc -> Prop :=
| sys_call s ts p : call_ok p -> sys_step (s, ts) Tau (s, p :: ts)
| sys_thread s s' ts i p p' e :
    ts !! i = Some p -> thread_step s p e s' p' -> sys_step (s, ts) e (s', <[i := p']> ts).

Inductive sys_run : shared * list pc -> list event -> shared * list pc -> Prop :=
| run_nil x : sys_run x [] x
| run_step x y z es e : sys_run x es y -> sys_step y e z -> sys_run x (es ++ [e]) z.

Definition sys_init : shared * list pc := ({| past := [capacity cfg]; refill_at := 0 |}, []).

(** The atomic specification the trace has to follow. *)
Definition spec_event (avail : Z) (e : event) : option Z :=
  match e with
  | Tau => Some avail
  | Added n => Some (refilled (capacity cfg) avail n)
  | Consumed n => if n <=? avail then Some (avail - n) else None
  end.

Fixpoint spec_trace (avail : Z) (es : list event) : option Z :=
  match es with
  | [] => Some avail
  | e :: es => match spec_event avail e with Some a => spec_trace a es | None => None end
  end.

Definition consumed_total (es : list event) : Z :=
  foldr (fun e acc => match e with Consumed n => n + acc | _ => acc end) 0 es.
Definition added_total (es : list event) : Z :=
  foldr (fun e acc => match e with Added n => n + acc | _ => acc end) 0 es.

Hypothesis cap_u64 : in_width 64 (capacity cfg).

(** Values loaded by a thread are values the bucket held; amounts are [u64]. *)
Definition pc_ok (s : shared) (p : pc) : Prop :=
  match p with
  | RefillSwap now => in_width 64 now
  | RefillLoad add => 0 <= add
  | RefillCas add v => 0 <= add /\ v ∈ past s
  | ConsumeStart tokens | ConsumeLoad tokens => 0 <= tokens
  | ConsumeCas tokens v => 0 <= tokens /\ v ∈ past s
  | Returned _ => True
  end.

Record sys_ok (x : shared * list pc) : Prop := {
  ok_past : Forall (fun v => 0 <= v <= capacity cfg) (past x.1);
  ok_nonempty : past x.1 <> [];
  ok_threads : Forall (pc_ok x.1) x.2
}.

Lemma f64_to_u64_nonneg x : 0 <= f64_to_u64 x.
Proof.
  unfold f64_to_u64, U64_MAX. destruct x as [| [] | |[] m e]; try lia.
  apply Z.min_glb; [lia|]. destruct (Z.leb_spec 0 e).
  - apply Z.mul_nonneg_nonneg; [lia | apply Z.pow_nonneg; lia].
  - apply Z.div_pos; [lia | apply Z.pow_pos_nonneg; lia].
Qed.

Lemma refilled_bound cur add : 0 <= cur <= capacity cfg -> 0 <= add ->
  cur <= refilled (capacity cfg) cur add <= capacity cfg /\
  refilled (capacity cfg) cur add <= cur + add.
Proof. unfold refilled, saturating_add64, U64_MAX, in_width in *. lia. Qed.

Lemma latest_ok s : past s <> [] -> latest s ∈ past s.
Proof. unfold latest. destruct (past s); simpl; [done | set_solver]. Qed.

Lemma pc_ok_store s v p : pc_ok s p -> pc_ok (store v s) p.
Proof. destruct p; simpl; intros; destruct_and?; try done; split; set_solver. Qed.

(** One thread step keeps its own state sound and moves the bucket as the
    specification does. *)
Lemma thread_step_ok s p e s' p' :
  Forall (fun v => 0 <= v <= capacity cfg) (past s) -> past s <> [] -> pc_ok s p ->
  thread_step s p e s' p' ->
  (s' = {| past := past s; refill_at := refill_at s' |} \/ exists v, s' = store v s) /\
  Forall (fun v => 0 <= v <= capacity cfg) (past s') /\ past s' <> [] /\ pc_ok s' p' /\
  spec_event (latest s) e = Some (latest s').
Proof.
  intros Hp Hne Hpc Hst. pose proof (latest_ok s Hne) as Hin.
  assert (0 <= latest s <= capacity cfg) as Hl by (apply (proj1 (Forall_forall _ _) Hp _ Hin)).
  destruct Hst; simpl in *; destruct_and?;
    split_and!; try done; try (left; by destruct s); try (right; by eexists).
  - case_match; simpl; [done | apply f64_to_u64_nonneg].
  - constructor; [|done]. destruct (refilled_bound (latest s) add); lia.
  - constructor; [lia | done].
  - destruct (Z.leb_spec tokens (latest s)); [done | lia].
Qed.

Lemma pc_ok_kept s s' p :
  (s' = {| past := past s; refill_at := refill_at s' |} \/ exists v, s' = store v s) ->
  pc_ok s p -> pc_ok s' p.
Proof.
  intros [E | [v ->]] Hp; [|by apply pc_ok_store]. rewrite E.
  by destruct p.
Qed.

Lemma sys_step_ok x e y :
  sys_ok x -> sys_step x e y -> sys_ok y /\ spec_event (latest x.1) e = Some (latest y.1).
Proof.
  intros [Hp Hne Ht] Hst. destruct Hst as [s ts p Hc | s s' ts i p p' e Hi Hstep]; simpl in *.
  - split; [|done]. constructor; simpl; try done. constructor; [|done].
    destruct p; simpl in *; try done; unfold in_width in *; lia.
  - assert (pc_ok s p) as Hpc by (apply (proj1 (Forall_lookup _ _) Ht i p Hi)).
    destruct (thread_step_ok s p e s' p' Hp Hne Hpc Hstep) as (Hkeep & ? & ? & ? & ?).
    split; [|done]. constructor; simpl; try done. apply Forall_insert; [|done].
    eapply Forall_impl; [exact Ht|]. intros q. by apply pc_ok_kept.
Qed.

Lemma init_ok : sys_ok sys_init.
Proof. constructor; simpl; try done. constructor; [|done]. unfold in_width in *; lia. Qed.

Lemma spec_trace_snoc a es e :
  spec_trace a (es ++ [e]) = match spec_trace a es with Some b => spec_event b e | None => None end.
Proof.
  revert a; induction es as [|e' es IH]; intros a; simpl; [by destruct (spec_event a e)|].
  destruct (spec_event a e'); [apply IH | done].
Qed.

Lemma sys_run_ok x es y :
  sys_run x es y -> sys_ok x -> sys_ok y /\ spec_trace (latest x.1) es = Some (latest y.1).
Proof.
  induction 1 as [x|x y z es e _ IH Hst]; intros Hx; [by split|].
  destruct (IH Hx) as [Hy Htr]. destruct (sys_step_ok _ _ _ Hy Hst) as [Hz He].
  split; [done|]. by rewrite spec_trace_snoc, Htr.
Qed.

(** Every addition comes from a refill of a non-negative amount. *)
Definition event_ok (e : event) : Prop :=
  match e with Tau => True | Added n | Consumed n => 0 <= n end.

Lemma sys_step_event x e y : sys_ok x -> sys_step x e y -> event_ok e.
Proof.
  intros [_ _ Ht] Hst. destruct Hst as [|s s' ts i p p' e Hi Hstep]; [done|].
  pose proof (proj1 (Forall_lookup _ _) Ht i p Hi) as Hpc.
  destruct Hstep; simpl in *; destruct_and?; done.
Qed.

Lemma sys_run_events x es y : sys_run x es y -> sys_ok x -> Forall event_ok es.
Proof.
  induction 1 as [x|x y z es e Hr IH Hst]; intros Hx; [done|].
  apply Forall_app. split; [by apply IH|]. constructor; [|done].
  eapply sys_step_event; [|done]. by eapply sys_run_ok.
Qed.

(** The specification never overdraws: consumed tokens were there initially
    or were added. *)
Lemma spec_trace_budget es a b :
  0 <= a <= capacity cfg -> Forall event_ok es -> spec_trace a es = Some b ->
  0 <= b <= capacity cfg /\ consumed_total es + b <= a + added_total es.
Proof.
  revert a; induction es as [|e es IH]; intros a Ha Hev; simpl; [intros; simplify_eq; lia|].
  apply Forall_cons in Hev as [He Hev]. destruct e as [|n|n]; simpl.
  - intros Htr. by apply IH.
  - intros Htr. destruct (refilled_bound a n Ha He). apply IH in Htr; [lia | lia | done].
  - destruct (Z.leb_spec n a); [|done]. intros Htr. simpl in He.
    apply IH in Htr; [lia | lia | done].
Qed.
End concurrent.

(** ** The manager *)

(** The map from keys to [Arc]s, the buckets behind them, and the number of
    strong references held outside the map. *)
Record TokenBucketManager := {
  buckets : gmap string nat;
  arcs : gmap nat TokenBucket;
  held : gmap nat nat;
  next_arc : nat
}.

Definition manager_new : TokenBucketManager :=
  {| buckets := ∅; arcs := ∅; held := ∅; next_arc := 0 |}.

Definition holders (m : TokenBucketManager) (a : nat) : nat := default 0%nat (held m !! a).

(** [get_or_create]: returns a clone of the entry's [Arc]. *)
Definition get_or_create (key : string) (cfg : BucketConfig) (m : TokenBucketManager)
    : nat * TokenBucketManager :=
  match buckets m !! key with
  | Some a =>
      (a, {| buckets := buckets m; arcs := arcs m; held := <[a := S (holders m a)]> (held m);
             next_arc := next_arc m |})
  | None =>
      let a := next_arc m in
      (a, {| buckets := <[key := a]> (buckets m); arcs := <[a := new_from_cfg cfg]> (arcs m);
             held := <[a := 1%nat]> (held m); next_arc := S a |})
  end.

(** A client drops its clone. *)
Definition drop_handle (a : nat) (m : TokenBucketManager) : TokenBucketManager :=
  {| buckets := buckets m; arcs := arcs m; held := <[a := pred (holders m a)]> (held m);
     next_arc := next_arc m |}.

(** The retain task: keeps the entries whose [strong_count] exceeds the map's
    own reference.  [upgraded] are the buckets whose refill task has upgraded
    its weak reference at that moment. *)
Definition retain_used (upgraded : gset nat) (m : TokenBucketManager) : TokenBucketManager :=
  {| buckets := retain (fun _ a => bool_decide (a ∈ upgraded) || (0 <? holders m a)%nat) (buckets m);
     arcs := arcs m; held := held m; next_arc := next_arc m |}.

Inductive manager_step : TokenBucketManager -> TokenBucketManager -> Prop :=
| mstep_get m key cfg : manager_step m (get_or_create key cfg m).2
| mstep_drop m a : (0 < holders m a)%nat -> manager_step m (drop_handle a m)
| mstep_retain m u : manager_step m (retain_used u m)
| mstep_use m a b : is_Some (arcs m !! a) ->
    manager_step m {| buckets := buckets m; arcs := <[a := b]> (arcs m); held := held m;
                      next_arc := next_arc m |}.

(** Each mapped bucket exists and is mapped once. *)
Record manager_ok (m : TokenBucketManager) : Prop := {
  mok_fresh : forall a, (next_arc m <= a)%nat -> arcs m !! a = None /\ holders m a = 0%nat;
  mok_mapped : forall k a, buckets m !! k = Some a -> (a < next_arc m)%nat /\ is_Some (arcs m !! a);
  mok_inj : forall k k' a, buckets m !! k = Some a -> buckets m !! k' = Some a -> k = k'
}.

Lemma holders_insert m a n b B A x :
  holders {| buckets := B; arcs := A; held := <[a := n]> (held m); next_arc := x |} b =
  if decide (a = b) then n else holders m b.
Proof. unfold holders; simpl. rewrite lookup_insert. by case_decide. Qed.

Lemma manager_step_ok m m' : manager_ok m -> manager_step m m' -> manager_ok m'.
Proof.
  intros [Hf Hm Hi] Hst. destruct Hst as [m key cfg | m a Ha | m u | m a b Hb].
  - unfold get_or_create. destruct (buckets m !! key) as [a|] eqn:E; simpl.
    + constructor; simpl; try done. intros b Hb. rewrite holders_insert.
      case_decide; [subst; destruct (Hm _ _ E); lia | by apply Hf].
    + constructor; simpl.
      * intros b Hb. rewrite lookup_insert_ne by lia. rewrite holders_insert, decide_False by lia.
        apply Hf; lia.
      * intros k a. rewrite !lookup_insert. case_decide; intros; simplify_eq.
        { rewrite decide_True by done. eauto. }
        destruct (Hm k a) as [? ?]; [done|]. rewrite decide_False by lia. split; [lia | done].
      * intros k k' a. rewrite !lookup_insert. repeat case_decide; intros E1 E2; simplify_eq; try done.
        -- destruct (Hm _ _ E2); lia.
        -- destruct (Hm _ _ E1); lia.
        -- by eapply Hi.
  - constructor; simpl; try done. intros b Hb. unfold drop_handle. rewrite holders_insert.
    destruct (Hf b Hb). case_decide; [subst; lia | done].
  - constructor; simpl; [done | |].
    + intros k a [? _]%retain_Some. by apply (Hm k).
    + intros k k' a [? _]%retain_Some [? _]%retain_Some. by eapply Hi.
  - constructor; simpl; try done.
    + intros c Hc. rewrite lookup_insert_ne; [by apply Hf|]. intros ->.
      destruct (Hf c Hc) as [E _]. rewrite E in Hb. by destruct Hb.
    + intros k c Hk. destruct (Hm _ _ Hk). split; [done|]. rewrite lookup_insert. by case_decide; eauto.
Qed.

(** Steps during which somebody keeps a clone of [a]. *)
Inductive run_holding (a : nat) : TokenBucketManager -> TokenBucketManager -> Prop :=
| hold_nil m : run_holding a m m
| hold_step m m' m'' :
    run_holding a m m' -> (0 < holders m' a)%nat -> manager_step m' m'' -> run_holding a m m''.

Lemma held_stays_mapped key a m m' :
  (0 < holders m a)%nat -> buckets m !! key = Some a -> manager_step m m' ->
  buckets m' !! key = Some a.
Proof.
  intros Hh Hk Hst. destruct Hst as [m k cfg | m b Hb | m u | m b x Hb]; simpl; try done.
  - unfold get_or_create. destruct (buckets m !! k) eqn:E; simpl; [done|].
    rewrite lookup_insert_ne; [done | congruence].
  - apply retain_Some. split; [done|]. apply orb_true_iff; right. by apply Nat.ltb_lt.
Qed.

(** ** Properties *)

(** Refinement: every interleaving of any number of [refill] and
    [try_consume] calls, with stale relaxed loads and spurious failures of the
    weak compare-exchange, behaves as a sequence of atomic refills and
    consumptions, and the bucket never holds more than its capacity. *)
Theorem token_bucket_refines (cfg : BucketConfig) (es : list event) (y : shared * list pc)
    (Hcap : in_width 64 (capacity cfg)) (Hrun : sys_run cfg (sys_init cfg) es y) :
  spec_trace cfg (capacity cfg) es = Some (latest y.1) /\ 0 <= latest y.1 <= capacity cfg.
Proof.
  destruct (sys_run_ok cfg Hcap _ _ _ Hrun (init_ok cfg Hcap)) as [[Hp Hne _] Htr].
  split; [exact Htr|]. apply (proj1 (Forall_forall _ _) Hp), (latest_ok cfg Hcap), Hne.
Qed.

(** The limit holds under concurrency: the tokens granted in any run never
    exceed the initial capacity plus the amounts added by refills. *)
Theorem token_bucket_budget (cfg : BucketConfig) (es : list event) (y : shared * list pc)
    (Hcap : in_width 64 (capacity cfg)) (Hrun : sys_run cfg (sys_init cfg) es y) :
  consumed_total es <= capacity cfg + added_total es.
Proof.
  pose proof (init_ok cfg Hcap) as Hi.
  destruct (sys_run_ok cfg Hcap _ _ _ Hrun Hi) as [_ Htr].
  pose proof (sys_run_events cfg Hcap _ _ _ Hrun Hi) as Hev.
  destruct (spec_trace_budget cfg Hcap es (capacity cfg) (latest y.1)); try done; [|lia].
  unfold in_width in Hcap. lia.
Qed.

(** Two racing consumers of a 10-token bucket: the second loses the race on a
    stale value, retries and is refused. *)
Definition race_cfg : BucketConfig := {| capacity := 10; fill_rate := 0; refill_interval := 10 |}.
Definition race_end : shared * list pc :=
  ({| past := [3; 10]; refill_at := 0 |}, [Returned (Some false); Returned (Some true)]).

Lemma sys_thread_at cfg s s' ts ts' i p p' e :
  ts !! i = Some p -> ts' = <[i := p']> ts -> thread_step cfg s p e s' p' ->
  sys_step cfg (s, ts) e (s', ts').
Proof. intros ? -> ?. by apply (sys_thread _ _ _ _ i p). Qed.

Lemma race_run : sys_run race_cfg (sys_init race_cfg)
  [Tau; Tau; Tau; Tau; Tau; Tau; Consumed 7; Tau; Tau] race_end.
Proof.
  unfold race_end.
  change [Tau; Tau; Tau; Tau; Tau; Tau; Consumed 7; Tau; Tau] with
    (((((((([] ++ [Tau]) ++ [Tau]) ++ [Tau]) ++ [Tau]) ++ [Tau]) ++ [Tau]) ++ [Consumed 7]) ++ [Tau] ++ [Tau]).
  rewrite app_assoc.
  eapply run_step with (y := ({| past := [3; 10]; refill_at := 0 |}, [ConsumeCas 7 3; Returned (Some true)])).
  2: { apply (sys_thread_at _ _ _ _ _ 0 (ConsumeCas 7 3) (Returned (Some false))); [done | done | constructor; simpl; lia]. }
  eapply run_step with (y := ({| past := [3; 10]; refill_at := 0 |}, [ConsumeCas 7 10; Returned (Some true)])).
  2: { apply (sys_thread_at _ _ _ _ _ 0 (ConsumeCas 7 10) (ConsumeCas 7 3)); [done | done | constructor; [lia | set_solver]]. }
  eapply run_step with (y := ({| past := [10]; refill_at := 0 |}, [ConsumeCas 7 10; ConsumeCas 7 10])).
  2: { apply (sys_thread_at _ _ _ _ _ 1 (ConsumeCas 7 10) (Returned (Some true)));
         [done | done | apply (step_consume_cas _ {| past := [10]; refill_at := 0 |}); vm_compute; discriminate]. }
  eapply run_step with (y := ({| past := [10]; refill_at := 0 |}, [ConsumeLoad 7; ConsumeCas 7 10])).
  2: { apply (sys_thread_at _ _ _ _ _ 0 (ConsumeLoad 7) (ConsumeCas 7 10)); [done | done | constructor; set_solver]. }
  eapply run_step with (y := ({| past := [10]; refill_at := 0 |}, [ConsumeLoad 7; ConsumeLoad 7])).
  2: { apply (sys_thread_at _ _ _ _ _ 1 (ConsumeLoad 7) (ConsumeCas 7 10)); [done | done | constructor; set_solver]. }
  eapply run_step with (y := ({| past := [10]; refill_at := 0 |}, [ConsumeStart 7; ConsumeLoad 7])).
  2: { apply (sys_thread_at _ _ _ _ _ 0 (ConsumeStart 7) (ConsumeLoad 7)); [done | done | constructor; simpl; lia]. }
  eapply run_step with (y := ({| past := [10]; refill_at := 0 |}, [ConsumeStart 7; ConsumeStart 7])).
  2: { apply (sys_thread_at _ _ _ _ _ 1 (ConsumeStart 7) (ConsumeLoad 7)); [done | done | constructor; simpl; lia]. }
  eapply run_step with (y := ({| past := [10]; refill_at := 0 |}, [ConsumeStart 7])).
  2: { constructor. vm_compute. split; congruence. }
  eapply run_step; [constructor | constructor; vm_compute; split; congruence].
Qed.

Lemma token_bucket_refines_witness :
  spec_trace race_cfg 10 [Tau; Tau; Tau; Tau; Tau; Tau; Consumed 7; Tau; Tau] = Some 3.
Proof.
  apply (token_bucket_refines race_cfg _ race_end); [vm_compute; split; congruence | apply race_run].
Defined.

Lemma token_bucket_budget_witness :
  consumed_total [Tau; Tau; Tau; Tau; Tau; Tau; Consumed 7; Tau; Tau] <=
  capacity race_cfg + added_total [Tau; Tau; Tau; Tau; Tau; Tau; Consumed 7; Tau; Tau].
Proof.
  apply (token_bucket_budget race_cfg _ race_end); [vm_compute; split; congruence | apply race_run].
Defined.

(** One bucket per key: as long as a client holds the bucket it got for a
    key, whatever other calls, drops and retain sweeps happen in between, a
    later [get_or_create] for that key (with any configuration) returns the
    same bucket. *)
Theorem bucket_shared_while_held (key : string) (cfg cfg' : BucketConfig)
    (m0 m1 m2 : TokenBucketManager) (a : nat)
    (Hget : get_or_create key cfg m0 = (a, m1)) (Hrun : run_holding a m1 m2) :
  (get_or_create key cfg' m2).1 = a.
Proof.
  enough (buckets m2 !! key = Some a) as E by (unfold get_or_create; by rewrite E).
  assert (buckets m1 !! key = Some a) as H1.
  { unfold get_or_create in Hget. destruct (buckets m0 !! key) eqn:E; simplify_eq; simpl; [done|].
    by rewrite lookup_insert_eq. }
  clear Hget. induction Hrun as [m|m m' m'' _ IH Hh Hst]; [done|].
  by eapply held_stays_mapped; [| apply IH |].
Qed.

Lemma bucket_shared_while_held_witness :
  let cfg := {| capacity := 5; fill_rate := 1; refill_interval := 10 |} in
  let m1 := (get_or_create "net" cfg manager_new).2 in
  (get_or_create "net" race_cfg (retain_used ∅ (get_or_create "other" cfg m1).2)).1 = 0%nat.
Proof.
  intros cfg m1. apply (bucket_shared_while_held "net" cfg race_cfg manager_new m1); [reflexivity|].
  eapply hold_step; [eapply hold_step; [apply hold_nil | | apply mstep_get] | | apply mstep_retain];
    vm_compute; lia.
Defined.

(** A limiter configuration with [u64] fields gives a fill rate of at
    least 8196 bytes per second (also for an explicit rate of 0) and a refill
    interval of at least a millisecond; the capacity is burst times rate as
    long as that product fits in 64 bits, which it always does without an
    explicit rate for bursts up to [u64::MAX / 8196]. *)
Theorem bucket_config_bounds (cfg : LimiterConfig)
    (Hburst : forall b, lc_burst_rate cfg = Some b -> in_width 64 b)
    (Hbps : forall b, lc_bps cfg = Some b -> in_width 64 b) :
  let burst := Z.max 1 (default 1 (lc_burst_rate cfg)) in
  let c := bucket_config_from cfg in
  8196 <= fill_rate c < 2 ^ 64 /\ 1 <= refill_interval c /\
  (lc_bps cfg = Some 0 -> fill_rate c = 8196) /\
  (burst * fill_rate c < 2 ^ 64 -> capacity c = burst * fill_rate c) /\
  (lc_bps cfg = None -> burst <= U64_MAX / 8196 -> capacity c = burst * (U64_MAX / burst)).
Proof.
  intros burst c.
  assert (1 <= burst < 2 ^ 64) as Hb.
  { unfold burst. destruct (lc_burst_rate cfg) as [b|]; simpl; [destruct (Hburst b eq_refl)|]; lia. }
  assert (0 <= U64_MAX / burst <= U64_MAX) as Hq.
  { split; [apply Z.div_pos; unfold U64_MAX; lia|]. apply Z.div_le_upper_bound; unfold U64_MAX; nia. }
  assert (fill_rate c = Z.max 8196 (default (U64_MAX / burst) (lc_bps cfg))) as Hf by done.
  assert (capacity c = as_u64 (burst * fill_rate c)) as Hc by done.
  assert (0 <= default (U64_MAX / burst) (lc_bps cfg) <= U64_MAX) as Hd.
  { destruct (lc_bps cfg) as [b|]; simpl; [destruct (Hbps b eq_refl); unfold U64_MAX; lia | lia]. }
  split_and!; try (unfold U64_MAX in *; lia).
  - simpl. destruct (lc_fill_duration_ms cfg); lia.
  - intros E. rewrite Hf, E. done.
  - intros. rewrite Hc. apply wrap_small. unfold in_width. nia.
  - intros E Hle. rewrite Hc, Hf, E. simpl.
    assert (8196 <= U64_MAX / burst).
    { apply Z.div_le_lower_bound; [lia|]. pose proof (Z.mul_div_le U64_MAX 8196). lia. }
    rewrite Z.max_r by done. apply wrap_small. unfold in_width.
    pose proof (Z.mul_div_le U64_MAX burst). unfold U64_MAX in *. lia.
Qed.

Lemma bucket_config_bounds_witness :
  capacity (bucket_config_from {| lc_burst_rate := Some 3; lc_bps := None; lc_fill_duration_ms := None |})
  = 3 * (U64_MAX / 3).
Proof.
  apply (bucket_config_bounds {| lc_burst_rate := Some 3; lc_bps := None; lc_fill_duration_ms := None |}).
  - intros b [= <-]. vm_compute. split; congruence.
  - intros b [=].
  - reflexivity.
  - vm_compute. discriminate.
Defined.

(** A burst whose product with the rate overflows leaves a bucket that never
    grants a token. *)
Lemma bucket_config_overflow :
  let c := bucket_config_from
    {| lc_burst_rate := Some (2 ^ 62); lc_bps := Some 8196; lc_fill_duration_ms := None |} in
  capacity c = 0 /\ (try_consume 1 (new_from_cfg c)).1 = false.
Proof. vm_compute. done. Qed.

(** The rate in the source's own unit test: 1000 tokens per second for 20 ms. *)
Example refill_20ms :
  available_tokens (refill 20000 {| available_tokens := 0; last_refill_time := 0;
    config := {| capacity := 1000; fill_rate := 1000; refill_interval := 10 |} |}) = 20.
Proof. vm_compute. reflexivity. Qed.
