(* ===== verification/Text.v ===== *)
(** Strings and numbers of Rust's standard library.

    A string is the list of its characters' code points ([text]); the
    operations are those the components use: trimming, splitting, joining,
    comparing, and parsing and printing of unsigned decimals. *)

From stdpp Require Import base numbers list strings.
From Stdlib Require Import Ascii ZifyBool.
From S2P Require Import Prelude.
Open Scope Z_scope.

(** ** Strings and numbers *)

Abbreviation text := (list Z).

Fixpoint txt (s : string) : text :=
  match s with
  | EmptyString => []
  | String c s => Z.of_nat (nat_of_ascii c) :: txt s
  end.

(** [char::is_whitespace] (Unicode White_Space), [str::trim]. *)
Definition is_whitespace (c : Z) : bool :=
  ((9 <=? c) && (c <=? 13)) || ((8192 <=? c) && (c <=? 8202)) ||
  existsb (Z.eqb c) [32; 133; 160; 5760; 8232; 8233; 8239; 8287; 12288].

Fixpoint trim_start (l : text) : text :=
  match l with
  | [] => []
  | c :: l' => if is_whitespace c then trim_start l' else l
  end.
Definition trim (l : text) : text := reverse (trim_start (reverse (trim_start l))).

(** [u16::from_str]: an optional [+], then at least one digit, no overflow. *)
Definition is_digit (c : Z) : bool := (48 <=? c) && (c <=? 57).

Fixpoint parse_digits (acc : Z) (l : text) : option Z :=
  match l with
  | [] => Some acc
  | c :: l =>
      if is_digit c then
        let acc := acc * 10 + (c - 48) in
        if 65535 <? acc then None else parse_digits acc l
      else None
  end.

Definition parse_u16 (l : text) : option Z :=
  match l with
  | [] => None
  | [c] => if c =? 43 then None else parse_digits 0 l
  | c :: l' => if c =? 43 then parse_digits 0 l' else parse_digits 0 l
  end.

(** [u16::to_string]. *)
Fixpoint print_digits (fuel : nat) (n : Z) : text :=
  match fuel with
  | O => []
  | S fuel => if n <? 10 then [48 + n] else print_digits fuel (n / 10) ++ [48 + n mod 10]
  end.
Definition print_u16 (n : Z) : text := print_digits 5 n.

(** [str::split_once('-')] and [str::split('-')]. *)
Fixpoint split_once (sep : Z) (l : text) : option (text * text) :=
  match l with
  | [] => None
  | c :: l => if c =? sep then Some ([], l)
              else match split_once sep l with Some (a, b) => Some (c :: a, b) | None => None end
  end.

Fixpoint split (sep : Z) (l : text) : list text :=
  match l with
  | [] => [[]]
  | c :: l => if c =? sep then [] :: split sep l
              else match split sep l with [] => [[c]] | p :: ps => (c :: p) :: ps end
  end.

(** [u32::to_string] and [u64::to_string]. *)
Definition print_u32 (n : Z) : text := print_digits 10 n.
Definition print_u64 (n : Z) : text := print_digits 20 n.

(** [join(sep)]. *)
Fixpoint join (sep : text) (parts : list text) : text :=
  match parts with
  | [] => []
  | [p] => p
  | p :: ps => p ++ sep ++ join sep ps
  end.

(** [str::cmp]: lexicographic. *)
Fixpoint text_cmp (a b : text) : comparison :=
  match a, b with
  | [], [] => Eq
  | [], _ :: _ => Lt
  | _ :: _, [] => Gt
  | x :: a, y :: b => match Z.compare x y with Eq => text_cmp a b | c => c end
  end.

Definition text_le (a b : text) : bool := match text_cmp a b with Gt => false | _ => true end.

(** [str::starts_with]. *)
Fixpoint starts_with (prefix l : text) : bool :=
  match prefix, l with
  | [], _ => true
  | p :: prefix, c :: l => (p =? c) && starts_with prefix l
  | _ :: _, [] => false
  end.

(** ** The order on strings *)

Lemma text_cmp_refl a : text_cmp a a = Eq.
Proof. induction a as [|x a IH]; simpl; [done|]. by rewrite Z.compare_refl. Qed.

Lemma text_cmp_eq a b : text_cmp a b = Eq <-> a = b.
Proof.
  split; [|intros ->; apply text_cmp_refl].
  revert b; induction a as [|x a IH]; intros [|y b]; simpl; try done.
  destruct (Z.compare_spec x y) as [->| |]; try done. intros E. f_equal. by apply IH.
Qed.

Lemma text_cmp_antisym a b : text_cmp b a = CompOpp (text_cmp a b).
Proof.
  revert b; induction a as [|x a IH]; intros [|y b]; simpl; try done.
  rewrite (Z.compare_antisym x y). destruct (Z.compare x y); simpl; auto.
Qed.

Lemma text_cmp_trans a b c : text_cmp a b = Lt -> text_cmp b c = Lt -> text_cmp a c = Lt.
Proof.
  revert b c; induction a as [|x a IH]; intros [|y b] [|z c]; simpl; try done.
  destruct (Z.compare_spec x y), (Z.compare_spec y z), (Z.compare_spec x z); intros; try done; try lia.
  by eapply IH.
Qed.

Lemma text_le_total a b : text_le a b = true \/ text_le b a = true.
Proof. unfold text_le. rewrite (text_cmp_antisym a b). destruct (text_cmp a b); simpl; auto. Qed.

Lemma text_le_trans a b c : text_le a b = true -> text_le b c = true -> text_le a c = true.
Proof.
  unfold text_le. intros H1 H2.
  destruct (text_cmp a b) eqn:E1, (text_cmp b c) eqn:E2; try done.
  - apply text_cmp_eq in E1, E2. subst. by rewrite text_cmp_refl.
  - apply text_cmp_eq in E1. subst. by rewrite E2.
  - apply text_cmp_eq in E2. subst. by rewrite E1.
  - by rewrite (text_cmp_trans _ _ _ E1 E2).
Qed.

Lemma text_le_antisym a b : text_le a b = true -> text_le b a = true -> a = b.
Proof.
  unfold text_le. rewrite (text_cmp_antisym a b). destruct (text_cmp a b) eqn:E; try done.
  intros _ _. by apply text_cmp_eq.
Qed.

Lemma txt_inj a b : txt a = txt b -> a = b.
Proof.
  revert b; induction a as [|c a IH]; intros [|d b]; simpl; try done.
  intros E. injection E as Hc E. f_equal; [|by apply IH].
  rewrite <- (ascii_nat_embedding c), <- (ascii_nat_embedding d). f_equal. lia.
Qed.
