(* ===== verification/AclRules.v ===== *)
(** Access-control rules: the configuration types of
    [easytier/src/proto/acl.proto] and the rule side of
    [easytier/src/common/acl_processor.rs]: port parsing, conversion to
    lookup rules, matching, construction of the per-chain rule lists, and
    [AclRuleBuilder], which turns command-line port whitelists into a chain.

    Strings are lists of Unicode scalar values.  The [cidr] crate (parsing and
    containment of address ranges) is the parameter [CidrLib].

    Results: every port specification accepted by the whitelist parser is read
    back by the rule parser as the same non-empty range; rule lists are sorted
    by priority within a chain; a whitelist on its own yields a default-deny
    inbound chain, but the deny is lost when the configuration already has an
    inbound chain ([whitelist_default_action]). *)

From stdpp Require Import base numbers list gmap strings sets sorting.
From Stdlib Require Import Ascii ZifyBool.
From S2P Require Import Prelude Text.
Open Scope Z_scope.

Definition DASH : Z := 45.

(** ** Configuration types *)

Inductive Protocol := Unspecified | Tcp | Udp | Icmp | IcmpV6 | AnyProtocol.
Inductive Action := Noop | Allow | Drop.
Inductive ChainType := UnspecifiedChain | Inbound | Outbound | Forward.

#[global] Instance protocol_eq_dec : EqDecision Protocol.
Proof. solve_decision. Defined.
#[global] Instance action_eq_dec : EqDecision Action.
Proof. solve_decision. Defined.
#[global] Instance chain_type_eq_dec : EqDecision ChainType.
Proof. solve_decision. Defined.

Definition protocol_i32 (p : Protocol) : Z :=
  match p with Unspecified => 0 | Tcp => 1 | Udp => 2 | Icmp => 3 | IcmpV6 => 4 | AnyProtocol => 5 end.
Definition action_i32 (a : Action) : Z := match a with Noop => 0 | Allow => 1 | Drop => 2 end.
Definition chain_type_i32 (c : ChainType) : Z :=
  match c with UnspecifiedChain => 0 | Inbound => 1 | Outbound => 2 | Forward => 3 end.

(** The generated accessors of enum fields: unknown numbers read as the default. *)
Definition protocol_of (z : Z) : Protocol :=
  if z =? 1 then Tcp else if z =? 2 then Udp else if z =? 3 then Icmp else if z =? 4 then IcmpV6
  else if z =? 5 then AnyProtocol else Unspecified.
Definition action_of (z : Z) : Action := if z =? 1 then Allow else if z =? 2 then Drop else Noop.
Definition chain_type_of (z : Z) : ChainType :=
  if z =? 1 then Inbound else if z =? 2 then Outbound else if z =? 3 then Forward else UnspecifiedChain.

Record Rule := mkRule {
  rule_name : text; rule_description : text; rule_priority : Z; rule_enabled : bool;
  rule_protocol : Z; rule_ports : list text; source_ips : list text; destination_ips : list text;
  source_ports : list text; rule_action : Z; rule_rate_limit : Z; rule_burst_limit : Z;
  rule_stateful : bool; rule_source_groups : list text; rule_destination_groups : list text
}.

Record Chain := mkChain {
  chain_name : text; chain_chain_type : Z; chain_description : text; chain_enabled : bool;
  chain_rules : list Rule; chain_default_action : Z
}.

Record GroupIdentity := { group_name : text; group_secret : text }.
Record GroupInfo := { declares : list GroupIdentity; members : list text }.
Record AclV1 := { chains : list Chain; acl_group : option GroupInfo }.
Record Acl := { acl_v1 : option AclV1 }.
Definition acl_default : Acl := {| acl_v1 := None |}.

(** ** Ports *)

Definition parse_port_range (s : text) : option (Z * Z) :=
  match split_once DASH s with
  | Some (start, end_) =>
      match parse_u16 (trim start), parse_u16 (trim end_) with
      | Some a, Some b => Some (a, b)
      | _, _ => None
      end
  | None => match parse_u16 (trim s) with Some p => Some (p, p) | None => None end
  end.

Definition parse_port_start (port_strs : list text) : option Z :=
  match omap (fun s => fst <$> parse_port_range s) port_strs with
  | [] => None
  | x :: l => Some (foldr Z.min x l)
  end.
Definition parse_port_end (port_strs : list text) : option Z :=
  match omap (fun s => snd <$> parse_port_range s) port_strs with
  | [] => None
  | x :: l => Some (foldr Z.max x l)
  end.

Inductive port_error := InvalidRangeFormat | InvalidStart | InvalidEnd | StartAfterEnd | InvalidPort.

(** One [port_spec] of [AclRuleBuilder::parse_port_list]. *)
Definition parse_port_spec (spec : text) : result port_error text :=
  if existsb (Z.eqb DASH) spec then
    match split DASH spec with
    | [a; b] =>
        match parse_u16 a with
        | None => Err InvalidStart
        | Some start =>
            match parse_u16 b with
            | None => Err InvalidEnd
            | Some end_ => if end_ <? start then Err StartAfterEnd else Ok spec
            end
        end
    | _ => Err InvalidRangeFormat
    end
  else
    match parse_u16 spec with
    | None => Err InvalidPort
    | Some port => Ok (print_u16 port)
    end.

Fixpoint parse_port_list (port_list : list text) : result port_error (list text) :=
  match port_list with
  | [] => Ok []
  | spec :: rest =>
      match parse_port_spec spec with
      | Err e => Err e
      | Ok p => match parse_port_list rest with Ok ps => Ok (p :: ps) | Err e => Err e end
      end
  end.

(** ** Addresses *)
(** What the code uses of the [cidr] crate. *)
Class CidrLib := {
  Ipv4Cidr : Type;
  Ipv6Cidr : Type;
  v4_contains : Ipv4Cidr -> Z -> bool;
  v6_contains : Ipv6Cidr -> Z -> bool;
  ip_cidr_from_str : text -> option (Ipv4Cidr + Ipv6Cidr)
}.

(** ** Lookup rules *)

Section rules.
Context `{CidrLib}.

Abbreviation IpCidr := (Ipv4Cidr + Ipv6Cidr)%type.

(** [rule_stats] is the identity of the shared counter the rule points to. *)
Record FastLookupRule := mkFast {
  priority : Z; protocol : Protocol;
  src_ip_ranges : list IpCidr; dst_ip_ranges : list IpCidr;
  src_port_ranges : list (Z * Z); dst_port_ranges : list (Z * Z);
  source_groups : gset text; destination_groups : gset text;
  action : Action; enabled : bool; stateful : bool;
  rate_limit : Z; burst_limit : Z; rule_stats : nat
}.

Record PacketInfo := mkPacket {
  src_ip : IpAddr; dst_ip : IpAddr; src_port : option Z; dst_port : option Z;
  pkt_protocol : Protocol; packet_size : Z; src_groups : list text; dst_groups : list text
}.

Definition convert_ip_inet_to_cidr (input : text) : option IpCidr := ip_cidr_from_str input.

Definition convert_to_fast_lookup_rule (stats_id : nat) (rule : Rule) : FastLookupRule := {|
  priority := rule_priority rule;
  protocol := protocol_of (rule_protocol rule);
  src_ip_ranges := omap convert_ip_inet_to_cidr (source_ips rule);
  dst_ip_ranges := omap convert_ip_inet_to_cidr (destination_ips rule);
  src_port_ranges := omap parse_port_range (source_ports rule);
  dst_port_ranges := omap parse_port_range (rule_ports rule);
  source_groups := list_to_set (rule_source_groups rule);
  destination_groups := list_to_set (rule_destination_groups rule);
  action := action_of (rule_action rule);
  enabled := rule_enabled rule;
  stateful := rule_stateful rule;
  rate_limit := rule_rate_limit rule;
  burst_limit := rule_burst_limit rule;
  rule_stats := stats_id
|}.

Definition cidr_matches (ip : IpAddr) (c : IpCidr) : bool :=
  match c, ip with
  | inl v4, V4 a => v4_contains v4 a
  | inr v6, V6 a => v6_contains v6 a
  | _, _ => false
  end.

Definition port_in (port : Z) (r : Z * Z) : bool := (r.1 <=? port) && (port <=? r.2).

Definition rule_matches (rule : FastLookupRule) (pkt : PacketInfo) : bool :=
  if bool_decide (protocol rule <> AnyProtocol) &&
     negb (protocol_i32 (protocol rule) =? protocol_i32 (pkt_protocol pkt)) then false
  else if negb (bool_decide (src_ip_ranges rule = [])) &&
          negb (existsb (cidr_matches (src_ip pkt)) (src_ip_ranges rule)) then false
  else if negb (bool_decide (dst_ip_ranges rule = [])) &&
          negb (existsb (cidr_matches (dst_ip pkt)) (dst_ip_ranges rule)) then false
  else if match src_port pkt with
          | Some p => negb (bool_decide (src_port_ranges rule = [])) &&
                      negb (existsb (port_in p) (src_port_ranges rule))
          | None => false
          end then false
  else if match dst_port pkt with
          | Some p => negb (bool_decide (dst_port_ranges rule = [])) &&
                      negb (existsb (port_in p) (dst_port_ranges rule))
          | None => false
          end then false
  else if negb (bool_decide (source_groups rule = ∅)) &&
          negb (existsb (fun g => bool_decide (g ∈ source_groups rule)) (src_groups pkt)) then false
  else if negb (bool_decide (destination_groups rule = ∅)) &&
          negb (existsb (fun g => bool_decide (g ∈ destination_groups rule)) (dst_groups pkt)) then false
  else true.

(** ** Building the rule lists *)

(** Counters are allocated in the order the rules are converted. *)
Fixpoint convert_rules (next : nat) (rules : list Rule) : list FastLookupRule :=
  match rules with
  | [] => []
  | r :: rules => convert_to_fast_lookup_rule next r :: convert_rules (S next) rules
  end.

Definition higher_priority_first (a b : FastLookupRule) : bool := priority b <=? priority a.

Definition build_chain (next : nat) (chain : Chain) : list FastLookupRule :=
  stable_sort higher_priority_first
    (convert_rules next (base.filter (fun r => rule_enabled r = true) (chain_rules chain))).

Record built := {
  b_inbound : list FastLookupRule; b_outbound : list FastLookupRule;
  b_forward : list FastLookupRule; b_next : nat
}.

Definition add_chain (b : built) (chain : Chain) : built :=
  if negb (chain_enabled chain) then b
  else
    let rules := build_chain (b_next b) chain in
    let next := (b_next b + length rules)%nat in
    match chain_type_of (chain_chain_type chain) with
    | Inbound => {| b_inbound := b_inbound b ++ rules; b_outbound := b_outbound b;
                    b_forward := b_forward b; b_next := next |}
    | Outbound => {| b_inbound := b_inbound b; b_outbound := b_outbound b ++ rules;
                     b_forward := b_forward b; b_next := next |}
    | Forward => {| b_inbound := b_inbound b; b_outbound := b_outbound b;
                    b_forward := b_forward b ++ rules; b_next := next |}
    | UnspecifiedChain => {| b_inbound := b_inbound b; b_outbound := b_outbound b;
                             b_forward := b_forward b; b_next := next |}
    end.

Definition build_rules (acl_config : Acl) : built :=
  let init := {| b_inbound := []; b_outbound := []; b_forward := []; b_next := 0 |} in
  match acl_v1 acl_config with
  | Some v1 => foldl add_chain init (chains v1)
  | None => init
  end.

Definition default_action_for (t : ChainType) (acl_config : Acl) : Action :=
  match acl_v1 acl_config with
  | Some v1 =>
      match find (fun c => chain_chain_type c =? chain_type_i32 t) (chains v1) with
      | Some c => action_of (chain_default_action c)
      | None => Allow
      end
  | None => Allow
  end.

Definition build_default_actions (acl_config : Acl) : Action * Action * Action :=
  (default_action_for Inbound acl_config, default_action_for Outbound acl_config,
   default_action_for Forward acl_config).
End rules.

(** ** The whitelist builder *)

Record AclRuleBuilder := {
  ab_acl : option Acl; tcp_whitelist : list text; udp_whitelist : list text;
  whitelist_priority : option Z
}.

Definition whitelist_rule (name description : string) (prio : Z) (proto : Protocol)
    (ports : list text) (stateful_ : bool) : Rule := {|
  rule_name := txt name; rule_description := txt description; rule_priority := prio;
  rule_enabled := true; rule_protocol := protocol_i32 proto; rule_ports := ports;
  source_ips := []; destination_ips := []; source_ports := [];
  rule_action := action_i32 Allow; rule_rate_limit := 0; rule_burst_limit := 0;
  rule_stateful := stateful_; rule_source_groups := []; rule_destination_groups := []
|}.

Definition tcp_whitelist_rule (prio : Z) (ports : list text) : Rule :=
  whitelist_rule "tcp_whitelist" "Auto-generated TCP whitelist rule" prio Tcp ports true.
Definition udp_whitelist_rule (prio : Z) (ports : list text) : Rule :=
  whitelist_rule "udp_whitelist" "Auto-generated UDP whitelist rule" prio Udp ports false.

Definition whitelist_chain (rules : list Rule) : Chain := {|
  chain_name := txt "inbound_whitelist"; chain_chain_type := chain_type_i32 Inbound;
  chain_description := txt "Auto-generated inbound whitelist from CLI";
  chain_enabled := true; chain_rules := rules; chain_default_action := action_i32 Drop
|}.

Definition push_chain (c : Chain) (acl : Acl) : Acl :=
  {| acl_v1 := Some (match acl_v1 acl with
       | Some v1 => {| chains := chains v1 ++ [c]; acl_group := acl_group v1 |}
       | None => {| chains := [c]; acl_group := Some {| declares := []; members := [] |} |}
       end) |}.

Definition generate_acl_from_whitelists (b : AclRuleBuilder) : result port_error AclRuleBuilder :=
  if bool_decide (tcp_whitelist b = []) && bool_decide (udp_whitelist b = []) then Ok b
  else
    let prio := default 1000 (whitelist_priority b) in
    let tcp :=
      if bool_decide (tcp_whitelist b = []) then Ok ([], prio)
      else match parse_port_list (tcp_whitelist b) with
           | Ok tcp_ports => Ok ([tcp_whitelist_rule prio tcp_ports], as_u32 (prio - 1))
           | Err e => Err e
           end in
    match tcp with
    | Err e => Err e
    | Ok (tcp_rules, prio) =>
        let udp :=
          if bool_decide (udp_whitelist b = []) then Ok tcp_rules
          else match parse_port_list (udp_whitelist b) with
               | Ok udp_ports => Ok (tcp_rules ++ [udp_whitelist_rule prio udp_ports])
               | Err e => Err e
               end in
        match udp with
        | Err e => Err e
        | Ok rules =>
            let acl := default acl_default (ab_acl b) in
            Ok {| ab_acl := Some (push_chain (whitelist_chain rules) acl);
                  tcp_whitelist := tcp_whitelist b; udp_whitelist := udp_whitelist b;
                  whitelist_priority := whitelist_priority b |}
        end
    end.

Definition do_build (b : AclRuleBuilder) : result port_error (option Acl) :=
  match generate_acl_from_whitelists b with Ok b' => Ok (ab_acl b') | Err e => Err e end.

(** [AclRuleBuilder::build] with the three values it reads from the configuration. *)
Definition build (get_acl : option Acl) (get_tcp_whitelist get_udp_whitelist : list text)
    : result port_error (option Acl) :=
  do_build {| ab_acl := get_acl; tcp_whitelist := get_tcp_whitelist;
              udp_whitelist := get_udp_whitelist; whitelist_priority := None |}.

(** ** Lemmas on numbers and ports *)

Lemma parse_digits_app acc l k :
  parse_digits acc (l ++ k) =
  match parse_digits acc l with Some a => parse_digits a k | None => None end.
Proof.
  revert acc; induction l as [|c l IH]; intros acc; simpl; [done|].
  destruct (is_digit c); [|done]. destruct (65535 <? _); [done | apply IH].
Qed.

Lemma parse_digits_print fuel n :
  0 <= n < 10 ^ Z.of_nat fuel -> n <= 65535 -> parse_digits 0 (print_digits fuel n) = Some n.
Proof.
  revert n; induction fuel as [|fuel IH]; intros n Hn Hm; simpl.
  { f_equal. lia. }
  destruct (Z.ltb_spec n 10).
  - cbn [parse_digits]. unfold is_digit. replace ((48 <=? 48 + n) && (48 + n <=? 57)) with true by lia.
    replace (0 * 10 + (48 + n - 48)) with n by lia. destruct (Z.ltb_spec 65535 n); [lia | done].
  - rewrite parse_digits_app, IH.
    + cbn [parse_digits]. pose proof (Z.mod_pos_bound n 10). unfold is_digit.
      replace ((48 <=? 48 + n mod 10) && (48 + n mod 10 <=? 57)) with true by lia.
      replace (n / 10 * 10 + (48 + n mod 10 - 48)) with n by (pose proof (Z.div_mod n 10); lia).
      destruct (Z.ltb_spec 65535 n); [lia | done].
    + replace (Z.of_nat (S fuel)) with (Z.of_nat fuel + 1) in Hn by lia.
      rewrite Z.pow_add_r in Hn by lia.
      split; [apply Z.div_pos; lia | apply Z.div_lt_upper_bound; lia].
    + apply Z.div_le_upper_bound; lia.
Qed.

(** The characters of a parsable number are digits or a sign. *)
Definition number_char (c : Z) : bool := is_digit c || (c =? 43).

Lemma parse_digits_chars acc l a : parse_digits acc l = Some a -> forallb number_char l = true.
Proof.
  revert acc; induction l as [|c l IH]; intros acc; simpl; [done|].
  destruct (is_digit c) eqn:Ed; [|done]. destruct (65535 <? _); [done|]. intros Hp.
  apply andb_true_iff. split; [unfold number_char; by rewrite Ed | by eapply IH].
Qed.

Lemma parse_u16_chars l a : parse_u16 l = Some a -> forallb number_char l = true.
Proof.
  unfold parse_u16. destruct l as [|c [|d l]]; [done| |].
  - destruct (c =? 43); [done | apply parse_digits_chars].
  - destruct (Z.eqb_spec c 43) as [->|]; [|apply parse_digits_chars].
    intros Hp%parse_digits_chars. change (forallb number_char (43 :: d :: l)) with (forallb number_char (d :: l)).
    done.
Qed.

Lemma number_char_not_special c : number_char c = true -> is_whitespace c = false /\ (c =? DASH) = false.
Proof.
  unfold number_char, is_digit, is_whitespace, DASH. intros Hc.
  assert (48 <= c <= 57 \/ c = 43) as Hr by lia. split; [|lia].
  simpl. rewrite !orb_false_iff, !andb_false_iff. lia.
Qed.

Lemma trim_start_number l : forallb number_char l = true -> trim_start l = l.
Proof.
  destruct l as [|c l]; simpl; [done|]. intros [Hc _]%andb_true_iff.
  apply number_char_not_special in Hc as [-> _]. done.
Qed.

Lemma forallb_reverse {A} (f : A -> bool) l : forallb f (reverse l) = forallb f l.
Proof.
  apply eq_true_iff_eq. rewrite !forallb_forall. setoid_rewrite <- list_elem_of_In.
  setoid_rewrite elem_of_reverse. done.
Qed.

Lemma trim_number l : forallb number_char l = true -> trim l = l.
Proof.
  intros Hl. unfold trim. rewrite (trim_start_number l Hl), trim_start_number.
  - apply reverse_involutive.
  - by rewrite forallb_reverse.
Qed.

Lemma parse_u16_trim l a : parse_u16 l = Some a -> parse_u16 (trim l) = Some a.
Proof. intros Hp. by rewrite (trim_number l (parse_u16_chars l a Hp)). Qed.

Lemma split_once_number l a b :
  forallb number_char a = true -> l = a ++ DASH :: b -> split_once DASH l = Some (a, b).
Proof.
  intros Ha ->. induction a as [|c a IH]; simpl; [done|].
  simpl in Ha. apply andb_true_iff in Ha as [Hc Ha].
  apply number_char_not_special in Hc as [_ ->]. by rewrite IH.
Qed.

Lemma split_once_none l : forallb number_char l = true -> split_once DASH l = None.
Proof.
  induction l as [|c l IH]; simpl; [done|]. intros [Hc Hl]%andb_true_iff.
  apply number_char_not_special in Hc as [_ ->]. by rewrite IH.
Qed.

Lemma split_pieces sep l : exists p ps, split sep l = p :: ps.
Proof.
  induction l as [|c l (p & ps & IH)]; simpl; [eauto|].
  destruct (c =? sep); [eauto|]. rewrite IH. eauto.
Qed.

Lemma split_one sep l a : split sep l = [a] -> l = a.
Proof.
  revert a; induction l as [|c l IH]; intros a; simpl; [by intros [= <-]|].
  destruct (split_pieces sep l) as (p & ps & E). destruct (c =? sep).
  - rewrite E. done.
  - rewrite E. intros [= <- ->]. f_equal. by apply IH.
Qed.

Lemma split_two sep l a b : split sep l = [a; b] -> l = a ++ sep :: b.
Proof.
  revert a; induction l as [|c l IH]; intros a; simpl; [done|].
  destruct (Z.eqb_spec c sep) as [->|].
  - intros [= <- Hb]. by rewrite (split_one _ _ _ Hb).
  - destruct (split_pieces sep l) as (p & ps & E). rewrite E. intros [= <- ->].
    simpl. f_equal. by apply IH.
Qed.

Lemma parse_digits_range acc l a : 0 <= acc <= 65535 -> parse_digits acc l = Some a -> 0 <= a <= 65535.
Proof.
  revert acc; induction l as [|c l IH]; intros acc Hacc; simpl; [by intros [= <-]|].
  unfold is_digit. destruct (_ && _) eqn:E; [|done].
  destruct (Z.ltb_spec 65535 (acc * 10 + (c - 48))); [done|]. apply IH. lia.
Qed.

Lemma parse_u16_range l a : parse_u16 l = Some a -> 0 <= a <= 65535.
Proof.
  unfold parse_u16. intros Hp. destruct l as [|c [|d l]]; [done| |];
    destruct (c =? 43); try done; by eapply parse_digits_range in Hp.
Qed.

Lemma print_digits_head fuel n c l : 0 <= n -> print_digits fuel n = c :: l -> c <> 43.
Proof.
  revert n c l; induction fuel as [|fuel IH]; intros n c l Hn; simpl; [done|].
  destruct (n <? 10); [intros [= <- _]; lia|].
  destruct (print_digits fuel (n / 10)) as [|d k] eqn:E; simpl.
  - intros [= <- _]. pose proof (Z.mod_pos_bound n 10). lia.
  - intros [= <- _]. eapply (IH (n / 10)); [apply Z.div_pos; lia | exact E].
Qed.

Lemma print_digits_nonempty fuel n : print_digits (S fuel) n <> [].
Proof. simpl. destruct (n <? 10); [done|]. by intros [_ ?]%app_eq_nil. Qed.

Lemma print_u16_parse n : 0 <= n <= 65535 -> parse_u16 (print_u16 n) = Some n.
Proof.
  intros Hn. assert (parse_digits 0 (print_u16 n) = Some n) as Hp
    by (apply parse_digits_print; simpl; lia).
  unfold parse_u16. destruct (print_u16 n) as [|c l] eqn:E; [by apply print_digits_nonempty in E|].
  apply print_digits_head in E; [|lia]. apply Z.eqb_neq in E as ->. by destruct l.
Qed.

(** ** Properties *)

Lemma parse_port_spec_ok spec p :
  parse_port_spec spec = Ok p ->
  exists a b, parse_port_range p = Some (a, b) /\ 0 <= a <= b /\ b <= 65535.
Proof.
  unfold parse_port_spec. destruct (existsb _ spec) eqn:Ed.
  - destruct (split DASH spec) as [|a [|b [|]]] eqn:Es; try done. apply split_two in Es.
    destruct (parse_u16 a) as [start|] eqn:Ea; [|done].
    destruct (parse_u16 b) as [end_|] eqn:Eb; [|done].
    destruct (Z.ltb_spec end_ start); [done|]. intros [= <-].
    exists start, end_. unfold parse_port_range.
    rewrite (split_once_number _ a b) by (eauto using parse_u16_chars).
    rewrite (parse_u16_trim _ _ Ea), (parse_u16_trim _ _ Eb).
    apply parse_u16_range in Ea, Eb. split; [done | lia].
  - destruct (parse_u16 spec) as [port|] eqn:Ep; [|done]. intros [= <-].
    apply parse_u16_range in Ep. pose proof (print_u16_parse port Ep) as Hp.
    exists port, port. unfold parse_port_range.
    rewrite split_once_none by (by eapply parse_u16_chars).
    rewrite (parse_u16_trim _ _ Hp). split; [done | lia].
Qed.

(** The two port parsers agree: when the whitelist parser accepts a list
    of specifications it produces one entry per specification, and the rule
    parser reads every entry as a non-empty port range. *)
Theorem whitelist_ports_understood (specs ports : list text)
    (Hok : parse_port_list specs = Ok ports) :
  length ports = length specs /\
  Forall (fun p => exists a b, parse_port_range p = Some (a, b) /\ 0 <= a <= b /\ b <= 65535) ports.
Proof.
  revert ports Hok; induction specs as [|spec specs IH]; intros ports; simpl.
  { intros [= <-]. by split. }
  destruct (parse_port_spec spec) as [p|] eqn:Ep; [|done].
  destruct (parse_port_list specs) as [ps|]; [|done]. intros [= <-].
  destruct (IH ps eq_refl) as [Hl Hf]. split; [simpl; lia|].
  constructor; [by eapply parse_port_spec_ok | done].
Qed.

Lemma whitelist_ports_understood_witness :
  Forall (fun p => exists a b, parse_port_range p = Some (a, b) /\ 0 <= a <= b /\ b <= 65535)
    [txt "8000-9000"; txt "80"].
Proof.
  apply (whitelist_ports_understood [txt "8000-9000"; txt "+080"]). vm_compute. reflexivity.
Defined.

Section properties.
Context `{CidrLib}.

Lemma higher_priority_total (x y : FastLookupRule) :
  higher_priority_first x y = true \/ higher_priority_first y x = true.
Proof. unfold higher_priority_first. lia. Qed.

Lemma higher_priority_trans (x y z : FastLookupRule) :
  higher_priority_first x y = true -> higher_priority_first y z = true ->
  higher_priority_first x z = true.
Proof. unfold higher_priority_first. lia. Qed.

Definition by_priority (l : list FastLookupRule) : Prop :=
  StronglySorted (fun a b => priority b <= priority a) l.

Lemma build_chain_sorted next c : by_priority (build_chain next c).
Proof.
  unfold by_priority, build_chain.
  induction (stable_sort_sorted higher_priority_first higher_priority_total higher_priority_trans
               (convert_rules next (base.filter (fun r => rule_enabled r = true) (chain_rules c))))
    as [|x l _ IH Hx]; constructor; [done|].
  eapply Forall_impl; [exact Hx|]. intros y. apply Z.leb_le.
Qed.

(** The rules a chain type ends up with. *)
Definition chain_list (t : ChainType) (b : built) : list FastLookupRule :=
  match t with Inbound => b_inbound b | Outbound => b_outbound b | Forward => b_forward b | _ => [] end.

Definition is_chain (t : ChainType) (c : Chain) : bool :=
  chain_enabled c && bool_decide (chain_type_of (chain_chain_type c) = t).

Lemma add_chain_list t b c :
  t <> UnspecifiedChain ->
  chain_list t (add_chain b c) =
  chain_list t b ++ (if is_chain t c then build_chain (b_next b) c else []).
Proof.
  intros Ht. unfold add_chain, is_chain. destruct (chain_enabled c); simpl; [|by rewrite app_nil_r].
  destruct (chain_type_of _), t; simpl; try done; by rewrite ?app_nil_r.
Qed.

Lemma build_rules_list t cs b :
  t <> UnspecifiedChain ->
  exists ns, length ns = length (base.filter (fun c => is_chain t c = true) cs) /\
    chain_list t (foldl add_chain b cs) =
    chain_list t b ++ concat (zip_with build_chain ns (base.filter (fun c => is_chain t c = true) cs)).
Proof.
  intros Ht. revert b; induction cs as [|c cs IH]; intros b; simpl.
  { exists []. simpl. by rewrite app_nil_r. }
  destruct (IH (add_chain b c)) as (ns & Hl & E). rewrite add_chain_list in E by done.
  destruct (is_chain t c) eqn:Ec.
  - exists (b_next b :: ns). rewrite filter_cons_True by done. simpl.
    split; [lia|]. by rewrite E, app_assoc.
  - exists ns. rewrite filter_cons_False by congruence. by rewrite E, app_nil_r.
Qed.

Lemma convert_rules_enabled next rules :
  Forall (fun r => rule_enabled r = true) rules -> Forall (fun r => enabled r = true) (convert_rules next rules).
Proof. intros Hr. revert next; induction Hr; intros next; simpl; constructor; auto. Qed.

Lemma build_chain_enabled next c : Forall (fun r => enabled r = true) (build_chain next c).
Proof.
  unfold build_chain. rewrite stable_sort_perm. apply convert_rules_enabled.
  apply Forall_forall. intros r [? _]%list_elem_of_filter. done.
Qed.

(** What a rule list keeps of the configured rules. *)
Lemma convert_rules_fields next rules :
  (fun r => (priority r, action r, stateful r, dst_port_ranges r)) <$> convert_rules next rules =
  (fun r => (rule_priority r, action_of (rule_action r), rule_stateful r,
             omap parse_port_range (rule_ports r))) <$> rules.
Proof. revert next; induction rules; intros next; simpl; f_equal; auto. Qed.
End properties.

(** With one enabled chain of a type, the processor's rule list for it is
    sorted by descending priority and holds exactly the chain's enabled rules
    (their priorities, actions and parsed ports). *)
Theorem build_rules_by_priority `{CidrLib} (v1 : AclV1) (t : ChainType) (c : Chain)
    (Ht : t <> UnspecifiedChain)
    (Hone : base.filter (fun x => is_chain t x = true) (chains v1) = [c]) :
  let l := chain_list t (build_rules {| acl_v1 := Some v1 |}) in
  by_priority l /\ Forall (fun r => enabled r = true) l /\
  ((fun r => (priority r, action r, stateful r, dst_port_ranges r)) <$> l) ≡ₚ
  ((fun r => (rule_priority r, action_of (rule_action r), rule_stateful r,
              omap parse_port_range (rule_ports r))) <$>
     base.filter (fun r => rule_enabled r = true) (chain_rules c)).
Proof.
  intros l. subst l. unfold build_rules; simpl.
  edestruct (build_rules_list t (chains v1)) as (ns & Hl & ->); [done|].
  rewrite Hone in *. destruct ns as [|n [|]]; simpl in Hl; try lia.
  replace (chain_list t _) with (@nil FastLookupRule) by (by destruct t).
  simpl. rewrite app_nil_r. split_and!; [apply build_chain_sorted | apply build_chain_enabled |].
  unfold build_chain. rewrite stable_sort_perm. by rewrite convert_rules_fields.
Qed.

(** A model of [cidr] good enough to run examples: no address range parses. *)
#[local] Instance no_cidr : CidrLib := {|
  Ipv4Cidr := unit; Ipv6Cidr := unit; v4_contains _ _ := true; v6_contains _ _ := true;
  ip_cidr_from_str _ := None
|}.

Definition sample_rule (prio : Z) (port : string) (act : Action) : Rule :=
  {| rule_name := []; rule_description := []; rule_priority := prio; rule_enabled := true;
     rule_protocol := 1; rule_ports := [txt port]; source_ips := []; destination_ips := [];
     source_ports := []; rule_action := action_i32 act; rule_rate_limit := 0; rule_burst_limit := 0;
     rule_stateful := false; rule_source_groups := []; rule_destination_groups := [] |}.

Definition sample_chain (rules : list Rule) (dflt : Action) : Chain :=
  {| chain_name := []; chain_chain_type := 1; chain_description := []; chain_enabled := true;
     chain_rules := rules; chain_default_action := action_i32 dflt |}.

Lemma build_rules_by_priority_witness :
  by_priority (chain_list Inbound (build_rules {| acl_v1 := Some
    {| chains := [sample_chain [sample_rule 1 "80" Allow; sample_rule 9 "22" Drop] Allow]; acl_group := None |} |})).
Proof.
  apply (build_rules_by_priority
    {| chains := [sample_chain [sample_rule 1 "80" Allow; sample_rule 9 "22" Drop] Allow]; acl_group := None |}
    Inbound (sample_chain [sample_rule 1 "80" Allow; sample_rule 9 "22" Drop] Allow)).
  - discriminate.
  - reflexivity.
Defined.

(** With two chains of one type the lists are concatenated, not merged: a
    higher-priority rule of the second chain comes after a lower one. *)
Lemma two_chains_not_by_priority :
  priority <$> chain_list Inbound (build_rules {| acl_v1 := Some
    {| chains := [sample_chain [sample_rule 1 "80" Allow] Allow;
                  sample_chain [sample_rule 9 "80" Drop] Allow]; acl_group := None |} |}) = [1; 9].
Proof. reflexivity. Qed.

(** ** The whitelist chain *)

(** What the chains of the existing configuration say about a chain type. *)
Definition existing_chains (acl : option Acl) : list Chain :=
  match acl with Some a => match acl_v1 a with Some v1 => chains v1 | None => [] end | None => [] end.

Definition whitelist_rules (prio : Z) (tcp_ports udp_ports : list text) (has_tcp has_udp : bool) : list Rule :=
  (if has_tcp then [tcp_whitelist_rule prio tcp_ports] else []) ++
  (if has_udp then [udp_whitelist_rule (if has_tcp then as_u32 (prio - 1) else prio) udp_ports] else []).

Lemma generate_spec b b' :
  generate_acl_from_whitelists b = Ok b' -> tcp_whitelist b ++ udp_whitelist b <> [] ->
  exists tp up, parse_port_list (tcp_whitelist b) = Ok tp /\ parse_port_list (udp_whitelist b) = Ok up /\
    ab_acl b' = Some (push_chain
      (whitelist_chain (whitelist_rules (default 1000 (whitelist_priority b)) tp up
         (negb (bool_decide (tcp_whitelist b = []))) (negb (bool_decide (udp_whitelist b = [])))))
      (default acl_default (ab_acl b))).
Proof.
  unfold generate_acl_from_whitelists, whitelist_rules. intros Hg Hne.
  destruct (tcp_whitelist b) as [|t ts] eqn:Et, (udp_whitelist b) as [|u us] eqn:Eu;
    [done | rewrite ?bool_decide_eq_true_2, ?bool_decide_eq_false_2 in * by done ..];
    cbn [andb negb] in *.
  - destruct (parse_port_list (u :: us)) as [up|] eqn:Eup; [|done]. injection Hg as <-.
    exists [], up. by rewrite ?Et.
  - destruct (parse_port_list (t :: ts)) as [tp|] eqn:Etp; [|done]. injection Hg as <-.
    exists tp, []. by rewrite ?Eu.
  - destruct (parse_port_list (t :: ts)) as [tp|] eqn:Etp; [|done].
    destruct (parse_port_list (u :: us)) as [up|] eqn:Eup; [|done]. injection Hg as <-.
    exists tp, up. done.
Qed.

Lemma default_action_push t c acl :
  default_action_for t (push_chain c acl) =
  match find (fun x => chain_chain_type x =? chain_type_i32 t) (existing_chains (Some acl) ++ [c]) with
  | Some x => action_of (chain_default_action x)
  | None => Allow
  end.
Proof. unfold default_action_for, push_chain, existing_chains; simpl. by destruct (acl_v1 acl). Qed.

Lemma find_snoc {A} (f : A -> bool) l x :
  find f (l ++ [x]) = match find f l with Some y => Some y | None => if f x then Some x else None end.
Proof. induction l as [|y l IH]; simpl; [by destruct (f x)|]. by destruct (f y). Qed.

(** The "default deny" of a whitelist takes effect only when the
    configuration has no inbound chain yet: otherwise the default action of the
    first configured inbound chain (even a disabled one) stays in force. *)
Theorem whitelist_default_action (acl : option Acl) (tcp udp : list text) (built_acl : option Acl)
    (Hne : tcp ++ udp <> []) (Hok : build acl tcp udp = Ok built_acl) :
  exists a, built_acl = Some a /\
    default_action_for Inbound a =
    match find (fun c => chain_chain_type c =? chain_type_i32 Inbound) (existing_chains acl) with
    | Some c => action_of (chain_default_action c)
    | None => Drop
    end.
Proof.
  unfold build, do_build in Hok. destruct (generate_acl_from_whitelists _) as [b'|] eqn:Hg; [|done].
  injection Hok as <-. destruct (generate_spec _ _ Hg Hne) as (tp & up & _ & _ & ->).
  eexists; split; [reflexivity|]. rewrite default_action_push.
  replace (existing_chains (Some (default acl_default _))) with (existing_chains acl) by (by destruct acl).
  rewrite find_snoc. by destruct (find _ _).
Qed.

Lemma whitelist_default_action_witness :
  exists a, build (Some {| acl_v1 := Some {| chains := [sample_chain [] Allow]; acl_group := None |} |})
              [txt "80"] [] = Ok (Some a) /\
            default_action_for Inbound a = Allow.
Proof.
  destruct (whitelist_default_action
    (Some {| acl_v1 := Some {| chains := [sample_chain [] Allow]; acl_group := None |} |}) [txt "80"] []
    (Some (push_chain (whitelist_chain [tcp_whitelist_rule 1000 [txt "80"]])
             {| acl_v1 := Some {| chains := [sample_chain [] Allow]; acl_group := None |} |})))
    as (a & Ha & Hd).
  - discriminate.
  - reflexivity.
  - exists a. rewrite <- Ha. split; [reflexivity|]. rewrite Hd. reflexivity.
Defined.

(** Matching of a generated rule: protocol and destination port only. *)
Lemma whitelist_rule_matches `{CidrLib} id name descr prio proto ports st pkt port :
  proto = Tcp \/ proto = Udp -> dst_port pkt = Some port ->
  omap parse_port_range ports <> [] ->
  rule_matches (convert_to_fast_lookup_rule id (whitelist_rule name descr prio proto ports st)) pkt =
  bool_decide (proto = pkt_protocol pkt) && existsb (port_in port) (omap parse_port_range ports).
Proof.
  intros Hp Hd Hne. unfold rule_matches. rewrite Hd. simpl.
  rewrite (bool_decide_eq_false_2 (omap parse_port_range ports = [])) by done.
  rewrite !(bool_decide_eq_true_2 (∅ = ∅)) by done. simpl.
  assert (protocol_of (protocol_i32 proto) = proto) as -> by (by destruct Hp as [-> | ->]).
  rewrite (bool_decide_eq_true_2 (proto <> AnyProtocol)) by (by destruct Hp as [-> | ->]).
  replace (protocol_i32 proto =? protocol_i32 (pkt_protocol pkt))
    with (bool_decide (proto = pkt_protocol pkt))
    by (destruct Hp as [-> | ->]; by destruct (pkt_protocol pkt)).
  destruct (bool_decide (proto = pkt_protocol pkt)); simpl; [|done].
  destruct (src_port pkt); simpl; by destruct (existsb (port_in port) _).
Qed.

(** The ranges of the accepted specifications are those of the generated ports. *)
Lemma parse_port_spec_range spec p :
  parse_port_spec spec = Ok p -> parse_port_range p = parse_port_range spec.
Proof.
  unfold parse_port_spec. destruct (existsb _ spec) eqn:Ed.
  - repeat case_match; intros; simplify_eq; done.
  - destruct (parse_u16 spec) as [port|] eqn:Ep; [|done]. intros [= <-].
    pose proof (print_u16_parse port (parse_u16_range _ _ Ep)) as Hp.
    unfold parse_port_range.
    rewrite !split_once_none by (by eapply parse_u16_chars).
    by rewrite (parse_u16_trim _ _ Hp), (parse_u16_trim _ _ Ep).
Qed.

Lemma parse_port_list_ranges specs ports :
  parse_port_list specs = Ok ports -> omap parse_port_range ports = omap parse_port_range specs.
Proof.
  revert ports; induction specs as [|spec specs IH]; intros ports; simpl; [by intros [= <-]|].
  destruct (parse_port_spec spec) as [p|] eqn:Ep; [|done].
  destruct (parse_port_list specs) as [ps|]; [|done]. intros [= <-]. simpl.
  rewrite (parse_port_spec_range _ _ Ep).
  destruct (parse_port_range spec); [f_equal|]; apply (IH ps eq_refl).
Qed.

Lemma parse_port_list_nonempty specs ports :
  parse_port_list specs = Ok ports -> specs <> [] -> omap parse_port_range specs <> [].
Proof.
  intros Hp Hne. rewrite <- (parse_port_list_ranges _ _ Hp).
  destruct specs as [|spec specs]; [done|]. simpl in Hp.
  destruct (parse_port_spec spec) as [p|] eqn:Ep; [|done].
  destruct (parse_port_list specs); [|done]. injection Hp as <-. simpl.
  by destruct (parse_port_spec_ok _ _ Ep) as (x & y & -> & _).
Qed.

(** The rules of the generated chain, when it is the only one. *)
Lemma whitelist_inbound `{CidrLib} rules :
  b_inbound (build_rules (push_chain (whitelist_chain rules) acl_default)) =
  build_chain 0 (whitelist_chain rules).
Proof. reflexivity. Qed.

Lemma existsb_perm {A} (f : A -> bool) l k : l ≡ₚ k -> existsb f l = existsb f k.
Proof.
  intros Hp. apply eq_true_iff_eq. rewrite !existsb_exists. setoid_rewrite <- list_elem_of_In.
  by setoid_rewrite Hp.
Qed.

Lemma whitelist_rules_match `{CidrLib} prio tp up has_tcp has_udp pkt port :
  dst_port pkt = Some port ->
  (has_tcp = true -> omap parse_port_range tp <> []) ->
  (has_udp = true -> omap parse_port_range up <> []) ->
  existsb (fun r => enabled r && rule_matches r pkt)
    (convert_rules 0 (base.filter (fun r => rule_enabled r = true) (whitelist_rules prio tp up has_tcp has_udp))) =
  (has_tcp && (bool_decide (Tcp = pkt_protocol pkt) && existsb (port_in port) (omap parse_port_range tp)))
  || (has_udp && (bool_decide (Udp = pkt_protocol pkt) && existsb (port_in port) (omap parse_port_range up))).
Proof.
  intros Hd Ht Hu. unfold whitelist_rules, tcp_whitelist_rule, udp_whitelist_rule.
  destruct has_tcp, has_udp; cbn [app andb orb];
    rewrite ?filter_cons_True, ?filter_nil by done; cbn [convert_rules existsb enabled andb];
    rewrite ?whitelist_rule_matches with (port := port) by auto;
    cbn [enabled convert_to_fast_lookup_rule rule_enabled whitelist_rule andb];
    rewrite ?whitelist_rule_matches with (port := port) by auto; by rewrite ?orb_false_r.
Qed.

(** A whitelist on its own admits exactly the listed ports: for a TCP or
    UDP packet to a port, some inbound rule matches iff the port lies in the
    range of one of the specifications given for that protocol (none if the
    list for that protocol is empty); everything else meets the default drop. *)
Theorem whitelist_admits `{CidrLib} (tcp udp : list text) (acl : Acl) (pkt : PacketInfo) (port : Z)
    (Hne : tcp ++ udp <> []) (Hok : build None tcp udp = Ok (Some acl))
    (Hport : dst_port pkt = Some port) (Hproto : pkt_protocol pkt = Tcp \/ pkt_protocol pkt = Udp) :
  existsb (fun r => enabled r && rule_matches r pkt) (b_inbound (build_rules acl)) =
  existsb (port_in port)
    (omap parse_port_range (if bool_decide (pkt_protocol pkt = Tcp) then tcp else udp)) /\
  default_action_for Inbound acl = Drop.
Proof.
  unfold build, do_build in Hok. destruct (generate_acl_from_whitelists _) as [b'|] eqn:Hg; [|done].
  destruct (generate_spec _ _ Hg Hne) as (tp & up & Ht & Hu & E). cbn [tcp_whitelist udp_whitelist ab_acl] in *.
  rewrite E in Hok. injection Hok as <-. split; [|done].
  rewrite whitelist_inbound. unfold build_chain. rewrite (existsb_perm _ _ _ (stable_sort_perm _ _)).
  cbn [chain_rules whitelist_chain].
  rewrite (whitelist_rules_match _ _ _ _ _ _ _ Hport).
  - rewrite (parse_port_list_ranges _ _ Ht), (parse_port_list_ranges _ _ Hu).
    destruct Hproto as [-> | ->]; simpl; rewrite ?andb_false_r, ?orb_false_r;
      [destruct tcp|destruct udp]; simpl; repeat case_bool_decide; done.
  - intros Hb. rewrite (parse_port_list_ranges _ _ Ht). eapply parse_port_list_nonempty; [done|].
    intros ->. by rewrite bool_decide_eq_true_2 in Hb.
  - intros Hb. rewrite (parse_port_list_ranges _ _ Hu). eapply parse_port_list_nonempty; [done|].
    intros ->. by rewrite bool_decide_eq_true_2 in Hb.
Qed.

Definition sample_packet (proto : Protocol) (port : Z) : PacketInfo :=
  {| src_ip := V4 1; dst_ip := V4 2; src_port := Some 40000; dst_port := Some port;
     pkt_protocol := proto; packet_size := 100; src_groups := []; dst_groups := [] |}.

Definition sample_whitelist_acl : Acl :=
  push_chain (whitelist_chain [tcp_whitelist_rule 1000 [txt "8000-9000"]]) acl_default.

Lemma whitelist_admits_witness :
  build None [txt "8000-9000"] [] = Ok (Some sample_whitelist_acl) /\
  existsb (fun r => enabled r && rule_matches r (sample_packet Tcp 8080)) (b_inbound (build_rules sample_whitelist_acl)) = true /\
  existsb (fun r => enabled r && rule_matches r (sample_packet Udp 8080)) (b_inbound (build_rules sample_whitelist_acl)) = false.
Proof.
  split; [reflexivity|]. split.
  - rewrite (proj1 (whitelist_admits [txt "8000-9000"] [] sample_whitelist_acl (sample_packet Tcp 8080) 8080
      ltac:(discriminate) ltac:(reflexivity) ltac:(reflexivity) ltac:(left; reflexivity))). reflexivity.
  - rewrite (proj1 (whitelist_admits [txt "8000-9000"] [] sample_whitelist_acl (sample_packet Udp 8080) 8080
      ltac:(discriminate) ltac:(reflexivity) ltac:(reflexivity) ltac:(right; reflexivity))). reflexivity.
Defined.
