(* ===== verification/AclProcessor.v ===== *)
(** The ACL packet engine: [easytier/src/common/acl_processor.rs].

    [AclProcessor] is a record with the rule lists of [AclRules], the
    connection table, the rate limiters, the rule cache and the counters.
    Every method is a function on that record that takes the clock readings it
    makes; [Instant]s are nanoseconds, [SystemTime]s are Unix seconds.  The
    counters a rule shares through an [Arc] live in one store, [stat_items],
    addressed by the rule's [rule_stats].

    [acl_step] interleaves packets with the two background tasks and the bucket
    refills; the sweep of the cache and the sweep of the limiters are separate
    steps, as packets can be processed between them.  The theorems: in every
    reachable state a packet gets the verdict of the first rule that matches it
    (the cache never changes it) and the "Rate limit bucket not found" panic is
    not reached; the cache stays within twice its nominal size and is trimmed
    least-recently-used first; what a packet adds to the rule counters; what a
    hot reload keeps. *)

From stdpp Require Import base numbers list gmap strings sorting.
From S2P Require Import Prelude Text TokenBucket AclRules.
Open Scope Z_scope.

(** ** Keys and values *)

#[global] Instance protocol_countable : Countable Protocol.
Proof.
  apply (inj_countable' protocol_i32 protocol_of). by intros [].
Defined.
#[global] Instance chain_type_countable : Countable ChainType.
Proof.
  apply (inj_countable' chain_type_i32 chain_type_of). by intros [].
Defined.

Record RateLimitKey := { rlk_chain_type : ChainType; rlk_rule_priority : Z }.
#[global] Instance rate_limit_key_eq_dec : EqDecision RateLimitKey.
Proof. solve_decision. Defined.
#[global] Instance rate_limit_key_countable : Countable RateLimitKey.
Proof.
  apply (inj_countable' (fun k => (rlk_chain_type k, rlk_rule_priority k))
           (fun x => {| rlk_chain_type := x.1; rlk_rule_priority := x.2 |})).
  by intros [].
Defined.

Record RateLimitValue := { token_bucket : TokenBucket; last_update : Z }.

Inductive RuleId := Priority (p : Z) | Stateful (p : Z) | DefaultRule.

Definition to_string_cached (r : RuleId) : text :=
  match r with
  | Priority p => print_u32 p
  | Stateful p => txt "stateful-" ++ print_u32 p
  | DefaultRule => txt "default"
  end.

Record AclCacheKey := {
  ck_chain_type : ChainType; ck_protocol : Protocol; ck_src_ip : IpAddr; ck_dst_ip : IpAddr;
  ck_src_port : Z; ck_dst_port : Z; ck_src_groups : list text; ck_dst_groups : list text
}.
#[global] Instance acl_cache_key_eq_dec : EqDecision AclCacheKey.
Proof. solve_decision. Defined.
#[global] Instance acl_cache_key_countable : Countable AclCacheKey.
Proof.
  apply (inj_countable'
    (fun k => (ck_chain_type k, ck_protocol k, ck_src_ip k, ck_dst_ip k,
               ck_src_port k, ck_dst_port k, ck_src_groups k, ck_dst_groups k))
    (fun '(a, b, c, d, e, f, g, h) => {| ck_chain_type := a; ck_protocol := b;
       ck_src_ip := c; ck_dst_ip := d; ck_src_port := e; ck_dst_port := f;
       ck_src_groups := g; ck_dst_groups := h |})).
  by intros [].
Defined.

Definition from_packet_info (pkt : PacketInfo) (chain_type : ChainType) : AclCacheKey := {|
  ck_chain_type := chain_type;
  ck_protocol := pkt_protocol pkt;
  ck_src_ip := src_ip pkt;
  ck_dst_ip := dst_ip pkt;
  ck_src_port := default 0 (src_port pkt);
  ck_dst_port := default 0 (dst_port pkt);
  ck_src_groups := src_groups pkt;
  ck_dst_groups := dst_groups pkt
|}.

Inductive AclLogContext :=
| StatefulMatch (src dst : IpAddr)
| RuleMatch (src dst : IpAddr) (act : Action)
| DefaultDrop
| DefaultAllow
| UnsupportedChainType
| RateLimitDrop.

#[global] Instance acl_log_context_eq_dec : EqDecision AclLogContext.
Proof. solve_decision. Defined.

Record AclResult := mkResult {
  res_action : Action; res_matched_rule : option RuleId; should_log : bool;
  log_context : option AclLogContext
}.

Definition matched_rule_string (r : AclResult) : option text :=
  to_string_cached <$> res_matched_rule r.

Record AclCacheEntry := mkEntry {
  ce_action : Action; ce_matched_rule : RuleId; ce_last_access : Z;
  ce_conn_track_key : option text; ce_rate_limit_keys : list RateLimitKey;
  ce_chain_type : ChainType; ce_acl_result : option AclResult;
  ce_rule_stats_vec : list nat
}.

Inductive ConnState := New | Established | Related | Invalid.

Record ConnTrackEntry := {
  ct_src_addr : IpAddr * Z; ct_dst_addr : IpAddr * Z; ct_protocol : Z; ct_state : ConnState;
  ct_created_at : Z; ct_last_seen : Z; ct_packet_count : Z; ct_byte_count : Z
}.

Record StatItem := { packet_count : Z; byte_count : Z }.

Inductive AclStatKey :=
| CacheHits | CacheSize | CacheMaxSize | RuleMatches | DefaultAllows | DefaultDrops
| PacketsTotal | PacketsAllowed | PacketsDropped | PacketsNoop
| InboundPacketsTotal | InboundPacketsAllowed | InboundPacketsDropped | InboundPacketsNoop
| OutboundPacketsTotal | OutboundPacketsAllowed | OutboundPacketsDropped | OutboundPacketsNoop
| ForwardPacketsTotal | ForwardPacketsAllowed | ForwardPacketsDropped | ForwardPacketsNoop
| UnknownPacketsTotal | UnknownPacketsAllowed | UnknownPacketsDropped | UnknownPacketsNoop.

Inductive AclStatType := Total | Allowed | Dropped | NoopStat.

Definition from_chain_and_action (chain_type : ChainType) (stat_type : AclStatType) : AclStatKey :=
  match chain_type, stat_type with
  | Inbound, Total => InboundPacketsTotal
  | Inbound, Allowed => InboundPacketsAllowed
  | Inbound, Dropped => InboundPacketsDropped
  | Inbound, NoopStat => InboundPacketsNoop
  | Outbound, Total => OutboundPacketsTotal
  | Outbound, Allowed => OutboundPacketsAllowed
  | Outbound, Dropped => OutboundPacketsDropped
  | Outbound, NoopStat => OutboundPacketsNoop
  | Forward, Total => ForwardPacketsTotal
  | Forward, Allowed => ForwardPacketsAllowed
  | Forward, Dropped => ForwardPacketsDropped
  | Forward, NoopStat => ForwardPacketsNoop
  | _, Total => UnknownPacketsTotal
  | _, Allowed => UnknownPacketsAllowed
  | _, Dropped => UnknownPacketsDropped
  | _, NoopStat => UnknownPacketsNoop
  end.

(** [as_str] prints the constructor's name. *)
Definition as_str (k : AclStatKey) : string :=
  match k with
  | CacheHits => "CacheHits" | CacheSize => "CacheSize" | CacheMaxSize => "CacheMaxSize"
  | RuleMatches => "RuleMatches" | DefaultAllows => "DefaultAllows" | DefaultDrops => "DefaultDrops"
  | PacketsTotal => "PacketsTotal" | PacketsAllowed => "PacketsAllowed"
  | PacketsDropped => "PacketsDropped" | PacketsNoop => "PacketsNoop"
  | InboundPacketsTotal => "InboundPacketsTotal" | InboundPacketsAllowed => "InboundPacketsAllowed"
  | InboundPacketsDropped => "InboundPacketsDropped" | InboundPacketsNoop => "InboundPacketsNoop"
  | OutboundPacketsTotal => "OutboundPacketsTotal" | OutboundPacketsAllowed => "OutboundPacketsAllowed"
  | OutboundPacketsDropped => "OutboundPacketsDropped" | OutboundPacketsNoop => "OutboundPacketsNoop"
  | ForwardPacketsTotal => "ForwardPacketsTotal" | ForwardPacketsAllowed => "ForwardPacketsAllowed"
  | ForwardPacketsDropped => "ForwardPacketsDropped" | ForwardPacketsNoop => "ForwardPacketsNoop"
  | UnknownPacketsTotal => "UnknownPacketsTotal" | UnknownPacketsAllowed => "UnknownPacketsAllowed"
  | UnknownPacketsDropped => "UnknownPacketsDropped" | UnknownPacketsNoop => "UnknownPacketsNoop"
  end.

#[global] Instance acl_stat_key_eq_dec : EqDecision AclStatKey.
Proof. solve_decision. Defined.

Definition all_stat_keys : list AclStatKey :=
  [CacheHits; CacheSize; CacheMaxSize; RuleMatches; DefaultAllows; DefaultDrops;
   PacketsTotal; PacketsAllowed; PacketsDropped; PacketsNoop;
   InboundPacketsTotal; InboundPacketsAllowed; InboundPacketsDropped; InboundPacketsNoop;
   OutboundPacketsTotal; OutboundPacketsAllowed; OutboundPacketsDropped; OutboundPacketsNoop;
   ForwardPacketsTotal; ForwardPacketsAllowed; ForwardPacketsDropped; ForwardPacketsNoop;
   UnknownPacketsTotal; UnknownPacketsAllowed; UnknownPacketsDropped; UnknownPacketsNoop].

#[global] Instance acl_stat_key_countable : Countable AclStatKey.
Proof.
  apply (inj_countable as_str (fun s => find (fun k => bool_decide (as_str k = s)) all_stat_keys)).
  by intros [].
Defined.

(** ** Printing addresses

    [Display] of [Ipv4Addr] and [Ipv6Addr]: dotted decimal; groups of
    lower-case hexadecimal with the first longest run of two or more zero
    groups written as [::], and IPv4-mapped addresses as [::ffff:a.b.c.d]. *)

Definition hex_digit (d : Z) : Z := if d <? 10 then 48 + d else 87 + d.

Fixpoint print_hex (fuel : nat) (n : Z) : text :=
  match fuel with
  | O => []
  | S fuel => (if n <? 16 then [] else print_hex fuel (n / 16)) ++ [hex_digit (n mod 16)]
  end.

Definition octet (a i : Z) : Z := Z.land (Z.shiftr a (8 * i)) 255.

Definition print_ipv4 (a : Z) : text :=
  print_digits 3 (octet a 3) ++ [46] ++ print_digits 3 (octet a 2) ++ [46] ++
  print_digits 3 (octet a 1) ++ [46] ++ print_digits 3 (octet a 0).

Definition segments (a : Z) : list Z :=
  (fun i => Z.land (Z.shiftr a (16 * i)) 65535) <$> [7; 6; 5; 4; 3; 2; 1; 0].

(** [longest] and [current] zero spans as (start, length). *)
Fixpoint zero_span (i : nat) (longest current : nat * nat) (segs : list Z) : nat * nat :=
  match segs with
  | [] => longest
  | s :: segs =>
      if s =? 0 then
        let current' := (if current.2 =? 0 then i else current.1, S current.2)%nat in
        zero_span (S i) (if (longest.2 <? current'.2)%nat then current' else longest) current' segs
      else zero_span (S i) longest (0, 0)%nat segs
  end.

Fixpoint fmt_subslice (segs : list Z) : text :=
  match segs with
  | [] => []
  | [s] => print_hex 4 s
  | s :: segs => print_hex 4 s ++ [58] ++ fmt_subslice segs
  end.

Definition print_ipv6 (a : Z) : text :=
  if Z.shiftr a 32 =? 65535 then txt "::ffff:" ++ print_ipv4 (Z.land a (2 ^ 32 - 1))
  else
    let segs := segments a in
    let z := zero_span 0 (0, 0)%nat (0, 0)%nat segs in
    if (1 <? z.2)%nat
    then fmt_subslice (take z.1 segs) ++ [58; 58] ++ fmt_subslice (drop (z.1 + z.2) segs)
    else fmt_subslice segs.

Definition print_ip (a : IpAddr) : text :=
  match a with V4 z => print_ipv4 z | V6 z => print_ipv6 z end.

Definition action_debug (a : Action) : text :=
  txt (match a with Noop => "Noop" | Allow => "Allow" | Drop => "Drop" end).

Definition to_message (c : AclLogContext) : text :=
  match c with
  | StatefulMatch s d => txt "Stateful match: " ++ print_ip s ++ txt " -> " ++ print_ip d
  | RuleMatch s d a => txt "Rule match: " ++ print_ip s ++ txt " -> " ++ print_ip d ++
                       txt " action: " ++ action_debug a
  | DefaultDrop => txt "No matching rule, default drop"
  | DefaultAllow => txt "No matching rule, default allow"
  | UnsupportedChainType => txt "Unsupported chain type"
  | RateLimitDrop => txt "Rate limit drop"
  end.

Definition conn_track_key (pkt : PacketInfo) : text :=
  print_ip (src_ip pkt) ++ txt ":" ++ print_u16 (default 0 (src_port pkt)) ++ txt "->" ++
  print_ip (dst_ip pkt) ++ txt ":" ++ print_u16 (default 0 (dst_port pkt)).

Example print_ipv4_ex : print_ip (V4 3232235777) = txt "192.168.1.1".
Proof. reflexivity. Qed.
Example print_ipv6_ex : print_ip (V6 (0x20010db8 * 2 ^ 96 + 0x1)) = txt "2001:db8::1".
Proof. reflexivity. Qed.
Example print_ipv6_mapped_ex : print_ip (V6 (0xffff * 2 ^ 32 + 3232235777)) = txt "::ffff:192.168.1.1".
Proof. reflexivity. Qed.

(** ** The processor *)

Record SharedState := {
  sh_conn_track : gmap text ConnTrackEntry;
  sh_rate_limiters : gmap RateLimitKey RateLimitValue;
  sh_stats : gmap AclStatKey Z
}.

(** The clock readings one packet makes: the [Instant] for the cache entry, one
    [Instant] per rate limiter consulted, the two [SystemTime]s of a connection
    entry and the two [Instant]s of a cleanup. *)
Record Clock := {
  at_access : Z; at_rate : nat -> Z; at_created : Z; at_seen : Z;
  at_cleanup : Z; at_cleanup_fallback : Z
}.

Section processor.
Context `{CidrLib} `{!IterOrder AclCacheKey AclCacheEntry} `{!IterOrder text ConnTrackEntry}.
(** The least representable [Instant] of the platform. *)
Variable instant_min : Z.

Record AclProcessor := mkProc {
  inbound_rules : list FastLookupRule;
  outbound_rules : list FastLookupRule;
  forward_rules : list FastLookupRule;
  default_inbound_action : Action;
  default_outbound_action : Action;
  default_forward_action : Action;
  default_rule_stats : nat;
  conn_track : gmap text ConnTrackEntry;
  rate_limiters : gmap RateLimitKey RateLimitValue;
  rule_cache : gmap AclCacheKey AclCacheEntry;
  cache_max_size : Z;
  cache_cleanup_interval : Z;
  stats : gmap AclStatKey Z;
  stat_items : gmap nat StatItem
}.

Definition with_conn_track (x : gmap text ConnTrackEntry) (p : AclProcessor) : AclProcessor :=
  mkProc (inbound_rules p) (outbound_rules p) (forward_rules p) (default_inbound_action p)
    (default_outbound_action p) (default_forward_action p) (default_rule_stats p) x
    (rate_limiters p) (rule_cache p) (cache_max_size p) (cache_cleanup_interval p) (stats p) (stat_items p).
Definition with_rate_limiters (x : gmap RateLimitKey RateLimitValue) (p : AclProcessor) : AclProcessor :=
  mkProc (inbound_rules p) (outbound_rules p) (forward_rules p) (default_inbound_action p)
    (default_outbound_action p) (default_forward_action p) (default_rule_stats p) (conn_track p)
    x (rule_cache p) (cache_max_size p) (cache_cleanup_interval p) (stats p) (stat_items p).
Definition with_rule_cache (x : gmap AclCacheKey AclCacheEntry) (p : AclProcessor) : AclProcessor :=
  mkProc (inbound_rules p) (outbound_rules p) (forward_rules p) (default_inbound_action p)
    (default_outbound_action p) (default_forward_action p) (default_rule_stats p) (conn_track p)
    (rate_limiters p) x (cache_max_size p) (cache_cleanup_interval p) (stats p) (stat_items p).
Definition with_stats (x : gmap AclStatKey Z) (p : AclProcessor) : AclProcessor :=
  mkProc (inbound_rules p) (outbound_rules p) (forward_rules p) (default_inbound_action p)
    (default_outbound_action p) (default_forward_action p) (default_rule_stats p) (conn_track p)
    (rate_limiters p) (rule_cache p) (cache_max_size p) (cache_cleanup_interval p) x (stat_items p).
Definition with_stat_items (x : gmap nat StatItem) (p : AclProcessor) : AclProcessor :=
  mkProc (inbound_rules p) (outbound_rules p) (forward_rules p) (default_inbound_action p)
    (default_outbound_action p) (default_forward_action p) (default_rule_stats p) (conn_track p)
    (rate_limiters p) (rule_cache p) (cache_max_size p) (cache_cleanup_interval p) (stats p) x.

(** Every counter allocated by [build_rules], and the one of the default rule, at zero. *)
Definition fresh_stat_items (n : nat) : gmap nat StatItem :=
  list_to_map ((fun i => (i, {| packet_count := 0; byte_count := 0 |})) <$> seq 0 n).

Definition new_with_shared_state (acl_config : Acl)
    (conn_track_ : option (gmap text ConnTrackEntry))
    (rate_limiters_ : option (gmap RateLimitKey RateLimitValue))
    (stats_ : option (gmap AclStatKey Z)) : AclProcessor :=
  let b := build_rules acl_config in
  let '(inbound, outbound, forward) := build_default_actions acl_config in
  {| inbound_rules := b_inbound b;
     outbound_rules := b_outbound b;
     forward_rules := b_forward b;
     default_inbound_action := inbound;
     default_outbound_action := outbound;
     default_forward_action := forward;
     default_rule_stats := b_next b;
     conn_track := default ∅ conn_track_;
     rate_limiters := default ∅ rate_limiters_;
     rule_cache := ∅;
     cache_max_size := 1024;
     cache_cleanup_interval := 20 * SEC;
     stats := default ∅ stats_;
     stat_items := fresh_stat_items (S (b_next b)) |}.

Definition new (acl_config : Acl) : AclProcessor := new_with_shared_state acl_config None None None.

Definition get_shared_state (p : AclProcessor) : SharedState := {|
  sh_conn_track := conn_track p; sh_rate_limiters := rate_limiters p; sh_stats := stats p |}.

(** *** The cache *)

Definition oldest_first (a b : AclCacheKey * Z) : bool := a.2 <=? b.2.

(** [now] and [now'] are the two readings of [Instant::now()]. *)
Definition cleanup_cache (now now' : Z) (max_size : Z) (cache : gmap AclCacheKey AclCacheEntry)
    : gmap AclCacheKey AclCacheEntry :=
  let expired_timepoint := if now - 15 * SEC <? instant_min then now' else now - 15 * SEC in
  let cache := retain (fun _ entry => expired_timepoint <? ce_last_access entry) cache in
  let current_size := Z.of_nat (size cache) in
  if current_size <=? max_size then cache
  else
    let entries := (fun kv => (kv.1, ce_last_access kv.2)) <$> map_iter cache in
    let entries := stable_sort oldest_first entries in
    let to_remove := current_size - max_size + max_size / 5 in
    foldl (fun cache e => delete e.1 cache) cache (take (Z.to_nat to_remove) entries).

Definition cache_result (now now' : Z) (key : AclCacheKey) (entry : AclCacheEntry) (p : AclProcessor)
    : AclProcessor :=
  let cache := <[key := entry]> (rule_cache p) in
  with_rule_cache
    (if cache_max_size p * 2 <? Z.of_nat (size cache)
     then cleanup_cache now now' (cache_max_size p) cache else cache) p.

(** *** Counters *)

Definition increment_stat (key : AclStatKey) (p : AclProcessor) : AclProcessor :=
  with_stats (upsert key (fun counter => as_u64 (counter + 1)) 1 (stats p)) p.

Definition bump (size_ : Z) (s : StatItem) : StatItem :=
  {| packet_count := as_u64 (packet_count s + 1); byte_count := as_u64 (byte_count s + size_) |}.

Definition inc_cache_entry_stats (entry : AclCacheEntry) (pkt : PacketInfo) (p : AclProcessor)
    : AclProcessor :=
  with_stat_items
    (foldl (fun items id => alter (bump (packet_size pkt)) id items) (stat_items p)
       (ce_rule_stats_vec entry)) p.

Definition get_rules_stats (p : AclProcessor) : list (option StatItem) :=
  (fun r => stat_items p !! rule_stats r) <$> inbound_rules p ++ outbound_rules p ++ forward_rules p.

Definition get_stats (p : AclProcessor) : gmap string Z :=
  <["CacheMaxSize" := cache_max_size p]> (<["CacheSize" := Z.of_nat (size (rule_cache p))]>
    (kmap as_str (stats p))).

Definition get_cache_hit_rate (p : AclProcessor) : SpecFloat.spec_float :=
  let cache_hits := default 0 (stats p !! CacheHits) in
  let total_requests := as_u64 (cache_hits + default 0 (stats p !! RuleMatches)) in
  if total_requests =? 0 then f64_of_u64 0
  else f64_div (f64_of_u64 cache_hits) (f64_of_u64 total_requests).

(** *** Connections and rates *)

Definition check_connection_state (created seen : Z) (key : text) (pkt : PacketInfo) (p : AclProcessor)
    : AclProcessor :=
  with_conn_track
    (upsert key
       (fun x => {| ct_src_addr := ct_src_addr x; ct_dst_addr := ct_dst_addr x;
                    ct_protocol := ct_protocol x; ct_state := Established;
                    ct_created_at := ct_created_at x; ct_last_seen := seen;
                    ct_packet_count := as_u64 (ct_packet_count x + 1);
                    ct_byte_count := as_u64 (ct_byte_count x + packet_size pkt) |})
       {| ct_src_addr := (src_ip pkt, default 0 (src_port pkt));
          ct_dst_addr := (dst_ip pkt, default 0 (dst_port pkt));
          ct_protocol := protocol_i32 (pkt_protocol pkt); ct_state := New;
          ct_created_at := created; ct_last_seen := seen;
          ct_packet_count := 1; ct_byte_count := packet_size pkt |}
       (conn_track p)) p.

Definition cleanup_expired_connections (current_time timeout_secs : Z)
    (m : gmap text ConnTrackEntry) : gmap text ConnTrackEntry :=
  let keys_to_remove :=
    omap (fun kv => if timeout_secs <? as_u64 (current_time - ct_last_seen kv.2)
                    then Some kv.1 else None) (map_iter m) in
  foldl (fun m k => delete k m) m keys_to_remove.

Definition check_rate_limit (now : Z) (key : RateLimitKey) (rate burst : Z) (allow_create : bool)
    (p : AclProcessor) : outcome (bool * AclProcessor) :=
  if rate =? 0 then Done (true, p)
  else
    bucket ← match rate_limiters p !! key with
             | Some v => Done (token_bucket v)
             | None => if negb allow_create then Panicked ExplicitPanic
                       else Done (token_bucket_new burst rate 10)
             end;
    let '(ok, bucket) := try_consume 1 bucket in
    Done (ok, with_rate_limiters
                (<[key := {| token_bucket := bucket; last_update := now |}]> (rate_limiters p)) p).

(** *** Packets *)

Fixpoint check_cached_limits (i : nat) (ck : Clock) (keys : list RateLimitKey) (p : AclProcessor)
    : outcome (bool * AclProcessor) :=
  match keys with
  | [] => Done (true, p)
  | key :: keys =>
      '(ok, p) ← check_rate_limit (at_rate ck i) key 1 1 false p;
      if (ok : bool) then check_cached_limits (S i) ck keys p else Done (false, p)
  end.

Definition process_packet_with_cache_entry (ck : Clock) (pkt : PacketInfo) (entry : AclCacheEntry)
    (p : AclProcessor) : outcome (AclResult * AclProcessor) :=
  '(ok, p) ← check_cached_limits 0 ck (ce_rate_limit_keys entry) p;
  if negb ok then Done (mkResult Drop (Some (ce_matched_rule entry)) false (Some RateLimitDrop), p)
  else
    let p := match ce_conn_track_key entry with
             | Some key => check_connection_state (at_created ck) (at_seen ck) key pkt p
             | None => p
             end in
    let p := inc_cache_entry_stats entry pkt p in
    r ← unwrap (ce_acl_result entry);
    Done (r, p).

(** The body of the loop for the first rule that matches. *)
Definition process_rule (ck : Clock) (pkt : PacketInfo) (chain_type : ChainType) (key : AclCacheKey)
    (rule : FastLookupRule) (entry : AclCacheEntry) (p : AclProcessor) : outcome (AclResult * AclProcessor) :=
  let rule_key := {| rlk_chain_type := chain_type; rlk_rule_priority := priority rule |} in
  let limited := 0 <? rate_limit rule in
  '(ok, p) ← (if limited
              then check_rate_limit (at_rate ck 0) rule_key (rate_limit rule) (burst_limit rule) true p
              else Done (true, p));
  if negb ok then Done (mkResult Drop (Some (Priority (priority rule))) false (Some RateLimitDrop), p)
  else
    let keys := ce_rate_limit_keys entry ++ (if limited then [rule_key] else []) in
    let vec := ce_rule_stats_vec entry ++ (if limited then [rule_stats rule] else []) in
    let '(entry, p) :=
      if stateful rule && bool_decide (action rule = Allow) then
        let ctk := conn_track_key pkt in
        (mkEntry (ce_action entry) (Stateful (priority rule)) (ce_last_access entry) (Some ctk) keys
           (ce_chain_type entry)
           (Some (mkResult Allow (Some (Stateful (priority rule))) false
                    (Some (StatefulMatch (src_ip pkt) (dst_ip pkt)))))
           (vec ++ [rule_stats rule]),
         check_connection_state (at_created ck) (at_seen ck) ctk pkt p)
      else
        (mkEntry (ce_action entry) (Priority (priority rule)) (ce_last_access entry)
           (ce_conn_track_key entry) keys (ce_chain_type entry)
           (Some (mkResult (action rule) (Some (Priority (priority rule))) false
                    (Some (RuleMatch (src_ip pkt) (dst_ip pkt) (action rule)))))
           (vec ++ [rule_stats rule]), p) in
    let p := increment_stat RuleMatches p in
    let p := inc_cache_entry_stats entry pkt p in
    let p := cache_result (at_cleanup ck) (at_cleanup_fallback ck) key entry p in
    r ← unwrap (ce_acl_result entry);
    Done (r, p).

(** The code after the loop. *)
Definition process_default (ck : Clock) (pkt : PacketInfo) (chain_type : ChainType) (key : AclCacheKey)
    (entry : AclCacheEntry) (p : AclProcessor) : outcome (AclResult * AclProcessor) :=
  let default_action :=
    match chain_type with
    | Inbound => default_inbound_action p
    | Outbound => default_outbound_action p
    | Forward => default_forward_action p
    | UnspecifiedChain => Allow
    end in
  let p := increment_stat (if bool_decide (default_action = Drop) then DefaultDrops else DefaultAllows) p in
  let ctx := if bool_decide (default_action = Drop) then DefaultDrop else DefaultAllow in
  let entry := mkEntry (ce_action entry) DefaultRule (ce_last_access entry) (ce_conn_track_key entry)
                 (ce_rate_limit_keys entry) (ce_chain_type entry)
                 (Some (mkResult default_action (Some DefaultRule) false (Some ctx)))
                 (ce_rule_stats_vec entry ++ [default_rule_stats p]) in
  let p := inc_cache_entry_stats entry pkt p in
  let p := cache_result (at_cleanup ck) (at_cleanup_fallback ck) key entry p in
  r ← unwrap (ce_acl_result entry);
  Done (r, p).

Fixpoint process_rules (ck : Clock) (pkt : PacketInfo) (chain_type : ChainType) (key : AclCacheKey)
    (rules : list FastLookupRule) (entry : AclCacheEntry) (p : AclProcessor)
    : outcome (AclResult * AclProcessor) :=
  match rules with
  | [] => process_default ck pkt chain_type key entry p
  | rule :: rules =>
      if negb (enabled rule) || negb (rule_matches rule pkt)
      then process_rules ck pkt chain_type key rules entry p
      else process_rule ck pkt chain_type key rule entry p
  end.

Definition touch (now : Z) (e : AclCacheEntry) : AclCacheEntry :=
  mkEntry (ce_action e) (ce_matched_rule e) now (ce_conn_track_key e) (ce_rate_limit_keys e)
    (ce_chain_type e) (ce_acl_result e) (ce_rule_stats_vec e).

Definition rules_of (chain_type : ChainType) (p : AclProcessor) : option (list FastLookupRule) :=
  match chain_type with
  | Inbound => Some (inbound_rules p)
  | Outbound => Some (outbound_rules p)
  | Forward => Some (forward_rules p)
  | UnspecifiedChain => None
  end.

Definition process_packet (ck : Clock) (pkt : PacketInfo) (chain_type : ChainType) (p : AclProcessor)
    : outcome (AclResult * AclProcessor) :=
  let key := from_packet_info pkt chain_type in
  match rule_cache p !! key with
  | Some cached =>
      let cached := touch (at_access ck) cached in
      let p := with_rule_cache (<[key := cached]> (rule_cache p)) p in
      let p := increment_stat CacheHits p in
      process_packet_with_cache_entry ck pkt cached p
  | None =>
      match rules_of chain_type p with
      | None => Done (mkResult Drop (Some DefaultRule) false (Some UnsupportedChainType), p)
      | Some rules =>
          process_rules ck pkt chain_type key rules
            (mkEntry Allow DefaultRule (at_access ck) None [] chain_type None []) p
      end
  end.

(** *** Background tasks *)

(** One round of the cache task: first the cache, then the limiters; each
    limiter's [elapsed()] is read as the sweep reaches it. *)
Definition sweep_cache (now now' : Z) (p : AclProcessor) : AclProcessor :=
  with_rule_cache (cleanup_cache now now' (cache_max_size p) (rule_cache p)) p.

Definition sweep_limiters (now_of : RateLimitKey -> Z) (p : AclProcessor) : AclProcessor :=
  with_rate_limiters
    (retain (fun k v => Z.max 0 (now_of k - last_update v) <? cache_cleanup_interval p)
       (rate_limiters p)) p.

Definition sweep_connections (current_time : Z) (p : AclProcessor) : AclProcessor :=
  with_conn_track (cleanup_expired_connections current_time 60 (conn_track p)) p.

(** The refill task of one bucket. *)
Definition refill_limiter (key : RateLimitKey) (now_micros : Z) (p : AclProcessor) : AclProcessor :=
  with_rate_limiters
    (alter (fun v => {| token_bucket := refill now_micros (token_bucket v);
                        last_update := last_update v |}) key (rate_limiters p)) p.
End processor.

(** ** What a packet should get

    The reference semantics: the first enabled rule that matches decides. *)

Section verdicts.
Context `{CidrLib}.

Definition first_match (rules : list FastLookupRule) (pkt : PacketInfo) : option FastLookupRule :=
  find (fun r => enabled r && rule_matches r pkt) rules.

Definition is_stateful (r : FastLookupRule) : bool := stateful r && bool_decide (action r = Allow).

Definition rule_verdict (r : FastLookupRule) (src dst : IpAddr) : AclResult :=
  if is_stateful r
  then mkResult Allow (Some (Stateful (priority r))) false (Some (StatefulMatch src dst))
  else mkResult (action r) (Some (Priority (priority r))) false (Some (RuleMatch src dst (action r))).

Definition default_of (chain_type : ChainType) (p : AclProcessor) : Action :=
  match chain_type with
  | Inbound => default_inbound_action p
  | Outbound => default_outbound_action p
  | Forward => default_forward_action p
  | UnspecifiedChain => Allow
  end.

Definition default_verdict (a : Action) : AclResult :=
  mkResult a (Some DefaultRule) false (Some (if bool_decide (a = Drop) then DefaultDrop else DefaultAllow)).

(** The verdict when no rate limiter intervenes. *)
Definition verdict (p : AclProcessor) (ct : ChainType) (pkt : PacketInfo) : AclResult :=
  match rules_of ct p with
  | None => mkResult Drop (Some DefaultRule) false (Some UnsupportedChainType)
  | Some rules =>
      match first_match rules pkt with
      | Some r => rule_verdict r (src_ip pkt) (dst_ip pkt)
      | None => default_verdict (default_of ct p)
      end
  end.

(** The rule whose limiter governs the packet. *)
Definition limiting_rule (p : AclProcessor) (ct : ChainType) (pkt : PacketInfo) : option FastLookupRule :=
  rules ← rules_of ct p; r ← first_match rules pkt; if 0 <? rate_limit r then Some r else None.

(** The counters after the packet has been counted by what decided it. *)
Definition counted_ids (p : AclProcessor) (ct : ChainType) (pkt : PacketInfo) : list nat :=
  match rules_of ct p with
  | None => []
  | Some rules =>
      match first_match rules pkt with
      | Some r => (if 0 <? rate_limit r then [rule_stats r] else []) ++ [rule_stats r]
      | None => [default_rule_stats p]
      end
  end.

Definition counted (p : AclProcessor) (ct : ChainType) (pkt : PacketInfo) : gmap nat StatItem :=
  foldl (fun items id => alter (bump (packet_size pkt)) id items) (stat_items p) (counted_ids p ct pkt).

Definition rate_limited (r : AclResult) : Prop :=
  res_action r = Drop /\ log_context r = Some RateLimitDrop.

(** TCP and UDP packets carry both ports, all others none. *)
Definition ports_known (pkt : PacketInfo) : Prop :=
  if bool_decide (pkt_protocol pkt = Tcp) || bool_decide (pkt_protocol pkt = Udp)
  then is_Some (src_port pkt) /\ is_Some (dst_port pkt)
  else src_port pkt = None /\ dst_port pkt = None.

Definition rule_keys (ct : ChainType) (r : FastLookupRule) : list RateLimitKey :=
  if 0 <? rate_limit r then [{| rlk_chain_type := ct; rlk_rule_priority := priority r |}] else [].

Definition rule_vec (r : FastLookupRule) : list nat :=
  (if 0 <? rate_limit r then [rule_stats r] else []) ++ [rule_stats r].

(** What the cache promises about an entry. *)
Definition describes (p : AclProcessor) (k : AclCacheKey) (e : AclCacheEntry) : Prop :=
  exists pkt rules, ports_known pkt /\ k = from_packet_info pkt (ck_chain_type k) /\
    rules_of (ck_chain_type k) p = Some rules /\
    match first_match rules pkt with
    | Some r => ce_acl_result e = Some (rule_verdict r (src_ip pkt) (dst_ip pkt)) /\
                ce_rate_limit_keys e = rule_keys (ck_chain_type k) r /\ ce_rule_stats_vec e = rule_vec r
    | None => ce_acl_result e = Some (default_verdict (default_of (ck_chain_type k) p)) /\
              ce_rate_limit_keys e = [] /\ ce_rule_stats_vec e = [default_rule_stats p]
    end.

(** Packets with the same cache key are matched alike. *)
Lemma same_key_ports a b ct :
  ports_known a -> ports_known b -> from_packet_info a ct = from_packet_info b ct ->
  src_port a = src_port b /\ dst_port a = dst_port b.
Proof.
  unfold ports_known, from_packet_info. intros Ha Hb E. injection E as Hp _ _ Hs Hd _ _.
  rewrite Hp in Ha. destruct (_ || _); destruct Ha as [Ha1 Ha2], Hb as [Hb1 Hb2].
  - destruct Ha1 as [? E1], Ha2 as [? E2], Hb1 as [? E3], Hb2 as [? E4].
    rewrite E1, E3 in Hs. rewrite E2, E4 in Hd. simpl in *. rewrite E1, E2, E3, E4. by subst.
  - by rewrite Ha1, Ha2, Hb1, Hb2.
Qed.

Lemma same_key_matches a b ct r :
  ports_known a -> ports_known b -> from_packet_info a ct = from_packet_info b ct ->
  rule_matches r a = rule_matches r b.
Proof.
  intros Ha Hb E. destruct (same_key_ports _ _ _ Ha Hb E) as [Hs Hd].
  injection E as Hp Hsi Hdi _ _ Hsg Hdg. unfold rule_matches.
  by rewrite Hp, Hsi, Hdi, Hs, Hd, Hsg, Hdg.
Qed.

Lemma same_key_first_match a b ct rules :
  ports_known a -> ports_known b -> from_packet_info a ct = from_packet_info b ct ->
  first_match rules a = first_match rules b.
Proof.
  intros Ha Hb E. unfold first_match. induction rules as [|r rules IH]; simpl; [done|].
  by rewrite (same_key_matches a b ct r Ha Hb E), IH.
Qed.

Lemma same_key_ips a b ct :
  from_packet_info a ct = from_packet_info b ct -> src_ip a = src_ip b /\ dst_ip a = dst_ip b.
Proof. intros E. by injection E. Qed.

(** So a cached entry holds what the packet at hand should get. *)
Lemma describes_verdict p pkt ct e :
  ports_known pkt -> describes p (from_packet_info pkt ct) e ->
  ce_acl_result e = Some (verdict p ct pkt) /\ ce_rule_stats_vec e = counted_ids p ct pkt /\
  match limiting_rule p ct pkt with
  | Some r => ce_rate_limit_keys e = rule_keys ct r
  | None => ce_rate_limit_keys e = []
  end.
Proof.
  intros Hk (pkt' & rules & Hk' & E & Hr & Hm). simpl in *.
  destruct (same_key_ips _ _ _ E) as [Es Ed].
  rewrite <- (same_key_first_match pkt pkt' ct rules Hk Hk' E), <- Es, <- Ed in Hm.
  unfold verdict, limiting_rule, counted_ids. rewrite Hr. simpl.
  destruct (first_match rules pkt) as [r|] eqn:Ef; simpl; destruct Hm as (H1 & H2 & H3); [|done].
  split; [done|]. split; [done|]. rewrite H2. unfold rule_keys. destruct (0 <? rate_limit r) eqn:El; simpl; by rewrite ?El.
Qed.
End verdicts.

(** ** The cache *)

Section delete_many.
Context `{Countable K} {V B : Type} (key : B -> K).
Implicit Types (m : gmap K V) (l : list B).

Definition delete_many (l : list B) (m : gmap K V) : gmap K V := foldl (fun m b => delete (key b) m) m l.

Lemma lookup_delete_many l m k :
  delete_many l m !! k = if bool_decide (k ∈ key <$> l) then None else m !! k.
Proof.
  unfold delete_many. revert m; induction l as [|b l IH]; intros m; [done|]. cbn [foldl fmap list_fmap]. rewrite IH.
  destruct (decide (k = key b)) as [->|Hne].
  - rewrite lookup_delete_eq, (bool_decide_eq_true_2 (key b ∈ key b :: _)) by left. by case_bool_decide.
  - rewrite lookup_delete_ne by done. repeat case_bool_decide; set_solver.
Qed.

Lemma size_delete_many l m :
  NoDup (key <$> l) -> (forall b, b ∈ l -> is_Some (m !! key b)) ->
  (size (delete_many l m) + length l = size m)%nat.
Proof.
  unfold delete_many. revert m; induction l as [|b l IH]; intros m Hnd Hin; cbn [foldl length]; [lia|].
  apply NoDup_cons in Hnd as [Hb Hnd].
  destruct (Hin b) as [v Hv]; [left|]. pose proof (map_size_delete_Some (key b) m ltac:(by exists v)) as Hsz.
  assert (size m <> 0)%nat by (intros Hs; apply map_size_empty_inv in Hs; subst; by rewrite lookup_empty in Hv).
  rewrite <- (IH (delete (key b) m)) in *; [lia | done |].
  intros b' Hb'. rewrite lookup_delete_ne; [apply Hin; by right|].
  intros E. apply Hb. rewrite E. by apply list_elem_of_fmap_2.
Qed.
End delete_many.

Section cache.
Context `{!IterOrder AclCacheKey AclCacheEntry} (instant_min : Z).
Implicit Types (m : gmap AclCacheKey AclCacheEntry).

Abbreviation clean := (cleanup_cache instant_min).

Definition expiry (now now' : Z) : Z :=
  if now - 15 * SEC <? instant_min then now' else now - 15 * SEC.

Definition lru_entries m : list (AclCacheKey * Z) :=
  stable_sort oldest_first ((fun kv => (kv.1, ce_last_access kv.2)) <$> map_iter m).

Lemma elem_of_lru_entries m k t :
  (k, t) ∈ lru_entries m <-> exists e, m !! k = Some e /\ t = ce_last_access e.
Proof.
  unfold lru_entries. rewrite stable_sort_perm, list_elem_of_fmap. split.
  - intros ([k' e] & E & Hin). simplify_eq/=. exists e. by rewrite <- elem_of_map_iter.
  - intros (e & He & ->). exists (k, e). by rewrite elem_of_map_iter.
Qed.

Lemma lru_entries_NoDup m : NoDup (fst <$> lru_entries m).
Proof.
  unfold lru_entries. rewrite stable_sort_perm, <- list_fmap_compose.
  change (NoDup (fst <$> map_iter m)). rewrite map_iter_perm. apply NoDup_fst_map_to_list.
Qed.

Lemma lru_entries_sorted m : StronglySorted (fun a b => oldest_first a b = true) (lru_entries m).
Proof. apply stable_sort_sorted; unfold oldest_first; intros; lia. Qed.

Lemma lru_entries_length m : length (lru_entries m) = size m.
Proof. unfold lru_entries. by rewrite stable_sort_length, length_fmap, map_iter_length. Qed.

(** The entries of [cleanup_cache] in closed form. *)
Definition fresh_entries (now now' : Z) m : gmap AclCacheKey AclCacheEntry :=
  retain (fun _ entry => expiry now now' <? ce_last_access entry) m.

Lemma cleanup_cache_eq now now' max m :
  clean now now' max m =
  (let m := fresh_entries now now' m in
   if Z.of_nat (size m) <=? max then m
   else delete_many fst (take (Z.to_nat (Z.of_nat (size m) - max + max / 5)) (lru_entries m)) m).
Proof. reflexivity. Qed.

Lemma cleanup_cache_Some now now' max m k e :
  clean now now' max m !! k = Some e -> m !! k = Some e /\ expiry now now' < ce_last_access e.
Proof.
  rewrite cleanup_cache_eq. simpl. intros Hk.
  assert (fresh_entries now now' m !! k = Some e) as Hf.
  { destruct (_ <=? _); [done|]. rewrite lookup_delete_many in Hk. by case_bool_decide. }
  unfold fresh_entries in Hf. rewrite retain_Some in Hf. destruct Hf; split; [done | lia].
Qed.

Lemma cleanup_cache_size now now' max m :
  0 <= max -> Z.of_nat (size (clean now now' max m)) <= max.
Proof.
  intros Hmax. rewrite cleanup_cache_eq. simpl. set (f := fresh_entries now now' m).
  destruct (_ <=? _) eqn:Es; [lia|]. set (n := Z.to_nat _).
  pose proof (size_delete_many fst (take n (lru_entries f)) f) as Hs.
  rewrite length_take, lru_entries_length in Hs. rewrite fmap_take in Hs.
  assert (0 <= max / 5) by (apply Z.div_pos; lia).
  enough (size (delete_many fst (take n (lru_entries f)) f) + n `min` size f = size f)%nat by lia.
  apply Hs.
  - pose proof (lru_entries_NoDup f) as Hn. rewrite <- (take_drop n (fst <$> lru_entries f)) in Hn.
    by apply NoDup_app in Hn as [? _].
  - intros [k t] Hin. apply subseteq_take in Hin. apply elem_of_lru_entries in Hin as (e & He & _). by exists e.
Qed.

Lemma StronglySorted_split {A} (R : A -> A -> Prop) l n x y :
  StronglySorted R l -> x ∈ take n l -> y ∈ drop n l -> R x y.
Proof.
  intros Hs; revert n; induction Hs as [|a l Hs IH Ha]; intros n Hx Hy.
  - rewrite take_nil in Hx. by apply not_elem_of_nil in Hx.
  - destruct n as [|n]; simpl in *; [by apply not_elem_of_nil in Hx|].
    apply elem_of_cons in Hx as [->|Hx]; [|by eapply IH].
    rewrite Forall_forall in Ha. apply Ha. by apply subseteq_drop in Hy.
Qed.

Lemma cleanup_cache_lru now now' max m k e k' e' :
  m !! k = Some e -> expiry now now' < ce_last_access e -> clean now now' max m !! k = None ->
  clean now now' max m !! k' = Some e' -> ce_last_access e <= ce_last_access e'.
Proof.
  intros Hk Hfresh Hgone Hk'. rewrite cleanup_cache_eq in Hgone, Hk'. simpl in *.
  assert (fresh_entries now now' m !! k = Some e) as Hf by (apply retain_Some; split; [done | lia]).
  destruct (_ <=? _); [congruence|]. set (f := fresh_entries now now' m) in *. set (n := Z.to_nat _) in *.
  rewrite lookup_delete_many in Hgone, Hk'.
  destruct (bool_decide_reflect (k' ∈ fst <$> take n (lru_entries f))) as [|Hout]; [done|].
  destruct (bool_decide_reflect (k ∈ fst <$> take n (lru_entries f))) as [Hin|]; [|congruence].
  apply list_elem_of_fmap in Hin as ([k1 t] & -> & Hin). simpl in *.
  pose proof (subseteq_take _ _ _ Hin) as Hin'. apply elem_of_lru_entries in Hin' as (e1 & He1 & ->).
  rewrite Hf in He1. injection He1 as <-.
  assert ((k', ce_last_access e') ∈ drop n (lru_entries f)) as Hd.
  { assert ((k', ce_last_access e') ∈ lru_entries f) as Hl by (apply elem_of_lru_entries; by exists e').
    rewrite <- (take_drop n (lru_entries f)), elem_of_app in Hl. destruct Hl as [Hl|]; [|done].
    destruct Hout. by apply (list_elem_of_fmap_2 fst) in Hl. }
  pose proof (StronglySorted_split _ _ _ _ _ (lru_entries_sorted f) Hin Hd) as Ho.
  unfold oldest_first in Ho. simpl in Ho. lia.
Qed.
End cache.

(** ** The running system *)

Section system.
Context `{CidrLib} `{!IterOrder AclCacheKey AclCacheEntry} `{!IterOrder text ConnTrackEntry}.
Variable instant_min : Z.

(** [swept] is the time of a cache sweep whose limiter sweep is still due. *)
Record acl_sys := { proc : AclProcessor; now : Z; swept : option Z }.

(** The readings of one packet, in the order the code makes them. *)
Definition clock_ok (t t' : Z) (ck : Clock) : Prop :=
  t <= at_access ck /\ (forall i, at_access ck <= at_rate ck i <= t') /\
  at_access ck <= at_cleanup ck <= at_cleanup_fallback ck /\ at_cleanup_fallback ck <= t'.

(** Two assumptions on scheduling: the sweep of the limiters, which follows that of the cache in the same task without a
    pause in between, reads its clocks less than 5 seconds after it; and when the rules are reloaded the background tasks of the old processor
    end at once, so that its limiter sweep is not still done on the map the new one shares. *)
Inductive acl_step : acl_sys -> acl_sys -> Prop :=
| step_packet s ck pkt ct r p' t' :
    clock_ok (now s) t' ck -> ports_known pkt ->
    process_packet instant_min ck pkt ct (proc s) = Done (r, p') ->
    acl_step s {| proc := p'; now := t'; swept := swept s |}
| step_sweep_cache s t0 t1 t' :
    swept s = None -> now s <= t0 <= t1 -> t1 <= t' ->
    acl_step s {| proc := sweep_cache instant_min t0 t1 (proc s); now := t'; swept := Some t0 |}
| step_sweep_limiters s t0 now_of t' :
    swept s = Some t0 -> now s <= t' ->
    (forall k, now_of k <= t' /\ now_of k < t0 + 5 * SEC) ->
    acl_step s {| proc := sweep_limiters now_of (proc s); now := t'; swept := None |}
| step_sweep_connections s current :
    acl_step s {| proc := sweep_connections current (proc s); now := now s; swept := swept s |}
| step_refill s key micros :
    acl_step s {| proc := refill_limiter key micros (proc s); now := now s; swept := swept s |}
| step_stat s key :
    acl_step s {| proc := increment_stat key (proc s); now := now s; swept := swept s |}
| step_reload s acl :
    let sh := get_shared_state (proc s) in
    acl_step s {| proc := new_with_shared_state acl (Some (sh_conn_track sh))
                            (Some (sh_rate_limiters sh)) (Some (sh_stats sh));
                  now := now s; swept := None |}.

Inductive acl_reachable : acl_sys -> Prop :=
| reach_init acl t : acl_reachable {| proc := new acl; now := t; swept := None |}
| reach_step s s' : acl_reachable s -> acl_step s s' -> acl_reachable s'.

Record acl_inv (t : Z) (p : AclProcessor) : Prop := {
  inv_describes k e : rule_cache p !! k = Some e -> describes p k e;
  inv_buckets k e rk : rule_cache p !! k = Some e -> rk ∈ ce_rate_limit_keys e ->
    exists v, rate_limiters p !! rk = Some v /\ ce_last_access e <= last_update v;
  inv_access k e : rule_cache p !! k = Some e -> ce_last_access e <= t;
  inv_update rk v : rate_limiters p !! rk = Some v -> last_update v <= t;
  inv_size : Z.of_nat (size (rule_cache p)) <= 2 * cache_max_size p;
  inv_consts : cache_max_size p = 1024 /\ cache_cleanup_interval p = 20 * SEC
}.

(** Between the two sweeps every entry is younger than the first one's cut. *)
Definition swept_ok (s : acl_sys) : Prop :=
  forall t0, swept s = Some t0 -> t0 <= now s /\
    forall k e, rule_cache (proc s) !! k = Some e -> t0 - 15 * SEC < ce_last_access e.

Record sys_inv (s : acl_sys) : Prop := {
  sys_acl : acl_inv (now s) (proc s); sys_swept : swept_ok s }.

(** *** Rate limiters *)

(** [m'] is [m] with at most bucket [k] used at [t], as a limiter check leaves it. *)
Definition used_at (k : RateLimitKey) (t : Z) (m m' : gmap RateLimitKey RateLimitValue) : Prop :=
  exists b, m' = <[k := {| token_bucket := b; last_update := t |}]> m.

Lemma check_rate_limit_done t key rate burst create p :
  rate <> 0 -> create = true \/ is_Some (rate_limiters p !! key) ->
  exists ok m', check_rate_limit t key rate burst create p = Done (ok, with_rate_limiters m' p) /\
    used_at key t (rate_limiters p) m'.
Proof.
  intros Hr Hc. unfold check_rate_limit. rewrite (proj2 (Z.eqb_neq rate 0)) by done.
  destruct (rate_limiters p !! key) as [v|] eqn:E; simpl.
  - destruct (try_consume 1 (token_bucket v)) as [ok b]. repeat eexists.
  - destruct Hc as [->|[v Hv]]; [|done]. simpl.
    destruct (try_consume 1 _) as [ok b]. repeat eexists.
Qed.

Lemma used_at_lookup k t m m' rk v :
  used_at k t m m' -> m !! rk = Some v -> last_update v <= t ->
  exists v', m' !! rk = Some v' /\ last_update v <= last_update v'.
Proof.
  intros [b ->] Hv Ht. destruct (decide (k = rk)) as [->|Hne].
  - rewrite lookup_insert_eq. by eexists.
  - rewrite lookup_insert_ne by done. by exists v.
Qed.

Lemma used_at_self k t m m' : used_at k t m m' -> exists v, m' !! k = Some v /\ last_update v = t.
Proof. intros [b ->]. rewrite lookup_insert_eq. by eexists. Qed.

Lemma used_at_bound k t t' m m' rk v :
  used_at k t m m' -> (forall rk v, m !! rk = Some v -> last_update v <= t') -> t <= t' ->
  m' !! rk = Some v -> last_update v <= t'.
Proof. intros [b ->] Hb Ht. rewrite lookup_insert_Some. intros [[_ <-]|[_ Hv]]; [done | by eapply Hb]. Qed.

(** *** One packet *)

Definition same_config (p p' : AclProcessor) : Prop :=
  (forall ct, rules_of ct p' = rules_of ct p) /\ (forall ct, default_of ct p' = default_of ct p) /\
  default_rule_stats p' = default_rule_stats p /\ cache_max_size p' = cache_max_size p /\
  cache_cleanup_interval p' = cache_cleanup_interval p.

Lemma describes_same_config p p' k e : same_config p p' -> describes p k e -> describes p' k e.
Proof.
  intros (Hr & Hd & Hs & _) (pkt & rules & H1 & H2 & H3 & H4).
  exists pkt, rules. by rewrite Hr, Hd, Hs.
Qed.

(** What processing a packet does to the cache and the limiters. *)
Record packet_post (ck : Clock) (t' : Z) (p p' : AclProcessor) : Prop := {
  pp_config : same_config p p';
  pp_cache k e : rule_cache p' !! k = Some e -> rule_cache p !! k = Some e \/
    (describes p k e /\ ce_last_access e = at_access ck /\
     forall rk, rk ∈ ce_rate_limit_keys e -> exists v, rate_limiters p' !! rk = Some v /\ ce_last_access e <= last_update v);
  pp_mono rk v : rate_limiters p !! rk = Some v ->
    exists v', rate_limiters p' !! rk = Some v' /\ last_update v <= last_update v';
  pp_bound rk v : rate_limiters p' !! rk = Some v -> last_update v <= t';
  pp_size : Z.of_nat (size (rule_cache p')) <= 2 * cache_max_size p
}.

Lemma packet_post_inv ck t t' p p' :
  clock_ok t t' ck -> acl_inv t p -> packet_post ck t' p p' -> acl_inv t' p'.
Proof.
  intros (Ht & Hrate & _) [Hd Hb Ha Hu Hs Hc] [Hcfg Hcache Hm Hbd Hsz].
  pose proof (Hrate 0%nat). pose proof Hcfg as (_ & _ & _ & Hmax & Hint). split.
  - intros k e Hk. apply (describes_same_config _ _ _ _ Hcfg). destruct (Hcache _ _ Hk) as [?|[? _]]; eauto.
  - intros k e rk Hk Hrk. destruct (Hcache _ _ Hk) as [Hold|(_ & _ & Hnew)]; [|eauto].
    destruct (Hb _ _ _ Hold Hrk) as (v & Hv & Hle). destruct (Hm _ _ Hv) as (v' & Hv' & Hle').
    exists v'. split; [done | lia].
  - intros k e Hk. destruct (Hcache _ _ Hk) as [Hold|(_ & -> & _)]; [apply Ha in Hold|]; lia.
  - done.
  - by rewrite Hmax.
  - by rewrite Hmax, Hint.
Qed.

Lemma cache_result_Some n n' key entry p k e :
  rule_cache (cache_result instant_min n n' key entry p) !! k = Some e ->
  (k = key /\ e = entry) \/ rule_cache p !! k = Some e.
Proof.
  unfold cache_result. cbn [rule_cache with_rule_cache]. intros Hk.
  assert (<[key := entry]> (rule_cache p) !! k = Some e) as Hi.
  { destruct (_ <? _); [|done]. by apply cleanup_cache_Some in Hk as [? _]. }
  apply lookup_insert_Some in Hi. naive_solver.
Qed.

Lemma cache_result_size n n' key entry p :
  0 <= cache_max_size p ->
  Z.of_nat (size (rule_cache (cache_result instant_min n n' key entry p))) <= 2 * cache_max_size p.
Proof.
  intros Hmax. unfold cache_result. cbn [rule_cache with_rule_cache].
  destruct (_ <? _) eqn:E; [|lia]. pose proof (cleanup_cache_size instant_min n n' (cache_max_size p)
    (<[key := entry]> (rule_cache p)) Hmax). lia.
Qed.

Lemma process_rules_first_match ck pkt ct key rules entry p :
  process_rules instant_min ck pkt ct key rules entry p =
  match first_match rules pkt with
  | Some r => process_rule instant_min ck pkt ct key r entry p
  | None => process_default instant_min ck pkt ct key entry p
  end.
Proof.
  unfold first_match. induction rules as [|r rules IH]; simpl; [done|].
  rewrite IH. by destruct (enabled r), (rule_matches r pkt).
Qed.

(** The rest of the code after a fresh entry has been put together. *)
Lemma packet_post_cached ck t t' p p1 key entry :
  clock_ok t t' ck -> acl_inv t p -> same_config p p1 -> rule_cache p1 = rule_cache p ->
  describes p key entry -> ce_last_access entry = at_access ck ->
  (rate_limiters p1 = rate_limiters p /\ ce_rate_limit_keys entry = [] \/
   exists rk, ce_rate_limit_keys entry = [rk] /\
     used_at rk (at_rate ck 0) (rate_limiters p) (rate_limiters p1)) ->
  packet_post ck t' p (cache_result instant_min (at_cleanup ck) (at_cleanup_fallback ck) key entry p1).
Proof.
  intros Hck Hinv Hcfg Hcache Hdesc Hacc Hrl. pose proof Hck as (Ht & Hrate & _).
  pose proof (Hrate 0%nat) as Hr0. destruct Hinv as [_ _ _ Hu _ [Hmax _]].
  split.
  - exact Hcfg.
  - intros k e Hk. apply cache_result_Some in Hk as [[-> ->]|Hk]; [|left; congruence].
    right. split_and!; [done | done |]. intros rk Hrk.
    destruct Hrl as [[_ E]|(rk' & E & Hused)]; rewrite E in Hrk; [by apply not_elem_of_nil in Hrk|].
    apply list_elem_of_singleton in Hrk as ->.
    destruct (used_at_self _ _ _ _ Hused) as (v & Hv & Hl). exists v. split; [exact Hv | lia].
  - intros rk v Hv. destruct Hrl as [[E _]|(rk' & _ & Hused)].
    + exists v. split; [|done]. cbn. by rewrite E.
    + apply (used_at_lookup _ _ _ _ _ _ Hused Hv). apply Hu in Hv. lia.
  - intros rk v Hv. cbn in Hv. destruct Hrl as [[E _]|(rk' & _ & Hused)].
    + rewrite E in Hv. apply Hu in Hv. lia.
    + eapply used_at_bound; [exact Hused | | | exact Hv]; [|lia].
      intros ?? Hv'. apply Hu in Hv'. lia.
  - destruct Hcfg as (_ & _ & _ & Hm & _). rewrite <- Hm. apply cache_result_size. lia.
Qed.

(** Nothing but limiters and shared tables changed. *)
Lemma packet_post_limiter ck t t' p p1 :
  clock_ok t t' ck -> acl_inv t p -> same_config p p1 -> rule_cache p1 = rule_cache p ->
  (rate_limiters p1 = rate_limiters p \/
   exists rk, used_at rk (at_rate ck 0) (rate_limiters p) (rate_limiters p1)) ->
  packet_post ck t' p p1.
Proof.
  intros (Ht & Hrate & _) [_ _ _ Hu Hs _] Hcfg Hcache Hrl. pose proof (Hrate 0%nat).
  split; rewrite ?Hcache; [done | by left | | | done].
  - intros rk v Hv. destruct Hrl as [E|(rk' & Hused)]; [exists v; by rewrite E|].
    apply (used_at_lookup _ _ _ _ _ _ Hused Hv). apply Hu in Hv. lia.
  - intros rk v Hv. destruct Hrl as [E|(rk' & Hused)]; [rewrite E in Hv; apply Hu in Hv; lia|].
    eapply used_at_bound; [exact Hused | | | exact Hv]; [|lia]. intros ?? Hv'. apply Hu in Hv'. lia.
Qed.

Definition start_entry (ck : Clock) (ct : ChainType) : AclCacheEntry :=
  mkEntry Allow DefaultRule (at_access ck) None [] ct None [].

Definition packet_outcome (ck : Clock) (t' : Z) (pkt : PacketInfo) (ct : ChainType) (p : AclProcessor)
    (o : outcome (AclResult * AclProcessor)) : Prop :=
  exists r p', o = Done (r, p') /\ packet_post ck t' p p' /\
    ((r = verdict p ct pkt /\ stat_items p' = counted p ct pkt) \/
     (is_Some (limiting_rule p ct pkt) /\ rate_limited r /\ stat_items p' = stat_items p)).

Lemma process_rule_outcome ck t t' pkt ct p rules r :
  clock_ok t t' ck -> acl_inv t p -> ports_known pkt -> rules_of ct p = Some rules ->
  first_match rules pkt = Some r ->
  packet_outcome ck t' pkt ct p
    (process_rule instant_min ck pkt ct (from_packet_info pkt ct) r (start_entry ck ct) p).
Proof.
  intros Hck Hinv Hp Hr Hf. unfold process_rule.
  assert (verdict p ct pkt = rule_verdict r (src_ip pkt) (dst_ip pkt)) as Hv
    by (unfold verdict; by rewrite Hr, Hf).
  assert (limiting_rule p ct pkt = if 0 <? rate_limit r then Some r else None) as Hl
    by (unfold limiting_rule; rewrite Hr; simpl; by rewrite Hf).
  assert (counted_ids p ct pkt = rule_vec r) as Hi by (unfold counted_ids; by rewrite Hr, Hf).
  unfold rule_vec in Hi.
  assert (forall m' e, (m' = rate_limiters p /\ (0 <? rate_limit r) = false \/
              used_at {| rlk_chain_type := ct; rlk_rule_priority := priority r |} (at_rate ck 0)
                (rate_limiters p) m' /\ (0 <? rate_limit r) = true) ->
            ce_acl_result e = Some (rule_verdict r (src_ip pkt) (dst_ip pkt)) ->
            ce_rate_limit_keys e = rule_keys ct r -> ce_rule_stats_vec e = rule_vec r ->
            ce_last_access e = at_access ck ->
            forall p1, same_config p p1 -> rule_cache p1 = rule_cache p -> rate_limiters p1 = m' ->
            packet_post ck t' p (cache_result instant_min (at_cleanup ck) (at_cleanup_fallback ck)
                                   (from_packet_info pkt ct) e p1)) as Hfin.
  { intros m' e Hm He1 He2 He3 He4 p1 Hc1 Hc2 <-. eapply packet_post_cached; try done.
    - exists pkt, rules. cbn. by rewrite Hf.
    - rewrite He2. unfold rule_keys. destruct Hm as [[Hm ->]|[Hm ->]]; [by left|]. right. by eexists. }
  destruct (0 <? rate_limit r) eqn:El; cbn [mbind outcome_bind].
  - destruct (check_rate_limit_done (at_rate ck 0) {| rlk_chain_type := ct; rlk_rule_priority := priority r |}
      (rate_limit r) (burst_limit r) true p ltac:(lia) ltac:(by left)) as (ok & m' & -> & Hused).
    cbn [mbind outcome_bind]. destruct ok; cbn [negb].
    + destruct (stateful r && bool_decide (action r = Allow)) eqn:Es; cbn [unwrap ce_acl_result mbind outcome_bind];
        do 2 eexists; (split; [reflexivity|]); (split; [|left; rewrite Hv; unfold rule_verdict, is_stateful, counted; by rewrite Es, Hi]);
        (eapply (Hfin m'); [right; by split | ..]; try reflexivity);
        cbn; unfold rule_verdict, is_stateful, rule_keys, rule_vec; by rewrite ?Es, ?El.
    + do 2 eexists. split; [reflexivity|]. split; [|right; by rewrite Hl].
      eapply packet_post_limiter; try done. right. by eexists.
  - cbn [negb]. destruct (stateful r && bool_decide (action r = Allow)) eqn:Es; cbn [unwrap ce_acl_result mbind outcome_bind];
        do 2 eexists; (split; [reflexivity|]); (split; [|left; rewrite Hv; unfold rule_verdict, is_stateful, counted; by rewrite Es, Hi]);
        (eapply (Hfin (rate_limiters p)); [left; by split | ..]; try reflexivity);
        cbn; unfold rule_verdict, is_stateful, rule_keys, rule_vec; by rewrite ?Es, ?El.
Qed.

Lemma process_default_outcome ck t t' pkt ct p rules :
  clock_ok t t' ck -> acl_inv t p -> ports_known pkt -> rules_of ct p = Some rules ->
  first_match rules pkt = None ->
  packet_outcome ck t' pkt ct p
    (process_default instant_min ck pkt ct (from_packet_info pkt ct) (start_entry ck ct) p).
Proof.
  intros Hck Hinv Hp Hr Hf. unfold process_default. do 2 eexists. split; [reflexivity|].
  split; [|left; unfold verdict, counted, counted_ids; rewrite Hr, Hf; unfold default_of, default_verdict; by destruct ct].
  eapply packet_post_cached; try done; [|by left].
  exists pkt, rules. cbn. rewrite Hf. by destruct ct.
Qed.

Lemma process_cached_outcome ck t t' pkt ct p cached :
  clock_ok t t' ck -> acl_inv t p -> ports_known pkt ->
  rule_cache p !! from_packet_info pkt ct = Some cached ->
  packet_outcome ck t' pkt ct p
    (process_packet_with_cache_entry ck pkt (touch (at_access ck) cached)
       (increment_stat CacheHits (with_rule_cache
          (<[from_packet_info pkt ct := touch (at_access ck) cached]> (rule_cache p)) p))).
Proof.
  intros Hck Hinv Hp Hc. set (key := from_packet_info pkt ct) in *. set (e := touch _ cached).
  set (p1 := increment_stat _ _).
  pose proof (inv_describes _ _ Hinv _ _ Hc) as Hd.
  destruct (describes_verdict p pkt ct cached Hp Hd) as (Hres & Hids & Hkeys).
  pose proof Hck as (Ht & Hrate & _). pose proof (Hrate 0%nat) as Hr0.
  assert (describes p key e) as Hde by exact Hd.
  assert (forall p2, same_config p p2 -> rule_cache p2 = rule_cache p1 ->
    (rate_limiters p2 = rate_limiters p /\ ce_rate_limit_keys e = [] \/
     exists rk, ce_rate_limit_keys e = [rk] /\
       used_at rk (at_rate ck 0) (rate_limiters p) (rate_limiters p2)) -> packet_post ck t' p p2) as Hfin.
  { intros p2 Hcfg Hcache Hrl.
    assert (packet_post ck t' p (with_rule_cache (rule_cache p) p2)) as [_ _ Hmono Hbound _].
    { eapply packet_post_limiter; try done. cbn. destruct Hrl as [[? _]|(rk & _ & ?)]; eauto. }
    split; [exact Hcfg | | exact Hmono | exact Hbound |]; rewrite Hcache; cbn.
    - intros k e' Hk. apply lookup_insert_Some in Hk as [[<- <-]|[_ Hk]]; [right|by left].
      split_and!; [done | done |]. intros rk Hrk.
      destruct Hrl as [[_ E]|(rk' & E & Hused)]; rewrite E in Hrk; [by apply not_elem_of_nil in Hrk|].
      apply list_elem_of_singleton in Hrk as ->.
      destruct (used_at_self _ _ _ _ Hused) as (v & Hv & Hl). exists v. split; [exact Hv | cbn; lia].
    - rewrite map_size_insert_Some by eauto. apply (inv_size _ _ Hinv). }
  unfold process_packet_with_cache_entry. change (ce_rate_limit_keys e) with (ce_rate_limit_keys cached) in *.
  change (ce_conn_track_key e) with (ce_conn_track_key cached).
  assert (forall p2, stat_items p2 = stat_items p -> stat_items (inc_cache_entry_stats e pkt p2) = counted p ct pkt)
    as Hitems by (intros p2 E; unfold counted; by rewrite <- Hids, <- E).
  destruct (limiting_rule p ct pkt) as [r|] eqn:El; rewrite Hkeys in *.
  - assert (rule_keys ct r = [{| rlk_chain_type := ct; rlk_rule_priority := priority r |}]) as Hk.
    { unfold limiting_rule in El. destruct (rules_of ct p) as [rules|]; [|done]. simpl in El.
      destruct (first_match rules pkt) as [r'|]; [|done]. simpl in El. unfold rule_keys.
      destruct (0 <? rate_limit r') eqn:E0; [|done]. injection El as <-. by rewrite E0. }
    rewrite Hk in *. cbn [check_cached_limits].
    destruct (inv_buckets _ _ Hinv _ _ {| rlk_chain_type := ct; rlk_rule_priority := priority r |} Hc)
      as (v & Hv & _); [rewrite Hkeys; by left|].
    destruct (check_rate_limit_done (at_rate ck 0) {| rlk_chain_type := ct; rlk_rule_priority := priority r |}
      1 1 false p1 ltac:(lia)) as (ok & m' & -> & Hused); [right; by exists v|].
    cbn [mbind outcome_bind]. destruct ok; cbn [mbind outcome_bind negb ce_acl_result e touch].
    + rewrite Hres. cbn [unwrap mbind outcome_bind]. do 2 eexists. split; [reflexivity|].
      split; [|left; split; [done|]; apply Hitems; by destruct (ce_conn_track_key cached)].
      apply Hfin; [by destruct (ce_conn_track_key cached) .. |]. right. eexists. split; [done|].
      by destruct (ce_conn_track_key cached).
    + do 2 eexists. split; [reflexivity|]. split; [|right; by split; [eexists|]].
      apply Hfin; [done | done |]. right. by eexists.
  - cbn [check_cached_limits mbind outcome_bind negb ce_acl_result e touch]. rewrite Hres.
    cbn [unwrap mbind outcome_bind]. do 2 eexists. split; [reflexivity|].
    split; [|left; split; [done|]; apply Hitems; by destruct (ce_conn_track_key cached)].
    apply Hfin; [by destruct (ce_conn_track_key cached) .. |]. left. by destruct (ce_conn_track_key cached).
Qed.

Lemma process_packet_outcome ck t t' pkt ct p :
  clock_ok t t' ck -> acl_inv t p -> ports_known pkt ->
  packet_outcome ck t' pkt ct p (process_packet instant_min ck pkt ct p).
Proof.
  intros Hck Hinv Hp. unfold process_packet.
  destruct (rule_cache p !! from_packet_info pkt ct) as [cached|] eqn:Ec;
    [by eapply process_cached_outcome|].
  destruct (rules_of ct p) as [rules|] eqn:Er.
  - rewrite process_rules_first_match. destruct (first_match rules pkt) as [r|] eqn:Ef.
    + by eapply process_rule_outcome.
    + by eapply process_default_outcome.
  - do 2 eexists. split; [reflexivity|]. split; [|left; unfold verdict, counted, counted_ids; by rewrite Er].
    eapply packet_post_limiter; try done. by left.
Qed.

(** *** Steps preserve the invariant *)

(** The cache and the limiters shrink, as long as no cached bucket is lost. *)
Lemma acl_inv_shrink t t' p p' :
  acl_inv t p -> t <= t' -> same_config p p' ->
  (forall k e, rule_cache p' !! k = Some e -> rule_cache p !! k = Some e) ->
  (forall rk v, rate_limiters p' !! rk = Some v -> exists v', rate_limiters p !! rk = Some v' /\ last_update v' = last_update v) ->
  (forall k e rk v, rule_cache p' !! k = Some e -> rate_limiters p !! rk = Some v ->
     ce_last_access e <= last_update v -> exists v', rate_limiters p' !! rk = Some v' /\ last_update v = last_update v') ->
  acl_inv t' p'.
Proof.
  intros [Hd Hb Ha Hu Hs Hc] Ht Hcfg Hcache Hback Hkeep.
  pose proof Hcfg as (_ & _ & _ & Hmax & Hint). split.
  - intros k e Hk. apply (describes_same_config _ _ _ _ Hcfg). eauto.
  - intros k e rk Hk Hrk. destruct (Hb _ _ _ (Hcache _ _ Hk) Hrk) as (v & Hv & Hle).
    destruct (Hkeep _ _ _ _ Hk Hv Hle) as (v' & Hv' & E). exists v'. split; [done | lia].
  - intros k e Hk. apply Hcache, Ha in Hk. lia.
  - intros rk v Hv. apply Hback in Hv as (v' & Hv' & E). apply Hu in Hv'. lia.
  - rewrite Hmax. etrans; [|exact Hs]. apply Nat2Z.inj_le, map_subseteq_size. by apply map_subseteq_spec.
  - by rewrite Hmax, Hint.
Qed.

Lemma acl_inv_new acl t ct rl st :
  (forall rk v, default ∅ rl !! rk = Some v -> last_update v <= t) ->
  acl_inv t (new_with_shared_state acl ct rl st).
Proof.
  intros Hrl. split; unfold new_with_shared_state; simpl; try done.
  all: intros *; rewrite lookup_empty; done.
Qed.

Lemma expiry_lower t0 t1 : t0 <= t1 -> t0 - 15 * SEC <= expiry instant_min t0 t1.
Proof. unfold expiry, SEC. destruct (_ <? _) eqn:E; lia. Qed.

Lemma packet_step_inv s ck pkt ct r p' t' :
  sys_inv s -> clock_ok (now s) t' ck -> ports_known pkt ->
  process_packet instant_min ck pkt ct (proc s) = Done (r, p') ->
  sys_inv {| proc := p'; now := t'; swept := swept s |}.
Proof.
  intros [Hi Hsw] Hck Hp E.
  destruct (process_packet_outcome _ _ _ _ ct _ Hck Hi Hp) as (r' & p1 & E' & Hpost & _).
  rewrite E in E'. injection E' as <- <-. split; [by eapply packet_post_inv|].
  intros t0 Hsome. destruct (Hsw t0 Hsome) as [Ht0 Hall]. destruct Hck as (Hck & Hrate & _).
  pose proof (Hrate 0%nat). cbn. split; [lia|]. intros k e Hk.
  apply (pp_cache _ _ _ _ Hpost) in Hk as [Hk|(_ & -> & _)]; [by eapply Hall|]. unfold SEC; lia.
Qed.

Lemma sweep_cache_inv s t0 t1 t' :
  sys_inv s -> now s <= t0 <= t1 -> t1 <= t' ->
  sys_inv {| proc := sweep_cache instant_min t0 t1 (proc s); now := t'; swept := Some t0 |}.
Proof.
  intros [Hi _] Ht Ht'. split; cbn.
  - eapply acl_inv_shrink; [exact Hi | lia | done | | by eauto | by eauto].
    cbn. intros k e Hk. by apply cleanup_cache_Some in Hk as [? _].
  - intros ? [= <-]. cbn. split; [lia|]. intros k e Hk. apply cleanup_cache_Some in Hk as [_ Hk].
    pose proof (expiry_lower t0 t1 ltac:(lia)). lia.
Qed.

Lemma sweep_limiters_inv s t0 now_of t' :
  sys_inv s -> swept s = Some t0 -> now s <= t' ->
  (forall k, now_of k <= t' /\ now_of k < t0 + 5 * SEC) ->
  sys_inv {| proc := sweep_limiters now_of (proc s); now := t'; swept := None |}.
Proof.
  intros [Hi Hsw] Hsome Ht Hnow. split; [|done]. cbn. destruct (Hsw t0 Hsome) as [Ht0 Hall].
  eapply acl_inv_shrink; [exact Hi | done | done | done | |].
  - cbn. intros rk v Hv. apply retain_Some in Hv as [Hv _]. eauto.
  - cbn. intros k e rk v Hk Hv Hle. exists v. split; [|done]. apply retain_Some. split; [done|].
    destruct (inv_consts _ _ Hi) as [_ ->]. destruct (Hnow rk) as [_ Hlt]. apply Hall in Hk.
    unfold SEC in *. lia.
Qed.

Lemma refill_limiter_inv s key micros :
  sys_inv s -> sys_inv {| proc := refill_limiter key micros (proc s); now := now s; swept := swept s |}.
Proof.
  intros [Hi Hsw]. split; [|exact Hsw]. cbn. eapply acl_inv_shrink; [exact Hi | done | done | done | |]; cbn.
  - intros rk v Hv. destruct (decide (rk = key)) as [->|Hne].
    + rewrite lookup_alter_eq in Hv. apply fmap_Some in Hv as (v' & Hv' & ->). by exists v'.
    + rewrite lookup_alter_ne in Hv by done. by exists v.
  - intros k e rk v _ Hv _. destruct (decide (rk = key)) as [->|Hne].
    + rewrite lookup_alter_eq, Hv. by eexists.
    + rewrite lookup_alter_ne by done. by exists v.
Qed.

Lemma acl_step_inv s s' : sys_inv s -> acl_step s s' -> sys_inv s'.
Proof.
  intros Hi Hstep. destruct Hstep as
    [s ck pkt ct r p' t' Hck Hp E | s t0 t1 t' Hnone Ht Ht' | s t0 now_of t' Hsome Ht Hnow
    | s current | s key micros | s key | s acl sh].
  - by eapply packet_step_inv.
  - by apply sweep_cache_inv.
  - by eapply sweep_limiters_inv.
  - destruct Hi as [Hi Hsw]. split; [|exact Hsw]. by eapply acl_inv_shrink; eauto.
  - by apply refill_limiter_inv.
  - destruct Hi as [Hi Hsw]. split; [|exact Hsw]. by eapply acl_inv_shrink; eauto.
  - destruct Hi as [Hi Hsw]. split; [|done]. apply acl_inv_new. apply Hi.
Qed.

Lemma acl_reachable_inv s : acl_reachable s -> sys_inv s.
Proof.
  induction 1 as [acl t|s s' _ IH Hs]; [|by eapply acl_step_inv].
  split; [|done]. by apply acl_inv_new.
Qed.

(** C40.  Whatever packets, sweeps, refills and reloads came before, a packet
    with the ports of its protocol is processed without a panic (in
    particular "Rate limit bucket not found" is never raised) and gets the
    verdict of the first enabled rule that matches it, or the chain's default
    action when none does; the only other answer is the drop of that rule's
    rate limiter.  A cached verdict therefore never differs from the rules'. *)
Theorem process_packet_first_match s ck t' pkt ct
    (Hr : acl_reachable s) (Hck : clock_ok (now s) t' ck) (Hp : ports_known pkt) :
  exists r p', process_packet instant_min ck pkt ct (proc s) = Done (r, p') /\
    (r = verdict (proc s) ct pkt \/ is_Some (limiting_rule (proc s) ct pkt) /\ rate_limited r).
Proof.
  destruct (process_packet_outcome ck (now s) t' pkt ct (proc s) Hck
    (sys_acl _ (acl_reachable_inv _ Hr)) Hp) as (r & p' & E & _ & Hv).
  exists r, p'. split; [done|]. naive_solver.
Qed.

(** The cache never holds more than twice its nominal 1024 entries; a
    sweep brings it down to 1024, and what it removes is either not accessed
    for fifteen seconds or no younger than anything it keeps. *)
Theorem rule_cache_bounded_lru s (Hr : acl_reachable s) :
  (size (rule_cache (proc s)) <= 2048)%nat /\
  forall t0 t1, (size (rule_cache (sweep_cache instant_min t0 t1 (proc s))) <= 1024)%nat /\
    forall k e k' e', rule_cache (proc s) !! k = Some e ->
      rule_cache (sweep_cache instant_min t0 t1 (proc s)) !! k = None ->
      rule_cache (sweep_cache instant_min t0 t1 (proc s)) !! k' = Some e' ->
      ce_last_access e <= expiry instant_min t0 t1 \/ ce_last_access e <= ce_last_access e'.
Proof.
  destruct (acl_reachable_inv _ Hr) as [Hi _]. destruct (inv_consts _ _ Hi) as [Hmax _].
  split; [pose proof (inv_size _ _ Hi); lia|]. intros t0 t1. unfold sweep_cache. cbn. rewrite Hmax. split.
  - pose proof (cleanup_cache_size instant_min t0 t1 1024 (rule_cache (proc s)) ltac:(lia)). lia.
  - intros k e k' e' Hk Hgone Hk'. destruct (Z.le_gt_cases (ce_last_access e) (expiry instant_min t0 t1)) as [|Hf]; [by left|].
    right. by eapply cleanup_cache_lru.
Qed.

(** A packet that is not dropped by a limiter is counted on the rule
    that decided it (or on the default rule): once, but twice when the rule
    has a rate limit, since its counter is then pushed twice onto the entry;
    a packet dropped by a limiter is counted nowhere. *)
Theorem rule_counters s ck t' pkt ct rules r p'
    (Hr : acl_reachable s) (Hck : clock_ok (now s) t' ck) (Hp : ports_known pkt)
    (Hrules : rules_of ct (proc s) = Some rules)
    (E : process_packet instant_min ck pkt ct (proc s) = Done (r, p')) :
  stat_items p' =
  match first_match rules pkt with
  | Some rule =>
      Nat.iter (if bool_decide (log_context r = Some RateLimitDrop) then 0%nat
                else if 0 <? rate_limit rule then 2%nat else 1%nat)
        (alter (bump (packet_size pkt)) (rule_stats rule)) (stat_items (proc s))
  | None => alter (bump (packet_size pkt)) (default_rule_stats (proc s)) (stat_items (proc s))
  end.
Proof.
  destruct (process_packet_outcome ck (now s) t' pkt ct (proc s) Hck
    (sys_acl _ (acl_reachable_inv _ Hr)) Hp) as (r' & p1 & E' & _ & Hv).
  rewrite E in E'. injection E' as <- <-.
  unfold counted, counted_ids, verdict, limiting_rule in Hv. rewrite Hrules in Hv. simpl in Hv.
  destruct (first_match rules pkt) as [rule|]; simpl in Hv.
  - destruct Hv as [[-> ->]|(_ & [_ Hl] & ->)].
    + unfold rule_verdict. by destruct (is_stateful rule), (0 <? rate_limit rule).
    + by rewrite bool_decide_eq_true_2.
  - destruct Hv as [[_ ->]|[[? ?] _]]; done.
Qed.
End system.

(** ** Instances *)

Section samples.
Existing Instance no_cidr.

(** An inbound chain: port 22 limited to five packets a second, burst two. *)
Definition limited_rule : Rule := {|
  rule_name := txt "ssh"; rule_description := []; rule_priority := 7; rule_enabled := true;
  rule_protocol := protocol_i32 Tcp; rule_ports := [txt "22"]; source_ips := []; destination_ips := [];
  source_ports := []; rule_action := action_i32 Allow; rule_rate_limit := 5; rule_burst_limit := 2;
  rule_stateful := true; rule_source_groups := []; rule_destination_groups := [] |}.
Definition limited_acl : Acl :=
  {| acl_v1 := Some {| chains := [sample_chain [limited_rule] Drop]; acl_group := None |} |}.
Definition sample_clock (t : Z) : Clock := {|
  at_access := t; at_rate := fun _ => t; at_created := 0; at_seen := 0;
  at_cleanup := t; at_cleanup_fallback := t |}.
Definition sample_sys : acl_sys := {| proc := new limited_acl; now := 0; swept := None |}.

Lemma sample_clock_ok t : 0 <= t -> clock_ok 0 t (sample_clock t).
Proof. unfold clock_ok; simpl; repeat split; lia. Qed.

Lemma process_packet_first_match_witness :
  exists r p', process_packet 0 (sample_clock 9) (sample_packet Tcp 22) Inbound (proc sample_sys) = Done (r, p') /\
    (r = verdict (proc sample_sys) Inbound (sample_packet Tcp 22) \/
     is_Some (limiting_rule (proc sample_sys) Inbound (sample_packet Tcp 22)) /\ rate_limited r).
Proof.
  apply (process_packet_first_match 0 sample_sys (sample_clock 9) 9).
  - apply reach_init.
  - apply sample_clock_ok. lia.
  - split; eexists; reflexivity.
Defined.

Lemma rule_cache_bounded_lru_witness : (size (rule_cache (proc sample_sys)) <= 2048)%nat.
Proof. exact (proj1 (rule_cache_bounded_lru 0 sample_sys (reach_init 0 limited_acl 0))). Defined.

Definition sample_run : outcome (AclResult * AclProcessor) :=
  process_packet 0 (sample_clock 9) (sample_packet Tcp 22) Inbound (proc sample_sys).

Definition sample_after : AclResult * AclProcessor :=
  match sample_run with
  | Done x => x
  | Panicked _ => (default_verdict Drop, proc sample_sys)
  end.

Lemma sample_run_done : sample_run = Done (sample_after.1, sample_after.2).
Proof.
  assert (is_done sample_run = true) as Hd by (vm_compute; reflexivity).
  unfold sample_after. by destruct sample_run as [[]|].
Qed.

(** One packet of 100 bytes is counted as two packets of 200 bytes. *)
Lemma rule_counters_witness :
  stat_items (sample_after.2) !! 0%nat = Some {| packet_count := 2; byte_count := 200 |}.
Proof.
  rewrite (rule_counters 0 sample_sys (sample_clock 9) 9 (sample_packet Tcp 22) Inbound
    (inbound_rules (new limited_acl)) (sample_after.1) (sample_after.2) (reach_init 0 limited_acl 0)
    ltac:(apply sample_clock_ok; lia) ltac:(split; eexists; reflexivity) eq_refl sample_run_done).
  vm_compute. reflexivity.
Defined.
End samples.
