(* ===== verification/AclFilter.v ===== *)
(** The ACL stage of the packet pipeline: [easytier/src/peers/acl_filter.rs].

    [AclFilter] holds the current processor, the enable flag and the QUIC port.
    [process_packet_with_acl] reads the IP headers with the [pnet] crate (the
    class [Pnet]), picks the chain, asks the processor and keeps the global
    counters.  The theorems: which packets pass and why, that the counters
    balance, and what a hot reload keeps. *)

From stdpp Require Import base numbers list gmap strings.
From S2P Require Import Prelude Text PacketDef TokenBucket AclRules AclProcessor.
Open Scope Z_scope.

(** What the code uses of [pnet]: checked views and their accessors.  A failed
    [new] (a buffer shorter than the header) is [None]. *)
Class Pnet := {
  Ipv4Packet : Type;
  ipv4_new : bytes -> option Ipv4Packet;
  ipv4_version : Ipv4Packet -> Z;
  ipv4_source : Ipv4Packet -> Z;
  ipv4_destination : Ipv4Packet -> Z;
  ipv4_next_level_protocol : Ipv4Packet -> Z;
  ipv4_payload : Ipv4Packet -> bytes;
  Ipv6Packet : Type;
  ipv6_new : bytes -> option Ipv6Packet;
  ipv6_source : Ipv6Packet -> Z;
  ipv6_destination : Ipv6Packet -> Z;
  ipv6_next_header : Ipv6Packet -> Z;
  ipv6_payload : Ipv6Packet -> bytes;
  TcpPacket : Type;
  tcp_new : bytes -> option TcpPacket;
  tcp_source : TcpPacket -> Z;
  tcp_destination : TcpPacket -> Z;
  UdpPacket : Type;
  udp_new : bytes -> option UdpPacket;
  udp_source : UdpPacket -> Z;
  udp_destination : UdpPacket -> Z
}.

(** The protocol numbers of [IpNextHeaderProtocols]. *)
Definition PROTO_ICMP : Z := 1.
Definition PROTO_TCP : Z := 6.
Definition PROTO_UDP : Z := 17.
Definition PROTO_ICMPV6 : Z := 58.

Section filter.
Context `{CidrLib} `{Pnet} `{!IterOrder AclCacheKey AclCacheEntry} `{!IterOrder text ConnTrackEntry}.
Variable instant_min : Z.
(** [Route::get_peer_groups]. *)
Variable get_peer_groups : Z -> list text.

Record AclFilter := { acl_processor : AclProcessor; acl_enabled : bool; quic_udp_port : Z }.

Definition acl_filter_new : AclFilter :=
  {| acl_processor := new acl_default; acl_enabled := false; quic_udp_port := 0 |}.

Definition reload_rules (acl_config : option Acl) (f : AclFilter) : AclFilter :=
  match acl_config with
  | None => {| acl_processor := acl_processor f; acl_enabled := false; quic_udp_port := quic_udp_port f |}
  | Some acl_config =>
      let shared := get_shared_state (acl_processor f) in
      {| acl_processor := new_with_shared_state acl_config (Some (sh_conn_track shared))
                            (Some (sh_rate_limiters shared)) (Some (sh_stats shared));
         acl_enabled := true; quic_udp_port := quic_udp_port f |}
  end.

Definition set_quic_udp_port (port : Z) (f : AclFilter) : AclFilter :=
  {| acl_processor := acl_processor f; acl_enabled := acl_enabled f; quic_udp_port := port |}.

Record AclStats := {
  stats_global : gmap string Z; stats_conn_track : list ConnTrackEntry;
  stats_rules : list (option StatItem)
}.

Definition get_acl_stats (f : AclFilter) : AclStats :=
  let processor := acl_processor f in
  {| stats_global := get_stats processor;
     stats_conn_track := (map_iter (sh_conn_track (get_shared_state processor))).*2;
     stats_rules := get_rules_stats processor |}.

(** The ports of a transport segment; [None] when the segment is too short. *)
Definition transport_ports (protocol : Z) (segment : bytes) : option (option Z * option Z) :=
  if protocol =? PROTO_TCP then
    t ← tcp_new segment; Some (Some (tcp_source t), Some (tcp_destination t))
  else if protocol =? PROTO_UDP then
    u ← udp_new segment; Some (Some (udp_source u), Some (udp_destination u))
  else Some (None, None).

Definition acl_protocol (protocol : Z) : Protocol :=
  if protocol =? PROTO_TCP then Tcp
  else if protocol =? PROTO_UDP then Udp
  else if protocol =? PROTO_ICMP then Icmp
  else if protocol =? PROTO_ICMPV6 then IcmpV6
  else Unspecified.

(** The addresses, ports and protocol number of the IP packet. *)
Definition parse_ip (pl : bytes) : option (IpAddr * IpAddr * (option Z * option Z) * Z) :=
  ip4 ← ipv4_new pl;
  if ipv4_version ip4 =? 4 then
    let protocol := ipv4_next_level_protocol ip4 in
    ports ← transport_ports protocol (ipv4_payload ip4);
    Some (V4 (ipv4_source ip4), V4 (ipv4_destination ip4), ports, protocol)
  else if ipv4_version ip4 =? 6 then
    ip6 ← ipv6_new pl;
    let protocol := ipv6_next_header ip6 in
    ports ← transport_ports protocol (ipv6_payload ip6);
    Some (V6 (ipv6_source ip6), V6 (ipv6_destination ip6), ports, protocol)
  else None.

Definition groups_of (peer : option Z) : list text :=
  match peer with Some peer_id => get_peer_groups peer_id | None => [] end.

Definition extract_packet_info (packet : ZCPacket) : outcome (option PacketInfo) :=
  pl ← payload packet;
  match parse_ip pl with
  | None => Done None
  | Some (src, dst, (sp, dp), protocol) =>
      src_peer ← get_src_peer_id packet;
      dst_peer ← get_dst_peer_id packet;
      Done (Some {| src_ip := src; dst_ip := dst; src_port := sp; dst_port := dp;
                    pkt_protocol := acl_protocol protocol; packet_size := len pl;
                    src_groups := groups_of src_peer; dst_groups := groups_of dst_peer |})
  end.

Definition handle_acl_result (result : AclResult) (chain_type : ChainType) (p : AclProcessor)
    : AclProcessor :=
  let '(global, ty) :=
    match res_action result with
    | Allow => (PacketsAllowed, Allowed)
    | Drop => (PacketsDropped, Dropped)
    | Noop => (PacketsNoop, NoopStat)
    end in
  let p := increment_stat global p in
  let p := increment_stat (from_chain_and_action chain_type ty) p in
  let p := increment_stat (from_chain_and_action chain_type Total) p in
  increment_stat PacketsTotal p.

(** [ip == my_ip.unwrap_or(UNSPECIFIED)] for either family. *)
Definition is_my_ip (my_ipv4 my_ipv6 : option Z) (ip : IpAddr) : bool :=
  bool_decide (ip = V4 (default 0 my_ipv4)) || bool_decide (ip = V6 (default 0 my_ipv6)).

Definition check_is_quic_packet (f : AclFilter) (info : PacketInfo) (my_ipv4 my_ipv6 : option Z) : bool :=
  if negb (bool_decide (pkt_protocol info = Udp)) then false
  else
    let quic_port := quic_udp_port f in
    if quic_port =? 0 then false
    else if bool_decide (dst_port info = Some quic_port) && is_my_ip my_ipv4 my_ipv6 (dst_ip info) then true
    else if bool_decide (src_port info = Some quic_port) && is_my_ip my_ipv4 my_ipv6 (src_ip info) then true
    else false.

Definition chain_for (is_in : bool) (my_ipv4 my_ipv6 : option Z) (info : PacketInfo) : ChainType :=
  if is_in then if is_my_ip my_ipv4 my_ipv6 (dst_ip info) then Inbound else Forward
  else Outbound.

Definition process_packet_with_acl (ck : Clock) (packet : ZCPacket) (is_in : bool)
    (my_ipv4 my_ipv6 : option Z) (f : AclFilter) : outcome (bool * AclFilter) :=
  if negb (acl_enabled f) then Done (true, f)
  else
    h ← peer_manager_header packet;
    hdr ← unwrap h;
    if negb (pm_packet_type hdr =? packet_type_u8 PktData) then Done (true, f)
    else
      info ← extract_packet_info packet;
      match info with
      | None => Done (true, f)
      | Some info =>
          if check_is_quic_packet f info my_ipv4 my_ipv6 then Done (true, f)
          else
            let chain_type := chain_for is_in my_ipv4 my_ipv6 info in
            '(result, p) ← process_packet instant_min ck info chain_type (acl_processor f);
            let f := {| acl_processor := handle_acl_result result chain_type p;
                        acl_enabled := acl_enabled f; quic_udp_port := quic_udp_port f |} in
            Done (match res_action result with Allow | Noop => true | Drop => false end, f)
      end.

(** ** Which packets pass *)

Lemma transport_ports_known protocol seg sp dp :
  transport_ports protocol seg = Some (sp, dp) ->
  if bool_decide (acl_protocol protocol = Tcp) || bool_decide (acl_protocol protocol = Udp)
  then is_Some sp /\ is_Some dp else sp = None /\ dp = None.
Proof.
  unfold transport_ports, acl_protocol. intros Hp.
  destruct (protocol =? PROTO_TCP); [|destruct (protocol =? PROTO_UDP)]; simpl.
  - destruct (tcp_new seg); simplify_option_eq. split; by eexists.
  - destruct (udp_new seg); simplify_option_eq. split; by eexists.
  - destruct (protocol =? PROTO_ICMP); [|destruct (protocol =? PROTO_ICMPV6)]; simpl; by simplify_eq.
Qed.

Lemma extract_ports_known packet info :
  extract_packet_info packet = Done (Some info) -> ports_known info.
Proof.
  unfold extract_packet_info. destruct (payload packet) as [x|]; [|done]. cbn [mbind outcome_bind].
  destruct (parse_ip x) as [[[[src dst] [sp dp]] protocol]|] eqn:Ep; intros E; inv_outcome; [|done].
  apply (transport_ports_known protocol) with (seg := match ipv4_new x with
    | Some ip4 => if ipv4_version ip4 =? 4 then ipv4_payload ip4
                  else match ipv6_new x with Some ip6 => ipv6_payload ip6 | None => [] end
    | None => [] end).
  unfold parse_ip in Ep. destruct (ipv4_new x) as [ip4|]; [|done]. simpl in Ep.
  destruct (ipv4_version ip4 =? 4).
  - destruct (transport_ports _ (ipv4_payload ip4)) as [[]|] eqn:Et; [|done]. by simplify_eq/=.
  - destruct (ipv4_version ip4 =? 6); [|done]. destruct (ipv6_new x) as [ip6|]; [|done]. simpl in Ep.
    destruct (transport_ports _ (ipv6_payload ip6)) as [[]|] eqn:Et; [|done]. by simplify_eq/=.
Qed.

(** A packet with a header has a payload, and its peers can be read. *)
Lemma extract_total packet hdr :
  peer_manager_header packet = Done (Some hdr) -> exists info, extract_packet_info packet = Done info.
Proof.
  intros Hh. unfold extract_packet_info, get_src_peer_id, get_dst_peer_id. rewrite Hh.
  assert (exists pl, payload packet = Done pl) as [pl ->].
  { unfold peer_manager_header, slice_from in Hh. unfold payload, slice_from.
    destruct (bool_decide_reflect (0 <= pm_offset packet <= len (inner packet))) as [Hb|]; [|done].
    injection Hh as Hh. unfold ref_from_prefix in Hh. destruct (_ <? _) eqn:El; [done|].
    assert (payload_offset packet = pm_offset packet + 16) as Hoff
      by (unfold payload_offset, pm_offset; by destruct (packet_type packet)).
    change (Z.of_nat size_of) with 16 in El. unfold len in *. rewrite length_drop in El.
    rewrite bool_decide_eq_true_2 by lia. by eexists. }
  simpl. destruct (parse_ip pl) as [[[[? ?] [? ?]] ?]|]; by eexists.
Qed.

(** A packet with a peer-manager header never makes the filter panic.
    It is dropped only if the filter is on, it is a data packet whose headers
    parse and that is not our own QUIC traffic, and the rules of its chain
    drop it or its rule's limiter is exhausted; it passes only if one of the
    bypasses applies or the first matching rule (or default) does not drop it. *)
Theorem acl_filter_decision s f ck t' packet hdr is_in v4 v6
    (Hs : acl_reachable instant_min s) (Hf : acl_processor f = proc s) (Hck : clock_ok (now s) t' ck)
    (Hh : peer_manager_header packet = Done (Some hdr)) :
  exists b f', process_packet_with_acl ck packet is_in v4 v6 f = Done (b, f') /\
    (b = false -> acl_enabled f = true /\ pm_packet_type hdr = packet_type_u8 PktData /\
       exists info, extract_packet_info packet = Done (Some info) /\
         check_is_quic_packet f info v4 v6 = false /\
         (res_action (verdict (acl_processor f) (chain_for is_in v4 v6 info) info) = Drop \/
          is_Some (limiting_rule (acl_processor f) (chain_for is_in v4 v6 info) info))) /\
    (b = true -> acl_enabled f = false \/ pm_packet_type hdr <> packet_type_u8 PktData \/
       extract_packet_info packet = Done None \/
       exists info, extract_packet_info packet = Done (Some info) /\
         (check_is_quic_packet f info v4 v6 = true \/
          res_action (verdict (acl_processor f) (chain_for is_in v4 v6 info) info) <> Drop)).
Proof.
  unfold process_packet_with_acl.
  destruct (acl_enabled f) eqn:Ee; cbn [negb]; [|do 2 eexists; split; [done|]; split; [done|]; by left].
  rewrite Hh. cbn [mbind outcome_bind unwrap].
  destruct (pm_packet_type hdr =? packet_type_u8 PktData) eqn:Et; cbn [negb];
    [|do 2 eexists; split; [done|]; split; [done|]; right; left; lia].
  destruct (extract_total _ _ Hh) as [info Hi]. rewrite Hi. cbn [mbind outcome_bind].
  destruct info as [info|]; [|do 2 eexists; split; [done|]; split; [done|]; by eauto].
  destruct (check_is_quic_packet f info v4 v6) eqn:Eq;
    [do 2 eexists; split; [done|]; split; [done|]; by eauto 10|].
  set (ct := chain_for is_in v4 v6 info).
  destruct (process_packet_outcome instant_min ck (now s) t' info ct (proc s) Hck
    (sys_acl _ (acl_reachable_inv _ _ Hs)) (extract_ports_known _ _ Hi)) as (r & p' & E & _ & Hv).
  rewrite Hf, E. cbn [mbind outcome_bind]. do 2 eexists. split; [reflexivity|].
  assert (res_action r = res_action (verdict (proc s) ct info) \/
          res_action r = Drop /\ is_Some (limiting_rule (proc s) ct info)) as Hact.
  { destruct Hv as [[-> _]|(? & [? _] & _)]; [by left | by right]. }
  subst ct. split; intros Hb.
  - split; [done|]. split; [lia|]. exists info. split; [done|]. split; [done|].
    destruct Hact as [<-|[_ ?]]; [left | by right]. by destruct (res_action r).
  - right; right; right. exists info. split; [done|]. right.
    destruct Hact as [<-|[Hd _]]; [|by rewrite Hd in Hb]. by destruct (res_action r).
Qed.

(** ** Counters *)

Definition stat (p : AclProcessor) (k : AclStatKey) : Z := default 0 (stats p !! k).

(** Every packet counted as processed was counted as allowed, dropped or
    neither, in total and per chain (counters are [u64]s that wrap). *)
Definition balanced (p : AclProcessor) : Prop :=
  (forall k, in_width 64 (stat p k)) /\
  stat p PacketsTotal = as_u64 (stat p PacketsAllowed + stat p PacketsDropped + stat p PacketsNoop) /\
  forall c, stat p (from_chain_and_action c Total) =
    as_u64 (stat p (from_chain_and_action c Allowed) + stat p (from_chain_and_action c Dropped) +
            stat p (from_chain_and_action c NoopStat)).

Lemma stat_increment k j p :
  stat (increment_stat k p) j = if decide (k = j) then as_u64 (stat p k + 1) else stat p j.
Proof.
  unfold stat, increment_stat. cbn. rewrite lookup_upsert. case_decide as E; [|done]. subst.
  by destruct (stats p !! j).
Qed.

Lemma increment_stat_width k p :
  (forall j, in_width 64 (stat p j)) -> forall j, in_width 64 (stat (increment_stat k p) j).
Proof.
  intros Hw j. rewrite stat_increment. case_decide; [|done]. apply wrap_in_width. lia.
Qed.

(** [process_packet] touches none of these counters. *)
Definition internal_counters : list AclStatKey := [CacheHits; RuleMatches; DefaultAllows; DefaultDrops].

Definition keeps_counters (p p' : AclProcessor) : Prop :=
  (forall k, k ∉ internal_counters -> stat p' k = stat p k) /\
  ((forall k, in_width 64 (stat p k)) -> forall k, in_width 64 (stat p' k)).

#[global] Instance keeps_counters_preorder : PreOrder keeps_counters.
Proof.
  split; [by split|]. intros p q r [H1 H2] [H3 H4]. split; [|auto]. intros k Hk. by rewrite H3, H1.
Qed.

Lemma keeps_counters_stats p p' : stats p' = stats p -> keeps_counters p p'.
Proof. intros E. unfold keeps_counters, stat. by rewrite E. Qed.

Lemma keeps_counters_increment k p : k ∈ internal_counters -> keeps_counters p (increment_stat k p).
Proof.
  intros Hk. split; [|apply increment_stat_width]. intros j Hj.
  unfold stat, increment_stat. cbn. rewrite lookup_upsert. by case_decide; subst.
Qed.

Lemma check_rate_limit_stats t key rate burst create p b p' :
  check_rate_limit t key rate burst create p = Done (b, p') -> stats p' = stats p.
Proof.
  unfold check_rate_limit. destruct (rate =? 0); [by intros [= _ <-]|]. intros E. inv_outcome.
  destruct (try_consume 1 _). by inv_outcome.
Qed.

Lemma check_cached_limits_stats ck keys : forall i p b p',
  check_cached_limits i ck keys p = Done (b, p') -> stats p' = stats p.
Proof.
  induction keys as [|key keys IH]; intros i p b p' E; cbn [check_cached_limits] in E.
  - by injection E as _ <-.
  - apply bind_Done in E as ([ok p1] & E1 & E2). apply check_rate_limit_stats in E1. rewrite <- E1.
    destruct ok; [by eapply IH|]. by injection E2 as _ <-.
Qed.

Lemma process_rule_counters ck pkt ct key rule entry p r p' :
  process_rule instant_min ck pkt ct key rule entry p = Done (r, p') -> keeps_counters p p'.
Proof.
  unfold process_rule. intros E. apply bind_Done in E as ([ok p1] & E1 & E2).
  assert (stats p1 = stats p) as Hs.
  { destruct (0 <? rate_limit rule); [by eapply check_rate_limit_stats|]. by injection E1 as _ <-. }
  transitivity p1; [by apply keeps_counters_stats|]. destruct ok; cbn [negb] in E2.
  - transitivity (increment_stat RuleMatches p1); [apply keeps_counters_increment; set_solver|].
    destruct (stateful rule && _); cbn [unwrap ce_acl_result mbind outcome_bind] in E2;
      injection E2 as _ <-; by apply keeps_counters_stats.
  - by injection E2 as _ <-.
Qed.

Lemma process_packet_counters ck pkt ct p r p' :
  process_packet instant_min ck pkt ct p = Done (r, p') -> keeps_counters p p'.
Proof.
  unfold process_packet. destruct (rule_cache p !! _) as [cached|].
  - set (p1 := increment_stat _ _). intros E.
    transitivity p1; [exact (keeps_counters_increment CacheHits
      (with_rule_cache _ p) ltac:(set_solver))|].
    apply bind_Done in E as ([ok p2] & E1 & E2). apply check_cached_limits_stats in E1.
    apply keeps_counters_stats. rewrite <- E1. destruct ok; cbn [negb] in E2.
    + apply bind_Done in E2 as (res & _ & E2). injection E2 as _ <-.
      by destruct (ce_conn_track_key _).
    + by injection E2 as _ <-.
  - destruct (rules_of ct p) as [rules|]; [|by intros [= _ <-]].
    rewrite process_rules_first_match. destruct (first_match rules pkt); [apply process_rule_counters|].
    unfold process_default. cbn [unwrap ce_acl_result mbind outcome_bind]. set (k := if bool_decide _ then DefaultDrops else _).
    intros [= _ <-]. transitivity (increment_stat k p); [|by apply keeps_counters_stats].
    apply keeps_counters_increment. unfold k. case_bool_decide; set_solver.
Qed.

Lemma balanced_keeps p p' : keeps_counters p p' -> balanced p -> balanced p'.
Proof.
  intros [Hk Hw] (H1 & H2 & H3). split; [by apply Hw|]. split.
  - rewrite !Hk by set_solver. done.
  - intros c. rewrite !Hk by (destruct c; set_solver). done.
Qed.

(** One more on one side is one more in total. *)
Lemma wrap_succ t a b c :
  t = as_u64 (a + b + c) ->
  as_u64 (t + 1) = as_u64 (as_u64 (a + 1) + b + c) /\
  as_u64 (t + 1) = as_u64 (a + as_u64 (b + 1) + c) /\
  as_u64 (t + 1) = as_u64 (a + b + as_u64 (c + 1)).
Proof.
  intros ->. unfold wrap. set (n := 2 ^ 64). rewrite Zplus_mod_idemp_l. split_and!.
  - rewrite <- (Z.add_assoc ((a + 1) mod n) b c), Zplus_mod_idemp_l. f_equal; lia.
  - replace (a + (b + 1) mod n + c) with ((b + 1) mod n + (a + c)) by lia.
    rewrite Zplus_mod_idemp_l. f_equal; lia.
  - rewrite Zplus_mod_idemp_r. f_equal; lia.
Qed.

Lemma balanced_handle r ct p : balanced p -> balanced (handle_acl_result r ct p).
Proof.
  intros (H1 & H2 & H3). unfold handle_acl_result.
  pose proof (wrap_succ _ _ _ _ H2) as (Ha & Hb & Hc).
  pose proof (wrap_succ _ _ _ _ (H3 ct)) as (Ha' & Hb' & Hc').
  destruct (res_action r); (split; [repeat apply increment_stat_width; done|]);
    (split; [|intros c; specialize (H3 c)]); rewrite !stat_increment;
    destruct ct; try destruct c; cbn [from_chain_and_action] in *;
    repeat (case_decide; [try discriminate|try contradiction]); congruence.
Qed.

(** The life of a filter: packets, reloads, a new QUIC port and the
    processor's background tasks, in any order. *)
Definition set_processor (p : AclProcessor) (f : AclFilter) : AclFilter :=
  {| acl_processor := p; acl_enabled := acl_enabled f; quic_udp_port := quic_udp_port f |}.

Inductive filter_step : AclFilter -> AclFilter -> Prop :=
| fs_packet f ck packet is_in v4 v6 b f' :
    process_packet_with_acl ck packet is_in v4 v6 f = Done (b, f') -> filter_step f f'
| fs_reload f acl : filter_step f (reload_rules acl f)
| fs_port f port : filter_step f (set_quic_udp_port port f)
| fs_sweep_cache f t t' : filter_step f (set_processor (sweep_cache instant_min t t' (acl_processor f)) f)
| fs_sweep_limiters f t : filter_step f (set_processor (sweep_limiters t (acl_processor f)) f)
| fs_sweep_connections f t : filter_step f (set_processor (sweep_connections t (acl_processor f)) f)
| fs_refill f k t : filter_step f (set_processor (refill_limiter k t (acl_processor f)) f).

Inductive filter_reachable : AclFilter -> Prop :=
| filter_init : filter_reachable acl_filter_new
| filter_next f f' : filter_reachable f -> filter_step f f' -> filter_reachable f'.

Lemma packet_step_balanced ck packet is_in v4 v6 f b f' :
  process_packet_with_acl ck packet is_in v4 v6 f = Done (b, f') ->
  balanced (acl_processor f) -> balanced (acl_processor f').
Proof.
  unfold process_packet_with_acl. destruct (acl_enabled f) eqn:Ee; cbn [negb]; [|by intros [= _ <-]].
  intros E Hb. apply bind_Done in E as (h & _ & E). apply bind_Done in E as (hdr & _ & E).
  destruct (pm_packet_type hdr =? _); cbn [negb] in E; [|by injection E as _ <-].
  apply bind_Done in E as ([info|] & _ & E); [|by injection E as _ <-].
  destruct (check_is_quic_packet f info v4 v6); [by injection E as _ <-|].
  apply bind_Done in E as ([r p] & E1 & E). injection E as _ <-.
  apply balanced_handle. eapply balanced_keeps; [by eapply process_packet_counters | done].
Qed.

(** In every reachable state of the filter the packets counted in total
    are those counted as allowed, dropped and neither, globally and for every
    chain, also across hot reloads. *)
Theorem acl_counters_balance f (Hr : filter_reachable f) : balanced (acl_processor f).
Proof.
  induction Hr as [|f f' _ IH Hs].
  - split; [|split; [|intros c]]; unfold stat; simpl; intros; by rewrite ?lookup_empty.
  - destruct Hs as [f ck packet is_in v4 v6 b f' E|f [acl|]|f port|f t t'|f t|f t|f k t]; try exact IH.
    by eapply packet_step_balanced.
Qed.

(** A hot reload switches the filter on, replaces the rules, defaults
    and cache by those of a fresh processor for the new configuration, and
    keeps connections, limiters and counters.  A limiter that exists is kept
    with its old capacity and fill rate: a later packet of a rule with the
    same chain and priority is limited by them whatever the new rule says. *)
Theorem reload_rules_spec acl f :
  let f' := reload_rules (Some acl) f in
  acl_enabled f' = true /\
  get_shared_state (acl_processor f') = get_shared_state (acl_processor f) /\
  (forall ct, rules_of ct (acl_processor f') = rules_of ct (new acl) /\
              default_of ct (acl_processor f') = default_action_for ct acl \/ ct = UnspecifiedChain) /\
  rule_cache (acl_processor f') = ∅ /\
  forall t key rate burst v, rate_limiters (acl_processor f) !! key = Some v -> rate <> 0 ->
    exists b p' v', check_rate_limit t key rate burst true (acl_processor f') = Done (b, p') /\
      rate_limiters p' !! key = Some v' /\ config (token_bucket v') = config (token_bucket v).
Proof.
  split_and!; try done.
  - intros []; [by right | by left ..].
  - intros t key rate burst v Hv Hr. unfold check_rate_limit.
    rewrite (proj2 (Z.eqb_neq rate 0)) by done. cbn. rewrite Hv. cbn [mbind outcome_bind].
    destruct (try_consume 1 (token_bucket v)) as [ok b] eqn:Ec. do 3 eexists. split; [reflexivity|].
    cbn. rewrite lookup_insert_eq. split; [reflexivity|]. cbn.
    unfold try_consume in Ec. repeat destruct (_ <? _); by injection Ec as _ <-.
Qed.
End filter.

(** ** Instances *)

(** The wire layout of the headers, as [pnet] documents it: a view needs the
    fixed header, fields are big-endian. *)
Definition be_val (l : bytes) : Z := le_val (reverse l).
Definition view (n : nat) (l : bytes) : option bytes := if (length l <? n)%nat then None else Some l.

#[local] Instance wire_pnet : Pnet := {|
  Ipv4Packet := bytes; ipv4_new := view 20;
  ipv4_version := fun l => default 0 (head l) / 16;
  ipv4_source := fun l => be_val (take 4 (drop 12 l));
  ipv4_destination := fun l => be_val (take 4 (drop 16 l));
  ipv4_next_level_protocol := fun l => default 0 (l !! 9%nat);
  ipv4_payload := fun l => drop (4 * Z.to_nat (default 0 (head l) mod 16)) l;
  Ipv6Packet := bytes; ipv6_new := view 40;
  ipv6_source := fun l => be_val (take 16 (drop 8 l));
  ipv6_destination := fun l => be_val (take 16 (drop 24 l));
  ipv6_next_header := fun l => default 0 (l !! 6%nat);
  ipv6_payload := drop 40;
  TcpPacket := bytes; tcp_new := view 20;
  tcp_source := fun l => be_val (take 2 l); tcp_destination := fun l => be_val (take 2 (drop 2 l));
  UdpPacket := bytes; udp_new := view 8;
  udp_source := fun l => be_val (take 2 l); udp_destination := fun l => be_val (take 2 (drop 2 l))
|}.

Section samples.
Existing Instance no_cidr.

(** A data packet from peer 1 to peer 2: UDP 10.0.0.1:5000 to 10.0.0.2:53. *)
Definition udp_to_53 : bytes :=
  [69; 0; 0; 28; 0; 0; 0; 0; 64; 17; 0; 0; 10; 0; 0; 1; 10; 0; 0; 2; 19; 136; 0; 53; 0; 8; 0; 0].
Definition sample_header : PeerManagerHeader := {|
  from_peer_id := 1; to_peer_id := 2; pm_packet_type := packet_type_u8 PktData; pm_flags := 0;
  forward_counter := 1; reserved := 0; pm_len := 28 |}.
Definition sample_zc : ZCPacket := mkZC (as_bytes sample_header ++ udp_to_53) DummyTunnel.
Definition sample_filter : AclFilter := reload_rules (Some limited_acl) acl_filter_new.

Lemma acl_filter_decision_witness :
  exists f', process_packet_with_acl 0 (fun _ => []) (sample_clock 9) sample_zc true (Some 167772162) None
               sample_filter = Done (false, f').
Proof.
  destruct (acl_filter_decision 0 (fun _ => []) sample_sys sample_filter (sample_clock 9) 9 sample_zc
    sample_header true (Some 167772162) None (reach_init 0 limited_acl 0) eq_refl
    ltac:(apply sample_clock_ok; lia) ltac:(vm_compute; reflexivity)) as (b & f' & E & _ & Hpass).
  exists f'. rewrite E. destruct b; [exfalso|reflexivity].
  destruct (Hpass eq_refl) as [Hx|[Hx|[Hx|(info & Hi & Hx)]]].
  - discriminate Hx.
  - by apply Hx.
  - vm_compute in Hx. discriminate Hx.
  - vm_compute in Hi. injection Hi as <-. destruct Hx as [Hx|Hx]; [vm_compute in Hx; discriminate Hx|].
    apply Hx. vm_compute. reflexivity.
Defined.

Lemma acl_counters_balance_witness : balanced (acl_processor sample_filter).
Proof.
  apply (acl_counters_balance 0 (fun _ => []) sample_filter).
  apply (filter_next _ _ acl_filter_new); [constructor | apply fs_reload].
Defined.

Lemma reload_rules_spec_witness :
  rules_of Inbound (acl_processor sample_filter) = rules_of Inbound (new limited_acl).
Proof.
  destruct (reload_rules_spec limited_acl acl_filter_new) as (_ & _ & Hr & _).
  destruct (Hr Inbound) as [[E _]|E]; [exact E | discriminate E].
Defined.
End samples.
