(* ===== verification/StatsManager.v ===== *)
(** Statistics: [easytier/src/common/stats_manager.rs].

    A counter is an [Arc<MetricData>] shared between the manager's table and
    any number of [CounterHandle]s.  The model keeps the counters in a store of
    addresses, so that handles alias: the table maps a key to an address and a
    handle is an address and a key.  Updates are modelled one at a time (the
    code forbids concurrent access to one counter).

    The theorems: label sets do not depend on the order labels are added;
    handles and table agree on a counter as long as it is in the table, and a
    handle whose entry the cleanup removed counts into the void; the Prometheus
    export has one block per metric name and does not depend on the iteration
    order of the table. *)

From stdpp Require Import base numbers list gmap strings sorting.
From S2P Require Import Prelude Text.
Open Scope Z_scope.

(** ** Names and labels *)

Inductive MetricName :=
| PeerRpcClientTx | PeerRpcClientRx | PeerRpcServerTx | PeerRpcServerRx | PeerRpcDuration |
  PeerRpcErrors | TrafficBytesTx | TrafficBytesRx | TrafficBytesForwarded | TrafficBytesSelfTx |
  TrafficBytesSelfRx | TrafficBytesForeignForwardRx | TrafficBytesForeignForwardTx |
  TrafficBytesForeignForwardForwarded | TrafficPacketsTx | TrafficPacketsRx |
  TrafficPacketsForwarded | TrafficPacketsSelfTx | TrafficPacketsSelfRx |
  TrafficPacketsForeignForwardRx | TrafficPacketsForeignForwardTx |
  TrafficPacketsForeignForwardForwarded | CompressionBytesRxBefore | CompressionBytesRxAfter |
  CompressionBytesTxBefore | CompressionBytesTxAfter | TcpProxyConnect.

Definition metric_name_display (m : MetricName) : string :=
  match m with
  | PeerRpcClientTx => "peer_rpc_client_tx"
  | PeerRpcClientRx => "peer_rpc_client_rx"
  | PeerRpcServerTx => "peer_rpc_server_tx"
  | PeerRpcServerRx => "peer_rpc_server_rx"
  | PeerRpcDuration => "peer_rpc_duration_ms"
  | PeerRpcErrors => "peer_rpc_errors"
  | TrafficBytesTx => "traffic_bytes_tx"
  | TrafficBytesRx => "traffic_bytes_rx"
  | TrafficBytesForwarded => "traffic_bytes_forwarded"
  | TrafficBytesSelfTx => "traffic_bytes_self_tx"
  | TrafficBytesSelfRx => "traffic_bytes_self_rx"
  | TrafficBytesForeignForwardRx => "traffic_bytes_foreign_forward_rx"
  | TrafficBytesForeignForwardTx => "traffic_bytes_foreign_forward_tx"
  | TrafficBytesForeignForwardForwarded => "traffic_bytes_foreign_forward_forwarded"
  | TrafficPacketsTx => "traffic_packets_tx"
  | TrafficPacketsRx => "traffic_packets_rx"
  | TrafficPacketsForwarded => "traffic_packets_forwarded"
  | TrafficPacketsSelfTx => "traffic_packets_self_tx"
  | TrafficPacketsSelfRx => "traffic_packets_self_rx"
  | TrafficPacketsForeignForwardRx => "traffic_packets_foreign_forward_rx"
  | TrafficPacketsForeignForwardTx => "traffic_packets_foreign_forward_tx"
  | TrafficPacketsForeignForwardForwarded => "traffic_packets_foreign_forward_forwarded"
  | CompressionBytesRxBefore => "compression_bytes_rx_before"
  | CompressionBytesRxAfter => "compression_bytes_rx_after"
  | CompressionBytesTxBefore => "compression_bytes_tx_before"
  | CompressionBytesTxAfter => "compression_bytes_tx_after"
  | TcpProxyConnect => "tcp_proxy_connect"
  end.

Definition all_metric_names : list MetricName :=
  [PeerRpcClientTx; PeerRpcClientRx; PeerRpcServerTx; PeerRpcServerRx; PeerRpcDuration;
    PeerRpcErrors; TrafficBytesTx; TrafficBytesRx; TrafficBytesForwarded; TrafficBytesSelfTx;
    TrafficBytesSelfRx; TrafficBytesForeignForwardRx; TrafficBytesForeignForwardTx;
    TrafficBytesForeignForwardForwarded; TrafficPacketsTx; TrafficPacketsRx;
    TrafficPacketsForwarded; TrafficPacketsSelfTx; TrafficPacketsSelfRx;
    TrafficPacketsForeignForwardRx; TrafficPacketsForeignForwardTx;
    TrafficPacketsForeignForwardForwarded; CompressionBytesRxBefore; CompressionBytesRxAfter;
    CompressionBytesTxBefore; CompressionBytesTxAfter; TcpProxyConnect].


#[global] Instance metric_name_eq_dec : EqDecision MetricName.
Proof. solve_decision. Defined.
#[global] Instance metric_name_countable : Countable MetricName.
Proof.
  apply (inj_countable metric_name_display
    (fun s => find (fun k => bool_decide (metric_name_display k = s)) all_metric_names)).
  by intros [].
Defined.

Inductive LabelType :=
| NetworkName (name : text) | SrcPeerId (id : Z) | DstPeerId (id : Z) | ServiceName (name : text)
| MethodName (name : text) | LabelProtocol (proto : text) | Direction (dir : text)
| CompressionAlgo (algo : text) | ErrorType (err : text) | Status (status : text)
| DstIp (ip : text) | MappedDstIp (ip : text).

Definition label_type_display (l : LabelType) : text :=
  match l with
  | NetworkName name => txt "network_name=" ++ name
  | SrcPeerId id => txt "src_peer_id=" ++ print_u32 id
  | DstPeerId id => txt "dst_peer_id=" ++ print_u32 id
  | ServiceName name => txt "service_name=" ++ name
  | MethodName name => txt "method_name=" ++ name
  | LabelProtocol proto => txt "protocol=" ++ proto
  | Direction dir => txt "direction=" ++ dir
  | CompressionAlgo algo => txt "compression_algo=" ++ algo
  | ErrorType err => txt "error_type=" ++ err
  | Status status => txt "status=" ++ status
  | DstIp ip => txt "dst_ip=" ++ ip
  | MappedDstIp ip => txt "mapped_dst_ip=" ++ ip
  end.

Definition label_type_key (l : LabelType) : string :=
  match l with
  | NetworkName _ => "network_name"
  | SrcPeerId _ => "src_peer_id"
  | DstPeerId _ => "dst_peer_id"
  | ServiceName _ => "service_name"
  | MethodName _ => "method_name"
  | LabelProtocol _ => "protocol"
  | Direction _ => "direction"
  | CompressionAlgo _ => "compression_algo"
  | ErrorType _ => "error_type"
  | Status _ => "status"
  | DstIp _ => "dst_ip"
  | MappedDstIp _ => "mapped_dst_ip"
  end.

Definition label_type_value (l : LabelType) : text :=
  match l with
  | NetworkName name => name
  | SrcPeerId id => print_u32 id
  | DstPeerId id => print_u32 id
  | ServiceName name => name
  | MethodName name => name
  | LabelProtocol proto => proto
  | Direction dir => dir
  | CompressionAlgo algo => algo
  | ErrorType err => err
  | Status status => status
  | DstIp ip => ip
  | MappedDstIp ip => ip
  end.

Record Label := mkLabel { label_key : text; label_value : text }.
#[global] Instance label_eq_dec : EqDecision Label.
Proof. solve_decision. Defined.
#[global] Instance label_countable : Countable Label.
Proof.
  apply (inj_countable' (fun l => (label_key l, label_value l)) (fun x => mkLabel x.1 x.2)). by intros [].
Defined.

Definition from_label_type (l : LabelType) : Label := mkLabel (txt (label_type_key l)) (label_type_value l).

Definition label_le (a b : Label) : bool := text_le (label_key a) (label_key b).

Abbreviation LabelSet := (list Label).

Definition label_set_new : LabelSet := [].
Definition with_label (key value : text) (s : LabelSet) : LabelSet :=
  stable_sort label_le (s ++ [mkLabel key value]).
Definition with_label_type (l : LabelType) (s : LabelSet) : LabelSet :=
  stable_sort label_le (s ++ [from_label_type l]).
Definition from_label_types (ls : list LabelType) : LabelSet :=
  stable_sort label_le (from_label_type <$> ls).

Definition to_key (s : LabelSet) : text :=
  join (txt ",") ((fun l => label_key l ++ txt "=" ++ label_value l) <$> s).

(** ** Counters *)

(** [MetricData]: an [UnsafeCounter] and the time of its last update. *)
Record MetricData := { counter : Z; last_updated : Z }.

Definition metric_data_new (now : Z) : MetricData := {| counter := 0; last_updated := now |}.

Record MetricKey := { key_name : MetricName; key_labels : LabelSet }.
#[global] Instance metric_key_eq_dec : EqDecision MetricKey.
Proof. solve_decision. Defined.
#[global] Instance metric_key_countable : Countable MetricKey.
Proof.
  apply (inj_countable' (fun k => (key_name k, key_labels k))
    (fun x => {| key_name := x.1; key_labels := x.2 |})). by intros [].
Defined.

Definition name_text (m : MetricName) : text := txt (metric_name_display m).

Definition metric_key_display (k : MetricKey) : text :=
  let label_str := to_key (key_labels k) in
  if bool_decide (label_str = []) then name_text (key_name k)
  else name_text (key_name k) ++ txt "[" ++ label_str ++ txt "]".

Record CounterHandle := { metric_data : nat; handle_key : MetricKey }.

(** The manager's table over the store of counters. *)
Record StatsManager := {
  counters : gmap MetricKey nat;
  store : gmap nat MetricData;
  next_addr : nat
}.

Definition stats_manager_new : StatsManager := {| counters := ∅; store := ∅; next_addr := 0 |}.

Definition update (f : Z -> Z) (now : Z) (h : CounterHandle) (s : StatsManager) : StatsManager := {|
  counters := counters s;
  store := alter (fun d => {| counter := f (counter d); last_updated := now |}) (metric_data h) (store s);
  next_addr := next_addr s
|}.

(** The methods of [CounterHandle]. *)
Definition handle_add (delta : Z) := update (fun v => saturating_add64 v delta).
Definition handle_inc := update (fun v => saturating_add64 v 1).
Definition handle_reset := update (fun _ => 0).
Definition handle_set (value : Z) := update (fun _ => value).
Definition handle_get (h : CounterHandle) (s : StatsManager) : option Z :=
  counter <$> store s !! metric_data h.

Definition get_counter (now : Z) (name : MetricName) (labels : LabelSet) (s : StatsManager)
    : CounterHandle * StatsManager :=
  let key := {| key_name := name; key_labels := labels |} in
  match counters s !! key with
  | Some addr => ({| metric_data := addr; handle_key := key |}, s)
  | None =>
      let addr := next_addr s in
      ({| metric_data := addr; handle_key := key |},
       {| counters := <[key := addr]> (counters s);
          store := <[addr := metric_data_new now]> (store s);
          next_addr := S addr |})
  end.

Definition get_simple_counter (now : Z) (name : MetricName) := get_counter now name label_set_new.

(** One round of the cleanup task; [instant_min] is the least [Instant]. *)
Definition cleanup (instant_min now : Z) (s : StatsManager) : StatsManager :=
  if now - 180 * SEC <? instant_min then s
  else
    let cutoff_time := now - 180 * SEC in
    {| counters := retain (fun _ addr =>
         match store s !! addr with Some d => cutoff_time <? last_updated d | None => false end) (counters s);
       store := store s; next_addr := next_addr s |}.

Definition clear (s : StatsManager) : StatsManager :=
  {| counters := ∅; store := store s; next_addr := next_addr s |}.

Definition metric_count (s : StatsManager) : nat := size (counters s).

(** ** Snapshots *)

Record MetricSnapshot := { snap_name : MetricName; snap_labels : LabelSet; snap_value : Z }.

Definition value_at (addr : nat) (s : StatsManager) : Z :=
  match store s !! addr with Some d => counter d | None => 0 end.

Definition get_metric (name : MetricName) (labels : LabelSet) (s : StatsManager) : option MetricSnapshot :=
  match counters s !! {| key_name := name; key_labels := labels |} with
  | Some addr => Some {| snap_name := name; snap_labels := labels; snap_value := value_at addr s |}
  | None => None
  end.

(** Sorting by name, then by labels. *)
Definition snapshot_cmp (a b : MetricSnapshot) : comparison :=
  match text_cmp (name_text (snap_name a)) (name_text (snap_name b)) with
  | Eq => text_cmp (to_key (snap_labels a)) (to_key (snap_labels b))
  | c => c
  end.
Definition snapshot_le (a b : MetricSnapshot) : bool :=
  match snapshot_cmp a b with Gt => false | _ => true end.

Definition get_all_metrics `{!IterOrder MetricKey nat} (s : StatsManager) : list MetricSnapshot :=
  stable_sort snapshot_le
    ((fun kv => {| snap_name := key_name kv.1; snap_labels := key_labels kv.1;
                   snap_value := value_at kv.2 s |}) <$> map_iter (counters s)).

Definition get_metrics_by_prefix `{!IterOrder MetricKey nat} (prefix : text) (s : StatsManager)
    : list MetricSnapshot :=
  base.filter (fun m => starts_with prefix (name_text (snap_name m)) = true) (get_all_metrics s).

Definition NL : text := [10].
Definition QUOTE : text := [34].

Definition metric_line (m : MetricSnapshot) : text :=
  let metric_name_str := name_text (snap_name m) in
  if bool_decide (snap_labels m = []) then
    metric_name_str ++ txt " " ++ print_u64 (snap_value m) ++ NL
  else
    let label_str :=
      join (txt ",") ((fun l => label_key l ++ txt "=" ++ QUOTE ++ label_value l ++ QUOTE) <$> snap_labels m) in
    metric_name_str ++ txt "{" ++ label_str ++ txt "} " ++ print_u64 (snap_value m) ++ NL.

Definition type_line (name : text) : text := txt "# TYPE " ++ name ++ txt " counter" ++ NL.

(** The loop of [export_prometheus] over the output and [current_metric]. *)
Definition export_step (acc : text * text) (m : MetricSnapshot) : text * text :=
  let '(output, current_metric) := acc in
  let metric_name_str := name_text (snap_name m) in
  let '(output, current_metric) :=
    if negb (bool_decide (metric_name_str = current_metric)) then
      let output := if negb (bool_decide (current_metric = [])) then output ++ NL else output in
      (output ++ type_line metric_name_str, metric_name_str)
    else (output, current_metric) in
  (output ++ metric_line m, current_metric).

Definition export_prometheus `{!IterOrder MetricKey nat} (s : StatsManager) : text :=
  (foldl export_step ([], []) (get_all_metrics s)).1.

(** ** Label sets *)

Lemma label_le_total a b : label_le a b = true \/ label_le b a = true.
Proof. apply text_le_total. Qed.
Lemma label_le_trans a b c : label_le a b = true -> label_le b c = true -> label_le a c = true.
Proof. apply text_le_trans. Qed.
#[local] Hint Resolve label_le_total label_le_trans : rust.

Lemma label_type_display_eq l : label_type_display l = label_key (from_label_type l) ++ txt "=" ++ label_value (from_label_type l).
Proof. by destruct l. Qed.

Definition add_labels (ls : list LabelType) (s : LabelSet) : LabelSet :=
  foldl (fun s l => with_label_type l s) s ls.

Lemma add_labels_perm ls s : add_labels ls s ≡ₚ s ++ (from_label_type <$> ls).
Proof.
  unfold add_labels. revert s; induction ls as [|l ls IH]; intros s; simpl; [by rewrite app_nil_r|].
  rewrite IH. unfold with_label_type. rewrite stable_sort_perm, <- app_assoc. done.
Qed.

Lemma add_labels_sorted ls s :
  StronglySorted (fun a b => label_le a b = true) s ->
  StronglySorted (fun a b => label_le a b = true) (add_labels ls s).
Proof.
  unfold add_labels. revert s; induction ls as [|l ls IH]; intros s Hs; simpl; [done|].
  apply IH. apply stable_sort_sorted; auto with rust. exact label_le_trans.
Qed.

(** Distinct keys are told apart by the sort. *)
Lemma distinct_keys_separated (ls : list LabelType) (s : LabelSet) :
  NoDup (label_type_key <$> ls) -> s ≡ₚ from_label_type <$> ls ->
  forall x y, x ∈ s -> y ∈ s -> label_le x y = true -> label_le y x = true -> x = y.
Proof.
  intros Hnd Hp x y Hx Hy Hxy Hyx. rewrite Hp in Hx, Hy.
  pose proof (text_le_antisym _ _ Hxy Hyx) as Hk.
  apply list_elem_of_fmap in Hx as (a & -> & Ha). apply list_elem_of_fmap in Hy as (b & -> & Hb).
  simpl in Hk. apply txt_inj in Hk.
  apply list_elem_of_lookup in Ha as [i Hi]. apply list_elem_of_lookup in Hb as [j Hj].
  assert (i = j) as <-; [|congruence].
  eapply (NoDup_lookup _ _ _ (label_type_key a) Hnd); rewrite list_lookup_fmap; [by rewrite Hi|].
  rewrite Hj. simpl. by rewrite Hk.
Qed.

(** The same labels (with distinct keys) given in any order, at once or
    one by one, make the same label set, hence address the same counter. *)
Theorem label_set_order_irrelevant (ls ls' : list LabelType)
    (Hnd : NoDup (label_type_key <$> ls)) (Hp : ls ≡ₚ ls') :
  from_label_types ls = from_label_types ls' /\ add_labels ls' label_set_new = from_label_types ls.
Proof.
  pose proof (stable_sort_perm label_le (from_label_type <$> ls)) as P1.
  split.
  - apply (sorted_perm_unique label_le).
    + by apply (distinct_keys_separated ls).
    + apply stable_sort_sorted; [apply label_le_total | apply label_le_trans].
    + apply stable_sort_sorted; [apply label_le_total | apply label_le_trans].
    + unfold from_label_types. rewrite !stable_sort_perm. by rewrite Hp.
  - symmetry. apply (sorted_perm_unique label_le).
    + by apply (distinct_keys_separated ls).
    + apply stable_sort_sorted; [apply label_le_total | apply label_le_trans].
    + apply add_labels_sorted. constructor.
    + rewrite add_labels_perm. unfold from_label_types. rewrite stable_sort_perm. simpl. by rewrite Hp.
Qed.

Lemma label_set_order_irrelevant_witness :
  from_label_types [SrcPeerId 7; NetworkName (txt "net")] =
  add_labels [NetworkName (txt "net"); SrcPeerId 7] label_set_new.
Proof.
  symmetry. apply (label_set_order_irrelevant [SrcPeerId 7; NetworkName (txt "net")]
    [NetworkName (txt "net"); SrcPeerId 7]).
  - apply (bool_decide_eq_true_1 _). vm_compute. reflexivity.
  - apply perm_swap.
Defined.

(** ** Handles *)

(** Runs of the manager, with the handles issued so far. *)
Inductive stats_run (instant_min : Z) : list CounterHandle -> StatsManager -> Prop :=
| run_new : stats_run instant_min [] stats_manager_new
| run_get hs s now name labels :
    stats_run instant_min hs s ->
    stats_run instant_min ((get_counter now name labels s).1 :: hs) (get_counter now name labels s).2
| run_update hs s f now h :
    stats_run instant_min hs s -> h ∈ hs -> stats_run instant_min hs (update f now h s)
| run_cleanup hs s now :
    stats_run instant_min hs s -> stats_run instant_min hs (cleanup instant_min now s)
| run_clear hs s : stats_run instant_min hs s -> stats_run instant_min hs (clear s).

Record stats_ok (hs : list CounterHandle) (s : StatsManager) : Prop := {
  ok_store k a : counters s !! k = Some a -> is_Some (store s !! a);
  ok_fresh a : is_Some (store s !! a) -> (a < next_addr s)%nat;
  ok_issued h : h ∈ hs -> is_Some (store s !! metric_data h);
  ok_owner h k : h ∈ hs -> counters s !! k = Some (metric_data h) -> handle_key h = k;
  ok_inj k k' a : counters s !! k = Some a -> counters s !! k' = Some a -> k = k'
}.

Definition attached (h : CounterHandle) (s : StatsManager) : Prop :=
  counters s !! handle_key h = Some (metric_data h).

Lemma update_store f now h s a :
  store (update f now h s) !! a =
  if decide (a = metric_data h)
  then (fun d => {| counter := f (counter d); last_updated := now |}) <$> store s !! a else store s !! a.
Proof. simpl. case_decide as E; subst; [by rewrite lookup_alter_eq | by rewrite lookup_alter_ne]. Qed.

Lemma get_counter_ok hs s now name labels :
  stats_ok hs s -> stats_ok ((get_counter now name labels s).1 :: hs) (get_counter now name labels s).2.
Proof.
  intros [H1 H2 H3 H4 H5]. unfold get_counter.
  destruct (counters s !! _) as [a|] eqn:E; simpl.
  - split; try done.
    + intros h Hh. apply elem_of_cons in Hh as [->|Hh]; simpl; eauto.
    + intros h k Hh Hk. apply elem_of_cons in Hh as [->|Hh]; simpl in *; eauto.
  - assert (forall k, counters s !! k <> Some (next_addr s)) as Hnew.
    { intros k Hk. apply H1, H2 in Hk. lia. }
    split; simpl.
    + intros k a Hk. apply lookup_insert_Some in Hk as [[_ <-]|[_ Hk]]; [by rewrite lookup_insert_eq; eexists|].
      destruct (decide (a = next_addr s)) as [->|Hne]; [by rewrite lookup_insert_eq; eexists|].
      rewrite lookup_insert_ne by done. eauto.
    + intros a Ha. destruct (decide (a = next_addr s)) as [->|Hne]; [lia|].
      rewrite lookup_insert_ne in Ha by done. apply H2 in Ha. lia.
    + intros h Hh. apply elem_of_cons in Hh as [->|Hh]; simpl; [rewrite lookup_insert_eq; by eexists|].
      apply H3 in Hh. rewrite lookup_insert_is_Some'. by right.
    + intros h k Hh Hk. apply lookup_insert_Some in Hk as [[<- Hk]|[Hne Hk]].
      * apply elem_of_cons in Hh as [->|Hh]; [done|]. apply H3, H2 in Hh. lia.
      * apply elem_of_cons in Hh as [->|Hh]; simpl in *; [by apply Hnew in Hk | eauto].
    + intros k k' a Hk Hk'. apply lookup_insert_Some in Hk as [[Ek Ea]|[? Hk]];
        apply lookup_insert_Some in Hk' as [[Ek' Ea']|[? Hk']]; simplify_eq; try done;
        try (by apply Hnew in Hk'); try (by apply Hnew in Hk). eauto.
Qed.

Lemma update_ok hs s f now h : stats_ok hs s -> stats_ok hs (update f now h s).
Proof.
  assert (forall a, is_Some (store (update f now h s) !! a) <-> is_Some (store s !! a)) as Hs.
  { intros a. rewrite update_store. case_decide; [by rewrite fmap_is_Some | done]. }
  intros [H1 H2 H3 H4 H5]. split; try done; setoid_rewrite Hs; done.
Qed.

(** Dropping table entries keeps the store and so the invariant. *)
Lemma shrink_ok hs s m :
  m ⊆ counters s -> stats_ok hs s ->
  stats_ok hs {| counters := m; store := store s; next_addr := next_addr s |}.
Proof.
  intros Hm [H1 H2 H3 H4 H5].
  assert (forall k a, m !! k = Some a -> counters s !! k = Some a) as Hsub
    by (intros k a Hk; by eapply lookup_weaken).
  split; simpl; eauto.
Qed.

Lemma stats_run_ok instant_min hs s : stats_run instant_min hs s -> stats_ok hs s.
Proof.
  induction 1 as [|hs s now name labels _ IH|hs s f now h _ IH _|hs s now _ IH|hs s _ IH].
  - split; simpl; intros *; rewrite ?lookup_empty; intros; try done.
    by match goal with H : _ ∈ [] |- _ => apply not_elem_of_nil in H end.
  - by apply get_counter_ok.
  - by apply update_ok.
  - unfold cleanup. destruct (_ <? _); [done|]. apply shrink_ok; [|done]. apply map_filter_subseteq.
  - apply shrink_ok; [|done]. apply map_empty_subseteq.
Qed.

(** An update through any handle of a counter that is in the table shows
    in the counter's snapshot (here [add], which saturates), and an update
    through a handle whose counter has left the table shows in no snapshot. *)
Theorem handle_updates_visible instant_min hs s h delta now
    (Hrun : stats_run instant_min hs s) (Hh : h ∈ hs) :
  let s' := handle_add delta now h s in
  let name := key_name (handle_key h) in
  let labels := key_labels (handle_key h) in
  (attached h s -> exists v, handle_get h s = Some v /\
     get_metric name labels s' =
       Some {| snap_name := name; snap_labels := labels; snap_value := saturating_add64 v delta |}) /\
  (~ attached h s -> forall n l, get_metric n l s' = get_metric n l s).
Proof.
  destruct (stats_run_ok _ _ _ Hrun) as [H1 H2 H3 H4 H5]. simpl.
  assert ({| key_name := key_name (handle_key h); key_labels := key_labels (handle_key h) |} = handle_key h) as Hk
    by (by destruct (handle_key h)).
  split.
  - intros Ha. destruct (H3 h Hh) as [d Hd]. exists (counter d). unfold handle_get. rewrite Hd. split; [done|].
    unfold get_metric. simpl. rewrite Hk, Ha. unfold value_at.
    unfold handle_add. rewrite update_store. rewrite decide_True by done. by rewrite Hd.
  - intros Ha n l. unfold get_metric. simpl. destruct (counters s !! _) as [a|] eqn:E; [|done].
    unfold value_at, handle_add. rewrite update_store. rewrite decide_False; [done|].
    intros ->. apply Ha. unfold attached. by rewrite (H4 h _ Hh E).
Qed.

(** The cleanup detaches the handles of every counter not updated for
    three minutes, and only those: later updates through such a handle appear
    in no snapshot, and asking for the counter again gives a new one at zero. *)
Theorem idle_handle_detached instant_min hs s h now t
    (Hrun : stats_run instant_min hs s) (Hh : h ∈ hs) (Hat : attached h s)
    (Ht : instant_min <= now - 180 * SEC) :
  exists d, store s !! metric_data h = Some d /\
    let s1 := cleanup instant_min now s in
    let name := key_name (handle_key h) in
    let labels := key_labels (handle_key h) in
    (now - 180 * SEC < last_updated d -> attached h s1) /\
    (last_updated d <= now - 180 * SEC ->
       (forall delta, get_metric name labels (handle_add delta t h s1) = None) /\
       let '(h', s2) := get_counter t name labels s1 in
       metric_data h' <> metric_data h /\ handle_get h' s2 = Some 0).
Proof.
  destruct (stats_run_ok _ _ _ Hrun) as [H1 H2 H3 H4 H5]. destruct (H3 h Hh) as [d Hd].
  exists d. split; [done|]. unfold cleanup. rewrite (proj2 (Z.ltb_ge _ _) Ht). simpl.
  assert ({| key_name := key_name (handle_key h); key_labels := key_labels (handle_key h) |} = handle_key h) as Hk
    by (by destruct (handle_key h)).
  split.
  - intros Hl. unfold attached. simpl. apply retain_Some. split; [exact Hat|]. rewrite Hd. lia.
  - intros Hl.
    assert (retain (fun _ addr => match store s !! addr with
              Some d => now - 180 * SEC <? last_updated d | None => false end) (counters s) !! handle_key h = None) as Hg.
    { rewrite lookup_retain, Hat, Hd. by rewrite (proj2 (Z.ltb_ge _ _) Hl). }
    split.
    + intros delta. unfold get_metric. simpl. by rewrite Hk, Hg.
    + unfold get_counter. simpl. rewrite Hk, Hg. simpl. split.
      * intros E. assert (metric_data h < next_addr s)%nat by (apply H2; by exists d). lia.
      * unfold handle_get. simpl. by rewrite lookup_insert_eq.
Qed.

Definition sample_get := get_counter 0 TrafficBytesTx [] stats_manager_new.

Lemma sample_get_run : stats_run 0 [sample_get.1] sample_get.2.
Proof. apply (run_get 0 []). constructor. Qed.

Lemma handle_updates_visible_witness :
  get_metric TrafficBytesTx [] (handle_add 5 1 sample_get.1 sample_get.2) =
  Some {| snap_name := TrafficBytesTx; snap_labels := []; snap_value := 5 |}.
Proof.
  destruct (handle_updates_visible 0 [sample_get.1] sample_get.2 sample_get.1 5 1 sample_get_run
    ltac:(by left)) as [Hv _].
  destruct (Hv ltac:(vm_compute; reflexivity)) as (v & Hg & E). vm_compute in Hg. injection Hg as <-. exact E.
Defined.

Lemma idle_handle_detached_witness :
  get_metric TrafficBytesTx [] (handle_add 5 (400 * SEC) sample_get.1 (cleanup 0 (300 * SEC) sample_get.2)) = None.
Proof.
  destruct (idle_handle_detached 0 [sample_get.1] sample_get.2 sample_get.1 (300 * SEC) (400 * SEC) sample_get_run
    ltac:(by left) ltac:(vm_compute; reflexivity) ltac:(unfold SEC; lia)) as (d & Hd & _ & Hgone).
  vm_compute in Hd. injection Hd as <-.
  apply (proj1 (Hgone ltac:(unfold SEC; simpl; lia))).
Defined.

(** ** The Prometheus export *)

(** Consecutive snapshots with the same name. *)
Fixpoint group_names (ms : list MetricSnapshot) : list (MetricName * list MetricSnapshot) :=
  match ms with
  | [] => []
  | m :: ms =>
      match group_names ms with
      | (n, g) :: r => if decide (n = snap_name m) then (n, m :: g) :: r
                       else (snap_name m, [m]) :: (n, g) :: r
      | [] => [(snap_name m, [m])]
      end
  end.

Definition lines (g : list MetricSnapshot) : text := concat (metric_line <$> g).
Definition block (b : MetricName * list MetricSnapshot) : text := type_line (name_text b.1) ++ lines b.2.
Definition blocks (bs : list (MetricName * list MetricSnapshot)) : text := concat ((fun b => NL ++ block b) <$> bs).

#[local] Opaque NL type_line metric_line.

Ltac flatten_blocks :=
  unfold blocks, block, lines; cbn [fmap list_fmap concat fst snd app];
  rewrite ?app_nil_r, <- ?app_assoc, ?app_nil_r; try done.

Lemma name_text_nonempty m : name_text m <> [].
Proof. by destruct m. Qed.

Lemma name_text_inj m n : name_text m = name_text n -> m = n.
Proof.
  intros E. apply txt_inj in E.
  assert (forall k, find (fun j => bool_decide (metric_name_display j = metric_name_display k)) all_metric_names = Some k)
    as Hf by (by intros []).
  pose proof (Hf m) as Hm. rewrite E, Hf in Hm. congruence.
Qed.

Lemma join_blocks b bs : join NL (block <$> b :: bs) = block b ++ blocks bs.
Proof.
  revert b; induction bs as [|b' bs IH]; intros b; [by rewrite app_nil_r|].
  change (join NL (block <$> b :: b' :: bs)) with (block b ++ NL ++ join NL (block <$> b' :: bs)).
  rewrite IH. unfold blocks. cbn [fmap list_fmap concat]. by rewrite <- !app_assoc.
Qed.

(** What the loop still appends once a metric [n] is current. *)
Definition export_rest (n : MetricName) (ms : list MetricSnapshot) : text :=
  match group_names ms with
  | (n', g) :: r => if decide (n' = n) then lines g ++ blocks r else blocks ((n', g) :: r)
  | [] => []
  end.

Lemma group_names_cons_head m ms : exists g r, group_names (m :: ms) = (snap_name m, g) :: r.
Proof.
  simpl. destruct (group_names ms) as [|[n g] r]; [by do 2 eexists|].
  case_decide as E; subst; by do 2 eexists.
Qed.

Lemma export_rest_cons n m ms :
  export_rest n (m :: ms) =
  (if decide (snap_name m = n) then [] else NL ++ type_line (name_text (snap_name m))) ++
  metric_line m ++ export_rest (snap_name m) ms.
Proof.
  unfold export_rest. simpl. destruct (group_names ms) as [|[n' g] r].
  - case_decide; flatten_blocks.
  - destruct (decide (n' = snap_name m)) as [->|Hne].
    + case_decide; flatten_blocks.
    + case_decide; flatten_blocks.
Qed.

Lemma export_loop ms : forall n out,
  (foldl export_step (out, name_text n) ms).1 = out ++ export_rest n ms.
Proof.
  induction ms as [|m ms IH]; intros n out; [by rewrite app_nil_r|].
  rewrite export_rest_cons. simpl.
  destruct (decide (snap_name m = n)) as [<-|Hne].
  - rewrite bool_decide_eq_true_2 by done. simpl. rewrite IH. by rewrite <- app_assoc.
  - rewrite (bool_decide_eq_false_2 (name_text (snap_name m) = name_text n))
      by (intros E; by apply Hne, name_text_inj). simpl.
    rewrite (bool_decide_eq_false_2 (name_text n = [])) by apply name_text_nonempty. simpl.
    rewrite IH. by rewrite <- !app_assoc.
Qed.

Lemma export_blocks ms : (foldl export_step ([], []) ms).1 = join NL (block <$> group_names ms).
Proof.
  destruct ms as [|m ms]; [done|]. simpl foldl.
  rewrite (bool_decide_eq_false_2 (name_text (snap_name m) = [])) by apply name_text_nonempty. simpl.
  rewrite export_loop. unfold export_rest. destruct (group_names ms) as [|[n g] r].
  - rewrite join_blocks. flatten_blocks.
  - case_decide as E; rewrite join_blocks; flatten_blocks. by subst.
Qed.

Lemma group_names_concat ms : concat (group_names ms).*2 = ms.
Proof.
  induction ms as [|m ms IH]; simpl; [done|].
  destruct (group_names ms) as [|[n g] r]; simpl in *; [by rewrite <- IH|].
  case_decide; simpl; by rewrite <- IH.
Qed.

Lemma snapshot_le_name a b :
  snapshot_le a b = true -> text_le (name_text (snap_name a)) (name_text (snap_name b)) = true.
Proof. unfold snapshot_le, snapshot_cmp, text_le. by destruct (text_cmp (name_text _) _). Qed.

Lemma snapshot_le_total a b : snapshot_le a b = true \/ snapshot_le b a = true.
Proof.
  unfold snapshot_le, snapshot_cmp. rewrite (text_cmp_antisym (name_text (snap_name a))).
  rewrite (text_cmp_antisym (to_key (snap_labels a))).
  destruct (text_cmp (name_text _) _), (text_cmp (to_key _) _); simpl; auto.
Qed.

Lemma snapshot_le_trans a b c : snapshot_le a b = true -> snapshot_le b c = true -> snapshot_le a c = true.
Proof.
  unfold snapshot_le, snapshot_cmp. intros H1 H2.
  destruct (text_cmp (name_text (snap_name a)) (name_text (snap_name b))) eqn:E1; [|clear H1|done];
  destruct (text_cmp (name_text (snap_name b)) (name_text (snap_name c))) eqn:E2; try done.
  - apply text_cmp_eq in E1, E2. rewrite E1, E2, text_cmp_refl.
    exact (text_le_trans _ _ _ H1 H2).
  - apply text_cmp_eq in E1. by rewrite E1, E2.
  - apply text_cmp_eq in E2. by rewrite <- E2, E1.
  - by rewrite (text_cmp_trans _ _ _ E1 E2).
Qed.

Section sorted_groups.
Abbreviation sorted := (StronglySorted (fun a b => snapshot_le a b = true)).

Lemma group_names_elem ms n : n ∈ (group_names ms).*1 -> exists m, m ∈ ms /\ snap_name m = n.
Proof.
  induction ms as [|m ms IH]; simpl; [by intros ?%not_elem_of_nil|].
  destruct (group_names ms) as [|[n' g] r]; simpl in *.
  - intros ->%list_elem_of_singleton. exists m. split; [left | done].
  - case_decide as E; simpl; intros Hn.
    + destruct IH as (m' & Hm' & <-); [done|]. exists m'. split; [by right | done].
    + apply elem_of_cons in Hn as [->|Hn]; [exists m; split; [left | done]|].
      destruct IH as (m' & Hm' & <-); [done|]. exists m'. split; [by right | done].
Qed.

Lemma group_names_NoDup ms : sorted ms -> NoDup (group_names ms).*1.
Proof.
  induction 1 as [|m ms Hs IH Hm]; simpl; [constructor|].
  pose proof (group_names_elem ms) as Hel. pose proof (group_names_concat ms) as Hc.
  destruct ms as [|m1 ms1]; [apply NoDup_singleton|].
  destruct (group_names_cons_head m1 ms1) as (g & r & E). rewrite E in *.
  case_decide as En; simpl in *; [done|]. constructor; [|done].
  intros Hn. destruct (Hel _ Hn) as (m' & Hm' & Hname).
  rewrite Forall_forall in Hm. assert (snapshot_le m m1 = true) as L1 by (apply Hm; left).
  assert (snapshot_le m1 m' = true) as L2.
  { apply elem_of_cons in Hm' as [->|Hm']; [destruct (snapshot_le_total m1 m1); done|].
    apply StronglySorted_inv in Hs as [_ Hf]. rewrite Forall_forall in Hf. by apply Hf. }
  apply snapshot_le_name in L1, L2. rewrite Hname in L2.
  apply En, name_text_inj. by apply text_le_antisym.
Qed.
End sorted_groups.

(** The snapshots before sorting, in the table's iteration order. *)
Definition snapshots (o : IterOrder MetricKey nat) (s : StatsManager) : list MetricSnapshot :=
  (fun kv => {| snap_name := key_name kv.1; snap_labels := key_labels kv.1;
                snap_value := value_at kv.2 s |}) <$> @map_iter _ _ _ _ o (counters s).

(** The export consists of exactly one block per metric name, blocks
    separated by an empty line: a TYPE line and one line for every tracked
    metric of that name.  It does not depend on the iteration order of the
    table when no two metrics of a name print the same labels. *)
Theorem export_prometheus_spec (o o' : IterOrder MetricKey nat) (s : StatsManager)
    (Hdistinct : forall k k', is_Some (counters s !! k) -> is_Some (counters s !! k') ->
       key_name k = key_name k' -> to_key (key_labels k) = to_key (key_labels k') -> k = k') :
  @export_prometheus o s = join NL (block <$> group_names (@get_all_metrics o s)) /\
  NoDup (group_names (@get_all_metrics o s)).*1 /\
  concat (group_names (@get_all_metrics o s)).*2 ≡ₚ snapshots o s /\
  @export_prometheus o s = @export_prometheus o' s.
Proof.
  assert (forall o, StronglySorted (fun a b => snapshot_le a b = true) (@get_all_metrics o s)) as Hsort
    by (intros; apply stable_sort_sorted; [apply snapshot_le_total | apply snapshot_le_trans]).
  split_and!.
  - apply export_blocks.
  - apply group_names_NoDup, Hsort.
  - rewrite group_names_concat. apply stable_sort_perm.
  - unfold export_prometheus. f_equal. f_equal. apply (sorted_perm_unique snapshot_le); [|apply Hsort..|].
    + intros x y Hx Hy Hxy Hyx. unfold get_all_metrics in Hx, Hy. rewrite stable_sort_perm in Hx, Hy.
      apply list_elem_of_fmap in Hx as ([k a] & -> & Hk). apply list_elem_of_fmap in Hy as ([k' a'] & -> & Hk').
      apply elem_of_map_iter in Hk, Hk'. unfold snapshot_le, snapshot_cmp in Hxy, Hyx. simpl in *.
      rewrite (text_cmp_antisym (name_text (key_name k))), (text_cmp_antisym (to_key (key_labels k))) in Hyx.
      destruct (text_cmp (name_text (key_name k)) _) eqn:E1; try done.
      destruct (text_cmp (to_key (key_labels k)) _) eqn:E2; try done.
      apply text_cmp_eq, name_text_inj in E1. apply text_cmp_eq in E2.
      assert (k = k') as <- by (apply Hdistinct; eauto). rewrite Hk in Hk'. by injection Hk' as <-.
    + unfold get_all_metrics. rewrite !stable_sort_perm. by rewrite !map_iter_perm.
Qed.

#[local] Transparent NL type_line metric_line.

Lemma export_prometheus_spec_witness :
  export_prometheus (handle_add 5 1 sample_get.1 sample_get.2) =
  join NL (block <$> group_names (get_all_metrics (handle_add 5 1 sample_get.1 sample_get.2))).
Proof.
  apply (export_prometheus_spec default_iter_order default_iter_order
    (handle_add 5 1 sample_get.1 sample_get.2)).
  intros k k' [a Ha] [a' Ha'].
  assert (forall k a, counters (handle_add 5 1 sample_get.1 sample_get.2) !! k = Some a ->
    k = {| key_name := TrafficBytesTx; key_labels := [] |}) as Hone.
  { intros k0 a0 Hk. change (<[{| key_name := TrafficBytesTx; key_labels := [] |} := 0%nat]> (∅ : gmap MetricKey nat) !! k0 = Some a0) in Hk. apply lookup_insert_Some in Hk as [[<- _]|[_ Hk]]; [done|].
    rewrite lookup_empty in Hk. discriminate Hk. }
  rewrite (Hone _ _ Ha), (Hone _ _ Ha'). reflexivity.
Defined.

(** Label values are printed between quotes without escaping: two different
    label sets can print the same line. *)
Example export_not_escaped :
  metric_line {| snap_name := TcpProxyConnect; snap_labels := [mkLabel (txt "a") (txt "x" ++ QUOTE ++ txt ",b=" ++ QUOTE ++ txt "y")]; snap_value := 1 |} =
  metric_line {| snap_name := TcpProxyConnect; snap_labels := [mkLabel (txt "a") (txt "x"); mkLabel (txt "b") (txt "y")]; snap_value := 1 |}.
Proof. reflexivity. Qed.
