(* ===== verification/IpReassembler.v ===== *)
(** IPv4 fragmentation: [easytier/src/gateway/ip_reassembler.rs].

    [compose_ipv4_packet] cuts a payload into IPv4 fragments inside one buffer,
    writing each header over bytes already sent; [IpReassembler] collects
    fragments per (source, destination, id) and rebuilds the payload.  Reading
    and writing of header fields is done by [pnet], the class [Ipv4Codec].

    The theorems: fragments of a payload arriving in any order rebuild exactly
    that payload, and not before the last one arrives; composing and
    reassembling is the identity; and a fragment that lies beyond the length
    announced by the last fragment makes [assemble] panic. *)

From stdpp Require Import base numbers list gmap sorting.
From Stdlib Require Import ZifyBool.
From S2P Require Import Prelude.
Open Scope Z_scope.

(** ** [pnet] *)

(** The fields the code reads of a received packet. *)
Record Ipv4View := {
  view_version : Z; view_source : Z; view_destination : Z; view_protocol : Z;
  identification : Z; fragment_offset : Z; flags : Z; total_length : Z; header_length : Z;
  view_payload : bytes
}.

(** The fields the code writes into a new packet. *)
Record Ipv4Fields := {
  set_version : Z; set_header_length : Z; set_total_length_ : Z; set_identification : Z;
  set_flags : Z; set_fragment_offset : Z; set_ecn : Z; set_dscp : Z; set_ttl : Z;
  set_source : Z; set_destination : Z; set_next_level_protocol : Z
}.

Definition MoreFragments : Z := 1.
Definition DontFragment : Z := 2.

Class Ipv4Codec := {
  (** all setters and the checksum, on the 20 bytes of a header *)
  write_header : Ipv4Fields -> bytes -> bytes;
  (** [Ipv4Packet::new] and its accessors *)
  ipv4_view : bytes -> option Ipv4View
}.

(** Setters keep the header's size, and a packet whose length fields describe
    it reads back as it was written. *)
Class Ipv4CodecLaws `{Ipv4Codec} := {
  view_range l v : ipv4_view l = Some v ->
    in_width 32 (view_source v) /\ in_width 32 (view_destination v) /\ in_width 16 (identification v) /\ len (view_payload v) <= 65535;
  view_payload_whole l v : ipv4_view l = Some v -> 5 <= header_length v -> total_length v = len l ->
    view_payload v = drop (Z.to_nat (header_length v * 4)) l;
  write_header_length f h : length h = 20%nat -> length (write_header f h) = 20%nat;
  view_write f h body :
    length h = 20%nat -> set_version f = 4 -> set_header_length f = 5 ->
    set_total_length_ f = 20 + len body -> in_width 16 (20 + len body) ->
    in_width 16 (set_identification f) -> in_width 3 (set_flags f) -> in_width 13 (set_fragment_offset f) ->
    in_width 32 (set_source f) -> in_width 32 (set_destination f) -> in_width 8 (set_next_level_protocol f) ->
    ipv4_view (write_header f h ++ body) =
    Some {| view_version := 4; view_source := set_source f; view_destination := set_destination f;
            view_protocol := set_next_level_protocol f; identification := set_identification f; fragment_offset := set_fragment_offset f;
            flags := set_flags f; total_length := set_total_length_ f; header_length := 5;
            view_payload := body |}
}.

(** ** Packets under reassembly *)

Record IpFragment := { frag_id : Z; offset : Z; data : bytes }.

Definition ip_fragment_from (packet : Ipv4View) : IpFragment := {|
  frag_id := identification packet;
  offset := as_u16 (fragment_offset packet * 8);
  data := view_payload packet
|}.

Record IpPacket := {
  source : Z; destination : Z; announced_length : option Z; fragments : list IpFragment
}.

Definition ip_packet_new (src dst : Z) : IpPacket :=
  {| source := src; destination := dst; announced_length := None; fragments := [] |}.

Definition overlaps (f fragment : IpFragment) : bool :=
  if (offset f <=? offset fragment) && (offset fragment <? as_u16 (offset f + as_u16 (len (data f)))) then true
  else (offset fragment <=? offset f) && (offset f <? as_u16 (offset fragment + as_u16 (len (data fragment)))).

Definition packet_add_fragment (fragment : IpFragment) (p : IpPacket) : IpPacket :=
  if existsb (fun f => overlaps f fragment) (fragments p) then p
  else {| source := source p; destination := destination p;
          announced_length := announced_length p; fragments := fragments p ++ [fragment] |}.

Definition received_length (fs : list IpFragment) : Z :=
  foldl (fun acc f => as_u16 (acc + as_u16 (len (data f)))) 0 fs.

Definition is_complete (p : IpPacket) : bool :=
  match announced_length p with
  | None => false
  | Some n => received_length (fragments p) =? n
  end.

Definition set_total_length (n : Z) (p : IpPacket) : IpPacket :=
  {| source := source p; destination := destination p; announced_length := Some n; fragments := fragments p |}.

Definition by_offset (a b : IpFragment) : bool := offset a <=? offset b.

Fixpoint copy_fragments (fs : list IpFragment) (packet : bytes) : outcome bytes :=
  match fs with
  | [] => Done packet
  | f :: fs =>
      let start := offset f in
      let end_ := start + len (data f) in
      packet ← copy_into packet start end_ (data f);
      copy_fragments fs packet
  end.

Definition assemble (p : IpPacket) : outcome (option bytes * IpPacket) :=
  if negb (is_complete p) then Done (None, p)
  else
    let fs := stable_sort by_offset (fragments p) in
    let p := {| source := source p; destination := destination p;
                announced_length := announced_length p; fragments := fs |} in
    n ← unwrap (announced_length p);
    packet ← copy_fragments fs (replicate (Z.to_nat n) 0);
    Done (Some packet, p).

(** ** The reassembler *)

Record IpResemblerKey := { key_source : Z; key_destination : Z; key_id : Z }.
#[global] Instance ip_resembler_key_eq_dec : EqDecision IpResemblerKey.
Proof. solve_decision. Defined.
#[global] Instance ip_resembler_key_countable : Countable IpResemblerKey.
Proof.
  apply (inj_countable' (fun k => (key_source k, key_destination k, key_id k))
    (fun '(a, b, c) => {| key_source := a; key_destination := b; key_id := c |})). by intros [].
Defined.

Record IpResemblerValue := { packet : IpPacket; timestamp : Z }.

Record IpReassembler := { packets : gmap IpResemblerKey IpResemblerValue; timeout : Z }.

Definition reassembler_new (t : Z) : IpReassembler := {| packets := ∅; timeout := t |}.

Definition is_packet_fragmented (p : Ipv4View) : bool :=
  negb (fragment_offset p =? 0) || negb (Z.land (flags p) MoreFragments =? 0).

Definition is_last_fragment (p : Ipv4View) : bool := Z.land (flags p) MoreFragments =? 0.

(** [now] is the clock reading of the call. *)
Definition add_fragment (now : Z) (src dst : Z) (pkt : Ipv4View) (r : IpReassembler)
    : outcome (option bytes * IpReassembler) :=
  let id := identification pkt in
  let total := as_u16 (total_length pkt - as_u16 (header_length pkt * 4)) in
  if negb (total =? as_u16 (len (view_payload pkt))) then Done (None, r)
  else
    let fragment := ip_fragment_from pkt in
    let key := {| key_source := src; key_destination := dst; key_id := id |} in
    let value := default {| packet := ip_packet_new src dst; timestamp := now |} (packets r !! key) in
    let p := packet value in
    let p := if is_last_fragment pkt then set_total_length (as_u16 (total + offset fragment)) p else p in
    let p := packet_add_fragment fragment p in
    '(data, p) ← assemble p;
    Done (match data with
          | Some data => (Some data, {| packets := delete key (packets r); timeout := timeout r |})
          | None => (None, {| packets := <[key := {| packet := p; timestamp := now |}]> (packets r);
                              timeout := timeout r |})
          end).

Definition remove_expired_packets (now : Z) (r : IpReassembler) : IpReassembler :=
  {| packets := retain (fun _ v => Z.max 0 (now - timestamp v) <=? timeout r) (packets r);
     timeout := timeout r |}.

(** ** Composing *)

Record ComposeArgs := {
  src_v4 : Z; dst_v4 : Z; next_protocol : Z; payload_len : Z; payload_mtu : Z; ip_id : Z
}.

Definition div_ceil (a b : Z) : outcome Z :=
  if b =? 0 then Panicked DivisionByZero
  else Done (if 0 <? a mod b then a / b + 1 else a / b).

Section compose.
Context `{Ipv4Codec} {S E : Type} (cb : S -> bytes -> S * result E unit).

(** The header of the piece at [frag_offset]. *)
Definition piece_fields (args : ComposeArgs) (total_pieces cur_piece frag_offset fragment_len : Z)
    : outcome Ipv4Fields :=
  '(fl, off) ← (if 1 <? total_pieces then
                  if negb (frag_offset mod 8 =? 0) then Panicked AssertionFailed
                  else Done (if negb (cur_piece =? total_pieces - 1) then MoreFragments else 0,
                             as_u16 frag_offset / 8)
                else Done (DontFragment, 0));
  Done {| set_version := 4; set_header_length := 5; set_total_length_ := as_u16 (fragment_len + 20);
          set_identification := ip_id args; set_flags := fl; set_fragment_offset := off;
          set_ecn := 0; set_dscp := 0; set_ttl := 32; set_source := src_v4 args;
          set_destination := dst_v4 args; set_next_level_protocol := next_protocol args |}.

(** One round of the loop: the sent packet, and the buffer with it written. *)
Definition compose_piece (args : ComposeArgs) (total_pieces cur_piece buf_offset frag_offset fragment_len : Z)
    (buf : bytes) : outcome (bytes * bytes) :=
  view ← slice buf buf_offset (buf_offset + fragment_len + 20);
  fields ← piece_fields args total_pieces cur_piece frag_offset fragment_len;
  let view := write_header fields (take 20 view) ++ drop 20 view in
  Done (view, splice buf buf_offset view).

Fixpoint compose_loop (fuel : nat) (args : ComposeArgs) (total_pieces cur_piece buf_offset frag_offset : Z)
    (buf : bytes) (s : S) : outcome (S * bytes * result E unit) :=
  if negb (frag_offset <? payload_len args) then Done (s, buf, Ok tt)
  else
    match fuel with
    | O => Panicked OutOfFuel
    | Datatypes.S fuel =>
        let next := Z.min (as_usize (frag_offset + payload_mtu args)) (payload_len args) in
        let fragment_len := next - frag_offset in
        '(view, buf) ← compose_piece args total_pieces cur_piece buf_offset frag_offset fragment_len buf;
        let '(s, r) := cb s view in
        match r with
        | Err e => Done (s, buf, Err e)
        | Ok _ => compose_loop fuel args total_pieces (cur_piece + 1) (buf_offset + fragment_len) next buf s
        end
    end.

(** The loop makes [div_ceil payload_len payload_mtu] rounds. *)
Definition compose_ipv4_packet (args : ComposeArgs) (buf : bytes) (s : S) : outcome (S * bytes * result E unit) :=
  total_pieces ← div_ceil (payload_len args) (payload_mtu args);
  compose_loop (Z.to_nat total_pieces) args total_pieces 0 0 0 buf s.
End compose.

(** Composing hands its pieces to the callback one by one. *)
Fixpoint run_cb {S E} (cb : S -> bytes -> S * result E unit) (s : S) (ps : list bytes) : S * result E unit :=
  match ps with
  | [] => (s, Ok tt)
  | p :: ps => let '(s, r) := cb s p in match r with Err e => (s, Err e) | Ok _ => run_cb cb s ps end
  end.

Definition collect {E} (s : list bytes) (p : bytes) : list bytes * result E unit := (s ++ [p], Ok tt).

Lemma compose_collects `{Ipv4Codec} {E} fuel args t c bo fo buf l k buf' :
  compose_loop (E := E) collect fuel args t c bo fo buf l = Done (k, buf', Ok tt) ->
  exists ps, k = l ++ ps /\ (length ps <= fuel)%nat.
Proof.
  revert c bo fo buf l; induction fuel as [|fuel IH]; intros c bo fo buf l E1; simpl in E1; destruct (negb _); simplify_eq;
    try (exists []; rewrite app_nil_r; simpl; split; [done | lia]).
  apply bind_Done in E1 as ([view buf1] & _ & E1). cbn [collect] in E1. apply IH in E1 as (ps & -> & Hn). exists (view :: ps).
  rewrite <- app_assoc. simpl. split; [done | lia].
Qed.

Lemma compose_loop_cb `{Ipv4Codec} {S E} (cb : S -> bytes -> S * result E unit) fuel args t c bo fo buf l ps buf' s :
  compose_loop (E := E) collect fuel args t c bo fo buf l = Done (l ++ ps, buf', Ok tt) ->
  exists buf2, compose_loop cb fuel args t c bo fo buf s = Done ((run_cb cb s ps).1, buf2, (run_cb cb s ps).2).
Proof.
  revert c bo fo buf l ps s; induction fuel as [|fuel IH]; intros c bo fo buf l ps s E1; simpl in *.
  - destruct (negb _); [|done]. assert (l = l ++ ps) as El by congruence.
    rewrite <- (app_nil_r l) in El at 1. apply app_inv_head in El as <-. by eexists.
  - destruct (negb _).
    { assert (l = l ++ ps) as El by congruence. rewrite <- (app_nil_r l) in El at 1. apply app_inv_head in El as <-. by eexists. }
    apply bind_Done in E1 as ([view buf1] & -> & E1). cbn [mbind outcome_bind]. cbn [collect] in E1.
    assert (exists ps', ps = view :: ps') as [ps' ->].
    { destruct (compose_collects _ _ _ _ _ _ _ _ _ _ E1) as (ps' & E3 & _). rewrite <- app_assoc in E3. apply app_inv_head in E3. eauto. }
    simpl. destruct (cb s view) as [s1 [u|e]]; [|by eexists].
    eapply IH. rewrite E1. by rewrite <- app_assoc.
Qed.

Lemma compose_cb `{Ipv4Codec} {S E} (cb : S -> bytes -> S * result E unit) args buf ps buf' s :
  compose_ipv4_packet (E := E) collect args buf [] = Done (ps, buf', Ok tt) ->
  exists buf2, compose_ipv4_packet cb args buf s = Done ((run_cb cb s ps).1, buf2, (run_cb cb s ps).2).
Proof.
  unfold compose_ipv4_packet. destruct (div_ceil _ _) as [t|]; [|done]. cbn [mbind outcome_bind]. intros E1.
  by apply (compose_loop_cb cb _ _ _ _ _ _ _ [] ps buf' s E1).
Qed.

(** The buffer keeps its size. *)
Lemma compose_loop_length `{Ipv4CodecLaws} {S E} (cb : S -> bytes -> S * result E unit) fuel args t c bo fo buf s s' buf' r :
  0 <= fo -> 0 <= payload_mtu args < 2 ^ 32 -> payload_len args < 2 ^ 32 ->
  compose_loop cb fuel args t c bo fo buf s = Done (s', buf', r) -> length buf' = length buf.
Proof.
  intros Hfo Hm Hl. revert c bo fo Hfo buf s; induction fuel as [|fuel IH]; intros c bo fo Hfo buf s E1; simpl in E1;
    destruct (Z.ltb_spec fo (payload_len args)) as [Hlt|]; cbn [negb] in E1; simplify_eq; try done.
  rewrite (wrap_small 64 (fo + payload_mtu args)) in E1 by (unfold in_width; lia). set (next := Z.min _ _) in *.
  apply bind_Done in E1 as ([view buf1] & Ep & E1). destruct (cb s view) as [s1 r1].
  enough (length buf1 = length buf) as Hb.
  { destruct r1; [|congruence]. apply IH in E1; [congruence | lia]. }
  clear E1 IH. unfold compose_piece in Ep. apply bind_Done in Ep as (w & Ew & Ep). apply slice_Done in Ew as (Hr & Ew).
  apply bind_Done in Ep as (f & _ & Ep). injection Ep as _ <-.
  assert (length w = Z.to_nat (next - fo + 20)) as Hw by (subst w; unfold len in *; rewrite length_take, length_drop; lia).
  assert (length (take 20 w) = 20%nat) as H20 by (rewrite length_take; lia).
  apply splice_length; [lia|]. rewrite len_app. unfold len in *. rewrite (write_header_length _ _ H20), length_drop. lia.
Qed.

Lemma compose_length `{Ipv4CodecLaws} {S E} (cb : S -> bytes -> S * result E unit) args buf s s' buf' r :
  0 <= payload_mtu args < 2 ^ 32 -> payload_len args < 2 ^ 32 ->
  compose_ipv4_packet cb args buf s = Done (s', buf', r) -> length buf' = length buf.
Proof.
  intros Hm Hl E1. unfold compose_ipv4_packet in E1. apply bind_Done in E1 as (t & _ & E1). by eapply compose_loop_length in E1; [| |exact Hm|].
Qed.

(** There are no more pieces than the MTU makes necessary. *)
Lemma compose_count `{Ipv4Codec} {E} args buf ps buf' :
  compose_ipv4_packet (E := E) collect args buf [] = Done (ps, buf', Ok tt) -> 0 < payload_mtu args -> 0 <= payload_len args ->
  len ps <= payload_len args / payload_mtu args + 1.
Proof.
  unfold compose_ipv4_packet, div_ceil. intros E1 Hm Hl. rewrite (proj2 (Z.eqb_neq (payload_mtu args) 0)) in E1 by lia.
  cbn [mbind outcome_bind] in E1. apply compose_collects in E1 as (ps' & -> & Hn). cbn [app]. unfold len.
  pose proof (Z.div_pos (payload_len args) (payload_mtu args) Hl Hm). destruct (_ <? _); lia.
Qed.

(** ** Fragments of a payload *)

(** The fragments of the concatenation of [cs], the first at [off]. *)
Fixpoint frags (id off : Z) (cs : list bytes) : list IpFragment :=
  match cs with
  | [] => []
  | c :: cs => {| frag_id := id; offset := off; data := c |} :: frags id (off + len c) cs
  end.

Definition data_len (fs : list IpFragment) : Z := foldr (fun f acc => len (data f) + acc) 0 fs.

Lemma data_len_nonneg fs : 0 <= data_len fs.
Proof. induction fs as [|f fs IH]; simpl; [lia|]. pose proof (len_nonneg (data f)). lia. Qed.

Lemma data_len_app fs gs : data_len (fs ++ gs) = data_len fs + data_len gs.
Proof. induction fs as [|f fs IH]; simpl; lia. Qed.

Lemma data_len_perm fs gs : fs ≡ₚ gs -> data_len fs = data_len gs.
Proof. induction 1; simpl; lia. Qed.

Lemma data_len_frags id off cs : data_len (frags id off cs) = len (concat cs).
Proof. revert off; induction cs as [|c cs IH]; intros off; simpl; [done|]. by rewrite IH, len_app. Qed.

Lemma data_len_pos fs : Forall (fun f => data f <> []) fs -> fs <> [] -> 0 < data_len fs.
Proof.
  intros Hf Hne. destruct Hf as [|f fs Hd Hf]; [done|]. simpl. pose proof (data_len_nonneg fs).
  destruct (data f); [done|]. unfold len. simpl. lia.
Qed.

Lemma received_length_data fs acc :
  foldl (fun acc f => as_u16 (acc + as_u16 (len (data f)))) (as_u16 acc) fs = as_u16 (acc + data_len fs).
Proof.
  revert acc; induction fs as [|f fs IH]; intros acc; simpl; [by rewrite Z.add_0_r|].
  change (wrap 16 (wrap 16 acc + wrap 16 (len (data f)))) with
    ((acc mod 2 ^ 16 + len (data f) mod 2 ^ 16) mod 2 ^ 16).
  rewrite <- Zplus_mod. change ((acc + len (data f)) mod 2 ^ 16) with (as_u16 (acc + len (data f))).
  rewrite IH. f_equal. lia.
Qed.

Lemma received_length_spec fs : data_len fs <= 65535 -> received_length fs = data_len fs.
Proof.
  intros Hb. unfold received_length. change 0 with (as_u16 0) at 1. rewrite received_length_data.
  apply wrap_small. pose proof (data_len_nonneg fs). unfold in_width. lia.
Qed.

Lemma frags_nonempty id off cs : Forall (fun c => c <> []) cs -> Forall (fun f => data f <> []) (frags id off cs).
Proof. intros Hc; revert off; induction Hc; intros off; simpl; constructor; auto. Qed.

Lemma frags_bounds id off cs f :
  f ∈ frags id off cs -> off <= offset f /\ offset f + len (data f) <= off + len (concat cs).
Proof.
  revert off; induction cs as [|c cs IH]; intros off; simpl; [by intros ?%not_elem_of_nil|].
  rewrite len_app. pose proof (len_nonneg c). pose proof (len_nonneg (concat cs)).
  intros [->|Hf]%elem_of_cons; simpl; [lia|]. apply IH in Hf. lia.
Qed.

(** Distinct fragments do not overlap. *)
Lemma frags_disjoint id off cs i j f g :
  frags id off cs !! i = Some f -> frags id off cs !! j = Some g -> (i < j)%nat ->
  offset f + len (data f) <= offset g.
Proof.
  revert off i j; induction cs as [|c cs IH]; intros off i j; simpl; [done|].
  destruct i as [|i], j as [|j]; simpl; intros Hf Hg Hij; try lia.
  - injection Hf as <-. simpl. apply list_elem_of_lookup_2, frags_bounds in Hg. lia.
  - apply (IH _ _ _ Hf Hg). lia.
Qed.

Lemma overlaps_false f g :
  0 <= offset f -> 0 <= offset g -> data f <> [] -> data g <> [] ->
  offset f + len (data f) <= 65535 -> offset g + len (data g) <= 65535 ->
  offset f + len (data f) <= offset g -> overlaps f g = false /\ overlaps g f = false.
Proof.
  intros Hf Hg Df Dg Bf Bg Hd. unfold overlaps.
  assert (0 < len (data f)) by (destruct (data f); [done | unfold len; simpl; lia]).
  assert (0 < len (data g)) by (destruct (data g); [done | unfold len; simpl; lia]).
  rewrite (wrap_small 16 (len (data f))), (wrap_small 16 (len (data g))) by (unfold in_width; lia).
  rewrite (wrap_small 16 (offset f + _)), (wrap_small 16 (offset g + _)) by (unfold in_width; lia).
  split; match goal with |- (if ?b then _ else _) = _ => destruct b eqn:Eb end; lia.
Qed.

Lemma frags_no_overlap id cs f g :
  Forall (fun c => c <> []) cs -> len (concat cs) <= 65535 ->
  f ∈ frags id 0 cs -> g ∈ frags id 0 cs -> offset f <> offset g -> overlaps f g = false.
Proof.
  intros Hne Hb Hf Hg Hd. pose proof (frags_bounds _ _ _ _ Hf). pose proof (frags_bounds _ _ _ _ Hg).
  pose proof (frags_nonempty id 0 cs Hne) as Hn. rewrite Forall_forall in Hn.
  pose proof (Hn _ Hf). pose proof (Hn _ Hg).
  apply list_elem_of_lookup in Hf as [i Hi]. apply list_elem_of_lookup in Hg as [j Hj].
  destruct (Nat.lt_trichotomy i j) as [Hij|[->|Hij]].
  - refine (proj1 (overlaps_false f g _ _ _ _ _ _ _)); try done; try lia. exact (frags_disjoint _ _ _ _ _ _ _ Hi Hj Hij).
  - congruence.
  - refine (proj2 (overlaps_false g f _ _ _ _ _ _ _)); try done; try lia. exact (frags_disjoint _ _ _ _ _ _ _ Hj Hi Hij).
Qed.

Lemma frags_offsets_NoDup id off cs : Forall (fun c => c <> []) cs -> NoDup (offset <$> frags id off cs).
Proof.
  intros Hc; revert off; induction Hc as [|c cs Hc Hcs IH]; intros off; simpl; constructor; [|apply IH].
  intros Hin. apply list_elem_of_fmap in Hin as (f & E & Hf). apply frags_bounds in Hf.
  assert (0 < len c) by (destruct c; [done | unfold len; simpl; lia]). lia.
Qed.

Lemma frags_sorted id off cs : StronglySorted (fun a b => by_offset a b = true) (frags id off cs).
Proof.
  revert off; induction cs as [|c cs IH]; intros off; simpl; constructor; [apply IH|].
  apply Forall_forall. intros f Hf. apply frags_bounds in Hf. pose proof (len_nonneg c).
  unfold by_offset. simpl. lia.
Qed.

Lemma sort_frags id cs gs :
  Forall (fun c => c <> []) cs -> gs ≡ₚ frags id 0 cs -> stable_sort by_offset gs = frags id 0 cs.
Proof.
  intros Hne Hp. symmetry. apply (sorted_perm_unique by_offset).
  - intros x y Hx Hy Hxy Hyx. unfold by_offset in *.
    apply list_elem_of_lookup in Hx as [i Hi]. apply list_elem_of_lookup in Hy as [j Hj].
    assert (i = j) as <-; [|congruence].
    eapply (NoDup_lookup _ _ _ (offset x) (frags_offsets_NoDup id 0 cs Hne)); rewrite list_lookup_fmap;
      [by rewrite Hi | rewrite Hj; simpl; f_equal; lia].
  - apply frags_sorted.
  - apply stable_sort_sorted; unfold by_offset; intros; lia.
  - by rewrite stable_sort_perm, Hp.
Qed.

Lemma copy_frags id cs : forall pre,
  copy_fragments (frags id (len pre) cs) (pre ++ replicate (length (concat cs)) 0) = Done (pre ++ concat cs).
Proof.
  induction cs as [|c cs IH]; intros pre; simpl; [done|].
  rewrite length_app, replicate_add.
  rewrite (copy_into_app pre (replicate (length c) 0)); [|done| |].
  - cbn [mbind outcome_bind]. rewrite app_assoc. replace (len pre + len c) with (len (pre ++ c)) by apply len_app.
    rewrite IH. by rewrite <- app_assoc.
  - unfold len. by rewrite length_replicate.
  - unfold len. by rewrite length_replicate.
Qed.

(** ** Reassembly in any order *)

(** [v] is a received packet that carries fragment [f] of a payload of [total] bytes. *)
Record carries (id total : Z) (f : IpFragment) (v : Ipv4View) : Prop := {
  carries_fragment : ip_fragment_from v = f;
  carries_id : identification v = id;
  carries_length : as_u16 (total_length v - as_u16 (header_length v * 4)) = len (data f);
  carries_last : is_last_fragment v = (offset f + len (data f) =? total)
}.

Fixpoint add_all (now src dst : Z) (vs : list Ipv4View) (r : IpReassembler)
    : outcome (list (option bytes) * IpReassembler) :=
  match vs with
  | [] => Done ([], r)
  | v :: vs =>
      '(o, r) ← add_fragment now src dst v r;
      '(os, r) ← add_all now src dst vs r;
      Done (o :: os, r)
  end.

Section reassembly.
Context (now src dst id : Z) (cs : list bytes).
Hypothesis (Hne : Forall (fun c => c <> []) cs) (Hmax : len (concat cs) <= 65535).

Abbreviation total := (len (concat cs)).
Abbreviation key := {| key_source := src; key_destination := dst; key_id := id |}.

Definition is_last (f : IpFragment) : bool := offset f + len (data f) =? total.

(** The packet after the fragments [gs] have arrived. *)
Definition partial (gs : list IpFragment) : IpPacket := {|
  source := src; destination := dst;
  announced_length := if existsb is_last gs then Some total else None;
  fragments := gs
|}.

Definition partial_entry (gs : list IpFragment) (o : option IpResemblerValue) : Prop :=
  packet (default {| packet := ip_packet_new src dst; timestamp := now |} o) = partial gs.

Lemma frags_has_last off ds :
  ds <> [] -> exists f, f ∈ frags id off ds /\ offset f + len (data f) = off + len (concat ds).
Proof.
  revert off; induction ds as [|d ds IH]; intros off Hd; [done|]. simpl. rewrite len_app.
  destruct ds as [|d' ds].
  - eexists. split; [by left|]. unfold len. simpl. lia.
  - destruct (IH (off + len d) ltac:(done)) as (f & Hf & E). exists f. split; [by right | lia].
Qed.

Lemma step_partial f gs hs v :
  gs ++ f :: hs ≡ₚ frags id 0 cs -> carries id total f v ->
  (if is_last_fragment v then set_total_length (as_u16 (len (data f) + offset f)) (partial gs) else partial gs) =
    {| source := src; destination := dst;
       announced_length := if existsb is_last (gs ++ [f]) then Some total else None; fragments := gs |} /\
  existsb (fun g => overlaps g f) gs = false.
Proof.
  intros Hp Hv. assert (f ∈ frags id 0 cs) as Hf by (rewrite <- Hp; apply elem_of_app; right; left).
  pose proof (frags_bounds _ _ _ _ Hf) as Hb. pose proof (len_nonneg (data f)). split.
  - rewrite (carries_last _ _ _ _ Hv). rewrite existsb_app. unfold set_total_length, partial, is_last. simpl.
    destruct (offset f + len (data f) =? total) eqn:E; rewrite ?orb_true_r, ?orb_false_r; [|done].
    f_equal. f_equal. rewrite wrap_small by (unfold in_width; lia). lia.
  - apply not_true_is_false. intros Ho. apply existsb_exists in Ho as (g & Hg & Ho).
    apply list_elem_of_In in Hg.
    assert (g ∈ frags id 0 cs) as Hg' by (rewrite <- Hp; apply elem_of_app; by left).
    rewrite (frags_no_overlap id cs g f) in Ho; try done. intros E.
    pose proof (frags_offsets_NoDup id 0 cs Hne) as Hnd. rewrite <- Hp, fmap_app, fmap_cons in Hnd.
    apply NoDup_app in Hnd as (_ & Hsep & _). apply (Hsep (offset g)); [by apply list_elem_of_fmap_2|].
    rewrite E. left.
Qed.

Lemma complete_partial gs hs :
  gs ++ hs ≡ₚ frags id 0 cs -> is_complete (partial gs) = true -> hs = [].
Proof.
  intros Hp Hc. destruct (decide (hs = [])) as [|Hh]; [done|]. exfalso.
  pose proof (data_len_perm _ _ Hp) as Hd. rewrite data_len_app, data_len_frags in Hd.
  assert (0 < data_len hs).
  { apply data_len_pos; [|done]. pose proof (frags_nonempty id 0 cs Hne) as Hf.
    rewrite <- Hp in Hf. by apply Forall_app in Hf as [_ ?]. }
  unfold is_complete, partial in Hc. simpl in Hc. destruct (existsb _ _); [|done].
  rewrite received_length_spec in Hc by lia. lia.
Qed.

Lemma assemble_all gs :
  cs <> [] -> gs ≡ₚ frags id 0 cs -> exists p, assemble (partial gs) = Done (Some (concat cs), p).
Proof.
  intros Hcs Hp. destruct (frags_has_last 0 cs Hcs) as (f & Hf & Ef).
  assert (existsb is_last gs = true) as Hl.
  { apply existsb_exists. exists f. split; [apply list_elem_of_In; by rewrite Hp | unfold is_last; lia]. }
  unfold assemble. unfold is_complete, partial. simpl. rewrite Hl.
  rewrite received_length_spec by (rewrite (data_len_perm _ _ Hp), data_len_frags; lia).
  rewrite (data_len_perm _ _ Hp), data_len_frags, Z.eqb_refl. simpl.
  rewrite (sort_frags _ _ _ Hne Hp).
  replace (Z.to_nat total) with (length (concat cs)) by (unfold len; lia).
  pose proof (copy_frags id cs []) as Hc. simpl in Hc. change (len []) with 0 in Hc. rewrite Hc. by eexists.
Qed.

Lemma add_partial f gs hs v r :
  gs ++ f :: hs ≡ₚ frags id 0 cs -> carries id total f v -> partial_entry gs (packets r !! key) ->
  exists o r', add_fragment now src dst v r = Done (o, r') /\ timeout r' = timeout r /\
    match hs with
    | [] => o = Some (concat cs) /\ packets r' = delete key (packets r)
    | _ :: _ => o = None /\ partial_entry (gs ++ [f]) (packets r' !! key) /\
                delete key (packets r') = delete key (packets r)
    end.
Proof.
  intros Hp Hv He. destruct (step_partial f gs hs v Hp Hv) as [Ht Ho].
  assert (data f = view_payload v) as Hd by (by rewrite <- (carries_fragment _ _ _ _ Hv)).
  assert (f ∈ frags id 0 cs) as Hf by (rewrite <- Hp; apply elem_of_app; right; left).
  pose proof (frags_bounds _ _ _ _ Hf) as Hb. pose proof (len_nonneg (data f)).
  unfold add_fragment. rewrite (carries_length _ _ _ _ Hv), <- Hd.
  rewrite (wrap_small 16 (len (data f))) by (unfold in_width; lia). rewrite Z.eqb_refl. cbn [negb].
  rewrite (carries_id _ _ _ _ Hv), (carries_fragment _ _ _ _ Hv). unfold partial_entry in He. rewrite He, Ht.
  unfold packet_add_fragment. cbn [fragments source destination announced_length]. rewrite Ho.
  change {| source := src; destination := dst;
    announced_length := if existsb is_last (gs ++ [f]) then Some total else None; fragments := gs ++ [f] |}
    with (partial (gs ++ [f])).
  rewrite (cons_middle f gs hs) in Hp. rewrite app_assoc in Hp. destruct hs as [|h hs].
  - rewrite app_nil_r in Hp. destruct (assemble_all (gs ++ [f])) as [p E]; [|done|].
    { intros ->. simpl in Hp. apply Permutation_nil_r in Hp. by destruct gs. }
    rewrite E. cbn [mbind outcome_bind]. do 2 eexists. split; [reflexivity|]. done.
  - unfold assemble. destruct (is_complete (partial (gs ++ [f]))) eqn:Ec.
    { by apply (complete_partial _ _ Hp) in Ec. }
    cbn [negb mbind outcome_bind]. do 2 eexists. split; [reflexivity|]. split; [done|]. split; [done|].
    unfold partial_entry. cbn [packets]. rewrite lookup_insert_eq. split; [done|]. by rewrite delete_insert_eq.
Qed.
End reassembly.

(** The fragments of a payload of at most 65535 bytes, received in any
    order with nothing else pending under their key, yield nothing until the
    last of them arrives and then exactly the payload, and leave the
    reassembler without an entry for it. *)
Theorem reassemble_any_order now src dst id cs fs vs r
    (Hne : Forall (fun c => c <> []) cs) (Hcs : cs <> []) (Hmax : len (concat cs) <= 65535)
    (Hp : fs ≡ₚ frags id 0 cs) (Hv : Forall2 (carries id (len (concat cs))) fs vs)
    (Hfree : packets r !! {| key_source := src; key_destination := dst; key_id := id |} = None) :
  add_all now src dst vs r = Done (replicate (length cs - 1) None ++ [Some (concat cs)], r).
Proof.
  set (key := {| key_source := src; key_destination := dst; key_id := id |}) in *.
  assert (forall fs gs vs r0, gs ++ fs ≡ₚ frags id 0 cs -> fs <> [] ->
    Forall2 (carries id (len (concat cs))) fs vs -> partial_entry now src dst cs gs (packets r0 !! key) ->
    exists r', add_all now src dst vs r0 = Done (replicate (length fs - 1) None ++ [Some (concat cs)], r') /\
      packets r' = delete key (packets r0) /\ timeout r' = timeout r0) as Hall.
  { clear fs vs Hp Hv. induction fs as [|f fs IH]; intros gs vs r0 Hp Hnil Hv He; [done|].
    apply Forall2_cons_inv_l in Hv as (v & vs' & Hfv & Hv & ->).
    destruct (add_partial now src dst id cs Hne Hmax f gs fs v r0 Hp Hfv He) as (o & r1 & E & Ht & Hcase).
    simpl. rewrite E. cbn [mbind outcome_bind]. destruct fs as [|f' fs].
    - destruct Hcase as [-> Hr1]. apply Forall2_nil_inv_l in Hv as ->. simpl. by eexists.
    - destruct Hcase as (-> & He' & Hdel).
      destruct (IH (gs ++ [f]) vs' r1) as (r2 & E2 & Hr2 & Ht2); [by rewrite <- app_assoc | done | done | done |].
      rewrite E2. cbn [mbind outcome_bind]. exists r2. simpl. rewrite Nat.sub_0_r.
      split; [done|]. split; [rewrite Hr2; exact Hdel | by rewrite Ht2, Ht]. }
  assert (length fs = length cs) as Hlen.
  { rewrite (Permutation_length Hp). clear. generalize 0. induction cs as [|c cs IH]; intros z; simpl; [done|]. by rewrite IH. }
  destruct (Hall fs [] vs r) as (r' & E & Hr' & Ht').
  - done.
  - intros ->. destruct cs; [done | discriminate Hlen].
  - done.
  - unfold partial_entry. by rewrite Hfree.
  - rewrite E, Hlen. f_equal. f_equal. destruct r, r'; simpl in *. rewrite delete_id in Hr' by done. by subst.
Qed.

Definition sample_view (id off fl : Z) (body : bytes) : Ipv4View := {|
  view_version := 4; view_source := 1; view_destination := 2; view_protocol := 17;
  identification := id; fragment_offset := off / 8; flags := fl; total_length := 20 + len body;
  header_length := 5; view_payload := body |}.

Lemma reassemble_any_order_witness :
  add_all 0 1 2 [sample_view 7 8 0 [9; 10]; sample_view 7 0 MoreFragments [1; 2; 3; 4; 5; 6; 7; 8]]
    (reassembler_new 10) = Done ([None; Some [1; 2; 3; 4; 5; 6; 7; 8; 9; 10]], reassembler_new 10).
Proof.
  apply (reassemble_any_order 0 1 2 7 [[1; 2; 3; 4; 5; 6; 7; 8]; [9; 10]]
    [{| frag_id := 7; offset := 8; data := [9; 10] |};
     {| frag_id := 7; offset := 0; data := [1; 2; 3; 4; 5; 6; 7; 8] |}]).
  - repeat constructor; discriminate.
  - discriminate.
  - vm_compute. discriminate.
  - apply perm_swap.
  - repeat constructor.
  - reflexivity.
Defined.

(** What is assembled fits a datagram, whatever is pending. *)
Lemma received_length_range fs : 0 <= received_length fs <= 65535.
Proof.
  unfold received_length. enough (forall acc, 0 <= acc <= 65535 ->
    0 <= foldl (fun acc f => as_u16 (acc + as_u16 (len (data f)))) acc fs <= 65535) as Hall by (apply Hall; lia).
  induction fs as [|f fs IH]; intros acc Ha; simpl; [done|]. apply IH.
  pose proof (wrap_in_width 16 (acc + as_u16 (len (data f))) ltac:(lia)) as Hw. unfold in_width in Hw. lia.
Qed.

Lemma copy_fragments_len fs buf b : copy_fragments fs buf = Done b -> len b = len buf.
Proof.
  revert buf; induction fs as [|f fs IH]; intros buf E; simpl in E; [by simplify_eq|].
  apply bind_Done in E as (b1 & E1 & E). apply copy_into_Done in E1 as (_ & _ & E1). apply IH in E. lia.
Qed.

Lemma assemble_len p b p' : assemble p = Done (Some b, p') -> len b <= 65535.
Proof.
  unfold assemble, is_complete. destruct (announced_length p) as [n|] eqn:En; [|done]. cbn [announced_length].
  destruct (Z.eqb_spec (received_length (fragments p)) n) as [<-|]; cbn [negb]; [|done]. cbn [unwrap mbind outcome_bind].
  intros E. apply bind_Done in E as (c & Ec & E). injection E as <- _. apply copy_fragments_len in Ec. rewrite Ec.
  pose proof (received_length_range (fragments p)). unfold len. rewrite length_replicate. lia.
Qed.

Lemma add_fragment_len now src dst v r b r' : add_fragment now src dst v r = Done (Some b, r') -> len b <= 65535.
Proof.
  unfold add_fragment. destruct (negb _); [done|]. intros E. apply bind_Done in E as ([o p] & Ea & E).
  destruct o as [b'|]; [|done]. injection E as <- _. by eapply assemble_len.
Qed.

(** ** Fragments out of range *)

Lemma copy_fragments_out_of_range fs buf :
  Forall (fun f => 0 <= offset f) fs -> (exists f, f ∈ fs /\ len buf < offset f + len (data f)) ->
  copy_fragments fs buf = Panicked IndexOutOfRange.
Proof.
  intros Hpos; revert buf; induction Hpos as [|f fs Hf Hpos IH]; intros buf (g & Hg & Hout);
    [by apply not_elem_of_nil in Hg|].
  simpl. pose proof (len_nonneg (data f)). unfold copy_into.
  destruct (bool_decide_reflect (0 <= offset f <= offset f + len (data f) /\ offset f + len (data f) <= len buf))
    as [Hin|Hin]; [|done].
  rewrite bool_decide_eq_true_2 by lia. cbn [mbind outcome_bind].
  apply IH. exists g. apply elem_of_cons in Hg as [->|Hg]; [lia|]. split; [done|].
  unfold len in *. rewrite splice_length by (unfold len; lia). lia.
Qed.

(** Fragments are only checked against each other, not against the
    announced length: when the lengths add up but a fragment lies beyond the
    announced end, assembling the packet panics. *)
Theorem stray_fragment_panics (p : IpPacket) (n : Z) (f : IpFragment)
    (Hn : announced_length p = Some n) (Hc : received_length (fragments p) = n) (Hn0 : 0 <= n)
    (Hpos : Forall (fun f => 0 <= offset f) (fragments p))
    (Hf : f ∈ fragments p) (Hout : n < offset f + len (data f)) :
  assemble p = Panicked IndexOutOfRange.
Proof.
  unfold assemble, is_complete. rewrite Hn, Hc, Z.eqb_refl. cbn [negb announced_length unwrap mbind outcome_bind].
  rewrite copy_fragments_out_of_range; [done | by rewrite stable_sort_perm |].
  exists f. rewrite stable_sort_perm. split; [done|]. unfold len in *. rewrite length_replicate. lia.
Qed.

(** Two packets suffice: 8 bytes at offset 800, then a last fragment of 8 bytes at offset 8. *)
Definition stray_first : Ipv4View := sample_view 7 800 MoreFragments [1; 2; 3; 4; 5; 6; 7; 8].
Definition stray_second : Ipv4View := sample_view 7 8 0 [1; 2; 3; 4; 5; 6; 7; 8].
Definition stray_packet : IpPacket := {|
  source := 1; destination := 2; announced_length := Some 16;
  fragments := [ip_fragment_from stray_first; ip_fragment_from stray_second] |}.

Lemma stray_fragment_panics_witness :
  assemble stray_packet = Panicked IndexOutOfRange /\
  add_all 0 1 2 [stray_first; stray_second] (reassembler_new 10) = Panicked IndexOutOfRange.
Proof.
  split; [|reflexivity].
  apply (stray_fragment_panics stray_packet 16 (ip_fragment_from stray_first)).
  - reflexivity.
  - reflexivity.
  - lia.
  - repeat constructor; vm_compute; discriminate.
  - left.
  - reflexivity.
Defined.

(** ** Composing and reassembling *)

Section compose_spec.
Context `{Ipv4CodecLaws} {E : Type} (args : ComposeArgs) (payload : bytes).

Abbreviation mtu := (payload_mtu args).
Abbreviation plen := (payload_len args).

(** A payload that fits one IPv4 datagram, cut at multiples of eight bytes if it is cut. *)
Record compose_ok : Prop := {
  co_len : plen = len payload;
  co_pos : 0 < plen;
  co_max : plen <= 65535 /\ Z.min mtu plen + 20 <= 65535;
  co_mtu : 0 < mtu < 2 ^ 32;
  co_id : in_width 16 (ip_id args);
  co_src : in_width 32 (src_v4 args);
  co_dst : in_width 32 (dst_v4 args);
  co_proto : in_width 8 (next_protocol args);
  co_cut : plen <= mtu \/ mtu mod 8 = 0
}.

Hypothesis Hok : compose_ok.

(** The addresses of a piece. *)
Definition addressed (v : Ipv4View) : Prop :=
  view_version v = 4 /\ view_source v = src_v4 args /\ view_destination v = dst_v4 args /\ view_protocol v = next_protocol args.

Definition pieces : Z := if 0 <? plen mod mtu then plen / mtu + 1 else plen / mtu.

Lemma pieces_spec cur : cur * mtu < plen -> (cur + 1 <= pieces) /\ (plen <= (cur + 1) * mtu <-> cur = pieces - 1).
Proof.
  destruct Hok as [_ Hp _ Hm _ _ _ _ _]. unfold pieces.
  pose proof (Z.div_mod plen mtu ltac:(lia)). pose proof (Z.mod_pos_bound plen mtu ltac:(lia)).
  destruct (Z.ltb_spec 0 (plen mod mtu)); intros Hc; split; try split; try nia.
Qed.

(** The emitted piece at [off], as the receiver sees it. *)
Lemma piece_carries cur off fl h chunk fields :
  off = cur * mtu -> 0 <= cur -> off < plen -> fl = Z.min (off + mtu) plen - off -> len chunk = fl ->
  length h = 20%nat -> piece_fields args pieces cur off fl = Done fields ->
  exists v, ipv4_view (write_header fields h ++ chunk) = Some v /\
    carries (ip_id args) plen {| frag_id := ip_id args; offset := off; data := chunk |} v /\ addressed v.
Proof.
  intros Ho Hcur Hoff Hfl Hchunk Hh Hf. destruct Hok as [Hlen Hp Hmax Hm Hid Hsrc Hdst Hproto Hcut].
  pose proof (pieces_spec cur ltac:(lia)) as [Hle Hlast].
  unfold piece_fields in Hf. apply bind_Done in Hf as ([fg fo] & Hfg & Hfields). injection Hfields as <-.
  assert (as_u16 (fl + 20) = 20 + fl) as Htot by (rewrite wrap_small; unfold in_width; lia).
  assert (as_u16 off = off) as Hoff16 by (apply wrap_small; unfold in_width; lia).
  assert (in_width 3 fg /\ in_width 13 fo /\ fo * 8 = off /\ (Z.land fg MoreFragments =? 0) = (off + fl =? plen))
    as (Hfg3 & Hfo & Hfo8 & Hmf).
  { destruct (Z.ltb_spec 1 pieces).
    - destruct (Z.eqb_spec (off mod 8) 0) as [Hm8|]; cbn [negb] in Hfg; [|done]. injection Hfg as <- <-. rewrite Hoff16.
      assert (0 <= off) by nia. pose proof (Z.div_mod off 8 ltac:(lia)).
      split; [|split; [|split]]; [|unfold in_width; lia | lia |].
      + destruct (negb _); vm_compute; split; congruence.
      + destruct (Z.eqb_spec cur (pieces - 1)) as [Ec|Ec]; cbn [negb].
        * assert (plen <= (cur + 1) * mtu) by (by apply Hlast).
          change (Z.land 0 MoreFragments =? 0) with true. symmetry. apply Z.eqb_eq. lia.
        * assert (~ plen <= (cur + 1) * mtu) by (by rewrite Hlast).
          change (Z.land MoreFragments MoreFragments =? 0) with false. symmetry. apply Z.eqb_neq. lia.
    - injection Hfg as <- <-. assert (cur = 0) by lia. assert (cur = pieces - 1) as Ec by lia.
      apply Hlast in Ec. assert (off = 0) by nia.
      split; [vm_compute; split; congruence|]. split; [vm_compute; split; congruence|]. split; [lia|].
      change (Z.land DontFragment MoreFragments =? 0) with true. symmetry. apply Z.eqb_eq. lia. }
  eexists. split.
  - apply view_write; cbn [set_version set_header_length set_total_length_ set_identification set_flags
      set_fragment_offset set_source set_destination set_next_level_protocol]; try done; rewrite ?Htot, ?Hchunk; unfold in_width; lia.
  - split; [|done]. split; unfold ip_fragment_from, is_last_fragment;
      cbn [identification fragment_offset flags total_length header_length view_payload set_identification
           set_flags set_fragment_offset set_total_length_ offset data].
    + by rewrite Hfo8, Hoff16.
    + done.
    + rewrite Htot, Hchunk. change (as_u16 (5 * 4)) with 20. rewrite wrap_small; unfold in_width; lia.
    + by rewrite Hchunk.
Qed.

Lemma piece_fields_done cur off fl :
  off = cur * mtu -> 0 <= cur -> off < plen -> exists fields, piece_fields args pieces cur off fl = Done fields.
Proof.
  intros -> Hcur Hoff. destruct Hok as [_ _ _ Hm _ _ _ _ Hcut]. unfold piece_fields.
  destruct (Z.ltb_spec 1 pieces) as [Hp|]; [|by eexists].
  assert ((cur * mtu) mod 8 = 0) as ->; [|by eexists].
  destruct Hcut as [Hc|Hc].
  - exfalso. destruct (pieces_spec 0 ltac:(lia)) as [_ Hl]. assert (0 = pieces - 1) by (apply Hl; lia). lia.
  - by rewrite Z.mul_mod, Hc, Z.mul_0_r by lia.
Qed.

(** The buffer still holds the payload from [off] on, after the header's room. *)
Definition room (off : Z) (buf : bytes) : Prop :=
  20 + plen <= len buf /\ take (Z.to_nat (plen - off)) (drop (Z.to_nat off + 20) buf) = drop (Z.to_nat off) payload.

Lemma compose_piece_spec cur off fl buf :
  off = cur * mtu -> 0 <= cur -> off < plen -> fl = Z.min (off + mtu) plen - off -> room off buf ->
  exists view buf' v,
    compose_piece args pieces cur off off fl buf = Done (view, buf') /\ room (off + fl) buf' /\
    ipv4_view view = Some v /\
    carries (ip_id args) plen
      {| frag_id := ip_id args; offset := off; data := take (Z.to_nat fl) (drop (Z.to_nat off) payload) |} v /\
    addressed v /\ len view <= 65535.
Proof.
  intros Ho Hcur Hoff Hfl [Hlen Hdrop]. pose proof Hok as [Hpl Hp Hmax Hm _ _ _ _ _].
  assert (0 <= off) by nia. unfold compose_piece, slice.
  rewrite bool_decide_eq_true_2 by lia. cbn [mbind outcome_bind].
  destruct (piece_fields_done cur off fl Ho Hcur Hoff) as [fields Hf]. rewrite Hf. cbn [mbind outcome_bind].
  replace (Z.to_nat (off + fl + 20 - off)) with (20 + Z.to_nat fl)%nat by lia.
  set (w := take (20 + Z.to_nat fl) (drop (Z.to_nat off) buf)).
  assert (length w = 20 + Z.to_nat fl)%nat as Hw
    by (unfold w, len in *; rewrite length_take, length_drop; lia).
  assert (drop 20 w = take (Z.to_nat fl) (drop (Z.to_nat off) payload)) as Hbody.
  { unfold w. rewrite <- take_drop_commute, drop_drop, <- Hdrop, take_take. f_equal. lia. }
  assert (length (take 20 w) = 20%nat) as H20 by (rewrite length_take; lia).
  assert (len (drop 20 w) = fl) as Hchunk by (unfold len; rewrite length_drop; lia).
  destruct (piece_carries cur off fl (take 20 w) (drop 20 w) fields Ho Hcur Hoff Hfl Hchunk H20 Hf) as (v & Hv & Hc & Ha).
  pose proof (write_header_length fields _ H20) as Hwl.
  do 3 eexists. split; [reflexivity|]. split; [|split_and!; [exact Hv | by rewrite <- Hbody | done | rewrite len_app; unfold len in *; rewrite Hwl; lia]].
  set (view := write_header fields (take 20 w) ++ drop 20 w).
  assert (length view = 20 + Z.to_nat fl)%nat as Hview by (unfold view; rewrite length_app, Hwl, length_drop; lia).
  split.
  - unfold len in *. rewrite splice_length by (unfold len; lia). lia.
  - unfold splice. rewrite app_assoc, drop_app_length'.
    + rewrite Hview. replace (Z.to_nat (off + fl)) with (Z.to_nat off + Z.to_nat fl)%nat by lia.
      replace (Z.to_nat off + (20 + Z.to_nat fl))%nat with (Z.to_nat off + 20 + Z.to_nat fl)%nat by lia.
      rewrite <- (drop_drop buf), <- (drop_drop payload), <- Hdrop.
      replace (Z.to_nat (plen - off)) with (Z.to_nat fl + Z.to_nat (plen - (off + fl)))%nat by lia.
      by rewrite take_drop_commute.
    + rewrite length_app, length_take, Hview. unfold len in *. lia.
Qed.

Lemma compose_loop_spec : forall fuel cur off buf s,
  (off = cur * mtu /\ off < plen \/ off = plen) -> 0 <= cur -> room off buf -> pieces - cur <= Z.of_nat fuel ->
  exists cs ps vs buf', compose_loop (E := E) collect fuel args pieces cur off off buf s = Done (s ++ ps, buf', Ok tt) /\
    concat cs = drop (Z.to_nat off) payload /\ Forall (fun c => c <> []) cs /\
    Forall2 (fun p v => ipv4_view p = Some v) ps vs /\
    Forall2 (carries (ip_id args) plen) (frags (ip_id args) off cs) vs /\ Forall addressed vs /\ Forall (fun p => len p <= 65535) ps.
Proof.
  pose proof Hok as [Hpl Hp Hmax Hm _ _ _ _ _].
  induction fuel as [|fuel IH]; intros cur off buf s Hoff Hcur Hroom Hfuel;
    (destruct (decide (off = plen)) as [Hend|Hne];
      [exists [], [], [], buf; cbn [compose_loop]; rewrite (proj2 (Z.ltb_ge off plen)) by lia; cbn [negb];
       rewrite app_nil_r; split_and!; [done | | constructor | constructor | constructor | constructor | constructor];
       symmetry; apply drop_ge; unfold len in *; lia|]);
    destruct Hoff as [[Ho Hlt]|]; try done.
  - destruct (pieces_spec cur ltac:(lia)). lia.
  - cbn [compose_loop]. rewrite (proj2 (Z.ltb_lt off plen)) by lia. cbn [negb].
    assert (as_usize (off + mtu) = off + mtu) as -> by (apply wrap_small; unfold in_width; nia).
    set (fl := Z.min (off + mtu) plen - off).
    destruct (compose_piece_spec cur off fl buf Ho Hcur Hlt eq_refl Hroom) as (view & buf' & v & E1 & Hroom' & Hv & Hc & Ha & Hsm).
    rewrite E1. cbn [mbind outcome_bind collect].
    replace (Z.min (off + mtu) plen) with (off + fl) by (unfold fl; lia).
    destruct (IH (cur + 1) (off + fl) buf' (s ++ [view])) as (cs & ps & vs & buf2 & E2 & Hcat & Hnem & Hps & Hvs & Has & Hsms);
      [unfold fl; nia | lia | done | lia |].
    set (chunk := take (Z.to_nat fl) (drop (Z.to_nat off) payload)) in *.
    assert (len chunk = fl) as Hchunk.
    { unfold chunk, len in *. rewrite length_take, length_drop. nia. }
    exists (chunk :: cs), (view :: ps), (v :: vs), buf2. split_and!.
    + rewrite E2. by rewrite <- app_assoc.
    + simpl. rewrite Hcat. unfold chunk. replace (Z.to_nat (off + fl)) with (Z.to_nat off + Z.to_nat fl)%nat by nia.
      rewrite <- drop_drop. apply take_drop.
    + constructor; [|done]. intros Hnil. rewrite Hnil in Hchunk. unfold len in Hchunk. simpl in Hchunk. nia.
    + by constructor.
    + simpl. constructor; [exact Hc|]. by rewrite Hchunk.
    + by constructor.
    + by constructor.
Qed.

(** The whole buffer: header room, payload, and what may follow. *)
Lemma compose_pieces header rest :
  length header = 20%nat ->
  exists cs ps vs buf', compose_ipv4_packet (E := E) collect args (header ++ payload ++ rest) [] = Done (ps, buf', Ok tt) /\
    concat cs = payload /\ Forall (fun c => c <> []) cs /\ cs <> [] /\ length cs = length ps /\
    Forall2 (fun p v => ipv4_view p = Some v) ps vs /\
    Forall2 (carries (ip_id args) plen) (frags (ip_id args) 0 cs) vs /\ Forall addressed vs /\ Forall (fun p => len p <= 65535) ps.
Proof.
  intros Hh. pose proof Hok as [Hpl Hp Hmax Hm _ _ _ _ _]. unfold compose_ipv4_packet, div_ceil.
  rewrite (proj2 (Z.eqb_neq mtu 0)) by lia. cbn [mbind outcome_bind].
  change (if 0 <? plen mod mtu then _ else _) with pieces.
  destruct (compose_loop_spec (Z.to_nat pieces) 0 0 (header ++ payload ++ rest) [])
    as (cs & ps & vs & buf' & E1 & Hcat & Hne & Hps & Hvs & Ha & Hsm); [left; lia | lia | | lia |].
  - pose proof (len_nonneg rest). split; [rewrite !len_app; unfold len in *; lia|].
    rewrite drop_app_length' by (rewrite Hh; reflexivity). rewrite take_app_length' by (unfold len in *; lia). done.
  - change (drop (Z.to_nat 0) payload) with payload in Hcat. exists cs, ps, vs, buf'. split_and!; try done.
    + intros ->. rewrite Hpl, <- Hcat in Hp. unfold len in Hp. simpl in Hp. lia.
    + apply Forall2_length in Hps, Hvs. rewrite <- Hps in Hvs. rewrite <- Hvs. clear. generalize 0.
      induction cs as [|c cs IH]; intros z; simpl; [done|]. by rewrite <- IH.
Qed.

(** The pieces, as a receiver sees them in any order, give the payload back. *)
Lemma compose_reassembles header rest :
  length header = 20%nat ->
  exists ps vs buf', compose_ipv4_packet (E := E) collect args (header ++ payload ++ rest) [] = Done (ps, buf', Ok tt) /\
    Forall2 (fun p v => ipv4_view p = Some v) ps vs /\ Forall addressed vs /\ ps <> [] /\ Forall (fun p => len p <= 65535) ps /\
    forall now r vs', packets r !! {| key_source := src_v4 args; key_destination := dst_v4 args; key_id := ip_id args |} = None ->
      vs' ≡ₚ vs ->
      add_all now (src_v4 args) (dst_v4 args) vs' r = Done (replicate (length ps - 1) None ++ [Some payload], r).
Proof.
  intros Hh. destruct (compose_pieces header rest Hh) as (cs & ps & vs & buf' & E1 & Hcat & Hne & Hcs & Hlen & Hps & Hvs & Ha & Hsm).
  exists ps, vs, buf'. split_and!; try done; [by intros ->; destruct cs|]. intros now r vs' Hfree Hp'.
  destruct (Permutation_Forall2 (symmetry Hp') (proj2 (Forall2_flip _ _ _) Hvs)) as (fs & Hperm & Hfs%Forall2_flip).
  pose proof Hok as [Hpl Hp Hmax _ _ _ _ _ _]. rewrite <- Hlen, <- Hcat. rewrite <- Hcat in Hpl.
  apply (reassemble_any_order _ _ _ (ip_id args) cs fs); try done; [lia | by rewrite <- Hpl].
Qed.
End compose_spec.

(** Composing a payload and feeding the pieces, in any order, to a
    reassembler that has nothing pending for them gives the payload back after
    the last piece, and not before; composing never panics for a payload that
    fits a datagram and an MTU that is a multiple of eight (or no smaller than
    the payload), although every header is written over the buffer the payload
    lies in, and every piece carries the addresses asked for. *)
Theorem compose_reassemble_roundtrip `{Ipv4CodecLaws} {E : Type} (args : ComposeArgs) (header payload rest : bytes)
    (now : Z) (r : IpReassembler) (Hok : compose_ok args payload) (Hh : length header = 20%nat)
    (Hfree : packets r !! {| key_source := src_v4 args; key_destination := dst_v4 args; key_id := ip_id args |} = None) :
  exists ps vs buf', compose_ipv4_packet (E := E) collect args (header ++ payload ++ rest) [] = Done (ps, buf', Ok tt) /\
    Forall2 (fun p v => ipv4_view p = Some v) ps vs /\ Forall (addressed args) vs /\
    forall vs', vs' ≡ₚ vs ->
      add_all now (src_v4 args) (dst_v4 args) vs' r = Done (replicate (length ps - 1) None ++ [Some payload], r).
Proof.
  destruct (compose_reassembles (E := E) args payload Hok header rest Hh) as (ps & vs & buf' & E1 & Hps & Ha & _ & _ & Hall).
  exists ps, vs, buf'. split_and!; try done. intros vs'. by apply Hall.
Qed.

(** The wire format of an IPv4 header without options. *)
Definition be16 (z : Z) : bytes := [z / 256; z mod 256].
Definition be32 (z : Z) : bytes := be16 (z / 65536) ++ be16 (z mod 65536).

Definition header_without_checksum (f : Ipv4Fields) (checksum : Z) : bytes :=
  [set_version f * 16 + set_header_length f; set_dscp f * 4 + set_ecn f] ++ be16 (set_total_length_ f) ++
  be16 (set_identification f) ++ [set_flags f * 32 + set_fragment_offset f / 256; set_fragment_offset f mod 256] ++
  [set_ttl f; set_next_level_protocol f] ++ be16 checksum ++ be32 (set_source f) ++ be32 (set_destination f).

Fixpoint sum16 (l : bytes) : Z :=
  match l with a :: b :: l => a * 256 + b + sum16 l | _ => 0 end.
Definition internet_checksum (l : bytes) : Z :=
  let s := sum16 l in let s := s mod 65536 + s / 65536 in 65535 - (s mod 65536 + s / 65536).

Definition byte_at (l : bytes) (i : nat) : Z := default 0 (l !! i).

Definition read32 (l : bytes) (i : nat) : Z :=
  wrap 32 ((byte_at l i * 256 + byte_at l (i + 1)) * 65536 + (byte_at l (i + 2) * 256 + byte_at l (i + 3))).

Lemma be16_value z : in_width 16 z -> wrap 16 (z / 256 * 256 + z mod 256) = z.
Proof. intros Hz. transitivity (wrap 16 z); [f_equal; pose proof (Z.div_mod z 256 ltac:(lia)); lia | by apply wrap_small]. Qed.

Lemma be32_value z : 0 <= z < 2 ^ 32 ->
  wrap 32 ((z / 65536 / 256 * 256 + z / 65536 mod 256) * 65536 + (z mod 65536 / 256 * 256 + z mod 65536 mod 256)) = z.
Proof.
  intros Hz. transitivity (wrap 32 z); [f_equal | by apply wrap_small]. pose proof (Z.div_mod z 65536 ltac:(lia)). pose proof (Z.div_mod (z / 65536) 256 ltac:(lia)).
  pose proof (Z.div_mod (z mod 65536) 256 ltac:(lia)). lia.
Qed.

#[global] Instance wire_codec : Ipv4Codec := {|
  write_header f _ := header_without_checksum f (internet_checksum (header_without_checksum f 0));
  ipv4_view l :=
    if (length l <? 20)%nat then None
    else
      let hl := byte_at l 0 mod 16 in
      let total := wrap 16 (byte_at l 2 * 256 + byte_at l 3) in
      Some {| view_version := byte_at l 0 / 16; view_source := read32 l 12; view_destination := read32 l 16;
              view_protocol := byte_at l 9; identification := wrap 16 (byte_at l 4 * 256 + byte_at l 5);
              fragment_offset := (byte_at l 6 mod 32) * 256 + byte_at l 7;
              flags := byte_at l 6 / 32; total_length := total; header_length := hl;
              view_payload := take (Z.to_nat (total - hl * 4)) (drop (Z.to_nat (hl * 4)) l) |}
|}.

#[global] Instance wire_codec_laws : Ipv4CodecLaws.
Proof.
  split.
  { intros l v. unfold ipv4_view, wire_codec. destruct (_ <? _)%nat; [done|]. injection 1 as <-.
    cbn [view_source view_destination identification view_payload]. split_and!; try (apply wrap_in_width; lia).
    pose proof (wrap_in_width 16 (byte_at l 2 * 256 + byte_at l 3) ltac:(lia)) as Hw. unfold in_width in Hw.
    pose proof (Z.mod_pos_bound (byte_at l 0) 16 ltac:(lia)). unfold len. rewrite length_take. lia. }
  { intros l v. unfold ipv4_view, wire_codec. destruct (_ <? _)%nat; [done|]. injection 1 as <-. cbn [header_length total_length view_payload].
    intros Hh Ht. apply take_ge. rewrite length_drop. unfold len in *. lia. }
  { done. }
  intros f h body _ Hv Hl Ht Hbody Hid Hfl Hoff Hsrc Hdst Hproto. unfold in_width in *.
  simpl write_header. set (ck := internet_checksum _). unfold header_without_checksum, ipv4_view.
  cbn [wire_codec be16 be32 app length Nat.ltb Nat.leb byte_at lookup list_lookup default].
  rewrite Hv, Hl. cbn [byte_at]. unfold byte_at. cbn [lookup list_lookup default id].
  assert (in_width 16 (set_total_length_ f)) as Ht16 by (unfold in_width; lia).
  pose proof (Z.div_mod (set_fragment_offset f) 256 ltac:(lia)).
  assert (0 <= set_fragment_offset f / 256 < 32) by (split; [apply Z.div_pos | apply Z.div_lt_upper_bound]; lia).
  f_equal. f_equal; try lia.
  - by apply be32_value.
  - by apply be32_value.
  - by apply be16_value.
  - rewrite (Z.add_comm (set_flags f * 32)), Z.mod_add, Z.mod_small by lia. lia.
  - rewrite Z.div_add_l, Z.div_small by lia. lia.
  - by apply be16_value.
  - change ((4 * 16 + 5) mod 16 * 4) with 20. change (Z.to_nat 20) with 20%nat. cbn [drop]. rewrite be16_value by done.
    apply take_ge. unfold len in *. lia.
Qed.

Definition sample_args : ComposeArgs := {|
  src_v4 := 167772161; dst_v4 := 167772162; next_protocol := 17; payload_len := 20; payload_mtu := 8; ip_id := 9 |}.

Lemma compose_reassemble_roundtrip_witness :
  exists ps vs buf',
    compose_ipv4_packet (E := unit) collect sample_args (replicate 20 0 ++ replicate 20 7 ++ [1]) [] = Done (ps, buf', Ok tt) /\
    Forall2 (fun p v => ipv4_view p = Some v) ps vs /\
    add_all 0 167772161 167772162 (reverse vs) (reassembler_new 10) =
      Done (replicate (length ps - 1) None ++ [Some (replicate 20 7)], reassembler_new 10).
Proof.
  destruct (compose_reassemble_roundtrip (E := unit) sample_args (replicate 20 0) (replicate 20 7) [1] 0 (reassembler_new 10))
    as (ps & vs & buf' & E & Hv & _ & Hall).
  - split; vm_compute; try (split; congruence); try congruence; try reflexivity. by right.
  - reflexivity.
  - reflexivity.
  - exists ps, vs, buf'. split; [exact E|]. split; [exact Hv|]. apply Hall. apply reverse_Permutation.
Defined.
