(* ===== verification/Compressor.v ===== *)
(** Payload compression: [easytier/src/common/compressor.rs].

    A packet is compressed in place: the payload is replaced by the compressed
    bytes and a one-byte tail naming the algorithm, the compressed flag is set
    and the length field keeps the original length.  The [zstd] crate is the
    class [Zstd]; its thread-local contexts only save allocations.

    The theorems: decompressing undoes compressing, for packets and for raw
    data, as long as the data is at most 32 times the compressed size or 64 KiB;
    beyond that the decompressor gives up on data the compressor accepted. *)

From stdpp Require Import base numbers list.
From Stdlib Require Import ZifyBool.
From S2P Require Import Prelude PacketDef.
Open Scope Z_scope.

(** [bulk::Compressor::compress] and [bulk::Decompressor::decompress] with an
    output capacity; the code tells one error from the others. *)
Inductive zstd_error := BufferTooSmall | OtherZstdError.

Class Zstd := {
  zstd_compress : bytes -> option bytes;
  zstd_decompress : bytes -> Z -> result zstd_error bytes
}.

(** A compressed frame decompresses to its data iff the capacity suffices. *)
Class ZstdLaws `{Zstd} := {
  zstd_roundtrip d c cap : zstd_compress d = Some c ->
    zstd_decompress c cap = if len d <=? cap then Ok d else Err BufferTooSmall
}.

Inductive compress_error :=
| CompressFailed | DecompressFailed | TooManyAttempts | PacketTooShort | UnknownAlgo | LengthDiffers.

Section compressor.
Context `{Zstd}.

Definition compress_raw (data : bytes) (algo : CompressorAlgo) : result compress_error bytes :=
  match algo with
  | ZstdDefault => match zstd_compress data with Some buf => Ok buf | None => Err CompressFailed end
  | AlgoNone => Ok data
  end.

(** The body of the loop over [i] in [1..=5]. *)
Definition attempt_capacity (n i : Z) : Z :=
  let cap := as_usize (n * as_usize (2 ^ i)) in
  if (i =? 5) && (cap <? 64 * 1024) then 64 * 1024 else cap.

Fixpoint decompress_attempts (data : bytes) (tries : list Z) : result compress_error bytes :=
  match tries with
  | [] => Err TooManyAttempts
  | i :: tries =>
      match zstd_decompress data (attempt_capacity (len data) i) with
      | Ok buf => Ok buf
      | Err BufferTooSmall => decompress_attempts data tries
      | Err OtherZstdError => Err DecompressFailed
      end
  end.

Definition decompress_raw (data : bytes) (algo : CompressorAlgo) : result compress_error bytes :=
  match algo with
  | ZstdDefault => decompress_attempts data [1; 2; 3; 4; 5]
  | AlgoNone => Ok data
  end.

(** [mut_inner().truncate(payload_offset)] and [extend_from_slice]. *)
Definition replace_payload (l : bytes) (p : ZCPacket) : ZCPacket :=
  mkZC (take (Z.to_nat (payload_offset p)) (inner p) ++ l) (packet_type p).

(** [mut_peer_manager_header().unwrap().set_compressed(b)]. *)
Definition mark_compressed (b : bool) (p : ZCPacket) : outcome ZCPacket :=
  m ← mut_peer_manager_header p;
  '(hdr, put) ← unwrap m;
  hdr ← set_compressed b hdr;
  Done (put hdr).

Definition compress (compress_algo : CompressorAlgo) (p : ZCPacket) : outcome (result compress_error ZCPacket) :=
  match compress_algo with
  | AlgoNone => Done (Ok p)
  | _ =>
      h ← peer_manager_header p;
      pm_header ← unwrap h;
      compressed ← is_compressed pm_header;
      if (compressed : bool) then Done (Ok p)
      else
        let tail := compressor_tail_new compress_algo in
        pl ← payload p;
        try (compress_raw pl compress_algo) (fun buf =>
          if pm_len pm_header <? len buf + COMPRESSOR_TAIL_SIZE then Done (Ok p)
          else
            p ← mark_compressed true p;
            Done (Ok (replace_payload (buf ++ as_bytes tail) p)))
  end.

Definition decompress (p : ZCPacket) : outcome (result compress_error ZCPacket) :=
  h ← peer_manager_header p;
  pm_header ← unwrap h;
  compressed ← is_compressed pm_header;
  if negb compressed then Done (Ok p)
  else
    pl ← payload p;
    let n := len pl in
    if n <? COMPRESSOR_TAIL_SIZE then Done (Err PacketTooShort)
    else
      let text_len := n - COMPRESSOR_TAIL_SIZE in
      tail ← unwrap (ref_from_suffix pl : option CompressorTail);
      match get_algo tail with
      | None => Done (Err UnknownAlgo)
      | Some algo =>
          body ← slice pl 0 text_len;
          try (decompress_raw body algo) (fun buf =>
            if negb (len buf =? pm_len pm_header) then Done (Err LengthDiffers)
            else
              p ← mark_compressed false p;
              Done (Ok (replace_payload buf p)))
      end.
End compressor.

(** ** Raw data *)

(** The largest output the decompressor tries for [n] bytes of input. *)
Definition decompress_limit (n : Z) : Z := Z.max (32 * n) (64 * 1024).

Section raw.
Context `{ZstdLaws}.

Lemma attempt_capacity_small n i :
  0 <= n < 2 ^ 58 -> In i [1; 2; 3; 4] -> attempt_capacity n i = n * 2 ^ i.
Proof.
  intros Hn Hi. unfold attempt_capacity.
  assert (i <> 5 /\ 1 <= i <= 4) as [H5 Hr] by (simpl in Hi; lia).
  rewrite (proj2 (Z.eqb_neq i 5)) by done. simpl.
  assert (2 <= 2 ^ i <= 16) by (simpl in Hi; destruct Hi as [<-|[<-|[<-|[<-|[]]]]]; lia).
  rewrite (wrap_small 64 (2 ^ i)) by (unfold in_width; lia). apply wrap_small. unfold in_width. nia.
Qed.

Lemma attempt_capacity_last n : 0 <= n < 2 ^ 58 -> attempt_capacity n 5 = decompress_limit n.
Proof.
  intros Hn. unfold attempt_capacity, decompress_limit. change (as_usize (2 ^ 5)) with 32.
  rewrite wrap_small by (unfold in_width; lia). simpl (5 =? 5). cbn [andb].
  destruct (Z.ltb_spec (n * 32) (64 * 1024)); lia.
Qed.

Lemma decompress_raw_spec d c :
  zstd_compress d = Some c -> len c < 2 ^ 58 ->
  decompress_raw c ZstdDefault = if len d <=? decompress_limit (len c) then Ok d else Err TooManyAttempts.
Proof.
  intros Hc Hlen. pose proof (len_nonneg c). simpl.
  rewrite !(attempt_capacity_small (len c)) by (simpl; lia). rewrite attempt_capacity_last by lia.
  rewrite !(zstd_roundtrip d c) by done. unfold decompress_limit.
  destruct (Z.leb_spec (len d) (len c * 2 ^ 1)), (Z.leb_spec (len d) (len c * 2 ^ 2)),
    (Z.leb_spec (len d) (len c * 2 ^ 3)), (Z.leb_spec (len d) (len c * 2 ^ 4)),
    (Z.leb_spec (len d) (Z.max (32 * len c) (64 * 1024))); try done; lia.
Qed.
End raw.

(** ** Packets *)

(** Setting and clearing the flag of an uncompressed header restores it. *)
Definition flag_restored (f : Z) : bool :=
  (flags_contains f FLAG_COMPRESSED) ||
  ((flags_remove (flags_insert f FLAG_COMPRESSED) FLAG_COMPRESSED =? f) &&
   flags_contains (flags_insert f FLAG_COMPRESSED) FLAG_COMPRESSED &&
   (flags_insert f FLAG_COMPRESSED <? 256)).

Lemma flag_restored_all : forallb flag_restored (Z.of_nat <$> seq 0 256) = true.
Proof. vm_compute. reflexivity. Qed.

Lemma flag_restored_u8 f : in_width 8 f -> flag_restored f = true.
Proof.
  intros Hf. pose proof flag_restored_all as Ha. rewrite forallb_forall in Ha. apply Ha.
  apply list_elem_of_In, list_elem_of_fmap. exists (Z.to_nat f). unfold in_width in Hf. split; [lia|].
  apply elem_of_seq. lia.
Qed.

Lemma compressed_flag h :
  in_width 8 (pm_flags h) -> is_compressed h = Done false ->
  let h1 := with_flags (flags_insert (pm_flags h) FLAG_COMPRESSED) h in
  in_width 8 (pm_flags h1) /\ set_compressed true h = Done h1 /\ is_compressed h1 = Done true /\
  set_compressed false h1 = Done h.
Proof.
  intros Hf Hc. unfold is_compressed, set_compressed, get_flag, set_flag in *.
  pose proof (flag_restored_u8 _ Hf) as Hr. unfold flag_restored in Hr.
  rewrite flags_from_bits_u8 in * by done. simpl in Hc. injection Hc as Hc. rewrite Hc in Hr. simpl in Hr.
  apply andb_true_iff in Hr as [Hr Hw]. apply andb_true_iff in Hr as [Hr Hin].
  assert (in_width 8 (flags_insert (pm_flags h) FLAG_COMPRESSED)) as Hw'.
  { unfold in_width, flags_insert, FLAG_COMPRESSED in *. split; [|lia]. apply Z.lor_nonneg. lia. }
  simpl pm_flags. split; [done|]. split; [done|]. rewrite flags_from_bits_u8 by done. simpl. rewrite Hin.
  split; [done|]. f_equal. apply Z.eqb_eq in Hr. rewrite Hr. by destruct h.
Qed.

Section packets.
Context `{ZstdLaws}.

Lemma mark_compressed_layout b p pre h h' body :
  laid_out p pre h body -> set_compressed b h = Done h' -> in_range h' ->
  exists q, mark_compressed b p = Done q /\ laid_out q pre h' body /\ packet_type q = packet_type p.
Proof.
  intros Hl Hs Hr. destruct (layout_mut_header _ _ _ _ Hl) as (put & Hm & Hput). unfold mark_compressed.
  rewrite Hm. cbn [mbind outcome_bind unwrap]. rewrite Hs. cbn [mbind outcome_bind].
  eexists. split; [reflexivity|]. by apply Hput.
Qed.

Lemma replace_payload_layout p pre h body l :
  laid_out p pre h body -> laid_out (replace_payload l p) pre h l /\
  (inner (replace_payload l p) = pre ++ as_bytes h ++ l).
Proof.
  intros (Hi & Hp & Hr). assert (inner (replace_payload l p) = pre ++ as_bytes h ++ l) as Hin.
  { unfold replace_payload. simpl. rewrite Hi, app_assoc, take_app_length'; [by rewrite <- app_assoc|].
    rewrite length_app. unfold payload_offset. destruct (offsets_gap (packet_type p)) as [Hge ->].
    fold (pm_offset p) in *. pose proof (pm_header_len h). unfold len in *. lia. }
  split; [|done]. split; [done|]. done.
Qed.

Lemma ref_from_suffix_tail (l : bytes) (t : CompressorTail) :
  in_range t -> ref_from_suffix (l ++ as_bytes t) = Some t.
Proof.
  intros Hr. unfold ref_from_suffix.
  assert (length (as_bytes t) = 1%nat) as Ht by done.
  change (size_of (H := CompressorTail)) with 1%nat.
  rewrite len_app. unfold len. rewrite Ht.
  rewrite (proj2 (Z.ltb_ge _ _)) by lia. f_equal.
  rewrite length_app, Ht, Nat.add_sub, drop_app_length. by rewrite from_as_bytes.
Qed.

Lemma with_flags_range f h : in_width 8 f -> in_range h -> in_range (with_flags f h).
Proof. unfold in_range; simpl. intros Hf Hr. destruct_and!. done. Qed.

(** What [decompress] makes of a packet laid out as [compress] leaves it. *)
Lemma decompress_layout q pre h h1 body c :
  let tail := compressor_tail_new ZstdDefault in
  laid_out q pre h1 (c ++ as_bytes tail) -> in_range h -> is_compressed h1 = Done true ->
  set_compressed false h1 = Done h -> pm_len h1 = len body -> zstd_compress body = Some c ->
  len c < 2 ^ 58 -> len body <= decompress_limit (len c) ->
  decompress q = Done (Ok (mkZC (pre ++ as_bytes h ++ body) (packet_type q))).
Proof.
  intros tail Hlq Hr Hget Hclear Hlen Hc Hsmall Hlimit. assert (len (as_bytes tail) = 1) as Htail by done.
  unfold decompress. rewrite (layout_header _ _ _ _ Hlq). cbn [mbind outcome_bind unwrap]. rewrite Hget.
  cbn [mbind outcome_bind negb]. rewrite (layout_payload _ _ _ _ Hlq). cbn [mbind outcome_bind].
  change COMPRESSOR_TAIL_SIZE with 1. pose proof (len_nonneg c). rewrite len_app, Htail.
  rewrite (proj2 (Z.ltb_ge _ _)) by lia. rewrite ref_from_suffix_tail by (vm_compute; split; congruence).
  cbn [unwrap mbind outcome_bind]. change (get_algo tail) with (Some ZstdDefault). cbv beta iota.
  assert (slice (c ++ as_bytes tail) 0 (len c + 1 - 1) = Done c) as ->
    by (apply (slice_app [] c (as_bytes tail)); [done | change (len []) with 0; lia]).
  cbn [mbind outcome_bind].
  rewrite (decompress_raw_spec body c) by done. rewrite (proj2 (Z.leb_le _ _) Hlimit). cbn [try].
  rewrite Hlen, Z.eqb_refl. cbn [negb].
  destruct (mark_compressed_layout false q pre h1 h (c ++ as_bytes tail) Hlq Hclear Hr) as (q1 & E2 & Hlq1 & Ht2).
  rewrite E2. cbn [mbind outcome_bind]. destruct (replace_payload_layout _ _ _ _ body Hlq1) as [_ Hi2].
  f_equal. f_equal. unfold replace_payload in *. simpl in Hi2 |- *. by rewrite Hi2, Ht2.
Qed.

(** Decompressing a packet that went through [compress] gives the packet
    back, byte for byte, whenever its length field is right, it was not marked
    compressed, and its payload is within the decompressor's limit; a payload
    that does not shrink is sent as it is. *)
Theorem compress_packet_roundtrip (p : ZCPacket) (pre body c : bytes) (h : PeerManagerHeader)
    (Hl : laid_out p pre h body) (Hlen : pm_len h = len body) (Hflag : is_compressed h = Done false)
    (Hc : zstd_compress body = Some c) (Hsmall : len c < 2 ^ 58)
    (Hlimit : len body <= decompress_limit (len c)) :
  exists q, compress ZstdDefault p = Done (Ok q) /\ decompress q = Done (Ok p) /\
    len (inner q) <= len (inner p).
Proof.
  pose proof Hl as (Hi & Hp & Hr). assert (in_width 8 (pm_flags h)) as Hf by apply Hr.
  destruct (compressed_flag h Hf Hflag) as (Hw1 & Hset & Hget & Hclear).
  set (h1 := with_flags _ h) in *. assert (in_range h1) as Hr1 by (by apply with_flags_range).
  assert (decompress p = Done (Ok p)) as Hplain.
  { unfold decompress. rewrite (layout_header _ _ _ _ Hl). cbn [mbind outcome_bind unwrap]. by rewrite Hflag. }
  unfold compress. rewrite (layout_header _ _ _ _ Hl). cbn [mbind outcome_bind unwrap]. rewrite Hflag.
  cbn [mbind outcome_bind]. rewrite (layout_payload _ _ _ _ Hl). cbn [mbind outcome_bind compress_raw].
  rewrite Hc. cbn [try]. rewrite Hlen. change COMPRESSOR_TAIL_SIZE with 1.
  destruct (Z.ltb_spec (len body) (len c + 1)) as [|Hshrink]; [by exists p|].
  destruct (mark_compressed_layout true p pre h h1 body Hl Hset Hr1) as (p1 & E1 & Hl1 & Ht1). rewrite E1.
  cbn [mbind outcome_bind]. set (tail := compressor_tail_new ZstdDefault).
  destruct (replace_payload_layout _ _ _ _ (c ++ as_bytes tail) Hl1) as [Hlq Hiq].
  eexists. split; [reflexivity|]. set (q := replace_payload _ p1) in *.
  assert (len (as_bytes tail) = 1) as Htail by done.
  split; [|rewrite Hiq, Hi, !len_app, !pm_header_len, Htail; lia].
  rewrite (decompress_layout q pre h h1 body c Hlq Hr Hget Hclear Hlen Hc Hsmall Hlimit).
  f_equal. f_equal. destruct p as [ip tp]. simpl in Hi, Ht1 |- *. by rewrite <- Hi, Ht1.
Qed.
End packets.

(** A codec for the examples: constant data of up to 255 bytes becomes three
    bytes, anything else is stored. *)
Definition rle_compress (d : bytes) : bytes :=
  match d with
  | b :: _ => if bool_decide (d = replicate (length d) b) && (length d <? 256)%nat
              then [1; b; len d] else 0 :: d
  | [] => [0]
  end.

Definition rle_expand (c : bytes) : option bytes :=
  match c with
  | [1; b; n] => Some (replicate (Z.to_nat n) b)
  | 0 :: d => Some d
  | _ => None
  end.

#[local] Instance rle : Zstd := {|
  zstd_compress d := Some (rle_compress d);
  zstd_decompress c cap :=
    match rle_expand c with
    | Some d => if len d <=? cap then Ok d else Err BufferTooSmall
    | None => Err OtherZstdError
    end
|}.

#[local] Instance rle_laws : ZstdLaws.
Proof.
  split. intros d c cap E. injection E as <-. simpl.
  assert (rle_expand (rle_compress d) = Some d) as ->; [|done].
  destruct d as [|b d]; [done|]. unfold rle_compress.
  destruct (bool_decide_reflect (b :: d = replicate (length (b :: d)) b)) as [E|]; cbn [andb]; [|done].
  destruct (_ <? _)%nat; [|done]. cbn [rle_expand]. unfold len. by rewrite Nat2Z.id, <- E.
Qed.

Definition compressible_header : PeerManagerHeader := {|
  from_peer_id := 1; to_peer_id := 2; pm_packet_type := packet_type_u8 PktData; pm_flags := 0;
  forward_counter := 1; reserved := 0; pm_len := 50 |}.
Definition compressible_packet : ZCPacket :=
  mkZC (as_bytes compressible_header ++ replicate 50 7) DummyTunnel.

Lemma compress_packet_roundtrip_witness :
  exists q, compress ZstdDefault compressible_packet = Done (Ok q) /\
    decompress q = Done (Ok compressible_packet) /\ len (inner q) <= len (inner compressible_packet).
Proof.
  apply (compress_packet_roundtrip compressible_packet [] (replicate 50 7) [1; 7; 50] compressible_header).
  - split; [reflexivity|]. split; [reflexivity|]. vm_compute. repeat split; congruence.
  - reflexivity.
  - reflexivity.
  - reflexivity.
  - vm_compute. reflexivity.
  - vm_compute. congruence.
Defined.
