(* ===== verification/Encrypt.v ===== *)
(** Packet encryption: [easytier/src/peers/encrypt/].

    An [Encryptor] (the trait object of [mod.rs]) encrypts and decrypts a
    packet in place.  Both operations take a [&mut ZCPacket], so they return
    the packet they leave behind together with their [Result]; the random
    nonce of an encryption is an argument.  The backends modelled are
    [NullCipher], [XorCipher], the two [ring] ciphers, the [aes-gcm] crate and
    [OpenSslCipher]; the crypto crates themselves are the classes [RingAead],
    [AesGcmCrate] and [OpenSsl] with their documented behaviour as laws.

    The theorems: whatever encryptor [create_encryptor] builds, decrypting
    restores the payload, also when the packet was moved to another tunnel
    type and its other header fields were rewritten on the way; decrypting
    never panics and refuses what is short or forged, except in the OpenSSL backend, which panics on every encrypted
    packet whose payload has 16 to 31 bytes. *)

From stdpp Require Import base numbers list strings sets.
From Stdlib Require Import ZifyBool.
From S2P Require Import Prelude PacketDef.
Open Scope Z_scope.

#[local] Arguments as_bytes : simpl nomatch.
#[local] Arguments from_bytes : simpl nomatch.

Inductive encrypt_error :=
| PacketTooShort (n : Z) | DecryptionFailed | EncryptionFailed | InvalidTag (tag : bytes).

(** The [Result] of an operation on a [&mut ZCPacket], and the packet after it. *)
Definition crypt_result : Type := outcome (result encrypt_error unit * ZCPacket).

Record Encryptor := {
  encrypt : bytes -> ZCPacket -> crypt_result;
  decrypt : ZCPacket -> crypt_result
}.

(** ** Access to the packet *)

(** [peer_manager_header().unwrap()]. *)
Definition pm_header (p : ZCPacket) : outcome PeerManagerHeader :=
  h ← peer_manager_header p; unwrap h.

(** [mut_peer_manager_header().unwrap()] followed by a write. *)
Definition update_header (f : PeerManagerHeader -> outcome PeerManagerHeader) (p : ZCPacket)
    : outcome ZCPacket :=
  m ← mut_peer_manager_header p;
  '(hdr, put) ← unwrap m;
  hdr ← f hdr;
  Done (put hdr).

(** [mut_inner().truncate(n)] and [mut_inner().extend_from_slice(l)]. *)
Definition truncate (n : Z) (p : ZCPacket) : ZCPacket :=
  mkZC (take (Z.to_nat n) (inner p)) (packet_type p).
Definition extend (l : bytes) (p : ZCPacket) : ZCPacket := mkZC (inner p ++ l) (packet_type p).

(** ** [NullCipher] and [XorCipher] *)

Definition NullCipher : Encryptor := {|
  encrypt _ p := Done (Ok tt, p);
  decrypt p :=
    pm_header ← pm_header p;
    e ← is_encrypted pm_header;
    Done (if (e : bool) then Err DecryptionFailed else Ok tt, p)
|}.

Definition xor_data (key data : bytes) : bytes :=
  imap (fun i b => Z.lxor b (key !!! (i mod length key)%nat)) data.

Definition xor_apply (flag : bool) (key : bytes) (p : ZCPacket) : crypt_result :=
  '(view, put) ← mut_payload p;
  p ← update_header (set_encrypted flag) (put (xor_data key view));
  Done (Ok tt, p).

Definition XorCipher (key : bytes) : Encryptor := {|
  encrypt _ p :=
    pm_header ← pm_header p;
    e ← is_encrypted pm_header;
    if (e : bool) then Done (Ok tt, p) else xor_apply true key p;
  decrypt p :=
    pm_header ← pm_header p;
    e ← is_encrypted pm_header;
    if negb e then Done (Ok tt, p) else xor_apply false key p
|}.

(** [XorCipher::new]. *)
Definition xor_cipher_new (key : bytes) : outcome Encryptor :=
  match key with [] => Panicked ExplicitPanic | _ => Done (XorCipher key) end.

(** ** The AEAD backends *)

Inductive aead_algorithm := AES_128_GCM | AES_256_GCM | CHACHA20_POLY1305.

Definition key_len (a : aead_algorithm) : nat :=
  match a with AES_128_GCM => 16 | AES_256_GCM | CHACHA20_POLY1305 => 32 end%nat.

(** [LessSafeKey::open_in_place] and [seal_in_place_separate_tag] with an empty
    [Aad]: algorithm, key, nonce, buffer; both leave the buffer overwritten. *)
Class RingAead := {
  open_in_place : aead_algorithm -> bytes -> bytes -> bytes -> bool * bytes;
  seal_in_place_separate_tag : aead_algorithm -> bytes -> bytes -> bytes -> option bytes * bytes
}.

(** [AeadInPlace::encrypt_in_place_detached] and [decrypt_in_place_detached]. *)
Class AesGcmCrate := {
  encrypt_in_place_detached : aead_algorithm -> bytes -> bytes -> bytes -> option bytes * bytes;
  decrypt_in_place_detached : aead_algorithm -> bytes -> bytes -> bytes -> bytes -> bool * bytes
}.

Record ChaCha20Poly1305Tail := { cc_tag : bytes; cc_nonce : bytes }.
Definition CHACHA20_POLY1305_ENCRYPTION_RESERVED : Z := 28.

#[global] Instance cc_packed : Packed ChaCha20Poly1305Tail := {|
  size_of := 28;
  as_bytes h := cc_tag h ++ cc_nonce h;
  from_bytes l := {| cc_tag := field_bytes 0 16 l; cc_nonce := field_bytes 16 12 l |};
  in_range h := (length (cc_tag h) = 16%nat /\ byte_list (cc_tag h)) /\
                (length (cc_nonce h) = 12%nat /\ byte_list (cc_nonce h))
|}.
#[global] Instance cc_laws : PackedLaws ChaCha20Poly1305Tail.
Proof. solve_packed. Qed.

(** The shape the three AEAD backends share.  [reserved] bytes of tail follow
    the text; the buffer handed to [open] is the text and the first [keep]
    bytes of the tail ([ring] wants the tag there, [aes-gcm] apart). *)
Definition tail_decrypt {T} `{Packed T} (reserved keep : Z) (open : T -> bytes -> bool * bytes)
    (p : ZCPacket) : crypt_result :=
  pm_header ← pm_header p;
  e ← is_encrypted pm_header;
  if negb e then Done (Ok tt, p)
  else
    pl ← payload p;
    let payload_len := len pl in
    if payload_len <? reserved then Done (Err (PacketTooShort payload_len), p)
    else
      let text_len := payload_len - reserved + keep in
      tail ← unwrap (ref_from_suffix pl : option T);
      '(view, put) ← mut_payload p;
      in_out ← slice view 0 text_len;
      let rs := open tail in_out in
      let p := put (rs.2 ++ drop (Z.to_nat text_len) view) in
      if negb rs.1 then Done (Err DecryptionFailed, p)
      else
        p ← update_header (set_encrypted false) p;
        Done (Ok tt, truncate (buf_len p - reserved) p).

(** [tail_of] builds the tail from the tag; an error it returns aborts. *)
Definition tail_encrypt {T} `{Packed T} (seal : bytes -> option bytes * bytes)
    (tail_of : bytes -> outcome (result encrypt_error T)) (p : ZCPacket) : crypt_result :=
  pm_header ← pm_header p;
  e ← is_encrypted pm_header;
  if (e : bool) then Done (Ok tt, p)
  else
    '(view, put) ← mut_payload p;
    let rs := seal view in
    let p := put rs.2 in
    match rs.1 with
    | None => Done (Err EncryptionFailed, p)
    | Some tag =>
        t ← tail_of tag;
        match t with
        | Err e => Done (Err e, p)
        | Ok tail =>
            p ← update_header (set_encrypted true) p;
            Done (Ok tt, extend (as_bytes tail) p)
        end
    end.

(** [tail.tag.copy_from_slice(tag)]. *)
Definition copy_tag (tag : bytes) : outcome bytes :=
  if len tag =? 16 then Done tag else Panicked LengthMismatch.

Section aead_backends.
Context `{RingAead} `{AesGcmCrate}.

(** [ring_aes_gcm::AesGcmCipher]; the algorithm is the [AesGcmEnum]. *)
Definition RingAesGcmCipher (alg : aead_algorithm) (key : bytes) : Encryptor := {|
  encrypt nonce :=
    tail_encrypt (seal_in_place_separate_tag alg key nonce) (fun tag =>
      if negb (len tag =? 16) then Done (Err (InvalidTag tag))
      else tag ← copy_tag tag; Done (Ok {| aes_tag := tag; aes_nonce := nonce |}));
  decrypt :=
    tail_decrypt AES_GCM_ENCRYPTION_RESERVED 16 (fun tail : AesGcmTail =>
      open_in_place alg key (aes_nonce tail))
|}.

Definition RingChaCha20Cipher (key : bytes) : Encryptor := {|
  encrypt nonce :=
    tail_encrypt (seal_in_place_separate_tag CHACHA20_POLY1305 key nonce) (fun tag =>
      tag ← copy_tag tag; Done (Ok {| cc_tag := tag; cc_nonce := nonce |}));
  decrypt :=
    tail_decrypt CHACHA20_POLY1305_ENCRYPTION_RESERVED 16 (fun tail : ChaCha20Poly1305Tail =>
      open_in_place CHACHA20_POLY1305 key (cc_nonce tail))
|}.

(** [aes_gcm::AesGcmCipher]. *)
Definition AesGcmCipher (alg : aead_algorithm) (key : bytes) : Encryptor := {|
  encrypt nonce :=
    tail_encrypt (encrypt_in_place_detached alg key nonce) (fun tag =>
      tag ← copy_tag tag; Done (Ok {| aes_tag := tag; aes_nonce := nonce |}));
  decrypt :=
    tail_decrypt AES_GCM_ENCRYPTION_RESERVED 0 (fun (tail : AesGcmTail) text =>
      decrypt_in_place_detached alg key (aes_nonce tail) text (aes_tag tail))
|}.
End aead_backends.

(** ** OpenSSL *)

Inductive crypter_mode := ModeEncrypt | ModeDecrypt.

(** [openssl::symm::Crypter]: [update] and [finalize] write into an output
    buffer and return how many bytes; [None] is an [ErrorStack]. *)
Class OpenSsl := {
  crypter : Type;
  block_size : aead_algorithm -> Z;
  crypter_new : aead_algorithm -> crypter_mode -> bytes -> bytes -> option crypter;
  set_tag : bytes -> crypter -> option crypter;
  update : crypter -> bytes -> bytes -> option (Z * crypter * bytes);
  finalize : crypter -> bytes -> option (Z * crypter * bytes);
  get_tag : crypter -> bytes -> option bytes
}.

Record OpenSslTail := { ossl_nonce : bytes }.
Definition OPENSSL_ENCRYPTION_RESERVED : Z := 16.

#[global] Instance ossl_packed : Packed OpenSslTail := {|
  size_of := 16;
  as_bytes h := ossl_nonce h;
  from_bytes l := {| ossl_nonce := field_bytes 0 16 l |};
  in_range h := length (ossl_nonce h) = 16%nat /\ byte_list (ossl_nonce h)
|}.
#[global] Instance ossl_laws : PackedLaws OpenSslTail.
Proof. solve_packed. Qed.

#[local] Arguments as_bytes : simpl never.
#[local] Arguments from_bytes : simpl never.

(** [OpenSslEnum]; every variant is an AEAD cipher with a 12-byte nonce. *)
Inductive OpenSslEnum := OsslAes128Gcm (key : bytes) | OsslAes256Gcm (key : bytes) | OsslChacha20 (key : bytes).

Definition get_cipher_and_key (c : OpenSslEnum) : aead_algorithm * bytes :=
  match c with
  | OsslAes128Gcm key => (AES_128_GCM, key)
  | OsslAes256Gcm key => (AES_256_GCM, key)
  | OsslChacha20 key => (CHACHA20_POLY1305, key)
  end.
Definition is_aead_cipher (c : OpenSslEnum) : bool :=
  match c with OsslAes128Gcm _ | OsslAes256Gcm _ | OsslChacha20 _ => true end.
Definition get_nonce_size (c : OpenSslEnum) : Z :=
  match c with OsslAes128Gcm _ | OsslAes256Gcm _ | OsslChacha20 _ => 12 end.

Definition zeros (n : Z) : bytes := replicate (Z.to_nat n) 0.

(** [map_err(|_| e)?]. *)
Definition or_fail {A} (e : encrypt_error) (p : ZCPacket) (o : option A) (k : A -> crypt_result) : crypt_result :=
  match o with Some a => k a | None => Done (Err e, p) end.

Section openssl.
Context `{OpenSsl}.

(** [update] and [finalize] into one zeroed buffer: the output and its length. *)
Definition run_crypter (c : crypter) (input : bytes) (room : Z) : outcome (option (crypter * Z * bytes)) :=
  match update c input (zeros room) with
  | None => Done None
  | Some (count, c, output) =>
      rest ← slice_from output count;
      match finalize c rest with
      | None => Done None
      | Some (n, c, rest) => Done (Some (c, count + n, take (Z.to_nat count) output ++ rest))
      end
  end.

(** [mut_payload()[..count].copy_from_slice(&output[..count])]. *)
Definition store_output (count : Z) (output : bytes) (p : ZCPacket) : outcome ZCPacket :=
  '(view, put) ← mut_payload p;
  src ← slice output 0 count;
  view ← copy_into view 0 count src;
  Done (put view).

Definition openssl_decrypt (c : OpenSslEnum) (p : ZCPacket) : crypt_result :=
  pm_header ← pm_header p;
  e ← is_encrypted pm_header;
  if negb e then Done (Ok tt, p)
  else
    pl ← payload p;
    let payload_len := len pl in
    if payload_len <? OPENSSL_ENCRYPTION_RESERVED then Done (Err (PacketTooShort payload_len), p)
    else
      let '(cipher, key) := get_cipher_and_key c in
      tail ← unwrap (ref_from_suffix pl : option OpenSslTail);
      let text_len := as_usize (payload_len - OPENSSL_ENCRYPTION_RESERVED - (if is_aead_cipher c then 16 else 0)) in
      nonce ← slice (ossl_nonce tail) 0 (get_nonce_size c);
      or_fail DecryptionFailed p (crypter_new cipher ModeDecrypt key nonce) (fun decrypter =>
        tagged ← (if is_aead_cipher c
                  then tag ← slice pl text_len (as_usize (text_len + 16)); Done (set_tag tag decrypter)
                  else Done (Some decrypter));
        or_fail DecryptionFailed p tagged (fun decrypter =>
          text ← slice pl 0 text_len;
          out ← run_crypter decrypter text (text_len + block_size cipher);
          or_fail DecryptionFailed p out (fun '(_, count, output) =>
            p ← store_output count output p;
            p ← update_header (set_encrypted false) p;
            Done (Ok tt, truncate (buf_len p - (payload_len - count)) p)))).

Definition openssl_encrypt (c : OpenSslEnum) (fresh : bytes) (p : ZCPacket) : crypt_result :=
  pm_header ← pm_header p;
  e ← is_encrypted pm_header;
  if (e : bool) then Done (Ok tt, p)
  else
    let '(cipher, key) := get_cipher_and_key c in
    let tail := {| ossl_nonce := fresh ++ zeros (16 - get_nonce_size c) |} in
    nonce ← slice (ossl_nonce tail) 0 (get_nonce_size c);
    or_fail EncryptionFailed p (crypter_new cipher ModeEncrypt key nonce) (fun encrypter =>
      pl ← payload p;
      out ← run_crypter encrypter pl (len pl + block_size cipher);
      or_fail EncryptionFailed p out (fun '(encrypter, count, output) =>
        p ← store_output count output p;
        or_fail EncryptionFailed p
          (if is_aead_cipher c then option_map (fun tag => extend tag p) (get_tag encrypter (zeros 16)) else Some p)
          (fun p =>
            p ← update_header (set_encrypted true) (extend (as_bytes tail) p);
            Done (Ok tt, p)))).

Definition OpenSslCipher (c : OpenSslEnum) : Encryptor :=
  {| encrypt := openssl_encrypt c; decrypt := openssl_decrypt c |}.
End openssl.

(** ** Choosing the encryptor *)

(** The cargo features the code is compiled with. *)
Record features := { wireguard : bool; aes_gcm : bool; openssl_crypto : bool }.

Inductive EncryptionAlgorithm :=
| AesGcm | Aes256Gcm | Xor | ChaCha20 | OpensslAesGcm | OpensslChacha20 | OpensslAes256Gcm.

#[global] Instance encryption_algorithm_eq_dec : EqDecision EncryptionAlgorithm.
Proof. solve_decision. Defined.

Definition encryption_algorithm_to_string (a : EncryptionAlgorithm) : string :=
  match a with
  | AesGcm => "aes-gcm" | Aes256Gcm => "aes-256-gcm" | Xor => "xor" | ChaCha20 => "chacha20"
  | OpensslAesGcm => "openssl-aes-gcm" | OpensslChacha20 => "openssl-chacha20"
  | OpensslAes256Gcm => "openssl-aes-256-gcm"
  end.

Definition encryption_algorithm_try_from (f : features) (value : string) : option EncryptionAlgorithm :=
  if String.eqb value "aes-gcm" then Some AesGcm
  else if String.eqb value "aes-256-gcm" then Some Aes256Gcm
  else if String.eqb value "xor" then Some Xor
  else if wireguard f && String.eqb value "chacha20" then Some ChaCha20
  else if openssl_crypto f && String.eqb value "openssl-aes-gcm" then Some OpensslAesGcm
  else if openssl_crypto f && String.eqb value "openssl-chacha20" then Some OpensslChacha20
  else if openssl_crypto f && String.eqb value "openssl-aes-256-gcm" then Some OpensslAes256Gcm
  else None.

Section create.
Context `{RingAead} `{AesGcmCrate} `{OpenSsl}.

(** The AES-GCM backend the features select; without [wireguard] and
    [aes-gcm] the crate does not compile, so without [wireguard] the other is there. *)
Definition aes_gcm_backend (f : features) (alg : aead_algorithm) (key : bytes) : Encryptor :=
  if wireguard f then RingAesGcmCipher alg key else AesGcmCipher alg key.

Definition create_encryptor (f : features) (algorithm : string) (key_128 key_256 : bytes)
    : outcome Encryptor :=
  match default AesGcm (encryption_algorithm_try_from f algorithm) with
  | AesGcm => Done (aes_gcm_backend f AES_128_GCM key_128)
  | Aes256Gcm => Done (aes_gcm_backend f AES_256_GCM key_256)
  | Xor => xor_cipher_new key_128
  | ChaCha20 => Done (RingChaCha20Cipher key_256)
  | OpensslAesGcm => Done (OpenSslCipher (OsslAes128Gcm key_128))
  | OpensslAes256Gcm => Done (OpenSslCipher (OsslAes256Gcm key_256))
  | OpensslChacha20 => Done (OpenSslCipher (OsslChacha20 key_256))
  end.
End create.

(** ** Documented behaviour of the crypto crates *)

Definition MAX_TEXT : Z := 2 ^ 30.

(** Sealing succeeds on texts of any practical size with a 16-byte tag, keeps
    the length (the buffers are slices), and opening undoes it. *)
Class RingAeadLaws `{RingAead} := {
  ring_seal_ok alg key nonce text : length key = key_len alg -> length nonce = 12%nat -> len text < MAX_TEXT ->
    exists tag text', seal_in_place_separate_tag alg key nonce text = (Some tag, text') /\
      length text' = length text /\ length tag = 16%nat /\ byte_list tag /\
      exists rest, length rest = 16%nat /\ open_in_place alg key nonce (text' ++ tag) = (true, text ++ rest);
  ring_open_length alg key nonce buf : length (open_in_place alg key nonce buf).2 = length buf
}.

Class AesGcmCrateLaws `{AesGcmCrate} := {
  crate_seal_ok alg key nonce text : length key = key_len alg -> length nonce = 12%nat -> len text < MAX_TEXT ->
    exists tag text', encrypt_in_place_detached alg key nonce text = (Some tag, text') /\
      length text' = length text /\ length tag = 16%nat /\ byte_list tag /\
      decrypt_in_place_detached alg key nonce text' tag = (true, text);
  crate_open_length alg key nonce buf tag : length (decrypt_in_place_detached alg key nonce buf tag).2 = length buf
}.

(** In these stream modes one [update] consumes its whole input and [finalize]
    writes nothing; decryption accepts the tag that encryption produced. *)
Class OpenSslLaws `{OpenSsl} := {
  ossl_block_size alg : 1 <= block_size alg < 2 ^ 16;
  ossl_session alg key nonce text : length key = key_len alg -> length nonce = 12%nat -> len text < MAX_TEXT ->
    exists e e1 e2 d d1 d2 d3 text' tag,
      length text' = length text /\ length tag = 16%nat /\ byte_list tag /\
      crypter_new alg ModeEncrypt key nonce = Some e /\
      (forall out, len text + block_size alg <= len out ->
         update e text out = Some (len text, e1, text' ++ drop (length text) out)) /\
      (forall out, finalize e1 out = Some (0, e2, out)) /\ (forall buf, length buf = 16%nat -> get_tag e2 buf = Some tag) /\
      crypter_new alg ModeDecrypt key nonce = Some d /\ set_tag tag d = Some d1 /\
      (forall out, len text + block_size alg <= len out ->
         update d1 text' out = Some (len text, d2, text ++ drop (length text) out)) /\
      (forall out, finalize d2 out = Some (0, d3, out))
}.

(** ** What an encryptor promises *)

Definition fresh_nonce (n : bytes) : Prop := length n = 12%nat /\ byte_list n.

(** Encrypting a plain packet gives a packet with the flag [b] and the text
    [body'] under the same prefix; decrypting any packet that carries [body']
    under the flag [b] restores the payload and clears the flag. *)
Class EncryptorLaws (e : Encryptor) : Prop := encryptor_law fresh p pre h body :
  fresh_nonce fresh -> laid_out p pre h body -> is_encrypted h = Done false -> len body < MAX_TEXT ->
  exists q b h1 body', encrypt e fresh p = Done (Ok tt, q) /\ packet_type q = packet_type p /\
    set_encrypted b h = Done h1 /\ laid_out q pre h1 body' /\
    forall q' pre' h', laid_out q' pre' h' body' -> is_encrypted h' = Done b ->
      exists r h2, decrypt e q' = Done (Ok tt, r) /\ packet_type r = packet_type q' /\
        set_encrypted false h' = Done h2 /\ laid_out r pre' h2 body.

(** ** Lemmas on the packet *)

Lemma layout_pm_header p pre h body : laid_out p pre h body -> pm_header p = Done h.
Proof. intros Hl. unfold pm_header. by rewrite (layout_header _ _ _ _ Hl). Qed.

Lemma layout_update f p pre h h' body :
  laid_out p pre h body -> f h = Done h' -> in_range h' ->
  exists q, update_header f p = Done q /\ laid_out q pre h' body /\ packet_type q = packet_type p.
Proof.
  intros Hl Hf Hr. destruct (layout_mut_header _ _ _ _ Hl) as (put & Hm & Hput). unfold update_header.
  rewrite Hm. cbn [mbind outcome_bind unwrap]. rewrite Hf. cbn [mbind outcome_bind].
  eexists. split; [reflexivity|]. by apply Hput.
Qed.

Lemma layout_truncate p pre h body tail n : laid_out p pre h (body ++ tail) -> n = len tail ->
  laid_out (truncate (buf_len p - n) p) pre h body.
Proof.
  intros (Hi & Hp & Hr) ->. split; [|done]. unfold truncate, buf_len. simpl. rewrite Hi, !app_assoc, len_app.
  replace (_ - _) with (len ((pre ++ as_bytes h) ++ body)) by lia. unfold len at 1.
  by rewrite Nat2Z.id, take_app_length, <- app_assoc.
Qed.

Lemma layout_extend p pre h body l : laid_out p pre h body -> laid_out (extend l p) pre h (body ++ l).
Proof. intros (Hi & Hp & Hr). split; [|done]. simpl. by rewrite Hi, <- !app_assoc. Qed.

Lemma suffix_app {T} `{PackedLaws T} (l : bytes) (t : T) :
  in_range t -> ref_from_suffix (l ++ as_bytes t) = Some t.
Proof.
  intros Hr. unfold ref_from_suffix. pose proof (as_bytes_length t Hr) as Ht.
  rewrite len_app. unfold len. rewrite Ht, (proj2 (Z.ltb_ge _ _)) by lia.
  by rewrite length_app, Ht, Nat.add_sub, drop_app_length, from_as_bytes.
Qed.

(** The encrypted flag is set and cleared without touching the rest. *)
Lemma encrypted_flag b h : in_range h ->
  exists h', set_encrypted b h = Done h' /\ in_range h' /\ is_encrypted h' = Done b /\ h' = with_flags (pm_flags h') h.
Proof.
  intros Hr. assert (in_width 8 (pm_flags h)) as Hf by apply Hr.
  destruct (set_flag_spec FLAG_ENCRYPTED b h) as (h' & Hs & Hw & Hrest & Hget); [set_solver|done|].
  exists h'. split; [done|]. split; [|split; [|done]].
  - rewrite Hrest. unfold in_range in *; simpl in *. destruct_and!. done.
  - unfold is_encrypted. rewrite Hget by set_solver. by rewrite decide_True.
Qed.

Lemma clear_flag_id h : in_range h -> is_encrypted h = Done false -> set_encrypted false h = Done h.
Proof.
  intros Hr He. assert (in_width 8 (pm_flags h)) as Hf by apply Hr.
  unfold is_encrypted, set_encrypted, get_flag, set_flag in *. rewrite flags_from_bits_u8 in * by done.
  simpl in *. injection He as He. f_equal. destruct h; unfold with_flags; simpl in *. f_equal.
  change FLAG_ENCRYPTED with (2 ^ 0) in *. rewrite flags_contains_bit in He by lia. apply Z.bits_inj'.
  intros n Hn. destruct (Z.lt_ge_cases n 8).
  - rewrite flags_remove_bit by lia. destruct (Z.eqb_spec 0 n) as [<-|]; [by rewrite He | by rewrite andb_true_r].
  - assert (forall z, in_width 8 z -> Z.testbit z n = false) as Hhigh.
    { intros z [Hz0 Hz]. destruct (Z.eq_dec z 0) as [->|]; [apply Z.bits_0|]. apply Z.bits_above_log2; [done|].
      apply Z.log2_lt_pow2; [lia|]. eapply Z.lt_le_trans; [done|]. apply Z.pow_le_mono_r; lia. }
    rewrite !Hhigh; [done|done|by apply flags_remove_width].
Qed.

(** ** Every backend keeps the promise *)

(** Rewrites with the layout of the packet an operation starts from. *)
Ltac open_packet Hl He :=
  rewrite (layout_pm_header _ _ _ _ Hl); cbn [mbind outcome_bind]; rewrite He; cbn [mbind outcome_bind negb].

#[global] Instance null_cipher_laws : EncryptorLaws NullCipher.
Proof.
  intros fresh p pre h body _ Hl He _. pose proof Hl as (_ & _ & Hr).
  exists p, false, h, body. split; [done|]. split; [done|]. split; [by apply clear_flag_id|]. split; [done|].
  intros q' pre' h' Hl' He'. pose proof Hl' as (_ & _ & Hr'). exists q', h'. simpl. open_packet Hl' He'.
  split; [done|]. split; [done|]. split; [by apply clear_flag_id | done].
Qed.

Lemma xor_data_involutive key data : xor_data key (xor_data key data) = data.
Proof.
  unfold xor_data. apply list_eq. intros i. rewrite !list_lookup_imap.
  destruct (data !! i) as [b|]; [|done]. simpl. f_equal. by rewrite Z.lxor_assoc, Z.lxor_nilpotent, Z.lxor_0_r.
Qed.

Lemma xor_apply_layout flag key p pre h body : laid_out p pre h body ->
  exists q h', xor_apply flag key p = Done (Ok tt, q) /\ packet_type q = packet_type p /\
    set_encrypted flag h = Done h' /\ laid_out q pre h' (xor_data key body).
Proof.
  intros Hl. destruct (layout_mut_payload _ _ _ _ Hl) as (put & Hm & Hput).
  destruct (Hput (xor_data key body)) as [Hl1 Ht1]. pose proof Hl as (_ & _ & Hr).
  destruct (encrypted_flag flag h Hr) as (h' & Hs & Hr' & _).
  destruct (layout_update _ _ _ _ h' _ Hl1 Hs Hr') as (q & Hq & Hlq & Htq).
  exists q, h'. unfold xor_apply. rewrite Hm. cbn [mbind outcome_bind]. rewrite Hq. cbn [mbind outcome_bind].
  split; [done|]. split; [congruence|]. done.
Qed.

#[global] Instance xor_cipher_laws key : EncryptorLaws (XorCipher key).
Proof.
  intros fresh p pre h body _ Hl He _.
  destruct (xor_apply_layout true key _ _ _ _ Hl) as (q & h1 & Hq & Ht & Hs & Hlq).
  exists q, true, h1, (xor_data key body). simpl. open_packet Hl He. split; [done|]. split; [done|].
  split; [done|]. split; [done|]. intros q' pre' h' Hl' He'. open_packet Hl' He'.
  destruct (xor_apply_layout false key _ _ _ _ Hl') as (r & h2 & Hr & Ht' & Hs' & Hlr).
  exists r, h2. rewrite xor_data_involutive in Hlr. done.
Qed.

Section tails.
Context {T : Type} `{PackedLaws T} (reserved keep : Z) (open : T -> bytes -> bool * bytes)
  (seal : bytes -> option bytes * bytes) (tail_of : bytes -> outcome (result encrypt_error T)).
Hypothesis Hreserved : reserved = Z.of_nat size_of.
Hypothesis Hkeep : 0 <= keep <= reserved.

Lemma tail_encrypt_layout p pre h body tag body' t :
  laid_out p pre h body -> is_encrypted h = Done false ->
  seal body = (Some tag, body') -> tail_of tag = Done (Ok t) ->
  exists q h1, tail_encrypt seal tail_of p = Done (Ok tt, q) /\ packet_type q = packet_type p /\
    set_encrypted true h = Done h1 /\ laid_out q pre h1 (body' ++ as_bytes t).
Proof.
  intros Hl He Hseal Htail. pose proof Hl as (_ & _ & Hr).
  destruct (layout_mut_payload _ _ _ _ Hl) as (put & Hm & Hput). destruct (Hput body') as [Hl1 Ht1].
  destruct (encrypted_flag true h Hr) as (h1 & Hs & Hr1 & _).
  destruct (layout_update _ _ _ _ h1 _ Hl1 Hs Hr1) as (q & Hq & Hlq & Htq).
  exists (extend (as_bytes t) q), h1. unfold tail_encrypt. open_packet Hl He. rewrite Hm.
  cbn [mbind outcome_bind]. rewrite Hseal. cbn [fst snd]. rewrite Htail. cbn [mbind outcome_bind]. rewrite Hq.
  cbn [mbind outcome_bind]. split; [done|]. split; [simpl; congruence|]. split; [done|]. by apply layout_extend.
Qed.

Lemma tail_decrypt_layout p pre h text t body rest :
  laid_out p pre h (text ++ as_bytes t) -> in_range t -> is_encrypted h = Done true ->
  open t (text ++ take (Z.to_nat keep) (as_bytes t)) = (true, body ++ rest) ->
  length rest = Z.to_nat keep ->
  exists q h2, tail_decrypt reserved keep open p = Done (Ok tt, q) /\ packet_type q = packet_type p /\
    set_encrypted false h = Done h2 /\ laid_out q pre h2 body.
Proof.
  intros Hl Ht He Hopen Hrest. pose proof Hl as (_ & _ & Hr). pose proof (as_bytes_length t Ht) as Hsize.
  destruct (layout_mut_payload _ _ _ _ Hl) as (put & Hm & Hput).
  set (k := Z.to_nat keep) in *. set (tb := as_bytes t) in *.
  assert (len (text ++ tb) = len text + reserved) as Hlen by (rewrite len_app; unfold len; lia).
  assert (slice (text ++ tb) 0 (len text + keep) = Done (text ++ take k tb)) as Hslice.
  { assert (text ++ tb = (text ++ take k tb) ++ drop k tb) as -> by (by rewrite <- app_assoc, take_drop).
    apply (slice_app [] (text ++ take k tb)); [done|].
    change (len []) with 0. rewrite len_app. unfold len. rewrite length_take. lia. }
  destruct (Hput ((body ++ rest) ++ drop (Z.to_nat (len text + keep)) (text ++ tb))) as [Hl1 Ht1].
  rewrite <- app_assoc in Hl1, Ht1.
  destruct (encrypted_flag false h Hr) as (h2 & Hs & Hr2 & _).
  destruct (layout_update _ _ _ _ h2 _ Hl1 Hs Hr2) as (q & Hq & Hlq & Htq).
  exists (truncate (buf_len q - reserved) q), h2. unfold tail_decrypt. open_packet Hl He.
  rewrite (layout_payload _ _ _ _ Hl). cbn [mbind outcome_bind]. pose proof (len_nonneg text).
  rewrite Hlen, (proj2 (Z.ltb_ge _ _)) by lia.
  subst tb. rewrite suffix_app by done. cbn [unwrap mbind outcome_bind]. rewrite Hm. cbn [mbind outcome_bind].
  replace (len text + reserved - reserved + keep) with (len text + keep) by lia. rewrite Hslice.
  cbn [mbind outcome_bind]. fold k in Hopen. rewrite Hopen. cbn [fst snd negb]. rewrite <- app_assoc, Hq.
  cbn [mbind outcome_bind]. split; [done|]. split; [simpl; congruence|]. split; [done|].
  eapply layout_truncate; [exact Hlq|]. unfold len in *. rewrite length_app, length_drop, length_app in *. lia.
Qed.

(** A tail cipher is an encryptor when [open] undoes [seal] on every text. *)
Lemma tail_cipher_laws fresh p pre h body :
  (exists tag body' t rest, seal body = (Some tag, body') /\ tail_of tag = Done (Ok t) /\ in_range t /\
     length rest = Z.to_nat keep /\
     open t (body' ++ take (Z.to_nat keep) (as_bytes t)) = (true, body ++ rest)) ->
  fresh_nonce fresh -> laid_out p pre h body -> is_encrypted h = Done false ->
  exists q b h1 body', tail_encrypt seal tail_of p = Done (Ok tt, q) /\ packet_type q = packet_type p /\
    set_encrypted b h = Done h1 /\ laid_out q pre h1 body' /\
    forall q' pre' h', laid_out q' pre' h' body' -> is_encrypted h' = Done b ->
      exists r h2, tail_decrypt reserved keep open q' = Done (Ok tt, r) /\ packet_type r = packet_type q' /\
        set_encrypted false h' = Done h2 /\ laid_out r pre' h2 body.
Proof.
  intros (tag & body' & t & rest & Hseal & Htail & Ht & Hrest & Hopen) _ Hl He.
  destruct (tail_encrypt_layout _ _ _ _ _ _ _ Hl He Hseal Htail) as (q & h1 & Hq & Hty & Hs & Hlq).
  exists q, true, h1, (body' ++ as_bytes t). split_and!; try done. intros q' pre' h' Hl' He'.
  eapply tail_decrypt_layout; eauto.
Qed.
End tails.

Lemma copy_tag_16 tag : length tag = 16%nat -> copy_tag tag = Done tag.
Proof. intros E. unfold copy_tag, len. by rewrite E. Qed.

Section backends.
Context `{RingAeadLaws} `{AesGcmCrateLaws}.

Lemma ring_aes_gcm_laws alg key :
  length key = key_len alg -> EncryptorLaws (RingAesGcmCipher alg key).
Proof.
  intros Hk fresh p pre h body Hn Hl He Hb.
  destruct (ring_seal_ok alg key fresh body Hk (proj1 Hn) Hb) as (tag & body' & Hs & Hlen & Ht & Htb & rest & Hr & Ho).
  eapply (tail_cipher_laws AES_GCM_ENCRYPTION_RESERVED 16); try done.
  exists tag, body', {| aes_tag := tag; aes_nonce := fresh |}, rest. split; [done|]. split; [|split; [by split|split; [done|]]].
  - unfold len. rewrite Ht. simpl. by rewrite copy_tag_16.
  - unfold as_bytes; simpl. by rewrite take_app_length'.
Qed.

Lemma ring_chacha20_laws key :
  length key = key_len CHACHA20_POLY1305 -> EncryptorLaws (RingChaCha20Cipher key).
Proof.
  intros Hk fresh p pre h body Hn Hl He Hb.
  destruct (ring_seal_ok _ key fresh body Hk (proj1 Hn) Hb) as (tag & body' & Hs & Hlen & Ht & Htb & rest & Hr & Ho).
  eapply (tail_cipher_laws CHACHA20_POLY1305_ENCRYPTION_RESERVED 16); try done.
  exists tag, body', {| cc_tag := tag; cc_nonce := fresh |}, rest. split; [done|]. split; [|split; [by split|split; [done|]]].
  - by rewrite copy_tag_16.
  - unfold as_bytes; simpl. by rewrite take_app_length'.
Qed.

Lemma aes_gcm_crate_laws alg key :
  length key = key_len alg -> EncryptorLaws (AesGcmCipher alg key).
Proof.
  intros Hk fresh p pre h body Hn Hl He Hb.
  destruct (crate_seal_ok alg key fresh body Hk (proj1 Hn) Hb) as (tag & body' & Hs & Hlen & Ht & Htb & Ho).
  eapply (tail_cipher_laws AES_GCM_ENCRYPTION_RESERVED 0); try done.
  exists tag, body', {| aes_tag := tag; aes_nonce := fresh |}, []. split; [done|]. split; [|split; [by split|split; [done|]]].
  - by rewrite copy_tag_16.
  - simpl. by rewrite !app_nil_r.
Qed.
End backends.

Section openssl_laws.
Context `{OpenSslLaws}.

Lemma run_crypter_stream c c1 c2 input output alg :
  (forall out, len input + block_size alg <= len out ->
     update c input out = Some (len input, c1, output ++ drop (length input) out)) ->
  (forall out, finalize c1 out = Some (0, c2, out)) -> length output = length input ->
  exists out, run_crypter c input (len input + block_size alg) = Done (Some (c2, len input, output ++ out)).
Proof.
  intros Hu Hf Hlen. pose proof (ossl_block_size alg) as Hbs. pose proof (len_nonneg input).
  unfold run_crypter. rewrite Hu by (unfold zeros, len in *; rewrite length_replicate; lia).
  set (rest := drop _ _). rewrite (slice_from_app output) by (unfold len; lia). cbn [mbind outcome_bind].
  rewrite Hf, Z.add_0_r. exists rest. unfold len. by rewrite Nat2Z.id, take_app_length'.
Qed.

Lemma store_output_layout p pre h old tail output out count :
  laid_out p pre h (old ++ tail) -> length output = length old -> count = len old ->
  exists q, store_output count (output ++ out) p = Done q /\ laid_out q pre h (output ++ tail) /\
    packet_type q = packet_type p.
Proof.
  intros Hl Hlen ->. destruct (layout_mut_payload _ _ _ _ Hl) as (put & Hm & Hput). unfold store_output.
  rewrite Hm. cbn [mbind outcome_bind].
  rewrite (slice_app [] output out) by (change (len []) with 0; unfold len; lia). cbn [mbind outcome_bind].
  rewrite (copy_into_app [] old tail) by (change (len []) with 0; unfold len; lia). cbn [mbind outcome_bind].
  eexists. split; [reflexivity|]. apply Hput.
Qed.

Lemma cipher_is_aead c : is_aead_cipher c = true /\ get_nonce_size c = 12.
Proof. by destruct c. Qed.

Lemma openssl_nonce c fresh : fresh_nonce fresh ->
  let t := {| ossl_nonce := fresh ++ zeros (16 - get_nonce_size c) |} in
  in_range t /\ slice (ossl_nonce t) 0 (get_nonce_size c) = Done fresh.
Proof.
  intros [Hn Hb] t. destruct (cipher_is_aead c) as [_ E]. subst t. rewrite E. simpl. split.
  - unfold in_range; simpl. rewrite length_app, Hn. split; [done|]. apply byte_list_app. split; [done|].
    unfold byte_list, is_byte, in_width. by repeat constructor.
  - apply (slice_app [] fresh); [done|]. unfold len. by rewrite Hn.
Qed.

Lemma openssl_encrypt_layout c fresh p pre h body e e1 e2 body' tag :
  let alg := (get_cipher_and_key c).1 in
  fresh_nonce fresh -> laid_out p pre h body -> is_encrypted h = Done false ->
  crypter_new alg ModeEncrypt (get_cipher_and_key c).2 fresh = Some e ->
  (forall out, len body + block_size alg <= len out ->
     update e body out = Some (len body, e1, body' ++ drop (length body) out)) ->
  (forall out, finalize e1 out = Some (0, e2, out)) -> (forall buf, length buf = 16%nat -> get_tag e2 buf = Some tag) ->
  length body' = length body ->
  exists q h1, openssl_encrypt c fresh p = Done (Ok tt, q) /\ packet_type q = packet_type p /\
    set_encrypted true h = Done h1 /\
    laid_out q pre h1 (body' ++ tag ++ as_bytes {| ossl_nonce := fresh ++ zeros (16 - get_nonce_size c) |}).
Proof.
  intros alg Hn Hl He Hnew Hu Hf Ht Hlen. pose proof Hl as (_ & _ & Hr).
  destruct (openssl_nonce c fresh Hn) as [_ Hslice]. set (t := {| ossl_nonce := _ |}) in *.
  destruct (run_crypter_stream _ _ _ _ _ _ Hu Hf Hlen) as (out & Hrun).
  rewrite <- (app_nil_r body) in Hl.
  destruct (store_output_layout _ _ _ _ _ _ out (len body) Hl Hlen eq_refl) as (p1 & Hst & Hl1 & Ht1).
  rewrite app_nil_r in Hl, Hl1.
  destruct (encrypted_flag true h Hr) as (h1 & Hs & Hr1 & _).
  pose proof (layout_extend _ _ _ _ (as_bytes t) (layout_extend _ _ _ _ tag Hl1)) as Hl2.
  rewrite <- app_assoc in Hl2. destruct (layout_update _ _ _ _ h1 _ Hl2 Hs Hr1) as (q & Hq & Hlq & Htq).
  exists q, h1. unfold openssl_encrypt. open_packet Hl He.
  rewrite (surjective_pairing (get_cipher_and_key c)). fold alg t. rewrite Hslice. cbn [mbind outcome_bind].
  rewrite Hnew. cbn [or_fail]. rewrite (layout_payload _ _ _ _ Hl). cbn [mbind outcome_bind]. rewrite Hrun.
  cbn [mbind outcome_bind or_fail]. rewrite Hst. cbn [mbind outcome_bind]. rewrite (proj1 (cipher_is_aead c)).
  rewrite Ht by done. cbn [option_map or_fail]. rewrite Hq. cbn [mbind outcome_bind].
  split; [done|]. split; [simpl in Htq; congruence|]. done.
Qed.

Lemma openssl_decrypt_layout c fresh p pre h text tag body d d1 d2 d3 :
  let alg := (get_cipher_and_key c).1 in
  let t := {| ossl_nonce := fresh ++ zeros (16 - get_nonce_size c) |} in
  fresh_nonce fresh -> laid_out p pre h (text ++ tag ++ as_bytes t) -> is_encrypted h = Done true ->
  crypter_new alg ModeDecrypt (get_cipher_and_key c).2 fresh = Some d -> set_tag tag d = Some d1 ->
  (forall out, len text + block_size alg <= len out ->
     update d1 text out = Some (len text, d2, body ++ drop (length text) out)) ->
  (forall out, finalize d2 out = Some (0, d3, out)) ->
  length body = length text -> length tag = 16%nat -> len text < MAX_TEXT ->
  exists q h2, openssl_decrypt c p = Done (Ok tt, q) /\ packet_type q = packet_type p /\
    set_encrypted false h = Done h2 /\ laid_out q pre h2 body.
Proof.
  intros alg t Hn Hl He Hnew Hset Hu Hf Hlen Htag Hmax. pose proof Hl as (_ & _ & Hr).
  destruct (openssl_nonce c fresh Hn) as [Ht Hslice]. fold t in Ht, Hslice.
  pose proof (as_bytes_length t Ht) as Htl. change (size_of (H := OpenSslTail)) with 16%nat in Htl.
  pose proof (len_nonneg text) as H0t. unfold MAX_TEXT in Hmax.
  assert (len tag = 16 /\ len (as_bytes t) = 16) as [Htag' Htl'] by (unfold len; lia).
  destruct (run_crypter_stream _ _ _ _ _ _ Hu Hf Hlen) as (out & Hrun).
  destruct (store_output_layout _ _ _ _ _ _ out (len text) Hl Hlen eq_refl) as (p1 & Hst & Hl1 & Ht1).
  destruct (encrypted_flag false h Hr) as (h2 & Hs & Hr2 & _).
  destruct (layout_update _ _ _ _ h2 _ Hl1 Hs Hr2) as (q & Hq & Hlq & Htq).
  exists (truncate (buf_len q - 32) q), h2. unfold openssl_decrypt. open_packet Hl He.
  rewrite (layout_payload _ _ _ _ Hl). cbn [mbind outcome_bind]. rewrite (proj1 (cipher_is_aead c)).
  change OPENSSL_ENCRYPTION_RESERVED with 16. rewrite !len_app, Htag', Htl'.
  rewrite (proj2 (Z.ltb_ge _ _)) by lia. rewrite (surjective_pairing (get_cipher_and_key c)). fold alg.
  rewrite app_assoc, suffix_app, <- app_assoc by done. cbn [unwrap mbind outcome_bind]. rewrite Hslice.
  cbn [mbind outcome_bind]. rewrite Hnew. cbn [or_fail].
  replace (len text + (16 + 16) - 16 - 16) with (len text) by lia.
  rewrite (wrap_small 64 (len text)), (wrap_small 64 (len text + 16)) by (unfold in_width; lia).
  rewrite (slice_app text tag (as_bytes t) (len text) (len text + 16)) by lia. cbn [mbind outcome_bind]. rewrite Hset. cbn [or_fail].
  assert (slice (text ++ tag ++ as_bytes t) 0 (len text) = Done text) as ->
    by (by apply (slice_app [] text (tag ++ as_bytes t))). cbn [mbind outcome_bind]. rewrite Hrun.
  cbn [mbind outcome_bind or_fail]. rewrite Hst. cbn [mbind outcome_bind]. rewrite Hq. cbn [mbind outcome_bind].
  replace (len text + (16 + 16) - len text) with 32 by lia.
  split; [done|]. split; [simpl; congruence|]. split; [done|].
  eapply layout_truncate; [exact Hlq|]. rewrite len_app. lia.
Qed.

Lemma openssl_cipher_laws c :
  length (get_cipher_and_key c).2 = key_len (get_cipher_and_key c).1 -> EncryptorLaws (OpenSslCipher c).
Proof.
  intros Hk fresh p pre h body Hn Hl He Hb.
  destruct (ossl_session _ _ fresh body Hk (proj1 Hn) Hb)
    as (e & e1 & e2 & d & d1 & d2 & d3 & body' & tag & Hlen & Ht & Htb & Hne & Hue & Hfe & Hge & Hnd & Hsd & Hud & Hfd).
  destruct (openssl_encrypt_layout _ _ _ _ _ _ _ _ _ _ _ Hn Hl He Hne Hue Hfe Hge Hlen) as (q & h1 & Hq & Hty & Hs & Hlq).
  eexists q, true, h1, _. split; [exact Hq|]. split; [done|]. split; [done|]. split; [exact Hlq|].
  intros q' pre' h' Hl' He'. assert (len body' = len body) as Elen by (unfold len; lia).
  assert (forall out, len body' + block_size (get_cipher_and_key c).1 <= len out ->
    update d1 body' out = Some (len body', d2, body ++ drop (length body') out)) as Hud'
    by (intros out Hout; rewrite Elen, Hlen in *; by apply Hud).
  eapply (openssl_decrypt_layout c fresh); eauto. by rewrite Elen.
Qed.
End openssl_laws.

(** ** Encryption leaves the rest of the packet alone *)

(** [q] differs from a packet laid out as [pre], [h] only in payload and flags. *)
Definition reframed (pre : bytes) (h : PeerManagerHeader) (q : ZCPacket) : Prop :=
  exists h' body', laid_out q pre h' body' /\ h' = with_flags (pm_flags h') h.

Class EncryptorFrame (e : Encryptor) : Prop := encryptor_frame fresh p pre h body r q :
  laid_out p pre h body -> encrypt e fresh p = Done (r, q) -> reframed pre h q.

Lemma reframed_refl p pre h body : laid_out p pre h body -> reframed pre h p.
Proof. intros Hl. exists h, body. split; [done | by destruct h]. Qed.

Lemma reframed_trans pre h h' body p q :
  laid_out p pre h' body -> h' = with_flags (pm_flags h') h -> reframed pre h' q -> reframed pre h q.
Proof. intros _ E (h2 & b2 & Hl & E2). exists h2, b2. split; [done|]. rewrite E2, E. done. Qed.

Lemma reframed_mark b p pre h body q :
  laid_out p pre h body -> update_header (set_encrypted b) p = Done q -> reframed pre h q.
Proof.
  intros Hl E. pose proof Hl as (_ & _ & Hr). destruct (encrypted_flag b h Hr) as (h' & Hs & Hr' & _ & Hw).
  destruct (layout_update _ _ _ _ h' _ Hl Hs Hr') as (q' & Eq & Hl' & _). rewrite E in Eq. injection Eq as <-.
  by exists h', body.
Qed.

Lemma reframed_extend l p pre h : reframed pre h p -> reframed pre h (extend l p).
Proof. intros (h' & b' & Hl & E). exists h', (b' ++ l). split; [by apply layout_extend | done]. Qed.

(** Runs an operation that starts by reading the encrypted flag. *)
Ltac open_encrypt Hl :=
  rewrite (layout_pm_header _ _ _ _ Hl); cbn [mbind outcome_bind];
  match goal with |- context [is_encrypted ?h] => destruct (is_encrypted h) as [[]|]; cbn [mbind outcome_bind]; try done end;
  [by intros [= <- <-]; eapply reframed_refl|].

#[global] Instance null_cipher_frame : EncryptorFrame NullCipher.
Proof. intros fresh p pre h body r q Hl [= <- <-]. by eapply reframed_refl. Qed.

#[global] Instance xor_cipher_frame key : EncryptorFrame (XorCipher key).
Proof.
  intros fresh p pre h body r q Hl. simpl. open_encrypt Hl. unfold xor_apply.
  destruct (layout_mut_payload _ _ _ _ Hl) as (put & -> & Hput). cbn [mbind outcome_bind]. intros E. inv_outcome.
  simplify_eq. eapply reframed_mark; [apply Hput | done].
Qed.

Lemma tail_encrypt_frame {T} `{Packed T} seal (tail_of : bytes -> outcome (result encrypt_error T)) p pre h body r q :
  laid_out p pre h body -> tail_encrypt seal tail_of p = Done (r, q) -> reframed pre h q.
Proof.
  intros Hl. unfold tail_encrypt. open_encrypt Hl.
  destruct (layout_mut_payload _ _ _ _ Hl) as (put & -> & Hput). cbn [mbind outcome_bind].
  destruct (seal body) as [[tag|] body']; cbn [fst snd].
  - destruct (tail_of tag) as [[t|err]|]; cbn [mbind outcome_bind]; [| |done].
    + intros E. inv_outcome. simplify_eq. apply reframed_extend. eapply reframed_mark; [apply Hput | done].
    + intros [= <- <-]. eapply reframed_refl. apply Hput.
  - intros [= <- <-]. eapply reframed_refl. apply Hput.
Qed.

Section frames.
Context `{RingAead} `{AesGcmCrate} `{OpenSsl}.

#[global] Instance ring_aes_gcm_frame alg key : EncryptorFrame (RingAesGcmCipher alg key).
Proof. intros fresh p pre h body r q Hl. by eapply tail_encrypt_frame. Qed.
#[global] Instance ring_chacha20_frame key : EncryptorFrame (RingChaCha20Cipher key).
Proof. intros fresh p pre h body r q Hl. by eapply tail_encrypt_frame. Qed.
#[global] Instance aes_gcm_crate_frame alg key : EncryptorFrame (AesGcmCipher alg key).
Proof. intros fresh p pre h body r q Hl. by eapply tail_encrypt_frame. Qed.

Lemma store_output_frame count output p pre h body q :
  laid_out p pre h body -> store_output count output p = Done q -> exists body', laid_out q pre h body'.
Proof.
  intros Hl. unfold store_output. destruct (layout_mut_payload _ _ _ _ Hl) as (put & -> & Hput).
  cbn [mbind outcome_bind]. intros E. inv_outcome. eexists. apply Hput.
Qed.

#[global] Instance openssl_frame c : EncryptorFrame (OpenSslCipher c).
Proof.
  intros fresh p pre h body r q Hl. simpl. unfold openssl_encrypt. open_encrypt Hl.
  rewrite (surjective_pairing (get_cipher_and_key c)). destruct (slice _ _ _) as [nonce|]; cbn [mbind outcome_bind]; [|done].
  destruct (crypter_new _ _ _ _) as [e|]; cbn [or_fail]; [|by intros [= <- <-]; eapply reframed_refl].
  rewrite (layout_payload _ _ _ _ Hl). cbn [mbind outcome_bind].
  destruct (run_crypter _ _ _) as [[[[e1 n] out]|]|]; cbn [mbind outcome_bind or_fail];
    [|by intros [= <- <-]; eapply reframed_refl|done].
  destruct (store_output _ _ _) as [p1|] eqn:Est; cbn [mbind outcome_bind]; [|done].
  destruct (store_output_frame _ _ _ _ _ _ _ Hl Est) as (b1 & Hl1). destruct (is_aead_cipher c).
  - destruct (get_tag _ _) as [tag|]; cbn [option_map or_fail]; [|by intros [= <- <-]; eapply reframed_refl].
    intros E. inv_outcome. simplify_eq. eapply reframed_mark; [by apply layout_extend, layout_extend | done].
  - cbn [or_fail]. intros E. inv_outcome. simplify_eq. eapply reframed_mark; [by apply layout_extend | done].
Qed.

Lemma create_encryptor_frame f algorithm key_128 key_256 e :
  create_encryptor f algorithm key_128 key_256 = Done e -> EncryptorFrame e.
Proof.
  intros Hc. unfold create_encryptor, aes_gcm_backend, xor_cipher_new in Hc.
  destruct (default AesGcm _), key_128, (wireguard f); simplify_eq; apply _.
Qed.
End frames.

(** ** The factory *)

Section factory.
Context `{RingAeadLaws} `{AesGcmCrateLaws} `{OpenSslLaws}.

Lemma create_encryptor_laws f algorithm key_128 key_256 e :
  length key_128 = 16%nat -> length key_256 = 32%nat ->
  create_encryptor f algorithm key_128 key_256 = Done e -> EncryptorLaws e.
Proof.
  intros H16 H32 Hc. unfold create_encryptor, aes_gcm_backend, xor_cipher_new in Hc.
  destruct (default AesGcm _), key_128, (wireguard f); simplify_eq;
    first [by apply ring_aes_gcm_laws | by apply aes_gcm_crate_laws | by apply ring_chacha20_laws
          | by apply openssl_cipher_laws | apply _].
Qed.

(** C38.  The encryptor [create_encryptor] returns for any algorithm name, known or
    not, undoes its own encryption: the decrypted packet has the original
    payload, its header is the one the packet arrived with less the encrypted
    flag, and neither the tunnel type and prefix nor the header fields
    rewritten on the way matter. *)
Theorem encryptor_roundtrip (f : features) (algorithm : string) (key_128 key_256 fresh : bytes)
    (p : ZCPacket) (pre body : bytes) (h : PeerManagerHeader)
    (Hk1 : length key_128 = 16%nat) (Hk2 : length key_256 = 32%nat) (Hn : fresh_nonce fresh)
    (Hl : laid_out p pre h body) (Hplain : is_encrypted h = Done false) (Hlen : len body < MAX_TEXT) :
  exists e q b h1 body', create_encryptor f algorithm key_128 key_256 = Done e /\
    encrypt e fresh p = Done (Ok tt, q) /\ set_encrypted b h = Done h1 /\ laid_out q pre h1 body' /\
    forall q' pre' h', laid_out q' pre' h' body' -> is_encrypted h' = Done b ->
      exists r h2, decrypt e q' = Done (Ok tt, r) /\ packet_type r = packet_type q' /\
        set_encrypted false h' = Done h2 /\ laid_out r pre' h2 body.
Proof.
  assert (exists e, create_encryptor f algorithm key_128 key_256 = Done e) as (e & He).
  { unfold create_encryptor, xor_cipher_new. destruct (default AesGcm _), key_128; eauto; done. }
  pose proof (create_encryptor_laws _ _ _ _ _ Hk1 Hk2 He) as Hlaw.
  destruct (Hlaw fresh p pre h body Hn Hl Hplain Hlen) as (q & b & h1 & body' & Hq & _ & Hs & Hlq & Hdec).
  by exists e, q, b, h1, body'.
Qed.
End factory.

(** ** Packets from the network *)

(** The algorithms of the OpenSSL backend. *)
Definition openssl_algorithm (a : EncryptionAlgorithm) : bool :=
  match a with OpensslAesGcm | OpensslChacha20 | OpensslAes256Gcm => true | _ => false end.

(** The tail of the payload is there, and the crate accepts what stands before it. *)
Definition accepted {T} `{Packed T} (reserved keep : Z) (open : T -> bytes -> bool * bytes) (body : bytes) : bool :=
  match ref_from_suffix body : option T with
  | Some tail => (open tail (take (Z.to_nat (len body - reserved + keep)) body)).1
  | None => false
  end.

Lemma tail_decrypt_spec {T} `{PackedLaws T} reserved keep (open : T -> bytes -> bool * bytes) p pre h body :
  reserved = Z.of_nat size_of -> 0 <= keep <= reserved -> laid_out p pre h body -> is_encrypted h = Done true ->
  exists q, tail_decrypt reserved keep open p =
      Done (if len body <? reserved then Err (PacketTooShort (len body))
            else if accepted reserved keep open body then Ok tt else Err DecryptionFailed, q) /\
    (len body < reserved -> q = p).
Proof.
  intros Hres Hkeep Hl He. pose proof Hl as (_ & _ & Hr).
  unfold tail_decrypt. open_packet Hl He. rewrite (layout_payload _ _ _ _ Hl). cbn [mbind outcome_bind].
  destruct (Z.ltb_spec (len body) reserved); [by exists p|]. unfold accepted.
  unfold ref_from_suffix at 1 2. rewrite (proj2 (Z.ltb_ge _ _)) by lia. cbn [unwrap mbind outcome_bind].
  destruct (layout_mut_payload _ _ _ _ Hl) as (put & Hm & Hput). rewrite Hm. cbn [mbind outcome_bind].
  assert (slice body 0 (len body - reserved + keep) = Done (take (Z.to_nat (len body - reserved + keep)) body)) as ->.
  { apply slice_Done. split; [lia|]. by rewrite Z.sub_0_r. }
  cbn [mbind outcome_bind]. destruct (open _ _) as [[] out]; cbn [fst snd negb]; [|eexists; split; [reflexivity|lia]].
  destruct (encrypted_flag false h Hr) as (h2 & Hs & Hr2 & _).
  match goal with |- context [update_header _ (put ?l)] =>
    destruct (layout_update _ _ _ _ h2 _ (proj1 (Hput l)) Hs Hr2) as (q & -> & _) end.
  cbn [mbind outcome_bind]. eexists. split; [reflexivity|lia].
Qed.

Lemma tail_decrypt_plain {T} `{Packed T} reserved keep (open : T -> bytes -> bool * bytes) p pre h body :
  laid_out p pre h body -> is_encrypted h = Done false -> tail_decrypt reserved keep open p = Done (Ok tt, p).
Proof. intros Hl He. unfold tail_decrypt. by open_packet Hl He. Qed.

Lemma xor_decrypt_spec key p pre h body b : laid_out p pre h body -> is_encrypted h = Done b ->
  exists q, decrypt (XorCipher key) p = Done (Ok tt, q) /\ (b = false -> q = p).
Proof.
  intros Hl He. simpl. open_packet Hl He. destruct b; cbn [negb]; [|by exists p].
  destruct (xor_apply_layout false key _ _ _ _ Hl) as (q & h' & -> & _). by exists q.
Qed.

Section hostile.
Context `{RingAead} `{AesGcmCrate} `{OpenSslLaws}.

(** What the crate behind an algorithm says of a payload; there is nothing to check in a payload of the XOR cipher. *)
Definition opens (f : features) (a : EncryptionAlgorithm) (key_128 key_256 body : bytes) : bool :=
  let ring alg key := accepted AES_GCM_ENCRYPTION_RESERVED 16 (fun tail : AesGcmTail => open_in_place alg key (aes_nonce tail)) body in
  let crate alg key := accepted AES_GCM_ENCRYPTION_RESERVED 0
    (fun (tail : AesGcmTail) text => decrypt_in_place_detached alg key (aes_nonce tail) text (aes_tag tail)) body in
  match a with
  | AesGcm => if wireguard f then ring AES_128_GCM key_128 else crate AES_128_GCM key_128
  | Aes256Gcm => if wireguard f then ring AES_256_GCM key_256 else crate AES_256_GCM key_256
  | ChaCha20 => accepted CHACHA20_POLY1305_ENCRYPTION_RESERVED 16
      (fun tail : ChaCha20Poly1305Tail => open_in_place CHACHA20_POLY1305 key_256 (cc_nonce tail)) body
  | _ => true
  end.

(** C39.  Whatever features the program is built with, as long as the algorithm in use (the default one when the
    configured name is not known to the build) is not one of the OpenSSL ones, no packet with a header, however malformed
    its payload, makes decryption panic.  A packet without the encrypted flag passes unchanged.  A packet with the flag:
    under AES-GCM and ChaCha20 it is refused unchanged as too short when its payload has fewer than 28 bytes, and is otherwise
    decrypted exactly when the crypto crate accepts the payload with the tag and nonce at its end, and an error when not;
    the XOR cipher, which has nothing to check, decrypts it. *)
Theorem decrypt_never_panics (f : features) (algorithm : string) (key_128 key_256 : bytes) (e : Encryptor)
    (p : ZCPacket) (pre body : bytes) (h : PeerManagerHeader) :
  let a := default AesGcm (encryption_algorithm_try_from f algorithm) in
  openssl_algorithm a = false -> create_encryptor f algorithm key_128 key_256 = Done e -> laid_out p pre h body ->
  exists flag r q, is_encrypted h = Done flag /\ decrypt e p = Done (r, q) /\
    (flag = false -> r = Ok tt /\ q = p) /\
    (flag = true ->
       r = (if bool_decide (a <> Xor) && (len body <? 28) then Err (PacketTooShort (len body))
            else if opens f a key_128 key_256 body then Ok tt else Err DecryptionFailed) /\
       (a <> Xor -> len body < 28 -> q = p)).
Proof.
  intros a Ha Hc Hl. pose proof Hl as (_ & _ & Hr). assert (in_width 8 (pm_flags h)) as Hf by apply Hr.
  assert (exists b, is_encrypted h = Done b) as (flag & He)
    by (unfold is_encrypted, get_flag; rewrite flags_from_bits_u8 by done; eauto).
  unfold create_encryptor, aes_gcm_backend, xor_cipher_new in Hc. fold a in Hc. exists flag. unfold opens.
  destruct a; try done.
  3:{ destruct key_128 as [|k ks]; [done|]. injection Hc as <-. destruct (xor_decrypt_spec (k :: ks) _ _ _ _ _ Hl He) as (q & E & Hq).
      exists (Ok tt), q. split_and!; [done|exact E|by intros; split; auto|]. by intros _. }
  all: injection Hc as <-; try (destruct (wireguard f)); cbn [decrypt RingAesGcmCipher AesGcmCipher RingChaCha20Cipher];
    (destruct flag; [|eexists _, _; split_and!; [done|by eapply tail_decrypt_plain|done|done]]);
    (match goal with |- context [tail_decrypt ?r ?k ?o ?x] =>
       destruct (tail_decrypt_spec r k o x pre h body) as (q & E & Hq); [reflexivity|done|exact Hl|exact He|] end);
    (eexists _, _; split_and!; [done|exact E|done|intros _; split; [done|by intros _]]).
Qed.

(** The OpenSSL backend subtracts the tag length without checking for it: an
    encrypted packet with a payload of 16 to 31 bytes, which any peer can send,
    makes [decrypt] index out of range. *)
Theorem openssl_short_packet_panics (c : OpenSslEnum) (p : ZCPacket) (pre body : bytes) (h : PeerManagerHeader)
    (Hk : length (get_cipher_and_key c).2 = key_len (get_cipher_and_key c).1)
    (Hl : laid_out p pre h body) (He : is_encrypted h = Done true) (Hlen : 16 <= len body < 32) :
  decrypt (OpenSslCipher c) p = Panicked IndexOutOfRange.
Proof.
  simpl. unfold openssl_decrypt. open_packet Hl He. rewrite (layout_payload _ _ _ _ Hl).
  cbn [mbind outcome_bind]. change OPENSSL_ENCRYPTION_RESERVED with 16.
  rewrite (proj2 (Z.ltb_ge _ _)) by lia. destruct (cipher_is_aead c) as [-> ->].
  rewrite (surjective_pairing (get_cipher_and_key c)). unfold ref_from_suffix.
  change (Z.of_nat (size_of (H := OpenSslTail))) with 16. rewrite (proj2 (Z.ltb_ge _ _)) by lia.
  cbn [unwrap mbind outcome_bind]. set (t := from_bytes _).
  assert (length (ossl_nonce t) = 16%nat) as Ht.
  { subst t. unfold from_bytes; simpl. apply field_bytes_length. rewrite length_drop.
    change (size_of (H := OpenSslTail)) with 16%nat. unfold len in Hlen. lia. }
  assert (slice (ossl_nonce t) 0 12 = Done (take 12 (ossl_nonce t))) as ->.
  { apply slice_Done. unfold len. rewrite Ht. split; [lia | done]. }
  cbn [mbind outcome_bind].
  destruct (ossl_session _ _ (take 12 (ossl_nonce t)) [] Hk) as (_ & _ & _ & d & _ & _ & _ & _ & _ & _ & _ & _ & _ & _ & _ & _ & -> & _).
  { rewrite length_take. lia. } { done. }
  cbn [or_fail]. set (n := as_usize (len body - 16 - 16)).
  assert (slice body n (as_usize (n + 16)) = Panicked IndexOutOfRange) as ->; [|done].
  unfold slice. rewrite bool_decide_eq_false_2; [done|]. subst n. unfold wrap. intros [? ?]. Z.to_euclidean_division_equations; lia.
Qed.
End hostile.

(** ** An instance for the examples: a checksum in place of the tag *)

Definition sum_bytes (l : bytes) : Z := foldr Z.add 0 l.
Definition checksum_tag (key nonce text : bytes) : bytes :=
  replicate 16 (as_u8 (sum_bytes key + 3 * sum_bytes nonce + 5 * sum_bytes text)).

Lemma checksum_tag_length key nonce text : length (checksum_tag key nonce text) = 16%nat.
Proof. done. Qed.
Lemma checksum_tag_bytes key nonce text : byte_list (checksum_tag key nonce text).
Proof.
  unfold checksum_tag. apply Forall_replicate. apply (wrap_in_width 8). lia.
Qed.

#[local] Instance checksum_ring : RingAead := {|
  seal_in_place_separate_tag alg key nonce text := (Some (checksum_tag key nonce text), text);
  open_in_place alg key nonce buf :=
    let text := take (length buf - 16) buf in
    (bool_decide (drop (length buf - 16) buf = checksum_tag key nonce text), buf)
|}.
#[local] Instance checksum_ring_laws : RingAeadLaws.
Proof.
  split; [|done]. intros alg key nonce text Hk Hn Hlen. eexists _, _. split; [reflexivity|].
  split; [done|]. split; [done|]. split; [apply checksum_tag_bytes|].
  exists (checksum_tag key nonce text). split; [done|]. cbn [open_in_place checksum_ring].
  rewrite length_app, checksum_tag_length, Nat.add_sub, take_app_length, drop_app_length.
  by rewrite bool_decide_eq_true_2.
Qed.

#[local] Instance checksum_crate : AesGcmCrate := {|
  encrypt_in_place_detached alg key nonce text := (Some (checksum_tag key nonce text), text);
  decrypt_in_place_detached alg key nonce text tag := (bool_decide (tag = checksum_tag key nonce text), text)
|}.
#[local] Instance checksum_crate_laws : AesGcmCrateLaws.
Proof.
  split; [|done]. intros alg key nonce text Hk Hn Hlen. eexists _, _. split; [reflexivity|].
  split; [done|]. split; [done|]. split; [apply checksum_tag_bytes|]. cbn. by rewrite bool_decide_eq_true_2.
Qed.

Record checksum_session := {
  ses_key : bytes; ses_nonce : bytes; ses_text : bytes; ses_mode : crypter_mode; ses_tag : bytes }.

#[local] Instance checksum_openssl : OpenSsl := {|
  crypter := checksum_session;
  block_size _ := 1;
  crypter_new alg mode key nonce :=
    Some {| ses_key := key; ses_nonce := nonce; ses_text := []; ses_mode := mode; ses_tag := [] |};
  set_tag tag c := Some {| ses_key := ses_key c; ses_nonce := ses_nonce c; ses_text := ses_text c;
                           ses_mode := ses_mode c; ses_tag := tag |};
  update c input out :=
    if len out <? len input then None
    else Some (len input, {| ses_key := ses_key c; ses_nonce := ses_nonce c; ses_text := ses_text c ++ input;
                             ses_mode := ses_mode c; ses_tag := ses_tag c |},
               input ++ drop (length input) out);
  finalize c out :=
    match ses_mode c with
    | ModeEncrypt => Some (0, c, out)
    | ModeDecrypt => if bool_decide (ses_tag c = checksum_tag (ses_key c) (ses_nonce c) (ses_text c))
                     then Some (0, c, out) else None
    end;
  get_tag c buf := Some (checksum_tag (ses_key c) (ses_nonce c) (ses_text c))
|}.
#[local] Instance checksum_openssl_laws : OpenSslLaws.
Proof.
  split; [intros; vm_compute; split; congruence|]. intros alg key nonce text Hk Hn Hlen.
  eexists _, _, _, _, _, _, _, text, (checksum_tag key nonce text).
  split; [done|]. split; [done|]. split; [apply checksum_tag_bytes|]. split; [reflexivity|].
  split; [intros out Hout; simpl in *; rewrite (proj2 (Z.ltb_ge _ _)) by lia; reflexivity|].
  split; [reflexivity|]. split; [reflexivity|]. split; [reflexivity|]. split; [reflexivity|].
  split; [intros out Hout; simpl in *; rewrite (proj2 (Z.ltb_ge _ _)) by lia; reflexivity|].
  intros out. simpl. by rewrite bool_decide_eq_true_2.
Qed.

Definition sample_header : PeerManagerHeader := {|
  from_peer_id := 1; to_peer_id := 2; pm_packet_type := packet_type_u8 PktData; pm_flags := 0;
  forward_counter := 1; reserved := 0; pm_len := 3 |}.
Definition sample_packet : ZCPacket := mkZC (as_bytes sample_header ++ [7; 8; 9]) DummyTunnel.
Definition sample_key_128 : bytes := replicate 16 5.
Definition sample_key_256 : bytes := replicate 32 6.

Lemma sample_laid_out : laid_out sample_packet [] sample_header [7; 8; 9].
Proof. split; [reflexivity|]. split; [reflexivity|]. vm_compute. repeat split; congruence. Qed.

Lemma sample_nonce : fresh_nonce (replicate 12 1).
Proof. split; [reflexivity|]. repeat constructor; done. Qed.

Lemma encryptor_roundtrip_witness :
  let f := {| wireguard := true; aes_gcm := false; openssl_crypto := true |} in
  exists e q b h1 body', create_encryptor f "openssl-aes-gcm" sample_key_128 sample_key_256 = Done e /\
    encrypt e (replicate 12 1) sample_packet = Done (Ok tt, q) /\ set_encrypted b sample_header = Done h1 /\
    laid_out q [] h1 body' /\
    forall q' pre' h', laid_out q' pre' h' body' -> is_encrypted h' = Done b ->
      exists r h2, decrypt e q' = Done (Ok tt, r) /\ packet_type r = packet_type q' /\
        set_encrypted false h' = Done h2 /\ laid_out r pre' h2 [7; 8; 9].
Proof.
  intros f.
  apply (encryptor_roundtrip f "openssl-aes-gcm" sample_key_128 sample_key_256 (replicate 12 1)
           sample_packet [] [7; 8; 9] sample_header).
  - reflexivity.
  - reflexivity.
  - apply sample_nonce.
  - apply sample_laid_out.
  - reflexivity.
  - vm_compute. reflexivity.
Defined.

(** A packet marked encrypted whose payload is [n] bytes of noise. *)
Definition forged_header : PeerManagerHeader := with_flags FLAG_ENCRYPTED sample_header.
Definition forged_packet (n : nat) : ZCPacket := mkZC (as_bytes forged_header ++ replicate n 7) DummyTunnel.

Lemma forged_laid_out n : laid_out (forged_packet n) [] forged_header (replicate n 7).
Proof. split; [reflexivity|]. split; [reflexivity|]. vm_compute. repeat split; congruence. Qed.

(** In a build with every feature: too short for a tail, and long enough but with a wrong tag. *)
Lemma decrypt_never_panics_witness :
  let f := {| wireguard := true; aes_gcm := true; openssl_crypto := true |} in
  let e := RingAesGcmCipher AES_128_GCM sample_key_128 in
  (exists q, decrypt e (forged_packet 20) = Done (Err (PacketTooShort 20), q)) /\
  (exists q, decrypt e (forged_packet 30) = Done (Err DecryptionFailed, q)).
Proof.
  intros f e. split.
  - destruct (decrypt_never_panics f "no such cipher" sample_key_128 sample_key_256 e (forged_packet 20) [] (replicate 20 7) forged_header)
      as (flag & r & q & Hf & Hd & _ & Hr); [reflexivity|reflexivity|apply forged_laid_out|].
    injection Hf as <-. destruct (Hr eq_refl) as [-> _]. exists q. exact Hd.
  - destruct (decrypt_never_panics f "aes-gcm" sample_key_128 sample_key_256 e (forged_packet 30) [] (replicate 30 7) forged_header)
      as (flag & r & q & Hf & Hd & _ & Hr); [reflexivity|reflexivity|apply forged_laid_out|].
    injection Hf as <-. destruct (Hr eq_refl) as [-> _]. exists q. exact Hd.
Defined.

Lemma openssl_short_packet_panics_witness :
  decrypt (OpenSslCipher (OsslChacha20 sample_key_256)) (forged_packet 20) = Panicked IndexOutOfRange.
Proof.
  apply (openssl_short_packet_panics (OsslChacha20 sample_key_256) (forged_packet 20) [] (replicate 20 7) forged_header).
  - reflexivity.
  - split; [reflexivity|]. split; [reflexivity|]. vm_compute. repeat split; congruence.
  - reflexivity.
  - vm_compute. split; congruence.
Defined.
