(* ===== verification/PeerConn.v ===== *)
(** One connection to a peer: [easytier/src/peers/peer_conn.rs] and
    [peer_conn_ping.rs], the latency window of [tunnel/stats.rs], and the
    network identity of [common/config.rs] the handshake compares.

    [PeerConn] exchanges a handshake over its tunnel, then one task sorts the
    received packets, one decides when to ping, and one counts lost pings and
    closes the connection.  Packets the tunnel delivers are a list followed by
    the reason nothing more came ([StreamEnd]); protobuf is the class
    [HandshakeCodec] and the standard hasher the class [Hasher64].

    The theorems: the window's average is that of the last samples; a ping is
    sent at least every 32 ticks and at once after a loss or when nothing comes
    back; a connection is closed exactly when five pings have been lost since
    the last received packet; a ping is answered and matched by its sequence
    number; a completed handshake leaves each side with the other's id, and the
    server reveals its secret digest only to a client that has shown it. *)

From stdpp Require Import base numbers list sets countable.
From Stdlib Require Import ZifyBool.
From S2P Require Import Prelude PacketDef Encrypt.
Open Scope Z_scope.

(** ** The latency window *)

Record WindowLatency := {
  latency_us_window : list Z; latency_us_window_index : Z; latency_us_window_size : Z;
  lat_sum : Z; lat_count : Z
}.

Definition window_new (window_size : Z) : WindowLatency := {|
  latency_us_window := replicate (Z.to_nat window_size) 0; latency_us_window_index := 0;
  latency_us_window_size := window_size; lat_sum := 0; lat_count := 0 |}.

Definition record_latency (latency_us : Z) (w : WindowLatency) : outcome WindowLatency :=
  let index := latency_us_window_index w in
  let size := latency_us_window_size w in
  let count := if lat_count w <? size then as_u32 (lat_count w + 1) else lat_count w in
  if size =? 0 then Panicked DivisionByZero
  else
    let index' := Z.to_nat (index mod size) in
    match latency_us_window w !! index' with
    | None => Panicked IndexOutOfRange
    | Some old_lat =>
        Done {| latency_us_window := <[index' := latency_us]> (latency_us_window w);
                latency_us_window_index := as_u32 (index + 1); latency_us_window_size := size;
                lat_sum := if old_lat <? latency_us then as_u32 (lat_sum w + (latency_us - old_lat))
                           else as_u32 (lat_sum w - (old_lat - latency_us));
                lat_count := count |}
    end.

Definition get_latency_us (w : WindowLatency) : Z :=
  if lat_count w =? 0 then 0 else lat_sum w / lat_count w.

Fixpoint record_all (samples : list Z) (w : WindowLatency) : outcome WindowLatency :=
  match samples with
  | [] => Done w
  | x :: samples => w ← record_latency x w; record_all samples w
  end.

(** ** When to ping *)

Record Throughput := { tx_bytes : Z; rx_bytes : Z; tx_packets : Z; rx_packets : Z }.

Definition record_tx_bytes (bytes : Z) (t : Throughput) : Throughput :=
  {| tx_bytes := as_u64 (tx_bytes t + bytes); rx_bytes := rx_bytes t;
     tx_packets := as_u64 (tx_packets t + 1); rx_packets := rx_packets t |}.
Definition record_rx_bytes (bytes : Z) (t : Throughput) : Throughput :=
  {| tx_bytes := tx_bytes t; rx_bytes := as_u64 (rx_bytes t + bytes);
     tx_packets := tx_packets t; rx_packets := as_u64 (rx_packets t + 1) |}.

Record PingIntervalController := {
  logic_time : Z; last_send_logic_time : Z; backoff_idx : Z; max_backoff_idx : Z;
  last_throughput : Throughput
}.

Definition controller_new (throughput : Throughput) : PingIntervalController := {|
  logic_time := 0; last_send_logic_time := 0; backoff_idx := 0; max_backoff_idx := 5;
  last_throughput := throughput |}.

Definition tick (c : PingIntervalController) : PingIntervalController := {|
  logic_time := as_u64 (logic_time c + 1); last_send_logic_time := last_send_logic_time c;
  backoff_idx := backoff_idx c; max_backoff_idx := max_backoff_idx c; last_throughput := last_throughput c |}.

Definition tx_increase (throughput : Throughput) (c : PingIntervalController) : bool :=
  tx_packets (last_throughput c) <? tx_packets throughput.
Definition rx_increase (throughput : Throughput) (c : PingIntervalController) : bool :=
  rx_packets (last_throughput c) <? rx_packets throughput.

(** What one call reads: the loss counter, the throughput and a random bit
    that is set with probability 0.2. *)
Record ping_input := { in_loss : Z; in_throughput : Throughput; in_coin : bool }.

Definition should_send_ping (i : ping_input) (c : PingIntervalController) : bool * PingIntervalController :=
  let throughput := in_throughput i in
  let backoff :=
    if 0 <? in_loss i then 0
    else if tx_increase throughput c && negb (rx_increase throughput c) then 0
    else backoff_idx c in
  if as_u64 (logic_time c - last_send_logic_time c) <? 2 ^ backoff then
    (false, {| logic_time := logic_time c; last_send_logic_time := last_send_logic_time c;
               backoff_idx := backoff; max_backoff_idx := max_backoff_idx c; last_throughput := throughput |})
  else
    let backoff := Z.min (backoff + 1) (max_backoff_idx c) in
    let backoff := if (max_backoff_idx c - 2 <? backoff) && in_coin i then backoff - 1 else backoff in
    (true, {| logic_time := logic_time c; last_send_logic_time := logic_time c;
              backoff_idx := backoff; max_backoff_idx := max_backoff_idx c; last_throughput := throughput |}).

(** The controller task: which of the ticks send a ping. *)
Fixpoint controller_run (inputs : list ping_input) (c : PingIntervalController) : list bool * PingIntervalController :=
  match inputs with
  | [] => ([], c)
  | i :: inputs =>
      let '(sent, c) := should_send_ping i (tick c) in
      let '(rest, c) := controller_run inputs c in
      (sent :: rest, c)
  end.

(** ** Lost pings *)

Record pingpong_state := {
  latency_stats : WindowLatency; loss_rate_stats_1 : WindowLatency;
  loss_counter : Z; last_rx_packets : Z
}.

Definition pingpong_start (latency : WindowLatency) (rx : Z) : pingpong_state :=
  {| latency_stats := latency; loss_rate_stats_1 := window_new 100; loss_counter := 0; last_rx_packets := rx |}.

(** The result of one ping, and the two reads of the received-packet count. *)
Record ping_report := { rp_result : option Z; rp_current_rx : Z; rp_next_rx : Z }.

(** One round of the loop over results; [true] closes the connection.  The
    loss rate stored for display is left out. *)
Definition pingpong_round (r : ping_report) (s : pingpong_state) : outcome (bool * pingpong_state) :=
  lat ← match rp_result r with
        | Some l => record_latency (as_u32 l) (latency_stats s)
        | None => Done (latency_stats s)
        end;
  rate ← record_latency (match rp_result r with Some _ => 0 | None => 1 end) (loss_rate_stats_1 s);
  let loss := match rp_result r with Some _ => loss_counter s | None => as_u32 (loss_counter s + 1) end in
  let loss := if last_rx_packets s =? rp_current_rx r then loss else 0 in
  if 5 <=? loss then
    Done (true, {| latency_stats := lat; loss_rate_stats_1 := rate; loss_counter := loss;
                   last_rx_packets := last_rx_packets s |})
  else
    Done (false, {| latency_stats := lat; loss_rate_stats_1 := rate; loss_counter := loss;
                    last_rx_packets := rp_next_rx r |}).

(** The whole loop: whether it broke off, and how many reports it left. *)
Fixpoint pingpong_loop (rs : list ping_report) (s : pingpong_state) : outcome (bool * list ping_report * pingpong_state) :=
  match rs with
  | [] => Done (false, [], s)
  | r :: rs' =>
      '(closed, s) ← pingpong_round r s;
      if (closed : bool) then Done (true, rs', s) else pingpong_loop rs' s
  end.

(** ** Ping packets *)

Section pings.
Context (junk : nat -> Z).

Definition new_ping_packet (my_node_id peer_id seq : Z) : outcome ZCPacket :=
  p ← new_with_payload junk (le_bytes 4 seq);
  fill_peer_manager_hdr p my_node_id peer_id (packet_type_u8 PktPing).

End pings.

(** The body of the wait in [do_pingpong_once]: does this pong answer [seq]? *)
Definition pong_matches (seq : Z) (p : ZCPacket) : outcome bool :=
  pl ← payload p;
  seq_buf ← slice pl 0 4;
  Done (le_val seq_buf =? seq).

(** ** The receive loop *)

Inductive recv_event :=
| RecvSkip                        (** no peer manager header *)
| RecvReply (p : ZCPacket)        (** a ping, sent back as a pong *)
| RecvCtrl (p : ZCPacket)         (** a pong, for the ping task *)
| RecvForward (p : ZCPacket).     (** anything else, for the peer manager *)

Definition with_packet_type (t : Z) (h : PeerManagerHeader) : PeerManagerHeader :=
  {| from_peer_id := from_peer_id h; to_peer_id := to_peer_id h; pm_packet_type := t;
     pm_flags := pm_flags h; forward_counter := forward_counter h; reserved := reserved h; pm_len := pm_len h |}.

Definition recv_loop_body (p : ZCPacket) : outcome recv_event :=
  m ← mut_peer_manager_header p;
  match m with
  | None => Done RecvSkip
  | Some (hdr, put) =>
      Done (if pm_packet_type hdr =? packet_type_u8 PktPing then
              RecvReply (put (with_packet_type (packet_type_u8 PktPong) hdr))
            else if pm_packet_type hdr =? packet_type_u8 PktPong then RecvCtrl p
            else RecvForward p)
  end.

(** ** Network identity *)

(** [DefaultHasher]: the hash of the bytes written so far. *)
Class Hasher64 := { hash64 : bytes -> Z }.

Section identity.
Context `{Hasher64}.

Fixpoint digest_shards (written digest : bytes) (n : nat) : bytes :=
  match n with
  | O => digest
  | S n =>
      let digest := digest ++ reverse (le_bytes 8 (hash64 written)) in
      digest_shards (written ++ digest) digest n
  end.

Definition generate_digest_from_str (str1 str2 : bytes) (digest_len : Z) : outcome bytes :=
  if digest_len mod 8 =? 0 then Done (digest_shards (str1 ++ str2) [] (Z.to_nat (digest_len / 8)))
  else Panicked AssertionFailed.

(** Names and secrets are UTF-8 strings. *)
Record NetworkIdentity := {
  network_name : bytes; network_secret : option bytes; network_secret_digest : option bytes }.

Definition network_identity_new (name secret : bytes) : outcome NetworkIdentity :=
  digest ← generate_digest_from_str name secret 32;
  Done {| network_name := name; network_secret := Some secret; network_secret_digest := Some digest |}.

(** [NetworkIdentityWithOnlyDigest::from]. *)
Definition with_only_digest (i : NetworkIdentity) : outcome (bytes * option bytes) :=
  match network_secret_digest i, network_secret i with
  | Some d, _ => Done (network_name i, Some d)
  | None, Some secret =>
      digest ← generate_digest_from_str (network_name i) secret 32;
      Done (network_name i, Some digest)
  | None, None => Done (network_name i, None)
  end.

Definition identity_eq (i j : NetworkIdentity) : outcome bool :=
  a ← with_only_digest i;
  b ← with_only_digest j;
  Done (bool_decide (a = b)).

(** ** The handshake *)

Definition MAGIC : Z := 3521226209.
Definition VERSION : Z := 1.

Record HandshakeRequest := {
  hs_magic : Z; hs_my_peer_id : Z; hs_version : Z; hs_features : list bytes;
  hs_network_name : bytes; network_secret_digrest : bytes
}.

Class HandshakeCodec := {
  hs_encode : HandshakeRequest -> bytes;
  hs_decode : bytes -> option HandshakeRequest
}.

(** Protobuf round-trips messages with fields in range. *)
Class HandshakeCodecLaws `{HandshakeCodec} := {
  hs_roundtrip r : in_width 32 (hs_magic r) -> in_width 32 (hs_my_peer_id r) -> in_width 32 (hs_version r) ->
    hs_decode (hs_encode r) = Some r
}.

Inductive conn_error :=
| RecvFailed | ConnClosed | NoHeader | UnexpectedType | DecodeFailed | BadDigest | HandshakeTimeout
| SendFailed | PeerIdConflict | Rejected.

(** What the tunnel delivers next, and why it stopped. *)
Inductive StreamEnd := StreamClosed | StreamTimeout.
Definition stream_item : Type := result conn_error ZCPacket.

Section handshake.
Context `{HandshakeCodec} (junk : nat -> Z).

Record PeerConn := {
  conn_my_peer_id : Z; conn_identity : NetworkIdentity;
  conn_info : option HandshakeRequest; conn_is_client : option bool
}.

Definition peer_conn_new (my_peer_id : Z) (i : NetworkIdentity) : PeerConn :=
  {| conn_my_peer_id := my_peer_id; conn_identity := i; conn_info := None; conn_is_client := None |}.

Definition handshake_done (c : PeerConn) : bool := match conn_info c with Some _ => true | None => false end.

Definition conn_get_peer_id (c : PeerConn) : outcome Z :=
  i ← unwrap (conn_info c); Done (hs_my_peer_id i).

Definition set_peer_id (peer_id : Z) (c : PeerConn) : outcome PeerConn :=
  match conn_info c with
  | Some _ => Panicked ExplicitPanic
  | None => Done {| conn_my_peer_id := peer_id; conn_identity := conn_identity c; conn_info := None;
                    conn_is_client := conn_is_client c |}
  end.

Definition conn_get_network_identity (c : PeerConn) : outcome NetworkIdentity :=
  i ← unwrap (conn_info c);
  digest ← copy_into (zeros 32) 0 32 (network_secret_digrest i);
  Done {| network_name := hs_network_name i; network_secret := Some []; network_secret_digest := Some digest |}.

(** A received packet: the handshake, or an error after which the caller retries. *)
Definition wait_handshake (rsp : ZCPacket) : outcome (result conn_error HandshakeRequest) :=
  h ← peer_manager_header rsp;
  match h with
  | None => Done (Err NoHeader)
  | Some peer_mgr_hdr =>
      if negb (pm_packet_type peer_mgr_hdr =? packet_type_u8 PktHandShake) then Done (Err UnexpectedType)
      else
        pl ← payload rsp;
        match hs_decode pl with
        | None => Done (Err DecodeFailed)
        | Some rsp => if negb (len (network_secret_digrest rsp) =? 32) then Done (Err BadDigest) else Done (Ok rsp)
        end
  end.

Fixpoint wait_handshake_loop (stream : list stream_item) (e : StreamEnd)
    : outcome (result conn_error HandshakeRequest * list stream_item) :=
  match stream with
  | [] => Done (Err (match e with StreamClosed => ConnClosed | StreamTimeout => HandshakeTimeout end), [])
  | Err e :: stream => Done (Err RecvFailed, stream)
  | Ok p :: stream =>
      r ← wait_handshake p;
      match r with
      | Ok rsp => Done (Ok rsp, stream)
      | Err _ => wait_handshake_loop stream e
      end
  end.

Definition handshake_request (send_secret_digest : bool) (c : PeerConn) : HandshakeRequest :=
  let network := conn_identity c in
  {| hs_magic := MAGIC; hs_my_peer_id := conn_my_peer_id c; hs_version := VERSION; hs_features := [];
     hs_network_name := network_name network;
     network_secret_digrest :=
       if send_secret_digest then default (zeros 32) (network_secret_digest network) else zeros 32 |}.

(** The packet [send_handshake] puts into the tunnel. *)
Definition send_handshake (send_secret_digest : bool) (c : PeerConn) : outcome ZCPacket :=
  p ← new_with_payload junk (hs_encode (handshake_request send_secret_digest c));
  fill_peer_manager_hdr p (conn_my_peer_id c) 0 (packet_type_u8 PktHandShake).

Definition with_info (rsp : HandshakeRequest) (client : bool) (c : PeerConn) : PeerConn :=
  {| conn_my_peer_id := conn_my_peer_id c; conn_identity := conn_identity c; conn_info := Some rsp;
     conn_is_client := Some client |}.

(** Result, connection and packets sent; [sink_ok] says whether the tunnel
    still takes packets. *)
Definition handshake_result : Type := outcome (result conn_error unit * PeerConn * list ZCPacket).

Definition check_conflict (c : PeerConn) (sent : list ZCPacket) : handshake_result :=
  id ← conn_get_peer_id c;
  Done (if id =? conn_my_peer_id c then Err PeerIdConflict else Ok tt, c, sent).

(** After the request: its sender gets our digest only if its identity is ours. *)
Definition answer_handshake (rsp : HandshakeRequest) (sink_ok : bool) (c : PeerConn) : handshake_result :=
  let c := with_info rsp false c in
  i ← conn_get_network_identity c;
  send_digest ← identity_eq i (conn_identity c);
  p ← send_handshake send_digest c;
  if negb sink_ok then Done (Err SendFailed, c, []) else check_conflict c [p].

(** [do_handshake_as_server_ext]; the callback may change the connection, and
    state [s] of its caller. *)
Definition do_handshake_as_server_ext {S : Type}
    (handshake_recved : PeerConn -> HandshakeRequest -> S -> outcome (result conn_error unit * PeerConn * S))
    (stream : list stream_item) (e : StreamEnd) (sink_ok : bool) (c : PeerConn) (s : S)
    : outcome (result conn_error unit * PeerConn * list ZCPacket * S) :=
  '(r, _) ← wait_handshake_loop stream e;
  match r with
  | Err err => Done (Err err, c, [], s)
  | Ok rsp =>
      '(verdict, c, s) ← handshake_recved c rsp s;
      match verdict with
      | Err err => Done (Err err, c, [], s)
      | Ok _ => '(r, c, sent) ← answer_handshake rsp sink_ok c; Done (r, c, sent, s)
      end
  end.

Definition do_handshake_as_server (stream : list stream_item) (e : StreamEnd) (sink_ok : bool) (c : PeerConn)
    : handshake_result :=
  '(r, _) ← wait_handshake_loop stream e;
  match r with
  | Err err => Done (Err err, c, [])
  | Ok rsp => answer_handshake rsp sink_ok c
  end.

Definition do_handshake_as_client (stream : list stream_item) (e : StreamEnd) (sink_ok : bool) (c : PeerConn)
    : handshake_result :=
  p ← send_handshake true c;
  if negb sink_ok then Done (Err SendFailed, c, [])
  else
    '(r, _) ← wait_handshake_loop stream e;
    match r with
    | Err err => Done (Err err, c, [p])
    | Ok rsp => check_conflict (with_info rsp true c) [p]
    end.
End handshake.
End identity.

(** ** The latency window averages the last samples *)

Definition sum_list (l : list Z) : Z := foldr Z.add 0 l.

Lemma sum_list_app l k : sum_list (l ++ k) = sum_list l + sum_list k.
Proof. unfold sum_list. induction l; simpl; lia. Qed.

Lemma sum_list_replicate n : sum_list (replicate n 0) = 0.
Proof. unfold sum_list. induction n; simpl; lia. Qed.

Lemma sum_list_insert l i x old : l !! i = Some old -> sum_list (<[i := x]> l) = sum_list l - old + x.
Proof.
  unfold sum_list. revert i; induction l as [|y l IH]; intros [|i] E; simplify_eq/=; [lia|].
  rewrite IH by done. lia.
Qed.

Lemma sum_list_nonneg l : Forall (fun x => 0 <= x) l -> 0 <= sum_list l.
Proof. unfold sum_list. induction 1; simpl; lia. Qed.

(** The last [n] samples. *)
Definition last_n (n : nat) (l : list Z) : list Z := drop (length l - n) l.

(** What the window holds after the samples [l]: slot [j mod n] has sample
    [j] for the last [n] of them, and slots not reached yet have 0. *)
Definition window_holds (n : nat) (l : list Z) (w : WindowLatency) : Prop :=
  latency_us_window_size w = Z.of_nat n /\ length (latency_us_window w) = n /\
  latency_us_window_index w = len l /\ lat_count w = Z.min (len l) (Z.of_nat n) /\
  (forall j x, l !! j = Some x -> (length l <= j + n)%nat -> latency_us_window w !! (j mod n)%nat = Some x) /\
  (forall i, (length l <= i < n)%nat -> latency_us_window w !! i = Some 0) /\
  sum_list (latency_us_window w) = sum_list (last_n n l) /\
  lat_sum w = as_u32 (sum_list (latency_us_window w)).

Lemma window_new_holds n : (0 < n)%nat -> window_holds n [] (window_new (Z.of_nat n)).
Proof.
  intros Hn. unfold window_holds, window_new, last_n; simpl. rewrite Nat2Z.id, length_replicate, sum_list_replicate.
  change (len []) with 0. split_and!; try done; try lia.
  intros i Hi. apply lookup_replicate_2. lia.
Qed.

Lemma last_n_snoc n l x :
  sum_list (last_n n (l ++ [x])) =
  sum_list (last_n n l) + (if decide (n = 0)%nat then 0 else x) -
  (if decide (n <= length l)%nat then (if decide (n = 0)%nat then 0 else l !!! (length l - n)%nat) else 0).
Proof.
  unfold last_n. rewrite length_app. simpl. case_decide as En.
  - subst n. rewrite !drop_ge by (rewrite ?length_app; simpl; lia). simpl. repeat case_decide; lia.
  - case_decide as Hle.
    + rewrite drop_app_le by lia. rewrite sum_list_app. change (sum_list [x]) with (x + 0).
      destruct (lookup_lt_is_Some_2 l (length l - n)) as [y Hy]; [lia|].
      rewrite (list_lookup_total_correct _ _ _ Hy).
      rewrite (drop_S l y (length l - n)) by done. change (sum_list (y :: ?k)) with (y + sum_list k).
      replace (length l + 1 - n)%nat with (S (length l - n)) by lia. lia.
    + replace (length l - n)%nat with 0%nat by lia. replace (length l + 1 - n)%nat with 0%nat by lia.
      rewrite !drop_0, sum_list_app. change (sum_list [x]) with (x + 0). lia.
Qed.

(** Samples whose slots are the same are a multiple of the window apart. *)
Lemma slot_collision n j k : (0 < n)%nat -> (j mod n = k mod n)%nat -> (j < k)%nat -> (j + n <= k)%nat.
Proof.
  intros Hn E Hlt. pose proof (Nat.div_mod_eq j n) as Ej. pose proof (Nat.div_mod_eq k n) as Ek.
  rewrite E in Ej. assert (j / n < k / n)%nat by nia. nia.
Qed.

Lemma record_latency_holds n l x w :
  (0 < n)%nat -> Z.of_nat n < 2 ^ 32 -> len l + 1 < 2 ^ 32 -> window_holds n l w ->
  exists w', record_latency x w = Done w' /\ window_holds n (l ++ [x]) w'.
Proof.
  intros Hn Hn32 Hlen (Hsize & Hwl & Hidx & Hcount & Hslots & Hzero & Hsum & Hacc).
  set (i := (length l mod n)%nat). assert (i < n)%nat as Hi by (apply Nat.mod_upper_bound; lia).
  destruct (lookup_lt_is_Some_2 (latency_us_window w) i) as [old Hold]; [lia|].
  assert (Z.to_nat (len l mod Z.of_nat n) = i) as Hi' by (unfold len, i; rewrite <- Nat2Z.inj_mod; lia).
  unfold record_latency. rewrite Hsize, Hidx, Hcount, (proj2 (Z.eqb_neq _ 0)), Hi', Hold by lia.
  eexists; split; [reflexivity|]. unfold window_holds; cbn -[last_n sum_list Z.modulo].
  pose proof (len_nonneg l). assert (len (l ++ [x]) = len l + 1) as Hlen' by (rewrite len_app; done).
  assert (old = if decide (n <= length l)%nat then l !!! (length l - n)%nat else 0) as Hold'.
  { case_decide as Hle.
    - destruct (lookup_lt_is_Some_2 l (length l - n)) as [y Hy]; [lia|].
      rewrite (list_lookup_total_correct _ _ _ Hy). apply (Hslots (length l - n)%nat y) in Hy; [|lia].
      assert (((length l - n) mod n)%nat = i) as Em.
      { unfold i. replace (length l) with ((length l - n) + 1 * n)%nat at 2 by lia. by rewrite Nat.Div0.mod_add. }
      rewrite Em in Hy. congruence.
    - unfold i in Hold. rewrite Nat.mod_small in Hold by lia. rewrite Hzero in Hold by lia. congruence. }
  assert (sum_list (<[i := x]> (latency_us_window w)) = sum_list (last_n n (l ++ [x]))) as Hsum'.
  { rewrite (sum_list_insert _ _ _ _ Hold), last_n_snoc, (decide_False (P := n = 0%nat)), Hold', Hsum by lia.
    case_decide; [|lia]. rewrite decide_False by lia. lia. }
  split_and!; try done.
  - by rewrite length_insert.
  - rewrite Hlen'. apply wrap_small. unfold in_width. lia.
  - rewrite Hlen'. destruct (Z.ltb_spec (Z.min (len l) (Z.of_nat n)) (Z.of_nat n)); [|lia].
    rewrite wrap_small by (unfold in_width; lia). lia.
  - intros j y Hj Hrange. rewrite length_app in Hrange. simpl in Hrange.
    destruct (decide (j = length l)) as [->|Hne].
    + rewrite lookup_app_r, Nat.sub_diag in Hj by lia. injection Hj as <-. fold i. apply list_lookup_insert_eq. lia.
    + assert (j < length l)%nat as Hjl by (apply lookup_lt_Some in Hj; rewrite length_app in Hj; simpl in Hj; lia).
      rewrite lookup_app_l in Hj by done. rewrite list_lookup_insert_ne; [apply Hslots; [done|lia]|].
      unfold i. intros E. symmetry in E. apply slot_collision in E; lia.
  - intros k Hk. rewrite length_app in Hk. simpl in Hk. rewrite list_lookup_insert_ne; [apply Hzero; lia|].
    unfold i. rewrite Nat.mod_small by lia. lia.
  - rewrite (sum_list_insert _ _ _ _ Hold), Hacc. unfold wrap.
    destruct (old <? x); [rewrite Zplus_mod_idemp_l | rewrite Zminus_mod_idemp_l]; f_equal; lia.
Qed.

Lemma record_all_holds n samples l w :
  (0 < n)%nat -> Z.of_nat n < 2 ^ 32 -> len l + len samples < 2 ^ 32 -> window_holds n l w ->
  exists w', record_all samples w = Done w' /\ window_holds n (l ++ samples) w'.
Proof.
  intros Hn Hn32. revert l w; induction samples as [|x samples IH]; intros l w Hlen Hw.
  { exists w. by rewrite app_nil_r. }
  change (len (x :: samples)) with (Z.of_nat (S (length samples))) in Hlen. pose proof (len_nonneg samples).
  destruct (record_latency_holds n l x w Hn Hn32) as (w1 & E1 & H1); [unfold len in *; lia|done|].
  destruct (IH (l ++ [x]) w1) as (w2 & E2 & H2); [rewrite len_app; unfold len in *; simpl; lia|done|].
  exists w2. simpl. rewrite E1. cbn [mbind outcome_bind]. rewrite <- app_assoc in H2. done.
Qed.

(** The latency a connection reports is the average of the last [n] samples,
    or of all of them while there are fewer, as long as their sum fits the
    32-bit accumulator; recording never panics for a window of positive size. *)
Theorem latency_window_average (n : nat) (samples : list Z)
    (Hn : (0 < n)%nat) (Hn32 : Z.of_nat n < 2 ^ 32) (Hlen : len samples < 2 ^ 32)
    (Hsum : in_width 32 (sum_list (last_n n samples))) :
  exists w, record_all samples (window_new (Z.of_nat n)) = Done w /\
    get_latency_us w =
      if len samples =? 0 then 0 else sum_list (last_n n samples) / Z.min (len samples) (Z.of_nat n).
Proof.
  destruct (record_all_holds n samples [] _ Hn Hn32 Hlen (window_new_holds n Hn)) as (w & E & Hw).
  destruct Hw as (_ & _ & _ & Hcount & _ & _ & Hs & Hacc). simpl in *.
  exists w. split; [done|]. unfold get_latency_us. rewrite Hcount, Hacc, Hs, wrap_small by done.
  pose proof (len_nonneg samples).
  destruct (Z.eqb_spec (len samples) 0) as [->|]; [by rewrite Z.min_l by lia|].
  by rewrite (proj2 (Z.eqb_neq _ 0)) by lia.
Qed.

Lemma latency_window_average_witness :
  exists w, record_all [10; 20; 30; 40; 50] (window_new 3) = Done w /\ get_latency_us w = 40.
Proof.
  destruct (latency_window_average 3 [10; 20; 30; 40; 50]) as (w & E & G).
  - lia.
  - vm_compute; reflexivity.
  - vm_compute; reflexivity.
  - vm_compute; split; congruence.
  - exists w. split; [exact E|]. rewrite G. reflexivity.
Defined.

(** ** Pings are sent often enough *)

Definition controller_ok (bound : Z) (c : PingIntervalController) : Prop :=
  max_backoff_idx c = 5 /\ 0 <= backoff_idx c <= 5 /\
  0 <= last_send_logic_time c <= logic_time c /\ logic_time c <= bound.

(** How long ago the last ping was. *)
Definition ping_gap (c : PingIntervalController) : Z := logic_time c - last_send_logic_time c.

Lemma should_send_ping_step bound i c sent c' :
  0 <= bound -> bound + 1 < 2 ^ 64 -> controller_ok bound c -> should_send_ping i (tick c) = (sent, c') ->
  controller_ok (bound + 1) c' /\
  (sent = false -> ping_gap c' = ping_gap c + 1 /\ ping_gap c' < 32) /\
  (0 < in_loss i \/ (tx_increase (in_throughput i) c = true /\ rx_increase (in_throughput i) c = false) ->
   sent = true).
Proof.
  intros Hb Hb64 (Hmax & Hback & Hlast & Htime) E. unfold should_send_ping, ping_gap in *. simpl in E.
  unfold tx_increase, rx_increase in *. simpl in E.
  rewrite (wrap_small 64 (logic_time c + 1)) in E by (unfold in_width; lia).
  rewrite (wrap_small 64 (logic_time c + 1 - _)) in E by (unfold in_width; lia). rewrite Hmax in E.
  set (backoff := if 0 <? in_loss i then 0 else _) in E.
  assert (0 <= backoff <= 5) as Hbk by (subst backoff; repeat case_match; lia).
  assert (1 <= 2 ^ backoff <= 32) as Hpow.
  { split; [apply (Z.pow_le_mono_r 2 0 backoff); lia | apply (Z.pow_le_mono_r 2 backoff 5); lia]. }
  destruct (Z.ltb_spec (logic_time c + 1 - last_send_logic_time c) (2 ^ backoff)) as [Hlt|Hge];
    injection E as <- <-; unfold controller_ok; simpl.
  - split; [split_and!; lia|]. split; [intros _; lia|]. intros Hz. exfalso.
    assert (backoff = 0) as E0.
    { subst backoff. destruct Hz as [Hz|[-> ->]]; [by rewrite (proj2 (Z.ltb_lt _ _) Hz)|].
      by destruct (0 <? in_loss i). }
    rewrite E0 in Hlt. lia.
  - split; [|split; [done | done]]. split_and!; repeat case_match; lia.
Qed.

Lemma controller_run_ok inputs bound c :
  0 <= bound -> bound + len inputs < 2 ^ 64 -> controller_ok bound c ->
  let r := controller_run inputs c in
  controller_ok (bound + len inputs) r.2 /\
  (true ∉ r.1 -> ping_gap r.2 = ping_gap c + len inputs /\ (inputs <> [] -> ping_gap r.2 < 32)).
Proof.
  revert bound c; induction inputs as [|i inputs IH]; intros bound c Hb Hb64 Hok; simpl.
  { change (len []) with 0. rewrite !Z.add_0_r. split; [done|]. intros _. split; [done | done]. }
  change (len (i :: inputs)) with (Z.of_nat (S (length inputs))) in *.
  destruct (should_send_ping i (tick c)) as [sent c1] eqn:E1.
  destruct (should_send_ping_step bound i c sent c1) as (Hok1 & Hgap & _); [lia|unfold len in *; lia|done|done|].
  specialize (IH (bound + 1) c1). destruct (controller_run inputs c1) as [rest c2] eqn:E2. simpl in *.
  destruct IH as [Hok2 Hgap2]; [lia|unfold len in *; lia|done|].
  split; [by replace (bound + Z.of_nat (S (length inputs))) with (bound + 1 + len inputs) by (unfold len; lia)|].
  intros Hnin. apply not_elem_of_cons in Hnin as [Hs Hrest]. destruct sent; [done|].
  destruct (Hgap eq_refl) as [G1 G2]. destruct (Hgap2 Hrest) as [G3 G4]. unfold len in *.
  split; [lia|]. intros _. destruct inputs as [|i' inputs]; [|by apply G4]. simpl in G3. lia.
Qed.

(** C37.  Whatever the controller has seen, among any 32 further ticks at least one
    sends a ping, and a tick sends one at once when a ping has been lost or
    when packets go out and none come in. *)
Theorem ping_liveness (t : Throughput) (past inputs : list ping_input) (i : ping_input)
    (Htime : len past + 32 < 2 ^ 64) :
  let c := (controller_run past (controller_new t)).2 in
  (len inputs = 32 -> true ∈ (controller_run inputs c).1) /\
  (0 < in_loss i \/ (tx_increase (in_throughput i) c = true /\ rx_increase (in_throughput i) c = false) ->
   (should_send_ping i (tick c)).1 = true).
Proof.
  intros c. pose proof (len_nonneg past).
  assert (controller_ok 0 (controller_new t)) as H0 by (unfold controller_ok; simpl; split_and!; lia).
  destruct (controller_run_ok past 0 _ ltac:(lia) ltac:(lia) H0) as [Hok _]. fold c in Hok. simpl in Hok. split.
  - intros H32. destruct (controller_run_ok inputs (len past) c) as [_ Hgap]; [lia|lia|done|].
    apply dec_stable. intros Hnin. destruct (Hgap Hnin) as [G1 G2].
    destruct Hok as (_ & _ & Hlast & _). unfold ping_gap in *.
    specialize (G2 ltac:(intros ->; done)). lia.
  - destruct (should_send_ping i (tick c)) as [sent c'] eqn:E. intros Hi. simpl.
    destruct (should_send_ping_step (len past) i c sent c') as (_ & _ & Himm); [lia|lia|done|done|].
    by apply Himm.
Qed.

Definition idle_throughput : Throughput := {| tx_bytes := 0; rx_bytes := 0; tx_packets := 0; rx_packets := 0 |}.
Definition idle_input : ping_input := {| in_loss := 0; in_throughput := idle_throughput; in_coin := false |}.

Lemma ping_liveness_witness :
  true ∈ (controller_run (replicate 32 idle_input)
            (controller_run (replicate 100 idle_input) (controller_new idle_throughput)).2).1.
Proof.
  apply (ping_liveness idle_throughput (replicate 100 idle_input) (replicate 32 idle_input) idle_input).
  - vm_compute. reflexivity.
  - reflexivity.
Defined.

(** ** A connection is closed after five silent losses *)

(** No packet was received between the previous report and each of these. *)
Fixpoint silent (rx : Z) (rs : list ping_report) : bool :=
  match rs with
  | [] => true
  | r :: rs => (rx =? rp_current_rx r) && silent (rp_next_rx r) rs
  end.

Definition lost (r : ping_report) : bool := match rp_result r with None => true | Some _ => false end.
Definition losses (rs : list ping_report) : Z := len (List.filter lost rs).

(** The count of received packets remembered after these reports. *)
Definition rx_after (rx : Z) (rs : list ping_report) : Z := foldl (fun _ r => rp_next_rx r) rx rs.

Lemma silent_app rx a b : silent rx (a ++ b) = silent rx a && silent (rx_after rx a) b.
Proof. revert rx; induction a as [|r a IH]; intros rx; simpl; [done|]. by rewrite IH, andb_assoc. Qed.

Lemma losses_app a b : losses (a ++ b) = losses a + losses b.
Proof. unfold losses. by rewrite List.filter_app, len_app. Qed.

Lemma rx_after_app rx a b : rx_after rx (a ++ b) = rx_after (rx_after rx a) b.
Proof. unfold rx_after. apply foldl_app. Qed.

Definition window_ok (w : WindowLatency) : Prop :=
  0 < latency_us_window_size w /\ len (latency_us_window w) = latency_us_window_size w.

Lemma record_latency_ok x w : window_ok w -> exists w', record_latency x w = Done w' /\ window_ok w'.
Proof.
  intros [Hpos Hlen]. unfold record_latency. rewrite (proj2 (Z.eqb_neq _ 0)) by lia.
  pose proof (Z.mod_pos_bound (latency_us_window_index w) (latency_us_window_size w) Hpos).
  destruct (lookup_lt_is_Some_2 (latency_us_window w)
    (Z.to_nat (latency_us_window_index w mod latency_us_window_size w))) as [old ->]; [unfold len in *; lia|].
  eexists; split; [reflexivity|]. split; [done|]. unfold len. simpl. by rewrite length_insert.
Qed.

(** The counter is the largest number of losses in a silent stretch that ends now. *)
Definition counts_losses (rx : Z) (past : list ping_report) (s : pingpong_state) : Prop :=
  window_ok (latency_stats s) /\ window_ok (loss_rate_stats_1 s) /\
  last_rx_packets s = rx_after rx past /\ 0 <= loss_counter s < 5 /\
  (exists a b, past = a ++ b /\ silent (rx_after rx a) b = true /\ losses b = loss_counter s) /\
  (forall a b, past = a ++ b -> silent (rx_after rx a) b = true -> losses b <= loss_counter s).

Definition closing_stretch (rx : Z) (rs : list ping_report) : Prop :=
  exists a b c, rs = a ++ b ++ c /\ silent (rx_after rx a) b = true /\ 5 <= losses b.

Lemma losses_one r : losses [r] = if lost r then 1 else 0.
Proof. unfold losses. simpl. by destruct (lost r). Qed.

Lemma pingpong_round_spec rx past r s : counts_losses rx past s ->
  exists closed s', pingpong_round r s = Done (closed, s') /\
    if closed then exists a b, past ++ [r] = a ++ b /\ silent (rx_after rx a) b = true /\ 5 <= losses b
    else counts_losses rx (past ++ [r]) s'.
Proof.
  intros (Hw1 & Hw2 & Hrx & Hc & (a0 & b0 & -> & Hsil & Hloss) & Hmax). unfold pingpong_round.
  assert (exists w, match rp_result r with Some l => record_latency (as_u32 l) (latency_stats s)
      | None => Done (latency_stats s) end = Done w /\ window_ok w) as (lat & -> & Hlat)
    by (destruct (rp_result r); [by apply record_latency_ok | eauto]). cbn [mbind outcome_bind].
  destruct (record_latency_ok (match rp_result r with Some _ => 0 | None => 1 end) _ Hw2) as (rate & -> & Hrate).
  cbn [mbind outcome_bind].
  set (loss := match rp_result r with Some _ => loss_counter s | None => _ end).
  assert (loss = loss_counter s + losses [r]) as Eloss.
  { rewrite losses_one. unfold loss, lost. destruct (rp_result r); [lia | apply wrap_small; unfold in_width; lia]. }
  assert (last_rx_packets s =? rp_current_rx r = true -> silent (rx_after rx a0) (b0 ++ [r]) = true) as Hext.
  { intros E. rewrite silent_app, Hsil. simpl. rewrite <- rx_after_app, <- Hrx, E. done. }
  destruct (5 <=? _) eqn:E5.
  - do 2 eexists. split; [reflexivity|]. simpl. exists a0, (b0 ++ [r]). rewrite <- app_assoc.
    destruct (last_rx_packets s =? rp_current_rx r) eqn:Erx; [|lia].
    split; [done|]. split; [by apply Hext|]. rewrite losses_app. lia.
  - do 2 eexists. split; [reflexivity|]. simpl. unfold counts_losses. simpl. split; [done|]. split; [done|].
    split; [unfold rx_after; by rewrite foldl_app|].
    assert (0 <= losses [r]) by apply len_nonneg. split; [destruct (_ =? _); lia|].
    destruct (last_rx_packets s =? rp_current_rx r) eqn:Erx.
    + split; [exists a0, (b0 ++ [r]); rewrite <- app_assoc, losses_app; split; [done|]; split; [by apply Hext|lia]|].
      intros a b Eab Hs. destruct b as [|y b _] using rev_ind; [change (losses []) with 0; lia|].
      rewrite app_assoc in Eab. apply app_inj_tail in Eab as [Eab ->]. rewrite silent_app in Hs.
      apply andb_true_iff in Hs as [Hs _]. rewrite losses_app. specialize (Hmax a b Eab Hs). lia.
    + split; [exists ((a0 ++ b0) ++ [r]), []; by rewrite app_nil_r|].
      intros a b Eab Hs. destruct b as [|y b _] using rev_ind; [done|]. exfalso.
      rewrite app_assoc in Eab. apply app_inj_tail in Eab as [Eab ->]. rewrite silent_app in Hs.
      apply andb_true_iff in Hs as [_ Hs]. simpl in Hs. rewrite <- rx_after_app, <- Eab, <- Hrx, Erx in Hs. done.
Qed.

Lemma pingpong_loop_spec rs rx past s : counts_losses rx past s ->
  exists closed left s', pingpong_loop rs s = Done (closed, left, s') /\
    if closed then exists done a b, rs = done ++ left /\ past ++ done = a ++ b /\
                     silent (rx_after rx a) b = true /\ 5 <= losses b
    else counts_losses rx (past ++ rs) s'.
Proof.
  revert past s; induction rs as [|r rs IH]; intros past s Hs; simpl.
  { exists false, [], s. by rewrite app_nil_r. }
  destruct (pingpong_round_spec rx past r s Hs) as (closed & s1 & -> & H1). cbn [mbind outcome_bind].
  destruct closed.
  - destruct H1 as (a & b & E & Hsil & H5). exists true, rs, s1. split; [done|]. by exists [r], a, b.
  - destruct (IH _ _ H1) as (closed & left & s2 & -> & H2). exists closed, left, s2. split; [done|].
    destruct closed; [|by rewrite <- app_assoc in H2].
    destruct H2 as (d & a & b & -> & E & Hsil & H5). exists (r :: d), a, b. rewrite <- app_assoc in E. done.
Qed.

(** The ping task handles every sequence of results without panicking, and
    closes the connection exactly when some stretch of it, with no packet
    received in between, has five lost pings. *)
Theorem close_after_silent_losses (rs : list ping_report) (lat : WindowLatency) (rx : Z) (Hw : window_ok lat) :
  exists closed left s, pingpong_loop rs (pingpong_start lat rx) = Done (closed, left, s) /\
    (closed = true <-> closing_stretch rx rs).
Proof.
  assert (counts_losses rx [] (pingpong_start lat rx)) as H0.
  { unfold counts_losses, pingpong_start; simpl. split; [done|]. split; [by split|]. split; [done|]. split; [lia|].
    split; [by exists [], []|]. intros a b E _. symmetry in E. apply app_nil in E as [-> ->]. change (losses []) with 0. lia. }
  destruct (pingpong_loop_spec rs rx [] _ H0) as (closed & left & s & E & H1). exists closed, left, s.
  split; [done|]. destruct closed.
  - split; [|done]. intros _. destruct H1 as (d & a & b & -> & E1 & Hsil & H5). simpl in E1.
    exists a, b, left. by rewrite E1, <- app_assoc.
  - split; [done|]. intros (a & b & c & -> & Hsil & H5). exfalso.
    destruct (pingpong_loop_spec (a ++ b) rx [] _ H0) as (closed' & left' & s' & E' & H2).
    assert (closed' = false) as ->.
    { destruct closed'; [|done]. clear -E E'. rewrite app_assoc in E. revert E E'. generalize (a ++ b) (pingpong_start lat rx).
      intros l; induction l as [|r l IH]; intros st E E'; [done|]. simpl in E, E'.
      destruct (pingpong_round r st) as [[[] s1]|]; cbn [mbind outcome_bind] in *; [done| |done]. by eapply IH. }
    destruct H2 as (_ & _ & _ & Hlt & _ & Hmax). simpl in Hmax. specialize (Hmax a b eq_refl Hsil). lia.
Qed.

Definition lost_report (rx : Z) : ping_report := {| rp_result := None; rp_current_rx := rx; rp_next_rx := rx |}.

Lemma close_after_silent_losses_witness :
  exists closed left s,
    pingpong_loop (replicate 6 (lost_report 8)) (pingpong_start (window_new 15) 7) = Done (closed, left, s) /\
    (closed = true <-> closing_stretch 7 (replicate 6 (lost_report 8))).
Proof. apply close_after_silent_losses. vm_compute. split; reflexivity. Defined.

(** ** Pings are answered *)

(** The tunnel hands over header and payload, in the framing of the other side. *)
Definition delivered (p q : ZCPacket) : Prop :=
  exists pre pre' h body, laid_out p pre h body /\ laid_out q pre' h body.

Lemma layout_unique p pre pre' h h' body body' :
  laid_out p pre h body -> laid_out p pre' h' body' -> h = h' /\ body = body'.
Proof.
  intros H1 H2. pose proof (layout_header _ _ _ _ H1) as E1. rewrite (layout_header _ _ _ _ H2) in E1.
  pose proof (layout_payload _ _ _ _ H1) as E2. rewrite (layout_payload _ _ _ _ H2) in E2. by simplify_eq.
Qed.

Lemma delivered_layout p q pre h body :
  delivered p q -> laid_out p pre h body -> exists pre', laid_out q pre' h body.
Proof.
  intros (a & b & k & l & Hp & Hq) Hl. destruct (layout_unique _ _ _ _ _ _ _ Hp Hl) as [-> ->]. by exists b.
Qed.

Lemma with_packet_type_range t h : in_width 8 t -> in_range h -> in_range (with_packet_type t h).
Proof. unfold in_range; simpl. intros Ht Hr. destruct_and!. done. Qed.

Lemma recv_loop_layout p pre h body : laid_out p pre h body ->
  exists ev, recv_loop_body p = Done ev /\
    if pm_packet_type h =? packet_type_u8 PktPing then
      exists r, ev = RecvReply r /\ laid_out r pre (with_packet_type (packet_type_u8 PktPong) h) body
    else if pm_packet_type h =? packet_type_u8 PktPong then ev = RecvCtrl p
    else ev = RecvForward p.
Proof.
  intros Hl. pose proof Hl as (_ & _ & Hr). destruct (layout_mut_header _ _ _ _ Hl) as (put & Hm & Hput).
  unfold recv_loop_body. rewrite Hm. cbn [mbind outcome_bind]. eexists; split; [reflexivity|].
  destruct (_ =? _); [|by destruct (_ =? _)]. eexists; split; [reflexivity|]. apply Hput.
  apply with_packet_type_range; [vm_compute; split; congruence | done].
Qed.

Lemma pong_matches_layout p pre h seq s : laid_out p pre h (le_bytes 4 seq) -> in_width 32 seq ->
  pong_matches s p = Done (seq =? s).
Proof.
  intros Hl Hseq. unfold pong_matches. rewrite (layout_payload _ _ _ _ Hl). cbn [mbind outcome_bind].
  assert (slice (le_bytes 4 seq) 0 4 = Done (le_bytes 4 seq)) as ->.
  { pose proof (slice_app [] (le_bytes 4 seq) [] 0 4 eq_refl) as Hs. rewrite app_nil_r in Hs. apply Hs.
    unfold len. by rewrite le_bytes_length. }
  cbn [mbind outcome_bind]. rewrite le_val_le_bytes. change (8 * Z.of_nat 4) with 32.
  by rewrite Z.mod_small by apply Hseq.
Qed.

(** A ping is answered by the receive loop of the peer with the same packet
    turned into a pong, the pong is handed to our ping task, and it answers
    exactly the ping with its sequence number. *)
Theorem ping_answered (junk : nat -> Z) (me peer seq : Z) (Hj : forall i, is_byte (junk i))
    (Hme : in_width 32 me) (Hpeer : in_width 32 peer) (Hseq : in_width 32 seq) :
  exists p, new_ping_packet junk me peer seq = Done p /\
    forall q, delivered p q -> exists r, recv_loop_body q = Done (RecvReply r) /\
      forall q2, delivered r q2 ->
        recv_loop_body q2 = Done (RecvCtrl q2) /\ forall s, pong_matches s q2 = Done (seq =? s).
Proof.
  destruct (new_with_payload_layout junk (le_bytes 4 seq) Hj) as (p0 & pre & h0 & E0 & _ & Hl0).
  assert (len (le_bytes 4 seq) = 4) as Hlen by (unfold len; by rewrite le_bytes_length).
  destruct (fill_hdr_layout p0 pre h0 _ me peer (packet_type_u8 PktPing) Hl0) as (p & Ep & _ & Hlp);
    [rewrite Hlen; lia | done | done | vm_compute; split; congruence |].
  set (h := filled_header _ _ _ _ _) in *. exists p. unfold new_ping_packet. rewrite E0. split; [exact Ep|].
  intros q Hq. destruct (delivered_layout _ _ _ _ _ Hq Hlp) as (b & Hlb).
  destruct (recv_loop_layout _ _ _ _ Hlb) as (ev & Eev & Hev).
  assert (pm_packet_type h =? packet_type_u8 PktPing = true) as Et by done. rewrite Et in Hev. destruct Hev as (r & -> & Hlr). exists r. split; [done|].
  intros q2 Hq2. destruct (delivered_layout _ _ _ _ _ Hq2 Hlr) as (b2 & Hlb2).
  destruct (recv_loop_layout _ _ _ _ Hlb2) as (ev2 & Eev2 & Hev2). simpl in Hev2. subst ev2. split; [done|].
  intros s. by eapply pong_matches_layout.
Qed.

Lemma ping_answered_witness :
  exists p, new_ping_packet (fun _ => 0) 1 2 77 = Done p /\
    forall q, delivered p q -> exists r, recv_loop_body q = Done (RecvReply r) /\
      forall q2, delivered r q2 ->
        recv_loop_body q2 = Done (RecvCtrl q2) /\ forall s, pong_matches s q2 = Done (77 =? s).
Proof.
  apply (ping_answered (fun _ => 0) 1 2 77).
  - intros i. vm_compute. split; congruence.
  - vm_compute. split; congruence.
  - vm_compute. split; congruence.
  - vm_compute. split; congruence.
Defined.

(** A pong with fewer than four bytes of payload makes the waiting task panic
    although the code means to skip it, so that its ping is never reported. *)
Theorem short_pong_panics (seq : Z) (p : ZCPacket) (pre body : bytes) (h : PeerManagerHeader)
    (Hl : laid_out p pre h body) (Hlen : len body < 4) :
  pong_matches seq p = Panicked IndexOutOfRange.
Proof.
  unfold pong_matches. rewrite (layout_payload _ _ _ _ Hl). cbn [mbind outcome_bind]. unfold slice.
  rewrite bool_decide_eq_false_2 by lia. done.
Qed.

(** ** The handshake *)

Section handshake_theorems.
Context `{Hasher64} `{HandshakeCodecLaws} (junk : nat -> Z) (Hjunk : forall i, is_byte (junk i)).

Definition conn_ok (c : PeerConn) : Prop :=
  in_width 32 (conn_my_peer_id c) /\
  (forall d, network_secret_digest (conn_identity c) = Some d -> length d = 32%nat) /\
  forall b, len (hs_encode (handshake_request b c)) < 2 ^ 64.

Lemma handshake_digest_len b c : conn_ok c -> len (network_secret_digrest (handshake_request b c)) = 32.
Proof.
  intros (_ & Hd & _). simpl. destruct b; [|done]. destruct (network_secret_digest _) as [d|]; [|done].
  simpl. unfold len. by rewrite (Hd d).
Qed.

Lemma send_handshake_layout b c : conn_ok c ->
  exists p pre h, send_handshake junk b c = Done p /\ laid_out p pre h (hs_encode (handshake_request b c)) /\
    pm_packet_type h = packet_type_u8 PktHandShake.
Proof.
  intros (Hid & _ & Hlen).
  destruct (new_with_payload_layout junk (hs_encode (handshake_request b c)) Hjunk) as (p0 & pre & h0 & E0 & _ & Hl0).
  destruct (fill_hdr_layout p0 pre h0 _ (conn_my_peer_id c) 0 (packet_type_u8 PktHandShake) Hl0) as (p & Ep & _ & Hlp);
    [by apply Hlen | done | vm_compute; split; congruence | vm_compute; split; congruence |].
  exists p, pre, (filled_header (conn_my_peer_id c) 0 (packet_type_u8 PktHandShake) h0 (hs_encode (handshake_request b c))).
  unfold send_handshake. by rewrite E0.
Qed.

(** A packet that makes the receiver try the next one. *)
Definition skipped (it : stream_item) : Prop :=
  exists p e, it = Ok p /\ wait_handshake p = Done (Err e).

Lemma wait_handshake_loop_ok noise q pre h b c rest e :
  Forall skipped noise -> conn_ok c -> laid_out q pre h (hs_encode (handshake_request b c)) ->
  pm_packet_type h = packet_type_u8 PktHandShake ->
  wait_handshake_loop (noise ++ Ok q :: rest) e = Done (Ok (handshake_request b c), rest).
Proof.
  intros Hn Hc Hl Ht. induction Hn as [|it noise (p & err & -> & Hp) _ IH]; simpl.
  - unfold wait_handshake. rewrite (layout_header _ _ _ _ Hl). cbn [mbind outcome_bind]. rewrite Ht, Z.eqb_refl.
    cbn [negb]. rewrite (layout_payload _ _ _ _ Hl). cbn [mbind outcome_bind].
    rewrite hs_roundtrip; [|vm_compute; split; congruence | apply Hc | vm_compute; split; congruence].
    rewrite handshake_digest_len by done. done.
  - rewrite Hp. cbn [mbind outcome_bind]. exact IH.
Qed.

(** The identity the other side sees behind [c]'s first packet. *)
Definition presented (c : PeerConn) : bytes * option bytes :=
  (network_name (conn_identity c), Some (default (zeros 32) (network_secret_digest (conn_identity c)))).

Lemma with_only_digest_done i : exists r, with_only_digest i = Done r.
Proof. unfold with_only_digest. destruct (network_secret_digest i); [eauto|]. destruct (network_secret i); eauto. Qed.

Lemma seen_identity c s : conn_ok c ->
  exists i, conn_get_network_identity (with_info (handshake_request true c) false s) = Done i /\
    with_only_digest i = Done (presented c).
Proof.
  intros Hc. pose proof (handshake_digest_len true c Hc) as Hlen. unfold conn_get_network_identity.
  cbn [conn_info with_info unwrap mbind outcome_bind]. set (d := network_secret_digrest _) in *.
  assert (copy_into (zeros 32) 0 32 d = Done d) as ->.
  { pose proof (copy_into_app [] (zeros 32) [] d 0 32 eq_refl) as Hcp. rewrite !app_nil_r in Hcp. by apply Hcp. }
  cbn [mbind outcome_bind]. eexists; split; [reflexivity|]. unfold with_only_digest, presented. simpl. done.
Qed.

Definition conflict_verdict (a b : PeerConn) : result conn_error unit :=
  if conn_my_peer_id a =? conn_my_peer_id b then Err PeerIdConflict else Ok tt.

(** A client and a server that exchange handshakes over a tunnel that delivers,
    with any packets that are not handshakes before them, agree: each stores
    the request of the other, and both succeed unless their peer ids are equal,
    when both fail.  The server puts its secret digest into the reply exactly
    when the name and digest the client presented are its own; otherwise it
    sends zeros. *)
Theorem handshake_agreement (c s : PeerConn) (noise1 noise2 : list stream_item) (e : StreamEnd)
    (Hc : conn_ok c) (Hs : conn_ok s) (Hn1 : Forall skipped noise1) (Hn2 : Forall skipped noise2) :
  exists own same p1 p2,
    with_only_digest (conn_identity s) = Done own /\ same = bool_decide (presented c = own) /\
    send_handshake junk true c = Done p1 /\ send_handshake junk same s = Done p2 /\
    (same = false -> network_secret_digrest (handshake_request same s) = zeros 32) /\
    (forall q1, delivered p1 q1 ->
       do_handshake_as_server junk (noise1 ++ [Ok q1]) e true s =
         Done (conflict_verdict c s, with_info (handshake_request true c) false s, [p2])) /\
    (forall q2, delivered p2 q2 ->
       do_handshake_as_client junk (noise2 ++ [Ok q2]) e true c =
         Done (conflict_verdict s c, with_info (handshake_request same s) true c, [p1])).
Proof.
  destruct (with_only_digest_done (conn_identity s)) as (own & Hown).
  set (same := bool_decide (presented c = own)).
  destruct (send_handshake_layout true c Hc) as (p1 & pre1 & h1 & E1 & Hl1 & Ht1).
  destruct (send_handshake_layout same s Hs) as (p2 & pre2 & h2 & E2 & Hl2 & Ht2).
  exists own, same, p1, p2. split_and!; try done.
  - by intros ->.
  - intros q1 Hq1. destruct (delivered_layout _ _ _ _ _ Hq1 Hl1) as (pre & Hlq).
    unfold do_handshake_as_server.
    rewrite (wait_handshake_loop_ok noise1 q1 pre h1 true c []) by done. cbn [mbind outcome_bind]. unfold answer_handshake.
    destruct (seen_identity c s Hc) as (i & -> & Hi). cbn [mbind outcome_bind]. unfold identity_eq.
    rewrite Hi. cbn [mbind outcome_bind conn_identity with_info]. rewrite Hown. cbn [mbind outcome_bind]. fold same.
    assert (send_handshake junk same (with_info (handshake_request true c) false s) = Done p2) as -> by exact E2.
    cbn [mbind outcome_bind negb]. done.
  - intros q2 Hq2. destruct (delivered_layout _ _ _ _ _ Hq2 Hl2) as (pre & Hlq).
    unfold do_handshake_as_client. rewrite E1. cbn [mbind outcome_bind negb].
    rewrite (wait_handshake_loop_ok noise2 q2 pre h2 same s []) by done. done.
Qed.

(** Two nodes of one network without a secret do not recognise each other:
    a missing digest is sent as zeros, which differs from a missing one. *)
Lemma no_secret_not_recognised (c : PeerConn) :
  network_secret (conn_identity c) = None -> network_secret_digest (conn_identity c) = None ->
  exists own, with_only_digest (conn_identity c) = Done own /\ presented c <> own.
Proof.
  intros Hs Hd. unfold with_only_digest, presented. rewrite Hs, Hd. eexists; split; [reflexivity|]. congruence.
Qed.
End handshake_theorems.

(** ** Instances for the examples *)

#[local] Instance handshake_eq_dec : EqDecision HandshakeRequest.
Proof. solve_decision. Defined.
#[local] Program Instance handshake_countable : Countable HandshakeRequest :=
  inj_countable' (fun r => (hs_magic r, hs_my_peer_id r, hs_version r, hs_features r, hs_network_name r,
                            network_secret_digrest r))
    (fun x => let '(m, i, v, f, n, d) := x in
       {| hs_magic := m; hs_my_peer_id := i; hs_version := v; hs_features := f; hs_network_name := n;
          network_secret_digrest := d |}) _.
Next Obligation. by intros []. Qed.

(** A message as the one number that encodes it. *)
#[local] Instance counting_codec : HandshakeCodec := {|
  hs_encode r := [Zpos (encode r)];
  hs_decode l := match l with [Zpos n] => decode n | _ => None end
|}.
#[local] Instance counting_codec_laws : HandshakeCodecLaws.
Proof. split. intros r _ _ _. apply decode_encode. Qed.

#[local] Instance sum_hasher : Hasher64 := {| hash64 l := as_u64 (sum_list l) |}.

Definition sample_conn (id : Z) (secret : bytes) : PeerConn :=
  peer_conn_new id {| network_name := [110; 101; 116]; network_secret := None;
                      network_secret_digest := Some (replicate 32 (sum_list secret)) |}.

Lemma sample_conn_ok id secret : in_width 32 id -> conn_ok (sample_conn id secret).
Proof. intros Hid. split; [done|]. split; [by intros d [= <-] | done]. Qed.

Lemma handshake_agreement_witness :
  exists own same p1 p2,
    with_only_digest (conn_identity (sample_conn 2 [7])) = Done own /\
    same = bool_decide (presented (sample_conn 1 [7]) = own) /\
    send_handshake (fun _ => 0) true (sample_conn 1 [7]) = Done p1 /\
    send_handshake (fun _ => 0) same (sample_conn 2 [7]) = Done p2 /\
    forall q1, delivered p1 q1 ->
      do_handshake_as_server (fun _ => 0) [Ok sample_packet; Ok q1] StreamTimeout true (sample_conn 2 [7]) =
        Done (Ok tt, with_info (handshake_request true (sample_conn 1 [7])) false (sample_conn 2 [7]), [p2]).
Proof.
  destruct (handshake_agreement (fun _ => 0) ltac:(intros i; vm_compute; split; congruence)
              (sample_conn 1 [7]) (sample_conn 2 [7]) [Ok sample_packet] [] StreamTimeout)
    as (own & same & p1 & p2 & Hown & Hsame & E1 & E2 & _ & Hserver & _).
  - apply sample_conn_ok. vm_compute. split; congruence.
  - apply sample_conn_ok. vm_compute. split; congruence.
  - repeat constructor. exists sample_packet, UnexpectedType. split; reflexivity.
  - constructor.
  - exists own, same, p1, p2. split; [exact Hown|]. split; [exact Hsame|]. split; [exact E1|]. split; [exact E2|].
    exact Hserver.
Defined.
