(* ===== verification/RpcPacket.v ===== *)
(** RPC messages over packets: [easytier/src/proto/rpc_impl/packet.rs].

    A message is compressed ([compress_packet]), cut into pieces of at most 1300
    bytes, each encoded by [prost] (the class [Prost]) into its own packet
    ([build_rpc_packet]), and put together again by a [PacketMerger].

    The theorems: whatever the order the pieces arrive in, the merger answers
    once, with the whole content and the descriptor; what survives compression
    and decompression; and no packet, however malformed, makes the merger index
    out of range ([feed_never_panics]). *)

From stdpp Require Import base numbers strings list sets.
From Stdlib Require Import ZifyBool.
From S2P Require Import Prelude Text PacketDef Compressor.
Open Scope Z_scope.

(** ** Messages *)

Inductive CompressionAlgoPb := AlgoPbInvalid | AlgoPbNone | AlgoPbZstd.
#[global] Instance compression_algo_pb_eq_dec : EqDecision CompressionAlgoPb.
Proof. solve_decision. Defined.

Definition algo_pb_i32 (a : CompressionAlgoPb) : Z :=
  match a with AlgoPbInvalid => 0 | AlgoPbNone => 1 | AlgoPbZstd => 2 end.

(** The two [TryFrom] conversions. *)
Definition algo_from_pb (a : CompressionAlgoPb) : option CompressorAlgo :=
  match a with
  | AlgoPbZstd => Some ZstdDefault
  | AlgoPbNone => Some AlgoNone
  | AlgoPbInvalid => None
  end.
Definition algo_to_pb (a : CompressorAlgo) : CompressionAlgoPb :=
  match a with ZstdDefault => AlgoPbZstd | AlgoNone => AlgoPbNone end.

Record RpcDescriptor := {
  domain_name : text; proto_name : text; service_name : text; method_index : Z
}.
Record RpcCompressionInfo := { algo : Z; accepted_algo : Z }.

Record RpcPacket := mkRpc {
  from_peer : Z; to_peer : Z; transaction_id : Z; descriptor : option RpcDescriptor; body : bytes;
  is_request : bool; total_pieces : Z; piece_idx : Z; trace_id : Z;
  compression_info : option RpcCompressionInfo
}.

#[global] Instance rpc_descriptor_eq_dec : EqDecision RpcDescriptor.
Proof. solve_decision. Defined.
#[global] Instance rpc_compression_info_eq_dec : EqDecision RpcCompressionInfo.
Proof. solve_decision. Defined.
#[global] Instance rpc_packet_eq_dec : EqDecision RpcPacket.
Proof. solve_decision. Defined.

Definition rpc_packet_default : RpcPacket := mkRpc 0 0 0 None [] false 0 0 0 None.

(** [prost]: encoding into a growing buffer cannot fail. *)
Class Prost := { rpc_encode : RpcPacket -> bytes; rpc_decode : bytes -> option RpcPacket }.

Definition rpc_wf (p : RpcPacket) : Prop :=
  in_width 32 (from_peer p) /\ in_width 32 (to_peer p) /\ in_width 32 (total_pieces p) /\
  in_width 32 (piece_idx p) /\ byte_list (body p).

Class ProstLaws `{Prost} := {
  rpc_decode_encode p : rpc_wf p -> rpc_decode (rpc_encode p) = Some p
}.

(** ** Compression of a message *)

Section content.
Context `{Zstd}.

Definition compress_packet (accepted : CompressionAlgoPb) (content : bytes)
    : result compress_error (bytes * CompressionAlgoPb) :=
  let algo := default AlgoNone (algo_from_pb accepted) in
  match compress_raw content algo with
  | Err e => Err e
  | Ok compressed =>
      if len content <=? len compressed then Ok (content, AlgoPbNone)
      else Ok (compressed, algo_to_pb algo)
  end.

(** A failed conversion of the algorithm is an error of the same type. *)
Definition decompress_packet (compression_algo : CompressionAlgoPb) (content : bytes)
    : result compress_error bytes :=
  match algo_from_pb compression_algo with
  | None => Err UnknownAlgo
  | Some algo => decompress_raw content algo
  end.
End content.

(** ** The merger *)

Record PacketMerger := { first_piece : option RpcPacket; pieces : list RpcPacket; last_updated : Z }.

Definition merger_new (now : Z) : PacketMerger := {| first_piece := None; pieces := []; last_updated := now |}.

Definition try_merge_pieces (m : PacketMerger) : option RpcPacket :=
  match first_piece m, pieces m with
  | None, _ => None
  | _, [] => None
  | Some _, p0 :: _ =>
      if existsb (fun p => total_pieces p =? 0) (pieces m) then None
      else
        let body := concat (body <$> pieces m) in
        Some (mkRpc (from_peer p0) (to_peer p0) (transaction_id p0) (descriptor p0) body (is_request p0)
                1 0 (trace_id p0) (compression_info p0))
  end.

Inductive rpc_error := DescriptorMissing | TotalPiecesInvalid | PieceIdxTooLarge.

(** [Vec::resize] with the default packet. *)
Definition resize (n : nat) (l : list RpcPacket) : list RpcPacket :=
  take n l ++ replicate (n - length l) rpc_packet_default.

Definition feed (now : Z) (p : RpcPacket) (m : PacketMerger)
    : outcome (result rpc_error (option RpcPacket) * PacketMerger) :=
  let total := total_pieces p in
  let idx := piece_idx p in
  if (total =? 0) && (idx =? 0) then Done (Ok (Some p), m)
  else if (idx =? 0) && bool_decide (descriptor p = None) then Done (Err DescriptorMissing, m)
  else if (32 * 1024 <? total) || (total =? 0) then Done (Err TotalPiecesInvalid, m)
  else if total <=? idx then Done (Err PieceIdxTooLarge, m)
  else
    let stale := match first_piece m with
                 | None => true
                 | Some f => negb (transaction_id f =? transaction_id p) || negb (from_peer f =? from_peer p)
                 end in
    let first := if stale then Some p else first_piece m in
    let ps := if stale then [] else pieces m in
    let ps := resize (Z.to_nat total) ps in
    ps ← (if bool_decide (idx < len ps) then Done (<[Z.to_nat idx := p]> ps) else Panicked IndexOutOfRange);
    let m := {| first_piece := first; pieces := ps; last_updated := now |} in
    Done (Ok (try_merge_pieces m), m).

(** Pieces come from the network: every piece number is checked before use. *)
Lemma feed_never_panics now p m : exists r m', feed now p m = Done (r, m').
Proof.
  unfold feed. repeat (case_match; [by eauto|]).
  rewrite bool_decide_true; [by eauto|].
  unfold len, resize. rewrite length_app, length_take, length_replicate. lia.
Qed.

(** ** Building the packets *)

Definition RPC_PACKET_CONTENT_MTU : Z := 1300.

Record BuildRpcPacketArgs := {
  arg_from_peer : Z; arg_to_peer : Z; rpc_desc : RpcDescriptor; arg_transaction_id : Z; is_req : bool;
  content : bytes; arg_trace_id : Z; arg_compression_info : RpcCompressionInfo
}.

Definition total_of (args : BuildRpcPacketArgs) : Z :=
  let n := len (content args) in
  if 0 <? n mod RPC_PACKET_CONTENT_MTU then n / RPC_PACKET_CONTENT_MTU + 1 else n / RPC_PACKET_CONTENT_MTU.

(** [cur_packet] of the loop. *)
Definition piece_at (args : BuildRpcPacketArgs) (cur_offset : Z) (cur_content : bytes) : RpcPacket := {|
  from_peer := arg_from_peer args;
  to_peer := arg_to_peer args;
  descriptor := if (cur_offset =? 0) || (algo (arg_compression_info args) =? algo_pb_i32 AlgoPbNone)
                then Some (rpc_desc args) else None;
  is_request := is_req args;
  total_pieces := as_u32 (total_of args);
  piece_idx := as_u32 (cur_offset / RPC_PACKET_CONTENT_MTU);
  transaction_id := arg_transaction_id args;
  body := cur_content;
  trace_id := arg_trace_id args;
  compression_info := if cur_offset =? 0 then Some (arg_compression_info args) else None
|}.

Section build.
Context `{Prost} (junk : nat -> Z).

Definition rpc_packet_type (args : BuildRpcPacketArgs) : PacketType :=
  if is_req args then PktRpcReq else PktRpcResp.

Fixpoint build_loop (fuel : nat) (args : BuildRpcPacketArgs) (cur_offset : Z) : outcome (list ZCPacket) :=
  let n := len (content args) in
  if negb ((cur_offset <? n) || bool_decide (content args = [])) then Done []
  else
    match fuel with
    | O => Panicked OutOfFuel
    | Datatypes.S fuel =>
        let cur_len := if n <? cur_offset + RPC_PACKET_CONTENT_MTU then n - cur_offset
                       else RPC_PACKET_CONTENT_MTU in
        cur_content ← slice (content args) cur_offset (cur_offset + cur_len);
        let cur_packet := piece_at args cur_offset cur_content in
        zc ← new_with_payload junk (rpc_encode cur_packet);
        zc ← fill_peer_manager_hdr zc (arg_from_peer args) (arg_to_peer args)
               (packet_type_u8 (rpc_packet_type args));
        if bool_decide (content args = []) then Done [zc]
        else rest ← build_loop fuel args (cur_offset + cur_len); Done (zc :: rest)
    end.

(** The loop makes one round per piece, and one for an empty content. *)
Definition build_rpc_packet (args : BuildRpcPacketArgs) : outcome (list ZCPacket) :=
  build_loop (Z.to_nat (total_of args) + 1) args 0.
End build.

(** ** Compressed content *)

(** A message that was compressed decompresses to the original content,
    except when zstd shrank more than 64 KiB of content by a factor above 32:
    then the receiver runs out of attempts and the message is lost. *)
Theorem rpc_content_roundtrip `{ZstdLaws} accepted content c a
    (Hc : compress_packet accepted content = Ok (c, a)) (Hsmall : len c < 2 ^ 58) :
  decompress_packet a c =
  if bool_decide (a = AlgoPbZstd) && (decompress_limit (len c) <? len content)
  then Err TooManyAttempts else Ok content.
Proof.
  unfold compress_packet in Hc.
  destruct (default AlgoNone (algo_from_pb accepted)) eqn:Ea; simpl in Hc.
  - rewrite Z.leb_refl in Hc. by injection Hc as <- <-.
  - destruct (zstd_compress content) as [z|] eqn:Ez; [|done].
    destruct (Z.leb_spec (len content) (len z)); [by injection Hc as <- <-|]. injection Hc as <- <-.
    unfold decompress_packet. cbn [algo_from_pb algo_to_pb]. rewrite (decompress_raw_spec content z) by done.
    rewrite bool_decide_eq_true_2 by done. cbn [andb].
    destruct (Z.leb_spec (len content) (decompress_limit (len z))), (Z.ltb_spec (decompress_limit (len z)) (len content));
      try done; lia.
Qed.

(** ** Pieces *)

Definition chunk_at (args : BuildRpcPacketArgs) (i : nat) : bytes :=
  take 1300 (drop (1300 * i) (content args)).

Definition piece_no (args : BuildRpcPacketArgs) (i : nat) : RpcPacket :=
  piece_at args (1300 * Z.of_nat i) (chunk_at args i).

Definition rpc_pieces (args : BuildRpcPacketArgs) : list RpcPacket :=
  piece_no args <$> seq 0 (Z.to_nat (total_of args)).

(** A message the receiver accepts: not empty, at most 32768 pieces. *)
Record rpc_ok (args : BuildRpcPacketArgs) : Prop := {
  ro_nonempty : content args <> [];
  ro_total : total_of args <= 32 * 1024;
  ro_bytes : byte_list (content args);
  ro_from : in_width 32 (arg_from_peer args);
  ro_to : in_width 32 (arg_to_peer args)
}.

Section pieces.
Context (args : BuildRpcPacketArgs).
Hypothesis Hok : rpc_ok args.

Lemma content_pos : 0 < len (content args).
Proof. pose proof (ro_nonempty _ Hok). destruct (content args); [done | unfold len; simpl; lia]. Qed.

Lemma total_spec : (total_of args - 1) * 1300 < len (content args) <= total_of args * 1300.
Proof.
  unfold total_of, RPC_PACKET_CONTENT_MTU.
  pose proof (Z.div_mod (len (content args)) 1300 ltac:(lia)).
  pose proof (Z.mod_pos_bound (len (content args)) 1300 ltac:(lia)). pose proof content_pos.
  destruct (Z.ltb_spec 0 (len (content args) mod 1300)); lia.
Qed.

Lemma total_bounds : 1 <= total_of args <= 32 * 1024.
Proof. pose proof total_spec. pose proof content_pos. pose proof (ro_total _ Hok). lia. Qed.

Lemma piece_no_idx i : Z.of_nat i < total_of args -> piece_idx (piece_no args i) = Z.of_nat i.
Proof.
  intros Hi. pose proof total_bounds. unfold piece_no, piece_at; cbn [piece_idx].
  change RPC_PACKET_CONTENT_MTU with 1300. rewrite (Z.mul_comm 1300), Z.div_mul by lia.
  apply wrap_small. unfold in_width. lia.
Qed.

Lemma piece_no_total i : total_pieces (piece_no args i) = total_of args.
Proof. pose proof total_bounds. cbn. apply wrap_small. unfold in_width. lia. Qed.

Lemma rpc_pieces_lookup i p :
  rpc_pieces args !! i = Some p <-> Z.of_nat i < total_of args /\ p = piece_no args i.
Proof.
  unfold rpc_pieces. rewrite list_lookup_fmap_Some. setoid_rewrite lookup_seq. split.
  - intros (j & -> & E & Hi). subst j. simpl. split; [lia | done].
  - intros [Hi ->]. exists i. simpl. split; [done|]. lia.
Qed.

Lemma rpc_pieces_length : length (rpc_pieces args) = Z.to_nat (total_of args).
Proof. unfold rpc_pieces. by rewrite length_fmap, length_seq. Qed.

Lemma rpc_pieces_NoDup : NoDup (rpc_pieces args).
Proof.
  apply NoDup_alt. intros i j p Hi Hj. apply rpc_pieces_lookup in Hi as [Hi ->]. apply rpc_pieces_lookup in Hj as [Hj E].
  assert (piece_idx (piece_no args i) = piece_idx (piece_no args j)) as Ei by (by rewrite E).
  rewrite !piece_no_idx in Ei by done. lia.
Qed.

Lemma chunks_concat k : concat (chunk_at args <$> seq 0 k) = take (1300 * k) (content args).
Proof.
  induction k as [|k IH]; [done|].
  rewrite seq_S, fmap_app, concat_app, IH, Nat.add_0_l. cbn [fmap list_fmap concat]. rewrite app_nil_r. unfold chunk_at.
  rewrite <- (take_drop (1300 * k) (take (1300 * S k) (content args))).
  rewrite take_take, (Nat.min_l (1300 * k) (1300 * S k)) by lia. f_equal.
  replace (1300 * S k)%nat with (1300 * k + 1300)%nat by lia. by rewrite <- take_drop_commute.
Qed.

Lemma bodies_concat : concat (body <$> rpc_pieces args) = content args.
Proof.
  unfold rpc_pieces. rewrite <- list_fmap_compose.
  change (body ∘ piece_no args) with (chunk_at args). rewrite chunks_concat. apply take_ge.
  pose proof total_spec. unfold len in *. lia.
Qed.

Lemma rpc_pieces_wf p : p ∈ rpc_pieces args -> rpc_wf p.
Proof.
  intros Hp. apply list_elem_of_lookup in Hp as [i Hi]. apply rpc_pieces_lookup in Hi as [Hi ->].
  pose proof total_bounds. split_and!.
  - apply (ro_from _ Hok).
  - apply (ro_to _ Hok).
  - rewrite piece_no_total. unfold in_width. lia.
  - rewrite piece_no_idx by done. unfold in_width. lia.
  - cbn [piece_no piece_at body]. apply Forall_take, Forall_drop. apply (ro_bytes _ Hok).
Qed.

(** *** Merging *)

(** The slots of the merger after the pieces [gs] have been fed. *)
Definition slots (gs : list RpcPacket) : list RpcPacket :=
  (fun p => if bool_decide (p ∈ gs) then p else rpc_packet_default) <$> rpc_pieces args.

Definition same_message (f : RpcPacket) : Prop :=
  transaction_id f = arg_transaction_id args /\ from_peer f = arg_from_peer args.

(** The merger holds the pieces [gs], or nothing of this message yet. *)
Definition holds (gs : list RpcPacket) (m : PacketMerger) : Prop :=
  match gs with
  | [] => match first_piece m with
          | None => True
          | Some f => ~ same_message f
          end
  | _ => exists f, first_piece m = Some f /\ same_message f /\ pieces m = slots gs
  end.

Definition merged : RpcPacket :=
  mkRpc (arg_from_peer args) (arg_to_peer args) (arg_transaction_id args) (Some (rpc_desc args)) (content args)
    (is_req args) 1 0 (arg_trace_id args) (Some (arg_compression_info args)).

Lemma rpc_pieces_same p : p ∈ rpc_pieces args -> same_message p.
Proof. intros Hp. apply list_elem_of_lookup in Hp as [i Hi]. by apply rpc_pieces_lookup in Hi as [_ ->]. Qed.

Lemma resize_same l : length l = Z.to_nat (total_of args) -> resize (Z.to_nat (total_of args)) l = l.
Proof. intros Hl. unfold resize. rewrite Hl, Nat.sub_diag, app_nil_r, <- Hl. apply firstn_all. Qed.

Lemma resize_empty : resize (Z.to_nat (total_of args)) [] = slots [].
Proof.
  unfold resize, slots. rewrite take_nil, Nat.sub_0_r, <- rpc_pieces_length. simpl.
  induction (rpc_pieces args) as [|p l IH]; simpl; [done|]. by rewrite IH.
Qed.

Lemma slots_length gs : length (slots gs) = Z.to_nat (total_of args).
Proof. unfold slots. by rewrite length_fmap, rpc_pieces_length. Qed.

(** Storing a piece at its index adds it to the slots. *)
Lemma slots_insert gs i :
  Z.of_nat i < total_of args -> <[i := piece_no args i]> (slots gs) = slots (gs ++ [piece_no args i]).
Proof.
  intros Hi. apply list_eq. intros j. unfold slots.
  destruct (decide (i = j)) as [<-|Hne].
  - rewrite list_lookup_insert_eq by (rewrite length_fmap, rpc_pieces_length; lia).
    rewrite list_lookup_fmap. rewrite (proj2 (rpc_pieces_lookup i _) (conj Hi eq_refl)). simpl.
    by rewrite bool_decide_eq_true_2 by (apply elem_of_app; right; left).
  - rewrite list_lookup_insert_ne by done. rewrite !list_lookup_fmap.
    destruct (rpc_pieces args !! j) as [p|] eqn:Ej; [|done]. simpl. f_equal.
    assert (p <> piece_no args i).
    { intros ->. apply Hne. eapply NoDup_lookup; [apply rpc_pieces_NoDup | | exact Ej].
      by apply rpc_pieces_lookup. }
    repeat case_bool_decide; try done; set_solver.
Qed.

Lemma slots_missing gs p :
  p ∈ rpc_pieces args -> p ∉ gs -> existsb (fun p => total_pieces p =? 0) (slots gs) = true.
Proof.
  intros Hp Hg. apply existsb_exists. exists rpc_packet_default. split; [|done].
  apply list_elem_of_In, list_elem_of_fmap. exists p. by rewrite bool_decide_eq_false_2.
Qed.

Lemma slots_full gs : gs ≡ₚ rpc_pieces args -> slots gs = rpc_pieces args.
Proof.
  intros Hp. unfold slots. rewrite <- (list_fmap_id (rpc_pieces args)) at 2.
  apply list_fmap_ext. intros i p Hi. rewrite bool_decide_eq_true_2; [done|]. rewrite Hp.
  by apply list_elem_of_lookup_2 in Hi.
Qed.

Lemma try_merge_full f now :
  try_merge_pieces {| first_piece := Some f; pieces := rpc_pieces args; last_updated := now |} = Some merged.
Proof.
  pose proof total_bounds as Ht. pose proof bodies_concat as Hb.
  pose proof (proj2 (rpc_pieces_lookup 0 _) (conj (ltac:(lia) : Z.of_nat 0 < total_of args) eq_refl)) as H0.
  assert (existsb (fun p => total_pieces p =? 0) (rpc_pieces args) = false) as Hall.
  { apply not_true_is_false. intros He. apply existsb_exists in He as (p & Hp & E).
    apply list_elem_of_In, list_elem_of_lookup in Hp as [i Hi]. apply rpc_pieces_lookup in Hi as [_ ->].
    rewrite piece_no_total in E. lia. }
  unfold try_merge_pieces. cbn [first_piece pieces]. rewrite Hall, Hb.
  destruct (rpc_pieces args) as [|p0 l]; [done|]. by injection H0 as ->.
Qed.

Lemma feed_piece gs hs p m now :
  gs ++ p :: hs ≡ₚ rpc_pieces args -> holds gs m ->
  exists m', feed now p m = Done (Ok (if decide (hs = []) then Some merged else None), m') /\
    holds (gs ++ [p]) m'.
Proof.
  intros Hperm Hm. pose proof total_bounds as Ht.
  assert (p ∈ rpc_pieces args) as Hp by (rewrite <- Hperm; apply elem_of_app; right; left).
  pose proof (rpc_pieces_same p Hp) as [Htx Hfr]. pose proof Hp as Hp'.
  apply list_elem_of_lookup in Hp' as [i Hi]. apply rpc_pieces_lookup in Hi as [Hi ->].
  unfold feed. rewrite piece_no_total, piece_no_idx by done.
  rewrite (proj2 (Z.eqb_neq (total_of args) 0)) by lia. cbn [andb].
  assert ((Z.of_nat i =? 0) && bool_decide (descriptor (piece_no args i) = None) = false) as ->.
  { destruct (Z.eqb_spec (Z.of_nat i) 0) as [E|]; [|done]. replace i with 0%nat by lia. done. }
  rewrite (proj2 (Z.ltb_ge (32 * 1024) (total_of args))) by lia. cbn [orb].
  rewrite (proj2 (Z.leb_gt (total_of args) (Z.of_nat i))) by lia.
  set (stale := match first_piece m with None => true | Some f => _ end).
  assert (exists f, (if stale then Some (piece_no args i) else first_piece m) = Some f /\ same_message f /\
    resize (Z.to_nat (total_of args)) (if stale then [] else pieces m) = slots gs) as (f & -> & Hf & ->).
  { destruct gs as [|g gs]; unfold holds in Hm.
    - assert (stale = true) as ->; [|by eexists; split; [reflexivity|]; split; [|apply resize_empty]].
      unfold stale. destruct (first_piece m) as [f|]; [|done]. rewrite Htx, Hfr.
      destruct (Z.eqb_spec (transaction_id f) (arg_transaction_id args)), (Z.eqb_spec (from_peer f) (arg_from_peer args));
        try done. by destruct Hm.
    - destruct Hm as (f & Ef & [Hf1 Hf2] & Hs). exists f. unfold stale.
      rewrite Ef, Hf1, Hf2, Htx, Hfr, !Z.eqb_refl. cbn [negb orb].
      split; [done|]. split; [done|]. rewrite Hs. apply resize_same, slots_length. }
  rewrite bool_decide_eq_true_2 by (unfold len; rewrite slots_length; lia).
  cbn [mbind outcome_bind]. rewrite Nat2Z.id, slots_insert by done. eexists. split.
  - f_equal. f_equal. f_equal. rewrite cons_middle, app_assoc in Hperm. case_decide as Eh.
    + subst hs. rewrite app_nil_r in Hperm. rewrite (slots_full _ Hperm). apply try_merge_full.
    + destruct hs as [|q hs]; [done|]. unfold try_merge_pieces. cbn [first_piece pieces].
      rewrite (slots_missing _ q); [by destruct (slots _) | |].
      * rewrite <- Hperm. apply elem_of_app; right; left.
      * intros Hq. pose proof rpc_pieces_NoDup as Hnd. rewrite <- Hperm in Hnd.
        apply NoDup_app in Hnd as (_ & Hsep & _). apply (Hsep q Hq). left.
  - unfold holds. destruct gs; by exists f.
Qed.
End pieces.

Fixpoint feed_all (now : Z) (ps : list RpcPacket) (m : PacketMerger)
    : outcome (list (result rpc_error (option RpcPacket)) * PacketMerger) :=
  match ps with
  | [] => Done ([], m)
  | p :: ps =>
      '(r, m) ← feed now p m;
      '(rs, m) ← feed_all now ps m;
      Done (r :: rs, m)
  end.

Lemma feed_all_pieces args (Hok : rpc_ok args) now : forall hs gs m,
  gs ++ hs ≡ₚ rpc_pieces args -> hs <> [] -> holds args gs m ->
  exists m', feed_all now hs m = Done (replicate (length hs - 1) (Ok None) ++ [Ok (Some (merged args))], m').
Proof.
  induction hs as [|p hs IH]; intros gs m Hp Hne Hm; [done|].
  destruct (feed_piece args Hok gs hs p m now Hp Hm) as (m1 & E & Hm1). simpl. rewrite E. cbn [mbind outcome_bind].
  destruct hs as [|q hs]; [by eexists|]. rewrite decide_False by done.
  destruct (IH (gs ++ [p]) m1) as (m2 & E2); [by rewrite <- app_assoc | done | done |].
  rewrite E2. cbn [mbind outcome_bind]. exists m2. simpl. by rewrite Nat.sub_0_r.
Qed.

Section build_spec.
Context `{ProstLaws} (junk : nat -> Z) (args : BuildRpcPacketArgs).
Hypothesis (Hj : forall i, is_byte (junk i)).

(** [z] carries the encoded piece, under the type and ids of the message. *)
Definition carries_piece (p : RpcPacket) (z : ZCPacket) : Prop :=
  payload z = Done (rpc_encode p) /\ exists h, peer_manager_header z = Done (Some h) /\
    from_peer_id h = arg_from_peer args /\ to_peer_id h = arg_to_peer args /\
    pm_packet_type h = packet_type_u8 (rpc_packet_type args).

Lemma build_piece p :
  in_width 32 (arg_from_peer args) -> in_width 32 (arg_to_peer args) -> len (rpc_encode p) < 2 ^ 64 -> exists z, (zc ← new_with_payload junk (rpc_encode p);
             fill_peer_manager_hdr zc (arg_from_peer args) (arg_to_peer args)
               (packet_type_u8 (rpc_packet_type args))) = Done z /\ carries_piece p z.
Proof.
  intros Hfrom Hto Hsize. destruct (new_with_payload_layout junk (rpc_encode p) Hj) as (z0 & pre & h & E0 & _ & Hl0).
  destruct (fill_hdr_layout z0 pre h (rpc_encode p) (arg_from_peer args) (arg_to_peer args)
    (packet_type_u8 (rpc_packet_type args)) Hl0 Hsize Hfrom Hto)
    as (z & E & _ & Hl); [unfold rpc_packet_type; destruct (is_req args); vm_compute; split; congruence|].
  exists z. rewrite E0. cbn [mbind outcome_bind]. split; [done|]. split; [by eapply layout_payload|].
  eexists. by rewrite (layout_header _ _ _ _ Hl).
Qed.

Hypothesis Hok : rpc_ok args.
(** Encoded pieces fit the address space. *)
Hypothesis Hsize : forall p, p ∈ rpc_pieces args -> len (rpc_encode p) < 2 ^ 64.

Lemma build_loop_spec : forall k fuel off,
  (Z.of_nat k <= total_of args) -> (k <= fuel)%nat ->
  off = Z.min (1300 * (total_of args - Z.of_nat k)) (len (content args)) ->
  exists zs, build_loop junk fuel args off = Done zs /\
    Forall2 carries_piece (piece_no args <$> seq (Z.to_nat (total_of args) - k) k) zs.
Proof.
  pose proof (total_spec args Hok) as Ht. pose proof (content_pos args Hok) as Hpos.
  pose proof (ro_nonempty _ Hok) as Hne.
  induction k as [|k IH]; intros fuel off Hk Hfuel Hoff.
  - exists []. split; [|constructor]. destruct fuel; cbn [build_loop];
      rewrite (proj2 (Z.ltb_ge off _)), (bool_decide_eq_false_2 (content args = [])) by (done || lia); done.
  - destruct fuel as [|fuel]; [lia|]. set (i := (Z.to_nat (total_of args) - S k)%nat).
    assert (off = 1300 * Z.of_nat i /\ off < len (content args)) as [Ho Hlt] by lia.
    cbn [build_loop]. rewrite (proj2 (Z.ltb_lt off _)) by lia. cbn [orb negb].
    change RPC_PACKET_CONTENT_MTU with 1300.
    set (cur_len := if len (content args) <? off + 1300 then _ else _).
    assert (slice (content args) off (off + cur_len) = Done (chunk_at args i)) as Hs.
    { apply slice_Done. unfold cur_len. destruct (Z.ltb_spec (len (content args)) (off + 1300)); (split; [lia|]).
      - unfold chunk_at. replace (Z.to_nat off) with (1300 * i)%nat by lia.
        rewrite !take_ge; [done | rewrite length_drop; unfold len in *; lia ..].
      - unfold chunk_at. f_equal; [lia|]. f_equal. lia. }
    rewrite Hs. cbn [mbind outcome_bind]. 
    assert (piece_at args off (chunk_at args i) = piece_no args i) as -> by (unfold piece_no; by rewrite Ho).
    destruct (build_piece (piece_no args i)) as (z & E & Hz);
      [apply Hok | apply Hok | apply Hsize, (list_elem_of_lookup_2 _ i), rpc_pieces_lookup; split; [lia | done]|].
    apply bind_Done in E as (z0 & E0 & E1). rewrite E0. cbn [mbind outcome_bind]. rewrite E1. cbn [mbind outcome_bind].
    rewrite (bool_decide_eq_false_2 (content args = [])) by done.
    destruct (IH fuel (off + cur_len)) as (zs & Ez & Hzs); [lia | lia | |].
    { unfold cur_len. destruct (Z.ltb_spec (len (content args)) (off + 1300)); lia. }
    rewrite Ez. cbn [mbind outcome_bind]. exists (z :: zs). split; [done|].
    change (seq i (S k)) with (i :: seq (S i) k). rewrite fmap_cons. constructor; [done|].
    replace (S i) with (Z.to_nat (total_of args) - k)%nat by lia. done.
Qed.
End build_spec.

(** ** Whole messages, empty ones too *)

(** An empty message is one piece that says it has none. *)
Definition message_pieces (args : BuildRpcPacketArgs) : list RpcPacket :=
  if decide (content args = []) then [piece_at args 0 []] else rpc_pieces args.
Definition message_whole (args : BuildRpcPacketArgs) : RpcPacket :=
  if decide (content args = []) then piece_at args 0 [] else merged args.

Record message_ok `{Prost} (args : BuildRpcPacketArgs) : Prop := {
  mo_total : total_of args <= 32 * 1024;
  mo_bytes : byte_list (content args);
  mo_from : in_width 32 (arg_from_peer args);
  mo_to : in_width 32 (arg_to_peer args);
  mo_size : forall p, p ∈ message_pieces args -> len (rpc_encode p) < 2 ^ 64
}.

Lemma message_rpc_ok `{Prost} args : message_ok args -> content args <> [] -> rpc_ok args.
Proof. by intros []. Qed.

Lemma message_pieces_NoDup `{Prost} args : message_ok args -> NoDup (message_pieces args).
Proof. intros Hok. unfold message_pieces. case_decide; [apply NoDup_singleton | by apply rpc_pieces_NoDup, message_rpc_ok]. Qed.

Lemma message_pieces_nonempty `{Prost} args : message_ok args -> message_pieces args <> [].
Proof.
  intros Hok. unfold message_pieces. case_decide as Hc; [done|]. intros E.
  pose proof (rpc_pieces_length args) as Hl. rewrite E in Hl. simpl in Hl.
  pose proof (total_bounds args (message_rpc_ok _ Hok Hc)). lia.
Qed.

Lemma message_pieces_ids args p : p ∈ message_pieces args ->
  from_peer p = arg_from_peer args /\ to_peer p = arg_to_peer args /\ transaction_id p = arg_transaction_id args /\
  is_request p = is_req args.
Proof.
  unfold message_pieces. case_decide; [by intros ->%list_elem_of_singleton|].
  intros Hp. apply list_elem_of_lookup in Hp as [i Hi]. by apply rpc_pieces_lookup in Hi as [_ ->].
Qed.

Lemma message_whole_body args : body (message_whole args) = content args /\
  descriptor (message_whole args) = Some (rpc_desc args) /\
  compression_info (message_whole args) = Some (arg_compression_info args).
Proof. unfold message_whole. case_decide as Hc; [by rewrite Hc | done]. Qed.

Lemma message_whole_ids args :
  from_peer (message_whole args) = arg_from_peer args /\ to_peer (message_whole args) = arg_to_peer args /\
  transaction_id (message_whole args) = arg_transaction_id args /\ is_request (message_whole args) = is_req args /\
  trace_id (message_whole args) = arg_trace_id args.
Proof. unfold message_whole. by case_decide. Qed.

(** The packets of a message carry its pieces. *)
Lemma build_message `{ProstLaws} (junk : nat -> Z) args : (forall i, is_byte (junk i)) -> message_ok args ->
  exists zs, build_rpc_packet junk args = Done zs /\ Forall2 (carries_piece args) (message_pieces args) zs /\
    Forall (fun p => rpc_decode (rpc_encode p) = Some p) (message_pieces args).
Proof.
  intros Hj Hok. pose proof (mo_size _ Hok) as Hsize. unfold message_pieces in *. case_decide as Hc.
  - destruct (build_piece junk args Hj (piece_at args 0 []) (mo_from _ Hok) (mo_to _ Hok)) as (z & E & Hz).
    { apply Hsize. by left. }
    exists [z]. apply bind_Done in E as (z0 & E0 & E1). split; [|split].
    + unfold build_rpc_packet. replace (total_of args) with 0 by (unfold total_of; by rewrite Hc).
      change (Z.to_nat 0 + 1)%nat with 1%nat. cbn [build_loop]. rewrite Hc. rewrite (bool_decide_eq_true_2 ([] = [])) by done.
      rewrite orb_true_r. cbn [negb]. change (slice [] 0 _) with (Done (A := bytes) []). cbn [mbind outcome_bind].
      by rewrite E0; cbn [mbind outcome_bind]; rewrite E1.
    + by constructor.
    + constructor; [|done]. apply rpc_decode_encode. split_and!; try apply Hok; simpl; try (apply wrap_in_width; lia).
      constructor.
  - pose proof (message_rpc_ok _ Hok Hc) as Hr. pose proof (total_bounds args Hr) as Ht. pose proof (content_pos args Hr) as Hpos.
    destruct (build_loop_spec junk args Hj Hr Hsize (Z.to_nat (total_of args)) (Z.to_nat (total_of args) + 1) 0)
      as (zs & E & Hzs); [lia | lia | lia |].
    rewrite Nat.sub_diag in Hzs. exists zs. split; [done|]. split; [done|].
    apply Forall_forall. intros p Hp. by apply rpc_decode_encode, (rpc_pieces_wf args Hr).
Qed.

(** Feeding the pieces of a message, in any order. *)
Lemma feed_message `{Prost} args gs hs p m now : message_ok args -> gs ++ p :: hs ≡ₚ message_pieces args -> holds args gs m ->
  exists m', feed now p m = Done (Ok (if decide (hs = []) then Some (message_whole args) else None), m') /\
    (hs <> [] -> holds args (gs ++ [p]) m').
Proof.
  intros Hok. unfold message_pieces, message_whole. case_decide as Hc; intros Hperm Hm.
  - symmetry in Hperm. apply Permutation_singleton_l in Hperm. destruct gs as [|g [|]]; [|done|done].
    simpl in Hperm. injection Hperm as E1 E2. subst p hs. exists m. split; [|done]. unfold feed.
    replace (total_pieces (piece_at args 0 [])) with 0 by (simpl; unfold total_of; by rewrite Hc). done.
  - destruct (feed_piece args (message_rpc_ok _ Hok Hc) gs hs p m now Hperm Hm) as (m' & E & Hm'). by exists m'.
Qed.

(** The packets built for a message (not empty, at most 32768 pieces)
    carry pieces that rpc_decode to what was encoded; fed in any order to a merger
    that holds nothing of this message, they produce nothing until the last one
    and then the message: whole content, descriptor, compression info and ids. *)
Theorem rpc_message_roundtrip `{ProstLaws} (junk : nat -> Z) (args : BuildRpcPacketArgs) (m : PacketMerger) (now : Z)
    (Hj : forall i, is_byte (junk i)) (Hok : rpc_ok args) (Hm : holds args [] m)
    (Hsize : forall p, p ∈ rpc_pieces args -> len (rpc_encode p) < 2 ^ 64) :
  exists zs ps, build_rpc_packet junk args = Done zs /\
    Forall2 (carries_piece args) ps zs /\ Forall (fun p => rpc_decode (rpc_encode p) = Some p) ps /\
    forall qs, qs ≡ₚ ps -> exists m',
      feed_all now qs m = Done (replicate (length ps - 1) (Ok None) ++ [Ok (Some (merged args))], m').
Proof.
  pose proof (total_bounds args Hok) as Ht. pose proof (content_pos args Hok) as Hpos.
  destruct (build_loop_spec junk args Hj Hok Hsize (Z.to_nat (total_of args)) (Z.to_nat (total_of args) + 1) 0)
    as (zs & E & Hzs); [lia | lia | lia |].
  rewrite Nat.sub_diag in Hzs. fold (rpc_pieces args) in Hzs. exists zs, (rpc_pieces args).
  split; [exact E|]. split; [done|]. split.
  - apply Forall_forall. intros p Hp. by apply rpc_decode_encode, (rpc_pieces_wf args Hok).
  - intros qs Hqs. destruct (feed_all_pieces args Hok now qs [] m) as (m' & E'); [done | | done |].
    { intros ->. apply Permutation_nil_l in Hqs. pose proof (rpc_pieces_length args) as Hl.
      rewrite <- Hqs in Hl. simpl in Hl. lia. }
    exists m'. by rewrite E', (Permutation_length Hqs).
Qed.

(** ** Instances *)

(** A codec for the examples: the fields in a row, strings with their length. *)
Definition put_text (t : text) : list Z := len t :: t.
Definition get_text (l : list Z) : text * list Z :=
  match l with n :: l => (take (Z.to_nat n) l, drop (Z.to_nat n) l) | [] => ([], []) end.

Lemma get_put_text t l : get_text (put_text t ++ l) = (t, l).
Proof. simpl. unfold len. by rewrite Nat2Z.id, take_app_length, drop_app_length. Qed.

Definition put_desc (d : option RpcDescriptor) : list Z :=
  match d with
  | None => [0]
  | Some d => 1 :: method_index d :: put_text (domain_name d) ++ put_text (proto_name d) ++ put_text (service_name d)
  end.
Definition get_desc (l : list Z) : option RpcDescriptor * list Z :=
  match l with
  | 1 :: m :: l =>
      let '(a, l) := get_text l in let '(b, l) := get_text l in let '(c, l) := get_text l in
      (Some {| domain_name := a; proto_name := b; service_name := c; method_index := m |}, l)
  | _ :: l => (None, l)
  | [] => (None, [])
  end.

Lemma get_put_desc d l : get_desc (put_desc d ++ l) = (d, l).
Proof.
  destruct d as [[a b c m]|]; [|done]. cbn [put_desc get_desc app domain_name proto_name service_name method_index].
  by rewrite <- !app_assoc, !get_put_text.
Qed.

#[local] Instance field_prost : Prost := {|
  rpc_encode p :=
    [from_peer p; to_peer p; transaction_id p; if is_request p then 1 else 0; total_pieces p; piece_idx p; trace_id p] ++
    match compression_info p with None => [0; 0; 0] | Some i => [1; algo i; accepted_algo i] end ++
    put_desc (descriptor p) ++ body p;
  rpc_decode l :=
    match l with
    | a :: b :: c :: r :: t :: i :: tr :: has :: x :: y :: l =>
        let '(d, l) := get_desc l in
        Some (mkRpc a b c d l (r =? 1) t i tr
                (if has =? 1 then Some {| algo := x; accepted_algo := y |} else None))
    | _ => None
    end
|}.

#[local] Instance field_prost_laws : ProstLaws.
Proof.
  split. intros [a b c d l r t i tr info] _. unfold rpc_decode, rpc_encode, field_prost.
  cbn [from_peer to_peer transaction_id is_request total_pieces piece_idx trace_id compression_info descriptor body].
  destruct info as [[x y]|]; cbn [app]; rewrite get_put_desc; by destruct r.
Qed.

Definition sample_info : RpcCompressionInfo := {| algo := 1; accepted_algo := 2 |}.
Definition sample_desc : RpcDescriptor :=
  {| domain_name := txt "d"; proto_name := txt "p"; service_name := txt "s"; method_index := 3 |}.
Definition rpc_sample_args : BuildRpcPacketArgs := {|
  arg_from_peer := 1; arg_to_peer := 2; rpc_desc := sample_desc; arg_transaction_id := 9; is_req := true;
  content := replicate 1301 7; arg_trace_id := 4; arg_compression_info := sample_info |}.

Lemma rpc_message_roundtrip_witness :
  exists zs ps m', build_rpc_packet (fun _ => 0) rpc_sample_args = Done zs /\
    Forall2 (carries_piece rpc_sample_args) ps zs /\
    feed_all 0 (reverse ps) (merger_new 0) =
      Done (replicate (length ps - 1) (Ok None) ++ [Ok (Some (merged rpc_sample_args))], m').
Proof.
  destruct (rpc_message_roundtrip (fun _ => 0) rpc_sample_args (merger_new 0) 0) as (zs & ps & E & Hps & _ & Hall).
  - intros i. vm_compute. split; congruence.
  - split; [discriminate | vm_compute; congruence | apply Forall_replicate; vm_compute; split; congruence
           | vm_compute; split; congruence ..].
  - exact I.
  - intros p Hp. apply list_elem_of_In in Hp. revert p Hp. apply List.Forall_forall.
    assert (forallb (fun p => len (rpc_encode p) <? 2 ^ 64) (rpc_pieces rpc_sample_args) = true) as Hf
      by (vm_compute; reflexivity).
    rewrite forallb_forall in Hf. apply List.Forall_forall. intros p Hp. by apply Z.ltb_lt, Hf.
  - destruct (Hall (reverse ps) (reverse_Permutation ps)) as (m' & Em).
    exists zs, ps, m'. split; [exact E|]. split; [exact Hps|]. exact Em.
Defined.

Section content_sample.
Existing Instance rle.
Existing Instance rle_laws.

Lemma rpc_content_roundtrip_witness : decompress_packet AlgoPbZstd [1; 7; 50] = Ok (replicate 50 7).
Proof.
  rewrite (rpc_content_roundtrip AlgoPbZstd (replicate 50 7) [1; 7; 50] AlgoPbZstd).
  - reflexivity.
  - reflexivity.
  - vm_compute. reflexivity.
Defined.
End content_sample.
