(* ===== verification/SyncedRoute.v ===== *)
(** What a node knows of the network: the first half of
    [easytier/src/peers/peer_ospf_route.rs] (versions, peer infos, connection
    lists, foreign networks and group trusts, [SyncedRouteInfo]).

    Every peer announces itself with increasing version numbers; announcements
    are flooded and each node keeps the newest it has heard.  A node's tables
    are the record [SyncedRouteInfo]; its methods are functions on it, each one
    atomic, taking the clock readings the code makes (one reading stands for
    those made in the loop of one call).  Strings are lists of
    Unicode scalar values.  The class [RouteLib] is what the code uses of
    [prost], [prost_reflect], [hmac] and [cidr].

    The theorems: nodes that have heard the same announcements hold the same
    infos and connection lists, whatever the order and however often they heard
    them; every change of those tables raises the version that tells the route
    table to recompute, except when a message is refused halfway; a group is
    trusted only with a proof made with its secret; and the trusts follow the
    last message instead of the newest one. *)

From stdpp Require Import base numbers list gmap strings.
From S2P Require Import Prelude Text AclRules.
Open Scope Z_scope.

Abbreviation PeerId := Z.

(** ** Messages ([peer_rpc.proto], [common.proto]) *)

Record Timestamp := { seconds : Z; nanos : Z }.
Definition timestamp_default : Timestamp := {| seconds := 0; nanos := 0 |}.

Record PeerFeatureFlag := {
  is_public_server : bool; avoid_relay_data : bool; kcp_input : bool; no_relay_kcp : bool;
  support_conn_list_sync : bool
}.

Record PeerGroupInfo := { pg_name : text; pg_proof : bytes }.

Record Ipv6Inet := { inet6_address : option Z; inet6_length : Z }.

Record RoutePeerInfo := mkPeerInfo {
  ri_peer_id : PeerId; ri_inst_id : option Z; ri_cost : Z; ri_ipv4_addr : option Z;
  ri_proxy_cidrs : list text; ri_hostname : option text; ri_udp_stun_info : Z;
  ri_last_update : option Timestamp; ri_version : Z; ri_easytier_version : text;
  ri_feature_flag : option PeerFeatureFlag; ri_peer_route_id : Z; ri_network_length : Z;
  ri_quic_port : option Z; ri_ipv6_addr : option Ipv6Inet; ri_groups : list PeerGroupInfo
}.

Record PeerIdVersion := { piv_peer_id : PeerId; piv_version : Z }.
Record RouteConnBitmap := { bm_peer_ids : list PeerIdVersion; bitmap : bytes }.
Record PeerConnInfo := { pci_peer_id : option PeerIdVersion; connected_peer_ids : list PeerId }.
Abbreviation RouteConnPeerList := (list PeerConnInfo).

Inductive ConnInfo :=
| ConnBitmap (b : RouteConnBitmap)
| ConnPeerList (l : RouteConnPeerList).

Record ForeignKey := { fk_peer_id : PeerId; fk_network_name : text }.
Record ForeignEntry := {
  foreign_peer_ids : list PeerId; fe_last_update : option Timestamp; fe_version : Z;
  network_secret_digest : bytes; my_peer_id_for_this_network : PeerId
}.
Record ForeignInfo := { fi_key : option ForeignKey; fi_value : option ForeignEntry }.

Inductive SyncError := DuplicatePeerId | Stopped.

#[global] Instance timestamp_eq_dec : EqDecision Timestamp.
Proof. solve_decision. Defined.
#[global] Instance feature_flag_eq_dec : EqDecision PeerFeatureFlag.
Proof. solve_decision. Defined.
#[global] Instance peer_group_eq_dec : EqDecision PeerGroupInfo.
Proof. solve_decision. Defined.
#[global] Instance ipv6_inet_eq_dec : EqDecision Ipv6Inet.
Proof. solve_decision. Defined.
#[global] Instance peer_info_eq_dec : EqDecision RoutePeerInfo.
Proof. solve_decision. Defined.
#[global] Instance foreign_key_eq_dec : EqDecision ForeignKey.
Proof. solve_decision. Defined.
#[global] Instance foreign_key_countable : Countable ForeignKey.
Proof.
  apply (inj_countable' (fun k => (fk_peer_id k, fk_network_name k))
    (fun p => {| fk_peer_id := p.1; fk_network_name := p.2 |})).
  by intros [].
Defined.

(** ** Libraries

    [to_time]/[of_time] convert a protobuf timestamp and a [SystemTime]
    (nanoseconds since the epoch); [raw_peer_id] reads the [peer_id] field of a
    dynamic message; [hmac_sha256 key data] is the tag of [data];
    [EASYTIER_VERSION] is set by the build. *)
Class RouteLib := {
  to_time : Timestamp -> option Z;
  of_time : Z -> Timestamp;
  DynamicMessage : Type;
  raw_peer_id : DynamicMessage -> option Z;
  hmac_sha256 : bytes -> bytes -> bytes;
  EASYTIER_VERSION : text
}.

Definition UPDATE_PEER_INFO_PERIOD : Z := 3600 * SEC.
Definition REMOVE_DEAD_PEER_INFO_AFTER : Z := 3660 * SEC.

(** ** Versions

    [AtomicVersion]: a [u32]. *)
Definition version_inc (v : Z) : Z := as_u32 (v + 1).
Definition version_set_if_larger (version v : Z) : bool * Z := (v <? version, Z.max v version).

(** ** Group proofs *)

(** [str::as_bytes]. *)
Definition utf8_char (c : Z) : bytes :=
  if c <? 2 ^ 7 then [c]
  else if c <? 2 ^ 11 then [192 + c / 2 ^ 6; 128 + c mod 2 ^ 6]
  else if c <? 2 ^ 16 then [224 + c / 2 ^ 12; 128 + c / 2 ^ 6 mod 2 ^ 6; 128 + c mod 2 ^ 6]
  else [240 + c / 2 ^ 18; 128 + c / 2 ^ 12 mod 2 ^ 6; 128 + c / 2 ^ 6 mod 2 ^ 6; 128 + c mod 2 ^ 6].
Definition as_bytes (t : text) : bytes := concat (utf8_char <$> t).

(** [u32::to_be_bytes]. *)
Definition to_be_bytes (z : Z) : bytes := reverse (le_bytes 4 z).

Section model.
Context `{RouteLib}.

Definition data_to_sign (name : text) (peer_id : PeerId) : bytes :=
  as_bytes name ++ [0] ++ to_be_bytes peer_id.

Definition generate_with_proof (name secret : text) (peer_id : PeerId) : PeerGroupInfo :=
  {| pg_name := name; pg_proof := hmac_sha256 (as_bytes secret) (data_to_sign name peer_id) |}.

Definition verify (g : PeerGroupInfo) (secret : text) (peer_id : PeerId) : bool :=
  bool_decide (hmac_sha256 (as_bytes secret) (data_to_sign (pg_name g) peer_id) = pg_proof g).

(** [GlobalCtx::get_acl_groups] and [get_acl_group_declarations]. *)
Definition acl_group_info (acl : option Acl) : option GroupInfo :=
  acl ← acl; v1 ← acl_v1 acl; acl_group v1.

Definition get_acl_groups (acl : option Acl) (peer_id : PeerId) : list PeerGroupInfo :=
  match acl_group_info acl with
  | None => []
  | Some group =>
      (fun g => generate_with_proof (group_name g) (group_secret g) peer_id) <$>
        base.filter (fun g => group_name g ∈ members group) (declares group)
  end.

Definition get_acl_group_declarations (acl : option Acl) : list GroupIdentity :=
  match acl_group_info acl with None => [] | Some group => declares group end.

(** ** A node's own info

    What [update_self] reads of the global context; address ranges are given by
    their printed form. *)
Record ProxyConfig := { pc_cidr : text; pc_mapped_cidr : option text }.

Record GlobalView := {
  g_id : Z; g_ipv4 : option (Z * Z); g_proxy_cidrs : list ProxyConfig; g_vpn_portal_cidr : option text;
  g_hostname : text; g_udp_nat_type : Z; g_feature_flags : PeerFeatureFlag;
  g_quic_proxy_port : option Z; g_ipv6 : option Ipv6Inet; g_acl : option Acl
}.

(** [RoutePeerInfo::new], [RoutePeerInfo::default]. *)
Definition peer_info_new (now : Z) : RoutePeerInfo :=
  mkPeerInfo 0 (Some 0) 0 None [] None 0 (Some (of_time now)) 0 EASYTIER_VERSION None 0 24 None None [].
Definition peer_info_default : RoutePeerInfo :=
  mkPeerInfo 0 None 0 None [] None 0 None 0 [] None 0 0 None None [].

Definition with_last_update (t : Timestamp) (i : RoutePeerInfo) : RoutePeerInfo :=
  mkPeerInfo (ri_peer_id i) (ri_inst_id i) (ri_cost i) (ri_ipv4_addr i) (ri_proxy_cidrs i) (ri_hostname i)
    (ri_udp_stun_info i) (Some t) (ri_version i) (ri_easytier_version i) (ri_feature_flag i)
    (ri_peer_route_id i) (ri_network_length i) (ri_quic_port i) (ri_ipv6_addr i) (ri_groups i).

Definition with_version (v : Z) (i : RoutePeerInfo) : RoutePeerInfo :=
  mkPeerInfo (ri_peer_id i) (ri_inst_id i) (ri_cost i) (ri_ipv4_addr i) (ri_proxy_cidrs i) (ri_hostname i)
    (ri_udp_stun_info i) (ri_last_update i) v (ri_easytier_version i) (ri_feature_flag i)
    (ri_peer_route_id i) (ri_network_length i) (ri_quic_port i) (ri_ipv6_addr i) (ri_groups i).

Definition own_info (self : RoutePeerInfo) (my_peer_id peer_route_id : Z) (g : GlobalView) : RoutePeerInfo := {|
  ri_peer_id := my_peer_id;
  ri_inst_id := Some (g_id g);
  ri_cost := 0;
  ri_ipv4_addr := fst <$> g_ipv4 g;
  ri_proxy_cidrs := ((fun x => default (pc_cidr x) (pc_mapped_cidr x)) <$> g_proxy_cidrs g)
                      ++ option_list (g_vpn_portal_cidr g);
  ri_hostname := Some (g_hostname g);
  ri_udp_stun_info := g_udp_nat_type g;
  ri_last_update := ri_last_update self;
  ri_version := ri_version self;
  ri_easytier_version := EASYTIER_VERSION;
  ri_feature_flag := Some (g_feature_flags g);
  ri_peer_route_id := peer_route_id;
  ri_network_length := default 24 (snd <$> g_ipv4 g);
  ri_quic_port := g_quic_proxy_port g;
  ri_ipv6_addr := g_ipv6 g;
  ri_groups := get_acl_groups (g_acl g) my_peer_id
|}.

(** [now] is the reading of [elapsed], [now'] the one stored. *)
Definition update_self (self : RoutePeerInfo) (my_peer_id peer_route_id : Z) (g : GlobalView) (now now' : Z)
    : RoutePeerInfo :=
  let new := own_info self my_peer_id peer_route_id g in
  let need_update_periodically :=
    match to_time (default timestamp_default (ri_last_update new)) with
    | Some t => if t <=? now then UPDATE_PEER_INFO_PERIOD <? now - t else true
    | None => true
    end in
  if bool_decide (new <> self) || need_update_periodically
  then with_version (version_inc (ri_version new)) (with_last_update (of_time now') new)
  else new.

(** ** Connection bitmaps *)

Definition get_bit (b : RouteConnBitmap) (idx : Z) : outcome bool :=
  byte ← (match bitmap b !! Z.to_nat (idx / 8) with Some x => Done x | None => Panicked IndexOutOfRange end);
  Done (Z.land (Z.shiftr byte (idx mod 8)) 1 =? 1).

Fixpoint connected_in (b : RouteConnBitmap) (peer_idx : Z) (idx : Z) (ids : list PeerIdVersion)
    : outcome (gset PeerId) :=
  match ids with
  | [] => Done ∅
  | p :: ids =>
      bit ← get_bit b (peer_idx * len (bm_peer_ids b) + idx);
      rest ← connected_in b peer_idx (idx + 1) ids;
      Done (if bit : bool then {[piv_peer_id p]} ∪ rest else rest)
  end.

Definition bitmap_connected_peers (b : RouteConnBitmap) (peer_idx : Z) : outcome (gset PeerId) :=
  connected_in b peer_idx 0 (bm_peer_ids b).

(** ** The tables *)

Record SyncedRouteInfo := mkSynced {
  peer_infos : gmap PeerId RoutePeerInfo;
  raw_peer_infos : gmap PeerId DynamicMessage;
  conn_map : gmap PeerId (gset PeerId * Z);
  foreign_network : gmap ForeignKey ForeignEntry;
  group_trust_map : gmap PeerId (gmap text bytes);
  group_trust_map_cache : gmap PeerId (list text);
  version : Z
}.

Definition synced_new : SyncedRouteInfo := mkSynced ∅ ∅ ∅ ∅ ∅ ∅ 0.

Definition with_infos i r s := mkSynced i r (conn_map s) (foreign_network s) (group_trust_map s)
  (group_trust_map_cache s) (version s).
Definition with_conn c s := mkSynced (peer_infos s) (raw_peer_infos s) c (foreign_network s)
  (group_trust_map s) (group_trust_map_cache s) (version s).
Definition with_foreign f s := mkSynced (peer_infos s) (raw_peer_infos s) (conn_map s) f
  (group_trust_map s) (group_trust_map_cache s) (version s).
Definition with_trusts t c s := mkSynced (peer_infos s) (raw_peer_infos s) (conn_map s)
  (foreign_network s) t c (version s).
Definition inc_version s := mkSynced (peer_infos s) (raw_peer_infos s) (conn_map s) (foreign_network s)
  (group_trust_map s) (group_trust_map_cache s) (version_inc (version s)).
Definition inc_version_if (b : bool) s := if b then inc_version s else s.

Definition get_connected_peers (peer_id : PeerId) (s : SyncedRouteInfo) : option (gset PeerId) :=
  fst <$> conn_map s !! peer_id.

Definition remove_peer (peer_id : PeerId) (s : SyncedRouteInfo) : SyncedRouteInfo :=
  inc_version (mkSynced (delete peer_id (peer_infos s)) (delete peer_id (raw_peer_infos s))
    (delete peer_id (conn_map s)) (retain (fun k _ => negb (fk_peer_id k =? peer_id)) (foreign_network s))
    (delete peer_id (group_trust_map s)) (delete peer_id (group_trust_map_cache s)) (version s)).

Definition fill_empty_one (now : Z) (acc : SyncedRouteInfo * bool) (peer_id : PeerId) : SyncedRouteInfo * bool :=
  let '(s, need_inc_version) := acc in
  let '(s, need_inc_version) :=
    match peer_infos s !! peer_id with
    | Some _ => (s, need_inc_version)
    | None => (with_infos (<[peer_id := peer_info_new now]> (peer_infos s)) (raw_peer_infos s) s, true)
    end in
  match conn_map s !! peer_id with
  | Some _ => (s, need_inc_version)
  | None => (with_conn (<[peer_id := (∅, 0)]> (conn_map s)) s, true)
  end.

Definition fill_empty_peer_info (now : Z) (peer_ids : gset PeerId) (s : SyncedRouteInfo) : SyncedRouteInfo :=
  let '(s, need_inc_version) := foldl (fill_empty_one now) (s, false) (elements peer_ids) in
  inc_version_if need_inc_version s.

Definition get_peer_info_version_with_default (peer_id : PeerId) (s : SyncedRouteInfo) : Z :=
  default 0 (ri_version <$> peer_infos s !! peer_id).

Definition get_avoid_relay_data (peer_id : PeerId) (s : SyncedRouteInfo) : bool :=
  default false (avoid_relay_data <$> (info ← peer_infos s !! peer_id; ri_feature_flag info)).

Definition check_duplicate_peer_id (my_peer_id my_peer_route_id dst_peer_id : Z) (dst_peer_route_id : option Z)
    (info : RoutePeerInfo) (s : SyncedRouteInfo) : outcome (result SyncError unit) :=
  if ri_peer_id info =? my_peer_id then
    if negb (ri_peer_route_id info =? my_peer_route_id)
       && (get_peer_info_version_with_default (ri_peer_id info) s <? ri_version info)
    then Panicked ExplicitPanic
    else Done (Ok tt)
  else if ri_peer_id info =? dst_peer_id then
    match dst_peer_route_id with
    | None => Done (Ok tt)
    | Some id =>
        if negb (id =? ri_peer_route_id info)
           && (ri_version info <? get_peer_info_version_with_default (ri_peer_id info) s)
        then Done (Err DuplicatePeerId)
        else Done (Ok tt)
    end
  else Done (Ok tt).

(** Keep an info if it is newer than what is stored. *)
Definition accept_info (raw : DynamicMessage) (info : RoutePeerInfo) (acc : SyncedRouteInfo * bool)
    : SyncedRouteInfo * bool :=
  let '(s, need_inc_version) := acc in
  let id := ri_peer_id info in
  let accepted := (with_infos (<[id := info]> (peer_infos s)) (<[id := raw]> (raw_peer_infos s)) s, true) in
  match peer_infos s !! id with
  | Some old => if ri_version old <? ri_version info then accepted else (s, need_inc_version)
  | None => accepted
  end.

Fixpoint update_peer_infos_loop (now my_peer_id my_peer_route_id dst_peer_id : Z) (infos : list RoutePeerInfo)
    (raws : list DynamicMessage) (acc : SyncedRouteInfo * bool)
    : outcome (result SyncError unit * (SyncedRouteInfo * bool)) :=
  match infos with
  | [] => Done (Ok tt, acc)
  | info :: infos =>
      raw ← (match raws with raw :: _ => Done raw | [] => Panicked IndexOutOfRange end);
      dup ← check_duplicate_peer_id my_peer_id my_peer_route_id dst_peer_id
              (if ri_peer_id info =? dst_peer_id
               then ri_peer_route_id <$> peer_infos acc.1 !! dst_peer_id else None) info acc.1;
      match dup with
      | Err e => Done (Err e, acc)
      | Ok _ =>
          raw_id ← unwrap (raw_peer_id raw);
          if negb (raw_id =? ri_peer_id info) then Panicked AssertionFailed
          else
            let info := with_last_update (of_time now) info in
            update_peer_infos_loop now my_peer_id my_peer_route_id dst_peer_id infos (tail raws)
              (accept_info raw info acc)
      end
  end.

(** An error returns early: infos accepted before it stay, the version is not raised. *)
Definition update_peer_infos (now my_peer_id my_peer_route_id dst_peer_id : Z) (infos : list RoutePeerInfo)
    (raws : list DynamicMessage) (s : SyncedRouteInfo) : outcome (result SyncError unit * SyncedRouteInfo) :=
  '(r, (s, need_inc_version)) ← update_peer_infos_loop now my_peer_id my_peer_route_id dst_peer_id infos raws
                                  (s, false);
  match r with
  | Err e => Done (Err e, s)
  | Ok _ => Done (Ok tt, inc_version_if need_inc_version s)
  end.

(** Keep a connection list if it is newer than what is stored. *)
Definition accept_conn (peer_id v : Z) (connected : gset PeerId) (acc : SyncedRouteInfo * bool)
    : SyncedRouteInfo * bool :=
  let '(s, need_inc_version) := acc in
  let accepted := (with_conn (<[peer_id := (connected, v)]> (conn_map s)) s, true) in
  match conn_map s !! peer_id with
  | Some (_, old) => if old <? v then accepted else (s, need_inc_version)
  | None => accepted
  end.

Fixpoint update_conn_map_loop (now : Z) (b : RouteConnBitmap) (peer_idx : Z) (ids : list PeerIdVersion)
    (acc : SyncedRouteInfo * bool) : outcome (SyncedRouteInfo * bool) :=
  match ids with
  | [] => Done acc
  | p :: ids =>
      connected ← bitmap_connected_peers b peer_idx;
      let acc := (fill_empty_peer_info now connected acc.1, acc.2) in
      update_conn_map_loop now b (peer_idx + 1) ids (accept_conn (piv_peer_id p) (piv_version p) connected acc)
  end.

Definition update_conn_map (now : Z) (b : RouteConnBitmap) (s : SyncedRouteInfo) : outcome SyncedRouteInfo :=
  let s := fill_empty_peer_info now (list_to_set (piv_peer_id <$> bm_peer_ids b)) s in
  '(s, need_inc_version) ← update_conn_map_loop now b 0 (bm_peer_ids b) (s, false);
  Done (inc_version_if need_inc_version s).

Definition update_conn_peer (now : Z) (acc : SyncedRouteInfo * bool) (c : PeerConnInfo) : SyncedRouteInfo * bool :=
  match pci_peer_id c with
  | None => acc
  | Some p =>
      let connected := list_to_set (connected_peer_ids c) in
      accept_conn (piv_peer_id p) (piv_version p) connected (fill_empty_peer_info now connected acc.1, acc.2)
  end.

Definition update_conn_peer_list (now : Z) (l : RouteConnPeerList) (s : SyncedRouteInfo) : SyncedRouteInfo :=
  let '(s, need_inc_version) := foldl (update_conn_peer now) (s, false) l in
  inc_version_if need_inc_version s.

Definition update_conn_info (now : Z) (c : ConnInfo) (s : SyncedRouteInfo) : outcome SyncedRouteInfo :=
  match c with
  | ConnBitmap b => update_conn_map now b s
  | ConnPeerList l => Done (update_conn_peer_list now l s)
  end.

(** *** Foreign networks *)

Definition foreign_touch (t : Timestamp) (e : ForeignEntry) : ForeignEntry := {|
  foreign_peer_ids := foreign_peer_ids e; fe_last_update := Some t; fe_version := fe_version e;
  network_secret_digest := network_secret_digest e;
  my_peer_id_for_this_network := my_peer_id_for_this_network e |}.
Definition foreign_with_version (v : Z) (e : ForeignEntry) : ForeignEntry := {|
  foreign_peer_ids := foreign_peer_ids e; fe_last_update := fe_last_update e; fe_version := v;
  network_secret_digest := network_secret_digest e;
  my_peer_id_for_this_network := my_peer_id_for_this_network e |}.
Definition foreign_clear_peers (e : ForeignEntry) : ForeignEntry := {|
  foreign_peer_ids := []; fe_last_update := fe_last_update e; fe_version := fe_version e;
  network_secret_digest := network_secret_digest e;
  my_peer_id_for_this_network := my_peer_id_for_this_network e |}.

Definition newer_foreign (e old : ForeignEntry) : ForeignEntry :=
  if fe_version old <? fe_version e then e else old.

Definition update_foreign_item (now : Z) (f : gmap ForeignKey ForeignEntry) (item : ForeignInfo)
    : gmap ForeignKey ForeignEntry :=
  match fi_key item, fi_value item with
  | Some key, Some entry =>
      let entry := foreign_touch (of_time now) entry in
      upsert key (newer_foreign entry) entry f
  | _, _ => f
  end.

Definition update_foreign_network (now : Z) (infos : list ForeignInfo) (s : SyncedRouteInfo) : SyncedRouteInfo :=
  with_foreign (foldl (update_foreign_item now) (foreign_network s) infos) s.

Definition is_foreign_network_info_newer (next prev : ForeignEntry) : option bool :=
  n ← fe_last_update next; n ← to_time n; p ← fe_last_update prev; p ← to_time p; Some (p <? n).

(** One entry of ours: renew it, or mark it as left. *)
Definition renew_mine (now now_version : Z) (acc : gmap ForeignKey ForeignEntry * gmap ForeignKey ForeignEntry * bool)
    (kv : ForeignKey * ForeignEntry)
    : outcome (gmap ForeignKey ForeignEntry * gmap ForeignKey ForeignEntry * bool) :=
  let '(stored, fresh, updated) := acc in
  let '(key, entry) := kv in
  match fresh !! key with
  | Some new_entry =>
      if bool_decide (foreign_peer_ids new_entry = []) then Panicked AssertionFailed
      else
        let '(stored, updated) :=
          match is_foreign_network_info_newer new_entry entry with
          | Some is_newer =>
              let age := match entry_time ← fe_last_update entry; to_time entry_time with
                         | Some t => Z.max 0 (now - t)
                         | None => 0
                         end in
              if is_newer || (UPDATE_PEER_INFO_PERIOD <? age)
              then (<[key := foreign_with_version (Z.max (as_u32 (fe_version new_entry + 1)) now_version) new_entry]>
                      stored, true)
              else (stored, updated)
          | None => (stored, updated)
          end in
        Done (stored, delete key fresh, updated)
  | None =>
      if bool_decide (foreign_peer_ids entry = []) then Done acc
      else
        let gone := foreign_with_version (Z.max (as_u32 (fe_version entry + 1)) now_version)
                      (foreign_touch (of_time now) (foreign_clear_peers entry)) in
        Done (<[key := gone]> stored, fresh, true)
  end.

Fixpoint renew_all (now now_version : Z) (l : list (ForeignKey * ForeignEntry)) acc :=
  match l with
  | [] => Done acc
  | kv :: l => acc ← renew_mine now now_version acc kv; renew_all now now_version l acc
  end.

Fixpoint insert_fresh (now_version : Z) (l : list (ForeignKey * ForeignEntry))
    (stored : gmap ForeignKey ForeignEntry) (updated : bool) : outcome (gmap ForeignKey ForeignEntry * bool) :=
  match l with
  | [] => Done (stored, updated)
  | (key, e) :: l =>
      if bool_decide (foreign_peer_ids e = []) then Panicked AssertionFailed
      else insert_fresh now_version l
             (upsert key (newer_foreign e) (foreign_with_version now_version e) stored) true
  end.

Definition update_my_foreign_network `{!IterOrder ForeignKey ForeignEntry} (now my_peer_id : Z)
    (fresh : gmap ForeignKey ForeignEntry) (s : SyncedRouteInfo) : outcome (bool * SyncedRouteInfo) :=
  if now <? 0 then Panicked UnwrapOnNone
  else
    let now_version := as_u32 (now / SEC) in
    let mine := base.filter (fun kv => fk_peer_id kv.1 = my_peer_id) (map_iter (foreign_network s)) in
    '(stored, fresh, updated) ← renew_all now now_version mine (foreign_network s, fresh, false);
    '(stored, updated) ← insert_fresh now_version (map_iter fresh) stored updated;
    Done (updated, inc_version_if updated (with_foreign stored s)).

(** *** Our own announcements *)

Definition update_my_group_trusts (my_peer_id : PeerId) (s : SyncedRouteInfo) : SyncedRouteInfo :=
  let infos := upsert my_peer_id (fun i => i) peer_info_default (peer_infos s) in
  let groups := default [] (ri_groups <$> infos !! my_peer_id) in
  let my_group_map := foldl (fun m g => <[pg_name g := pg_proof g]> m) ∅ groups in
  let s := with_infos infos (raw_peer_infos s) s in
  with_trusts (<[my_peer_id := my_group_map]> (group_trust_map s))
    (<[my_peer_id := pg_name <$> groups]> (group_trust_map_cache s)) s.

Definition update_my_peer_info (now now' my_peer_id my_peer_route_id : Z) (g : GlobalView) (s : SyncedRouteInfo)
    : bool * SyncedRouteInfo :=
  let old := default peer_info_default (peer_infos s !! my_peer_id) in
  let new := update_self old my_peer_id my_peer_route_id g now now' in
  let s := with_infos (<[my_peer_id := new]> (peer_infos s)) (raw_peer_infos s) s in
  if negb (ri_version new =? ri_version old)
  then (true, inc_version (update_my_group_trusts my_peer_id s))
  else (false, s).

Definition update_my_conn_info (now my_peer_id : Z) (connected : gset PeerId) (s : SyncedRouteInfo)
    : bool * SyncedRouteInfo :=
  let s := fill_empty_peer_info now connected s in
  let '(mine, v) := default (∅, 0) (conn_map s !! my_peer_id) in
  if bool_decide (connected = mine)
  then (false, with_conn (<[my_peer_id := (mine, v)]> (conn_map s)) s)
  else (true, inc_version (with_conn (<[my_peer_id := (connected, version_inc v)]> (conn_map s)) s)).

Definition is_peer_bidirectly_connected (src dst : PeerId) (s : SyncedRouteInfo) : bool :=
  match conn_map s !! src with Some x => bool_decide (dst ∈ x.1) | None => false end.
Definition is_peer_directly_connected (src dst : PeerId) (s : SyncedRouteInfo) : bool :=
  is_peer_bidirectly_connected src dst s || is_peer_bidirectly_connected dst src s.

(** *** Trusted groups *)

Definition declared_secrets (decls : list GroupIdentity) : gmap text text :=
  foldl (fun m g => <[group_name g := group_secret g]> m) ∅ decls.

Definition verify_group (local : gmap text text) (old : option (gmap text bytes)) (peer_id : PeerId)
    (trusted : gmap text bytes) (g : PeerGroupInfo) : gmap text bytes :=
  let name := pg_name g in
  if bool_decide ((o ← old; o !! name) = Some (pg_proof g)) then <[name := pg_proof g]> trusted
  else match local !! name with
       | Some secret => if verify g secret peer_id then <[name := pg_proof g]> trusted else trusted
       | None => trusted
       end.

Definition verify_groups (local : gmap text text) (old : option (gmap text bytes)) (info : RoutePeerInfo)
    : gmap text bytes :=
  foldl (verify_group local old (ri_peer_id info)) ∅ (ri_groups info).

Definition update_group_trust `{!IterOrder text bytes} (local : gmap text text) (s : SyncedRouteInfo)
    (info : RoutePeerInfo) : SyncedRouteInfo :=
  let id := ri_peer_id info in
  let trusted := verify_groups local (group_trust_map s !! id) info in
  if bool_decide (trusted = ∅) then
    match group_trust_map s !! id with
    | Some _ => with_trusts (delete id (group_trust_map s)) (delete id (group_trust_map_cache s)) s
    | None => s
    end
  else with_trusts (<[id := trusted]> (group_trust_map s))
         (<[id := (map_iter trusted).*1]> (group_trust_map_cache s)) s.

Definition verify_and_update_group_trusts `{!IterOrder text bytes} (infos : list RoutePeerInfo)
    (decls : list GroupIdentity) (s : SyncedRouteInfo) : SyncedRouteInfo :=
  foldl (update_group_trust (declared_secrets decls)) s infos.
End model.

(** ** What a node has heard

    Announcements come from a common history: a peer's info and connection
    list of a given version are the same wherever they are heard (the time of
    the last update is local).  A peer starts with no connections at version 0. *)

Record history := { info_of : PeerId -> Z -> RoutePeerInfo; conn_of : PeerId -> Z -> gset PeerId }.

Definition strip : RoutePeerInfo -> RoutePeerInfo := with_last_update timestamp_default.

Record info_true (h : history) (i : RoutePeerInfo) : Prop := {
  it_version : 0 <= ri_version i;
  it_content : 0 < ri_version i -> strip i = strip (info_of h (ri_peer_id i) (ri_version i))
}.

Record conn_true (h : history) (k v : Z) (c : gset PeerId) : Prop := {
  ct_version : 0 <= v;
  ct_content : c = if v =? 0 then ∅ else conn_of h k v
}.

(** What is visible of the tables: infos with a version, connections by peer. *)
Section views.
Context `{RouteLib}.

Definition info_at (k : PeerId) (s : SyncedRouteInfo) : option RoutePeerInfo :=
  match peer_infos s !! k with
  | Some i => if ri_version i =? 0 then None else Some (strip i)
  | None => None
  end.
Definition conn_at (k : PeerId) (s : SyncedRouteInfo) : gset PeerId * Z := default (∅, 0) (conn_map s !! k).

(** [s] holds the newest of the announcements in [I] and [C]. *)
Record newest (h : history) (I C : PeerId -> Z -> Prop) (s : SyncedRouteInfo) : Prop := {
  nw_info : forall k i, peer_infos s !! k = Some i -> 0 <= ri_version i /\
    (0 < ri_version i -> I k (ri_version i) /\ strip i = strip (info_of h k (ri_version i)));
  nw_info_max : forall k v, I k v -> exists i, peer_infos s !! k = Some i /\ v <= ri_version i;
  nw_conn : forall k c v, conn_map s !! k = Some (c, v) -> conn_true h k v c /\ (0 < v -> C k v);
  nw_conn_max : forall k v, C k v -> exists c w, conn_map s !! k = Some (c, w) /\ v <= w
}.

(** The announcements decide what is visible. *)
Lemma newest_unique h I C s1 s2 k :
  newest h I C s1 -> newest h I C s2 -> info_at k s1 = info_at k s2 /\ conn_at k s1 = conn_at k s2.
Proof.
  intros [I1 M1 C1 N1] [I2 M2 C2 N2]. split.
  - unfold info_at. destruct (peer_infos s1 !! k) as [i1|] eqn:E1, (peer_infos s2 !! k) as [i2|] eqn:E2; [| | |done].
    + destruct (I1 _ _ E1) as [P1 H1], (I2 _ _ E2) as [P2 H2].
      destruct (Z.eqb_spec (ri_version i1) 0), (Z.eqb_spec (ri_version i2) 0); [done | | |].
      * destruct H2 as [HI _]; [lia|]. apply M1 in HI as (?&?&?); simplify_eq; lia.
      * destruct H1 as [HI _]; [lia|]. apply M2 in HI as (?&?&?); simplify_eq; lia.
      * destruct H1 as [HI1 ->]; [lia|]. destruct H2 as [HI2 ->]; [lia|].
        apply M2 in HI1 as (?&?&?). apply M1 in HI2 as (?&?&?). simplify_eq.
        by replace (ri_version i1) with (ri_version i2) by lia.
    + destruct (I1 _ _ E1) as [P1 H1]. case_match; [done|].
      destruct H1 as [HI _]; [lia|]. apply M2 in HI as (?&?&?); simplify_eq.
    + destruct (I2 _ _ E2) as [P2 H2]. case_match; [done|].
      destruct H2 as [HI _]; [lia|]. apply M1 in HI as (?&?&?); simplify_eq.
  - unfold conn_at. destruct (conn_map s1 !! k) as [[c1 v1]|] eqn:E1, (conn_map s2 !! k) as [[c2 v2]|] eqn:E2; simpl; [| | |done].
    + destruct (C1 _ _ _ E1) as [[P1 ->] H1], (C2 _ _ _ E2) as [[P2 ->] H2].
      assert (v1 = v2) as ->; [|done].
      destruct (decide (0 < v1)) as [Hv1|].
      * pose proof (N2 _ _ (H1 Hv1)) as (?&?&?&?). simplify_eq.
        pose proof (N1 _ _ (H2 ltac:(lia))) as (?&?&?&?). simplify_eq. lia.
      * destruct (decide (0 < v2)) as [Hv2|]; [|lia].
        pose proof (N1 _ _ (H2 Hv2)) as (?&?&?&?). simplify_eq. lia.
    + destruct (C1 _ _ _ E1) as [[P1 ->] H1]. destruct (Z.eqb_spec v1 0) as [Hz|]; [by rewrite Hz|].
      destruct (N2 k v1) as (?&?&?&?); [apply H1; lia | simplify_eq].
    + destruct (C2 _ _ _ E2) as [[P1 ->] H1]. destruct (Z.eqb_spec v2 0) as [Hz|]; [by rewrite Hz|].
      destruct (N1 k v2) as (?&?&?&?); [apply H1; lia | simplify_eq].
Qed.

Lemma newest_ext h I C I' C' s s' :
  newest h I C s -> peer_infos s' = peer_infos s -> conn_map s' = conn_map s ->
  (forall k v, I' k v <-> I k v) -> (forall k v, C' k v <-> C k v) -> newest h I' C' s'.
Proof.
  intros [A B D E] Hi Hc HI HC. split; rewrite ?Hi, ?Hc.
  - intros k i Hk. rewrite HI. by apply A.
  - intros k v. rewrite HI. apply B.
  - intros k c v Hk. rewrite HC. by apply D.
  - intros k v. rewrite HC. apply E.
Qed.

Lemma newest_inc h I C b s : newest h I C s -> newest h I C (inc_version_if b s).
Proof. intros N. eapply newest_ext; [exact N | by destruct b..| done | done]. Qed.

(** One more announcement. *)
Definition hears (I : PeerId -> Z -> Prop) (k v : Z) : PeerId -> Z -> Prop :=
  fun k' v' => I k' v' \/ (k' = k /\ v' = v /\ 0 < v).

Lemma strip_last_update t i : strip (with_last_update t i) = strip i.
Proof. done. Qed.

Lemma accept_info_newest h I C raw info s b :
  newest h I C s -> info_true h info ->
  newest h (hears I (ri_peer_id info) (ri_version info)) C (accept_info raw info (s, b)).1.
Proof.
  intros [A B D E] [Hv Hc]. unfold accept_info.
  assert (forall old, peer_infos s !! ri_peer_id info = Some old -> ri_version info <= ri_version old ->
    newest h (hears I (ri_peer_id info) (ri_version info)) C s) as Hkeep.
  { intros old Ho Hle. split; [| |done..].
    - intros k i Hk. destruct (A k i Hk) as [? Hi]. split; [done|]. intros Hp. destruct (Hi Hp). by split; [left|].
    - intros k v [HI|(-> & -> & _)]; [by apply B | by eauto]. }
  assert ((forall old, peer_infos s !! ri_peer_id info = Some old -> ri_version old < ri_version info) ->
    newest h (hears I (ri_peer_id info) (ri_version info)) C
      (with_infos (<[ri_peer_id info := info]> (peer_infos s)) (<[ri_peer_id info := raw]> (raw_peer_infos s)) s))
    as Hput.
  { intros Hlt. split; [| |done..]; simpl.
    - intros k i. rewrite lookup_insert. case_decide as Hk; subst.
      + intros [= <-]. split; [done|]. intros Hp. split; [right|]; auto.
      + intros Ei. destruct (A k i Ei) as [? Hi]. split; [done|]. intros Hp. destruct (Hi Hp). by split; [left|].
    - intros k v [HI|(-> & -> & _)].
      + destruct (B k v HI) as (i & Ei & Hle). rewrite lookup_insert. case_decide; subst; [|by eauto].
        exists info. split; [done|]. apply Hlt in Ei. lia.
      + rewrite lookup_insert_eq. by exists info. }
  destruct (peer_infos s !! ri_peer_id info) as [old|] eqn:Eo; [destruct (Z.ltb_spec (ri_version old) (ri_version info))|];
    simpl; eauto.
  - apply Hput. by intros ? [= <-].
  - apply Hput. by intros ? [=].
Qed.

Lemma accept_conn_newest h I C k v c s b :
  newest h I C s -> conn_true h k v c ->
  newest h I (hears C k v) (accept_conn k v c (s, b)).1.
Proof.
  intros [A B D E] Ht. pose proof Ht as [Hv Hc]. unfold accept_conn.
  assert (forall c0 old, conn_map s !! k = Some (c0, old) -> v <= old -> newest h I (hears C k v) s) as Hkeep.
  { intros c0 old Ho Hle. split; [done..| |].
    - intros k' c' v' Hk. destruct (D _ _ _ Hk). split; [done|]. intros. left. auto.
    - intros k' v' [HC|(-> & -> & _)]; eauto. }
  assert ((forall c0 old, conn_map s !! k = Some (c0, old) -> old < v) ->
    newest h I (hears C k v) (with_conn (<[k := (c, v)]> (conn_map s)) s)) as Hput.
  { intros Hlt. split; [done..| |]; simpl.
    - intros k' c' v'. rewrite lookup_insert. case_decide; subst.
      + intros [= <- <-]. split; [done|]. by right.
      + intros Hk. destruct (D _ _ _ Hk). split; [done|]. intros. left. auto.
    - intros k' v' [HC|(-> & -> & _)].
      + destruct (E k' v' HC) as (c0 & w & Ew & Hle). rewrite lookup_insert. case_decide; subst; [|by eauto].
        apply Hlt in Ew. exists (if v =? 0 then ∅ else conn_of h k' v), v. split; [done | lia].
      + rewrite lookup_insert_eq. by exists c, v. }
  destruct (conn_map s !! k) as [[c0 old]|] eqn:Eo; [destruct (Z.ltb_spec old v)|]; simpl; eauto.
  - apply Hput. by intros ?? [= <- <-].
  - apply Hput. by intros ?? [=].
Qed.

Lemma put_info_newest h I C k i s : peer_infos s !! k = None -> ri_version i = 0 -> newest h I C s ->
  newest h I C (with_infos (<[k := i]> (peer_infos s)) (raw_peer_infos s) s).
Proof.
  intros Hn H0 [A B D E]. split; [| |done..]; simpl.
  - intros k' j. rewrite lookup_insert. case_decide; [|apply A]. intros [= <-]. split; lia.
  - intros k' v HI. destruct (B _ _ HI) as (j & Hk & ?). rewrite lookup_insert_ne by congruence. eauto.
Qed.

Lemma put_conn_newest h I C k s : conn_map s !! k = None -> newest h I C s ->
  newest h I C (with_conn (<[k := (∅, 0)]> (conn_map s)) s).
Proof.
  intros Hn [A B D E]. split; [done..| |]; simpl.
  - intros k' c v. rewrite lookup_insert. case_decide; [|apply D]. intros [= <- <-]. by split; [split|].
  - intros k' v HC. destruct (E _ _ HC) as (c & w & Hk & ?). rewrite lookup_insert_ne by congruence. eauto.
Qed.

Lemma fill_empty_one_newest h I C now acc k :
  newest h I C acc.1 -> newest h I C (fill_empty_one now acc k).1.
Proof.
  destruct acc as [s b]; simpl. intros N. unfold fill_empty_one.
  destruct (peer_infos s !! k) as [i|] eqn:Ei; [|apply (put_info_newest h I C k (peer_info_new now)) in N; [|done..]];
    (case_match eqn:Ec; [done | by apply put_conn_newest]).
Qed.

Lemma fill_empty_newest h I C now ids s : newest h I C s -> newest h I C (fill_empty_peer_info now ids s).
Proof.
  intros N. unfold fill_empty_peer_info. generalize (elements ids) as l.
  assert (forall l acc, newest h I C acc.1 -> newest h I C (foldl (fill_empty_one now) acc l).1) as Hl.
  { induction l as [|k l IH]; intros acc Ha; simpl; [done|]. apply IH. by apply fill_empty_one_newest. }
  intros l. specialize (Hl l (s, false) N). destruct (foldl _ _ _) as [s' b]. by apply newest_inc.
Qed.

(** *** Messages *)

(** What one request of a peer carries: infos, or connections. *)
Inductive sync_msg :=
| MsgInfos (from : PeerId) (infos : list RoutePeerInfo) (raws : list DynamicMessage)
| MsgConn (c : ConnInfo).

Definition receive (now me route_id : Z) (m : sync_msg) (s : SyncedRouteInfo)
    : outcome (result SyncError unit * SyncedRouteInfo) :=
  match m with
  | MsgInfos from infos raws => update_peer_infos now me route_id from infos raws s
  | MsgConn c => s ← update_conn_info now c s; Done (Ok tt, s)
  end.

Fixpoint receive_all (me route_id : Z) (l : list (Z * sync_msg)) (s : SyncedRouteInfo)
    : outcome (result SyncError unit * SyncedRouteInfo) :=
  match l with
  | [] => Done (Ok tt, s)
  | (now, m) :: l =>
      '(r, s) ← receive now me route_id m s;
      match r with Ok _ => receive_all me route_id l s | Err e => Done (Err e, s) end
  end.

(** The announcements of a message, and that they are part of the history. *)
Definition tells_info (m : sync_msg) (k v : Z) : Prop :=
  match m with
  | MsgInfos _ infos _ => exists i, i ∈ infos /\ k = ri_peer_id i /\ v = ri_version i /\ 0 < v
  | MsgConn _ => False
  end.

Definition tells_conn (m : sync_msg) (k v : Z) : Prop :=
  match m with
  | MsgInfos _ _ _ => False
  | MsgConn (ConnBitmap b) => {| piv_peer_id := k; piv_version := v |} ∈ bm_peer_ids b /\ 0 < v
  | MsgConn (ConnPeerList l) =>
      (exists c, c ∈ l /\ pci_peer_id c = Some {| piv_peer_id := k; piv_version := v |}) /\ 0 < v
  end.

Definition msg_true (h : history) (m : sync_msg) : Prop :=
  match m with
  | MsgInfos _ infos _ => Forall (info_true h) infos
  | MsgConn (ConnBitmap b) => forall n p c, bm_peer_ids b !! n = Some p ->
      bitmap_connected_peers b (Z.of_nat n) = Done c -> conn_true h (piv_peer_id p) (piv_version p) c
  | MsgConn (ConnPeerList l) => Forall (fun c => forall p, pci_peer_id c = Some p ->
      conn_true h (piv_peer_id p) (piv_version p) (list_to_set (connected_peer_ids c))) l
  end.

Lemma update_peer_infos_newest h C now me rid from infos : forall raws I acc acc',
  newest h I C acc.1 -> Forall (info_true h) infos ->
  update_peer_infos_loop now me rid from infos raws acc = Done (Ok tt, acc') ->
  newest h (fun k v => I k v \/ tells_info (MsgInfos from infos raws) k v) C acc'.1.
Proof.
  induction infos as [|info infos IH]; intros raws I acc acc' N Ht E; simpl in E.
  { injection E as <-. eapply newest_ext; [exact N | done | done | | done]. simpl. set_solver. }
  apply bind_Done in E as (raw & Er & E). apply bind_Done in E as (dup & Ed & E). destruct dup as [[]|]; [|done].
  apply bind_Done in E as (raw_id & Eu & E). case_match; [done|].
  apply Forall_cons in Ht as [Hi Ht]. apply (IH _ (hears I (ri_peer_id info) (ri_version info))) in E; [| |done].
  - eapply newest_ext; [exact E | done | done | | done]. intros k v. simpl. unfold hears. simpl.
    setoid_rewrite elem_of_cons. split.
    + intros [?|(i & [->|?] & -> & -> & ?)]; [by left; left | left; right; auto | right; exists i; auto].
    + intros [[?|(-> & -> & ?)]|(i & ? & ?)]; [by left | right; exists info; auto | right; exists i; auto].
  - destruct acc as [s b]. apply (accept_info_newest h I C raw (with_last_update (of_time now) info)); [done|].
    destruct Hi as [? Hc]. by split.
Qed.

Lemma update_conn_map_newest h I now b : forall ids C n acc acc',
  newest h I C acc.1 ->
  (forall m p c, ids !! m = Some p -> bitmap_connected_peers b (n + Z.of_nat m) = Done c ->
     conn_true h (piv_peer_id p) (piv_version p) c) ->
  update_conn_map_loop now b n ids acc = Done acc' ->
  newest h I (fun k v => C k v \/ {| piv_peer_id := k; piv_version := v |} ∈ ids /\ 0 < v) acc'.1.
Proof.
  induction ids as [|p ids IH]; intros C n acc acc' N Ht E; simpl in E.
  { injection E as <-. eapply newest_ext; [exact N | done | done | done |]. set_solver. }
  apply bind_Done in E as (c & Ec & E). apply (IH (hears C (piv_peer_id p) (piv_version p))) in E.
  - eapply newest_ext; [exact E | done | done | done |]. intros k v. unfold hears. rewrite elem_of_cons.
    destruct p; simpl. naive_solver.
  - apply accept_conn_newest; [by apply fill_empty_newest|]. apply (Ht 0%nat); [done|]. by rewrite Z.add_0_r.
  - intros m q c' Hm Hc. apply (Ht (S m)); [done|]. by replace (n + Z.of_nat (S m)) with (n + 1 + Z.of_nat m) by lia.
Qed.

Lemma update_conn_list_newest h I now l : forall C acc,
  newest h I C acc.1 ->
  Forall (fun c => forall p, pci_peer_id c = Some p ->
    conn_true h (piv_peer_id p) (piv_version p) (list_to_set (connected_peer_ids c))) l ->
  newest h I (fun k v => C k v \/ tells_conn (MsgConn (ConnPeerList l)) k v) (foldl (update_conn_peer now) acc l).1.
Proof.
  induction l as [|c l IH]; intros C acc N Ht; simpl.
  { eapply newest_ext; [exact N | done | done | done |]. set_solver. }
  apply Forall_cons in Ht as [Hc Ht]. unfold update_conn_peer at 2. destruct (pci_peer_id c) as [p|] eqn:Ep.
  - eapply newest_ext; [apply (IH (hears C (piv_peer_id p) (piv_version p))); [|done]| done | done | done |].
    + apply accept_conn_newest; [by apply fill_empty_newest | by apply Hc].
    + intros k v. unfold hears. simpl. setoid_rewrite elem_of_cons. destruct p; simpl. split.
      * intros [?|[(c0 & [->|?] & ?) ?]]; [by left; left | left; right; by simplify_eq | right; eauto].
      * intros [[?|(-> & -> & ?)]|[(c0 & ? & ?) ?]]; [by left | right; split; [exists c|]; auto | right; eauto].
  - eapply newest_ext; [by apply (IH C) | done | done | done |]. intros k v. simpl. setoid_rewrite elem_of_cons.
    split; [|naive_solver]. intros [?|[(c0 & [->|?] & ?) ?]]; [by left | congruence | right; eauto].
Qed.

Lemma receive_newest h I C now me rid m s s' :
  newest h I C s -> msg_true h m -> receive now me rid m s = Done (Ok tt, s') ->
  newest h (fun k v => I k v \/ tells_info m k v) (fun k v => C k v \/ tells_conn m k v) s'.
Proof.
  intros N Ht E. destruct m as [from infos raws|[b|l]]; simpl in E.
  - unfold update_peer_infos in E. apply bind_Done in E as ([r [s1 need]] & El & E).
    destruct r as [[]|]; [|done]. injection E as <-. apply newest_inc.
    eapply update_peer_infos_newest in El; [|exact N|exact Ht].
    eapply newest_ext; [exact El | done | done | done | simpl; tauto].
  - apply bind_Done in E as (s2 & E & [= <-]). unfold update_conn_map in E. apply bind_Done in E as ([s1 need] & El & E). injection E as <-.
    apply newest_inc. eapply update_conn_map_newest in El; [|by apply fill_empty_newest|].
    + eapply newest_ext; [exact El | done | done | simpl; tauto | done].
    + intros k p c. apply Ht.
  - inv_outcome. unfold update_conn_peer_list. destruct (foldl _ _ _) as [s1 need] eqn:El. apply newest_inc.
    pose proof (update_conn_list_newest h I now l C (s, false) N Ht) as N'. rewrite El in N'.
    eapply newest_ext; [exact N' | done | done | simpl; tauto | done].
Qed.

(** Heard: stored at the start, or told since. *)
Definition heard_info (s : SyncedRouteInfo) (l : list (Z * sync_msg)) (k v : Z) : Prop :=
  (exists i, peer_infos s !! k = Some i /\ v = ri_version i /\ 0 < v) \/ exists m, m ∈ l.*2 /\ tells_info m k v.
Definition heard_conn (s : SyncedRouteInfo) (l : list (Z * sync_msg)) (k v : Z) : Prop :=
  (exists c, conn_map s !! k = Some (c, v) /\ 0 < v) \/ exists m, m ∈ l.*2 /\ tells_conn m k v.

Lemma heard_info_app s l k v :
  heard_info s [] k v \/ (exists m, m ∈ l.*2 /\ tells_info m k v) <-> heard_info s l k v.
Proof.
  unfold heard_info. split; [|tauto]. intros [[?|(m & Hm & _)]|?]; [by left | by apply elem_of_nil in Hm | by right].
Qed.
Lemma heard_conn_app s l k v :
  heard_conn s [] k v \/ (exists m, m ∈ l.*2 /\ tells_conn m k v) <-> heard_conn s l k v.
Proof.
  unfold heard_conn. split; [|tauto]. intros [[?|(m & Hm & _)]|?]; [by left | by apply elem_of_nil in Hm | by right].
Qed.

(** The tables are part of the history. *)
Record synced_true (h : history) (s : SyncedRouteInfo) : Prop := {
  st_info : forall k i, peer_infos s !! k = Some i -> info_true h i /\ (0 < ri_version i -> ri_peer_id i = k);
  st_conn : forall k c v, conn_map s !! k = Some (c, v) -> conn_true h k v c
}.

Lemma synced_true_newest h s : synced_true h s -> newest h (heard_info s []) (heard_conn s []) s.
Proof.
  intros [A B]. unfold heard_info, heard_conn. split.
  - intros k i Hk. destruct (A _ _ Hk) as [[? Hc] Hid]. split; [done|]. intros Hp.
    split; [left; by eauto|]. rewrite <- (Hid Hp). by apply Hc.
  - intros k v [(i & Hk & -> & ?)|(m & Hm & _)]; [by exists i | by apply elem_of_nil in Hm].
  - intros k c v Hk. split; [by eapply B|]. left; eauto.
  - intros k v [(c & Hk & ?)|(m & Hm & _)]; [by exists c, v | by apply elem_of_nil in Hm].
Qed.

Lemma receive_all_newest h me rid l : forall I C s s',
  newest h I C s -> Forall (fun m => msg_true h m.2) l -> receive_all me rid l s = Done (Ok tt, s') ->
  newest h (fun k v => I k v \/ exists m, m ∈ l.*2 /\ tells_info m k v)
           (fun k v => C k v \/ exists m, m ∈ l.*2 /\ tells_conn m k v) s'.
Proof.
  induction l as [|[now m] l IH]; intros I C s s' N Ht E; simpl in E.
  { injection E as <-. eapply newest_ext; [exact N | done | done | |]; set_solver. }
  apply bind_Done in E as ([r s1] & E1 & E). destruct r as [[]|]; [|done].
  apply Forall_cons in Ht as [Hm Ht]. eapply receive_newest in E1; [|exact N|exact Hm].
  eapply IH in E; [|exact E1|exact Ht].
  eapply newest_ext; [exact E | done | done | |]; intros k v; simpl; setoid_rewrite elem_of_cons; naive_solver.
Qed.
End views.

(** ** The version follows the tables

    [moved N b s s']: the version was raised at most [N] times, and if it was
    not raised and nothing is pending ([b]) then the tables look the same. *)
Section versions.
Context `{RouteLib, !IterOrder text bytes, !IterOrder ForeignKey ForeignEntry}.

Definition same_view (s s' : SyncedRouteInfo) : Prop :=
  peer_infos s' = peer_infos s /\ forall k, conn_at k s' = conn_at k s.

Definition moved (N : Z) (b : bool) (s s' : SyncedRouteInfo) : Prop :=
  exists n, 0 <= n <= N /\ version s' = as_u32 (version s + n) /\ (n = 0 -> b = false -> same_view s s').

Lemma moved_refl s : in_width 32 (version s) -> moved 0 false s s.
Proof. exists 0. rewrite Z.add_0_r, wrap_small by done. done. Qed.

Lemma moved_in_width N b s s' : moved N b s s' -> in_width 32 (version s').
Proof. intros (n & _ & -> & _). by apply wrap_in_width. Qed.

Lemma moved_weaken N M b s s' : N <= M -> moved N b s s' -> moved M b s s'.
Proof. intros ? (n & ? & ?). exists n. split; [lia | done]. Qed.

Lemma moved_trans N M b s s1 s2 : moved N b s s1 -> moved M false s1 s2 -> moved (N + M) b s s2.
Proof.
  intros (n & Hn & E & Hs) (m & Hm & E' & Hs'). exists (n + m). split; [lia|]. split.
  - rewrite E', E. unfold wrap. by rewrite Z.add_mod_idemp_l, Z.add_assoc by done.
  - intros ? ->. destruct (Hs ltac:(lia) eq_refl) as [A B], (Hs' ltac:(lia) eq_refl) as [C D].
    split; [by rewrite C | intros k; by rewrite D].
Qed.

(** A change that only leaves a mark. *)
Lemma moved_mark N b b' s s1 s2 : moved N b s s1 -> version s2 = version s1 ->
  (b' = false -> b = false /\ same_view s1 s2) -> moved N b' s s2.
Proof.
  intros (n & Hn & E & Hs) Ev Hb. exists n. split; [done|]. split; [by rewrite Ev|].
  intros Hz Hf. destruct (Hb Hf) as [Hb0 [C D]], (Hs Hz) as [A B]; [done|].
  split; [by rewrite C | intros k; by rewrite D].
Qed.

Lemma moved_inc N b s s' : moved N b s s' -> moved (N + 1) false s (inc_version_if b s').
Proof.
  destruct b; [|by apply moved_weaken; lia].
  intros (n & Hn & E & Hs). exists (n + 1). split; [lia|]. split; [|lia].
  simpl. unfold version_inc. rewrite E. unfold wrap. by rewrite Z.add_mod_idemp_l, Z.add_assoc by done.
Qed.

Lemma conn_at_insert k c s k' : conn_at k' (with_conn (<[k := c]> (conn_map s)) s) =
  if decide (k = k') then c else conn_at k' s.
Proof. unfold conn_at; simpl. rewrite lookup_insert. by case_decide. Qed.

Lemma fill_empty_moved now ids s : in_width 32 (version s) -> moved 1 false s (fill_empty_peer_info now ids s).
Proof.
  intros Hw. unfold fill_empty_peer_info.
  assert (forall l acc, moved 0 acc.2 s acc.1 ->
    moved 0 (foldl (fill_empty_one now) acc l).2 s (foldl (fill_empty_one now) acc l).1) as Hl.
  { induction l as [|k l IH]; intros [s1 b] Hm; simpl; [done|]. apply IH. unfold fill_empty_one.
    repeat case_match; simplify_eq/=; try done; eapply moved_mark; by eauto. }
  specialize (Hl (elements ids) (s, false) (moved_refl _ Hw)). destruct (foldl _ _ _) as [s1 b].
  apply (moved_inc 0 b s s1 Hl).
Qed.

Lemma accept_info_moved N raw info s acc : moved N acc.2 s acc.1 ->
  moved N (accept_info raw info acc).2 s (accept_info raw info acc).1.
Proof.
  destruct acc as [s1 b]; simpl; intros Hm. repeat case_match; simpl; try done; eapply moved_mark; by eauto.
Qed.

Lemma accept_conn_moved N k v c s acc : moved N acc.2 s acc.1 ->
  moved N (accept_conn k v c acc).2 s (accept_conn k v c acc).1.
Proof.
  destruct acc as [s1 b]; simpl; intros Hm. repeat case_match; simpl; try done; eapply moved_mark; by eauto.
Qed.

Lemma update_peer_infos_moved now me rid from infos raws s s' : in_width 32 (version s) ->
  update_peer_infos now me rid from infos raws s = Done (Ok tt, s') -> moved 1 false s s'.
Proof.
  intros Hw E. apply bind_Done in E as ([r [s1 b]] & El & E). destruct r as [[]|]; [|done]. injection E as <-.
  apply (moved_inc 0 b s s1). revert El. generalize (moved_refl s Hw).
  change (moved 0 false s s) with (moved 0 (s, false).2 s (s, false).1).
  generalize (s, false) as acc. revert raws. induction infos as [|i infos IH]; intros raws acc Hm El; simpl in El.
  { by injection El as ->. }
  apply bind_Done in El as (raw & _ & El). apply bind_Done in El as (dup & _ & El). destruct dup as [[]|]; [|done].
  apply bind_Done in El as (? & _ & El). case_match; [done|]. eapply IH; [|exact El]. by apply accept_info_moved.
Qed.

Lemma add_conn_moved N now k v c s acc : moved N acc.2 s acc.1 ->
  let acc' := accept_conn k v c (fill_empty_peer_info now c acc.1, acc.2) in moved (N + 1) acc'.2 s acc'.1.
Proof.
  intros Hm. apply accept_conn_moved. simpl. eapply moved_trans; [exact Hm|].
  apply fill_empty_moved. by eapply moved_in_width.
Qed.

Lemma update_conn_info_moved now c s s' : in_width 32 (version s) -> update_conn_info now c s = Done s' ->
  moved (match c with ConnBitmap b => len (bm_peer_ids b) + 2 | ConnPeerList l => len l + 1 end) false s s'.
Proof.
  intros Hw E. destruct c as [b|l]; simpl in E.
  - apply bind_Done in E as ([s1 need] & El & [= <-]).
    replace (len (bm_peer_ids b) + 2) with (1 + len (bm_peer_ids b) + 1) by lia. apply moved_inc.
    pose proof (fill_empty_moved now (list_to_set (piv_peer_id <$> bm_peer_ids b)) s Hw) as Hm.
    revert El Hm. generalize (fill_empty_peer_info now (list_to_set (piv_peer_id <$> bm_peer_ids b)) s) as s0.
    intros s0 El Hm. change (moved 1 (s0, false).2 s (s0, false).1) in Hm. revert El Hm.
    generalize (s0, false) as acc. generalize 0 as n. generalize 1 as N.
    generalize (bm_peer_ids b) as ids.
    induction ids as [|p ids IH]; intros N n acc El Hm; simpl in El.
    + injection El as ->. by rewrite Z.add_0_r.
    + apply bind_Done in El as (c & _ & El). eapply (IH (N + 1)) in El; [|by apply add_conn_moved].
      by replace (N + len (p :: ids)) with (N + 1 + len ids) by (unfold len; simpl; lia).
  - injection E as <-. unfold update_conn_peer_list.
    assert (forall l N acc, moved N acc.2 s acc.1 ->
      moved (N + len l) (foldl (update_conn_peer now) acc l).2 s (foldl (update_conn_peer now) acc l).1) as Hl.
    { clear l. induction l as [|c l IH]; intros N acc Hm; [by rewrite Z.add_0_r|]. simpl.
      replace (N + len (c :: l)) with (N + 1 + len l) by (unfold len; simpl; lia). apply IH.
      unfold update_conn_peer. case_match; [by apply add_conn_moved | eapply moved_weaken; [|exact Hm]; lia]. }
    specialize (Hl l 0 (s, false) (moved_refl _ Hw)). destruct (foldl _ _ _) as [s1 need].
    by apply moved_inc.
Qed.

Lemma update_self_same self me rid g now now' :
  ri_version (update_self self me rid g now now') = ri_version self -> in_width 32 (ri_version self) ->
  update_self self me rid g now now' = self.
Proof.
  unfold update_self. destruct (_ || _) eqn:E.
  - simpl. unfold version_inc, wrap, in_width. intros E' Hw. exfalso.
    destruct (decide (ri_version self = 2 ^ 32 - 1)) as [Hv|]; [rewrite Hv in E'; discriminate E'|].
    rewrite Z.mod_small in E'; lia.
  - intros _ _. apply orb_false_iff in E as [E _]. by apply bool_decide_eq_false, dec_stable in E.
Qed.

Lemma update_my_peer_info_moved now now' me rid g s r s' : in_width 32 (version s) ->
  in_width 32 (get_peer_info_version_with_default me s) ->
  update_my_peer_info now now' me rid g s = (r, s') -> moved 1 false s s'.
Proof.
  intros Hw Hv. unfold update_my_peer_info. set (old := default _ _). set (new := update_self _ _ _ _ _ _).
  destruct (Z.eqb_spec (ri_version new) (ri_version old)) as [E|E]; simpl; intros [= <- <-].
  - eapply moved_mark; [apply (moved_weaken 0); [lia | by apply moved_refl] | done|]. intros _. split; [done|].
    assert (in_width 32 (ri_version old)) as Ho.
    { subst old. unfold get_peer_info_version_with_default in Hv. by destruct (peer_infos s !! me). }
    assert (new = old) as Eo by (by apply update_self_same). rewrite Eo. split; [|done]. simpl. subst old.
    destruct (peer_infos s !! me) eqn:Ei; simpl in *; [by rewrite insert_id|].
    apply (f_equal ri_inst_id) in Eo. unfold new, update_self in Eo. by destruct (_ || _).
  - exists 1. split; [lia|]. done.
Qed.

Lemma update_my_conn_info_moved now me c s r s' : in_width 32 (version s) ->
  update_my_conn_info now me c s = (r, s') -> moved 2 false s s'.
Proof.
  intros Hw. unfold update_my_conn_info. pose proof (fill_empty_moved now c s Hw) as Hm.
  destruct (default _ _) as [mine v] eqn:Ed. case_bool_decide; intros [= <- <-].
  - eapply moved_mark; [apply (moved_weaken 1); [lia | exact Hm] | done|]. intros _. split; [done|]. split; [done|].
    intros k. rewrite conn_at_insert. case_decide; [|done]. by subst.
  - apply (moved_inc 1 true). eapply moved_mark; [exact Hm | done | done].
Qed.

(** A call that completes; [N] bounds how often it raises the version. *)
Inductive synced_step : Z -> SyncedRouteInfo -> SyncedRouteInfo -> Prop :=
| step_remove s k : synced_step 1 s (remove_peer k s)
| step_infos s now me rid from infos raws s' :
    update_peer_infos now me rid from infos raws s = Done (Ok tt, s') -> synced_step 1 s s'
| step_conn s now c s' :
    update_conn_info now c s = Done s' ->
    synced_step (match c with ConnBitmap b => len (bm_peer_ids b) + 2 | ConnPeerList l => len l + 1 end) s s'
| step_foreign s now l : synced_step 0 s (update_foreign_network now l s)
| step_my_info s now now' me rid g r s' :
    in_width 32 (get_peer_info_version_with_default me s) ->
    update_my_peer_info now now' me rid g s = (r, s') -> synced_step 1 s s'
| step_my_conn s now me c r s' : update_my_conn_info now me c s = (r, s') -> synced_step 2 s s'
| step_my_foreign s now me fresh r s' : update_my_foreign_network now me fresh s = Done (r, s') -> synced_step 1 s s'
| step_trusts s infos decls : synced_step 0 s (verify_and_update_group_trusts infos decls s).

Lemma trusts_keep_tables infos decls s :
  let s' := verify_and_update_group_trusts infos decls s in
  peer_infos s' = peer_infos s /\ conn_map s' = conn_map s /\ version s' = version s.
Proof.
  unfold verify_and_update_group_trusts. revert s. induction infos as [|i infos IH]; intros s; simpl; [done|].
  destruct (IH (update_group_trust (declared_secrets decls) s i)) as (-> & -> & ->).
  unfold update_group_trust. by repeat case_match.
Qed.

Lemma synced_step_moved N s s' : in_width 32 (version s) -> synced_step N s s' -> moved N false s s'.
Proof.
  intros Hw. destruct 1.
  - exists 1. done.
  - by eapply update_peer_infos_moved.
  - by eapply update_conn_info_moved.
  - eapply moved_mark; [by apply moved_refl | done | done].
  - by eapply update_my_peer_info_moved.
  - by eapply update_my_conn_info_moved.
  - unfold update_my_foreign_network in H0. case_match; [done|].
    apply bind_Done in H0 as ([[stored fr] up] & _ & E). apply bind_Done in E as ([stored' up'] & _ & [= _ <-]).
    apply (moved_inc 0). eapply moved_mark; [by apply moved_refl | done | done].
  - destruct (trusts_keep_tables infos decls s) as (A & B & C).
    eapply moved_mark; [by apply moved_refl | done|]. intros _. split; [done|]. split; [done|].
    intros k. unfold conn_at. by rewrite B.
Qed.
End versions.

(** ** Trusted groups *)
Section trusts.
Context `{RouteLib, !IterOrder text bytes, !IterOrder ForeignKey ForeignEntry}.

(** The proof was made with a secret declared in one of the configurations [A]. *)
Definition vouched (A : option Acl -> Prop) (p : PeerId) (name : text) (proof : bytes) : Prop :=
  exists acl g, A acl /\ g ∈ get_acl_group_declarations acl /\ group_name g = name /\
    proof = hmac_sha256 (as_bytes (group_secret g)) (data_to_sign name p).

Record trust_inv (A : option Acl -> Prop) (s : SyncedRouteInfo) : Prop := {
  ti_vouched : forall p m n pr, group_trust_map s !! p = Some m -> m !! n = Some pr -> vouched A p n pr;
  ti_cached : forall p m, group_trust_map s !! p = Some m ->
    exists l, group_trust_map_cache s !! p = Some l /\ forall n, n ∈ l <-> is_Some (m !! n);
  ti_absent : forall p, group_trust_map s !! p = None -> group_trust_map_cache s !! p = None
}.

Definition same_trusts (s s' : SyncedRouteInfo) : Prop :=
  group_trust_map s' = group_trust_map s /\ group_trust_map_cache s' = group_trust_map_cache s.

Lemma same_trusts_inv A s s' : same_trusts s s' -> trust_inv A s -> trust_inv A s'.
Proof. intros [E1 E2] [P Q R]. split; rewrite ?E1, ?E2; done. Qed.

Lemma put_trust_inv A p m l s : trust_inv A s ->
  (forall n pr, m !! n = Some pr -> vouched A p n pr) -> (forall n, n ∈ l <-> is_Some (m !! n)) ->
  trust_inv A (with_trusts (<[p := m]> (group_trust_map s)) (<[p := l]> (group_trust_map_cache s)) s).
Proof.
  intros [P Q R] Hv Hl. split; simpl.
  - intros p' m' n pr. rewrite lookup_insert. case_decide; [|by apply P]. intros [= <-]. subst. apply Hv.
  - intros p' m'. rewrite !lookup_insert. case_decide; [|by apply Q]. intros [= <-]. eauto.
  - intros p'. rewrite !lookup_insert. case_decide; [done | by apply R].
Qed.

Lemma drop_trust_inv A p s : trust_inv A s ->
  trust_inv A (with_trusts (delete p (group_trust_map s)) (delete p (group_trust_map_cache s)) s).
Proof.
  intros [P Q R]. split; simpl.
  - intros p' m' n pr. rewrite lookup_delete_Some. intros [? E]. by eapply P.
  - intros p' m'. rewrite lookup_delete_Some. intros [? E]. rewrite lookup_delete_ne by done. by apply Q.
  - intros p'. rewrite !lookup_delete. case_decide; [done | apply R].
Qed.

Lemma declared_secrets_elem decls name secret : declared_secrets decls !! name = Some secret ->
  exists g, g ∈ decls /\ group_name g = name /\ group_secret g = secret.
Proof.
  unfold declared_secrets. induction decls as [|g l IH] using rev_ind; [done|].
  rewrite foldl_snoc, lookup_insert. setoid_rewrite elem_of_app. case_decide.
  - intros [= <-]. exists g. split; [right; by apply list_elem_of_singleton | done].
  - intros E. apply IH in E as (g' & ? & ?). eauto.
Qed.

Lemma verify_group_vouched A acl old p t g : A acl ->
  (forall m n pr, old = Some m -> m !! n = Some pr -> vouched A p n pr) ->
  (forall n pr, t !! n = Some pr -> vouched A p n pr) ->
  forall n pr, verify_group (declared_secrets (get_acl_group_declarations acl)) old p t g !! n = Some pr ->
    vouched A p n pr.
Proof.
  intros HA Hold Ht n pr. unfold verify_group. case_bool_decide as E.
  - rewrite lookup_insert. case_decide; [|by apply Ht]. intros [= <-]; subst. destruct old; [|done]. by eapply Hold.
  - destruct (_ !! pg_name g) as [secret|] eqn:Es; [|by apply Ht].
    destruct (verify g secret p) eqn:Ev; [|by apply Ht]. rewrite lookup_insert. case_decide; [|by apply Ht].
    intros [= <-]; subst. apply declared_secrets_elem in Es as (d & Hd & Hn & <-).
    apply bool_decide_eq_true in Ev. exists acl, d. by rewrite Hn.
Qed.

Lemma verify_groups_vouched A acl s info : A acl -> trust_inv A s ->
  forall n pr, verify_groups (declared_secrets (get_acl_group_declarations acl))
    (group_trust_map s !! ri_peer_id info) info !! n = Some pr -> vouched A (ri_peer_id info) n pr.
Proof.
  intros HA [P _ _]. unfold verify_groups.
  assert (forall l t, (forall n pr, t !! n = Some pr -> vouched A (ri_peer_id info) n pr) ->
    forall n pr, foldl (verify_group (declared_secrets (get_acl_group_declarations acl))
      (group_trust_map s !! ri_peer_id info) (ri_peer_id info)) t l !! n = Some pr ->
    vouched A (ri_peer_id info) n pr) as Hl.
  { induction l as [|g l IH]; intros t Ht; simpl; [done|]. apply IH. apply verify_group_vouched; [done| |done].
    intros m n pr. by apply P. }
  by apply Hl.
Qed.

Lemma verify_trusts_inv A acl infos s : A acl -> trust_inv A s ->
  trust_inv A (verify_and_update_group_trusts infos (get_acl_group_declarations acl) s).
Proof.
  intros HA. unfold verify_and_update_group_trusts. revert s.
  induction infos as [|i infos IH]; intros s Hi; simpl; [done|]. apply IH. unfold update_group_trust.
  case_bool_decide.
  - case_match; [by apply drop_trust_inv | done].
  - apply put_trust_inv; [done | by apply verify_groups_vouched|]. intros n. rewrite list_elem_of_fmap. split.
    + intros ([n' pr] & -> & Hin). apply elem_of_map_iter in Hin. eauto.
    + intros [pr E]. exists (n, pr). by rewrite elem_of_map_iter.
Qed.

Lemma group_map_lookup (l : list PeerGroupInfo) n :
  let m := foldl (fun m g => <[pg_name g := pg_proof g]> m) (∅ : gmap text bytes) l in
  (forall pr, m !! n = Some pr -> exists g, g ∈ l /\ pg_name g = n /\ pg_proof g = pr) /\
  (n ∈ pg_name <$> l <-> is_Some (m !! n)).
Proof.
  induction l as [|g l [IH1 IH2]] using rev_ind; simpl.
  { split; [done|]. rewrite lookup_empty, elem_of_nil. split; [done | by intros [? ?]]. }
  rewrite foldl_snoc, lookup_insert, fmap_app, elem_of_app, IH2. simpl. rewrite list_elem_of_singleton.
  setoid_rewrite elem_of_app. setoid_rewrite list_elem_of_singleton. case_decide; split.
  - intros pr [= <-]. exists g. auto.
  - split; [by eauto | by right].
  - intros pr E. apply IH1 in E as (x & ? & ?). eauto.
  - split; [by intros [?|] | by left].
Qed.

Lemma own_groups_inv A acl me s : A acl -> trust_inv A s ->
  ri_groups <$> peer_infos s !! me = Some (get_acl_groups acl me) -> trust_inv A (update_my_group_trusts me s).
Proof.
  intros HA Hi E. unfold update_my_group_trusts. rewrite lookup_upsert, decide_True by done.
  destruct (peer_infos s !! me) as [i|]; [|done]. injection E as E. simpl. rewrite E.
  apply (put_trust_inv A me _ _ (with_infos _ _ s)); [by apply (same_trusts_inv A s)| |].
  - intros n pr Hn. apply group_map_lookup in Hn as (x & Hx & <- & <-). revert Hx.
    unfold get_acl_groups. destruct (acl_group_info acl) as [gi|] eqn:Eg; [|by intros ?%elem_of_nil].
    rewrite list_elem_of_fmap. intros (d & -> & Hd). apply list_elem_of_filter in Hd as [_ Hd].
    exists acl, d. unfold get_acl_group_declarations. by rewrite Eg.
  - intros n. apply group_map_lookup.
Qed.

Lemma update_my_peer_info_trusts A now now' me rid g s : A (g_acl g) -> trust_inv A s ->
  trust_inv A (update_my_peer_info now now' me rid g s).2.
Proof.
  intros HA Hi. unfold update_my_peer_info. case_match; simpl.
  - apply (same_trusts_inv A (update_my_group_trusts me (with_infos
      (<[me := update_self (default peer_info_default (peer_infos s !! me)) me rid g now now']> (peer_infos s))
      (raw_peer_infos s) s))); [done|].
    apply (own_groups_inv A (g_acl g)); [done | by apply (same_trusts_inv A s)|]. simpl. rewrite lookup_insert_eq.
    simpl. f_equal. unfold update_self. by destruct (_ || _).
  - by apply (same_trusts_inv A s).
Qed.

(** *** The other calls leave the trusts alone *)

#[local] Instance same_trusts_preorder : PreOrder same_trusts.
Proof. split; [done|]. intros a b c [A B] [C D]. split; congruence. Qed.

Lemma inc_trusts b s : same_trusts s (inc_version_if b s).
Proof. by destruct b. Qed.

Lemma fill_empty_trusts now ids s : same_trusts s (fill_empty_peer_info now ids s).
Proof.
  unfold fill_empty_peer_info.
  assert (forall l acc, same_trusts acc.1 (foldl (fill_empty_one now) acc l).1) as Hl.
  { induction l as [|k l IH]; intros [s1 b]; simpl; [done|]. etrans; [|apply IH]. unfold fill_empty_one.
    by repeat case_match; simplify_eq/=. }
  specialize (Hl (elements ids) (s, false)). destruct (foldl _ _ _) as [s1 b]. etrans; [exact Hl | apply inc_trusts].
Qed.

#[local] Arguments accept_conn : simpl never.
#[local] Arguments accept_info : simpl never.

Lemma accept_conn_trusts k v c acc : same_trusts acc.1 (accept_conn k v c acc).1.
Proof. destruct acc. unfold accept_conn. by repeat case_match. Qed.

Lemma update_conn_info_trusts now c s s' : update_conn_info now c s = Done s' -> same_trusts s s'.
Proof.
  destruct c as [b|l]; simpl.
  - intros E. apply bind_Done in E as ([s1 need] & El & [= <-]). etrans; [|apply inc_trusts].
    etrans; [apply (fill_empty_trusts now (list_to_set (piv_peer_id <$> bm_peer_ids b)))|]. revert El.
    generalize (fill_empty_peer_info now (list_to_set (piv_peer_id <$> bm_peer_ids b)) s) as s0.
    generalize false as b0. generalize 0 as n. generalize (bm_peer_ids b) as ids.
    induction ids as [|p ids IH]; intros n b0 s0 El; simpl in El; [by simplify_eq|].
    apply bind_Done in El as (c & _ & El). destruct (accept_conn _ _ _ _) as [s2 b2] eqn:Ea.
    apply IH in El. etrans; [|exact El]. etrans; [apply fill_empty_trusts|].
    pose proof (accept_conn_trusts (piv_peer_id p) (piv_version p) c (fill_empty_peer_info now c s0, b0)) as Ht.
    by rewrite Ea in Ht.
  - intros [= <-]. unfold update_conn_peer_list.
    assert (forall l acc, same_trusts acc.1 (foldl (update_conn_peer now) acc l).1) as Hl.
    { clear. induction l as [|c l IH]; intros acc; simpl; [done|]. etrans; [|apply IH]. unfold update_conn_peer.
      case_match; [|done]. etrans; [|apply accept_conn_trusts]. apply fill_empty_trusts. }
    specialize (Hl l (s, false)). destruct (foldl _ _ _) as [s1 need]. etrans; [exact Hl | apply inc_trusts].
Qed.

Lemma update_peer_infos_trusts now me rid from infos raws s r s' :
  update_peer_infos now me rid from infos raws s = Done (r, s') -> same_trusts s s'.
Proof.
  intros E. apply bind_Done in E as ([r0 [s1 need]] & El & E).
  assert (same_trusts s s1) as Hs.
  { revert El. generalize false as b. revert raws s. induction infos as [|i infos IH]; intros raws s b El; simpl in El.
    { by simplify_eq. }
    apply bind_Done in El as (raw & _ & El). apply bind_Done in El as (dup & _ & El). destruct dup as [[]|]; [|by simplify_eq].
    apply bind_Done in El as (? & _ & El). case_match; [done|]. destruct (accept_info _ _ _) as [s2 b2] eqn:Ea.
    apply IH in El. etrans; [|exact El]. unfold accept_info in Ea. by repeat case_match; simplify_eq. }
  destruct r0; injection E as <- <-; [|done]. etrans; [exact Hs | apply inc_trusts].
Qed.

(** Everything that happens to the tables of node [me], under configurations [A]. *)
Inductive trust_step (A : option Acl -> Prop) (me : PeerId) : SyncedRouteInfo -> SyncedRouteInfo -> Prop :=
| ts_verify s infos acl : A acl ->
    trust_step A me s (verify_and_update_group_trusts infos (get_acl_group_declarations acl) s)
| ts_mine s now now' rid g : A (g_acl g) -> trust_step A me s (update_my_peer_info now now' me rid g s).2
| ts_remove s k : trust_step A me s (remove_peer k s)
| ts_infos s now rid from infos raws r s' :
    update_peer_infos now me rid from infos raws s = Done (r, s') -> trust_step A me s s'
| ts_conn s now c s' : update_conn_info now c s = Done s' -> trust_step A me s s'
| ts_foreign s now l : trust_step A me s (update_foreign_network now l s)
| ts_my_conn s now c : trust_step A me s (update_my_conn_info now me c s).2
| ts_my_foreign s now fresh r s' : update_my_foreign_network now me fresh s = Done (r, s') -> trust_step A me s s'.

Lemma trust_step_inv A me s s' : trust_step A me s s' -> trust_inv A s -> trust_inv A s'.
Proof.
  destruct 1; intros Hi.
  - by apply verify_trusts_inv.
  - by apply update_my_peer_info_trusts.
  - by apply (same_trusts_inv A (with_trusts (delete k (group_trust_map s)) (delete k (group_trust_map_cache s)) s)),
      drop_trust_inv.
  - by eapply same_trusts_inv; [eapply update_peer_infos_trusts|].
  - by eapply same_trusts_inv; [eapply update_conn_info_trusts|].
  - by apply (same_trusts_inv A s).
  - eapply same_trusts_inv; [|exact Hi]. unfold update_my_conn_info. etrans; [apply (fill_empty_trusts now c)|].
    destruct (default _ _). by case_bool_decide.
  - eapply same_trusts_inv; [|exact Hi]. unfold update_my_foreign_network in H0. case_match; [done|].
    apply bind_Done in H0 as ([[stored fr] up] & _ & E). apply bind_Done in E as ([stored' up'] & _ & [= _ <-]).
    apply (inc_trusts up' (with_foreign stored' s)).
Qed.
End trusts.

(** C3.  Two nodes that have heard the same announcements (stored before or
    received since), in any order, any number of times and in any format, see
    the same infos and the same connection lists of all peers. *)
Theorem route_info_convergence `{RouteLib} (h : history) (me1 rid1 me2 rid2 : Z) (l1 l2 : list (Z * sync_msg))
    (s1 s2 s1' s2' : SyncedRouteInfo) (Hs1 : synced_true h s1) (Hs2 : synced_true h s2)
    (Hl1 : Forall (fun m => msg_true h m.2) l1) (Hl2 : Forall (fun m => msg_true h m.2) l2)
    (E1 : receive_all me1 rid1 l1 s1 = Done (Ok tt, s1')) (E2 : receive_all me2 rid2 l2 s2 = Done (Ok tt, s2'))
    (Hi : forall k v, heard_info s1 l1 k v <-> heard_info s2 l2 k v)
    (Hc : forall k v, heard_conn s1 l1 k v <-> heard_conn s2 l2 k v) :
  forall k, info_at k s1' = info_at k s2' /\ conn_at k s1' = conn_at k s2'.
Proof.
  intros k. eapply receive_all_newest in E1; [|by apply synced_true_newest|exact Hl1].
  eapply receive_all_newest in E2; [|by apply synced_true_newest|exact Hl2].
  eapply newest_unique; [|exact E2]. eapply newest_ext; [exact E1 | done | done | |]; intros k' v.
  - by rewrite !heard_info_app.
  - by rewrite !heard_conn_app.
Qed.

(** Whatever call changes the infos or the connections a node sees, the
    version grows, so that the route table is recomputed and its older entries
    lose; the version never goes down (short of 2^32). *)
Theorem route_change_bumps_version `{RouteLib, !IterOrder text bytes, !IterOrder ForeignKey ForeignEntry} (N : Z) (s s' : SyncedRouteInfo) (Hstep : synced_step N s s')
    (Hroom : 0 <= version s /\ version s + N < 2 ^ 32) :
  version s <= version s' <= version s + N /\ (version s' = version s -> same_view s s').
Proof.
  assert (0 <= N) as HN by (destruct Hstep; try lia; case_match; unfold len; lia).
  destruct (synced_step_moved N s s') as (n & Hn & E & Hs); [unfold in_width; lia | done|].
  rewrite wrap_small in E by (unfold in_width; lia). split; [lia|]. intros. apply Hs; [lia | done].
Qed.

(** C4.  In every reachable state, a peer is trusted as a member of a group only
    on a proof computed for that very peer with a secret that a configuration
    of this node declared for the group; and the lists of group names the access
    rules consult are the trusts: a peer has a list exactly when it has trusts, and a group is in
    the list exactly when the peer is trusted as its member. *)
Theorem trusted_groups_proved `{RouteLib, !IterOrder text bytes, !IterOrder ForeignKey ForeignEntry}
    (A : option Acl -> Prop) (me : PeerId) (s : SyncedRouteInfo) (Hr : rtc (trust_step A me) synced_new s) (p : PeerId) :
  (forall m n pr, group_trust_map s !! p = Some m -> m !! n = Some pr ->
     exists acl g, A acl /\ g ∈ get_acl_group_declarations acl /\ group_name g = n /\
       pr = hmac_sha256 (as_bytes (group_secret g)) (data_to_sign n p)) /\
  (is_Some (group_trust_map_cache s !! p) <-> is_Some (group_trust_map s !! p)) /\
  (forall l m, group_trust_map_cache s !! p = Some l -> group_trust_map s !! p = Some m -> forall n, n ∈ l <-> is_Some (m !! n)).
Proof.
  assert (trust_inv A s) as [P Q R].
  { revert Hr. apply (rtc_ind_r (trust_inv A)); [by split|]. intros y z _ Hyz Hy. by eapply trust_step_inv. }
  split_and!.
  - intros m n pr Em Hpr. destruct (P _ _ _ _ Em Hpr) as (acl & g & ? & ? & ? & ->). by exists acl, g.
  - destruct (group_trust_map s !! p) as [m|] eqn:Em.
    + destruct (Q p m Em) as (l & -> & _). by split.
    + rewrite (R _ Em). done.
  - intros l m El Em n. destruct (Q p m Em) as (l' & El' & Hd). rewrite El in El'. by injection El' as <-.
Qed.

(** An info older than the one stored is not kept, but the groups it
    claims replace the trusts won with the newer one: the trusts follow the last
    message, not the newest. *)
Theorem stale_info_replaces_groups `{RouteLib, !IterOrder text bytes} (now me rid from : Z) (info old : RoutePeerInfo)
    (raw : DynamicMessage) (decls : list GroupIdentity) (s : SyncedRouteInfo)
    (Hme : ri_peer_id info <> me) (Hfrom : ri_peer_id info <> from)
    (Hold : peer_infos s !! ri_peer_id info = Some old) (Hstale : ri_version info < ri_version old)
    (Hraw : raw_peer_id raw = Some (ri_peer_id info)) :
  exists s1, update_peer_infos now me rid from [info] [raw] s = Done (Ok tt, s1) /\
    let s2 := verify_and_update_group_trusts [info] decls s1 in
    peer_infos s2 = peer_infos s /\
    default ∅ (group_trust_map s2 !! ri_peer_id info) =
    verify_groups (declared_secrets decls) (group_trust_map s !! ri_peer_id info) info.
Proof.
  exists s. split.
  - unfold update_peer_infos. simpl. unfold check_duplicate_peer_id.
    rewrite (proj2 (Z.eqb_neq _ _) Hme), (proj2 (Z.eqb_neq _ _) Hfrom). simpl. rewrite Hraw. simpl.
    rewrite Z.eqb_refl. simpl. rewrite Hold. rewrite (proj2 (Z.ltb_ge _ _)); [done | simpl; lia].
  - split; [apply trusts_keep_tables|]. simpl. unfold update_group_trust. case_bool_decide as E.
    + rewrite E. destruct (group_trust_map s !! ri_peer_id info) eqn:Eg; simpl; [by rewrite lookup_delete_eq | by rewrite Eg].
    + simpl. by rewrite lookup_insert_eq.
Qed.

(** ** Examples *)

#[local] Instance sample_lib : RouteLib := {|
  to_time t := Some (seconds t * SEC + nanos t);
  of_time n := {| seconds := n / SEC; nanos := n mod SEC |};
  DynamicMessage := Z;
  raw_peer_id := Some;
  hmac_sha256 key data := key ++ [255] ++ data;
  EASYTIER_VERSION := []
|}.

Definition peer_info_with (k v : Z) (groups : list PeerGroupInfo) : RoutePeerInfo :=
  mkPeerInfo k None 0 None [] None 0 None v [] None k 24 None None groups.

(** Peers 1 and 2 are connected; one node hears of it in lists, another in a bitmap. *)
Definition pair_history : history := {|
  info_of k v := peer_info_with k v [];
  conn_of k v := if k =? 1 then {[2]} else {[1]}
|}.
Definition pair_infos : sync_msg := MsgInfos 9 [peer_info_with 1 1 []; peer_info_with 2 1 []] [1; 2].
Definition pair_list : sync_msg := MsgConn (ConnPeerList
  [ {| pci_peer_id := Some {| piv_peer_id := 1; piv_version := 1 |}; connected_peer_ids := [2] |};
    {| pci_peer_id := Some {| piv_peer_id := 2; piv_version := 1 |}; connected_peer_ids := [1] |} ]).
Definition pair_bitmap : sync_msg := MsgConn (ConnBitmap {|
  bm_peer_ids := [ {| piv_peer_id := 1; piv_version := 1 |}; {| piv_peer_id := 2; piv_version := 1 |} ];
  bitmap := [6] |}).

Lemma pair_told k v : tells_conn pair_list k v <-> tells_conn pair_bitmap k v.
Proof.
  simpl. split; intros [Hin Hv]; (split; [|done]).
  - destruct Hin as (c & Hc & E). repeat apply elem_of_cons in Hc as [->|Hc]; [simpl in E; simplify_eq; set_solver..|].
    by apply elem_of_nil in Hc.
  - repeat apply elem_of_cons in Hin as [E|Hin]; [eexists; split; [by left | by rewrite E] | eexists; split; [right; by left | by rewrite E] |].
    by apply elem_of_nil in Hin.
Qed.

Definition state_of (o : outcome (result SyncError unit * SyncedRouteInfo)) : SyncedRouteInfo :=
  match o with Done (_, s) => s | Panicked _ => synced_new end.
Definition is_ok (o : outcome (result SyncError unit * SyncedRouteInfo)) : bool :=
  match o with Done (Ok _, _) => true | _ => false end.
Lemma is_ok_state o : is_ok o = true -> o = Done (Ok tt, state_of o).
Proof. by destruct o as [[[[]|] ?]|]. Qed.

Definition told_in_lists : outcome (result SyncError unit * SyncedRouteInfo) :=
  receive_all 7 70 [(10, pair_infos); (20, pair_list)] synced_new.
Definition told_in_bitmap : outcome (result SyncError unit * SyncedRouteInfo) :=
  receive_all 8 80 [(30, pair_bitmap); (40, pair_infos); (50, pair_infos)] synced_new.

Lemma route_info_convergence_witness :
  info_at 1 (state_of told_in_lists) = Some (strip (peer_info_with 1 1 [])) /\
  info_at 1 (state_of told_in_lists) = info_at 1 (state_of told_in_bitmap) /\
  conn_at 1 (state_of told_in_lists) = conn_at 1 (state_of told_in_bitmap).
Proof.
  split; [vm_compute; reflexivity|].
  apply (route_info_convergence pair_history 7 70 8 80 [(10, pair_infos); (20, pair_list)]
           [(30, pair_bitmap); (40, pair_infos); (50, pair_infos)] synced_new synced_new).
  - split; simpl; intros *; by rewrite lookup_empty.
  - split; simpl; intros *; by rewrite lookup_empty.
  - apply Forall_cons_2; [by repeat constructor|]. apply Forall_cons_2; [|by apply Forall_nil_2].
    apply Forall_cons_2; [|apply Forall_cons_2; [|by apply Forall_nil_2]]; intros p [= <-]; (split; [done | reflexivity]).
  - apply Forall_cons_2; [|by repeat constructor]. intros n p c Hn Hc.
    destruct n as [|[|]]; simplify_eq/=; vm_compute in Hc; injection Hc as <-; (split; [done | reflexivity]).
  - apply is_ok_state. vm_compute; reflexivity.
  - apply is_ok_state. vm_compute; reflexivity.
  - intros k v. unfold heard_info. simpl. split; (intros [?|(m & Hm & Ht)]; [by left|]; right; exists pair_infos;
      repeat apply elem_of_cons in Hm as [->|Hm]; try done; try (by apply elem_of_nil in Hm);
      (split; [rewrite !elem_of_cons; tauto | done])).
  - intros k v. unfold heard_conn. simpl. split; (intros [?|(m & Hm & Ht)]; [by left|]; right);
      [exists pair_bitmap | exists pair_list];
      (repeat apply elem_of_cons in Hm as [->|Hm]; try done; try (by apply elem_of_nil in Hm);
       (split; [rewrite !elem_of_cons; tauto | by apply pair_told])).
Defined.

Lemma route_change_bumps_version_witness :
  let s := (update_my_conn_info 10 7 {[1]} synced_new).2 in
  (0 <= version s <= 2) /\ (version s = 0 -> same_view synced_new s) /\ version s = 2.
Proof.
  intros s. destruct (route_change_bumps_version 2 synced_new s) as [A B];
    [apply (step_my_conn _ 10 7 {[1]} (update_my_conn_info 10 7 {[1]} synced_new).1); by destruct (update_my_conn_info _ _ _ _) | done |].
  split; [exact A|]. split; [exact B|]. vm_compute. reflexivity.
Defined.

(** A message refused halfway: peer 3 is stored, the version stays. *)
Definition known_dst : SyncedRouteInfo :=
  mkSynced {[ 9 := peer_info_with 9 5 [] ]} ∅ ∅ ∅ ∅ ∅ 1.
Definition impostor : RoutePeerInfo := mkPeerInfo 9 None 0 None [] None 0 None 4 [] None 77 24 None None [].

Lemma refused_halfway :
  match update_peer_infos 10 7 70 9 [peer_info_with 3 1 []; impostor] [3; 9] known_dst with
  | Done (r, s) => r = Err DuplicatePeerId /\ version s = version known_dst /\
                   info_at 3 known_dst = None /\ info_at 3 s = Some (strip (peer_info_with 3 1 []))
  | Panicked _ => False
  end.
Proof. vm_compute. done. Qed.

(** A bitmap shorter than its list of peers stops the receiver. *)
Lemma short_bitmap_panics :
  update_conn_info 10 (ConnBitmap {| bm_peer_ids := [ {| piv_peer_id := 1; piv_version := 1 |} ]; bitmap := [] |})
    synced_new = Panicked IndexOutOfRange.
Proof. reflexivity. Qed.

(** Group "g" with secret "s"; peer 5 proves its membership. *)
Definition group_acl : option Acl := Some {| acl_v1 := Some {| chains := [];
  acl_group := Some {| declares := [ {| group_name := txt "g"; group_secret := txt "s" |} ]; members := [] |} |} |}.
Definition member5 : PeerGroupInfo := generate_with_proof (txt "g") (txt "s") 5.
Definition member_state : SyncedRouteInfo :=
  verify_and_update_group_trusts [peer_info_with 5 1 [member5]] (get_acl_group_declarations group_acl) synced_new.

Lemma trusted_groups_proved_witness :
  exists m pr g, group_trust_map member_state !! 5 = Some m /\ m !! txt "g" = Some pr /\
    g ∈ get_acl_group_declarations group_acl /\ pr = hmac_sha256 (as_bytes (group_secret g)) (data_to_sign (txt "g") 5) /\
    (txt "g" ∈ [txt "g"] <-> is_Some (m !! txt "g")).
Proof.
  assert (group_trust_map_cache member_state !! 5 = Some [txt "g"]) as El by (vm_compute; reflexivity).
  assert (rtc (trust_step (fun acl => acl = group_acl) 7) synced_new member_state) as Hr by (apply rtc_once, ts_verify; reflexivity).
  destruct (trusted_groups_proved (fun acl => acl = group_acl) 7 member_state Hr 5) as (Hp & Hs & Hc).
  destruct (proj1 Hs (ex_intro _ _ El)) as [m Em]. specialize (Hc _ _ El Em (txt "g")).
  destruct (proj1 Hc) as [pr Epr]; [by left|]. destruct (Hp m (txt "g") pr Em Epr) as (acl & g & -> & Hg & _ & E).
  by exists m, pr, g.
Defined.

(** Peer 5 left the group at version 2; a late copy of version 1 brings it back. *)
Definition left_state : SyncedRouteInfo := mkSynced {[ 5 := peer_info_with 5 2 [] ]} ∅ ∅ ∅ ∅ ∅ 1.

Lemma stale_info_replaces_groups_witness :
  group_trust_map left_state !! 5 = None /\
  exists s1, update_peer_infos 10 7 70 9 [peer_info_with 5 1 [member5]] [5] left_state = Done (Ok tt, s1) /\
    let s2 := verify_and_update_group_trusts [peer_info_with 5 1 [member5]] (get_acl_group_declarations group_acl) s1 in
    peer_infos s2 = peer_infos left_state /\
    default ∅ (group_trust_map s2 !! 5) !! txt "g" = Some (pg_proof member5).
Proof.
  split; [reflexivity|].
  destruct (stale_info_replaces_groups 10 7 70 9 (peer_info_with 5 1 [member5]) (peer_info_with 5 2 []) (5 : @DynamicMessage sample_lib)
    (get_acl_group_declarations group_acl) left_state) as (s1 & E & A & B); try done.
  exists s1. split; [exact E|]. split; [exact A|]. etrans; [apply (f_equal (.!! txt "g")), B|]. vm_compute. reflexivity.
Defined.
