(* ===== verification/RouteTable.v ===== *)
(** Next hops and address lookup: [RouteTable] of
    [easytier/src/peers/peer_ospf_route.rs].

    From what a node knows ([SyncedRoute]) it builds a graph of peers, runs the
    shortest-path search of [GraphAlgo] and stores, for every peer it can reach,
    the next hop, and for every address the peer that owns it.  Entries carry the
    version of the tables they were computed from; an entry with an older
    version than the table's is ignored.

    [petgraph]'s graph is a list of nodes and a list of edges; the order in which
    it lists the edges of a node and its own [dijkstra] are the class [PetGraph],
    [prefix_trie]'s longest-prefix match is the class [PrefixTrie].

    The theorems: for the least-cost policy the next hop lies on a cheapest path,
    for the least-hop policy on a cheapest of the paths with the fewest hops
    (avoided relays counting as very long), exactly the reachable peers have a
    next hop, and building never panics; an address leads to the closest of the
    peers that announce it; an address a peer no longer announces keeps leading
    to it. *)

From stdpp Require Import base numbers list gmap strings.
From S2P Require Import Prelude Text GraphAlgo AclRules SyncedRoute.
Open Scope Z_scope.

(** ** Graphs *)

Record Edge := mkEdge { e_src : nat; e_tgt : nat; e_weight : Z }.
Record PeerGraph := { node_weights : list PeerId; edge_list : list Edge }.

Definition graph_new : PeerGraph := {| node_weights := []; edge_list := [] |}.
Definition add_node (p : PeerId) (g : PeerGraph) : PeerGraph :=
  {| node_weights := node_weights g ++ [p]; edge_list := edge_list g |}.
Definition add_edge (a b : nat) (w : Z) (g : PeerGraph) : PeerGraph :=
  {| node_weights := node_weights g; edge_list := edge_list g ++ [mkEdge a b w] |}.
Definition node_count (g : PeerGraph) : nat := length (node_weights g).

(** [graph.edges(n)] lists the outgoing edges of [n] in some order;
    [dijkstra(graph, start, None, cost)] of petgraph. *)
Class PetGraph := {
  edges_of : PeerGraph -> nat -> list Edge;
  edges_of_perm : forall g n, edges_of g n ≡ₚ base.filter (fun e => e_src e = n) (edge_list g);
  petgraph_dijkstra : PeerGraph -> nat -> (Edge -> Z) -> gmap nat Z
}.

Definition AVOID_RELAY_COST : Z := 2 ^ 31 - 1.

(** ** The table *)

Inductive NextHopPolicy := LeastHop | LeastCost.

Record NextHopInfo := {
  next_hop_peer_id : PeerId; path_latency : Z; path_len : Z; nh_version : Z
}.
Record PeerIdAndVersion := { pv_peer_id : PeerId; pv_version : Z }.

(** Address ranges: network address and prefix length. *)
Abbreviation Cidr := (Z * Z)%type.
Inductive ParsedCidr := CidrV4 (c : Cidr) | CidrV6 (c : Cidr).

(** Parsing of [IpCidr] and [PrefixMap::get_lpm]. *)
Class PrefixTrie := {
  parse_cidr : text -> option ParsedCidr;
  get_lpm : gmap Cidr PeerIdAndVersion -> Cidr -> option (Cidr * PeerIdAndVersion)
}.

Record RouteTable := mkTable {
  rt_peer_infos : gmap PeerId RoutePeerInfo;
  next_hop_map : gmap PeerId NextHopInfo;
  ipv4_peer_id_map : gmap Z PeerIdAndVersion;
  ipv6_peer_id_map : gmap Z PeerIdAndVersion;
  cidr_peer_id_map : gmap Cidr PeerIdAndVersion;
  cidr_v6_peer_id_map : gmap Cidr PeerIdAndVersion;
  next_hop_map_version : Z
}.

Definition route_table_new : RouteTable := mkTable ∅ ∅ ∅ ∅ ∅ ∅ 0.

Definition with_next_hops m v t := mkTable (rt_peer_infos t) m (ipv4_peer_id_map t) (ipv6_peer_id_map t)
  (cidr_peer_id_map t) (cidr_v6_peer_id_map t) v.

Definition get_next_hop (dst : PeerId) (t : RouteTable) : option NextHopInfo :=
  match next_hop_map t !! dst with
  | Some x => if next_hop_map_version t <=? nh_version x then Some x else None
  | None => None
  end.

Definition peer_reachable (p : PeerId) (t : RouteTable) : bool := bool_decide (is_Some (get_next_hop p t)).

(** [NatType::try_from(x).unwrap_or_default()]: the ten values of the enum. *)
Definition get_nat_type (p : PeerId) (t : RouteTable) : option Z :=
  (fun i => if (0 <=? ri_udp_stun_info i) && (ri_udp_stun_info i <=? 9) then ri_udp_stun_info i else 0)
    <$> rt_peer_infos t !! p.

Section table.
Context `{RouteLib, PetGraph, PrefixTrie, !BinaryHeap (@min_scored_cmp Z nat _)}.
Context `{!IterOrder PeerId RoutePeerInfo, !IterOrder PeerId nat, !IterOrder nat (nat * Z),
          !IterOrder PeerId NextHopInfo}.
(** [RouteCostCalculatorInterface::calculate_cost], an [i32]. *)
Context (calculate_cost : PeerId -> PeerId -> Z).

(** *** The graph of peers *)

Definition graph_nodes (s : SyncedRouteInfo) : list PeerId :=
  (base.filter (fun kv => ri_version kv.2 <> 0) (map_iter (peer_infos s))).*1.

Definition node_indices (ps : list PeerId) : gmap PeerId nat := list_to_map (zip ps (seq 0 (length ps))).

(** [BTreeSet] iteration is in increasing order. *)
Definition ascending (c : gset PeerId) : list PeerId := stable_sort Z.leb (elements c).

Definition edge_cost (s : SyncedRouteInfo) (src dst : PeerId) : Z :=
  let cost := as_usize (calculate_cost src dst) in
  if get_avoid_relay_data src s then as_usize (cost + AVOID_RELAY_COST) else cost.

Definition add_peer_edges (s : SyncedRouteInfo) (idx : gmap PeerId nat) (g : PeerGraph) (item : PeerId * nat)
    : PeerGraph :=
  let '(src, src_idx) := item in
  foldl (fun g dst => match idx !! dst with
                      | Some dst_idx => add_edge src_idx dst_idx (edge_cost s src dst) g
                      | None => g
                      end) g (ascending (default ∅ (get_connected_peers src s))).

(** The start node is [None] when our own info is missing ([NodeIndex::end()]). *)
Definition build_peer_graph_from_synced_info (my_peer_id : PeerId) (s : SyncedRouteInfo)
    : PeerGraph * option nat :=
  let ps := graph_nodes s in
  let g := foldl (fun g p => add_node p g) graph_new ps in
  let idx := node_indices ps in
  match idx !! my_peer_id with
  | None => (g, None)
  | Some start => (foldl (add_peer_edges s idx) g (map_iter idx), Some start)
  end.

(** *** Next hops *)

Definition dijkstra_fuel (g : PeerGraph) : nat := 2 + length (edge_list g).

Definition store_next_hop (g : PeerGraph) (costs : gmap nat Z) (v : Z) (m : gmap PeerId NextHopInfo)
    (item : nat * (nat * Z)) : outcome (gmap PeerId NextHopInfo) :=
  let '(dst, (next_hop, n)) := item in
  hop ← unwrap (node_weights g !! next_hop);
  cost ← unwrap (costs !! dst);
  let info := {| next_hop_peer_id := hop; path_latency := cost mod AVOID_RELAY_COST; path_len := n; nh_version := v |} in
  dst_peer_id ← unwrap (node_weights g !! dst);
  Done (upsert dst_peer_id (fun x => if nh_version x <? v then info else x) info m).

Fixpoint store_next_hops (g : PeerGraph) (costs : gmap nat Z) (v : Z) (l : list (nat * (nat * Z)))
    (m : gmap PeerId NextHopInfo) : outcome (gmap PeerId NextHopInfo) :=
  match l with
  | [] => Done m
  | item :: l => m ← store_next_hop g costs v m item; store_next_hops g costs v l m
  end.

Definition gen_next_hop_map_with_least_cost (g : PeerGraph) (start : nat) (v : Z) (t : RouteTable)
    : outcome RouteTable :=
  '(costs, next_hops) ← dijkstra_with_first_hop (edges_of g) e_tgt e_weight start (dijkstra_fuel g);
  m ← store_next_hops g costs v (map_iter next_hops) (next_hop_map t);
  Done (with_next_hops m (version_set_if_larger v (next_hop_map_version t)).2 t).

Definition normalize_edge_cost (e : Edge) : Z :=
  if AVOID_RELAY_COST <=? e_weight e then AVOID_RELAY_COST + 1 else 1.

(** The edges on a path with the fewest hops. *)
Definition on_shortest (lens : gmap nat Z) (e : Edge) : bool :=
  match lens !! e_src e, lens !! e_tgt e with
  | Some a, Some b => as_usize (a + normalize_edge_cost e) =? b
  | _, _ => false
  end.

Definition gen_next_hop_map_with_least_hop (g : PeerGraph) (start : nat) (v : Z) (t : RouteTable)
    : outcome RouteTable :=
  let path_len_map := petgraph_dijkstra g start normalize_edge_cost in
  let subgraph := {| node_weights := node_weights g;
                     edge_list := base.filter (fun e => on_shortest path_len_map e = true) (edge_list g) |} in
  start' ← unwrap (if (start <? node_count g)%nat then Some start else None);
  gen_next_hop_map_with_least_cost subgraph start' v t.

(** *** Addresses *)

Definition is_new_peer_better (t : RouteTable) (new : PeerIdAndVersion) (new_hop : NextHopInfo)
    (old : PeerIdAndVersion) : bool :=
  if pv_version old <? pv_version new then true
  else if pv_peer_id new =? pv_peer_id old then false
  else match get_next_hop (pv_peer_id old) t with
       | None => true
       | Some old_hop => path_len new_hop <? path_len old_hop
       end.

Definition put_addr {K} `{Countable K} (better : PeerIdAndVersion -> bool) (new : PeerIdAndVersion) (k : K)
    (m : gmap K PeerIdAndVersion) : gmap K PeerIdAndVersion :=
  upsert k (fun old => if better old then new else old) new m.

Definition put_cidr (my_peer_id : PeerId) (better : PeerIdAndVersion -> bool) (new : PeerIdAndVersion)
    (tries : gmap Cidr PeerIdAndVersion * gmap Cidr PeerIdAndVersion) (cidr : text)
    : gmap Cidr PeerIdAndVersion * gmap Cidr PeerIdAndVersion :=
  let better old := (pv_peer_id new =? my_peer_id) || better old in
  match parse_cidr cidr with
  | Some (CidrV4 c) => (put_addr better new c tries.1, tries.2)
  | Some (CidrV6 c) => (tries.1, put_addr better new c tries.2)
  | None => tries
  end.

(** The infos, addresses and ranges of one reachable peer. *)
Definition store_peer (my_peer_id : PeerId) (s : SyncedRouteInfo) (v : Z)
    (acc : RouteTable * (gmap Cidr PeerIdAndVersion * gmap Cidr PeerIdAndVersion)) (item : PeerId * NextHopInfo)
    : RouteTable * (gmap Cidr PeerIdAndVersion * gmap Cidr PeerIdAndVersion) :=
  let '(t, tries) := acc in
  let '(peer_id, hop) := item in
  if nh_version hop <? v then acc
  else
    match peer_infos s !! peer_id with
    | None => acc
    | Some info =>
        let new := {| pv_peer_id := peer_id; pv_version := v |} in
        let better := is_new_peer_better t new hop in
        let ipv4 := match ri_ipv4_addr info with
                    | Some a => put_addr better new a (ipv4_peer_id_map t)
                    | None => ipv4_peer_id_map t
                    end in
        let ipv6 := match a ← ri_ipv6_addr info; inet6_address a with
                    | Some a => put_addr better new a (ipv6_peer_id_map t)
                    | None => ipv6_peer_id_map t
                    end in
        (mkTable (<[peer_id := info]> (rt_peer_infos t)) (next_hop_map t) ipv4 ipv6 (cidr_peer_id_map t)
           (cidr_v6_peer_id_map t) (next_hop_map_version t),
         foldl (put_cidr my_peer_id better new) tries (ri_proxy_cidrs info))
    end.

Definition build_from_synced_info (my_peer_id : PeerId) (s : SyncedRouteInfo) (policy : NextHopPolicy)
    (t : RouteTable) : outcome RouteTable :=
  let v := version s in
  let '(g, start) := build_peer_graph_from_synced_info my_peer_id s in
  if (node_count g =? 0)%nat then Done t
  else
    start ← unwrap start;
    t ← (match policy with
         | LeastHop => gen_next_hop_map_with_least_hop g start v t
         | LeastCost => gen_next_hop_map_with_least_cost g start v t
         end);
    let '(t, (trie, trie6)) := foldl (store_peer my_peer_id s v) (t, (∅, ∅)) (map_iter (next_hop_map t)) in
    Done (mkTable (rt_peer_infos t) (next_hop_map t) (ipv4_peer_id_map t) (ipv6_peer_id_map t) trie trie6
            (next_hop_map_version t)).

Definition get_peer_id_for_proxy (ip : IpAddr) (t : RouteTable) : option PeerId :=
  match ip with
  | V4 a => (fun x => pv_peer_id x.2) <$> get_lpm (cidr_peer_id_map t) (a, 32)
  | V6 a => (fun x => pv_peer_id x.2) <$> get_lpm (cidr_v6_peer_id_map t) (a, 128)
  end.

Definition clean_expired_route_info (t : RouteTable) : RouteTable :=
  let hops := retain (fun _ x => next_hop_map_version t <=? nh_version x) (next_hop_map t) in
  let known p := bool_decide (is_Some (hops !! p)) in
  mkTable (retain (fun k _ => known k) (rt_peer_infos t)) hops
    (retain (fun _ x => known (pv_peer_id x)) (ipv4_peer_id_map t))
    (retain (fun _ x => known (pv_peer_id x)) (ipv6_peer_id_map t))
    (cidr_peer_id_map t) (cidr_v6_peer_id_map t) (next_hop_map_version t).

(** [PeerRoute::get_peer_id_by_ipv4] and [get_peer_id_by_ipv6]; [same_network]
    is [GlobalCtx::is_ip_in_same_network]. *)
Definition get_peer_id_by_ip (same_network : bool) (ip : IpAddr) (t : RouteTable) : option PeerId :=
  match (match ip with V4 a => ipv4_peer_id_map t !! a | V6 a => ipv6_peer_id_map t !! a end) with
  | Some p => Some (pv_peer_id p)
  | None => if same_network then None else get_peer_id_for_proxy ip t
  end.
End table.

(** ** Paths between peers *)

(** A path from [p] is the list of the peers after [p]. *)
Definition end_of (p : PeerId) (l : list PeerId) : PeerId := default p (last l).

Lemma end_of_snoc p l q : end_of p (l ++ [q]) = q.
Proof. unfold end_of. by rewrite last_snoc. Qed.

Lemma end_of_cons p q l : end_of p (q :: l) = end_of q l.
Proof. unfold end_of. rewrite last_cons. by destruct (last l). Qed.

Section links.
Context (L : PeerId -> PeerId -> Prop).

Fixpoint linked (p : PeerId) (l : list PeerId) : Prop :=
  match l with [] => True | q :: l => L p q /\ linked q l end.

Lemma linked_snoc p l q : linked p (l ++ [q]) <-> linked p l /\ L (end_of p l) q.
Proof.
  revert p. induction l as [|r l IH]; intros p; simpl; [unfold end_of; simpl; tauto|].
  rewrite IH, end_of_cons. tauto.
Qed.
End links.

Section sums.
Context (w : PeerId -> PeerId -> Z).

Fixpoint path_sum (p : PeerId) (l : list PeerId) : Z :=
  match l with [] => 0 | q :: l => w p q + path_sum q l end.

Lemma path_sum_snoc p l q : path_sum p (l ++ [q]) = path_sum p l + w (end_of p l) q.
Proof.
  revert p. induction l as [|r l IH]; intros p; simpl; [unfold end_of; simpl; lia|].
  rewrite IH, end_of_cons. lia.
Qed.
End sums.

Lemma elem_of_edges_of `{PetGraph} g n e : e ∈ edges_of g n <-> e ∈ edge_list g /\ e_src e = n.
Proof. rewrite edges_of_perm, list_elem_of_filter. tauto. Qed.

(** A graph represents the links [L]: its nodes are [ps], its edges the links
    between them, with weights [w]. *)
Section representation.
Context `{PetGraph}.
Context (g : PeerGraph) (L : PeerId -> PeerId -> Prop) (w : PeerId -> PeerId -> Z).

Record represents : Prop := {
  rep_nodup : NoDup (node_weights g);
  rep_sound : forall e, e ∈ edge_list g -> exists a b,
    node_weights g !! e_src e = Some a /\ node_weights g !! e_tgt e = Some b /\ L a b /\ e_weight e = w a b;
  rep_complete : forall a b i, L a b -> node_weights g !! i = Some a ->
    exists j, node_weights g !! j = Some b /\ mkEdge i j (w a b) ∈ edge_list g
}.

Lemma node_inj i j p : represents -> node_weights g !! i = Some p -> node_weights g !! j = Some p -> i = j.
Proof. intros Hrep. apply NoDup_lookup, Hrep. Qed.

Context (Hrep : represents) (f : Z -> Z) (start : nat) (me : PeerId) (Hme : node_weights g !! start = Some me).

Abbreviation the_walk := (walk (edges_of g) e_tgt (fun e => f (e_weight e)) start).
Abbreviation the_walk_via := (walk_via (edges_of g) e_tgt (fun e => f (e_weight e)) start).
Abbreviation cost l := (path_sum (fun a b => f (w a b)) me l).

Lemma walk_path n c k : the_walk n c k ->
  exists l, linked L me l /\ node_weights g !! n = Some (end_of me l) /\ c = cost l /\ k = len l.
Proof.
  induction 1 as [|n c k e Hw (l & Hl & Hn & -> & ->) He]; [by exists []|].
  apply elem_of_edges_of in He as [He <-]. destruct (rep_sound Hrep e He) as (a & b & Ha & Hb & HL & Hwt).
  rewrite Hn in Ha. injection Ha as <-. exists (l ++ [b]).
  rewrite linked_snoc, end_of_snoc, path_sum_snoc, len_app, Hwt. by split_and!.
Qed.

Lemma walk_via_path h n c k : the_walk_via h n c k ->
  exists q l, linked L me (q :: l) /\ node_weights g !! h = Some q /\
    node_weights g !! n = Some (end_of me (q :: l)) /\ c = cost (q :: l) /\ k = len (q :: l).
Proof.
  induction 1 as [e He|h n c k e Hw (q & l & Hl & Hh & Hn & -> & ->) He].
  - apply elem_of_edges_of in He as [He Hs]. destruct (rep_sound Hrep e He) as (a & b & Ha & Hb & HL & Hwt).
    rewrite Hs in Ha. simplify_eq. exists b, []. simpl. rewrite Hwt. repeat split; try done. lia.
  - apply elem_of_edges_of in He as [He <-]. destruct (rep_sound Hrep e He) as (a & b & Ha & Hb & HL & Hwt).
    rewrite Hn in Ha. injection Ha as <-. exists q, (l ++ [b]).
    rewrite app_comm_cons, linked_snoc, end_of_snoc, path_sum_snoc, len_app, Hwt. by split_and!.
Qed.

Lemma path_walk l : linked L me l -> exists n, node_weights g !! n = Some (end_of me l) /\ the_walk n (cost l) (len l).
Proof.
  induction l as [|q l IH] using rev_ind; intros Hl; [exists start; split; [done | constructor]|].
  apply linked_snoc in Hl as [Hl HL]. destruct (IH Hl) as (n & Hn & Hw).
  destruct (rep_complete Hrep _ _ n HL Hn) as (j & Hj & He). exists j. rewrite end_of_snoc. split; [done|].
  rewrite path_sum_snoc, len_app. change (len [q]) with 1.
  apply (walk_snoc _ _ _ _ n _ _ (mkEdge n j (w (end_of me l) q)) Hw), elem_of_edges_of. done.
Qed.
End representation.

Lemma edges_count `{PetGraph} g (l : list nat) : NoDup l -> (length (l ≫= edges_of g) <= length (edge_list g))%nat.
Proof.
  assert (forall l E, NoDup l ->
    (length (l ≫= (fun n => base.filter (fun e => e_src e = n) E)) <= length E)%nat) as Hl.
  { clear l. induction l as [|n l IH]; intros E; simpl; [lia|]. intros [Hn Hnd]%NoDup_cons.
    rewrite length_app. specialize (IH (base.filter (fun e => e_src e <> n) E) Hnd).
    assert (length (base.filter (fun e => e_src e = n) E) + length (base.filter (fun e => e_src e <> n) E) = length E)%nat
      as <-.
    { clear. induction E as [|e E IH]; simpl; [done|]. rewrite !filter_cons.
      repeat case_decide; simpl; try done; lia. }
    apply Nat.add_le_mono_l. etrans; [|exact IH]. apply Nat.eq_le_incl. f_equal. apply Forall_bind_ext.
    apply Forall_forall. intros m Hm. symmetry. apply list_filter_filter_l. intros e -> ->. done. }
  intros Hnd. etrans; [|by apply (Hl l (edge_list g))]. apply Nat.eq_le_incl.
  clear. induction l as [|n l IH]; [done|]. rewrite !bind_cons, !length_app, IH. f_equal. by rewrite edges_of_perm.
Qed.

(** ** What the next hops promise *)

(** [i] is a route from [me] to [dst] along [l]. *)
Record route_along (w : PeerId -> PeerId -> Z) (me dst : PeerId) (i : NextHopInfo) (l : list PeerId) : Prop := {
  ra_end : end_of me l = dst;
  ra_hop : next_hop_peer_id i = default me (head l);
  ra_len : path_len i = len l;
  ra_latency : path_latency i = path_sum w me l mod AVOID_RELAY_COST
}.

Definition cheapest (L : PeerId -> PeerId -> Prop) (w : PeerId -> PeerId -> Z) (me dst : PeerId) (l : list PeerId) : Prop :=
  linked L me l /\ forall l', linked L me l' -> end_of me l' = dst -> path_sum w me l <= path_sum w me l'.

Definition routes (L : PeerId -> PeerId -> Prop) (w : PeerId -> PeerId -> Z) (me : PeerId) (t : RouteTable) : Prop :=
  forall dst, match get_next_hop dst t with
              | Some i => exists l, route_along w me dst i l /\ cheapest L w me dst l
              | None => forall l, linked L me l -> end_of me l <> dst
              end.

(** We reach ourselves without a hop. *)
Definition own_route (me : PeerId) (t : RouteTable) : Prop :=
  exists i, get_next_hop me t = Some i /\ path_len i = 0.

(** Everything in the table was computed from an older version. *)
Definition outdated (v : Z) (t : RouteTable) : Prop :=
  next_hop_map_version t <= v /\ forall p x, next_hop_map t !! p = Some x -> nh_version x < v.

Lemma store_next_hops_spec g costs v l : forall m,
  NoDup (node_weights g) -> NoDup l.*1 ->
  (forall dst h n, (dst, (h, n)) ∈ l -> is_Some (node_weights g !! h) /\ is_Some (costs !! dst) /\
     exists p, node_weights g !! dst = Some p /\ forall x, m !! p = Some x -> nh_version x < v) ->
  exists m', store_next_hops g costs v l m = Done m' /\
    (forall dst h n p q c, (dst, (h, n)) ∈ l -> node_weights g !! dst = Some p -> node_weights g !! h = Some q ->
       costs !! dst = Some c -> m' !! p =
         Some {| next_hop_peer_id := q; path_latency := c mod AVOID_RELAY_COST; path_len := n; nh_version := v |}) /\
    (forall p, (forall dst, dst ∈ l.*1 -> node_weights g !! dst <> Some p) -> m' !! p = m !! p).
Proof.
  induction l as [|[dst [h n]] l IH]; intros m Hnd Hl Hm.
  { exists m. split_and!; [done | by intros ? ? ? ? ? ? ?%elem_of_nil | done]. }
  simpl in Hl. apply NoDup_cons in Hl as [Hdst Hl]. cbn [store_next_hops].
  destruct (Hm dst h n) as ([q Hq] & [c Hc] & p & Hp & Hv); [by left|].
  unfold store_next_hop. rewrite Hq, Hc, Hp. cbn [unwrap mbind outcome_bind].
  set (i := {| next_hop_peer_id := q; path_latency := _; path_len := n; nh_version := v |}).
  assert (upsert p (fun x => if nh_version x <? v then i else x) i m = <[p := i]> m) as ->.
  { unfold upsert. f_equal. destruct (m !! p) as [x|] eqn:Ex; [|done].
    by rewrite (proj2 (Z.ltb_lt _ _) (Hv x eq_refl)). }
  destruct (IH (<[p := i]> m) Hnd Hl) as (m' & E & Hin & Hout).
  { intros dst' h' n' Hin. destruct (Hm dst' h' n') as (? & ? & p' & Hp' & Hv'); [by right|].
    split; [done|]. split; [done|]. exists p'. split; [done|]. rewrite lookup_insert_ne; [done|]. intros ->.
    apply Hdst. apply list_elem_of_fmap. exists (dst', (h', n')). split; [|done]. simpl.
    eapply NoDup_lookup; [exact Hnd | exact Hp | exact Hp']. }
  exists m'. split; [done|]. split.
  - intros dst' h' n' p' q' c' [[= -> -> ->]|Hin']%elem_of_cons ? ? ?; simplify_eq.
    + rewrite Hout; [by rewrite lookup_insert_eq|]. intros dst' Hd Hp'. assert (dst' = dst) as ->; [|done].
      eapply NoDup_lookup; [exact Hnd | exact Hp' | done].
    + by eapply Hin.
  - intros p' Hp'. simpl in Hp'. rewrite Hout by (intros d Hd; apply Hp'; by right).
    rewrite lookup_insert_ne; [done|]. intros ->. by apply (Hp' dst); [left|].
Qed.

Lemma dijkstra_any `{PetGraph, !BinaryHeap (@min_scored_cmp Z nat _)} g start cost W :
  (start < node_count g)%nat ->
  (forall e, e ∈ edge_list g -> (e_tgt e < node_count g)%nat /\ 0 <= cost e <= W) ->
  Z.of_nat (node_count g) * Z.max 1 W < 2 ^ 64 ->
  exists sc fh, dijkstra_with_first_hop (edges_of g) e_tgt cost start (dijkstra_fuel g) = Done (sc, fh) /\
    dijkstra_result_spec (edges_of g) e_tgt cost start (set_seq 0 (node_count g)) W sc fh.
Proof.
  intros Hs He Hsz. apply dijkstra_correct.
  - apply elem_of_set_seq. lia.
  - intros u e _ [Hin _]%elem_of_edges_of. apply He in Hin as [? _]. apply elem_of_set_seq. lia.
  - intros u e [Hin _]%elem_of_edges_of. by apply He.
  - by rewrite size_set_seq.
  - unfold pending_edges, dijkstra_fuel.
    pose proof (edges_count g (elements (set_seq 0 (node_count g) : gset nat)) (NoDup_elements _)). lia.
Qed.

Section least_cost.
Context `{PetGraph, !BinaryHeap (@min_scored_cmp Z nat _), !IterOrder nat (nat * Z)}.
Context (g : PeerGraph) (L : PeerId -> PeerId -> Prop) (w : PeerId -> PeerId -> Z) (start : nat) (me : PeerId) (W : Z).
Context (Hrep : represents g L w) (Hme : node_weights g !! start = Some me).
Context (Hw : forall a b, L a b -> 0 <= w a b <= W) (Hsize : Z.of_nat (node_count g) * Z.max 1 W < 2 ^ 64).

Abbreviation hop_spec := (dijkstra_result_spec (edges_of g) e_tgt e_weight start (set_seq 0 (node_count g)) W).

Lemma path_sum_nonneg p l : linked L p l -> 0 <= path_sum w p l.
Proof.
  revert p. induction l as [|q l IH]; intros p; simpl; [lia|]. intros [HL Hl]. apply Hw in HL. specialize (IH q Hl). lia.
Qed.

Lemma dijkstra_on_graph : exists sc fh,
  dijkstra_with_first_hop (edges_of g) e_tgt e_weight start (dijkstra_fuel g) = Done (sc, fh) /\ hop_spec sc fh.
Proof.
  apply dijkstra_any; [by eapply lookup_lt_Some | | done].
  intros e He. destruct (rep_sound _ _ _ Hrep e He) as (a & b & _ & Hb%lookup_lt_Some & HL & ->). by split; [|apply Hw].
Qed.

Lemma hop_route sc fh n h k p : hop_spec sc fh -> fh !! n = Some (h, k) -> node_weights g !! n = Some p ->
  exists q c l, node_weights g !! h = Some q /\ sc !! n = Some c /\ c = path_sum w me l /\
    k = len l /\ q = default me (head l) /\ end_of me l = p /\ cheapest L w me p l.
Proof.
  intros Hs Hf Hp.
  assert (exists c, sc !! n = Some c) as [c Hc] by (apply (spec_dom _ _ _ _ _ _ _ _ Hs); eauto).
  pose proof (proj1 (spec_scores _ _ _ _ _ _ _ _ Hs n c) Hc) as [_ Hmin].
  assert (forall l', linked L me l' -> end_of me l' = p -> c <= path_sum w me l') as Hle.
  { intros l' Hl' He. destruct (path_walk g L w Hrep (fun x => x) start me Hme l' Hl') as (n' & Hn' & Hwk).
    assert (n' = n) as -> by (eapply (node_inj g L w); [exact Hrep | exact Hn' | by rewrite He]). by apply Hmin in Hwk. }
  destruct (decide (n = start)) as [->|Hne].
  - rewrite (spec_start _ _ _ _ _ _ _ _ Hs) in Hf. injection Hf as <- <-. rewrite Hme in Hp. injection Hp as <-.
    exists me, c, []. assert (0 <= c) as Hc0.
    { destruct (proj1 (spec_scores _ _ _ _ _ _ _ _ Hs start c) Hc) as [[k Hwk] _].
      destruct (walk_path g L w Hrep (fun x => x) start me Hme _ _ _ Hwk) as (l & Hl & _ & -> & _).
      by apply (path_sum_nonneg me l). }
    specialize (Hle [] I eq_refl). simpl in Hle. assert (c = 0) as -> by lia.
    split_and!; try done. split; [done|]. intros l' Hl' _. by apply path_sum_nonneg.
  - destruct (spec_hop _ _ _ _ _ _ _ _ Hs n h k Hne Hf) as (d & Hd & Hvia).
    apply (spec_scores _ _ _ _ _ _ _ _ Hs) in Hd. rewrite Hc in Hd. injection Hd as <-.
    destruct (walk_via_path g L w Hrep (fun x => x) start me Hme _ _ _ _ Hvia) as (q & l & Hl & Hh & Hn & Ec & Ek).
    exists q, c, (q :: l). rewrite Hp in Hn. injection Hn as ->.
    split_and!; try done. split; [done|]. intros l' Hl' He. change (c = path_sum w me (q :: l)) in Ec. rewrite <- Ec.
    by apply Hle.
Qed.

Lemma least_cost_ok v t : outdated v t ->
  exists m, gen_next_hop_map_with_least_cost g start v t = Done (with_next_hops m v t) /\
    routes L w me (with_next_hops m v t) /\ own_route me (with_next_hops m v t).
Proof.
  intros [Hv Hold]. destruct dijkstra_on_graph as (sc & fh & Hrun & Hs).
  assert (forall n h k, fh !! n = Some (h, k) -> is_Some (node_weights g !! n)) as Hnode.
  { intros n h k Hf. assert (exists c, sc !! n = Some c) as [c Hc] by (apply (spec_dom _ _ _ _ _ _ _ _ Hs); eauto).
    apply (spec_scores _ _ _ _ _ _ _ _ Hs) in Hc as [[j Hwk] _].
    destruct (walk_path g L w Hrep (fun x => x) start me Hme _ _ _ Hwk) as (l & _ & -> & _). by eexists. }
  destruct (store_next_hops_spec g sc v (map_iter fh) (next_hop_map t)) as (m & Em & Hin & Hout).
  { apply Hrep. }
  { rewrite map_iter_perm. apply NoDup_fst_map_to_list. }
  { intros n h k Hf%elem_of_map_iter. destruct (Hnode _ _ _ Hf) as [p Hp].
    destruct (hop_route sc fh n h k p Hs Hf Hp) as (q & c & l & Hq & Hc & _). split_and!; [by eexists.. |].
    exists p. split; [done | apply Hold]. }
  exists m. unfold gen_next_hop_map_with_least_cost. rewrite Hrun. cbn [mbind outcome_bind]. rewrite Em.
  cbn [mbind outcome_bind version_set_if_larger snd]. rewrite Z.max_r by done. split; [done|]. split.
  2: { pose proof (spec_start _ _ _ _ _ _ _ _ Hs) as Hf.
    destruct (hop_route sc fh start start 0 me Hs Hf Hme) as (q & c & l & Hq & Hc & _).
    eexists. unfold get_next_hop; simpl. rewrite (Hin start start 0 me q c); try done; [|by apply elem_of_map_iter].
    simpl. by rewrite Z.leb_refl. }
  intros p. unfold get_next_hop; simpl.
  assert ((exists n h k, fh !! n = Some (h, k) /\ node_weights g !! n = Some p) \/
          (forall n, n ∈ (map_iter fh).*1 -> node_weights g !! n <> Some p)) as [(n & h & k & Hf & Hp)|Hno].
  { destruct (decide (p ∈ node_weights g)) as [[n Hn]%list_elem_of_lookup|Hnp].
    - destruct (fh !! n) as [[h k]|] eqn:Hf; [by left; exists n, h, k|]. right. intros n' Hn' Hp'.
      assert (n' = n) as -> by (by eapply (node_inj g L w)).
      apply list_elem_of_fmap in Hn' as ([? [h k]] & -> & Hk%elem_of_map_iter). simpl in Hf. congruence.
    - right. intros n _ Hn. apply Hnp. by eapply list_elem_of_lookup_2. }
  - destruct (hop_route sc fh n h k p Hs Hf Hp) as (q & c & l & Hq & Hc & -> & -> & -> & He & Hch).
    rewrite (Hin n h (len l) p (default me (head l)) (path_sum w me l)); try done; [|by apply elem_of_map_iter].
    simpl. rewrite Z.leb_refl. exists l. by split.
  - rewrite Hout by done. assert (forall l, linked L me l -> end_of me l <> p) as Hnone.
    { intros l Hl He. destruct (path_walk g L w Hrep (fun x => x) start me Hme l Hl) as (n & Hn & Hwk).
      assert (exists hk, fh !! n = Some hk) as [hk Hhk].
      { apply (spec_dom _ _ _ _ _ _ _ _ Hs). eapply (spec_reach _ _ _ _ _ _ _ _ Hs); exact Hwk. }
      apply (Hno n); [|by rewrite Hn, He]. apply list_elem_of_fmap. exists (n, hk). by rewrite elem_of_map_iter. }
    destruct (next_hop_map t !! p) as [x|] eqn:Ex; [|done]. apply Hold in Ex.
    by rewrite (proj2 (Z.leb_gt v (nh_version x))).
Qed.
End least_cost.

(** ** The graph of the known network *)

(** Peers whose info has been received, and the connections they announce. *)
Section network.
Context `{RouteLib}.

Definition visible (s : SyncedRouteInfo) (p : PeerId) : Prop :=
  exists i, peer_infos s !! p = Some i /\ ri_version i <> 0.

Definition link (s : SyncedRouteInfo) (a b : PeerId) : Prop :=
  visible s a /\ visible s b /\ b ∈ default ∅ (get_connected_peers a s).

Context `{PetGraph, !IterOrder PeerId RoutePeerInfo, !IterOrder PeerId nat}.
Context (calculate_cost : PeerId -> PeerId -> Z).

Lemma graph_nodes_spec s : NoDup (graph_nodes s) /\ forall p, p ∈ graph_nodes s <-> visible s p.
Proof.
  unfold graph_nodes. split.
  - assert (sublist (base.filter (fun kv => ri_version kv.2 <> 0) (map_iter (peer_infos s))).*1
              (map_iter (peer_infos s)).*1) as Hsub by (apply fmap_sublist, sublist_filter).
    eapply sublist_NoDup; [|exact Hsub]. rewrite map_iter_perm. apply NoDup_fst_map_to_list.
  - intros p. rewrite list_elem_of_fmap. split.
    + intros ([k i] & -> & [Hv Hi]%list_elem_of_filter). apply elem_of_map_iter in Hi. by exists i.
    + intros (i & Hi & Hv). exists (p, i). split; [done|]. apply list_elem_of_filter. by rewrite elem_of_map_iter.
Qed.

Lemma graph_nodes_size s : (length (graph_nodes s) <= size (peer_infos s))%nat.
Proof. unfold graph_nodes. rewrite length_fmap, <- map_iter_length. apply length_filter. Qed.

Lemma node_indices_spec ps p i : NoDup ps -> node_indices ps !! p = Some i <-> ps !! i = Some p.
Proof.
  intros Hnd. unfold node_indices. assert (length ps = length (seq 0 (length ps))) as Hl by (by rewrite length_seq).
  rewrite <- elem_of_list_to_map by (rewrite fst_zip by lia; done).
  rewrite list_elem_of_lookup. setoid_rewrite lookup_zip_Some. split.
  - intros (j & Hp & Hj). apply lookup_seq in Hj as [-> _]. done.
  - intros Hp. exists i. split; [done|]. apply lookup_seq. split; [done|]. by eapply lookup_lt_Some.
Qed.

Lemma add_nodes ps g : foldl (fun g p => add_node p g) g ps =
  {| node_weights := node_weights g ++ ps; edge_list := edge_list g |}.
Proof.
  revert g. induction ps as [|p ps IH]; intros g; simpl; [by destruct g; rewrite app_nil_r|].
  rewrite IH. simpl. by rewrite <- app_assoc.
Qed.

Lemma elem_of_ascending p c : p ∈ ascending c <-> p ∈ c.
Proof. unfold ascending. by rewrite stable_sort_perm, elem_of_elements. Qed.

Lemma add_peer_edges_spec s idx g src i :
  let g' := add_peer_edges calculate_cost s idx g (src, i) in
  node_weights g' = node_weights g /\
  forall e, e ∈ edge_list g' <-> e ∈ edge_list g \/
    exists dst j, dst ∈ default ∅ (get_connected_peers src s) /\ idx !! dst = Some j /\
      e = mkEdge i j (edge_cost calculate_cost s src dst).
Proof.
  unfold add_peer_edges. setoid_rewrite <- elem_of_ascending.
  generalize (ascending (default ∅ (get_connected_peers src s))) as l. intros l. revert g.
  induction l as [|d l IH]; intros g; simpl.
  { split; [done|]. intros e. split; [by left|]. intros [?|(? & ? & ?%elem_of_nil & _)]; done. }
  destruct (IH (match idx !! d with Some j => add_edge i j (edge_cost calculate_cost s src d) g | None => g end))
    as [-> He]. split; [by destruct (idx !! d)|]. intros e. rewrite He. setoid_rewrite elem_of_cons.
  destruct (idx !! d) as [j|] eqn:Ed; simpl.
  - rewrite elem_of_app, list_elem_of_singleton. split.
    + intros [[?| ->]|(d' & j' & ? & ? & ?)]; [by left | right; exists d, j; auto | right; exists d', j'; auto].
    + intros [?|(d' & j' & [->|?] & ? & ?)]; [by left; left | left; right; congruence | right; by exists d', j'].
  - split; [intros [?|(d' & j' & ? & ? & ?)]; [by left | right; exists d', j'; auto]|].
    intros [?|(d' & j' & [->|?] & ? & ?)]; [by left | congruence | right; by exists d', j'].
Qed.

Lemma add_all_edges_spec s idx : forall l g,
  let g' := foldl (add_peer_edges calculate_cost s idx) g l in
  node_weights g' = node_weights g /\
  forall e, e ∈ edge_list g' <-> e ∈ edge_list g \/
    exists src i dst j, (src, i) ∈ l /\ dst ∈ default ∅ (get_connected_peers src s) /\ idx !! dst = Some j /\
      e = mkEdge i j (edge_cost calculate_cost s src dst).
Proof.
  induction l as [|[src i] l IH]; intros g; cbn [foldl].
  { split; [done|]. intros e. split; [by left|]. intros [?|(? & ? & ? & ? & ?%elem_of_nil & _)]; done. }
  destruct (IH (add_peer_edges calculate_cost s idx g (src, i))) as [-> He].
  destruct (add_peer_edges_spec s idx g src i) as [-> He']. split; [done|]. intros e. rewrite He, He'.
  setoid_rewrite elem_of_cons. split.
  - intros [[?|(d & j & ? & ? & ?)]|(a & k & d & j & ? & ?)]; [by left | right; exists src, i, d, j; auto
      | right; exists a, k, d, j; auto].
  - intros [?|(a & k & d & j & [[= -> ->]|?] & ?)]; [by left; left | left; right; by exists d, j
      | right; by exists a, k, d, j].
Qed.

Lemma build_graph_represents s me : visible s me ->
  exists g start, build_peer_graph_from_synced_info calculate_cost me s = (g, Some start) /\
    node_weights g = graph_nodes s /\ node_weights g !! start = Some me /\
    represents g (link s) (edge_cost calculate_cost s).
Proof.
  intros Hme. destruct (graph_nodes_spec s) as [Hnd Hvis]. unfold build_peer_graph_from_synced_info.
  apply Hvis in Hme as [start Hstart]%list_elem_of_lookup.
  rewrite (proj2 (node_indices_spec _ me start Hnd) Hstart). set (idx := node_indices (graph_nodes s)).
  rewrite add_nodes. set (g0 := {| node_weights := _; edge_list := _ |}).
  destruct (add_all_edges_spec s idx (map_iter idx) g0) as [Hn He].
  assert (forall src i, (src, i) ∈ map_iter idx <-> graph_nodes s !! i = Some src) as Hidx.
  { intros src i. rewrite elem_of_map_iter. by apply node_indices_spec. }
  eexists _, start. split; [done|]. split; [by rewrite Hn|]. split; [by rewrite Hn|]. split.
  - by rewrite Hn.
  - intros e. rewrite Hn, He. intros [Hnil|(a & i & b & j & Ha & Hb & Hj & ->)]; [by apply elem_of_nil in Hnil|].
    apply Hidx in Ha. apply node_indices_spec in Hj; [|done]. exists a, b. simpl. split_and!; try done.
    split_and!; [apply Hvis; by eapply list_elem_of_lookup_2.. | done].
  - intros a b i (Ha & Hb & Hc) Hi. rewrite Hn in Hi |- *. apply Hvis, list_elem_of_lookup in Hb as [j Hj].
    exists j. split; [done|]. apply He. right. exists a, i, b, j. rewrite Hidx. split_and!; try done.
    by apply node_indices_spec.
Qed.
End network.

(** ** Fewest hops *)

(** petgraph's [dijkstra]: the least cost of every reachable node. *)
Class PetGraphLaws `{PetGraph} := petgraph_dijkstra_spec : forall g start cost W,
  (start < node_count g)%nat ->
  (forall e, e ∈ edge_list g -> (e_tgt e < node_count g)%nat /\ 0 <= cost e <= W) ->
  Z.of_nat (node_count g) * Z.max 1 W < 2 ^ 64 ->
  forall v d, petgraph_dijkstra g start cost !! v = Some d <-> shortest (edges_of g) e_tgt cost start v d.

(** An avoided relay counts as 2^31 hops. *)
Definition normalize (x : Z) : Z := if AVOID_RELAY_COST <=? x then AVOID_RELAY_COST + 1 else 1.
Definition hops_of (w : PeerId -> PeerId -> Z) (p : PeerId) (l : list PeerId) : Z :=
  path_sum (fun a b => normalize (w a b)) p l.

Definition fewest_hops (L : PeerId -> PeerId -> Prop) (w : PeerId -> PeerId -> Z) (me : PeerId) (l : list PeerId) : Prop :=
  forall l', linked L me l' -> end_of me l' = end_of me l -> hops_of w me l <= hops_of w me l'.

Lemma normalize_bound x : 1 <= normalize x <= 2 ^ 31.
Proof. unfold normalize, AVOID_RELAY_COST. case_match; lia. Qed.

Lemma hops_nonneg w p l : 0 <= hops_of w p l.
Proof.
  unfold hops_of. revert p. induction l as [|q l IH]; intros p; cbn [path_sum]; [lia|].
  pose proof (normalize_bound (w p q)). specialize (IH q). lia.
Qed.

Section least_hop.
Context `{PetGraphLaws, !BinaryHeap (@min_scored_cmp Z nat _), !IterOrder nat (nat * Z)}.
Context (g : PeerGraph) (L : PeerId -> PeerId -> Prop) (w : PeerId -> PeerId -> Z) (start : nat) (me : PeerId) (W : Z).
Context (Hrep : represents g L w) (Hme : node_weights g !! start = Some me).
Context (Hw : forall a b, L a b -> 0 <= w a b <= W).
Context (Hsize : Z.of_nat (node_count g) * Z.max 1 W < 2 ^ 64) (Hnodes : Z.of_nat (node_count g) <= 2 ^ 32).

(** [d] is the least number of hops to [p]. *)
Definition hop_dist (p : PeerId) (d : Z) : Prop :=
  exists l, linked L me l /\ end_of me l = p /\ hops_of w me l = d /\ fewest_hops L w me l.

Lemma hop_dist_unique p d d' : hop_dist p d -> hop_dist p d' -> d = d'.
Proof.
  intros (l & Hl & He & <- & Hf) (l' & Hl' & He' & <- & Hf'). apply Z.le_antisymm;
    [apply Hf | apply Hf']; congruence.
Qed.

(** The links on paths with the fewest hops, and the paths they make. *)
Definition on_fewest (a b : PeerId) : Prop :=
  L a b /\ exists d, hop_dist a d /\ hop_dist b (d + normalize (w a b)).

Lemma hops_snoc l q : hops_of w me (l ++ [q]) = hops_of w me l + normalize (w (end_of me l) q).
Proof. apply path_sum_snoc. Qed.

Lemma linked_fewest l : linked on_fewest me l <-> linked L me l /\ fewest_hops L w me l.
Proof.
  induction l as [|q l IH] using rev_ind.
  { split; [|done]. intros _. split; [done|]. intros l' Hl' _.
    apply hops_nonneg. }
  rewrite !linked_snoc, IH. split.
  - intros [[Hl Hf] [HL (d & Hd & Hq)]]. split; [done|].
    assert (d = hops_of w me l) as -> by (eapply hop_dist_unique; [exact Hd | by exists l]).
    destruct Hq as (l' & Hl' & He' & Hh' & Hf'). intros k Hk Hek. rewrite end_of_snoc in Hek.
    rewrite hops_snoc, <- Hh'. apply Hf'; [done | congruence].
  - intros [[Hl HL] Hf].
    assert (fewest_hops L w me l) as Hfl.
    { intros l' Hl' He'. specialize (Hf (l' ++ [q])). rewrite linked_snoc, !end_of_snoc, !hops_snoc, He' in Hf.
      specialize (Hf (conj Hl' HL) eq_refl). lia. }
    split; [done|]. split; [done|]. exists (hops_of w me l). split; [by exists l|].
    exists (l ++ [q]). rewrite linked_snoc, end_of_snoc, hops_snoc. done.
Qed.

Lemma normal_edges e : e ∈ edge_list g -> (e_tgt e < node_count g)%nat /\ 0 <= normalize_edge_cost e <= 2 ^ 31.
Proof.
  intros He. destruct (rep_sound _ _ _ Hrep e He) as (a & b & _ & Hb%lookup_lt_Some & _). split; [done|].
  pose proof (normalize_bound (e_weight e)). change (normalize_edge_cost e) with (normalize (e_weight e)). lia.
Qed.

Lemma normal_size : Z.of_nat (node_count g) * Z.max 1 (2 ^ 31) < 2 ^ 64.
Proof. change (Z.max 1 (2 ^ 31)) with (2 ^ 31). lia. Qed.

Lemma shortest_hop_dist i p d : node_weights g !! i = Some p ->
  shortest (edges_of g) e_tgt normalize_edge_cost start i d <-> hop_dist p d.
Proof.
  intros Hi. split.
  - intros [[k Hwk] Hmin]. destruct (walk_path g L w Hrep normalize start me Hme _ _ _ Hwk) as (l & Hl & Hn & -> & _).
    rewrite Hi in Hn. injection Hn as ->. exists l. split_and!; try done.
    intros l' Hl' He. destruct (path_walk g L w Hrep normalize start me Hme l' Hl') as (j & Hj & Hwk').
    assert (j = i) as -> by (eapply (node_inj g L w); [exact Hrep | exact Hj | by rewrite He]). by eapply Hmin.
  - intros (l & Hl & <- & <- & Hf). destruct (path_walk g L w Hrep normalize start me Hme l Hl) as (j & Hj & Hwk).
    assert (j = i) as -> by (by eapply (node_inj g L w)). split; [by eexists|].
    intros c k Hck. destruct (walk_path g L w Hrep normalize start me Hme _ _ _ Hck) as (l' & Hl' & Hn & -> & _).
    apply Hf; [done|]. congruence.
Qed.

Lemma path_lens i p d : node_weights g !! i = Some p ->
  petgraph_dijkstra g start normalize_edge_cost !! i = Some d <-> hop_dist p d.
Proof.
  intros Hi. rewrite <- shortest_hop_dist by done.
  apply (petgraph_dijkstra_spec g start normalize_edge_cost (2 ^ 31));
    [by eapply lookup_lt_Some | apply normal_edges | apply normal_size].
Qed.

(** Every reachable peer has a path with the fewest hops, of bounded length. *)
Lemma hop_dist_exists l : linked L me l -> exists d, hop_dist (end_of me l) d /\ d <= 2 ^ 63.
Proof.
  intros Hl. destruct (path_walk g L w Hrep normalize start me Hme l Hl) as (i & Hi & Hwk).
  destruct (dijkstra_any g start normalize_edge_cost (2 ^ 31)) as (sc & fh & _ & Hs);
    [by eapply lookup_lt_Some | apply normal_edges | apply normal_size|].
  destruct (spec_reach _ _ _ _ _ _ _ _ Hs i _ _ Hwk) as [d Hd]. exists d. split.
  - apply (shortest_hop_dist i); [done|]. by apply (spec_scores _ _ _ _ _ _ _ _ Hs).
  - apply (spec_bound _ _ _ _ _ _ _ _ Hs) in Hd. rewrite size_set_seq in Hd.
    change (Z.max 1 (2 ^ 31)) with (2 ^ 31) in Hd. lia.
Qed.

Definition fewest_graph : PeerGraph := {|
  node_weights := node_weights g;
  edge_list := base.filter (fun e => on_shortest (petgraph_dijkstra g start normalize_edge_cost) e = true) (edge_list g)
|}.

Lemma hop_dist_bound p d : hop_dist p d -> 0 <= d <= 2 ^ 63.
Proof.
  intros Hd. pose proof Hd as (l & Hl & <- & <- & _). destruct (hop_dist_exists l Hl) as (d' & Hd' & ?).
  rewrite <- (hop_dist_unique _ _ _ Hd' Hd). split; [|done]. destruct Hd' as (l' & _ & _ & <- & _).
  apply hops_nonneg.
Qed.

Lemma fewest_represents : represents fewest_graph on_fewest w.
Proof.
  assert (forall e a b, node_weights g !! e_src e = Some a -> node_weights g !! e_tgt e = Some b ->
    e_weight e = w a b ->
    on_shortest (petgraph_dijkstra g start normalize_edge_cost) e = true <->
    exists d, hop_dist a d /\ hop_dist b (d + normalize (w a b))) as Hon.
  { intros e a b Ha Hb Hwt. unfold on_shortest. change (normalize_edge_cost e) with (normalize (e_weight e)).
    rewrite Hwt. pose proof (fun d => path_lens _ a d Ha) as Pa. pose proof (fun d => path_lens _ b d Hb) as Pb. split.
    - destruct (petgraph_dijkstra g start normalize_edge_cost !! e_src e) as [da|] eqn:Ea; [|done].
      destruct (petgraph_dijkstra g start normalize_edge_cost !! e_tgt e) as [db|] eqn:Eb; [|done].
      intros Heq%Z.eqb_eq. assert (hop_dist a da) as Hda by (by apply Pa). pose proof (hop_dist_bound _ _ Hda).
      rewrite wrap_small in Heq by (pose proof (normalize_bound (w a b)); unfold in_width; lia).
      exists da. split; [done|]. apply Pb. by rewrite Heq.
    - intros (d & Hda & Hdb). rewrite (proj2 (Pa d) Hda), (proj2 (Pb _) Hdb). apply Z.eqb_eq, wrap_small.
      apply hop_dist_bound in Hdb. unfold in_width. lia. }
  split; simpl; [apply Hrep| |].
  - intros e [Hon' He]%list_elem_of_filter. destruct (rep_sound _ _ _ Hrep e He) as (a & b & Ha & Hb & HL & Hwt).
    exists a, b. split_and!; try done. split; [done|]. by apply (Hon e).
  - intros a b i [HL Hd] Hi. destruct (rep_complete _ _ _ Hrep a b i HL Hi) as (j & Hj & He).
    exists j. split; [done|]. apply list_elem_of_filter. split; [|done]. by apply (Hon (mkEdge i j (w a b)) a b).
Qed.

Lemma least_hop_ok v t : outdated v t ->
  exists m, gen_next_hop_map_with_least_hop g start v t = Done (with_next_hops m v t) /\
    forall dst, match get_next_hop dst (with_next_hops m v t) with
      | Some i => exists l, route_along w me dst i l /\ linked L me l /\ fewest_hops L w me l /\
          forall l', linked L me l' -> end_of me l' = dst -> hops_of w me l' = hops_of w me l ->
            path_sum w me l <= path_sum w me l'
      | None => forall l, linked L me l -> end_of me l <> dst
      end /\ own_route me (with_next_hops m v t).
Proof.
  intros Ht. destruct (least_cost_ok fewest_graph on_fewest w start me W fewest_represents Hme) with (v := v) (t := t)
    as (m & E & Hr & Hown); [|done|done|].
  { intros a b [HL _]. by apply Hw. }
  exists m. split.
  - unfold gen_next_hop_map_with_least_hop, node_count.
    rewrite (proj2 (Nat.ltb_lt _ _) (lookup_lt_Some _ _ _ Hme)). exact E.
  - intros dst. split; [|done]. specialize (Hr dst). destruct (get_next_hop dst _) as [i|].
    + destruct Hr as (l & Hra & [Hl Hch]). exists l. apply linked_fewest in Hl as [Hl Hf]. split_and!; try done.
      intros l' Hl' He Hh. apply Hch; [|done]. apply linked_fewest. split; [done|]. intros k Hk Hek. rewrite Hh.
      apply Hf; [done|]. rewrite Hek, He. symmetry. apply Hra.
    + intros l Hl He. destruct (hop_dist_exists l Hl) as (d & (l' & Hl' & He' & _ & Hf) & _).
      apply (Hr l'); [by apply linked_fewest | congruence].
Qed.
End least_hop.

(** ** Owners of addresses

    Peers claim keys one after the other; a claim replaces an older one, or one
    of a peer that is not closer. *)
Section claims.
Context `{Countable K} (v : Z) (dist : PeerId -> option Z) (keys : PeerId -> list K)
        (better : PeerId -> PeerIdAndVersion -> bool).

Definition claim (p : PeerId) (m : gmap K PeerIdAndVersion) (k : K) : gmap K PeerIdAndVersion :=
  put_addr (better p) {| pv_peer_id := p; pv_version := v |} k m.
Definition claim_keys (m : gmap K PeerIdAndVersion) (p : PeerId) : gmap K PeerIdAndVersion :=
  foldl (claim p) m (keys p).

Hypothesis better_old : forall p old, pv_version old < v -> better p old = true.
Hypothesis better_closer : forall p q d e, dist p = Some d -> dist q = Some e ->
  if better p {| pv_peer_id := q; pv_version := v |} then d <= e else e <= d.

(** [C p k]: the claims made so far. *)
Record claimed (C : PeerId -> K -> Prop) (m : gmap K PeerIdAndVersion) : Prop := {
  cl_owner : forall k p d, C p k -> dist p = Some d -> exists q e,
    m !! k = Some {| pv_peer_id := q; pv_version := v |} /\ C q k /\ dist q = Some e /\ e <= d;
  cl_new : forall k x, m !! k = Some x -> pv_version x < v \/
    exists q, x = {| pv_peer_id := q; pv_version := v |} /\ C q k /\ is_Some (dist q)
}.

Lemma claimed_ext (C C' : PeerId -> K -> Prop) m :
  (forall p k, C' p k <-> C p k) -> claimed C m -> claimed C' m.
Proof.
  intros HC [A B]. split.
  - intros k p d Hp. rewrite HC in Hp. intros Hd. destruct (A k p d Hp Hd) as (q & e & ? & Hq & ?).
    exists q, e. by rewrite HC.
  - intros k x Hx. destruct (B k x Hx) as [?|(q & ? & Hq & ?)]; [by left | right; exists q]. by rewrite HC.
Qed.

Lemma claim_claimed C m p k : is_Some (dist p) -> claimed C m ->
  claimed (fun p' k' => C p' k' \/ (p' = p /\ k' = k)) (claim p m k).
Proof.
  intros [dp Hp] [A B]. unfold claim, put_addr.
  set (new := {| pv_peer_id := p; pv_version := v |}). split.
  - intros k' p' d [Hc|[-> ->]] Hd.
    + destruct (A k' p' d Hc Hd) as (q & e & Hk' & Hq & He & Hle). rewrite lookup_upsert. case_decide; subst.
      * rewrite Hk'. pose proof (better_closer p q dp e Hp He) as Hb. destruct (better p _).
        -- exists p, dp. split_and!; try done; [by right | lia].
        -- exists q, e. split_and!; try done. by left.
      * exists q, e. split_and!; try done. by left.
    + rewrite lookup_upsert, decide_True by done. destruct (m !! k) as [old|] eqn:Ek.
      * destruct (B k old Ek) as [Hv|(q & -> & Hq & [e He])].
        -- rewrite better_old by done. exists p, d. split_and!; try done. by right.
        -- pose proof (better_closer p q d e Hd He) as Hb. destruct (better p _).
           ++ exists p, d. split_and!; try done. by right.
           ++ exists q, e. split_and!; try done. by left.
      * exists p, d. split_and!; try done. by right.
  - intros k' x. rewrite lookup_upsert. case_decide; subst; intros E.
    + injection E as <-. destruct (m !! k') as [old|] eqn:Ek.
      * destruct (better p old); [right; exists p; split_and!; [done | by right | by eexists]|].
        destruct (B k' old Ek) as [?|(q & ? & ? & ?)]; [by left | right; exists q; split_and!; [done | by left | done]].
      * right. exists p. split_and!; [done | by right | by eexists].
    + destruct (B k' x E) as [?|(q & ? & ? & ?)]; [by left | right; exists q; split_and!; [done | by left | done]].
Qed.

Lemma claim_keys_claimed C m p : (is_Some (dist p) \/ keys p = []) -> claimed C m ->
  claimed (fun p' k' => C p' k' \/ (p' = p /\ k' ∈ keys p)) (claim_keys m p).
Proof.
  unfold claim_keys. intros [Hp| ->] HC.
  2: { eapply claimed_ext; [|exact HC]. intros p' k'. rewrite elem_of_nil. tauto. }
  revert C m HC. induction (keys p) as [|k l IH]; intros C m HC; cbn [foldl].
  - eapply claimed_ext; [|exact HC]. intros p' k'. rewrite elem_of_nil. tauto.
  - eapply claimed_ext; [|apply IH, claim_claimed; [exact Hp | exact HC]]. intros p' k'. rewrite elem_of_cons. tauto.
Qed.

Lemma claims_claimed l : forall C m, (forall p, p ∈ l -> is_Some (dist p) \/ keys p = []) -> claimed C m ->
  claimed (fun p k => C p k \/ (p ∈ l /\ k ∈ keys p)) (foldl claim_keys m l).
Proof.
  induction l as [|p l IH]; intros C m Hl HC; cbn [foldl].
  - eapply claimed_ext; [|exact HC]. intros p' k'. rewrite elem_of_nil. tauto.
  - eapply claimed_ext; [|apply IH, claim_keys_claimed; [| |exact HC]].
    + intros p' k'. rewrite elem_of_cons. naive_solver.
    + intros q Hq. apply Hl. by right.
    + apply Hl. by left.
Qed.

(** Keys nobody claims keep their owner. *)
Lemma claims_other l k : forall m, (forall p, k ∉ keys p) -> foldl claim_keys m l !! k = m !! k.
Proof.
  induction l as [|p l IH]; intros m Hk; cbn [foldl]; [done|]. rewrite IH by done.
  unfold claim_keys. specialize (Hk p). revert m Hk. induction (keys p) as [|k' ks IHk]; intros m Hk; cbn [foldl]; [done|].
  apply not_elem_of_cons in Hk as [Hne Hk]. rewrite IHk by done. unfold claim, put_addr.
  rewrite lookup_upsert. by rewrite decide_False.
Qed.
End claims.

(** ** Building the table *)

Section build.
Context `{RouteLib, PetGraphLaws, PrefixTrie, !BinaryHeap (@min_scored_cmp Z nat _)}.
Context `{!IterOrder PeerId RoutePeerInfo, !IterOrder PeerId nat, !IterOrder nat (nat * Z),
          !IterOrder PeerId NextHopInfo}.
Context (calculate_cost : PeerId -> PeerId -> Z) (me : PeerId) (s : SyncedRouteInfo).

(** Our own info is known, latencies are not negative, and there are at most 2^32 peers. *)
Record network_ok : Prop := {
  nk_me : visible s me;
  nk_cost : forall a b, 0 <= calculate_cost a b < 2 ^ 31;
  nk_size : Z.of_nat (size (peer_infos s)) <= 2 ^ 32
}.

Lemma edge_cost_bound a b : network_ok -> 0 <= edge_cost calculate_cost s a b <= 2 ^ 32 - 1.
Proof.
  intros [_ Hc _]. specialize (Hc a b). unfold edge_cost, AVOID_RELAY_COST. unfold wrap.
  rewrite (Z.mod_small (calculate_cost a b)) by lia. case_match; [|lia]. rewrite Z.mod_small; lia.
Qed.

(** Storing addresses leaves the next hops alone. *)
Lemma store_peer_hops v acc item :
  next_hop_map (store_peer me s v acc item).1 = next_hop_map acc.1 /\
  next_hop_map_version (store_peer me s v acc item).1 = next_hop_map_version acc.1.
Proof. destruct acc as [t tries], item as [p hop]. unfold store_peer. by repeat case_match. Qed.

Lemma store_peers_hops v l : forall acc,
  next_hop_map (foldl (store_peer me s v) acc l).1 = next_hop_map acc.1 /\
  next_hop_map_version (foldl (store_peer me s v) acc l).1 = next_hop_map_version acc.1.
Proof.
  induction l as [|x l IH]; intros acc; simpl; [done|].
  destruct (IH (store_peer me s v acc x)) as [-> ->]. apply store_peer_hops.
Qed.

Lemma get_next_hop_ext p t t' :
  next_hop_map t' = next_hop_map t -> next_hop_map_version t' = next_hop_map_version t ->
  get_next_hop p t' = get_next_hop p t.
Proof. unfold get_next_hop. by intros -> ->. Qed.

(** The table after the next hops are known. *)
Definition stored (t : RouteTable) : RouteTable :=
  let '(t, (trie, trie6)) := foldl (store_peer me s (version s)) (t, (∅, ∅)) (map_iter (next_hop_map t)) in
  mkTable (rt_peer_infos t) (next_hop_map t) (ipv4_peer_id_map t) (ipv6_peer_id_map t) trie trie6
    (next_hop_map_version t).

Lemma stored_next_hop p t : get_next_hop p (stored t) = get_next_hop p t.
Proof.
  unfold stored. destruct (store_peers_hops (version s) (map_iter (next_hop_map t)) (t, (∅, ∅))) as [A B].
  destruct (foldl _ _ _) as [t' [trie trie6]]. by apply get_next_hop_ext.
Qed.

(** *** The addresses of the reachable peers *)

Definition announced {A} (f : RoutePeerInfo -> list A) (t : RouteTable) (p : PeerId) : list A :=
  match get_next_hop p t, peer_infos s !! p with Some _, Some info => f info | _, _ => [] end.

Definition ipv4_of (i : RoutePeerInfo) : list Z := option_list (ri_ipv4_addr i).
Definition ipv6_of (i : RoutePeerInfo) : list Z := option_list (a ← ri_ipv6_addr i; inet6_address a).
Definition cidrs_of (i : RoutePeerInfo) : list Cidr :=
  omap (fun c => match parse_cidr c with Some (CidrV4 x) => Some x | _ => None end) (ri_proxy_cidrs i).
Definition cidrs6_of (i : RoutePeerInfo) : list Cidr :=
  omap (fun c => match parse_cidr c with Some (CidrV6 x) => Some x | _ => None end) (ri_proxy_cidrs i).

Definition distance (t : RouteTable) (p : PeerId) : option Z := path_len <$> get_next_hop p t.

Definition closer (t : RouteTable) (p : PeerId) (old : PeerIdAndVersion) : bool :=
  match next_hop_map t !! p with
  | Some hop => is_new_peer_better t {| pv_peer_id := p; pv_version := version s |} hop old
  | None => true
  end.
Definition mine_or_closer (t : RouteTable) (p : PeerId) (old : PeerIdAndVersion) : bool :=
  (p =? me) || closer t p old.

Lemma put_cidrs_split better new l : forall tries,
  let b old := (pv_peer_id new =? me) || better old in
  foldl (put_cidr me better new) tries l =
  (foldl (fun m c => put_addr b new c m) tries.1
     (omap (fun c => match parse_cidr c with Some (CidrV4 x) => Some x | _ => None end) l),
   foldl (fun m c => put_addr b new c m) tries.2
     (omap (fun c => match parse_cidr c with Some (CidrV6 x) => Some x | _ => None end) l)).
Proof.
  induction l as [|c l IH]; intros [a a6] b; simpl; [done|]. rewrite IH. unfold put_cidr.
  by destruct (parse_cidr c) as [[]|].
Qed.

Lemma is_new_peer_better_ext t t' new hop old :
  next_hop_map t' = next_hop_map t -> next_hop_map_version t' = next_hop_map_version t ->
  is_new_peer_better t' new hop old = is_new_peer_better t new hop old.
Proof. intros A B. unfold is_new_peer_better. by rewrite (get_next_hop_ext _ t t'). Qed.

Lemma put_addr_ext `{Countable K} (b b' : PeerIdAndVersion -> bool) new (k : K) m :
  (forall old, b old = b' old) -> put_addr b new k m = put_addr b' new k m.
Proof. intros Hb. unfold put_addr, upsert. f_equal. destruct (m !! k); [|done]. by rewrite Hb. Qed.

Lemma put_all_ext `{Countable K} (b b' : PeerIdAndVersion -> bool) new (l : list K) : forall m,
  (forall old, b old = b' old) ->
  foldl (fun m c => put_addr b new c m) m l = foldl (fun m c => put_addr b' new c m) m l.
Proof.
  induction l as [|k l IH]; intros m Hb; simpl; [done|]. rewrite (put_addr_ext b b') by done. by apply IH.
Qed.

Lemma store_peer_maps t0 t tries p hop :
  next_hop_map_version t0 = version s -> next_hop_map t0 !! p = Some hop ->
  next_hop_map t = next_hop_map t0 -> next_hop_map_version t = next_hop_map_version t0 ->
  let r := store_peer me s (version s) (t, tries) (p, hop) in
  ipv4_peer_id_map r.1 = claim_keys (version s) (announced ipv4_of t0) (closer t0) (ipv4_peer_id_map t) p /\
  ipv6_peer_id_map r.1 = claim_keys (version s) (announced ipv6_of t0) (closer t0) (ipv6_peer_id_map t) p /\
  r.2.1 = claim_keys (version s) (announced cidrs_of t0) (mine_or_closer t0) tries.1 p /\
  r.2.2 = claim_keys (version s) (announced cidrs6_of t0) (mine_or_closer t0) tries.2 p.
Proof.
  intros Hv Hp Hm Hmv. unfold store_peer, claim_keys, announced, get_next_hop. rewrite Hp, Hv.
  destruct (Z.ltb_spec (nh_version hop) (version s)) as [Hlt|Hge].
  { by rewrite (proj2 (Z.leb_gt _ _) Hlt). }
  rewrite (proj2 (Z.leb_le _ _) Hge). destruct (peer_infos s !! p) as [info|]; [|done].
  assert (forall old, is_new_peer_better t {| pv_peer_id := p; pv_version := version s |} hop old = closer t0 p old) as Hb.
  { intros old. unfold closer. rewrite Hp. by apply is_new_peer_better_ext. }
  cbn [fst snd]. split_and!.
  - unfold ipv4_of, claim. simpl. destruct (ri_ipv4_addr info); [by apply put_addr_ext | done].
  - unfold ipv6_of, claim. simpl. destruct (ri_ipv6_addr info ≫= inet6_address); [by apply put_addr_ext | done].
  - rewrite put_cidrs_split. apply put_all_ext. intros old. unfold mine_or_closer. by rewrite Hb.
  - rewrite put_cidrs_split. apply put_all_ext. intros old. unfold mine_or_closer. by rewrite Hb.
Qed.

Lemma store_peers_maps t0 : next_hop_map_version t0 = version s -> forall l t tries,
  (forall p hop, (p, hop) ∈ l -> next_hop_map t0 !! p = Some hop) ->
  next_hop_map t = next_hop_map t0 -> next_hop_map_version t = next_hop_map_version t0 ->
  let r := foldl (store_peer me s (version s)) (t, tries) l in
  ipv4_peer_id_map r.1 = foldl (claim_keys (version s) (announced ipv4_of t0) (closer t0)) (ipv4_peer_id_map t) l.*1 /\
  ipv6_peer_id_map r.1 = foldl (claim_keys (version s) (announced ipv6_of t0) (closer t0)) (ipv6_peer_id_map t) l.*1 /\
  r.2.1 = foldl (claim_keys (version s) (announced cidrs_of t0) (mine_or_closer t0)) tries.1 l.*1 /\
  r.2.2 = foldl (claim_keys (version s) (announced cidrs6_of t0) (mine_or_closer t0)) tries.2 l.*1.
Proof.
  intros Hv. induction l as [|[p hop] l IH]; intros t tries Hl Hm Hmv; [done|].
  destruct (store_peer_maps t0 t tries p hop) as (A & B & C & D); [done | apply Hl; by left | done | done |].
  destruct (store_peer_hops (version s) (t, tries) (p, hop)) as [E F]. cbn [foldl fmap list_fmap fst].
  destruct (store_peer me s (version s) (t, tries) (p, hop)) as [t1 tries1]. cbn [fst snd] in *.
  rewrite <- A, <- B, <- C, <- D. apply IH; [intros q h Hq; apply Hl; by right | congruence..].
Qed.

(** An address leads to a reachable peer that announces it, and none is closer. *)
Definition leads_to_closest `{Countable K} (m : gmap K PeerIdAndVersion) (f : RoutePeerInfo -> list K) (t : RouteTable)
    : Prop :=
  forall k p i info, get_next_hop p t = Some i -> peer_infos s !! p = Some info -> k ∈ f info ->
    exists q j info', m !! k = Some {| pv_peer_id := q; pv_version := version s |} /\
      get_next_hop q t = Some j /\ peer_infos s !! q = Some info' /\ k ∈ f info' /\ path_len j <= path_len i.

Lemma claims_closest `{Countable K} (f : RoutePeerInfo -> list K) (better : PeerId -> PeerIdAndVersion -> bool)
    (m : gmap K PeerIdAndVersion) (t0 : RouteTable) l :
  (forall p old, pv_version old < version s -> better p old = true) ->
  (forall p q d e, distance t0 p = Some d -> distance t0 q = Some e ->
     if better p {| pv_peer_id := q; pv_version := version s |} then d <= e else e <= d) ->
  (forall k x, m !! k = Some x -> pv_version x < version s) ->
  (forall p i, get_next_hop p t0 = Some i -> p ∈ l) ->
  leads_to_closest (foldl (claim_keys (version s) (announced f t0) better) m l) f t0.
Proof.
  intros Hold Hcl Hm Hl k p i info Hp Hi Hk.
  destruct (claims_claimed (version s) (distance t0) (announced f t0) better Hold Hcl l (fun _ _ => False) m) as [A _].
  - intros q _. unfold distance, announced. destruct (get_next_hop q t0); [left; by eexists | by right].
  - split; [done|]. intros k' x Hx. left. by eapply Hm.
  - destruct (A k p (path_len i)) as (q & e & Hq & [[]|[_ Hkq]] & He & Hle).
    + right. split; [by eapply Hl|]. unfold announced. by rewrite Hp, Hi.
    + unfold distance. by rewrite Hp.
    + unfold announced in Hkq. unfold distance in He. destruct (get_next_hop q t0) as [j|] eqn:Ej; [|done].
      destruct (peer_infos s !! q) as [info'|] eqn:Ei; [|by apply elem_of_nil in Hkq].
      injection He as <-. by exists q, j, info'.
Qed.

Lemma closer_spec t0 : next_hop_map_version t0 = version s ->
  (forall p old, pv_version old < version s -> closer t0 p old = true) /\
  (forall p q d e, distance t0 p = Some d -> distance t0 q = Some e ->
     if closer t0 p {| pv_peer_id := q; pv_version := version s |} then d <= e else e <= d).
Proof.
  intros Hv. unfold closer, is_new_peer_better. split.
  - intros p old Ho. case_match; [|done]. cbn [pv_version]. by rewrite (proj2 (Z.ltb_lt _ _) Ho).
  - intros p q d e Hd He. unfold distance, get_next_hop in *. cbn [pv_version pv_peer_id].
    destruct (next_hop_map t0 !! p) as [hp|] eqn:Ep; [|done]. rewrite Z.ltb_irrefl.
    destruct (next_hop_map t0 !! q) as [hq|] eqn:Eq; [|done].
    destruct (next_hop_map_version t0 <=? nh_version hp); [|done].
    destruct (next_hop_map_version t0 <=? nh_version hq); [|done].
    injection Hd as <-. injection He as <-. destruct (Z.eqb_spec p q) as [->|].
    + rewrite Ep in Eq. by injection Eq as ->.
    + destruct (Z.ltb_spec (path_len hp) (path_len hq)); lia.
Qed.

(** Building ends with the next hops of the policy, and the addresses stored. *)
Lemma build_ok policy t : network_ok -> outdated (version s) t ->
  exists g start m, represents g (link s) (edge_cost calculate_cost s) /\ node_weights g !! start = Some me /\
    Z.of_nat (node_count g) <= 2 ^ 32 /\
    (match policy with
     | LeastHop => gen_next_hop_map_with_least_hop g start (version s) t
     | LeastCost => gen_next_hop_map_with_least_cost g start (version s) t
     end) = Done (with_next_hops m (version s) t) /\
    build_from_synced_info calculate_cost me s policy t = Done (stored (with_next_hops m (version s) t)).
Proof.
  intros Hk Ht. pose proof Hk as [Hme _ Hsz].
  destruct (build_graph_represents calculate_cost s me Hme) as (g & start & Eg & Hn & Hst & Hrep).
  assert (Z.of_nat (node_count g) <= 2 ^ 32) as Hg.
  { unfold node_count. rewrite Hn. pose proof (graph_nodes_size s). lia. }
  assert (Z.of_nat (node_count g) * Z.max 1 (2 ^ 32 - 1) < 2 ^ 64) as Hov by (rewrite Z.max_r by lia; lia).
  assert (forall a b, link s a b -> 0 <= edge_cost calculate_cost s a b <= 2 ^ 32 - 1) as Hc
    by (intros; by apply edge_cost_bound).
  assert (exists m, (match policy with
     | LeastHop => gen_next_hop_map_with_least_hop g start (version s) t
     | LeastCost => gen_next_hop_map_with_least_cost g start (version s) t
     end) = Done (with_next_hops m (version s) t)) as [m Em].
  { destruct policy.
    - destruct (least_hop_ok g _ _ start me _ Hrep Hst Hc Hov Hg (version s) t Ht) as (m & E & _). by exists m.
    - destruct (least_cost_ok g _ _ start me _ Hrep Hst Hc Hov (version s) t Ht) as (m & E & _). by exists m. }
  exists g, start, m. split_and!; try done. unfold build_from_synced_info. rewrite Eg.
  assert ((node_count g =? 0)%nat = false) as ->.
  { apply Nat.eqb_neq. apply lookup_lt_Some in Hst. unfold node_count. lia. }
  cbn [unwrap mbind outcome_bind]. rewrite Em. cbn [mbind outcome_bind]. unfold stored.
  by destruct (foldl _ _ _) as [t' [trie trie6]].
Qed.

(** What both policies promise of the next hops. *)
Lemma build_hops policy t : network_ok -> outdated (version s) t ->
  exists t0, build_from_synced_info calculate_cost me s policy t = Done (stored t0) /\
    (exists m, t0 = with_next_hops m (version s) t) /\ own_route me t0 /\
    forall p i, get_next_hop p t0 = Some i -> 0 <= path_len i.
Proof.
  intros Hk Ht. destruct (build_ok policy t Hk Ht) as (g & start & m & Hrep & Hst & Hg & Em & Eb).
  assert (Z.of_nat (node_count g) * Z.max 1 (2 ^ 32 - 1) < 2 ^ 64) as Hov by (rewrite Z.max_r by lia; lia).
  assert (forall a b, link s a b -> 0 <= edge_cost calculate_cost s a b <= 2 ^ 32 - 1) as Hc
    by (intros; by apply edge_cost_bound).
  exists (with_next_hops m (version s) t). split; [done|]. split; [by exists m|]. destruct policy.
  - destruct (least_hop_ok g _ _ start me _ Hrep Hst Hc Hov Hg (version s) t Ht) as (m' & E & Hr).
    rewrite Em in E. injection E as <-. split; [apply (Hr me)|].
    intros p i Hp. destruct (Hr p) as [Hd _]. rewrite Hp in Hd. destruct Hd as (l & [_ _ -> _] & _). apply len_nonneg.
  - destruct (least_cost_ok g _ _ start me _ Hrep Hst Hc Hov (version s) t Ht) as (m' & E & Hr & Hown).
    rewrite Em in E. injection E as <-. split; [done|].
    intros p i Hp. specialize (Hr p). rewrite Hp in Hr. destruct Hr as (l & [_ _ -> _] & _). apply len_nonneg.
Qed.

Lemma mine_or_closer_spec t0 : next_hop_map_version t0 = version s -> own_route me t0 ->
  (forall p i, get_next_hop p t0 = Some i -> 0 <= path_len i) ->
  (forall p old, pv_version old < version s -> mine_or_closer t0 p old = true) /\
  (forall p q d e, distance t0 p = Some d -> distance t0 q = Some e ->
     if mine_or_closer t0 p {| pv_peer_id := q; pv_version := version s |} then d <= e else e <= d).
Proof.
  intros Hv (i & Hi & Hz) Hpos. destruct (closer_spec t0 Hv) as [A B]. unfold mine_or_closer. split.
  - intros p old Ho. by rewrite A, orb_true_r.
  - intros p q d e Hd He. destruct (Z.eqb_spec p me) as [->|]; simpl; [|by apply B].
    unfold distance in Hd, He. rewrite Hi in Hd. injection Hd as <-.
    destruct (get_next_hop q t0) as [j|] eqn:Ej; [|done]. injection He as <-. apply Hpos in Ej. lia.
Qed.

Lemma reachable_in_map t0 p i : get_next_hop p t0 = Some i -> p ∈ (map_iter (next_hop_map t0)).*1.
Proof.
  unfold get_next_hop. destruct (next_hop_map t0 !! p) as [x|] eqn:Ex; [|done]. intros _.
  apply list_elem_of_fmap. exists (p, x). by rewrite elem_of_map_iter.
Qed.

(** The address maps after [stored], as claims. *)
Lemma stored_maps t0 : next_hop_map_version t0 = version s ->
  let l := (map_iter (next_hop_map t0)).*1 in
  ipv4_peer_id_map (stored t0) = foldl (claim_keys (version s) (announced ipv4_of t0) (closer t0)) (ipv4_peer_id_map t0) l /\
  ipv6_peer_id_map (stored t0) = foldl (claim_keys (version s) (announced ipv6_of t0) (closer t0)) (ipv6_peer_id_map t0) l /\
  cidr_peer_id_map (stored t0) = foldl (claim_keys (version s) (announced cidrs_of t0) (mine_or_closer t0)) ∅ l /\
  cidr_v6_peer_id_map (stored t0) = foldl (claim_keys (version s) (announced cidrs6_of t0) (mine_or_closer t0)) ∅ l.
Proof.
  intros Hv l. unfold stored.
  destruct (store_peers_maps t0 Hv (map_iter (next_hop_map t0)) t0 (∅, ∅)) as (A & B & C & D); [|done..|].
  { intros p hop. by rewrite elem_of_map_iter. }
  destruct (foldl (store_peer _ _ _) _ _) as [t' [trie trie6]]. by split_and!.
Qed.
End build.

(** ** Properties *)

(** C2.  With the least-cost policy, building the table never panics, and then
    exactly the peers that can be reached have a next hop: it is the first peer
    of a cheapest path of known connections, with that path's length and
    latency; entries of peers that are no longer reachable are not used. *)
Theorem least_cost_routes `{RouteLib, PetGraphLaws, PrefixTrie, !BinaryHeap (@min_scored_cmp Z nat _),
      !IterOrder PeerId RoutePeerInfo, !IterOrder PeerId nat, !IterOrder nat (nat * Z), !IterOrder PeerId NextHopInfo}
    (calculate_cost : PeerId -> PeerId -> Z) (me : PeerId) (s : SyncedRouteInfo) (t : RouteTable)
    (Hs : network_ok calculate_cost me s) (Ht : outdated (version s) t) :
  exists t', build_from_synced_info calculate_cost me s LeastCost t = Done t' /\
    forall dst, match get_next_hop dst t' with
      | Some i => exists l, route_along (edge_cost calculate_cost s) me dst i l /\ linked (link s) me l /\
          forall l', linked (link s) me l' -> end_of me l' = dst ->
            path_sum (edge_cost calculate_cost s) me l <= path_sum (edge_cost calculate_cost s) me l'
      | None => forall l, linked (link s) me l -> end_of me l <> dst
      end.
Proof.
  destruct (build_ok calculate_cost me s LeastCost t Hs Ht) as (g & start & m & Hrep & Hst & Hg & Em & Eb).
  exists (stored me s (with_next_hops m (version s) t)). split; [done|]. intros dst. rewrite stored_next_hop.
  destruct (least_cost_ok g _ _ start me (2 ^ 32 - 1) Hrep Hst) with (v := version s) (t := t) as (m' & E & Hr & _);
    [intros; by apply (edge_cost_bound calculate_cost me) | rewrite Z.max_r by lia; lia | done |].
  rewrite Em in E. injection E as ->. specialize (Hr dst). destruct (get_next_hop dst _) as [i|]; [|done].
  destruct Hr as (l & Hra & Hl & Hmin). by exists l.
Qed.

(** With the least-hop policy the chosen path has the fewest hops (an
    edge out of a peer that avoids relaying counts as 2^31 hops), and among
    those the least cost. *)
Theorem least_hop_routes `{RouteLib, PetGraphLaws, PrefixTrie, !BinaryHeap (@min_scored_cmp Z nat _),
      !IterOrder PeerId RoutePeerInfo, !IterOrder PeerId nat, !IterOrder nat (nat * Z), !IterOrder PeerId NextHopInfo}
    (calculate_cost : PeerId -> PeerId -> Z) (me : PeerId) (s : SyncedRouteInfo) (t : RouteTable)
    (Hs : network_ok calculate_cost me s) (Ht : outdated (version s) t) :
  let w := edge_cost calculate_cost s in
  exists t', build_from_synced_info calculate_cost me s LeastHop t = Done t' /\
    forall dst, match get_next_hop dst t' with
      | Some i => exists l, route_along w me dst i l /\ linked (link s) me l /\
          forall l', linked (link s) me l' -> end_of me l' = dst ->
            hops_of w me l <= hops_of w me l' /\
            (hops_of w me l' = hops_of w me l -> path_sum w me l <= path_sum w me l')
      | None => forall l, linked (link s) me l -> end_of me l <> dst
      end.
Proof.
  intros w. destruct (build_ok calculate_cost me s LeastHop t Hs Ht) as (g & start & m & Hrep & Hst & Hg & Em & Eb).
  exists (stored me s (with_next_hops m (version s) t)). split; [done|]. intros dst. rewrite stored_next_hop.
  destruct (least_hop_ok g _ _ start me (2 ^ 32 - 1) Hrep Hst) with (v := version s) (t := t) as (m' & E & Hr);
    [intros; by apply (edge_cost_bound calculate_cost me) | rewrite Z.max_r by lia; lia | done | done |].
  rewrite Em in E. injection E as ->. destruct (Hr dst) as [Hd _]. clear Hr.
  destruct (get_next_hop dst _) as [i|]; [|done]. destruct Hd as (l & Hra & Hl & Hf & Hmin). exists l. split; [done|]. split; [done|]. intros l' Hl' He.
  split; [|by apply Hmin]. apply Hf; [done|]. rewrite He. symmetry. apply Hra.
Qed.

(** After the table is built, with either policy, the address of a reachable
    peer leads to a reachable peer that announces it and than which no peer that
    announces it is closer; the same holds for IPv6 and for proxied ranges. *)
Theorem addresses_lead_to_closest `{RouteLib, PetGraphLaws, PrefixTrie, !BinaryHeap (@min_scored_cmp Z nat _),
      !IterOrder PeerId RoutePeerInfo, !IterOrder PeerId nat, !IterOrder nat (nat * Z), !IterOrder PeerId NextHopInfo}
    (calculate_cost : PeerId -> PeerId -> Z) (me : PeerId) (s : SyncedRouteInfo) (policy : NextHopPolicy) (t : RouteTable)
    (Hs : network_ok calculate_cost me s) (Ht : outdated (version s) t)
    (H4 : forall a x, ipv4_peer_id_map t !! a = Some x -> pv_version x < version s)
    (H6 : forall a x, ipv6_peer_id_map t !! a = Some x -> pv_version x < version s) :
  exists t', build_from_synced_info calculate_cost me s policy t = Done t' /\
    leads_to_closest s (ipv4_peer_id_map t') ipv4_of t' /\ leads_to_closest s (ipv6_peer_id_map t') ipv6_of t' /\
    leads_to_closest s (cidr_peer_id_map t') cidrs_of t' /\ leads_to_closest s (cidr_v6_peer_id_map t') cidrs6_of t'.
Proof.
  destruct (build_hops calculate_cost me s policy t Hs Ht) as (t0 & Eb & [m ->] & Hown & Hpos).
  set (t0 := with_next_hops m (version s) t) in *. assert (next_hop_map_version t0 = version s) as Hv by done.
  destruct (stored_maps me s t0 Hv) as (A & B & C & D). destruct (closer_spec s t0 Hv) as [P Q].
  destruct (mine_or_closer_spec me s t0 Hv Hown Hpos) as [P' Q'].
  exists (stored me s t0). split; [done|]. unfold leads_to_closest. rewrite A, B, C, D.
  repeat setoid_rewrite stored_next_hop.
  split_and!; (apply claims_closest; [done | done | | by intros; eapply reachable_in_map]); try done;
    intros k x; by rewrite lookup_empty.
Qed.

(** An address a peer has given up, and nobody else announces, keeps
    leading to that peer as long as it is reachable: neither building the table
    nor the periodic cleanup removes it. *)
Theorem old_address_kept `{RouteLib, PetGraphLaws, PrefixTrie, !BinaryHeap (@min_scored_cmp Z nat _),
      !IterOrder PeerId RoutePeerInfo, !IterOrder PeerId nat, !IterOrder nat (nat * Z), !IterOrder PeerId NextHopInfo}
    (calculate_cost : PeerId -> PeerId -> Z) (me : PeerId) (s : SyncedRouteInfo) (policy : NextHopPolicy) (t : RouteTable)
    (same_network : bool) (a p v : Z)
    (Hs : network_ok calculate_cost me s) (Ht : outdated (version s) t)
    (Hold : ipv4_peer_id_map t !! a = Some {| pv_peer_id := p; pv_version := v |})
    (Hnobody : forall q info, peer_infos s !! q = Some info -> ri_ipv4_addr info <> Some a) :
  exists t', build_from_synced_info calculate_cost me s policy t = Done t' /\
    (peer_reachable p t' = true ->
     get_peer_id_by_ip same_network (V4 a) (clean_expired_route_info t') = Some p).
Proof.
  destruct (build_hops calculate_cost me s policy t Hs Ht) as (t0 & Eb & [m ->] & _ & _).
  set (t0 := with_next_hops m (version s) t) in *. destruct (stored_maps me s t0 eq_refl) as (A & _).
  exists (stored me s t0). split; [done|]. intros Hr. unfold get_peer_id_by_ip, clean_expired_route_info. simpl.
  rewrite lookup_retain, A, claims_other.
  - change (ipv4_peer_id_map t0) with (ipv4_peer_id_map t). rewrite Hold. cbn [pv_peer_id].
    rewrite bool_decide_true; [done|]. rewrite lookup_retain.
    apply bool_decide_eq_true in Hr as [i Hi]. unfold get_next_hop in Hi.
    destruct (next_hop_map (stored me s t0) !! p); [|done]. by destruct (_ <=? _).
  - intros q Hq. unfold announced, ipv4_of in Hq. destruct (get_next_hop q t0); [|by apply elem_of_nil in Hq].
    destruct (peer_infos s !! q) as [info|] eqn:Ei; [|by apply elem_of_nil in Hq].
    destruct (ri_ipv4_addr info) as [b|] eqn:Ea; simpl in Hq; [|by apply elem_of_nil in Hq].
    apply list_elem_of_singleton in Hq as <-. by eapply Hnobody.
Qed.

(** ** Examples *)

#[local] Existing Instance sample_lib.

#[local] Instance sample_graph : PetGraph := {|
  edges_of g n := base.filter (fun e => e_src e = n) (edge_list g);
  edges_of_perm _ _ := Permutation_refl _;
  petgraph_dijkstra g start cost :=
    match dijkstra_with_first_hop (fun n => base.filter (fun e => e_src e = n) (edge_list g)) e_tgt cost start
            (dijkstra_fuel g) with
    | Done (sc, _) => sc
    | Panicked _ => ∅
    end
|}.

#[local] Instance sample_graph_laws : PetGraphLaws.
Proof.
  intros g start cost W Hs He Hsz v d. destruct (dijkstra_any g start cost W Hs He Hsz) as (sc & fh & E & Hsp).
  unfold petgraph_dijkstra; simpl. simpl in E. rewrite E. apply (spec_scores _ _ _ _ _ _ _ _ Hsp).
Qed.

#[local] Instance sample_trie : PrefixTrie := {|
  parse_cidr c := match c with [a] => Some (CidrV4 (a, 24)) | _ => None end;
  get_lpm m k := (fun x => ((k.1 / 256 * 256, 24), x)) <$> m !! (k.1 / 256 * 256, 24)
|}.

(** Three peers: 1 is connected to 2 (latency 1) and 3 (latency 10), 2 to 3 (latency 1). *)
Definition node_info (k ip : Z) : RoutePeerInfo :=
  mkPeerInfo k None 0 (Some ip) [] None 0 None 1 [] None k 24 None None [].
Definition triangle : SyncedRouteInfo :=
  mkSynced (list_to_map [(1, node_info 1 101); (2, node_info 2 102); (3, node_info 3 103)]) ∅
    (list_to_map [(1, ({[2; 3]}, 1)); (2, ({[3]}, 1))]) ∅ ∅ ∅ 1.
Definition latency (a b : PeerId) : Z := if (a =? 1) && (b =? 3) then 10 else 1.

Lemma triangle_ok : network_ok latency 1 triangle.
Proof.
  split.
  - exists (node_info 1 101). by split.
  - intros a b. unfold latency. case_match; lia.
  - vm_compute. done.
Qed.

Lemma new_outdated : outdated (version triangle) route_table_new.
Proof. split; [done|]. intros p x; simpl; by rewrite lookup_empty. Qed.

Definition next_hop_in (o : outcome RouteTable) (dst : PeerId) : option PeerId :=
  match o with Done t => next_hop_peer_id <$> get_next_hop dst t | Panicked _ => None end.

Definition path_len_in (o : outcome RouteTable) (dst : PeerId) : option Z :=
  match o with Done t => path_len <$> get_next_hop dst t | Panicked _ => None end.

Lemma least_cost_routes_witness :
  exists t', build_from_synced_info latency 1 triangle LeastCost route_table_new = Done t' /\
    next_hop_peer_id <$> get_next_hop 3 t' = Some 2 /\
    (forall l, linked (link triangle) 1 l -> end_of 1 l <> 4).
Proof.
  destruct (least_cost_routes latency 1 triangle route_table_new triangle_ok new_outdated) as (t' & E & Hr).
  exists t'. split; [exact E|]. split.
  - change (next_hop_in (Done t') 3 = Some 2). rewrite <- E. vm_compute. reflexivity.
  - specialize (Hr 4). assert (get_next_hop 4 t' = None) as E4; [|by rewrite E4 in Hr].
    assert (next_hop_in (Done t') 4 = None) as En by (rewrite <- E; vm_compute; reflexivity).
    simpl in En. by destruct (get_next_hop 4 t').
Defined.

Lemma least_hop_routes_witness :
  exists t', build_from_synced_info latency 1 triangle LeastHop route_table_new = Done t' /\
    next_hop_peer_id <$> get_next_hop 3 t' = Some 3 /\
    (forall l, linked (link triangle) 1 l -> end_of 1 l <> 4).
Proof.
  destruct (least_hop_routes latency 1 triangle route_table_new triangle_ok new_outdated) as (t' & E & Hr).
  exists t'. split; [exact E|]. split.
  - change (next_hop_in (Done t') 3 = Some 3). rewrite <- E. vm_compute. reflexivity.
  - specialize (Hr 4). assert (get_next_hop 4 t' = None) as E4; [|by rewrite E4 in Hr].
    assert (next_hop_in (Done t') 4 = None) as En by (rewrite <- E; vm_compute; reflexivity).
    simpl in En. by destruct (get_next_hop 4 t').
Defined.

Lemma addresses_lead_to_closest_witness :
  exists t', build_from_synced_info latency 1 triangle LeastHop route_table_new = Done t' /\
    exists q j info, ipv4_peer_id_map t' !! 103 = Some {| pv_peer_id := q; pv_version := 1 |} /\
      get_next_hop q t' = Some j /\ peer_infos triangle !! q = Some info /\ 103 ∈ ipv4_of info /\ path_len j <= 1.
Proof.
  destruct (addresses_lead_to_closest latency 1 triangle LeastHop route_table_new triangle_ok new_outdated)
    as (t' & E & H4 & _); [intros a x; simpl; by rewrite lookup_empty..|].
  exists t'. split; [exact E|].
  assert (path_len_in (Done t') 3 = Some 1) as En by (rewrite <- E; vm_compute; reflexivity).
  simpl in En. destruct (get_next_hop 3 t') as [i|] eqn:E3; [|done]. injection En as Ei.
  destruct (H4 103 3 i (node_info 3 103)) as (q & j & info & Hq); [exact E3 | reflexivity | by left |].
  exists q, j, info. rewrite Ei in Hq. exact Hq.
Defined.

(** Peer 2 used to have the address 77. *)
Definition renumbered : RouteTable :=
  mkTable ∅ ∅ {[ 77 := {| pv_peer_id := 2; pv_version := 0 |} ]} ∅ ∅ ∅ 0.

Lemma old_address_kept_witness :
  exists t', build_from_synced_info latency 1 triangle LeastHop renumbered = Done t' /\
    get_peer_id_by_ip true (V4 77) (clean_expired_route_info t') = Some 2.
Proof.
  destruct (old_address_kept latency 1 triangle LeastHop renumbered true 77 2 0 triangle_ok) as (t' & E & Hk).
  - split; [done|]. intros p x; simpl; by rewrite lookup_empty.
  - reflexivity.
  - intros q info Hq. apply elem_of_list_to_map_2 in Hq.
    repeat apply elem_of_cons in Hq as [[= _ ->]|Hq]; try done. by apply elem_of_nil in Hq.
  - exists t'. split; [exact E|]. apply Hk.
    assert (path_len_in (Done t') 2 = Some 1) as En by (rewrite <- E; vm_compute; reflexivity).
    simpl in En. unfold peer_reachable. by destruct (get_next_hop 2 t').
Defined.
