(* ===== verification/SyncSession.v ===== *)
(** The session a node keeps with a peer it synchronises route information with:
    [VersionAndTouchTime] and [SyncRouteSession] of
    [easytier/src/peers/peer_ospf_route.rs].

    A session remembers, per announced item, the newest version the other side
    is known to hold, so that only newer items are sent.  Entries not asked for
    within a minute are dropped.  One clock reading stands for those made in one
    call; [task_running] is whether the background task of the session is alive.

    The lemmas describe the loop all requests are built with, [send_stale]: what
    is left out is known to be held by the other side, and once what was sent
    has been recorded the loop sends nothing. *)

From stdpp Require Import base numbers list gmap strings.
From S2P Require Import Prelude Text AclRules SyncedRoute.
Open Scope Z_scope.

(** ** Versions with the time of their last use *)

Record VersionAndTouchTime := { vt_version : Z; touch_time : Z }.

Definition vt_default (now : Z) : VersionAndTouchTime := {| vt_version := 0; touch_time := now |}.
Definition touch (now : Z) (x : VersionAndTouchTime) : VersionAndTouchTime :=
  {| vt_version := vt_version x; touch_time := now |}.
Definition vt_set_if_larger (v : Z) (x : VersionAndTouchTime) : VersionAndTouchTime :=
  {| vt_version := (version_set_if_larger v (vt_version x)).2; touch_time := touch_time x |}.
Definition is_expired (now : Z) (x : VersionAndTouchTime) : bool := 60 * SEC <? now - touch_time x.

Abbreviation Saved K := (gmap K VersionAndTouchTime).

Section saved.
Context `{Countable K}.

(** [saved.get(&k).map(|v| { v.touch(); v.get() >= version }).unwrap_or(false)] *)
Definition check_saved (now : Z) (k : K) (v : Z) (m : Saved K) : bool * Saved K :=
  match m !! k with
  | Some x => (v <=? vt_version x, <[k := touch now x]> m)
  | None => (false, m)
  end.

(** [saved.entry(k).or_default().set_if_larger(v)] *)
Definition save_version (now : Z) (k : K) (v : Z) (m : Saved K) : Saved K :=
  upsert k (vt_set_if_larger v) (vt_set_if_larger v (vt_default now)) m.

Definition retain_fresh (now : Z) (m : Saved K) : Saved K := retain (fun _ x => negb (is_expired now x)) m.
End saved.

(** ** Sessions *)

Record SyncRouteSession := mkSession {
  session_my_peer_id : PeerId; dst_peer_id : PeerId;
  dst_saved_peer_info_versions : Saved PeerId;
  dst_saved_conn_info_version : Saved PeerId;
  dst_saved_foreign_network_versions : Saved ForeignKey;
  my_session_id : Z; dst_session_id : Z;
  we_are_initiator : bool; dst_is_initiator : bool; need_sync_initiator_info : bool;
  rpc_tx_count : Z; rpc_rx_count : Z;
  task_running : bool
}.

(** [random_id] is the value of [rand::random()]. *)
Definition session_new (my_peer_id dst random_id : Z) : SyncRouteSession :=
  mkSession my_peer_id dst ∅ ∅ ∅ random_id 0 false false false 0 0 false.

Definition with_saved p c f s := mkSession (session_my_peer_id s) (dst_peer_id s) p c f (my_session_id s)
  (dst_session_id s) (we_are_initiator s) (dst_is_initiator s) (need_sync_initiator_info s)
  (rpc_tx_count s) (rpc_rx_count s) (task_running s).
Definition with_saved_infos p s :=
  with_saved p (dst_saved_conn_info_version s) (dst_saved_foreign_network_versions s) s.
Definition with_saved_conns c s :=
  with_saved (dst_saved_peer_info_versions s) c (dst_saved_foreign_network_versions s) s.
Definition with_saved_foreign f s :=
  with_saved (dst_saved_peer_info_versions s) (dst_saved_conn_info_version s) f s.
Definition with_flags we dst need s := mkSession (session_my_peer_id s) (dst_peer_id s)
  (dst_saved_peer_info_versions s) (dst_saved_conn_info_version s) (dst_saved_foreign_network_versions s)
  (my_session_id s) (dst_session_id s) we dst need (rpc_tx_count s) (rpc_rx_count s) (task_running s).
Definition with_dst_session_id id s := mkSession (session_my_peer_id s) (dst_peer_id s)
  (dst_saved_peer_info_versions s) (dst_saved_conn_info_version s) (dst_saved_foreign_network_versions s)
  (my_session_id s) id (we_are_initiator s) (dst_is_initiator s) (need_sync_initiator_info s)
  (rpc_tx_count s) (rpc_rx_count s) (task_running s).
Definition with_counts tx rx s := mkSession (session_my_peer_id s) (dst_peer_id s)
  (dst_saved_peer_info_versions s) (dst_saved_conn_info_version s) (dst_saved_foreign_network_versions s)
  (my_session_id s) (dst_session_id s) (we_are_initiator s) (dst_is_initiator s)
  (need_sync_initiator_info s) tx rx (task_running s).
Definition with_task b s := mkSession (session_my_peer_id s) (dst_peer_id s)
  (dst_saved_peer_info_versions s) (dst_saved_conn_info_version s) (dst_saved_foreign_network_versions s)
  (my_session_id s) (dst_session_id s) (we_are_initiator s) (dst_is_initiator s)
  (need_sync_initiator_info s) (rpc_tx_count s) (rpc_rx_count s) b.
Definition with_need_sync b s := with_flags (we_are_initiator s) (dst_is_initiator s) b s.

Definition check_saved_peer_info_update_to_date (now : Z) (peer_id v : Z) (s : SyncRouteSession)
    : bool * SyncRouteSession :=
  if (v =? 0) || (peer_id =? dst_peer_id s) then (true, s)
  else let '(r, m) := check_saved now peer_id v (dst_saved_peer_info_versions s) in (r, with_saved_infos m s).

Definition check_saved_conn_version_update_to_date (now : Z) (peer_id v : Z) (s : SyncRouteSession)
    : bool * SyncRouteSession :=
  if (v =? 0) || (peer_id =? dst_peer_id s) then (true, s)
  else let '(r, m) := check_saved now peer_id v (dst_saved_conn_info_version s) in (r, with_saved_conns m s).

Definition check_saved_foreign_network_version_update_to_date (now : Z) (k : ForeignKey) (v : Z)
    (s : SyncRouteSession) : bool * SyncRouteSession :=
  if (v =? 0) || (fk_peer_id k =? dst_peer_id s) then (true, s)
  else let '(r, m) := check_saved now k v (dst_saved_foreign_network_versions s) in (r, with_saved_foreign m s).

Definition save_info (now dst : Z) (s : SyncRouteSession) (i : RoutePeerInfo) : SyncRouteSession :=
  if ri_peer_id i =? dst then s
  else with_saved_infos (save_version now (ri_peer_id i) (ri_version i) (dst_saved_peer_info_versions s)) s.

Definition update_dst_saved_peer_info_version (now : Z) (infos : list RoutePeerInfo) (dst : Z)
    (s : SyncRouteSession) : SyncRouteSession := foldl (save_info now dst) s infos.

Definition save_conn (now dst : Z) (s : SyncRouteSession) (p : PeerIdVersion) : SyncRouteSession :=
  if piv_peer_id p =? dst then s
  else with_saved_conns (save_version now (piv_peer_id p) (piv_version p) (dst_saved_conn_info_version s)) s.

Definition update_dst_saved_conn_bitmap_version (now : Z) (b : RouteConnBitmap) (dst : Z)
    (s : SyncRouteSession) : SyncRouteSession := foldl (save_conn now dst) s (bm_peer_ids b).

Definition update_dst_saved_conn_peer_list_version (now : Z) (l : RouteConnPeerList) (dst : Z)
    (s : SyncRouteSession) : SyncRouteSession :=
  foldl (fun s c => match pci_peer_id c with Some p => save_conn now dst s p | None => s end) s l.

Definition update_dst_saved_conn_info_version (now : Z) (c : ConnInfo) (dst : Z) (s : SyncRouteSession)
    : SyncRouteSession :=
  match c with
  | ConnBitmap b => update_dst_saved_conn_bitmap_version now b dst s
  | ConnPeerList l => update_dst_saved_conn_peer_list_version now l dst s
  end.

(** Key and value of an item are unwrapped. *)
Fixpoint update_dst_saved_foreign_network_version (now : Z) (infos : list ForeignInfo) (dst : Z)
    (s : SyncRouteSession) : outcome SyncRouteSession :=
  match infos with
  | [] => Done s
  | item :: infos =>
      k ← unwrap (fi_key item);
      if fk_peer_id k =? dst then update_dst_saved_foreign_network_version now infos dst s
      else
        e ← unwrap (fi_value item);
        update_dst_saved_foreign_network_version now infos dst
          (with_saved_foreign (save_version now k (fe_version e) (dst_saved_foreign_network_versions s)) s)
  end.

Definition update_initiator_flag (is_initiator : bool) (s : SyncRouteSession) : SyncRouteSession :=
  with_flags is_initiator (dst_is_initiator s) true s.

(** A new session id means that the other side was restarted. *)
Definition update_dst_session_id (session_id : Z) (s : SyncRouteSession) : SyncRouteSession :=
  if negb (session_id =? dst_session_id s)
  then with_saved ∅ ∅ (dst_saved_foreign_network_versions s) (with_dst_session_id session_id s)
  else s.

Definition clean_dst_saved_map (now : Z) (s : SyncRouteSession) : SyncRouteSession :=
  with_saved (retain_fresh now (dst_saved_peer_info_versions s))
    (retain_fresh now (dst_saved_conn_info_version s))
    (retain_fresh now (dst_saved_foreign_network_versions s)) s.

(** ** The loop of the requests

    Go through the items, asking the session whether the other side has them;
    collect those it does not have.  Asking touches the session's entries. *)
Section send_stale.
Context {A : Type} (check : A -> SyncRouteSession -> bool * SyncRouteSession).

Fixpoint send_stale (l : list A) (s : SyncRouteSession) : list A * SyncRouteSession :=
  match l with
  | [] => ([], s)
  | x :: l =>
      let '(up_to_date, s) := check x s in
      let '(rest, s) := send_stale l s in
      (if up_to_date : bool then rest else x :: rest, s)
  end.
End send_stale.

(** ** What a session knows *)

Section knowledge.
Context `{Countable K}.
Implicit Types (m : Saved K) (k : K).

Definition saved_at m k : option Z := vt_version <$> m !! k.
(** The other side is known to hold version [v] or a newer one. *)
Definition holds m k (v : Z) : bool := match saved_at m k with Some w => v <=? w | None => false end.
(** The other side holds at least what it is believed to hold. *)
Definition bounded (B : K -> Z) m : Prop := forall k w, saved_at m k = Some w -> w <= B k.

Lemma check_saved_spec now k v m :
  (check_saved now k v m).1 = holds m k v /\ forall j, saved_at (check_saved now k v m).2 j = saved_at m j.
Proof.
  unfold check_saved, holds, saved_at. destruct (m !! k) as [x|] eqn:E; simpl; [|done]. split; [done|].
  intros j. rewrite lookup_insert. case_decide; [subst; by rewrite E | done].
Qed.

Lemma saved_at_save now k v m j : saved_at (save_version now k v m) j =
  if decide (k = j) then Some (Z.max (default 0 (saved_at m k)) v) else saved_at m j.
Proof.
  unfold saved_at, save_version. rewrite lookup_upsert. case_decide; [|done]. by destruct (m !! k).
Qed.

Lemma holds_save now k v m j w :
  holds (save_version now k v m) j w = (bool_decide (k = j) && (w <=? Z.max (default 0 (saved_at m k)) v)) || holds m j w.
Proof.
  unfold holds. rewrite saved_at_save. case_decide as E; [|by rewrite bool_decide_eq_false_2].
  rewrite bool_decide_eq_true_2 by done. subst j. destruct (saved_at m k) as [x|]; simpl; lia.
Qed.

Definition save_all (now : Z) (l : list (K * Z)) m : Saved K := foldl (fun m kv => save_version now kv.1 kv.2 m) m l.

Lemma save_all_mono now l : forall m k v, holds m k v = true -> holds (save_all now l m) k v = true.
Proof.
  induction l as [|kv l IH]; intros m k v Hm; simpl; [done|]. apply IH. rewrite holds_save, Hm. by rewrite orb_true_r.
Qed.

Lemma save_all_covers now l : forall m k v, (k, v) ∈ l -> holds (save_all now l m) k v = true.
Proof.
  induction l as [|kv l IH]; intros m k v Hin; [by apply not_elem_of_nil in Hin|]. simpl.
  apply elem_of_cons in Hin as [<-|Hin]; [|by apply IH].
  apply save_all_mono. rewrite holds_save, bool_decide_eq_true_2 by done. simpl. lia.
Qed.

Lemma save_all_bounded B now l : forall m, (forall k, 0 <= B k) -> (forall k v, (k, v) ∈ l -> v <= B k) ->
  bounded B m -> bounded B (save_all now l m).
Proof.
  induction l as [|[k v] l IH]; intros m H0 Hl Hm; simpl; [done|].
  apply IH; [done | intros j w Hin; apply Hl; by right|].
  intros j w. rewrite saved_at_save. case_decide; [subst|apply Hm].
  intros [= <-]. specialize (Hl j v ltac:(by left)). specialize (H0 j).
  destruct (saved_at m j) eqn:E; simpl; [specialize (Hm j _ E)|]; lia.
Qed.

Lemma bounded_mono B B' m : (forall k, B k <= B' k) -> bounded B m -> bounded B' m.
Proof. intros HB Hm k w E. specialize (Hm k w E). specialize (HB k). lia. Qed.

Lemma bounded_ext B m m' : (forall k, saved_at m' k = saved_at m k) -> bounded B m -> bounded B m'.
Proof. intros E Hm k w. rewrite E. apply Hm. Qed.

Lemma bounded_empty B : bounded B (∅ : Saved K).
Proof. intros k w. unfold saved_at. by rewrite lookup_empty. Qed.

Lemma holds_ext m m' k v : (forall k, saved_at m' k = saved_at m k) -> holds m' k v = holds m k v.
Proof. intros E. unfold holds. by rewrite E. Qed.

Lemma bounded_holds B m k v : bounded B m -> holds m k v = true -> v <= B k.
Proof. unfold holds. intros Hm. destruct (saved_at m k) eqn:E; [|done]. specialize (Hm k _ E). lia. Qed.
End knowledge.

(** Sessions that differ in touch times only. *)
Definition touched (s s' : SyncRouteSession) : Prop := exists p c f, s' = with_saved p c f s /\
  (forall k, saved_at p k = saved_at (dst_saved_peer_info_versions s) k) /\
  (forall k, saved_at c k = saved_at (dst_saved_conn_info_version s) k) /\
  (forall k, saved_at f k = saved_at (dst_saved_foreign_network_versions s) k).

#[global] Instance touched_preorder : PreOrder touched.
Proof.
  split.
  - intros s. exists (dst_saved_peer_info_versions s), (dst_saved_conn_info_version s),
      (dst_saved_foreign_network_versions s). by destruct s.
  - intros s1 s2 s3 (p & c & f & -> & Hp & Hc & Hf) (p' & c' & f' & -> & Hp' & Hc' & Hf').
    exists p', c', f'. split; [done|]. split_and!; intros k; simpl in *; congruence.
Qed.

(** What the three checks answer. *)
Definition info_known (s : SyncRouteSession) (k v : Z) : bool :=
  (v =? 0) || (k =? dst_peer_id s) || holds (dst_saved_peer_info_versions s) k v.
Definition conn_known (s : SyncRouteSession) (k v : Z) : bool :=
  (v =? 0) || (k =? dst_peer_id s) || holds (dst_saved_conn_info_version s) k v.
Definition foreign_known (s : SyncRouteSession) (k : ForeignKey) (v : Z) : bool :=
  (v =? 0) || (fk_peer_id k =? dst_peer_id s) || holds (dst_saved_foreign_network_versions s) k v.

Lemma touched_known s s' : touched s s' ->
  (forall k v, info_known s' k v = info_known s k v) /\ (forall k v, conn_known s' k v = conn_known s k v) /\
  (forall k v, foreign_known s' k v = foreign_known s k v).
Proof.
  intros (p & c & f & -> & Hp & Hc & Hf). unfold info_known, conn_known, foreign_known. simpl.
  split_and!; intros k v; f_equal; by apply holds_ext.
Qed.

(** A check answers [known] and only touches. *)
Definition asks {A} (check : A -> SyncRouteSession -> bool * SyncRouteSession)
    (known : A -> SyncRouteSession -> bool) : Prop := forall x s,
  (check x s).1 = known x s /\ touched s (check x s).2 /\
  forall s', touched s s' -> known x s' = known x s.

Lemma check_info_asks now {A} (f : A -> Z) (g : A -> Z) :
  asks (fun x => check_saved_peer_info_update_to_date now (f x) (g x)) (fun x s => info_known s (f x) (g x)).
Proof.
  intros x s. split_and!; [| |by intros s' (Hs & _ & _)%touched_known].
  - unfold check_saved_peer_info_update_to_date, info_known. destruct (_ || _); [done|].
    destruct (check_saved_spec now (f x) (g x) (dst_saved_peer_info_versions s)) as [E _].
    by destruct (check_saved _ _ _ _).
  - unfold check_saved_peer_info_update_to_date. destruct (_ || _); [done|].
    destruct (check_saved_spec now (f x) (g x) (dst_saved_peer_info_versions s)) as [_ E].
    destruct (check_saved _ _ _ _) as [b m]. simpl in *. by eexists m, _, _.
Qed.

Lemma check_conn_asks now {A} (f : A -> Z) (g : A -> Z) :
  asks (fun x => check_saved_conn_version_update_to_date now (f x) (g x)) (fun x s => conn_known s (f x) (g x)).
Proof.
  intros x s. split_and!; [| |by intros s' (_ & Hs & _)%touched_known].
  - unfold check_saved_conn_version_update_to_date, conn_known. destruct (_ || _); [done|].
    destruct (check_saved_spec now (f x) (g x) (dst_saved_conn_info_version s)) as [E _].
    by destruct (check_saved _ _ _ _).
  - unfold check_saved_conn_version_update_to_date. destruct (_ || _); [done|].
    destruct (check_saved_spec now (f x) (g x) (dst_saved_conn_info_version s)) as [_ E].
    destruct (check_saved _ _ _ _) as [b m]. simpl in *. by eexists _, m, _.
Qed.

Lemma check_foreign_asks now {A} (f : A -> ForeignKey) (g : A -> Z) :
  asks (fun x => check_saved_foreign_network_version_update_to_date now (f x) (g x))
    (fun x s => foreign_known s (f x) (g x)).
Proof.
  intros x s. split_and!; [| |by intros s' (_ & _ & Hs)%touched_known].
  - unfold check_saved_foreign_network_version_update_to_date, foreign_known. destruct (_ || _); [done|].
    destruct (check_saved_spec now (f x) (g x) (dst_saved_foreign_network_versions s)) as [E _].
    by destruct (check_saved _ _ _ _).
  - unfold check_saved_foreign_network_version_update_to_date. destruct (_ || _); [done|].
    destruct (check_saved_spec now (f x) (g x) (dst_saved_foreign_network_versions s)) as [_ E].
    destruct (check_saved _ _ _ _) as [b m]. simpl in *. by eexists _, _, m.
Qed.

Lemma send_stale_spec {A} check (known : A -> SyncRouteSession -> bool) l s : asks check known ->
  (send_stale check l s).1 = base.filter (fun x => known x s = false) l /\ touched s (send_stale check l s).2.
Proof.
  intros Hask. revert s. induction l as [|x l IH]; intros s; simpl; [done|].
  destruct (Hask x s) as (E & Ht & Hext). destruct (check x s) as [b s1] eqn:Ec. simpl in *.
  destruct (IH s1) as [El Ht']. destruct (send_stale check l s1) as [rest s2]. simpl in *. subst rest b.
  split; [|by etrans]. rewrite filter_cons.
  assert (base.filter (fun x => known x s1 = false) l = base.filter (fun x => known x s = false) l) as ->.
  { apply list_filter_iff. intros y. destruct (Hask y s) as (_ & _ & Hy). by rewrite Hy. }
  case_decide as E; by destruct (known x s).
Qed.

(** *** What recording adds *)

Lemma update_infos_save now infos dst s :
  update_dst_saved_peer_info_version now infos dst s = with_saved_infos (save_all now
    ((fun i => (ri_peer_id i, ri_version i)) <$> base.filter (fun i => ri_peer_id i <> dst) infos)
    (dst_saved_peer_info_versions s)) s.
Proof.
  unfold update_dst_saved_peer_info_version. revert s.
  induction infos as [|i infos IH]; intros s; simpl; [by destruct s|].
  rewrite IH, filter_cons. unfold save_info. destruct (Z.eqb_spec (ri_peer_id i) dst) as [E|E].
  - rewrite decide_False by tauto. done.
  - rewrite decide_True by done. done.
Qed.

Definition conn_versions (c : ConnInfo) : list PeerIdVersion :=
  match c with
  | ConnBitmap b => bm_peer_ids b
  | ConnPeerList l => omap pci_peer_id l
  end.

Lemma update_conns_save now c dst s :
  update_dst_saved_conn_info_version now c dst s = with_saved_conns (save_all now
    ((fun p => (piv_peer_id p, piv_version p)) <$> base.filter (fun p => piv_peer_id p <> dst) (conn_versions c))
    (dst_saved_conn_info_version s)) s.
Proof.
  assert (forall l s, foldl (save_conn now dst) s l = with_saved_conns (save_all now
    ((fun p => (piv_peer_id p, piv_version p)) <$> base.filter (fun p => piv_peer_id p <> dst) l)
    (dst_saved_conn_info_version s)) s) as Hl.
  { clear s. induction l as [|p l IH]; intros s; simpl; [by destruct s|].
    rewrite IH, filter_cons. unfold save_conn. destruct (Z.eqb_spec (piv_peer_id p) dst) as [E|E].
    - rewrite decide_False by tauto. done.
    - rewrite decide_True by done. done. }
  destruct c as [b|l]; simpl; [apply Hl|]. rewrite <- Hl. unfold update_dst_saved_conn_peer_list_version.
  revert s. induction l as [|x l IH]; intros s; simpl; [done|]. rewrite IH. by destruct (pci_peer_id x).
Qed.

Definition foreign_versions (infos : list ForeignInfo) : list (ForeignKey * Z) :=
  omap (fun i => k ← fi_key i; e ← fi_value i; Some (k, fe_version e)) infos.

Lemma update_foreign_save now infos dst : forall s,
  Forall (fun i => is_Some (fi_key i) /\ is_Some (fi_value i)) infos ->
  update_dst_saved_foreign_network_version now infos dst s = Done (with_saved_foreign (save_all now
    (base.filter (fun kv => fk_peer_id kv.1 <> dst) (foreign_versions infos))
    (dst_saved_foreign_network_versions s)) s).
Proof.
  induction infos as [|i infos IH]; intros s Hs; simpl; [by destruct s|].
  apply Forall_cons in Hs as [[[k Ek] [e Ee]] Hs]. rewrite Ek, Ee. simpl. rewrite filter_cons. simpl.
  destruct (Z.eqb_spec (fk_peer_id k) dst) as [E|E].
  - rewrite decide_False by tauto. by rewrite IH.
  - rewrite decide_True by done. by rewrite IH.
Qed.

Lemma update_foreign_Done now infos dst : forall s s',
  update_dst_saved_foreign_network_version now infos dst s = Done s' ->
  s' = with_saved_foreign (save_all now (base.filter (fun kv => fk_peer_id kv.1 <> dst) (foreign_versions infos))
         (dst_saved_foreign_network_versions s)) s.
Proof.
  induction infos as [|i infos IH]; intros s s'; simpl; [intros [= <-]; by destruct s|].
  destruct (fi_key i) as [k|]; [simpl|done]. destruct (Z.eqb_spec (fk_peer_id k) dst) as [E|E].
  - intros ->%IH. destruct (fi_value i); simpl; [|done]. rewrite filter_cons, decide_False by tauto. done.
  - destruct (fi_value i) as [e|]; [simpl|done]. intros ->%IH.
    rewrite filter_cons, decide_True by done. done.
Qed.

Lemma update_dst_session_id_same s : update_dst_session_id (dst_session_id s) s = s.
Proof. unfold update_dst_session_id. by rewrite Z.eqb_refl. Qed.
