(* ===== verification/RouteService.v ===== *)
(** Route synchronisation between peers: [PeerRouteServiceImpl],
    [RouteSessionManager] and the lookups of [PeerRoute] in
    [easytier/src/peers/peer_ospf_route.rs].

    A node keeps its tables ([SyncedRoute]), two route tables built from them
    ([RouteTable]) and sessions ([SyncSession]) with some of the peers it is
    connected to.  Sessions are shared ([Arc]): the map of sessions gives
    addresses into a store, and a task that waits for a response keeps its
    address.  A synchronisation round is a request ([sync_begin]), its handling
    at the other node ([sync_route_info]) and the use of the response
    ([sync_end]); other operations may come between them.  Each method is atomic
    and takes the clock readings it makes, one for the readings of one call;
    products of table sizes are taken to fit a [usize].

    The peers a node is connected to and the foreign networks it hosts are
    arguments ([RouteInterface]); the cost function is the class
    [CostCalculator]; the part of [prost_reflect] that turns infos into messages
    and back is the class [InfoWire].

    The theorem here: a connection bitmap read back gives the connections it was
    built from.  Rounds between two nodes are the subject of [RouteExchange],
    what holds whatever the tasks of a node do that of [RouteTasks]. *)

From stdpp Require Import base numbers list gmap strings.
From S2P Require Import Prelude Text GraphAlgo AclRules SyncedRoute RouteTable SyncSession.
Open Scope Z_scope.

(** ** Interfaces *)

(** [RouteCostCalculatorInterface]. *)
Class CostCalculator (C : Type) := {
  calculate_cost : C -> PeerId -> PeerId -> Z;
  begin_update : C -> C;
  end_update : C -> C;
  need_update : C -> bool
}.

Inductive DefaultRouteCostCalculator := DefaultCost.

#[global] Instance default_cost_calculator : CostCalculator DefaultRouteCostCalculator := {|
  calculate_cost _ _ _ := 1; begin_update c := c; end_update c := c; need_update _ := false |}.

(** [transcode_from] and decoding as [RoutePeerInfo]. *)
Class InfoWire `{RouteLib} := {
  transcode : RoutePeerInfo -> DynamicMessage;
  decode_info : DynamicMessage -> RoutePeerInfo
}.

Class InfoWireLaws `{InfoWire} : Prop := {
  decode_transcode : forall i, decode_info (transcode i) = i;
  raw_id_decode : forall m, raw_peer_id m = Some (ri_peer_id (decode_info m))
}.

(** ** Requests and responses *)

Record SyncRouteInfoRequest := {
  rq_my_peer_id : PeerId; rq_my_session_id : Z; rq_is_initiator : bool;
  rq_peer_infos : option (list RoutePeerInfo); rq_conn_info : option ConnInfo;
  rq_foreign : option (list ForeignInfo)
}.

Record SyncRouteInfoResponse := { rs_is_initiator : bool; rs_session_id : Z; rs_error : option SyncError }.

(** ** Connection bitmaps *)

Definition bitmap_default : RouteConnBitmap := {| bm_peer_ids := []; bitmap := [] |}.

(** [bitmap[i / 8] |= 1 << (i % 8)] *)
Definition set_bit (bits : bytes) (i : Z) : outcome bytes :=
  match bits !! Z.to_nat (i / 8) with
  | Some byte => Done (<[Z.to_nat (i / 8) := Z.lor byte (Z.shiftl 1 (i mod 8))]> bits)
  | None => Panicked IndexOutOfRange
  end.

(** The bits of one row, from column [idx]. *)
Fixpoint fill_row (base : Z) (connected : gset PeerId) (idx : Z) (ids : list PeerIdVersion) (bits : bytes)
    : outcome bytes :=
  match ids with
  | [] => Done bits
  | p :: ids =>
      bits ← (if bool_decide (piv_peer_id p ∈ connected) then set_bit bits (base + idx) else Done bits);
      fill_row base connected (idx + 1) ids bits
  end.

Section service.
Context `{RouteLib, !InfoWire, PetGraph, PrefixTrie, !BinaryHeap (@min_scored_cmp Z nat _), CostCalculator C}.
Context `{!IterOrder PeerId RoutePeerInfo, !IterOrder PeerId nat, !IterOrder nat (nat * Z),
          !IterOrder PeerId NextHopInfo, !IterOrder ForeignKey ForeignEntry, !IterOrder text bytes,
          !IterOrder PeerId (gset PeerId * Z)}.

Fixpoint fill_rows (s : SyncedRouteInfo) (all : list PeerIdVersion) (peer_idx : Z) (ids : list PeerIdVersion)
    (bits : bytes) : outcome bytes :=
  match ids with
  | [] => Done bits
  | p :: ids =>
      bits ← (match conn_map s !! piv_peer_id p with
              | Some x => fill_row (peer_idx * len all) x.1 0 all bits
              | None => Done bits
              end);
      fill_rows s all (peer_idx + 1) ids bits
  end.

Definition all_dst_peer_ids (s : SyncedRouteInfo) : gset PeerId :=
  ⋃ ((fun x => x.2.1) <$> map_iter (conn_map s)).

(** The peers in the bitmap: those that can be reached from some peer. *)
Definition bitmap_peer_ids (t : RouteTable) (s : SyncedRouteInfo) : list PeerIdVersion :=
  base.filter (fun p => piv_peer_id p ∈ all_dst_peer_ids s \/ peer_reachable (piv_peer_id p) t = true)
    ((fun x => {| piv_peer_id := x.1; piv_version := x.2.2 |}) <$> map_iter (conn_map s)).

Definition local_conn_bitmap (t : RouteTable) (s : SyncedRouteInfo) : outcome RouteConnBitmap :=
  let all := bitmap_peer_ids t s in
  bits ← fill_rows s all 0 all (replicate (Z.to_nat ((len all * len all + 7) / 8)) 0);
  Done {| bm_peer_ids := all; bitmap := bits |}.

(** ** The service *)

(** [NetworkIdentity] is compared by name and secret digest. *)
Record PeerRouteServiceImpl := mkService {
  my_peer_id : PeerId; my_peer_route_id : Z;
  sessions : gmap PeerId nat; session_store : gmap nat SyncRouteSession;
  cost_calculator : option C;
  route_table : RouteTable; route_table_with_cost : RouteTable;
  foreign_network_owner_map : gmap (text * option bytes) (list PeerId);
  foreign_network_my_peer_id_map : gmap (text * PeerId) PeerId;
  synced_route_info : SyncedRouteInfo;
  cached_local_conn_map : RouteConnBitmap; cached_local_conn_map_version : Z;
  last_update_my_foreign_network : option Z; peer_info_last_update : Z
}.
Implicit Types (v : PeerRouteServiceImpl) (t : RouteTable) (s : SyncedRouteInfo).

Definition service_new (my_peer_id random_id : Z) (c : C) (now : Z) : PeerRouteServiceImpl :=
  mkService my_peer_id random_id ∅ ∅ (Some c) route_table_new route_table_new ∅ ∅ synced_new
    bitmap_default 0 None now.

Definition with_sessions m st v := mkService (my_peer_id v) (my_peer_route_id v) m st (cost_calculator v)
  (route_table v) (route_table_with_cost v) (foreign_network_owner_map v) (foreign_network_my_peer_id_map v)
  (synced_route_info v) (cached_local_conn_map v) (cached_local_conn_map_version v)
  (last_update_my_foreign_network v) (peer_info_last_update v).
Definition with_tables c t tc v := mkService (my_peer_id v) (my_peer_route_id v) (sessions v) (session_store v) c
  t tc (foreign_network_owner_map v) (foreign_network_my_peer_id_map v)
  (synced_route_info v) (cached_local_conn_map v) (cached_local_conn_map_version v)
  (last_update_my_foreign_network v) (peer_info_last_update v).
Definition with_owners o m v := mkService (my_peer_id v) (my_peer_route_id v) (sessions v) (session_store v)
  (cost_calculator v) (route_table v) (route_table_with_cost v) o m
  (synced_route_info v) (cached_local_conn_map v) (cached_local_conn_map_version v)
  (last_update_my_foreign_network v) (peer_info_last_update v).
Definition with_synced s v := mkService (my_peer_id v) (my_peer_route_id v) (sessions v) (session_store v)
  (cost_calculator v) (route_table v) (route_table_with_cost v) (foreign_network_owner_map v)
  (foreign_network_my_peer_id_map v) s (cached_local_conn_map v) (cached_local_conn_map_version v)
  (last_update_my_foreign_network v) (peer_info_last_update v).
Definition with_cached b n v := mkService (my_peer_id v) (my_peer_route_id v) (sessions v) (session_store v)
  (cost_calculator v) (route_table v) (route_table_with_cost v) (foreign_network_owner_map v)
  (foreign_network_my_peer_id_map v) (synced_route_info v) b n
  (last_update_my_foreign_network v) (peer_info_last_update v).
Definition with_times f p v := mkService (my_peer_id v) (my_peer_route_id v) (sessions v) (session_store v)
  (cost_calculator v) (route_table v) (route_table_with_cost v) (foreign_network_owner_map v)
  (foreign_network_my_peer_id_map v) (synced_route_info v) (cached_local_conn_map v)
  (cached_local_conn_map_version v) f p.

(** *** Sessions *)

Definition get_session (dst : PeerId) v : option nat := sessions v !! dst.

Definition put_session (a : nat) (x : SyncRouteSession) v : PeerRouteServiceImpl :=
  with_sessions (sessions v) (<[a := x]> (session_store v)) v.

Definition get_or_create_session (random_id : Z) (dst : PeerId) v : nat * PeerRouteServiceImpl :=
  match sessions v !! dst with
  | Some a => (a, v)
  | None =>
      let a := fresh (dom (session_store v)) in
      (a, with_sessions (<[dst := a]> (sessions v))
            (<[a := session_new (my_peer_id v) dst random_id]> (session_store v)) v)
  end.

Definition remove_session (dst : PeerId) v : PeerRouteServiceImpl :=
  with_sessions (delete dst (sessions v)) (session_store v) v.

Definition list_session_peers v : list PeerId := (map_iter (sessions v)).*1.

(** [start_session_task]: a task that is not running is started. *)
Definition start_session_task (a : nat) v : PeerRouteServiceImpl :=
  match session_store v !! a with
  | Some x => if task_running x then v else put_session a (with_task true x) v
  | None => v
  end.

Definition get_or_start_session (random_id : Z) (dst : PeerId) v : nat * PeerRouteServiceImpl :=
  let '(a, v) := get_or_create_session random_id dst v in (a, start_session_task a v).

(** *** Tables *)

Definition update_peer_info_last_update (now : Z) v := with_times (last_update_my_foreign_network v) now v.

Definition update_route_table v : outcome PeerRouteServiceImpl :=
  calc ← unwrap (cost_calculator v);
  let calc := begin_update calc in
  t ← build_from_synced_info (calculate_cost calc) (my_peer_id v) (synced_route_info v) LeastHop (route_table v);
  tc ← build_from_synced_info (calculate_cost calc) (my_peer_id v) (synced_route_info v) LeastCost
         (route_table_with_cost v);
  Done (with_tables (Some (end_update calc)) t tc v).

(** A digest that does not have 32 bytes counts as all zeros. *)
Definition digest_of (l : bytes) : bytes := if (length l =? 32)%nat then l else replicate 32 0.

Definition add_owner v (acc : gmap (text * option bytes) (list PeerId) * gmap (text * PeerId) PeerId)
    (item : ForeignKey * ForeignEntry)
    : gmap (text * option bytes) (list PeerId) * gmap (text * PeerId) PeerId :=
  let '(owners, mine) := acc in
  let '(key, entry) := item in
  if (fk_peer_id key =? my_peer_id v) || negb (peer_reachable (fk_peer_id key) (route_table v))
     || bool_decide (foreign_peer_ids entry = [])
  then acc
  else
    let identity := (fk_network_name key, Some (digest_of (network_secret_digest entry))) in
    (upsert identity (fun l => l ++ [my_peer_id_for_this_network entry]) [my_peer_id_for_this_network entry] owners,
     <[(fk_network_name key, my_peer_id_for_this_network entry) := fk_peer_id key]> mine).

Definition update_foreign_network_owner_map v : PeerRouteServiceImpl :=
  let '(owners, mine) := foldl (add_owner v) (∅, ∅) (map_iter (foreign_network (synced_route_info v))) in
  with_owners owners mine v.

Definition cost_calculator_need_update v : bool :=
  match cost_calculator v with Some c => need_update c | None => false end.

Definition update_route_table_and_cached_local_conn_bitmap (now : Z) v : outcome PeerRouteServiceImpl :=
  let v := update_peer_info_last_update now v in
  v ← update_route_table v;
  b ← local_conn_bitmap (route_table v) (synced_route_info v);
  let '(larger, n) := version_set_if_larger (version (synced_route_info v)) (cached_local_conn_map_version v) in
  Done (with_cached (if larger : bool then b else cached_local_conn_map v) n v).

(** *** Our own announcements *)

(** [now] is an [Instant], [wall] and [wall'] are [SystemTime]s. *)
Definition service_update_my_peer_info (now wall wall' : Z) (g : GlobalView) v
    : outcome (bool * PeerRouteServiceImpl) :=
  let '(updated, s) := update_my_peer_info wall wall' (my_peer_id v) (my_peer_route_id v) g (synced_route_info v) in
  let v := with_synced s v in
  if updated : bool then v ← update_route_table_and_cached_local_conn_bitmap now v; Done (true, v)
  else Done (false, v).

(** [peers] is what [list_peers] of the interface returns. *)
Definition service_update_my_conn_info (now wall : Z) (peers : list PeerId) v
    : outcome (bool * PeerRouteServiceImpl) :=
  let '(updated, s) := update_my_conn_info wall (my_peer_id v) (list_to_set peers) (synced_route_info v) in
  let v := with_synced s v in
  if updated : bool then v ← update_route_table_and_cached_local_conn_bitmap now v; Done (true, v)
  else Done (false, v).

Definition OSPF_UPDATE_MY_GLOBAL_FOREIGN_NETWORK_INTERVAL_SEC : Z := 10.

(** [foreign] is what [list_foreign_networks] returns. *)
Definition service_update_my_foreign_network (now wall : Z) (foreign : gmap ForeignKey ForeignEntry) v
    : outcome (bool * PeerRouteServiceImpl) :=
  let too_early := match last_update_my_foreign_network v with
                   | Some last => Z.max 0 (now - last) / SEC <? OSPF_UPDATE_MY_GLOBAL_FOREIGN_NETWORK_INTERVAL_SEC
                   | None => false
                   end in
  if too_early then Done (false, v)
  else
    let v := with_times (Some now) (peer_info_last_update v) v in
    '(updated, s) ← update_my_foreign_network wall (my_peer_id v) foreign (synced_route_info v);
    Done (updated, with_synced s v).

Definition update_my_infos (now wall : Z) (g : GlobalView) (peers : list PeerId)
    (foreign : gmap ForeignKey ForeignEntry) v : outcome (bool * PeerRouteServiceImpl) :=
  '(info, v) ← service_update_my_peer_info now wall wall g v;
  '(conn, v) ← service_update_my_conn_info now wall peers v;
  '(net, v) ← service_update_my_foreign_network now wall foreign v;
  let v := if (conn : bool) || (info : bool) then update_foreign_network_owner_map v else v in
  let v := if info : bool then update_peer_info_last_update now v else v in
  Done (info || conn || (net : bool), v).

(** *** Requests *)

Definition none_if_empty {A} (l : list A) : option (list A) := match l with [] => None | _ => Some l end.

Definition build_route_info (now : Z) v (x : SyncRouteSession) : option (list RoutePeerInfo) * SyncRouteSession :=
  let reachable := base.filter (fun item => peer_reachable item.1 (route_table v) = true)
                     (map_iter (peer_infos (synced_route_info v))) in
  let '(infos, x) := send_stale (fun i => check_saved_peer_info_update_to_date now (ri_peer_id i) (ri_version i))
                       reachable.*2 x in
  (none_if_empty infos, x).

Definition stale_conns (now : Z) v (x : SyncRouteSession) : list PeerIdVersion * SyncRouteSession :=
  send_stale (fun p => check_saved_conn_version_update_to_date now (piv_peer_id p) (piv_version p))
    (bm_peer_ids (cached_local_conn_map v)) x.

Definition build_conn_bitmap (now : Z) v (x : SyncRouteSession) : option RouteConnBitmap * SyncRouteSession :=
  let '(stale, x) := stale_conns now v x in
  (match stale with [] => None | _ => Some (cached_local_conn_map v) end, x).

(** [size_of::<PeerIdVersion>()] is 8, [size_of::<PeerId>()] is 4. *)
Definition estimate_conn_bitmap_size v : Z :=
  len (bitmap (cached_local_conn_map v)) + len (bm_peer_ids (cached_local_conn_map v)) * 8.

Definition conn_list_item v (p : PeerIdVersion) : option PeerConnInfo :=
  (fun c => {| pci_peer_id := Some p; connected_peer_ids := ascending c.1 |})
    <$> conn_map (synced_route_info v) !! piv_peer_id p.

Definition build_conn_peer_list (now : Z) v (x : SyncRouteSession)
    : option RouteConnPeerList * Z * SyncRouteSession :=
  let '(stale, x) := stale_conns now v x in
  let items := omap (conn_list_item v) stale in
  (none_if_empty items, foldl (fun n c => n + 8 + len (connected_peer_ids c) * 4) 0 items, x).

Definition build_foreign_network_info (now : Z) v (x : SyncRouteSession)
    : option (list ForeignInfo) * SyncRouteSession :=
  let '(items, x) := send_stale (fun kv => check_saved_foreign_network_version_update_to_date now kv.1 (fe_version kv.2))
                       (map_iter (foreign_network (synced_route_info v))) x in
  (none_if_empty ((fun kv => {| fi_key := Some kv.1; fi_value := Some kv.2 |}) <$> items), x).

(** [force] is [FORCE_USE_CONN_LIST]. *)
Definition build_conn_info (force : bool) (now : Z) v (x : SyncRouteSession) (dst : PeerId)
    : option ConnInfo * SyncRouteSession :=
  let dst_supports_peer_list :=
    default false (support_conn_list_sync <$>
      (i ← peer_infos (synced_route_info v) !! dst; ri_feature_flag i)) in
  if negb dst_supports_peer_list && negb force then
    let '(b, x) := build_conn_bitmap now v x in (ConnBitmap <$> b, x)
  else
    let '(peer_list, size, x) := build_conn_peer_list now v x in
    if (size <? estimate_conn_bitmap_size v) || force || bool_decide (peer_list = None)
    then (ConnPeerList <$> peer_list, x)
    else let '(b, x) := build_conn_bitmap now v x in (ConnBitmap <$> b, x).

Definition build_sync_request (force : bool) (now : Z) v (x : SyncRouteSession) (dst : PeerId)
    : option (list RoutePeerInfo) * option ConnInfo * option (list ForeignInfo) * SyncRouteSession :=
  let '(infos, x) := build_route_info now v x in
  let '(conn, x) := build_conn_info force now v x dst in
  let '(foreign, x) := build_foreign_network_info now v x in
  (infos, conn, foreign, x).

(** The messages the infos are sent as: the one an info arrived as, if it did. *)
Definition build_sync_route_raw_req (raws : gmap PeerId DynamicMessage) (infos : list RoutePeerInfo)
    : list DynamicMessage :=
  (fun i => default (transcode i) (raws !! ri_peer_id i)) <$> infos.

(** [sync_route_with_peer] up to the call: the request and its infos as
    messages, or nothing when there is nothing to say. *)
Definition sync_begin (force : bool) (now : Z) (sync_as_initiator : bool) v (x : SyncRouteSession)
    : option (SyncRouteInfoRequest * option (list DynamicMessage)) * SyncRouteSession :=
  let '(infos, conn, foreign, x) := build_sync_request force now v x (dst_peer_id x) in
  if bool_decide (infos = None) && match conn with None => true | _ => false end
     && match foreign with None => true | _ => false end && negb (need_sync_initiator_info x)
     && negb (sync_as_initiator && we_are_initiator x)
  then (None, x)
  else
    let x := with_need_sync false x in
    (Some ({| rq_my_peer_id := my_peer_id v; rq_my_session_id := my_session_id x;
              rq_is_initiator := we_are_initiator x; rq_peer_infos := infos; rq_conn_info := conn;
              rq_foreign := foreign |},
           build_sync_route_raw_req (raw_peer_infos (synced_route_info v)) <$> infos), x).

(** The rest, with the response ([None] for a failed call); the versions
    recorded are those of the request. *)
Definition sync_end (now : Z) (is_public_server : bool) (rq : SyncRouteInfoRequest)
    (ret : option SyncRouteInfoResponse) (x : SyncRouteSession) : outcome SyncRouteSession :=
  match ret with
  | None => Done (with_need_sync true x)
  | Some resp =>
      match rs_error resp with
      | Some DuplicatePeerId => if is_public_server then Done x else Panicked ExplicitPanic
      | Some _ => Done (with_need_sync true x)
      | None =>
          let dst := dst_peer_id x in
          let x := with_counts (as_u32 (rpc_tx_count x + 1)) (rpc_rx_count x) x in
          let x := with_flags (we_are_initiator x) (rs_is_initiator resp) (need_sync_initiator_info x) x in
          let x := update_dst_session_id (rs_session_id resp) x in
          let x := match rq_peer_infos rq with
                   | Some infos => update_dst_saved_peer_info_version now infos dst x
                   | None => x
                   end in
          let x := match rq_conn_info rq with
                   | Some c => update_dst_saved_conn_info_version now c dst x
                   | None => x
                   end in
          match rq_foreign rq with
          | Some l => update_dst_saved_foreign_network_version now l dst x
          | None => Done x
          end
      end
  end.

(** A whole round, [answer] giving the response: [true] ends the loop. *)
Definition sync_route_with_peer (force : bool) (now : Z) (is_public_server sync_as_initiator : bool) v
    (answer : SyncRouteInfoRequest -> option SyncRouteInfoResponse) (x : SyncRouteSession)
    : outcome (bool * SyncRouteSession) :=
  match sync_begin force now sync_as_initiator v x with
  | (None, x) => Done (true, x)
  | (Some (rq, _), x) => x ← sync_end now is_public_server rq (answer rq) x; Done (false, x)
  end.

(** The inner loop of [session_task], running for less than ten seconds: only
    its first round may be made as initiator. *)
Fixpoint sync_loop (fuel : nat) (force : bool) (now : Z) (is_public_server sync_as_initiator : bool) v
    (answer : SyncRouteInfoRequest -> option SyncRouteInfoResponse) (x : SyncRouteSession)
    : outcome SyncRouteSession :=
  match fuel with
  | O => Panicked OutOfFuel
  | S fuel =>
      '(finished, x) ← sync_route_with_peer force now is_public_server sync_as_initiator v answer x;
      if finished : bool then Done x else sync_loop fuel force now is_public_server false v answer x
  end.

(** *** Handling a request *)

(** The request as the other side decodes it. *)
Definition as_received (rq : SyncRouteInfoRequest) (raws : option (list DynamicMessage)) : SyncRouteInfoRequest := {|
  rq_my_peer_id := rq_my_peer_id rq; rq_my_session_id := rq_my_session_id rq;
  rq_is_initiator := rq_is_initiator rq; rq_peer_infos := option_map (map decode_info) raws;
  rq_conn_info := rq_conn_info rq; rq_foreign := rq_foreign rq |}.

Definition update_session (a : nat) (f : SyncRouteSession -> SyncRouteSession) v : PeerRouteServiceImpl :=
  with_sessions (sessions v) (alter f a (session_store v)) v.

(** The infos of a request: on a duplicated peer id what was stored stays. *)
Definition handle_infos (wall now : Z) (decls : list GroupIdentity) (a : nat) (from : PeerId)
    (infos : list RoutePeerInfo) (raws : list DynamicMessage) v
    : outcome (result SyncError unit * PeerRouteServiceImpl) :=
  '(r, s) ← update_peer_infos wall (my_peer_id v) (my_peer_route_id v) from infos raws (synced_route_info v);
  match r with
  | Err e => Done (Err e, with_synced s v)
  | Ok _ =>
      let v := with_synced (verify_and_update_group_trusts infos decls s) v in
      Done (Ok tt, update_session a (update_dst_saved_peer_info_version now infos from) v)
  end.

Definition handle_conn (wall now : Z) (a : nat) (from : PeerId) (c : ConnInfo) v : outcome PeerRouteServiceImpl :=
  s ← update_conn_info wall c (synced_route_info v);
  Done (update_session a (update_dst_saved_conn_info_version now c from) (with_synced s v)).

Definition handle_foreign (wall now : Z) (a : nat) (from : PeerId) (l : list ForeignInfo) v
    : outcome PeerRouteServiceImpl :=
  let v := with_synced (update_foreign_network wall l (synced_route_info v)) v in
  x ← unwrap (session_store v !! a);
  x ← update_dst_saved_foreign_network_version now l from x;
  Done (put_session a x v).

Definition do_sync_route_info (wall now random_id : Z) (decls : list GroupIdentity) (rq : SyncRouteInfoRequest)
    (raws : option (list DynamicMessage)) v
    : outcome (result SyncError SyncRouteInfoResponse * PeerRouteServiceImpl) :=
  let from := rq_my_peer_id rq in
  let '(a, v) := get_or_start_session random_id from v in
  let v := update_session a (fun x => with_counts (rpc_tx_count x) (as_u32 (rpc_rx_count x + 1)) x) v in
  let v := update_session a (update_dst_session_id (rq_my_session_id rq)) v in
  '(r, v) ← (match rq_peer_infos rq with
             | Some infos => raws ← unwrap raws; handle_infos wall now decls a from infos raws v
             | None => Done (Ok tt, v)
             end);
  match r with
  | Err e => Done (Err e, v)
  | Ok _ =>
      v ← (match rq_conn_info rq with Some c => handle_conn wall now a from c v | None => Done v end);
      let need_update_route_table := bool_decide (is_Some (rq_peer_infos rq)) || bool_decide (is_Some (rq_conn_info rq)) in
      v ← (if need_update_route_table then update_route_table_and_cached_local_conn_bitmap now v else Done v);
      v ← (match rq_foreign rq with Some l => handle_foreign wall now a from l v | None => Done v end);
      let v := if need_update_route_table || bool_decide (is_Some (rq_foreign rq))
               then update_foreign_network_owner_map v else v in
      let v := update_session a
                 (fun x => with_flags (we_are_initiator x) (rq_is_initiator rq) (need_sync_initiator_info x) x) v in
      x ← unwrap (session_store v !! a);
      Done (Ok {| rs_is_initiator := we_are_initiator x; rs_session_id := my_session_id x; rs_error := None |}, v)
  end.

(** The RPC method: the infos come with their messages, one each; an error
    becomes a response. *)
Definition sync_route_info (wall now random_id : Z) (decls : list GroupIdentity) (rq : SyncRouteInfoRequest)
    (raw_input : option (list DynamicMessage)) v : outcome (SyncRouteInfoResponse * PeerRouteServiceImpl) :=
  raws ← (match rq_peer_infos rq with
          | Some infos =>
              r ← unwrap raw_input;
              if (length r =? length infos)%nat then Done (Some r) else Panicked AssertionFailed
          | None => Done None
          end);
  '(ret, v) ← do_sync_route_info wall now random_id decls rq raws v;
  Done (match ret with
        | Ok resp => resp
        | Err e => {| rs_is_initiator := false; rs_session_id := 0; rs_error := Some e |}
        end, v).

(** *** Maintenance *)

(** The infos that are too old; an info must have a valid time. *)
Fixpoint expired_infos (wall : Z) (l : list (PeerId * RoutePeerInfo)) : outcome (list PeerId) :=
  match l with
  | [] => Done []
  | (k, i) :: l =>
      t ← unwrap (ri_last_update i);
      t ← unwrap (to_time t);
      rest ← expired_infos wall l;
      Done (if (t <=? wall) && (REMOVE_DEAD_PEER_INFO_AFTER <? wall - t) then k :: rest else rest)
  end.

(** An entry without a valid time in the past is too old. *)
Definition foreign_expired (wall : Z) (e : ForeignEntry) : bool :=
  match t ← fe_last_update e; to_time t with
  | Some t => if t <=? wall then REMOVE_DEAD_PEER_INFO_AFTER <? wall - t else true
  | None => true
  end.

Definition service_clear_expired_peer (wall : Z) v : outcome PeerRouteServiceImpl :=
  dead ← expired_infos wall (map_iter (peer_infos (synced_route_info v)));
  let s := foldl (fun s p => remove_peer p s) (synced_route_info v) dead in
  let s := with_foreign (retain (fun _ e => negb (foreign_expired wall e)) (foreign_network s)) s in
  let v := with_synced s v in
  Done (with_tables (cost_calculator v) (clean_expired_route_info (route_table v))
          (clean_expired_route_info (route_table_with_cost v)) v).

Definition service_clean_dst_saved_map (now : Z) (dst : PeerId) v : PeerRouteServiceImpl :=
  match get_session dst v with
  | Some a => update_session a (clean_dst_saved_map now) v
  | None => v
  end.

(** [set_route_cost_fn] *)
Definition set_route_cost_fn (c : C) v : outcome PeerRouteServiceImpl :=
  let v := with_tables (Some c) (route_table v) (route_table_with_cost v) v in
  update_route_table (with_synced (inc_version (synced_route_info v)) v).

(** One round of [update_my_peer_info_routine]. *)
Definition update_my_peer_info_round (now wall : Z) (g : GlobalView) (peers : list PeerId)
    (foreign : gmap ForeignKey ForeignEntry) v : outcome PeerRouteServiceImpl :=
  '(_, v) ← update_my_infos now wall g peers foreign v;
  if cost_calculator_need_update v
  then update_route_table (with_synced (inc_version (synced_route_info v)) v)
  else Done v.

(** One round of [maintain_sessions]: [peers] is what [list_peers] returns,
    [cur] the peer we initiate to. *)
Definition NAT_OPEN_INTERNET : Z := 1.
Definition NAT_NO_PAT : Z := 2.

Definition session_is (f : SyncRouteSession -> bool) v (p : PeerId) : option bool :=
  a ← get_session p v; x ← session_store v !! a; Some (f x).

Definition stop_gone (peers : list PeerId) (acc : option PeerId * PeerRouteServiceImpl) (p : PeerId)
    : option PeerId * PeerRouteServiceImpl :=
  let '(cur, v) := acc in
  if bool_decide (p ∈ peers) then acc
  else (if bool_decide (Some p = cur) then None else cur, remove_session p v).

Definition choose_initiator_dst v (candidates : list PeerId) : option PeerId :=
  match base.filter (fun p => get_nat_type p (route_table v) = Some NAT_NO_PAT \/
                              get_nat_type p (route_table v) = Some NAT_OPEN_INTERNET) candidates with
  | p :: _ => Some p
  | [] => head candidates
  end.

Definition stop_idle v (p : PeerId) : PeerRouteServiceImpl :=
  match session_is (fun x => (dst_is_initiator x || we_are_initiator x || need_sync_initiator_info x)
                             && task_running x) v p with
  | Some true | None => v
  | Some false => remove_session p v
  end.

Definition switch_initiator (random_id : Z) (cur : option PeerId) (new : PeerId) v
    : option PeerId * PeerRouteServiceImpl :=
  if bool_decide (Some new = cur) then (cur, v)
  else
    let v := match cur ≫= fun p => get_session p v with
             | Some a => update_session a (update_initiator_flag false) v
             | None => v
             end in
    let '(a, v) := get_or_start_session random_id new v in
    (Some new, update_session a (update_initiator_flag true) v).

Definition maintain_round (random_id : Z) (peers : list PeerId) (cur : option PeerId) v
    : option PeerId * PeerRouteServiceImpl :=
  let session_peers := list_session_peers v in
  let '(cur, v) := foldl (stop_gone peers) (cur, v) session_peers in
  let candidates := base.filter (fun p => session_is dst_is_initiator v p <> Some true) (stable_sort Z.leb peers) in
  match choose_initiator_dst v candidates with
  | None => (cur, v)
  | Some new =>
      let '(cur, v) := switch_initiator random_id cur new v in
      (cur, foldl stop_idle v session_peers)
  end.

(** *** Lookups *)

Definition get_next_hop_with_policy (dst : PeerId) (policy : NextHopPolicy) v : option PeerId :=
  next_hop_peer_id <$> get_next_hop dst
    (match policy with LeastCost => route_table_with_cost v | LeastHop => route_table v end).

Definition list_foreign_network_info v : list ForeignInfo :=
  (fun kv => {| fi_key := Some kv.1; fi_value := Some kv.2 |}) <$>
    base.filter (fun kv => foreign_peer_ids kv.2 <> [] /\ peer_reachable (fk_peer_id kv.1) (route_table v) = true)
      (map_iter (foreign_network (synced_route_info v))).

(** Network and peer counts per hosting peer. *)
Definition get_foreign_network_summary v : gmap PeerId (Z * Z) :=
  foldl (fun m kv => upsert (fk_peer_id kv.1)
           (fun x => (as_u32 (x.1 + 1), as_u32 (x.2 + as_u32 (len (foreign_peer_ids kv.2)))))
           (1, as_u32 (len (foreign_peer_ids kv.2))) m)
    ∅ (map_iter (foreign_network (synced_route_info v))).

Definition list_peers_own_foreign_network (identity : text * option bytes) v : list PeerId :=
  default [] (foreign_network_owner_map v !! identity).

Definition get_origin_my_peer_id (network_name : text) (foreign_my_peer_id : PeerId) v : option PeerId :=
  foreign_network_my_peer_id_map v !! (network_name, foreign_my_peer_id).

Definition get_peer_info (p : PeerId) v : option RoutePeerInfo := rt_peer_infos (route_table v) !! p.

Definition get_peer_groups (p : PeerId) v : list text :=
  default [] (group_trust_map_cache (synced_route_info v) !! p).
End service.

(** ** Bitmaps *)

Definition bit_at (bits : bytes) (j : Z) : bool := Z.testbit (default 0 (bits !! Z.to_nat (j / 8))) (j mod 8).

Lemma bit_index n (bits : bytes) j : length bits = Z.to_nat ((n + 7) / 8) -> 0 <= j < n -> is_Some (bits !! Z.to_nat (j / 8)).
Proof.
  intros E Hj. apply lookup_lt_is_Some. rewrite E. apply Z2Nat.inj_lt; Z.to_euclidean_division_equations; lia.
Qed.

Lemma get_bit_at b j : 0 <= j -> is_Some (bitmap b !! Z.to_nat (j / 8)) -> get_bit b j = Done (bit_at (bitmap b) j).
Proof.
  intros Hj [x E]. unfold get_bit, bit_at. rewrite E. simpl. f_equal.
  assert (Z.land (Z.shiftr x (j mod 8)) 1 = Z.b2z (Z.testbit x (j mod 8))) as ->.
  { change 1 with (Z.ones 1). rewrite Z.land_ones by lia. change (2 ^ 1) with 2.
    rewrite <- Z.bit0_mod, Z.shiftr_spec by lia. by rewrite Z.add_0_l. }
  by destruct (Z.testbit _ _).
Qed.

Lemma set_bit_at (bits : bytes) i : 0 <= i -> is_Some (bits !! Z.to_nat (i / 8)) -> exists bits',
  set_bit bits i = Done bits' /\ length bits' = length bits /\
  forall j, 0 <= j -> bit_at bits' j = bit_at bits j || (j =? i).
Proof.
  intros Hi [x E]. unfold set_bit. rewrite E. eexists; split; [done|]. split; [by rewrite length_insert|].
  intros j Hj. unfold bit_at. destruct (decide (i / 8 = j / 8)) as [Ed|Ed].
  - rewrite <- Ed, list_lookup_insert_eq by (by apply lookup_lt_Some in E). rewrite E. simpl.
    pose proof (Z.mod_pos_bound j 8 ltac:(lia)). pose proof (Z.mod_pos_bound i 8 ltac:(lia)).
    rewrite Z.lor_spec. f_equal. rewrite Z.shiftl_spec by lia. destruct (Z.eqb_spec j i) as [->|Hne].
    + by rewrite Z.sub_diag.
    + destruct (Z.eq_dec (j mod 8) (i mod 8)) as [Em|Em].
      { exfalso. pose proof (Z.div_mod i 8 ltac:(lia)). pose proof (Z.div_mod j 8 ltac:(lia)). lia. }
      destruct (Z.lt_ge_cases (j mod 8) (i mod 8)); [by rewrite Z.testbit_neg_r by lia|].
      change 1 with (2 ^ 0). rewrite Z.pow2_bits_eqb by lia. apply Z.eqb_neq. lia.
  - rewrite list_lookup_insert_ne by (Z.to_euclidean_division_equations; lia). destruct (Z.eqb_spec j i) as [->|]; [done|]. by rewrite orb_false_r.
Qed.

Definition listed (c : gset PeerId) (ids : list PeerIdVersion) (n : Z) : bool :=
  if n <? 0 then false else
  match ids !! Z.to_nat n with Some p => bool_decide (piv_peer_id p ∈ c) | None => false end.

Lemma listed_cons c p ids n : 0 <= n -> listed c (p :: ids) n =
  if n =? 0 then bool_decide (piv_peer_id p ∈ c) else listed c ids (n - 1).
Proof.
  intros Hn. unfold listed. replace (n <? 0) with false by lia. destruct (Z.eqb_spec n 0) as [->|]; [done|].
  replace (n - 1 <? 0) with false by lia. replace (Z.to_nat n) with (S (Z.to_nat (n - 1))) by lia. done.
Qed.

Lemma listed_out c ids n : n < 0 \/ len ids <= n -> listed c ids n = false.
Proof.
  intros Hn. unfold listed. destruct (Z.ltb_spec n 0); [done|].
  rewrite lookup_ge_None_2; [done|]. unfold len in Hn. lia.
Qed.

Lemma fill_row_at N base c : 0 <= base -> forall ids idx bits,
  0 <= idx -> base + idx + len ids <= N -> length bits = Z.to_nat ((N + 7) / 8) -> exists bits',
  fill_row base c idx ids bits = Done bits' /\ length bits' = length bits /\
  forall j, 0 <= j -> bit_at bits' j = bit_at bits j || listed c ids (j - base - idx).
Proof.
  intros Hb. induction ids as [|p ids IH]; intros idx bits Hi HN Hlen; simpl.
  { eexists; split; [done|]. split; [done|]. intros j Hj. rewrite listed_out; [by rewrite orb_false_r|].
    unfold len. simpl. lia. }
  assert (len (p :: ids) = 1 + len ids) as El by (unfold len; simpl; lia).
  pose proof (len_nonneg ids) as H0. rewrite El in HN.
  assert (exists bits1, (if bool_decide (piv_peer_id p ∈ c) then set_bit bits (base + idx) else Done bits) = Done bits1 /\
    length bits1 = length bits /\ forall j, 0 <= j ->
      bit_at bits1 j = bit_at bits j || ((j =? base + idx) && bool_decide (piv_peer_id p ∈ c))) as (b1 & -> & L1 & B1).
  { case_bool_decide.
    - destruct (set_bit_at bits (base + idx)) as (b1 & -> & L1 & B1); [lia | eapply bit_index; [done|lia]|].
      eexists; split; [done|]. split; [done|]. intros j Hj. by rewrite B1, andb_true_r.
    - eexists; split; [done|]. split; [done|]. intros j Hj. by rewrite andb_false_r, orb_false_r. }
  simpl. destruct (IH (idx + 1) b1) as (b2 & -> & L2 & B2); [lia | lia | congruence|].
  eexists; split; [done|]. split; [congruence|]. intros j Hj. rewrite B2, B1 by done. rewrite <- orb_assoc. f_equal.
  destruct (Z.lt_ge_cases (j - base - idx) 0).
  { rewrite !listed_out by lia. replace (j =? base + idx) with false by lia. done. }
  rewrite listed_cons by lia. destruct (Z.eqb_spec j (base + idx)) as [->|].
  - replace (base + idx - base - idx =? 0) with true by lia. rewrite listed_out by lia. by rewrite orb_false_r.
  - replace (j - base - idx =? 0) with false by lia. simpl. f_equal. lia.
Qed.

(** Reading a row gives the peers whose bit is set. *)
Lemma connected_in_spec b peer_idx : 0 <= peer_idx -> forall ids idx,
  0 <= idx -> (forall n, 0 <= n < len ids -> is_Some (bitmap b !! Z.to_nat ((peer_idx * len (bm_peer_ids b) + (idx + n)) / 8))) ->
  exists c, connected_in b peer_idx idx ids = Done c /\
    forall q, q ∈ c <-> exists n p, ids !! n = Some p /\ piv_peer_id p = q /\
      bit_at (bitmap b) (peer_idx * len (bm_peer_ids b) + (idx + Z.of_nat n)) = true.
Proof.
  intros Hp. pose proof (len_nonneg (bm_peer_ids b)).
  induction ids as [|p ids IH]; intros idx Hi Hin; simpl.
  { eexists; split; [done|]. intros q. split; [set_solver|]. by intros (n & p & Hn & _). }
  assert (len (p :: ids) = 1 + len ids) as El by (unfold len; simpl; lia). pose proof (len_nonneg ids).
  rewrite get_bit_at; [|nia|]; simpl.
  2: { replace (peer_idx * len (bm_peer_ids b) + idx) with (peer_idx * len (bm_peer_ids b) + (idx + 0)) by lia. apply Hin. lia. }
  destruct (IH (idx + 1)) as (c & -> & Hc); [lia| |].
  { intros n Hn. replace (idx + 1 + n) with (idx + (n + 1)) by lia. apply Hin. lia. }
  simpl. eexists; split; [done|]. intros q. rewrite <- (Z.add_0_r idx) at 1.
  assert (q ∈ c <-> exists n p', (p :: ids) !! S n = Some p' /\ piv_peer_id p' = q /\
    bit_at (bitmap b) (peer_idx * len (bm_peer_ids b) + (idx + Z.of_nat (S n))) = true) as Hc'.
  { rewrite Hc. apply exist_proper; intros n. apply exist_proper; intros p'. simpl.
    by replace (idx + 1 + Z.of_nat n) with (idx + Z.of_nat (S n)) by lia. }
  destruct (bit_at (bitmap b) (peer_idx * len (bm_peer_ids b) + (idx + 0))) eqn:Eb.
  - rewrite elem_of_union, elem_of_singleton, Hc'. split.
    + intros [->|(n & p' & Hn)]; [by exists O, p | by exists (S n), p'].
    + intros ([|n] & p' & Hn & Hq & Hbit); simplify_eq/=; [by left | right; eauto 10].
  - rewrite Hc'. split; [intros (n & p' & Hn); by exists (S n), p'|].
    intros ([|n] & p' & Hn & Hq & Hbit); simplify_eq/=; [|eauto 10].
    change (Z.of_nat 0) with 0 in Hbit. congruence.
Qed.

Section bitmap.
Context `{RouteLib, !IterOrder PeerId (gset PeerId * Z)}.
Implicit Types (s : SyncedRouteInfo).

Definition conns_of s (k : PeerId) : gset PeerId := default ∅ (get_connected_peers k s).

Lemma fill_rows_at s all : forall ids r bits, 0 <= r -> r + len ids <= len all ->
  length bits = Z.to_nat ((len all * len all + 7) / 8) -> exists bits',
  fill_rows s all r ids bits = Done bits' /\ length bits' = length bits /\
  forall i c, 0 <= i -> 0 <= c < len all -> bit_at bits' (i * len all + c) = bit_at bits (i * len all + c) ||
    (if i <? r then false else
     match ids !! Z.to_nat (i - r) with Some p => listed (conns_of s (piv_peer_id p)) all c | None => false end).
Proof.
  induction ids as [|p ids IH]; intros r bits Hr Hle Hlen; simpl.
  { eexists; split; [done|]. split; [done|]. intros i c _ _. destruct (_ <? _); by rewrite orb_false_r. }
  assert (len (p :: ids) = 1 + len ids) as El by (unfold len; simpl; lia). pose proof (len_nonneg ids).
  assert (exists b1, (match conn_map s !! piv_peer_id p with
    | Some x => fill_row (r * len all) x.1 0 all bits | None => Done bits end) = Done b1 /\
    length b1 = length bits /\ forall i c, 0 <= i -> 0 <= c < len all -> bit_at b1 (i * len all + c) =
      bit_at bits (i * len all + c) || ((i =? r) && listed (conns_of s (piv_peer_id p)) all c)) as (b1 & -> & L1 & B1).
  { unfold conns_of, get_connected_peers. destruct (conn_map s !! piv_peer_id p) as [[cs n]|]; simpl.
    - destruct (fill_row_at (len all * len all) (r * len all) cs ltac:(nia) all 0 bits) as (b1 & -> & L1 & B1);
        [lia | nia | done|].
      eexists; split; [done|]. split; [done|]. intros i c Hi Hc. rewrite B1 by nia. f_equal.
      destruct (Z.eqb_spec i r) as [->|Hne]; simpl; [f_equal; lia|]. apply listed_out. nia.
    - eexists; split; [done|]. split; [done|]. intros i c Hi Hc.
      assert (listed ∅ all c = false) as ->.
      { unfold listed. case_match; [done|]. case_match; [|done]. apply bool_decide_eq_false_2. set_solver. }
      by rewrite andb_false_r, orb_false_r. }
  simpl. destruct (IH (r + 1) b1) as (b2 & -> & L2 & B2); [lia | lia | congruence|].
  eexists; split; [done|]. split; [congruence|]. intros i c Hi Hc. rewrite B2, B1 by done. rewrite <- orb_assoc. f_equal.
  destruct (Z.eqb_spec i r) as [->|Hne]; simpl.
  - rewrite Z.ltb_irrefl, Z.sub_diag. replace (r <? r + 1) with true by lia. by rewrite orb_false_r.
  - destruct (Z.ltb_spec i r); [by replace (i <? r + 1) with true by lia|]. replace (i <? r + 1) with false by lia.
    by replace (Z.to_nat (i - r)) with (S (Z.to_nat (i - (r + 1)))) by lia.
Qed.

Lemma bit_at_zeros n j : bit_at (replicate n 0) j = false.
Proof.
  unfold bit_at. destruct (replicate n 0 !! Z.to_nat (j / 8)) as [x|] eqn:E; simpl.
  - apply lookup_replicate in E as [-> _]. by rewrite Z.bits_0.
  - by rewrite Z.bits_0.
Qed.

Lemma elem_of_bitmap_peer_ids t s p : p ∈ bitmap_peer_ids t s <->
  (exists c, conn_map s !! piv_peer_id p = Some (c, piv_version p)) /\
  (piv_peer_id p ∈ all_dst_peer_ids s \/ peer_reachable (piv_peer_id p) t = true).
Proof.
  unfold bitmap_peer_ids. rewrite list_elem_of_filter, list_elem_of_fmap. split.
  - intros (Hr & [k [c n]] & -> & Hin). apply elem_of_map_iter in Hin. simpl in *. eauto.
  - intros ((c & E) & Hr). split; [done|]. exists (piv_peer_id p, (c, piv_version p)).
    split; [by destruct p | by apply elem_of_map_iter].
Qed.

Lemma elem_of_all_dst s q : q ∈ all_dst_peer_ids s <-> exists k c n, conn_map s !! k = Some (c, n) /\ q ∈ c.
Proof.
  unfold all_dst_peer_ids. rewrite elem_of_union_list. split.
  - intros (X & HX & Hq). apply list_elem_of_fmap in HX as ([k [c n]] & -> & Hin).
    apply elem_of_map_iter in Hin. simpl in *. eauto.
  - intros (k & c & n & E & Hq). exists c. split; [|done]. apply list_elem_of_fmap. exists (k, (c, n)).
    split; [done | by apply elem_of_map_iter].
Qed.
End bitmap.

(** the connection bitmap a node builds has a row for every peer it has
    connections for that is reachable or listed by some peer, with the stored
    version, and reading the row back gives exactly the stored connections to
    peers the node knows; building never indexes out of range. *)
Theorem conn_bitmap_roundtrip `{RouteLib, !IterOrder PeerId (gset PeerId * Z)} (t : RouteTable) (s : SyncedRouteInfo) :
  exists b, local_conn_bitmap t s = Done b /\
    (forall k, (exists p, p ∈ bm_peer_ids b /\ piv_peer_id p = k) <->
       is_Some (conn_map s !! k) /\
       (peer_reachable k t = true \/ exists j c n, conn_map s !! j = Some (c, n) /\ k ∈ c)) /\
    (forall i p, bm_peer_ids b !! i = Some p -> exists c, conn_map s !! piv_peer_id p = Some (c, piv_version p) /\
       bitmap_connected_peers b (Z.of_nat i) = Done (c ∩ dom (conn_map s))).
Proof.
  unfold local_conn_bitmap. set (all := bitmap_peer_ids t s). pose proof (len_nonneg all) as H0.
  destruct (fill_rows_at s all all 0 (replicate (Z.to_nat ((len all * len all + 7) / 8)) 0))
    as (bits & -> & Hlen & Hbits); [lia | lia | by rewrite length_replicate|].
  rewrite length_replicate in Hlen. simpl. eexists; split; [done|]. simpl. split.
  - intros k. split.
    + intros (p & Hp & <-). apply elem_of_bitmap_peer_ids in Hp as ((c & E) & Hr). split; [eauto|].
      destruct Hr as [(j & c' & n & Hj)%elem_of_all_dst|]; eauto 10.
    + intros ([[c n] E] & Hr). exists {| piv_peer_id := k; piv_version := n |}. split; [|done].
      apply elem_of_bitmap_peer_ids. simpl. rewrite elem_of_all_dst. split; [eauto | tauto].
  - intros i p Hi. assert (p ∈ all) as Hp by (by eapply list_elem_of_lookup_2).
    apply elem_of_bitmap_peer_ids in Hp as ((c & E) & _). exists c. split; [done|].
    apply lookup_lt_Some in Hi as Hlt. unfold bitmap_connected_peers. simpl.
    destruct (connected_in_spec {| bm_peer_ids := all; bitmap := bits |} (Z.of_nat i) ltac:(lia) all 0 ltac:(lia))
      as (r & -> & Hr); simpl in *.
    { intros n Hn. eapply bit_index; [done|]. unfold len in *. nia. }
    f_equal. apply set_eq. intros q. rewrite Hr, elem_of_intersection, elem_of_dom.
    assert (forall n p', all !! n = Some p' -> bit_at bits (Z.of_nat i * len all + (0 + Z.of_nat n)) =
      bool_decide (piv_peer_id p' ∈ c)) as Hbit.
    { intros n p' Hn. apply lookup_lt_Some in Hn as Hlt'. rewrite Z.add_0_l, Hbits by (unfold len; lia).
      rewrite bit_at_zeros. simpl. replace (Z.of_nat i <? 0) with false by lia.
      rewrite Z.sub_0_r, Nat2Z.id, Hi. unfold conns_of, get_connected_peers. rewrite E. simpl.
      unfold listed. replace (Z.of_nat n <? 0) with false by lia. by rewrite Nat2Z.id, Hn. }
    split.
    + intros (n & p' & Hn & <- & Hb). rewrite (Hbit _ _ Hn) in Hb. apply bool_decide_eq_true in Hb. split; [done|].
      apply list_elem_of_lookup_2 in Hn. apply elem_of_bitmap_peer_ids in Hn as ((c' & ?) & _). eauto.
    + intros [Hq [[c' n'] Hk]]. assert ({| piv_peer_id := q; piv_version := n' |} ∈ all) as Hin.
      { apply elem_of_bitmap_peer_ids. simpl. split; [eauto|]. left. apply elem_of_all_dst. eauto 10. }
      apply list_elem_of_lookup in Hin as [n Hn]. exists n, {| piv_peer_id := q; piv_version := n' |}. split; [done|].
      split; [done|]. rewrite (Hbit _ _ Hn). by apply bool_decide_eq_true.
Qed.
