(* ===== verification/RouteExchange.v ===== *)
(** Rounds of route synchronisation between two nodes, over the operations of
    [RouteService].

    The theorems: from any session the loop that synchronises with a peer stops
    after at most three rounds; a successful round brings the receiver up to date
    and leaves both sessions truthful; after a restart of the peer everything is
    sent again except foreign networks. *)

From stdpp Require Import base numbers list gmap strings.
From S2P Require Import Prelude Text GraphAlgo AclRules SyncedRoute RouteTable SyncSession RouteService.
Open Scope Z_scope.

(** ** Requests *)

Section requests.
Context `{RouteLib, !InfoWire, PetGraph, PrefixTrie, !BinaryHeap (@min_scored_cmp Z nat _), CostCalculator C}.
Context `{!IterOrder PeerId RoutePeerInfo, !IterOrder ForeignKey ForeignEntry}.
Implicit Types (v : @PeerRouteServiceImpl _ C) (x : SyncRouteSession).

(** The infos a node sends at all. *)
Definition sent_infos v : list RoutePeerInfo :=
  (base.filter (fun item => peer_reachable item.1 (route_table v) = true)
     (map_iter (peer_infos (synced_route_info v)))).*2.

Definition stale_infos v x : list RoutePeerInfo :=
  base.filter (fun i => info_known x (ri_peer_id i) (ri_version i) = false) (sent_infos v).
Definition stale_conn_ids v x : list PeerIdVersion :=
  base.filter (fun p => conn_known x (piv_peer_id p) (piv_version p) = false) (bm_peer_ids (cached_local_conn_map v)).
Definition stale_foreign v x : list (ForeignKey * ForeignEntry) :=
  base.filter (fun kv => foreign_known x kv.1 (fe_version kv.2) = false)
    (map_iter (foreign_network (synced_route_info v))).
Definition foreign_items (l : list (ForeignKey * ForeignEntry)) : list ForeignInfo :=
  (fun kv => {| fi_key := Some kv.1; fi_value := Some kv.2 |}) <$> l.

Lemma build_route_info_spec now v x : exists x',
  build_route_info now v x = (none_if_empty (stale_infos v x), x') /\ touched x x'.
Proof.
  unfold build_route_info.
  destruct (send_stale_spec _ _ (sent_infos v) x (check_info_asks now ri_peer_id ri_version)) as [E Ht].
  unfold sent_infos in *. destruct (send_stale _ _ _) as [l x']. simpl in *. subst l. by exists x'.
Qed.

Lemma stale_conns_spec now v x : exists x', stale_conns now v x = (stale_conn_ids v x, x') /\ touched x x'.
Proof.
  unfold stale_conns.
  destruct (send_stale_spec _ _ (bm_peer_ids (cached_local_conn_map v)) x (check_conn_asks now piv_peer_id piv_version))
    as [E Ht].
  destruct (send_stale _ _ _) as [l x']. simpl in *. subst l. by exists x'.
Qed.

Lemma build_foreign_spec now v x : exists x',
  build_foreign_network_info now v x = (none_if_empty (foreign_items (stale_foreign v x)), x') /\ touched x x'.
Proof.
  unfold build_foreign_network_info.
  destruct (send_stale_spec _ _ (map_iter (foreign_network (synced_route_info v))) x
    (check_foreign_asks now fst (fun kv => fe_version kv.2))) as [E Ht].
  destruct (send_stale _ _ _) as [l x']. simpl in *. subst l. by exists x'.
Qed.

Lemma stale_conn_ids_touched v x x' : touched x x' -> stale_conn_ids v x' = stale_conn_ids v x.
Proof. intros (_ & Hc & _)%touched_known. apply list_filter_iff. intros p. by rewrite Hc. Qed.

Lemma none_if_empty_None {A} (l : list A) : none_if_empty l = None <-> l = [].
Proof. by destruct l. Qed.

(** The destination must be sent bitmaps. *)
Definition bitmap_only (force : bool) v (dst : PeerId) : bool :=
  negb (default false (support_conn_list_sync <$> (i ← peer_infos (synced_route_info v) !! dst; ri_feature_flag i)))
  && negb force.

(** The connections to send: those the other side does not have; a list leaves
    out those that cannot be looked up any more. *)
Definition conns_to_send (force : bool) v x : list PeerIdVersion :=
  if bitmap_only force v (dst_peer_id x) then stale_conn_ids v x
  else base.filter (fun p => is_Some (conn_map (synced_route_info v) !! piv_peer_id p)) (stale_conn_ids v x).

Definition conn_sent (force : bool) v x (o : option ConnInfo) : Prop :=
  match o with
  | None => conns_to_send force v x = []
  | Some (ConnPeerList l) => l = omap (conn_list_item v) (conns_to_send force v x) /\
      conns_to_send force v x <> [] /\ bitmap_only force v (dst_peer_id x) = false
  | Some (ConnBitmap b) => b = cached_local_conn_map v /\ conns_to_send force v x <> []
  end.

Lemma omap_conn_items v (l : list PeerIdVersion) :
  omap (conn_list_item v) l =
  omap (conn_list_item v) (base.filter (fun p => is_Some (conn_map (synced_route_info v) !! piv_peer_id p)) l).
Proof.
  induction l as [|p l IH]; simpl; [done|]. rewrite filter_cons. case_decide as E.
  - simpl. destruct (conn_list_item v p); [f_equal|]; exact IH.
  - apply eq_None_not_Some in E. unfold conn_list_item at 1. by rewrite E.
Qed.

Lemma omap_conn_items_nil v (l : list PeerIdVersion) : omap (conn_list_item v) l = [] <->
  base.filter (fun p => is_Some (conn_map (synced_route_info v) !! piv_peer_id p)) l = [].
Proof.
  rewrite omap_conn_items. split; [|by intros ->].
  set (k := base.filter _ l). assert (Forall (fun p => is_Some (conn_map (synced_route_info v) !! piv_peer_id p)) k) as Hk.
  { apply Forall_forall. intros p [? _]%list_elem_of_filter. done. }
  destruct Hk as [|p k [c E] _]; simpl; [done|]. unfold conn_list_item at 1. by rewrite E.
Qed.

Lemma build_conn_bitmap_spec now v x : exists x', touched x x' /\
  build_conn_bitmap now v x =
    (match stale_conn_ids v x with [] => None | _ => Some (cached_local_conn_map v) end, x').
Proof.
  unfold build_conn_bitmap. destruct (stale_conns_spec now v x) as (x' & -> & Ht). by exists x'.
Qed.

Lemma build_conn_info_spec force now v x : exists o x',
  build_conn_info force now v x (dst_peer_id x) = (o, x') /\ touched x x' /\ conn_sent force v x o.
Proof.
  unfold build_conn_info, conn_sent, conns_to_send. fold (bitmap_only force v (dst_peer_id x)).
  destruct (bitmap_only _ _ _).
  { destruct (build_conn_bitmap_spec now v x) as (x' & Ht & ->). do 2 eexists. split; [done|]. split; [done|].
    by destruct (stale_conn_ids v x). }
  unfold build_conn_peer_list. destruct (stale_conns_spec now v x) as (x1 & -> & Ht).
  pose proof (omap_conn_items_nil v (stale_conn_ids v x)) as Hnil.
  destruct ((_ || _) || _) eqn:E.
  { do 2 eexists. split; [done|]. split; [done|]. rewrite <- omap_conn_items. set (items := omap _ _) in *.
    destruct items; simpl; [by apply Hnil|]. split; [done|]. split; [|done]. by intros ?%Hnil. }
  destruct (build_conn_bitmap_spec now v x1) as (x2 & Ht2 & ->). do 2 eexists. split; [done|].
  split; [by etrans|]. rewrite (stale_conn_ids_touched _ _ _ Ht).
  apply orb_false_iff in E as [_ E]. apply bool_decide_eq_false in E. rewrite none_if_empty_None, Hnil in E.
  destruct (stale_conn_ids v x); [by destruct E | done].
Qed.

(** What a request says. *)
Record says (force : bool) v x (rq : SyncRouteInfoRequest) : Prop := {
  says_infos : rq_peer_infos rq = none_if_empty (stale_infos v x);
  says_conn : conn_sent force v x (rq_conn_info rq);
  says_foreign : rq_foreign rq = none_if_empty (foreign_items (stale_foreign v x));
  says_id : rq_my_peer_id rq = my_peer_id v
}.

Definition silent (force : bool) v x : Prop :=
  stale_infos v x = [] /\ conns_to_send force v x = [] /\ stale_foreign v x = [].

Lemma stale_touched v x x' : touched x x' ->
  stale_infos v x' = stale_infos v x /\ stale_foreign v x' = stale_foreign v x.
Proof.
  intros (Hi & _ & Hf)%touched_known.
  split; apply list_filter_iff; intros y; by rewrite ?Hi, ?Hf.
Qed.

Lemma touched_fields x x' : touched x x' ->
  dst_peer_id x' = dst_peer_id x /\ need_sync_initiator_info x' = need_sync_initiator_info x /\
  we_are_initiator x' = we_are_initiator x /\ dst_session_id x' = dst_session_id x.
Proof. by intros (p & c & f & -> & _). Qed.

Lemma conns_to_send_touched force v x x' : touched x x' -> conns_to_send force v x' = conns_to_send force v x.
Proof.
  intros Ht. unfold conns_to_send. destruct (touched_fields _ _ Ht) as (-> & _).
  by rewrite (stale_conn_ids_touched _ _ _ Ht).
Qed.

Lemma conn_sent_touched force v x x' o : touched x x' -> conn_sent force v x' o -> conn_sent force v x o.
Proof.
  intros Ht. unfold conn_sent. rewrite (conns_to_send_touched _ _ _ _ Ht).
  by destruct (touched_fields _ _ Ht) as (-> & _).
Qed.

Lemma build_sync_request_spec force now v x : exists infos conn foreign x',
  build_sync_request force now v x (dst_peer_id x) = (infos, conn, foreign, x') /\ touched x x' /\
  infos = none_if_empty (stale_infos v x) /\ conn_sent force v x conn /\
  foreign = none_if_empty (foreign_items (stale_foreign v x)).
Proof.
  unfold build_sync_request. destruct (build_route_info_spec now v x) as (x1 & -> & Ht1).
  destruct (touched_fields _ _ Ht1) as (<- & _).
  destruct (build_conn_info_spec force now v x1) as (o & x2 & -> & Ht2 & Ho).
  destruct (build_foreign_spec now v x2) as (x3 & -> & Ht3). do 4 eexists. split; [done|].
  split; [by repeat (etrans; [eassumption|])|]. split; [done|]. split; [by eapply conn_sent_touched|].
  destruct (stale_touched v x x2) as [_ ->]; [by etrans | done].
Qed.

(** Either there is something to say, and the request says it, or not. *)
Lemma sync_begin_spec force now as_init v x :
  (exists rq raws x', sync_begin force now as_init v x = (Some (rq, raws), x') /\
     touched (with_need_sync false x) x' /\ says force v x rq /\
     raws = option_map (build_sync_route_raw_req (raw_peer_infos (synced_route_info v))) (rq_peer_infos rq)) \/
  (exists x', sync_begin force now as_init v x = (None, x') /\ touched x x' /\ silent force v x).
Proof.
  unfold sync_begin.
  destruct (build_sync_request_spec force now v x) as (i & c & f & x' & -> & Ht & -> & Hc & ->).
  destruct (bool_decide _ && _ && _ && _ && _) eqn:E.
  - right. apply andb_prop in E as [E _]. apply andb_prop in E as [E _]. apply andb_prop in E as [E E3].
    apply andb_prop in E as [E1 E2]. apply bool_decide_eq_true in E1. apply none_if_empty_None in E1.
    eexists; split; [done|]. split; [done|].
    split; [done|]. split; [by destruct c|]. by destruct (stale_foreign v x).
  - left. do 3 eexists. split; [done|]. split; [|split; [by constructor | done]].
    destruct Ht as (p & c' & f & -> & Hp). by exists p, c', f.
Qed.

Lemma silent_begin force now v x : silent force v x -> need_sync_initiator_info x = false ->
  exists x', sync_begin force now false v x = (None, x').
Proof.
  intros (Hi & Hc & Hf) Hn. unfold sync_begin.
  destruct (build_sync_request_spec force now v x) as (i & c & f & x' & -> & Ht & -> & Ho & ->).
  destruct (touched_fields _ _ Ht) as (_ & -> & _). rewrite Hi, Hf, Hn. unfold conn_sent in Ho. rewrite Hc in Ho.
  destruct c as [[b|l]|]; [by destruct Ho | by destruct Ho as (_ & ? & _) | by eexists].
Qed.
End requests.

(** ** Responses *)

Definition infos_told (rq : SyncRouteInfoRequest) : list (PeerId * Z) :=
  (fun i => (ri_peer_id i, ri_version i)) <$> default [] (rq_peer_infos rq).
Definition conns_told (rq : SyncRouteInfoRequest) : list (PeerId * Z) :=
  (fun p => (piv_peer_id p, piv_version p)) <$> default [] (conn_versions <$> rq_conn_info rq).
Definition foreign_told (rq : SyncRouteInfoRequest) : list (ForeignKey * Z) :=
  foreign_versions (default [] (rq_foreign rq)).

Definition others (dst : PeerId) (l : list (PeerId * Z)) : list (PeerId * Z) := base.filter (fun kv => kv.1 <> dst) l.
Definition foreign_others (dst : PeerId) (l : list (ForeignKey * Z)) : list (ForeignKey * Z) :=
  base.filter (fun kv => fk_peer_id kv.1 <> dst) l.

Definition well_keyed (rq : SyncRouteInfoRequest) : Prop :=
  Forall (fun i => is_Some (fi_key i) /\ is_Some (fi_value i)) (default [] (rq_foreign rq)).

(** [x'] is [x] after learning that the other side has session id [id] and
    holds what [rq] tells. *)
Record learned (now dst id : Z) (rq : SyncRouteInfoRequest) (x x' : SyncRouteSession) : Prop := {
  ln_infos : dst_saved_peer_info_versions x' =
    save_all now (others dst (infos_told rq)) (dst_saved_peer_info_versions (update_dst_session_id id x));
  ln_conns : dst_saved_conn_info_version x' =
    save_all now (others dst (conns_told rq)) (dst_saved_conn_info_version (update_dst_session_id id x));
  ln_foreign : dst_saved_foreign_network_versions x' =
    save_all now (foreign_others dst (foreign_told rq)) (dst_saved_foreign_network_versions x);
  ln_dst : dst_peer_id x' = dst_peer_id x;
  ln_id : dst_session_id x' = id;
  ln_my_id : my_session_id x' = my_session_id x;
  ln_we : we_are_initiator x' = we_are_initiator x;
  ln_need : need_sync_initiator_info x' = need_sync_initiator_info x
}.

Lemma others_infos dst l : (fun i => (ri_peer_id i, ri_version i)) <$> base.filter (fun i => ri_peer_id i <> dst) l =
  others dst ((fun i => (ri_peer_id i, ri_version i)) <$> l).
Proof.
  induction l as [|i l IH]; simpl; [done|]. unfold others in *. rewrite !filter_cons. simpl.
  case_decide; simpl; [f_equal|]; exact IH.
Qed.

Lemma others_conns dst l : (fun p => (piv_peer_id p, piv_version p)) <$> base.filter (fun p => piv_peer_id p <> dst) l =
  others dst ((fun p => (piv_peer_id p, piv_version p)) <$> l).
Proof.
  induction l as [|i l IH]; simpl; [done|]. unfold others in *. rewrite !filter_cons. simpl.
  case_decide; simpl; [f_equal|]; exact IH.
Qed.

Lemma update_dst_session_id_fields id x :
  dst_session_id (update_dst_session_id id x) = id /\
  dst_peer_id (update_dst_session_id id x) = dst_peer_id x /\
  my_session_id (update_dst_session_id id x) = my_session_id x /\
  we_are_initiator (update_dst_session_id id x) = we_are_initiator x /\
  need_sync_initiator_info (update_dst_session_id id x) = need_sync_initiator_info x /\
  dst_saved_foreign_network_versions (update_dst_session_id id x) = dst_saved_foreign_network_versions x.
Proof. unfold update_dst_session_id. destruct (Z.eqb_spec id (dst_session_id x)) as [->|]; done. Qed.

Lemma learned_intro now dst id rq x x0 x1 x2 x3 :
  dst_saved_peer_info_versions x0 = dst_saved_peer_info_versions (update_dst_session_id id x) ->
  dst_saved_conn_info_version x0 = dst_saved_conn_info_version (update_dst_session_id id x) ->
  dst_saved_foreign_network_versions x0 = dst_saved_foreign_network_versions x ->
  dst_peer_id x0 = dst_peer_id x -> dst_session_id x0 = id -> my_session_id x0 = my_session_id x ->
  we_are_initiator x0 = we_are_initiator x -> need_sync_initiator_info x0 = need_sync_initiator_info x ->
  x1 = match rq_peer_infos rq with Some l => update_dst_saved_peer_info_version now l dst x0 | None => x0 end ->
  x2 = match rq_conn_info rq with Some c => update_dst_saved_conn_info_version now c dst x1 | None => x1 end ->
  match rq_foreign rq with Some l => update_dst_saved_foreign_network_version now l dst x2 | None => Done x2 end = Done x3 ->
  learned now dst id rq x x3.
Proof.
  intros E1 E2 E3 E4 E5 E6 E7 E8 H1 H2 H3.
  assert (x1 = with_saved_infos (save_all now (others dst (infos_told rq)) (dst_saved_peer_info_versions x0)) x0) as ->.
  { rewrite H1. unfold infos_told. destruct (rq_peer_infos rq); [|by destruct x0].
    rewrite update_infos_save. simpl. by rewrite others_infos. }
  assert (x2 = with_saved_conns (save_all now (others dst (conns_told rq)) (dst_saved_conn_info_version x0))
    (with_saved_infos (save_all now (others dst (infos_told rq)) (dst_saved_peer_info_versions x0)) x0)) as ->.
  { rewrite H2. unfold conns_told. destruct (rq_conn_info rq); [|by destruct x0].
    rewrite update_conns_save. simpl. by rewrite others_conns. }
  assert (x3 = with_saved_foreign (save_all now (foreign_others dst (foreign_told rq)) (dst_saved_foreign_network_versions x0))
    (with_saved_conns (save_all now (others dst (conns_told rq)) (dst_saved_conn_info_version x0))
      (with_saved_infos (save_all now (others dst (infos_told rq)) (dst_saved_peer_info_versions x0)) x0))) as ->.
  { unfold foreign_told. destruct (rq_foreign rq); [by apply update_foreign_Done in H3 | injection H3 as <-; by destruct x0]. }
  constructor; simpl; congruence.
Qed.

Lemma sync_end_learned now pub rq resp x : rs_error resp = None -> well_keyed rq -> exists x',
  sync_end now pub rq (Some resp) x = Done x' /\ learned now (dst_peer_id x) (rs_session_id resp) rq x x'.
Proof.
  intros He Hk. unfold sync_end. rewrite He. set (x0 := update_dst_session_id _ _).
  assert (x0 = with_flags (we_are_initiator x) (rs_is_initiator resp) (need_sync_initiator_info x)
    (with_counts (as_u32 (rpc_tx_count x + 1)) (rpc_rx_count x) (update_dst_session_id (rs_session_id resp) x))) as E0.
  { unfold x0, update_dst_session_id. simpl. by destruct (negb _). }
  set (x1 := match rq_peer_infos rq with Some _ => _ | None => _ end).
  set (x2 := match rq_conn_info rq with Some _ => _ | None => _ end).
  assert (exists x3, match rq_foreign rq with
    | Some l => update_dst_saved_foreign_network_version now l (dst_peer_id x) x2 | None => Done x2 end = Done x3) as [x3 E3].
  { unfold well_keyed in Hk. destruct (rq_foreign rq); [|by eexists]. rewrite update_foreign_save by done. by eexists. }
  exists x3. split; [done|]. destruct (update_dst_session_id_fields (rs_session_id resp) x) as (F1 & F2 & F3 & F4 & F5 & F6).
  eapply (learned_intro _ _ _ _ _ x0 x1 x2 x3); try done; by rewrite E0.
Qed.

(** A request of ours is well keyed. *)
Lemma foreign_versions_items l : foreign_versions (foreign_items l) = (fun kv => (kv.1, fe_version kv.2)) <$> l.
Proof. induction l as [|[k e] l IH]; simpl; [done|]. f_equal. exact IH. Qed.

Lemma default_none_if_empty {A} (l : list A) : default [] (none_if_empty l) = l.
Proof. by destruct l. Qed.

Lemma filter_nil {A} (P : A -> Prop) `{forall x, Decision (P x)} (l : list A) :
  (forall x, x ∈ l -> ~ P x) -> base.filter P l = [].
Proof.
  intros Hl. destruct (base.filter P l) as [|y k] eqn:E; [done|].
  assert (y ∈ base.filter P l) as [Hy Hin]%list_elem_of_filter by (rewrite E; by left). by destruct (Hl y Hin).
Qed.

Section settling.
Context `{RouteLib, !InfoWire, PetGraph, PrefixTrie, !BinaryHeap (@min_scored_cmp Z nat _), CostCalculator C}.
Context `{!IterOrder PeerId RoutePeerInfo, !IterOrder ForeignKey ForeignEntry}.
Implicit Types (v : @PeerRouteServiceImpl _ C) (x : SyncRouteSession).

Lemma says_well_keyed force v x rq : says force v x rq -> well_keyed rq.
Proof.
  intros [_ _ E _]. unfold well_keyed. rewrite E, default_none_if_empty. unfold foreign_items.
  apply Forall_forall. intros i (kv & -> & _)%list_elem_of_fmap. simpl. eauto.
Qed.

(** What a request of ours tells. *)
Lemma says_told force v x rq : says force v x rq ->
  infos_told rq = (fun i => (ri_peer_id i, ri_version i)) <$> stale_infos v x /\
  foreign_told rq = (fun kv => (kv.1, fe_version kv.2)) <$> stale_foreign v x /\
  (forall p, p ∈ conns_to_send force v x -> (piv_peer_id p, piv_version p) ∈ conns_told rq).
Proof.
  intros [Ei Ec Ef _]. unfold infos_told, foreign_told, conns_told.
  rewrite Ei, Ef, !default_none_if_empty, foreign_versions_items. split_and!; [done|done|].
  intros p Hp. apply list_elem_of_fmap. exists p. split; [done|].
  destruct (rq_conn_info rq) as [[b|l]|]; simpl in *.
  - destruct Ec as [-> _]. unfold conns_to_send in Hp.
    destruct (bitmap_only _ _ _); repeat (apply list_elem_of_filter in Hp as [_ Hp]); done.
  - destruct Ec as (-> & _ & Eb). apply list_elem_of_omap.
    assert (is_Some (conn_map (synced_route_info v) !! piv_peer_id p)) as [c E].
    { unfold conns_to_send in Hp. rewrite Eb in Hp. by apply list_elem_of_filter in Hp as [? _]. }
    exists {| pci_peer_id := Some p; connected_peer_ids := ascending c.1 |}. split; [|done].
    apply list_elem_of_omap. exists p. split; [done|]. unfold conn_list_item. by rewrite E.
  - rewrite Ec in Hp. by apply not_elem_of_nil in Hp.
Qed.

Lemma learned_info_known now id rq x x' k n : learned now (dst_peer_id x) id rq x x' ->
  info_known x k n = true /\ id = dst_session_id x \/ (k, n) ∈ infos_told rq -> info_known x' k n = true.
Proof.
  intros HL Hk. unfold info_known in *. rewrite (ln_dst _ _ _ _ _ _ HL), (ln_infos _ _ _ _ _ _ HL).
  destruct ((n =? 0) || (k =? dst_peer_id x)) eqn:E; [done|]. simpl in *. destruct Hk as [[Hk ->]|Hk].
  - apply save_all_mono. by rewrite update_dst_session_id_same.
  - apply save_all_covers. apply list_elem_of_filter. split; [|done]. simpl. lia.
Qed.

Lemma learned_conn_known now id rq x x' k n : learned now (dst_peer_id x) id rq x x' ->
  conn_known x k n = true /\ id = dst_session_id x \/ (k, n) ∈ conns_told rq -> conn_known x' k n = true.
Proof.
  intros HL Hk. unfold conn_known in *. rewrite (ln_dst _ _ _ _ _ _ HL), (ln_conns _ _ _ _ _ _ HL).
  destruct ((n =? 0) || (k =? dst_peer_id x)) eqn:E; [done|]. simpl in *. destruct Hk as [[Hk ->]|Hk].
  - apply save_all_mono. by rewrite update_dst_session_id_same.
  - apply save_all_covers. apply list_elem_of_filter. split; [|done]. simpl. lia.
Qed.

Lemma learned_foreign_known now id rq x x' k n : learned now (dst_peer_id x) id rq x x' ->
  foreign_known x k n = true \/ (k, n) ∈ foreign_told rq -> foreign_known x' k n = true.
Proof.
  intros HL Hk. unfold foreign_known in *. rewrite (ln_dst _ _ _ _ _ _ HL), (ln_foreign _ _ _ _ _ _ HL).
  destruct ((n =? 0) || (fk_peer_id k =? dst_peer_id x)) eqn:E; [done|]. simpl in *. destruct Hk as [Hk|Hk].
  - by apply save_all_mono.
  - apply save_all_covers. apply list_elem_of_filter. split; [|done]. simpl. lia.
Qed.

Lemma elem_of_conns_to_send force v x p : p ∈ conns_to_send force v x <->
  p ∈ bm_peer_ids (cached_local_conn_map v) /\ conn_known x (piv_peer_id p) (piv_version p) = false /\
  (bitmap_only force v (dst_peer_id x) = false -> is_Some (conn_map (synced_route_info v) !! piv_peer_id p)).
Proof.
  unfold conns_to_send, stale_conn_ids. destruct (bitmap_only _ _ _); rewrite !list_elem_of_filter; naive_solver.
Qed.

(** A successful round with the same session leaves nothing to say. *)
Lemma round_silent force now v x x1 rq x2 : touched (with_need_sync false x) x1 -> says force v x rq ->
  learned now (dst_peer_id x1) (dst_session_id x1) rq x1 x2 -> silent force v x2.
Proof.
  intros Ht Hs HL. destruct (touched_known _ _ Ht) as (Ki & Kc & Kf). destruct (says_told _ _ _ _ Hs) as (Ti & Tf & Tc).
  destruct (touched_fields _ _ Ht) as (Ed & _). split_and!.
  - apply filter_nil. intros i Hi Hn. apply not_true_iff_false in Hn. apply Hn.
    eapply learned_info_known; [exact HL|]. destruct (info_known x (ri_peer_id i) (ri_version i)) eqn:Ei.
    + left. split; [by rewrite Ki | done].
    + right. rewrite Ti. apply list_elem_of_fmap. exists i. split; [done|]. by apply list_elem_of_filter.
  - destruct (conns_to_send force v x2) as [|p l] eqn:E; [done|]. exfalso.
    assert (p ∈ conns_to_send force v x2) as Hp by (rewrite E; by left).
    apply elem_of_conns_to_send in Hp as (Hin & Hk & Hl). apply not_true_iff_false in Hk. apply Hk.
    eapply learned_conn_known; [exact HL|]. destruct (conn_known x (piv_peer_id p) (piv_version p)) eqn:Ec.
    + left. split; [by rewrite Kc | done].
    + right. apply Tc, elem_of_conns_to_send. split; [done|]. split; [done|].
      by rewrite (ln_dst _ _ _ _ _ _ HL), Ed in Hl.
  - apply filter_nil. intros [k e] Hi Hn. simpl in Hn. apply not_true_iff_false in Hn. apply Hn.
    eapply learned_foreign_known; [exact HL|]. destruct (foreign_known x k (fe_version e)) eqn:Ei.
    + left. by rewrite Kf.
    + right. rewrite Tf. apply list_elem_of_fmap. exists (k, e). split; [done|]. by apply list_elem_of_filter.
Qed.

Lemma round_progress force now pub b v answer id x :
  (forall rq, exists resp, answer rq = Some resp /\ rs_error resp = None /\ rs_session_id resp = id) ->
  (exists x', sync_route_with_peer force now pub b v answer x = Done (true, x') /\ touched x x' /\ silent force v x) \/
  (exists x', sync_route_with_peer force now pub b v answer x = Done (false, x') /\
     dst_session_id x' = id /\ need_sync_initiator_info x' = false /\
     (dst_session_id x = id -> silent force v x')).
Proof.
  intros Hans. unfold sync_route_with_peer.
  destruct (sync_begin_spec force now b v x) as [(rq & raws & x1 & -> & Ht & Hs & _)|(x1 & -> & Ht & Hs)];
    [right | left; eauto].
  destruct (Hans rq) as (resp & -> & He & Eid).
  destruct (sync_end_learned now pub rq resp x1 He (says_well_keyed _ _ _ _ Hs)) as (x2 & -> & HL).
  rewrite Eid in HL. exists x2. split; [done|]. split; [apply HL|]. destruct (touched_fields _ _ Ht) as (_ & En & _ & Ed).
  split; [by rewrite (ln_need _ _ _ _ _ _ HL), En|]. intros E. eapply round_silent; [exact Ht | exact Hs|].
  simpl in Ed. by rewrite Ed, E.
Qed.

Lemma silent_touched force v x x' : touched x x' -> silent force v x -> silent force v x'.
Proof.
  intros Ht Hs. unfold silent. destruct (stale_touched v _ _ Ht) as [-> ->].
  by rewrite (conns_to_send_touched _ _ _ _ Ht).
Qed.

Lemma silent_known force v x : silent force v x ->
  (forall k i, peer_infos (synced_route_info v) !! k = Some i -> peer_reachable k (route_table v) = true ->
     info_known x (ri_peer_id i) (ri_version i) = true) /\
  (forall k e, foreign_network (synced_route_info v) !! k = Some e -> foreign_known x k (fe_version e) = true).
Proof.
  intros (Hi & _ & Hf). split.
  - intros k i Hk Hr. apply not_false_iff_true. intros Hn.
    assert (i ∈ stale_infos v x) as Hin; [|rewrite Hi in Hin; by apply not_elem_of_nil in Hin].
    apply list_elem_of_filter. split; [done|]. apply list_elem_of_fmap. exists (k, i). split; [done|].
    apply list_elem_of_filter. split; [done | by apply elem_of_map_iter].
  - intros k e Hk. apply not_false_iff_true. intros Hn.
    assert ((k, e) ∈ stale_foreign v x) as Hin; [|rewrite Hf in Hin; by apply not_elem_of_nil in Hin].
    apply list_elem_of_filter. split; [done | by apply elem_of_map_iter].
Qed.
End settling.

(** C5: the loop that synchronises with a peer ends.  As long as the tables stay
    as they are and the peer answers its requests, three rounds are enough from
    any session, even one with a peer that was restarted: the loop then stops
    with nothing left to say, every reachable info and every foreign network
    being known to be held by the peer. *)
Theorem sync_loop_settles `{RouteLib, !InfoWire, !IterOrder PeerId RoutePeerInfo, !IterOrder ForeignKey ForeignEntry}
    {C : Type} (force : bool) (now : Z) (pub as_init : bool) (v : @PeerRouteServiceImpl _ C)
    (answer : SyncRouteInfoRequest -> option SyncRouteInfoResponse) (id : Z) (x : SyncRouteSession)
    (Hans : forall rq, exists resp, answer rq = Some resp /\ rs_error resp = None /\ rs_session_id resp = id) :
  exists x', sync_loop 3 force now pub as_init v answer x = Done x' /\ silent force v x' /\
    (forall k i, peer_infos (synced_route_info v) !! k = Some i -> peer_reachable k (route_table v) = true ->
       info_known x' (ri_peer_id i) (ri_version i) = true) /\
    (forall k e, foreign_network (synced_route_info v) !! k = Some e -> foreign_known x' k (fe_version e) = true).
Proof.
  assert (exists x', sync_loop 3 force now pub as_init v answer x = Done x' /\ silent force v x') as (x' & E & Hs);
    [|exists x'; split; [done|]; split; [done | by eapply silent_known]].
  simpl. destruct (round_progress force now pub as_init v answer id x Hans)
    as [(x1 & -> & Ht & Hs)|(x1 & -> & Eid & En & _)]; simpl; [eauto using silent_touched|].
  destruct (round_progress force now pub false v answer id x1 Hans)
    as [(x2 & -> & Ht & Hs)|(x2 & -> & Eid2 & En2 & Hs)]; simpl; [eauto using silent_touched|].
  specialize (Hs Eid). destruct (silent_begin force now v x2 Hs En2) as [x3 E].
  destruct (sync_begin_spec force now false v x2) as [(rq & raws & x4 & E4 & _)|(x4 & E4 & Ht & _)];
    [congruence|]. unfold sync_route_with_peer. rewrite E4. simpl. eauto using silent_touched.
Qed.

(** ** Handling a request *)

Section held.
Context `{RouteLib}.
Implicit Types (s : SyncedRouteInfo).

Abbreviation info_ver k s := (get_peer_info_version_with_default k s).
Definition conn_ver (k : PeerId) s : Z := (conn_at k s).2.
Definition foreign_ver (k : ForeignKey) s : Z := default 0 (fe_version <$> foreign_network s !! k).

Definition grows s s' : Prop := (forall k, info_ver k s <= info_ver k s') /\
  (forall k, conn_ver k s <= conn_ver k s') /\ (forall k, foreign_ver k s <= foreign_ver k s').

#[global] Instance grows_preorder : PreOrder grows.
Proof.
  split; [intros s; split_and!; intros k; lia|]. intros s1 s2 s3 (A1 & B1 & C1) (A2 & B2 & C2).
  split_and!; intros k; etrans; eauto.
Qed.

(** The tables hold what a request tells. *)
Record holds_told (rq : SyncRouteInfoRequest) s : Prop := {
  ht_infos : forall k n, (k, n) ∈ infos_told rq -> n <= info_ver k s;
  ht_conns : forall k n, (k, n) ∈ conns_told rq -> n <= conn_ver k s;
  ht_foreign : forall k n, (k, n) ∈ foreign_told rq -> n <= foreign_ver k s
}.

Lemma inc_version_if_grows b s : grows s (inc_version_if b s).
Proof. destruct b; split_and!; intros k; simpl; reflexivity. Qed.

Lemma accept_info_grows raw info s b : 0 <= ri_version info ->
  grows s (accept_info raw info (s, b)).1 /\ ri_version info <= info_ver (ri_peer_id info) (accept_info raw info (s, b)).1.
Proof.
  intros H0. unfold accept_info, grows, conn_ver, foreign_ver, conn_at, get_peer_info_version_with_default.
  destruct (peer_infos s !! ri_peer_id info) as [old|] eqn:E; [destruct (Z.ltb_spec (ri_version old) (ri_version info))|];
    simpl; rewrite ?lookup_insert_eq, ?E; simpl; split_and!; try done; try lia;
    intros k; try done; rewrite lookup_insert; case_decide; subst; rewrite ?E; simpl; lia.
Qed.

Lemma accept_conn_grows k n c s b : 0 <= n ->
  grows s (accept_conn k n c (s, b)).1 /\ n <= conn_ver k (accept_conn k n c (s, b)).1.
Proof.
  intros H0. unfold accept_conn, grows, conn_ver, foreign_ver, conn_at, get_peer_info_version_with_default.
  destruct (conn_map s !! k) as [[cs old]|] eqn:E; [destruct (Z.ltb_spec old n)|];
    simpl; rewrite ?lookup_insert_eq, ?E; simpl; split_and!; try done; try lia;
    intros j; try done; rewrite lookup_insert; case_decide; subst; rewrite ?E; simpl; lia.
Qed.

Lemma fill_empty_one_grows now acc k : grows acc.1 (fill_empty_one now acc k).1.
Proof.
  destruct acc as [s b]. unfold fill_empty_one, grows, conn_ver, foreign_ver, conn_at, get_peer_info_version_with_default.
  destruct (peer_infos s !! k) eqn:E1; simpl; destruct (conn_map s !! k) eqn:E2; simpl; split_and!; try done;
    intros j; rewrite ?lookup_insert; try case_decide; subst; rewrite ?E1, ?E2; simpl; lia.
Qed.

Lemma fill_empty_grows now ids s : grows s (fill_empty_peer_info now ids s).
Proof.
  unfold fill_empty_peer_info.
  assert (forall l acc, grows acc.1 (foldl (fill_empty_one now) acc l).1) as Hl.
  { induction l as [|k l IH]; intros acc; simpl; [reflexivity|]. etrans; [apply fill_empty_one_grows | apply IH]. }
  specialize (Hl (elements ids) (s, false)). destruct (foldl _ _ _) as [s' b]. etrans; [exact Hl|]. apply inc_version_if_grows.
Qed.

Lemma update_peer_infos_loop_grows now me rid from infos : forall raws acc acc',
  update_peer_infos_loop now me rid from infos raws acc = Done (Ok tt, acc') ->
  Forall (fun i => 0 <= ri_version i) infos ->
  grows acc.1 acc'.1 /\ forall i, i ∈ infos -> ri_version i <= info_ver (ri_peer_id i) acc'.1.
Proof.
  induction infos as [|i infos IH]; intros raws acc acc'; simpl.
  { intros [= <-] _. split; [reflexivity|]. by intros i ?%not_elem_of_nil. }
  intros E Hp. apply Forall_cons in Hp as [H0 Hp].
  apply bind_Done in E as (raw & _ & E). apply bind_Done in E as (dup & _ & E). destruct dup as [?|?]; [|done].
  apply bind_Done in E as (id & _ & E). destruct (negb _); [done|]. apply IH in E as [Hg Hi]; [|done].
  destruct acc as [s b].
  destruct (accept_info_grows raw (with_last_update (of_time now) i) s b H0) as [Hg0 Hi0].
  split; [by etrans|]. intros j [->|Hj]%elem_of_cons; [|by apply Hi]. etrans; [exact Hi0|]. apply Hg.
Qed.

Lemma update_peer_infos_grows now me rid from infos raws s s' :
  update_peer_infos now me rid from infos raws s = Done (Ok tt, s') -> Forall (fun i => 0 <= ri_version i) infos ->
  grows s s' /\ forall i, i ∈ infos -> ri_version i <= info_ver (ri_peer_id i) s'.
Proof.
  unfold update_peer_infos. intros E Hp. apply bind_Done in E as ([r [s1 b]] & E1 & E2).
  destruct r as [[]|]; [|done]. injection E2 as <-. apply update_peer_infos_loop_grows in E1 as [Hg Hi]; [|done].
  split; [etrans; [exact Hg | apply inc_version_if_grows]|]. intros i Hin. by destruct b; apply Hi.
Qed.

Lemma update_conn_list_grows now l : forall acc, Forall (fun p => 0 <= piv_version p) (omap pci_peer_id l) ->
  grows acc.1 (foldl (update_conn_peer now) acc l).1 /\
  forall p, p ∈ omap pci_peer_id l -> piv_version p <= conn_ver (piv_peer_id p) (foldl (update_conn_peer now) acc l).1.
Proof.
  induction l as [|c l IH]; intros acc; simpl; [intros _; split; [reflexivity|]; by intros p ?%not_elem_of_nil|].
  unfold update_conn_peer at 2 4. destruct (pci_peer_id c) as [q|]; [|apply IH].
  intros [H0 Hl]%Forall_cons. set (s1 := fill_empty_peer_info _ _ _).
  destruct (accept_conn_grows (piv_peer_id q) (piv_version q) (list_to_set (connected_peer_ids c)) s1 acc.2 H0) as [Hg0 Hq].
  destruct (IH (accept_conn (piv_peer_id q) (piv_version q) (list_to_set (connected_peer_ids c)) (s1, acc.2)) Hl) as [Hg Hp].
  split; [etrans; [apply fill_empty_grows|]; by etrans|].
  intros p [->|Hin]%elem_of_cons; [|by apply Hp]. etrans; [exact Hq|]. apply Hg.
Qed.

Lemma update_conn_map_grows now b : forall ids n acc acc', Forall (fun p => 0 <= piv_version p) ids ->
  update_conn_map_loop now b n ids acc = Done acc' ->
  grows acc.1 acc'.1 /\ forall p, p ∈ ids -> piv_version p <= conn_ver (piv_peer_id p) acc'.1.
Proof.
  induction ids as [|q ids IH]; intros n acc acc' Hids; simpl.
  { intros [= <-]. split; [reflexivity|]. by intros p ?%not_elem_of_nil. }
  apply Forall_cons in Hids as [H0 Hl]. intros E. apply bind_Done in E as (c & _ & E).
  apply IH in E as [Hg Hp]; [|done]. set (s1 := fill_empty_peer_info _ _ _) in *.
  destruct (accept_conn_grows (piv_peer_id q) (piv_version q) c s1 acc.2 H0) as [Hg0 Hq].
  split; [etrans; [apply fill_empty_grows|]; by etrans|].
  intros p [->|Hin]%elem_of_cons; [|by apply Hp]. etrans; [exact Hq|]. apply Hg.
Qed.

Lemma update_conn_info_grows now c s s' : update_conn_info now c s = Done s' ->
  Forall (fun p => 0 <= piv_version p) (conn_versions c) ->
  grows s s' /\ forall p, p ∈ conn_versions c -> piv_version p <= conn_ver (piv_peer_id p) s'.
Proof.
  destruct c as [b|l]; simpl.
  - unfold update_conn_map. intros E Hp. apply bind_Done in E as ([s1 inc] & E & [= <-]).
    apply update_conn_map_grows in E as [Hg Hc]; [|done].
    split; [|by destruct inc]. etrans; [apply fill_empty_grows|]. etrans; [exact Hg | apply inc_version_if_grows].
  - intros [= <-] Hp. unfold update_conn_peer_list. destruct (update_conn_list_grows now l (s, false) Hp) as [Hg Hc].
    destruct (foldl _ _ _) as [s1 inc]. split; [|by destruct inc]. etrans; [exact Hg | apply inc_version_if_grows].
Qed.

Lemma update_foreign_network_grows now l s : Forall (fun kv => 0 <= kv.2) (foreign_versions l) ->
  grows s (update_foreign_network now l s) /\
  forall k n, (k, n) ∈ foreign_versions l -> n <= foreign_ver k (update_foreign_network now l s).
Proof.
  intros Hl. unfold update_foreign_network, grows, conn_ver, foreign_ver. simpl.
  assert (forall f, (forall k, default 0 (fe_version <$> f !! k) <=
      default 0 (fe_version <$> foldl (update_foreign_item now) f l !! k)) /\
    forall k n, (k, n) ∈ foreign_versions l -> n <= default 0 (fe_version <$> foldl (update_foreign_item now) f l !! k)) as Hf.
  { induction l as [|i l IH]; intros f; simpl; [split; [done|]; by intros k n ?%not_elem_of_nil|].
    unfold update_foreign_item at 2 4. simpl in Hl.
    destruct (fi_key i) as [k|]; simpl in *; [|by apply IH]. destruct (fi_value i) as [e|]; simpl in *; [|by apply IH].
    apply Forall_cons in Hl as [H0 Hl]. simpl in H0.
    set (f1 := upsert k _ _ f). destruct (IH Hl f1) as [Hg Hk].
    assert ((forall j, default 0 (fe_version <$> f !! j) <= default 0 (fe_version <$> f1 !! j)) /\
      fe_version e <= default 0 (fe_version <$> f1 !! k)) as [Hg1 Hk1].
    { unfold f1. split; [intros j|]; rewrite lookup_upsert; try case_decide; subst; try done;
        destruct (f !! _) as [old|]; simpl; unfold newer_foreign; simpl; try case_match; simpl; lia. }
    split; [intros j; etrans; [apply Hg1 | apply Hg]|].
    intros j n [E|Hin]%elem_of_cons; [|by apply Hk]. injection E as -> ->. etrans; [exact Hk1 | apply Hg]. }
  destruct (Hf (foreign_network s)) as [Hg Hk]. split; [|done]. split_and!; done.
Qed.

Lemma trusts_grow `{!IterOrder text bytes} infos decls s : let s' := verify_and_update_group_trusts infos decls s in
  peer_infos s' = peer_infos s /\ conn_map s' = conn_map s /\ foreign_network s' = foreign_network s.
Proof.
  unfold verify_and_update_group_trusts. revert s. induction infos as [|i infos IH]; intros s; simpl; [done|].
  destruct (IH (update_group_trust (declared_secrets decls) s i)) as (-> & -> & ->).
  unfold update_group_trust. by repeat case_match.
Qed.
End held.

Section handling.
Context `{RouteLib, !InfoWire, PetGraph, PrefixTrie, !BinaryHeap (@min_scored_cmp Z nat _), CostCalculator C}.
Context `{!IterOrder PeerId RoutePeerInfo, !IterOrder PeerId nat, !IterOrder nat (nat * Z),
          !IterOrder PeerId NextHopInfo, !IterOrder ForeignKey ForeignEntry, !IterOrder text bytes,
          !IterOrder PeerId (gset PeerId * Z)}.
Implicit Types (v : @PeerRouteServiceImpl _ C) (x : SyncRouteSession).

(** [v'] has the sessions and the tables of [v]. *)
Definition same_core v v' : Prop := sessions v' = sessions v /\ session_store v' = session_store v /\
  synced_route_info v' = synced_route_info v /\ my_peer_id v' = my_peer_id v.

Lemma update_route_table_core v v' : update_route_table v = Done v' -> same_core v v'.
Proof. unfold update_route_table. intros E. inv_outcome. done. Qed.

Lemma update_tables_core now v v' : update_route_table_and_cached_local_conn_bitmap now v = Done v' -> same_core v v'.
Proof.
  unfold update_route_table_and_cached_local_conn_bitmap. intros E.
  apply bind_Done in E as (v1 & E1 & E). apply update_route_table_core in E1.
  apply bind_Done in E as (b & _ & E). destruct (version_set_if_larger _ _) as [l n]. injection E as <-. exact E1.
Qed.

Lemma update_owner_map_core v : same_core v (update_foreign_network_owner_map v).
Proof. unfold update_foreign_network_owner_map. by destruct (foldl _ _ _). Qed.

Definition session_at v (p : PeerId) : option SyncRouteSession := a ← sessions v !! p; session_store v !! a.

(** The session a handler works with: the existing one, or a fresh one. *)
Lemma get_or_start_session_spec rid p v a v1 : get_or_start_session rid p v = (a, v1) ->
  sessions v1 !! p = Some a /\ synced_route_info v1 = synced_route_info v /\ my_peer_id v1 = my_peer_id v /\
  forall x1, session_store v1 !! a = Some x1 -> exists x b, x1 = with_task b x /\
    (session_at v p = Some x \/ x = session_new (my_peer_id v) p rid).
Proof.
  unfold get_or_start_session, get_or_create_session, session_at.
  destruct (sessions v !! p) as [a'|] eqn:E; unfold start_session_task; simpl.
  - destruct (session_store v !! a') as [x|] eqn:Ex; intros [= <- <-].
    + destruct (task_running x) eqn:Er; simpl.
      * split_and!; [done..|]. intros x1 E1. rewrite Ex in E1. injection E1 as <-.
        exists x, true. split; [by rewrite <- Er; destruct x | eauto].
      * split_and!; [done..|]. intros x1. rewrite lookup_insert_eq. intros [= <-]. eauto.
    + split_and!; [done..|]. intros x1. by rewrite Ex.
  - rewrite lookup_insert_eq. simpl. intros [= <- <-]. simpl. rewrite lookup_insert_eq. split_and!; [done..|].
    rewrite lookup_insert_eq. intros x1 [= <-]. eauto.
Qed.

Lemma store_update_session a f v : session_store (update_session a f v) !! a = f <$> session_store v !! a.
Proof. unfold update_session. simpl. by rewrite lookup_alter_eq. Qed.

Definition told_nonneg (rq : SyncRouteInfoRequest) : Prop :=
  Forall (fun i => 0 <= ri_version i) (default [] (rq_peer_infos rq)) /\
  Forall (fun p => 0 <= piv_version p) (default [] (conn_versions <$> rq_conn_info rq)) /\
  Forall (fun kv => 0 <= kv.2) (foreign_told rq).

Lemma handle_infos_ok wall now decls a from infos raws v v' :
  handle_infos wall now decls a from infos raws v = Done (Ok tt, v') -> Forall (fun i => 0 <= ri_version i) infos ->
  sessions v' = sessions v /\ my_peer_id v' = my_peer_id v /\
  session_store v' !! a = update_dst_saved_peer_info_version now infos from <$> session_store v !! a /\
  grows (synced_route_info v) (synced_route_info v') /\
  forall i, i ∈ infos -> ri_version i <= get_peer_info_version_with_default (ri_peer_id i) (synced_route_info v').
Proof.
  unfold handle_infos. intros E Hp. apply bind_Done in E as ([r s] & E & E2). destruct r as [[]|]; [|done].
  injection E2 as <-. split; [done|]. split; [done|]. split; [by rewrite store_update_session|]. simpl.
  apply update_peer_infos_grows in E as [Hg Hi]; [|done].
  destruct (trusts_grow infos decls s) as (E1 & E2 & E3).
  unfold grows, conn_ver, foreign_ver, conn_at, get_peer_info_version_with_default in *.
  by rewrite E1, E2, E3.
Qed.

Lemma handle_conn_ok wall now a from c v v' :
  handle_conn wall now a from c v = Done v' -> Forall (fun p => 0 <= piv_version p) (conn_versions c) ->
  sessions v' = sessions v /\ my_peer_id v' = my_peer_id v /\
  session_store v' !! a = update_dst_saved_conn_info_version now c from <$> session_store v !! a /\
  grows (synced_route_info v) (synced_route_info v') /\
  forall p, p ∈ conn_versions c -> piv_version p <= conn_ver (piv_peer_id p) (synced_route_info v').
Proof.
  unfold handle_conn. intros E Hp. apply bind_Done in E as (s & E & [= <-]).
  split; [done|]. split; [done|]. split; [by rewrite store_update_session|]. simpl. by eapply update_conn_info_grows.
Qed.

Lemma handle_foreign_ok wall now a from l v v' :
  handle_foreign wall now a from l v = Done v' -> Forall (fun kv => 0 <= kv.2) (foreign_versions l) ->
  sessions v' = sessions v /\ my_peer_id v' = my_peer_id v /\
  (exists x x', session_store v !! a = Some x /\ session_store v' !! a = Some x' /\
     update_dst_saved_foreign_network_version now l from x = Done x') /\
  grows (synced_route_info v) (synced_route_info v') /\
  forall k n, (k, n) ∈ foreign_versions l -> n <= foreign_ver k (synced_route_info v').
Proof.
  unfold handle_foreign. intros E Hp. apply bind_Done in E as (x & Ex & E). apply unwrap_Done in Ex.
  apply bind_Done in E as (x' & Ex' & [= <-]). split; [done|]. split; [done|]. split.
  - exists x, x'. split; [done|]. split; [apply lookup_insert_eq | done].
  - by apply update_foreign_network_grows.
Qed.

(** The three parts of a request, each of which may be missing. *)
Lemma stage_infos wall now decls a rq (raws : option (list DynamicMessage)) v v' :
  (match rq_peer_infos rq with
   | Some infos => raws ← unwrap raws; handle_infos wall now decls a (rq_my_peer_id rq) infos raws v
   | None => Done (Ok tt, v)
   end) = Done (Ok tt, v') ->
  Forall (fun i => 0 <= ri_version i) (default [] (rq_peer_infos rq)) ->
  sessions v' = sessions v /\ my_peer_id v' = my_peer_id v /\
  session_store v' !! a =
    (fun x => match rq_peer_infos rq with
              | Some l => update_dst_saved_peer_info_version now l (rq_my_peer_id rq) x | None => x end)
    <$> session_store v !! a /\
  grows (synced_route_info v) (synced_route_info v') /\
  forall k n, (k, n) ∈ infos_told rq -> n <= get_peer_info_version_with_default k (synced_route_info v').
Proof.
  unfold infos_told. destruct (rq_peer_infos rq) as [infos|]; simpl; intros E Hp.
  - apply bind_Done in E as (r & _ & E). apply handle_infos_ok in E as (? & ? & ? & ? & Hc); [|done].
    split_and!; [done..|]. intros k n (i & [= -> ->] & Hi)%list_elem_of_fmap. by apply Hc.
  - injection E as <-. split_and!; [done | done | by rewrite option_fmap_id | reflexivity|].
    by intros k n ?%not_elem_of_nil.
Qed.

Lemma stage_conn wall now a rq v v' :
  (match rq_conn_info rq with
   | Some c => handle_conn wall now a (rq_my_peer_id rq) c v | None => Done v end) = Done v' ->
  Forall (fun p => 0 <= piv_version p) (default [] (conn_versions <$> rq_conn_info rq)) ->
  sessions v' = sessions v /\ my_peer_id v' = my_peer_id v /\
  session_store v' !! a =
    (fun x => match rq_conn_info rq with
              | Some c => update_dst_saved_conn_info_version now c (rq_my_peer_id rq) x | None => x end)
    <$> session_store v !! a /\
  grows (synced_route_info v) (synced_route_info v') /\
  forall k n, (k, n) ∈ conns_told rq -> n <= conn_ver k (synced_route_info v').
Proof.
  unfold conns_told. destruct (rq_conn_info rq) as [c|]; simpl; intros E Hp.
  - apply handle_conn_ok in E as (? & ? & ? & ? & Hc); [|done].
    split_and!; [done..|]. intros k n (i & [= -> ->] & Hi)%list_elem_of_fmap. by apply Hc.
  - injection E as <-. split_and!; [done | done | by rewrite option_fmap_id | reflexivity|].
    by intros k n ?%not_elem_of_nil.
Qed.

Lemma stage_foreign wall now a rq v v' x :
  (match rq_foreign rq with
   | Some l => handle_foreign wall now a (rq_my_peer_id rq) l v | None => Done v end) = Done v' ->
  Forall (fun kv => 0 <= kv.2) (foreign_told rq) -> session_store v !! a = Some x ->
  sessions v' = sessions v /\ my_peer_id v' = my_peer_id v /\
  (exists x', session_store v' !! a = Some x' /\
    match rq_foreign rq with
    | Some l => update_dst_saved_foreign_network_version now l (rq_my_peer_id rq) x | None => Done x end = Done x') /\
  grows (synced_route_info v) (synced_route_info v') /\
  forall k n, (k, n) ∈ foreign_told rq -> n <= foreign_ver k (synced_route_info v').
Proof.
  unfold foreign_told. destruct (rq_foreign rq) as [l|]; simpl; intros E Hp Hx.
  - apply handle_foreign_ok in E as (? & ? & (x0 & x' & Ex & ? & ?) & ? & Hc); [|done].
    rewrite Hx in Ex. injection Ex as <-. split_and!; eauto.
  - injection E as <-. split_and!; [done | done | by eexists | reflexivity|]. by intros k n ?%not_elem_of_nil.
Qed.

(** What a request that is answered without error does. *)
Record handled (now : Z) (rid : Z) (rq : SyncRouteInfoRequest) v resp v' : Prop := {
  hd_grows : grows (synced_route_info v) (synced_route_info v');
  hd_held : holds_told rq (synced_route_info v');
  hd_me : my_peer_id v' = my_peer_id v;
  hd_session : exists x x', session_at v' (rq_my_peer_id rq) = Some x' /\
    rs_session_id resp = my_session_id x' /\ learned now (rq_my_peer_id rq) (rq_my_session_id rq) rq x x' /\
    (session_at v (rq_my_peer_id rq) = Some x \/ x = session_new (my_peer_id v) (rq_my_peer_id rq) rid)
}.

Lemma do_sync_ok wall now rid decls rq raws v resp v' :
  do_sync_route_info wall now rid decls rq raws v = Done (Ok resp, v') -> told_nonneg rq -> handled now rid rq v resp v'.
Proof.
  unfold do_sync_route_info. intros E (N1 & N2 & N3).
  destruct (get_or_start_session rid (rq_my_peer_id rq) v) as [a v1] eqn:Eg.
  apply get_or_start_session_spec in Eg as (Ea & Es1 & Em1 & Hx1).
  set (v3 := update_session a _ (update_session a _ v1)) in E.
  assert (sessions v3 = sessions v1 /\ synced_route_info v3 = synced_route_info v1 /\ my_peer_id v3 = my_peer_id v1 /\
    session_store v3 !! a = (fun x => update_dst_session_id (rq_my_session_id rq)
      (with_counts (rpc_tx_count x) (as_u32 (rpc_rx_count x + 1)) x)) <$> session_store v1 !! a) as (S3 & T3 & M3 & X3).
  { split_and!; [done..|]. unfold v3. rewrite !store_update_session. by destruct (session_store v1 !! a). }
  clearbody v3. apply bind_Done in E as ([r v4] & E4 & E). destruct r as [[]|]; [|done].
  apply stage_infos in E4 as (S4 & M4 & X4 & G4 & C4); [|done].
  apply bind_Done in E as (v5 & E5 & E). apply stage_conn in E5 as (S5 & M5 & X5 & G5 & C5); [|done].
  apply bind_Done in E as (v6 & E6 & E).
  assert (same_core v5 v6) as (S6 & X6 & T6 & M6).
  { destruct (_ || _) in E6; [by eapply update_tables_core | injection E6 as <-; by split_and!]. }
  apply bind_Done in E as (v7 & E7 & E). set (v8 := if _ || _ then _ else v7) in E.
  assert (same_core v7 v8) as (S8 & X8 & T8 & M8).
  { unfold v8. match goal with |- context [if ?b then _ else _] => destruct b end;
      [apply update_owner_map_core | by split_and!]. }
  clearbody v8. apply bind_Done in E as (x9 & E9 & [= <- <-]). apply unwrap_Done in E9.
  rewrite store_update_session, X8 in E9. apply fmap_Some in E9 as (x7 & X7 & ->).
  assert (is_Some (session_store v6 !! a)) as [x6 Hx6].
  { unfold foreign_told in N3. destruct (rq_foreign rq) as [l|]; [|injection E7 as <-; eauto].
    apply handle_foreign_ok in E7 as (_ & _ & (y & _ & Hy & _) & _); eauto. }
  apply (stage_foreign _ _ _ _ _ _ x6) in E7 as (S7 & M7 & (x7' & X7' & F7) & G7 & C7); [|done|done].
  rewrite X7 in X7'. injection X7' as <-. rewrite X6, X5, X4, X3 in Hx6.
  destruct (session_store v1 !! a) as [x1|] eqn:X1; [|done]. simpl in Hx6. injection Hx6 as Hx6.
  destruct (Hx1 x1 eq_refl) as (x & bt & -> & Hx).
  rewrite T6 in G7. rewrite T3, Es1 in G4. constructor.
  - simpl. rewrite T8. etrans; [exact G4|]. by etrans.
  - simpl. rewrite T8. constructor; [| |done]; intros k n Hk.
    + etrans; [by apply C4|]. etrans; [apply G5 | apply G7].
    + etrans; [by apply C5 | apply G7].
  - simpl. congruence.
  - exists x. eexists. split; [|split; [|split; [|exact Hx]]].
    + unfold session_at. simpl. rewrite S8, S7, S6, S5, S4, S3, Ea. simpl. rewrite lookup_alter_eq, X8, X7. done.
    + done.
    + subst x6.
      assert (learned now (rq_my_peer_id rq) (rq_my_session_id rq) rq x x7) as [].
      { eapply learned_intro; [..|reflexivity|reflexivity|exact F7];
          unfold update_dst_session_id; simpl; destruct (Z.eqb_spec (rq_my_session_id rq) (dst_session_id x)); done. }
      by constructor.
Qed.
End handling.

(** ** A round between two nodes *)

Section exchange.
Context `{RouteLib, !InfoWire, PetGraph, PrefixTrie, !BinaryHeap (@min_scored_cmp Z nat _), CostCalculator C}.
Context `{!IterOrder PeerId RoutePeerInfo, !IterOrder PeerId nat, !IterOrder nat (nat * Z),
          !IterOrder PeerId NextHopInfo, !IterOrder ForeignKey ForeignEntry, !IterOrder text bytes,
          !IterOrder PeerId (gset PeerId * Z)}.
Implicit Types (v : @PeerRouteServiceImpl _ C) (x : SyncRouteSession) (s : SyncedRouteInfo).

(** The other side, whose tables are [s], holds what the session believes. *)
Record truthful x s : Prop := {
  tr_infos : bounded (fun k => get_peer_info_version_with_default k s) (dst_saved_peer_info_versions x);
  tr_conns : bounded (fun k => conn_ver k s) (dst_saved_conn_info_version x);
  tr_foreign : bounded (fun k => foreign_ver k s) (dst_saved_foreign_network_versions x)
}.

(** Versions are unsigned. *)
Definition unsigned s : Prop :=
  (forall k i, peer_infos s !! k = Some i -> 0 <= ri_version i) /\
  (forall k c n, conn_map s !! k = Some (c, n) -> 0 <= n) /\
  (forall k e, foreign_network s !! k = Some e -> 0 <= fe_version e).

(** The message kept for an info says what the info says, and the cached
    connections are not newer than the stored ones. *)
Record consistent v : Prop := {
  co_raw : forall k i m, peer_infos (synced_route_info v) !! k = Some i ->
    raw_peer_infos (synced_route_info v) !! ri_peer_id i = Some m ->
    ri_peer_id (decode_info m) = ri_peer_id i /\ ri_version (decode_info m) = ri_version i;
  co_cached : forall p, p ∈ bm_peer_ids (cached_local_conn_map v) ->
    0 <= piv_version p <= conn_ver (piv_peer_id p) (synced_route_info v);
  co_info_key : forall k i, peer_infos (synced_route_info v) !! k = Some i -> ri_version i <> 0 -> ri_peer_id i = k
}.

Definition nonneg_versions s : Prop := (forall k, 0 <= get_peer_info_version_with_default k s) /\
  (forall k, 0 <= conn_ver k s) /\ (forall k, 0 <= foreign_ver k s).

Lemma nonneg_grows s s' : grows s s' -> nonneg_versions s -> nonneg_versions s'.
Proof.
  intros (G1 & G2 & G3) (N1 & N2 & N3).
  split_and!; intros k; [etrans; [apply N1 | apply G1] | etrans; [apply N2 | apply G2] | etrans; [apply N3 | apply G3]].
Qed.

Lemma unsigned_ver s : unsigned s -> nonneg_versions s.
Proof.
  intros (U1 & U2 & U3). split_and!; intros k;
    unfold get_peer_info_version_with_default, conn_ver, conn_at, foreign_ver.
  - destruct (peer_infos s !! k) eqn:E; simpl; [by eapply U1 | lia].
  - destruct (conn_map s !! k) as [[c n]|] eqn:E; simpl; [by eapply U2 | lia].
  - destruct (foreign_network s !! k) eqn:E; simpl; [by eapply U3 | lia].
Qed.

Lemma truthful_grows x s s' : grows s s' -> truthful x s -> truthful x s'.
Proof.
  intros (G1 & G2 & G3) [T1 T2 T3]. constructor; by eapply bounded_mono; [|eassumption].
Qed.

Lemma truthful_touched x x' s : touched x x' -> truthful x s -> truthful x' s.
Proof.
  intros (p & c & f & -> & Hp & Hc & Hf) [T1 T2 T3]. constructor; simpl; by eapply bounded_ext; [|eassumption].
Qed.

Lemma learned_truthful now dst id rq x x' s : nonneg_versions s -> learned now dst id rq x x' -> holds_told rq s ->
  truthful x s -> truthful x' s.
Proof.
  intros (U1 & U2 & U3) HL [K1 K2 K3] [T1 T2 T3].
  assert (truthful (update_dst_session_id id x) s) as [I1 I2 I3].
  { unfold update_dst_session_id. destruct (negb _); constructor; simpl; auto using bounded_empty. }
  constructor; [rewrite (ln_infos _ _ _ _ _ _ HL) | rewrite (ln_conns _ _ _ _ _ _ HL) | rewrite (ln_foreign _ _ _ _ _ _ HL)];
    apply save_all_bounded; try done; intros k n [_ Hk]%list_elem_of_filter; auto.
Qed.

Lemma elem_of_sent_infos v i : i ∈ sent_infos v <-> exists k, peer_infos (synced_route_info v) !! k = Some i /\
  peer_reachable k (route_table v) = true.
Proof.
  unfold sent_infos. rewrite list_elem_of_fmap. split.
  - intros ([k j] & -> & [Hr Hin]%list_elem_of_filter). apply elem_of_map_iter in Hin. eauto.
  - intros (k & Hk & Hr). exists (k, i). split; [done|]. apply list_elem_of_filter. split; [done|]. by apply elem_of_map_iter.
Qed.

Lemma says_conns_cached force v x rq k n : says force v x rq -> (k, n) ∈ conns_told rq ->
  {| piv_peer_id := k; piv_version := n |} ∈ bm_peer_ids (cached_local_conn_map v).
Proof.
  intros [_ Ec _ _]. unfold conns_told. intros (p & [= -> ->] & Hp)%list_elem_of_fmap.
  destruct (rq_conn_info rq) as [[b|l]|]; simpl in *; [|..|by apply not_elem_of_nil in Hp].
  - destruct Ec as [-> _]. by destruct p.
  - destruct Ec as (-> & _). apply list_elem_of_omap in Hp as (c & Hc & Ep).
    apply list_elem_of_omap in Hc as (q & Hq & Eq). apply elem_of_conns_to_send in Hq as (Hq & _).
    unfold conn_list_item in Eq. apply fmap_Some in Eq as (cs & _ & ->). injection Ep as <-. by destruct q.
Qed.

(** The sender holds what it tells. *)
Lemma says_held force v x rq : consistent v -> unsigned (synced_route_info v) -> says force v x rq ->
  holds_told rq (synced_route_info v).
Proof.
  intros Hco (U1 & U2 & U3) Hs. destruct (says_told _ _ _ _ Hs) as (Ti & Tf & _). constructor; intros k n.
  - rewrite Ti. intros (i & [= -> ->] & [Hn Hi]%list_elem_of_filter)%list_elem_of_fmap.
    apply elem_of_sent_infos in Hi as (k & Hk & _). rewrite (co_info_key _ Hco _ _ Hk).
    + unfold get_peer_info_version_with_default. rewrite Hk. done.
    + intros E. unfold info_known in Hn. by rewrite E in Hn.
  - intros Hk. apply (says_conns_cached _ _ _ _ _ _ Hs) in Hk. by apply (co_cached _ Hco) in Hk as [_ ?].
  - rewrite Tf. intros ([k' e] & [= -> ->] & [_ Hi]%list_elem_of_filter)%list_elem_of_fmap.
    apply elem_of_map_iter in Hi. simpl. unfold foreign_ver. by rewrite Hi.
Qed.

Context `{!InfoWireLaws}.

Lemma received_infos v l : consistent v -> Forall (fun i => exists k, peer_infos (synced_route_info v) !! k = Some i) l ->
  (fun i => (ri_peer_id i, ri_version i)) <$> map decode_info (build_sync_route_raw_req (raw_peer_infos (synced_route_info v)) l) =
  (fun i => (ri_peer_id i, ri_version i)) <$> l.
Proof.
  intros Hco. induction 1 as [|i l [k Hk] _ IH]; simpl; [done|]. f_equal; [|exact IH].
  destruct (raw_peer_infos (synced_route_info v) !! ri_peer_id i) as [m|] eqn:E; simpl.
  - by destruct (co_raw _ Hco _ _ _ Hk E) as [-> ->].
  - by rewrite decode_transcode.
Qed.

(** The receiver decodes what the sender tells. *)
Lemma received_told force v x rq raws : consistent v -> says force v x rq ->
  raws = option_map (build_sync_route_raw_req (raw_peer_infos (synced_route_info v))) (rq_peer_infos rq) ->
  infos_told (as_received rq raws) = infos_told rq.
Proof.
  intros Hco Hs ->. unfold infos_told, as_received. simpl.
  destruct (rq_peer_infos rq) as [l|] eqn:E; simpl; [|done]. apply received_infos; [done|].
  rewrite (says_infos _ _ _ _ Hs) in E. destruct (stale_infos v x) as [|i l'] eqn:El; [done|]. injection E as <-.
  rewrite <- El. apply Forall_forall. intros j [_ Hj]%list_elem_of_filter. apply elem_of_sent_infos in Hj as (k & Hk & _). eauto.
Qed.

Lemma received_nonneg force v x rq raws : consistent v -> unsigned (synced_route_info v) -> says force v x rq ->
  raws = option_map (build_sync_route_raw_req (raw_peer_infos (synced_route_info v))) (rq_peer_infos rq) ->
  told_nonneg (as_received rq raws).
Proof.
  intros Hco Hu Hs Hr. pose proof (received_told _ _ _ _ _ Hco Hs Hr) as Ei. destruct Hu as (U1 & U2 & U3).
  destruct (says_told _ _ _ _ Hs) as (Ti & Tf & _). unfold told_nonneg. split_and!.
  - apply Forall_forall. intros i Hi.
    assert ((ri_peer_id i, ri_version i) ∈ infos_told (as_received rq raws)) as Ht by (apply list_elem_of_fmap; eauto).
    rewrite Ei, Ti in Ht. apply list_elem_of_fmap in Ht as (j & [= _ ->] & [_ Hj]%list_elem_of_filter).
    apply elem_of_sent_infos in Hj as (k & Hk & _). eauto.
  - apply Forall_forall. intros p Hp.
    assert ((piv_peer_id p, piv_version p) ∈ conns_told rq) as Ht by (apply list_elem_of_fmap; eauto).
    apply (says_conns_cached _ _ _ _ _ _ Hs) in Ht. apply (co_cached _ Hco) in Ht. simpl in Ht. lia.
  - change (foreign_told (as_received rq raws)) with (foreign_told rq). rewrite Tf. apply Forall_forall.
    intros kv ([k e] & -> & [_ Hi]%list_elem_of_filter)%list_elem_of_fmap. apply elem_of_map_iter in Hi. simpl. eauto.
Qed.

(** What the sender's session does not hold is told, so the receiver holds it. *)
Lemma told_up_to_date force v x rq s s' : nonneg_versions s' -> says force v x rq -> truthful x s -> grows s s' ->
  holds_told rq s' ->
  (forall k i, peer_infos (synced_route_info v) !! k = Some i -> peer_reachable k (route_table v) = true ->
     ri_peer_id i <> dst_peer_id x -> ri_version i <= get_peer_info_version_with_default (ri_peer_id i) s') /\
  (forall p, p ∈ bm_peer_ids (cached_local_conn_map v) -> is_Some (conn_map (synced_route_info v) !! piv_peer_id p) ->
     piv_peer_id p <> dst_peer_id x -> piv_version p <= conn_ver (piv_peer_id p) s') /\
  (forall k e, foreign_network (synced_route_info v) !! k = Some e -> fk_peer_id k <> dst_peer_id x ->
     fe_version e <= foreign_ver k s').
Proof.
  intros (U1 & U2 & U3) Hs Ht Hg Hh. apply (truthful_grows _ _ _ Hg) in Ht as [T1 T2 T3]. destruct Hh as [K1 K2 K3].
  destruct (says_told _ _ _ _ Hs) as (Ti & Tf & Tc). split_and!.
  - intros k i Hk Hr Hne. destruct (info_known x (ri_peer_id i) (ri_version i)) eqn:E.
    + unfold info_known in E. replace (ri_peer_id i =? dst_peer_id x) with false in E by lia.
      destruct (Z.eqb_spec (ri_version i) 0) as [->|]; [apply U1|]. by eapply (bounded_holds _ _ _ _ T1).
    + apply K1. rewrite Ti. apply list_elem_of_fmap. exists i. split; [done|]. apply list_elem_of_filter.
      split; [done|]. apply elem_of_sent_infos. eauto.
  - intros p Hp Hs' Hne. destruct (conn_known x (piv_peer_id p) (piv_version p)) eqn:E.
    + unfold conn_known in E. replace (piv_peer_id p =? dst_peer_id x) with false in E by lia.
      destruct (Z.eqb_spec (piv_version p) 0) as [->|]; [apply U2|]. by eapply (bounded_holds _ _ _ _ T2).
    + apply K2, Tc, elem_of_conns_to_send. done.
  - intros k e Hk Hne. destruct (foreign_known x k (fe_version e)) eqn:E.
    + unfold foreign_known in E. replace (fk_peer_id k =? dst_peer_id x) with false in E by lia.
      destruct (Z.eqb_spec (fe_version e) 0) as [->|]; [apply U3|]. by eapply (bounded_holds _ _ _ _ T3).
    + apply K3. rewrite Tf. apply list_elem_of_fmap. exists (k, e). split; [done|]. apply list_elem_of_filter.
      split; [done|]. by apply elem_of_map_iter.
Qed.
End exchange.


(** ** Restarted peers *)

Section restart.
Context `{RouteLib, !IterOrder PeerId RoutePeerInfo, !IterOrder ForeignKey ForeignEntry}.
Context {C : Type}.
Implicit Types (v : @PeerRouteServiceImpl _ C) (x : SyncRouteSession).

(** The entry of a foreign network was used at [now]. *)
Definition used_at (now : Z) (k : ForeignKey) x : Prop :=
  exists y, dst_saved_foreign_network_versions x !! k = Some y /\ touch_time y = now.

Lemma check_foreign_used now j n x k :
  (used_at now k x -> used_at now k (check_saved_foreign_network_version_update_to_date now j n x).2) /\
  (j = k -> n <> 0 -> fk_peer_id k <> dst_peer_id x -> is_Some (dst_saved_foreign_network_versions x !! k) ->
   used_at now k (check_saved_foreign_network_version_update_to_date now j n x).2).
Proof.
  unfold check_saved_foreign_network_version_update_to_date, used_at, check_saved.
  destruct ((n =? 0) || (fk_peer_id j =? dst_peer_id x)) eqn:Eb; simpl.
  { split; [done|]. intros -> ? ? _. lia. }
  destruct (dst_saved_foreign_network_versions x !! j) as [y|] eqn:E; simpl.
  - rewrite lookup_insert. case_decide; subst; [split; intros; by eexists|]. split; [done|]. by intros ->.
  - split; [done|]. intros -> _ _ [y Hy]. congruence.
Qed.

Lemma send_foreign_used now l : forall x k e, (k, e) ∈ l -> fe_version e <> 0 -> fk_peer_id k <> dst_peer_id x ->
  is_Some (dst_saved_foreign_network_versions x !! k) ->
  used_at now k (send_stale (fun kv => check_saved_foreign_network_version_update_to_date now kv.1 (fe_version kv.2)) l x).2.
Proof.
  set (check := fun kv : ForeignKey * ForeignEntry => _).
  assert (forall l x k, used_at now k x -> used_at now k (send_stale check l x).2) as Hkeep.
  { clear l. induction l as [|j l IH]; intros x k Hu; simpl; [done|].
    destruct (check j x) as [b x1] eqn:E. specialize (IH x1 k). destruct (send_stale check l x1) as [rest x2].
    apply IH. pose proof (proj1 (check_foreign_used now j.1 (fe_version j.2) x k) Hu) as Hu'.
    fold (check j x) in Hu'. by rewrite E in Hu'. }
  induction l as [|j l IH]; intros x k e Hin Hv Hd Hs; [by apply not_elem_of_nil in Hin|]. simpl.
  pose proof (check_foreign_used now j.1 (fe_version j.2) x k) as [_ Hc]. fold (check j x) in Hc.
  pose proof (proj1 (proj2 (check_foreign_asks now fst (fun kv => fe_version kv.2) j x))) as Ht.
  change (touched x (check j x).2) in Ht.
  destruct (check j x) as [b x1] eqn:E. simpl in Hc, Ht.
  apply elem_of_cons in Hin as [<-|Hin].
  - specialize (Hkeep l x1 k (Hc eq_refl Hv Hd Hs)). by destruct (send_stale check l x1).
  - specialize (IH x1 k e Hin Hv). destruct (send_stale check l x1) as [rest x2]. apply IH.
    + destruct Ht as (p & c & f & -> & _). done.
    + destruct Ht as (p & c & f & -> & _ & _ & Hf). simpl. specialize (Hf k). unfold saved_at in Hf.
      destruct Hs as [y Hy]. rewrite Hy in Hf. by destruct (f !! k); [|done].
Qed.
End restart.

(** when a session learns that its peer was restarted, all the reachable
    infos (but the peer's own) are sent again; foreign networks are not: the
    request names the same networks as without the restart, and as every request
    renews the memory of what the peer held, it does not expire. *)
Theorem restart_not_resent `{RouteLib, !IterOrder PeerId RoutePeerInfo, !IterOrder ForeignKey ForeignEntry} {C : Type}
    (now t id : Z) (v : @PeerRouteServiceImpl _ C) (x : SyncRouteSession) (Hid : id <> dst_session_id x)
    (Ht : t - now <= 60 * SEC) :
  let x' := update_dst_session_id id x in
  (build_route_info now v x').1 =
    none_if_empty (base.filter (fun i => ri_version i <> 0 /\ ri_peer_id i <> dst_peer_id x) (sent_infos v)) /\
  (build_foreign_network_info now v x').1 = (build_foreign_network_info now v x).1 /\
  forall k e, foreign_network (synced_route_info v) !! k = Some e -> fe_version e <> 0 ->
    fk_peer_id k <> dst_peer_id x ->
    holds (dst_saved_foreign_network_versions x) k (fe_version e) = true ->
    holds (dst_saved_foreign_network_versions (clean_dst_saved_map t (build_foreign_network_info now v x').2))
      k (fe_version e) = true.
Proof.
  intros x'. assert (x' = with_saved ∅ ∅ (dst_saved_foreign_network_versions x) (with_dst_session_id id x)) as Ex.
  { unfold x', update_dst_session_id. by rewrite (proj2 (Z.eqb_neq _ _) Hid). }
  split; [|split].
  - destruct (build_route_info_spec now v x') as (x1 & -> & _). simpl. f_equal. apply list_filter_iff. intros i.
    rewrite Ex. unfold info_known, holds, saved_at. simpl. rewrite lookup_empty. simpl.
    rewrite orb_false_r, orb_false_iff, !Z.eqb_neq. done.
  - destruct (build_foreign_spec now v x') as (x1 & -> & _), (build_foreign_spec now v x) as (x2 & -> & _). simpl.
    by rewrite Ex.
  - intros k e Hk Hv Hd Hh. unfold build_foreign_network_info.
    destruct (send_stale_spec _ _ (map_iter (foreign_network (synced_route_info v))) x'
      (check_foreign_asks now fst (fun kv => fe_version kv.2))) as [_ Htouch].
    pose proof (send_foreign_used now (map_iter (foreign_network (synced_route_info v))) x' k e) as Hused.
    destruct (send_stale _ _ x') as [l x1]. simpl in *.
    destruct Hused as (y & Ey & Et); [by apply elem_of_map_iter | done | by rewrite Ex | |].
    { rewrite Ex. simpl. unfold holds, saved_at in Hh. by destruct (dst_saved_foreign_network_versions x !! k). }
    destruct Htouch as (p & c & f & -> & _ & _ & Hf). simpl in *.
    unfold holds, saved_at, retain_fresh. rewrite lookup_retain, Ey. unfold is_expired. rewrite Et.
    replace (60 * SEC <? t - now) with false by lia. simpl.
    specialize (Hf k). rewrite Ex in Hf. unfold saved_at in Hf. simpl in Hf. rewrite Ey in Hf.
    unfold holds, saved_at in Hh. rewrite <- Hf in Hh. done.
Qed.

(** ** Examples *)

(** Infos travel as they are. *)
#[local] Instance wire_lib : RouteLib := {|
  to_time t := Some (seconds t * SEC + nanos t);
  of_time n := {| seconds := n / SEC; nanos := n mod SEC |};
  DynamicMessage := RoutePeerInfo;
  raw_peer_id i := Some (ri_peer_id i);
  hmac_sha256 key data := key ++ [255] ++ data;
  EASYTIER_VERSION := []
|}.
#[local] Instance wire_infos : InfoWire := {| transcode i := i; decode_info m := m |}.
#[local] Instance wire_laws : InfoWireLaws.
Proof. by split. Qed.
#[local] Existing Instance sample_graph.
#[local] Existing Instance sample_trie.

Definition hop_to (k : PeerId) : NextHopInfo :=
  {| next_hop_peer_id := k; path_latency := 1; path_len := 1; nh_version := 0 |}.
Definition net_key : ForeignKey := {| fk_peer_id := 3; fk_network_name := txt "net" |}.
Definition net_entry : ForeignEntry := {| foreign_peer_ids := [8]; fe_last_update := None; fe_version := 6;
  network_secret_digest := []; my_peer_id_for_this_network := 30 |}.

(** Node 1 knows itself, node 3 and a network hosted by node 3. *)
Definition node_1 : @PeerRouteServiceImpl wire_lib DefaultRouteCostCalculator :=
  mkService 1 11 ∅ ∅ (Some DefaultCost)
    (mkTable ∅ {[1 := hop_to 1; 3 := hop_to 3]} ∅ ∅ ∅ ∅ 0) route_table_new ∅ ∅
    (mkSynced {[1 := peer_info_with 1 2 []; 3 := peer_info_with 3 4 []]} {[3 := peer_info_with 3 4 []]}
       {[1 := ({[2; 3]}, 5)]} {[net_key := net_entry]} ∅ ∅ 0)
    {| bm_peer_ids := [{| piv_peer_id := 1; piv_version := 5 |}]; bitmap := [0] |} 0 None 0.

(** Node 2 knows only itself. *)
Definition node_2 : @PeerRouteServiceImpl wire_lib DefaultRouteCostCalculator :=
  mkService 2 22 ∅ ∅ (Some DefaultCost) route_table_new route_table_new ∅ ∅
    (mkSynced {[2 := peer_info_with 2 1 []]} ∅ ∅ ∅ ∅ ∅ 1) bitmap_default 0 None 0.

Definition session_1_2 : SyncRouteSession := session_new 1 2 77.
Definition accepted : SyncRouteInfoResponse := {| rs_is_initiator := false; rs_session_id := 9; rs_error := None |}.

Lemma sync_loop_settles_witness :
  exists x', sync_loop 3 true 0 false true node_1 (fun _ => Some accepted) session_1_2 = Done x' /\
    info_known x' 3 4 = true /\ foreign_known x' net_key 6 = true.
Proof.
  destruct (sync_loop_settles true 0 false true node_1 (fun _ => Some accepted) 9 session_1_2)
    as (x' & E & _ & Hi & Hf); [by intros rq; exists accepted|].
  exists x'. split; [exact E|]. split.
  - apply (Hi 3 (peer_info_with 3 4 [])); vm_compute; reflexivity.
  - apply (Hf net_key net_entry). vm_compute. reflexivity.
Defined.

Definition begun : option (SyncRouteInfoRequest * option (list DynamicMessage)) * SyncRouteSession :=
  sync_begin true 0 false node_1 session_1_2.
Definition no_request : SyncRouteInfoRequest * option (list DynamicMessage) :=
  ({| rq_my_peer_id := 0; rq_my_session_id := 0; rq_is_initiator := false; rq_peer_infos := None;
      rq_conn_info := None; rq_foreign := None |}, None).
Definition request_1 : SyncRouteInfoRequest * option (list DynamicMessage) :=
  default no_request begun.1.
Definition handled_2 : outcome (SyncRouteInfoResponse * @PeerRouteServiceImpl wire_lib DefaultRouteCostCalculator) :=
  sync_route_info 0 0 9 [] (as_received request_1.1 request_1.2) request_1.2 node_2.

Lemma node_1_ok : consistent node_1 /\ unsigned (synced_route_info node_1).
Proof.
  assert (map_Forall (fun k i => 0 <= ri_version i /\ ri_peer_id i = k) (peer_infos (synced_route_info node_1))) as Hi
    by (apply (bool_decide_unpack _); vm_compute; exact I).
  assert (map_Forall (fun (k : PeerId) (m : RoutePeerInfo) => peer_infos (synced_route_info node_1) !! k = Some m)
    (raw_peer_infos (synced_route_info node_1))) as Hr by (apply (bool_decide_unpack _); vm_compute; exact I).
  assert (map_Forall (fun (_ : PeerId) c => 0 <= c.2) (conn_map (synced_route_info node_1))) as Hc
    by (apply (bool_decide_unpack _); vm_compute; exact I).
  assert (map_Forall (fun (_ : ForeignKey) e => 0 <= fe_version e) (foreign_network (synced_route_info node_1))) as Hf
    by (apply (bool_decide_unpack _); vm_compute; exact I).
  split.
  - constructor.
    + intros k i m Hk Hm. destruct (Hi k i Hk) as [_ E]. apply Hr in Hm. rewrite E, Hk in Hm. by injection Hm as <-.
    + intros p [->|[]%not_elem_of_nil]%elem_of_cons. vm_compute. done.
    + intros k i Hk _. exact (proj2 (Hi k i Hk)).
  - split_and!; [intros k i Hk; exact (proj1 (Hi k i Hk)) | intros k c n Hk; exact (Hc k _ Hk) | intros k e Hk; exact (Hf k e Hk)].
Qed.

Lemma node_2_unsigned : unsigned (synced_route_info node_2).
Proof.
  assert (map_Forall (fun (k : PeerId) i => 0 <= ri_version i) (peer_infos (synced_route_info node_2))) as Hi
    by (apply (bool_decide_unpack _); vm_compute; exact I).
  split_and!; [intros k i Hk; exact (Hi k i Hk) | intros k c n Hk; by destruct (lookup_empty_Some k (c, n) Hk) |
    intros k e Hk; by destruct (lookup_empty_Some k e Hk)].
Qed.

Lemma begun_request : begun = (Some (request_1.1, request_1.2), begun.2).
Proof.
  assert (match begun.1 with Some _ => true | None => false end = true) as Hb by (vm_compute; reflexivity).
  unfold request_1. destruct begun as [[[rq raws]|] x1]; [reflexivity | discriminate Hb].
Qed.


(** Node 2 was told of the network before it was restarted with session id 9. *)
Definition session_before : SyncRouteSession :=
  with_saved_foreign {[net_key := {| vt_version := 6; touch_time := 0 |}]} (with_dst_session_id 8 session_1_2).

Lemma restart_not_resent_witness :
  (build_foreign_network_info 0 node_1 (update_dst_session_id 9 session_before)).1 = None /\
  exists i, (build_route_info 0 node_1 (update_dst_session_id 9 session_before)).1 = Some i /\ len i = 2.
Proof.
  destruct (restart_not_resent 0 (60 * SEC) 9 node_1 session_before) as (Ei & Ef & _); [done | done|].
  rewrite Ef. split; [vm_compute; reflexivity|].
  assert (match (build_route_info 0 node_1 (update_dst_session_id 9 session_before)).1 with
    | Some l => len l =? 2 | None => false end = true) as E by (rewrite Ei; vm_compute; reflexivity).
  destruct (build_route_info 0 node_1 (update_dst_session_id 9 session_before)).1 as [l|]; [|discriminate E].
  exists l. split; [reflexivity | by apply Z.eqb_eq].
Defined.
