(* ===== verification/RouteTasks.v ===== *)
(** The tasks of a route service in any order: requests from other nodes, rounds
    with them, the maintenance of sessions, our own announcements and expiry,
    as a step relation over the operations of [RouteService].

    The theorems: at most one session is marked as initiated by us; every stored
    info carries a valid time, so that expired peers are cleared without
    panicking. *)

From stdpp Require Import base numbers list gmap strings.
From S2P Require Import Prelude Text GraphAlgo AclRules SyncedRoute RouteTable SyncSession RouteService RouteExchange.
Open Scope Z_scope.

(** ** Sessions over time *)

Section sessions.
Context `{RouteLib, !InfoWire, PetGraph, PrefixTrie, !BinaryHeap (@min_scored_cmp Z nat _), CostCalculator C}.
Context `{!IterOrder PeerId RoutePeerInfo, !IterOrder PeerId nat, !IterOrder nat (nat * Z),
          !IterOrder PeerId NextHopInfo, !IterOrder ForeignKey ForeignEntry, !IterOrder text bytes,
          !IterOrder PeerId (gset PeerId * Z)}.
Implicit Types (v : @PeerRouteServiceImpl _ C) (x : SyncRouteSession) (cur : option PeerId).

(** The tasks of a service: [cur] is the peer [maintain_sessions] initiates to. *)
Inductive service_step : option PeerId * @PeerRouteServiceImpl _ C -> option PeerId * @PeerRouteServiceImpl _ C -> Prop :=
| step_maintain cur v rid peers cur' v' :
    maintain_round rid peers cur v = (cur', v') -> service_step (cur, v) (cur', v')
| step_request cur v wall now rid decls rq raws r v' :
    do_sync_route_info wall now rid decls rq raws v = Done (r, v') -> service_step (cur, v) (cur, v')
| step_begin cur v force now as_init a x r x' :
    session_store v !! a = Some x -> sync_begin force now as_init v x = (r, x') ->
    service_step (cur, v) (cur, put_session a x' v)
| step_end cur v now pub rq ret a x x' :
    session_store v !! a = Some x -> sync_end now pub rq ret x = Done x' ->
    service_step (cur, v) (cur, put_session a x' v)
| step_task_ended cur v a x :
    session_store v !! a = Some x -> service_step (cur, v) (cur, put_session a (with_task false x) v)
| step_clean cur v now dst : service_step (cur, v) (cur, service_clean_dst_saved_map now dst v)
| step_my_infos cur v now wall g peers foreign v' :
    update_my_peer_info_round now wall g peers foreign v = Done v' -> service_step (cur, v) (cur, v')
| step_expire cur v wall v' : service_clear_expired_peer wall v = Done v' -> service_step (cur, v) (cur, v')
| step_cost cur v c v' : set_route_cost_fn c v = Done v' -> service_step (cur, v) (cur, v').

(** Sessions are not shared between peers; the one marked as ours is [cur]'s. *)
Record sessions_ok cur v : Prop := {
  sk_inj : forall p q a, sessions v !! p = Some a -> sessions v !! q = Some a -> p = q;
  sk_stored : forall p a, sessions v !! p = Some a -> is_Some (session_store v !! a);
  sk_initiator : forall p x, session_at v p = Some x -> we_are_initiator x = true -> cur = Some p
}.

(** No session appears and none becomes marked. *)
Definition quiet v v' : Prop := sessions v' = sessions v /\
  (forall a x', session_store v' !! a = Some x' -> exists x, session_store v !! a = Some x /\
     (we_are_initiator x' = true -> we_are_initiator x = true)) /\
  (forall a, is_Some (session_store v !! a) -> is_Some (session_store v' !! a)).

#[local] Instance quiet_preorder : PreOrder quiet.
Proof.
  split.
  - intros v. split_and!; [done | eauto | done].
  - intros v1 v2 v3 (S1 & W1 & D1) (S2 & W2 & D2). split_and!; [congruence | | eauto].
    intros a x3 (x2 & E2 & I2)%W2. apply W1 in E2 as (x1 & E1 & I1). eauto.
Qed.

Lemma quiet_ok cur v v' : quiet v v' -> sessions_ok cur v -> sessions_ok cur v'.
Proof.
  intros (S & W & D) [K1 K2 K3]. constructor.
  - intros p q a. rewrite S. apply K1.
  - intros p a. rewrite S. eauto.
  - intros p x. unfold session_at in *. rewrite S. intros (a & Ea & Ex)%bind_Some Hw.
    apply W in Ex as (x0 & E0 & I0). eapply K3; [|by apply I0]. apply bind_Some. eauto.
Qed.

Lemma same_sessions_quiet v v' : sessions v' = sessions v -> session_store v' = session_store v -> quiet v v'.
Proof. intros S T. split_and!; [done | rewrite T; eauto | by rewrite T]. Qed.

Lemma same_core_quiet v v' : same_core v v' -> quiet v v'.
Proof. intros (S & T & _). by apply same_sessions_quiet. Qed.

Lemma put_session_quiet a x x' v : session_store v !! a = Some x -> we_are_initiator x' = we_are_initiator x ->
  quiet v (put_session a x' v).
Proof.
  intros Ex Ew. split_and!; [done| |]; intros b; simpl.
  - intros y. rewrite lookup_insert. case_decide; [subst; intros [= <-]; rewrite Ew; eauto | eauto].
  - rewrite lookup_insert. case_decide; eauto.
Qed.

Lemma update_session_quiet a f v : (forall x, we_are_initiator (f x) = true -> we_are_initiator x = true) ->
  quiet v (update_session a f v).
Proof.
  intros Hf. split_and!; [done| |]; intros b; simpl.
  - intros y. rewrite lookup_alter. case_decide; [subst|eauto]. intros (x & -> & ->)%fmap_Some. eauto.
  - rewrite lookup_alter. case_decide; [subst|done]. by rewrite fmap_is_Some.
Qed.

Lemma update_infos_we now l dst x : we_are_initiator (update_dst_saved_peer_info_version now l dst x) = we_are_initiator x.
Proof. by rewrite update_infos_save. Qed.
Lemma update_conns_we now c dst x : we_are_initiator (update_dst_saved_conn_info_version now c dst x) = we_are_initiator x.
Proof. by rewrite update_conns_save. Qed.
Lemma update_foreign_we now l dst x x' : update_dst_saved_foreign_network_version now l dst x = Done x' ->
  we_are_initiator x' = we_are_initiator x.
Proof. by intros ->%update_foreign_Done. Qed.
Lemma update_id_we id x : we_are_initiator (update_dst_session_id id x) = we_are_initiator x.
Proof. by destruct (update_dst_session_id_fields id x) as (_ & _ & _ & -> & _). Qed.

Lemma get_or_start_ok rid p cur v a v' : get_or_start_session rid p v = (a, v') -> sessions_ok cur v ->
  sessions_ok cur v' /\ sessions v' !! p = Some a.
Proof.
  unfold get_or_start_session, get_or_create_session, start_session_task. intros E Hok.
  assert (exists v1, sessions v1 !! p = Some a /\ sessions_ok cur v1 /\ v' = start_session_task a v1) as (v1 & E1 & Hok1 & ->).
  { destruct (sessions v !! p) as [a'|] eqn:Ep; simpl in E; injection E as <- <-; [by exists v|].
    eexists (with_sessions _ _ v). split; [|split; [|reflexivity]]; [apply lookup_insert_eq|].
    set (a := fresh (dom (session_store v))). assert (session_store v !! a = None) as Ha.
    { apply not_elem_of_dom. apply is_fresh. }
    destruct Hok as [K1 K2 K3].
    assert (forall q b, sessions v !! q = Some b -> b <> a) as Hne.
    { intros q b Hq ->. apply K2 in Hq as [y Hy]. congruence. }
    constructor; simpl.
    - intros q r b. rewrite !lookup_insert. repeat case_decide; intros E1 E2; simplify_eq; try done;
        [by apply Hne in E2 | by apply Hne in E1 | eauto].
    - intros q b. rewrite !lookup_insert. repeat case_decide; intros E1; simplify_eq; eauto.
    - intros q x. unfold session_at. simpl. rewrite lookup_insert. case_decide; simpl.
      + rewrite lookup_insert_eq. by intros [= <-].
      + intros (b & Eb & Ex)%bind_Some. rewrite lookup_insert_ne in Ex by (intros <-; by eapply Hne).
        apply K3. apply bind_Some. eauto. }
  unfold start_session_task. destruct (session_store v1 !! a) as [x|] eqn:Ex; [|done].
  destruct (task_running x); [done|]. split; [|done]. by eapply quiet_ok; [eapply put_session_quiet|].
Qed.

Lemma with_synced_quiet s v : quiet v (with_synced s v).
Proof. by apply same_sessions_quiet. Qed.

Lemma handle_infos_quiet wall now decls a from infos raws v r v' :
  handle_infos wall now decls a from infos raws v = Done (r, v') -> quiet v v'.
Proof.
  unfold handle_infos. intros E. apply bind_Done in E as ([r' s] & _ & E). destruct r' as [[]|e]; injection E as _ <-.
  - etrans; [apply with_synced_quiet|]. apply update_session_quiet. intros x. by rewrite update_infos_we.
  - apply with_synced_quiet.
Qed.

Lemma handle_conn_quiet wall now a from c v v' : handle_conn wall now a from c v = Done v' -> quiet v v'.
Proof.
  unfold handle_conn. intros E. apply bind_Done in E as (s & _ & [= <-]).
  etrans; [apply with_synced_quiet|]. apply update_session_quiet. intros x. by rewrite update_conns_we.
Qed.

Lemma handle_foreign_quiet wall now a from l v v' : handle_foreign wall now a from l v = Done v' -> quiet v v'.
Proof.
  unfold handle_foreign. intros E. apply bind_Done in E as (x & Ex & E). apply unwrap_Done in Ex.
  apply bind_Done in E as (x' & E & [= <-]). etrans; [apply with_synced_quiet|].
  eapply put_session_quiet; [exact Ex|]. by eapply update_foreign_we.
Qed.

Lemma do_sync_sessions_ok wall now rid decls rq raws cur v r v' :
  do_sync_route_info wall now rid decls rq raws v = Done (r, v') -> sessions_ok cur v -> sessions_ok cur v'.
Proof.
  unfold do_sync_route_info. intros E Hok. destruct (get_or_start_session rid (rq_my_peer_id rq) v) as [a v1] eqn:Eg.
  destruct (get_or_start_ok _ _ _ _ _ _ Eg Hok) as [Hok1 _]. eapply quiet_ok; [|exact Hok1]. clear Hok Hok1 Eg.
  set (v3 := update_session a _ (update_session a _ v1)) in E.
  assert (quiet v1 v3) as Q3.
  { etrans; apply update_session_quiet; [done|]. intros x. by rewrite update_id_we. }
  clearbody v3. apply bind_Done in E as ([r4 v4] & E4 & E). etrans; [exact Q3|]. etrans.
  { destruct (rq_peer_infos rq); [|by injection E4 as <- <-].
    apply bind_Done in E4 as (? & _ & E4). by eapply handle_infos_quiet. }
  destruct r4 as [[]|e]; [|by injection E as _ <-].
  apply bind_Done in E as (v5 & E5 & E). etrans.
  { destruct (rq_conn_info rq); [by eapply handle_conn_quiet | by injection E5 as <-]. }
  apply bind_Done in E as (v6 & E6 & E). etrans.
  { destruct (_ || _) in E6; [by eapply same_core_quiet, update_tables_core | by injection E6 as <-]. }
  apply bind_Done in E as (v7 & E7 & E). etrans.
  { destruct (rq_foreign rq); [by eapply handle_foreign_quiet | by injection E7 as <-]. }
  set (v8 := if _ || _ then _ else v7) in E. trans v8.
  { unfold v8. match goal with |- context [if ?b then _ else _] => destruct b end;
      [apply same_core_quiet, update_owner_map_core | reflexivity]. }
  apply bind_Done in E as (x & _ & [= _ <-]). by apply update_session_quiet.
Qed.

(** *** Maintenance *)

Lemma remove_session_ok cur cur' p v : sessions_ok cur v ->
  (cur' = cur \/ cur = Some p) -> sessions_ok cur' (remove_session p v).
Proof.
  intros [K1 K2 K3] Hc. constructor; simpl.
  - intros q r a. rewrite !lookup_delete_Some. intros [_ ?] [_ ?]. eauto.
  - intros q a. rewrite lookup_delete_Some. intros [_ ?]. eauto.
  - intros q x. unfold session_at. simpl. intros (a & Ea & Ex)%bind_Some Hw.
    apply lookup_delete_Some in Ea as [Hne Ea]. assert (cur = Some q) as E; [|destruct Hc as [->| ->]; congruence].
    apply (K3 q x); [|done]. apply bind_Some. eauto.
Qed.

Lemma stop_gone_ok peers l : forall acc, sessions_ok acc.1 acc.2 ->
  sessions_ok (foldl (stop_gone peers) acc l).1 (foldl (stop_gone peers) acc l).2.
Proof.
  induction l as [|p l IH]; intros [cur v] Hok; simpl; [done|]. apply IH. simpl in *.
  case_bool_decide; [done|]. simpl. eapply remove_session_ok; [exact Hok|]. case_bool_decide; auto.
Qed.

Lemma stop_idle_ok cur l : forall v, sessions_ok cur v -> sessions_ok cur (foldl stop_idle v l).
Proof.
  induction l as [|p l IH]; intros v Hok; simpl; [done|]. apply IH. unfold stop_idle.
  destruct (session_is _ _ _) as [[]|]; [done | | done]. eapply remove_session_ok; eauto.
Qed.

(** No session of another peer than [p] is marked any more. *)
Lemma unmark_ok cur v : sessions_ok cur v ->
  sessions_ok None (match cur ≫= fun p => get_session p v with
                    | Some a => update_session a (update_initiator_flag false) v
                    | None => v
                    end).
Proof.
  intros Hok. destruct cur as [p|]; simpl; [|done]. unfold get_session. destruct (sessions v !! p) as [a|] eqn:Ep.
  - pose proof (quiet_ok (Some p) v (update_session a (update_initiator_flag false) v)) as Hq.
    destruct Hq as [K1 K2 K3]; [by apply update_session_quiet | done|]. constructor; [done|done|].
    intros q x Hx Hw. pose proof (K3 q x Hx Hw) as [= <-]. unfold session_at in Hx. simpl in Hx. rewrite Ep in Hx. simpl in Hx.
    rewrite lookup_alter_eq in Hx. apply fmap_Some in Hx as (y & _ & ->). done.
  - destruct Hok as [K1 K2 K3]. constructor; [done|done|]. intros q x Hx Hw. pose proof (K3 q x Hx Hw) as [= <-].
    unfold session_at in Hx. by rewrite Ep in Hx.
Qed.

Lemma switch_ok rid cur new v cur' v' : switch_initiator rid cur new v = (cur', v') -> sessions_ok cur v ->
  sessions_ok cur' v'.
Proof.
  unfold switch_initiator. case_bool_decide; [by intros [= <- <-]|]. intros E Hok%unmark_ok.
  set (v1 := match cur ≫= _ with Some _ => _ | None => v end) in *. clearbody v1.
  destruct (get_or_start_session rid new v1) as [a v2] eqn:Eg. injection E as <- <-.
  destruct (get_or_start_ok _ _ _ _ _ _ Eg Hok) as [[K1 K2 K3] Ea]. constructor; simpl; [done| |].
  - intros p b Hp. rewrite lookup_alter. case_decide; [subst; rewrite fmap_is_Some|]; eauto.
  - intros p x. unfold session_at. simpl. intros (b & Eb & Ex)%bind_Some Hw.
    destruct (decide (a = b)) as [<-|Hne]; [f_equal; eauto|]. rewrite lookup_alter_ne in Ex by done.
    exfalso. assert (None = Some p); [|done]. apply (K3 p x); [|done]. apply bind_Some. eauto.
Qed.

Lemma maintain_ok rid peers cur v cur' v' : maintain_round rid peers cur v = (cur', v') -> sessions_ok cur v ->
  sessions_ok cur' v'.
Proof.
  unfold maintain_round. intros E Hok. pose proof (stop_gone_ok peers (list_session_peers v) (cur, v) Hok) as Hok1.
  destruct (foldl (stop_gone peers) (cur, v) (list_session_peers v)) as [cur1 v1]. simpl in Hok1.
  destruct (choose_initiator_dst v1 _) as [new|]; [|by injection E as <- <-].
  destruct (switch_initiator rid cur1 new v1) as [cur2 v2] eqn:Es. injection E as <- <-.
  apply stop_idle_ok. by eapply switch_ok.
Qed.

Lemma get_or_start_tables rid p v : synced_route_info (get_or_start_session rid p v).2 = synced_route_info v.
Proof.
  unfold get_or_start_session, get_or_create_session, start_session_task. destruct (sessions v !! p); simpl; by repeat case_match.
Qed.

Lemma maintain_tables rid peers cur v cur' v' : maintain_round rid peers cur v = (cur', v') ->
  synced_route_info v' = synced_route_info v.
Proof.
  assert (forall l (acc : option PeerId * @PeerRouteServiceImpl _ C), synced_route_info (foldl (stop_gone peers) acc l).2 = synced_route_info acc.2) as H1'.
  { induction l as [|p l IH]; intros [c w]; simpl; [done|]. rewrite IH. unfold stop_gone. by case_bool_decide. }
  assert (forall l (w : @PeerRouteServiceImpl _ C), synced_route_info (foldl stop_idle w l) = synced_route_info w) as H2'.
  { induction l as [|p l IH]; intros w; simpl; [done|]. rewrite IH. unfold stop_idle. by repeat case_match. }
  unfold maintain_round. specialize (H1' (list_session_peers v) (cur, v)).
  destruct (foldl (stop_gone peers) (cur, v) (list_session_peers v)) as [cur1 v1]. simpl in H1'. intros E.
  destruct (choose_initiator_dst v1 _) as [new|]; [|by injection E as _ <-].
  destruct (switch_initiator rid cur1 new v1) as [cur2 v2] eqn:Es. injection E as _ <-. rewrite H2', <- H1'.
  unfold switch_initiator in Es. case_bool_decide; [by injection Es as _ <-|].
  set (v0 := match cur1 ≫= _ with Some _ => _ | None => v1 end) in Es. pose proof (get_or_start_tables rid new v0) as E0.
  destruct (get_or_start_session rid new v0) as [a w]. injection Es as _ <-. simpl in *. rewrite E0.
  unfold v0. by case_match.
Qed.

(** *** The other tasks leave sessions alone *)

Lemma my_infos_quiet now wall g peers foreign v r v' : update_my_infos now wall g peers foreign v = Done (r, v') -> quiet v v'.
Proof.
  unfold update_my_infos. intros E. apply bind_Done in E as ([i v1] & E1 & E).
  apply bind_Done in E as ([c v2] & E2 & E). apply bind_Done in E as ([n v3] & E3 & [= _ <-]).
  trans v1; [|trans v2; [|trans v3]].
  - unfold service_update_my_peer_info in E1. destruct (update_my_peer_info _ _ _ _ _ _) as [u s]. destruct u.
    + apply bind_Done in E1 as (w & Ew & [= _ <-]). etrans; [apply (with_synced_quiet s)|].
      by eapply same_core_quiet, update_tables_core.
    + injection E1 as _ <-. apply with_synced_quiet.
  - unfold service_update_my_conn_info in E2. destruct (update_my_conn_info _ _ _ _) as [u s]. destruct u.
    + apply bind_Done in E2 as (w & Ew & [= _ <-]). etrans; [apply (with_synced_quiet s)|].
      by eapply same_core_quiet, update_tables_core.
    + injection E2 as _ <-. apply with_synced_quiet.
  - unfold service_update_my_foreign_network in E3. destruct (match last_update_my_foreign_network v2 with Some _ => _ | None => _ end);
      [by injection E3 as _ <-|]. apply bind_Done in E3 as ([u s] & _ & [= _ <-]). by apply same_sessions_quiet.
  - assert (quiet v3 (if c || i then update_foreign_network_owner_map v3 else v3)) as Q.
    { destruct (c || i); [apply same_core_quiet, update_owner_map_core | done]. }
    destruct i; [|exact Q]. etrans; [exact Q|]. by apply same_sessions_quiet.
Qed.

Lemma sync_begin_we force now b v x r x' : sync_begin force now b v x = (r, x') ->
  we_are_initiator x' = we_are_initiator x.
Proof.
  intros E. destruct (sync_begin_spec force now b v x) as [(rq & raws & y & E' & Ht & _)|(y & E' & Ht & _)];
    rewrite E in E'; simplify_eq; by apply touched_fields in Ht as (_ & _ & -> & _).
Qed.

Lemma sync_end_we now pub rq ret x x' : sync_end now pub rq ret x = Done x' -> we_are_initiator x' = we_are_initiator x.
Proof.
  unfold sync_end. destruct ret as [resp|]; [|by intros [= <-]].
  destruct (rs_error resp) as [[]|]; [destruct pub; by intros [= <-] | by intros [= <-]|].
  assert (forall y, we_are_initiator (match rq_peer_infos rq with
    | Some l => update_dst_saved_peer_info_version now l (dst_peer_id x) y | None => y end) = we_are_initiator y) as E1.
  { intros y. destruct (rq_peer_infos rq); [apply update_infos_we | done]. }
  assert (forall y, we_are_initiator (match rq_conn_info rq with
    | Some c => update_dst_saved_conn_info_version now c (dst_peer_id x) y | None => y end) = we_are_initiator y) as E2.
  { intros y. destruct (rq_conn_info rq); [apply update_conns_we | done]. }
  destruct (rq_foreign rq) as [l|].
  - intros ->%update_foreign_we. by rewrite E2, E1, update_id_we.
  - intros [= <-]. by rewrite E2, E1, update_id_we.
Qed.

Lemma service_step_ok st st' : service_step st st' -> sessions_ok st.1 st.2 -> sessions_ok st'.1 st'.2.
Proof.
  destruct 1 as [cur v rid peers cur' v' E|cur v wall now rid decls rq raws r v' E|cur v force now b a x r x' Ex E|
    cur v now pub rq ret a x x' Ex E|cur v a x Ex|cur v now dst|cur v now wall g peers foreign v' E|cur v wall v' E|cur v c v' E];
    simpl.
  - by eapply maintain_ok.
  - by eapply do_sync_sessions_ok.
  - apply quiet_ok. eapply put_session_quiet; [exact Ex|]. by eapply sync_begin_we.
  - apply quiet_ok. eapply put_session_quiet; [exact Ex|]. by eapply sync_end_we.
  - apply quiet_ok. by eapply put_session_quiet.
  - apply quiet_ok. unfold service_clean_dst_saved_map. destruct (get_session dst v); [|done]. by apply update_session_quiet.
  - apply quiet_ok. unfold update_my_peer_info_round in E. apply bind_Done in E as ([r w] & Er%my_infos_quiet & E).
    etrans; [exact Er|]. destruct (cost_calculator_need_update w); [|by injection E as <-].
    apply update_route_table_core, same_core_quiet in E. etrans; [|exact E]. apply with_synced_quiet.
  - apply quiet_ok. unfold service_clear_expired_peer in E. apply bind_Done in E as (dead & _ & [= <-]).
    by apply same_sessions_quiet.
  - apply quiet_ok. unfold set_route_cost_fn in E. apply update_route_table_core, same_core_quiet in E.
    etrans; [|exact E]. by apply same_sessions_quiet.
Qed.
End sessions.

(** C7: in every state a service can reach, whatever the interleaving of its
    tasks, at most one session is marked as initiated by us, and it is the one
    with the peer [maintain_sessions] has chosen. *)
Theorem at_most_one_initiator `{RouteLib, !InfoWire, PetGraph, PrefixTrie, !BinaryHeap (@min_scored_cmp Z nat _),
      CostCalculator C, !IterOrder PeerId RoutePeerInfo, !IterOrder PeerId nat, !IterOrder nat (nat * Z),
      !IterOrder PeerId NextHopInfo, !IterOrder ForeignKey ForeignEntry, !IterOrder text bytes,
      !IterOrder PeerId (gset PeerId * Z)}
    (me random_id : Z) (c : C) (now : Z) (cur : option PeerId) (v : @PeerRouteServiceImpl _ C)
    (Hreach : rtc service_step (None, service_new me random_id c now) (cur, v))
    (p : PeerId) (x : SyncRouteSession) (Hp : session_at v p = Some x) (Hx : we_are_initiator x = true) :
  cur = Some p /\ forall q y, session_at v q = Some y -> we_are_initiator y = true -> q = p.
Proof.
  assert (sessions_ok cur v) as [_ _ K3].
  { assert (forall st st', rtc service_step st st' -> sessions_ok st.1 st.2 -> sessions_ok st'.1 st'.2) as Hind.
    { induction 1 as [|st1 st2 st3 Hstep _ IH]; [done|]. intros Hok. by apply IH, (service_step_ok st1). }
    apply (Hind _ _ Hreach). constructor; simpl.
    - intros ?? a. by rewrite lookup_empty.
    - intros ? a. by rewrite lookup_empty.
    - intros q y. unfold session_at. simpl. by rewrite lookup_empty. }
  pose proof (K3 p x Hp Hx) as ->. split; [done|]. intros q y Hq Hy. pose proof (K3 q y Hq Hy) as [= ->]. done.
Qed.

(** ** Expiry *)

Section expiry.
Context `{RouteLib, !InfoWire, PetGraph, PrefixTrie, !BinaryHeap (@min_scored_cmp Z nat _), CostCalculator C}.
Context `{!IterOrder PeerId RoutePeerInfo, !IterOrder PeerId nat, !IterOrder nat (nat * Z),
          !IterOrder PeerId NextHopInfo, !IterOrder ForeignKey ForeignEntry, !IterOrder text bytes,
          !IterOrder PeerId (gset PeerId * Z)}.
Implicit Types (v : @PeerRouteServiceImpl _ C) (s : SyncedRouteInfo).

(** Every info has a valid time. *)
Definition dated_info (i : RoutePeerInfo) : Prop := is_Some (t ← ri_last_update i; to_time t).
Definition dated s : Prop := forall k i, peer_infos s !! k = Some i -> dated_info i.

Lemma dated_same s s' : peer_infos s' = peer_infos s -> dated s -> dated s'.
Proof. unfold dated. by intros ->. Qed.

Context (Htime : forall t, to_time (of_time t) = Some t).

Lemma dated_stamp t i : dated_info (with_last_update (of_time t) i).
Proof. unfold dated_info. simpl. rewrite Htime. eauto. Qed.

Lemma dated_put k i s s' : peer_infos s' = <[k := i]> (peer_infos s) -> dated_info i -> dated s -> dated s'.
Proof. intros E Hi Hs j y. rewrite E, lookup_insert. case_decide; [by intros [= <-] | apply Hs]. Qed.

Lemma fill_empty_dated now ids s : dated s -> dated (fill_empty_peer_info now ids s).
Proof.
  unfold fill_empty_peer_info. intros Hs.
  assert (forall l acc, dated acc.1 -> dated (foldl (fill_empty_one now) acc l).1) as Hl.
  { induction l as [|k l IH]; intros [s0 b] Hd; simpl; [done|]. apply IH. unfold fill_empty_one.
    assert (dated (if peer_infos s0 !! k then s0 else
      with_infos (<[k := peer_info_new now]> (peer_infos s0)) (raw_peer_infos s0) s0)) as Hd'.
    { destruct (peer_infos s0 !! k); [done|]. eapply dated_put; [done| |exact Hd]. apply (dated_stamp now (peer_info_new now)). }
    destruct (peer_infos s0 !! k); simpl; case_match; simpl; done. }
  specialize (Hl (elements ids) (s, false) Hs). destruct (foldl _ _ _) as [s' b]. by destruct b.
Qed.

Lemma accept_info_dated raw now i acc : dated acc.1 -> dated (accept_info raw (with_last_update (of_time now) i) acc).1.
Proof.
  destruct acc as [s b]. unfold accept_info. simpl. intros Hs.
  assert (dated (with_infos (<[ri_peer_id i := with_last_update (of_time now) i]> (peer_infos s))
    (<[ri_peer_id i := raw]> (raw_peer_infos s)) s)) as Hp.
  { eapply dated_put; [done | apply dated_stamp | exact Hs]. }
  repeat case_match; done.
Qed.

Lemma update_peer_infos_loop_dated now me rid from infos : forall raws acc r acc',
  update_peer_infos_loop now me rid from infos raws acc = Done (r, acc') -> dated acc.1 -> dated acc'.1.
Proof.
  induction infos as [|i infos IH]; intros raws acc r acc'; simpl; [by intros [= _ <-]|]. intros E Hs.
  apply bind_Done in E as (raw & _ & E). apply bind_Done in E as (dup & _ & E).
  destruct dup as [?|?]; [|by injection E as _ <-]. apply bind_Done in E as (id & _ & E).
  destruct (negb _); [done|]. eapply IH; [exact E|]. by apply accept_info_dated.
Qed.

Lemma update_peer_infos_dated now me rid from infos raws s r s' :
  update_peer_infos now me rid from infos raws s = Done (r, s') -> dated s -> dated s'.
Proof.
  unfold update_peer_infos. intros E Hs. apply bind_Done in E as ([r1 [s1 b]] & E1 & E).
  apply update_peer_infos_loop_dated in E1; [|done]. destruct r1; injection E as _ <-; [by destruct b | done].
Qed.

Lemma accept_conn_infos k n c acc : peer_infos (accept_conn k n c acc).1 = peer_infos acc.1.
Proof. destruct acc as [s b]. unfold accept_conn. by repeat case_match. Qed.

Lemma update_conn_info_dated now c s s' : update_conn_info now c s = Done s' -> dated s -> dated s'.
Proof.
  destruct c as [b|l]; simpl.
  - unfold update_conn_map. intros E Hs. apply bind_Done in E as ([s1 inc] & E & [= <-]).
    assert (forall ids n acc acc', update_conn_map_loop now b n ids acc = Done acc' -> dated acc.1 -> dated acc'.1) as Hl.
    { induction ids as [|p ids IH]; intros n acc acc'; simpl; [by intros [= <-]|]. intros E' Hd.
      apply bind_Done in E' as (cs & _ & E'). eapply IH; [exact E'|].
      eapply dated_same; [apply (accept_conn_infos (piv_peer_id p) (piv_version p) cs (_, acc.2))|].
      by apply fill_empty_dated. }
    apply Hl in E; [|by apply fill_empty_dated]. by destruct inc.
  - intros [= <-] Hs. unfold update_conn_peer_list.
    assert (forall l acc, dated acc.1 -> dated (foldl (update_conn_peer now) acc l).1) as Hl.
    { clear l. induction l as [|p l IH]; intros acc Hd; simpl; [done|]. apply IH. unfold update_conn_peer.
      destruct (pci_peer_id p); [|done]. eapply dated_same; [apply accept_conn_infos|]. by apply fill_empty_dated. }
    specialize (Hl l (s, false) Hs). destruct (foldl _ _ _) as [s1 inc]. by destruct inc.
Qed.

Lemma update_self_dated self me rid g now now' : (self = peer_info_default \/ dated_info self) ->
  dated_info (update_self self me rid g now now').
Proof.
  intros Hself. unfold update_self. case_match eqn:E; [apply (dated_stamp now')|].
  apply orb_false_iff in E as [E _]. apply bool_decide_eq_false in E. apply dec_stable in E. rewrite E.
  destruct Hself as [Hself|]; [|done]. rewrite Hself in E. discriminate E.
Qed.

Lemma update_my_peer_info_dated now now' me rid g s r s' :
  update_my_peer_info now now' me rid g s = (r, s') -> dated s -> dated s'.
Proof.
  unfold update_my_peer_info. intros E Hs. set (new := update_self _ _ _ _ _ _) in E.
  assert (dated_info new) as Hn.
  { apply update_self_dated. destruct (peer_infos s !! me) eqn:Ei; simpl; [right; by eapply Hs | by left]. }
  assert (dated (with_infos (<[me := new]> (peer_infos s)) (raw_peer_infos s) s)) as Hd by (by eapply dated_put).
  destruct (negb _); injection E as _ <-; [|done]. eapply dated_same; [|exact Hd]. simpl.
  unfold upsert. rewrite lookup_insert_eq. by rewrite insert_insert_eq.
Qed.

Lemma update_my_conn_info_dated now me c s r s' : update_my_conn_info now me c s = (r, s') -> dated s -> dated s'.
Proof.
  unfold update_my_conn_info. intros E Hs. destruct (default _ _) as [mine n].
  eapply dated_same; [|by apply (fill_empty_dated now c)]. by case_bool_decide; injection E as _ <-.
Qed.

Lemma do_sync_dated wall now rid decls rq raws v r v' :
  do_sync_route_info wall now rid decls rq raws v = Done (r, v') ->
  dated (synced_route_info v) -> dated (synced_route_info v').
Proof.
  unfold do_sync_route_info. intros E Hd. destruct (get_or_start_session rid (rq_my_peer_id rq) v) as [a v1] eqn:Eg.
  apply get_or_start_session_spec in Eg as (_ & Es & _ & _). rewrite <- Es in Hd.
  apply bind_Done in E as ([r4 v4] & E4 & E).
  assert (dated (synced_route_info v4)) as Hd4.
  { destruct (rq_peer_infos rq); [|by injection E4 as _ <-]. apply bind_Done in E4 as (l' & _ & E4).
    unfold handle_infos in E4. apply bind_Done in E4 as ([r' s] & Eu & E4).
    apply update_peer_infos_dated in Eu; [|done]. destruct r' as [[]|]; injection E4 as _ <-; simpl; [|done].
    eapply dated_same; [|exact Eu]. apply trusts_grow. }
  destruct r4 as [[]|]; [|by injection E as _ <-]. apply bind_Done in E as (v5 & E5 & E).
  assert (dated (synced_route_info v5)) as Hd5.
  { destruct (rq_conn_info rq); [|by injection E5 as <-]. unfold handle_conn in E5.
    apply bind_Done in E5 as (s & Eu & [= <-]). by apply update_conn_info_dated in Eu. }
  apply bind_Done in E as (v6 & E6 & E).
  assert (synced_route_info v6 = synced_route_info v5) as T6.
  { destruct (_ || _) in E6; [by apply update_tables_core in E6 as (_ & _ & ? & _) | by injection E6 as <-]. }
  apply bind_Done in E as (v7 & E7 & E).
  assert (dated (synced_route_info v7)) as Hd7.
  { rewrite <- T6 in Hd5. destruct (rq_foreign rq); [|by injection E7 as <-]. unfold handle_foreign in E7.
    apply bind_Done in E7 as (x & _ & E7). apply bind_Done in E7 as (x' & _ & [= <-]). done. }
  apply bind_Done in E as (x & _ & [= _ <-]). simpl.
  match goal with |- context [if ?b then _ else _] => destruct b end; [|done].
  eapply dated_same; [|exact Hd7]. by destruct (update_owner_map_core v7) as (_ & _ & -> & _).
Qed.

Lemma my_infos_dated now wall g peers foreign v r v' : update_my_infos now wall g peers foreign v = Done (r, v') ->
  dated (synced_route_info v) -> dated (synced_route_info v').
Proof.
  unfold update_my_infos. intros E Hd. apply bind_Done in E as ([i v1] & E1 & E).
  apply bind_Done in E as ([c v2] & E2 & E). apply bind_Done in E as ([n v3] & E3 & [= _ <-]).
  assert (dated (synced_route_info v1)) as Hd1.
  { unfold service_update_my_peer_info in E1. destruct (update_my_peer_info _ _ _ _ _ _) as [u s] eqn:Eu.
    apply update_my_peer_info_dated in Eu; [|done]. destruct u; [|by injection E1 as _ <-].
    apply bind_Done in E1 as (w & Ew & [= _ <-]). by apply update_tables_core in Ew as (_ & _ & -> & _). }
  assert (dated (synced_route_info v2)) as Hd2.
  { unfold service_update_my_conn_info in E2. destruct (update_my_conn_info _ _ _ _) as [u s] eqn:Eu.
    apply update_my_conn_info_dated in Eu; [|done]. destruct u; [|by injection E2 as _ <-].
    apply bind_Done in E2 as (w & Ew & [= _ <-]). by apply update_tables_core in Ew as (_ & _ & -> & _). }
  assert (dated (synced_route_info v3)) as Hd3.
  { unfold service_update_my_foreign_network in E3.
    destruct (match last_update_my_foreign_network v2 with Some _ => _ | None => _ end); [by injection E3 as _ <-|].
    apply bind_Done in E3 as ([u s] & Es & [= _ <-]). simpl in *. unfold update_my_foreign_network in Es.
    case_match; [done|]. apply bind_Done in Es as ([[st fr] up] & _ & Es). apply bind_Done in Es as ([st' up'] & _ & [= _ <-]).
    by destruct up'. }
  assert (dated (synced_route_info (if c || i then update_foreign_network_owner_map v3 else v3))) as Hd4.
  { destruct (c || i); [|done]. by destruct (update_owner_map_core v3) as (_ & _ & -> & _). }
  by destruct i.
Qed.

Definition expired_info (wall : Z) (i : RoutePeerInfo) : bool :=
  match t ← ri_last_update i; to_time t with
  | Some t => (t <=? wall) && (REMOVE_DEAD_PEER_INFO_AFTER <? wall - t)
  | None => false
  end.

Lemma expired_infos_ok wall l : Forall (fun kv => dated_info kv.2) l -> expired_infos wall l =
  Done (base.filter (fun kv => expired_info wall kv.2 = true) l).*1.
Proof.
  induction 1 as [|[k i] l [u Hu] _ IH]; simpl in *; [done|]. apply bind_Some in Hu as (t & Et & Eu).
  assert (expired_info wall i = (u <=? wall) && (REMOVE_DEAD_PEER_INFO_AFTER <? wall - u)) as Ee.
  { unfold expired_info. rewrite Et. simpl. by rewrite Eu. }
  rewrite Et. simpl. rewrite Eu. simpl. rewrite IH. simpl. rewrite filter_cons, <- Ee. simpl.
  by case_decide as Hd; [rewrite Hd | apply not_true_is_false in Hd; rewrite Hd].
Qed.

Lemma remove_peers_infos l : forall s k,
  peer_infos (foldl (fun s p => remove_peer p s) s l) !! k =
    (if decide (k ∈ l) then None else peer_infos s !! k) /\
  conn_map (foldl (fun s p => remove_peer p s) s l) !! k = (if decide (k ∈ l) then None else conn_map s !! k).
Proof.
  induction l as [|p l IH]; intros s k; simpl; [done|]. destruct (IH (remove_peer p s) k) as [-> ->]. simpl.
  rewrite !lookup_delete. repeat case_decide; set_solver.
Qed.

(** What clearing does to tables whose infos have valid times. *)
Lemma clear_expired_ok wall v : dated (synced_route_info v) -> exists v',
  service_clear_expired_peer wall v = Done v' /\
  peer_infos (synced_route_info v') = retain (fun _ i => negb (expired_info wall i)) (peer_infos (synced_route_info v)) /\
  forall k, conn_map (synced_route_info v') !! k =
    if from_option (expired_info wall) false (peer_infos (synced_route_info v) !! k) then None
    else conn_map (synced_route_info v) !! k.
Proof.
  intros Hd. unfold service_clear_expired_peer. rewrite expired_infos_ok.
  2: { apply Forall_forall. intros [k i] Hin. apply elem_of_map_iter in Hin. by eapply Hd. }
  simpl. eexists; split; [done|]. simpl. set (l := (base.filter _ _).*1).
  assert (forall k, k ∈ l <-> exists i, peer_infos (synced_route_info v) !! k = Some i /\ expired_info wall i = true) as Hl.
  { intros k. unfold l. rewrite list_elem_of_fmap. split.
    - intros ([k' i] & -> & [He Hin]%list_elem_of_filter). apply elem_of_map_iter in Hin. eauto.
    - intros (i & Hi & He). exists (k, i). split; [done|]. apply list_elem_of_filter. split; [done|]. by apply elem_of_map_iter. }
  split.
  - apply map_eq. intros k. destruct (remove_peers_infos l (synced_route_info v) k) as [-> _]. rewrite lookup_retain.
    case_decide as Hk; [apply Hl in Hk as (i & -> & ->); done|].
    destruct (peer_infos (synced_route_info v) !! k) as [i|] eqn:E; [|done].
    destruct (expired_info wall i) eqn:Ee; [|done]. destruct Hk. apply Hl. eauto.
  - intros k. destruct (remove_peers_infos l (synced_route_info v) k) as [_ ->].
    case_decide as Hk; [apply Hl in Hk as (i & -> & He); simpl; by rewrite He|].
    destruct (peer_infos (synced_route_info v) !! k) as [i|] eqn:E; simpl; [|done].
    destruct (expired_info wall i) eqn:Ee; [|done]. destruct Hk. apply Hl. eauto.
Qed.

Lemma service_step_dated st st' : service_step st st' -> dated (synced_route_info st.2) -> dated (synced_route_info st'.2).
Proof.
  destruct 1 as [cur v rid peers cur' v' E|cur v wall now rid decls rq raws r v' E|cur v force now b a x r x' Ex E|
    cur v now pub rq ret a x x' Ex E|cur v a x Ex|cur v now dst|cur v now wall g peers foreign v' E|cur v wall v' E|cur v c v' E];
    simpl; try done; intros Hd.
  - by rewrite (maintain_tables _ _ _ _ _ _ E).
  - by eapply do_sync_dated.
  - unfold service_clean_dst_saved_map. by destruct (get_session dst v).
  - unfold update_my_peer_info_round in E. apply bind_Done in E as ([r w] & Er & E). apply my_infos_dated in Er; [|done].
    destruct (cost_calculator_need_update w); [|by injection E as <-].
    apply update_route_table_core in E as (_ & _ & -> & _). done.
  - destruct (clear_expired_ok wall v Hd) as (v1 & E1 & Ei & _). rewrite E in E1. injection E1 as <-.
    intros k i. rewrite Ei, retain_Some. intros [Hi _]. by eapply Hd.
  - unfold set_route_cost_fn in E. apply update_route_table_core in E as (_ & _ & -> & _). done.
Qed.
End expiry.

(** expired peers are cleared without panicking.  In every state a service
    can reach every stored info carries a valid time, so that the [unwrap]s of
    [clear_expired_peer] succeed; exactly the infos older than the limit are
    removed, together with the connections of their peers. *)
Theorem clear_expired_never_panics `{RouteLib, !InfoWire, PetGraph, PrefixTrie, !BinaryHeap (@min_scored_cmp Z nat _),
      CostCalculator C, !IterOrder PeerId RoutePeerInfo, !IterOrder PeerId nat, !IterOrder nat (nat * Z),
      !IterOrder PeerId NextHopInfo, !IterOrder ForeignKey ForeignEntry, !IterOrder text bytes,
      !IterOrder PeerId (gset PeerId * Z)}
    (Htime : forall t, to_time (of_time t) = Some t)
    (me random_id : Z) (c : C) (now wall : Z) (cur : option PeerId) (v : @PeerRouteServiceImpl _ C)
    (Hreach : rtc service_step (None, service_new me random_id c now) (cur, v)) :
  exists v', service_clear_expired_peer wall v = Done v' /\
    peer_infos (synced_route_info v') = retain (fun _ i => negb (expired_info wall i)) (peer_infos (synced_route_info v)) /\
    forall k, conn_map (synced_route_info v') !! k =
      if from_option (expired_info wall) false (peer_infos (synced_route_info v) !! k) then None
      else conn_map (synced_route_info v) !! k.
Proof.
  apply clear_expired_ok; [done|].
  assert (forall st st', rtc service_step st st' -> dated (synced_route_info st.2) -> dated (synced_route_info st'.2)) as Hind.
  { induction 1 as [|st1 st2 st3 Hstep _ IH]; [done|]. intros Hd. apply IH. by eapply service_step_dated. }
  apply (Hind _ _ Hreach). intros k i. simpl. by rewrite lookup_empty.
Qed.

(** ** Examples *)

#[local] Existing Instance wire_lib.
#[local] Existing Instance wire_infos.
#[local] Existing Instance sample_graph.
#[local] Existing Instance sample_trie.

Definition fresh_service : @PeerRouteServiceImpl wire_lib DefaultRouteCostCalculator := service_new 1 11 DefaultCost 0.

(** Connected to 5 and 3, the service initiates to 3. *)
Definition maintained : option PeerId * @PeerRouteServiceImpl wire_lib DefaultRouteCostCalculator :=
  maintain_round 77 [5; 3] None fresh_service.

Lemma at_most_one_initiator_witness :
  maintained.1 = Some 3 /\ forall q y, session_at maintained.2 q = Some y -> we_are_initiator y = true -> q = 3.
Proof.
  assert (match session_at maintained.2 3 with Some x => we_are_initiator x | None => false end = true) as E
    by (vm_compute; reflexivity).
  destruct (session_at maintained.2 3) as [x|] eqn:Ex; [|discriminate E].
  apply (at_most_one_initiator 1 11 DefaultCost 0 maintained.1 maintained.2) with (x := x); [|exact Ex | exact E].
  apply rtc_once. apply (step_maintain None fresh_service 77 [5; 3]).
  unfold maintained. by destruct (maintain_round _ _ _ _).
Defined.

(** After its first announcement, two hours pass. *)
Definition plain_view : GlobalView := {|
  g_id := 4; g_ipv4 := None; g_proxy_cidrs := []; g_vpn_portal_cidr := None; g_hostname := []; g_udp_nat_type := 0;
  g_feature_flags := {| is_public_server := false; avoid_relay_data := false; kcp_input := false; no_relay_kcp := false;
                        support_conn_list_sync := true |};
  g_quic_proxy_port := None; g_ipv6 := None; g_acl := None |}.
Definition announced_service : outcome (@PeerRouteServiceImpl wire_lib DefaultRouteCostCalculator) :=
  update_my_peer_info_round 0 (7200 * SEC) plain_view [] ∅ fresh_service.

Lemma clear_expired_never_panics_witness :
  exists v v', announced_service = Done v /\ service_clear_expired_peer (14400 * SEC) v = Done v' /\
    peer_infos (synced_route_info v') !! 1 = None.
Proof.
  assert (match announced_service with
    | Done v => match peer_infos (synced_route_info v) !! 1 with Some i => expired_info (14400 * SEC) i | None => true end
    | Panicked _ => false end = true) as E by (vm_compute; reflexivity).
  destruct announced_service as [v|] eqn:Ev; [|discriminate E].
  destruct (clear_expired_never_panics) with (me := 1) (random_id := 11) (c := DefaultCost) (now := 0)
    (wall := 14400 * SEC) (cur := @None PeerId) (v := v) as (v' & Ev' & Hi & _).
  - intros t. simpl. f_equal. pose proof (Z.div_mod t SEC ltac:(done)). lia.
  - apply rtc_once. by apply (step_my_infos None fresh_service 0 (7200 * SEC) plain_view [] ∅).
  - exists v, v'. split; [reflexivity|]. split; [exact Ev'|]. rewrite Hi, lookup_retain.
    destruct (peer_infos (synced_route_info v) !! 1); [by rewrite E | reflexivity].
Defined.

(** The task of the session with 3 ends; the session is stopped, and as the
    choice of 3 does not change it is not started again. *)
Definition after_death : option PeerId * @PeerRouteServiceImpl wire_lib DefaultRouteCostCalculator :=
  let v := maintained.2 in
  match sessions v !! 3 with
  | Some a => (maintained.1, update_session a (with_task false) v)
  | None => maintained
  end.
Definition round_again (st : option PeerId * @PeerRouteServiceImpl wire_lib DefaultRouteCostCalculator) :=
  maintain_round 78 [5; 3] st.1 st.2.

Lemma dead_initiator_not_restarted :
  (round_again (round_again after_death)).1 = Some 3 /\
  sessions (round_again (round_again after_death)).2 !! 3 = None.
Proof. split; vm_compute; reflexivity. Qed.

(** A foreign network without a key makes the handler panic. *)
Definition keyless_request : SyncRouteInfoRequest := {|
  rq_my_peer_id := 2; rq_my_session_id := 5; rq_is_initiator := false; rq_peer_infos := None; rq_conn_info := None;
  rq_foreign := Some [{| fi_key := None; fi_value := None |}] |}.

Lemma keyless_foreign_network_panics :
  match do_sync_route_info 0 0 9 [] keyless_request None fresh_service with
  | Panicked UnwrapOnNone => true
  | _ => false
  end = true.
Proof. vm_compute. reflexivity. Qed.
