(* ===== verification/PeerMap.v ===== *)
(** The peers a node is connected to: [easytier/src/peers/peer.rs],
    [peer_map.rs] and [foreign_network_client.rs], and the [Route] trait of
    [route_trait.rs] with its instance [PeerRoute].

    A [Peer] holds the connections to one peer and a default connection chosen
    by latency; a [PeerMap] holds the peers, the routes it asks for gateways
    and the set of live connections.  What leaves the node is the list of
    packets an operation returns ([Sent]).  A closed connection is reported in
    two places: the live set at once, and the peer through a queue of close
    events that its listener works off ([close_events]).

    The theorems: a peer with a connection always has one to send on, the
    default if it still exists and else the one of least latency; in every
    reachable state the live set is what the connections' states say, cleaning
    removes exactly the peers without a live connection, and packets only ever
    go to a connection of a known peer; and, as the code checks for a peer
    before it adds one, two first connections added at the same time lose one. *)

From stdpp Require Import base numbers list gmap sets.
From Stdlib Require Import ZifyBool.
From S2P Require Import Prelude Text GraphAlgo AclRules SyncedRoute RouteTable SyncSession RouteService PacketDef.
Open Scope Z_scope.

(** [uuid::Uuid]; the default is the nil one. *)
Abbreviation PeerConnId := Z.

(** ** Routes *)

(** The methods of a [Route] object that the peer map calls. *)
Record Route := {
  route_next_hop : PeerId -> NextHopPolicy -> option PeerId;
  route_list : list (PeerId * PeerId);
  route_by_ip : IpAddr -> option PeerId;
  route_peer_info : PeerId -> option RoutePeerInfo;
  route_origin_my_peer_id : text -> PeerId -> option PeerId;
  route_owners : text * option bytes -> list PeerId
}.

Section peer_route.
Context `{RouteLib, PrefixTrie} {C : Type}.
Context `{!IterOrder PeerId RoutePeerInfo}.

(** [PeerRoute::list_routes]: the peers with a next hop, other than ourselves;
    the fields for display are left out. *)
Definition list_route_hops (v : PeerRouteServiceImpl (C := C)) : list (PeerId * PeerId) :=
  omap (fun kv => if bool_decide (kv.1 = my_peer_id v) then None
                  else (fun i => (kv.1, next_hop_peer_id i)) <$> get_next_hop kv.1 (route_table v))
    (map_iter (rt_peer_infos (route_table v))).

(** [PeerRoute] as a [Route]; [same_network] is [is_ip_in_same_network]. *)
Definition peer_route (same_network : IpAddr -> bool) (v : PeerRouteServiceImpl (C := C)) : Route := {|
  route_next_hop dst policy := get_next_hop_with_policy dst policy v;
  route_list := list_route_hops v;
  route_by_ip ip := get_peer_id_by_ip (same_network ip) ip (route_table v);
  route_peer_info p := get_peer_info p v;
  route_origin_my_peer_id name p := get_origin_my_peer_id name p v;
  route_owners i := list_peers_own_foreign_network i v
|}.
End peer_route.

(** ** One peer *)

(** What the peer sees of a connection: [get_stats().latency_us], whether the
    close notifier has fired, and whether its channel still takes packets. *)
Record Conn := { latency_us : Z; is_closed : bool; is_hole_punched : bool; sink_open : bool }.

Record Peer := {
  peer_node_id : PeerId; conns : gmap PeerConnId Conn; default_conn_id : PeerConnId;
  close_events : list PeerConnId
}.

Definition peer_new (id : PeerId) : Peer :=
  {| peer_node_id := id; conns := ∅; default_conn_id := 0; close_events := [] |}.

Definition with_conns (m : gmap PeerConnId Conn) (p : Peer) : Peer :=
  {| peer_node_id := peer_node_id p; conns := m; default_conn_id := default_conn_id p; close_events := close_events p |}.
Definition with_default (d : PeerConnId) (p : Peer) : Peer :=
  {| peer_node_id := peer_node_id p; conns := conns p; default_conn_id := d; close_events := close_events p |}.
Definition with_events (l : list PeerConnId) (p : Peer) : Peer :=
  {| peer_node_id := peer_node_id p; conns := conns p; default_conn_id := default_conn_id p; close_events := l |}.

Definition peer_add_conn (id : PeerConnId) (c : Conn) (p : Peer) : Peer := with_conns (<[id := c]> (conns p)) p.

(** The listener takes one close event. *)
Definition peer_listen (p : Peer) : Peer :=
  match close_events p with
  | [] => p
  | id :: l => with_events l (with_conns (delete id (conns p)) p)
  end.

(** The task that forgets the default every five seconds. *)
Definition peer_clear_default (p : Peer) : Peer :=
  if (1 <? size (conns p))%nat then with_default 0 p else p.

Inductive send_error := PeerNoConnectionError (p : PeerId) | RouteError | TunnelError | NotFound.

Inductive Sent :=
| ToSelf (msg : ZCPacket)                                   (** our own receive queue *)
| ToConn (peer : PeerId) (conn : PeerConnId) (msg : ZCPacket).

Section peer.
Context `{!IterOrder PeerConnId Conn}.

(** The scan for the smallest latency: the minimum so far and the default. *)
Definition scan_latency (acc : Z * PeerConnId) (kv : PeerConnId * Conn) : Z * PeerConnId :=
  if latency_us kv.2 <? acc.1 then (latency_us kv.2, kv.1) else acc.

Definition select_conn (p : Peer) : option (PeerConnId * Conn) * Peer :=
  match conns p !! default_conn_id p with
  | Some c => (Some (default_conn_id p, c), p)
  | None =>
      let d := (foldl scan_latency (U64_MAX, default_conn_id p) (map_iter (conns p))).2 in
      ((fun c => (d, c)) <$> conns p !! d, with_default d p)
  end.

Definition peer_send_msg (msg : ZCPacket) (p : Peer) : result send_error unit * Peer * list Sent :=
  let '(conn, p) := select_conn p in
  match conn with
  | None => (Err (PeerNoConnectionError (peer_node_id p)), p, [])
  | Some (id, c) =>
      if sink_open c then (Ok tt, p, [ToConn (peer_node_id p) id msg]) else (Err TunnelError, p, [])
  end.

Definition close_peer_conn (id : PeerConnId) (p : Peer) : result send_error unit * Peer :=
  match conns p !! id with
  | None => (Err NotFound, p)
  | Some _ => (Ok tt, with_events (close_events p ++ [id]) p)
  end.

(** The open connections; a closed one that is still listed is reported. *)
Definition list_peer_conns (p : Peer) : list (PeerConnId * Conn) * Peer :=
  let closed := base.filter (fun kv => is_closed kv.2 = true) (map_iter (conns p)) in
  (base.filter (fun kv => is_closed kv.2 = false) (map_iter (conns p)),
   foldl (fun p kv => (close_peer_conn kv.1 p).2) p closed).

Definition has_directly_connected_conn (p : Peer) : bool :=
  existsb (fun kv => negb (is_hole_punched kv.2)) (map_iter (conns p)).
Definition get_directly_connections (p : Peer) : gset PeerConnId :=
  dom (retain (fun _ c => negb (is_hole_punched c)) (conns p)).
End peer.

(** ** The map of peers *)

Record PeerMap := mkPeerMap {
  pmap_my_peer_id : PeerId; peer_map : gmap PeerId Peer; pmap_routes : list Route;
  alive_conns : gset (PeerId * PeerConnId)
}.

Definition peer_map_new (me : PeerId) : PeerMap := mkPeerMap me ∅ [] ∅.
Definition with_peers (m : gmap PeerId Peer) (pm : PeerMap) : PeerMap :=
  mkPeerMap (pmap_my_peer_id pm) m (pmap_routes pm) (alive_conns pm).
Definition with_alive (s : gset (PeerId * PeerConnId)) (pm : PeerMap) : PeerMap :=
  mkPeerMap (pmap_my_peer_id pm) (peer_map pm) (pmap_routes pm) s.

Definition has_peer (id : PeerId) (pm : PeerMap) : bool :=
  (id =? pmap_my_peer_id pm) || bool_decide (is_Some (peer_map pm !! id)).

(** [maintain_alive_conns], then the check for an entry; other tasks may run
    before the connection is stored ([add_conn_commit]). *)
Definition add_conn_check (peer : PeerId) (id : PeerConnId) (pm : PeerMap) : bool * PeerMap :=
  (bool_decide (peer_map pm !! peer = None), with_alive ({[(peer, id)]} ∪ alive_conns pm) pm).

Definition add_conn_commit (no_entry : bool) (peer : PeerId) (id : PeerConnId) (c : Conn) (pm : PeerMap)
    : outcome PeerMap :=
  if no_entry then Done (with_peers (<[peer := peer_add_conn id c (peer_new peer)]> (peer_map pm)) pm)
  else
    p ← unwrap (peer_map pm !! peer);
    Done (with_peers (<[peer := peer_add_conn id c p]> (peer_map pm)) pm).

Definition add_new_peer_conn (peer : PeerId) (id : PeerConnId) (c : Conn) (pm : PeerMap) : outcome PeerMap :=
  let '(no_entry, pm) := add_conn_check peer id pm in add_conn_commit no_entry peer id c pm.

Definition close_conn (c : Conn) : Conn :=
  {| latency_us := latency_us c; is_closed := true; is_hole_punched := is_hole_punched c; sink_open := sink_open c |}.

(** A connection closes: the task of [maintain_alive_conns] drops it from the
    live set, the task of [add_peer_conn] queues a close event for its peer. *)
Definition conn_closed (peer : PeerId) (id : PeerConnId) (pm : PeerMap) : outcome PeerMap :=
  if bool_decide ((peer, id) ∈ alive_conns pm) then
    let pm := with_alive (alive_conns pm ∖ {[(peer, id)]}) pm in
    Done (match peer_map pm !! peer with
          | Some p => with_peers (<[peer := with_events (close_events p ++ [id])
                                              (with_conns (alter close_conn id (conns p)) p)]> (peer_map pm)) pm
          | None => pm
          end)
  else Panicked UnwrapOnNone.

Definition peer_map_listen (peer : PeerId) (pm : PeerMap) : PeerMap :=
  with_peers (alter peer_listen peer (peer_map pm)) pm.

Definition close_peer (peer : PeerId) (pm : PeerMap) : PeerMap := with_peers (delete peer (peer_map pm)) pm.

Definition add_route (r : Route) (pm : PeerMap) : PeerMap :=
  mkPeerMap (pmap_my_peer_id pm) (peer_map pm) (r :: pmap_routes pm) (alive_conns pm).

(** The first route that answers. *)
Fixpoint first_route {A} (f : Route -> option A) (rs : list Route) : option A :=
  match rs with
  | [] => None
  | r :: rs => match f r with Some a => Some a | None => first_route f rs end
  end.

Definition get_gateway_peer_id (dst : PeerId) (policy : NextHopPolicy) (pm : PeerMap) : option PeerId :=
  if dst =? pmap_my_peer_id pm then Some dst
  else if has_peer dst pm && match policy with LeastHop => true | LeastCost => false end then Some dst
  else first_route (fun r => route_next_hop r dst policy) (pmap_routes pm).

Definition list_peers_own_foreign_network (i : text * option bytes) (pm : PeerMap) : list PeerId :=
  concat ((fun r => route_owners r i) <$> pmap_routes pm).
Definition get_peer_id_by_ip_route (ip : IpAddr) (pm : PeerMap) : option PeerId :=
  first_route (fun r => route_by_ip r ip) (pmap_routes pm).
Definition get_route_peer_info (p : PeerId) (pm : PeerMap) : option RoutePeerInfo :=
  first_route (fun r => route_peer_info r p) (pmap_routes pm).
Definition pmap_origin_my_peer_id (name : text) (p : PeerId) (pm : PeerMap) : option PeerId :=
  first_route (fun r => route_origin_my_peer_id r name p) (pmap_routes pm).

Definition list_routes (pm : PeerMap) : gmap PeerId PeerId :=
  foldl (fun m r => foldl (fun m x => <[x.1 := x.2]> m) m (route_list r)) ∅ (pmap_routes pm).

Definition need_relay_by_foreign_network (dst : PeerId) (pm : PeerMap) : result send_error bool :=
  match get_gateway_peer_id dst LeastHop pm with
  | Some g => Ok (negb (has_peer g pm))
  | None => Err RouteError
  end.

Section peer_map_ops.
Context `{!IterOrder PeerConnId Conn, !IterOrder PeerId Peer}.

Definition send_msg_directly (msg : ZCPacket) (dst : PeerId) (pm : PeerMap)
    : result send_error unit * PeerMap * list Sent :=
  if dst =? pmap_my_peer_id pm then (Ok tt, pm, [ToSelf msg])
  else
    match peer_map pm !! dst with
    | Some p =>
        let '(r, p, sent) := peer_send_msg msg p in
        (r, with_peers (<[dst := p]> (peer_map pm)) pm, sent)
    | None => (Err RouteError, pm, [])
    end.

Definition send_msg (msg : ZCPacket) (dst : PeerId) (policy : NextHopPolicy) (pm : PeerMap)
    : result send_error unit * PeerMap * list Sent :=
  match get_gateway_peer_id dst policy pm with
  | None => (Err RouteError, pm, [])
  | Some g => send_msg_directly msg g pm
  end.

Definition list_peers (pm : PeerMap) : list PeerId := (map_iter (peer_map pm)).*1.

(** One peer of the scan: has it an open connection? *)
Definition scan_peer (acc : list PeerId * PeerMap) (id : PeerId) : list PeerId * PeerMap :=
  match peer_map acc.2 !! id with
  | None => (acc.1 ++ [id], acc.2)
  | Some p =>
      let '(open, p) := list_peer_conns p in
      (if (length open =? 0)%nat then acc.1 ++ [id] else acc.1, with_peers (<[id := p]> (peer_map acc.2)) acc.2)
  end.

Definition clean_peer_without_conn (pm : PeerMap) : PeerMap :=
  let '(to_remove, pm) := foldl scan_peer ([], pm) (list_peers pm) in
  foldl (fun pm id => close_peer id pm) pm to_remove.

(** ** The foreign network client: a second peer map *)

Definition client_next_hop (p : PeerId) (client : PeerMap) : option PeerId :=
  if has_peer p client then Some p else None.
Definition has_next_hop (p : PeerId) (client : PeerMap) : bool :=
  match client_next_hop p client with Some _ => true | None => false end.
Definition client_send_msg (msg : ZCPacket) (p : PeerId) (client : PeerMap)
    : result send_error unit * PeerMap * list Sent :=
  match client_next_hop p client with
  | Some next_hop => send_msg_directly msg next_hop client
  | None => (Err RouteError, client, [])
  end.
End peer_map_ops.

(** ** Choosing a connection *)

Section select.
Context `{!IterOrder PeerConnId Conn}.

Lemma scan_latency_spec l acc :
  let r := foldl scan_latency acc l in
  (r = acc \/ exists c, (r.2, c) ∈ l /\ latency_us c = r.1 /\ r.1 < acc.1) /\ r.1 <= acc.1 /\
  forall kv, kv ∈ l -> r.1 <= latency_us kv.2.
Proof.
  revert acc; induction l as [|[k c] l IH]; intros acc; simpl.
  { split; [by left|]. split; [lia|]. intros kv Hin. by apply not_elem_of_nil in Hin. }
  destruct (IH (scan_latency acc (k, c))) as (Hr & Hle & Hmin). unfold scan_latency in * at 1 2 3. simpl in *.
  set (r := foldl _ _ _) in *. destruct (Z.ltb_spec (latency_us c) acc.1) as [Hlt|Hge]; simpl in *.
  - split; [|split; [lia|]].
    + right. destruct Hr as [->|(c' & Hin & Hc & Hlt')]; simpl.
      * exists c. split; [by left|]. split; [done|lia].
      * exists c'. split; [by right|]. split; [done|lia].
    + intros kv [->|Hin]%elem_of_cons; simpl; [lia | by apply Hmin].
  - split; [|split; [lia|]].
    + destruct Hr as [->|(c' & Hin & Hc & Hlt')]; [by left|]. right. exists c'. split; [by right | done].
    + intros kv [->|Hin]%elem_of_cons; simpl; [lia | by apply Hmin].
Qed.

(** A peer with a connection always has one to send on, and it becomes the
    default: the previous default while it exists, otherwise one of least
    latency among all; whatever the order the map is scanned in.  Only a peer
    without connections has none. *)
Theorem select_conn_spec (p : Peer) (Hlat : map_Forall (fun _ c => 0 <= latency_us c < U64_MAX) (conns p)) :
  match select_conn p with
  | (Some (id, c), p') =>
      conns p !! id = Some c /\ p' = with_default id p /\
      (id = default_conn_id p \/ conns p !! default_conn_id p = None /\
         forall id' c', conns p !! id' = Some c' -> latency_us c <= latency_us c')
  | (None, _) => conns p = ∅
  end.
Proof.
  unfold select_conn. destruct (conns p !! default_conn_id p) as [c|] eqn:Ed.
  { split; [done|]. split; [by destruct p | by left]. }
  destruct (scan_latency_spec (map_iter (conns p)) (U64_MAX, default_conn_id p)) as (Hr & _ & Hmin).
  set (r := foldl _ _ _) in *. simpl in Hr.
  destruct Hr as [->|(c & Hin & Hc & _)]; simpl.
  - rewrite Ed. simpl. apply map_empty. intros k. destruct (conns p !! k) as [c|] eqn:Ek; [|done].
    specialize (Hmin (k, c) ltac:(by apply elem_of_map_iter)). simpl in Hmin. specialize (Hlat k c Ek). simpl in Hlat. lia.
  - apply elem_of_map_iter in Hin. rewrite Hin. simpl. split; [done|]. split; [done|]. right. split; [done|].
    intros id' c' Hc'. rewrite Hc. apply (Hmin (id', c')). by apply elem_of_map_iter.
Qed.
End select.

Definition open_conn (lat : Z) : Conn :=
  {| latency_us := lat; is_closed := false; is_hole_punched := false; sink_open := true |}.
Definition two_conns : Peer :=
  peer_add_conn 12 (open_conn 300) (peer_add_conn 11 (open_conn 200) (peer_new 5)).

Lemma select_conn_spec_witness :
  match select_conn two_conns with
  | (Some (id, c), p') => id = 11 /\ latency_us c = 200 /\ p' = with_default 11 two_conns
  | (None, _) => False
  end.
Proof.
  pose proof (select_conn_spec two_conns ltac:(apply (bool_decide_unpack _); vm_compute; exact I)) as Hs.
  destruct (select_conn two_conns) as [[[id c]|] p'] eqn:E; [|vm_compute in E; discriminate E].
  assert (id = 11 /\ latency_us c = 200) as [-> ->]
    by (vm_compute in E; injection E as <- <- <-; split; reflexivity).
  split; [reflexivity|]. split; [reflexivity|]. exact (proj1 (proj2 Hs)).
Defined.

(** ** Cleaning *)

Section clean.
Context `{!IterOrder PeerConnId Conn, !IterOrder PeerId Peer}.

Definition all_closed (p : Peer) : bool :=
  bool_decide (map_Forall (fun _ c => is_closed c = true) (conns p)).

Lemma close_peer_conn_conns id p :
  conns (close_peer_conn id p).2 = conns p /\ peer_node_id (close_peer_conn id p).2 = peer_node_id p /\
  exists l, close_events (close_peer_conn id p).2 = close_events p ++ l.
Proof.
  unfold close_peer_conn. destruct (conns p !! id); simpl; [by eauto|]. split; [done|]. split; [done|].
  exists []. by rewrite app_nil_r.
Qed.

Lemma list_peer_conns_spec p :
  let r := list_peer_conns p in
  conns r.2 = conns p /\ peer_node_id r.2 = peer_node_id p /\
  (exists l, close_events r.2 = close_events p ++ l) /\ (length r.1 =? 0)%nat = all_closed p.
Proof.
  unfold list_peer_conns. simpl. set (l := base.filter _ _). generalize l. clear l. intros l. split_and!.
  - revert p; induction l as [|kv l IH]; intros p; simpl; [done|]. rewrite IH. apply close_peer_conn_conns.
  - revert p; induction l as [|kv l IH]; intros p; simpl; [done|]. rewrite IH. apply close_peer_conn_conns.
  - revert p; induction l as [|kv l IH]; intros p; simpl; [exists []; by rewrite app_nil_r|].
    destruct (close_peer_conn_conns kv.1 p) as (_ & _ & k & Ek). destruct (IH (close_peer_conn kv.1 p).2) as [k' ->].
    exists (k ++ k'). by rewrite Ek, app_assoc.
  - apply Bool.eq_iff_eq_true. rewrite Nat.eqb_eq. unfold all_closed. rewrite bool_decide_eq_true. split.
    + intros E k c Hc. apply nil_length_inv in E. destruct (is_closed c) eqn:Ecl; [done|]. exfalso.
      assert ((k, c) ∈ base.filter (fun kv : PeerConnId * Conn => is_closed kv.2 = false) (map_iter (conns p))) as Hin
        by (apply list_elem_of_filter; split; [done | by apply elem_of_map_iter]).
      rewrite E in Hin. by apply not_elem_of_nil in Hin.
    + intros Hall. destruct (base.filter _ _) as [|[k c] rest] eqn:E; [done|]. exfalso.
      assert ((k, c) ∈ base.filter (fun kv : PeerConnId * Conn => is_closed kv.2 = false) (map_iter (conns p))) as Hin
        by (rewrite E; by left).
      apply list_elem_of_filter in Hin as [Hcl Hin]. apply elem_of_map_iter, Hall in Hin. simpl in *. congruence.
Qed.

(** What a scan keeps of a peer: everything but its queue of close events. *)
Definition same_conns (pm pm' : PeerMap) : Prop :=
  alive_conns pm' = alive_conns pm /\ pmap_my_peer_id pm' = pmap_my_peer_id pm /\ pmap_routes pm' = pmap_routes pm /\
  forall k, match peer_map pm !! k, peer_map pm' !! k with
            | Some p, Some p' => conns p' = conns p /\ peer_node_id p' = peer_node_id p /\
                                 exists l, close_events p' = close_events p ++ l
            | None, None => True
            | _, _ => False
            end.

#[global] Instance same_conns_preorder : PreOrder same_conns.
Proof.
  split.
  - intros pm. split_and!; try done. intros k. destruct (peer_map pm !! k); [|done].
    split; [done|]. split; [done|]. exists []. by rewrite app_nil_r.
  - intros a b c (A1 & M1 & R1 & K1) (A2 & M2 & R2 & K2). split_and!; try congruence. intros k.
    specialize (K1 k). specialize (K2 k).
    destruct (peer_map a !! k), (peer_map b !! k), (peer_map c !! k); try done.
    destruct K1 as (? & ? & l1 & E1). destruct K2 as (? & ? & l2 & E2). split; [congruence|]. split; [congruence|].
    exists (l1 ++ l2). by rewrite E2, E1, app_assoc.
Qed.

Definition dead_peer (pm : PeerMap) (id : PeerId) : bool :=
  match peer_map pm !! id with None => true | Some p => all_closed p end.

Lemma dead_peer_same pm pm' id : same_conns pm pm' -> dead_peer pm' id = dead_peer pm id.
Proof.
  intros (_ & _ & _ & K). specialize (K id). unfold dead_peer, all_closed.
  destruct (peer_map pm !! id), (peer_map pm' !! id); try done. by destruct K as (-> & _).
Qed.

Lemma scan_peer_spec rem pm id :
  exists pm', scan_peer (rem, pm) id = (rem ++ (if dead_peer pm id then [id] else []), pm') /\ same_conns pm pm'.
Proof.
  unfold scan_peer, dead_peer. cbn [fst snd]. destruct (peer_map pm !! id) as [p|] eqn:Ep.
  2: { by exists pm. }
  destruct (list_peer_conns_spec p) as (Hc & Hn & He & Hl). destruct (list_peer_conns p) as [open p'] eqn:El.
  simpl in *. rewrite Hl. eexists. split; [destruct (all_closed p); by rewrite ?app_nil_r|].
  split_and!; try done. intros k. simpl. destruct (decide (k = id)) as [->|Hne].
  - by rewrite Ep, lookup_insert_eq.
  - rewrite lookup_insert_ne by done. destruct (peer_map pm !! k); [|done]. split; [done|]. split; [done|].
    exists []. by rewrite app_nil_r.
Qed.

Lemma scan_all_spec l rem pm :
  exists pm', foldl scan_peer (rem, pm) l = (rem ++ base.filter (fun k => dead_peer pm k = true) l, pm') /\
    same_conns pm pm'.
Proof.
  revert rem pm; induction l as [|id l IH]; intros rem pm; simpl.
  { exists pm. by rewrite app_nil_r. }
  destruct (scan_peer_spec rem pm id) as (pm1 & -> & H1).
  destruct (IH (rem ++ (if dead_peer pm id then [id] else [])) pm1) as (pm2 & -> & H2).
  exists pm2. split; [|by etrans]. f_equal. rewrite <- app_assoc. f_equal.
  assert (base.filter (fun k => dead_peer pm1 k = true) l = base.filter (fun k => dead_peer pm k = true) l) as ->.
  { clear -H1. induction l as [|k l IH]; [done|]. rewrite !filter_cons, (dead_peer_same _ _ _ H1), IH. done. }
  rewrite filter_cons. destruct (dead_peer pm id) eqn:Ed; by case_decide.
Qed.

Lemma close_peers_lookup l pm k :
  peer_map (foldl (fun pm id => close_peer id pm) pm l) !! k = if decide (k ∈ l) then None else peer_map pm !! k.
Proof.
  revert pm; induction l as [|id l IH]; intros pm; cbn [foldl].
  { case_decide as Hk; [by apply not_elem_of_nil in Hk | done]. }
  rewrite IH. simpl. destruct (decide (k = id)) as [->|Hne].
  - rewrite lookup_delete_eq, (decide_True (P := id ∈ id :: l)) by (by left). by case_decide.
  - rewrite lookup_delete_ne by done. repeat case_decide; try done; set_solver.
Qed.

Lemma clean_alive pm : alive_conns (clean_peer_without_conn pm) = alive_conns pm.
Proof.
  unfold clean_peer_without_conn. destruct (scan_all_spec (list_peers pm) [] pm) as (pm1 & -> & (<- & _)). simpl.
  generalize pm1. induction (base.filter _ _) as [|id l IH]; intros pm'; simpl; [done|]. by rewrite IH.
Qed.

(** Cleaning keeps a peer exactly when it has an open connection. *)
Lemma clean_lookup pm k :
  match peer_map (clean_peer_without_conn pm) !! k with
  | Some p' => exists p, peer_map pm !! k = Some p /\ conns p' = conns p /\ peer_node_id p' = peer_node_id p /\
                 (exists l, close_events p' = close_events p ++ l) /\ all_closed p = false
  | None => forall p, peer_map pm !! k = Some p -> all_closed p = true
  end.
Proof.
  unfold clean_peer_without_conn. destruct (scan_all_spec (list_peers pm) [] pm) as (pm1 & -> & H1). simpl.
  rewrite close_peers_lookup. pose proof H1 as (_ & _ & _ & K). specialize (K k).
  assert (forall p, peer_map pm !! k = Some p -> k ∈ list_peers pm) as Hlist.
  { intros p Hp. unfold list_peers. apply list_elem_of_fmap. exists (k, p). split; [done | by apply elem_of_map_iter]. }
  case_decide as Hin.
  - apply list_elem_of_filter in Hin as [Hd _]. intros p Hp. unfold dead_peer in Hd. by rewrite Hp in Hd.
  - destruct (peer_map pm !! k) as [p|] eqn:Ep, (peer_map pm1 !! k) as [p'|] eqn:Ep'; try done.
    exists p. split; [done|]. split; [apply K|]. split; [apply K|]. split; [apply K|].
    destruct (all_closed p) eqn:Ec; [|done]. exfalso. apply Hin.
    apply list_elem_of_filter. split; [unfold dead_peer; by rewrite Ep | by eapply Hlist].
Qed.
End clean.

(** ** Reachable states *)

(** A connection id that nothing in the map knows. *)
Definition fresh_conn (id : PeerConnId) (pm : PeerMap) : Prop :=
  (forall k, (k, id) ∉ alive_conns pm) /\
  forall k p, peer_map pm !! k = Some p -> conns p !! id = None.

Section reachable.
Context `{!IterOrder PeerConnId Conn, !IterOrder PeerId Peer}.

(** What the tasks of a node do to its peers, one whole operation at a time. *)
Inductive pm_step : PeerMap -> PeerMap -> Prop :=
| step_add peer id c pm pm' :
    fresh_conn id pm -> is_closed c = false -> add_new_peer_conn peer id c pm = Done pm' -> pm_step pm pm'
| step_closed peer id pm pm' : conn_closed peer id pm = Done pm' -> pm_step pm pm'
| step_listen peer pm : pm_step pm (peer_map_listen peer pm)
| step_clear_default peer pm : pm_step pm (with_peers (alter peer_clear_default peer (peer_map pm)) pm)
| step_close_conn peer id pm :
    pm_step pm (with_peers (alter (fun p => (close_peer_conn id p).2) peer (peer_map pm)) pm)
| step_send msg dst pm r pm' sent : send_msg_directly msg dst pm = (r, pm', sent) -> pm_step pm pm'
| step_clean pm : pm_step pm (clean_peer_without_conn pm)
| step_route r pm : pm_step pm (add_route r pm).

Inductive pm_reachable (me : PeerId) : PeerMap -> Prop :=
| reach_new : pm_reachable me (peer_map_new me)
| reach_step pm pm' : pm_reachable me pm -> pm_step pm pm' -> pm_reachable me pm'.

(** A peer of the map: stored under its id, a connection is open exactly when
    it is in the live set, and a closed one has a close event waiting. *)
Definition peer_ok (alive : gset (PeerId * PeerConnId)) (k : PeerId) (p : Peer) : Prop :=
  peer_node_id p = k /\
  forall id c, conns p !! id = Some c ->
    (is_closed c = false <-> (k, id) ∈ alive) /\ (is_closed c = true -> id ∈ close_events p).

Definition pm_inv (pm : PeerMap) : Prop := map_Forall (peer_ok (alive_conns pm)) (peer_map pm).

Lemma peer_ok_more alive k p p' :
  peer_ok alive k p -> conns p' = conns p -> peer_node_id p' = peer_node_id p ->
  (exists l, close_events p' = close_events p ++ l) -> peer_ok alive k p'.
Proof.
  intros [Hk Hc] E1 E2 [l E3]. split; [congruence|]. rewrite E1. intros id c Hid.
  destruct (Hc id c Hid) as [Ha Hcl]. split; [done|]. intros E. rewrite E3. apply elem_of_app. left. by apply Hcl.
Qed.

Lemma pm_inv_alter f k pm :
  pm_inv pm -> (forall p, peer_map pm !! k = Some p -> peer_ok (alive_conns pm) k p -> peer_ok (alive_conns pm) k (f p)) ->
  pm_inv (with_peers (alter f k (peer_map pm)) pm).
Proof.
  intros Hi Hf j p. simpl. destruct (decide (j = k)) as [->|Hne].
  - rewrite lookup_alter_eq. destruct (peer_map pm !! k) as [q|] eqn:Eq; simpl; [|done]. intros [= <-].
    apply Hf; [done | by apply Hi].
  - rewrite lookup_alter_ne by done. apply Hi.
Qed.

Lemma peer_ok_same k p f : peer_ok f k p -> forall p', conns p' = conns p -> peer_node_id p' = peer_node_id p ->
  close_events p' = close_events p -> peer_ok f k p'.
Proof. intros Hp p' E1 E2 E3. eapply peer_ok_more; try done. exists []. by rewrite app_nil_r. Qed.

Lemma select_conn_same p : let p' := (select_conn p).2 in
  conns p' = conns p /\ peer_node_id p' = peer_node_id p /\ close_events p' = close_events p.
Proof. unfold select_conn. by destruct (conns p !! default_conn_id p). Qed.

(** A map with a usable connection to [peer] sends on it. *)
Definition reaches (pm : PeerMap) (peer : PeerId) : Prop :=
  peer <> pmap_my_peer_id pm /\
  exists p id c, peer_map pm !! peer = Some p /\ peer_node_id p = peer /\ (select_conn p).1 = Some (id, c) /\
    sink_open c = true.

Lemma reaches_sends msg pm peer : reaches pm peer ->
  exists id pm', send_msg_directly msg peer pm = (Ok tt, pm', [ToConn peer id msg]).
Proof.
  intros (Hne & q & id & c & Hq & Hid & Hsel & Hopen). unfold send_msg_directly.
  rewrite (proj2 (Z.eqb_neq _ _) Hne), Hq. unfold peer_send_msg. pose proof (select_conn_same q) as (_ & Hid' & _).
  destruct (select_conn q) as [sel q']. simpl in Hsel, Hid'. subst sel. rewrite Hopen, Hid', Hid. eauto.
Qed.

Lemma reaches_gateway pm peer : reaches pm peer -> get_gateway_peer_id peer LeastHop pm = Some peer.
Proof.
  intros (Hne & q & _ & _ & Hq & _). unfold get_gateway_peer_id. rewrite (proj2 (Z.eqb_neq _ _) Hne). unfold has_peer.
  by rewrite Hq, (bool_decide_eq_true_2 (is_Some (Some q))), orb_true_r by eauto.
Qed.

Lemma add_inv peer id c pm pm' : fresh_conn id pm -> is_closed c = false ->
  add_new_peer_conn peer id c pm = Done pm' -> pm_inv pm -> pm_inv pm'.
Proof.
  intros [Hfa Hfc] Hc E Hi. unfold add_new_peer_conn, add_conn_check, add_conn_commit in E. simpl in E.
  set (alive := {[(peer, id)]} ∪ alive_conns pm) in *.
  assert (forall k p, peer_map pm !! k = Some p -> peer_ok alive k p) as Hold.
  { intros k p Hp. destruct (Hi k p Hp) as [Hk Hcs]. split; [done|]. intros j d Hj.
    destruct (Hcs j d Hj) as [Ha Hcl]. split; [|done]. rewrite Ha. unfold alive. rewrite elem_of_union, elem_of_singleton.
    split; [by right|]. intros [[= -> ->]|]; [|done]. by rewrite (Hfc _ _ Hp) in Hj. }
  assert (forall p, peer_ok alive peer p -> peer_ok alive peer (peer_add_conn id c p)) as Hadd.
  { intros p [Hk Hcs]. split; [done|]. intros j d. simpl. destruct (decide (j = id)) as [->|Hne].
    - rewrite lookup_insert_eq. intros [= <-]. rewrite Hc. unfold alive. set_solver.
    - rewrite lookup_insert_ne by done. apply Hcs. }
  case_bool_decide as He.
  - injection E as <-. intros k p. simpl. destruct (decide (k = peer)) as [->|Hne].
    + rewrite lookup_insert_eq. intros [= <-]. apply Hadd. split; [done|]. intros j d Hj.
      simpl in Hj. by rewrite lookup_empty in Hj.
    + rewrite lookup_insert_ne by done. apply Hold.
  - destruct (peer_map pm !! peer) as [q|] eqn:Eq; [|done]. simpl in E. injection E as <-. intros k p. simpl.
    destruct (decide (k = peer)) as [->|Hne].
    + rewrite lookup_insert_eq. intros [= <-]. apply Hadd, Hold, Eq.
    + rewrite lookup_insert_ne by done. apply Hold.
Qed.

Lemma closed_inv peer id pm pm' : conn_closed peer id pm = Done pm' -> pm_inv pm -> pm_inv pm'.
Proof.
  intros E Hi. unfold conn_closed in E. case_bool_decide as Ha; [|done]. injection E as <-.
  set (alive := alive_conns pm ∖ {[(peer, id)]}).
  assert (forall k p, k <> peer -> peer_map pm !! k = Some p -> peer_ok alive k p) as Hother.
  { intros k p Hne Hp. destruct (Hi k p Hp) as [Hk Hcs]. split; [done|]. intros j d Hj.
    destruct (Hcs j d Hj) as [Haj Hcl]. split; [|done]. rewrite Haj. unfold alive. set_solver. }
  simpl. destruct (peer_map pm !! peer) as [q|] eqn:Eq.
  - intros k p. simpl. destruct (decide (k = peer)) as [->|Hne].
    2: { rewrite lookup_insert_ne by done. by apply Hother. }
    rewrite lookup_insert_eq. intros [= <-]. destruct (Hi peer q Eq) as [Hk Hcs]. split; [done|]. simpl.
    intros j d. destruct (decide (j = id)) as [->|Hj].
    + rewrite lookup_alter_eq. destruct (conns q !! id) as [c0|]; [|done]. intros [= <-]. simpl. unfold alive. set_solver.
    + rewrite lookup_alter_ne by done. intros Hd. destruct (Hcs j d Hd) as [Haj Hcl].
      split; [rewrite Haj; unfold alive; set_solver | set_solver].
  - intros k p Hp. simpl in Hp |- *. apply Hother; [intros ->; congruence | done].
Qed.

Lemma send_inv msg dst pm r pm' sent : send_msg_directly msg dst pm = (r, pm', sent) -> pm_inv pm -> pm_inv pm'.
Proof.
  intros E Hi. unfold send_msg_directly in E. destruct (dst =? pmap_my_peer_id pm); [by simplify_eq|].
  destruct (peer_map pm !! dst) as [p|] eqn:Ep; [|by simplify_eq].
  destruct (peer_send_msg msg p) as [[r0 p'] sent'] eqn:Es. injection E as <- <- <-.
  assert (p' = (select_conn p).2) as ->.
  { unfold peer_send_msg in Es. destruct (select_conn p) as [[[i c]|] q]; simpl; [destruct (sink_open c)|]; by simplify_eq. }
  intros k q. simpl. destruct (decide (k = dst)) as [->|Hne].
  - rewrite lookup_insert_eq. intros [= <-]. destruct (select_conn_same p) as (E1 & E2 & E3).
    eapply peer_ok_same; [by apply Hi | done | done | done].
  - rewrite lookup_insert_ne by done. apply Hi.
Qed.

Lemma listen_ok alive k p : peer_ok alive k p -> peer_ok alive k (peer_listen p).
Proof.
  intros [Hk Hc]. unfold peer_listen. destruct (close_events p) as [|id l] eqn:El; [by split; [|rewrite El]|].
  split; [done|]. simpl. intros j d Hj. apply lookup_delete_Some in Hj as [Hne Hj].
  destruct (Hc j d Hj) as [Ha Hcl]. split; [done|]. intros E. specialize (Hcl E). set_solver.
Qed.

Lemma pm_step_inv pm pm' : pm_step pm pm' -> pm_inv pm -> pm_inv pm'.
Proof.
  intros Hs Hi. destruct Hs as [peer id c pm pm' Hf Hc E|peer id pm pm' E|peer pm|peer pm|peer id pm|msg dst pm r pm' sent E|pm|r pm].
  - by eapply add_inv.
  - by eapply closed_inv.
  - apply pm_inv_alter; [done|]. intros p _. apply listen_ok.
  - apply pm_inv_alter; [done|]. intros p _ Hp. unfold peer_clear_default. destruct (1 <? size (conns p))%nat; [|done].
    by eapply peer_ok_same.
  - apply pm_inv_alter; [done|]. intros p _ Hp. destruct (close_peer_conn_conns id p) as (E1 & E2 & E3).
    by eapply peer_ok_more.
  - by eapply send_inv.
  - intros k p' Hp'. pose proof (clean_lookup pm k) as Hk. rewrite Hp' in Hk. rewrite clean_alive.
    destruct Hk as (p & Hp & E1 & E2 & E3 & _). eapply peer_ok_more; [by apply Hi | done | done | done].
  - done.
Qed.

Lemma pm_reachable_inv me pm : pm_reachable me pm -> pm_inv pm.
Proof.
  induction 1 as [|pm pm' _ IH Hs]; [|by eapply pm_step_inv]. intros k p Hp. simpl in Hp. by rewrite lookup_empty in Hp.
Qed.

(** In every state the tasks can reach, cleaning keeps exactly the peers that
    have a connection in the live set; a peer whose close events have been
    handled has only live connections; and a packet for another node leaves on
    a connection of that node or not at all. *)
Theorem live_peers_kept (me : PeerId) (pm : PeerMap) (Hr : pm_reachable me pm) :
  (forall k, is_Some (peer_map (clean_peer_without_conn pm) !! k) <->
     exists p id, peer_map pm !! k = Some p /\ is_Some (conns p !! id) /\ (k, id) ∈ alive_conns pm) /\
  (forall k p id, peer_map pm !! k = Some p -> close_events p = [] -> is_Some (conns p !! id) ->
     (k, id) ∈ alive_conns pm) /\
  (forall msg dst r pm' sent s, send_msg_directly msg dst pm = (r, pm', sent) -> s ∈ sent ->
     s = ToSelf msg /\ dst = pmap_my_peer_id pm \/
     exists p id, s = ToConn dst id msg /\ peer_map pm !! dst = Some p /\ is_Some (conns p !! id)).
Proof.
  pose proof (pm_reachable_inv me pm Hr) as Hi. split_and!.
  - intros k. pose proof (clean_lookup pm k) as Hk. destruct (peer_map (clean_peer_without_conn pm) !! k) as [p'|].
    + split; [|eauto]. intros _. destruct Hk as (p & Hp & _ & _ & _ & Hopen). exists p.
      apply bool_decide_eq_false in Hopen. apply map_not_Forall in Hopen as (id & c & Hid & Hc); [|apply _].
      exists id. split; [done|]. split; [eauto|]. destruct (Hi k p Hp) as [_ Hcs]. apply (Hcs id c Hid).
      by apply not_true_is_false.
    + split; [by intros []|]. intros (p & id & Hp & [c Hid] & Ha). specialize (Hk p Hp).
      apply bool_decide_eq_true in Hk. specialize (Hk id c Hid). simpl in Hk.
      destruct (Hi k p Hp) as [_ Hcs]. apply (Hcs id c Hid) in Ha. congruence.
  - intros k p id Hp He [c Hid]. destruct (Hi k p Hp) as [_ Hcs]. destruct (Hcs id c Hid) as [Ha Hcl].
    apply Ha. destruct (is_closed c); [|done]. rewrite He in Hcl. specialize (Hcl eq_refl). by apply not_elem_of_nil in Hcl.
  - intros msg dst r pm' sent s E Hs. unfold send_msg_directly in E.
    destruct (Z.eqb_spec dst (pmap_my_peer_id pm)) as [->|Hne]; [left; simplify_eq; set_solver|]. right.
    destruct (peer_map pm !! dst) as [p|] eqn:Ep; [|simplify_eq; set_solver].
    destruct (Hi dst p Ep) as [Hid _]. unfold peer_send_msg in E.
    destruct (select_conn p) as [[[id c]|] q] eqn:Esel; [|simplify_eq; set_solver].
    assert (conns p !! id = Some c /\ peer_node_id q = peer_node_id p) as [Hc Hq].
    { unfold select_conn in Esel. destruct (conns p !! default_conn_id p) eqn:Ed; [by simplify_eq|].
      destruct (conns p !! _) eqn:Ed' in Esel; [by simplify_eq/= | done]. }
    destruct (sink_open c); simplify_eq; [|set_solver]. exists p, id.
    apply list_elem_of_singleton in Hs as ->. rewrite Hq. eauto.
Qed.
End reachable.

(** ** Adding connections concurrently *)

(** Two tasks that add the first two connections of a peer both find no entry;
    the second then replaces the peer the first has stored, and the first
    connection, still in the live set, belongs to no peer.  A task that found the entry
    panics when the peer is cleaned away before it stores its connection. *)
Theorem concurrent_add_loses_conn (pm : PeerMap) (peer : PeerId) (id1 id2 : PeerConnId) (c1 c2 : Conn)
    (Hnone : peer_map pm !! peer = None) (Hne : id1 <> id2) :
  let '(n1, pm1) := add_conn_check peer id1 pm in
  let '(n2, pm2) := add_conn_check peer id2 pm1 in
  exists pm3 pm4 p, add_conn_commit n1 peer id1 c1 pm2 = Done pm3 /\ add_conn_commit n2 peer id2 c2 pm3 = Done pm4 /\
    peer_map pm4 !! peer = Some p /\ conns p = {[id2 := c2]} /\ conns p !! id1 = None /\
    (peer, id1) ∈ alive_conns pm4 /\
    (add_conn_check peer id1 pm4).1 = false /\
    add_conn_commit false peer id1 c1 (close_peer peer pm4) = Panicked UnwrapOnNone.
Proof.
  unfold add_conn_check. simpl. rewrite !bool_decide_eq_true_2 by done.
  eexists _, _, _. split; [reflexivity|]. split; [reflexivity|]. simpl. rewrite lookup_insert_eq.
  split; [reflexivity|]. simpl. rewrite insert_empty. split; [done|]. split; [by apply lookup_singleton_ne|].
  split; [set_solver|]. split; [done|]. by rewrite lookup_delete_eq.
Qed.

Lemma concurrent_add_loses_conn_witness :
  let '(n1, pm1) := add_conn_check 5 11 (peer_map_new 1) in
  let '(n2, pm2) := add_conn_check 5 12 pm1 in
  exists pm3 pm4 p, add_conn_commit n1 5 11 (open_conn 1) pm2 = Done pm3 /\
    add_conn_commit n2 5 12 (open_conn 2) pm3 = Done pm4 /\ peer_map pm4 !! 5 = Some p /\ conns p !! 11 = None.
Proof.
  destruct (concurrent_add_loses_conn (peer_map_new 1) 5 11 12 (open_conn 1) (open_conn 2))
    as (pm3 & pm4 & p & E1 & E2 & E3 & _ & E4 & _); [reflexivity | discriminate |].
  exists pm3, pm4, p. split; [exact E1|]. split; [exact E2|]. split; [exact E3 | exact E4].
Defined.

Definition one_peer : PeerMap :=
  match add_new_peer_conn 5 11 (open_conn 200) (peer_map_new 1) with Done pm => pm | Panicked _ => peer_map_new 1 end.

Lemma one_peer_reachable : pm_reachable 1 one_peer.
Proof.
  apply (reach_step 1 (peer_map_new 1)); [apply reach_new|].
  apply (step_add 5 11 (open_conn 200)); [|reflexivity|reflexivity].
  split; [intros k; apply not_elem_of_empty|]. intros k p Hp. simpl in Hp. by rewrite lookup_empty in Hp.
Qed.

Lemma live_peers_kept_witness :
  is_Some (peer_map (clean_peer_without_conn one_peer) !! 5).
Proof.
  apply (proj1 (live_peers_kept 1 one_peer one_peer_reachable) 5).
  exists (peer_add_conn 11 (open_conn 200) (peer_new 5)), 11. split; [reflexivity|]. split; [by eexists|].
  apply (bool_decide_unpack _). vm_compute. exact I.
Defined.
