(* ===== verification/PeerManager.v ===== *)
(** The packet pipeline of a node: [easytier/src/peers/peer_manager.rs].

    [PeerManager] takes packets from its own interface ([send_msg_by_ip]), from
    proxies ([send_msg_for_proxy]), from the RPC layer ([RpcTransport::send])
    and from its peers ([peer_recv], the body of the receive task).  A packet
    for this node is decrypted, decompressed, filtered and handed to the first
    handler that takes it; any other packet is forwarded, at most seven times.
    What a step does is the list of its [action]s.

    The encryptor and the compressor are those of [Encrypt] and [Compressor],
    the peer maps those of [PeerMap]; the ACL stage is the class [PacketAcl],
    of which [AclFilter] is an instance, and the manager of foreign networks
    the class [ForeignManager].  Handlers other than the two the node registers
    itself are functions from packets to packets and actions.

    The theorems: a packet is forwarded boundedly often whatever the routes
    do; along nodes that are ready for it, at most seven between the ends, a
    packet is delivered to the interface of its destination with its payload;
    an outbound ACL drop does not stop the packet; a foreign network packet
    without its header stops the receive task; and an address whose host bits
    under the node's own prefix are all ones is taken for a broadcast, which
    every address is when that prefix has full length. *)

From stdpp Require Import base numbers list gmap sets.
From Stdlib Require Import ZifyBool.
From S2P Require Import Prelude Text GraphAlgo TokenBucket AclRules AclProcessor AclFilter StatsManager.
From S2P Require Import SyncedRoute RouteTable RouteService PeerMap.
From S2P Require Import PacketDef Compressor Encrypt PeerConn.
Open Scope Z_scope.

(** ** Interfaces *)

(** [AclFilter::process_packet_with_acl]. *)
Class PacketAcl (A : Type) := {
  acl_process : Clock -> ZCPacket -> bool -> option Z -> option Z -> A -> outcome (bool * A)
}.

Section acl_instance.
Context `{CidrLib} `{Pnet} `{!IterOrder AclCacheKey AclCacheEntry} `{!IterOrder text ConnTrackEntry}.
Context (instant_min : Z) (get_peer_groups : Z -> list text).
Definition acl_filter_stage : PacketAcl AclFilter :=
  {| acl_process := process_packet_with_acl instant_min get_peer_groups |}.
End acl_instance.

(** [ForeignNetworkManager::get_network_peer_id]. *)
Class ForeignManager := { get_network_peer_id : text -> option PeerId }.

(** ** State *)

Inductive action :=
| SendPeer (s : Sent)                                  (** through the peer map *)
| SendForeign (s : Sent)                               (** through the foreign network client *)
| ToNic (p : ZCPacket)                                 (** the interface's channel *)
| ToRpc (p : ZCPacket)                                 (** the RPC transport's channel *)
| ToForeignManager (network : text) (peer : PeerId) (p : ZCPacket)
| ToHandler (n : Z) (p : ZCPacket).                    (** some other handler took it *)

(** A [PeerPacketFilter]: the packet if it is passed on, and what was done. *)
Definition peer_filter : Type := ZCPacket -> outcome (option ZCPacket * list action).
(** A [NicPacketFilter]: the packet after it ran. *)
Definition nic_filter : Type := ZCPacket -> outcome ZCPacket.

Record PeerManager {A : Type} := mkManager {
  mgr_my_peer_id : PeerId;
  mgr_network_name : text;
  peers : PeerMap;
  foreign_network_client : PeerMap;
  encryptor : Encryptor;
  data_compress_algo : CompressorAlgo;
  acl_filter : A;
  my_ipv4 : option (Z * Z);
  my_ipv6 : option (Z * Z);
  exit_nodes : list IpAddr;
  latency_first : bool;
  peer_packet_process_pipeline : list peer_filter;
  nic_packet_process_pipeline : list nic_filter;
  counters : gmap (MetricName * text) Z
}.
Arguments PeerManager : clear implicits.

Inductive manager_error := SendError (e : send_error) | CompressError (e : compress_error)
| EncryptError (e : encrypt_error) | UnknownError | SendErrors (es : list manager_error).

Section manager.
Context `{Zstd} `{PacketAcl A} `{ForeignManager}.
Context `{!IterOrder PeerConnId Conn, !IterOrder PeerId Peer, !IterOrder PeerId PeerId}.
Implicit Types (m : PeerManager A).

Definition set_peers (pm : PeerMap) m : PeerManager A :=
  mkManager _ (mgr_my_peer_id m) (mgr_network_name m) pm (foreign_network_client m) (encryptor m) (data_compress_algo m)
    (acl_filter m) (my_ipv4 m) (my_ipv6 m) (exit_nodes m) (latency_first m) (peer_packet_process_pipeline m)
    (nic_packet_process_pipeline m) (counters m).
Definition set_client (pm : PeerMap) m : PeerManager A :=
  mkManager _ (mgr_my_peer_id m) (mgr_network_name m) (peers m) pm (encryptor m) (data_compress_algo m)
    (acl_filter m) (my_ipv4 m) (my_ipv6 m) (exit_nodes m) (latency_first m) (peer_packet_process_pipeline m)
    (nic_packet_process_pipeline m) (counters m).
Definition set_acl (a : A) m : PeerManager A :=
  mkManager _ (mgr_my_peer_id m) (mgr_network_name m) (peers m) (foreign_network_client m) (encryptor m) (data_compress_algo m)
    a (my_ipv4 m) (my_ipv6 m) (exit_nodes m) (latency_first m) (peer_packet_process_pipeline m)
    (nic_packet_process_pipeline m) (counters m).
Definition set_pipelines (ps : list peer_filter) (ns : list nic_filter) m : PeerManager A :=
  mkManager _ (mgr_my_peer_id m) (mgr_network_name m) (peers m) (foreign_network_client m) (encryptor m) (data_compress_algo m)
    (acl_filter m) (my_ipv4 m) (my_ipv6 m) (exit_nodes m) (latency_first m) ps ns (counters m).
Definition set_counters (c : gmap (MetricName * text) Z) m : PeerManager A :=
  mkManager _ (mgr_my_peer_id m) (mgr_network_name m) (peers m) (foreign_network_client m) (encryptor m) (data_compress_algo m)
    (acl_filter m) (my_ipv4 m) (my_ipv6 m) (exit_nodes m) (latency_first m) (peer_packet_process_pipeline m)
    (nic_packet_process_pipeline m) c.

(** [get_counter(name, network label).add(n)]. *)
Definition count (name : MetricName) (network : text) (n : Z) m : PeerManager A :=
  set_counters (upsert (name, network) (fun x => as_u64 (x + n)) (as_u64 n) (counters m)) m.
Definition count_own (name : MetricName) (n : Z) m : PeerManager A := count name (mgr_network_name m) n m.

(** ** Sending *)

Definition get_next_hop_policy (is_first_latency : bool) : NextHopPolicy :=
  if is_first_latency then LeastCost else LeastHop.

Definition via_peers (r : result send_error unit * PeerMap * list Sent) m
    : result send_error unit * PeerManager A * list action :=
  let '(res, pm, sent) := r in (res, set_peers pm m, SendPeer <$> sent).
Definition via_client (r : result send_error unit * PeerMap * list Sent) m
    : result send_error unit * PeerManager A * list action :=
  let '(res, pm, sent) := r in (res, set_client pm m, SendForeign <$> sent).

Definition send_msg_internal (msg : ZCPacket) (dst : PeerId) m
    : outcome (result send_error unit * PeerManager A * list action) :=
  hdr ← pm_header msg;
  lf ← is_latency_first hdr;
  let policy := get_next_hop_policy lf in
  Done (match get_gateway_peer_id dst policy (peers m) with
        | Some gateway =>
            if has_peer gateway (peers m) then via_peers (send_msg_directly msg gateway (peers m)) m
            else if has_next_hop gateway (foreign_network_client m)
                 then via_client (client_send_msg msg gateway (foreign_network_client m)) m
                 else (Err RouteError, m, [])
        | None =>
            if has_next_hop dst (foreign_network_client m)
            then via_client (client_send_msg msg dst (foreign_network_client m)) m
            else (Err RouteError, m, [])
        end).

(** The message is a [&mut]: it is what the operations left of it. *)
Definition try_compress_and_encrypt (algo : CompressorAlgo) (e : Encryptor) (fresh : bytes) (msg : ZCPacket)
    : outcome (result manager_error unit * ZCPacket) :=
  c ← compress algo msg;
  match c with
  | Err err => Done (Err (CompressError err), msg)
  | Ok msg =>
      '(r, msg) ← encrypt e fresh msg;
      Done (match r with Ok _ => Ok tt | Err err => Err (EncryptError err) end, msg)
  end.

Definition send_msg_for_proxy (fresh : bytes) (msg : ZCPacket) (dst : PeerId) m
    : outcome (result manager_error unit * PeerManager A * list action) :=
  let m := count_own CompressionBytesTxBefore (buf_len msg) m in
  '(r, msg) ← try_compress_and_encrypt (data_compress_algo m) (encryptor m) fresh msg;
  match r with
  | Err err => Done (Err err, m, [])
  | Ok _ =>
      let m := count_own CompressionBytesTxAfter (buf_len msg) m in
      let msg_len := buf_len msg in
      '(r, m, acts) ← send_msg_internal msg dst m;
      Done (match r with
            | Ok _ => (Ok tt, count_own TrafficPacketsSelfTx 1 (count_own TrafficBytesSelfTx msg_len m), acts)
            | Err err => (Err (SendError err), m, acts)
            end)
  end.

(** [RpcTransport::send]. *)
Definition rpc_send (fresh : bytes) (msg : ZCPacket) (dst : PeerId) m
    : outcome (result manager_error unit * PeerManager A * list action) :=
  let is_dst_peer_public_server :=
    default (negb (has_peer dst (peers m)))
      (is_public_server <$> (get_route_peer_info dst (peers m) ≫= ri_feature_flag)) in
  '(r, msg) ← (if is_dst_peer_public_server then Done (Ok tt, msg) else encrypt (encryptor m) fresh msg);
  match r with
  | Err err => Done (Err (EncryptError err), m, [])
  | Ok _ =>
      let '(r, m, acts) := via_peers (send_msg_directly msg (mgr_my_peer_id m) (peers m)) m in
      Done (match r with Ok _ => Ok tt | Err err => Err (SendError err) end, m, acts)
  end.

(** ** Destinations *)

Definition IPV4_BROADCAST : Z := 2 ^ 32 - 1.
Definition is_multicast_v4 (a : Z) : bool := a / 2 ^ 28 =? 14.
Definition is_multicast_v6 (a : Z) : bool := a / 2 ^ 120 =? 255.
Definition is_unicast_link_local (a : Z) : bool := a / 2 ^ 118 =? 1018.

(** [Inet::new(addr, len).unwrap().last_address()]. *)
Definition last_address (width addr n : Z) : outcome Z :=
  if (0 <=? n) && (n <=? width) then Done (addr / 2 ^ (width - n) * 2 ^ (width - n) + (2 ^ (width - n) - 1))
  else Panicked UnwrapOnNone.

(** [Inet::contains]. *)
Definition inet_contains (width : Z) (net : Z * Z) (addr : Z) : bool :=
  addr / 2 ^ (width - net.2) =? net.1 / 2 ^ (width - net.2).

Definition is_ip_in_same_network (ip : IpAddr) m : bool :=
  match ip with
  | V4 a => match my_ipv4 m with Some net => inet_contains 32 net a | None => false end
  | V6 a => match my_ipv6 m with Some net => inet_contains 128 net a | None => false end
  end.

(** The first exit node that some peer has the address of. *)
Fixpoint find_exit_node (family : IpAddr -> bool) (nodes : list IpAddr) (pm : PeerMap) : option PeerId :=
  match nodes with
  | [] => None
  | n :: nodes =>
      if family n then
        match get_peer_id_by_ip_route n pm with Some p => Some p | None => find_exit_node family nodes pm end
      else find_exit_node family nodes pm
  end.
Definition is_v4 (ip : IpAddr) : bool := match ip with V4 _ => true | V6 _ => false end.

Definition exit_peers (family : IpAddr -> bool) m : list PeerId * bool :=
  match find_exit_node family (exit_nodes m) (peers m) with Some p => ([p], true) | None => ([], false) end.

Definition get_msg_dst_peer (a : Z) m : outcome (list PeerId * bool) :=
  let network_length := match my_ipv4 m with Some net => net.2 | None => 24 end in
  last ← last_address 32 a network_length;
  Done (if (a =? IPV4_BROADCAST) || is_multicast_v4 a || (a =? last) then
          (base.filter (fun p => p <> mgr_my_peer_id m) (map_iter (list_routes (peers m))).*1, false)
        else match get_peer_id_by_ip_route (V4 a) (peers m) with
             | Some p => ([p], false)
             | None => if is_ip_in_same_network (V4 a) m then ([], false) else exit_peers is_v4 m
             end).

Definition get_msg_dst_peer_ipv6 (a : Z) m : outcome (list PeerId * bool) :=
  let network_length := match my_ipv6 m with Some net => net.2 | None => 64 end in
  last ← last_address 128 a network_length;
  Done (if is_multicast_v6 a || (a =? last) then ((map_iter (list_routes (peers m))).*1, false)
        else match get_peer_id_by_ip_route (V6 a) (peers m) with
             | Some p => ([p], false)
             | None => if is_unicast_link_local a then ([], false) else exit_peers (fun ip => negb (is_v4 ip)) m
             end).

(** ** Packets from the interface *)

(** The newest filter runs first. *)
Fixpoint run_nic_filters (fs : list nic_filter) (data : ZCPacket) : outcome ZCPacket :=
  match fs with
  | [] => Done data
  | f :: fs => data ← f data; run_nic_filters fs data
  end.

Definition run_nic_packet_process_pipeline (ck : Clock) (data : ZCPacket) m : outcome (ZCPacket * PeerManager A) :=
  '(ok, a) ← acl_process ck data false None None (acl_filter m);
  let m := set_acl a m in
  if negb ok then Done (data, m)
  else data ← run_nic_filters (rev (nic_packet_process_pipeline m)) data; Done (data, m).

Definition with_to_peer (p : PeerId) (h : PeerManagerHeader) : PeerManagerHeader :=
  {| from_peer_id := from_peer_id h; to_peer_id := p; pm_packet_type := pm_packet_type h; pm_flags := pm_flags h;
     forward_counter := forward_counter h; reserved := reserved h; pm_len := pm_len h |}.

(** The header of the copy for one destination. *)
Definition address_copy (not_send_to_self : bool) (me peer : PeerId) (h : PeerManagerHeader) : outcome PeerManagerHeader :=
  let h := with_to_peer peer h in
  if not_send_to_self && (peer =? me) then h ← set_not_send_to_tun true h; set_no_proxy true h else Done h.

Fixpoint send_copies (not_send_to_self : bool) (msg : ZCPacket) (dsts : list PeerId) m
    : outcome (list manager_error * PeerManager A * list action) :=
  match dsts with
  | [] => Done ([], m, [])
  | peer :: dsts =>
      copy ← update_header (address_copy not_send_to_self (mgr_my_peer_id m) peer) msg;
      let m := count_own TrafficPacketsSelfTx 1 (count_own TrafficBytesSelfTx (buf_len copy) m) in
      '(r, m, acts) ← send_msg_internal copy peer m;
      '(errs, m, rest) ← send_copies not_send_to_self msg dsts m;
      Done (match r with Ok _ => errs | Err e => SendError e :: errs end, m, acts ++ rest)
  end.

Definition send_msg_by_ip (ck : Clock) (fresh : bytes) (msg : ZCPacket) (ip_addr : IpAddr) (not_send_to_self : bool) m
    : outcome (result manager_error unit * PeerManager A * list action) :=
  msg ← fill_peer_manager_hdr msg (mgr_my_peer_id m) 0 (packet_type_u8 PktData);
  '(msg, m) ← run_nic_packet_process_pipeline ck msg m;
  hdr ← pm_header msg;
  if negb (to_peer_id hdr =? 0) then
    '(r, m, acts) ← send_msg_internal msg (to_peer_id hdr) m;
    Done (match r with Ok _ => Ok tt | Err e => Err (SendError e) end, m, acts)
  else
    '(dst_peers, is_exit_node) ← (match ip_addr with V4 a => get_msg_dst_peer a m | V6 a => get_msg_dst_peer_ipv6 a m end);
    match dst_peers with
    | [] => Done (Ok tt, m, [])
    | _ =>
        let m := count_own CompressionBytesTxBefore (buf_len msg) m in
        '(r, msg) ← try_compress_and_encrypt (data_compress_algo m) (encryptor m) fresh msg;
        match r with
        | Err err => Done (Err err, m, [])
        | Ok _ =>
            let m := count_own CompressionBytesTxAfter (buf_len msg) m in
            msg ← update_header (fun h => h ← set_latency_first (latency_first m) h; set_exit_node is_exit_node h) msg;
            '(errs, m, acts) ← send_copies not_send_to_self msg dst_peers m;
            Done (match errs with [] => Ok tt | _ => Err (SendErrors errs) end, m, acts)
        end
    end.

(** ** Packets from peers *)

(** [String::from_utf8] on bytes that [get_network_name] has checked. *)
Fixpoint utf8_decode (l : bytes) : text :=
  match l with
  | [] => []
  | a :: l1 =>
      if a <? 128 then a :: utf8_decode l1
      else match l1 with
           | b :: l2 =>
               if a <? 224 then (a - 192) * 64 + (b - 128) :: utf8_decode l2
               else match l2 with
                    | c :: l3 =>
                        if a <? 240 then (a - 224) * 4096 + (b - 128) * 64 + (c - 128) :: utf8_decode l3
                        else match l3 with
                             | d :: l4 => (a - 240) * 262144 + (b - 128) * 4096 + (c - 128) * 64 + (d - 128) :: utf8_decode l4
                             | [] => []
                             end
                    | [] => []
                    end
           | [] => []
           end
  end.

Definition count_foreign (bytes_metric packets_metric : MetricName) (name : text) (n : Z) m : PeerManager A :=
  count packets_metric name 1 (count bytes_metric name n m).

(** [None]: the packet was dealt with. *)
Definition try_handle_foreign_network_packet (packet : ZCPacket) m
    : outcome (option ZCPacket * PeerManager A * list action) :=
  pm_header ← pm_header packet;
  if negb (pm_packet_type pm_header =? packet_type_u8 PktForeignNetworkPacket) then Done (Some packet, m, [])
  else
    let from_peer := from_peer_id pm_header in
    let to_peer := to_peer_id pm_header in
    fh ← foreign_network_hdr packet;
    foreign_hdr ← unwrap fh;
    pl ← payload packet;
    name_bytes ← get_network_name foreign_hdr pl;
    let name := utf8_decode name_bytes in
    let foreign_peer := foreign_get_dst_peer_id foreign_hdr in
    let n := buf_len packet in
    if to_peer =? mgr_my_peer_id m then
      let m := count_foreign TrafficBytesForeignForwardRx TrafficPacketsForeignForwardRx name n m in
      inner ← foreign_network_packet packet;
      Done (None, m, [ToForeignManager name foreign_peer inner])
    else if bool_decide (Some from_peer = get_network_peer_id name) then
      match pmap_origin_my_peer_id name to_peer (peers m) with
      | None => Done (Some packet, m, [])
      | Some to_peer =>
          let m := count_foreign TrafficBytesForeignForwardTx TrafficPacketsForeignForwardTx name n m in
          packet ← update_header (fun h => Done (with_to_peer to_peer h)) packet;
          let '(_, m, acts) := via_peers (send_msg packet to_peer LeastHop (peers m)) m in
          Done (None, m, acts)
      end
    else
      Done (Some packet,
            count_foreign TrafficBytesForeignForwardForwarded TrafficPacketsForeignForwardForwarded name n m, []).

Definition with_forward_counter (n : Z) (h : PeerManagerHeader) : PeerManagerHeader :=
  {| from_peer_id := from_peer_id h; to_peer_id := to_peer_id h; pm_packet_type := pm_packet_type h; pm_flags := pm_flags h;
     forward_counter := n; reserved := reserved h; pm_len := pm_len h |}.

Definition MAX_FORWARD : Z := 7.

(** The header a forwarded packet leaves with. *)
Definition forward_header (h : PeerManagerHeader) : outcome PeerManagerHeader :=
  lf ← (if 2 <? forward_counter h then is_latency_first h else Done false);
  h ← (if (lf : bool) then set_latency_first false h else Done h);
  Done (with_forward_counter (as_u8 (forward_counter h + 1)) h).

Definition is_compressed_type (t : Z) : bool :=
  (t =? packet_type_u8 PktData) || (t =? packet_type_u8 PktKcpSrc) || (t =? packet_type_u8 PktKcpDst).

Definition forward_packet (fresh : bytes) (ret : ZCPacket) (hdr : PeerManagerHeader)
    (put : PeerManagerHeader -> ZCPacket) m : outcome (PeerManager A * list action) :=
  if MAX_FORWARD <? forward_counter hdr then Done (m, [])
  else
    hdr' ← forward_header hdr;
    let n := buf_len ret in
    let ret := put hdr' in
    '(ret, m) ← (if from_peer_id hdr =? mgr_my_peer_id m then
                   let m := count_own CompressionBytesTxBefore n m in
                   ret ← (if is_compressed_type (pm_packet_type hdr)
                          then '(_, ret) ← try_compress_and_encrypt (data_compress_algo m) (encryptor m) fresh ret; Done ret
                          else Done ret);
                   let m := count_own CompressionBytesTxAfter (buf_len ret) m in
                   Done (ret, count_own TrafficPacketsSelfTx 1 (count_own TrafficBytesSelfTx (buf_len ret) m))
                 else Done (ret, count_own TrafficPacketsForwarded 1 (count_own TrafficBytesForwarded n m)));
    '(_, m, acts) ← send_msg_internal ret (to_peer_id hdr) m;
    Done (m, acts).

(** The newest handler is asked first. *)
Fixpoint run_peer_filters (fs : list peer_filter) (p : ZCPacket) : outcome (list action) :=
  match fs with
  | [] => Done []
  | f :: fs =>
      '(r, acts) ← f p;
      match r with
      | None => Done acts
      | Some p => rest ← run_peer_filters fs p; Done (acts ++ rest)
      end
  end.

Definition accept_packet (ck : Clock) (ret : ZCPacket) m : outcome (PeerManager A * list action) :=
  let n := buf_len ret in
  '(rs, ret) ← decrypt (encryptor m) ret;
  match rs with
  | Err _ => Done (m, [])
  | Ok _ =>
      let m := count_own CompressionBytesRxBefore n
                 (count_own TrafficPacketsSelfRx 1 (count_own TrafficBytesSelfRx n m)) in
      d ← decompress ret;
      match d with
      | Err _ => Done (m, [])
      | Ok ret =>
          let m := count_own CompressionBytesRxAfter (buf_len ret) m in
          '(ok, a) ← acl_process ck ret true (fst <$> my_ipv4 m) (fst <$> my_ipv6 m) (acl_filter m);
          let m := set_acl a m in
          if negb ok then Done (m, [])
          else acts ← run_peer_filters (rev (peer_packet_process_pipeline m)) ret; Done (m, acts)
      end
  end.

(** The body of the receive task. *)
Definition peer_recv (ck : Clock) (fresh : bytes) (packet : ZCPacket) m : outcome (PeerManager A * list action) :=
  '(r, m, acts) ← try_handle_foreign_network_packet packet m;
  match r with
  | None => Done (m, acts)
  | Some ret =>
      h ← mut_peer_manager_header ret;
      match h with
      | None => Done (m, acts)
      | Some (hdr, put) =>
          '(m, rest) ← (if negb (to_peer_id hdr =? mgr_my_peer_id m)
                        then forward_packet fresh ret hdr put m
                        else accept_packet ck ret m);
          Done (m, acts ++ rest)
      end
  end.

(** ** The handlers every node registers *)

Definition nic_packet_processor : peer_filter := fun packet =>
  hdr ← pm_header packet;
  n ← (if pm_packet_type hdr =? packet_type_u8 PktData then is_not_send_to_tun hdr else Done true);
  Done (if (n : bool) then (Some packet, []) else (None, [ToNic packet])).

Definition peer_rpc_packet_processor : peer_filter := fun packet =>
  hdr ← pm_header packet;
  let t := pm_packet_type hdr in
  Done (if (t =? packet_type_u8 PktTaRpc) || (t =? packet_type_u8 PktRpcReq) || (t =? packet_type_u8 PktRpcResp)
        then (None, [ToRpc packet]) else (Some packet, [])).

Definition add_packet_process_pipeline (f : peer_filter) m : PeerManager A :=
  set_pipelines (peer_packet_process_pipeline m ++ [f]) (nic_packet_process_pipeline m) m.
Definition add_nic_packet_process_pipeline (f : nic_filter) m : PeerManager A :=
  set_pipelines (peer_packet_process_pipeline m) (nic_packet_process_pipeline m ++ [f]) m.
Definition init_packet_process_pipeline m : PeerManager A :=
  add_packet_process_pipeline peer_rpc_packet_processor (add_packet_process_pipeline nic_packet_processor m).

(** The filter of a route is the default of the trait, which passes packets on.  [run] adds
    it, when the node has a route, before the node's own handlers. *)
Definition route_filter : peer_filter := fun packet => Done (Some packet, []).
Definition run_pipelines (has_route : bool) m : PeerManager A :=
  init_packet_process_pipeline (if has_route then add_packet_process_pipeline route_filter m else m).
End manager.

(** ** Lemmas *)

(** The packets that leave the node. *)
Definition sent_packet (a : action) : option ZCPacket :=
  match a with
  | SendPeer (ToSelf p) | SendForeign (ToSelf p) | SendPeer (ToConn _ _ p) | SendForeign (ToConn _ _ p) => Some p
  | _ => None
  end.

Lemma with_counter_range n h : in_width 8 n -> in_range h -> in_range (with_forward_counter n h).
Proof. unfold in_range; simpl. intros Hn Hr. destruct_and!. done. Qed.

Lemma with_to_peer_range p h : in_width 32 p -> in_range h -> in_range (with_to_peer p h).
Proof. unfold in_range; simpl. intros Hn Hr. destruct_and!. done. Qed.

(** What forwarding does to the header. *)
Lemma forward_header_spec h : in_range h -> 0 <= forward_counter h <= MAX_FORWARD ->
  exists h', forward_header h = Done h' /\ in_range h' /\ forward_counter h' = forward_counter h + 1 /\
    from_peer_id h' = from_peer_id h /\ to_peer_id h' = to_peer_id h /\ pm_packet_type h' = pm_packet_type h /\
    pm_len h' = pm_len h /\
    forall m, m ∈ flag_masks -> m <> FLAG_LATENCY_FIRST -> get_flag m h' = get_flag m h.
Proof.
  intros Hr Hc. unfold MAX_FORWARD in Hc. unfold forward_header, is_latency_first, set_latency_first.
  assert (exists lf, (if 2 <? forward_counter h then get_flag FLAG_LATENCY_FIRST h else Done false) = Done lf) as (lf & ->)
    by (destruct (2 <? _); [by apply get_flag_done | eauto]). cbn [mbind outcome_bind].
  assert (exists h1, (if lf then set_flag FLAG_LATENCY_FIRST false h else Done h) = Done h1 /\ in_range h1 /\
    h1 = with_flags (pm_flags h1) h /\
    forall m, m ∈ flag_masks -> m <> FLAG_LATENCY_FIRST -> get_flag m h1 = get_flag m h) as (h1 & -> & Hr1 & E1 & Hf).
  { destruct lf.
    - destruct (set_flag_range FLAG_LATENCY_FIRST false h) as (h1 & Hs & Hr1 & E1 & Hf); [set_solver|done|].
      exists h1. split_and!; try done. intros m Hm Hne. rewrite Hf by done. by rewrite decide_False.
    - exists h. split; [done|]. split; [done|]. split; [by destruct h | done]. }
  cbn [mbind outcome_bind]. eexists. split; [reflexivity|].
  assert (forward_counter h1 = forward_counter h) as Ec by (by rewrite E1).
  rewrite Ec, wrap_small by (unfold in_width; lia). split; [apply with_counter_range; [unfold in_width; lia | done]|].
  split; [done|]. split; [by rewrite E1|]. split; [by rewrite E1|]. split; [by rewrite E1|]. split; [by rewrite E1|].
  intros m Hm Hne. rewrite <- Hf by done. done.
Qed.

Section lemmas.
Context `{Zstd} `{PacketAcl A} `{ForeignManager}.
Context `{!IterOrder PeerConnId Conn, !IterOrder PeerId Peer, !IterOrder PeerId PeerId}.
Implicit Types (m : PeerManager A).

Lemma compress_frame algo p pre h body q :
  laid_out p pre h body -> compress algo p = Done (Ok q) -> reframed pre h q.
Proof.
  intros Hl. unfold compress. destruct algo; [by intros [= <-]; eapply reframed_refl|].
  rewrite (layout_header _ _ _ _ Hl). cbn [mbind outcome_bind unwrap].
  destruct (is_compressed h) as [[]|]; cbn [mbind outcome_bind]; [by intros [= <-]; eapply reframed_refl| |done].
  rewrite (layout_payload _ _ _ _ Hl). cbn [mbind outcome_bind].
  destruct (compress_raw _ _) as [buf|]; cbn [try]; [|done].
  destruct (_ <? _); [by intros [= <-]; eapply reframed_refl|]. pose proof Hl as (_ & _ & Hr).
  destruct (set_flag_range FLAG_COMPRESSED true h) as (h' & Hs & Hr' & E & _); [set_solver|done|].
  destruct (mark_compressed_layout true p pre h h' body Hl Hs Hr') as (p1 & -> & Hl1 & _).
  cbn [mbind outcome_bind]. intros [= <-]. eexists _, _. split; [by eapply replace_payload_layout | done].
Qed.

Lemma compress_encrypt_frame algo e fresh p pre h body r q : EncryptorFrame e ->
  laid_out p pre h body -> try_compress_and_encrypt algo e fresh p = Done (r, q) -> reframed pre h q.
Proof.
  intros He Hl. unfold try_compress_and_encrypt. destruct (compress algo p) as [[p1|err]|] eqn:Ec; cbn [mbind outcome_bind]; [| |done].
  - destruct (compress_frame _ _ _ _ _ _ Hl Ec) as (h1 & b1 & Hl1 & E1).
    destruct (encrypt e fresh p1) as [[r1 q1]|] eqn:Ee; cbn [mbind outcome_bind]; [|done]. intros [= <- <-].
    eapply reframed_trans; [done | done | by eapply He].
  - intros [= <- <-]. by eapply reframed_refl.
Qed.

(** Everything [send_msg_internal] sends is the message. *)
Lemma send_msg_directly_sends msg dst pm r pm' sent :
  send_msg_directly msg dst pm = (r, pm', sent) -> Forall (fun s => s = ToSelf msg \/ exists k c, s = ToConn k c msg) sent.
Proof.
  unfold send_msg_directly. destruct (dst =? _); [intros [= _ _ <-]; apply Forall_singleton; by left|].
  destruct (peer_map pm !! dst) as [p|]; [|intros [= _ _ <-]; constructor]. unfold peer_send_msg.
  destruct (select_conn p) as [[[id c]|] p']; [|intros [= _ _ <-]; constructor].
  destruct (sink_open c); intros [= _ _ <-]; [apply Forall_singleton; eauto | constructor].
Qed.

Lemma send_msg_internal_sends msg dst m r m' acts q :
  send_msg_internal msg dst m = Done (r, m', acts) -> q ∈ omap sent_packet acts -> q = msg.
Proof.
  assert (forall k sent, (k = SendPeer \/ k = SendForeign) ->
    Forall (fun s => s = ToSelf msg \/ exists k c, s = ToConn k c msg) sent ->
    q ∈ omap sent_packet (k <$> sent) -> q = msg) as Hkey.
  { intros k sent Hk Hs Hq. apply list_elem_of_omap in Hq as (a & Ha & Eq). apply list_elem_of_fmap in Ha as (s & -> & Hin).
    rewrite Forall_forall in Hs. destruct (Hs s Hin) as [->|(i & c & ->)], Hk as [-> | ->]; simpl in Eq; congruence. }
  intros E Hq. unfold send_msg_internal in E. inv_outcome.
  assert (forall g pm res pm' sent, send_msg_directly msg g pm = (res, pm', sent) ->
    acts = SendPeer <$> sent \/ acts = SendForeign <$> sent -> q = msg) as Hd.
  { intros g pm res pm'' sent Es [Ea|Ea]; rewrite Ea in Hq;
      [apply (Hkey SendPeer sent) | apply (Hkey SendForeign sent)]; eauto using send_msg_directly_sends. }
  unfold via_peers, via_client, client_send_msg in *.
  repeat match goal with
  | E : context [match ?x with _ => _ end] |- _ => destruct x eqn:?
  end; simplify_eq; try (by apply not_elem_of_nil in Hq); try (eapply Hd; eauto; fail).
Qed.

(** ** Forwarding *)

Lemma not_foreign p pre h body m :
  laid_out p pre h body -> pm_packet_type h <> packet_type_u8 PktForeignNetworkPacket ->
  try_handle_foreign_network_packet p m = Done (Some p, m, []).
Proof.
  intros Hl Ht. unfold try_handle_foreign_network_packet. rewrite (layout_pm_header _ _ _ _ Hl).
  cbn [mbind outcome_bind]. by rewrite (proj2 (Z.eqb_neq _ _) Ht).
Qed.

(** A packet that is not for this node is dropped or sent on with its counter
    increased, header ids, type and length as they were. *)
Lemma forward_sends fresh p pre h body put m m' acts q : EncryptorFrame (encryptor m) ->
  laid_out p pre h body ->
  (forall h', in_range h' -> laid_out (put h') pre h' body) ->
  forward_packet fresh p h put m = Done (m', acts) -> q ∈ omap sent_packet acts ->
  forward_counter h <= MAX_FORWARD /\
  exists h' body', laid_out q pre h' body' /\ forward_counter h' = forward_counter h + 1 /\
    to_peer_id h' = to_peer_id h /\ from_peer_id h' = from_peer_id h /\ pm_packet_type h' = pm_packet_type h.
Proof.
  intros He Hl Hput E Hq. pose proof Hl as (_ & _ & Hr). unfold forward_packet in E.
  destruct (Z.ltb_spec MAX_FORWARD (forward_counter h)) as [|Hc]; [simplify_eq; by apply not_elem_of_nil in Hq|].
  split; [done|]. assert (0 <= forward_counter h) by apply Hr.
  destruct (forward_header_spec h Hr ltac:(lia)) as (h1 & E1 & Hr1 & Hcnt & Hfrom & Hto & Hty & _). rewrite E1 in E.
  cbn [mbind outcome_bind] in E. apply bind_Done in E as ([ret m1] & Eret & E).
  assert (reframed pre h1 ret) as (h2 & b2 & Hl2 & E2).
  { destruct (from_peer_id h =? mgr_my_peer_id m); [|injection Eret as <- <-; eapply reframed_refl; by apply Hput].
    apply bind_Done in Eret as (ret' & Er & Eret). injection Eret as <- <-.
    destruct (is_compressed_type (pm_packet_type h)); [|injection Er as <-; eapply reframed_refl; by apply Hput].
    apply bind_Done in Er as ([r q'] & Er & E'). injection E' as <-.
    eapply (compress_encrypt_frame _ (encryptor m)); [done | by apply Hput | exact Er]. }
  apply bind_Done in E as ([[r m2] acts'] & Es & E). injection E as _ <-.
  apply (send_msg_internal_sends _ _ _ _ _ _ _ Es) in Hq as ->.
  exists h2, b2. split; [done|]. rewrite E2. simpl. auto.
Qed.

End lemmas.

Section bounded.
Context `{Zstd} `{PacketAcl A}.
Context `{!IterOrder PeerConnId Conn, !IterOrder PeerId Peer, !IterOrder PeerId PeerId}.

(** Some node that is not the destination, with some foreign networks, receives
    [p], and the tunnel it sends on delivers [q]. *)
Definition hop (F : ForeignManager) (p q : ZCPacket) : Prop :=
  exists ck fresh (m m' : PeerManager A) acts q', EncryptorFrame (encryptor m) /\
    (forall name id o, pmap_origin_my_peer_id name id (peers m) = Some o -> in_width 32 o) /\
    get_dst_peer_id p <> Done (Some (mgr_my_peer_id m)) /\
    peer_recv ck fresh p m = Done (m', acts) /\ q' ∈ omap sent_packet acts /\ delivered q' q.

(** The node is the relay that [p], a packet wrapped for a foreign network, comes from. *)
Definition wrapped_here (F : ForeignManager) (p : ZCPacket) : Prop :=
  exists h fh pl name, pm_header p = Done h /\ pm_packet_type h = packet_type_u8 PktForeignNetworkPacket /\
    foreign_network_hdr p = Done (Some fh) /\ payload p = Done pl /\ get_network_name fh pl = Done name /\
    get_network_peer_id (utf8_decode name) = Some (from_peer_id h).

(** [n] hops at nodes other than the relay that wrapped the packet. *)
Inductive hops : nat -> ZCPacket -> ZCPacket -> Prop :=
| hops_none p : hops 0 p p
| hops_more F n p q r : hop F p q -> ~ wrapped_here F p -> hops n q r -> hops (S n) p r
| hops_relay F n p q r : hop F p q -> wrapped_here F p -> hops n q r -> hops n p r.

Lemma sent_messages msg sent q : Forall (fun s => s = ToSelf msg \/ exists k c, s = ToConn k c msg) sent ->
  q ∈ omap sent_packet (SendPeer <$> sent) -> q = msg.
Proof.
  intros Hs Hq. apply list_elem_of_omap in Hq as (a & Ha & Eq). apply list_elem_of_fmap in Ha as (s & -> & Hin).
  rewrite Forall_forall in Hs. destruct (Hs s Hin) as [->|(i & c & ->)]; simpl in Eq; congruence.
Qed.

Lemma send_msg_sends msg dst policy pm r pm' sent :
  send_msg msg dst policy pm = (r, pm', sent) -> Forall (fun s => s = ToSelf msg \/ exists k c, s = ToConn k c msg) sent.
Proof. unfold send_msg. destruct (get_gateway_peer_id dst policy pm) as [g|]; [by apply send_msg_directly_sends|intros [= _ _ <-]; constructor]. Qed.

(** What the foreign networks of a node do with a packet that is not for the node: it is the node's own
    and leaves with another destination, or it is left to be forwarded. *)
Lemma foreign_cases (F : ForeignManager) (m m' : PeerManager A) p pre h body r acts : laid_out p pre h body -> to_peer_id h <> mgr_my_peer_id m ->
  (forall name id o, pmap_origin_my_peer_id name id (peers m) = Some o -> in_width 32 o) ->
  try_handle_foreign_network_packet p m = Done (r, m', acts) ->
  (r = Some p /\ acts = [] /\ encryptor m' = encryptor m /\ mgr_my_peer_id m' = mgr_my_peer_id m) \/
  (r = None /\ wrapped_here F p /\ forall q, q ∈ omap sent_packet acts -> exists o, laid_out q pre (with_to_peer o h) body).
Proof.
  intros Hl Hto Ho E. unfold try_handle_foreign_network_packet in E. rewrite (layout_pm_header _ _ _ _ Hl) in E. cbn [mbind outcome_bind] in E.
  destruct (Z.eqb_spec (pm_packet_type h) (packet_type_u8 PktForeignNetworkPacket)) as [Hty|Hty]; cbn [negb] in E; [|injection E as <- <- <-; by left].
  apply bind_Done in E as (fh & Efh & E). apply bind_Done in E as (fhdr & Eu & E). apply unwrap_Done in Eu as ->.
  apply bind_Done in E as (pl & Epl & E). apply bind_Done in E as (name & En & E). cbv zeta in E.
  rewrite (proj2 (Z.eqb_neq _ _) Hto) in E. case_bool_decide as Hw; [|injection E as <- <- <-; by left].
  destruct (pmap_origin_my_peer_id (utf8_decode name) (to_peer_id h) (peers m)) as [o|] eqn:Eo; [|injection E as <- <- <-; by left].
  right. pose proof Hl as (_ & _ & Hr). apply Ho in Eo.
  destruct (layout_update (fun h => Done (with_to_peer o h)) p pre h (with_to_peer o h) body Hl eq_refl (with_to_peer_range _ _ Eo Hr)) as (q1 & Eq & Hlq & _).
  rewrite Eq in E. cbn [mbind outcome_bind] in E. destruct (send_msg q1 o LeastHop _) as [[res pm] sent] eqn:Es. cbn in E. injection E as <- <- <-.
  split; [done|]. split; [by exists h, fhdr, pl, name; rewrite (layout_pm_header _ _ _ _ Hl)|].
  intros q Hq. apply send_msg_sends in Es. apply (sent_messages _ _ _ Es) in Hq as ->. by exists o.
Qed.

(** One hop: the counter allows it and goes up by one, unless the packet was wrapped here. *)
Lemma hop_spec F p pre h body q : laid_out p pre h body -> hop F p q ->
  exists pre' h' body', laid_out q pre' h' body' /\
    ((forward_counter h <= MAX_FORWARD /\ forward_counter h' = forward_counter h + 1) \/ (wrapped_here F p /\ forward_counter h' = forward_counter h)).
Proof.
  intros Hl (ck & fresh & m & m' & acts & q' & He & Ho & Hdst & E & Hq & Hd).
  unfold peer_recv in E. unfold get_dst_peer_id in Hdst. rewrite (layout_header _ _ _ _ Hl) in Hdst. simpl in Hdst.
  assert (to_peer_id h <> mgr_my_peer_id m) as Hto by congruence.
  apply bind_Done in E as ([[r m0] acts0] & Ef & E). destruct (foreign_cases F m m0 p pre h body r acts0 Hl Hto Ho Ef) as [(-> & -> & Hen & Hme)|(-> & Hw & Hs)].
  - destruct (layout_mut_header _ _ _ _ Hl) as (put & Hm & Hput). rewrite Hm in E. cbn [mbind outcome_bind] in E.
    rewrite Hme, (proj2 (Z.eqb_neq _ _) Hto) in E. cbn [negb] in E. apply bind_Done in E as ([m1 rest] & Ef' & E). injection E as _ <-.
    destruct (forward_sends fresh p pre h body put m0 m1 rest q' ltac:(by rewrite Hen) Hl ltac:(intros; by apply Hput) Ef' Hq)
      as (Hc & h' & b' & Hlq & Hcnt & _).
    destruct (delivered_layout _ _ _ _ _ Hd Hlq) as (pre' & Hlq'). exists pre', h', b'. split; [done|]. by left.
  - injection E as _ <-. destruct (Hs _ Hq) as (o & Hlq). destruct (delivered_layout _ _ _ _ _ Hd Hlq) as (pre' & Hlq').
    exists pre', (with_to_peer o h), body. split; [done|]. by right.
Qed.

End bounded.

(** ** From interface to interface *)

(** The fields of a header that delivery depends on. *)
Record cargo (src dst : PeerId) (enc comp : bool) (n : Z) (h : PeerManagerHeader) : Prop := {
  cg_from : from_peer_id h = src;
  cg_to : to_peer_id h = dst;
  cg_type : pm_packet_type h = packet_type_u8 PktData;
  cg_len : pm_len h = n;
  cg_enc : is_encrypted h = Done enc;
  cg_comp : is_compressed h = Done comp;
  cg_tun : is_not_send_to_tun h = Done false
}.

Lemma cargo_with_flag m b src dst enc comp n h :
  in_range h -> cargo src dst enc comp n h -> m ∈ flag_masks -> m <> FLAG_NOT_SEND_TO_TUN ->
  exists h', set_flag m b h = Done h' /\ in_range h' /\ forward_counter h' = forward_counter h /\
    cargo src dst (if decide (m = FLAG_ENCRYPTED) then b else enc) (if decide (m = FLAG_COMPRESSED) then b else comp) n h'.
Proof.
  intros Hr Hc Hm Hne. destruct (set_flag_range m b h Hm Hr) as (h' & Hs & Hr' & E & Hget). exists h'.
  destruct Hc as [C1 C2 C3 C4 C5 C6 C7]. split; [done|]. split; [done|]. split; [by rewrite E|].
  split; [by rewrite E | by rewrite E | by rewrite E | by rewrite E | | | ];
    [unfold is_encrypted in *|unfold is_compressed in *|unfold is_not_send_to_tun in *];
    rewrite Hget by set_solver; repeat case_decide; congruence.
Qed.

Lemma cargo_with_to src dst dst' enc comp n h :
  cargo src dst enc comp n h -> cargo src dst' enc comp n (with_to_peer dst' h).
Proof. intros [C1 C2 C3 C4 C5 C6 C7]. by split. Qed.

Lemma cargo_forward src dst enc comp n h :
  in_range h -> cargo src dst enc comp n h -> 0 <= forward_counter h <= MAX_FORWARD ->
  exists h', forward_header h = Done h' /\ in_range h' /\ forward_counter h' = forward_counter h + 1 /\
    cargo src dst enc comp n h'.
Proof.
  intros Hr Hc Hfc. destruct (forward_header_spec h Hr Hfc) as (h' & E & Hr' & Hcnt & Hfrom & Hto & Hty & Hlen & Hget).
  destruct Hc as [C1 C2 C3 C4 C5 C6 C7]. exists h'. split; [done|]. split; [done|]. split; [done|].
  split; try congruence; [unfold is_encrypted in *|unfold is_compressed in *|unfold is_not_send_to_tun in *];
    rewrite Hget by (set_solver || done); done.
Qed.

Section delivery.
Context `{ZstdLaws} `{PacketAcl A} `{ForeignManager}.
Context `{!IterOrder PeerConnId Conn, !IterOrder PeerId Peer, !IterOrder PeerId PeerId}.
Implicit Types (m : PeerManager A).

(** The decompressor can undo the compressor on this payload. *)
Definition codec_ok (algo : CompressorAlgo) (body : bytes) : Prop :=
  match algo with
  | AlgoNone => True
  | ZstdDefault => exists c, zstd_compress body = Some c /\ len c < 2 ^ 58 /\ len body <= decompress_limit (len c)
  end.

(** Compression, and what decompression makes of the result under any header
    that still has the flag and the length. *)
Lemma compress_cargo algo p pre h body src dst :
  laid_out p pre h body -> cargo src dst false false (len body) h -> codec_ok algo body -> len body < MAX_TEXT ->
  exists q comp h1 body1, compress algo p = Done (Ok q) /\ laid_out q pre h1 body1 /\ len body1 < MAX_TEXT /\
    forward_counter h1 = forward_counter h /\ cargo src dst false comp (len body) h1 /\
    forall q' pre' k enc dst', laid_out q' pre' k body1 -> cargo src dst' enc comp (len body) k ->
      exists r k', decompress q' = Done (Ok r) /\ laid_out r pre' k' body /\ cargo src dst' enc false (len body) k'.
Proof.
  intros Hl Hc Hok Hlen. pose proof Hl as (_ & _ & Hr). pose proof (len_nonneg body) as Hb0.
  assert (forall q' pre' k enc dst', laid_out q' pre' k body -> cargo src dst' enc false (len body) k ->
    exists r k', decompress q' = Done (Ok r) /\ laid_out r pre' k' body /\ cargo src dst' enc false (len body) k') as Hplain.
  { intros q' pre' k enc dst' Hl' Hk. exists q', k. split; [|done]. unfold decompress.
    rewrite (layout_header _ _ _ _ Hl'). cbn [mbind outcome_bind unwrap]. by rewrite (cg_comp _ _ _ _ _ _ Hk). }
  unfold compress. destruct algo; [by exists p, false, h, body|].
  destruct Hok as (c & Hz & Hsmall & Hlimit). rewrite (layout_header _ _ _ _ Hl). cbn [mbind outcome_bind unwrap].
  rewrite (cg_comp _ _ _ _ _ _ Hc). cbn [mbind outcome_bind]. rewrite (layout_payload _ _ _ _ Hl).
  cbn [mbind outcome_bind compress_raw]. rewrite Hz. cbn [try]. rewrite (cg_len _ _ _ _ _ _ Hc).
  change COMPRESSOR_TAIL_SIZE with 1. destruct (Z.ltb_spec (len body) (len c + 1)); [by exists p, false, h, body|].
  destruct (cargo_with_flag FLAG_COMPRESSED true _ _ _ _ _ h Hr Hc) as (h1 & Hs & Hr1 & Hcnt & Hc1); [set_solver|done|].
  destruct (mark_compressed_layout true p pre h h1 body Hl Hs Hr1) as (p1 & -> & Hl1 & _). cbn [mbind outcome_bind].
  destruct (replace_payload_layout _ _ _ _ (c ++ as_bytes (compressor_tail_new ZstdDefault)) Hl1) as [Hlq _].
  eexists _, true, h1, _. split; [reflexivity|]. split; [exact Hlq|].
  assert (len (as_bytes (compressor_tail_new ZstdDefault)) = 1) as Ht by done.
  split; [rewrite len_app, Ht; lia|]. split; [done|]. split; [exact Hc1|].
  intros q' pre' k enc dst' Hlk Hk. pose proof Hlk as (_ & Hpre & Hrk).
  destruct (cargo_with_flag FLAG_COMPRESSED false _ _ _ _ _ k Hrk Hk) as (k' & Hsk & Hrk' & _ & Hck); [set_solver|done|].
  eexists _, k'. split.
  - eapply (decompress_layout q' pre' k' k body c); try done; [apply Hk | by apply Hk].
  - split; [|exact Hck]. split; [done|]. by split.
Qed.

(** The sealed payload [body1] opens to [body] under any such header. *)
Definition opens (e : Encryptor) (src dst : PeerId) (enc comp : bool) (body body1 : bytes) : Prop :=
  forall q' pre' k, laid_out q' pre' k body1 -> cargo src dst enc comp (len body) k ->
    exists r r' k', decrypt e q' = Done (Ok tt, r) /\ decompress r = Done (Ok r') /\
      laid_out r' pre' k' body /\ cargo src dst false false (len body) k'.

Lemma seal_cargo algo e fresh p pre h body src dst : EncryptorLaws e -> fresh_nonce fresh ->
  laid_out p pre h body -> cargo src dst false false (len body) h -> codec_ok algo body -> len body < MAX_TEXT ->
  exists q enc comp h1 body1, try_compress_and_encrypt algo e fresh p = Done (Ok tt, q) /\ laid_out q pre h1 body1 /\
    forward_counter h1 = forward_counter h /\ cargo src dst enc comp (len body) h1 /\
    forall dst', opens e src dst' enc comp body body1.
Proof.
  intros He Hn Hl Hc Hok Hlen.
  destruct (compress_cargo algo p pre h body src dst Hl Hc Hok Hlen) as (p1 & comp & h1 & b1 & Ec & Hl1 & Hb1 & Hcnt1 & Hc1 & Hdec).
  destruct (He fresh p1 pre h1 b1 Hn Hl1 (cg_enc _ _ _ _ _ _ Hc1) Hb1) as (q & enc & h2 & b2 & Eq & _ & Hs & Hlq & Hopen).
  pose proof Hl1 as (_ & _ & Hr1).
  destruct (cargo_with_flag FLAG_ENCRYPTED enc _ _ _ _ _ h1 Hr1 Hc1) as (h2' & Hs' & Hr2 & Hcnt2 & Hc2); [set_solver|done|].
  unfold set_encrypted in Hs. rewrite Hs in Hs'. injection Hs' as <-. simpl in Hc2.
  exists q, enc, comp, h2, b2. unfold try_compress_and_encrypt. rewrite Ec. cbn [mbind outcome_bind]. rewrite Eq.
  cbn [mbind outcome_bind]. split; [done|]. split; [done|]. split; [congruence|]. split; [done|].
  intros dst' q' pre' k Hlk Hk. pose proof Hlk as (_ & _ & Hrk).
  destruct (Hopen q' pre' k Hlk (cg_enc _ _ _ _ _ _ Hk)) as (r & k1 & Er & _ & Hsk & Hlr).
  destruct (cargo_with_flag FLAG_ENCRYPTED false _ _ _ _ _ k Hrk Hk) as (k1' & Hsk' & Hrk1 & _ & Hck); [set_solver|done|].
  unfold set_encrypted in Hsk. rewrite Hsk in Hsk'. injection Hsk' as <-. simpl in Hck.
  destruct (Hdec r pre' k1 false dst' Hlr Hck) as (r' & k' & Er' & Hlr' & Hck').
  by exists r, r', k'.
Qed.

(** A node that can pass packets for [dst] on to [next]. *)
Record ready (dst next : PeerId) m : Prop := {
  rd_me : pmap_my_peer_id (peers m) = mgr_my_peer_id m;
  rd_other : mgr_my_peer_id m <> dst;
  rd_gateway policy : get_gateway_peer_id dst policy (peers m) = Some next;
  rd_next : next <> mgr_my_peer_id m;
  rd_conn : exists p id c, peer_map (peers m) !! next = Some p /\ peer_node_id p = next /\
    (select_conn p).1 = Some (id, c) /\ sink_open c = true
}.

Lemma ready_counters dst next m c : ready dst next m -> ready dst next (set_counters c m).
Proof. by intros [? ? ? ? ?]. Qed.
Lemma ready_acl dst next m a : ready dst next m -> ready dst next (set_acl a m).
Proof. by intros [? ? ? ? ?]. Qed.

Lemma ready_sends dst next m p pre h body :
  ready dst next m -> laid_out p pre h body ->
  exists id m', send_msg_internal p dst m = Done (Ok tt, m', [SendPeer (ToConn next id p)]).
Proof.
  intros [Hme Hother Hgw Hnext (q & id & c & Hq & Hid & Hsel & Hopen)] Hl. pose proof Hl as (_ & _ & Hr).
  destruct (get_flag_done FLAG_LATENCY_FIRST h Hr) as (lf & Hlf). unfold send_msg_internal.
  rewrite (layout_pm_header _ _ _ _ Hl). cbn [mbind outcome_bind]. unfold is_latency_first. rewrite Hlf.
  cbn [mbind outcome_bind]. rewrite Hgw. unfold has_peer at 1. rewrite Hq.
  rewrite (bool_decide_eq_true_2 (is_Some (Some q))), orb_true_r by eauto.
  assert (reaches (peers m) next) as Hreach by (split; [congruence | by exists q, id, c]).
  destruct (reaches_sends p _ _ Hreach) as (id' & pm' & ->). simpl. eauto.
Qed.

(** A filter, such as that of a proxy, that does not take data packets with this payload. *)
Definition leaves_alone (body : bytes) (f : peer_filter) : Prop :=
  forall p pre h, laid_out p pre h body -> pm_packet_type h = packet_type_u8 PktData -> f p = Done (Some p, []).

(** What the destination needs: the key, the handlers of a running node with filters added
    later that leave the payload alone, and an ACL that lets it in. *)
Record receives (dst : PeerId) (e : Encryptor) (ck : Clock) (body : bytes) m : Prop := {
  rc_me : mgr_my_peer_id m = dst;
  rc_key : encryptor m = e;
  rc_pipeline : exists (has_route : bool) others, peer_packet_process_pipeline m =
      (if has_route then [route_filter] else []) ++ nic_packet_processor :: peer_rpc_packet_processor :: others /\
    Forall (leaves_alone body) others;
  rc_acl r : payload r = Done body -> exists a,
    acl_process ck r true (fst <$> my_ipv4 m) (fst <$> my_ipv6 m) (acl_filter m) = Done (true, a)
}.

(** A node that runs has such a pipeline. *)
Lemma run_pipelines_shape has_route fs m : peer_packet_process_pipeline m = [] ->
  peer_packet_process_pipeline (foldl (fun m f => add_packet_process_pipeline f m) (run_pipelines has_route m) fs) =
    (if has_route then [route_filter] else []) ++ nic_packet_processor :: peer_rpc_packet_processor :: fs.
Proof.
  intros Hm. assert (forall l m', peer_packet_process_pipeline (foldl (fun m f => add_packet_process_pipeline f m) m' l) = peer_packet_process_pipeline m' ++ l) as ->.
  { clear. induction l as [|f l IH]; intros m'; cbn [foldl]; [by rewrite app_nil_r|]. rewrite IH. cbn. by rewrite <- app_assoc. }
  unfold run_pipelines. destruct has_route; cbn; by rewrite Hm.
Qed.

Lemma own_handlers_take p pre h body src dst enc comp n before fs :
  laid_out p pre h body -> cargo src dst enc comp n h -> Forall (leaves_alone body) fs ->
  run_peer_filters (rev (before ++ nic_packet_processor :: peer_rpc_packet_processor :: fs)) p = Done [ToNic p].
Proof.
  intros Hl Hc Hfs. rewrite rev_app_distr. cbn [rev]. rewrite <- !app_assoc. cbn [app].
  assert (forall l rest, Forall (leaves_alone body) l -> run_peer_filters (l ++ rest) p = run_peer_filters rest p) as Hskip.
  { intros l rest Hall. induction Hall as [|f l Hf _ IH]; simpl; [done|]. rewrite (Hf _ _ _ Hl (cg_type _ _ _ _ _ _ Hc)). cbn [mbind outcome_bind].
    rewrite IH. by destruct (run_peer_filters rest p). }
  rewrite Hskip by (by apply List.Forall_rev). cbn [run_peer_filters].
  unfold peer_rpc_packet_processor, nic_packet_processor. rewrite (layout_pm_header _ _ _ _ Hl).
  cbn [mbind outcome_bind]. rewrite (cg_type _ _ _ _ _ _ Hc). cbn -[is_not_send_to_tun pm_header].
  rewrite ?(layout_pm_header _ _ _ _ Hl). cbn -[is_not_send_to_tun]. rewrite (cg_type _ _ _ _ _ _ Hc).
  cbn -[is_not_send_to_tun]. by rewrite (cg_tun _ _ _ _ _ _ Hc).
Qed.

(** The packet [q] is handed to the first of [ms], which sends one packet to the
    next, and so on to [md], whose actions satisfy [P]; in each step the tunnel
    may reframe the packet. *)
Definition next_id (ms : list (PeerManager A)) (md : PeerManager A) : PeerId :=
  mgr_my_peer_id (default md (head ms)).

Fixpoint travels (ck : Clock) (fresh : bytes) (ms : list (PeerManager A)) (md : PeerManager A) (q : ZCPacket)
    (P : list action -> Prop) : Prop :=
  match ms with
  | [] => forall r, delivered q r -> exists m' acts, peer_recv ck fresh r md = Done (m', acts) /\ P acts
  | m :: ms => forall r, delivered q r -> exists m' id q',
      peer_recv ck fresh r m = Done (m', [SendPeer (ToConn (next_id ms md) id q')]) /\ travels ck fresh ms md q' P
  end.

(** Every node of the way is ready for the next. *)
Fixpoint way (src dst : PeerId) (ms : list (PeerManager A)) (md : PeerManager A) : Prop :=
  match ms with
  | [] => True
  | m :: ms => ready dst (next_id ms md) m /\ mgr_my_peer_id m <> src /\ way src dst ms md
  end.

Definition arrived (body : bytes) (acts : list action) : Prop :=
  exists r, acts = [ToNic r] /\ payload r = Done body.

Lemma peer_recv_own ck fresh r pre k body1 md :
  laid_out r pre k body1 -> pm_packet_type k = packet_type_u8 PktData -> to_peer_id k = mgr_my_peer_id md ->
  peer_recv ck fresh r md = accept_packet ck r md.
Proof.
  intros Hl Ht Hto. unfold peer_recv. rewrite (not_foreign _ _ _ _ md Hl) by (by rewrite Ht). cbn [mbind outcome_bind].
  destruct (layout_mut_header _ _ _ _ Hl) as (put & -> & _). cbn [mbind outcome_bind]. rewrite Hto, Z.eqb_refl.
  cbn [negb]. by destruct (accept_packet ck r md) as [[]|].
Qed.

Lemma peer_recv_forward ck fresh r pre k body1 src dst enc comp n next m :
  laid_out r pre k body1 -> cargo src dst enc comp n k -> forward_counter k <= MAX_FORWARD ->
  ready dst next m -> mgr_my_peer_id m <> src ->
  exists m' id q' k', peer_recv ck fresh r m = Done (m', [SendPeer (ToConn next id q')]) /\
    laid_out q' pre k' body1 /\ cargo src dst enc comp n k' /\ forward_counter k' = forward_counter k + 1.
Proof.
  intros Hl Hc Hfc Hrd Hsrc. pose proof Hl as (_ & _ & Hr). assert (0 <= forward_counter k) by apply Hr.
  destruct (cargo_forward _ _ _ _ _ k Hr Hc ltac:(lia)) as (k' & Ek & Hr' & Hcnt & Hc').
  unfold peer_recv. rewrite (not_foreign _ _ _ _ m Hl) by (by rewrite (cg_type _ _ _ _ _ _ Hc)). cbn [mbind outcome_bind].
  destruct (layout_mut_header _ _ _ _ Hl) as (put & -> & Hput). cbn [mbind outcome_bind].
  rewrite (cg_to _ _ _ _ _ _ Hc). pose proof (rd_other _ _ _ Hrd) as Hother.
  rewrite (proj2 (Z.eqb_neq dst (mgr_my_peer_id m))) by congruence. cbn [negb]. unfold forward_packet.
  rewrite (proj2 (Z.ltb_ge _ _) Hfc), Ek. cbn [mbind outcome_bind].
  rewrite (cg_from _ _ _ _ _ _ Hc), (proj2 (Z.eqb_neq src (mgr_my_peer_id m))) by congruence. cbn [mbind outcome_bind].
  rewrite (cg_to _ _ _ _ _ _ Hc). destruct (Hput k' Hr') as [Hlp _].
  match goal with |- context [send_msg_internal (put k') dst ?m1] =>
    destruct (ready_sends dst next m1 _ _ _ _ ltac:(by repeat apply ready_counters) Hlp) as (id & m2 & ->) end.
  cbn [mbind outcome_bind]. by exists m2, id, (put k'), k'.
Qed.

Lemma accept_delivers ck e src dst enc comp body body1 r pre k md :
  opens e src dst enc comp body body1 -> receives dst e ck body md ->
  laid_out r pre k body1 -> cargo src dst enc comp (len body) k ->
  exists m' acts, accept_packet ck r md = Done (m', acts) /\ arrived body acts.
Proof.
  intros Hopen [Hme Hkey (route & others & Hpipe & Hothers) Hacl] Hl Hc.
  destruct (Hopen r pre k Hl Hc) as (r1 & r2 & k' & E1 & E2 & Hl2 & Hc2). unfold accept_packet.
  rewrite Hkey, E1. cbn [mbind outcome_bind]. rewrite E2. cbn [mbind outcome_bind].
  pose proof (layout_payload _ _ _ _ Hl2) as Hpl. destruct (Hacl r2 Hpl) as (a & Ha). simpl. rewrite Ha.
  cbn [mbind outcome_bind negb]. simpl. rewrite Hpipe.
  pose proof (own_handlers_take r2 pre k' body src dst false false (len body) (if route then [route_filter] else []) others Hl2 Hc2 Hothers) as Eh.
  rewrite Eh. cbn [mbind outcome_bind]. eexists _, _. split; [reflexivity|]. by exists r2.
Qed.

Lemma travels_delivers ck fresh e src dst enc comp body body1 md :
  opens e src dst enc comp body body1 -> receives dst e ck body md ->
  forall ms q pre k, way src dst ms md -> laid_out q pre k body1 -> cargo src dst enc comp (len body) k ->
    forward_counter k + len ms <= 8 -> travels ck fresh ms md q (arrived body).
Proof.
  intros Hopen Hrc ms. induction ms as [|m ms IH]; intros q pre k Hway Hl Hc Hcnt; simpl.
  - intros r Hd. destruct (delivered_layout _ _ _ _ _ Hd Hl) as (pre' & Hlr).
    rewrite (peer_recv_own ck fresh r pre' k body1 md Hlr (cg_type _ _ _ _ _ _ Hc)
      ltac:(rewrite (cg_to _ _ _ _ _ _ Hc); symmetry; apply Hrc)).
    by eapply accept_delivers.
  - intros r Hd. destruct (delivered_layout _ _ _ _ _ Hd Hl) as (pre' & Hlr). destruct Hway as (Hrd & Hsrc & Hway).
    change (len (m :: ms)) with (Z.of_nat (S (length ms))) in Hcnt. unfold MAX_FORWARD in *.
    destruct (peer_recv_forward ck fresh r pre' k body1 src dst enc comp (len body) _ m Hlr Hc
      ltac:(unfold MAX_FORWARD; lia) Hrd Hsrc) as (m' & id & q' & k' & E & Hlq & Hcq & Hck).
    exists m', id, q'. split; [done|]. eapply IH; eauto. unfold len. lia.
Qed.

(** The header of a packet an interface hands in is that of an unsealed one. *)
Lemma filled_cargo src body h0 : len body < MAX_TEXT ->
  cargo src 0 false false (len body) (filled_header src 0 (packet_type_u8 PktData) h0 body).
Proof.
  intros Hlen. pose proof (len_nonneg body). unfold MAX_TEXT in Hlen.
  split; try done. simpl. apply wrap_small. unfold in_width. lia.
Qed.

(** The copy for [dst]: addressed, with the policy flags of the sender. *)
Lemma address_cargo b lf ex src me dst enc comp n p pre h body1 :
  laid_out p pre h body1 -> cargo src 0 enc comp n h -> in_width 32 dst -> dst <> me ->
  exists p1 p2 h2, update_header (fun h => h ← set_latency_first lf h; set_exit_node ex h) p = Done p1 /\
    update_header (address_copy b me dst) p1 = Done p2 /\ laid_out p2 pre h2 body1 /\
    forward_counter h2 = forward_counter h /\ cargo src dst enc comp n h2.
Proof.
  intros Hl Hc Hdst Hne. pose proof Hl as (_ & _ & Hr).
  destruct (cargo_with_flag FLAG_LATENCY_FIRST lf _ _ _ _ _ h Hr Hc) as (h1 & Hs1 & Hr1 & Hcnt1 & Hc1); [set_solver|done|].
  destruct (cargo_with_flag FLAG_EXIT_NODE ex _ _ _ _ _ h1 Hr1 Hc1) as (h2 & Hs2 & Hr2 & Hcnt2 & Hc2); [set_solver|done|].
  simpl in Hc1, Hc2.
  destruct (layout_update (fun h => h ← set_latency_first lf h; set_exit_node ex h) _ _ _ h2 _ Hl) as (p1 & E1 & Hl1 & _);
    [unfold set_latency_first; rewrite Hs1; exact Hs2 | done |].
  destruct (layout_update (address_copy b me dst) _ _ _ (with_to_peer dst h2) _ Hl1) as (p2 & E2 & Hl2 & _).
  { unfold address_copy. by rewrite (proj2 (Z.eqb_neq _ _) Hne), andb_false_r. }
  { by apply with_to_peer_range. }
  exists p1, p2, (with_to_peer dst h2). split_and!; try done; [simpl; congruence | by eapply cargo_with_to].
Qed.

(** What the sender needs: it can send to [next] for [dst], takes the address
    for that of [dst], has interface filters that leave the payload alone, and an ACL that decides. *)
Record sends (src dst next : PeerId) (e : Encryptor) (ck : Clock) (body : bytes) (ip : IpAddr) m : Prop := {
  sd_me : mgr_my_peer_id m = src;
  sd_key : encryptor m = e;
  sd_codec : codec_ok (data_compress_algo m) body;
  sd_ready : ready dst next m;
  sd_filters : Forall (fun f : nic_filter => forall p pre h, laid_out p pre h body -> f p = Done p) (nic_packet_process_pipeline m);
  sd_acl p : payload p = Done body -> exists ok a, acl_process ck p false None None (acl_filter m) = Done (ok, a);
  sd_dst : exists ex, (match ip with V4 a => get_msg_dst_peer a m | V6 a => get_msg_dst_peer_ipv6 a m end) = Done ([dst], ex)
}.

Lemma dst_acl ip a m :
  (match ip with V4 x => get_msg_dst_peer x (set_acl a m) | V6 x => get_msg_dst_peer_ipv6 x (set_acl a m) end) =
  (match ip with V4 x => get_msg_dst_peer x m | V6 x => get_msg_dst_peer_ipv6 x m end).
Proof. by destruct ip. Qed.

Lemma nic_filters_pass p pre h body fs : laid_out p pre h body ->
  Forall (fun f : nic_filter => forall p pre h, laid_out p pre h body -> f p = Done p) fs -> run_nic_filters fs p = Done p.
Proof. intros Hl. induction 1 as [|f fs Hf _ IH]; [done|]. cbn [run_nic_filters]. by rewrite (Hf _ _ _ Hl). Qed.

Lemma send_by_ip_seals ck fresh e src dst next ip b p pre h0 body m :
  EncryptorLaws e -> fresh_nonce fresh -> in_width 32 src -> in_width 32 dst -> sends src dst next e ck body ip m ->
  laid_out p pre h0 body -> len body < MAX_TEXT ->
  exists m' id q k enc comp body1,
    send_msg_by_ip ck fresh p ip b m = Done (Ok tt, m', [SendPeer (ToConn next id q)]) /\
    laid_out q pre k body1 /\ cargo src dst enc comp (len body) k /\ forward_counter k = 1 /\
    opens e src dst enc comp body body1.
Proof.
  intros He Hn Hsrc Hdst [Hme Hkey Hcodec Hrd Hfilters Hacl (ex & Hip)] Hl Hlen.
  destruct (fill_hdr_layout p pre h0 body src 0 (packet_type_u8 PktData) Hl) as (p1 & E1 & _ & Hl1);
    [unfold MAX_TEXT in Hlen; lia | done | vm_compute; split; congruence | vm_compute; split; congruence |].
  pose proof (filled_cargo src body h0 Hlen) as Hc1. set (h1 := filled_header _ _ _ _ _) in *.
  destruct (Hacl p1 (layout_payload _ _ _ _ Hl1)) as (ok & a & Ha).
  destruct (seal_cargo (data_compress_algo m) e fresh p1 pre h1 body src 0 He Hn Hl1 Hc1 Hcodec Hlen)
    as (q0 & enc & comp & h2 & body1 & Eseal & Hl2 & Hcnt2 & Hc2 & Hopen).
  destruct (address_cargo b (latency_first m) ex src src dst enc comp (len body) q0 pre h2 body1 Hl2 Hc2 Hdst)
    as (p2 & p3 & h3 & E2 & E3 & Hl3 & Hcnt3 & Hc3); [pose proof (rd_other _ _ _ Hrd); congruence|].
  unfold send_msg_by_ip. rewrite Hme, E1. cbn [mbind outcome_bind]. unfold run_nic_packet_process_pipeline. rewrite Ha.
  cbn [mbind outcome_bind].
  assert ((if negb ok then Done (p1, set_acl a m)
           else data ← run_nic_filters (rev (nic_packet_process_pipeline (set_acl a m))) p1; Done (data, set_acl a m))
          = Done (p1, set_acl a m)) as ->.
  { destruct ok; [|done]. simpl. by rewrite (nic_filters_pass _ _ _ _ _ Hl1 (List.Forall_rev Hfilters)). }
  cbn [mbind outcome_bind]. rewrite (layout_pm_header _ _ _ _ Hl1). cbn [mbind outcome_bind].
  rewrite (cg_to _ _ _ _ _ _ Hc1). cbn [Z.eqb negb]. rewrite dst_acl, Hip. cbn [mbind outcome_bind].
  simpl (encryptor _). simpl (data_compress_algo _). rewrite Hkey, Eseal. cbn [mbind outcome_bind].
  simpl (latency_first _). rewrite E2. cbn [mbind outcome_bind send_copies]. simpl (mgr_my_peer_id _).
  rewrite Hme, E3. cbn [mbind outcome_bind].
  match goal with |- context [send_msg_internal p3 dst ?m1] =>
    destruct (ready_sends dst next m1 _ _ _ _ ltac:(by repeat apply ready_counters; apply ready_acl) Hl3) as (id & m2 & ->) end.
  cbn [mbind outcome_bind]. exists m2, id, p3, h3, enc, comp, body1.
  split; [done|]. split; [done|]. split; [done|]. split; [|apply Hopen]. rewrite Hcnt3, Hcnt2. done.
Qed.

(** C9.  A packet from the interface of [m0] for an address that is [dst]'s, sent
    through any nodes [ms], at most seven, that are each ready for the next,
    arrives at the interface of [md] with its payload: compressed and encrypted
    at the source, its header rewritten and its framing changed on the way,
    decrypted and decompressed at the destination.  A node is ready when it knows the next one as
    gateway and has an open connection to it; the destination runs with the same key, and the
    filters added to source and destination, such as those of proxies, leave this payload alone.  The outbound verdict of the
    ACL does not matter, the inbound one is that the payload may pass. *)
Theorem end_to_end_delivery (ck : Clock) (fresh : bytes) (e : Encryptor) (src dst : PeerId) (ip : IpAddr) (b : bool)
    (m0 md : PeerManager A) (ms : list (PeerManager A)) (p : ZCPacket) (pre body : bytes) (h0 : PeerManagerHeader)
    (He : EncryptorLaws e) (Hn : fresh_nonce fresh) (Hsrc : in_width 32 src) (Hdst : in_width 32 dst)
    (Hl : laid_out p pre h0 body) (Hlen : len body < MAX_TEXT)
    (Hs : sends src dst (next_id ms md) e ck body ip m0) (Hw : way src dst ms md) (Hms : len ms <= 7)
    (Hr : receives dst e ck body md) :
  exists m' id q,
    send_msg_by_ip ck fresh p ip b m0 = Done (Ok tt, m', [SendPeer (ToConn (next_id ms md) id q)]) /\
    travels ck fresh ms md q (arrived body).
Proof.
  destruct (send_by_ip_seals ck fresh e src dst _ ip b p pre h0 body m0 He Hn Hsrc Hdst Hs Hl Hlen)
    as (m' & id & q & k & enc & comp & body1 & E & Hlq & Hc & Hcnt & Hopen).
  exists m', id, q. split; [done|]. eapply travels_delivers; eauto. lia.
Qed.

(** A packet the outbound ACL drops is sent all the same: the pipeline only
    skips the interface filters. *)
Theorem outbound_drop_still_sent (ck : Clock) (fresh : bytes) (e : Encryptor) (src dst next : PeerId) (ip : IpAddr)
    (b : bool) (m0 : PeerManager A) (p : ZCPacket) (pre body : bytes) (h0 : PeerManagerHeader)
    (He : EncryptorLaws e) (Hn : fresh_nonce fresh) (Hsrc : in_width 32 src) (Hdst : in_width 32 dst)
    (Hl : laid_out p pre h0 body) (Hlen : len body < MAX_TEXT) (Hs : sends src dst next e ck body ip m0)
    (Hdrop : forall p, payload p = Done body -> exists a, acl_process ck p false None None (acl_filter m0) = Done (false, a)) :
  exists m' id q, send_msg_by_ip ck fresh p ip b m0 = Done (Ok tt, m', [SendPeer (ToConn next id q)]) /\
    get_dst_peer_id q = Done (Some dst).
Proof.
  destruct (send_by_ip_seals ck fresh e src dst _ ip b p pre h0 body m0 He Hn Hsrc Hdst Hs Hl Hlen)
    as (m' & id & q & k & enc & comp & body1 & E & Hlq & Hc & _).
  exists m', id, q. split; [done|]. unfold get_dst_peer_id. rewrite (layout_header _ _ _ _ Hlq).
  cbn [mbind outcome_bind option_map]. by rewrite (cg_to _ _ _ _ _ _ Hc).
Qed.

(** A packet marked as a foreign network packet whose payload is shorter than
    the foreign header passes the connection's receive loop and makes the
    receive task of the node panic; nothing receives packets after it. *)
Theorem short_foreign_packet_panics (ck : Clock) (fresh : bytes) (m : PeerManager A) (p : ZCPacket) (pre body : bytes)
    (h : PeerManagerHeader) (Hl : laid_out p pre h body)
    (Ht : pm_packet_type h = packet_type_u8 PktForeignNetworkPacket) (Hlen : len body < 10) :
  recv_loop_body p = Done (RecvForward p) /\ peer_recv ck fresh p m = Panicked UnwrapOnNone.
Proof.
  split.
  - destruct (recv_loop_layout _ _ _ _ Hl) as (ev & -> & Hev). rewrite Ht in Hev. simpl in Hev. by subst ev.
  - unfold peer_recv, try_handle_foreign_network_packet. rewrite (layout_pm_header _ _ _ _ Hl).
    cbn [mbind outcome_bind]. rewrite Ht, Z.eqb_refl. cbn [negb]. unfold foreign_network_hdr.
    rewrite (layout_header _ _ _ _ Hl). cbn [mbind outcome_bind unwrap]. rewrite Ht, Z.eqb_refl.
    rewrite (layout_payload _ _ _ _ Hl). cbn [mbind outcome_bind]. unfold ref_from_prefix.
    change (Z.of_nat (size_of (H := ForeignNetworkPacketHeader))) with 10.
    by rewrite (proj2 (Z.ltb_lt _ _) Hlen).
Qed.

(** The broadcast test applies the node's own prefix length to the destination,
    whatever network that is in: an address whose host bits under it are all
    ones is sent to every peer, not to the peer that has it or a route to it.
    With a 32-bit prefix that is every address. *)
Theorem address_taken_for_broadcast (m : PeerManager A) (a x n : Z) (Hnet : my_ipv4 m = Some (x, n))
    (Hn : 0 <= n <= 32) (Ha : in_width 32 a) (Hones : (a + 1) mod 2 ^ (32 - n) = 0) :
  get_msg_dst_peer a m =
    Done (base.filter (fun p => p <> mgr_my_peer_id m) (map_iter (list_routes (peers m))).*1, false).
Proof.
  unfold get_msg_dst_peer. rewrite Hnet. simpl. unfold last_address.
  rewrite (proj2 (Z.leb_le 0 n)), (proj2 (Z.leb_le n 32)) by lia. cbn [andb mbind outcome_bind].
  set (k := 2 ^ (32 - n)) in *. assert (0 < k) by (apply Z.pow_pos_nonneg; lia).
  assert (a / k * k + (k - 1) = a) as ->.
  { apply Z.mod_divide in Hones as [q Hq]; [|lia].
    rewrite <- (Z.div_unique_pos a k (q - 1) (k - 1)); lia. }
  by rewrite Z.eqb_refl, orb_true_r.
Qed.
End delivery.

(** ** Three nodes in a row *)

#[local] Existing Instance rle.
#[local] Existing Instance rle_laws.

(** An ACL whose state is its outbound verdict. *)
#[local] Instance verdict_acl : PacketAcl bool := {|
  acl_process _ _ is_in _ _ v := Done (is_in || v, v) |}.
#[local] Instance no_foreign_networks : ForeignManager := {| get_network_peer_id _ := None |}.

Definition row_route (next : PeerId) : Route := {|
  route_next_hop d _ := if d =? 3 then Some next else None;
  route_list := [(2, 2); (3, next)];
  route_by_ip ip := if bool_decide (ip = V4 167772163) then Some 3 else None;
  route_peer_info _ := None; route_origin_my_peer_id _ _ := None; route_owners _ := [] |}.

Definition row_key : bytes := [3; 1; 4; 1; 5].
Definition row_node (me next prefix : Z) (out : bool) : PeerManager bool :=
  mkManager _ me [] (mkPeerMap me {[next := peer_add_conn 11 (open_conn 5) (peer_new next)]} [row_route next] ∅)
    (peer_map_new me) (XorCipher row_key) ZstdDefault out (Some (167772160 + me, prefix)) None [] true
    [route_filter; nic_packet_processor; peer_rpc_packet_processor] [] ∅.

Definition row_body : bytes := replicate 50 7.
Definition row_packet : ZCPacket := mkZC (replicate 20 0 ++ as_bytes sample_header ++ row_body) NIC.

Lemma row_laid_out : laid_out row_packet (replicate 20 0) sample_header row_body.
Proof. split; [reflexivity|]. split; [reflexivity|]. vm_compute. repeat split; congruence. Qed.

Lemma row_ready me next out prefix : (me =? 3) = false -> (next =? me) = false -> next = 2 \/ next = 3 ->
  ready 3 next (row_node me next prefix out).
Proof.
  intros Hme Hnext Hn. apply Z.eqb_neq in Hme, Hnext. split; [done | done | | done |].
  - intros policy. unfold get_gateway_peer_id, has_peer. change (pmap_my_peer_id _) with me.
    rewrite (proj2 (Z.eqb_neq 3 me)) by congruence.
    destruct Hn as [-> | ->]; by destruct policy.
  - exists (peer_add_conn 11 (open_conn 5) (peer_new next)), 11, (open_conn 5).
    split; [apply lookup_singleton_eq|]. split; [done|]. by split.
Qed.

Lemma row_sends out : sends 1 3 2 (XorCipher row_key) (sample_clock 9) row_body (V4 167772163) (row_node 1 2 24 out).
Proof.
  split; [done | done | | by apply row_ready; auto | done | | ].
  - exists [1; 7; 50]. split; [reflexivity|]. split; vm_compute; [reflexivity | congruence].
  - intros p _. exists out, out. done.
  - exists false. reflexivity.
Qed.

Lemma end_to_end_delivery_witness :
  exists m' id q,
    send_msg_by_ip (sample_clock 9) (replicate 12 1) row_packet (V4 167772163) false (row_node 1 2 24 true) =
      Done (Ok tt, m', [SendPeer (ToConn 2 id q)]) /\
    travels (sample_clock 9) (replicate 12 1) [row_node 2 3 24 true] (row_node 3 2 24 true) q (arrived row_body).
Proof.
  apply (end_to_end_delivery (sample_clock 9) (replicate 12 1) (XorCipher row_key) 1 3 (V4 167772163) false
           (row_node 1 2 24 true) (row_node 3 2 24 true) [row_node 2 3 24 true] row_packet (replicate 20 0) row_body sample_header).
  - apply xor_cipher_laws.
  - apply sample_nonce.
  - vm_compute. split; congruence.
  - vm_compute. split; congruence.
  - apply row_laid_out.
  - vm_compute. reflexivity.
  - apply row_sends.
  - split; [|split; [discriminate | exact I]]. apply row_ready; auto.
  - vm_compute. congruence.
  - split; [reflexivity | reflexivity | exists true, []; split; [reflexivity | constructor] | intros r _; exists true; reflexivity].
Defined.

Lemma outbound_drop_still_sent_witness :
  exists m' id q,
    send_msg_by_ip (sample_clock 9) (replicate 12 1) row_packet (V4 167772163) false (row_node 1 2 24 false) =
      Done (Ok tt, m', [SendPeer (ToConn 2 id q)]) /\ get_dst_peer_id q = Done (Some 3).
Proof.
  apply (outbound_drop_still_sent (sample_clock 9) (replicate 12 1) (XorCipher row_key) 1 3 2 (V4 167772163) false
           (row_node 1 2 24 false) row_packet (replicate 20 0) row_body sample_header).
  - apply xor_cipher_laws.
  - apply sample_nonce.
  - vm_compute. split; congruence.
  - vm_compute. split; congruence.
  - apply row_laid_out.
  - vm_compute. reflexivity.
  - apply row_sends.
  - intros p _. exists false. reflexivity.
Defined.

Definition row_header : PeerManagerHeader := {|
  from_peer_id := 1; to_peer_id := 3; pm_packet_type := packet_type_u8 PktData; pm_flags := 2;
  forward_counter := 6; reserved := 0; pm_len := 3 |}.
Definition row_transit : ZCPacket := mkZC (as_bytes row_header ++ [7; 8; 9]) DummyTunnel.

Lemma row_transit_laid_out : laid_out row_transit [] row_header [7; 8; 9].
Proof. split; [reflexivity|]. split; [reflexivity|]. vm_compute. repeat split; congruence. Qed.


Lemma short_foreign_packet_panics_witness :
  let h := with_packet_type (packet_type_u8 PktForeignNetworkPacket) row_header in
  let p := mkZC (as_bytes h ++ [1; 2; 3]) DummyTunnel in
  recv_loop_body p = Done (RecvForward p) /\
  peer_recv (sample_clock 9) [] p (row_node 2 3 24 true) = Panicked UnwrapOnNone.
Proof.
  intros h p. apply (short_foreign_packet_panics (sample_clock 9) [] (row_node 2 3 24 true) p [] [1; 2; 3] h).
  - split; [reflexivity|]. split; [reflexivity|]. vm_compute. repeat split; congruence.
  - reflexivity.
  - reflexivity.
Defined.

(** 10.0.0.3 belongs to peer 3, but a node with a /32 sends to peers 2 and 3. *)
Lemma address_taken_for_broadcast_witness :
  exists l, get_msg_dst_peer 167772163 (row_node 1 2 32 true) = Done (l, false) /\ 2 ∈ l.
Proof.
  eexists. split.
  - apply (address_taken_for_broadcast (row_node 1 2 32 true) 167772163 167772161 32).
    + reflexivity.
    + lia.
    + vm_compute. split; congruence.
    + reflexivity.
  - apply (bool_decide_unpack _). vm_compute. exact I.
Defined.
