(* ===== verification/ForeignNetwork.v ===== *)
(** Foreign networks: [easytier/src/peers/foreign_network_manager.rs].

    A node relays for networks other than its own: for each it keeps an entry
    with a peer map, an identity of its own ([fe_my_peer_id]) and a route, and
    the manager maps network names to entries.  Entries are shared ([Arc]): the
    tasks that add a connection or handle events hold them while the maps
    change, so they live in a store and the maps hold addresses.

    [add_peer_conn] is two steps, [add_begin] before and [add_finish] under the
    entry's lock, with [entry_prepare] (the route) in between for a new entry;
    the event handler of an entry is a queue of events and a task that takes
    them ([take_event]) and ends when its channel is closed or overrun
    ([handler_exit]).  A [NewConn] is a connection after its handshake.

    The theorems: every connection stored in an entry has presented the name
    and secret digest of the entry, entries that relay data are of networks on
    the whitelist, and a peer has a bounded number of direct connections; what
    an entry does with a packet; a packet between two peers of a foreign
    network that are connected to different relays is delivered unchanged; and
    three defects: a rejected peer stays listed, the last-update time outlives
    its network, and the handler of a dropped entry removes its successor. *)

From stdpp Require Import base numbers list gmap sets strings.
From Stdlib Require Import Ascii ZifyBool.
From S2P Require Import Prelude Text GraphAlgo TokenBucket AclRules AclProcessor AclFilter StatsManager.
From S2P Require Import SyncedRoute RouteTable RouteService PeerMap.
From S2P Require Import PacketDef Compressor Encrypt PeerConn PeerManager.
Open Scope Z_scope.

(** ** State *)

(** [wildmatch::WildMatch::new(pattern).matches(name)]. *)
Class WildMatch := { wild_match : bytes -> bytes -> bool }.

(** The settings read, with the global [MAX_DIRECT_CONNS_PER_PEER_IN_FOREIGN_NETWORK]. *)
Record ForeignFlags := {
  relay_network_whitelist : bytes; relay_all_peer_rpc : bool; foreign_relay_bps_limit : Z;
  max_direct_conns : nat
}.

Inductive GlobalCtxEvent := PeerAdded (p : PeerId) | PeerRemoved (p : PeerId) | PeerConnAdded | PeerConnRemoved.

Record ForeignNetworkEntry := mkEntry {
  fe_my_peer_id : PeerId; fe_network : NetworkIdentity; fe_peer_map : PeerMap; fe_relay_data : bool;
  fe_limiter : nat
}.
Definition with_peer_map (pm : PeerMap) (e : ForeignNetworkEntry) : ForeignNetworkEntry :=
  mkEntry (fe_my_peer_id e) (fe_network e) pm (fe_relay_data e) (fe_limiter e).
Definition fe_name (e : ForeignNetworkEntry) : bytes := network_name (fe_network e).

(** Network names are UTF-8; [fm_handlers] are the running event handlers, by
    the entry they were started for: the network's name and what is queued. *)
Record ForeignNetworkManager := mkFM {
  fm_entries : gmap nat ForeignNetworkEntry; fm_next : nat;
  network_peer_maps : gmap bytes nat;
  peer_network_map : gmap PeerId (gset bytes);
  network_peer_last_update : gmap bytes Z;
  fm_handlers : gmap nat (bytes * list GlobalCtxEvent);
  fm_buckets : TokenBucketManager;
  fm_counters : gmap (MetricName * bytes) Z
}.
Implicit Types (m : ForeignNetworkManager) (e : ForeignNetworkEntry) (a : nat) (name : bytes).

Definition fm_new : ForeignNetworkManager := mkFM ∅ 0 ∅ ∅ ∅ ∅ manager_new ∅.

Definition set_entries es m := mkFM es (fm_next m) (network_peer_maps m) (peer_network_map m)
  (network_peer_last_update m) (fm_handlers m) (fm_buckets m) (fm_counters m).
Definition set_maps maps pnm upd m := mkFM (fm_entries m) (fm_next m) maps pnm upd (fm_handlers m) (fm_buckets m)
  (fm_counters m).
Definition set_handlers hs m := mkFM (fm_entries m) (fm_next m) (network_peer_maps m) (peer_network_map m)
  (network_peer_last_update m) hs (fm_buckets m) (fm_counters m).
Definition set_buckets b m := mkFM (fm_entries m) (fm_next m) (network_peer_maps m) (peer_network_map m)
  (network_peer_last_update m) (fm_handlers m) b (fm_counters m).
Definition set_fm_counters c m := mkFM (fm_entries m) (fm_next m) (network_peer_maps m) (peer_network_map m)
  (network_peer_last_update m) (fm_handlers m) (fm_buckets m) c.

Definition get_network_entry name m : option nat := network_peer_maps m !! name.

(** [get_network_peer_id]. *)
Definition fm_network_peer_id name m : option PeerId :=
  a ← network_peer_maps m !! name; fe_my_peer_id <$> fm_entries m !! a.
(** What the peer manager asks, with the name as a string. *)
Definition fm_foreign_manager m : ForeignManager :=
  {| get_network_peer_id name := fm_network_peer_id (SyncedRoute.as_bytes name) m |}.

Definition get_foreign_network_last_update name m : option Z := network_peer_last_update m !! name.

(** ** Changes of the maps *)

Definition remove_name name (s : gset bytes) : option (gset bytes) :=
  let s := s ∖ {[name]} in if decide (s = ∅) then None else Some s.

Definition remove_peer (peer : PeerId) name m : ForeignNetworkManager :=
  let pnm := partial_alter (fun s => s ← s; remove_name name s) peer (peer_network_map m) in
  let gone := match (a ← network_peer_maps m !! name; fm_entries m !! a) with
              | Some e => bool_decide (peer_map (fe_peer_map e) = ∅)
              | None => false
              end in
  if gone then set_maps (delete name (network_peer_maps m)) pnm (delete name (network_peer_last_update m)) m
  else set_maps (network_peer_maps m) pnm (network_peer_last_update m) m.

Definition remove_network name m : ForeignNetworkManager :=
  set_maps (delete name (network_peer_maps m)) (omap (remove_name name) (peer_network_map m))
    (delete name (network_peer_last_update m)) m.

Definition touch_network (now : Z) name m : ForeignNetworkManager :=
  set_maps (network_peer_maps m) (peer_network_map m) (<[name := now]> (network_peer_last_update m)) m.

(** An event on the bus of entry [a], if its handler listens. *)
Definition issue_event a (ev : GlobalCtxEvent) m : ForeignNetworkManager :=
  set_handlers (alter (fun h => (h.1, h.2 ++ [ev])) a (fm_handlers m)) m.

Section manager.
Context `{WildMatch} `{Hasher64} (fl : ForeignFlags).
Context `{!IterOrder PeerConnId Conn, !IterOrder PeerId Peer, !IterOrder bytes unit, !IterOrder bytes nat}.

(** [GlobalCtx::check_network_in_whitelist]. *)
Definition check_network_in_whitelist name : bool :=
  existsb (fun wl => wild_match wl name) (split 32 (relay_network_whitelist fl)).

Definition clear_no_conn_peer name m : ForeignNetworkManager :=
  match network_peer_maps m !! name with
  | None => m
  | Some a =>
      match fm_entries m !! a with
      | None => m
      | Some e =>
          let pm := fe_peer_map e in
          let to_remove := (foldl scan_peer ([], pm) (list_peers pm)).1 in
          foldl (fun m p => issue_event a (PeerRemoved p) m)
            (set_entries (<[a := with_peer_map (clean_peer_without_conn pm) e]> (fm_entries m)) m) to_remove
      end
  end.

(** ** Entries *)

Definition name_key name : string :=
  foldr (fun b s => String (ascii_of_nat (Z.to_nat b)) s) EmptyString name.

Definition limiter_config : BucketConfig :=
  bucket_config_from {| lc_burst_rate := None; lc_bps := Some (foreign_relay_bps_limit fl); lc_fill_duration_ms := None |}.

(** [ForeignNetworkEntry::new], stored at a fresh address. *)
Definition entry_new (network : NetworkIdentity) (my_peer_id : PeerId) (relay_data : bool) m
    : nat * ForeignNetworkManager :=
  let '(b, bm) := get_or_create (name_key (network_name network)) limiter_config (fm_buckets m) in
  let a := fm_next m in
  (a, mkFM (<[a := mkEntry my_peer_id network (peer_map_new my_peer_id) relay_data b]> (fm_entries m)) (S a)
        (network_peer_maps m) (peer_network_map m) (network_peer_last_update m) (fm_handlers m) bm (fm_counters m)).

(** Up to the release of the manager's lock. *)
Definition get_or_insert_entry (now : Z) (network : NetworkIdentity) (my_peer_id dst_peer_id : PeerId)
    (relay_data : bool) m : nat * bool * ForeignNetworkManager :=
  let name := network_name network in
  let '(a, new_added, m) :=
    match network_peer_maps m !! name with
    | Some a => (a, false, m)
    | None => let '(a, m) := entry_new network my_peer_id relay_data m in (a, true, m)
    end in
  (a, new_added,
   set_maps (<[name := a]> (network_peer_maps m))
     (upsert dst_peer_id (fun s => {[name]} ∪ s) {[name]} (peer_network_map m))
     (<[name := now]> (network_peer_last_update m)) m).

(** [prepare]: the entry's route is added to its peer map. *)
Definition entry_prepare (route : Route) a m : ForeignNetworkManager :=
  set_entries (alter (fun e => with_peer_map (add_route route (fe_peer_map e)) e) a (fm_entries m)) m.

(** [start_event_handler]. *)
Definition start_event_handler a e m : ForeignNetworkManager :=
  set_handlers (<[a := (fe_name e, [])]> (fm_handlers m)) m.

(** ** Adding a connection *)

Record NewConn := { nc_conn : PeerConn; nc_id : PeerConnId; nc_link : Conn }.

Inductive add_error := NotInWhitelist | MyPeerIdMismatch | SecretMismatch | TooManyDirectConns.

Definition add_begin (now : Z) (c : NewConn) m : outcome (result add_error (nat * bool) * ForeignNetworkManager) :=
  identity ← conn_get_network_identity (nc_conn c);
  let ret := check_network_in_whitelist (network_name identity) in
  if negb ret && negb (relay_all_peer_rpc fl) then Done (Err NotInWhitelist, m)
  else
    dst ← conn_get_peer_id (nc_conn c);
    let '(a, new_added, m) := get_or_insert_entry now identity (conn_my_peer_id (nc_conn c)) dst ret m in
    Done (Ok (a, new_added), m).

(** [entry.peer_map.add_new_peer_conn], with its events. *)
Definition entry_add_conn a e (dst : PeerId) (c : NewConn) m : outcome ForeignNetworkManager :=
  let fresh := bool_decide (peer_map (fe_peer_map e) !! dst = None) in
  pm ← add_new_peer_conn dst (nc_id c) (nc_link c) (fe_peer_map e);
  let m := issue_event a PeerConnAdded (set_entries (<[a := with_peer_map pm e]> (fm_entries m)) m) in
  Done (if fresh then issue_event a (PeerAdded dst) m else m).

Definition add_finish a (new_added : bool) (c : NewConn) m : outcome (result add_error unit * ForeignNetworkManager) :=
  e ← unwrap (fm_entries m !! a);
  identity ← conn_get_network_identity (nc_conn c);
  same ← identity_eq (fe_network e) identity;
  let other_id := negb (fe_my_peer_id e =? conn_my_peer_id (nc_conn c)) in
  if negb same || other_id then
    Done (Err (if other_id then MyPeerIdMismatch else SecretMismatch),
          if new_added then remove_network (fe_name e) m else m)
  else
    dst ← conn_get_peer_id (nc_conn c);
    let m' := if new_added then start_event_handler a e m else m in
    let full := negb new_added &&
                match peer_map (fe_peer_map e) !! dst with
                | Some p => (max_direct_conns fl <=? size (get_directly_connections p))%nat
                | None => false
                end in
    if full then Done (Err TooManyDirectConns, m)
    else m' ← entry_add_conn a e dst c m'; Done (Ok tt, m').

(** The whole call, when no other task runs in between. *)
Definition add_peer_conn (now : Z) (route : Route) (c : NewConn) m
    : outcome (result add_error unit * ForeignNetworkManager) :=
  '(r, m) ← add_begin now c m;
  match r with
  | Err err => Done (Err err, m)
  | Ok (a, new_added) => add_finish a new_added c (if (new_added : bool) then entry_prepare route a m else m)
  end.

(** ** Events *)

Definition handle_event (now : Z) name (ev : GlobalCtxEvent) m : ForeignNetworkManager :=
  match ev with
  | PeerRemoved p => touch_network now name (remove_peer p name m)
  | PeerConnRemoved => clear_no_conn_peer name m
  | PeerAdded _ => touch_network now name m
  | PeerConnAdded => m
  end.

Definition take_event (now : Z) a m : ForeignNetworkManager :=
  match fm_handlers m !! a with
  | Some (name, ev :: evs) => handle_event now name ev (set_handlers (<[a := (name, evs)]> (fm_handlers m)) m)
  | _ => m
  end.

(** The handler ends: its channel is closed or has dropped events. *)
Definition handler_exit a m : ForeignNetworkManager :=
  match fm_handlers m !! a with
  | Some (name, _) => remove_network name (set_handlers (delete a (fm_handlers m)) m)
  | None => m
  end.

(** The last reference to an entry goes. *)
Definition drop_entry a m : ForeignNetworkManager :=
  match fm_entries m !! a with
  | Some e => set_buckets (drop_handle (fe_limiter e) (fm_buckets m)) (set_entries (delete a (fm_entries m)) m)
  | None => m
  end.

(** The tasks of the entry's peer map: a connection closes; the listener of a
    peer takes the close event. *)
Definition entry_conn_closed (peer : PeerId) (id : PeerConnId) a m : outcome ForeignNetworkManager :=
  match fm_entries m !! a with
  | None => Done m
  | Some e => pm ← conn_closed peer id (fe_peer_map e);
              Done (set_entries (<[a := with_peer_map pm e]> (fm_entries m)) m)
  end.

Definition entry_listen (peer : PeerId) a m : ForeignNetworkManager :=
  match fm_entries m !! a with
  | None => m
  | Some e =>
      let removes := match peer_map (fe_peer_map e) !! peer with
                     | Some p => match close_events p with
                                 | id :: _ => bool_decide (is_Some (conns p !! id))
                                 | [] => false
                                 end
                     | None => false
                     end in
      let m := set_entries (<[a := with_peer_map (peer_map_listen peer (fe_peer_map e)) e]> (fm_entries m)) m in
      if removes then issue_event a PeerConnRemoved m else m
  end.

(** ** Packets *)

Inductive foreign_action :=
| ForeignRpc (p : ZCPacket)          (** the entry's RPC channel *)
| ForeignSend (s : Sent)             (** a connection of the entry, or its own queue *)
| ToManager (p : ZCPacket).          (** the peer manager's receive queue *)

Definition fm_count (metric : MetricName) name (n : Z) m : ForeignNetworkManager :=
  set_fm_counters (upsert (metric, name) (fun x => as_u64 (x + n)) (as_u64 n) (fm_counters m)) m.

Definition is_rpc_type (t : Z) : bool :=
  (t =? packet_type_u8 PktTaRpc) || (t =? packet_type_u8 PktRpcReq) || (t =? packet_type_u8 PktRpcResp).

(** [bps_limiter.try_consume]. *)
Definition limiter_consume (tokens : Z) (b : nat) m : bool * ForeignNetworkManager :=
  match arcs (fm_buckets m) !! b with
  | None => (false, m)
  | Some tb =>
      let '(ok, tb) := try_consume tokens tb in
      let bm := fm_buckets m in
      (ok, set_buckets {| buckets := buckets bm; arcs := <[b := tb]> (arcs bm); held := held bm;
                          next_arc := next_arc bm |} m)
  end.

(** May the packet be relayed?  Data only for entries that relay it, within
    the limit. *)
Definition may_relay (hdr : PeerManagerHeader) e m : bool * ForeignNetworkManager :=
  if is_compressed_type (pm_packet_type hdr) then
    if fe_relay_data e then limiter_consume (pm_len hdr) (fe_limiter e) m else (false, m)
  else (true, m).

Context (junk : nat -> Z).

Definition wrap_for_manager e (to_peer : PeerId) (via : PeerId) (zc_packet : ZCPacket) : outcome ZCPacket :=
  foreign_packet ← new_for_foreign_network junk (fe_name e) to_peer zc_packet;
  fill_peer_manager_hdr foreign_packet (fe_my_peer_id e) via (packet_type_u8 PktForeignNetworkPacket).

(** The body of [start_packet_recv]'s loop. *)
Definition entry_recv (zc_packet : ZCPacket) a m : outcome (ForeignNetworkManager * list foreign_action) :=
  e ← unwrap (fm_entries m !! a);
  let n := buf_len zc_packet in
  h ← peer_manager_header zc_packet;
  match h with
  | None => Done (m, [])
  | Some hdr =>
      let to_peer := to_peer_id hdr in
      if to_peer =? fe_my_peer_id e then
        if is_rpc_type (pm_packet_type hdr)
        then Done (fm_count TrafficPacketsRx (fe_name e) 1 (fm_count TrafficBytesSelfRx (fe_name e) n m), [ForeignRpc zc_packet])
        else Done (m, [])
      else
        let '(ok, m) := may_relay hdr e m in
        if negb ok then Done (m, [])
        else
          let m := fm_count TrafficPacketsForwarded (fe_name e) 1 (fm_count TrafficBytesForwarded (fe_name e) n m) in
          let gateway := get_gateway_peer_id to_peer LeastHop (fe_peer_map e) in
          match gateway with
          | Some peer =>
              if has_peer peer (fe_peer_map e) then
                let '(_, pm, sent) := send_msg_directly zc_packet peer (fe_peer_map e) in
                Done (set_entries (<[a := with_peer_map pm e]> (fm_entries m)) m, ForeignSend <$> sent)
              else
                foreign_packet ← wrap_for_manager e to_peer peer zc_packet; Done (m, [ToManager foreign_packet])
          | None => foreign_packet ← wrap_for_manager e to_peer to_peer zc_packet; Done (m, [ToManager foreign_packet])
          end
  end.

Definition send_msg_to_peer name (dst : PeerId) (msg : ZCPacket) m
    : result send_error unit * ForeignNetworkManager * list Sent :=
  match (a ← network_peer_maps m !! name; e ← fm_entries m !! a; Some (a, e)) with
  | Some (a, e) =>
      let '(r, pm, sent) := send_msg msg dst LeastHop (fe_peer_map e) in
      (r, set_entries (<[a := with_peer_map pm e]> (fm_entries m)) m, sent)
  | None => (Err RouteError, m, [])
  end.

(** The entry's own RPC messages go through its receive queue. *)
Definition entry_rpc_send (msg : ZCPacket) e : result send_error unit * PeerMap * list Sent :=
  send_msg_directly msg (fe_my_peer_id e) (fe_peer_map e).

(** ** Closing and listing *)

(** [PeerMap::close_peer_conn]. *)
Definition pmap_close_peer_conn (peer : PeerId) (id : PeerConnId) (pm : PeerMap) : result send_error unit * PeerMap :=
  match peer_map pm !! peer with
  | Some p => let '(r, p) := close_peer_conn id p in (r, with_peers (<[peer := p]> (peer_map pm)) pm)
  | None => (Err NotFound, pm)
  end.

Fixpoint close_in_networks (peer : PeerId) (id : PeerConnId) (names : list bytes) m
    : result send_error unit * ForeignNetworkManager :=
  match names with
  | [] => (Err NotFound, m)
  | name :: names =>
      match (a ← network_peer_maps m !! name; e ← fm_entries m !! a; Some (a, e)) with
      | Some (a, e) =>
          let '(r, pm) := pmap_close_peer_conn peer id (fe_peer_map e) in
          let m := set_entries (<[a := with_peer_map pm e]> (fm_entries m)) m in
          match r with
          | Err NotFound => close_in_networks peer id names m
          | _ => (r, m)
          end
      | None => close_in_networks peer id names m
      end
  end.

Definition fm_close_peer_conn (peer : PeerId) (id : PeerConnId) m : result send_error unit * ForeignNetworkManager :=
  close_in_networks peer id (map_iter (gset_to_gmap tt (default ∅ (peer_network_map m !! peer)))).*1 m.

(** [list_peer_conns] of every peer of a map: the open connections of each. *)
Definition list_conns (acc : list (PeerId * list PeerConnId) * PeerMap) (peer : PeerId)
    : list (PeerId * list PeerConnId) * PeerMap :=
  match peer_map acc.2 !! peer with
  | None => (acc.1 ++ [(peer, [])], acc.2)
  | Some p => let '(open, p) := list_peer_conns p in
              (acc.1 ++ [(peer, open.*1)], with_peers (<[peer := p]> (peer_map acc.2)) acc.2)
  end.

(** [PeerMap::list_peers_with_conn], and what an entry tells its route:
    the peers other relays have, then its own. *)
Definition list_peers_with_conn (pm : PeerMap) : list PeerId * PeerMap :=
  let '(l, pm) := foldl list_conns ([], pm) (list_peers pm) in
  ((base.filter (fun x => x.2 <> []) l).*1, pm).
Definition entry_list_peers (global : list PeerId) e : list PeerId * ForeignNetworkEntry :=
  let '(local, pm) := list_peers_with_conn (fe_peer_map e) in
  (base.filter (fun x => x <> fe_my_peer_id e) (global ++ local), with_peer_map pm e).

Record ForeignNetworkEntryPb := {
  pb_peers : list (PeerId * list PeerConnId); pb_network_secret_digest : bytes; pb_my_peer_id : PeerId }.

Definition list_network (acc : gmap bytes ForeignNetworkEntryPb * ForeignNetworkManager) name
    : gmap bytes ForeignNetworkEntryPb * ForeignNetworkManager :=
  let '(ret, m) := acc in
  match (a ← network_peer_maps m !! name; e ← fm_entries m !! a; Some (a, e)) with
  | None => (ret, m)
  | Some (a, e) =>
      let '(peers, pm) := foldl list_conns ([], fe_peer_map e) (list_peers (fe_peer_map e)) in
      (<[name := {| pb_peers := peers; pb_my_peer_id := fe_my_peer_id e;
                    pb_network_secret_digest := default (zeros 32) (network_secret_digest (fe_network e)) |}]> ret,
       set_entries (<[a := with_peer_map pm e]> (fm_entries m)) m)
  end.

Definition list_foreign_networks m : gmap bytes ForeignNetworkEntryPb * ForeignNetworkManager :=
  foldl list_network (∅, m) (map_iter (network_peer_maps m)).*1.
End manager.

(** ** Operations that add no connection *)

(** Of each peer, connections are at most forgotten. *)
Definition shrinks (pm pm' : PeerMap) : Prop :=
  forall k p', peer_map pm' !! k = Some p' -> exists p, peer_map pm !! k = Some p /\
    forall id c', conns p' !! id = Some c' -> exists c, conns p !! id = Some c /\ is_hole_punched c' = is_hole_punched c.

#[global] Instance shrinks_preorder : PreOrder shrinks.
Proof.
  split.
  - intros pm k p Hp. exists p. eauto.
  - intros x y z Hxy Hyz k p Hp. destruct (Hyz k p Hp) as (q & Hq & Hc). destruct (Hxy k q Hq) as (r & Hr & Hc').
    exists r. split; [done|]. intros id c Hid. destruct (Hc id c Hid) as (c1 & H1 & E1).
    destruct (Hc' id c1 H1) as (c2 & H2 & E2). exists c2. split; [done | congruence].
Qed.

(** Changing one peer without new connections. *)
Lemma shrinks_alter f k pm :
  (forall p id c', conns (f p) !! id = Some c' ->
     exists c, conns p !! id = Some c /\ is_hole_punched c' = is_hole_punched c) ->
  shrinks pm (with_peers (alter f k (peer_map pm)) pm).
Proof.
  intros Hf j p'. simpl. destruct (decide (j = k)) as [->|Hne].
  - rewrite lookup_alter_eq. destruct (peer_map pm !! k) as [p|]; [|done]. intros [= <-]. eauto.
  - rewrite lookup_alter_ne by done. eauto.
Qed.

Lemma shrinks_insert k p p' pm : peer_map pm !! k = Some p -> conns p' = conns p ->
  shrinks pm (with_peers (<[k := p']> (peer_map pm)) pm).
Proof.
  intros Hp E j q. simpl. destruct (decide (j = k)) as [->|Hne].
  - rewrite lookup_insert_eq. intros [= <-]. exists p. rewrite E. eauto.
  - rewrite lookup_insert_ne by done. eauto.
Qed.

Section quiet.
Context `{WildMatch} `{Hasher64} (fl : ForeignFlags).
Context `{!IterOrder PeerConnId Conn, !IterOrder PeerId Peer, !IterOrder bytes unit, !IterOrder bytes nat}.

Lemma clean_shrinks pm : shrinks pm (clean_peer_without_conn pm).
Proof.
  intros k p' Hp'. pose proof (clean_lookup pm k) as Hk. rewrite Hp' in Hk.
  destruct Hk as (p & Hp & E & _). exists p. rewrite E. eauto.
Qed.

Lemma conn_closed_shrinks peer id pm pm' : conn_closed peer id pm = Done pm' -> shrinks pm pm'.
Proof.
  unfold conn_closed. case_bool_decide; [|done]. intros [= <-]. simpl.
  destruct (peer_map pm !! peer) as [p|] eqn:Ep; [|by intros k q Hq; exists q; eauto]. intros k q. simpl. destruct (decide (k = peer)) as [->|Hne].
  - rewrite lookup_insert_eq. intros [= <-]. exists p. split; [done|]. simpl. intros j c'.
    rewrite lookup_alter. case_decide; [|eauto]. subst. destruct (conns p !! j) as [c|]; [|done].
    intros [= <-]. by exists c.
  - rewrite lookup_insert_ne by done. eauto.
Qed.

Lemma listen_shrinks peer pm : shrinks pm (peer_map_listen peer pm).
Proof.
  apply shrinks_alter. intros p id c'. unfold peer_listen. destruct (close_events p); [eauto|]. simpl.
  intros [_ Hc]%lookup_delete_Some. eauto.
Qed.

Lemma send_shrinks msg dst pm r pm' sent : send_msg_directly msg dst pm = (r, pm', sent) -> shrinks pm pm'.
Proof.
  unfold send_msg_directly. destruct (dst =? _); [by intros [= _ <- _]|].
  destruct (peer_map pm !! dst) as [p|] eqn:Ep; [|by intros [= _ <- _]].
  destruct (peer_send_msg msg p) as [[r0 p'] s0] eqn:Es. intros [= _ <- _]. eapply shrinks_insert; [done|].
  unfold peer_send_msg in Es. pose proof (select_conn_same p) as (E & _).
  destruct (select_conn p) as [[[i c]|] q]; [destruct (sink_open c)|]; by simplify_eq.
Qed.

Lemma send_msg_shrinks msg dst policy pm r pm' sent : send_msg msg dst policy pm = (r, pm', sent) -> shrinks pm pm'.
Proof. unfold send_msg. destruct (get_gateway_peer_id _ _ _); [apply send_shrinks | by intros [= _ <- _]]. Qed.

Lemma close_conn_shrinks peer id pm : shrinks pm (pmap_close_peer_conn peer id pm).2.
Proof.
  unfold pmap_close_peer_conn. destruct (peer_map pm !! peer) as [p|] eqn:Ep; [|done].
  destruct (close_peer_conn_conns id p) as (E & _). destruct (close_peer_conn id p) as [r p'].
  by eapply shrinks_insert.
Qed.

Lemma list_conns_shrinks l acc : shrinks acc.2 (foldl list_conns acc l).2.
Proof.
  revert acc; induction l as [|k l IH]; intros acc; cbn [foldl]; [done|]. etrans; [|apply IH]. unfold list_conns.
  destruct (peer_map acc.2 !! k) as [p|] eqn:Ep; [|done].
  destruct (list_peer_conns_spec p) as (E & _). destruct (list_peer_conns p) as [open p'].
  by eapply shrinks_insert.
Qed.

(** Entries as they were but for connections that are gone, no new name. *)
Definition quiet m m' : Prop :=
  dom (fm_entries m') = dom (fm_entries m) /\ fm_next m' = fm_next m /\
  network_peer_maps m' ⊆ network_peer_maps m /\
  forall a e', fm_entries m' !! a = Some e' -> exists e, fm_entries m !! a = Some e /\
    e' = with_peer_map (fe_peer_map e') e /\ shrinks (fe_peer_map e) (fe_peer_map e').

#[global] Instance quiet_preorder : PreOrder quiet.
Proof.
  split.
  - intros m. split_and!; try done. intros a e He. exists e. split; [done|]. split; [by destruct e | done].
  - intros x y z (D1 & N1 & M1 & E1) (D2 & N2 & M2 & E2). split_and!; [congruence | congruence | by etrans |].
    intros a e He. destruct (E2 a e He) as (e1 & He1 & X1 & S1). destruct (E1 a e1 He1) as (e2 & He2 & X2 & S2).
    exists e2. split; [done|]. split; [|by etrans]. rewrite X1, X2. done.
Qed.

Lemma quiet_same m m' : fm_entries m' = fm_entries m -> fm_next m' = fm_next m ->
  network_peer_maps m' ⊆ network_peer_maps m -> quiet m m'.
Proof.
  intros E1 E2 E3. split_and!; [congruence | done | done |]. rewrite E1. intros a e He. exists e.
  split; [done|]. split; [by destruct e | done].
Qed.

Lemma quiet_entry a e pm m : fm_entries m !! a = Some e -> shrinks (fe_peer_map e) pm ->
  quiet m (set_entries (<[a := with_peer_map pm e]> (fm_entries m)) m).
Proof.
  intros He Hs. split_and!; try done.
  - simpl. rewrite dom_insert_L. apply elem_of_dom_2 in He. set_solver.
  - intros b e'. simpl. destruct (decide (b = a)) as [->|Hne].
    + rewrite lookup_insert_eq. intros [= <-]. by exists e.
    + rewrite lookup_insert_ne by done. intros Hb. exists e'. split; [done|]. split; [by destruct e' | done].
Qed.

Lemma issue_event_quiet a ev m : quiet m (issue_event a ev m).
Proof. by apply quiet_same. Qed.

Lemma issue_events_quiet {A} (f : A -> GlobalCtxEvent) a l m : quiet m (foldl (fun m x => issue_event a (f x) m) m l).
Proof. revert m; induction l as [|x l IH]; intros m; simpl; [done|]. etrans; [apply (issue_event_quiet a (f x)) | apply IH]. Qed.

Lemma remove_peer_quiet p name m : quiet m (remove_peer p name m).
Proof.
  unfold remove_peer. destruct (match _ with Some _ => _ | None => _ end); apply quiet_same; try done. apply delete_subseteq.
Qed.

Lemma remove_network_quiet name m : quiet m (remove_network name m).
Proof. apply quiet_same; try done. apply delete_subseteq. Qed.

Lemma clear_no_conn_peer_quiet name m : quiet m (clear_no_conn_peer name m).
Proof.
  unfold clear_no_conn_peer. destruct (network_peer_maps m !! name) as [a|]; [|done].
  destruct (fm_entries m !! a) as [e|] eqn:He; [|done]. etrans; [|apply issue_events_quiet].
  apply quiet_entry; [done | apply clean_shrinks].
Qed.

Lemma take_event_quiet now a m : quiet m (take_event now a m).
Proof.
  unfold take_event. destruct (fm_handlers m !! a) as [[name [|ev evs]]|]; try done.
  set (m1 := set_handlers _ _). assert (quiet m m1) as H1 by (by apply quiet_same). etrans; [exact H1|].
  destruct ev; simpl; [by apply quiet_same | | done | apply clear_no_conn_peer_quiet].
  etrans; [apply (remove_peer_quiet p name) | by apply quiet_same].
Qed.

Lemma handler_exit_quiet a m : quiet m (handler_exit a m).
Proof.
  unfold handler_exit. destruct (fm_handlers m !! a) as [[name evs]|]; [|done].
  etrans; [|apply remove_network_quiet]. by apply quiet_same.
Qed.

Lemma entry_conn_closed_quiet peer id a m m' : entry_conn_closed peer id a m = Done m' -> quiet m m'.
Proof.
  unfold entry_conn_closed. destruct (fm_entries m !! a) as [e|] eqn:He; [|by intros [= <-]].
  intros E. inv_outcome. apply quiet_entry; [done | by eapply conn_closed_shrinks].
Qed.

Lemma entry_listen_quiet peer a m : quiet m (entry_listen peer a m).
Proof.
  unfold entry_listen. destruct (fm_entries m !! a) as [e|] eqn:He; [|done].
  assert (quiet m (set_entries (<[a := with_peer_map (peer_map_listen peer (fe_peer_map e)) e]> (fm_entries m)) m)) as Hq
    by (apply quiet_entry; [done | apply listen_shrinks]).
  destruct (match _ with Some _ => _ | None => _ end); [|done]. etrans; [exact Hq | apply issue_event_quiet].
Qed.


(** Relaying touches the buckets only. *)
Lemma may_relay_buckets hdr e m : exists b, (may_relay hdr e m).2 = set_buckets b m.
Proof.
  assert (exists b, m = set_buckets b m) as Hm by (exists (fm_buckets m); by destruct m).
  unfold may_relay, limiter_consume. destruct (is_compressed_type _); [|done]. destruct (fe_relay_data e); [|done].
  destruct (arcs _ !! _) as [tb|]; [|done]. destruct (try_consume _ _). eauto.
Qed.

Lemma entry_recv_quiet junk p a m m' acts : entry_recv junk p a m = Done (m', acts) -> quiet m m'.
Proof.
  intros E. unfold entry_recv in E. apply bind_Done in E as (e & He & E). apply unwrap_Done in He.
  apply bind_Done in E as ([hdr|] & _ & E); [|by simplify_eq].
  destruct (to_peer_id hdr =? fe_my_peer_id e).
  { destruct (is_rpc_type _); simplify_eq; [|done]. by apply quiet_same. }
  destruct (may_relay_buckets hdr e m) as (b & Hb). destruct (may_relay hdr e m) as [ok m1]. simpl in Hb. subst m1.
  assert (quiet m (set_buckets b m)) as H1 by (by apply quiet_same).
  destruct ok; [|by simplify_eq/=]. cbn [negb] in E. set (m2 := fm_count _ _ _ _) in E.
  assert (quiet m m2) as H2 by (by apply quiet_same).
  destruct (get_gateway_peer_id _ _ _) as [g|]; [destruct (has_peer _ _)|].
  - destruct (send_msg_directly _ _ _) as [[r pm] sent] eqn:Es. simplify_eq. etrans; [exact H2|].
    apply (quiet_entry a e pm m2); [done | by eapply send_shrinks].
  - by inv_outcome.
  - by inv_outcome.
Qed.

Lemma find_entry name m a e :
  (a ← network_peer_maps m !! name; e ← fm_entries m !! a; Some (a, e)) = Some (a, e) -> fm_entries m !! a = Some e.
Proof. destruct (network_peer_maps m !! name) as [b|]; [|done]. simpl. destruct (fm_entries m !! b) eqn:E; [|done]. simpl. by intros [= <- <-]. Qed.

Lemma send_msg_to_peer_quiet name dst msg m : quiet m (send_msg_to_peer name dst msg m).1.2.
Proof.
  unfold send_msg_to_peer. destruct (_ ≫= _) as [[a e]|] eqn:Ef; [|done]. apply find_entry in Ef.
  destruct (send_msg _ _ _ _) as [[r pm] sent] eqn:Es. apply quiet_entry; [done | by eapply send_msg_shrinks].
Qed.

Lemma close_in_networks_quiet peer id names m : quiet m (close_in_networks peer id names m).2.
Proof.
  revert m; induction names as [|name names IH]; intros m; cbn [close_in_networks]; [done|].
  destruct (_ ≫= _) as [[a e]|] eqn:Ef; [|apply IH]. apply find_entry in Ef.
  pose proof (close_conn_shrinks peer id (fe_peer_map e)) as Hs.
  destruct (pmap_close_peer_conn peer id (fe_peer_map e)) as [r pm]. simpl in Hs.
  assert (quiet m (set_entries (<[a := with_peer_map pm e]> (fm_entries m)) m)) as Hq by (by apply quiet_entry).
  destruct r as [|[]]; try exact Hq. etrans; [exact Hq | apply IH].
Qed.

Lemma list_networks_quiet names acc : quiet acc.2 (foldl list_network acc names).2.
Proof.
  revert acc; induction names as [|name names IH]; intros [ret m]; cbn [foldl]; [done|].
  etrans; [|apply IH]. unfold list_network. destruct (_ ≫= _) as [[a e]|] eqn:Ef; [|done]. apply find_entry in Ef.
  pose proof (list_conns_shrinks (list_peers (fe_peer_map e)) ([], fe_peer_map e)) as Hs.
  destruct (foldl list_conns _ _) as [l pm]. by apply quiet_entry.
Qed.
End quiet.

(** ** Reachable states *)

(** The state, the connections being added, and those that were stored: for
    each the entry and, while it is being added, whether it created it. *)
Record fm_world := mkWorld {
  w_mgr : ForeignNetworkManager; w_pending : list (nat * bool * NewConn); w_log : list (nat * NewConn) }.

Section reachable.
Context `{WildMatch} `{Hasher64} (fl : ForeignFlags) (junk : nat -> Z).
Context `{!IterOrder PeerConnId Conn, !IterOrder PeerId Peer, !IterOrder bytes unit, !IterOrder bytes nat}.

Inductive fm_step : fm_world -> fm_world -> Prop :=
| fs_begin now c m a new_added m' pend log :
    add_begin fl now c m = Done (Ok (a, new_added), m') ->
    fm_step (mkWorld m pend log) (mkWorld m' ((a, new_added, c) :: pend) log)
| fs_prepare route a m pend log : fm_step (mkWorld m pend log) (mkWorld (entry_prepare route a m) pend log)
| fs_finish a new_added c m r m' pend1 pend2 log :
    add_finish fl a new_added c m = Done (r, m') ->
    fm_step (mkWorld m (pend1 ++ (a, new_added, c) :: pend2) log)
      (mkWorld m' (pend1 ++ pend2) (match r with Ok _ => (a, c) :: log | Err _ => log end))
| fs_event now a m pend log : fm_step (mkWorld m pend log) (mkWorld (take_event now a m) pend log)
| fs_exit a m pend log : fm_step (mkWorld m pend log) (mkWorld (handler_exit a m) pend log)
| fs_drop a m pend log :
    (forall name, network_peer_maps m !! name <> Some a) -> a ∉ (fun x => x.1.1) <$> pend ->
    fm_step (mkWorld m pend log) (mkWorld (drop_entry a m) pend log)
| fs_closed peer id a m m' pend log :
    entry_conn_closed peer id a m = Done m' -> fm_step (mkWorld m pend log) (mkWorld m' pend log)
| fs_listen peer a m pend log : fm_step (mkWorld m pend log) (mkWorld (entry_listen peer a m) pend log)
| fs_recv p a m m' acts pend log :
    entry_recv junk p a m = Done (m', acts) -> fm_step (mkWorld m pend log) (mkWorld m' pend log)
| fs_send name dst msg m pend log :
    fm_step (mkWorld m pend log) (mkWorld (send_msg_to_peer name dst msg m).1.2 pend log)
| fs_close peer id m pend log :
    fm_step (mkWorld m pend log) (mkWorld (fm_close_peer_conn peer id m).2 pend log)
| fs_list m pend log : fm_step (mkWorld m pend log) (mkWorld (list_foreign_networks m).2 pend log)
| fs_buckets m bm pend log :
    manager_step (fm_buckets m) bm -> fm_step (mkWorld m pend log) (mkWorld (set_buckets bm m) pend log).

Inductive fm_reachable : fm_world -> Prop :=
| fr_new : fm_reachable (mkWorld fm_new [] [])
| fr_step w w' : fm_reachable w -> fm_step w w' -> fm_reachable w'.

(** A stored connection of an entry was added to it, and presented its identity. *)
Definition vouched (log : list (nat * NewConn)) a e (peer : PeerId) (id : PeerConnId) : Prop :=
  exists c i, (a, c) ∈ log /\ nc_id c = id /\ conn_get_peer_id (nc_conn c) = Done peer /\
    conn_get_network_identity (nc_conn c) = Done i /\ identity_eq (fe_network e) i = Done true /\
    fe_my_peer_id e = conn_my_peer_id (nc_conn c).

(** The entries whose creator has still to store its connection. *)
Definition creating (pend : list (nat * bool * NewConn)) : list nat :=
  omap (fun x => if (x.1.2 : bool) then Some x.1.1 else None) pend.

Definition direct_limit (pend : list (nat * bool * NewConn)) a : nat :=
  (Nat.max 1 (max_direct_conns fl) + if decide (a ∈ creating pend) then 0 else 1)%nat.

Definition entry_ok (w : fm_world) a e : Prop :=
  (fe_relay_data e = true -> check_network_in_whitelist fl (fe_name e) = true) /\
  forall peer p, peer_map (fe_peer_map e) !! peer = Some p ->
    (size (get_directly_connections p) <= direct_limit (w_pending w) a)%nat /\
    forall id, is_Some (conns p !! id) -> vouched (w_log w) a e peer id.

Record fm_ok (w : fm_world) : Prop := {
  fk_entries : forall a e, fm_entries (w_mgr w) !! a = Some e -> (a < fm_next (w_mgr w))%nat /\ entry_ok w a e;
  fk_names : forall name a, network_peer_maps (w_mgr w) !! name = Some a ->
    exists e, fm_entries (w_mgr w) !! a = Some e /\ fe_name e = name;
  fk_pending : forall x, x ∈ w_pending w -> x.1.1 ∈ dom (fm_entries (w_mgr w));
  fk_creating : NoDup (creating (w_pending w))
}.

Lemma direct_mono p p' :
  (forall id c', conns p' !! id = Some c' -> exists c, conns p !! id = Some c /\ is_hole_punched c' = is_hole_punched c) ->
  (size (get_directly_connections p') <= size (get_directly_connections p))%nat.
Proof.
  intros Hc. apply subseteq_size. intros id. unfold get_directly_connections. rewrite !elem_of_dom.
  intros [c' Hid]. apply retain_Some in Hid as [Hid Hh]. destruct (Hc id c' Hid) as (c & Hid' & E).
  exists c. apply retain_Some. split; [done|]. by rewrite <- E.
Qed.

Lemma direct_limit_mono pend pend' a :
  (a ∈ creating pend' -> a ∈ creating pend) -> (direct_limit pend a <= direct_limit pend' a)%nat.
Proof. unfold direct_limit. intros Hc. repeat case_decide; [lia | lia | tauto | lia]. Qed.

(** What is known of an entry survives more log and fewer creators. *)
Lemma entry_ok_mono m m' pend pend' log log' a e e' :
  entry_ok (mkWorld m pend log) a e -> e' = with_peer_map (fe_peer_map e') e -> shrinks (fe_peer_map e) (fe_peer_map e') ->
  (a ∈ creating pend' -> a ∈ creating pend) -> log ⊆ log' -> entry_ok (mkWorld m' pend' log') a e'.
Proof.
  intros [Hr Hp] E Hs Hc Hl. split; [by rewrite E|]. intros peer p' Hp'. destruct (Hs peer p' Hp') as (p & Hpp & Hcs).
  destruct (Hp peer p Hpp) as [Hsz Had]. split.
  - etrans; [by apply direct_mono|]. etrans; [exact Hsz | by apply direct_limit_mono].
  - intros id [c' Hid]. destruct (Hcs id c' Hid) as (c & Hid' & _).
    destruct (Had id ltac:(eauto)) as (n & i & Hn & H1 & H2 & H3 & H4 & H5). exists n, i. rewrite E. split_and!; try done.
    by apply Hl.
Qed.

Lemma fm_quiet_ok m m' pend log : fm_ok (mkWorld m pend log) -> quiet m m' -> fm_ok (mkWorld m' pend log).
Proof.
  intros [He Hn Hp Hc] (D & N & M & E). split; simpl in *; try done.
  - intros a e' Ha. destruct (E a e' Ha) as (e & Ha0 & X & S). destruct (He a e Ha0) as [Hlt Hok].
    split; [by rewrite N | by eapply entry_ok_mono].
  - intros name a Ha. destruct (Hn name a (lookup_weaken _ _ _ _ Ha M)) as (e & He0 & Hname).
    assert (is_Some (fm_entries m' !! a)) as [e' He'] by (apply elem_of_dom; rewrite D; by eapply elem_of_dom_2).
    exists e'. split; [done|]. destruct (E a e' He') as (e2 & He2 & X & _). rewrite X. by simplify_eq.
  - intros x Hx. rewrite D. by apply Hp.
Qed.

Lemma entry_prepare_quiet route a m : quiet m (entry_prepare route a m).
Proof.
  unfold entry_prepare. split_and!; try done; simpl.
  - apply dom_alter_L.
  - intros b e'. rewrite lookup_alter. case_decide as Hb.
    + subst b. destruct (fm_entries m !! a) as [e|]; [|done]. intros [= <-]. exists e. split; [done|]. split; [done|].
      intros k p Hp. exists p. eauto.
    + intros He. exists e'. split; [done|]. split; [by destruct e' | done].
Qed.

Lemma begin_ok now c m a new_added m' pend log :
  fm_ok (mkWorld m pend log) -> add_begin fl now c m = Done (Ok (a, new_added), m') ->
  fm_ok (mkWorld m' ((a, new_added, c) :: pend) log).
Proof.
  intros [He Hn Hp Hc] E. simpl in *. unfold add_begin in E. apply bind_Done in E as (i & Hi & E).
  destruct (negb (check_network_in_whitelist fl (network_name i)) && _); [done|].
  apply bind_Done in E as (dst & Hd & E). unfold get_or_insert_entry in E.
  destruct (network_peer_maps m !! network_name i) as [b|] eqn:Eb; simplify_eq/=.
  - split; simpl.
    + intros b e Hb. destruct (He b e Hb) as [Hlt Hok]. split; [done|].
      eapply entry_ok_mono; [done | by destruct e | done | done | done].
    + rewrite insert_id by done. done.
    + intros x [->|Hx]%elem_of_cons; [|by apply Hp]. destruct (Hn _ _ Eb) as (e & Hb & _). by eapply elem_of_dom_2.
    + done.
  - unfold entry_new in E. destruct (get_or_create _ _ _) as [k bm]. simplify_eq/=.
    assert (forall e, fm_entries m !! fm_next m = Some e -> False) as Hfresh by (intros e Hb; destruct (He _ e Hb); lia).
    assert (fm_next m ∉ creating pend) as Hnc.
    { intros Hin. apply list_elem_of_omap in Hin as ([[b nw] x] & Hin & Ex). simpl in Ex.
      destruct nw; [|done]. injection Ex as ->. specialize (Hp _ Hin). apply elem_of_dom in Hp as [e Hb]. by eapply Hfresh. }
    split; simpl.
    + intros b e. destruct (decide (b = fm_next m)) as [->|Hne].
      * rewrite lookup_insert_eq. intros [= <-]. split; [lia|]. split; simpl; [done|].
        intros peer p Hpp. by rewrite lookup_empty in Hpp.
      * rewrite lookup_insert_ne by done. intros Hb. destruct (He b e Hb) as [Hlt Hok]. split; [lia|].
        eapply entry_ok_mono; [done | by destruct e | done | | done]. simpl. by intros [->|]%elem_of_cons.
    + intros name b. destruct (decide (name = network_name i)) as [->|Hne].
      * rewrite lookup_insert_eq. intros [= <-]. rewrite lookup_insert_eq. by eexists.
      * rewrite lookup_insert_ne by done. intros Hb. destruct (Hn name b Hb) as (e & Hb' & Hname). exists e.
        split; [|done]. rewrite lookup_insert_ne; [done|]. intros <-. by eapply Hfresh.
    + intros x [->|Hx]%elem_of_cons; simpl; [set_solver|]. specialize (Hp x Hx). set_solver.
    + by constructor.
Qed.

Lemma creating_remove pend1 a nw c pend2 :
  creating (pend1 ++ (a, nw, c) :: pend2) ≡ₚ (if (nw : bool) then [a] else []) ++ creating (pend1 ++ pend2).
Proof.
  unfold creating. rewrite !omap_app. simpl. destruct nw; simpl; [|done]. symmetry. by apply Permutation_middle.
Qed.

(** Fewer connections to be added. *)
Lemma pending_ok m pend1 a nw c pend2 log :
  fm_ok (mkWorld m (pend1 ++ (a, nw, c) :: pend2) log) -> fm_ok (mkWorld m (pend1 ++ pend2) log).
Proof.
  intros [He Hn Hp Hc]. pose proof (creating_remove pend1 a nw c pend2) as Hcr. simpl in *. split; simpl; [|done| |].
  - intros b e Hb. destruct (He b e Hb) as [Hlt Hok]. split; [done|].
    eapply entry_ok_mono; [exact Hok | by destruct e | reflexivity | | reflexivity]. rewrite Hcr. set_solver.
  - intros x Hx. apply Hp. set_solver.
  - rewrite Hcr in Hc. apply NoDup_app in Hc. tauto.
Qed.

Lemma add_conn_peers dst id c pm pm' : add_new_peer_conn dst id c pm = Done pm' ->
  peer_map pm' = <[dst := peer_add_conn id c (default (peer_new dst) (peer_map pm !! dst))]> (peer_map pm).
Proof.
  unfold add_new_peer_conn, add_conn_check, add_conn_commit. simpl. intros E.
  destruct (peer_map pm !! dst) as [p|]; simpl in *; by simplify_eq/=.
Qed.

Lemma direct_add id c p : (size (get_directly_connections (peer_add_conn id c p)) <= S (size (get_directly_connections p)))%nat.
Proof.
  etrans; [apply subseteq_size with (Y := {[id]} ∪ get_directly_connections p)|].
  - intros j. unfold get_directly_connections. rewrite elem_of_union, elem_of_singleton, !elem_of_dom.
    intros [d Hd]. apply retain_Some in Hd as [Hd Hh]. simpl in Hd. destruct (decide (j = id)) as [->|Hne]; [by left|].
    right. exists d. apply retain_Some. split; [|done]. by rewrite lookup_insert_ne in Hd.
  - rewrite size_union_alt, size_singleton. assert (size (get_directly_connections p ∖ {[id]}) <= size (get_directly_connections p))%nat
      by (apply subseteq_size; set_solver). lia.
Qed.

Lemma stored_ok a new_added c m e dst pm i m' pend1 pend2 log :
  fm_ok (mkWorld m (pend1 ++ (a, new_added, c) :: pend2) log) -> fm_entries m !! a = Some e ->
  conn_get_network_identity (nc_conn c) = Done i -> identity_eq (fe_network e) i = Done true ->
  fe_my_peer_id e = conn_my_peer_id (nc_conn c) -> conn_get_peer_id (nc_conn c) = Done dst ->
  add_new_peer_conn dst (nc_id c) (nc_link c) (fe_peer_map e) = Done pm ->
  (new_added = false -> forall p, peer_map (fe_peer_map e) !! dst = Some p ->
     (size (get_directly_connections p) < max_direct_conns fl)%nat) ->
  fm_entries m' = <[a := with_peer_map pm e]> (fm_entries m) -> fm_next m' = fm_next m ->
  network_peer_maps m' = network_peer_maps m ->
  fm_ok (mkWorld m' (pend1 ++ pend2) ((a, c) :: log)).
Proof.
  intros Hok Ha Hi Hid Hmy Hdst Hpm Hroom Ee En Em. pose proof (pending_ok _ _ _ _ _ _ _ Hok) as [He Hn Hp Hc].
  apply add_conn_peers in Hpm. destruct Hok as [He0 _ _ Hc0]. simpl in *.
  split; simpl; rewrite ?Ee, ?En, ?Em; [| | |done].
  2: { intros name b Hb. destruct (Hn name b Hb) as (e1 & Hb1 & Hname). destruct (decide (b = a)) as [->|Hne].
       - rewrite lookup_insert_eq. eexists. split; [reflexivity|]. by simplify_eq.
       - rewrite lookup_insert_ne by done. by exists e1. }
  2: { intros x Hx. specialize (Hp x Hx). set_solver. }
  intros b e1. destruct (decide (b = a)) as [->|Hne].
  2: { rewrite lookup_insert_ne by done. intros Hb. destruct (He b e1 Hb) as [Hlt Hok1]. split; [done|].
       eapply entry_ok_mono; [exact Hok1 | by destruct e1 | reflexivity | done | set_solver]. }
  rewrite lookup_insert_eq. intros [= <-]. destruct (He a e Ha) as [Hlt [Hrel Hpeers]]. split; [done|].
  split; [done|]. simpl. rewrite Hpm. intros peer p. destruct (decide (peer = dst)) as [->|Hpd].
  2: { rewrite lookup_insert_ne by done. intros Hpp. destruct (Hpeers peer p Hpp) as [Hsz Had]. split; [done|].
       intros id Hsome. destruct (Had id Hsome) as (n & j & Hin & Hrest). exists n, j. split; [by right | done]. }
  rewrite lookup_insert_eq. intros [= <-]. split.
  - etrans; [apply direct_add|]. destruct (He0 a e Ha) as [_ [_ Hpeers0]]. unfold direct_limit in *.
    destruct (peer_map (fe_peer_map e) !! dst) as [p|] eqn:Ep; simpl.
    + destruct new_added.
      * destruct (Hpeers0 dst p Ep) as [Hsz _]. pose proof (creating_remove pend1 a true c pend2) as Hcr. rewrite Hcr in Hc0.
        assert (a ∈ creating (pend1 ++ (a, true, c) :: pend2)) as Hin by (rewrite Hcr; by left).
        rewrite (decide_True _ _ Hin) in Hsz. apply NoDup_cons in Hc0 as [Hnin _].
        rewrite (decide_False _ _ Hnin). lia.
      * specialize (Hroom eq_refl p eq_refl). lia.
    + assert (size (get_directly_connections (peer_new dst)) = 0%nat) as -> by done. lia.
  - intros id Hsome. simpl in Hsome. destruct (decide (id = nc_id c)) as [->|Hne].
    + exists c, i. split; [by left | done].
    + rewrite lookup_insert_ne in Hsome by done. destruct (peer_map (fe_peer_map e) !! dst) as [p|] eqn:Ep; simpl in Hsome.
      * destruct (Hpeers dst p Ep) as [_ Had]. destruct (Had id Hsome) as (n & j & Hin & Hrest). exists n, j.
        split; [by right | done].
      * rewrite lookup_empty in Hsome. by destruct Hsome.
Qed.

Lemma finish_ok a new_added c m r m' pend1 pend2 log :
  fm_ok (mkWorld m (pend1 ++ (a, new_added, c) :: pend2) log) -> add_finish fl a new_added c m = Done (r, m') ->
  fm_ok (mkWorld m' (pend1 ++ pend2) (match r with Ok _ => (a, c) :: log | Err _ => log end)).
Proof.
  intros Hok E. unfold add_finish in E. apply bind_Done in E as (e & Ha & E). apply unwrap_Done in Ha.
  apply bind_Done in E as (i & Hi & E). apply bind_Done in E as (same & Hsame & E).
  destruct (negb same || _) eqn:Ebad.
  { injection E as <- <-. eapply fm_quiet_ok; [by eapply pending_ok|]. destruct new_added; [apply remove_network_quiet | done]. }
  apply orb_false_iff in Ebad as [Es Eid]. apply negb_false_iff in Es, Eid. subst same. apply Z.eqb_eq in Eid.
  apply bind_Done in E as (dst & Hd & E).
  destruct (negb new_added && _) eqn:Efull; [injection E as <- <-; by eapply pending_ok|].
  apply bind_Done in E as (m1 & Eadd & E). injection E as <- <-. unfold entry_add_conn in Eadd.
  apply bind_Done in Eadd as (pm & Hpm & Eadd). injection Eadd as <-.
  eapply stored_ok; [exact Hok | exact Ha | exact Hi | exact Hsame | exact Eid | exact Hd | exact Hpm | | | |].
  - intros -> p Hp. rewrite Hp in Efull. simpl in Efull. apply Nat.leb_gt in Efull. done.
  - destruct (bool_decide _), new_added; done.
  - destruct (bool_decide _), new_added; done.
  - destruct (bool_decide _), new_added; done.
Qed.

Lemma drop_ok a m pend log : (forall name, network_peer_maps m !! name <> Some a) -> a ∉ (fun x => x.1.1) <$> pend ->
  fm_ok (mkWorld m pend log) -> fm_ok (mkWorld (drop_entry a m) pend log).
Proof.
  intros Hmap Hpend Hok. unfold drop_entry. destruct (fm_entries m !! a) as [e0|]; [|done].
  destruct Hok as [He Hn Hp Hc]. simpl in *. split; simpl; [| | |done].
  - intros b e Hb. apply lookup_delete_Some in Hb as [_ Hb]. by apply He.
  - intros name b Hb. destruct (Hn name b Hb) as (e & Hb' & Hname). exists e. split; [|done].
    rewrite lookup_delete_ne; [done|]. intros ->. by eapply Hmap.
  - intros x Hx. rewrite dom_delete_L. apply elem_of_difference. split; [by apply Hp|]. intros Ex%elem_of_singleton.
    apply Hpend. apply list_elem_of_fmap. by exists x.
Qed.

Lemma fm_reachable_ok w : fm_reachable w -> fm_ok w.
Proof.
  induction 1 as [|w w' _ IH Hs].
  { split; simpl; [intros a e Ha; by rewrite lookup_empty in Ha | intros n a Ha; by rewrite lookup_empty in Ha | set_solver | constructor]. }
  destruct Hs; [by eapply begin_ok | | by eapply finish_ok | | | by apply drop_ok | ..]; (eapply fm_quiet_ok; [exact IH|]).
  - apply entry_prepare_quiet.
  - apply take_event_quiet.
  - apply handler_exit_quiet.
  - by eapply entry_conn_closed_quiet.
  - apply entry_listen_quiet.
  - by eapply entry_recv_quiet.
  - apply send_msg_to_peer_quiet.
  - apply close_in_networks_quiet.
  - apply (list_networks_quiet _ (∅, m)).
  - by apply quiet_same.
Qed.

(** Data of a peer leads to nothing when the entry does not relay it. *)
Lemma entry_recv_no_data m a e p h : fm_entries m !! a = Some e -> fe_relay_data e = false ->
  peer_manager_header p = Done (Some h) -> is_compressed_type (pm_packet_type h) = true -> entry_recv junk p a m = Done (m, []).
Proof.
  intros He Hr Hp Ht. unfold entry_recv. rewrite He. cbn [mbind outcome_bind unwrap]. rewrite Hp. cbn [mbind outcome_bind].
  assert (is_rpc_type (pm_packet_type h) = false) as ->.
  { unfold is_compressed_type in Ht. unfold is_rpc_type. repeat (apply orb_true_iff in Ht as [Ht|Ht]); apply Z.eqb_eq in Ht; by rewrite Ht. }
  unfold may_relay. rewrite Ht, Hr. by case_match.
Qed.

(** What another relay hands over is sent on without a look at the whitelist. *)
Lemma handed_over_not_checked name dst msg m a e : network_peer_maps m !! name = Some a -> fm_entries m !! a = Some e ->
  (send_msg_to_peer name dst msg m).2 = (send_msg msg dst LeastHop (fe_peer_map e)).2.
Proof. intros Ha He. unfold send_msg_to_peer. rewrite Ha. cbn [mbind option_bind]. rewrite He. cbn [mbind option_bind]. by destruct (send_msg _ _ _ _) as [[? ?] ?]. Qed.

(** C10.  However the additions of connections, the events and the packets of a relay
    interleave: a network's name leads to the entry of that network; every
    connection an entry holds has presented the name and secret digest of the
    entry's network and was told the entry's peer id; data that the peers of a network that
    is not on the whitelist send to its entry leads to nothing; and a peer has at most one direct
    connection more than the limit (that one more when the connection that
    created the entry is stored last).  Data that another relay hands over for such a network is not covered:
    it is sent on ([handed_over_not_checked]). *)
Theorem foreign_networks_isolated (w : fm_world) (a : nat) (e : ForeignNetworkEntry) (peer : PeerId) (p : Peer)
    (Hr : fm_reachable w) (Ha : fm_entries (w_mgr w) !! a = Some e) (Hp : peer_map (fe_peer_map e) !! peer = Some p) :
  (forall name b, network_peer_maps (w_mgr w) !! name = Some b ->
     exists e', fm_entries (w_mgr w) !! b = Some e' /\ fe_name e' = name) /\
  (check_network_in_whitelist fl (fe_name e) = false -> forall q h, peer_manager_header q = Done (Some h) ->
     is_compressed_type (pm_packet_type h) = true -> entry_recv junk q a (w_mgr w) = Done (w_mgr w, [])) /\
  (size (get_directly_connections p) <= Nat.max 1 (max_direct_conns fl) + 1)%nat /\
  forall id, is_Some (conns p !! id) -> exists c i, (a, c) ∈ w_log w /\ nc_id c = id /\
    conn_get_peer_id (nc_conn c) = Done peer /\ conn_get_network_identity (nc_conn c) = Done i /\
    identity_eq (fe_network e) i = Done true /\ fe_my_peer_id e = conn_my_peer_id (nc_conn c).
Proof.
  destruct (fm_reachable_ok w Hr) as [He Hn _ _]. destruct (He a e Ha) as [_ [Hrel Hpeers]].
  destruct (Hpeers peer p Hp) as [Hsz Had]. split_and!; [done | | | exact Had].
  { intros Hwl q h Hq Ht. eapply entry_recv_no_data; [done| |done..]. destruct (fe_relay_data e); [|done]. by rewrite Hrel in Hwl. }
  etrans; [exact Hsz|]. unfold direct_limit. case_decide; lia.
Qed.
End reachable.

(** ** Between relays *)

(** What the encoder makes of a decoded character of two, three or four bytes. *)
Ltac solve_char :=
  unfold utf8_char; repeat match goal with
  | |- context [?a <? ?b] => destruct (Z.ltb_spec a b); try (exfalso; Z.div_mod_to_equations; lia)
  end; repeat f_equal; Z.div_mod_to_equations; lia.

Lemma utf8_char2 b0 b1 : 194 <= b0 <= 223 -> 128 <= b1 <= 191 -> utf8_char ((b0 - 192) * 64 + (b1 - 128)) = [b0; b1].
Proof. intros. solve_char. Qed.

Lemma utf8_char3 b0 b1 b2 : 224 <= b0 <= 239 -> 128 <= b1 <= 191 -> 128 <= b2 <= 191 -> (b0 = 224 -> 160 <= b1) ->
  utf8_char ((b0 - 224) * 4096 + (b1 - 128) * 64 + (b2 - 128)) = [b0; b1; b2].
Proof. intros. solve_char. Qed.

Lemma utf8_char4 b0 b1 b2 b3 : 240 <= b0 <= 244 -> 128 <= b1 <= 191 -> 128 <= b2 <= 191 -> 128 <= b3 <= 191 ->
  (b0 = 240 -> 144 <= b1) ->
  utf8_char ((b0 - 240) * 262144 + (b1 - 128) * 4096 + (b2 - 128) * 64 + (b3 - 128)) = [b0; b1; b2; b3].
Proof. intros. solve_char. Qed.

(** Decoding a valid name and encoding it again. *)
Lemma utf8_decode_encode l : utf8_valid l = true -> SyncedRoute.as_bytes (utf8_decode l) = l.
Proof.
  remember (length l) as n eqn:Hn. revert l Hn. induction n as [n IH] using lt_wf_ind.
  assert (forall c pre rest, utf8_char c = pre -> pre <> [] -> (n = length pre + length rest)%nat -> utf8_valid rest = true ->
    SyncedRoute.as_bytes (c :: utf8_decode rest) = pre ++ rest) as Hstep.
  { intros c pre rest Hc Hne Hn Hv. unfold SyncedRoute.as_bytes. cbn [fmap list_fmap concat]. rewrite Hc. f_equal.
    destruct pre; [done|]. eapply (IH (length rest)); [simpl in Hn; lia | done | done]. }
  intros [|b0 l1] -> Hv; [done|]. cbn [utf8_valid] in Hv. cbn [utf8_decode]. unfold between in Hv.
  destruct (Z.ltb_spec b0 128).
  { apply (Hstep b0 [b0]); try done. unfold utf8_char. by rewrite (proj2 (Z.ltb_lt b0 (2 ^ 7))) by lia. }
  destruct ((194 <=? b0) && (b0 <=? 223)) eqn:E2.
  { destruct l1 as [|b1 l2]; [done|]. rewrite (proj2 (Z.ltb_lt b0 224)) by lia. apply andb_true_iff in Hv as [Hb Hv].
    apply (Hstep _ [b0; b1]); try done. apply utf8_char2; lia. }
  destruct ((224 <=? b0) && (b0 <=? 239)) eqn:E3.
  { destruct l1 as [|b1 [|b2 l3]]; [done | done |]. rewrite (proj2 (Z.ltb_ge b0 224)), (proj2 (Z.ltb_lt b0 240)) by lia.
    rewrite !andb_true_iff in Hv. destruct Hv as [[[Hb1 Hb1'] [Hb2 Hb2']] Hv].
    apply (Hstep _ [b0; b1; b2]); try done.
    apply utf8_char3; destruct (Z.eqb_spec b0 224), (Z.eqb_spec b0 237); lia. }
  destruct ((240 <=? b0) && (b0 <=? 244)) eqn:E4; [|done].
  destruct l1 as [|b1 [|b2 [|b3 l4]]]; try done. rewrite (proj2 (Z.ltb_ge b0 224)), (proj2 (Z.ltb_ge b0 240)) by lia.
  rewrite !andb_true_iff in Hv. destruct Hv as [[[[Hb1 Hb1'] [Hb2 Hb2']] [Hb3 Hb3']] Hv].
  apply (Hstep _ [b0; b1; b2; b3]); try done.
  apply utf8_char4; destruct (Z.eqb_spec b0 240), (Z.eqb_spec b0 244); lia.
Qed.

Section relays.
Context `{Zstd} `{PacketAcl A} (junk : nat -> Z) (Hjunk : forall i, is_byte (junk i)).
Context `{!IterOrder PeerConnId Conn, !IterOrder PeerId Peer, !IterOrder PeerId PeerId}.

(** The receive task of a node whose foreign networks are [f]. *)
Definition node_recv (f : ForeignNetworkManager) (ck : Clock) (fresh : bytes) (p : ZCPacket) (m : PeerManager A)
    : outcome (PeerManager A * list action) :=
  let F : ForeignManager := fm_foreign_manager f in peer_recv ck fresh p m.

(** The relay a packet with header [h] comes to: its entry may relay it and has
    a route through [g], which is the identity of node [next] in this network. *)
Record sending_relay (h : PeerManagerHeader) (g next : PeerId) (f : ForeignNetworkManager) a e (m : PeerManager A) : Prop := {
  sr_entry : fm_entries f !! a = Some e;
  sr_named : network_peer_maps f !! fe_name e = Some a;
  sr_name : utf8_valid (fe_name e) = true /\ len (fe_name e) + 10 < 2 ^ 16;
  sr_ids : in_width 32 (fe_my_peer_id e) /\ in_width 32 g /\ in_width 32 next;
  sr_other : to_peer_id h <> fe_my_peer_id e;
  sr_relay : (may_relay h e f).1 = true;
  sr_gateway : get_gateway_peer_id (to_peer_id h) LeastHop (fe_peer_map e) = Some g;
  sr_remote : has_peer g (fe_peer_map e) = false;
  sr_not_me : g <> mgr_my_peer_id m;
  sr_origin : pmap_origin_my_peer_id (utf8_decode (fe_name e)) g (peers m) = Some next;
  sr_reaches : reaches (peers m) next
}.

(** The relay the destination [y] is connected to. *)
Record receiving_relay name (me y : PeerId) (f : ForeignNetworkManager) (m : PeerManager A) : Prop := {
  rr_me : mgr_my_peer_id m = me;
  rr_entry : exists a e, network_peer_maps f !! name = Some a /\ fm_entries f !! a = Some e /\ reaches (fe_peer_map e) y
}.

Lemma entry_wraps p pre h body g next f a e (m : PeerManager A) : sending_relay h g next f a e m ->
  laid_out p pre h body -> len body < MAX_TEXT ->
  exists f' w pre' h', entry_recv junk p a f = Done (f', [ToManager w]) /\ fm_entries f' = fm_entries f /\
    network_peer_maps f' = network_peer_maps f /\
    laid_out w pre' h' (as_bytes (foreign_header_new (to_peer_id h) (fe_name e)) ++ fe_name e ++ as_bytes h ++ body) /\
    pm_packet_type h' = packet_type_u8 PktForeignNetworkPacket /\ from_peer_id h' = fe_my_peer_id e /\ to_peer_id h' = g.
Proof.
  intros [He Hn [Hutf Hlen] (Hme & Hg & _) Hother Hrel Hgw Hrem _ _ _] Hl Hbody. unfold entry_recv. rewrite He.
  cbn [mbind outcome_bind unwrap]. rewrite (layout_header _ _ _ _ Hl). cbn [mbind outcome_bind].
  rewrite (proj2 (Z.eqb_neq _ _) Hother). destruct (may_relay_buckets h e f) as (b & Hb).
  destruct (may_relay h e f) as [ok f1]. simpl in Hrel, Hb. subst ok f1. cbn [negb]. rewrite Hgw, Hrem.
  assert (in_width 32 (to_peer_id h)) as Hto by apply Hl. unfold wrap_for_manager.
  destruct (new_for_foreign_network_layout junk (fe_name e) (to_peer_id h) p _ Hjunk Hlen Hto (layout_tunnel_payload _ _ _ _ Hl))
    as (w0 & pre0 & h0 & -> & _ & _ & Hl0). cbn [mbind outcome_bind].
  destruct (fill_hdr_layout w0 pre0 h0 _ (fe_my_peer_id e) g (packet_type_u8 PktForeignNetworkPacket) Hl0) as (w & -> & _ & Hlw);
    [|done|done|vm_compute; split; congruence|].
  - rewrite !len_app, fn_header_len_bytes, pm_header_len. unfold MAX_TEXT in Hbody. lia.
  - cbn [mbind outcome_bind]. eexists _, w, pre0, _. split; [reflexivity|]. do 2 (split; [done|]). split; [exact Hlw|]. done.
Qed.

Lemma relay_passes_on ck fresh w pre h' fb g next f a e (m : PeerManager A) h : sending_relay h g next f a e m ->
  laid_out w pre h' (as_bytes (foreign_header_new (to_peer_id h) (fe_name e)) ++ fe_name e ++ fb) -> in_width 32 (to_peer_id h) ->
  pm_packet_type h' = packet_type_u8 PktForeignNetworkPacket -> from_peer_id h' = fe_my_peer_id e -> to_peer_id h' = g ->
  exists (m' : PeerManager A) id q, node_recv f ck fresh w m = Done (m', [SendPeer (ToConn next id q)]) /\
    laid_out q pre (with_to_peer next h') (as_bytes (foreign_header_new (to_peer_id h) (fe_name e)) ++ fe_name e ++ fb).
Proof.
  intros [He Hn [Hutf Hlen] (_ & _ & Hnext) _ _ _ _ Hnot Hor Hre] Hl Hto Ht Hfrom Hg.
  destruct (foreign_layout_unwrap _ _ _ _ _ _ Hl Ht Hutf Hlen Hto) as (Hfh & Hname & Hd & _).
  destruct (layout_mut_header _ _ _ _ Hl) as (put & Hm & Hput).
  destruct (Hput (with_to_peer next h')) as [Hlq _]; [apply with_to_peer_range; [done | apply Hl]|].
  unfold node_recv, peer_recv, try_handle_foreign_network_packet. rewrite (layout_pm_header _ _ _ _ Hl).
  cbn [mbind outcome_bind]. rewrite Ht, Z.eqb_refl. cbn [negb]. rewrite Hfh. cbn [mbind outcome_bind unwrap].
  rewrite (layout_payload _ _ _ _ Hl). cbn [mbind outcome_bind]. rewrite Hname. cbn [mbind outcome_bind].
  rewrite Hg, (proj2 (Z.eqb_neq _ _) Hnot). cbn [get_network_peer_id fm_foreign_manager].
  rewrite utf8_decode_encode by done. unfold fm_network_peer_id. rewrite Hn. simpl. rewrite He. simpl.
  rewrite Hfrom, bool_decide_eq_true_2 by done. rewrite Hor. unfold update_header. rewrite Hm.
  cbn [mbind outcome_bind unwrap]. unfold send_msg, count_foreign, count, set_counters. cbn [peers].
  rewrite (reaches_gateway _ _ Hre). destruct (reaches_sends (put (with_to_peer next h')) _ _ Hre) as (id & pm' & ->).
  eexists _, id, _. split; [reflexivity | exact Hlq].
Qed.

Lemma relay_unwraps ck fresh q pre h' fb me y f (m : PeerManager A) name : receiving_relay name me y f m ->
  laid_out q pre h' (as_bytes (foreign_header_new y name) ++ name ++ fb) -> in_width 32 y ->
  utf8_valid name = true -> len name + 10 < 2 ^ 16 ->
  pm_packet_type h' = packet_type_u8 PktForeignNetworkPacket -> to_peer_id h' = me ->
  exists (m' : PeerManager A), node_recv f ck fresh q m = Done (m', [ToForeignManager (utf8_decode name) y (new_from_buf fb DummyTunnel)]) /\
  exists f' id, send_msg_to_peer (SyncedRoute.as_bytes (utf8_decode name)) y (new_from_buf fb DummyTunnel) f =
    (Ok tt, f', [ToConn y id (new_from_buf fb DummyTunnel)]).
Proof.
  intros [Hme (a & e & Hn & He & Hre)] Hl Hy Hutf Hlen Ht Hto.
  destruct (foreign_layout_unwrap _ _ _ _ _ _ Hl Ht Hutf Hlen Hy) as (Hfh & Hname & Hd & Hin).
  unfold node_recv, peer_recv, try_handle_foreign_network_packet. rewrite (layout_pm_header _ _ _ _ Hl).
  cbn [mbind outcome_bind]. rewrite Ht, Z.eqb_refl. cbn [negb]. rewrite Hfh. cbn [mbind outcome_bind unwrap].
  rewrite (layout_payload _ _ _ _ Hl). cbn [mbind outcome_bind]. rewrite Hname. cbn [mbind outcome_bind].
  rewrite Hto, Hme, Z.eqb_refl, Hin, Hd. cbn [mbind outcome_bind]. eexists. split; [reflexivity|].
  rewrite utf8_decode_encode by done. unfold send_msg_to_peer. rewrite Hn. simpl. rewrite He. simpl. unfold send_msg.
  rewrite (reaches_gateway _ _ Hre). destruct (reaches_sends (new_from_buf fb DummyTunnel) _ _ Hre) as (id & pm' & ->). eauto.
Qed.

(** C11.  A packet between two peers of a foreign network that are connected to
    different relays: the entry of the first wraps it, its node replaces the
    other relay's identity in that network by its own and sends it there, in
    whatever framing, and the entry of the second sends it to the destination,
    header and payload as they were. *)
Theorem foreign_relay_delivery (ck ck2 : Clock) (fresh fresh2 : bytes) (p : ZCPacket) (pre body : bytes)
    (h : PeerManagerHeader) (g next : PeerId) (f f2 : ForeignNetworkManager) (a : nat) (e : ForeignNetworkEntry)
    (m m2 : PeerManager A) (Hs : sending_relay h g next f a e m)
    (Hr : receiving_relay (fe_name e) next (to_peer_id h) f2 m2)
    (Hl : laid_out p pre h body) (Hlen : len body < MAX_TEXT) :
  exists f' w (m' : PeerManager A) id q, entry_recv junk p a f = Done (f', [ToManager w]) /\
    node_recv f' ck fresh w m = Done (m', [SendPeer (ToConn next id q)]) /\
    forall q', delivered q q' -> exists (m2' : PeerManager A) inner pre', laid_out inner pre' h body /\
      node_recv f2 ck2 fresh2 q' m2 = Done (m2', [ToForeignManager (utf8_decode (fe_name e)) (to_peer_id h) inner]) /\
      exists f2' id2, send_msg_to_peer (SyncedRoute.as_bytes (utf8_decode (fe_name e))) (to_peer_id h) inner f2 =
        (Ok tt, f2', [ToConn (to_peer_id h) id2 inner]).
Proof.
  destruct (entry_wraps _ _ _ _ _ _ _ _ _ _ Hs Hl Hlen) as (f' & w & pre1 & h1 & E & Ef & En & Hlw & Ht & Hfrom & Hto).
  assert (in_width 32 (to_peer_id h)) as Hy by apply Hl.
  assert (node_recv f' ck fresh w m = node_recv f ck fresh w m) as Hsame.
  { unfold node_recv. f_equal. unfold fm_foreign_manager, fm_network_peer_id. by rewrite Ef, En. }
  destruct (relay_passes_on ck fresh _ _ _ _ _ _ _ _ _ _ _ Hs Hlw Hy Ht Hfrom Hto) as (m' & id & q & Eq & Hlq).
  exists f', w, m', id, q. split; [done|]. split; [by rewrite Hsame|]. intros q' Hd.
  destruct (delivered_layout _ _ _ _ _ Hd Hlq) as (pre2 & Hlq').
  destruct Hs as [_ _ [Hutf Hn] _ _ _ _ _ _ _ _].
  destruct (relay_unwraps ck2 fresh2 _ _ _ _ _ _ _ _ _ Hr Hlq' Hy Hutf Hn Ht eq_refl) as (m2' & E2 & Hsend).
  exists m2', (new_from_buf (as_bytes h ++ body) DummyTunnel), []. split; [|done]. split_and!; [done | done | apply Hl].
Qed.
End relays.

(** ** Defects *)

Section defects.
Context `{WildMatch} `{Hasher64} (fl : ForeignFlags).
Context `{!IterOrder PeerConnId Conn, !IterOrder PeerId Peer}.

(** A peer that presents another secret for a known network is turned away, but
    stays listed as a peer of that network, and every attempt renews the
    network's last-update time. *)
Theorem rejected_peer_stays_listed (now : Z) (route : Route) (c : NewConn) (m : ForeignNetworkManager) (a : nat)
    (e : ForeignNetworkEntry) (i : NetworkIdentity) (dst : PeerId)
    (Hi : conn_get_network_identity (nc_conn c) = Done i) (Hd : conn_get_peer_id (nc_conn c) = Done dst)
    (Hw : check_network_in_whitelist fl (network_name i) = true)
    (Hn : network_peer_maps m !! network_name i = Some a) (He : fm_entries m !! a = Some e)
    (Hother : identity_eq (fe_network e) i = Done false) :
  exists err m', add_peer_conn fl now route c m = Done (Err err, m') /\ fm_entries m' = fm_entries m /\
    network_name i ∈ default ∅ (peer_network_map m' !! dst) /\
    get_foreign_network_last_update (network_name i) m' = Some now.
Proof.
  unfold add_peer_conn, add_begin. rewrite Hi. cbn [mbind outcome_bind]. rewrite Hw. cbn [negb andb].
  rewrite Hd. cbn [mbind outcome_bind]. unfold get_or_insert_entry. rewrite Hn. cbn [mbind outcome_bind].
  unfold add_finish. cbn [fm_entries set_maps]. rewrite He. cbn [mbind outcome_bind unwrap]. rewrite Hi.
  cbn [mbind outcome_bind]. rewrite Hother. cbn [mbind outcome_bind negb orb]. do 2 eexists. split; [reflexivity|].
  split; [done|]. cbn [peer_network_map set_maps]. rewrite lookup_upsert, decide_True by done. split.
  - cbn [default]. destruct (peer_network_map m !! dst); set_solver.
  - unfold get_foreign_network_last_update. cbn [network_peer_last_update set_maps]. by rewrite lookup_insert_eq.
Qed.

(** Handling the removal of the last peer removes the network and then stores a
    last-update time for it, which nothing takes away again. *)
Theorem last_update_outlives_network (now : Z) (p : PeerId) (m : ForeignNetworkManager) (a : nat) (e : ForeignNetworkEntry)
    (Hn : network_peer_maps m !! fe_name e = Some a) (He : fm_entries m !! a = Some e)
    (Hempty : peer_map (fe_peer_map e) = ∅) :
  let m' := handle_event now (fe_name e) (PeerRemoved p) m in
  network_peer_maps m' !! fe_name e = None /\ get_foreign_network_last_update (fe_name e) m' = Some now.
Proof.
  unfold handle_event, remove_peer. rewrite Hn. simpl. rewrite He, bool_decide_eq_true_2 by done. simpl.
  rewrite lookup_delete_eq. split; [done|]. unfold get_foreign_network_last_update. simpl. apply lookup_insert_eq.
Qed.
End defects.

(** ** Examples *)

#[local] Instance star_match : WildMatch := {|
  wild_match pattern name := bool_decide (pattern = [42]) || bool_decide (pattern = name) |}.
#[local] Instance sum_hash : Hasher64 := {| hash64 l := as_u64 (sum_list l) |}.
#[local] Existing Instance rle.
#[local] Instance open_acl : PacketAcl unit := {| acl_process _ _ _ _ _ v := Done (true, v) |}.

Definition relay_flags : ForeignFlags :=
  {| relay_network_whitelist := [42]; relay_all_peer_rpc := false; foreign_relay_bps_limit := 100000; max_direct_conns := 3 |}.
Definition net_name : bytes := [110; 101; 116].
Definition net_conn (peer my secret id : Z) : NewConn := {|
  nc_conn := with_info {| hs_magic := MAGIC; hs_my_peer_id := peer; hs_version := VERSION; hs_features := [];
                          hs_network_name := net_name; network_secret_digrest := replicate 32 secret |} false
               (peer_conn_new my {| network_name := []; network_secret := None; network_secret_digest := None |});
  nc_id := id; nc_link := open_conn 5 |}.

(** A route that knows peer 8 behind relay 41 and that 41 is node 2. *)
Definition net_route : Route := {|
  route_next_hop d _ := if d =? 8 then Some 41 else None; route_list := []; route_by_ip _ := None;
  route_peer_info _ := None; route_origin_my_peer_id _ p := if p =? 41 then Some 2 else None; route_owners _ := [] |}.

Definition done_or {A} (d : A) (o : outcome A) : A := match o with Done x => x | Panicked _ => d end.
Definition joined (peer my secret id : Z) m : ForeignNetworkManager :=
  (done_or (Ok tt, m) (add_peer_conn relay_flags 1 net_route (net_conn peer my secret id) m)).2.
Definition one_network : ForeignNetworkManager := joined 7 40 1 11 fm_new.

Lemma one_network_reachable :
  fm_reachable relay_flags (fun _ => 0) (mkWorld one_network [] [(0%nat, net_conn 7 40 1 11)]).
Proof.
  eapply fr_step; [eapply fr_step; [eapply fr_step; [apply fr_new|]|]|].
  - eapply (fs_begin _ _ 1 (net_conn 7 40 1 11)). reflexivity.
  - apply (fs_prepare _ _ net_route 0).
  - apply (fs_finish _ _ 0 true (net_conn 7 40 1 11) _ (Ok tt) one_network [] [] []). vm_compute. reflexivity.
Qed.

Lemma foreign_networks_isolated_witness :
  exists e p, fm_entries one_network !! 0%nat = Some e /\ peer_map (fe_peer_map e) !! 7 = Some p /\
    (size (get_directly_connections p) <= 4)%nat /\
    forall id, is_Some (conns p !! id) -> exists c i, (0%nat, c) ∈ [(0%nat, net_conn 7 40 1 11)] /\ nc_id c = id /\
      conn_get_network_identity (nc_conn c) = Done i /\ identity_eq (fe_network e) i = Done true.
Proof.
  eexists _, _. split; [vm_compute; reflexivity|]. split; [vm_compute; reflexivity|].
  match goal with |- _ /\ forall id, is_Some (conns ?p !! id) -> exists c i, _ /\ _ /\ _ /\ identity_eq (fe_network ?e) i = _ =>
    destruct (foreign_networks_isolated relay_flags (fun _ => 0) _ 0 e 7 p one_network_reachable) as (_ & _ & Hs & Hc)
  end.
  - vm_compute. reflexivity.
  - vm_compute. reflexivity.
  - split; [exact Hs|]. intros id Hid. destruct (Hc id Hid) as (c & i & Hin & E1 & _ & E2 & E3 & _).
    exists c, i. split; [exact Hin|]. split; [exact E1|]. split; [exact E2 | exact E3].
Defined.

Lemma rejected_peer_stays_listed_witness :
  exists err m', add_peer_conn relay_flags 9 net_route (net_conn 8 40 2 12) one_network = Done (Err err, m') /\
    net_name ∈ default ∅ (peer_network_map m' !! 8).
Proof.
  destruct (fm_entries one_network !! 0%nat) as [e|] eqn:He; [|vm_compute in He; discriminate He].
  destruct (rejected_peer_stays_listed relay_flags 9 net_route (net_conn 8 40 2 12) one_network 0 e
              {| network_name := net_name; network_secret := Some []; network_secret_digest := Some (replicate 32 2) |} 8)
    as (err & m' & E & _ & Hin & _).
  - vm_compute. reflexivity.
  - reflexivity.
  - reflexivity.
  - vm_compute. reflexivity.
  - exact He.
  - vm_compute in He. injection He as <-. vm_compute. reflexivity.
  - exists err, m'. split; [exact E | exact Hin].
Defined.

(** Peer 7 of node 1 (relay 40) sends to peer 8 of node 2 (relay 41). *)
Definition net_header : PeerManagerHeader := {|
  from_peer_id := 7; to_peer_id := 8; pm_packet_type := packet_type_u8 PktData; pm_flags := 0;
  forward_counter := 1; reserved := 0; pm_len := 3 |}.
Definition net_packet : ZCPacket := mkZC (as_bytes net_header ++ [1; 2; 3]) DummyTunnel.
Definition relay_node (me next : Z) : PeerManager unit :=
  mkManager _ me [] (mkPeerMap me {[next := peer_add_conn 21 (open_conn 5) (peer_new next)]} [net_route] ∅)
    (peer_map_new me) NullCipher AlgoNone tt None None [] false [] [] ∅.
Definition other_network : ForeignNetworkManager := joined 8 41 1 12 fm_new.

Lemma foreign_relay_delivery_witness :
  exists f' w (m' : PeerManager unit) id q, entry_recv (fun _ => 0) net_packet 0 one_network = Done (f', [ToManager w]) /\
    node_recv f' (sample_clock 9) [] w (relay_node 1 2) = Done (m', [SendPeer (ToConn 2 id q)]) /\
    forall q', delivered q q' -> exists (m2' : PeerManager unit) inner pre', laid_out inner pre' net_header [1; 2; 3] /\
      node_recv other_network (sample_clock 9) [] q' (relay_node 2 1) =
        Done (m2', [ToForeignManager (utf8_decode net_name) 8 inner]).
Proof.
  destruct (fm_entries one_network !! 0%nat) as [e|] eqn:He; [|vm_compute in He; discriminate He].
  assert (fe_name e = net_name) as Hname by (vm_compute in He; injection He as <-; reflexivity).
  destruct (foreign_relay_delivery (fun _ => 0) ltac:(intros i; vm_compute; split; congruence) (sample_clock 9) (sample_clock 9)
              [] [] net_packet [] [1; 2; 3] net_header 41 2 one_network other_network 0 e (relay_node 1 2) (relay_node 2 1))
    as (f' & w & m' & id & q & E1 & E2 & E3).
  - split; try (vm_compute in He; injection He as <-; vm_compute).
    + reflexivity.
    + reflexivity.
    + split; [reflexivity | congruence].
    + repeat split; congruence.
    + discriminate.
    + reflexivity.
    + reflexivity.
    + reflexivity.
    + discriminate.
    + reflexivity.
    + split; [discriminate|]. eexists _, _, _. split; [reflexivity|]. split; [reflexivity|]. split; reflexivity.
  - split; [reflexivity|]. rewrite Hname. eexists _, _. split; [vm_compute; reflexivity|]. split; [vm_compute; reflexivity|].
    split; [vm_compute; discriminate|]. eexists _, _, _. split; [vm_compute; reflexivity|]. split; [reflexivity|]. split; reflexivity.
  - split; [reflexivity|]. split; [reflexivity|]. vm_compute. repeat split; congruence.
  - vm_compute. reflexivity.
  - rewrite Hname in E3. exists f', w, m', id, q. split; [exact E1|]. split; [exact E2|]. intros q' Hq.
    destruct (E3 q' Hq) as (m2' & inner & pre' & Hl & Er & _). exists m2', inner, pre'. split; [exact Hl | exact Er].
Defined.

(** The only connection closes and its peer goes, with it the network; then
    another peer joins, before the first entry's handler has noticed its end. *)
Definition closed_network : ForeignNetworkManager := done_or fm_new (entry_conn_closed 7 11 0 one_network).
Definition emptied : ForeignNetworkManager :=
  foldl (fun m now => take_event now 0 m) (entry_listen 7 0 closed_network) [2; 3; 4; 5].
Definition second_conn : NewConn := net_conn 9 42 1 13.
Definition rejoining : ForeignNetworkManager :=
  (done_or (Err NotInWhitelist, fm_new) (add_begin relay_flags 6 second_conn (drop_entry 0 emptied))).2.
Definition rejoined : ForeignNetworkManager :=
  (done_or (Ok tt, fm_new) (add_finish relay_flags 1 true second_conn (entry_prepare net_route 1 rejoining))).2.

Lemma emptied_reachable :
  fm_reachable relay_flags (fun _ => 0) (mkWorld emptied [] [(0%nat, net_conn 7 40 1 11)]).
Proof.
  assert (fm_reachable relay_flags (fun _ => 0) (mkWorld closed_network [] [(0%nat, net_conn 7 40 1 11)])) as Hr.
  { eapply fr_step; [apply one_network_reachable|]. apply (fs_closed _ _ 7 11 0). vm_compute. reflexivity. }
  eapply fr_step in Hr; [|apply (fs_listen _ _ 7 0)]. unfold emptied. revert Hr.
  generalize (entry_listen 7 0 closed_network). intros m Hr. cbn [foldl].
  eapply fr_step in Hr; [|apply (fs_event _ _ 2 0)]. eapply fr_step in Hr; [|apply (fs_event _ _ 3 0)].
  eapply fr_step in Hr; [|apply (fs_event _ _ 4 0)]. eapply fr_step in Hr; [|apply (fs_event _ _ 5 0)]. exact Hr.
Qed.

Lemma rejoined_reachable : exists log, fm_reachable relay_flags (fun _ => 0) (mkWorld rejoined [] log).
Proof.
  exists [(1%nat, second_conn); (0%nat, net_conn 7 40 1 11)].
  assert (network_peer_maps emptied = ∅) as He by (vm_compute; reflexivity).
  assert (add_begin relay_flags 6 second_conn (drop_entry 0 emptied) = Done (Ok (1%nat, true), rejoining)) as Eb
    by (vm_compute; reflexivity).
  assert (add_finish relay_flags 1 true second_conn (entry_prepare net_route 1 rejoining) = Done (Ok tt, rejoined)) as Ef
    by (vm_compute; reflexivity).
  eapply fr_step; [eapply fr_step; [eapply fr_step; [eapply fr_step; [apply emptied_reachable|]|]|]|].
  - apply (fs_drop _ _ 0); [intros name; by rewrite He, lookup_empty | intros Hin; by apply not_elem_of_nil in Hin].
  - apply (fs_begin _ _ _ _ _ _ _ _ _ _ Eb).
  - apply (fs_prepare _ _ net_route 1).
  - apply (fs_finish _ _ _ _ _ _ _ _ [] [] _ Ef).
Qed.

(** The event handler of an entry that is gone removes the network by name, and
    with it the entry that has taken its place: peer 9 is connected to an entry
    that packets for the network no longer find. *)
Theorem stale_handler_removes_network :
  exists w w', fm_reachable relay_flags (fun _ => 0) w /\ fm_step relay_flags (fun _ => 0) w w' /\
    fm_entries (w_mgr w) !! 0%nat = None /\ network_peer_maps (w_mgr w) !! net_name = Some 1%nat /\
    network_peer_maps (w_mgr w') !! net_name = None /\
    exists e p id c, fm_entries (w_mgr w') !! 1%nat = Some e /\ peer_map (fe_peer_map e) !! 9 = Some p /\
      conns p !! id = Some c /\ is_closed c = false.
Proof.
  destruct rejoined_reachable as [log Hr]. exists (mkWorld rejoined [] log), (mkWorld (handler_exit 0 rejoined) [] log).
  split; [done|]. split; [apply fs_exit|]. split; [vm_compute; reflexivity|]. split; [vm_compute; reflexivity|].
  split; [vm_compute; reflexivity|]. eexists _, _, 13, _. split; [vm_compute; reflexivity|].
  split; [vm_compute; reflexivity|]. split; vm_compute; reflexivity.
Qed.
