(* ===== verification/Admission.v ===== *)
(** Admission of tunnels and what a node tells its route: the rest of
    [easytier/src/peers/peer_manager.rs].

    A [Node] is a peer manager, its foreign networks and the settings admission
    depends on.  [add_tunnel_as_server] is split where other tasks run: the
    check of the remote address and the handshake ([accept_tunnel]), during
    which a peer of another network is given the identity the node has or
    reserves for that network, and the storing of the connection
    ([store_conn]).  [add_client_tunnel] is the other direction.

    The theorems: a tunnel ends in the map of the network whose identity its
    peer presented or is refused without a trace in any map; tunnels of a
    network that is not known yet are given the same identity, so that none of
    them is refused for it; and what a node announces of foreign networks is
    what its entries hold. *)

From stdpp Require Import base numbers list gmap sets.
From Stdlib Require Import ZifyBool.
From S2P Require Import Prelude Text GraphAlgo TokenBucket AclRules AclProcessor AclFilter StatsManager.
From S2P Require Import SyncedRoute RouteTable RouteService PeerMap.
From S2P Require Import PacketDef Compressor Encrypt PeerConn PeerManager ForeignNetwork.
Open Scope Z_scope.

(** ** State *)

Record Node {A : Type} := mkNode {
  nd_mgr : PeerManager A; nd_foreign : ForeignNetworkManager; nd_identity : NetworkIdentity;
  reserved_my_peer_id_map : gmap bytes PeerId; private_mode : bool; allow_loopback_tunnel : bool
}.
Arguments Node : clear implicits.

(** [TunnelInfo::remote_addr] as a [url::Url]: whether its scheme is [ring],
    and the addresses [socket_addrs] resolves it to. *)
Record RemoteUrl := { url_is_ring : bool; url_socket_addrs : option (list IpAddr) }.
Record TunnelInfo := { remote_addr : option RemoteUrl }.

Inductive admission_error :=
| NoTunnelInfo | NoRemoteAddr | FromLoopback | FromVirtualNetwork
| HandshakeError (e : conn_error) | IdentityNotMatch | ForeignError (e : add_error).

Section node.
Context `{WildMatch} `{Hasher64} `{HandshakeCodec} (junk : nat -> Z) (fl : ForeignFlags) {A : Type}.
Context `{!IterOrder PeerConnId Conn, !IterOrder PeerId Peer, !IterOrder bytes unit, !IterOrder bytes nat}.
Implicit Types (n : Node A).

Definition set_mgr (m : PeerManager A) n : Node A :=
  mkNode _ m (nd_foreign n) (nd_identity n) (reserved_my_peer_id_map n) (private_mode n) (allow_loopback_tunnel n).
Definition set_foreign (f : ForeignNetworkManager) n : Node A :=
  mkNode _ (nd_mgr n) f (nd_identity n) (reserved_my_peer_id_map n) (private_mode n) (allow_loopback_tunnel n).
Definition set_reserved (r : gmap bytes PeerId) n : Node A :=
  mkNode _ (nd_mgr n) (nd_foreign n) (nd_identity n) r (private_mode n) (allow_loopback_tunnel n).
Definition set_allow_loopback_tunnel (b : bool) n : Node A :=
  mkNode _ (nd_mgr n) (nd_foreign n) (nd_identity n) (reserved_my_peer_id_map n) (private_mode n) b.

(** ** The remote address *)

Definition check_addr (ip : IpAddr) n : result admission_error unit :=
  if is_loopback ip && negb (allow_loopback_tunnel n) then Err FromLoopback
  else
    let inside := match ip with
                  | V4 a => match my_ipv4 (nd_mgr n) with Some net => inet_contains 32 net a | None => false end
                  | V6 a => match my_ipv6 (nd_mgr n) with Some net => inet_contains 128 net a | None => false end
                  end in
    if inside then Err FromVirtualNetwork else Ok tt.

Fixpoint check_addrs (ips : list IpAddr) n : result admission_error unit :=
  match ips with
  | [] => Ok tt
  | ip :: ips => match check_addr ip n with Ok _ => check_addrs ips n | Err e => Err e end
  end.

Definition check_remote_addr_not_from_virtual_network (info : option TunnelInfo) n : result admission_error unit :=
  match info with
  | None => Err NoTunnelInfo
  | Some info =>
      match remote_addr info with
      | None => Err NoRemoteAddr
      | Some src =>
          if url_is_ring src then Ok tt
          else match url_socket_addrs src with None => Ok tt | Some addrs => check_addrs addrs n end
      end
  end.

(** ** Tunnels from others *)

(** The callback of the handshake; [random] is the peer id drawn if there is
    none for this network. *)
Definition handshake_recved (random : PeerId) n (peer : PeerConn) (msg : HandshakeRequest) (reserved : gmap bytes PeerId)
    : outcome (result conn_error unit * PeerConn * gmap bytes PeerId) :=
  let name := hs_network_name msg in
  if bool_decide (name = network_name (nd_identity n)) then Done (Ok tt, peer, reserved)
  else if private_mode n then Done (Err Rejected, peer, reserved)
  else
    let '(id, reserved) :=
      match fm_network_peer_id name (nd_foreign n) with
      | Some id => (id, reserved)
      | None => let id := default random (reserved !! name) in (id, <[name := id]> reserved)
      end in
    peer ← set_peer_id id peer;
    Done (Ok tt, peer, reserved).

(** The check and the handshake. *)
Definition accept_tunnel (info : option TunnelInfo) (random : PeerId) (stream : list stream_item) (e : StreamEnd)
    (sink_ok : bool) n : outcome (result admission_error PeerConn * Node A * list ZCPacket) :=
  match check_remote_addr_not_from_virtual_network info n with
  | Err err => Done (Err err, n, [])
  | Ok _ =>
      let conn := peer_conn_new (mgr_my_peer_id (nd_mgr n)) (nd_identity n) in
      '(r, conn, sent, reserved) ←
        do_handshake_as_server_ext junk (handshake_recved random n) stream e sink_ok conn (reserved_my_peer_id_map n);
      let n := set_reserved reserved n in
      Done (match r with Ok _ => Ok conn | Err err => Err (HandshakeError err) end, n, sent)
  end.

(** [PeerManager::add_new_peer_conn]. *)
Definition manager_add_new_peer_conn (c : NewConn) n : outcome (result admission_error unit * Node A) :=
  identity ← conn_get_network_identity (nc_conn c);
  same ← identity_eq (nd_identity n) identity;
  if negb same then Done (Err IdentityNotMatch, n)
  else
    peer ← conn_get_peer_id (nc_conn c);
    pm ← add_new_peer_conn peer (nc_id c) (nc_link c) (peers (nd_mgr n));
    Done (Ok tt, set_mgr (set_peers pm (nd_mgr n)) n).

(** The rest of [add_tunnel_as_server]. *)
Definition store_conn (now : Z) (route : Route) (c : NewConn) n : outcome (result admission_error unit * Node A) :=
  identity ← conn_get_network_identity (nc_conn c);
  '(r, n) ← (if bool_decide (network_name identity = network_name (nd_identity n)) then manager_add_new_peer_conn c n
             else '(r, f) ← add_peer_conn fl now route c (nd_foreign n);
                  Done (match r with Ok _ => Ok tt | Err e => Err (ForeignError e) end, set_foreign f n));
  match r with
  | Err e => Done (Err e, n)
  | Ok _ => Done (Ok tt, set_reserved (delete (network_name identity) (reserved_my_peer_id_map n)) n)
  end.

(** Both, when no other task runs in between. *)
Definition add_tunnel_as_server (info : option TunnelInfo) (random : PeerId) (stream : list stream_item) (e : StreamEnd)
    (sink_ok : bool) (now : Z) (route : Route) (id : PeerConnId) (link : Conn) n
    : outcome (result admission_error unit * Node A) :=
  '(r, n, _) ← accept_tunnel info random stream e sink_ok n;
  match r with
  | Err err => Done (Err err, n)
  | Ok conn => store_conn now route {| nc_conn := conn; nc_id := id; nc_link := link |} n
  end.

(** ** Tunnels to others *)

Definition add_client_tunnel (stream : list stream_item) (e : StreamEnd) (sink_ok : bool) (id : PeerConnId) (link : Conn) n
    : outcome (result admission_error (PeerId * PeerConnId) * Node A) :=
  '(r, conn, _) ← do_handshake_as_client junk stream e sink_ok (peer_conn_new (mgr_my_peer_id (nd_mgr n)) (nd_identity n));
  match r with
  | Err err => Done (Err (HandshakeError err), n)
  | Ok _ =>
      peer ← conn_get_peer_id conn;
      identity ← conn_get_network_identity conn;
      if bool_decide (network_name identity = network_name (nd_identity n)) then
        '(r, n) ← manager_add_new_peer_conn {| nc_conn := conn; nc_id := id; nc_link := link |} n;
        Done (match r with Ok _ => Ok (peer, id) | Err err => Err err end, n)
      else
        pm ← add_new_peer_conn peer id link (foreign_network_client (nd_mgr n));
        Done (Ok (peer, id), set_mgr (set_client pm (nd_mgr n)) n)
  end.

Definition manager_has_directly_connected_conn (peer : PeerId) n : bool :=
  match peer_map (peers (nd_mgr n)) !! peer with
  | Some p => has_directly_connected_conn p
  | None => has_peer peer (foreign_network_client (nd_mgr n))
  end.

(** ** Closing a connection *)

Definition manager_close_peer_conn (peer : PeerId) (id : PeerConnId) n : result send_error unit * Node A :=
  let '(r, pm) := pmap_close_peer_conn peer id (peers (nd_mgr n)) in
  let n := set_mgr (set_peers pm (nd_mgr n)) n in
  match r with
  | Err NotFound =>
      let '(r, pm) := pmap_close_peer_conn peer id (foreign_network_client (nd_mgr n)) in
      let n := set_mgr (set_client pm (nd_mgr n)) n in
      match r with
      | Err NotFound => let '(r, f) := fm_close_peer_conn peer id (nd_foreign n) in (r, set_foreign f n)
      | _ => (r, n)
      end
  | _ => (r, n)
  end.

(** ** What the route is told *)

(** [RouteInterface::list_peers]: the foreign network client's peers, then ours. *)
Definition interface_list_peers n : list PeerId * Node A :=
  let public := list_peers (foreign_network_client (nd_mgr n)) in
  let '(own, pm) := list_peers_with_conn (peers (nd_mgr n)) in
  (public ++ own, set_mgr (set_peers pm (nd_mgr n)) n).

(** [SystemTime] to a timestamp. *)
Definition to_timestamp (t : Z) : Timestamp := {| seconds := t / SEC; nanos := t mod SEC |}.

(** One network of [RouteInterface::list_foreign_networks]. *)
Definition announce (me wall : Z) (f : ForeignNetworkManager) (ret : gmap ForeignKey ForeignEntry)
    (x : bytes * ForeignNetworkEntryPb) : gmap ForeignKey ForeignEntry :=
  let '(name, info) := x in
  match pb_peers info with
  | [] => ret
  | _ =>
      let last_update := default wall (get_foreign_network_last_update name f) in
      <[{| fk_peer_id := me; fk_network_name := utf8_decode name |} :=
        {| foreign_peer_ids := (pb_peers info).*1; fe_last_update := Some (to_timestamp last_update); fe_version := 0;
           SyncedRoute.network_secret_digest := pb_network_secret_digest info;
           my_peer_id_for_this_network := pb_my_peer_id info |}]> ret
  end.

Definition interface_list_foreign_networks (wall : Z) n : gmap ForeignKey ForeignEntry * Node A :=
  let '(networks, f) := list_foreign_networks (nd_foreign n) in
  (foldl (announce (mgr_my_peer_id (nd_mgr n)) wall f) ∅ (map_to_list networks), set_foreign f n).
End node.

(** ** What a connection presented *)

(** The identity read off a handshake. *)
Definition presented_identity (rsp : HandshakeRequest) : NetworkIdentity := {|
  network_name := hs_network_name rsp; network_secret := Some [];
  PeerConn.network_secret_digest := Some (network_secret_digrest rsp) |}.

Lemma conn_identity_of c rsp i :
  conn_info c = Some rsp -> conn_get_network_identity c = Done i -> i = presented_identity rsp.
Proof.
  intros Hc E. unfold conn_get_network_identity in E. rewrite Hc in E. cbn [unwrap mbind outcome_bind] in E.
  apply bind_Done in E as (d & Hd & [= <-]). pose proof (copy_into_Done _ _ _ _ _ Hd) as (_ & Hl & _).
  pose proof (copy_into_app [] (zeros 32) [] (network_secret_digrest rsp) 0 32 eq_refl eq_refl) as Hcp.
  rewrite !app_nil_r in Hcp. cbn [app] in Hcp. rewrite Hcp in Hd by (rewrite <- Hl; done). by injection Hd as <-.
Qed.

Lemma identity_of_conn c rsp : conn_info c = Some rsp -> len (network_secret_digrest rsp) = 32 ->
  conn_get_network_identity c = Done (presented_identity rsp).
Proof.
  intros Hc Hl. unfold conn_get_network_identity. rewrite Hc. cbn [unwrap mbind outcome_bind].
  pose proof (copy_into_app [] (zeros 32) [] (network_secret_digrest rsp) 0 32 eq_refl eq_refl Hl) as Hcp.
  rewrite !app_nil_r in Hcp. cbn [app] in Hcp. by rewrite Hcp.
Qed.

Section presented.
Context `{Hasher64}.

Lemma identity_eq_presented i rsp same : identity_eq i (presented_identity rsp) = Done same ->
  exists own, with_only_digest i = Done own /\
    same = bool_decide (own = (hs_network_name rsp, Some (network_secret_digrest rsp))).
Proof.
  unfold identity_eq. destruct (with_only_digest_done i) as (own & ->). intros [= <-]. by exists own.
Qed.

Lemma identity_eq_refl i : identity_eq i i = Done true.
Proof.
  unfold identity_eq. destruct (with_only_digest_done i) as (own & ->). cbn [mbind outcome_bind].
  by rewrite bool_decide_eq_true_2.
Qed.
End presented.

Section foreign.
Context `{WildMatch} `{Hasher64} (fl : ForeignFlags).
Context `{!IterOrder PeerConnId Conn, !IterOrder PeerId Peer}.

(** The entry a connection gets: a new one has its identity. *)
Lemma get_or_insert_prepared now i my dst relay m route a nw m' :
  get_or_insert_entry fl now i my dst relay m = (a, nw, m') ->
  let m'' := if nw then entry_prepare route a m' else m' in
  network_peer_maps m'' !! network_name i = Some a /\
  (forall e, nw = true -> fm_entries m'' !! a = Some e -> fe_network e = i /\ fe_my_peer_id e = my) /\
  (nw = false -> fm_entries m'' = fm_entries m).
Proof.
  unfold get_or_insert_entry, entry_new. destruct (get_or_create _ _ _).
  destruct (network_peer_maps m !! network_name i); intros [= <- <- <-]; simpl; (split; [apply lookup_insert_eq|]).
  - split; [done | done].
  - split; [|done]. intros e _. rewrite lookup_alter_eq, lookup_insert_eq. by intros [= <-].
Qed.

(** A foreign connection is stored in the entry of its network, which has its
    identity, or nowhere. *)
Lemma add_peer_conn_stores now route c m r m' rsp :
  conn_info (nc_conn c) = Some rsp -> add_peer_conn fl now route c m = Done (r, m') ->
  match r with
  | Ok _ => exists a e p, network_peer_maps m' !! hs_network_name rsp = Some a /\ fm_entries m' !! a = Some e /\
      with_only_digest (fe_network e) = Done (hs_network_name rsp, Some (network_secret_digrest rsp)) /\
      peer_map (fe_peer_map e) !! hs_my_peer_id rsp = Some p /\ conns p !! nc_id c = Some (nc_link c)
  | Err _ => fm_entries m' = fm_entries m
  end.
Proof.
  intros Hc E. unfold add_peer_conn in E. apply bind_Done in E as ([rb m1] & Eb & E).
  unfold add_begin in Eb. apply bind_Done in Eb as (i & Hi & Eb). pose proof (conn_identity_of _ _ _ Hc Hi) as ->.
  destruct (negb (check_network_in_whitelist _ _) && _); [by simplify_eq|].
  apply bind_Done in Eb as (dst & Hd & Eb).
  assert (dst = hs_my_peer_id rsp) as -> by (unfold conn_get_peer_id in Hd; rewrite Hc in Hd; by injection Hd).
  destruct (get_or_insert_entry _ _ _ _ _ _) as [[a nw] m2] eqn:Eg. injection Eb as <- <-.
  set (m3 := if nw then entry_prepare route a m2 else m2) in E. unfold add_finish in E.
  apply bind_Done in E as (e & He & E). apply unwrap_Done in He. rewrite Hi in E. cbn [mbind outcome_bind] in E.
  apply bind_Done in E as (same & Hsame & E). destruct (identity_eq_presented _ _ _ Hsame) as (own & Hown & ->).
  destruct (get_or_insert_prepared _ _ _ _ _ _ route _ _ _ Eg) as (Hmap & Hnew & Hold). fold m3 in Hmap, Hnew, Hold.
  specialize (Hnew e). cbn [presented_identity network_name] in Hmap.
  destruct (negb _ || _) eqn:Ebad.
  { injection E as <- <-. destruct nw; [|by apply Hold]. exfalso. destruct (Hnew eq_refl He) as [En Em].
    rewrite Em, Z.eqb_refl, orb_false_r in Ebad. rewrite En in Hown. injection Hown as <-.
    by rewrite bool_decide_eq_true_2 in Ebad. }
  apply orb_false_iff in Ebad as [Es _]. apply negb_false_iff, bool_decide_eq_true in Es. subst own.
  rewrite Hd in E. cbn [mbind outcome_bind] in E.
  destruct (negb nw && _) eqn:Efull; [injection E as <- <-; apply Hold; by destruct nw|].
  apply bind_Done in E as (m4 & Ea & [= <- <-]). unfold entry_add_conn in Ea. apply bind_Done in Ea as (pm & Hpm & [= <-]).
  apply add_conn_peers in Hpm. eexists a, (with_peer_map pm e), _. split_and!.
  - destruct (bool_decide (peer_map _ !! _ = None)), nw; exact Hmap.
  - destruct (bool_decide (peer_map _ !! _ = None)), nw; simpl; apply lookup_insert_eq.
  - exact Hown.
  - simpl. rewrite Hpm. apply lookup_insert_eq.
  - simpl. apply lookup_insert_eq.
Qed.
End foreign.

Section admission.
Context `{WildMatch} `{Hasher64} `{HandshakeCodec} (junk : nat -> Z) (fl : ForeignFlags) {A : Type}.
Context `{!IterOrder PeerConnId Conn, !IterOrder PeerId Peer, !IterOrder bytes unit, !IterOrder bytes nat}.
Implicit Types (n : Node A).

Lemma answer_handshake_keeps rsp sink_ok c r c' sent :
  answer_handshake junk rsp sink_ok c = Done (r, c', sent) -> c' = with_info rsp false c.
Proof.
  unfold answer_handshake. intros E. apply bind_Done in E as (i & _ & E). apply bind_Done in E as (b & _ & E).
  apply bind_Done in E as (p & _ & E). destruct sink_ok; cbn [negb] in E; [|by injection E as _ <- _].
  unfold check_conflict in E. apply bind_Done in E as (k & _ & E). by injection E as _ <- _.
Qed.

Lemma handshake_in_stream stream e rsp rest :
  wait_handshake_loop stream e = Done (Ok rsp, rest) -> exists p, Ok p ∈ stream /\ wait_handshake p = Done (Ok rsp).
Proof.
  revert rest; induction stream as [|[p|err] stream IH]; intros rest; simpl; [by destruct e| |done].
  destruct (wait_handshake p) as [[r|r]|] eqn:E; cbn [mbind outcome_bind]; [|..|done].
  - intros [= -> _]. exists p. split; [by left | done].
  - intros Hs. destruct (IH _ Hs) as (q & Hq & ?). exists q. split; [by right | done].
Qed.

(** The remote address is neither a loopback address, unless those are allowed,
    nor one of the virtual network; other transports have no such address. *)
Definition from_outside (info : option TunnelInfo) n : Prop :=
  exists src, info ≫= remote_addr = Some src /\
    forall ips ip, url_is_ring src = false -> url_socket_addrs src = Some ips -> ip ∈ ips ->
      (is_loopback ip = true -> allow_loopback_tunnel n = true) /\
      match ip with
      | V4 a => forall net, my_ipv4 (nd_mgr n) = Some net -> inet_contains 32 net a = false
      | V6 a => forall net, my_ipv6 (nd_mgr n) = Some net -> inet_contains 128 net a = false
      end.

Lemma check_addrs_ok ips n : check_addrs ips n = Ok tt -> forall ip, ip ∈ ips -> check_addr ip n = Ok tt.
Proof.
  induction ips as [|x ips IH]; simpl; [by intros _ ? ?%not_elem_of_nil|].
  destruct (check_addr x n) as [[]|] eqn:E; [|done]. intros Hs ip [->|Hin]%elem_of_cons; auto.
Qed.

Lemma remote_addr_checked info n : check_remote_addr_not_from_virtual_network info n = Ok tt -> from_outside info n.
Proof.
  destruct info as [[[src|]]|]; simpl; [|done..]. intros Hc. exists src. split; [done|]. intros ips ip Hr Hu Hin.
  rewrite Hr, Hu in Hc. pose proof (check_addrs_ok _ _ Hc _ Hin) as Ha. unfold check_addr in Ha.
  destruct (is_loopback ip && _) eqn:El; [done|]. split.
  - intros Hl. rewrite Hl in El. by destruct (allow_loopback_tunnel n).
  - destruct ip; intros net Hn; rewrite Hn in Ha; by destruct (inet_contains _ _ _).
Qed.

(** An accepted tunnel has its peer's request, which the callback let pass; the
    managers are as they were. *)
Lemma accept_tunnel_spec info random stream e sink_ok n r n' sent :
  accept_tunnel junk info random stream e sink_ok n = Done (r, n', sent) ->
  nd_mgr n' = nd_mgr n /\ nd_foreign n' = nd_foreign n /\ nd_identity n' = nd_identity n /\
  match r with
  | Ok conn => from_outside info n /\ exists p rsp, Ok p ∈ stream /\ wait_handshake p = Done (Ok rsp) /\ conn_info conn = Some rsp /\
      (hs_network_name rsp <> network_name (nd_identity n) -> private_mode n = false)
  | Err _ => True
  end.
Proof.
  unfold accept_tunnel. destruct (check_remote_addr_not_from_virtual_network info n) as [[]|] eqn:Hc; [|by intros [= <- <- <-]].
  intros E. apply bind_Done in E as ([[[rs conn] s0] res] & Eh & [= <- <- <-]). do 3 (split; [done|]).
  destruct rs; [|done]. split; [by apply remote_addr_checked|]. unfold do_handshake_as_server_ext in Eh.
  apply bind_Done in Eh as ([[rsp|] rest] & Hw & Eh); [|done]. destruct (handshake_in_stream _ _ _ _ Hw) as (p & Hp & Hrsp).
  apply bind_Done in Eh as ([[[] c] res'] & Ec & Eh); [|done]. apply bind_Done in Eh as ([[ra ca] sa] & Ea & [= _ <- _ _]).
  exists p, rsp. do 2 (split; [done|]). split; [by rewrite (answer_handshake_keeps _ _ _ _ _ _ Ea)|]. intros Hne. unfold handshake_recved in Ec.
  rewrite bool_decide_eq_false_2 in Ec by done. by destruct (private_mode n).
Qed.

(** C12.  A tunnel from another node that is admitted comes from outside the virtual
    network and has presented an identity in a packet it sent, and its
    connection is stored in the peer map of exactly that network: our own if
    name and digest are ours, otherwise, unless the node is private, the entry
    of the foreign network with that name and digest.  A tunnel that is refused
    leaves every peer map as it was. *)
Theorem tunnel_admission (info : option TunnelInfo) (random : PeerId) (stream : list stream_item) (e : StreamEnd)
    (sink_ok : bool) (now : Z) (route : Route) (id : PeerConnId) (link : Conn) (n n' : Node A) (r : result admission_error unit)
    (E : add_tunnel_as_server junk fl info random stream e sink_ok now route id link n = Done (r, n')) :
  match r with
  | Err _ => nd_mgr n' = nd_mgr n /\ fm_entries (nd_foreign n') = fm_entries (nd_foreign n)
  | Ok _ => from_outside info n /\ exists p rsp, let name := hs_network_name rsp in let digest := network_secret_digrest rsp in
      Ok p ∈ stream /\ wait_handshake p = Done (Ok rsp) /\
      if decide (name = network_name (nd_identity n)) then
        with_only_digest (nd_identity n) = Done (name, Some digest) /\ nd_foreign n' = nd_foreign n /\
        add_new_peer_conn (hs_my_peer_id rsp) id link (peers (nd_mgr n)) = Done (peers (nd_mgr n'))
      else
        private_mode n = false /\ nd_mgr n' = nd_mgr n /\
        exists a en p, network_peer_maps (nd_foreign n') !! name = Some a /\ fm_entries (nd_foreign n') !! a = Some en /\
          with_only_digest (fe_network en) = Done (name, Some digest) /\
          peer_map (fe_peer_map en) !! hs_my_peer_id rsp = Some p /\ conns p !! id = Some link
  end.
Proof.
  unfold add_tunnel_as_server in E. apply bind_Done in E as ([[ra n1] sent] & Ea & E).
  destruct (accept_tunnel_spec _ _ _ _ _ _ _ _ _ Ea) as (Em & Ef & Ei & Hr). rewrite <- Em, <- Ef.
  destruct ra as [conn|err]; [|by injection E as <- <-]. destruct Hr as (Hout & p & rsp & Hin & Hrsp & Hc & Hpriv).
  unfold store_conn in E. apply bind_Done in E as (i & Hi & E). simpl in Hi.
  pose proof (conn_identity_of _ _ _ Hc Hi) as ->. apply bind_Done in E as ([rs n2] & Es & E).
  cbn [presented_identity network_name] in Es, E. rewrite Ei in Es. case_bool_decide as Hown.
  - unfold manager_add_new_peer_conn in Es. simpl in Es. rewrite Hi in Es. cbn [mbind outcome_bind] in Es.
    apply bind_Done in Es as (same & Hsame & Es). destruct (identity_eq_presented _ _ _ Hsame) as (own & Hd & ->).
    rewrite Ei in Hd. case_bool_decide as Heq; cbn [negb] in Es; [subst own | by injection Es as <- <-; injection E as <- <-].
    apply bind_Done in Es as (peer & Hp & Es). apply bind_Done in Es as (pm & Hpm & [= <- <-]). injection E as <- <-.
    split; [done|]. exists p, rsp. cbn zeta. rewrite decide_True by done. do 4 (split; [done|]).
    unfold conn_get_peer_id in Hp. rewrite Hc in Hp. injection Hp as <-. exact Hpm.
  - apply bind_Done in Es as ([rf f] & Es & [= <- <-]).
    pose proof (add_peer_conn_stores fl _ _ {| nc_conn := conn; nc_id := id; nc_link := link |} _ _ _ _ Hc Es) as Hst.
    destruct rf; injection E as <- <-; [|by split]. split; [done|]. exists p, rsp. cbn zeta. rewrite decide_False by done.
    do 2 (split; [done|]). split; [by apply Hpriv|]. split; [done | exact Hst].
Qed.

Lemma add_conn_done dst id c pm : exists pm', add_new_peer_conn dst id c pm = Done pm'.
Proof.
  unfold add_new_peer_conn, add_conn_check, add_conn_commit. simpl. destruct (peer_map pm !! dst); simpl; eauto.
Qed.

(** The rest of [add_peer_conn] when nothing stands in the way. *)
Lemma add_finish_admits a nw c m e rsp : conn_info (nc_conn c) = Some rsp -> len (network_secret_digrest rsp) = 32 ->
  fm_entries m !! a = Some e -> identity_eq (fe_network e) (presented_identity rsp) = Done true ->
  fe_my_peer_id e = conn_my_peer_id (nc_conn c) ->
  (nw = false -> forall p, peer_map (fe_peer_map e) !! hs_my_peer_id rsp = Some p ->
     (size (get_directly_connections p) < max_direct_conns fl)%nat) ->
  exists m' pm, add_finish fl a nw c m = Done (Ok tt, m') /\
    add_new_peer_conn (hs_my_peer_id rsp) (nc_id c) (nc_link c) (fe_peer_map e) = Done pm /\
    fm_entries m' = <[a := with_peer_map pm e]> (fm_entries m) /\ network_peer_maps m' = network_peer_maps m.
Proof.
  intros Hc Hl He Hsame Hmy Hroom. unfold add_finish. rewrite He. cbn [unwrap mbind outcome_bind].
  rewrite (identity_of_conn _ _ Hc Hl). cbn [mbind outcome_bind]. rewrite Hsame. cbn [mbind outcome_bind].
  rewrite Hmy, Z.eqb_refl. cbn [negb orb]. unfold conn_get_peer_id. rewrite Hc. cbn [unwrap mbind outcome_bind].
  assert (negb nw && match peer_map (fe_peer_map e) !! hs_my_peer_id rsp with
    | Some p => (max_direct_conns fl <=? size (get_directly_connections p))%nat | None => false end = false) as ->.
  { destruct nw; [done|]. destruct (peer_map (fe_peer_map e) !! hs_my_peer_id rsp) as [p|] eqn:Ep; [|done]. simpl.
    apply Nat.leb_gt. by apply Hroom. }
  destruct (add_conn_done (hs_my_peer_id rsp) (nc_id c) (nc_link c) (fe_peer_map e)) as (pm & Hpm).
  unfold entry_add_conn. rewrite Hpm. cbn [mbind outcome_bind]. do 2 eexists. split; [reflexivity|]. split; [done|].
  destruct (bool_decide (peer_map _ !! _ = None)), nw; done.
Qed.

Lemma add_peer_conn_admits now route c m rsp : conn_info (nc_conn c) = Some rsp -> len (network_secret_digrest rsp) = 32 ->
  check_network_in_whitelist fl (hs_network_name rsp) = true ->
  match network_peer_maps m !! hs_network_name rsp with
  | None => True
  | Some a => exists e, fm_entries m !! a = Some e /\ identity_eq (fe_network e) (presented_identity rsp) = Done true /\
      fe_my_peer_id e = conn_my_peer_id (nc_conn c) /\
      forall p, peer_map (fe_peer_map e) !! hs_my_peer_id rsp = Some p -> (size (get_directly_connections p) < max_direct_conns fl)%nat
  end ->
  exists m' a e, add_peer_conn fl now route c m = Done (Ok tt, m') /\
    network_peer_maps m' !! hs_network_name rsp = Some a /\ fm_entries m' !! a = Some e /\
    fe_my_peer_id e = conn_my_peer_id (nc_conn c) /\ identity_eq (fe_network e) (presented_identity rsp) = Done true /\
    (network_peer_maps m !! hs_network_name rsp = None ->
     fe_network e = presented_identity rsp /\
     peer_map (fe_peer_map e) = {[hs_my_peer_id rsp := peer_add_conn (nc_id c) (nc_link c) (peer_new (hs_my_peer_id rsp))]}).
Proof.
  intros Hc Hl Hw Hm. unfold add_peer_conn, add_begin. rewrite (identity_of_conn _ _ Hc Hl). cbn [mbind outcome_bind].
  cbn [presented_identity network_name]. rewrite Hw. cbn [negb andb]. unfold conn_get_peer_id. rewrite Hc.
  cbn [unwrap mbind outcome_bind]. unfold get_or_insert_entry, entry_new. cbn [presented_identity network_name].
  destruct (network_peer_maps m !! hs_network_name rsp) as [a|].
  - destruct Hm as (e & He & Hsame & Hmy & Hroom). cbn [mbind outcome_bind].
    match goal with |- context [add_finish fl a false c ?x] =>
      destruct (add_finish_admits a false c x e rsp Hc Hl He Hsame Hmy ltac:(done)) as (m' & pm & Ef & _ & Ee & En) end.
    exists m', a, (with_peer_map pm e). rewrite Ef, Ee, En. simpl. rewrite !lookup_insert_eq. done.
  - destruct (get_or_create _ _ _) as [k bm]. cbn [mbind outcome_bind].
    match goal with |- context [add_finish fl (fm_next m) true c ?x] =>
      destruct (add_finish_admits (fm_next m) true c x
        (mkEntry (conn_my_peer_id (nc_conn c)) (presented_identity rsp)
           (add_route route (peer_map_new (conn_my_peer_id (nc_conn c)))) true k) rsp Hc Hl) as (m' & pm & Ef & Ep & Ee & En) end;
      [simpl; by rewrite lookup_alter_eq, lookup_insert_eq | apply identity_eq_refl | done | done|].
    eexists m', (fm_next m), (with_peer_map pm _). rewrite Ef, Ee, En. simpl. rewrite !lookup_insert_eq.
    split_and!; try done; [apply identity_eq_refl|]. intros _. split; [done|]. rewrite (add_conn_peers _ _ _ _ _ Ep). simpl.
    by rewrite lookup_empty.
Qed.

Lemma recved_foreign random n peer msg reserved : hs_network_name msg <> network_name (nd_identity n) ->
  private_mode n = false -> conn_info peer = None -> fm_network_peer_id (hs_network_name msg) (nd_foreign n) = None ->
  let id := default random (reserved !! hs_network_name msg) in
  exists peer', handshake_recved random n peer msg reserved = Done (Ok tt, peer', <[hs_network_name msg := id]> reserved) /\
    conn_my_peer_id peer' = id.
Proof.
  intros Hne Hp Hi Hf. unfold handshake_recved. rewrite bool_decide_eq_false_2 by done. rewrite Hp, Hf. unfold set_peer_id.
  rewrite Hi. eexists. split; reflexivity.
Qed.

Lemma store_foreign now route c n rsp m' : conn_info (nc_conn c) = Some rsp -> len (network_secret_digrest rsp) = 32 ->
  hs_network_name rsp <> network_name (nd_identity n) -> add_peer_conn fl now route c (nd_foreign n) = Done (Ok tt, m') ->
  exists n', store_conn fl now route c n = Done (Ok tt, n') /\ nd_foreign n' = m' /\ nd_identity n' = nd_identity n.
Proof.
  intros Hc Hl Hne E. unfold store_conn. rewrite (identity_of_conn _ _ Hc Hl). cbn [mbind outcome_bind].
  cbn [presented_identity network_name]. rewrite bool_decide_eq_false_2 by done. rewrite E. cbn [mbind outcome_bind].
  eexists. split; [reflexivity | done].
Qed.

(** Two tunnels of a network the node does not know yet, with the same secret,
    whose handshakes both happen before either connection is stored: both are
    given the same identity of this node, whatever was drawn, and both are
    stored. *)
Theorem first_tunnels_share_identity (n : Node A) (random1 random2 now1 now2 : Z) (route : Route) (peer1 peer2 : PeerConn)
    (msg1 msg2 : HandshakeRequest) (id1 id2 : PeerConnId) (link1 link2 : Conn)
    (Hnew1 : conn_info peer1 = None) (Hnew2 : conn_info peer2 = None)
    (Hname : hs_network_name msg2 = hs_network_name msg1) (Hne : hs_network_name msg1 <> network_name (nd_identity n))
    (Hdig : network_secret_digrest msg2 = network_secret_digrest msg1) (Hlen : len (network_secret_digrest msg1) = 32)
    (Hpriv : private_mode n = false) (Hunknown : network_peer_maps (nd_foreign n) !! hs_network_name msg1 = None)
    (Hw : check_network_in_whitelist fl (hs_network_name msg1) = true) (Hmax : (1 < max_direct_conns fl)%nat) :
  exists c1 res1 c2 res2 n1 n2,
    handshake_recved random1 n peer1 msg1 (reserved_my_peer_id_map n) = Done (Ok tt, c1, res1) /\
    handshake_recved random2 (set_reserved res1 n) peer2 msg2 res1 = Done (Ok tt, c2, res2) /\
    conn_my_peer_id c1 = conn_my_peer_id c2 /\
    store_conn fl now1 route {| nc_conn := with_info msg1 false c1; nc_id := id1; nc_link := link1 |} (set_reserved res2 n) =
      Done (Ok tt, n1) /\
    store_conn fl now2 route {| nc_conn := with_info msg2 false c2; nc_id := id2; nc_link := link2 |} n1 = Done (Ok tt, n2).
Proof.
  assert (fm_network_peer_id (hs_network_name msg1) (nd_foreign n) = None) as Hf by (unfold fm_network_peer_id; by rewrite Hunknown).
  destruct (recved_foreign random1 n peer1 msg1 (reserved_my_peer_id_map n)) as (c1 & E1 & I1); try done.
  set (res1 := <[_ := _]> _) in E1.
  destruct (recved_foreign random2 (set_reserved res1 n) peer2 msg2 res1) as (c2 & E2 & I2); rewrite ?Hname; try done.
  rewrite Hname in E2, I2. set (res2 := <[hs_network_name msg1 := _]> res1) in E2. unfold res1 in I2 at 1.
  rewrite lookup_insert_eq in I2. cbn [default] in I2.
  set (nc1 := {| nc_conn := with_info msg1 false c1; nc_id := id1; nc_link := link1 |}).
  set (nc2 := {| nc_conn := with_info msg2 false c2; nc_id := id2; nc_link := link2 |}).
  destruct (add_peer_conn_admits now1 route nc1 (nd_foreign n) msg1) as (m1 & a & e & A1 & Hmap & He & Hmy & _ & Hfirst); try done.
  { by rewrite Hunknown. }
  destruct (Hfirst Hunknown) as [Hnet Hpeers].
  destruct (store_foreign now1 route nc1 (set_reserved res2 n) msg1 m1) as (n1 & S1 & F1 & Id1); try done.
  destruct (add_peer_conn_admits now2 route nc2 m1 msg2) as (m2 & _ & _ & A2 & _); rewrite ?Hname, ?Hdig; try done.
  { rewrite Hmap. exists e. split; [done|]. rewrite Hnet. split.
    - unfold identity_eq, with_only_digest. cbn [presented_identity PeerConn.network_secret_digest network_name mbind outcome_bind].
      rewrite Hname, Hdig. by rewrite bool_decide_eq_true_2.
    - split; [rewrite Hmy; simpl; by rewrite I1, I2|]. rewrite Hpeers. intros p. rewrite lookup_singleton_Some. intros [_ <-].
      pose proof (direct_add id1 link1 (peer_new (hs_my_peer_id msg1))) as Hd.
      change (size (get_directly_connections (peer_new (hs_my_peer_id msg1)))) with 0%nat in Hd. simpl. lia. }
  destruct (store_foreign now2 route nc2 n1 msg2 m2) as (n2 & S2 & _); rewrite ?Hname, ?Hdig, ?Id1; try done; [by rewrite F1|].
  exists c1, res1, c2, res2, n1, n2. split_and!; try done. by rewrite I1, I2.
Qed.
End admission.

(** ** Announcements *)

Section announcements.
Context {A : Type}.
Context `{!IterOrder PeerConnId Conn, !IterOrder PeerId Peer, !IterOrder bytes nat}.

Lemma list_conns_keys l acc : (foldl list_conns acc l).1.*1 = acc.1.*1 ++ l.
Proof.
  revert acc; induction l as [|k l IH]; intros acc; cbn [foldl]; [by rewrite app_nil_r|]. rewrite IH. unfold list_conns.
  destruct (peer_map acc.2 !! k) as [p|]; [destruct (list_peer_conns p)|]; simpl; by rewrite fmap_app, <- app_assoc.
Qed.

(** Each name leads to an entry of that name. *)
Definition names_ok (f : ForeignNetworkManager) : Prop :=
  forall name a, network_peer_maps f !! name = Some a -> exists e, fm_entries f !! a = Some e /\ fe_name e = name.

(** What is listed of an entry: its peers, digest and identity. *)
Definition listed (e : ForeignNetworkEntry) (pb : ForeignNetworkEntryPb) : Prop :=
  (pb_peers pb).*1 = list_peers (fe_peer_map e) /\ pb_my_peer_id pb = fe_my_peer_id e /\
  pb_network_secret_digest pb = default (zeros 32) (PeerConn.network_secret_digest (fe_network e)).

Lemma list_network_spec ret f name a e : network_peer_maps f !! name = Some a -> fm_entries f !! a = Some e ->
  exists pb pm, list_network (ret, f) name = (<[name := pb]> ret, set_entries (<[a := with_peer_map pm e]> (fm_entries f)) f) /\
    listed e pb.
Proof.
  intros Hn He. unfold list_network. rewrite Hn. simpl. rewrite He. simpl.
  pose proof (list_conns_keys (list_peers (fe_peer_map e)) ([], fe_peer_map e)) as Hk.
  destruct (foldl list_conns _ _) as [l pm]. do 2 eexists. split; [reflexivity|]. by split.
Qed.

Lemma list_networks_spec names ret f : NoDup names -> names_ok f -> (forall name, name ∈ names -> is_Some (network_peer_maps f !! name)) ->
  let r := (foldl list_network (ret, f) names).1 in
  (forall name, name ∉ names -> r !! name = ret !! name) /\
  forall name a e, name ∈ names -> network_peer_maps f !! name = Some a -> fm_entries f !! a = Some e ->
    exists pb, r !! name = Some pb /\ listed e pb.
Proof.
  revert ret f; induction names as [|x names IH]; intros ret f Hnd Hok Hin; cbn [foldl].
  { split; [done|]. intros name a e Hx. by apply not_elem_of_nil in Hx. }
  apply NoDup_cons in Hnd as [Hx Hnd]. destruct (Hin x ltac:(by left)) as [ax Hax]. destruct (Hok x ax Hax) as (ex & Hex & Hnx).
  destruct (list_network_spec ret f x ax ex Hax Hex) as (pb & pm & -> & Hpb). set (f1 := set_entries _ f).
  assert (names_ok f1) as Hok1.
  { intros name a Ha. destruct (Hok name a Ha) as (e & He & Hne). simpl. destruct (decide (a = ax)) as [->|Hd].
    - rewrite lookup_insert_eq. eexists. split; [reflexivity|]. by simplify_eq.
    - rewrite lookup_insert_ne by done. by exists e. }
  destruct (IH (<[x := pb]> ret) f1 Hnd Hok1) as [Hout Hall]; [intros name Hname; apply Hin; by right|]. split.
  - intros name Hname. rewrite Hout by set_solver. apply lookup_insert_ne. set_solver.
  - intros name a e [->|Hname]%elem_of_cons Ha He.
    + rewrite Hout by done. rewrite lookup_insert_eq. simplify_eq. by exists pb.
    + apply (Hall name a e Hname Ha). simpl. rewrite lookup_insert_ne; [done|]. intros <-.
      assert (fe_name e = name) by (destruct (Hok name ax Ha) as (e' & He' & <-); congruence). simplify_eq. done.
Qed.

Lemma utf8_decode_inj a b : utf8_valid a = true -> utf8_valid b = true -> utf8_decode a = utf8_decode b -> a = b.
Proof. intros Ha Hb E. by rewrite <- (utf8_decode_encode a Ha), <- (utf8_decode_encode b Hb), E. Qed.

Definition announced_key (me : PeerId) (name : bytes) : ForeignKey := {| fk_peer_id := me; fk_network_name := utf8_decode name |}.

(** The announcement of a listed network; none if it has no peers. *)
Definition announcement (wall : Z) (f : ForeignNetworkManager) (name : bytes) (pb : ForeignNetworkEntryPb) : option ForeignEntry :=
  match pb_peers pb with
  | [] => None
  | _ => Some {| foreign_peer_ids := (pb_peers pb).*1;
                 fe_last_update := Some (to_timestamp (default wall (get_foreign_network_last_update name f)));
                 fe_version := 0; SyncedRoute.network_secret_digest := pb_network_secret_digest pb;
                 my_peer_id_for_this_network := pb_my_peer_id pb |}
  end.

Lemma announce_one me wall f ret x pb name : utf8_valid x = true -> utf8_valid name = true ->
  announce me wall f ret (x, pb) !! announced_key me name =
    if decide (x = name) then (match announcement wall f x pb with Some v => Some v | None => ret !! announced_key me name end)
    else ret !! announced_key me name.
Proof.
  intros Hx Hn. unfold announce, announcement. destruct (pb_peers pb); [by case_decide|]. case_decide as E.
  - subst. apply lookup_insert_eq.
  - apply lookup_insert_ne. intros [= Ek]. by apply E, utf8_decode_inj.
Qed.

Lemma announce_lookup me wall f l ret name : NoDup l.*1 -> Forall (fun x => utf8_valid x.1 = true) l -> utf8_valid name = true ->
  ret !! announced_key me name = None ->
  (forall pb, (name, pb) ∈ l -> foldl (announce me wall f) ret l !! announced_key me name = announcement wall f name pb) /\
  (name ∉ l.*1 -> foldl (announce me wall f) ret l !! announced_key me name = None).
Proof.
  intros Hnd Hv Hname. revert ret. induction l as [|[x px] l IH]; intros ret Hret; cbn [foldl].
  { split; [|done]. intros pb Hin. by apply not_elem_of_nil in Hin. }
  apply NoDup_cons in Hnd as [Hx Hnd]. apply Forall_cons in Hv as [Hvx Hv]. cbn [fst] in Hvx, Hx.
  destruct (decide (x = name)) as [->|Hne].
  - assert (forall l m, Forall (fun x => utf8_valid x.1 = true) l -> name ∉ l.*1 ->
      foldl (announce me wall f) m l !! announced_key me name = m !! announced_key me name) as Hskip.
    { clear -Hname. intros l. induction l as [|[y py] l IH]; intros m Hv Hn; [done|]. cbn [foldl].
      apply Forall_cons in Hv as [Hvy Hv]. rewrite IH; [|done | set_solver]. rewrite announce_one by done.
      rewrite decide_False; [done|]. set_solver. }
    rewrite Hskip, announce_one, decide_True, Hret by done. split; [|set_solver].
    intros pb [[= <-]|Hin]%elem_of_cons; [by destruct (announcement _ _ _ _)|]. exfalso. apply Hx.
    apply list_elem_of_fmap. by exists (name, pb).
  - destruct (IH Hnd Hv (announce me wall f ret (x, px))) as [I1 I2].
    { rewrite announce_one by done. by rewrite decide_False. }
    split; [|set_solver]. intros pb [[= <- _]|Hin]%elem_of_cons; [done | by apply I1].
Qed.

(** What a node announces of the foreign networks it relays for is what their
    entries hold: for each network with peers, and for no other, the peers
    connected here, the secret digest and this node's identity in it. *)
Theorem announced_networks (wall : Z) (n : Node A) (name : bytes) (Hok : names_ok (nd_foreign n))
    (Hv : forall x, is_Some (network_peer_maps (nd_foreign n) !! x) -> utf8_valid x = true) (Hname : utf8_valid name = true) :
  let ret := (interface_list_foreign_networks wall n).1 in
  let key := announced_key (mgr_my_peer_id (nd_mgr n)) name in
  match network_peer_maps (nd_foreign n) !! name with
  | None => ret !! key = None
  | Some a => exists e, fm_entries (nd_foreign n) !! a = Some e /\
      match ret !! key with
      | None => peer_map (fe_peer_map e) = ∅
      | Some v => foreign_peer_ids v = list_peers (fe_peer_map e) /\ my_peer_id_for_this_network v = fe_my_peer_id e /\
          SyncedRoute.network_secret_digest v = default (zeros 32) (PeerConn.network_secret_digest (fe_network e))
      end
  end.
Proof.
  set (f := nd_foreign n) in *. set (names := (map_iter (network_peer_maps f)).*1).
  assert (forall x, x ∈ names <-> is_Some (network_peer_maps f !! x)) as Hnames.
  { intros x. unfold names. rewrite list_elem_of_fmap. split.
    - intros ([k v] & -> & Hin). apply elem_of_map_iter in Hin. eauto.
    - intros [v Hx]. exists (x, v). split; [done | by apply elem_of_map_iter]. }
  assert (NoDup names) as Hnd by (unfold names; rewrite map_iter_perm; apply NoDup_fst_map_to_list).
  destruct (list_networks_spec names ∅ f Hnd Hok ltac:(intros; by apply Hnames)) as [Hout Hall].
  unfold interface_list_foreign_networks, list_foreign_networks. fold f. fold names.
  destruct (foldl list_network (∅, f) names) as [networks f'] eqn:Ef. cbn [fst] in Hout, Hall |- *.
  destruct (announce_lookup (mgr_my_peer_id (nd_mgr n)) wall f' (map_to_list networks) ∅ name) as [H1 H2]; try done.
  { apply NoDup_fst_map_to_list. }
  { apply Forall_forall. intros [x pb] Hx. apply elem_of_map_to_list in Hx. apply Hv, Hnames. simpl.
    apply dec_stable. intros Hno. rewrite Hout, lookup_empty in Hx; done. }
  destruct (network_peer_maps f !! name) as [a|] eqn:Ea.
  - destruct (Hok name a Ea) as (e & He & _). exists e. split; [done|].
    destruct (Hall name a e) as (pb & Hpb & Hk & Hm & Hd); [apply Hnames; eauto | done | done|].
    rewrite (H1 pb) by (by apply elem_of_map_to_list). unfold announcement.
    destruct (pb_peers pb) eqn:Ep; [|by rewrite <- Hk]. symmetry in Hk. simpl in Hk. unfold list_peers in Hk.
    apply fmap_nil_inv in Hk. apply map_to_list_empty_iff. rewrite <- Permutation_nil_r. rewrite <- map_iter_perm, Hk. done.
  - apply H2. intros Hin. apply list_elem_of_fmap in Hin as ([x pb] & Ex & Hin). simpl in Ex. subst x.
    apply elem_of_map_to_list in Hin. rewrite Hout, lookup_empty in Hin; [done|]. rewrite Hnames, Ea. by intros [].
Qed.
End announcements.

(** ** Examples *)

#[local] Existing Instance star_match.
#[local] Existing Instance sum_hash.

Definition hello (peer : PeerId) : HandshakeRequest := {|
  hs_magic := MAGIC; hs_my_peer_id := peer; hs_version := VERSION; hs_features := [];
  hs_network_name := net_name; network_secret_digrest := replicate 32 1 |}.
#[local] Instance hello_codec : HandshakeCodec := {|
  hs_encode r := [hs_my_peer_id r]; hs_decode l := hello <$> head l |}.

Definition hello_packet (peer : PeerId) : ZCPacket :=
  mkZC (as_bytes (with_packet_type (packet_type_u8 PktHandShake) sample_header) ++ [peer]) DummyTunnel.
Definition own_network : NetworkIdentity :=
  {| network_name := [111]; network_secret := None; PeerConn.network_secret_digest := Some (replicate 32 3) |}.
Definition sample_node : Node unit := mkNode _ (relay_node 1 2) fm_new own_network ∅ false false.
Definition sample_url : TunnelInfo :=
  {| remote_addr := Some {| url_is_ring := false; url_socket_addrs := Some [V4 134744072] |} |}.

Definition joined_node : Node unit :=
  (done_or (Ok tt, sample_node)
     (add_tunnel_as_server (fun _ => 0) relay_flags (Some sample_url) 40 [Ok (hello_packet 7)] StreamTimeout true 5 net_route
        11 (open_conn 5) sample_node)).2.

Lemma tunnel_admission_witness :
  exists rsp a en p, hs_network_name rsp = net_name /\ network_peer_maps (nd_foreign joined_node) !! net_name = Some a /\
    fm_entries (nd_foreign joined_node) !! a = Some en /\ peer_map (fe_peer_map en) !! hs_my_peer_id rsp = Some p /\
    conns p !! 11 = Some (open_conn 5).
Proof.
  assert (add_tunnel_as_server (fun _ => 0) relay_flags (Some sample_url) 40 [Ok (hello_packet 7)] StreamTimeout true 5 net_route
            11 (open_conn 5) sample_node = Done (Ok tt, joined_node)) as E by (vm_compute; reflexivity).
  destruct (tunnel_admission (fun _ => 0) relay_flags (Some sample_url) 40 [Ok (hello_packet 7)] StreamTimeout true 5 net_route
              11 (open_conn 5) sample_node joined_node (Ok tt) E) as (_ & q & rsp & Hr).
  cbn zeta in Hr. destruct Hr as (_ & _ & Hr). destruct (decide (hs_network_name rsp = network_name (nd_identity sample_node))) as [Hn|Hn].
  - destruct Hr as (Hd & Hf & _). vm_compute in Hf. discriminate Hf.
  - destruct Hr as (_ & _ & a & en & p & H1 & H2 & _ & H4 & H5). exists rsp, a, en, p.
    assert (hs_network_name rsp = net_name) as Hname.
    { destruct (decide (hs_network_name rsp = net_name)) as [Hy|Hy]; [exact Hy|]. exfalso.
      assert (network_peer_maps (nd_foreign joined_node) = {[net_name := 0%nat]}) as Hm by (vm_compute; reflexivity).
      rewrite Hm, lookup_singleton_ne in H1 by congruence. discriminate H1. }
    rewrite Hname in H1. split; [exact Hname|]. split; [exact H1|]. split; [exact H2|]. split; [exact H4 | exact H5].
Defined.

Lemma first_tunnels_share_identity_witness :
  exists c1 res1 c2 res2 n1 n2,
    handshake_recved 40 sample_node (peer_conn_new 1 own_network) (hello 7) ∅ = Done (Ok tt, c1, res1) /\
    handshake_recved 99 (set_reserved res1 sample_node) (peer_conn_new 1 own_network) (hello 8) res1 = Done (Ok tt, c2, res2) /\
    conn_my_peer_id c1 = conn_my_peer_id c2 /\
    store_conn relay_flags 5 net_route {| nc_conn := with_info (hello 7) false c1; nc_id := 11; nc_link := open_conn 5 |}
      (set_reserved res2 sample_node) = Done (Ok tt, n1) /\
    store_conn relay_flags 6 net_route {| nc_conn := with_info (hello 8) false c2; nc_id := 12; nc_link := open_conn 5 |} n1 =
      Done (Ok tt, n2).
Proof.
  apply (first_tunnels_share_identity relay_flags sample_node 40 99 5 6 net_route (peer_conn_new 1 own_network)
           (peer_conn_new 1 own_network) (hello 7) (hello 8) 11 12 (open_conn 5) (open_conn 5)).
  - reflexivity.
  - reflexivity.
  - reflexivity.
  - discriminate.
  - reflexivity.
  - reflexivity.
  - reflexivity.
  - reflexivity.
  - reflexivity.
  - vm_compute. repeat constructor.
Defined.

Lemma announced_networks_witness :
  let ret := (interface_list_foreign_networks 9 (set_foreign one_network sample_node)).1 in
  exists e, fm_entries one_network !! 0%nat = Some e /\
    match ret !! announced_key 1 net_name with
    | None => peer_map (fe_peer_map e) = ∅
    | Some v => foreign_peer_ids v = list_peers (fe_peer_map e) /\ my_peer_id_for_this_network v = fe_my_peer_id e
    end.
Proof.
  assert (network_peer_maps one_network = {[net_name := 0%nat]}) as Hm by (vm_compute; reflexivity).
  assert (network_peer_maps one_network !! net_name = Some 0%nat) as Hn by (rewrite Hm; apply lookup_singleton_eq).
  pose proof (announced_networks 9 (set_foreign one_network sample_node) net_name) as Ha. cbn [nd_foreign set_foreign] in Ha.
  rewrite Hn in Ha. destruct Ha as (e & He & Hv).
  - intros x a Hx. cbn [nd_foreign set_foreign] in Hx |- *. rewrite Hm in Hx. apply lookup_singleton_Some in Hx as [<- <-].
    eexists. split; vm_compute; reflexivity.
  - intros x [a Hx]. rewrite Hm in Hx. apply lookup_singleton_Some in Hx as [<- _]. reflexivity.
  - reflexivity.
  - exists e. split; [exact He|]. intros. cbn [nd_mgr set_foreign] in Hv. revert Hv.
    change (mgr_my_peer_id (nd_mgr sample_node)) with 1.
    destruct (_ !! announced_key 1 net_name); [|intros Hv; exact Hv]. intros (Hv1 & Hv2 & _). split; [exact Hv1 | exact Hv2].
Defined.
