(* ===== verification/PeerCenter.v ===== *)
(** The peer center: [easytier/src/peer_center/mod.rs], [server.rs] and
    [instance.rs], with the listing of peers of [peers/rpc_service.rs].

    One node of a network, the center, collects the latencies that all nodes
    measure to the peers they are connected to.  Every node elects the center
    from its routes ([select_center_peer]), reports its own latencies to it (the
    report job), fetches the collected map from it (the get job, which sends the
    digest of the map it has and receives nothing when the center's digest is
    the same) and computes the costs of routes from it
    ([RouteCostCalculatorImpl], an instance of the interface [CostCalculator]
    that route tables are built against).

    A job runs as one step with the answer of its call as an argument; a
    handler of the center is atomic and reads the clock once.

    The theorems: what a center holds is the last report of each pair that no
    cleaning has expired; a pair whose reporter is alive never expires; what a
    client holds after a poll is what a center held less than 121 seconds
    before; costs are the collected latencies, positive and small enough for
    the route tables; nodes with the same routes elect the same center. *)

From stdpp Require Import base numbers list gmap sets.
From Stdlib Require Import ZifyBool.
From S2P Require Import Prelude Text GraphAlgo AclRules SyncedRoute RouteTable SyncSession RouteService.
From S2P Require Import PacketDef PeerConn PeerMap PeerManager.
Open Scope Z_scope.

(** ** Messages *)

(** [PeerInfoForGlobalMap::direct_peers], with [latency_ms], and
    [GlobalPeerMap::map]. *)
Abbreviation PeerInfoForGlobalMap := (gmap PeerId Z).
Abbreviation GlobalPeerMap := (gmap PeerId PeerInfoForGlobalMap).
Abbreviation Digest := Z.

Record GetGlobalPeerMapResponse := { rsp_global_peer_map : GlobalPeerMap; rsp_digest : option Digest }.
Definition response_default : GetGlobalPeerMapResponse := {| rsp_global_peer_map := ∅; rsp_digest := None |}.
#[global] Instance response_eq_dec : EqDecision GetGlobalPeerMapResponse.
Proof. solve_decision. Defined.

(** ** Listing peers *)

Definition min_latency (l : list Z) : option Z :=
  match l with [] => None | x :: l => Some (foldl Z.min x l) end.

(** [max(1, (min_lat as u32 / 1000) as i32)]; the quotient fits an [i32]. *)
Definition latency_ms (min_lat : Z) : Z := Z.max 1 (as_u32 min_lat / 1000).

Definition add_latency (ret : PeerInfoForGlobalMap) (peer : PeerId * list Z) : PeerInfoForGlobalMap :=
  match min_latency peer.2 with
  | Some lat => <[peer.1 := latency_ms lat]> ret
  | None => ret
  end.

(** [From<Vec<PeerInfo>>]: of a [PeerInfo] the id and the connections' latencies. *)
Definition peer_info_for_global_map (peers : list (PeerId * list Z)) : PeerInfoForGlobalMap :=
  foldl add_latency ∅ peers.

Section listing.
Context `{!IterOrder PeerConnId Conn, !IterOrder PeerId Peer}.

(** [PeerMap::list_peer_conns]. *)
Definition pmap_list_peer_conns (peer : PeerId) (pm : PeerMap) : option (list Z) * PeerMap :=
  match peer_map pm !! peer with
  | None => (None, pm)
  | Some p => let '(open, p) := list_peer_conns p in
              (Some ((fun kv => latency_us kv.2) <$> open), with_peers (<[peer := p]> (peer_map pm)) pm)
  end.

(** [PeerManagerRpcService::list_peers] on the node's own peer map and the one
    of its foreign network client; the fields for display are left out. *)
Definition service_list_peer (acc : list (PeerId * list Z) * PeerMap * PeerMap) (peer : PeerId)
    : list (PeerId * list Z) * PeerMap * PeerMap :=
  let '(infos, own, client) := acc in
  match pmap_list_peer_conns peer own with
  | (Some lats, own) => (infos ++ [(peer, lats)], own, client)
  | (None, own) =>
      let '(lats, client) := pmap_list_peer_conns peer client in
      (infos ++ [(peer, default [] lats)], own, client)
  end.

Definition service_list_peers (own client : PeerMap) : list (PeerId * list Z) * PeerMap * PeerMap :=
  foldl service_list_peer ([], own, client) (list_peers own ++ list_peers client).

(** [list_peers] of the two implementations of [PeerCenterPeerManagerTrait]:
    for a [PeerManager] and, in foreign networks, for a peer map alone. *)
Definition center_list_peers (own client : PeerMap) : PeerInfoForGlobalMap * PeerMap * PeerMap :=
  let '(infos, own, client) := service_list_peers own client in
  (peer_info_for_global_map infos, own, client).

Definition map_list_peer (acc : PeerInfoForGlobalMap * PeerMap) (peer : PeerId) : PeerInfoForGlobalMap * PeerMap :=
  match pmap_list_peer_conns peer acc.2 with
  | (Some lats, pm) => (add_latency acc.1 (peer, lats), pm)
  | (None, pm) => (acc.1, pm)
  end.
Definition map_list_peers (pm : PeerMap) : PeerInfoForGlobalMap * PeerMap :=
  foldl map_list_peer (∅, pm) (list_peers pm).
End listing.

(** ** The server *)

(** [SrcDstPeerPair], ordered by its fields. *)
Abbreviation SrcDstPeerPair := (PeerId * PeerId)%type.
Definition pair_leb (x y : SrcDstPeerPair) : bool := (x.1 <? y.1) || (x.1 =? y.1) && (x.2 <=? y.2).

Record PeerCenterInfoEntry := { info : Z; update_time : Z }.

Record PeerCenterServerGlobalData := {
  center_peer_map : gmap SrcDstPeerPair PeerCenterInfoEntry; peer_report_time : gmap PeerId Z; digest : Digest }.

Definition global_data_default : PeerCenterServerGlobalData :=
  {| center_peer_map := ∅; peer_report_time := ∅; digest := 0 |}.

Definition OUTDATED : Z := 180 * SEC.

Definition clean_outdated_peer (now : Z) (data : PeerCenterServerGlobalData) : PeerCenterServerGlobalData := {|
  center_peer_map := retain (fun _ v => duration_since now (update_time v) <? OUTDATED) (center_peer_map data);
  peer_report_time := retain (fun _ v => duration_since now v <? OUTDATED) (peer_report_time data);
  digest := digest data |}.

Section server.
Context `{Hasher64} `{!IterOrder SrcDstPeerPair PeerCenterInfoEntry}.

(** The derived [Hash] of a pair writes its two [u32]s. *)
Definition pair_bytes (x : SrcDstPeerPair) : bytes := le_bytes 4 x.1 ++ le_bytes 4 x.2.

Definition calc_global_digest (m : gmap SrcDstPeerPair PeerCenterInfoEntry) : Digest :=
  hash64 (concat (pair_bytes <$> stable_sort pair_leb (map_iter m).*1)).

Definition add_pairs (now : Z) (src : PeerId) (infos : PeerInfoForGlobalMap)
    (m : gmap SrcDstPeerPair PeerCenterInfoEntry) : gmap SrcDstPeerPair PeerCenterInfoEntry :=
  foldl (fun m x => <[(src, x.1) := {| info := x.2; update_time := now |}]> m) m (map_to_list infos).

(** [report_peers]; the infos are optional in the message. *)
Definition report_peers (now : Z) (my_peer_id : PeerId) (peer_infos : option PeerInfoForGlobalMap)
    (data : PeerCenterServerGlobalData) : PeerCenterServerGlobalData :=
  let m := add_pairs now my_peer_id (default ∅ peer_infos) (center_peer_map data) in
  {| center_peer_map := m; peer_report_time := <[my_peer_id := now]> (peer_report_time data);
     digest := calc_global_digest m |}.

(** The map by source that a full answer carries. *)
Definition add_item (ret : GlobalPeerMap) (item : SrcDstPeerPair * PeerCenterInfoEntry) : GlobalPeerMap :=
  <[item.1.1 := <[item.1.2 := info item.2]> (default ∅ (ret !! item.1.1))]> ret.
Definition full_map (data : PeerCenterServerGlobalData) : GlobalPeerMap :=
  foldl add_item ∅ (map_iter (center_peer_map data)).

Definition get_global_peer_map (req_digest : Digest) (data : PeerCenterServerGlobalData) : GetGlobalPeerMapResponse :=
  if (req_digest =? digest data) && negb (req_digest =? 0) then response_default
  else {| rsp_global_peer_map := full_map data; rsp_digest := Some (digest data) |}.
End server.

(** ** The election *)

(** Of a route the peer and, if its feature flags are known, whether it is a
    public server. *)
Definition better_center (min_peer : PeerId) (r : PeerId * option bool) : PeerId :=
  if negb (default false r.2) && (r.1 <? min_peer) then r.1 else min_peer.
Definition select_center_peer (my_peer_id : PeerId) (routes : list (PeerId * option bool)) : option PeerId :=
  match routes with
  | [] => None
  | _ => Some (foldl better_center my_peer_id routes)
  end.

(** What [PeerRoute::list_routes] tells the election. *)
Definition list_route_flags `{RouteLib, PrefixTrie} {C : Type} `{!IterOrder PeerId RoutePeerInfo}
    (v : PeerRouteServiceImpl (C := C)) : list (PeerId * option bool) :=
  omap (fun kv => if bool_decide (kv.1 = my_peer_id v) then None
                  else (fun _ => (ri_peer_id kv.2, is_public_server <$> ri_feature_flag kv.2))
                         <$> get_next_hop kv.1 (route_table v))
    (map_iter (rt_peer_infos (route_table v))).

(** ** The jobs of a node *)

Record PeerCenterInstance := {
  global_peer_map : GlobalPeerMap; global_peer_map_digest : Digest; global_peer_map_update_time : Z }.

Definition instance_new (now : Z) : PeerCenterInstance :=
  {| global_peer_map := ∅; global_peer_map_digest := 0; global_peer_map_update_time := now |}.

(** The digest the get job sends, reset when the map is old. *)
Definition request_digest (now : Z) (i : PeerCenterInstance) : Digest :=
  if 120 <? elapsed_secs now (global_peer_map_update_time i) then 0 else global_peer_map_digest i.

(** The get job: [answer] is the outcome of the call, [None] for an error;
    [now'] is the time of the answer.  The result has the time to sleep. *)
Definition get_global_info_job (now now' : Z) (answer : option GetGlobalPeerMapResponse) (i : PeerCenterInstance)
    : Z * PeerCenterInstance :=
  let d := request_digest now i in
  let i := {| global_peer_map := global_peer_map i; global_peer_map_digest := d;
              global_peer_map_update_time := global_peer_map_update_time i |} in
  match answer with
  | None => (10000, i)
  | Some resp =>
      if bool_decide (resp = response_default) then (15000, i)
      else (15000, {| global_peer_map := rsp_global_peer_map resp; global_peer_map_digest := default 0 (rsp_digest resp);
                      global_peer_map_update_time := now' |})
  end.

(** The node's own RPC service. *)
Definition instance_get_global_peer_map (i : PeerCenterInstance) : GetGlobalPeerMapResponse :=
  {| rsp_global_peer_map := global_peer_map i; rsp_digest := Some (global_peer_map_digest i) |}.

Record ReportCtx := { last_report_peers : gset PeerId; last_center_peer : PeerId; last_report_time : Z }.
Definition report_ctx_new (now : Z) : ReportCtx :=
  {| last_report_peers := ∅; last_center_peer := 0; last_report_time := now |}.

(** Whether the report job has something to say. *)
Definition should_report (now : Z) (center : PeerId) (peers : PeerInfoForGlobalMap) (c : ReportCtx) : bool :=
  negb ((center =? last_center_peer c) && (elapsed_secs now (last_report_time c) <? 60)
        && bool_decide (last_report_peers c = dom peers)).

(** The report job: the request it sends, if any, and its state after the
    call, which [ok] says whether it succeeded. *)
Definition report_peers_job (now now' : Z) (center : PeerId) (peers : PeerInfoForGlobalMap) (ok : bool) (c : ReportCtx)
    : option PeerInfoForGlobalMap * ReportCtx :=
  if should_report now center peers c then
    (Some peers, if ok then {| last_report_peers := dom peers; last_center_peer := center; last_report_time := now' |}
                 else c)
  else (None, c).

(** [get_global_data] on the store of all nodes' data. *)
Definition get_global_data (node : PeerId) (servers : gmap PeerId PeerCenterServerGlobalData)
    : PeerCenterServerGlobalData := default global_data_default (servers !! node).

(** One iteration of a periodic job, with the milliseconds to sleep after it. *)
Definition periodic_job {S : Type} (routes : list (PeerId * option bool)) (me : PeerId)
    (job : PeerId -> S -> result unit Z * S) (s : S) : Z * S :=
  match select_center_peer me routes with
  | None => (1000, s)
  | Some center =>
      match job center s with
      | (Ok ms, s) => (ms, s)
      | (Err _, s) => (3000, s)
      end
  end.

(** What becomes of a call to the center. *)
Inductive call_fate := Answered | AnswerLost | RequestLost.
Definition answered (f : call_fate) : bool := match f with Answered => true | _ => false end.
Definition delivered (f : call_fate) : bool := match f with RequestLost => false | _ => true end.

Section rounds.
Context `{Hasher64} `{!IterOrder SrcDstPeerPair PeerCenterInfoEntry}.

(** The two periodic jobs with the centers they call. *)
Definition report_round (now : Z) (routes : list (PeerId * option bool)) (me : PeerId) (peers : PeerInfoForGlobalMap)
    (fate : call_fate) (s : gmap PeerId PeerCenterServerGlobalData * ReportCtx)
    : Z * (gmap PeerId PeerCenterServerGlobalData * ReportCtx) :=
  periodic_job routes me (fun center '(servers, c) =>
    let '(req, c) := report_peers_job now now center peers (answered fate) c in
    (Ok 5000, (match req with
               | Some infos => if delivered fate
                               then <[center := report_peers now me (Some infos) (get_global_data center servers)]> servers
                               else servers
               | None => servers
               end, c))) s.

Definition get_round (now now' : Z) (routes : list (PeerId * option bool)) (me : PeerId) (fate : call_fate)
    (servers : gmap PeerId PeerCenterServerGlobalData) (i : PeerCenterInstance) : Z * PeerCenterInstance :=
  periodic_job routes me (fun center i =>
    let resp := get_global_peer_map (request_digest now i) (get_global_data center servers) in
    let '(ms, i) := get_global_info_job now now' (if answered fate then Some resp else None) i in
    (Ok ms, i)) i.
End rounds.

(** ** Costs *)

(** The calculator shares the map and its time with the instance. *)
Record RouteCostCalculatorImpl := {
  shared : PeerCenterInstance; global_peer_map_clone : GlobalPeerMap; last_update_time : Z }.

Definition get_cost_calculator (i : PeerCenterInstance) : RouteCostCalculatorImpl :=
  {| shared := i; global_peer_map_clone := ∅; last_update_time := global_peer_map_update_time i - SEC |}.

(** A write of the instance, seen through the shared cells. *)
Definition share (i : PeerCenterInstance) (c : RouteCostCalculatorImpl) : RouteCostCalculatorImpl :=
  {| shared := i; global_peer_map_clone := global_peer_map_clone c; last_update_time := last_update_time c |}.

Definition directed_cost (m : GlobalPeerMap) (src dst : PeerId) : option Z := m !! src ≫= (.!! dst).

Definition map_cost (m : GlobalPeerMap) (src dst : PeerId) : Z :=
  match directed_cost m src dst with
  | Some cost => cost
  | None => default 500 (directed_cost m dst src)
  end.

#[global] Instance center_cost_calculator : CostCalculator RouteCostCalculatorImpl := {|
  calculate_cost c := map_cost (global_peer_map_clone c);
  begin_update c := {| shared := shared c; global_peer_map_clone := global_peer_map (shared c);
                       last_update_time := last_update_time c |};
  end_update c := {| shared := shared c; global_peer_map_clone := global_peer_map_clone c;
                     last_update_time := global_peer_map_update_time (shared c) |};
  need_update c := last_update_time c <? global_peer_map_update_time (shared c) |}.

(** ** What a center holds *)

Lemma directed_cost_insert m s d x s' d' :
  directed_cost (<[s := <[d := x]> (default ∅ (m !! s))]> m) s' d' =
  if decide ((s, d) = (s', d')) then Some x else directed_cost m s' d'.
Proof.
  unfold directed_cost. destruct (decide (s = s')) as [->|Hs].
  - rewrite lookup_insert_eq; simpl. destruct (decide (d = d')) as [->|Hd].
    + by rewrite lookup_insert_eq, decide_True.
    + rewrite lookup_insert_ne, decide_False by congruence. by destruct (m !! s').
  - by rewrite lookup_insert_ne, decide_False by congruence.
Qed.

Section held.
Context `{Hasher64} `{!IterOrder SrcDstPeerPair PeerCenterInfoEntry}.

Lemma add_items_lookup l acc s d : NoDup l.*1 ->
  directed_cost (foldl add_item acc l) s d =
  match list_to_map (M := gmap _ _) l !! (s, d) with Some e => Some (info e) | None => directed_cost acc s d end.
Proof.
  revert acc; induction l as [|[[s0 d0] e] l IH]; intros acc Hnd; simpl; [by rewrite lookup_empty|].
  apply NoDup_cons in Hnd as [Hnin Hnd]. rewrite IH by done. unfold add_item at 1; simpl.
  rewrite directed_cost_insert, lookup_insert. destruct (decide _) as [Heq|]; [|done].
  injection Heq as -> ->. by rewrite not_elem_of_list_to_map_1.
Qed.

(** A full answer has exactly the pairs of the center. *)
Lemma full_map_lookup data s d : directed_cost (full_map data) s d = info <$> center_peer_map data !! (s, d).
Proof.
  unfold full_map. rewrite add_items_lookup.
  - erewrite list_to_map_proper with (l2 := map_to_list (center_peer_map data)).
    + rewrite list_to_map_to_list. by destruct (center_peer_map data !! (s, d)).
    + rewrite map_iter_perm. apply NoDup_fst_map_to_list.
    + apply map_iter_perm.
  - rewrite map_iter_perm. apply NoDup_fst_map_to_list.
Qed.

Lemma add_pairs_lookup now src infos m s d :
  add_pairs now src infos m !! (s, d) =
  match (if decide (s = src) then infos !! d else None) with
  | Some x => Some {| info := x; update_time := now |}
  | None => m !! (s, d)
  end.
Proof.
  unfold add_pairs. generalize (map_to_list infos) (list_to_map_to_list infos) (NoDup_fst_map_to_list infos).
  intros l <- Hnd. revert m Hnd; induction l as [|[k x] l IH]; intros m Hnd; simpl.
  - rewrite lookup_empty. by case_decide.
  - apply NoDup_cons in Hnd as [Hnin Hnd]. rewrite IH by done. rewrite !lookup_insert.
    destruct (decide (s = src)) as [->|Hs]; [|by rewrite decide_False by congruence].
    destruct (decide (k = d)) as [->|Hk]; [|by rewrite (decide_False (P := (src, k) = (src, d))) by congruence].
    by rewrite not_elem_of_list_to_map_1, decide_True by done.
Qed.
End held.

(** The life of a center. *)
Inductive center_event :=
| Reported (now : Z) (src : PeerId) (infos : PeerInfoForGlobalMap)
| Cleaned (now : Z).

Section refinement.
Context `{Hasher64} `{!IterOrder SrcDstPeerPair PeerCenterInfoEntry}.

Definition center_step (data : PeerCenterServerGlobalData) (ev : center_event) : PeerCenterServerGlobalData :=
  match ev with
  | Reported now src infos => report_peers now src (Some infos) data
  | Cleaned now => clean_outdated_peer now data
  end.
Definition center_run (evs : list center_event) : PeerCenterServerGlobalData :=
  foldl center_step global_data_default evs.

(** The event leaves a report of [pair] made at [t] in force. *)
Definition keeps (s d : PeerId) (t : Z) (ev : center_event) : Prop :=
  match ev with
  | Reported _ src infos => src = s -> infos !! d = None
  | Cleaned now => duration_since now t < OUTDATED
  end.

(** The latest report of the pair is [e], and no cleaning has expired it. *)
Definition held (evs : list center_event) (s d : PeerId) (e : PeerCenterInfoEntry) : Prop :=
  exists before now infos after, evs = before ++ Reported now s infos :: after /\
    infos !! d = Some (info e) /\ update_time e = now /\ Forall (keeps s d now) after.

Lemma held_snoc evs ev s d e : held (evs ++ [ev]) s d e <->
  (exists now infos, ev = Reported now s infos /\ infos !! d = Some (info e) /\ update_time e = now) \/
  held evs s d e /\ keeps s d (update_time e) ev.
Proof.
  split.
  - intros (before & now & infos & after & E & Hd & Ht & Hk).
    destruct after as [|x after _] using rev_ind.
    + apply app_inj_2 in E as [_ [= ->]]; [|done]. left; eauto.
    + rewrite app_comm_cons, app_assoc in E. apply app_inj_2 in E as [-> [= ->]]; [|done].
      apply Forall_app in Hk as [Hk Hx]. inversion Hx; subst. right; split; [|done].
      by exists before, (update_time e), infos, after.
  - intros [(now & infos & -> & Hd & Ht) | [(before & now & infos & after & -> & Hd & Ht & Hk) Hev]].
    + by exists evs, now, infos, [].
    + exists before, now, infos, (after ++ [ev]). rewrite <- app_assoc, Ht in *. split_and!; [done..|].
      apply Forall_app; auto.
Qed.

(** The map of a center refines the log of what was reported to it. *)
Lemma center_refines_log evs s d e : center_peer_map (center_run evs) !! (s, d) = Some e <-> held evs s d e.
Proof.
  revert e; induction evs as [|ev evs IH] using rev_ind; intros e.
  { split; [done|]. by intros ([|] & ? & ? & ? & ? & _). }
  unfold center_run. rewrite foldl_snoc, held_snoc, <- IH. fold (center_run evs). destruct ev as [now src infos|now]; simpl.
  - rewrite add_pairs_lookup. destruct (decide (s = src)) as [->|Hs].
    + destruct (infos !! d) as [x|] eqn:Ed.
      * split; [intros [= <-]; left; eauto|]. intros [(? & ? & [= <- <-] & ? & ?)|[_ Hk]]; [|by specialize (Hk eq_refl)].
        destruct e; simpl in *; congruence.
      * split; [by right|]. intros [(? & ? & [= <- <-] & ? & ?)|[]]; [congruence|done].
    + split; [right; split; [done | by intros ->] | intros [(? & ? & [= <- <-] & ? & ?)|[]]; [done..]].
  - rewrite retain_Some. split; [intros [? ?]; right; split; [done|lia]|].
    intros [(? & ? & ? & _)|[? ?]]; [done|]. split; [done|lia].
Qed.
End refinement.

(** ** Pairs of a live reporter *)

Section survival.
Context `{Hasher64} `{!IterOrder SrcDstPeerPair PeerCenterInfoEntry}.
Context (me dst center : PeerId).

(** The time, the centers, the state of our report job, and when a round of it
    last came through (made a successful call, or had nothing to report). *)
Record report_world := mkReportWorld {
  rw_now : Z; rw_servers : gmap PeerId PeerCenterServerGlobalData; rw_ctx : ReportCtx; rw_last_run : Z }.

(** A round that elects [center] while we are connected to [dst]. *)
Definition own_round (routes : list (PeerId * option bool)) (peers : PeerInfoForGlobalMap) : Prop :=
  select_center_peer me routes = Some center /\ is_Some (peers !! dst).

Definition came_through (now : Z) (peers : PeerInfoForGlobalMap) (fate : call_fate) (c : ReportCtx) : bool :=
  answered fate || negb (should_report now center peers c).

Inductive report_step : report_world -> report_world -> Prop :=
| step_time now w : rw_now w <= now -> now <= rw_last_run w + 120 * SEC ->
    report_step w (mkReportWorld now (rw_servers w) (rw_ctx w) (rw_last_run w))
| step_clean node w :
    report_step w (mkReportWorld (rw_now w)
      (<[node := clean_outdated_peer (rw_now w) (get_global_data node (rw_servers w))]> (rw_servers w)) (rw_ctx w) (rw_last_run w))
| step_other src node infos w : src <> me ->
    report_step w (mkReportWorld (rw_now w)
      (<[node := report_peers (rw_now w) src infos (get_global_data node (rw_servers w))]> (rw_servers w)) (rw_ctx w) (rw_last_run w))
| step_round routes peers fate ms servers c w : own_round routes peers ->
    report_round (rw_now w) routes me peers fate (rw_servers w, rw_ctx w) = (ms, (servers, c)) ->
    report_step w (mkReportWorld (rw_now w) servers c
      (if came_through (rw_now w) peers fate (rw_ctx w) then rw_now w else rw_last_run w)).

(** From a node's first successful round on. *)
Inductive report_reachable : report_world -> Prop :=
| report_start t0 now routes peers ms servers0 servers c : own_round routes peers ->
    report_round now routes me peers Answered (servers0, report_ctx_new t0) = (ms, (servers, c)) ->
    report_reachable (mkReportWorld now servers c now)
| report_next w w' : report_reachable w -> report_step w w' -> report_reachable w'.

Lemma get_data_insert node node' x servers :
  get_global_data node (<[node' := x]> servers) = if decide (node' = node) then x else get_global_data node servers.
Proof. unfold get_global_data. rewrite lookup_insert. by case_decide. Qed.

(** One round: it reports, and on success remembers it, or is satisfied with
    its last report to the center. *)
Lemma report_round_spec now routes peers fate servers c ms servers' c' : own_round routes peers ->
  report_round now routes me peers fate (servers, c) = (ms, (servers', c')) -> ms = 5000 /\
  if should_report now center peers c
  then servers' = (if delivered fate then <[center := report_peers now me (Some peers) (get_global_data center servers)]> servers
                   else servers) /\
       c' = (if answered fate
             then {| last_report_peers := dom peers; last_center_peer := center; last_report_time := now |} else c)
  else servers' = servers /\ c' = c.
Proof.
  intros [Hc _]. unfold report_round, periodic_job, report_peers_job. rewrite Hc.
  destruct (should_report _ _ _ _); intros [= <- <- <-]; done.
Qed.

Lemma satisfied now peers c : should_report now center peers c = false ->
  last_center_peer c = center /\ duration_since now (last_report_time c) < 60 * SEC.
Proof.
  unfold should_report. intros Hs. rewrite <- elapsed_secs_lt by lia.
  apply negb_false_iff, andb_true_iff in Hs as [Hs _]. lia.
Qed.

(** The center has our pair from the last report or a later one, and the last
    round that came through was less than a minute after that report. *)
Record report_ok (w : report_world) : Prop := {
  ro_pair : exists e, center_peer_map (get_global_data center (rw_servers w)) !! (me, dst) = Some e /\
    last_report_time (rw_ctx w) <= update_time e <= rw_now w;
  ro_run : last_report_time (rw_ctx w) <= rw_last_run w <= rw_now w /\ rw_last_run w - last_report_time (rw_ctx w) < 60 * SEC;
  ro_now : rw_now w <= rw_last_run w + 120 * SEC
}.

Lemma reported_pair now peers data : is_Some (peers !! dst) ->
  exists x, center_peer_map (report_peers now me (Some peers) data) !! (me, dst) = Some {| info := x; update_time := now |}.
Proof. intros [x Hx]. exists x. simpl. by rewrite add_pairs_lookup, decide_True, Hx by done. Qed.

Lemma report_step_ok w w' : report_ok w -> report_step w w' -> report_ok w'.
Proof.
  intros [(e & He & Ht) [Hr1 Hr2] Hn] Hstep. destruct Hstep as [now w Hle Hb|node w|src node infos w Hsrc|routes peers fate ms servers c w Hround E];
    simpl in *.
  - split; simpl; [exists e; split; [done|lia] | lia..].
  - split; simpl; [|lia..]. exists e; split; [|done]. rewrite get_data_insert. case_decide; [subst node|done].
    simpl. rewrite retain_Some. split; [done|]. unfold duration_since, OUTDATED, SEC in *. lia.
  - split; simpl; [|lia..]. exists e; split; [|done]. rewrite get_data_insert. case_decide; [subst node|done].
    simpl. by rewrite add_pairs_lookup, decide_False by done.
  - destruct (report_round_spec _ _ _ _ _ _ _ _ _ Hround E) as [_ Hs]. unfold came_through.
    destruct (should_report (rw_now w) center peers (rw_ctx w)) eqn:Esr; destruct Hs as [-> ->].
    + destruct (reported_pair (rw_now w) peers (get_global_data center (rw_servers w)) (proj2 Hround)) as [x Hx].
      destruct fate; cbn -[SEC report_peers]; (split; cbn -[SEC report_peers]; [|unfold SEC in *; lia..]); [..|by exists e];
        eexists; rewrite get_data_insert, decide_True by done; (split; [exact Hx | simpl; lia]).
    + apply satisfied in Esr as [_ Hd]. unfold duration_since in Hd. rewrite orb_true_r.
      split; simpl; [by exists e | unfold SEC in *; lia..].
Qed.

Lemma report_reachable_ok w : report_reachable w -> report_ok w.
Proof.
  induction 1 as [t0 now routes peers ms servers0 servers c Hround E|w w' _ IH Hstep]; [|by eapply report_step_ok].
  destruct (report_round_spec _ _ _ _ _ _ _ _ _ Hround E) as [_ Hs].
  assert (should_report now center peers (report_ctx_new t0) = true) as Esr.
  { unfold should_report. destruct (proj2 Hround) as [x Hx]. apply negb_true_iff, andb_false_iff; right.
    apply bool_decide_eq_false. simpl. intros Hd. apply elem_of_dom_2 in Hx. set_solver. }
  rewrite Esr in Hs. destruct Hs as [-> ->].
  destruct (reported_pair now peers (get_global_data center servers0) (proj2 Hround)) as [x Hx].
  split; cbn -[SEC report_peers]; [|unfold SEC; lia..]. eexists. rewrite get_data_insert, decide_True by done.
  split; [exact Hx | simpl; lia].
Qed.

(** A node reports often enough: as long as a round of its report job
    comes through at least every 120 seconds, its elected center never loses the
    latency to a peer it stays connected to, whatever calls fail, whatever
    other nodes report and whenever the center cleans its map. *)
Theorem reported_pairs_survive (w : report_world) (Hw : report_reachable w) :
  exists e, center_peer_map (get_global_data center (rw_servers w)) !! (me, dst) = Some e /\
    rw_now w - update_time e < OUTDATED.
Proof.
  destruct (report_reachable_ok w Hw) as [(e & He & Ht) [Hr1 Hr2] Hn]. exists e. split; [done|].
  unfold OUTDATED, SEC in *. lia.
Qed.
End survival.

(** ** The view of a client *)

Section client.
Context `{Hasher64} `{!IterOrder SrcDstPeerPair PeerCenterInfoEntry} (me : PeerId) (D : Z).

(** The life of a get job whose answered calls take at most [D]: the log has,
    for each answered call, when it was made and what its center held. *)
Inductive client_run : list (Z * PeerCenterServerGlobalData) -> Z -> PeerCenterInstance -> Prop :=
| client_start t0 : client_run [] t0 (instance_new t0)
| client_failed log t now now' routes fate servers i : client_run log t i -> t <= now <= now' -> fate <> Answered ->
    client_run log now' (get_round now now' routes me fate servers i).2
| client_idle log t now routes servers i : client_run log t i -> t <= now -> select_center_peer me routes = None ->
    client_run log now (get_round now now routes me Answered servers i).2
| client_polled log t now now' routes center servers i : client_run log t i -> t <= now <= now' -> now' - now <= D ->
    select_center_peer me routes = Some center ->
    client_run ((now, get_global_data center servers) :: log) now' (get_round now now' routes me Answered servers i).2.

(** The map is the full one of some answered call, stored when it returned. *)
Definition seen (log : list (Z * PeerCenterServerGlobalData)) (i : PeerCenterInstance) : Prop :=
  exists t data, (t, data) ∈ log /\ t <= global_peer_map_update_time i <= t + D /\ global_peer_map i = full_map data.

Lemma full_answer d data : get_global_peer_map d data <> response_default ->
  get_global_peer_map d data = {| rsp_global_peer_map := full_map data; rsp_digest := Some (digest data) |}.
Proof. unfold get_global_peer_map. by case_match. Qed.

(** An empty answer means that the digest sent was not zero. *)
Lemma empty_answer d data : get_global_peer_map d data = response_default -> d <> 0.
Proof. unfold get_global_peer_map. case_match; [lia | done]. Qed.

Lemma request_digest_recent now i : request_digest now i <> 0 -> global_peer_map_digest i <> 0 /\
  duration_since now (global_peer_map_update_time i) < 121 * SEC.
Proof.
  unfold request_digest. destruct (120 <? _) eqn:E; [done|]. intros Hd. split; [done|].
  apply elapsed_secs_lt; lia.
Qed.

Lemma failed_round now now' routes fate servers i : fate <> Answered \/ select_center_peer me routes = None ->
  let i' := (get_round now now' routes me fate servers i).2 in
  global_peer_map i' = global_peer_map i /\ global_peer_map_update_time i' = global_peer_map_update_time i /\
  (global_peer_map_digest i' <> 0 -> global_peer_map_digest i <> 0).
Proof.
  intros Hf. unfold get_round, periodic_job. destruct (select_center_peer me routes) as [c|]; [|done].
  destruct Hf as [Hf|?]; [|done]. destruct fate; [done|..]; simpl; (split_and!; [done..|]);
    intros Hd; by apply request_digest_recent in Hd as [? _].
Qed.

Lemma polled_round now now' routes center servers i : select_center_peer me routes = Some center ->
  let data := get_global_data center servers in
  let i' := (get_round now now' routes me Answered servers i).2 in
  if bool_decide (get_global_peer_map (request_digest now i) data = response_default)
  then i' = i
  else i' = {| global_peer_map := full_map data; global_peer_map_digest := digest data; global_peer_map_update_time := now' |}.
Proof.
  intros Hc. unfold get_round, periodic_job, get_global_info_job. rewrite Hc. simpl.
  case_bool_decide as Hr; simpl.
  - apply empty_answer in Hr. unfold request_digest in *. case_match; [done | by destruct i].
  - by rewrite full_answer by done.
Qed.

Lemma client_run_ok log t i : client_run log t i ->
  global_peer_map_update_time i <= t /\ (global_peer_map_digest i <> 0 -> seen log i).
Proof.
  assert (forall x log i, seen log i -> seen (x :: log) i) as Hmore.
  { intros x l j (t' & data & ? & ?). exists t', data. split; [by right | done]. }
  assert (forall log i i', global_peer_map i' = global_peer_map i ->
    global_peer_map_update_time i' = global_peer_map_update_time i -> seen log i -> seen log i') as Hsame.
  { intros l j j' E1 E2 (t' & data & ?). exists t', data. by rewrite E1, E2. }
  induction 1 as [t0|log t now now' routes fate servers i Hrun [IHt IHs] Ht Hf|log t now routes servers i Hrun [IHt IHs] Ht Hc
    |log t now now' routes center servers i Hrun [IHt IHs] Ht HD Hc]; [done|..].
  - destruct (failed_round now now' routes fate servers i (or_introl Hf)) as (E1 & E2 & E3). rewrite E2.
    split; [lia|]. intros Hd. eapply Hsame; eauto.
  - destruct (failed_round now now routes Answered servers i (or_intror Hc)) as (E1 & E2 & E3). rewrite E2.
    split; [lia|]. intros Hd. eapply Hsame; eauto.
  - pose proof (polled_round now now' routes center servers i Hc) as Hp. cbv zeta in Hp. case_bool_decide as Hr; rewrite Hp.
    + split; [lia|]. auto.
    + simpl. split; [lia|]. intros _. exists now, (get_global_data center servers). simpl.
      split_and!; [by left|lia|lia|done].
Qed.

(** C35.  After a poll that was answered, the map a node computes its costs
    from is exactly what an elected center held at most 121 seconds and two
    call durations before, however many polls failed in between and however
    often the answer was that nothing changed. *)
Theorem client_view_fresh (log : list (Z * PeerCenterServerGlobalData)) (t now now' : Z)
    (routes : list (PeerId * option bool)) (center : PeerId) (servers : gmap PeerId PeerCenterServerGlobalData)
    (i : PeerCenterInstance) (Hrun : client_run log t i) (Ht : t <= now <= now') (HD : now' - now <= D)
    (Hc : select_center_peer me routes = Some center) :
  exists t0 data, (t0, data) ∈ (now, get_global_data center servers) :: log /\ now' - t0 < 121 * SEC + 2 * D /\
    global_peer_map (get_round now now' routes me Answered servers i).2 = full_map data.
Proof.
  pose proof (polled_round now now' routes center servers i Hc) as Hp. cbv zeta in Hp. case_bool_decide as Hr; rewrite Hp.
  - apply empty_answer, request_digest_recent in Hr as [Hd Hrec].
    destruct (client_run_ok _ _ _ Hrun) as [Hu Hs]. destruct (Hs Hd) as (t0 & data & Hin & Ht0 & Hm).
    exists t0, data. split; [by right|]. split; [|done]. unfold duration_since, SEC in *. lia.
  - exists now, (get_global_data center servers). split; [by left|]. split; [unfold SEC; lia | done].
Qed.
End client.

(** ** Costs *)

Lemma latency_ms_bounds lat : 1 <= latency_ms lat <= 4294967.
Proof.
  unfold latency_ms. pose proof (wrap_in_width 32 lat ltac:(lia)) as [H0 H1]. 
  assert (as_u32 lat / 1000 <= 4294967); [|lia]. apply Z.lt_succ_r, Z.div_lt_upper_bound; lia.
Qed.

Lemma info_for_global_map_bounds peers p x : peer_info_for_global_map peers !! p = Some x -> 1 <= x <= 4294967.
Proof.
  unfold peer_info_for_global_map. revert x. induction peers as [|[q lats] peers IH] using rev_ind; intros x; [done|].
  rewrite foldl_snoc. unfold add_latency at 1. simpl. destruct (min_latency lats) as [lat|]; [|apply IH].
  rewrite lookup_insert. case_decide; [intros [= <-]; apply latency_ms_bounds | apply IH].
Qed.

(** What is collected is the least latency of a peer's connections. *)
Lemma min_latency_spec l m : min_latency l = Some m -> m ∈ l /\ Forall (Z.le m) l.
Proof.
  destruct l as [|x l]; [done|]. simpl. intros [= <-]. revert x. induction l as [|y l IH]; intros x; simpl.
  { split; [by left | by repeat constructor]. }
  destruct (IH (Z.min x y)) as [Hin Hle]. apply Forall_cons in Hle as [Hxy Hle]. split.
  - apply elem_of_cons in Hin as [->|Hin]; [|set_solver]. destruct (Z.min_spec x y) as [[_ ->]|[_ ->]]; set_solver.
  - repeat constructor; [lia..|done].
Qed.

Section costs.
Context `{Hasher64} `{!IterOrder SrcDstPeerPair PeerCenterInfoEntry}.

(** Reports made by [list_peers], not forged. *)
Definition measured (ev : center_event) : Prop :=
  match ev with Reported _ _ infos => exists peers, infos = peer_info_for_global_map peers | Cleaned _ => True end.

Lemma held_bounds evs s d e : Forall measured evs -> held evs s d e -> 1 <= info e <= 4294967.
Proof.
  intros Hm (before & now & infos & after & -> & Hd & _). apply Forall_app in Hm as [_ Hm].
  apply Forall_cons in Hm as [[peers ->] _]. by eapply info_for_global_map_bounds.
Qed.

(** C36.  Costs are the collected latencies: once a node has the full answer of
    a center and its route service begins an update, the cost of an edge is the
    latest latency that the source reported and the center did not expire,
    without one the latency of the other direction, and 500 if neither is
    known; with honest reports every cost is positive and small enough for the
    route tables. *)
Theorem measured_costs (evs : list center_event) (now now' : Z) (i : PeerCenterInstance) (c : RouteCostCalculatorImpl)
    (src dst : PeerId) (Hev : Forall measured evs)
    (Hd : request_digest now i = 0 \/ request_digest now i <> digest (center_run evs)) :
  let answer := get_global_peer_map (request_digest now i) (center_run evs) in
  let i' := (get_global_info_job now now' (Some answer) i).2 in
  let cost := calculate_cost (begin_update (share i' c)) src dst in
  (forall e, held evs src dst e -> cost = info e) /\
  ((forall e, ~ held evs src dst e) -> forall e, held evs dst src e -> cost = info e) /\
  ((forall e, ~ held evs src dst e) -> (forall e, ~ held evs dst src e) -> cost = 500) /\
  1 <= cost < 2 ^ 31.
Proof.
  intros answer i' cost. assert (answer <> response_default) as Ha.
  { unfold answer, get_global_peer_map. case_match; [lia|done]. }
  assert (cost = map_cost (full_map (center_run evs)) src dst) as ->.
  { unfold cost, i', get_global_info_job. rewrite bool_decide_eq_false_2 by done. simpl.
    unfold answer. by rewrite full_answer by done. }
  clear i' Ha answer. unfold map_cost. rewrite !full_map_lookup.
  assert (forall s d, match center_peer_map (center_run evs) !! (s, d) with
    | Some e => held evs s d e | None => forall e, ~ held evs s d e end) as Hh.
  { intros s d. destruct (_ !! _) as [e|] eqn:E; [by apply center_refines_log|]. intros e He.
    apply center_refines_log in He. congruence. }
  assert (forall s d e e', held evs s d e -> held evs s d e' -> e = e') as Huniq.
  { intros s d e e' H1 H2. apply center_refines_log in H1, H2. congruence. }
  pose proof (Hh src dst) as H1. pose proof (Hh dst src) as H2.
  destruct (center_peer_map _ !! (src, dst)) as [e|]; simpl.
  { pose proof (held_bounds _ _ _ _ Hev H1). split_and!; [|by intros Hn; destruct (Hn e)..|lia|lia].
    intros e' He. by rewrite (Huniq _ _ _ _ H1 He). }
  destruct (center_peer_map _ !! (dst, src)) as [e|]; simpl.
  { pose proof (held_bounds _ _ _ _ Hev H2). split_and!; [|..|lia|lia]; [by intros e' He; destruct (H1 e')| |by intros _ Hn; destruct (Hn e)].
    intros _ e' He. by rewrite (Huniq _ _ _ _ H2 He). }
  split_and!; [by intros e He; destruct (H1 e)|by intros _ e He; destruct (H2 e)|done|lia|lia].
Qed.
End costs.

(** ** Agreement on the center *)

(** The members of a network, public servers marked, as the routes of [me]. *)
Definition complete_view (members : gmap PeerId bool) (me : PeerId) (routes : list (PeerId * option bool)) : Prop :=
  (forall p f, (p, f) ∈ routes -> members !! p = Some (default false f)) /\
  forall p b, members !! p = Some b -> p <> me -> exists f, (p, f) ∈ routes.

Lemma best_center_spec routes m0 : let c := foldl better_center m0 routes in
  (c = m0 \/ exists f, (c, f) ∈ routes /\ default false f = false) /\ c <= m0 /\
  forall p f, (p, f) ∈ routes -> default false f = false -> c <= p.
Proof.
  induction routes as [|[q g] routes IH] using rev_ind; simpl in *; [split_and!; [by left|lia|set_solver]|].
  rewrite foldl_snoc. destruct IH as (Hin & Hle & Hall). set (c := foldl better_center m0 routes) in *. clearbody c.
  unfold better_center; simpl.
  destruct (negb (default false g) && _) eqn:E; simpl.
  - split_and!; [right; exists g; split; [set_solver | by destruct g as [[]|]] | lia|]. intros p f Hp Hf.
    apply elem_of_app in Hp as [Hp|Hp]; [specialize (Hall _ _ Hp Hf); lia | set_solver by lia].
  - split_and!; [destruct Hin as [->|(f & ? & ?)]; [by left | right; exists f; set_solver] | lia|]. intros p f Hp Hf.
    apply elem_of_app in Hp as [Hp|Hp]; [by apply (Hall p f)|]. apply list_elem_of_singleton in Hp as [= -> ->].
    rewrite Hf in E. simpl in E. lia.
Qed.

(** All nodes that are not public servers and whose routes show the whole
    network elect the same center, the least member that is no public server. *)
Theorem center_agreement (members : gmap PeerId bool) (a b : PeerId) (ra rb : list (PeerId * option bool))
    (Ha : members !! a = Some false) (Hb : members !! b = Some false) (Hab : a <> b)
    (Hra : complete_view members a ra) (Hrb : complete_view members b rb) :
  exists c, select_center_peer a ra = Some c /\ select_center_peer b rb = Some c /\
    members !! c = Some false /\ forall p, members !! p = Some false -> c <= p.
Proof.
  assert (forall me r, members !! me = Some false -> complete_view members me r ->
    let c := foldl better_center me r in members !! c = Some false /\ forall p, members !! p = Some false -> c <= p) as Hbest.
  { intros me r Hme [Hs Hc]. destruct (best_center_spec r me) as (Hin & Hle & Hall). split.
    - destruct Hin as [->|(f & Hf & Ef)]; [done|]. by rewrite (Hs _ _ Hf), Ef.
    - intros p Hp. destruct (decide (p = me)) as [->|Hne]; [done|]. destruct (Hc p false Hp Hne) as [f Hf].
      apply (Hall p f Hf). specialize (Hs _ _ Hf). congruence. }
  destruct (Hbest a ra Ha Hra) as [Hca Hla]. destruct (Hbest b rb Hb Hrb) as [Hcb Hlb].
  assert (foldl better_center a ra = foldl better_center b rb) as E.
  { specialize (Hla _ Hcb). specialize (Hlb _ Hca). lia. }
  exists (foldl better_center a ra). destruct (proj2 Hra b false Hb) as [fa Hfa]; [done|].
  destruct (proj2 Hrb a false Ha) as [fb Hfb]; [done|].
  split_and!; [|rewrite E|done..]; [destruct ra | destruct rb]; by try apply not_elem_of_nil in Hfa; try apply not_elem_of_nil in Hfb.
Qed.

(** A public server does not filter itself: with the least id it is its own
    center, whatever the other nodes elect. *)
Lemma public_server_elects_itself me routes : routes <> [] -> (forall p f, (p, f) ∈ routes -> me < p) ->
  select_center_peer me routes = Some me.
Proof.
  intros Hne Hall. transitivity (Some (foldl better_center me routes)); [by destruct routes|].
  destruct (best_center_spec routes me) as ([->|(f & Hf & _)] & Hle & _); [done|]. specialize (Hall _ _ Hf). lia.
Qed.

(** ** Defects *)

(** An answer that arrives while the tables are computed is marked as used
    although the costs were the old ones. *)
Lemma update_during_computation_missed (i : PeerCenterInstance) (c : RouteCostCalculatorImpl) :
  let c' := end_update (share i (begin_update c)) in
  need_update c' = false /\ forall s d, calculate_cost c' s d = calculate_cost (begin_update c) s d.
Proof. split; [apply Z.ltb_irrefl | done]. Qed.

#[local] Instance last_hash : Hasher64 := {| hash64 l := as_u64 (1 + sum_list l) |}.

(** [center_run] and a client polling it. *)
Definition poll (now : Z) (evs : list center_event) (i : PeerCenterInstance) : PeerCenterInstance :=
  (get_global_info_job (now * SEC) (now * SEC) (Some (get_global_peer_map (request_digest (now * SEC) i) (center_run evs))) i).2.

Definition link_infos : PeerInfoForGlobalMap := peer_info_for_global_map [(2, [30000; 20000])].
Definition silent : list center_event := [Reported 0 1 link_infos; Cleaned (185 * SEC)].
Definition again : list center_event := silent ++ [Reported (230 * SEC) 1 link_infos].
Definition refreshed : PeerCenterInstance := poll 222 silent (poll 100 [Reported 0 1 link_infos] (instance_new 0)).

(** A client fetches the map after an expired pair was removed.  The digest
    it gets with it still stands for the pair, so when the pair is reported
    again the client is told that nothing changed, for two minutes. *)
Theorem expired_pair_returns_late :
  calculate_cost (begin_update (get_cost_calculator (poll 342 again refreshed))) 1 2 = 500 /\
  calculate_cost (begin_update (get_cost_calculator (poll 343 again refreshed))) 1 2 = 20.
Proof. split; vm_compute; reflexivity. Qed.

(** ** Instances *)

Definition lone_routes : list (PeerId * option bool) := [(1, Some false)].
Definition first_report : gmap PeerId PeerCenterServerGlobalData * ReportCtx :=
  (report_round 0 lone_routes 3 {[ 2 := 20 ]} Answered (∅, report_ctx_new 0)).2.

Lemma reported_pairs_survive_witness :
  let w := mkReportWorld (100 * SEC) (<[1 := clean_outdated_peer (100 * SEC) (get_global_data 1 first_report.1)]> first_report.1)
             first_report.2 0 in
  report_reachable 3 2 1 w /\
  exists e, center_peer_map (get_global_data 1 (rw_servers w)) !! (3, 2) = Some e /\ rw_now w - update_time e < OUTDATED.
Proof.
  assert (report_reachable 3 2 1 (mkReportWorld (100 * SEC)
    (<[1 := clean_outdated_peer (100 * SEC) (get_global_data 1 first_report.1)]> first_report.1) first_report.2 0)) as Hw.
  { eapply report_next; [eapply report_next|].
    - apply (report_start 3 2 1 0 0 lone_routes {[ 2 := 20 ]} 5000 ∅ first_report.1 first_report.2); [|reflexivity].
      split; [reflexivity | by exists 20].
    - apply (step_time 3 2 1 (100 * SEC)); unfold SEC; simpl; lia.
    - apply (step_clean 3 2 1 1 (mkReportWorld (100 * SEC) first_report.1 first_report.2 0)). }
  split; [exact Hw | exact (reported_pairs_survive 3 2 1 _ Hw)].
Defined.

Definition link_servers : gmap PeerId PeerCenterServerGlobalData := {[ 1 := center_run [Reported 0 1 link_infos] ]}.

Lemma client_view_fresh_witness :
  exists t0 data, (t0, data) ∈ [(90 * SEC, get_global_data 1 link_servers)] /\ 91 * SEC - t0 < 121 * SEC + 2 * SEC /\
    global_peer_map (get_round (90 * SEC) (91 * SEC) lone_routes 3 Answered link_servers (instance_new 0)).2 = full_map data.
Proof.
  apply (client_view_fresh 3 SEC [] 0 (90 * SEC) (91 * SEC) lone_routes 1 link_servers (instance_new 0));
    [constructor | unfold SEC; lia.. | reflexivity].
Defined.

Lemma measured_costs_witness :
  let answer := get_global_peer_map 0 (center_run [Reported 0 1 link_infos]) in
  let i := (get_global_info_job SEC SEC (Some answer) (instance_new 0)).2 in
  let cost := calculate_cost (begin_update (share i (get_cost_calculator (instance_new 0)))) 1 2 in
  Forall measured [Reported 0 1 link_infos] /\ 1 <= cost < 2 ^ 31 /\ cost = 20.
Proof.
  assert (Forall measured [Reported 0 1 link_infos]) as Hm by (repeat constructor; by eexists).
  split; [exact Hm|]. split; [|reflexivity].
  apply (measured_costs [Reported 0 1 link_infos] SEC SEC (instance_new 0) (get_cost_calculator (instance_new 0)) 1 2 Hm).
  by left.
Defined.

Definition three_members : gmap PeerId bool := list_to_map [(1, true); (2, false); (3, false)].

Lemma center_agreement_witness :
  exists c, select_center_peer 2 [(1, Some true); (3, None)] = Some c /\ select_center_peer 3 [(1, Some true); (2, Some false)] = Some c /\
    three_members !! c = Some false /\ forall p, three_members !! p = Some false -> c <= p.
Proof.
  assert (forall p b, three_members !! p = Some b -> (p, b) ∈ [(1, true); (2, false); (3, false)]) as Hm.
  { intros p b Hp. by apply elem_of_list_to_map_2 in Hp. }
  apply (center_agreement three_members 2 3); [reflexivity | reflexivity | lia |..]; split.
  - intros p f Hf. repeat (apply elem_of_cons in Hf as [[= -> ->]|Hf]; [reflexivity|]). by apply not_elem_of_nil in Hf.
  - intros p b Hp Hne. apply Hm in Hp. assert (p = 1 \/ p = 3) as [->| ->] by set_solver;
      first [by eexists; left | by eexists; right; left].
  - intros p f Hf. repeat (apply elem_of_cons in Hf as [[= -> ->]|Hf]; [reflexivity|]). by apply not_elem_of_nil in Hf.
  - intros p b Hp Hne. apply Hm in Hp. assert (p = 1 \/ p = 2) as [->| ->] by set_solver;
      first [by eexists; left | by eexists; right; left].
Defined.
