(* ===== verification/Framing.v ===== *)
(** * Framing: packets on a byte stream

    [tunnel/common.rs] ([FramedReader], [FramedWriter]), [tunnel/buf.rs]
    ([BufList]) and [tunnel/mpsc.rs] (the task that feeds a tunnel from a
    channel).  TCP and QUIC tunnels carry packets as a byte stream: the writer
    puts the length in front of each packet and queues the bytes, the socket
    takes as many as it likes at a time, and the reader collects what arrives
    until a packet is complete.

    Sockets are parameters: [AsyncRead] and [AsyncWrite] are the traits of tokio,
    and [ReliableRead] and [ReliableWrite] say what a connection that does not
    break promises: bytes come out in the order they went in, and a call is
    postponed ([Pending]) finitely often.  [BytesAlloc] is the allocation policy
    of [BytesMut]. *)

From stdpp Require Import base numbers list gmap strings.
From S2P Require Import Prelude PacketDef PeerConn.
Open Scope Z_scope.

(** ** Results of polling *)

Inductive poll (A : Type) := Ready (a : A) | Pending.
Arguments Ready {A} _.
Arguments Pending {A}.

Inductive io_error := WriteZero | OsError (code : Z).

Inductive TunnelError :=
| IOError (e : io_error) | InvalidPacket (msg : string) | ExceedMaxPacketSize (max input : Z)
| InvalidProtocol (msg : string) | InvalidAddr (msg : string) | InternalError (msg : string)
| ConnIdNotMatch (expect actual : Z) | BufferFull | Timeout | Anyhow (msg : string) | Shutdown
| NoDnsRecordFound | WebSocketError (msg : string) | TunError (msg : string).

(** ** Growable buffers *)

Record BytesMut := { bm_data : bytes; bm_cap : Z }.

Class BytesAlloc := {
  with_capacity_cap : Z -> Z;
  reserve_cap : Z -> Z -> Z -> Z;      (** length, capacity, additional *)
  split_to_cap : Z -> Z -> Z -> Z      (** length, capacity, split position *)
}.

Class BytesAllocLaws `{BytesAlloc} := {
  with_capacity_enough n : 0 <= n -> 0 <= with_capacity_cap n;
  reserve_enough n cap more : 0 <= n <= cap -> 0 <= more -> n + more <= reserve_cap n cap more;
  split_to_enough n cap at_ : 0 <= at_ <= n -> n <= cap -> n - at_ <= split_to_cap n cap at_
}.

Section buffers.
Context `{BytesAlloc}.

Definition with_capacity (n : Z) : BytesMut := {| bm_data := []; bm_cap := with_capacity_cap n |}.

Definition reserve (buf : BytesMut) (additional : Z) : BytesMut :=
  {| bm_data := bm_data buf; bm_cap := reserve_cap (len (bm_data buf)) (bm_cap buf) additional |}.

Definition split_to (buf : BytesMut) (at_ : Z) : outcome (bytes * BytesMut) :=
  '(front, back) ← split_off (bm_data buf) at_;
  Done (front, {| bm_data := back; bm_cap := split_to_cap (len (bm_data buf)) (bm_cap buf) at_ |}).

Definition reserve_buf (buf : BytesMut) (min_size max_size : Z) : BytesMut :=
  if bm_cap buf <? min_size then reserve buf max_size else buf.
End buffers.

(** ** The reader *)

(** [poll_read] with room for so many bytes: the result, what it put into the
    buffer, and the state of the reader. *)
Class AsyncRead (R : Type) := poll_read : Z -> R -> poll (result io_error ()) * bytes * R.

Record FramedReader (R : Type) := {
  fr_reader : R; fr_buf : BytesMut; fr_max_packet_size : Z; fr_error : option TunnelError
}.
Arguments fr_reader {R} _.
Arguments fr_buf {R} _.
Arguments fr_max_packet_size {R} _.
Arguments fr_error {R} _.

Section reader.
Context `{BytesAlloc} {R : Type} `{AsyncRead R}.

Definition framed_reader_new (reader : R) (max_packet_size : Z) : FramedReader R :=
  {| fr_reader := reader; fr_buf := with_capacity max_packet_size;
     fr_max_packet_size := max_packet_size; fr_error := None |}.

Definition extract_one_packet (buf : BytesMut) (max_packet_size : Z)
    : outcome (option (result TunnelError ZCPacket) * BytesMut) :=
  if len (bm_data buf) <? TCP_TUNNEL_HEADER_SIZE then Done (None, buf)
  else
    header ← unwrap (ref_from_prefix (H := TCPTunnelHeader) (bm_data buf));
    let body_len := tcp_len header in
    if max_packet_size <? body_len then Done (Some (Err (InvalidPacket "body too long")), buf)
    else if len (bm_data buf) <? TCP_TUNNEL_HEADER_SIZE + body_len then Done (None, buf)
    else
      '(packet_buf, buf) ← split_to buf (TCP_TUNNEL_HEADER_SIZE + body_len);
      Done (Some (Ok (new_from_buf packet_buf TCP)), buf).

Definition with_buf (s : FramedReader R) (buf : BytesMut) : FramedReader R :=
  {| fr_reader := fr_reader s; fr_buf := buf; fr_max_packet_size := fr_max_packet_size s; fr_error := fr_error s |}.

Definition with_read (s : FramedReader R) (reader : R) (filled : bytes) : FramedReader R :=
  {| fr_reader := reader; fr_buf := {| bm_data := bm_data (fr_buf s) ++ filled; bm_cap := bm_cap (fr_buf s) |};
     fr_max_packet_size := fr_max_packet_size s; fr_error := fr_error s |}.

Definition with_error (s : FramedReader R) (e : TunnelError) : FramedReader R :=
  {| fr_reader := fr_reader s; fr_buf := fr_buf s; fr_max_packet_size := fr_max_packet_size s; fr_error := Some e |}.

(** One round of the loop per unit of fuel. *)
Fixpoint poll_next (fuel : nat) (s : FramedReader R)
    : outcome (poll (option (result TunnelError ZCPacket)) * FramedReader R) :=
  match fuel with
  | O => Panicked OutOfFuel
  | S fuel =>
      match fr_error s with
      | Some _ => Done (Ready None, s)
      | None =>
          '(packet, buf) ← extract_one_packet (fr_buf s) (fr_max_packet_size s);
          let s := with_buf s buf in
          match packet with
          | Some packet =>
              let s := match packet with
                       | Err (InvalidPacket msg) => with_error s (InvalidPacket msg)
                       | _ => s
                       end in
              Done (Ready (Some packet), s)
          | None =>
              let s := with_buf s (reserve_buf (fr_buf s) (fr_max_packet_size s)
                                     (as_usize (fr_max_packet_size s * 2))) in
              let cap := bm_cap (fr_buf s) - len (bm_data (fr_buf s)) in
              match poll_read cap (fr_reader s) with
              | (Pending, _, reader) => Done (Pending, with_read s reader [])
              | (Ready ret, filled, reader) =>
                  let s := with_read s reader filled in
                  match ret with
                  | Ok _ => if len filled =? 0 then Done (Ready None, s) else poll_next fuel s
                  | Err e => Done (Ready (Some (Err (IOError e))), s)
                  end
              end
          end
      end
  end.
End reader.

(** ** The queue of buffers that wait to be written *)

Definition buf_push (bufs : list bytes) (buf : bytes) : list bytes := bufs ++ [buf].
Definition bufs_cnt (bufs : list bytes) : Z := len bufs.
Definition buf_remaining (bufs : list bytes) : Z := foldr (fun b n => len b + n) 0 bufs.
Definition buf_chunk (bufs : list bytes) : bytes := match bufs with b :: _ => b | [] => [] end.

Fixpoint buf_advance (bufs : list bytes) (cnt : Z) : outcome (list bytes) :=
  if 0 <? cnt then
    match bufs with
    | [] => Panicked IndexOutOfRange
    | front :: rest =>
        if cnt <? len front then Done (drop (Z.to_nat cnt) front :: rest)
        else buf_advance rest (cnt - len front)
    end
  else Done bufs.

(** The slices handed to a vectored write: one per buffer that is not empty,
    [slots] at most. *)
Fixpoint chunks_vectored (bufs : list bytes) (slots : nat) : list bytes :=
  match slots, bufs with
  | O, _ | _, [] => []
  | S k, [] :: rest => chunks_vectored rest slots
  | S k, b :: rest => b :: chunks_vectored rest k
  end.

(** ** The writer *)

Class AsyncWrite (W : Type) := {
  is_write_vectored : W -> bool;
  poll_write : bytes -> W -> poll (result io_error Z) * W;
  poll_write_vectored : list bytes -> W -> poll (result io_error Z) * W;
  poll_flush_io : W -> poll (result io_error ()) * W;
  poll_shutdown : W -> poll (result io_error ()) * W;
  max_slices : nat    (** slices [poll_write_buf] of tokio-util offers at once *)
}.

Record FramedWriter (W : Type) := { fw_writer : W; sending_bufs : list bytes }.
Arguments fw_writer {W} _.
Arguments sending_bufs {W} _.

Definition framed_writer_new {W} (writer : W) : FramedWriter W := {| fw_writer := writer; sending_bufs := [] |}.

Definition max_buffer_count : Z := 64.

(** [TcpZCPacketToBytes]. *)
Definition zcpacket_into_bytes (junk : nat -> Z) (item : ZCPacket) : outcome (result TunnelError bytes) :=
  item ← convert_type junk item TCP;
  let tcp_len := as_usize (PEER_MANAGER_HEADER_SIZE + payload_len item) in
  m ← mut_tcp_tunnel_header item;
  match m with
  | None => Done (Err (InvalidPacket "packet too short"))
  | Some (header, put) =>
      n ← unwrap (if bool_decide (in_width 32 tcp_len) then Some tcp_len else None);
      Done (Ok (into_bytes (put {| PacketDef.tcp_len := n |})))
  end.

Section writer.
Context {W : Type} `{AsyncWrite W} (junk : nat -> Z).

(** [poll_write_buf] of tokio-util: one write, vectored where the writer
    supports it, and the queue advanced by what was written. *)
Definition poll_write_buf (w : W) (bufs : list bytes) : outcome (poll (result io_error Z) * W * list bytes) :=
  if buf_remaining bufs =? 0 then Done (Ready (Ok 0), w, bufs)
  else
    let '(ret, w) := if is_write_vectored w then poll_write_vectored (chunks_vectored bufs max_slices) w
                     else poll_write (buf_chunk bufs) w in
    match ret with
    | Ready (Ok n) => bufs ← buf_advance bufs n; Done (Ready (Ok n), w, bufs)
    | _ => Done (ret, w, bufs)
    end.

Definition with_sent (w : W) (bufs : list bytes) : FramedWriter W := {| fw_writer := w; sending_bufs := bufs |}.

Definition io_result (r : result io_error ()) : result TunnelError () :=
  match r with Ok _ => Ok tt | Err e => Err (IOError e) end.

Fixpoint flush_loop (fuel : nat) (remaining : Z) (s : FramedWriter W)
    : outcome (poll (result TunnelError ()) * FramedWriter W) :=
  match fuel with
  | O => Panicked OutOfFuel
  | S fuel =>
      if remaining =? 0 then
        match poll_flush_io (fw_writer s) with
        | (Pending, w) => Done (Pending, with_sent w (sending_bufs s))
        | (Ready r, w) => Done (Ready (io_result r), with_sent w (sending_bufs s))
        end
      else
        '(ret, w, bufs) ← poll_write_buf (fw_writer s) (sending_bufs s);
        let s := with_sent w bufs in
        match ret with
        | Pending => Done (Pending, s)
        | Ready (Err e) => Done (Ready (Err (IOError e)), s)
        | Ready (Ok n) =>
            if n =? 0 then Done (Ready (Err (IOError WriteZero)), s)
            else flush_loop fuel (as_usize (remaining - n)) s
        end
  end.

(** Every round but the last writes a byte. *)
Definition poll_flush (s : FramedWriter W) : outcome (poll (result TunnelError ()) * FramedWriter W) :=
  flush_loop (S (Z.to_nat (buf_remaining (sending_bufs s)))) (buf_remaining (sending_bufs s)) s.

Definition poll_ready (s : FramedWriter W) : outcome (poll (result TunnelError ()) * FramedWriter W) :=
  if max_buffer_count <=? bufs_cnt (sending_bufs s) then poll_flush s else Done (Ready (Ok tt), s).

Definition start_send (item : ZCPacket) (s : FramedWriter W) : outcome (result TunnelError () * FramedWriter W) :=
  r ← zcpacket_into_bytes junk item;
  match r with
  | Ok b => Done (Ok tt, with_sent (fw_writer s) (buf_push (sending_bufs s) b))
  | Err e => Done (Err e, s)
  end.

Definition poll_close (s : FramedWriter W) : outcome (poll (result TunnelError ()) * FramedWriter W) :=
  '(r, s) ← poll_flush s;
  match r with
  | Ready (Ok _) =>
      match poll_shutdown (fw_writer s) with
      | (Pending, w) => Done (Pending, with_sent w (sending_bufs s))
      | (Ready r, w) => Done (Ready (io_result r), with_sent w (sending_bufs s))
      end
  | _ => Done (r, s)
  end.
End writer.

(** ** Tasks

    An awaiting task polls again after [Pending]; [polls] bounds how often. *)

Fixpoint drive {S A} (polls : nat) (f : S -> outcome (poll A * S)) (s : S) : outcome (A * S) :=
  match polls with
  | O => Panicked OutOfFuel
  | Datatypes.S polls =>
      '(r, s) ← f s;
      match r with Ready a => Done (a, s) | Pending => drive polls f s end
  end.

Section tasks.
Context {W : Type} `{AsyncWrite W} (junk : nat -> Z).

(** [SinkExt::feed]. *)
Definition feed (polls : nat) (item : ZCPacket) (s : FramedWriter W) : outcome (result TunnelError () * FramedWriter W) :=
  '(r, s) ← drive polls poll_ready s;
  match r with Ok _ => start_send junk item s | Err e => Done (Err e, s) end.

(** [MpscTunnel::forward_one_round_no_timeout]; [more] is what [try_recv]
    hands out before it finds the channel empty. *)
Fixpoint forward_items (polls : nat) (items : list ZCPacket) (s : FramedWriter W)
    : outcome (result TunnelError () * FramedWriter W) :=
  match items with
  | [] => drive polls poll_flush s
  | item :: items =>
      '(r, s) ← feed polls item s;
      match r with Ok _ => forward_items polls items s | Err e => Done (Err e, s) end
  end.

Definition forward_one_round_no_timeout (polls : nat) (initial_item : ZCPacket) (more : list ZCPacket)
    (s : FramedWriter W) : outcome (result TunnelError () * FramedWriter W) :=
  forward_items polls (initial_item :: more) s.

(** The loop of the task spawned by [MpscTunnel::new], over the rounds it gets.  This is the loop of a tunnel made
    without a send timeout, and of one with a timeout (peer connections have 7 seconds) as long as every round ends in time:
    [forward_one_round_with_timeout] then returns what the round returns.  A round that does not end in time is an error
    like those of the socket: the loop stops and the channel is closed. *)
Fixpoint mpsc_task (polls : nat) (rounds : list (ZCPacket * list ZCPacket)) (s : FramedWriter W)
    : outcome (result TunnelError () * FramedWriter W) :=
  match rounds with
  | [] => Done (Ok tt, s)
  | (initial, more) :: rounds =>
      '(r, s) ← forward_one_round_no_timeout polls initial more s;
      match r with Ok _ => mpsc_task polls rounds s | Err e => Done (Err e, s) end
  end.
End tasks.

(** The channel in front of the task; [None] once the task has closed it. *)
Definition MPSC_CAPACITY : Z := 32.
Definition mpsc_try_send (item : ZCPacket) (channel : option (list ZCPacket))
    : result TunnelError () * option (list ZCPacket) :=
  match channel with
  | None => (Err Shutdown, None)
  | Some q => if len q <? MPSC_CAPACITY then (Ok tt, Some (q ++ [item])) else (Err BufferFull, Some q)
  end.

(** A consumer takes packets until the stream ends ([None]). *)
Fixpoint read_all `{BytesAlloc} `{AsyncRead R} (rounds polls fuel : nat) (s : FramedReader R)
    : outcome (list (result TunnelError ZCPacket) * FramedReader R) :=
  match rounds with
  | O => Panicked OutOfFuel
  | S rounds =>
      '(r, s) ← drive polls (poll_next fuel) s;
      match r with
      | None => Done ([], s)
      | Some item => '(items, s) ← read_all rounds polls fuel s; Done (item :: items, s)
      end
  end.

(** ** What a connection promises *)

Class ReliableRead (R : Type) `{AsyncRead R} := {
  unread : R -> bytes;            (** bytes that are still to come *)
  read_stalls : R -> nat;         (** [Pending] answers still to come *)
  poll_read_spec cap r : 0 < cap ->
    match poll_read cap r with
    | (Pending, _, r') => unread r' = unread r /\ (read_stalls r' < read_stalls r)%nat
    | (Ready (Ok _), b, r') => unread r = b ++ unread r' /\ len b <= cap /\ (b = [] -> unread r = []) /\
                               (read_stalls r' <= read_stalls r)%nat
    | (Ready (Err _), _, _) => False
    end
}.

(** A write takes some of the bytes it is offered, in order. *)
Definition wrote (n : Z) (offered before after : bytes) : Prop :=
  0 < n <= len offered /\ after = before ++ take (Z.to_nat n) offered.

Class ReliableWrite (W : Type) `{AsyncWrite W} := {
  written : W -> bytes;
  write_stalls : W -> nat;
  max_slices_pos : (0 < max_slices)%nat;
  poll_write_spec b w : b <> [] ->
    match poll_write b w with
    | (Pending, w') => written w' = written w /\ (write_stalls w' < write_stalls w)%nat
    | (Ready (Ok n), w') => wrote n b (written w) (written w') /\ (write_stalls w' <= write_stalls w)%nat
    | (Ready (Err _), _) => False
    end;
  poll_write_vectored_spec bs w : concat bs <> [] ->
    match poll_write_vectored bs w with
    | (Pending, w') => written w' = written w /\ (write_stalls w' < write_stalls w)%nat
    | (Ready (Ok n), w') => wrote n (concat bs) (written w) (written w') /\ (write_stalls w' <= write_stalls w)%nat
    | (Ready (Err _), _) => False
    end;
  poll_flush_io_spec w :
    match poll_flush_io w with
    | (Pending, w') => written w' = written w /\ (write_stalls w' < write_stalls w)%nat
    | (Ready (Ok _), w') => written w' = written w /\ (write_stalls w' <= write_stalls w)%nat
    | (Ready (Err _), _) => False
    end
}.

(** ** Frames *)

(** A length, and so many bytes; it fits a reader for packets of [max] bytes. *)
Definition is_frame (max : Z) (f : bytes) : Prop :=
  exists body, f = le_bytes 4 (len body) ++ body /\ in_width 32 (len body) /\ TCP_TUNNEL_HEADER_SIZE + len body <= max.

(** The beginning of a frame that was cut off, or nothing. *)
Definition cut_frame (max : Z) (part : bytes) : Prop :=
  part = [] \/ exists rest, rest <> [] /\ is_frame max (part ++ rest).

Lemma len_le_bytes n z : len (le_bytes n z) = Z.of_nat n.
Proof. unfold len. by rewrite le_bytes_length. Qed.

Lemma frame_len_prefix body rest l : in_width 32 (len body) -> 4 <= len l -> l ++ rest = le_bytes 4 (len body) ++ body ->
  ref_from_prefix (H := TCPTunnelHeader) l = Some {| tcp_len := len body |}.
Proof.
  intros Hw Hl E. assert (exists k, l = le_bytes 4 (len body) ++ k) as [k ->].
  { apply (f_equal (take 4)) in E. rewrite take_app_le in E by (unfold len in Hl; lia).
    rewrite take_app_length' in E by (by rewrite le_bytes_length).
    exists (drop 4 l). by rewrite <- E, take_drop. }
  change (le_bytes 4 (len body)) with (as_bytes {| tcp_len := len body |}). by apply ref_from_prefix_app.
Qed.

Section extract.
Context `{BytesAlloc}.

(** A complete frame is taken out of the buffer. *)
Lemma extract_complete max cap f rest : is_frame max f -> len (f ++ rest) <= cap ->
  extract_one_packet {| bm_data := f ++ rest; bm_cap := cap |} max =
    Done (Some (Ok (mkZC f TCP)), {| bm_data := rest; bm_cap := split_to_cap (len (f ++ rest)) cap (len f) |}).
Proof.
  intros (body & -> & Hw & Hmax) Hc. unfold TCP_TUNNEL_HEADER_SIZE in *. unfold extract_one_packet, TCP_TUNNEL_HEADER_SIZE. cbn [bm_data].
  pose proof (len_nonneg body). pose proof (len_nonneg rest).
  assert (len ((le_bytes 4 (len body) ++ body) ++ rest) = 4 + len body + len rest) as Hlen
    by (rewrite !len_app, len_le_bytes; lia).
  rewrite Hlen. destruct (Z.ltb_spec (4 + len body + len rest) 4); [lia|].
  replace (ref_from_prefix _) with (Some {| tcp_len := len body |}).
  2:{ symmetry. change (le_bytes 4 (len body)) with (as_bytes {| tcp_len := len body |}).
      rewrite <- app_assoc. by apply ref_from_prefix_app. }
  cbn [unwrap mbind outcome_bind tcp_len]. destruct (Z.ltb_spec max (len body)); [lia|].
  destruct (Z.ltb_spec (4 + len body + len rest) (4 + len body)); [lia|].
  unfold split_to. cbn [bm_data bm_cap].
  rewrite split_off_app by (rewrite len_app, len_le_bytes; lia). cbn [mbind outcome_bind]. unfold new_from_buf.
  rewrite Hlen, len_app, len_le_bytes. done.
Qed.

(** The beginning of a frame stays in the buffer. *)
Lemma extract_incomplete max cap l rest : is_frame max (l ++ rest) -> rest <> [] ->
  extract_one_packet {| bm_data := l; bm_cap := cap |} max = Done (None, {| bm_data := l; bm_cap := cap |}) /\ len l < max.
Proof.
  intros (body & E & Hw & Hmax) Hr. unfold extract_one_packet, TCP_TUNNEL_HEADER_SIZE in *. cbn [bm_data].
  assert (len l < 4 + len body).
  { assert (0 < len rest) by (destruct rest; [done | unfold len; simpl; lia]).
    apply (f_equal len) in E. rewrite !len_app, len_le_bytes in E. lia. }
  split; [|lia]. destruct (Z.ltb_spec (len l) 4); [done|]. erewrite frame_len_prefix by done.
  cbn [unwrap mbind outcome_bind tcp_len]. destruct (Z.ltb_spec max (len body)); [lia|].
  by destruct (Z.ltb_spec (len l) (4 + len body)); [|lia].
Qed.

Lemma extract_empty max cap : extract_one_packet {| bm_data := []; bm_cap := cap |} max = Done (None, {| bm_data := []; bm_cap := cap |}).
Proof. done. Qed.
End extract.

(** ** Reading *)

Section reading.
Context `{BytesAllocLaws} `{ReliableRead R} (max : Z).
Hypothesis Hmax : TCP_TUNNEL_HEADER_SIZE <= max < 2 ^ 62.

(** What the buffer holds and what is still to come are the frames [fs], then [part]. *)
Definition stream_of (s : FramedReader R) (fs : list bytes) (part : bytes) : Prop :=
  bm_data (fr_buf s) ++ unread (fr_reader s) = concat fs ++ part /\
  len (bm_data (fr_buf s)) <= bm_cap (fr_buf s) /\ fr_max_packet_size s = max /\ fr_error s = None /\
  Forall (is_frame max) fs /\ cut_frame max part.

(** Either the first frame is in the buffer, or the buffer waits for more and
    has room for it. *)
Lemma stream_cases s fs part : stream_of s fs part ->
  (exists f fs' rest, fs = f :: fs' /\ bm_data (fr_buf s) = f ++ rest /\ rest ++ unread (fr_reader s) = concat fs' ++ part) \/
  (extract_one_packet (fr_buf s) max = Done (None, fr_buf s) /\ len (bm_data (fr_buf s)) < max /\
   (unread (fr_reader s) = [] -> fs = [])).
Proof.
  destruct s as [r [d cap] m e]. intros (E & Hc & _ & _ & Hfs & Hp). cbn [fr_buf fr_reader bm_data bm_cap] in *.
  unfold TCP_TUNNEL_HEADER_SIZE in Hmax.
  destruct fs as [|f fs]; simpl in E.
  - right.
    assert (extract_one_packet {| bm_data := d; bm_cap := cap |} max = Done (None, {| bm_data := d; bm_cap := cap |}) /\ len d < max) as [? ?]; [|done].
    destruct Hp as [->|(rest & Hr & Hf)].
    + apply app_eq_nil in E as [-> _]. split; [apply extract_empty | unfold len; simpl; lia].
    + apply (extract_incomplete max cap d (unread r ++ rest)); [by rewrite app_assoc, E|].
      intros [_ ?]%app_eq_nil. done.
  - rewrite <- app_assoc in E. apply Forall_cons in Hfs as [Hf _].
    destruct (decide (length f <= length d)%nat) as [Hle|Hlt].
    + left. exists f, fs, (drop (length f) d). split; [done|].
      apply (f_equal (take (length f))) in E as E1. rewrite take_app_le, take_app_length in E1 by done.
      split; [by rewrite <- E1 at 1; rewrite take_drop|].
      apply (f_equal (drop (length f))) in E as E2. rewrite drop_app_length in E2.
      by rewrite drop_app_le in E2 by done.
    + right.
      assert (exists rest, rest <> [] /\ d ++ rest = f /\ unread r = rest ++ concat fs ++ part) as (rest & Hr & Hd & Hu).
      { exists (drop (length d) f). split; [|split].
        - intros Hn%(f_equal length). rewrite length_drop in Hn. simpl in Hn. lia.
        - apply (f_equal (take (length d))) in E as E1.
          rewrite take_app_length, take_app_le in E1 by lia. rewrite E1 at 1. by rewrite take_drop.
        - apply (f_equal (drop (length d))) in E as E2. by rewrite drop_app_length, drop_app_le in E2 by lia. }
      destruct (extract_incomplete max cap d rest) as [-> ?]; [by rewrite Hd | done|].
      split_and!; [done | done|]. rewrite Hu. by intros [-> _]%app_eq_nil.
Qed.

Lemma reserve_buf_room buf n m : len (bm_data buf) <= bm_cap buf -> 0 <= m -> n <= m ->
  bm_data (reserve_buf buf n m) = bm_data buf /\ n <= bm_cap (reserve_buf buf n m) /\
  len (bm_data buf) <= bm_cap (reserve_buf buf n m).
Proof.
  intros Hc Hm Hn. unfold reserve_buf. destruct (Z.ltb_spec (bm_cap buf) n); [|done]. cbn.
  pose proof (len_nonneg (bm_data buf)).
  pose proof (reserve_enough (len (bm_data buf)) (bm_cap buf) m ltac:(lia) ltac:(lia)). split_and!; [done | lia | lia].
Qed.

(** [poll_next] returns, and returns the next packet, or that the caller has
    to wait, or, when all packets are read, the end. *)
Lemma poll_next_spec fuel s fs part : stream_of s fs part -> (length (unread (fr_reader s)) < fuel)%nat ->
  exists r s', poll_next fuel s = Done (r, s') /\
    (length (unread (fr_reader s')) <= length (unread (fr_reader s)))%nat /\
    (read_stalls (fr_reader s') <= read_stalls (fr_reader s))%nat /\
    match r with
    | Pending => stream_of s' fs part /\ (read_stalls (fr_reader s') < read_stalls (fr_reader s))%nat
    | Ready None => fs = []
    | Ready (Some item) => exists f fs', fs = f :: fs' /\ item = Ok (mkZC f TCP) /\ stream_of s' fs' part
    end.
Proof.
  revert s; induction fuel as [|fuel IH]; intros s Hs Hfuel; [lia|].
  pose proof (stream_cases _ _ _ Hs) as Hcases. pose proof Hs as (E & Hc & Hm & He & Hfs & Hp).
  cbn [poll_next]. rewrite He, Hm.
  destruct Hcases as [(f & fs' & rest & -> & Hd & Hrest) | (Hex & Hlt & Hend)].
  { apply Forall_cons in Hfs as [Hf Hfs].
    assert (fr_buf s = {| bm_data := f ++ rest; bm_cap := bm_cap (fr_buf s) |}) as Hb
      by (rewrite <- Hd; by destruct (fr_buf s)).
    rewrite Hd in Hc. rewrite Hb, extract_complete by done. cbn [mbind outcome_bind].
    eexists _, _; split; [done|]. cbn [with_buf fr_reader]. split_and!; [done | done|].
    exists f, fs'. split_and!; try done. split_and!; try done. cbn.
    pose proof (len_nonneg f). pose proof (len_nonneg rest).
    pose proof (split_to_enough (len (f ++ rest)) (bm_cap (fr_buf s)) (len f)) as Hsp. rewrite len_app in *. lia. }
  rewrite Hex. cbn [mbind outcome_bind]. cbn [with_buf fr_buf fr_max_packet_size fr_reader].
  unfold TCP_TUNNEL_HEADER_SIZE in Hmax.
  rewrite (wrap_small 64) by (unfold in_width; change (2 ^ 62) with 4611686018427387904 in Hmax; change (2^64) with 18446744073709551616; lia).
  rewrite Hm. destruct (reserve_buf_room (fr_buf s) max (max * 2)) as (Hdata & Hroom & Hcap); [done | lia | lia |].
  set (buf := reserve_buf (fr_buf s) max (max * 2)) in *. rewrite Hdata.
  pose proof (poll_read_spec (bm_cap buf - len (bm_data (fr_buf s))) (fr_reader s) ltac:(lia)) as Hr.
  destruct (poll_read _ _) as [[[[u|e]|] b] r']; [| done |].
  - destruct Hr as (Hu & Hb & Hz & Hst). destruct (Z.eqb_spec (len b) 0) as [Hb0|Hb0].
    + assert (b = []) as -> by (destruct b; [done | unfold len in Hb0; simpl in Hb0; lia]).
      eexists _, _; split; [done|]. cbn [with_read with_buf fr_reader]. rewrite Hu. split_and!; [done | done|]. auto.
    + match goal with |- context [poll_next fuel ?t] => destruct (IH t) as (r & s' & -> & Hlen & Hst' & Hres) end.
      * unfold stream_of. cbn. rewrite Hdata. split_and!; try done.
        -- by rewrite <- app_assoc, <- Hu.
        -- rewrite len_app. lia.
      * cbn. rewrite Hu, length_app in Hfuel. unfold len in Hb0. lia.
      * cbn in Hlen, Hst'. exists r, s'. split; [done|]. rewrite Hu, length_app. split_and!; [lia | lia|].
        destruct r as [[item|]|]; [done | done |]. cbn in Hres. destruct Hres. split; [done | lia].
  - destruct Hr as (Hu & Hst). eexists _, _; split; [done|]. cbn [with_read with_buf fr_reader]. rewrite Hu.
    split_and!; [done | lia | | done]. unfold stream_of. cbn. rewrite Hdata, app_nil_r, Hu. split_and!; try done.
Qed.

Lemma drive_next_spec polls fuel s fs part : stream_of s fs part ->
  (length (unread (fr_reader s)) < fuel)%nat -> (read_stalls (fr_reader s) < polls)%nat ->
  exists r s', drive polls (poll_next fuel) s = Done (r, s') /\
    match r with
    | None => fs = []
    | Some item => exists f fs', fs = f :: fs' /\ item = Ok (mkZC f TCP) /\ stream_of s' fs' part /\
        (length (unread (fr_reader s')) < fuel)%nat /\ (read_stalls (fr_reader s') < polls)%nat
    end.
Proof.
  revert s; induction polls as [|polls IH]; intros s Hs Hf Hp; [lia|]. cbn [drive].
  destruct (poll_next_spec fuel s fs part Hs Hf) as (r & s1 & -> & Hu & Hst & Hr). cbn [mbind outcome_bind].
  destruct r as [[item|]|].
  - eexists _, _; split; [done|]. destruct Hr as (f & fs' & ? & ? & ?). exists f, fs'. split_and!; try done; lia.
  - by eexists _, _.
  - destruct Hr as [Hs1 Hlt]. destruct (IH s1 Hs1 ltac:(lia) ltac:(lia)) as (r & s' & -> & Hres).
    exists r, s'. split; [done|]. destruct r; [|done]. destruct Hres as (f & fs' & ? & ? & ? & ? & ?).
    exists f, fs'. split_and!; try done; lia.
Qed.

(** All complete frames are read, one packet each, and then the stream ends. *)
Lemma read_all_spec rounds polls fuel s fs part : stream_of s fs part ->
  (length fs < rounds)%nat -> (read_stalls (fr_reader s) < polls)%nat -> (length (unread (fr_reader s)) < fuel)%nat ->
  exists s', read_all rounds polls fuel s = Done ((fun f => Ok (mkZC f TCP)) <$> fs, s').
Proof.
  revert s fs; induction rounds as [|rounds IH]; intros s fs Hs Hn Hp Hf; [lia|]. cbn [read_all].
  destruct (drive_next_spec polls fuel s fs part Hs Hf Hp) as (r & s1 & -> & Hr). cbn [mbind outcome_bind].
  destruct r as [item|].
  - destruct Hr as (f & fs' & -> & -> & Hs1 & Hf1 & Hp1). simpl in Hn.
    destruct (IH s1 fs' Hs1 ltac:(lia) Hp1 Hf1) as (s' & ->). by exists s'.
  - subst fs. by exists s1.
Qed.
End reading.

(** ** Writing *)

Section queue.
Implicit Types bufs : list bytes.

(** Queued buffers are not empty, and of the size of a frame. *)
Definition no_empty bufs : Prop := Forall (fun b => b <> [] /\ len b < 2 ^ 33) bufs.

Lemma buf_remaining_concat bufs : buf_remaining bufs = len (concat bufs).
Proof. induction bufs as [|b bufs IH]; simpl; [done|]. by rewrite len_app, IH. Qed.

Lemma no_empty_concat bufs : no_empty bufs -> concat bufs = [] -> bufs = [].
Proof. intros Hb. destruct Hb as [|b bufs [Hb _] _]; [done|]. by intros [-> _]%app_eq_nil. Qed.

Lemma buf_advance_spec bufs n : no_empty bufs -> 0 <= n <= len (concat bufs) ->
  exists bufs', buf_advance bufs n = Done bufs' /\ concat bufs' = drop (Z.to_nat n) (concat bufs) /\
    no_empty bufs' /\ (length bufs' <= length bufs)%nat.
Proof.
  intros Hb; revert n; induction Hb as [|b bufs [Hb Hb33] Hbs IH]; intros n Hn; cbn [buf_advance].
  { unfold len in Hn; simpl in Hn. destruct (Z.ltb_spec 0 n); [lia|]. exists []. cbn [concat]. rewrite drop_nil. split_and!; [done | done | constructor | done]. }
  cbn [concat] in *. rewrite len_app in Hn. pose proof (len_nonneg (concat bufs)).
  destruct (Z.ltb_spec 0 n) as [H0|H0].
  2:{ exists (b :: bufs). replace (Z.to_nat n) with 0%nat by lia. split_and!; [done | done | by constructor | done]. }
  destruct (Z.ltb_spec n (len b)) as [Hlt|Hge].
  - eexists; split; [done|]. cbn [concat]. rewrite drop_app_le by (unfold len in Hlt; lia).
    split_and!; [done | | done]. constructor; [|done]. split.
    + intros E%(f_equal length). rewrite length_drop in E. unfold len in Hlt. simpl in E. lia.
    + unfold len in *. rewrite length_drop. lia.
  - destruct (IH (n - len b)) as (bufs' & -> & E & ? & ?); [lia|]. exists bufs'. split_and!; [done | | done | simpl; lia].
    rewrite E, drop_app_ge by (unfold len in Hge; lia). f_equal. unfold len. lia.
Qed.

Lemma chunks_prefix bufs k : exists tail, concat bufs = concat (chunks_vectored bufs k) ++ tail.
Proof.
  revert k; induction bufs as [|b bufs IH]; intros [|k]; simpl; try (by eexists).
  destruct b as [|x b]; [apply (IH (S k))|]. destruct (IH k) as [tail E]. exists tail. simpl. by rewrite E, app_assoc.
Qed.

Lemma chunks_nonempty bufs k : no_empty bufs -> bufs <> [] -> (0 < k)%nat -> concat (chunks_vectored bufs k) <> [].
Proof.
  intros Hb Hn Hk. destruct k; [lia|]. destruct Hb as [|b bufs [Hb _] Hbs]; [done|]. by destruct b.
Qed.

Lemma take_app_prefix {A} (p t : list A) n : 0 <= n <= len p -> take (Z.to_nat n) (p ++ t) = take (Z.to_nat n) p.
Proof. intros. apply take_app_le. unfold len in *. lia. Qed.
End queue.

Section writing.
Context `{ReliableWrite W} (junk : nat -> Z).

(** Queued buffers are frames, and not too many. *)
Definition queue_ok (s : FramedWriter W) : Prop :=
  no_empty (sending_bufs s) /\ bufs_cnt (sending_bufs s) <= max_buffer_count.

(** What has been written and what is queued. *)
Definition sent (s : FramedWriter W) : bytes := written (fw_writer s) ++ concat (sending_bufs s).

Lemma queued_bound bufs : no_empty bufs -> len (concat bufs) <= len bufs * 2 ^ 33.
Proof.
  induction 1 as [|b bufs [_ Hb] _ IH]; [done|]. cbn [concat]. rewrite len_app.
  replace (len (b :: bufs)) with (1 + len bufs) by (unfold len; simpl; lia). lia.
Qed.

Lemma queue_bound s : queue_ok s -> in_width 64 (len (concat (sending_bufs s))).
Proof.
  intros (Hb & Hc). pose proof (queued_bound _ Hb). pose proof (len_nonneg (concat (sending_bufs s))).
  unfold bufs_cnt, max_buffer_count, in_width in *. change (2 ^ 33) with 8589934592 in *.
  change (2 ^ 64) with 18446744073709551616. lia.
Qed.

Lemma poll_write_buf_spec w bufs : no_empty bufs -> bufs <> [] ->
  exists r w' bufs', poll_write_buf w bufs = Done (r, w', bufs') /\ no_empty bufs' /\ (length bufs' <= length bufs)%nat /\
    written w' ++ concat bufs' = written w ++ concat bufs /\
    match r with
    | Pending => bufs' = bufs /\ (write_stalls w' < write_stalls w)%nat
    | Ready (Ok n) => 0 < n <= len (concat bufs) /\ concat bufs' = drop (Z.to_nat n) (concat bufs) /\
                      (write_stalls w' <= write_stalls w)%nat
    | Ready (Err _) => False
    end.
Proof.
  intros Hne Hn. unfold poll_write_buf. rewrite buf_remaining_concat.
  assert (concat bufs <> []) as Hc by (intros E; by apply no_empty_concat in E).
  destruct (Z.eqb_spec (len (concat bufs)) 0) as [E|_]; [destruct (concat bufs); [done | discriminate E]|].
  set (call := if is_write_vectored w then _ else _).
  assert (exists offered tail, concat bufs = offered ++ tail /\
    match call with
    | (Pending, w') => written w' = written w /\ (write_stalls w' < write_stalls w)%nat
    | (Ready (Ok n), w') => wrote n offered (written w) (written w') /\ (write_stalls w' <= write_stalls w)%nat
    | (Ready (Err _), _) => False
    end) as (offered & tail & E & Hcall).
  { subst call. destruct (is_write_vectored w).
    - destruct (chunks_prefix bufs max_slices) as [tail E]. eexists _, tail. split; [exact E|].
      apply poll_write_vectored_spec, chunks_nonempty; [done | done | apply max_slices_pos].
    - destruct Hne as [|b bufs [Hb _] _]; [done|]. exists b, (concat bufs). split; [done|]. by apply poll_write_spec. }
  destruct call as [[[n|e]|] w']; [| done |].
  - destruct Hcall as ((Hnb & Hw) & Hst). assert (0 < n <= len (concat bufs)) as Hn'.
    { rewrite E, len_app. pose proof (len_nonneg tail). lia. }
    destruct (buf_advance_spec bufs n Hne ltac:(lia)) as (bufs' & -> & Hd & ? & ?). cbn [mbind outcome_bind].
    eexists _, _, _; split; [done|]. split_and!; try done; try lia.
    rewrite Hd, Hw, <- app_assoc. f_equal.
    rewrite <- (take_drop (Z.to_nat n) (concat bufs)) at 2. f_equal. rewrite E. symmetry. apply take_app_prefix. lia.
  - destruct Hcall as (Hw & Hst). eexists _, _, _; split; [done|]. rewrite Hw. split_and!; try done.
Qed.

(** A run of a writer's task that keeps the bytes. *)
Definition keeps (s s' : FramedWriter W) : Prop :=
  queue_ok s' /\ sent s' = sent s /\ (write_stalls (fw_writer s') <= write_stalls (fw_writer s))%nat.

Lemma queue_ok_shorter s w bufs : queue_ok s -> no_empty bufs -> (length bufs <= length (sending_bufs s))%nat ->
  queue_ok (with_sent w bufs).
Proof. intros (_ & Hc) Hn Hl. split; [done|]. unfold bufs_cnt, len in *. cbn in *. lia. Qed.

Lemma flush_loop_spec fuel s : queue_ok s -> (length (concat (sending_bufs s)) < fuel)%nat ->
  exists r s', flush_loop fuel (len (concat (sending_bufs s))) s = Done (r, s') /\ keeps s s' /\
    match r with
    | Ready r => r = Ok tt /\ sending_bufs s' = []
    | Pending => (write_stalls (fw_writer s') < write_stalls (fw_writer s))%nat
    end.
Proof.
  revert s; induction fuel as [|fuel IH]; intros s Hq Hf; [lia|]. cbn [flush_loop].
  pose proof (queue_bound _ Hq) as Hw. destruct (Z.eqb_spec (len (concat (sending_bufs s))) 0) as [E|E].
  - assert (sending_bufs s = []) as Hs.
    { apply no_empty_concat; [apply Hq|]. destruct (concat _); [done | discriminate E]. }
    pose proof (poll_flush_io_spec (fw_writer s)) as Hio. destruct (poll_flush_io _) as [[[u|e]|] w']; [|done|];
      destruct Hio as [Hwr Hst]; eexists _, _; (split; [done|]); unfold keeps, sent; cbn [with_sent fw_writer sending_bufs];
      rewrite Hwr; split_and!; try done; try lia.
  - destruct (poll_write_buf_spec (fw_writer s) (sending_bufs s)) as (r & w' & bufs & -> & Hne & Hlen & Hsent & Hr).
    { apply Hq. }
    { intros Hs. by rewrite Hs in E. }
    cbn [mbind outcome_bind].
    pose proof (queue_ok_shorter s w' bufs Hq Hne Hlen) as Hq'.
    destruct r as [[n|e]|]; [| done |].
    + destruct Hr as (Hn & Hd & Hst). destruct (Z.eqb_spec n 0); [lia|].
      assert (len (concat (sending_bufs s)) - n = len (concat bufs)) as Hrem.
      { rewrite Hd. unfold len in *. rewrite length_drop. lia. }
      rewrite Hrem, (wrap_small 64) by apply (queue_bound _ Hq').
      destruct (IH (with_sent w' bufs) Hq') as (r & s' & Er & (Hk & Hs' & Hst') & Hres).
      { cbn. unfold len in *. lia. }
      cbn [with_sent sending_bufs] in Er. rewrite Er. exists r, s'. split; [done|]. cbn in Hst'. unfold keeps. rewrite Hs'. unfold sent. cbn [with_sent fw_writer sending_bufs].
      rewrite Hsent. split_and!; try done; try lia. destruct r; [done|]. cbn in Hres. lia.
    + destruct Hr as (-> & Hst). eexists _, _; split; [done|]. unfold keeps, sent. cbn [with_sent fw_writer sending_bufs].
      rewrite Hsent. split_and!; try done; lia.
Qed.

Lemma poll_flush_spec s : queue_ok s ->
  exists r s', poll_flush s = Done (r, s') /\ keeps s s' /\
    match r with
    | Ready r => r = Ok tt /\ sending_bufs s' = []
    | Pending => (write_stalls (fw_writer s') < write_stalls (fw_writer s))%nat
    end.
Proof.
  intros Hq. unfold poll_flush. rewrite buf_remaining_concat. apply flush_loop_spec; [done|].
  unfold len. rewrite Nat2Z.id. lia.
Qed.

(** Driving a poll function that keeps the bytes and is postponed finitely often. *)
Lemma drive_keeps (f : FramedWriter W -> outcome (poll (result TunnelError ()) * FramedWriter W))
    (P : FramedWriter W -> Prop) polls s :
  (forall s, queue_ok s -> exists r s', f s = Done (r, s') /\ keeps s s' /\
    match r with
    | Ready r => r = Ok tt /\ P s'
    | Pending => (write_stalls (fw_writer s') < write_stalls (fw_writer s))%nat
    end) ->
  queue_ok s -> (write_stalls (fw_writer s) < polls)%nat ->
  exists s', drive polls f s = Done (Ok tt, s') /\ keeps s s' /\ P s'.
Proof.
  intros Hf; revert s; induction polls as [|polls IH]; intros s Hq Hp; [lia|]. cbn [drive].
  destruct (Hf s Hq) as (r & s1 & -> & (Hq1 & Hs1 & Hst) & Hr). cbn [mbind outcome_bind]. destruct r as [r|].
  - destruct Hr as [-> HP]. by exists s1.
  - destruct (IH s1 Hq1 ltac:(lia)) as (s' & -> & (Hq' & Hs' & Hst') & HP). exists s'.
    split_and!; try done. split_and!; [done | by rewrite Hs' | lia].
Qed.

Definition has_room (s : FramedWriter W) : Prop := bufs_cnt (sending_bufs s) < max_buffer_count.

Lemma poll_ready_spec s : queue_ok s ->
  exists r s', poll_ready s = Done (r, s') /\ keeps s s' /\
    match r with
    | Ready r => r = Ok tt /\ has_room s'
    | Pending => (write_stalls (fw_writer s') < write_stalls (fw_writer s))%nat
    end.
Proof.
  intros Hq. unfold poll_ready. destruct (Z.leb_spec max_buffer_count (bufs_cnt (sending_bufs s))).
  - destruct (poll_flush_spec s Hq) as (r & s' & -> & Hk & Hr). exists r, s'. split_and!; [done | done|].
    destruct r; [|done]. destruct Hr as [-> Hb]. split; [done|]. unfold has_room. by rewrite Hb.
  - eexists _, _; split; [done|]. done.
Qed.

(** A packet with its header, as it goes over the stream. *)
Definition frame (h : PeerManagerHeader) (body : bytes) : bytes :=
  le_bytes 4 (len (as_bytes h ++ body)) ++ as_bytes h ++ body.

Lemma len_pm_body (h : PeerManagerHeader) body : len (as_bytes h ++ body) = 16 + len body.
Proof. by rewrite len_app, pm_header_len. Qed.

Lemma zcpacket_frame p pre h body : laid_out p pre h body -> in_width 32 (16 + len body) ->
  zcpacket_into_bytes junk p = Done (Ok (frame h body)).
Proof.
  intros Hl Hw. destruct (laid_out_convert junk p TCP _ _ _ ltac:(done) Hl) as (q & pre' & E & Ht & Hlq).
  unfold zcpacket_into_bytes. rewrite E. cbn [mbind outcome_bind].
  assert (2 ^ 32 < 2 ^ 64) by done. pose proof (len_nonneg body). unfold in_width in Hw.
  rewrite (layout_payload_len _ _ _ _ Hlq) by lia. unfold PEER_MANAGER_HEADER_SIZE.
  rewrite (wrap_small 64) by (split; lia).
  pose proof Hlq as (Hi & Hp & _). unfold pm_offset in Hp. rewrite Ht in Hp.
  unfold mut_tcp_tunnel_header, mut_from_prefix, mut_from. rewrite Ht. change (off_tcp_tunnel_header (get_packet_offsets TCP)) with 0.
  unfold slice_from. rewrite (bool_decide_eq_true_2 (0 <= 0 <= len (inner q))) by (pose proof (len_nonneg (inner q)); lia).
  cbn [mbind outcome_bind]. change (drop (Z.to_nat 0) (inner q)) with (inner q).
  unfold ref_from_prefix. change (Z.of_nat (size_of (H := TCPTunnelHeader))) with 4.
  change (off_peer_manager_header (get_packet_offsets TCP)) with 4 in Hp.
  rewrite Hi, len_app, Hp. destruct (Z.ltb_spec (4 + len (as_bytes h ++ body)) 4); [pose proof (len_nonneg (as_bytes h ++ body)); lia|].
  rewrite bool_decide_eq_true_2 by done. cbn [unwrap mbind outcome_bind]. unfold into_bytes. cbn [inner].
  change (take (Z.to_nat 0) _) with (@nil Z). cbn [app].
  change (as_bytes {| tcp_len := 16 + len body |}) with (le_bytes 4 (16 + len body)).
  unfold frame. rewrite len_pm_body. do 3 f_equal.
  apply drop_app_length'. unfold len in Hp. change (size_of (H := TCPTunnelHeader)) with 4%nat. lia.
Qed.

Lemma frame_buf_ok h body : in_width 32 (16 + len body) -> frame h body <> [] /\ len (frame h body) < 2 ^ 33.
Proof.
  intros Hw. unfold frame. rewrite !len_app, len_le_bytes, pm_header_len. unfold in_width in Hw.
  change (2 ^ 33) with 8589934592. change (2 ^ 32) with 4294967296 in Hw. split; [|lia].
  by intros [E%(f_equal length) _]%app_eq_nil.
Qed.

(** The bytes of a packet on the stream, and what the other side makes of them. *)
Definition framed (p : ZCPacket) (f : bytes) : Prop :=
  exists pre h body, laid_out p pre h body /\ in_width 32 (16 + len body) /\ f = frame h body.

Lemma feed_spec polls p f s : framed p f -> queue_ok s -> (write_stalls (fw_writer s) < polls)%nat ->
  exists s', feed junk polls p s = Done (Ok tt, s') /\ queue_ok s' /\ sent s' = sent s ++ f /\
    (write_stalls (fw_writer s') <= write_stalls (fw_writer s))%nat.
Proof.
  intros (pre & h & body & Hl & Hw & ->) Hq Hp.
  destruct (drive_keeps poll_ready has_room polls s poll_ready_spec Hq Hp) as (s1 & E & (Hq1 & Hs1 & Hst) & Hroom).
  unfold feed, start_send. rewrite E. cbn [mbind outcome_bind]. rewrite (zcpacket_frame _ _ _ _ Hl Hw). cbn [mbind outcome_bind].
  eexists; split; [done|]. unfold queue_ok, buf_push. cbn [with_sent fw_writer sending_bufs]. split_and!; [ | | | done].
  - apply Forall_app. split; [apply Hq1|]. constructor; [by apply frame_buf_ok | constructor].
  - unfold has_room, bufs_cnt in *. rewrite len_app. unfold len at 2. simpl. lia.
  - rewrite <- Hs1. unfold sent, with_sent. cbn [fw_writer sending_bufs].
    rewrite concat_app. cbn [concat]. by rewrite app_nil_r, app_assoc.
Qed.

Lemma forward_items_spec polls items fs s : Forall2 framed items fs -> queue_ok s ->
  (write_stalls (fw_writer s) < polls)%nat ->
  exists s', forward_items junk polls items s = Done (Ok tt, s') /\ queue_ok s' /\ sent s' = sent s ++ concat fs /\
    sending_bufs s' = [] /\ (write_stalls (fw_writer s') <= write_stalls (fw_writer s))%nat.
Proof.
  intros Hf; revert s; induction Hf as [|p f items fs Hpf _ IH]; intros s Hq Hp; cbn [forward_items].
  - destruct (drive_keeps poll_flush (fun s => sending_bufs s = []) polls s poll_flush_spec Hq Hp)
      as (s' & E & (Hq' & Hs & Hst) & Hb).
    exists s'. cbn [concat]. rewrite app_nil_r. done.
  - destruct (feed_spec polls p f s Hpf Hq Hp) as (s1 & E & Hq1 & Hs1 & Hst). rewrite E. cbn [mbind outcome_bind].
    destruct (IH s1 Hq1 ltac:(lia)) as (s' & E' & Hq' & Hs' & Hb & Hst'). exists s'. split; [done|].
    rewrite Hs', Hs1, <- app_assoc. split_and!; [done | done | done | lia].
Qed.

Definition round_items (round : ZCPacket * list ZCPacket) : list ZCPacket := round.1 :: round.2.

(** Whatever the socket takes at a time, the task writes the frames of all
    packets in order and leaves nothing queued. *)
Lemma mpsc_task_spec polls rounds fs s : Forall2 framed (concat (round_items <$> rounds)) fs -> queue_ok s ->
  sending_bufs s = [] -> (write_stalls (fw_writer s) < polls)%nat ->
  exists s', mpsc_task junk polls rounds s = Done (Ok tt, s') /\
    written (fw_writer s') = written (fw_writer s) ++ concat fs /\ sending_bufs s' = [].
Proof.
  revert fs s; induction rounds as [|[p more] rounds IH]; intros fs s Hf Hq Hb Hp; cbn [mpsc_task].
  - apply Forall2_nil_inv_l in Hf as ->. exists s. cbn [concat]. by rewrite app_nil_r.
  - cbn [fmap list_fmap concat] in Hf. apply Forall2_app_inv_l in Hf as (fs1 & fs2 & H1 & H2 & ->).
    unfold forward_one_round_no_timeout.
    destruct (forward_items_spec polls (p :: more) fs1 s H1 Hq Hp) as (s1 & E & Hq1 & Hs1 & Hb1 & Hst).
    rewrite E. cbn [mbind outcome_bind]. destruct (IH fs2 s1 H2 Hq1 Hb1 ltac:(lia)) as (s' & E' & Hw & Hb').
    exists s'. split_and!; [done | | done]. unfold sent in Hs1. rewrite Hb, Hb1 in Hs1. cbn [concat] in Hs1.
    rewrite !app_nil_r in Hs1. by rewrite Hw, Hs1, concat_app, app_assoc.
Qed.
End writing.

(** ** From one end to the other *)

Definition sendable (max : Z) (p : ZCPacket) : Prop :=
  exists pre h body, laid_out p pre h body /\ TCP_TUNNEL_HEADER_SIZE + (PEER_MANAGER_HEADER_SIZE + len body) <= max.

Definition frame_size (p : ZCPacket) : Z := TCP_TUNNEL_HEADER_SIZE + (len (inner p) - pm_offset p).

(** The packets whose frames lie within the first [n] bytes of the stream. *)
Fixpoint arrived (n : Z) (ps : list ZCPacket) : list ZCPacket :=
  match ps with
  | [] => []
  | p :: ps => if frame_size p <=? n then p :: arrived (n - frame_size p) ps else []
  end.

Lemma framed_facts max p f : framed p f -> sendable max p -> is_frame max f /\ len f = frame_size p /\ delivered p (mkZC f TCP).
Proof.
  intros (pre & h & body & Hl & Hw & ->) (pre' & h' & body' & Hl' & Hs).
  destruct (layout_unique _ _ _ _ _ _ _ Hl Hl') as [<- <-]. unfold TCP_TUNNEL_HEADER_SIZE, PEER_MANAGER_HEADER_SIZE in *.
  split_and!.
  - exists (as_bytes h ++ body). unfold frame. rewrite len_pm_body. unfold TCP_TUNNEL_HEADER_SIZE. split_and!; [done | done | lia].
  - destruct Hl as (Hi & Hp & _). unfold frame, frame_size, TCP_TUNNEL_HEADER_SIZE.
    rewrite Hi, !len_app, len_le_bytes, Hp. lia.
  - exists pre, (le_bytes 4 (len (as_bytes h ++ body))), h, body. split; [done|]. split_and!; [done | | apply Hl].
    by rewrite len_le_bytes.
Qed.

Lemma sendable_framed max ps : max < 2 ^ 32 -> Forall (sendable max) ps -> exists fs, Forall2 framed ps fs.
Proof.
  intros Hm. induction 1 as [|p ps (pre & h & body & Hl & Hs) _ [fs IH]]; [by exists []|].
  unfold TCP_TUNNEL_HEADER_SIZE, PEER_MANAGER_HEADER_SIZE in Hs. pose proof (len_nonneg body).
  exists (frame h body :: fs). constructor; [|done]. exists pre, h, body. split; [done|]. split; [unfold in_width; lia | done].
Qed.

(** A beginning of the stream is whole frames and a cut one. *)
Lemma cut_stream max ps fs u lost : Forall2 framed ps fs -> Forall (sendable max) ps -> u ++ lost = concat fs ->
  exists fs1 part, u = concat fs1 ++ part /\ Forall (is_frame max) fs1 /\ cut_frame max part /\
    Forall2 delivered (arrived (len u) ps) ((fun f => mkZC f TCP) <$> fs1) /\ (length fs1 <= length ps)%nat.
Proof.
  intros Hf; revert u; induction Hf as [|p f ps fs Hpf _ IH]; intros u Hs E; cbn [concat] in E.
  { apply app_eq_nil in E as [-> ->]. exists [], []. split_and!; try done; try constructor; done. }
  apply Forall_cons in Hs as [Hp Hs]. destruct (framed_facts max p f Hpf Hp) as (Hfr & Hlen & Hd). cbn [arrived].
  destruct (Z.leb_spec (frame_size p) (len u)) as [Hle|Hlt].
  - assert (u = f ++ drop (length f) u /\ drop (length f) u ++ lost = concat fs) as [Hu E2].
    { rewrite <- Hlen in Hle. unfold len in Hle. split.
      - apply (f_equal (take (length f))) in E. rewrite take_app_length, take_app_le in E by lia.
        rewrite <- E at 1. by rewrite take_drop.
      - apply (f_equal (drop (length f))) in E. by rewrite drop_app_length, drop_app_le in E by lia. }
    destruct (IH _ Hs E2) as (fs1 & part & Hu2 & Hfs & Hpart & Hdl & Hn). exists (f :: fs1), part.
    split_and!; [by rewrite Hu, Hu2; cbn [concat]; rewrite app_assoc | by constructor | done | | simpl; lia].
    constructor; [done|]. replace (len u - frame_size p) with (len (drop (length f) u)); [done|].
    rewrite <- Hlen. rewrite Hu at 2. rewrite len_app. lia.
  - exists [], u. split; [done|]. split; [constructor|]. split; [|split; [constructor | simpl; lia]]. right.
    rewrite <- Hlen in Hlt. unfold len in Hlt. exists (drop (length u) f). split.
    + intros Hn%(f_equal length). rewrite length_drop in Hn. simpl in Hn. lia.
    + apply (f_equal (take (length u))) in E. rewrite take_app_length, take_app_le in E by lia.
      rewrite E at 1. by rewrite take_drop.
Qed.

Lemma arrived_all ps fs max : Forall2 framed ps fs -> Forall (sendable max) ps -> arrived (len (concat fs)) ps = ps.
Proof.
  induction 1 as [|p f ps fs Hpf _ IH]; intros Hs; [done|]. apply Forall_cons in Hs as [Hp Hs]. cbn [arrived concat].
  destruct (framed_facts max p f Hpf Hp) as (_ & Hlen & _). rewrite len_app, Hlen. pose proof (len_nonneg (concat fs)).
  destruct (Z.leb_spec (frame_size p) (frame_size p + len (concat fs))); [|lia].
  replace (frame_size p + _ - _) with (len (concat fs)) by lia. by rewrite IH.
Qed.

Section roundtrip.
Context `{BytesAllocLaws} `{ReliableRead R} `{ReliableWrite W} (junk : nat -> Z) (max : Z).

(** C20.  Packets that a tunnel's task takes from its channel, in any grouping,
    are written without a panic or an error, nothing stays queued, and a reader
    on the other side returns them in order, with header and payload as they
    were sent, and then the end of the stream.  The socket may take any number
    of bytes per write, hand out any number per read and make both sides wait;
    if the connection ends early, exactly the packets that arrived completely
    are returned.  Packets are at most the reader's limit, header included, and where the
    tunnel has a send timeout every round of the task ends within it. *)
Theorem framed_stream_delivers (rounds : list (ZCPacket * list ZCPacket)) (w : W) (r : R) (polls fuel : nat)
    (Hmax : TCP_TUNNEL_HEADER_SIZE <= max < 2 ^ 32)
    (Hps : Forall (sendable max) (concat (round_items <$> rounds)))
    (Hw : written w = []) (Hpw : (write_stalls w < polls)%nat) :
  exists s, mpsc_task junk polls rounds (framed_writer_new w) = Done (Ok tt, s) /\ sending_bufs s = [] /\
    forall lost, unread r ++ lost = written (fw_writer s) ->
      (read_stalls r < polls)%nat -> (length (unread r) < fuel)%nat ->
      exists qs s', read_all (S (length (concat (round_items <$> rounds)))) polls fuel (framed_reader_new r max) =
                      Done (Ok <$> qs, s') /\
        Forall2 delivered (arrived (len (unread r)) (concat (round_items <$> rounds))) qs /\
        (lost = [] -> arrived (len (unread r)) (concat (round_items <$> rounds)) = concat (round_items <$> rounds)).
Proof.
  destruct (sendable_framed max (concat (round_items <$> rounds))) as [fs Hfs]; [lia | done|].
  assert (queue_ok (framed_writer_new w)) as Hq by (split; [constructor | done]).
  destruct (mpsc_task_spec junk polls rounds fs (framed_writer_new w) Hfs Hq eq_refl Hpw) as (s & E & Hws & Hb).
  exists s. split_and!; [done | done|]. intros lost Hu Hpr Hfuel. cbn in Hws. rewrite Hw in Hws. rewrite Hws in Hu. simpl in Hu.
  destruct (cut_stream max _ _ _ _ Hfs Hps Hu) as (fs1 & part & Eu & Hf1 & Hpart & Hd & Hn).
  assert (2 ^ 32 < 2 ^ 62) by done. unfold TCP_TUNNEL_HEADER_SIZE in *.
  destruct (read_all_spec (R := R) max ltac:(unfold TCP_TUNNEL_HEADER_SIZE; lia) (S (length (concat (round_items <$> rounds)))) polls fuel
              (framed_reader_new r max) fs1 part) as (s' & Er); try done; [| lia |].
  { split_and!; try done. cbn. apply with_capacity_enough. lia. }
  exists ((fun f => mkZC f TCP) <$> fs1), s'. split_and!; [by rewrite Er, <- list_fmap_compose | exact Hd|].
  intros ->. rewrite app_nil_r in Hu. rewrite Hu. by eapply arrived_all.
Qed.
End roundtrip.

(** ** Failure *)

(** An announced length above the limit is reported once, and from then on the
    stream is at its end, whatever else was received. *)
Lemma oversized_rejected `{BytesAlloc} `{AsyncRead R} (s : FramedReader R) h rest fuel :
  fr_error s = None -> bm_data (fr_buf s) = as_bytes h ++ rest -> in_width 32 (tcp_len h) ->
  fr_max_packet_size s < tcp_len h ->
  exists s', poll_next (S fuel) s = Done (Ready (Some (Err (InvalidPacket "body too long"))), s') /\
    forall fuel', poll_next (S fuel') s' = Done (Ready None, s').
Proof.
  intros He Hd Hw Hlt. cbn [poll_next]. rewrite He. unfold extract_one_packet, TCP_TUNNEL_HEADER_SIZE. rewrite Hd.
  assert (len (as_bytes h) = 4) as Hl by (unfold len; simpl; done).
  rewrite len_app, Hl. pose proof (len_nonneg rest). destruct (Z.ltb_spec (4 + len rest) 4); [lia|].
  rewrite ref_from_prefix_app by done. cbn [unwrap mbind outcome_bind].
  destruct (Z.ltb_spec (fr_max_packet_size s) (tcp_len h)); [|lia]. cbn [mbind outcome_bind].
  eexists; split; [done|]. done.
Qed.

(** ** Concrete sockets *)

(** Allocations as small as promised. *)
#[global] Instance exact_alloc : BytesAlloc := {|
  with_capacity_cap n := n;
  reserve_cap n cap more := Z.max cap (n + more);
  split_to_cap n cap at_ := cap - at_
|}.

#[global] Instance exact_alloc_laws : BytesAllocLaws.
Proof. split; simpl; lia. Qed.

(** A receiving end: chunks as they arrive, [None] where nothing is there yet. *)
Definition chunks := list (option bytes).

Fixpoint take_chunk (cap : Z) (r : chunks) : poll (result io_error ()) * bytes * chunks :=
  match r with
  | [] => (Ready (Ok tt), [], [])
  | None :: r => (Pending, [], r)
  | Some [] :: r => take_chunk cap r
  | Some b :: r => (Ready (Ok tt), take (Z.to_nat cap) b, Some (drop (Z.to_nat cap) b) :: r)
  end.

#[global] Instance chunks_read : AsyncRead chunks := take_chunk.

#[refine, global] Instance chunks_reliable : ReliableRead chunks := {|
  unread r := concat (default [] <$> r);
  read_stalls r := length (filter (fun c => c = None) r);
  poll_read_spec := _
|}.
Proof.
  intros cap r Hcap. unfold poll_read, chunks_read. induction r as [|[[|x b]|] r IH]; cbn [take_chunk].
  - simpl. split_and!; try done. unfold len; simpl; lia.
  - rewrite filter_cons_False by done. exact IH.
  - rewrite !filter_cons_False by done. unfold chunks. cbn [fmap list_fmap concat].
    split_and!; try done.
    + transitivity ((take (Z.to_nat cap) (x :: b) ++ drop (Z.to_nat cap) (x :: b)) ++ concat (default [] <$> r));
        [by rewrite take_drop | by rewrite <- app_assoc].
    + unfold len. rewrite length_take. lia.
    + intros E%(f_equal length). rewrite length_take in E. cbn [length] in E. lia.
  - rewrite filter_cons_True by done. simpl. split; [done | lia].
Defined.

(** A sending end that takes so many bytes per write; [0] makes it wait. *)
Record pipe := { pipe_bytes : bytes; pipe_script : list nat }.

Definition pipe_write (b : bytes) (w : pipe) : poll (result io_error Z) * pipe :=
  match pipe_script w with
  | [] => (Ready (Ok (len b)), {| pipe_bytes := pipe_bytes w ++ b; pipe_script := [] |})
  | O :: k => (Pending, {| pipe_bytes := pipe_bytes w; pipe_script := k |})
  | n :: k => (Ready (Ok (len (take n b))), {| pipe_bytes := pipe_bytes w ++ take n b; pipe_script := k |})
  end.

#[global] Instance pipe_async : AsyncWrite pipe := {|
  is_write_vectored w := Nat.even (length (pipe_script w));
  poll_write := pipe_write;
  poll_write_vectored bs := pipe_write (concat bs);
  poll_flush_io w := (Ready (Ok tt), w);
  poll_shutdown w := (Ready (Ok tt), w);
  max_slices := 64
|}.

Lemma pipe_write_spec b w : b <> [] ->
  match pipe_write b w with
  | (Pending, w') => pipe_bytes w' = pipe_bytes w /\ (length (pipe_script w') < length (pipe_script w))%nat
  | (Ready (Ok n), w') => wrote n b (pipe_bytes w) (pipe_bytes w') /\ (length (pipe_script w') <= length (pipe_script w))%nat
  | (Ready (Err _), _) => False
  end.
Proof.
  intros Hb. unfold pipe_write, wrote. assert (0 < len b) by (destruct b; [done | unfold len; simpl; lia]).
  destruct (pipe_script w) as [|[|n] k]; cbn [pipe_bytes pipe_script length].
  - split_and!; try lia. unfold len. by rewrite Nat2Z.id, firstn_all.
  - split; [done | lia].
  - unfold len in *. rewrite length_take, Nat2Z.id. split_and!; try lia.
    f_equal. destruct (decide (S n <= length b)%nat); [f_equal; lia|].
    rewrite take_ge by lia. by rewrite take_ge by lia.
Qed.

#[refine, global] Instance pipe_reliable : ReliableWrite pipe := {|
  written := pipe_bytes;
  write_stalls w := length (pipe_script w);
  max_slices_pos := _; poll_write_spec := pipe_write_spec; poll_write_vectored_spec bs := pipe_write_spec (concat bs);
  poll_flush_io_spec := _
|}.
Proof.
  - simpl. lia.
  - done.
Defined.

(** A packet with a payload of 30 bytes and one without, in two rounds. *)
Definition stream_packet (h : PeerManagerHeader) (body : bytes) : ZCPacket :=
  mkZC (as_bytes h ++ body) DummyTunnel.

Definition stream_header (n : Z) : PeerManagerHeader :=
  {| from_peer_id := 7; to_peer_id := 9; pm_packet_type := 1; pm_flags := 0; forward_counter := 1;
     reserved := 0; pm_len := n |}.

Lemma stream_packet_sendable max n body : in_width 32 n -> 20 + len body <= max ->
  sendable max (stream_packet (stream_header n) body).
Proof.
  intros Hn Hm. exists [], (stream_header n), body. unfold TCP_TUNNEL_HEADER_SIZE, PEER_MANAGER_HEADER_SIZE.
  split; [|lia]. split_and!; [done | done|]. split_and!; try done; by vm_compute.
Qed.

Definition two_rounds : list (ZCPacket * list ZCPacket) :=
  [(stream_packet (stream_header 30) (repeat 5 30), [stream_packet (stream_header 0) []]);
   (stream_packet (stream_header 3) [1; 2; 3], [])].

(** All of the stream, in chunks that cut headers and packets. *)
Definition two_rounds_chunks : chunks :=
  let b := concat (frame (stream_header 30) (repeat 5 30) :: frame (stream_header 0) [] :: [frame (stream_header 3) [1; 2; 3]]) in
  [Some (take 2 b); None; Some (take 40 (drop 2 b)); Some []; None; Some (drop 42 b)].

Lemma framed_stream_delivers_witness :
  exists s, mpsc_task (fun _ => 170) 9 two_rounds
      (framed_writer_new {| pipe_bytes := []; pipe_script := [3; 0; 45; 1; 0; 7]%nat |}) = Done (Ok tt, s) /\
    exists qs s', read_all 4 9 200 (framed_reader_new two_rounds_chunks 60) = Done (Ok <$> qs, s') /\
      Forall2 delivered (concat (round_items <$> two_rounds)) qs.
Proof.
  destruct (framed_stream_delivers (W := pipe) (R := chunks) (fun _ => 170) 60 two_rounds
    {| pipe_bytes := []; pipe_script := [3; 0; 45; 1; 0; 7]%nat |} two_rounds_chunks 9 200) as (s & E & _ & Hr).
  - vm_compute. intuition congruence.
  - repeat constructor; apply stream_packet_sendable; vm_compute; intuition congruence.
  - reflexivity.
  - vm_compute. lia.
  - exists s. split; [exact E|].
    assert (unread two_rounds_chunks ++ [] = written (fw_writer s)) as Hu.
    { vm_compute in E. injection E as <-. vm_compute. reflexivity. }
    destruct (Hr [] Hu) as (qs & s' & Hq & Hd & Ha).
    + vm_compute. lia.
    + vm_compute. lia.
    + exists qs, s'. split; [exact Hq|]. rewrite Ha in Hd by reflexivity. exact Hd.
Defined.

(** [reserve_buf] compares the capacity, of which the incomplete packet already
    uses a part, with the limit: a packet that passes the length check, but
    whose header and body are together longer than the limit, fills the buffer,
    the next read has no room and reads nothing, and the reader takes this for
    the end of the stream. *)
Example full_buffer_ends_stream :
  exists s, poll_next 9 (framed_reader_new [Some (frame (stream_header 10) (repeat 5 10))] 28) = Done (Ready None, s) /\
    fr_reader s = [Some [5; 5]] /\ extract_one_packet {| bm_data := frame (stream_header 10) (repeat 5 10); bm_cap := 28 |} 28 <>
      Done (Some (Err (InvalidPacket "body too long")), {| bm_data := frame (stream_header 10) (repeat 5 10); bm_cap := 28 |}).
Proof. eexists. split; [vm_compute; reflexivity|]. split; [reflexivity | vm_compute; congruence]. Qed.
