(* ===== verification/UdpTunnel.v ===== *)
(** * UDP tunnels

    [tunnel/udp.rs] and the ring buffers of [tunnel/ring.rs].  One socket of a
    listener serves all its connections: a connection is opened by a packet with
    a random number ([Syn]), acknowledged with the same number ([Sack]), and from
    then on datagrams from that address are put into the connection's ring
    buffer, from which the tunnel reads.  Tunnel and socket share the rings, so
    these live in a store; the tasks of the listener (receiving, accepting,
    forwarding, closing) interleave as in [udp_step].

    [RingBuffer] is the ring buffer of the async_ringbuf crate. *)

From stdpp Require Import base numbers list gmap strings.
From S2P Require Import Prelude PacketDef PeerConn Framing.
Open Scope Z_scope.

(** ** Ring buffers *)

Class RingBuffer (B : Type) := {
  rb_new : Z -> B;
  rb_items : B -> list ZCPacket;      (** [occupied_len] counts them *)
  rb_capacity : B -> Z;
  rb_try_push : ZCPacket -> B -> result ZCPacket () * B;
  rb_pop : B -> option ZCPacket * B
}.

Class RingBufferLaws (B : Type) `{RingBuffer B} := {
  rb_new_spec n : 0 < n -> rb_items (rb_new n) = [] /\ rb_capacity (rb_new n) = n;
  rb_try_push_spec p b :
    let '(r, b') := rb_try_push p b in
    rb_capacity b' = rb_capacity b /\
    if len (rb_items b) <? rb_capacity b then r = Ok tt /\ rb_items b' = rb_items b ++ [p]
    else r = Err p /\ rb_items b' = rb_items b;
  rb_pop_spec b :
    let '(r, b') := rb_pop b in
    rb_capacity b' = rb_capacity b /\ r = head (rb_items b) /\ rb_items b' = tail (rb_items b)
}.

Definition RING_TUNNEL_CAP : Z := 128.
Definition RING_TUNNEL_RESERVERD_CAP : Z := 4.

Section ring.
Context {B : Type} `{RingBuffer B}.

Definition ring_tunnel_new (cap : Z) : B := rb_new (Z.max (RING_TUNNEL_RESERVERD_CAP * 2) cap).

(** [RingSink::try_send] leaves the reserved slots free, [force_send] does not. *)
Definition ring_try_send (item : ZCPacket) (b : B) : result ZCPacket () * B :=
  if as_usize (rb_capacity b - RING_TUNNEL_RESERVERD_CAP) <=? len (rb_items b) then (Err item, b)
  else rb_try_push item b.

Definition ring_force_send (item : ZCPacket) (b : B) : result ZCPacket () * B := rb_try_push item b.
End ring.

(** ** Packets of the tunnel itself *)

Definition UDP_DATA_MTU : Z := 2000.

Definition new_udp_packet (f : UDPTunnelHeader -> UDPTunnelHeader) (udp_body : bytes) : outcome ZCPacket :=
  let ret := new_from_buf (replicate (Z.to_nat UDP_TUNNEL_HEADER_SIZE) 0 ++ udp_body) UDP in
  m ← mut_udp_tunnel_header ret;
  '(header, put) ← unwrap m;
  Done (put (f header)).

Definition set_header (ty : UdpPacketType) (conn_id n : Z) (h : UDPTunnelHeader) : UDPTunnelHeader :=
  {| udp_conn_id := conn_id; udp_msg_type := udp_packet_type_u8 ty; udp_padding := udp_padding h; udp_len := n |}.

Definition new_syn_packet (conn_id magic : Z) : outcome ZCPacket :=
  new_udp_packet (set_header UdpSyn conn_id 8) (le_bytes 8 magic).
Definition new_sack_packet (conn_id magic : Z) : outcome ZCPacket :=
  new_udp_packet (set_header UdpSack conn_id 8) (le_bytes 8 magic).

(** [buf] is the random content. *)
Definition new_hole_punch_packet (tid : Z) (buf : bytes) : outcome ZCPacket :=
  new_udp_packet (set_header UdpHolePunch tid (len buf)) buf.

(** The sixteen octets of an IPv6 address, and back. *)
Definition v6_octets (a : Z) : bytes := rev (le_bytes 16 a).
Definition v6_from_octets (l : bytes) : Z := le_val (rev l).

Definition new_v6_hole_punch_packet (dst_ip port : Z) : outcome ZCPacket :=
  new_udp_packet (set_header UdpV6HolePunch port 18)
    (as_bytes {| dst_ipv6 := v6_octets dst_ip; dst_port := port |}).

Definition extrace_dst_addr_from_hole_punch_packet (buf : bytes) : option SocketAddr :=
  match ref_from_prefix (H := V6HolePunchPacket) buf with
  | Some body => Some (V6 (v6_from_octets (dst_ipv6 body)), dst_port body)
  | None => None
  end.

Definition is_stun_packet (b : bytes) : outcome bool :=
  cookie ← slice b 4 8;
  if bool_decide (cookie = [33; 18; 164; 66]) then
    first ← unwrap (head b); Done (Z.land first 192 =? 0)
  else Done false.

(** The texts of the errors stop before the dump of the packet. *)
Definition get_zcpacket_from_buf (buf : bytes) (allow_stun : bool) : outcome (result TunnelError ZCPacket) :=
  let dg_size := len buf in
  if dg_size <? UDP_TUNNEL_HEADER_SIZE then Done (Err (InvalidPacket "udp packet size too small"))
  else
    stun ← (if allow_stun then hdr ← slice buf 0 UDP_TUNNEL_HEADER_SIZE; is_stun_packet hdr else Done false);
    if stun : bool then Done (Ok (new_from_buf buf UDP))
    else
      let zc_packet := new_from_buf buf UDP in
      h ← udp_tunnel_header zc_packet;
      header ← unwrap h;
      if udp_len header =? dg_size - UDP_TUNNEL_HEADER_SIZE then Done (Ok zc_packet)
      else Done (Err (InvalidPacket "udp packet payload len not match")).

(** What [forward_from_ring_to_udp] sends for a packet. *)
Definition to_datagram (junk : nat -> Z) (conn_id : Z) (packet : ZCPacket) : outcome bytes :=
  packet ← convert_type junk packet UDP;
  pl ← udp_payload packet;
  m ← mut_udp_tunnel_header packet;
  '(header, put) ← unwrap m;
  Done (into_bytes (put (set_header UdpData conn_id (as_u16 (len pl)) header))).

(** One round of [udp_recv_from_socket_forward_task]: the socket drops what does
    not fit the buffer. *)
Definition recv_datagram `{BytesAlloc} (allow_stun : bool) (buf : BytesMut) (datagram : bytes)
    : outcome (result TunnelError ZCPacket * BytesMut) :=
  let buf := reserve_buf buf UDP_DATA_MTU (UDP_DATA_MTU * 4) in
  let got := take (Z.to_nat (bm_cap buf - len (bm_data buf))) datagram in
  let filled := bm_data buf ++ got in
  r ← get_zcpacket_from_buf filled allow_stun;
  Done (r, {| bm_data := []; bm_cap := split_to_cap (len filled) (bm_cap buf) (len filled) |}).

(** ** Connections *)

(** [uc_ring_sender] and [uc_ring_recv] are the rings towards and from the
    tunnel; [uc_forwarding] says that the forward task has not ended. *)
Record UdpConnection := {
  uc_conn_id : Z; uc_dst_addr : SocketAddr; uc_ring_sender : nat; uc_ring_recv : nat; uc_forwarding : bool
}.

Section connection.
Context {B : Type} `{RingBuffer B}.

Definition handle_packet_from_remote (c : UdpConnection) (zc_packet : ZCPacket) (rings : gmap nat B)
    : outcome (result TunnelError () * gmap nat B) :=
  h ← udp_tunnel_header zc_packet;
  header ← unwrap h;
  if negb (udp_msg_type header =? udp_packet_type_u8 UdpData) then
    Done (Err (InvalidPacket "not data packet"), rings)
  else if negb (uc_conn_id c =? udp_conn_id header) then
    Done (Err (ConnIdNotMatch (uc_conn_id c) (udp_conn_id header)), rings)
  else
    lossy ← is_lossy zc_packet;
    Done (Ok tt, alter (fun b => snd ((if lossy : bool then ring_try_send else ring_force_send) zc_packet b)) (uc_ring_sender c) rings).
End connection.

(** A round of [forward_from_ring_to_udp]: [None] while the ring is empty. *)
Definition forward_from_ring {B} `{RingBuffer B} (junk : nat -> Z) (c : UdpConnection) (rings : gmap nat B)
    : outcome (option (gmap nat B * bytes * SocketAddr)) :=
  match rings !! uc_ring_recv c with
  | Some b =>
      match rb_pop b with
      | (Some p, b) => d ← to_datagram junk (uc_conn_id c) p; Done (Some (<[uc_ring_recv c := b]> rings, d, uc_dst_addr c))
      | (None, _) => Done None
      end
  | None => Done None
  end.

(** ** The connector *)

Definition wait_sack (recv : bytes * SocketAddr) (conn_id magic : Z) : outcome (result TunnelError SocketAddr) :=
  r ← get_zcpacket_from_buf (take (Z.to_nat UDP_DATA_MTU) recv.1) false;
  match r with
  | Err e => Done (Err e)
  | Ok zc_packet =>
      h ← udp_tunnel_header zc_packet;
      header ← unwrap h;
      if negb (udp_conn_id header =? conn_id) then Done (Err (ConnIdNotMatch (udp_conn_id header) conn_id))
      else if negb (udp_msg_type header =? udp_packet_type_u8 UdpSack) then Done (Err (InvalidPacket "not sack packet"))
      else
        pl ← udp_payload zc_packet;
        if negb (len pl =? 8) then Done (Err (InvalidPacket "udp sack packet payload len not match"))
        else
          m ← slice pl 0 8;
          if negb (le_val m =? magic) then Done (Err (InvalidPacket "udp sack magic not match"))
          else Done (Ok recv.2)
  end.

(** The datagrams that arrive before the time is up. *)
Fixpoint wait_sack_loop (recvs : list (bytes * SocketAddr)) (conn_id magic : Z) : outcome (result TunnelError SocketAddr) :=
  match recvs with
  | [] => Done (Err Timeout)
  | recv :: recvs =>
      r ← wait_sack recv conn_id magic;
      match r with Ok a => Done (Ok a) | Err _ => wait_sack_loop recvs conn_id magic end
  end.

Section connector.
Context {B : Type} `{RingBuffer B}.

(** [build_tunnel]: the connection and its rings (0 towards the tunnel). *)
Record Connector := { cn_conn : UdpConnection; cn_rings : gmap nat B }.

Definition build_tunnel (dst_addr : SocketAddr) (conn_id : Z) : Connector :=
  {| cn_conn := {| uc_conn_id := conn_id; uc_dst_addr := dst_addr; uc_ring_sender := 0; uc_ring_recv := 1; uc_forwarding := true |};
     cn_rings := <[0%nat := ring_tunnel_new 128]> (<[1%nat := ring_tunnel_new 128]> ∅) |}.

(** [try_connect_with_socket]: what is sent, and the result once the time is up. *)
Definition try_connect_with_socket (addr : SocketAddr) (conn_id magic : Z) (recvs : list (bytes * SocketAddr))
    : outcome (bytes * result TunnelError Connector) :=
  syn ← new_syn_packet conn_id magic;
  r ← wait_sack_loop recvs conn_id magic;
  Done (into_bytes syn, match r with Ok _ => Ok (build_tunnel addr conn_id) | Err e => Err e end).

(** A datagram at the connected socket, whatever address it comes from. *)
Definition connector_recv `{BytesAlloc} (buf : BytesMut) (datagram : bytes) (c : Connector) : outcome (BytesMut * Connector) :=
  '(r, buf) ← recv_datagram false buf datagram;
  match r with
  | Err _ => Done (buf, c)
  | Ok p => '(_, rings) ← handle_packet_from_remote (cn_conn c) p (cn_rings c);
            Done (buf, {| cn_conn := cn_conn c; cn_rings := rings |})
  end.

(** The user of the connector's tunnel writes a packet, and the forward task
    takes the next one to the socket. *)
Definition connector_send (p : ZCPacket) (c : Connector) : Connector :=
  {| cn_conn := cn_conn c; cn_rings := alter (fun b => snd (rb_try_push p b)) (uc_ring_recv (cn_conn c)) (cn_rings c) |}.

Definition connector_forward (junk : nat -> Z) (c : Connector) : outcome (option (Connector * bytes * SocketAddr)) :=
  r ← forward_from_ring junk (cn_conn c) (cn_rings c);
  Done (match r with Some (rings, d, addr) => Some ({| cn_conn := cn_conn c; cn_rings := rings |}, d, addr) | None => None end).
End connector.
Arguments Connector : clear implicits.

(** ** The listener *)

(** The tunnel handed to the accepting side: the rings it reads from and writes
    to, and the remote address of its [TunnelInfo]. *)
Record UdpTunnel := { tn_stream : nat; tn_sink : nat; tn_remote : SocketAddr }.

(** Tasks of [handle_new_connect]: spawned, past the acknowledgement, or waiting
    for room in the channel of accepted tunnels. *)
Inductive accept_task :=
| Spawned (remote_addr : SocketAddr) (zc_packet : ZCPacket)
| Acknowledged (remote_addr : SocketAddr) (conn_id : Z)
| HandingOver (tunnel : UdpTunnel).

Record Listener (B : Type) := mkListener {
  sock_map : gmap SocketAddr UdpConnection;
  ls_rings : gmap nat B;
  ls_next_ring : nat;
  conn_send : list UdpTunnel;
  accepted : list UdpTunnel;      (** handed out by [accept], and in use *)
  close_events : list (SocketAddr * option TunnelError);
  ls_tasks : list accept_task;
  ls_buf : BytesMut
}.
Arguments mkListener {B} _ _ _ _ _ _ _ _.
Arguments sock_map {B} _.
Arguments ls_rings {B} _.
Arguments ls_next_ring {B} _.
Arguments conn_send {B} _.
Arguments accepted {B} _.
Arguments close_events {B} _.
Arguments ls_tasks {B} _.
Arguments ls_buf {B} _.

(** What leaves the node: datagrams, and answers to STUN requests. *)
Inductive udp_action := SendTo (datagram : bytes) (addr : SocketAddr) | RespondStun (request : bytes) (addr : SocketAddr).

Definition ACCEPT_CHANNEL_CAP : Z := 100.

Section listener.
Context {B : Type} `{RingBuffer B} `{BytesAlloc}.
Implicit Types s : Listener B.

Definition listener_new : Listener B := mkListener ∅ ∅ 0 [] [] [] [] {| bm_data := []; bm_cap := 0 |}.

Definition with_rings rings s : Listener B :=
  mkListener (sock_map s) rings (ls_next_ring s) (conn_send s) (accepted s) (close_events s) (ls_tasks s) (ls_buf s).
Definition with_tasks tasks s : Listener B :=
  mkListener (sock_map s) (ls_rings s) (ls_next_ring s) (conn_send s) (accepted s) (close_events s) tasks (ls_buf s).
Definition with_ls_buf buf s : Listener B :=
  mkListener (sock_map s) (ls_rings s) (ls_next_ring s) (conn_send s) (accepted s) (close_events s) (ls_tasks s) buf.

Definition is_ipv6 (ip : IpAddr) : bool := match ip with V6 _ => true | V4 _ => false end.

(** [random] is the content of a hole punching packet. *)
Definition do_forward_one_packet_to_conn (random : bytes) (zc_packet : ZCPacket) (addr : SocketAddr) s
    : outcome (Listener B * list udp_action) :=
  h ← udp_tunnel_header zc_packet;
  header ← unwrap h;
  if udp_msg_type header =? udp_packet_type_u8 UdpSyn then
    Done (with_tasks (ls_tasks s ++ [Spawned addr zc_packet]) s, [])
  else
    stun ← is_stun_packet (as_bytes header);
    if stun : bool then Done (s, [RespondStun (inner zc_packet) addr])
    else if udp_msg_type header =? udp_packet_type_u8 UdpV6HolePunch then
      if negb (is_loopback addr.1) then Done (s, [])
      else if negb (is_ipv6 addr.1) then Done (s, [])
      else
        pl ← udp_payload zc_packet;
        match extrace_dst_addr_from_hole_punch_packet pl with
        | None => Done (s, [])
        | Some dst_addr => p ← new_hole_punch_packet 1 random; Done (s, [SendTo (into_bytes p) dst_addr])
        end
    else if negb (udp_msg_type header =? udp_packet_type_u8 UdpHolePunch) then
      match sock_map s !! addr with
      | None => Done (s, [])
      | Some conn => '(_, rings) ← handle_packet_from_remote conn zc_packet (ls_rings s); Done (with_rings rings s, [])
      end
    else Done (s, []).

Definition listener_recv (random : bytes) (datagram : bytes) (addr : SocketAddr) s : outcome (Listener B * list udp_action) :=
  '(r, buf) ← recv_datagram true (ls_buf s) datagram;
  let s := with_ls_buf buf s in
  match r with
  | Err _ => Done (s, [])
  | Ok p => do_forward_one_packet_to_conn random p addr s
  end.

(** [handle_new_connect] up to the acknowledgement; [sent] is whether the socket
    took it. *)
Definition connect_begin (remote_addr : SocketAddr) (zc_packet : ZCPacket) (sent : bool)
    : outcome (option accept_task * list udp_action) :=
  pl ← udp_payload zc_packet;
  if negb (len pl =? 8) then Done (None, [])
  else
    m ← slice pl 0 8;
    h ← udp_tunnel_header zc_packet;
    header ← unwrap h;
    sack ← new_sack_packet (udp_conn_id header) (le_val m);
    Done (if sent then Some (Acknowledged remote_addr (udp_conn_id header)) else None,
          [SendTo (into_bytes sack) remote_addr]).

(** The rest: two rings, the connection under the remote address, in place of
    one that may be there, and the tunnel for the accepting side. *)
Definition connect_end (remote_addr : SocketAddr) (conn_id : Z) s : UdpTunnel * Listener B :=
  let snd_ring := ls_next_ring s in
  let rcv_ring := S (ls_next_ring s) in
  let conn := {| uc_conn_id := conn_id; uc_dst_addr := remote_addr; uc_ring_sender := rcv_ring;
                 uc_ring_recv := snd_ring; uc_forwarding := true |} in
  ({| tn_stream := rcv_ring; tn_sink := snd_ring; tn_remote := remote_addr |},
   mkListener (<[remote_addr := conn]> (sock_map s))
     (<[snd_ring := ring_tunnel_new 128]> (<[rcv_ring := ring_tunnel_new 128]> (ls_rings s)))
     (S (S (ls_next_ring s))) (conn_send s) (accepted s) (close_events s) (ls_tasks s) (ls_buf s)).

(** A step of the listener and its surroundings. *)
Inductive udp_label :=
| Datagram (datagram : bytes) (addr : SocketAddr) (random : bytes)
| RunAccept (i : nat) (sent : bool)       (** the [i]-th accepting task goes on *)
| TakeTunnel                              (** [accept] *)
| TunnelSend (j : nat) (p : ZCPacket)     (** the user of the [j]-th tunnel writes *)
| TunnelRecv (j : nat)                    (** and reads *)
| Forward (addr : SocketAddr)             (** a packet from the ring to the socket *)
| ForwardEnds (addr : SocketAddr) (err : option TunnelError)
| CloseEvent.

Context (junk : nat -> Z).

Definition run_accept (i : nat) (sent : bool) s : outcome (option (Listener B * list udp_action)) :=
  match ls_tasks s !! i with
  | None => Done None
  | Some (Spawned addr p) =>
      '(t, acts) ← connect_begin addr p sent;
      Done (Some (with_tasks (match t with Some t => <[i := t]> (ls_tasks s) | None => delete i (ls_tasks s) end) s, acts))
  | Some (Acknowledged addr conn_id) =>
      let '(t, s) := connect_end addr conn_id s in
      Done (Some (with_tasks (<[i := HandingOver t]> (ls_tasks s)) s, []))
  | Some (HandingOver t) =>
      if len (conn_send s) <? ACCEPT_CHANNEL_CAP then
        Done (Some (mkListener (sock_map s) (ls_rings s) (ls_next_ring s) (conn_send s ++ [t]) (accepted s) (close_events s)
                      (delete i (ls_tasks s)) (ls_buf s), []))
      else Done None
  end.

Definition forward_one (addr : SocketAddr) s : outcome (option (Listener B * list udp_action)) :=
  match sock_map s !! addr with
  | Some c =>
      if uc_forwarding c then
        r ← forward_from_ring junk c (ls_rings s);
        Done (match r with Some (rings, d, addr) => Some (with_rings rings s, [SendTo d addr]) | None => None end)
      else Done None
  | None => Done None
  end.

(** [None] where the step cannot be taken. *)
Definition udp_step (l : udp_label) s : outcome (option (Listener B * list udp_action)) :=
  match l with
  | Datagram d addr random => r ← listener_recv random d addr s; Done (Some r)
  | RunAccept i sent => run_accept i sent s
  | TakeTunnel =>
      match conn_send s with
      | t :: q => Done (Some (mkListener (sock_map s) (ls_rings s) (ls_next_ring s) q (accepted s ++ [t]) (close_events s) (ls_tasks s) (ls_buf s), []))
      | [] => Done None
      end
  | TunnelSend j p =>
      match accepted s !! j with
      | Some t => Done (Some (with_rings (alter (fun b => snd (rb_try_push p b)) (tn_sink t) (ls_rings s)) s, []))
      | None => Done None
      end
  | TunnelRecv j =>
      match accepted s !! j with
      | Some t => Done (Some (with_rings (alter (fun b => snd (rb_pop b)) (tn_stream t) (ls_rings s)) s, []))
      | None => Done None
      end
  | Forward addr => forward_one addr s
  | ForwardEnds addr err =>
      match sock_map s !! addr with
      | Some c =>
          if uc_forwarding c then
            Done (Some (mkListener
              (<[addr := {| uc_conn_id := uc_conn_id c; uc_dst_addr := uc_dst_addr c; uc_ring_sender := uc_ring_sender c;
                            uc_ring_recv := uc_ring_recv c; uc_forwarding := false |}]> (sock_map s))
              (ls_rings s) (ls_next_ring s) (conn_send s) (accepted s) (close_events s ++ [(uc_dst_addr c, err)]) (ls_tasks s) (ls_buf s), []))
          else Done None
      | None => Done None
      end
  | CloseEvent =>
      match close_events s with
      | (addr, _) :: q => Done (Some (mkListener (delete addr (sock_map s)) (ls_rings s) (ls_next_ring s) (conn_send s) (accepted s) q (ls_tasks s) (ls_buf s), []))
      | [] => Done None
      end
  end.

Definition udp_run : list udp_label -> Listener B -> outcome (Listener B * list udp_action) := run udp_step.
End listener.

(** ** Reading and building datagrams *)

Definition udp_hdr (buf : bytes) : UDPTunnelHeader := from_bytes (take 8 buf).

Lemma udp_header_buf buf : 8 <= len buf -> udp_tunnel_header (mkZC buf UDP) = Done (Some (udp_hdr buf)).
Proof.
  intros Hl. unfold udp_tunnel_header, slice_from. cbn [inner packet_type get_packet_offsets off_udp_tunnel_header].
  rewrite bool_decide_eq_true_2 by lia. cbn [mbind outcome_bind]. unfold ref_from_prefix.
  change (drop (Z.to_nat 0) buf) with buf. change (Z.of_nat (size_of (H := UDPTunnelHeader))) with 8.
  by destruct (Z.ltb_spec (len buf) 8); [lia|].
Qed.

Lemma udp_payload_buf buf : 8 <= len buf -> udp_payload (mkZC buf UDP) = Done (drop 8 buf).
Proof.
  intros Hl. unfold udp_payload, slice_from. cbn [inner packet_type get_packet_offsets off_udp_tunnel_header].
  change (as_usize (0 + UDP_TUNNEL_HEADER_SIZE)) with 8. by rewrite bool_decide_eq_true_2 by lia.
Qed.

Lemma udp_hdr_app (h : UDPTunnelHeader) body : in_range h -> udp_hdr (as_bytes h ++ body) = h.
Proof.
  intros Hr. unfold udp_hdr. rewrite take_app_length' by (by rewrite as_bytes_length). by apply from_as_bytes.
Qed.

Lemma len_udp_bytes (h : UDPTunnelHeader) : len (as_bytes h) = 8.
Proof. unfold len, as_bytes; cbn -[le_bytes]. by rewrite !length_app, !le_bytes_length. Qed.

Lemma drop_udp_bytes (h : UDPTunnelHeader) body : drop 8 (as_bytes h ++ body) = body.
Proof. apply drop_app_length'. pose proof (len_udp_bytes h). unfold len in *. lia. Qed.

Lemma stun_defined b : len b = 8 -> exists r, is_stun_packet b = Done r.
Proof.
  intros Hl. unfold is_stun_packet, slice. rewrite bool_decide_eq_true_2 by lia. cbn [mbind outcome_bind].
  case_bool_decide; [|by eexists]. destruct b as [|x b]; [done|]. by eexists.
Qed.

(** A STUN message is none of the tunnel's own packets. *)
Lemma stun_msg_type b : is_stun_packet (take 8 b) = Done true -> udp_msg_type (udp_hdr b) = 33.
Proof.
  unfold is_stun_packet, slice. case_bool_decide as Hb; [|done]. cbn [mbind outcome_bind].
  case_bool_decide as E; [|done]. intros _. unfold udp_hdr. change (from_bytes (take 8 b)) with
    {| udp_conn_id := field 0 4 (take 8 b); udp_msg_type := field 4 1 (take 8 b);
       udp_padding := field 5 1 (take 8 b); udp_len := field 6 2 (take 8 b) |}. cbn [udp_msg_type].
  unfold field, field_bytes. change (Z.to_nat 4) with 4%nat in E.
  destruct (drop 4 (take 8 b)) as [|x l]; [done|]. change (Z.to_nat (8 - 4)) with 4%nat in E. simpl in E. injection E as -> _. done.
Qed.

(** What a datagram that is accepted looks like. *)
Definition well_formed (buf : bytes) (p : ZCPacket) : Prop :=
  p = mkZC buf UDP /\ 8 <= len buf /\ (udp_msg_type (udp_hdr buf) <> 33 -> udp_len (udp_hdr buf) = len buf - 8).

Lemma get_zcpacket_spec buf stun : exists r, get_zcpacket_from_buf buf stun = Done r /\
  (forall p, r = Ok p -> well_formed buf p).
Proof.
  unfold get_zcpacket_from_buf, UDP_TUNNEL_HEADER_SIZE. destruct (Z.ltb_spec (len buf) 8) as [Hs|Hs]; [by eexists|].
  assert (slice buf 0 8 = Done (take 8 buf)) as Hsl.
  { apply slice_Done. split; [lia | done]. }
  assert (len (take 8 buf) = 8) as Ht by (unfold len in *; rewrite length_take; lia).
  assert (exists b, (if stun then hdr ← slice buf 0 8; is_stun_packet hdr else Done false) = Done b /\
    (b = true -> udp_msg_type (udp_hdr buf) = 33)) as (b & -> & Hb).
  { destruct stun; [|by eexists]. rewrite Hsl. cbn [mbind outcome_bind].
    destruct (stun_defined _ Ht) as [b E]. exists b. split; [done|]. intros ->. by apply stun_msg_type. }
  cbn [mbind outcome_bind]. destruct b.
  { eexists; split; [done|]. intros p [= <-]. split_and!; [done | done|]. intros Hn. by destruct Hn; apply Hb. }
  unfold new_from_buf. rewrite udp_header_buf by done. cbn [mbind outcome_bind unwrap].
  destruct (Z.eqb_spec (udp_len (udp_hdr buf)) (len buf - 8)) as [E|E]; (eexists; split; [done|]); [|done].
  intros p [= <-]. done.
Qed.

Lemma is_lossy_buf buf : 8 <= len buf -> exists b, is_lossy (mkZC buf UDP) = Done b.
Proof.
  intros Hl. unfold is_lossy, peer_manager_header, slice_from, pm_offset.
  cbn [inner packet_type get_packet_offsets off_peer_manager_header]. unfold UDP_TUNNEL_HEADER_SIZE.
  rewrite bool_decide_eq_true_2 by lia. cbn [mbind outcome_bind]. by eexists.
Qed.

Lemma put_udp_header buf : 8 <= len buf -> exists put, mut_udp_tunnel_header (mkZC buf UDP) = Done (Some (udp_hdr buf, put)) /\
  forall h, put h = mkZC (as_bytes h ++ drop 8 buf) UDP.
Proof.
  intros Hl. unfold mut_udp_tunnel_header, mut_from_prefix, mut_from, slice_from.
  cbn [inner packet_type get_packet_offsets off_udp_tunnel_header]. rewrite bool_decide_eq_true_2 by lia.
  cbn [mbind outcome_bind]. unfold ref_from_prefix. change (drop (Z.to_nat 0) buf) with buf.
  change (Z.of_nat (size_of (H := UDPTunnelHeader))) with 8. destruct (Z.ltb_spec (len buf) 8); [lia|].
  eexists; split; [done|]. done.
Qed.

Lemma new_udp_packet_spec f body : exists h, udp_padding h = 0 /\
  new_udp_packet f body = Done (mkZC (as_bytes (f h) ++ body) UDP).
Proof.
  unfold new_udp_packet, new_from_buf. change (replicate (Z.to_nat UDP_TUNNEL_HEADER_SIZE) 0) with (replicate 8 0).
  destruct (put_udp_header (replicate 8 0 ++ body)) as (put & E & Hput).
  { rewrite len_app. pose proof (len_nonneg body). change (len (replicate 8 0)) with 8. lia. }
  rewrite E. cbn [mbind outcome_bind unwrap]. eexists. rewrite Hput. split; [|done]. done.
Qed.

(** ** Runs of the listener *)

Section listener_runs.
Context `{RingBufferLaws B} `{BytesAllocLaws} (junk : nat -> Z).
Implicit Types (s : Listener B) (b : B).

(** A ring after a packet was offered to it: it has the packet or not. *)
Definition offered (p : ZCPacket) b b' : Prop :=
  rb_capacity b' = rb_capacity b /\
  (rb_items b' = rb_items b \/ rb_items b' = rb_items b ++ [p] /\ len (rb_items b) < rb_capacity b).

Lemma push_offered p b : offered p b (snd (rb_try_push p b)).
Proof.
  pose proof (rb_try_push_spec p b) as Hs. destruct (rb_try_push p b) as [r b']. destruct Hs as [Hc Hs].
  split; [done|]. cbn [snd]. destruct (Z.ltb_spec (len (rb_items b)) (rb_capacity b)); destruct Hs as [_ ->]; auto.
Qed.

Lemma send_offered lossy p b : offered p b (snd ((if lossy : bool then ring_try_send else ring_force_send) p b)).
Proof.
  destruct lossy; [|apply push_offered]. unfold ring_try_send. destruct (_ <=? _); [|apply push_offered]. by split; [|left].
Qed.

Definition buf_ok (buf : BytesMut) : Prop := bm_data buf = [] /\ 0 <= bm_cap buf.

Lemma recv_datagram_spec stun buf d : buf_ok buf ->
  exists r buf' got, recv_datagram stun buf d = Done (r, buf') /\ buf_ok buf' /\ got `prefix_of` d /\
    get_zcpacket_from_buf got stun = Done r /\ (len d <= UDP_DATA_MTU -> got = d).
Proof.
  intros [Hd Hc]. unfold recv_datagram.
  destruct (reserve_buf_room buf UDP_DATA_MTU (UDP_DATA_MTU * 4)) as (Hdata & Hroom & Hcap); [by rewrite Hd | done | done |].
  set (buf' := reserve_buf _ _ _) in *. rewrite Hdata, Hd. cbn [app]. change (len []) with 0.
  set (got := take _ d). destruct (get_zcpacket_spec got stun) as (r & E & _). rewrite E. cbn [mbind outcome_bind].
  eexists _, _, got. split_and!; [done | | apply prefix_take | done |].
  - split; [done|]. cbn. pose proof (len_nonneg got).
    assert (len got <= bm_cap buf').
    { subst got. unfold len. rewrite length_take. unfold UDP_DATA_MTU in Hroom. lia. }
    pose proof (split_to_enough (len got) (bm_cap buf') (len got)). lia.
  - intros Hlen. subst got. apply take_ge. unfold len in Hlen. unfold UDP_DATA_MTU in *. lia.
Qed.

Lemma handle_packet_spec c buf (rings : gmap nat B) : 8 <= len buf ->
  exists r rings', handle_packet_from_remote c (mkZC buf UDP) rings = Done (r, rings') /\
    (rings' = rings \/
     udp_msg_type (udp_hdr buf) = udp_packet_type_u8 UdpData /\ udp_conn_id (udp_hdr buf) = uc_conn_id c /\
     exists f, rings' = alter f (uc_ring_sender c) rings /\ forall b, offered (mkZC buf UDP) b (f b)).
Proof.
  intros Hl. unfold handle_packet_from_remote. rewrite udp_header_buf by done. cbn [mbind outcome_bind unwrap].
  destruct (Z.eqb_spec (udp_msg_type (udp_hdr buf)) (udp_packet_type_u8 UdpData)) as [Et|]; cbn [negb]; [|by eauto 10].
  destruct (Z.eqb_spec (uc_conn_id c) (udp_conn_id (udp_hdr buf))) as [Ei|]; cbn [negb]; [|by eauto 10].
  destruct (is_lossy_buf buf Hl) as [lossy ->]. cbn [mbind outcome_bind].
  eexists _, _; split; [done|]. right. split_and!; [done | done|]. eexists; split; [done|]. intros b. apply send_offered.
Qed.

(** [p] came in a datagram from [a], as data of connection [id]. *)
Definition came (ls : list udp_label) (a : SocketAddr) (id : Z) (p : ZCPacket) : Prop :=
  exists d random, Datagram d a random ∈ ls /\ inner p `prefix_of` d /\ packet_type p = UDP /\ 8 <= len (inner p) /\
    udp_msg_type (udp_hdr (inner p)) = udp_packet_type_u8 UdpData /\ udp_conn_id (udp_hdr (inner p)) = id /\
    udp_len (udp_hdr (inner p)) = len (inner p) - 8.

(** [a] asked for connection [id]. *)
Definition opened (ls : list udp_label) (a : SocketAddr) (id : Z) : Prop :=
  exists d buf random, Datagram d a random ∈ ls /\ buf `prefix_of` d /\ 8 <= len buf /\
    udp_msg_type (udp_hdr buf) = udp_packet_type_u8 UdpSyn /\ udp_conn_id (udp_hdr buf) = id.

Definition handed (s : Listener B) (t : UdpTunnel) : Prop :=
  t ∈ accepted s \/ t ∈ conn_send s \/ HandingOver t ∈ ls_tasks s.

Definition writable (p : ZCPacket) : Prop := pm_offset p <= len (inner p).

Definition task_ok (ls : list udp_label) (t : accept_task) : Prop :=
  match t with
  | Spawned a p => exists d random, Datagram d a random ∈ ls /\ inner p `prefix_of` d /\ packet_type p = UDP /\
      8 <= len (inner p) /\ udp_msg_type (udp_hdr (inner p)) = udp_packet_type_u8 UdpSyn
  | Acknowledged a id => opened ls a id
  | HandingOver _ => True
  end.

(** The user of a tunnel with sink [r] wrote [p]. *)
Definition written (ls : list udp_label) (s : Listener B) (r : nat) (p : ZCPacket) : Prop :=
  writable p /\ exists j t, TunnelSend j p ∈ ls /\ accepted s !! j = Some t /\ tn_sink t = r.

(** What belongs into the rings, towards the tunnel of a connection and from it. *)
Definition holds (ls : list udp_label) (s : Listener B) (r : nat) (o : option (bool * SocketAddr * Z)) (ps : list ZCPacket) : Prop :=
  match o with
  | Some (true, a, id) => Forall (came ls a id) ps
  | Some (false, _, _) => Forall (written ls s r) ps
  | None => False
  end.

(** The rings and whom they belong to. *)
Record owned (ls : list udp_label) (s : Listener B) (G : gmap nat (bool * SocketAddr * Z)) : Prop := {
  ow_conn a c : sock_map s !! a = Some c ->
    uc_dst_addr c = a /\ G !! uc_ring_sender c = Some (true, a, uc_conn_id c) /\ G !! uc_ring_recv c = Some (false, a, uc_conn_id c);
  ow_tunnel t : handed s t -> exists id, G !! tn_stream t = Some (true, tn_remote t, id) /\ G !! tn_sink t = Some (false, tn_remote t, id);
  ow_owner r dir a id : G !! r = Some (dir, a, id) -> (r < ls_next_ring s)%nat /\ opened ls a id;
  ow_ring r b : ls_rings s !! r = Some b ->
    (r < ls_next_ring s)%nat /\ rb_capacity b = RING_TUNNEL_CAP /\ len (rb_items b) <= RING_TUNNEL_CAP /\ holds ls s r (G !! r) (rb_items b);
  ow_task t : t ∈ ls_tasks s -> task_ok ls t;
  ow_buf : buf_ok (ls_buf s)
}.

Lemma opened_mono ls l a id : opened ls a id -> opened (ls ++ [l]) a id.
Proof. intros (d & b & r & Hd & Hrest). exists d, b, r. split; [set_solver | done]. Qed.

Lemma task_ok_mono ls l t : task_ok ls t -> task_ok (ls ++ [l]) t.
Proof.
  destruct t; simpl; [|apply opened_mono|done]. intros (d & r & Hd & Hrest). exists d, r. split; [set_solver | done].
Qed.

Lemma holds_mono ls ls' s s' r o ps : ls ⊆ ls' -> (forall j t, accepted s !! j = Some t -> accepted s' !! j = Some t) ->
  holds ls s r o ps -> holds ls' s' r o ps.
Proof.
  intros Hsub Hacc. destruct o as [[[[] a] id]|]; simpl; [| |done]; intros Hp; (eapply Forall_impl; [exact Hp|]).
  - intros p (d & rnd & Hd & Hrest). exists d, rnd. split; [by apply Hsub | done].
  - intros p (Hw & j & t & Hin & Ht & Hk). split; [done|]. exists j, t. split_and!; [by apply Hsub | by apply Hacc | done].
Qed.

Lemma owned_mono ls l s G : owned ls s G -> owned (ls ++ [l]) s G.
Proof.
  intros [Hc Ht Ho Hr Hk Hb]. split; try done.
  - intros r dir a id Hg. destruct (Ho _ _ _ _ Hg). split; [done | by apply opened_mono].
  - intros r b Hl. destruct (Hr _ _ Hl) as (? & ? & ? & Hi). split_and!; try done. by eapply holds_mono; [| |exact Hi]; [set_solver|].
  - intros t Hin. by apply task_ok_mono, Hk.
Qed.

(** One ring changes, within its bounds and with what its owner sent. *)
Lemma owned_ring ls s G f r : owned ls s G ->
  (forall b, ls_rings s !! r = Some b -> rb_capacity (f b) = rb_capacity b /\ len (rb_items (f b)) <= RING_TUNNEL_CAP /\
     holds ls s r (G !! r) (rb_items (f b))) ->
  owned ls (with_rings (alter f r (ls_rings s)) s) G.
Proof.
  intros [Hc Ht Ho Hr Hk Hb] Hf. split; try done. cbn. intros r' b' Hl.
  apply lookup_alter_Some in Hl as [(<- & b & Hl & ->)|[_ Hl]]; [|by apply Hr].
  destruct (Hr _ _ Hl) as (? & ? & _). destruct (Hf b Hl) as (? & ? & ?). split_and!; try done. congruence.
Qed.

Lemma owned_push ls s G f r p : owned ls s G -> (forall b, offered p b (f b)) ->
  (match G !! r with Some (true, a, id) => came ls a id p | Some (false, _, _) => written ls s r p | None => True end) ->
  owned ls (with_rings (alter f r (ls_rings s)) s) G.
Proof.
  intros Ho Hf Hp. apply owned_ring; [done|]. intros b Hl. destruct (ow_ring _ _ _ Ho _ _ Hl) as (_ & Hcap & Hlen & Hi).
  destruct (Hf b) as [Hc [->|[-> Hroom]]]; (split; [done|]); [done|]. split.
  - rewrite len_app. change (len [p]) with 1. lia.
  - destruct (G !! r) as [[[[] a] id]|]; [| |done]; apply Forall_app; auto.
Qed.

Lemma owned_tasks ls s G tasks : owned ls s G -> (forall t, t ∈ tasks -> task_ok ls t) ->
  (forall t, HandingOver t ∈ tasks -> handed s t) -> owned ls (with_tasks tasks s) G.
Proof.
  intros [Hc Ht Ho Hr Hk Hb] Htk Hh. split; try done. intros t [Hin|[Hin|Hin]]; apply Ht; [by left | by right; left | by apply Hh].
Qed.

Lemma owned_buf ls s G buf : owned ls s G -> buf_ok buf -> owned ls (with_ls_buf buf s) G.
Proof. intros [Hc Ht Ho Hr Hk Hb] Hbuf. by split. Qed.

Lemma forward_packet_owned ls s G random d a rnd buf : owned ls s G -> Datagram d a rnd ∈ ls -> buf `prefix_of` d ->
  8 <= len buf -> (udp_msg_type (udp_hdr buf) <> 33 -> udp_len (udp_hdr buf) = len buf - 8) ->
  exists s' acts, do_forward_one_packet_to_conn random (mkZC buf UDP) a s = Done (s', acts) /\ owned ls s' G.
Proof.
  intros Ho Hd Hpre Hl Hlen. unfold do_forward_one_packet_to_conn. rewrite udp_header_buf by done. cbn [mbind outcome_bind unwrap].
  destruct (Z.eqb_spec (udp_msg_type (udp_hdr buf)) (udp_packet_type_u8 UdpSyn)) as [Es|Es].
  { eexists _, _; split; [done|]. apply owned_tasks; [done | |].
    - intros t [Ht|Ht]%elem_of_app; [by apply (ow_task _ _ _ Ho)|]. apply list_elem_of_singleton in Ht as ->. by exists d, rnd.
    - intros t [Ht|Ht]%elem_of_app; [by right; right|]. by apply list_elem_of_singleton in Ht. }
  destruct (stun_defined _ (len_udp_bytes (udp_hdr buf))) as [st ->]. cbn [mbind outcome_bind].
  destruct st; [by eexists _, _|].
  destruct (Z.eqb_spec (udp_msg_type (udp_hdr buf)) (udp_packet_type_u8 UdpV6HolePunch)).
  { destruct (negb (is_loopback a.1)); [by eexists _, _|]. destruct (negb (is_ipv6 a.1)); [by eexists _, _|].
    rewrite udp_payload_buf by done. cbn [mbind outcome_bind].
    destruct (extrace_dst_addr_from_hole_punch_packet _); [|by eexists _, _].
    unfold new_hole_punch_packet. destruct (new_udp_packet_spec (set_header UdpHolePunch 1 (len random)) random) as (h & _ & ->).
    by eexists _, _. }
  destruct (negb _); [|by eexists _, _]. destruct (sock_map s !! a) as [c|] eqn:Ec; [|by eexists _, _].
  destruct (handle_packet_spec c buf (ls_rings s) Hl) as (r & rings & -> & Hr). cbn [mbind outcome_bind].
  eexists _, _; split; [done|]. destruct Hr as [->|(Et & Ei & f & -> & Hf)].
  { by destruct s. }
  destruct (ow_conn _ _ _ Ho _ _ Ec) as (_ & Hg & _). apply (owned_push _ _ _ _ _ (mkZC buf UDP)); [done | done|].
  rewrite Hg. exists d, rnd. split_and!; try done. apply Hlen. cbn [inner]. rewrite Et. done.
Qed.

Lemma recv_owned ls s G random d a rnd : owned ls s G -> Datagram d a rnd ∈ ls ->
  exists s' acts, listener_recv random d a s = Done (s', acts) /\ owned ls s' G.
Proof.
  intros Ho Hd. unfold listener_recv.
  destruct (recv_datagram_spec true (ls_buf s) d (ow_buf _ _ _ Ho)) as (r & buf & got & -> & Hbuf & Hpre & Hz & _).
  cbn [mbind outcome_bind]. apply owned_buf with (buf := buf) in Ho; [|done]. destruct r as [p|]; [|by eexists _, _].
  destruct (get_zcpacket_spec got true) as (r & E & Hr). rewrite E in Hz. injection Hz as ->.
  destruct (Hr p eq_refl) as (-> & ? & ?). by eapply forward_packet_owned.
Qed.

Lemma connect_begin_spec ls a p sent : task_ok ls (Spawned a p) ->
  exists t acts, connect_begin a p sent = Done (t, acts) /\ (forall t', t = Some t' -> exists id, t' = Acknowledged a id /\ opened ls a id).
Proof.
  destruct p as [buf ty]. intros (d & rnd & Hd & Hpre & Hty & Hl & Hs). cbn [inner packet_type] in *. subst ty.
  unfold connect_begin. rewrite udp_payload_buf by done. cbn [mbind outcome_bind].
  destruct (Z.eqb_spec (len (drop 8 buf)) 8) as [E|]; cbn [negb]; [|by eexists _, _].
  assert (slice (drop 8 buf) 0 8 = Done (take 8 (drop 8 buf))) as -> by (apply slice_Done; split; [lia | done]).
  cbn [mbind outcome_bind]. rewrite udp_header_buf by done. cbn [mbind outcome_bind unwrap]. unfold new_sack_packet.
  match goal with |- context [new_udp_packet ?f ?b] => destruct (new_udp_packet_spec f b) as (h & _ & ->) end.
  cbn [mbind outcome_bind]. eexists _, _; split; [done|]. intros t'. destruct sent; [|done]. intros [= <-].
  eexists; split; [done|]. by exists d, buf, rnd.
Qed.

(** Two new rings, of which the owner is the address that asked. *)
Lemma connect_end_owned ls s G a id : owned ls s G -> opened ls a id ->
  let '(t, s') := connect_end a id s in
  exists G', owned ls s' G' /\ (exists id, G' !! tn_stream t = Some (true, tn_remote t, id) /\ G' !! tn_sink t = Some (false, tn_remote t, id)) /\
    ls_tasks s' = ls_tasks s /\ (forall t, handed s' t <-> handed s t).
Proof.
  intros [Hc Ht Ho Hr Hk Hb] Hop. unfold connect_end. set (n := ls_next_ring s).
  assert (forall r x, G !! r = Some x -> (r < n)%nat) as Hlt by (intros r [[? ?] ?] E; by apply (Ho _ _ _ _ E)).
  set (G' := <[S n := (true, a, id)]> (<[n := (false, a, id)]> G)).
  assert (forall r, (r < n)%nat -> G' !! r = G !! r) as Hold by (intros; unfold G'; by rewrite !lookup_insert_ne by lia).
  assert (G' !! n = Some (false, a, id)) as Hn by (unfold G'; by rewrite lookup_insert_ne, lookup_insert_eq by lia).
  assert (G' !! S n = Some (true, a, id)) as Hsn by (unfold G'; by rewrite lookup_insert_eq).
  assert (forall r x, G !! r = Some x -> G' !! r = Some x) as Hkeep by (intros r x E; rewrite Hold; [done | by eapply Hlt]).
  assert (rb_items (ring_tunnel_new 128) = [] /\ rb_capacity (ring_tunnel_new (B := B) 128) = 128) as [Hi0 Hc0]
    by (apply rb_new_spec; done).
  exists G'. split_and!; try done; cbn [tn_stream tn_sink tn_remote ls_next_ring]; [|by exists id].
  split; cbn.
  - intros a' c Hl. apply lookup_insert_Some in Hl as [[<- <-]|[_ Hl]]; cbn; [done|].
    destruct (Hc _ _ Hl) as (? & Hs & Hn1). split_and!; [done | by apply Hkeep | by apply Hkeep].
  - intros t Hin. destruct (Ht t Hin) as (id' & Hs & Hsk). exists id'. split; by apply Hkeep.
  - intros r dir a' id' Hl. unfold G' in Hl. apply lookup_insert_Some in Hl as [[<- [= <- <- <-]]|[_ Hl]]; [split; [lia | done]|].
    apply lookup_insert_Some in Hl as [[<- [= <- <- <-]]|[_ Hl]]; [split; [lia | done]|]. destruct (Ho _ _ _ _ Hl). split; [lia | done].
  - intros r b Hl. apply lookup_insert_Some in Hl as [[<- <-]|[Hne Hl]].
    { rewrite Hn, Hi0, Hc0. split_and!; [lia | done | done | constructor]. }
    apply lookup_insert_Some in Hl as [[<- <-]|[Hne' Hl]].
    { rewrite Hsn, Hi0, Hc0. split_and!; [lia | done | done | constructor]. }
    destruct (Hr _ _ Hl) as (Hrn & ? & ? & Hi). rewrite Hold by done. split_and!; try done. lia.
  - done.
  - done.
Qed.

Lemma delete_insert_tasks {A} (l : list A) i x y : x ∈ <[i := y]> l -> x ∈ l \/ x = y.
Proof.
  intros (j & Hj)%list_elem_of_lookup. apply list_lookup_insert_Some in Hj as [(<- & -> & _)|[_ Hj]]; [by right|].
  left. by apply list_elem_of_lookup_2 in Hj.
Qed.

Lemma delete_tasks {A} (l : list A) i x : x ∈ delete i l -> x ∈ l.
Proof. rewrite list_elem_of_lookup. intros [j Hj]. rewrite list_lookup_delete in Hj by lia. case_decide; by eapply list_elem_of_lookup_2. Qed.

Lemma run_accept_owned ls s G i sent : owned ls s G ->
  exists r, run_accept i sent s = Done r /\ exists G', owned ls (default (s, []) r).1 G'.
Proof.
  intros Ho. unfold run_accept. destruct (ls_tasks s !! i) as [t|] eqn:Et; [|by eexists; split; [done | exists G]].
  pose proof (list_elem_of_lookup_2 _ _ _ Et) as Hin. pose proof (ow_task _ _ _ Ho _ Hin) as Htk.
  destruct t as [a p|a id|t].
  - destruct (connect_begin_spec ls a p sent Htk) as (t & acts & -> & Ht). cbn [mbind outcome_bind].
    eexists; split; [done|]. exists G. cbn [default fst]. apply owned_tasks; [done | |].
    + intros t' Ht'. destruct t as [t|].
      * apply delete_insert_tasks in Ht' as [?| ->]; [by apply (ow_task _ _ _ Ho)|].
        destruct (Ht t eq_refl) as (id & -> & ?). done.
      * apply delete_tasks in Ht'. by apply (ow_task _ _ _ Ho).
    + intros t' Ht'. right; right. destruct t as [t|].
      * apply delete_insert_tasks in Ht' as [?| <-]; [done|]. by destruct (Ht _ eq_refl) as (? & ? & _).
      * by apply delete_tasks in Ht'.
  - pose proof (connect_end_owned ls s G a id Ho Htk) as Hce. destruct (connect_end a id s) as [t s'].
    destruct Hce as (G' & Ho' & Hst & Htasks & Hh). eexists; split; [done|]. exists G'. cbn [default fst].
    destruct Ho' as [Hc' Ht' Hw' Hr' Hk' Hb']. split; try done.
    + intros t' [Hin'|[Hin'|Hin']]; [by apply Ht'; left | by apply Ht'; right; left|]. cbn in Hin'.
      apply delete_insert_tasks in Hin' as [?|[= ->]]; [by apply Ht'; right; right | done].
    + intros t' Hin'. cbn in Hin'. apply delete_insert_tasks in Hin' as [?| ->]; [by apply Hk' | done].
  - destruct (_ <? _); [|by eexists; split; [done | exists G]]. eexists; split; [done|]. exists G. cbn [default fst].
    destruct Ho as [Hc Ht Hw Hr Hk Hb]. split; try done.
    + intros t' [Hin'|[Hin'|Hin']]; cbn in Hin'.
      * by apply Ht; left.
      * apply elem_of_app in Hin' as [?|Hin']; [by apply Ht; right; left|]. apply list_elem_of_singleton in Hin' as ->.
        apply Ht. by right; right.
      * apply delete_tasks in Hin'. by apply Ht; right; right.
    + intros t' Hin'. by apply delete_tasks in Hin'; apply Hk.
Qed.

Lemma as_bytes_padding id ty pad n : as_bytes {| udp_conn_id := id; udp_msg_type := ty; udp_padding := pad; udp_len := n |} =
  as_bytes {| udp_conn_id := id; udp_msg_type := ty; udp_padding := pad mod 256; udp_len := n |}.
Proof. unfold as_bytes; cbn -[Z.modulo]. by rewrite Zmod_mod. Qed.

Lemma to_datagram_writable conn_id p : writable p -> exists d, to_datagram junk conn_id p = Done d.
Proof.
  intros Hw. destruct (convert_type_keeps junk p UDP) as (q & E & Ht & _ & Hl & _); [done | done|].
  unfold to_datagram. rewrite E. cbn [mbind outcome_bind]. destruct q as [buf ty]. cbn in Ht. subst ty.
  unfold pm_offset in Hl. cbn in Hl. unfold UDP_TUNNEL_HEADER_SIZE in Hl. rewrite udp_payload_buf by done. cbn [mbind outcome_bind].
  destruct (put_udp_header buf Hl) as (put & Em & _). rewrite Em. cbn [mbind outcome_bind unwrap]. by eexists.
Qed.

(** What is sent for a packet. *)
Lemma to_datagram_layout conn_id p pre h body : laid_out p pre h body -> in_width 16 (16 + len body) ->
  exists pad, in_width 8 pad /\ to_datagram junk conn_id p =
    Done (as_bytes {| udp_conn_id := conn_id; udp_msg_type := 3; udp_padding := pad; udp_len := 16 + len body |} ++ as_bytes h ++ body).
Proof.
  intros Hl Hw. destruct (laid_out_convert junk p UDP _ _ _ ltac:(done) Hl) as (q & pre' & E & Ht & Hlq).
  unfold to_datagram. rewrite E. cbn [mbind outcome_bind]. destruct q as [buf ty]. cbn in Ht. subst ty.
  destruct Hlq as (Hi & Hp & _). cbn [inner] in Hi. unfold pm_offset in Hp. cbn in Hp. unfold UDP_TUNNEL_HEADER_SIZE in Hp.
  assert (8 <= len buf) as Hb.
  { rewrite Hi, len_app, Hp. pose proof (len_nonneg (as_bytes h ++ body)). lia. }
  assert (drop 8 buf = as_bytes h ++ body) as Hd.
  { rewrite Hi. apply drop_app_length'. unfold len in Hp. lia. }
  rewrite udp_payload_buf by done. cbn [mbind outcome_bind]. destruct (put_udp_header buf Hb) as (put & Em & Hput).
  rewrite Em. cbn [mbind outcome_bind unwrap]. rewrite Hput, Hd, len_pm_body.
  exists (udp_padding (udp_hdr buf) mod 256). split; [apply Z.mod_pos_bound; lia|].
  unfold set_header. rewrite (wrap_small 16), as_bytes_padding by done. done.
Qed.

(** What the forward task of a connection sends was written into its tunnel,
    and goes to its address under its number. *)
Lemma forward_one_owned ls s G a : owned ls s G ->
  exists r, forward_one junk a s = Done r /\ owned ls (default (s, []) r).1 G /\
    forall s' acts, r = Some (s', acts) -> exists p d j t id, acts = [SendTo d a] /\ to_datagram junk id p = Done d /\
      TunnelSend j p ∈ ls /\ accepted s !! j = Some t /\ tn_remote t = a /\
      G !! tn_stream t = Some (true, a, id) /\ (id = default 0 (uc_conn_id <$> sock_map s !! a)).
Proof.
  intros Ho. unfold forward_one. destruct (sock_map s !! a) as [c|] eqn:Ec; [|by eexists].
  destruct (uc_forwarding c); [|by eexists]. unfold forward_from_ring. destruct (ls_rings s !! uc_ring_recv c) as [b|] eqn:Eb; [|by eexists].
  destruct (ow_conn _ _ _ Ho _ _ Ec) as (Hdst & _ & Hg). destruct (ow_ring _ _ _ Ho _ _ Eb) as (_ & Hcap & Hlen & Hi). rewrite Hg in Hi. simpl in Hi.
  pose proof (rb_pop_spec b) as Hpop. destruct (rb_pop b) as [[p|] b']; [|by eexists]. destruct Hpop as (Hc & Hp & Hi').
  destruct (rb_items b) as [|p' items] eqn:Ei; [done|]. injection Hp as ->. apply Forall_cons in Hi as [(Hw & j & t & Hin & Hj & Hsk) Hi].
  destruct (to_datagram_writable (uc_conn_id c) p' Hw) as [d Ed]. rewrite Ed. cbn [mbind outcome_bind]. eexists; split; [done|].
  cbn [default fst]. simpl in Hi'. split.
  - replace (<[uc_ring_recv c := b']> (ls_rings s)) with (alter (fun _ => b') (uc_ring_recv c) (ls_rings s)).
    + apply owned_ring; [done|]. intros b0 E0. rewrite Eb in E0. injection E0 as <-. rewrite Hg, Hi', Hc. split_and!; [done | | done].
      unfold len in *. simpl in Hlen. lia.
    + apply map_eq. intros k. destruct (decide (k = uc_ring_recv c)) as [->|].
      * by rewrite lookup_alter_eq, lookup_insert_eq, Eb.
      * by rewrite lookup_alter_ne, lookup_insert_ne by done.
  - intros s' acts [= <- <-]. destruct (ow_tunnel _ _ _ Ho t) as (id & Hst & Hsk'); [left; by eapply list_elem_of_lookup_2|].
    rewrite Hsk, Hg in Hsk'. injection Hsk' as Ha Hid. exists p', d, j, t, (uc_conn_id c). rewrite Hdst, Hid, <- Ha in *. done.
Qed.

Definition label_ok (l : udp_label) : Prop := match l with TunnelSend _ p => writable p | _ => True end.

(** Every step is defined and keeps the rings' contents with their owners. *)
Lemma udp_step_owned ls l s G : owned ls s G -> label_ok l ->
  exists r, udp_step junk l s = Done r /\ exists G', owned (ls ++ [l]) (default (s, []) r).1 G'.
Proof.
  intros Ho Hl. apply (owned_mono _ l) in Ho. destruct l as [d a rnd|i sent| |j p|j|a|a err|]; cbn [udp_step].
  - destruct (recv_owned _ _ _ rnd d a rnd Ho) as (s' & acts & -> & Ho'); [set_solver|]. cbn [mbind outcome_bind].
    eexists; split; [done|]. by exists G.
  - by eapply run_accept_owned.
  - destruct (conn_send s) as [|t q] eqn:Eq; [by eexists; split; [done | exists G]|]. eexists; split; [done|]. exists G. cbn [default fst].
    destruct Ho as [Hc Ht Hw Hr Hk Hb]. split; try done; [intros t' [Hin|[Hin|Hin]]; cbn in Hin|].
    + apply elem_of_app in Hin as [?|Hin]; [by apply Ht; left|]. apply list_elem_of_singleton in Hin as ->.
      apply Ht. right; left. rewrite Eq. by left.
    + apply Ht. right; left. rewrite Eq. by right.
    + by apply Ht; right; right.
    + intros r b Hl'. destruct (Hr _ _ Hl') as (? & ? & ? & Hi). split_and!; try done. eapply holds_mono; [done| |exact Hi].
      cbn. intros j t' Hj. by apply lookup_app_l_Some.
  - destruct (accepted s !! j) as [t|] eqn:Et; [|by eexists; split; [done | exists G]]. eexists; split; [done|]. exists G. cbn [default fst].
    apply (owned_push _ _ _ _ _ p); [done | apply push_offered|].
    destruct (ow_tunnel _ _ _ Ho t (or_introl (list_elem_of_lookup_2 _ _ _ Et))) as (id & _ & ->).
    split; [done|]. exists j, t. split_and!; [set_solver | done | done].
  - destruct (accepted s !! j) as [t|] eqn:Et; [|by eexists; split; [done | exists G]]. eexists; split; [done|]. exists G. cbn [default fst].
    apply owned_ring; [done|]. intros b Hb. destruct (ow_ring _ _ _ Ho _ _ Hb) as (_ & _ & Hlen & Hi).
    pose proof (rb_pop_spec b) as Hpop. destruct (rb_pop b) as [x b']. destruct Hpop as (Hc & _ & Hi'). cbn [snd]. rewrite Hi'.
    split_and!; [done | |].
    + destruct (rb_items b); [done|]. unfold len in *. simpl in *. lia.
    + destruct (ow_tunnel _ _ _ Ho t (or_introl (list_elem_of_lookup_2 _ _ _ Et))) as (id & Hst & _). rewrite Hst in Hi |- *.
      simpl in *. destruct (rb_items b); [done|]. by apply Forall_cons in Hi as [_ Hi].
  - destruct (forward_one_owned _ _ _ a Ho) as (r & -> & Ho' & _). eexists; split; [done|]. by exists G.
  - destruct (sock_map s !! a) as [c|] eqn:Ec; [|by eexists; split; [done | exists G]].
    destruct (uc_forwarding c); [|by eexists; split; [done | exists G]]. eexists; split; [done|]. exists G. cbn [default fst].
    destruct Ho as [Hc Ht Hw Hr Hk Hb]. split; try done. cbn. intros a' c' Hl'.
    apply lookup_insert_Some in Hl' as [[<- <-]|[_ Hl']]; [by apply (Hc _ _ Ec) | by apply Hc].
  - destruct (close_events s) as [|[a e] q]; [by eexists; split; [done | exists G]|]. eexists; split; [done|]. exists G. cbn [default fst].
    destruct Ho as [Hc Ht Hw Hr Hk Hb]. split; try done. cbn. intros a' c' [_ Hl']%lookup_delete_Some. by apply Hc.
Qed.

Lemma udp_run_owned ls0 ls s G : owned ls0 s G -> Forall label_ok ls ->
  exists s' acts G', udp_run junk ls s = Done (s', acts) /\ owned (ls0 ++ ls) s' G'.
Proof.
  intros Ho Hls; revert ls0 s G Ho; induction Hls as [|l ls Hl _ IH]; intros ls0 s G Ho.
  { exists s, [], G. by rewrite app_nil_r. }
  unfold udp_run in *. cbn [run]. destruct (udp_step_owned _ l _ _ Ho Hl) as (r & -> & G1 & Ho1). cbn [mbind outcome_bind].
  destruct (default (s, []) r) as [s1 acts]. cbn [fst] in Ho1. destruct (IH _ _ _ Ho1) as (s' & more & G' & -> & Ho').
  exists s', (acts ++ more), G'. split; [done|]. by rewrite <- app_assoc in Ho'.
Qed.

Lemma owned_new : owned [] (listener_new (B := B)) ∅.
Proof.
  split; cbn; try done.
  - intros t [Hin|[Hin|Hin]]; cbn in Hin; by apply elem_of_nil in Hin.
  - intros t Ht. by apply elem_of_nil in Ht.
Qed.

(** C18.  Whatever datagrams arrive from whomever and however the listener's
    tasks interleave with the users of its tunnels, it never panics; every ring
    stays within its capacity; and a tunnel belongs to one connection that its
    remote address opened: what its user can read are datagrams from that
    address, marked as data of that connection, with the length their header
    states, and whenever a forward task sends something, it is one datagram to
    the task's address, made for its connection from a packet that the user of a
    tunnel of that address and connection wrote. *)
Theorem udp_tunnels_isolated (ls : list udp_label) (Hls : Forall label_ok ls) :
  exists s acts conn_of, udp_run junk ls (listener_new (B := B)) = Done (s, acts) /\
    (forall t, handed s t -> opened ls (tn_remote t) (conn_of t) /\
       forall b, ls_rings s !! tn_stream t = Some b ->
         len (rb_items b) <= RING_TUNNEL_CAP /\ Forall (came ls (tn_remote t) (conn_of t)) (rb_items b)) /\
    (forall a s' sent, udp_step junk (Forward a) s = Done (Some (s', sent)) ->
       exists c p d j t, sock_map s !! a = Some c /\ sent = [SendTo d a] /\ to_datagram junk (uc_conn_id c) p = Done d /\
         TunnelSend j p ∈ ls /\ accepted s !! j = Some t /\ tn_remote t = a /\ conn_of t = uc_conn_id c).
Proof.
  destruct (udp_run_owned [] ls _ _ owned_new Hls) as (s & acts & G & E & Ho).
  exists s, acts, (fun t => default 0 (snd <$> G !! tn_stream t)). split; [done|]. split.
  - intros t Ht. destruct (ow_tunnel _ _ _ Ho t Ht) as (id & Hg & _). rewrite Hg. split; [by apply (ow_owner _ _ _ Ho _ _ _ _ Hg)|].
    intros b Hb. destruct (ow_ring _ _ _ Ho _ _ Hb) as (_ & _ & Hlen & Hi). by rewrite Hg in Hi.
  - intros a s' sent E'. cbn [udp_step] in E'. destruct (forward_one_owned _ _ _ a Ho) as (r & Er & _ & Hs). rewrite Er in E'. injection E' as ->.
    destruct (Hs s' sent eq_refl) as (p & d & j & t & id & -> & Ed & Hin & Hj & Ht & Hg & Hid). unfold forward_one in Er.
    destruct (sock_map s !! a) as [c|] eqn:Ec; [|done]. simpl in Hid. subst id. exists c, p, d, j, t. rewrite Hg. done.
Qed.
End listener_runs.

(** ** Opening a connection and using it *)

Lemma not_stun (h : UDPTunnelHeader) : in_range h -> udp_msg_type h <> 33 -> is_stun_packet (as_bytes h) = Done false.
Proof.
  intros Hr Hn. destruct (stun_defined _ (len_udp_bytes h)) as [[] E]; [|done].
  assert (take 8 (as_bytes h) = as_bytes h) as Ht by (apply take_ge; by rewrite as_bytes_length).
  rewrite <- Ht in E. apply stun_msg_type in E. rewrite <- (app_nil_r (as_bytes h)), udp_hdr_app in E by done. done.
Qed.

Lemma get_zcpacket_ok (h : UDPTunnelHeader) body stun : in_range h -> udp_msg_type h <> 33 -> udp_len h = len body ->
  get_zcpacket_from_buf (as_bytes h ++ body) stun = Done (Ok (mkZC (as_bytes h ++ body) UDP)).
Proof.
  intros Hr Hn Hlen. pose proof (len_udp_bytes h) as H8. pose proof (len_nonneg body).
  unfold get_zcpacket_from_buf, UDP_TUNNEL_HEADER_SIZE.
  destruct (Z.ltb_spec (len (as_bytes h ++ body)) 8); [rewrite len_app in *; lia|].
  assert (slice (as_bytes h ++ body) 0 8 = Done (as_bytes h)) as Hsl.
  { apply slice_Done. split; [lia|]. change (Z.to_nat (8 - 0)) with 8%nat. change (drop (Z.to_nat 0) ?l) with l.
    rewrite take_app_length' by (by rewrite as_bytes_length). done. }
  replace (if stun then _ else _) with (Done false : outcome bool).
  2:{ destruct stun; [|done]. rewrite Hsl. cbn [mbind outcome_bind]. by rewrite not_stun. }
  cbn [mbind outcome_bind]. unfold new_from_buf. rewrite udp_header_buf by done. cbn [mbind outcome_bind unwrap].
  rewrite udp_hdr_app by done. by destruct (Z.eqb_spec (udp_len h) (len (as_bytes h ++ body) - 8)); [|rewrite len_app in *; lia].
Qed.

Definition udp_header (ty : UdpPacketType) (conn_id pad n : Z) : UDPTunnelHeader :=
  {| udp_conn_id := conn_id; udp_msg_type := udp_packet_type_u8 ty; udp_padding := pad; udp_len := n |}.

Lemma udp_header_range ty conn_id pad n : in_width 32 conn_id -> in_width 8 pad -> in_width 16 n ->
  in_range (udp_header ty conn_id pad n) /\ udp_msg_type (udp_header ty conn_id pad n) <> 33.
Proof. intros. split; [split_and!; try done; by destruct ty | by destruct ty]. Qed.

Lemma new_packet_bytes ty conn_id magic : exists p,
  new_udp_packet (set_header ty conn_id 8) (le_bytes 8 magic) = Done p /\
  into_bytes p = as_bytes (udp_header ty conn_id 0 8) ++ le_bytes 8 magic.
Proof.
  destruct (new_udp_packet_spec (set_header ty conn_id 8) (le_bytes 8 magic)) as (h & Hp & ->).
  eexists; split; [done|]. unfold into_bytes, set_header, udp_header. cbn [inner]. by rewrite Hp.
Qed.

Definition sack_bytes (conn_id magic : Z) : bytes := as_bytes (udp_header UdpSack conn_id 0 8) ++ le_bytes 8 magic.

Lemma len_8_bytes z : len (le_bytes 8 z) = 8.
Proof. apply len_le_bytes. Qed.

Lemma take_le_bytes z : slice (le_bytes 8 z) 0 8 = Done (le_bytes 8 z).
Proof. apply slice_Done. rewrite len_8_bytes. split; [lia|]. symmetry. apply take_ge. by rewrite le_bytes_length. Qed.

Section sack.
Context (conn_id magic : Z) (Hid : in_width 32 conn_id) (Hmagic : in_width 64 magic).

Lemma wait_sack_accepts from : wait_sack (sack_bytes conn_id magic, from) conn_id magic = Done (Ok from).
Proof.
  destruct (udp_header_range UdpSack conn_id 0 8) as [Hr Hn]; [done | done | done|].
  unfold wait_sack. cbn [fst snd]. rewrite take_ge.
  2:{ unfold sack_bytes. rewrite length_app, le_bytes_length, as_bytes_length by done. vm_compute. lia. }
  unfold sack_bytes. assert (8 <= len (as_bytes (udp_header UdpSack conn_id 0 8) ++ le_bytes 8 magic)) as Hl
    by (rewrite len_app, len_udp_bytes, len_8_bytes; lia).
  rewrite get_zcpacket_ok by (done || by rewrite len_8_bytes). cbn [mbind outcome_bind].
  rewrite udp_header_buf by done. cbn [mbind outcome_bind unwrap]. rewrite udp_hdr_app by done.
  cbn [udp_header udp_conn_id udp_msg_type]. rewrite !Z.eqb_refl. cbn [negb].
  rewrite udp_payload_buf by done. cbn [mbind outcome_bind]. rewrite drop_udp_bytes, len_8_bytes, take_le_bytes.
  cbn [mbind outcome_bind negb Z.eqb Pos.eqb]. rewrite le_val_le_bytes, Z.mod_small by done. by rewrite Z.eqb_refl.
Qed.

(** Only an acknowledgement with both numbers is accepted. *)
Lemma wait_sack_sound d from x : wait_sack (d, from) conn_id magic = Done (Ok x) ->
  x = from /\ exists buf, buf `prefix_of` d /\ len buf = 16 /\ udp_conn_id (udp_hdr buf) = conn_id /\
    udp_msg_type (udp_hdr buf) = udp_packet_type_u8 UdpSack /\ le_val (take 8 (drop 8 buf)) = magic.
Proof.
  unfold wait_sack. cbn [fst snd]. set (buf := take _ d). destruct (get_zcpacket_spec buf false) as (r & -> & Hr).
  cbn [mbind outcome_bind]. destruct r as [p|]; [|done]. destruct (Hr p eq_refl) as (-> & Hl & _).
  rewrite udp_header_buf by done. cbn [mbind outcome_bind unwrap].
  destruct (Z.eqb_spec (udp_conn_id (udp_hdr buf)) conn_id) as [E1|]; [|done].
  destruct (Z.eqb_spec (udp_msg_type (udp_hdr buf)) (udp_packet_type_u8 UdpSack)) as [E2|]; [|done].
  rewrite udp_payload_buf by done. cbn [mbind outcome_bind negb].
  destruct (Z.eqb_spec (len (drop 8 buf)) 8) as [E3|]; [|done]. cbn [negb].
  assert (slice (drop 8 buf) 0 8 = Done (take 8 (drop 8 buf))) as -> by (apply slice_Done; split; [lia | done]).
  cbn [mbind outcome_bind]. destruct (Z.eqb_spec (le_val (take 8 (drop 8 buf))) magic) as [E4|]; [|done].
  intros [= ->]. split; [done|]. exists buf. split_and!; try done; [apply prefix_take|].
  unfold len in *. rewrite length_drop in E3. lia.
Qed.

Lemma wait_sack_defined recv : exists r, wait_sack recv conn_id magic = Done r.
Proof.
  unfold wait_sack. set (buf := take _ _). destruct (get_zcpacket_spec buf false) as (r & -> & Hr).
  cbn [mbind outcome_bind]. destruct r as [p|]; [|by eexists]. destruct (Hr p eq_refl) as (-> & Hl & _).
  rewrite udp_header_buf by done. cbn [mbind outcome_bind unwrap].
  destruct (negb _); [by eexists|]. destruct (negb _); [by eexists|].
  rewrite udp_payload_buf by done. cbn [mbind outcome_bind].
  destruct (Z.eqb_spec (len (drop 8 buf)) 8) as [E3|]; cbn [negb]; [|by eexists].
  assert (slice (drop 8 buf) 0 8 = Done (take 8 (drop 8 buf))) as -> by (apply slice_Done; split; [lia | done]).
  cbn [mbind outcome_bind]. destruct (negb _); by eexists.
Qed.

(** Whatever else arrives, the acknowledgement is found. *)
Lemma wait_sack_loop_finds recvs from : (sack_bytes conn_id magic, from) ∈ recvs ->
  exists x, wait_sack_loop recvs conn_id magic = Done (Ok x).
Proof.
  induction recvs as [|y recvs IH]; [by intros ?%elem_of_nil|]. cbn [wait_sack_loop]. intros [<-|Hin]%elem_of_cons.
  - rewrite wait_sack_accepts. by eexists.
  - destruct (wait_sack_defined y) as [[z|e] ->]; cbn [mbind outcome_bind]; [by eexists | auto].
Qed.
End sack.

Section connects.
Context `{RingBufferLaws B} `{BytesAllocLaws} (junk : nat -> Z).
Implicit Types s : Listener B.

(** A ring of this content with room for any packet. *)
Definition ring_with (rings : gmap nat B) (r : nat) (ps : list ZCPacket) : Prop :=
  exists b, rings !! r = Some b /\ rb_items b = ps /\ rb_capacity b = RING_TUNNEL_CAP.

Definition has_room (ps : list ZCPacket) : Prop := len ps < RING_TUNNEL_CAP - RING_TUNNEL_RESERVERD_CAP.

Lemma ring_takes lossy p (b : B) : has_room (rb_items b) -> rb_capacity b = RING_TUNNEL_CAP ->
  let b' := snd ((if lossy : bool then ring_try_send else ring_force_send) p b) in
  rb_items b' = rb_items b ++ [p] /\ rb_capacity b' = RING_TUNNEL_CAP.
Proof.
  unfold has_room, RING_TUNNEL_CAP, RING_TUNNEL_RESERVERD_CAP. intros Hr Hc. pose proof (len_nonneg (rb_items b)).
  assert (rb_items (snd (rb_try_push p b)) = rb_items b ++ [p] /\ rb_capacity (snd (rb_try_push p b)) = 128) as Hp.
  { pose proof (rb_try_push_spec p b) as Hs. rewrite Hc in Hs. destruct (Z.ltb_spec (len (rb_items b)) 128); [|lia].
    destruct (rb_try_push p b) as [r b']. destruct Hs as (E1 & _ & E2). by split. }
  destruct lossy; [|done]. unfold ring_try_send. rewrite Hc. change (as_usize (128 - RING_TUNNEL_RESERVERD_CAP)) with 124.
  destruct (Z.leb_spec 124 (len (rb_items b))); [lia | done].
Qed.

(** A packet that is written into an empty ring is the next one to be sent. *)
Lemma written_is_forwarded c (rings : gmap nat B) conn_id p d : ring_with rings (uc_ring_recv c) [] -> uc_conn_id c = conn_id ->
  to_datagram junk conn_id p = Done d ->
  exists rings', forward_from_ring junk c (alter (fun b => snd (rb_try_push p b)) (uc_ring_recv c) rings) = Done (Some (rings', d, uc_dst_addr c)).
Proof.
  intros (b & Hb & Hi & Hc) <- Hd. unfold forward_from_ring. rewrite lookup_alter_eq, Hb. cbn [fmap option_fmap option_map].
  destruct (ring_takes false p b) as [Hi' _]; [by rewrite Hi | done|]. unfold ring_force_send in Hi'. rewrite Hi in Hi'. simpl in Hi'.
  pose proof (rb_pop_spec (snd (rb_try_push p b))) as Hp. destruct (rb_pop _) as [r b']. destruct Hp as (_ & -> & _). rewrite Hi'. cbn [head app].
  rewrite Hd. cbn [mbind outcome_bind]. by eexists.
Qed.

(** A packet small enough for one datagram. *)
Definition datagram_packet (p : ZCPacket) (h : PeerManagerHeader) (body : bytes) : Prop :=
  (exists pre, laid_out p pre h body) /\ 24 + len body <= UDP_DATA_MTU.

Lemma to_datagram_delivers conn_id p h body : datagram_packet p h body -> in_width 32 conn_id ->
  exists hdr d, to_datagram junk conn_id p = Done d /\ d = as_bytes hdr ++ as_bytes h ++ body /\
    in_range hdr /\ udp_msg_type hdr = 3 /\ udp_conn_id hdr = conn_id /\ udp_len hdr = len (as_bytes h ++ body) /\
    len d <= UDP_DATA_MTU /\ delivered p (mkZC d UDP).
Proof.
  intros [[pre Hl] Hlen] Hid. pose proof (len_nonneg body). unfold UDP_DATA_MTU in *.
  destruct (to_datagram_layout junk conn_id p pre h body Hl) as (pad & Hpad & E).
  { split; [lia|]. change (2 ^ 16) with 65536. lia. }
  eexists _, _. split; [exact E|]. split; [done|]. rewrite len_pm_body.
  assert (in_width 16 (16 + len body)) as Hw by (split; [lia | change (2 ^ 16) with 65536; lia]).
  split; [by split_and!|]. split_and!; try done.
  - rewrite len_app, len_udp_bytes, len_pm_body. lia.
  - exists pre. eexists _, h, body. split; [done|]. split_and!; [done | apply len_udp_bytes | apply Hl].
Qed.

Lemma handle_data c hdr body (rings : gmap nat B) ps : in_range hdr -> udp_msg_type hdr = 3 -> udp_conn_id hdr = uc_conn_id c ->
  ring_with rings (uc_ring_sender c) ps -> has_room ps ->
  exists rings', handle_packet_from_remote c (mkZC (as_bytes hdr ++ body) UDP) rings = Done (Ok tt, rings') /\
    ring_with rings' (uc_ring_sender c) (ps ++ [mkZC (as_bytes hdr ++ body) UDP]).
Proof.
  intros Hr Ht Hi (b & Hb & <- & Hc) Hroom. assert (8 <= len (as_bytes hdr ++ body)) as Hl.
  { rewrite len_app, len_udp_bytes. pose proof (len_nonneg body). lia. }
  unfold handle_packet_from_remote. rewrite udp_header_buf by done. cbn [mbind outcome_bind unwrap]. rewrite udp_hdr_app by done.
  rewrite Ht, Hi, !Z.eqb_refl. cbn [negb Z.eqb Pos.eqb udp_packet_type_u8]. destruct (is_lossy_buf _ Hl) as [lossy ->]. cbn [mbind outcome_bind].
  eexists. split; [done|]. eexists. split; [by rewrite lookup_alter_eq, Hb|]. by apply ring_takes.
Qed.

(** A data packet at the listener goes to its connection. *)
Lemma listener_recv_data s a c ps rnd hdr body d : buf_ok (ls_buf s) -> sock_map s !! a = Some c ->
  d = as_bytes hdr ++ body -> in_range hdr -> udp_msg_type hdr = 3 -> udp_conn_id hdr = uc_conn_id c -> udp_len hdr = len body ->
  len d <= UDP_DATA_MTU -> ring_with (ls_rings s) (uc_ring_sender c) ps -> has_room ps ->
  exists s', listener_recv rnd d a s = Done (s', []) /\ ring_with (ls_rings s') (uc_ring_sender c) (ps ++ [mkZC d UDP]).
Proof.
  intros Hbuf Hc -> Hr Ht Hi Hlen Hmtu Hb Hroom. unfold listener_recv.
  destruct (recv_datagram_spec true (ls_buf s) (as_bytes hdr ++ body) Hbuf) as (r & buf & got & -> & _ & _ & Hz & Hgot).
  rewrite (Hgot Hmtu), get_zcpacket_ok in Hz by (done || congruence).
  assert (r = Ok (mkZC (as_bytes hdr ++ body) UDP)) as -> by congruence. cbn [mbind outcome_bind].
  assert (8 <= len (as_bytes hdr ++ body)) by (rewrite len_app, len_udp_bytes; pose proof (len_nonneg body); lia).
  unfold do_forward_one_packet_to_conn. rewrite udp_header_buf by done.
  cbn [mbind outcome_bind unwrap]. rewrite udp_hdr_app by done. rewrite not_stun by (done || congruence). rewrite Ht.
  cbn [mbind outcome_bind negb Z.eqb Pos.eqb udp_packet_type_u8 with_ls_buf sock_map ls_rings]. rewrite Hc.
  destruct (handle_data c hdr body (ls_rings s) ps Hr Ht Hi Hb Hroom) as (rings' & -> & Hl).
  cbn [mbind outcome_bind]. by eexists.
Qed.

(** The same at the connector. *)
Lemma connector_recv_data cn buf hdr body d ps : buf_ok buf -> d = as_bytes hdr ++ body -> in_range hdr -> udp_msg_type hdr = 3 ->
  udp_conn_id hdr = uc_conn_id (cn_conn cn) -> udp_len hdr = len body -> len d <= UDP_DATA_MTU ->
  ring_with (cn_rings cn) (uc_ring_sender (cn_conn cn)) ps -> has_room ps ->
  exists buf' cn', connector_recv buf d cn = Done (buf', cn') /\
    ring_with (cn_rings cn') (uc_ring_sender (cn_conn cn)) (ps ++ [mkZC d UDP]).
Proof.
  intros Hbuf -> Hr Ht Hi Hlen Hmtu Hb Hroom. unfold connector_recv.
  destruct (recv_datagram_spec false buf (as_bytes hdr ++ body) Hbuf) as (r & buf' & got & -> & _ & _ & Hz & Hgot).
  rewrite (Hgot Hmtu), get_zcpacket_ok in Hz by (done || congruence).
  assert (r = Ok (mkZC (as_bytes hdr ++ body) UDP)) as -> by congruence. cbn [mbind outcome_bind].
  destruct (handle_data (cn_conn cn) hdr body (cn_rings cn) ps) as (rings & -> & Hl); try done.
  cbn [mbind outcome_bind]. by eexists _, _.
Qed.

Lemma udp_run_step l ls s s1 acts1 r : udp_step junk l s = Done (Some (s1, acts1)) -> udp_run junk ls s1 = Done r ->
  udp_run junk (l :: ls) s = Done (r.1, acts1 ++ r.2).
Proof. intros E1 E2. unfold udp_run in *. cbn [run]. rewrite E1. simpl. rewrite E2. by destruct r. Qed.

Section handshake.
Context (conn_id magic : Z) (Hid : in_width 32 conn_id) (Hmagic : in_width 64 magic) (a : SocketAddr).

Definition syn_bytes : bytes := as_bytes (udp_header UdpSyn conn_id 0 8) ++ le_bytes 8 magic.

Lemma syn_facts : in_range (udp_header UdpSyn conn_id 0 8) /\ len syn_bytes = 16.
Proof.
  split; [by apply udp_header_range|]. unfold syn_bytes. by rewrite len_app, len_udp_bytes, len_8_bytes.
Qed.

Lemma syn_received s rnd : buf_ok (ls_buf s) -> exists buf, buf_ok buf /\
  udp_step junk (Datagram syn_bytes a rnd) s =
    Done (Some (with_tasks (ls_tasks s ++ [Spawned a (mkZC syn_bytes UDP)]) (with_ls_buf buf s), [])).
Proof.
  intros Hb. destruct syn_facts as [Hr Hl].
  destruct (recv_datagram_spec true (ls_buf s) syn_bytes Hb) as (r & buf & got & Erecv & Hbuf & _ & Hz & Hgot).
  rewrite Hgot in Hz by (by rewrite Hl). unfold syn_bytes in Hz at 1. rewrite get_zcpacket_ok in Hz by (done || by rewrite len_8_bytes).
  assert (r = Ok (mkZC syn_bytes UDP)) as -> by (unfold syn_bytes; congruence). exists buf. split; [done|].
  cbn [udp_step]. unfold listener_recv. rewrite Erecv. cbn [mbind outcome_bind]. unfold do_forward_one_packet_to_conn.
  rewrite udp_header_buf by lia. cbn [mbind outcome_bind unwrap]. unfold syn_bytes at 1. rewrite udp_hdr_app by done. done.
Qed.

Lemma syn_acknowledged tasks s : ls_tasks s = tasks ++ [Spawned a (mkZC syn_bytes UDP)] ->
  udp_step junk (RunAccept (length tasks) true) s =
    Done (Some (with_tasks (tasks ++ [Acknowledged a conn_id]) s, [SendTo (sack_bytes conn_id magic) a])).
Proof.
  intros Ht. destruct syn_facts as [Hr Hl]. cbn [udp_step]. unfold run_accept. rewrite Ht, list_lookup_middle by done.
  assert (drop 8 syn_bytes = le_bytes 8 magic) as Hd by apply drop_udp_bytes.
  assert (udp_hdr syn_bytes = udp_header UdpSyn conn_id 0 8) as Hh by (by apply udp_hdr_app).
  unfold connect_begin. rewrite udp_payload_buf by lia. cbn [mbind outcome_bind].
  rewrite Hd, len_8_bytes, take_le_bytes. cbn [mbind outcome_bind negb Z.eqb Pos.eqb].
  rewrite udp_header_buf by lia. cbn [mbind outcome_bind unwrap]. rewrite Hh.
  rewrite le_val_le_bytes, Z.mod_small by done. unfold new_sack_packet. cbn [udp_header udp_conn_id].
  destruct (new_packet_bytes UdpSack conn_id magic) as (p & -> & Hp). cbn [mbind outcome_bind]. rewrite Hp.
  by rewrite insert_app_r_alt, Nat.sub_diag by done.
Qed.

(** The [j]-th tunnel in use is that of [a]'s current connection; [ps] waits
    for its reader, and nothing for its forward task. *)
Definition linked s (j : nat) (t : UdpTunnel) (ps : list ZCPacket) : Prop :=
  accepted s !! j = Some t /\ ring_with (ls_rings s) (tn_stream t) ps /\ ring_with (ls_rings s) (tn_sink t) [] /\
  exists c, sock_map s !! a = Some c /\ uc_conn_id c = conn_id /\ uc_dst_addr c = a /\ uc_forwarding c = true /\
    uc_ring_sender c = tn_stream t /\ uc_ring_recv c = tn_sink t.

(** Calls of [accept] empty the channel. *)
Lemma take_tunnels n s : length (conn_send s) = n ->
  udp_run junk (replicate n TakeTunnel) s =
    Done (mkListener (sock_map s) (ls_rings s) (ls_next_ring s) [] (accepted s ++ conn_send s) (close_events s) (ls_tasks s) (ls_buf s), []).
Proof.
  revert s. induction n as [|n IH]; intros s Hn; unfold udp_run in *; cbn [replicate run].
  - destruct s as [? ? ? [|] ? ? ? ?]; [|done]. cbn. by rewrite app_nil_r.
  - cbn [udp_step]. destruct (conn_send s) as [|t q] eqn:Eq; [done|]. cbn [mbind outcome_bind default from_option id].
    set (s' := mkListener _ _ _ q _ _ _ _). rewrite (IH s') by (injection Hn as <-; done). cbn. by rewrite <- app_assoc.
Qed.

(** The listener's side: the handshake, and [accept] until the tunnel is there. *)
Lemma listener_handshake ls s G rnd : owned ls s G ->
  exists s1 t,
    udp_run junk [Datagram syn_bytes a rnd; RunAccept (length (ls_tasks s)) true; RunAccept (length (ls_tasks s)) true] s =
      Done (s1, [SendTo (sack_bytes conn_id magic) a]) /\
    handed s1 t /\ tn_remote t = a /\
    exists s2, udp_run junk (replicate (length (conn_send s1)) TakeTunnel ++ [RunAccept (length (ls_tasks s)) true; TakeTunnel]) s1 = Done (s2, []) /\
      linked s2 (length (accepted s1 ++ conn_send s1)) t [].
Proof.
  intros Ho. destruct (syn_received s rnd (ow_buf _ _ _ Ho)) as (buf & Hbuf & E1).
  set (s1 := with_tasks (ls_tasks s ++ [Acknowledged a conn_id]) (with_ls_buf buf s)).
  assert (rb_items (ring_tunnel_new 128) = [] /\ rb_capacity (ring_tunnel_new (B := B) 128) = 128) as [Hi0 Hc0]
    by (apply rb_new_spec; done).
  assert (exists s2, udp_step junk (RunAccept (length (ls_tasks s)) true) s1 = Done (Some (s2, [])) /\
    let '(t, s') := connect_end a conn_id s1 in s2 = with_tasks (ls_tasks s ++ [HandingOver t]) s') as (s2 & E3 & Hs2).
  { cbn [udp_step]. unfold run_accept. unfold s1 at 1. cbn [with_tasks ls_tasks]. rewrite list_lookup_middle by done.
    destruct (connect_end a conn_id s1) as [t s'] eqn:Ec. eexists; split; [done|]. f_equal.
    assert (ls_tasks s' = ls_tasks s ++ [Acknowledged a conn_id]) as -> by (unfold connect_end in Ec; by simplify_eq).
    by rewrite insert_app_r_alt, Nat.sub_diag by done. }
  unfold connect_end in Hs2.
  set (t := {| tn_stream := S (ls_next_ring s1); tn_sink := ls_next_ring s1; tn_remote := a |}) in Hs2.
  exists s2, t. split.
  { pose proof (udp_run_step _ [] _ _ _ (s2, []) E3 eq_refl) as R3.
    pose proof (syn_acknowledged (ls_tasks s) (with_tasks (ls_tasks s ++ [Spawned a (mkZC syn_bytes UDP)]) (with_ls_buf buf s)) eq_refl) as E2.
    pose proof (udp_run_step _ _ _ _ _ _ E2 R3) as R2. exact (udp_run_step _ _ _ _ _ _ E1 R2). }
  split; [right; right; subst s2; cbn; apply elem_of_app; right; by left|]. split; [done|].
  pose proof (take_tunnels (length (conn_send s2)) s2 eq_refl) as ET. set (s3 := mkListener _ _ _ [] _ _ _ _) in ET.
  set (s4 := mkListener (sock_map s2) (ls_rings s2) (ls_next_ring s2) [t] (accepted s2 ++ conn_send s2) (close_events s2) (ls_tasks s) (ls_buf s2)).
  set (s5 := mkListener (sock_map s2) (ls_rings s2) (ls_next_ring s2) [] ((accepted s2 ++ conn_send s2) ++ [t]) (close_events s2) (ls_tasks s) (ls_buf s2)).
  assert (udp_step junk (RunAccept (length (ls_tasks s)) true) s3 = Done (Some (s4, []))) as E4.
  { assert (ls_tasks s2 = ls_tasks s ++ [HandingOver t]) as Et by (by subst s2).
    cbn [udp_step]. unfold run_accept, s3. cbn [ls_tasks conn_send]. rewrite Et, list_lookup_middle by done.
    change (len [] <? ACCEPT_CHANNEL_CAP) with true. cbv iota. unfold s4. cbn.
    rewrite delete_middle. by rewrite app_nil_r. }
  assert (udp_step junk TakeTunnel s4 = Done (Some (s5, []))) as E5 by done.
  exists s5. split.
  { refine (run_app _ _ _ _ _ _ _ [] ET _). pose proof (udp_run_step _ [] _ _ _ (s5, []) E5 eq_refl) as R5. exact (udp_run_step _ _ _ _ _ _ E4 R5). }
  unfold linked, s5. cbn [accepted ls_rings sock_map]. split; [by rewrite list_lookup_middle|]. subst s2. cbn. split_and!.
  - eexists. split; [|done]. rewrite lookup_insert_ne by lia. by rewrite lookup_insert_eq.
  - eexists. split; [by rewrite lookup_insert_eq | done].
  - eexists. split; [by rewrite lookup_insert_eq | done].
Qed.
End handshake.

(** A connector with [ps] waiting for its reader and nothing for its forward
    task. *)
Definition connector_linked (server : SocketAddr) (conn_id : Z) (cn : Connector B) (ps : list ZCPacket) : Prop :=
  cn_conn cn = cn_conn (build_tunnel (B := B) server conn_id) /\ ring_with (cn_rings cn) 0 ps /\ ring_with (cn_rings cn) 1 [].

Lemma build_tunnel_linked server conn_id : connector_linked server conn_id (build_tunnel server conn_id) [].
Proof.
  assert (rb_items (ring_tunnel_new 128) = [] /\ rb_capacity (ring_tunnel_new (B := B) 128) = 128) as [Hi0 Hc0]
    by (apply rb_new_spec; done).
  split; [done|]. split; eexists; by split.
Qed.

(** C19.  At any moment of a listener's life a connector's handshake succeeds if
    its datagrams arrive: its first packet makes the listener send an
    acknowledgement, and calls of [accept] hand out a tunnel for the connector's
    address; the connector recognises the acknowledgement among whatever else it
    receives.  From then on, whenever the tunnel's connection is still the one of
    that address and a ring from a tunnel is empty, a packet of up to the
    datagram limit that the user of one end writes is sent by that end's forward
    task to the other node as one datagram, and when the datagram arrives there,
    from the connector's address, and the other end's ring has room, it is put
    behind what the user of the other end has not read yet, header and payload
    unchanged. *)
Theorem udp_connects_and_delivers (ls : list udp_label) (a server from : SocketAddr) (conn_id magic : Z)
    (recvs : list (bytes * SocketAddr)) (rnd : bytes)
    (Hls : Forall label_ok ls) (Hid : in_width 32 conn_id) (Hmagic : in_width 64 magic) :
  exists s acts s1 t,
    udp_run junk ls (listener_new (B := B)) = Done (s, acts) /\
    udp_run junk [Datagram (syn_bytes conn_id magic) a rnd; RunAccept (length (ls_tasks s)) true; RunAccept (length (ls_tasks s)) true] s =
      Done (s1, [SendTo (sack_bytes conn_id magic) a]) /\ handed s1 t /\ tn_remote t = a /\
    ((sack_bytes conn_id magic, from) ∈ recvs ->
      try_connect_with_socket server conn_id magic recvs = Done (syn_bytes conn_id magic, Ok (build_tunnel (B := B) server conn_id)) /\
      connector_linked server conn_id (build_tunnel server conn_id) []) /\
    (exists n s2, udp_run junk (replicate n TakeTunnel ++ [RunAccept (length (ls_tasks s)) true; TakeTunnel]) s1 = Done (s2, []) /\
       linked conn_id a s2 (length (accepted s1) + n) t []) /\
    forall ls2 s2 acts2 j ps cn qs p h body,
      Forall label_ok ls2 -> udp_run junk ls2 s1 = Done (s2, acts2) -> linked conn_id a s2 j t ps -> connector_linked server conn_id cn qs ->
      datagram_packet p h body ->
      exists d, delivered p (mkZC d UDP) /\
        (exists s3, udp_run junk [TunnelSend j p; Forward a] s2 = Done (s3, [SendTo d a])) /\
        (has_room qs -> forall buf, buf_ok buf -> exists buf' cn', connector_recv buf d cn = Done (buf', cn') /\
           ring_with (cn_rings cn') 0 (qs ++ [mkZC d UDP])) /\
        (exists cn', connector_forward junk (connector_send p cn) = Done (Some (cn', d, server))) /\
        (has_room ps -> exists s3, udp_run junk [Datagram d a rnd] s2 = Done (s3, []) /\
           ring_with (ls_rings s3) (tn_stream t) (ps ++ [mkZC d UDP])).
Proof.
  destruct (udp_run_owned junk [] ls _ _ owned_new Hls) as (s & acts & G & E & Ho).
  destruct (listener_handshake conn_id magic Hid Hmagic a _ s G rnd Ho) as (s1 & t & E1 & Ht & Hrem & s2 & E2 & Hlink).
  exists s, acts, s1, t. split_and!; try done.
  - intros Hin. split; [|apply build_tunnel_linked].
    unfold try_connect_with_socket, new_syn_packet. destruct (new_packet_bytes UdpSyn conn_id magic) as (p & -> & Hp).
    cbn [mbind outcome_bind]. destruct (wait_sack_loop_finds conn_id magic Hid Hmagic recvs from Hin) as (x & ->).
    cbn [mbind outcome_bind]. by rewrite Hp.
  - exists (length (conn_send s1)), s2. rewrite length_app in Hlink. done.
  - clear s2 E2 Hlink. intros ls2 s2 acts2 j ps cn qs p h body Hls2 E2 (Hj & Hstream & Hsink & c & Hc & Hci & Hdst & Hfw & Hrs & Hrr)
      (Hcn & Hq0 & Hq1) Hp.
    destruct (to_datagram_delivers conn_id p h body Hp Hid) as (hdr & d & Ed & Hd & Hr & Hty & Hcid & Hlen & Hmtu & Hdel).
    assert (buf_ok (ls_buf s2)) as Hbuf.
    { destruct (udp_run_owned junk _ [Datagram (syn_bytes conn_id magic) a rnd; RunAccept (length (ls_tasks s)) true; RunAccept (length (ls_tasks s)) true]
        s G Ho) as (s1' & acts1 & G1 & E1' & Ho1); [repeat constructor|]. rewrite E1 in E1'. injection E1' as <- <-.
      destruct (udp_run_owned junk _ ls2 s1 G1 Ho1 Hls2) as (s2' & acts2' & G2 & E2' & Ho2). rewrite E2 in E2'. injection E2' as <- <-.
      apply (ow_buf _ _ _ Ho2). }
    exists d. split; [done|]. split_and!.
    + destruct (written_is_forwarded c (ls_rings s2) conn_id p d) as (rings & Ef); [by rewrite Hrr | done | done|].
      rewrite Hrr, Hdst in Ef. eexists. eapply udp_run_step with (acts1 := []) (r := (_, [SendTo d a])).
      * cbn [udp_step]. rewrite Hj. done.
      * eapply udp_run_step with (acts1 := [SendTo d a]) (r := (_, [])); [|done].
        cbn [udp_step]. unfold forward_one. cbn [with_rings sock_map ls_rings]. rewrite Hc, Hfw, Ef. done.
    + intros Hroom buf Hb. assert (uc_ring_sender (cn_conn cn) = 0%nat) as E0 by (by rewrite Hcn). rewrite <- E0 in *.
      eapply (connector_recv_data cn buf hdr); try done. by rewrite Hcid, Hcn.
    + assert (uc_ring_recv (cn_conn cn) = 1%nat) as E0 by (by rewrite Hcn). unfold connector_forward, connector_send. cbn [cn_conn cn_rings].
      destruct (written_is_forwarded (cn_conn cn) (cn_rings cn) conn_id p d) as (rings & ->); [by rewrite E0 | by rewrite Hcn | done|].
      cbn [mbind outcome_bind]. eexists. by rewrite Hcn.
    + intros Hroom. rewrite <- Hrs in Hstream |- *.
      destruct (listener_recv_data s2 a c ps rnd hdr (as_bytes h ++ body) d) as (s3 & E3 & Hr3); try done; [by rewrite Hcid|].
      exists s3. split; [|done]. eapply udp_run_step with (acts1 := []) (r := (s3, [])); [|done]. cbn [udp_step]. by rewrite E3.
Qed.
End connects.

(** ** Examples *)

(** A bounded queue. *)
Record queue := { q_items : list ZCPacket; q_cap : Z }.

#[global] Instance queue_ring : RingBuffer queue := {|
  rb_new n := {| q_items := []; q_cap := n |};
  rb_items := q_items;
  rb_capacity := q_cap;
  rb_try_push p b := if len (q_items b) <? q_cap b then (Ok tt, {| q_items := q_items b ++ [p]; q_cap := q_cap b |}) else (Err p, b);
  rb_pop b := (head (q_items b), {| q_items := tail (q_items b); q_cap := q_cap b |})
|}.

#[global] Instance queue_laws : RingBufferLaws queue.
Proof.
  split; simpl.
  - done.
  - intros p b. by destruct (len (q_items b) <? q_cap b).
  - done.
Qed.

Definition alice : SocketAddr := (V4 1, 5000).
Definition bob : SocketAddr := (V4 2, 6000).
Definition no_junk : nat -> Z := fun _ => 0.

Definition data_from (conn_id : Z) (body : bytes) : bytes :=
  as_bytes (udp_header UdpData conn_id 0 (len body)) ++ body.

(** Two connections are opened and both sides send, one of them with the
    number of the other's connection. *)
Definition two_connections : list udp_label :=
  [Datagram (syn_bytes 7 1) alice []; Datagram (syn_bytes 8 2) bob []; RunAccept 0 true; RunAccept 1 true;
   RunAccept 1 true; RunAccept 0 true; RunAccept 0 true; RunAccept 0 true; TakeTunnel; TakeTunnel;
   Datagram (data_from 7 [1; 2; 3]) alice []; Datagram (data_from 7 [4]) bob []; Datagram (data_from 8 [5]) bob [];
   TunnelSend 0 (mkZC (replicate 16 0) DummyTunnel); Forward alice; ForwardEnds bob None; CloseEvent].

Lemma udp_tunnels_isolated_witness :
  exists s acts conn_of, udp_run no_junk two_connections (listener_new (B := queue)) = Done (s, acts) /\
    map_size (ls_rings s) = 4%nat /\ length (accepted s) = 2%nat /\
    forall t, handed s t -> opened two_connections (tn_remote t) (conn_of t).
Proof.
  destruct (udp_tunnels_isolated (B := queue) no_junk two_connections) as (s & acts & conn_of & E & Hs & _).
  - repeat constructor. vm_compute. congruence.
  - exists s, acts, conn_of. split; [exact E|]. split; [|split].
    + vm_compute in E. injection E as <- <-. reflexivity.
    + vm_compute in E. injection E as <- <-. reflexivity.
    + intros t Ht. exact (proj1 (Hs t Ht)).
Defined.

Definition small_packet : ZCPacket := mkZC (as_bytes (stream_header 2) ++ [1; 2]) DummyTunnel.

Lemma udp_connects_and_delivers_witness :
  exists s acts s1 t s2 j,
    udp_run no_junk two_connections (listener_new (B := queue)) = Done (s, acts) /\
    udp_run no_junk [Datagram (syn_bytes 9 77) bob []; RunAccept (length (ls_tasks s)) true; RunAccept (length (ls_tasks s)) true] s =
      Done (s1, [SendTo (sack_bytes 9 77) bob]) /\ tn_remote t = bob /\
    try_connect_with_socket (B := queue) alice 9 77 [(sack_bytes 3 3, bob); (sack_bytes 9 77, alice)] =
      Done (syn_bytes 9 77, Ok (build_tunnel alice 9)) /\
    exists d cn, connector_forward no_junk (connector_send small_packet (build_tunnel (B := queue) alice 9)) = Done (Some (cn, d, alice)) /\
      (exists s3, udp_run no_junk [TunnelSend j small_packet; Forward bob] s2 = Done (s3, [SendTo d bob])) /\
      exists s3, udp_run no_junk [Datagram d bob []] s2 = Done (s3, []) /\ ring_with (ls_rings s3) (tn_stream t) [mkZC d UDP].
Proof.
  destruct (udp_connects_and_delivers (B := queue) no_junk two_connections bob alice alice 9 77
    [(sack_bytes 3 3, bob); (sack_bytes 9 77, alice)] []) as (s & acts & s1 & t & E & E1 & _ & Hr & Hc & (n & s2 & E2 & Hlink) & Hd).
  - repeat constructor. vm_compute. congruence.
  - vm_compute. intuition congruence.
  - vm_compute. intuition congruence.
  - destruct Hc as [Hc Hcl]; [right; left|].
    exists s, acts, s1, t, s2, (length (accepted s1) + n)%nat. split; [exact E|]. split; [exact E1|]. split; [exact Hr|]. split; [exact Hc|].
    destruct (Hd (replicate n TakeTunnel ++ [RunAccept (length (ls_tasks s)) true; TakeTunnel]) s2 []
        (length (accepted s1) + n)%nat [] (build_tunnel alice 9) [] small_packet (stream_header 2) [1; 2]) as (d & _ & H1 & _ & (cn & H3) & H4).
    + apply Forall_app. split; [|repeat constructor]. apply Forall_replicate. exact I.
    + exact E2.
    + exact Hlink.
    + exact Hcl.
    + split; [|vm_compute; congruence]. exists []. split; [reflexivity|]. split; [reflexivity|]. vm_compute. intuition congruence.
    + exists d, cn. split; [exact H3|]. split; [exact H1|]. apply H4. vm_compute. reflexivity.
Defined.

(** The listener acknowledges before it knows the connection: data that arrives
    in between is dropped, although the connector was told it is connected. *)
Example early_data_lost :
  exists s acts, udp_run no_junk
      [Datagram (syn_bytes 7 1) alice []; RunAccept 0 true; Datagram (data_from 7 [1; 2; 3]) alice []; RunAccept 0 true;
       RunAccept 0 true; TakeTunnel] (listener_new (B := queue)) = Done (s, acts) /\
    acts = [SendTo (sack_bytes 7 1) alice] /\
    accepted s = [{| tn_stream := 1; tn_sink := 0; tn_remote := alice |}] /\ (rb_items <$> ls_rings s !! 1%nat) = Some [].
Proof. eexists _, _. split; [vm_compute; reflexivity|]. repeat split. Qed.

(** The close event of a connection carries only the address: when the same
    address has connected again in the meantime, the event removes the new
    connection, and what the peer sends from then on is dropped. *)
Example stale_close_event :
  exists s acts, udp_run no_junk
      [Datagram (syn_bytes 7 1) alice []; RunAccept 0 true; RunAccept 0 true; RunAccept 0 true; ForwardEnds alice None;
       Datagram (syn_bytes 8 2) alice []; RunAccept 0 true; RunAccept 0 true; RunAccept 0 true; CloseEvent;
       Datagram (data_from 8 [1; 2; 3]) alice []] (listener_new (B := queue)) = Done (s, acts) /\
    length (conn_send s) = 2%nat /\ sock_map s = ∅ /\ (rb_items <$> ls_rings s !! 3%nat) = Some [].
Proof. eexists _, _. split; [vm_compute; reflexivity|]. repeat split. Qed.

(** Of the slots of a ring, the last four are kept for packets that must not be
    lost. *)
Lemma reserved_slots `{RingBufferLaws B} p (b : B) : rb_capacity b = RING_TUNNEL_CAP -> len (rb_items b) <= RING_TUNNEL_CAP ->
  (fst (ring_try_send p b) = Ok tt <-> len (rb_items b) < RING_TUNNEL_CAP - RING_TUNNEL_RESERVERD_CAP) /\
  (fst (ring_force_send p b) = Ok tt <-> len (rb_items b) < RING_TUNNEL_CAP).
Proof.
  intros Hc Hl. pose proof (rb_try_push_spec p b) as Hs. rewrite Hc in Hs. unfold ring_force_send, ring_try_send. rewrite Hc.
  unfold RING_TUNNEL_CAP, RING_TUNNEL_RESERVERD_CAP in *. change (as_usize (128 - 4)) with 124. change (128 - 4) with 124.
  destruct (rb_try_push p b) as [r b']. destruct Hs as [_ Hs].
  destruct (Z.ltb_spec (len (rb_items b)) 128); destruct Hs as [-> _]; destruct (Z.leb_spec 124 (len (rb_items b))); cbn [fst];
    split; split; intros; try done; lia.
Qed.
