(* ===== verification/CidrSet.v ===== *)
(** * Proxied networks

    The networks a node gives access to: their configuration
    ([common/config.rs], [add_proxy_cidr] and its neighbours) and the set the
    proxies consult ([CidrSet] of [gateway/mod.rs]).  A network can be announced
    under another address range of the same size, which the set translates back.

    [Ipv4CidrLib] is the cidr crate. *)

From stdpp Require Import base numbers list gmap strings.
From Stdlib Require Import Lia.
From S2P Require Import Prelude.
Open Scope Z_scope.

(** An address with its network's first address ([Ipv4Inet]). *)
Record Ipv4Inet := { inet_address : Z; inet_first : Z }.

(** What the proxies read of the global context. *)
Record GlobalCtx := { enable_exit_node : bool; no_tun : bool; ctx_ipv4 : option Ipv4Inet }.

Class Ipv4CidrLib := {
  Ipv4Cidr : Type;
  #[global] ipv4_cidr_eq_dec :: EqDecision Ipv4Cidr;
  #[global] ipv4_cidr_countable :: Countable Ipv4Cidr;
  network_length : Ipv4Cidr -> Z;
  first_address : Ipv4Cidr -> Z;
  mask : Ipv4Cidr -> Z;
  contains : Ipv4Cidr -> Z -> bool
}.

(** Host bits of a network are zero; addresses belong to it by their other bits. *)
Definition host_bits `{Ipv4CidrLib} (c : Ipv4Cidr) : Z := 32 - network_length c.

Class Ipv4CidrLaws `{Ipv4CidrLib} := {
  network_length_range c : 0 <= network_length c <= 32;
  first_address_range c : in_width 32 (first_address c);
  first_address_host c : first_address c mod 2 ^ host_bits c = 0;
  mask_bits c : mask c = 2 ^ 32 - 2 ^ host_bits c;
  contains_spec c ip : contains c ip = (ip / 2 ^ host_bits c =? first_address c / 2 ^ host_bits c)
}.

Section proxied.
Context `{Ipv4CidrLib}.

(** ** The configuration *)

Record ProxyNetworkConfig := { pn_cidr : Ipv4Cidr; pn_mapped_cidr : option Ipv4Cidr; pn_allow : option (list string) }.
#[global] Instance proxy_network_eq_dec : EqDecision ProxyNetworkConfig.
Proof. solve_decision. Defined.

(** The field [proxy_network] of the configuration. *)
Definition proxy_network : Type := option (list ProxyNetworkConfig).

Definition get_proxy_cidrs (c : proxy_network) : list ProxyNetworkConfig := default [] c.

Definition add_proxy_cidr (cidr : Ipv4Cidr) (mapped_cidr : option Ipv4Cidr) (c : proxy_network)
    : result string () * proxy_network :=
  let networks := get_proxy_cidrs c in
  if match mapped_cidr with Some m => negb (network_length cidr =? network_length m) | None => false end
  then (Err "Mapped CIDR must have the same network length as the original CIDR"%string, Some networks)
  else if existsb (fun x => bool_decide (pn_cidr x = cidr /\ pn_mapped_cidr x = mapped_cidr)) networks
  then (Ok tt, Some networks)
  else (Ok tt, Some (networks ++ [{| pn_cidr := cidr; pn_mapped_cidr := mapped_cidr; pn_allow := None |}])).

Definition remove_proxy_cidr (cidr : Ipv4Cidr) (c : proxy_network) : proxy_network :=
  List.filter (fun x => negb (bool_decide (pn_cidr x = cidr))) <$> c.

Definition clear_proxy_cidrs (_ : proxy_network) : proxy_network := None.

(** ** The set *)

Record CidrSet := { cidr_set : list Ipv4Cidr; mapped_to_real : gmap Ipv4Cidr Ipv4Cidr; last_cidrs : list ProxyNetworkConfig }.

Definition cidr_set_new : CidrSet := {| cidr_set := []; mapped_to_real := ∅; last_cidrs := [] |}.

Definition mapped_of (x : ProxyNetworkConfig) : Ipv4Cidr := default (pn_cidr x) (pn_mapped_cidr x).

(** One round of the updater's loop. *)
Definition update_cidrs (cidrs : list ProxyNetworkConfig) (s : CidrSet) : CidrSet :=
  if bool_decide (cidrs = last_cidrs s) then s
  else
    let '(set, m) :=
      foldl (fun '(set, m) x =>
        (set ++ [mapped_of x],
         if bool_decide (mapped_of x = pn_cidr x) then m else <[mapped_of x := pn_cidr x]> m))
        ([], ∅) cidrs in
    {| cidr_set := set; mapped_to_real := m; last_cidrs := cidrs |}.

(** Whether the address belongs to a proxied network, and its real address. *)
Fixpoint contains_in (set : list Ipv4Cidr) (m : gmap Ipv4Cidr Ipv4Cidr) (ip : Z) : option Z :=
  match set with
  | [] => None
  | cidr :: set =>
      if contains cidr ip then
        match m !! cidr with
        | Some real => Some (Z.lor (Z.land ip (Z.ldiff (2 ^ 32 - 1) (mask cidr))) (first_address real))
        | None => Some ip
        end
      else contains_in set m ip
  end.

Definition contains_v4 (s : CidrSet) (ip : Z) : option Z := contains_in (cidr_set s) (mapped_to_real s) ip.

Definition is_empty (s : CidrSet) : bool := match cidr_set s with [] => true | _ => false end.
End proxied.

(** ** Address arithmetic *)

Lemma host_mask k : 0 <= k <= 32 -> Z.ldiff (2 ^ 32 - 1) (2 ^ 32 - 2 ^ k) = Z.ones k.
Proof.
  intros Hk. assert (forallb (fun k => Z.ldiff (2 ^ 32 - 1) (2 ^ 32 - 2 ^ k) =? Z.ones k) (seqZ 0 33) = true) as Hall by (vm_compute; done).
  rewrite forallb_forall in Hall. apply Z.eqb_eq, Hall. apply list_elem_of_In. apply elem_of_seqZ. lia.
Qed.

Lemma lor_disjoint a q k : 0 <= k -> Z.lor (a mod 2 ^ k) (q * 2 ^ k) = a mod 2 ^ k + q * 2 ^ k.
Proof.
  intros Hk. symmetry.
  assert (Z.land (a mod 2 ^ k) (q * 2 ^ k) = 0) as Hland.
  { apply Z.bits_inj'. intros n Hn. rewrite Z.land_spec, Z.bits_0. destruct (Z.lt_ge_cases n k).
    - rewrite Z.mul_pow2_bits_low by done. by rewrite andb_false_r.
    - by rewrite Z.mod_pow2_bits_high by done. }
  rewrite Z.add_nocarry_lxor by done. by rewrite Z.lxor_lor.
Qed.

Section set.
Context `{Ipv4CidrLaws}.

Definition translate (ip : Z) (mapped real : Ipv4Cidr) : Z :=
  first_address real + ip mod 2 ^ host_bits mapped.

(** The bit operations move the address into the real network. *)
Lemma converted_ip ip cidr real : network_length cidr = network_length real ->
  Z.lor (Z.land ip (Z.ldiff (2 ^ 32 - 1) (mask cidr))) (first_address real) = translate ip cidr real.
Proof.
  intros Hlen. unfold translate. pose proof (network_length_range cidr). rewrite mask_bits.
  assert (host_bits cidr = host_bits real) as Hh by (unfold host_bits; lia).
  rewrite host_mask by (unfold host_bits; lia). rewrite Z.land_ones by (unfold host_bits; lia).
  pose proof (first_address_host real) as Hf. rewrite <- Hh in Hf.
  apply Z.mod_divide in Hf as [q Hq]; [|apply Z.pow_nonzero; unfold host_bits; lia].
  rewrite Hq, lor_disjoint by (unfold host_bits; lia). lia.
Qed.

Lemma translate_contained ip cidr real : network_length cidr = network_length real ->
  contains real (translate ip cidr real) = true /\ in_width 32 (translate ip cidr real) /\
  translate ip cidr real mod 2 ^ host_bits real = ip mod 2 ^ host_bits cidr.
Proof.
  intros Hlen. unfold translate. assert (host_bits cidr = host_bits real) as Hh by (unfold host_bits; lia). rewrite Hh.
  pose proof (network_length_range real). set (k := host_bits real) in *.
  assert (0 <= k <= 32) as Hk by (unfold k, host_bits; lia). assert (0 < 2 ^ k) as Hp by (apply Z.pow_pos_nonneg; lia).
  pose proof (Z.mod_pos_bound ip (2 ^ k) Hp) as Hm. pose proof (first_address_host real) as Hf. fold k in Hf.
  apply Z.mod_divide in Hf as [q Hq]; [|lia]. pose proof (first_address_range real) as [Hf1 Hf2]. rewrite Hq in *.
  split_and!.
  - rewrite contains_spec. fold k. rewrite Hq. apply Z.eqb_eq.
    rewrite Z.div_add_l, Z.div_mul by lia. rewrite (Z.div_small (ip mod 2 ^ k)) by done. lia.
  - assert (2 ^ 32 = 2 ^ (32 - k) * 2 ^ k) as E by (rewrite <- Z.pow_add_r by lia; f_equal; lia).
    assert (q < 2 ^ (32 - k)) by (apply (Z.mul_lt_mono_pos_r (2 ^ k)); lia). unfold in_width. nia.
  - rewrite Z.add_comm, Z.mod_add by lia. by apply Z.mod_small.
Qed.

(** ** The set follows the configuration *)

Definition well_mapped (x : ProxyNetworkConfig) : Prop := network_length (mapped_of x) = network_length (pn_cidr x).

(** Configurations made with the operations. *)
Inductive configured : proxy_network -> Prop :=
| configured_none : configured None
| configured_add cidr mapped c : configured c -> configured (add_proxy_cidr cidr mapped c).2
| configured_remove cidr c : configured c -> configured (remove_proxy_cidr cidr c)
| configured_clear c : configured c -> configured (clear_proxy_cidrs c).

Lemma configured_mapped c : configured c -> Forall well_mapped (get_proxy_cidrs c).
Proof.
  induction 1 as [|cidr mapped c _ IH|cidr c _ IH|]; [constructor | | | constructor].
  - unfold add_proxy_cidr. destruct (match mapped with Some _ => _ | None => _ end) eqn:El; [done|].
    destruct (existsb _ _); [done|]. apply Forall_app. split; [done|]. constructor; [|constructor].
    unfold well_mapped, mapped_of. cbn. destruct mapped as [m|]; [|done]. cbn. apply negb_false_iff, Z.eqb_eq in El. done.
  - destruct c as [l|]; [|constructor]. cbn in *. apply Forall_forall. intros x Hx%list_elem_of_In%filter_In.
    rewrite Forall_forall in IH. apply IH, list_elem_of_In. tauto.
Qed.

Definition add_network (sm : list Ipv4Cidr * gmap Ipv4Cidr Ipv4Cidr) (x : ProxyNetworkConfig) : list Ipv4Cidr * gmap Ipv4Cidr Ipv4Cidr :=
  (sm.1 ++ [mapped_of x], if bool_decide (mapped_of x = pn_cidr x) then sm.2 else <[mapped_of x := pn_cidr x]> sm.2).

(** What the set holds for a list of networks. *)
Definition holds_for (l : list ProxyNetworkConfig) (sm : list Ipv4Cidr * gmap Ipv4Cidr Ipv4Cidr) : Prop :=
  sm.1 = mapped_of <$> l /\
  (forall c r, sm.2 !! c = Some r -> exists x, x ∈ l /\ mapped_of x = c /\ pn_cidr x = r) /\
  (forall c, sm.2 !! c = None -> forall x, x ∈ l -> mapped_of x = c -> pn_cidr x = c).

Lemma add_networks_hold l : holds_for l (foldl add_network ([], ∅) l).
Proof.
  induction l as [|x l (H1 & H2 & H3)] using rev_ind.
  { split_and!; [done | done|]. by intros c _ x Hx%elem_of_nil. }
  rewrite foldl_app. cbn [foldl]. unfold add_network at 1. cbn. unfold holds_for. cbn. split_and!.
  - by rewrite H1, fmap_app.
  - intros c r. case_bool_decide as E.
    + intros Hr. destruct (H2 c r Hr) as (y & Hy & ?). exists y. split; [set_solver | done].
    + intros [[<- <-]|[_ Hr]]%lookup_insert_Some; [exists x; split; [set_solver | done]|].
      destruct (H2 c r Hr) as (y & Hy & ?). exists y. split; [set_solver | done].
  - intros c Hc y Hy Em. case_bool_decide as E.
    + apply elem_of_app in Hy as [Hy|Hy%list_elem_of_singleton]; [by apply (H3 c)|]. subst y. congruence.
    + apply lookup_insert_None in Hc as [Hc Hne].
      apply elem_of_app in Hy as [Hy|Hy%list_elem_of_singleton]; [by apply (H3 c)|]. subst y. done.
Qed.

Lemma foldl_networks l : foldl (fun '(set, m) x =>
    (set ++ [mapped_of x], if bool_decide (mapped_of x = pn_cidr x) then m else <[mapped_of x := pn_cidr x]> m)) ([], ∅) l =
  foldl add_network ([], ∅) l.
Proof. apply foldl_ext || (generalize (([], ∅) : list Ipv4Cidr * gmap Ipv4Cidr Ipv4Cidr); induction l as [|x l IH]; intros [a b]; [done | apply IH]). Qed.

(** The set after the updater's rounds, the last of them with [l]. *)
Inductive follows : list ProxyNetworkConfig -> CidrSet -> Prop :=
| follows_new : follows [] cidr_set_new
| follows_round l l' s : follows l s -> follows l' (update_cidrs l' s).

Lemma follows_holds l s : follows l s -> last_cidrs s = l /\ holds_for l (cidr_set s, mapped_to_real s).
Proof.
  induction 1 as [|l l' s _ [Hl Hh]].
  { split; [done|]. split_and!; [done | done|]. by intros c _ x Hx%elem_of_nil. }
  unfold update_cidrs. case_bool_decide as E; [by subst|]. rewrite foldl_networks.
  pose proof (add_networks_hold l') as Hn. by destruct (foldl add_network ([], ∅) l') as [set m].
Qed.

Lemma contains_in_part l k m ip : holds_for l (mapped_of <$> l, m) -> (forall x, x ∈ k -> x ∈ l) ->
  match contains_in (mapped_of <$> k) m ip with
  | None => forall x, x ∈ k -> contains (mapped_of x) ip = false
  | Some r => exists x, x ∈ l /\ contains (mapped_of x) ip = true /\
      (mapped_of x = pn_cidr x /\ r = ip \/
       r = Z.lor (Z.land ip (Z.ldiff (2 ^ 32 - 1) (mask (mapped_of x)))) (first_address (pn_cidr x)))
  end.
Proof.
  intros (_ & H2 & H3) Hsub. cbn in H2, H3. induction k as [|x k IH]; cbn [fmap list_fmap contains_in].
  { by intros x Hx%elem_of_nil. }
  destruct (contains (mapped_of x) ip) eqn:Ec.
  - destruct (m !! mapped_of x) as [r|] eqn:Er.
    + destruct (H2 _ _ Er) as (y & Hy & Em & <-). exists y. rewrite Em. auto.
    + exists x. split; [apply Hsub; by left|]. split; [done|]. left. split; [|done].
      symmetry. apply (H3 _ Er); [apply Hsub; by left | done].
  - specialize (IH ltac:(intros; apply Hsub; by right)). unfold fmap in IH.
    destruct (contains_in _ _ ip) as [r|]; [done|]. intros y [->|Hy]%elem_of_cons; [done | by apply IH].
Qed.

Lemma contains_v4_spec l s ip : follows l s ->
  match contains_v4 s ip with
  | None => forall x, x ∈ l -> contains (mapped_of x) ip = false
  | Some r => exists x, x ∈ l /\ contains (mapped_of x) ip = true /\
      (mapped_of x = pn_cidr x /\ r = ip \/
       r = Z.lor (Z.land ip (Z.ldiff (2 ^ 32 - 1) (mask (mapped_of x)))) (first_address (pn_cidr x)))
  end.
Proof.
  intros [_ Hh]%follows_holds. unfold contains_v4. destruct (Hh) as (E & _). cbn in E. rewrite E in *. by apply contains_in_part.
Qed.

(** Once the updater has seen a configuration, an address is proxied
    exactly when it lies in one of the announced ranges, and the address it is
    translated to lies in the network behind that range, at the same place: all
    host bits are kept, and nothing changes for a network announced under its
    own addresses. *)
Theorem proxied_address_translation (c : proxy_network) (s : CidrSet) (ip : Z)
    (Hc : configured c) (Hs : follows (get_proxy_cidrs c) s) :
  match contains_v4 s ip with
  | None => forall x, x ∈ get_proxy_cidrs c -> contains (mapped_of x) ip = false
  | Some real => exists x, x ∈ get_proxy_cidrs c /\ contains (mapped_of x) ip = true /\ contains (pn_cidr x) real = true /\
      (real = ip \/ in_width 32 real) /\ real mod 2 ^ host_bits (pn_cidr x) = ip mod 2 ^ host_bits (mapped_of x)
  end.
Proof.
  pose proof (contains_v4_spec _ _ ip Hs) as Hi. pose proof (configured_mapped _ Hc) as Hm. rewrite Forall_forall in Hm.
  destruct (contains_v4 s ip) as [r|]; [|done]. destruct Hi as (x & Hx & Hin & [[E ->]| ->]).
  - exists x. rewrite <- E. auto 10.
  - assert (network_length (mapped_of x) = network_length (pn_cidr x)) as Hl by (by apply Hm).
    rewrite converted_ip by done. destruct (translate_contained ip _ _ Hl) as (? & ? & ?). exists x. auto 10.
Qed.
End set.

(** ** Example *)

(** Networks as address and prefix length. *)
Record net := mkNet { net_bits : nat; net_prefix : Z }.
#[global] Instance net_eq_dec : EqDecision net.
Proof. solve_decision. Defined.
#[global] Instance net_countable : Countable net.
Proof. apply (inj_countable' (fun n => (net_bits n, net_prefix n)) (fun p => mkNet p.1 p.2)). by intros []. Defined.

(** At most 32 host bits, and a prefix of the rest. *)
Definition net_host (n : net) : Z := Z.of_nat (Nat.min (net_bits n) 32).
#[global] Instance net_lib : Ipv4CidrLib := {|
  Ipv4Cidr := net;
  network_length n := 32 - net_host n;
  first_address n := (net_prefix n mod 2 ^ (32 - net_host n)) * 2 ^ net_host n;
  mask n := 2 ^ 32 - 2 ^ net_host n;
  contains n ip := ip / 2 ^ net_host n =? net_prefix n mod 2 ^ (32 - net_host n)
|}.

#[global] Instance net_laws : Ipv4CidrLaws.
Proof.
  assert (forall n, 0 <= net_host n <= 32) as Hh by (intros n; unfold net_host; lia).
  assert (forall n, 32 - (32 - net_host n) = net_host n) as Hs by (intros; lia).
  split; unfold host_bits; cbn; intros c; pose proof (Hh c); rewrite ?Hs.
  - lia.
  - pose proof (Z.mod_pos_bound (net_prefix c) (2 ^ (32 - net_host c)) ltac:(apply Z.pow_pos_nonneg; lia)).
    assert (2 ^ 32 = 2 ^ (32 - net_host c) * 2 ^ net_host c) as E by (rewrite <- Z.pow_add_r by lia; f_equal; lia).
    assert (0 < 2 ^ net_host c) by (apply Z.pow_pos_nonneg; lia). unfold in_width. nia.
  - apply Z.mod_mul. apply Z.pow_nonzero; lia.
  - done.
  - intros ip. rewrite Z.div_mul; [done | apply Z.pow_nonzero; lia].
Qed.

(** 10.1.2.0/24 announced as 10.9.9.0/24, and 192.168.0.0/16 as it is. *)
Definition example_config : proxy_network :=
  (add_proxy_cidr (mkNet 16 49320) None (add_proxy_cidr (mkNet 8 655618) (Some (mkNet 8 657673)) None).2).2.
Definition example_set : CidrSet := update_cidrs (get_proxy_cidrs example_config) cidr_set_new.

Lemma proxied_address_translation_witness :
  contains_v4 example_set 168364293 = Some 167838213 /\
  exists x, x ∈ get_proxy_cidrs example_config /\ contains (pn_cidr x) 167838213 = true.
Proof.
  split; [vm_compute; reflexivity|].
  pose proof (proxied_address_translation example_config example_set 168364293) as Ht.
  replace (contains_v4 example_set 168364293) with (Some 167838213) in Ht by (vm_compute; reflexivity).
  destruct Ht as (x & Hx & _ & Hr & _).
  - repeat constructor.
  - apply (follows_round []). constructor.
  - exists x. split; [exact Hx | exact Hr].
Defined.
