(* ===== verification/TcpProxy.v ===== *)
(** * The TCP proxy

    [gateway/tcp_proxy.rs]: a node that gives access to a network terminates
    the TCP connections into it.  A packet of a peer is rewritten so that the
    node's own TCP stack accepts the connection, an entry remembers where it was
    meant to go, and what the stack answers is rewritten so that it comes from
    the address the peer connected to.  Which packets are taken is decided by a
    connector; the connectors of [gateway/kcp_proxy.rs] and
    [gateway/quic_proxy.rs] and their filter for packets of the interface are
    here too.

    Entries are shared between the maps, so they live in a store under their
    identifiers.  [TcpIpLib] is what pnet does with packets; sockets and the
    copying of data are outside. *)

From stdpp Require Import base numbers list gmap.
From Stdlib Require Import ZifyBool.
From S2P Require Import Prelude PacketDef CidrSet.
Open Scope Z_scope.

(** ** TCP packets *)

Record IpView := { iv_version : Z; iv_source : Z; iv_destination : Z; iv_protocol : Z }.
Record TcpView := { tv_source : Z; tv_destination : Z; tv_flags : Z; tv_content : bytes }.

(** Accessors and setters, on the bytes of the IP packet.  [tcp_view] is
    [TcpPacket::new] of its payload; [tv_content] is all but ports, flags and
    checksum. *)
Class TcpIpLib := {
  ip_view : bytes -> option IpView;
  tcp_view : bytes -> option TcpView;
  set_source : Z -> bytes -> bytes;
  set_destination : Z -> bytes -> bytes;
  set_tcp_source : Z -> bytes -> bytes;
  set_tcp_destination : Z -> bytes -> bytes;
  set_tcp_checksum : Z -> Z -> bytes -> bytes;   (** with the addresses of the pseudo header *)
  set_ip_checksum : bytes -> bytes;
  tcp_sum_ok : bytes -> bool;
  ip_sum_ok : bytes -> bool
}.

Definition with_source (a : Z) (v : IpView) : IpView :=
  {| iv_version := iv_version v; iv_source := a; iv_destination := iv_destination v; iv_protocol := iv_protocol v |}.
Definition with_destination (a : Z) (v : IpView) : IpView :=
  {| iv_version := iv_version v; iv_source := iv_source v; iv_destination := a; iv_protocol := iv_protocol v |}.
Definition with_tcp_source (p : Z) (t : TcpView) : TcpView :=
  {| tv_source := p; tv_destination := tv_destination t; tv_flags := tv_flags t; tv_content := tv_content t |}.
Definition with_tcp_destination (p : Z) (t : TcpView) : TcpView :=
  {| tv_source := tv_source t; tv_destination := p; tv_flags := tv_flags t; tv_content := tv_content t |}.

Class TcpIpLaws `{TcpIpLib} := {
  set_source_view a b v : ip_view b = Some v -> in_width 32 a ->
    ip_view (set_source a b) = Some (with_source a v) /\ tcp_view (set_source a b) = tcp_view b;
  set_destination_view a b v : ip_view b = Some v -> in_width 32 a ->
    ip_view (set_destination a b) = Some (with_destination a v) /\ tcp_view (set_destination a b) = tcp_view b;
  set_tcp_source_view p b t : tcp_view b = Some t -> in_width 16 p ->
    tcp_view (set_tcp_source p b) = Some (with_tcp_source p t) /\ ip_view (set_tcp_source p b) = ip_view b;
  set_tcp_destination_view p b t : tcp_view b = Some t -> in_width 16 p ->
    tcp_view (set_tcp_destination p b) = Some (with_tcp_destination p t) /\ ip_view (set_tcp_destination p b) = ip_view b;
  set_tcp_checksum_view src dst b v t : ip_view b = Some v -> tcp_view b = Some t ->
    ip_view (set_tcp_checksum src dst b) = Some v /\ tcp_view (set_tcp_checksum src dst b) = Some t /\
    (src = iv_source v -> dst = iv_destination v -> tcp_sum_ok (set_tcp_checksum src dst b) = true);
  set_ip_checksum_view b v t : ip_view b = Some v -> tcp_view b = Some t ->
    ip_view (set_ip_checksum b) = Some v /\ tcp_view (set_ip_checksum b) = Some t /\
    tcp_sum_ok (set_ip_checksum b) = tcp_sum_ok b /\ ip_sum_ok (set_ip_checksum b) = true;
  view_range b v t : ip_view b = Some v -> tcp_view b = Some t ->
    in_width 32 (iv_source v) /\ in_width 32 (iv_destination v) /\ in_width 16 (tv_source t) /\ in_width 16 (tv_destination t)
}.

Definition IP_TCP : Z := 6.
Definition TCP_SYN : Z := 2.
Definition TCP_ACK : Z := 16.

(** ** Entries *)

Inductive NatDstEntryState := SynReceived | ConnectingDst | Connected | ClosingSrc | ClosingDst | Closed.
#[global] Instance nat_state_eq_dec : EqDecision NatDstEntryState.
Proof. solve_decision. Defined.

Record NatDstEntry := {
  nat_src : SocketAddr; nat_real_dst : SocketAddr; nat_mapped_dst : SocketAddr;
  nat_start_time : Z; nat_state : NatDstEntryState
}.

Definition nat_entry_new (now : Z) (src real_dst mapped_dst : SocketAddr) : NatDstEntry :=
  {| nat_src := src; nat_real_dst := real_dst; nat_mapped_dst := mapped_dst; nat_start_time := now; nat_state := SynReceived |}.

Definition with_state (st : NatDstEntryState) (e : NatDstEntry) : NatDstEntry :=
  {| nat_src := nat_src e; nat_real_dst := nat_real_dst e; nat_mapped_dst := nat_mapped_dst e;
     nat_start_time := nat_start_time e; nat_state := st |}.

(** Where the task of a connection is: it waits for the connection to the
    destination, copies, shuts one side down and then the other, and sleeps
    before it removes its entry. *)
Inductive ConnTask := Connecting | Copying | ShutSrc | ShutDst | Lingering.
#[global] Instance conn_task_eq_dec : EqDecision ConnTask.
Proof. solve_decision. Defined.

Section proxy.
Context `{Ipv4CidrLib} `{TcpIpLib}.

(** The maps hold identifiers of entries; [conn_tasks] are the spawned tasks of
    [connect_to_nat_dst] and [handle_nat_connection], by their entry. *)
Record TcpProxy := mkProxy {
  tp_ctx : GlobalCtx; tp_peer_id : Z; tp_local_port : Z; tp_smoltcp : bool; tp_cidr_set : CidrSet;
  nat_entries : gmap Z NatDstEntry;
  syn_map : gmap SocketAddr Z; conn_map : gset Z; addr_conn_map : gmap SocketAddr Z;
  conn_tasks : gmap Z ConnTask
}.
Implicit Types s : TcpProxy.

Definition with_maps entries syn conn addr s : TcpProxy :=
  mkProxy (tp_ctx s) (tp_peer_id s) (tp_local_port s) (tp_smoltcp s) (tp_cidr_set s) entries syn conn addr (conn_tasks s).

Definition with_tasks tasks s : TcpProxy :=
  mkProxy (tp_ctx s) (tp_peer_id s) (tp_local_port s) (tp_smoltcp s) (tp_cidr_set s) (nat_entries s) (syn_map s) (conn_map s)
    (addr_conn_map s) tasks.

(** ** Connectors *)

(** [check_packet_from_peer] gives the real destination. *)
Class NatDstConnector := {
  check_packet_from_peer_fast : CidrSet -> GlobalCtx -> bool;
  check_packet_from_peer : CidrSet -> GlobalCtx -> PeerManagerHeader -> IpView -> outcome (option Z);
  is_kcp : bool
}.

Definition tcp_connector : NatDstConnector := {|
  check_packet_from_peer_fast cidrs ctx := negb (is_empty cidrs) || enable_exit_node ctx || no_tun ctx;
  check_packet_from_peer cidrs ctx hdr ip :=
    exit_node ← is_exit_node hdr;
    match contains_v4 cidrs (iv_destination ip) with
    | Some real => Done (Some real)
    | None =>
        if exit_node || (no_tun ctx && bool_decide (Some (iv_destination ip) = inet_address <$> ctx_ipv4 ctx))
        then Done (Some (iv_destination ip)) else Done None
    end;
  is_kcp := false
|}.

Definition kcp_connector : NatDstConnector := {|
  check_packet_from_peer_fast _ _ := true;
  check_packet_from_peer _ _ hdr ip :=
    if from_peer_id hdr =? to_peer_id hdr then
      m ← is_kcp_src_modified hdr; Done (if m : bool then Some (iv_destination ip) else None)
    else Done None;
  is_kcp := true
|}.

Definition quic_connector : NatDstConnector := {|
  check_packet_from_peer_fast _ _ := true;
  check_packet_from_peer _ _ hdr ip :=
    if from_peer_id hdr =? to_peer_id hdr then
      m ← is_kcp_src_modified hdr; Done (if m : bool then None else Some (iv_destination ip))
    else Done None;
  is_kcp := false
|}.

Context `{NatDstConnector}.

(** ** Packets *)

Definition SMOLTCP_INET : Ipv4Inet := {| inet_address := 3227018238; inet_first := 3227017984 |}.

Definition get_local_inet s : option Ipv4Inet := if tp_smoltcp s then Some SMOLTCP_INET else ctx_ipv4 (tp_ctx s).

Definition get_fake_local_ipv4 (inet : Ipv4Inet) : Z := inet_first inet.

Definition has_key {V} (m : gmap SocketAddr V) (a : SocketAddr) : bool := bool_decide (is_Some (m !! a)).

Definition is_tcp_proxy_connection (src : SocketAddr) s : bool := has_key (syn_map s) src || has_key (addr_conn_map s) src.

(** The rewritten packet, where the packet is one for the proxy. *)
Definition rewrite_to_local s (ipv4_inet : Ipv4Inet) (source_ip : Z) (b : bytes) : outcome bytes :=
  let ipv4_addr := inet_address ipv4_inet in
  let b := if negb (tp_smoltcp s) && (source_ip =? ipv4_addr) then set_source (get_fake_local_ipv4 ipv4_inet) b else b in
  let b := set_destination ipv4_addr b in
  v ← unwrap (ip_view b);
  _ ← unwrap (tcp_view b);
  let b := set_tcp_destination (tp_local_port s) b in
  let b := set_tcp_checksum (iv_source v) ipv4_addr b in
  Done (set_ip_checksum b).

(** [id] and [now] are for the entry that may be made. *)
Definition try_handle_peer_packet (id now : Z) (packet : ZCPacket) s : outcome (option ZCPacket * TcpProxy) :=
  if negb (check_packet_from_peer_fast (tp_cidr_set s) (tp_ctx s)) then Done (None, s)
  else
    match get_local_inet s with
    | None => Done (None, s)
    | Some ipv4_inet =>
        h ← peer_manager_header packet;
        hdr ← unwrap h;
        no_proxy ← (if pm_packet_type hdr =? packet_type_u8 PktData then is_no_proxy hdr else Done true);
        if no_proxy : bool then Done (None, s)
        else
          '(payload_bytes, put) ← mut_payload packet;
          match ip_view payload_bytes with
          | None => Done (None, s)
          | Some ipv4 =>
              if negb ((iv_version ipv4 =? 4) && (iv_protocol ipv4 =? IP_TCP)) then Done (None, s)
              else
                c ← check_packet_from_peer (tp_cidr_set s) (tp_ctx s) hdr ipv4;
                match c with
                | None => Done (None, s)
                | Some real_dst_ip =>
                    tcp ← unwrap (tcp_view payload_bytes);
                    let src := (V4 (iv_source ipv4), tv_source tcp) in
                    let is_tcp_syn := negb (Z.land (tv_flags tcp) TCP_SYN =? 0) in
                    let is_tcp_ack := negb (Z.land (tv_flags tcp) TCP_ACK =? 0) in
                    let mapped_dst := (V4 (iv_destination ipv4), tv_destination tcp) in
                    let real_dst := (V4 real_dst_ip, tv_destination tcp) in
                    if is_tcp_syn && negb is_tcp_ack then
                      let s' := with_maps (<[id := nat_entry_new now src real_dst mapped_dst]> (nat_entries s))
                                  (<[src := id]> (syn_map s)) (conn_map s) (addr_conn_map s) s in
                      b ← rewrite_to_local s ipv4_inet (iv_source ipv4) payload_bytes;
                      Done (Some (put b), s')
                    else if negb (has_key (addr_conn_map s) src) && negb (has_key (syn_map s) src) then Done (None, s)
                    else
                      b ← rewrite_to_local s ipv4_inet (iv_source ipv4) payload_bytes;
                      Done (Some (put b), s)
                end
          end
    end.

(** The entry for a packet of the local stack. *)
Definition find_entry (dst_addr : SocketAddr) s : option Z :=
  match addr_conn_map s !! dst_addr with Some id => Some id | None => syn_map s !! dst_addr end.

Definition set_to_peer (peer : Z) (h : PeerManagerHeader) : PeerManagerHeader :=
  {| from_peer_id := from_peer_id h; to_peer_id := peer; pm_packet_type := pm_packet_type h; pm_flags := pm_flags h;
     forward_counter := forward_counter h; reserved := reserved h; pm_len := pm_len h |}.

Definition try_process_packet_from_nic (zc_packet : ZCPacket) s : outcome (bool * ZCPacket) :=
  match get_local_inet s with
  | None => Done (false, zc_packet)
  | Some my_ipv4_inet =>
      let my_ipv4 := inet_address my_ipv4_inet in
      data ← payload zc_packet;
      ip_packet ← unwrap (ip_view data);
      if negb ((iv_version ip_packet =? 4) && (iv_source ip_packet =? my_ipv4) && (iv_protocol ip_packet =? IP_TCP))
      then Done (false, zc_packet)
      else
        tcp_packet ← unwrap (tcp_view data);
        if negb (tv_source tcp_packet =? tp_local_port s) then Done (false, zc_packet)
        else
          let need_transform_dst := negb (tp_smoltcp s) && (iv_destination ip_packet =? get_fake_local_ipv4 my_ipv4_inet) in
          let dst_addr := (V4 (if need_transform_dst then my_ipv4 else iv_destination ip_packet), tv_destination tcp_packet) in
          match find_entry dst_addr s with
          | None => Done (false, zc_packet)
          | Some id =>
              nat_entry ← unwrap (nat_entries s !! id);
              if negb (bool_decide (nat_src nat_entry = dst_addr)) then Panicked AssertionFailed
              else
                ip ← (match (nat_mapped_dst nat_entry).1 with V4 ip => Done ip | V6 _ => Panicked ExplicitPanic end);
                m ← mut_peer_manager_header zc_packet;
                '(hdr, put) ← unwrap m;
                hdr ← set_no_proxy true hdr;
                let hdr := if need_transform_dst then set_to_peer (tp_peer_id s) hdr else hdr in
                '(b, put) ← mut_payload (put hdr);
                let b := set_source ip b in
                let b := if need_transform_dst then set_destination my_ipv4 b else b in
                v ← unwrap (ip_view b);
                _ ← unwrap (tcp_view b);
                let b := set_tcp_source (nat_real_dst nat_entry).2 b in
                let b := set_tcp_checksum ip (iv_destination v) b in
                Done (true, put (set_ip_checksum b))
          end
  end.

(** The filter of the KCP and QUIC proxies for packets of the interface;
    [allow dst] is the answer of [check_dst_allow_kcp_input]. *)
Definition kcp_process_packet_from_nic (allow : Z -> bool) (zc_packet : ZCPacket) s : outcome (bool * ZCPacket) :=
  '(ret, zc_packet) ← try_process_packet_from_nic zc_packet s;
  if ret : bool then Done (true, zc_packet)
  else
    data ← payload zc_packet;
    ip_packet ← unwrap (ip_view data);
    if negb ((iv_version ip_packet =? 4) && (iv_protocol ip_packet =? IP_TCP)) then Done (false, zc_packet)
    else
      tcp_packet ← unwrap (tcp_view data);
      let is_syn := negb (Z.land (tv_flags tcp_packet) TCP_SYN =? 0) && (Z.land (tv_flags tcp_packet) TCP_ACK =? 0) in
      if (if is_syn then negb (allow (iv_destination ip_packet))
          else negb (is_tcp_proxy_connection (V4 (iv_source ip_packet), tv_source tcp_packet) s))
      then Done (false, zc_packet)
      else if match ctx_ipv4 (tp_ctx s) with
              | Some my_ipv4 => negb (iv_source ip_packet =? inet_address my_ipv4) && negb (tp_smoltcp s)
              | None => false
              end
      then Done (false, zc_packet)
      else
        m ← mut_peer_manager_header zc_packet;
        '(hdr, put) ← unwrap m;
        let hdr := set_to_peer (tp_peer_id s) hdr in
        hdr ← (if is_kcp then set_kcp_src_modified true hdr else Done hdr);
        Done (true, put hdr).

(** ** Connections *)

(** The accept task with a connection from [socket_addr]; the identifier is the
    entry that the spawned [connect_to_nat_dst] gets. *)
Definition accept_connection (socket_addr : SocketAddr) s : outcome (option Z * TcpProxy) :=
  let socket_addr :=
    match ctx_ipv4 (tp_ctx s) with
    | Some inet => if bool_decide (socket_addr.1 = V4 (get_fake_local_ipv4 inet)) then (V4 (inet_address inet), socket_addr.2) else socket_addr
    | None => socket_addr
    end in
  match syn_map s !! socket_addr with
  | None => Done (None, s)
  | Some id =>
      entry ← unwrap (nat_entries s !! id);
      if negb (bool_decide (nat_state entry = SynReceived)) then Panicked AssertionFailed
      else if bool_decide (id ∈ conn_map s) then Panicked AssertionFailed
      else
        let s := with_maps (<[id := with_state ConnectingDst entry]> (nat_entries s)) (delete socket_addr (syn_map s))
                   ({[id]} ∪ conn_map s) (<[nat_src entry := id]> (addr_conn_map s)) s in
        Done (Some id, with_tasks (<[id := Connecting]> (conn_tasks s)) s)
  end.

Definition remove_entry_from_all_conn_map (id : Z) (e : NatDstEntry) s : TcpProxy :=
  with_maps (nat_entries s) (syn_map s) (conn_map s ∖ {[id]})
    (if bool_decide (addr_conn_map s !! nat_src e = Some id) then delete (nat_src e) (addr_conn_map s) else addr_conn_map s) s.

Definition store_state (id : Z) (st : NatDstEntryState) s : TcpProxy :=
  with_maps (alter (with_state st) id (nat_entries s)) (syn_map s) (conn_map s) (addr_conn_map s) s.

(** Where the connection goes. *)
Definition nat_dst_of (e : NatDstEntry) s : SocketAddr :=
  if bool_decide (Some (nat_real_dst e).1 = (fun i => V4 (inet_address i)) <$> ctx_ipv4 (tp_ctx s))
  then (V4 2130706433, (nat_real_dst e).2) else nat_real_dst e.

(** [connect_to_nat_dst], with the connection made or not; also the address it
    connects to. *)
Definition connect_to_nat_dst (id : Z) (connected : bool) s : outcome (SocketAddr * TcpProxy) :=
  e ← unwrap (nat_entries s !! id);
  let nat_dst := nat_dst_of e s in
  if connected then
    if bool_decide (nat_state e = ConnectingDst)
    then Done (nat_dst, with_tasks (<[id := Copying]> (conn_tasks s)) (store_state id Connected s)) else Panicked AssertionFailed
  else
    let s := remove_entry_from_all_conn_map id e (store_state id Closed s) in
    Done (nat_dst, with_tasks (delete id (conn_tasks s)) s).

(** [handle_nat_connection] goes on from a stage to the next one, and ends by
    removing its entry. *)
Definition handle_nat_connection (id : Z) (at_ : ConnTask) s : outcome TcpProxy :=
  let go next st := Done (with_tasks (<[id := next]> (conn_tasks s)) (store_state id st s)) in
  match at_ with
  | Connecting => Done s
  | Copying => go ShutSrc ClosingSrc
  | ShutSrc => go ShutDst ClosingDst
  | ShutDst => go Lingering Closed
  | Lingering =>
      e ← unwrap (nat_entries s !! id);
      Done (with_tasks (delete id (conn_tasks s)) (remove_entry_from_all_conn_map id e s))
  end.

(** One round of the cleaner. *)
Definition expired (now : Z) (e : NatDstEntry) : bool := 30 * SEC <? duration_since now (nat_start_time e).

Definition syn_expired (now : Z) s (id : Z) : bool :=
  match nat_entries s !! id with Some e => expired now e | None => false end.

Definition clean_syn_map (now : Z) s : TcpProxy :=
  let gone := List.filter (syn_expired now s) (map_to_list (syn_map s)).*2 in
  with_maps (foldr (alter (with_state Closed)) (nat_entries s) gone)
    (retain (fun _ id => negb (syn_expired now s id)) (syn_map s)) (conn_map s) (addr_conn_map s) s.

(** ** Runs *)

(** The connector's, the stack's and the peers' moves. *)
Inductive proxy_label :=
| FromPeer (packet : ZCPacket) (id now : Z)
| FromNic (packet : ZCPacket)
| Accepted (socket_addr : SocketAddr)
| Connect (id : Z) (connected : bool)
| GoOn (id : Z) (at_ : ConnTask)
| CleanSyn (now : Z).

Definition proxy_step (l : proxy_label) s : outcome TcpProxy :=
  match l with
  | FromPeer p id now => '(_, s) ← try_handle_peer_packet id now p s; Done s
  | FromNic p => _ ← try_process_packet_from_nic p s; Done s
  | Accepted a => '(_, s) ← accept_connection a s; Done s
  | Connect id ok => '(_, s) ← connect_to_nat_dst id ok s; Done s
  | GoOn id at_ => handle_nat_connection id at_ s
  | CleanSyn now => Done (clean_syn_map now s)
  end.

(** A packet behind a peer manager header in which every header that the
    proxy looks at is whole: the IP header, for packets of the interface, and
    the TCP header, if it is a TCP packet. *)
Definition whole_packet (p : ZCPacket) : Prop :=
  exists pre h body, laid_out p pre h body /\
    forall v, ip_view body = Some v -> iv_version v = 4 -> iv_protocol v = IP_TCP -> is_Some (tcp_view body).

Definition whole (l : proxy_label) : Prop :=
  match l with
  | FromPeer p _ _ => whole_packet p
  | FromNic p => whole_packet p /\ exists pre h body, laid_out p pre h body /\ is_Some (ip_view body)
  | _ => True
  end.

(** When a move can be made: packets have a peer manager header, identifiers
    are new, and a connection's task moves on from where it is. *)
Definition enabled (l : proxy_label) s : Prop :=
  match l with
  | FromPeer p id now => (exists pre h body, laid_out p pre h body) /\ nat_entries s !! id = None
  | FromNic p => exists pre h body, laid_out p pre h body
  | Accepted _ | CleanSyn _ => True
  | Connect id ok => conn_tasks s !! id = Some Connecting
  | GoOn id at_ => conn_tasks s !! id = Some at_ /\ at_ <> Connecting
  end.

Definition proxy_new (ctx : GlobalCtx) (peer_id local_port : Z) (smoltcp : bool) (cidrs : CidrSet) : TcpProxy :=
  mkProxy ctx peer_id local_port smoltcp cidrs ∅ ∅ ∅ ∅ ∅.

Inductive proxy_reachable (s0 : TcpProxy) : TcpProxy -> Prop :=
| proxy_refl : proxy_reachable s0 s0
| proxy_next l s s' : proxy_reachable s0 s -> enabled l s -> proxy_step l s = Done s' -> proxy_reachable s0 s'.
End proxy.

(** Connectors look at valid headers without a panic. *)
Class ConnectorLaws {L : Ipv4CidrLib} {C : NatDstConnector} : Prop :=
  check_done cidrs ctx hdr v : in_range hdr -> exists c, check_packet_from_peer cidrs ctx hdr v = Done c.

#[global] Instance tcp_connector_laws `{Ipv4CidrLib} : @ConnectorLaws _ tcp_connector.
Proof.
  intros cidrs ctx hdr v Hr. cbn. destruct (get_flag_done FLAG_EXIT_NODE hdr Hr) as [x E]. unfold is_exit_node. rewrite E.
  cbn [mbind outcome_bind]. destruct (contains_v4 _ _); [by eexists|]. destruct (x || _); by eexists.
Qed.

#[global] Instance kcp_connector_laws `{Ipv4CidrLib} : @ConnectorLaws _ kcp_connector.
Proof.
  intros cidrs ctx hdr v Hr. cbn. destruct (_ =? _); [|by eexists].
  destruct (get_flag_done FLAG_KCP_SRC_MODIFIED hdr Hr) as [x E]. unfold is_kcp_src_modified. rewrite E. by eexists.
Qed.

#[global] Instance quic_connector_laws `{Ipv4CidrLib} : @ConnectorLaws _ quic_connector.
Proof.
  intros cidrs ctx hdr v Hr. cbn. destruct (_ =? _); [|by eexists].
  destruct (get_flag_done FLAG_KCP_SRC_MODIFIED hdr Hr) as [x E]. unfold is_kcp_src_modified. rewrite E. by eexists.
Qed.

Section nat.
Context `{Ipv4CidrLib} `{TcpIpLaws} `{!NatDstConnector} `{!ConnectorLaws}.
Implicit Types s : TcpProxy.

(** ** Rewriting *)

(** The node's addresses and port are what they are on the wire. *)
Definition proxy_wf s : Prop :=
  in_width 16 (tp_local_port s) /\ in_width 32 (tp_peer_id s) /\
  forall i, ctx_ipv4 (tp_ctx s) = Some i -> in_width 32 (inet_address i) /\ in_width 32 (inet_first i).

Lemma local_inet_wf s i : proxy_wf s -> get_local_inet s = Some i -> in_width 32 (inet_address i) /\ in_width 32 (inet_first i).
Proof. intros (_ & _ & Hw). unfold get_local_inet. destruct (tp_smoltcp s); [by intros [= <-] | apply Hw]. Qed.

(** The source as the local stack sees it. *)
Definition local_source s (i : Ipv4Inet) (ip : Z) : Z :=
  if negb (tp_smoltcp s) && (ip =? inet_address i) then get_fake_local_ipv4 i else ip.

(** A packet with these fields, and right checksums. *)
Definition looks (b : bytes) (src dst sport dport : Z) (t : TcpView) (proto version : Z) : Prop :=
  ip_view b = Some {| iv_version := version; iv_source := src; iv_destination := dst; iv_protocol := proto |} /\
  tcp_view b = Some {| tv_source := sport; tv_destination := dport; tv_flags := tv_flags t; tv_content := tv_content t |} /\
  tcp_sum_ok b = true /\ ip_sum_ok b = true.

Lemma checksums_look b v t ip dst : ip_view b = Some v -> tcp_view b = Some t -> ip = iv_source v -> dst = iv_destination v ->
  looks (set_ip_checksum (set_tcp_checksum ip dst b)) (iv_source v) (iv_destination v) (tv_source t) (tv_destination t) t
    (iv_protocol v) (iv_version v).
Proof.
  intros Hv Ht -> ->. destruct (set_tcp_checksum_view (iv_source v) (iv_destination v) b v t Hv Ht) as (Hv1 & Ht1 & Hok).
  destruct (set_ip_checksum_view _ _ _ Hv1 Ht1) as (Hv2 & Ht2 & Hs & Hi). unfold looks. rewrite Hv2, Ht2, Hs, Hi, Hok by done.
  by destruct v, t.
Qed.

Lemma rewrite_to_local_spec s i b v t : proxy_wf s -> get_local_inet s = Some i -> ip_view b = Some v -> tcp_view b = Some t ->
  exists b', rewrite_to_local s i (iv_source v) b = Done b' /\
    looks b' (local_source s i (iv_source v)) (inet_address i) (tv_source t) (tp_local_port s) t (iv_protocol v) (iv_version v).
Proof.
  intros Hwf Hi Hv Ht. destruct (local_inet_wf _ _ Hwf Hi) as [Ha Hf]. pose proof Hwf as (Hp & _).
  unfold rewrite_to_local. set (b1 := if _ && _ then _ else b).
  assert (ip_view b1 = Some (with_source (local_source s i (iv_source v)) v) /\ tcp_view b1 = Some t) as [Hv1 Ht1].
  { unfold b1, local_source. destruct (_ && _); [|by destruct v].
    destruct (set_source_view (get_fake_local_ipv4 i) b v Hv Hf) as [-> ->]. done. }
  destruct (set_destination_view _ b1 _ Hv1 Ha) as [Hv2 Ht2]. rewrite Ht1 in Ht2. rewrite Hv2, Ht2. cbn [unwrap mbind outcome_bind].
  destruct (set_tcp_destination_view (tp_local_port s) _ _ Ht2 Hp) as [Ht3 Hv3]. rewrite Hv2 in Hv3.
  eexists; split; [done|]. cbn. pose proof (checksums_look _ _ _ _ _ Hv3 Ht3 eq_refl eq_refl) as Hl. by destruct v, t.
Qed.

(** ** Packets of peers *)

Definition syn_entry s (id now : Z) (src real_dst mapped_dst : SocketAddr) : TcpProxy :=
  with_maps (<[id := nat_entry_new now src real_dst mapped_dst]> (nat_entries s)) (<[src := id]> (syn_map s)) (conn_map s) (addr_conn_map s) s.

Definition is_syn (t : TcpView) : bool := negb (Z.land (tv_flags t) TCP_SYN =? 0) && negb (negb (Z.land (tv_flags t) TCP_ACK =? 0)).

(** Packets are left alone, or taken: then they go to the local stack, and a
    new connection gets an entry. *)
Lemma peer_packet_cases id now p s : proxy_wf s -> whole_packet p ->
  exists r s', try_handle_peer_packet id now p s = Done (r, s') /\
    (r = None /\ s' = s \/
     exists pre h body q b i v t real, laid_out p pre h body /\ r = Some q /\ laid_out q pre h b /\ get_local_inet s = Some i /\
       ip_view body = Some v /\ tcp_view body = Some t /\
       looks b (local_source s i (iv_source v)) (inet_address i) (tv_source t) (tp_local_port s) t (iv_protocol v) (iv_version v) /\
       check_packet_from_peer (tp_cidr_set s) (tp_ctx s) h v = Done (Some real) /\
       if is_syn t
       then s' = syn_entry s id now (V4 (iv_source v), tv_source t) (V4 real, tv_destination t) (V4 (iv_destination v), tv_destination t)
       else s' = s /\ is_tcp_proxy_connection (V4 (iv_source v), tv_source t) s = true).
Proof.
  intros Hwf (pre & h & body & Hl & Htcp). unfold try_handle_peer_packet.
  destruct (negb _); [by eexists _, _; split; [|left]|]. destruct (get_local_inet s) as [i|] eqn:Ei; [|by eexists _, _; split; [|left]].
  rewrite (layout_header _ _ _ _ Hl). cbn [mbind outcome_bind unwrap]. pose proof Hl as (_ & _ & Hr).
  assert (exists np, (if pm_packet_type h =? packet_type_u8 PktData then is_no_proxy h else Done true) = Done np) as [np ->].
  { destruct (_ =? _); [|by eexists]. apply (get_flag_done FLAG_NO_PROXY h Hr). }
  cbn [mbind outcome_bind]. destruct np; [by eexists _, _; split; [|left]|].
  destruct (layout_mut_payload _ _ _ _ Hl) as (put & -> & Hput). cbn [mbind outcome_bind].
  destruct (ip_view body) as [v|] eqn:Ev; [|by eexists _, _; split; [|left]].
  destruct (Z.eqb_spec (iv_version v) 4) as [E4|]; cbn [andb negb]; [|by eexists _, _; split; [|left]].
  destruct (Z.eqb_spec (iv_protocol v) IP_TCP) as [E6|]; cbn [negb]; [|by eexists _, _; split; [|left]].
  destruct (check_done (tp_cidr_set s) (tp_ctx s) h v Hr) as [[real|] Ec]; rewrite Ec; cbn [mbind outcome_bind]; [|by eexists _, _; split; [|left]].
  destruct (Htcp v eq_refl E4 E6) as [t Et]. rewrite Et. cbn [unwrap mbind outcome_bind].
  destruct (rewrite_to_local_spec s i body v t Hwf Ei Ev Et) as (b & Eb & Hb). fold (is_syn t).
  destruct (Hput b) as [Hlq _]. destruct (is_syn t) eqn:Es.
  - rewrite Eb. cbn [mbind outcome_bind]. eexists _, _; split; [done|]. right. exists pre, h, body, (put b), b, i, v, t, real.
    rewrite Es. done.
  - destruct (negb (has_key (addr_conn_map s) _) && negb (has_key (syn_map s) _)) eqn:Ek; [by eexists _, _; split; [|left]|].
    rewrite Eb. cbn [mbind outcome_bind]. eexists _, _; split; [done|]. right. exists pre, h, body, (put b), b, i, v, t, real.
    rewrite Es. split_and!; try done. unfold is_tcp_proxy_connection.
    destruct (has_key (addr_conn_map s) _); [by rewrite orb_true_r|]. cbn in Ek. apply negb_false_iff in Ek. by rewrite Ek.
Qed.

(** A packet that the connector takes. *)
Definition proxied s (h : PeerManagerHeader) (v : IpView) : Prop :=
  check_packet_from_peer_fast (tp_cidr_set s) (tp_ctx s) = true /\
  pm_packet_type h = packet_type_u8 PktData /\ is_no_proxy h = Done false /\ iv_version v = 4 /\ iv_protocol v = IP_TCP /\
  exists real, check_packet_from_peer (tp_cidr_set s) (tp_ctx s) h v = Done (Some real).

Lemma segment_taken id now p s pre h body i v t : proxy_wf s -> laid_out p pre h body -> get_local_inet s = Some i ->
  ip_view body = Some v -> tcp_view body = Some t -> proxied s h v -> is_syn t = false ->
  is_tcp_proxy_connection (V4 (iv_source v), tv_source t) s = true ->
  exists q b, try_handle_peer_packet id now p s = Done (Some q, s) /\ laid_out q pre h b /\
    looks b (local_source s i (iv_source v)) (inet_address i) (tv_source t) (tp_local_port s) t (iv_protocol v) (iv_version v).
Proof.
  intros Hwf Hl Hi Hv Ht (Hfast & Hty & Hnp & E4 & E6 & real & Hc) Hns Hconn. unfold try_handle_peer_packet. rewrite Hfast. cbn [negb].
  rewrite Hi, (layout_header _ _ _ _ Hl). cbn [mbind outcome_bind unwrap]. rewrite Hty, Z.eqb_refl, Hnp. cbn [mbind outcome_bind].
  destruct (layout_mut_payload _ _ _ _ Hl) as (put & -> & Hput). cbn [mbind outcome_bind]. rewrite Hv, E4, E6, !Z.eqb_refl. cbn [andb negb].
  rewrite Hc. cbn [mbind outcome_bind]. rewrite Ht. cbn [unwrap mbind outcome_bind]. fold (is_syn t). rewrite Hns.
  unfold is_tcp_proxy_connection in Hconn. apply orb_true_iff in Hconn.
  replace (negb _ && negb _) with false by (symmetry; destruct Hconn as [-> | ->]; [apply andb_false_r | done]).
  destruct (rewrite_to_local_spec s i body v t Hwf Hi Hv Ht) as (b & -> & Hb). cbn [mbind outcome_bind].
  exists (put b), b. split; [done|]. split; [apply Hput|]. by rewrite E4, E6 in Hb.
Qed.

(** A packet too short for its headers is left alone or ends the task. *)
Lemma short_peer_packet id now p s pre h body : laid_out p pre h body -> tcp_view body = None ->
  try_handle_peer_packet id now p s = Done (None, s) \/ try_handle_peer_packet id now p s = Panicked UnwrapOnNone.
Proof.
  intros Hl Ht. unfold try_handle_peer_packet. destruct (negb _); [by left|]. destruct (get_local_inet s) as [i|]; [|by left].
  rewrite (layout_header _ _ _ _ Hl). cbn [mbind outcome_bind unwrap]. pose proof Hl as (_ & _ & Hr).
  assert (exists np, (if pm_packet_type h =? packet_type_u8 PktData then is_no_proxy h else Done true) = Done np) as [np ->].
  { destruct (_ =? _); [|by eexists]. apply (get_flag_done FLAG_NO_PROXY h Hr). }
  cbn [mbind outcome_bind]. destruct np; [by left|]. destruct (layout_mut_payload _ _ _ _ Hl) as (put & -> & _). cbn [mbind outcome_bind].
  destruct (ip_view body) as [v|]; [|by left]. destruct (negb _); [by left|].
  destruct (check_done (tp_cidr_set s) (tp_ctx s) h v Hr) as [[real|] Ec]; rewrite Ec; cbn [mbind outcome_bind]; [|by left].
  rewrite Ht. by right.
Qed.

Lemma short_nic_packet p s pre h body : laid_out p pre h body -> ip_view body = None \/ tcp_view body = None ->
  try_process_packet_from_nic p s = Done (false, p) \/ try_process_packet_from_nic p s = Panicked UnwrapOnNone.
Proof.
  intros Hl Hshort. unfold try_process_packet_from_nic. destruct (get_local_inet s) as [i|]; [|by left].
  rewrite (layout_payload _ _ _ _ Hl). cbn [mbind outcome_bind]. destruct (ip_view body) as [v|]; [|by right].
  destruct Hshort as [|Ht]; [done|]. cbn [unwrap mbind outcome_bind]. destruct (negb _); [by left|]. rewrite Ht. by right.
Qed.

(** A packet whose headers are not whole is short. *)
Lemma whole_or_short p pre h body : laid_out p pre h body -> whole_packet p \/
  ~ whole_packet p /\ tcp_view body = None.
Proof.
  intros Hl. destruct (tcp_view body) as [t|] eqn:Et; [left; exists pre, h, body; split; [done|]; intros; by eexists|].
  assert (forall pre' h' body', laid_out p pre' h' body' -> body' = body) as Huniq.
  { intros pre' h' body' Hl'. pose proof (layout_payload _ _ _ _ Hl). pose proof (layout_payload _ _ _ _ Hl'). congruence. }
  destruct (ip_view body) as [v|] eqn:Ev; [|left; exists pre, h, body; split; [done|]; intros v; congruence].
  destruct (decide (iv_version v = 4 /\ iv_protocol v = IP_TCP)) as [[E4 E6]|Hn].
  - right. split; [|done]. intros (pre' & h' & body' & Hl' & Ht'). rewrite (Huniq _ _ _ Hl') in Ht'.
    destruct (Ht' v Ev E4 E6) as [t ?]. congruence.
  - left. exists pre, h, body. split; [done|]. intros v' E E4 E6. destruct Hn. rewrite Ev in E. by injection E as ->.
Qed.

(** ** The maps *)

(** Both addresses of an entry are IPv4, with one port. *)
Definition entry_ok (e : NatDstEntry) : Prop :=
  exists mip rip port, nat_mapped_dst e = (V4 mip, port) /\ nat_real_dst e = (V4 rip, port) /\ in_width 32 mip /\ in_width 16 port.

(** The state of an entry whose task is there. *)
Definition state_at (at_ : ConnTask) : NatDstEntryState :=
  match at_ with
  | Connecting => ConnectingDst | Copying => Connected | ShutSrc => ClosingSrc | ShutDst => ClosingDst | Lingering => Closed
  end.

(** A source leads to an entry of its own; a pending entry waits for its
    connection and is no connection yet. *)
Record proxy_ok s : Prop := {
  px_wf : proxy_wf s;
  px_syn a id : syn_map s !! a = Some id ->
    exists e, nat_entries s !! id = Some e /\ nat_src e = a /\ nat_state e = SynReceived /\ id ∉ conn_map s;
  px_addr a id : addr_conn_map s !! a = Some id -> id ∈ conn_map s /\ exists e, nat_entries s !! id = Some e /\ nat_src e = a;
  px_conn id : id ∈ conn_map s -> exists e, nat_entries s !! id = Some e /\ nat_state e <> SynReceived;
  px_task id at_ : conn_tasks s !! id = Some at_ ->
    id ∈ conn_map s /\ exists e, nat_entries s !! id = Some e /\ nat_state e = state_at at_;
  px_entry id e : nat_entries s !! id = Some e -> entry_ok e
}.

Lemma proxy_new_ok ctx peer port smol cidrs : proxy_wf (proxy_new ctx peer port smol cidrs) -> proxy_ok (proxy_new ctx peer port smol cidrs).
Proof. intros Hw. split; [done | done | done | | done | done]. intros id Hid. by apply elem_of_empty in Hid. Qed.

Lemma find_entry_ok s a id : proxy_ok s -> find_entry a s = Some id -> exists e, nat_entries s !! id = Some e /\ nat_src e = a /\ entry_ok e.
Proof.
  intros Ho. unfold find_entry. destruct (addr_conn_map s !! a) as [id'|] eqn:Ea.
  - intros [= <-]. destruct (px_addr _ Ho _ _ Ea) as (_ & e & He & Hs). exists e. split_and!; try done. by eapply px_entry.
  - intros Hs. destruct (px_syn _ Ho _ _ Hs) as (e & He & Hsrc & _). exists e. split_and!; try done. by eapply px_entry.
Qed.

(** ** Packets of the local stack *)

(** The peer's address behind a destination the stack used. *)
Definition peer_dest s (i : Ipv4Inet) (ip : Z) : Z :=
  if negb (tp_smoltcp s) && (ip =? get_fake_local_ipv4 i) then inet_address i else ip.

Lemma peer_dest_local s i ip : (tp_smoltcp s = false -> ip <> get_fake_local_ipv4 i) -> peer_dest s i (local_source s i ip) = ip.
Proof.
  intros Hne. unfold peer_dest, local_source. destruct (tp_smoltcp s); cbn [negb andb]; [done|]. specialize (Hne eq_refl).
  destruct (Z.eqb_spec ip (inet_address i)) as [->|]; [by rewrite Z.eqb_refl|].
  by destruct (Z.eqb_spec ip (get_fake_local_ipv4 i)).
Qed.

Lemma set_to_peer_range peer h : in_width 32 peer -> in_range h -> in_range (set_to_peer peer h).
Proof. unfold in_range; simpl. intros Hp Hr. destruct_and!. done. Qed.

Definition reply_from s (i : Ipv4Inet) (v : IpView) (t : TcpView) : Prop :=
  iv_version v = 4 /\ iv_protocol v = IP_TCP /\ iv_source v = inet_address i /\ tv_source t = tp_local_port s.

Lemma nic_packet_taken p s pre h body i v t id e mip port : proxy_wf s -> laid_out p pre h body -> get_local_inet s = Some i ->
  ip_view body = Some v -> tcp_view body = Some t -> reply_from s i v t ->
  find_entry (V4 (peer_dest s i (iv_destination v)), tv_destination t) s = Some id -> nat_entries s !! id = Some e ->
  nat_src e = (V4 (peer_dest s i (iv_destination v)), tv_destination t) ->
  nat_mapped_dst e = (V4 mip, port) -> (nat_real_dst e).2 = port -> in_width 32 mip -> in_width 16 port ->
  exists q h' b, try_process_packet_from_nic p s = Done (true, q) /\ laid_out q pre h' b /\ is_no_proxy h' = Done true /\
    looks b mip (peer_dest s i (iv_destination v)) port (tv_destination t) t (iv_protocol v) (iv_version v).
Proof.
  intros Hwf Hl Hi Hv Ht (E4 & E6 & Esrc & Eport) Hf He Hes Hm Hrp Hwm Hwp. destruct (local_inet_wf _ _ Hwf Hi) as [Ha _].
  unfold try_process_packet_from_nic. rewrite Hi, (layout_payload _ _ _ _ Hl). cbn [mbind outcome_bind]. rewrite Hv. cbn [unwrap mbind outcome_bind].
  rewrite E4, E6, Esrc, !Z.eqb_refl. cbn [andb negb]. rewrite Ht. cbn [unwrap mbind outcome_bind]. rewrite Eport, Z.eqb_refl. cbn [negb].
  set (need := negb (tp_smoltcp s) && (iv_destination v =? get_fake_local_ipv4 i)).
  change (if need then inet_address i else iv_destination v) with (peer_dest s i (iv_destination v)).
  rewrite Hf, He. cbn [unwrap mbind outcome_bind]. rewrite bool_decide_eq_true_2 by done. cbn [negb]. rewrite Hm. cbn [fst mbind outcome_bind].
  destruct (layout_mut_header _ _ _ _ Hl) as (put & -> & Hput). cbn [mbind outcome_bind unwrap]. pose proof Hl as (_ & _ & Hr).
  destruct (set_flag_range FLAG_NO_PROXY true h) as (h1 & Hs & Hr1 & _ & Hget); [set_solver | done|].
  unfold set_no_proxy. rewrite Hs. cbn [mbind outcome_bind]. set (h2 := if need then set_to_peer (tp_peer_id s) h1 else h1).
  assert (in_range h2) as Hr2 by (unfold h2; destruct need; [apply set_to_peer_range; [apply Hwf | done] | done]).
  destruct (Hput h2 Hr2) as [Hl2 _]. destruct (layout_mut_payload _ _ _ _ Hl2) as (put2 & -> & Hput2). cbn [mbind outcome_bind].
  destruct (set_source_view mip body v Hv Hwm) as [Hv1 Ht1]. rewrite Ht in Ht1.
  set (b2 := if need then set_destination (inet_address i) (set_source mip body) else set_source mip body).
  assert (ip_view b2 = Some (with_destination (peer_dest s i (iv_destination v)) (with_source mip v)) /\ tcp_view b2 = Some t) as [Hv2 Ht2].
  { unfold b2, peer_dest. fold need. destruct need; [|by destruct v].
    destruct (set_destination_view (inet_address i) _ _ Hv1 Ha) as [-> ->]. done. }
  rewrite Hv2, Ht2. cbn [unwrap mbind outcome_bind]. rewrite Hrp. destruct (set_tcp_source_view port b2 t Ht2 Hwp) as [Ht3 Hv3]. rewrite Hv2 in Hv3.
  eexists _, h2, _. split; [done|]. split; [apply Hput2|]. split.
  - assert (get_flag FLAG_NO_PROXY h1 = Done true) as Hnp by (rewrite Hget by set_solver; by rewrite decide_True).
    unfold h2, is_no_proxy. by destruct need.
  - pose proof (checksums_look _ _ _ mip _ Hv3 Ht3 eq_refl eq_refl) as Hlk. cbn in Hlk. rewrite E4, E6 in Hlk. exact Hlk.
Qed.

(** Every packet is either left alone or rewritten as above. *)
Lemma nic_packet_defined p s pre h body v : proxy_ok s -> laid_out p pre h body -> ip_view body = Some v ->
  (iv_version v = 4 -> iv_protocol v = IP_TCP -> is_Some (tcp_view body)) ->
  exists r, try_process_packet_from_nic p s = Done r.
Proof.
  intros Ho Hl Hv Htcp. pose proof (px_wf _ Ho) as Hwf. destruct (get_local_inet s) as [i|] eqn:Hi.
  2:{ unfold try_process_packet_from_nic. rewrite Hi. by eexists. }
  destruct (decide (iv_version v = 4 /\ iv_source v = inet_address i /\ iv_protocol v = IP_TCP)) as [(E4 & Es & E6)|Hn].
  2:{ unfold try_process_packet_from_nic. rewrite Hi, (layout_payload _ _ _ _ Hl). cbn [mbind outcome_bind]. rewrite Hv. cbn [unwrap mbind outcome_bind].
      replace (_ && _ && _) with false by (symmetry; lia). by eexists. }
  destruct (Htcp E4 E6) as [t Ht]. destruct (Z.eq_dec (tv_source t) (tp_local_port s)) as [Ep|Ep].
  2:{ unfold try_process_packet_from_nic. rewrite Hi, (layout_payload _ _ _ _ Hl). cbn [mbind outcome_bind]. rewrite Hv. cbn [unwrap mbind outcome_bind].
      destruct (negb _); [by eexists|]. rewrite Ht. cbn [unwrap mbind outcome_bind]. by destruct (Z.eqb_spec (tv_source t) (tp_local_port s)); [|eexists]. }
  destruct (find_entry (V4 (peer_dest s i (iv_destination v)), tv_destination t) s) as [id|] eqn:Ef.
  - destruct (find_entry_ok _ _ _ Ho Ef) as (e & He & Hes & mip & rip & port & Hm & Hrd & Hw1 & Hw2).
    destruct (nic_packet_taken p s pre h body i v t id e mip port) as (q & h' & b & -> & _); try done; [by rewrite Hrd | by eexists].
  - unfold try_process_packet_from_nic. rewrite Hi, (layout_payload _ _ _ _ Hl). cbn [mbind outcome_bind]. rewrite Hv. cbn [unwrap mbind outcome_bind].
    rewrite E4, E6, Es, !Z.eqb_refl. cbn [andb negb]. rewrite Ht. cbn [unwrap mbind outcome_bind]. rewrite Ep, Z.eqb_refl. cbn [negb].
    unfold peer_dest in Ef. rewrite Ef. by eexists.
Qed.

(** ** Moves *)

(** An entry keeps its addresses, the node its settings. *)
Definition kept s s' : Prop :=
  tp_ctx s' = tp_ctx s /\ tp_cidr_set s' = tp_cidr_set s /\ tp_local_port s' = tp_local_port s /\ tp_smoltcp s' = tp_smoltcp s /\ tp_peer_id s' = tp_peer_id s /\
  forall id e, nat_entries s !! id = Some e -> exists e', nat_entries s' !! id = Some e' /\
    nat_src e' = nat_src e /\ nat_real_dst e' = nat_real_dst e /\ nat_mapped_dst e' = nat_mapped_dst e.

Lemma kept_refl s : kept s s.
Proof. split_and!; try done. intros id e He. by exists e. Qed.

Lemma kept_trans s1 s2 s3 : kept s1 s2 -> kept s2 s3 -> kept s1 s3.
Proof.
  intros (? & ? & ? & ? & ? & H1') (? & ? & ? & ? & ? & H2'). split_and!; try congruence. intros id e He.
  destruct (H1' _ _ He) as (e1 & He1 & ? & ? & ?). destruct (H2' _ _ He1) as (e2 & He2 & ? & ? & ?). exists e2. split_and!; congruence.
Qed.

Lemma syn_entry_ok s id now src real mapped : proxy_ok s -> nat_entries s !! id = None ->
  entry_ok (nat_entry_new now src real mapped) -> proxy_ok (syn_entry s id now src real mapped) /\ kept s (syn_entry s id now src real mapped).
Proof.
  intros [Hw Hs Ha Hc Ht He] Hid Hok. assert (forall i e, nat_entries s !! i = Some e -> i <> id) as Hne by (intros i e E ->; congruence).
  split.
  - split; cbn; [done | | | | |].
    + intros a i Hl. apply lookup_insert_Some in Hl as [[<- <-]|[_ Hl]].
      * rewrite lookup_insert_eq. eexists; split_and!; try done. intros Hin. destruct (Hc _ Hin) as (e & E & _). congruence.
      * destruct (Hs _ _ Hl) as (e & E & ?). exists e. rewrite lookup_insert_ne; [done|]. intros <-. congruence.
    + intros a i Hl. destruct (Ha _ _ Hl) as (Hin & e & E & ?). split; [done|]. exists e.
      rewrite lookup_insert_ne; [done|]. intros <-. congruence.
    + intros i Hin. destruct (Hc _ Hin) as (e & E & ?). exists e. rewrite lookup_insert_ne; [done|]. intros <-. congruence.
    + intros i at_ Hl. destruct (Ht _ _ Hl) as (Hin & e & E & ?). split; [done|]. exists e.
      rewrite lookup_insert_ne; [done|]. intros <-. congruence.
    + intros i e Hl. apply lookup_insert_Some in Hl as [[_ <-]|[_ Hl]]; [done | by eapply He].
  - split_and!; try done. intros i e Hl. exists e. cbn. rewrite lookup_insert_ne; [done|]. intros <-. congruence.
Qed.

(** A connection's task goes on: it changes the state of its entry. *)
Lemma task_moves_ok s id at_ : proxy_ok s -> id ∈ conn_map s ->
  let s' := with_tasks (<[id := at_]> (conn_tasks s)) (store_state id (state_at at_) s) in proxy_ok s' /\ kept s s'.
Proof.
  intros [Hw Hs Ha Hc Ht He] Hin s'. set (st := state_at at_). assert (st <> SynReceived) as Hst by (by destruct at_).
  assert (forall i e, nat_entries s !! i = Some e -> exists e', alter (with_state st) id (nat_entries s) !! i = Some e' /\
    nat_src e' = nat_src e /\ nat_real_dst e' = nat_real_dst e /\ nat_mapped_dst e' = nat_mapped_dst e /\ (i <> id -> e' = e) /\
    (nat_state e <> SynReceived -> nat_state e' <> SynReceived) /\ (i = id -> nat_state e' = st)) as Hk.
  { intros i e E. destruct (decide (i = id)) as [->|Hne].
    - rewrite lookup_alter_eq, E. by exists (with_state st e).
    - rewrite lookup_alter_ne by done. by exists e. }
  split.
  - split; cbn; [done | | | | |].
    + intros a i Hl. destruct (Hs _ _ Hl) as (e & E & ? & ? & Hni). destruct (Hk _ _ E) as (e' & E' & ? & _ & _ & Heq & _).
      rewrite Heq in E' by (intros ->; done). by exists e.
    + intros a i Hl. destruct (Ha _ _ Hl) as (Hini & e & E & ?). split; [done|]. destruct (Hk _ _ E) as (e' & E' & Hsrc & _). exists e'. split; [done | congruence].
    + intros i Hini. destruct (Hc _ Hini) as (e & E & Hn). destruct (Hk _ _ E) as (e' & E' & _ & _ & _ & _ & Hn' & _). exists e'. auto.
    + intros i at' [[<- <-]|[Hne Hl]]%lookup_insert_Some.
      * split; [done|]. destruct (Hc _ Hin) as (e & E & _). destruct (Hk _ _ E) as (e' & E' & _ & _ & _ & _ & _ & Hst'). exists e'. auto.
      * destruct (Ht _ _ Hl) as (Hini & e & E & ?). split; [done|]. exists e. by rewrite lookup_alter_ne.
    + intros i e' Hl. apply lookup_alter_Some in Hl as [(_ & e & E & ->)|[_ E]]; [|by eapply He]. apply (He _ _ E).
  - split_and!; try done. intros i e E. destruct (Hk _ _ E) as (e' & ? & ? & ? & ? & _). by exists e'.
Qed.

(** A connection's task ends: its entry leaves the maps. *)
Lemma conn_task_ends_ok s id e : proxy_ok s -> nat_entries s !! id = Some e ->
  let s' := with_tasks (delete id (conn_tasks s)) (remove_entry_from_all_conn_map id e s) in proxy_ok s' /\ kept s s'.
Proof.
  intros [Hw Hs Ha Hc Ht He] Hid s'. split; [|split_and!; try done; intros i e1 E1; by exists e1]. split; cbn; [done | | | | | done].
  - intros a i Hl. destruct (Hs _ _ Hl) as (e' & ? & ? & ? & ?). exists e'. split_and!; try done. set_solver.
  - intros a i Hl. assert (addr_conn_map s !! a = Some i /\ i <> id) as [Hl' Hne].
    { case_bool_decide as E; [apply lookup_delete_Some in Hl as [Hne Hl]|]; (split; [done|]); intros ->.
      - destruct (Ha _ _ Hl) as (_ & e' & E' & Hsrc). congruence.
      - destruct (Ha _ _ Hl) as (_ & e' & E' & Hsrc). congruence. }
    destruct (Ha _ _ Hl') as (Hin & Hex). split; [set_solver | done].
  - intros i Hin. apply Hc. set_solver.
  - intros i at_ [Hne Hl]%lookup_delete_Some. destruct (Ht _ _ Hl) as (Hin & Hex). split; [set_solver | done].
Qed.

(** The address for the connection to [real]: the node itself is reached by
    its loopback address. *)
Definition connect_addr s (real port : Z) : SocketAddr :=
  match ctx_ipv4 (tp_ctx s) with
  | Some n => if real =? inet_address n then (V4 2130706433, port) else (V4 real, port)
  | None => (V4 real, port)
  end.

(** [connect_to_nat_dst] of a task that waits for its connection. *)
Lemma connect_ok s id ok : proxy_ok s -> conn_tasks s !! id = Some Connecting ->
  exists e s', nat_entries s !! id = Some e /\ connect_to_nat_dst id ok s = Done (nat_dst_of e s, s') /\ proxy_ok s' /\ kept s s'.
Proof.
  intros Ho Htask. destruct (px_task _ Ho _ _ Htask) as (Hin & e & He & Hst). exists e. unfold connect_to_nat_dst.
  rewrite He. cbn [unwrap mbind outcome_bind]. destruct ok.
  - rewrite bool_decide_eq_true_2 by done. eexists; split; [done|]. split; [done|]. by apply (task_moves_ok s id Copying).
  - eexists; split; [done|]. split; [done|]. destruct (task_moves_ok s id Lingering Ho Hin) as [Ho1 Hk1].
    set (s1 := with_tasks _ _) in Ho1, Hk1. assert (nat_entries s1 !! id = Some (with_state Closed e)) as E1 by (cbn; by rewrite lookup_alter_eq, He).
    destruct (conn_task_ends_ok _ _ _ Ho1 E1) as [Ho2 Hk2].
    match goal with |- proxy_ok ?s' /\ _ => match type of Ho2 with proxy_ok ?s2 => assert (s' = s2) as -> end end.
    { unfold with_tasks, remove_entry_from_all_conn_map, s1. cbn. f_equal. by rewrite delete_insert_eq. }
    split; [exact Ho2|]. eapply kept_trans; [exact Hk1 | exact Hk2].
Qed.

Lemma accept_ok s a : proxy_ok s -> exists r s', accept_connection a s = Done (r, s') /\ proxy_ok s' /\ kept s s'.
Proof.
  intros Ho. unfold accept_connection. set (a' := match ctx_ipv4 (tp_ctx s) with Some _ => _ | None => _ end).
  destruct (syn_map s !! a') as [id|] eqn:Ea; [|by eexists _, _; split_and!; [| |apply kept_refl]].
  pose proof Ho as [Hw Hs Ha Hc Ht He]. destruct (Hs _ _ Ea) as (e & E & Hsrc & Hst & Hni). rewrite E. cbn [unwrap mbind outcome_bind].
  rewrite bool_decide_eq_true_2 by done. rewrite bool_decide_eq_false_2 by done. cbn [negb]. eexists _, _; split; [done|]. split.
  - split; cbn; [done | | | | |].
    + intros a1 i [Hne Hl]%lookup_delete_Some. destruct (Hs _ _ Hl) as (e1 & E1 & Hsrc1 & ? & ?). exists e1.
      assert (i <> id) by (intros ->; congruence). rewrite lookup_insert_ne by done. split_and!; try done. set_solver.
    + intros a1 i Hl. apply lookup_insert_Some in Hl as [[<- <-]|[Hne Hl]].
      * split; [set_solver|]. rewrite lookup_insert_eq. by eexists.
      * destruct (Ha _ _ Hl) as (Hin & e1 & E1 & Hs1). split; [set_solver|]. exists e1.
        rewrite lookup_insert_ne; [done|]. intros ->. done.
    + intros i Hin. destruct (decide (i = id)) as [->|Hne]; [rewrite lookup_insert_eq; by eexists|].
      rewrite lookup_insert_ne by done. apply Hc. set_solver.
    + intros i at_ [[<- <-]|[Hne Hl]]%lookup_insert_Some.
      * split; [set_solver|]. rewrite lookup_insert_eq. by eexists.
      * destruct (Ht _ _ Hl) as (Hin & e1 & E1 & ?). split; [set_solver|]. exists e1. by rewrite lookup_insert_ne.
    + intros i e1 Hl. apply lookup_insert_Some in Hl as [[<- <-]|[_ Hl]]; [exact (He _ _ E) | by eapply He].
  - split_and!; try done. intros i e1 E1. cbn. destruct (decide (i = id)) as [->|Hne].
    + rewrite lookup_insert_eq. rewrite E in E1. injection E1 as <-. by eexists.
    + rewrite lookup_insert_ne by done. by exists e1.
Qed.

Lemma foldr_close ids (m : gmap Z NatDstEntry) i :
  foldr (alter (with_state Closed)) m ids !! i =
  (fun e => if bool_decide (i ∈ ids) then with_state Closed e else e) <$> m !! i.
Proof.
  induction ids as [|id ids IH]; cbn [foldr].
  { rewrite bool_decide_eq_false_2 by apply not_elem_of_nil. by destruct (m !! i). }
  destruct (decide (i = id)) as [->|Hne].
  - rewrite lookup_alter_eq, IH. rewrite (bool_decide_eq_true_2 (id ∈ id :: ids)) by (by left). destruct (m !! id); [|done].
    cbn. f_equal. by case_bool_decide.
  - rewrite lookup_alter_ne, IH by done. destruct (m !! i); [|done]. cbn. f_equal.
    assert (i ∈ id :: ids <-> i ∈ ids) as E by set_solver. by rewrite (bool_decide_ext _ _ E).
Qed.

Lemma clean_ok s now : proxy_ok s -> proxy_ok (clean_syn_map now s) /\ kept s (clean_syn_map now s).
Proof.
  intros [Hw Hs Ha Hc Ht He]. unfold clean_syn_map. set (gone := List.filter _ _).
  assert (forall i, i ∈ gone -> i ∉ conn_map s /\ syn_expired now s i = true) as Hgone.
  { intros i Hi%list_elem_of_In%filter_In. destruct Hi as [Hi Hx]. split; [|done]. apply list_elem_of_In, list_elem_of_fmap in Hi as ([a j] & -> & Hm).
    apply elem_of_map_to_list in Hm. by destruct (Hs _ _ Hm) as (? & _ & _ & _ & ?). }
  assert (forall i e, nat_entries s !! i = Some e -> exists e', foldr (alter (with_state Closed)) (nat_entries s) gone !! i = Some e' /\
    nat_src e' = nat_src e /\ nat_real_dst e' = nat_real_dst e /\ nat_mapped_dst e' = nat_mapped_dst e /\ (i ∉ gone -> e' = e)) as Hk.
  { intros i e E. rewrite foldr_close, E. cbn. eexists; split; [done|]. by case_bool_decide. }
  split.
  - split; cbn; [done | | | | |].
    + intros a i Hl. rewrite lookup_retain in Hl. destruct (syn_map s !! a) as [i'|] eqn:El; [|done].
      destruct (syn_expired now s i') eqn:Ex; [done|]. cbn in Hl. injection Hl as <-. destruct (Hs _ _ El) as (e & E & ? & ? & ?).
      destruct (Hk _ _ E) as (e' & E' & _ & _ & _ & Heq). rewrite Heq in E' by (intros [_ ?]%Hgone; congruence). by exists e.
    + intros a i Hl. destruct (Ha _ _ Hl) as (Hin & e & E & ?). split; [done|]. destruct (Hk _ _ E) as (e' & E' & ? & _). exists e'. split; [done | congruence].
    + intros i Hin. destruct (Hc _ Hin) as (e & E & ?). destruct (Hk _ _ E) as (e' & E' & _ & _ & _ & Heq).
      rewrite Heq in E' by (by intros [? _]%Hgone). by exists e.
    + intros i at_ Hl. destruct (Ht _ _ Hl) as (Hin & e & E & ?). split; [done|]. destruct (Hk _ _ E) as (e' & E' & _ & _ & _ & Heq).
      rewrite Heq in E' by (by intros [? _]%Hgone). by exists e.
    + intros i e Hl. rewrite foldr_close in Hl. destruct (nat_entries s !! i) as [e0|] eqn:E0; [|done]. cbn in Hl. injection Hl as <-.
      pose proof (He _ _ E0) as Hok. by case_bool_decide.
  - split_and!; try done. intros i e E. destruct (Hk _ _ E) as (e' & ? & ? & ? & ? & _). by exists e'.
Qed.

(** Every move is defined, but for packets whose headers are not whole. *)
Lemma proxy_step_ok l s : proxy_ok s -> enabled l s ->
  (exists s', proxy_step l s = Done s' /\ proxy_ok s' /\ kept s s') \/ ~ whole l /\ proxy_step l s = Panicked UnwrapOnNone.
Proof.
  intros Ho Hen. destruct l as [p id now|p|a|id ok|id at_|now]; cbn [proxy_step enabled whole] in *.
  - destruct Hen as [(pre & h & body & Hl) Hid]. destruct (whole_or_short _ _ _ _ Hl) as [Hp|[Hp Hshort]].
    2:{ destruct (short_peer_packet id now p s _ _ _ Hl Hshort) as [-> | ->]; [left; eexists; split; [done|] | by right].
        split; [done | apply kept_refl]. }
    left. destruct (peer_packet_cases id now p s (px_wf _ Ho) Hp) as (r & s' & -> & Hcases). cbn [mbind outcome_bind].
    eexists; split; [done|]. destruct Hcases as [[_ ->]|(pre' & h' & body' & q & b & i & v & t & real & _ & _ & _ & _ & Hv & Ht & _ & _ & Hs')].
    { split; [done | apply kept_refl]. }
    destruct (is_syn t); [|destruct Hs' as [-> _]; split; [done | apply kept_refl]]. subst s'.
    destruct (view_range _ _ _ Hv Ht) as (_ & Hd & _ & Hp'). apply syn_entry_ok; [done | done|].
    exists (iv_destination v), real, (tv_destination t). done.
  - destruct Hen as (pre & h & body & Hl).
    assert (forall pre' h' body', laid_out p pre' h' body' -> body' = body) as Huniq.
    { intros pre' h' body' Hl'. pose proof (layout_payload _ _ _ _ Hl). pose proof (layout_payload _ _ _ _ Hl'). congruence. }
    assert (exists s', (_ ← try_process_packet_from_nic p s; Done s) = Done s' /\ proxy_ok s' /\ kept s s' \/
      (ip_view body = None \/ ~ whole_packet p) /\ (_ ← try_process_packet_from_nic p s; Done s) = Panicked UnwrapOnNone) as (s' & [?|[Hn E]]).
    { destruct (ip_view body) as [v|] eqn:Hv.
      - destruct (whole_or_short _ _ _ _ Hl) as [(pre' & h' & body' & Hl' & Htcp)|[Hp Hshort]].
        + exists s. left. rewrite (Huniq _ _ _ Hl') in Htcp.
          destruct (nic_packet_defined p s _ _ _ v Ho Hl Hv (Htcp v Hv)) as [r ->]. split; [done|]. split; [done | apply kept_refl].
        + exists s. destruct (short_nic_packet p s _ _ _ Hl (or_intror Hshort)) as [-> | ->]; [left | right; by split; [right|]].
          split; [done|]. split; [done | apply kept_refl].
      - exists s. destruct (short_nic_packet p s _ _ _ Hl (or_introl Hv)) as [-> | ->]; [left | right; by split; [left|]].
        split; [done|]. split; [done | apply kept_refl]. }
    { left. by exists s'. }
    right. split; [|exact E]. intros [Hw (pre' & h' & body' & Hl' & [v Hv])]. destruct Hn as [Hn|Hn]; [|done].
    rewrite (Huniq _ _ _ Hl') in Hv. congruence.
  - left. destruct (accept_ok s a Ho) as (r & s' & -> & ? & ?). by eexists.
  - left. destruct (connect_ok s id ok Ho Hen) as (e & s' & _ & -> & ? & ?). by exists s'.
  - left. destruct Hen as [Htask Hn]. destruct (px_task _ Ho _ _ Htask) as (Hin & e & He & _). destruct at_; cbn [handle_nat_connection]; [done | | | |].
    + eexists; split; [done|]. by apply (task_moves_ok s id ShutSrc).
    + eexists; split; [done|]. by apply (task_moves_ok s id ShutDst).
    + eexists; split; [done|]. by apply (task_moves_ok s id Lingering).
    + rewrite He. cbn [unwrap mbind outcome_bind]. eexists; split; [done|]. by apply conn_task_ends_ok.
  - left. eexists; split; [done|]. by apply clean_ok.
Qed.

Lemma proxy_reachable_ok s0 s : proxy_ok s0 -> proxy_reachable s0 s -> proxy_ok s /\ kept s0 s.
Proof.
  intros Ho. induction 1 as [|l s s' _ [IH Hk] Hen Hst]; [split; [done | apply kept_refl]|].
  destruct (proxy_step_ok l s IH Hen) as [(s1 & E & Ho1 & Hk1)|[_ E]]; rewrite Hst in E; [|done].
  injection E as <-. split; [done | by eapply kept_trans].
Qed.

(** C13.  The proxy's tasks never fail an assertion: in every state it can get
    into, by packets of peers and of the local stack, connections that are
    accepted, their tasks going on from stage to stage and the cleaner, in any
    order, each of these moves is defined, but for a packet that is too short
    for the headers the proxy looks at, which can end its task; only such packets
    do.  A pending source leads to an entry of its own that waits for a
    connection, an open one to an entry of its own that is listed among the
    connections, and an entry is in the state of its connection's task. *)
Theorem tcp_proxy_safe (ctx : GlobalCtx) (peer_id local_port : Z) (smoltcp : bool) (cidrs : CidrSet) (s : TcpProxy)
    (Hwf : proxy_wf (proxy_new ctx peer_id local_port smoltcp cidrs))
    (Hs : proxy_reachable (proxy_new ctx peer_id local_port smoltcp cidrs) s) :
  (forall l, enabled l s -> (exists s', proxy_step l s = Done s') \/ ~ whole l /\ proxy_step l s = Panicked UnwrapOnNone) /\
  (forall a id, syn_map s !! a = Some id ->
     exists e, nat_entries s !! id = Some e /\ nat_src e = a /\ nat_state e = SynReceived /\ id ∉ conn_map s) /\
  (forall a id, addr_conn_map s !! a = Some id ->
     id ∈ conn_map s /\ exists e, nat_entries s !! id = Some e /\ nat_src e = a /\ nat_state e <> SynReceived) /\
  (forall id at_, conn_tasks s !! id = Some at_ ->
     id ∈ conn_map s /\ exists e, nat_entries s !! id = Some e /\ nat_state e = state_at at_).
Proof.
  destruct (proxy_reachable_ok _ _ (proxy_new_ok _ _ _ _ _ Hwf) Hs) as [Ho _]. split_and!.
  - intros l Hen. destruct (proxy_step_ok l s Ho Hen) as [(s' & E & _)|?]; [left; by exists s' | by right].
  - apply (px_syn _ Ho).
  - intros a id Ha. destruct (px_addr _ Ho _ _ Ha) as (Hin & e & E & Hsrc). split; [done|].
    destruct (px_conn _ Ho _ Hin) as (e' & E' & Hst). exists e. rewrite E in E'. injection E' as <-. done.
  - apply (px_task _ Ho).
Qed.

(** ** A connection through the proxy *)

(** The peer's first packet. *)
Section connection.
Context (s s1 : TcpProxy) (p q : ZCPacket) (pre body : bytes) (h : PeerManagerHeader) (v : IpView) (t : TcpView) (id now : Z) (i : Ipv4Inet).
Context (Ho : proxy_ok s) (Hl : laid_out p pre h body) (Hv : ip_view body = Some v) (Ht : tcp_view body = Some t).
Context (Hsyn : is_syn t = true) (Hid : nat_entries s !! id = None) (Hi : get_local_inet s = Some i).
Context (Hfake : forall n, ctx_ipv4 (tp_ctx s) = Some n -> iv_source v <> inet_first n).
Context (Htake : try_handle_peer_packet id now p s = Done (Some q, s1)).

Let src : SocketAddr := (V4 (iv_source v), tv_source t).

Lemma syn_taken : exists real b, s1 = syn_entry s id now src (V4 real, tv_destination t) (V4 (iv_destination v), tv_destination t) /\
  check_packet_from_peer (tp_cidr_set s) (tp_ctx s) h v = Done (Some real) /\ laid_out q pre h b /\
  looks b (local_source s i (iv_source v)) (inet_address i) (tv_source t) (tp_local_port s) t (iv_protocol v) (iv_version v).
Proof.
  assert (whole_packet p) as Hw.
  { exists pre, h, body. split; [done|]. intros. by eexists. }
  destruct (peer_packet_cases id now p s (px_wf _ Ho) Hw) as (r & s' & E & Hc). rewrite Htake in E. injection E as <- <-.
  destruct Hc as [[? _]|(pre' & h' & body' & q' & b & i' & v' & t' & real & Hl' & [= <-] & Hlq & Hi' & Hv' & Ht' & Hlk & Hchk & Hs')]; [done|].
  assert (body' = body /\ h' = h) as [-> ->].
  { pose proof (layout_payload _ _ _ _ Hl). pose proof (layout_payload _ _ _ _ Hl').
    pose proof (layout_header _ _ _ _ Hl). pose proof (layout_header _ _ _ _ Hl'). split; congruence. }
  assert (pre' = pre) as ->.
  { destruct Hl as (E1 & L1 & _), Hl' as (E2 & L2 & _). rewrite E1 in E2. apply app_inj_1 in E2 as [? _]; [done|]. unfold len in *. lia. }
  rewrite Hv in Hv'. injection Hv' as <-. rewrite Ht in Ht'. injection Ht' as <-. rewrite Hi in Hi'. injection Hi' as <-.
  rewrite Hsyn in Hs'. exists real, b. done.
Qed.

Lemma fake_free : (tp_smoltcp s = false -> iv_source v <> get_fake_local_ipv4 i).
Proof. intros Es. apply Hfake. unfold get_local_inet in Hi. by rewrite Es in Hi. Qed.

(** While the entry is there, answers come back from where the peer connected to. *)
Lemma answers_come_back s2 r pre2 h2 body2 v2 t2 : proxy_reachable s1 s2 -> find_entry src s2 = Some id ->
  laid_out r pre2 h2 body2 -> ip_view body2 = Some v2 -> tcp_view body2 = Some t2 -> reply_from s2 i v2 t2 ->
  iv_destination v2 = local_source s i (iv_source v) -> tv_destination t2 = tv_source t ->
  exists r' h' b, try_process_packet_from_nic r s2 = Done (true, r') /\ laid_out r' pre2 h' b /\ is_no_proxy h' = Done true /\
    looks b (iv_destination v) (iv_source v) (tv_destination t) (tv_source t) t2 (iv_protocol v2) (iv_version v2).
Proof.
  intros Hr Hf Hl2 Hv2 Ht2 Hrep Hd Hp. destruct syn_taken as (real & b & -> & _).
  destruct (view_range _ _ _ Hv Ht) as (_ & Hwd & _ & Hwp).
  destruct (syn_entry_ok s id now src (V4 real, tv_destination t) (V4 (iv_destination v), tv_destination t)) as [Ho1 Hk1]; [done | done| |].
  { by exists (iv_destination v), real, (tv_destination t). }
  destruct (proxy_reachable_ok _ _ Ho1 Hr) as [Ho2 Hk2]. pose proof (kept_trans _ _ _ Hk1 Hk2) as (Kc & _ & Kp & Ks & _ & _).
  destruct Hk2 as (_ & _ & _ & _ & _ & Hents). destruct (Hents id _ (lookup_insert_eq _ _ _)) as (e & He & Es & Erd & Emd). cbn in Es, Erd, Emd.
  assert (get_local_inet s2 = Some i) as Hi2 by (unfold get_local_inet in *; by rewrite Ks, Kc).
  assert (peer_dest s2 i (iv_destination v2) = iv_source v) as Hpd.
  { rewrite Hd. transitivity (peer_dest s i (local_source s i (iv_source v))); [unfold peer_dest; by rewrite Ks | apply peer_dest_local, fake_free]. }
  destruct (nic_packet_taken r s2 pre2 h2 body2 i v2 t2 id e (iv_destination v) (tv_destination t)) as (r' & h' & b' & E & Hlr & Hnp & Hlk); try done.
  - apply Ho2.
  - by rewrite Hpd, Hp.
  - by rewrite Hpd, Hp, Es.
  - by rewrite Erd.
  - exists r', h', b'. by rewrite Hpd, Hp in Hlk.
Qed.

(** The connection that the stack accepts from the rewritten packets is this one. *)
Lemma accepted_is_this s2 : proxy_reachable s1 s2 -> syn_map s2 !! src = Some id ->
  exists s3 e, accept_connection (V4 (local_source s i (iv_source v)), tv_source t) s2 = Done (Some id, s3) /\
    find_entry src s3 = Some id /\ conn_tasks s3 !! id = Some Connecting /\ proxy_ok s3 /\ tp_ctx s3 = tp_ctx s /\
    nat_entries s3 !! id = Some e /\
    check_packet_from_peer (tp_cidr_set s) (tp_ctx s) h v = Done (match (nat_real_dst e).1 with V4 real => Some real | V6 _ => None end) /\
    (nat_real_dst e).2 = tv_destination t.
Proof.
  intros Hr Hf. destruct syn_taken as (real & b & -> & Hchk & _). destruct (view_range _ _ _ Hv Ht) as (_ & Hwd & _ & Hwp).
  destruct (syn_entry_ok s id now src (V4 real, tv_destination t) (V4 (iv_destination v), tv_destination t)) as [Ho1 Hk1]; [done | done| |].
  { by exists (iv_destination v), real, (tv_destination t). }
  destruct (proxy_reachable_ok _ _ Ho1 Hr) as [Ho2 Hk2]. pose proof (kept_trans _ _ _ Hk1 Hk2) as (Kc & _ & Kp & Ks & _ & _).
  destruct Hk2 as (_ & _ & _ & _ & _ & Hents). destruct (Hents id _ (lookup_insert_eq _ _ _)) as (e & He & Es & Erd & _). cbn in Es, Erd.
  destruct (accept_ok s2 (V4 (local_source s i (iv_source v)), tv_source t) Ho2) as (r3 & s3 & Eacc & Ho3 & Hk3).
  pose proof Eacc as Eacc'. revert Eacc'. unfold accept_connection at 1. rewrite Kc.
  assert (match ctx_ipv4 (tp_ctx s) with
    | Some inet => if bool_decide ((V4 (local_source s i (iv_source v)), tv_source t).1 = V4 (get_fake_local_ipv4 inet))
                   then (V4 (inet_address inet), (V4 (local_source s i (iv_source v)), tv_source t).2)
                   else (V4 (local_source s i (iv_source v)), tv_source t)
    | None => (V4 (local_source s i (iv_source v)), tv_source t) end = src) as ->.
  { cbn [fst snd]. unfold local_source, get_local_inet, get_fake_local_ipv4 in *. destruct (tp_smoltcp s); cbn [negb andb].
    - destruct (ctx_ipv4 (tp_ctx s)) as [n|]; [|done]. specialize (Hfake n eq_refl). rewrite bool_decide_eq_false_2 by congruence. done.
    - rewrite Hi. specialize (Hfake i Hi). destruct (Z.eqb_spec (iv_source v) (inet_address i)) as [E|E].
      + rewrite bool_decide_eq_true_2 by done. by rewrite <- E.
      + rewrite bool_decide_eq_false_2 by congruence. done. }
  rewrite Hf. destruct (px_syn _ Ho2 _ _ Hf) as (e' & He' & _ & Hst & Hni). rewrite He in He'. injection He' as <-. rewrite He. cbn [unwrap mbind outcome_bind].
  rewrite bool_decide_eq_true_2 by done. rewrite bool_decide_eq_false_2 by done. cbn [negb]. intros [= <- <-]. eexists _, _. split; [exact Eacc|]. destruct Hk3 as (Kc3 & _).
  rewrite Es in Ho3 |- *. unfold find_entry. cbn. rewrite !lookup_insert_eq. split_and!; [done | done | exact Ho3 | exact Kc | done | |]; cbn; by rewrite Erd.
Qed.

(** Where the connection is made to, whenever its task gets there. *)
Lemma connects_to_chosen s2 s3 : proxy_reachable s1 s2 -> syn_map s2 !! src = Some id ->
  accept_connection (V4 (local_source s i (iv_source v)), tv_source t) s2 = Done (Some id, s3) ->
  forall s4 ok, proxy_reachable s3 s4 -> conn_tasks s4 !! id = Some Connecting ->
  exists real s5, check_packet_from_peer (tp_cidr_set s) (tp_ctx s) h v = Done (Some real) /\
    connect_to_nat_dst id ok s4 = Done (connect_addr s real (tv_destination t), s5).
Proof.
  intros Hr Hf Hacc s4 ok Hr4 Htask. destruct (accepted_is_this s2 Hr Hf) as (s3' & e & Eacc & _ & _ & Ho3 & Kc3 & He & Hchk & Hport).
  rewrite Hacc in Eacc. injection Eacc as <-. destruct (proxy_reachable_ok _ _ Ho3 Hr4) as [Ho4 (Kc4 & _ & _ & _ & _ & Hents)].
  destruct (connect_ok s4 id ok Ho4 Htask) as (e4 & s5 & He4 & -> & _). destruct (Hents _ _ He) as (e4' & He4' & _ & Erd & _).
  rewrite He4 in He4'. injection He4' as <-. destruct (px_entry _ Ho3 _ _ He) as (mip & rip & port & _ & Hrd & _).
  rewrite Hrd in Hchk, Hport, Erd. cbn in Hchk, Hport. subst port. exists rip, s5. split; [done|]. f_equal. f_equal.
  unfold nat_dst_of, connect_addr. rewrite Erd, Kc4, Kc3. cbn. destruct (ctx_ipv4 (tp_ctx s)) as [n|]; cbn.
  - destruct (Z.eqb_spec rip (inet_address n)) as [->|Hne]; [by rewrite bool_decide_eq_true_2 | by rewrite bool_decide_eq_false_2 by congruence].
  - done.
Qed.

(** Later segments of the source go to the listener like the first one. *)
Lemma segments_go_on s2 p2 pre2 h2 body2 v2 t2 id2 now2 : proxy_reachable s1 s2 -> find_entry src s2 = Some id ->
  laid_out p2 pre2 h2 body2 -> ip_view body2 = Some v2 -> tcp_view body2 = Some t2 -> proxied s h2 v2 ->
  iv_source v2 = iv_source v -> tv_source t2 = tv_source t -> is_syn t2 = false ->
  exists q2 b, try_handle_peer_packet id2 now2 p2 s2 = Done (Some q2, s2) /\ laid_out q2 pre2 h2 b /\
    looks b (local_source s i (iv_source v)) (inet_address i) (tv_source t) (tp_local_port s) t2 (iv_protocol v2) (iv_version v2).
Proof.
  intros Hr Hf Hl2 Hv2 Ht2 Hpx Es Ep Hns. destruct syn_taken as (real & b & -> & _).
  destruct (view_range _ _ _ Hv Ht) as (_ & Hwd & _ & Hwp).
  destruct (syn_entry_ok s id now src (V4 real, tv_destination t) (V4 (iv_destination v), tv_destination t)) as [Ho1 Hk1]; [done | done| |].
  { by exists (iv_destination v), real, (tv_destination t). }
  destruct (proxy_reachable_ok _ _ Ho1 Hr) as [Ho2 Hk2]. pose proof (kept_trans _ _ _ Hk1 Hk2) as (Kc & Kcs & Kp & Ks & _ & _).
  assert (get_local_inet s2 = Some i) as Hi2 by (unfold get_local_inet in *; by rewrite Ks, Kc).
  assert (proxied s2 h2 v2) as Hpx2 by (unfold proxied in *; by rewrite Kc, Kcs).
  assert (is_tcp_proxy_connection (V4 (iv_source v2), tv_source t2) s2 = true) as Hconn.
  { rewrite Es, Ep. fold src. unfold is_tcp_proxy_connection, has_key, find_entry in *.
    destruct (addr_conn_map s2 !! src); [apply orb_true_r|]. rewrite Hf. by rewrite bool_decide_eq_true_2 by (by eexists). }
  destruct (segment_taken id2 now2 p2 s2 pre2 h2 body2 i v2 t2 (px_wf _ Ho2) Hl2 Hi2 Hv2 Ht2 Hpx2 Hns Hconn) as (q2 & b2 & Etake & Hlq & Hlk).
  exists q2, b2. split; [done|]. split; [done|]. rewrite Es, Ep, Kp in Hlk. unfold local_source in *. by rewrite Ks in Hlk.
Qed.
End connection.

(** C14.  The proxy is transparent, for a node whose address and proxied
    networks stay as they are, and a source that is not the stand-in address of
    the node's own network.  When the proxy takes the first packet of a
    connection, the packet goes to the local listener, otherwise unchanged, and
    unless an entry of an earlier connection of that source is still there, the
    source's entry is the new one.  The connection that the stack then accepts
    from the source is this one, if its entry is still pending, and whenever its
    task gets there it connects to the destination that the connector chose for
    the packet and the port of the packet, or to the loopback address with that
    port if the destination is the node itself.  As long as the source's entry is
    this one, every later segment of the source that the connector takes goes to
    the listener as well, and every answer of the stack leaves with the address
    and port the peer connected to as its source and the peer as its destination,
    otherwise unchanged, with right checksums, and marked so that no proxy takes
    it again. *)
Theorem tcp_proxy_transparent (ctx : GlobalCtx) (peer_id local_port : Z) (smoltcp : bool) (cidrs : CidrSet) (s s1 : TcpProxy)
    (p q : ZCPacket) (pre body : bytes) (h : PeerManagerHeader) (v : IpView) (t : TcpView) (id now : Z) (i : Ipv4Inet)
    (Hwf : proxy_wf (proxy_new ctx peer_id local_port smoltcp cidrs))
    (Hs : proxy_reachable (proxy_new ctx peer_id local_port smoltcp cidrs) s)
    (Hl : laid_out p pre h body) (Hv : ip_view body = Some v) (Ht : tcp_view body = Some t)
    (Hsyn : is_syn t = true) (Hid : nat_entries s !! id = None) (Hi : get_local_inet s = Some i)
    (Hfake : forall n, ctx_ipv4 (tp_ctx s) = Some n -> iv_source v <> inet_first n)
    (Htake : try_handle_peer_packet id now p s = Done (Some q, s1)) :
  let src : SocketAddr := (V4 (iv_source v), tv_source t) in
  ((exists b, laid_out q pre h b /\
      looks b (local_source s i (iv_source v)) (inet_address i) (tv_source t) (tp_local_port s) t (iv_protocol v) (iv_version v)) /\
   (addr_conn_map s !! src = None -> find_entry src s1 = Some id)) /\
  (forall s2, proxy_reachable s1 s2 -> syn_map s2 !! src = Some id ->
     exists s3, accept_connection (V4 (local_source s i (iv_source v)), tv_source t) s2 = Done (Some id, s3) /\
       find_entry src s3 = Some id /\ conn_tasks s3 !! id = Some Connecting /\
       forall s4 ok, proxy_reachable s3 s4 -> conn_tasks s4 !! id = Some Connecting ->
       exists real s5, check_packet_from_peer (tp_cidr_set s) (tp_ctx s) h v = Done (Some real) /\
         connect_to_nat_dst id ok s4 = Done (connect_addr s real (tv_destination t), s5)) /\
  (forall s2 p2 pre2 h2 body2 v2 t2 id2 now2, proxy_reachable s1 s2 -> find_entry src s2 = Some id ->
     laid_out p2 pre2 h2 body2 -> ip_view body2 = Some v2 -> tcp_view body2 = Some t2 -> proxied s h2 v2 ->
     iv_source v2 = iv_source v -> tv_source t2 = tv_source t -> is_syn t2 = false ->
     exists q2 b, try_handle_peer_packet id2 now2 p2 s2 = Done (Some q2, s2) /\ laid_out q2 pre2 h2 b /\
       looks b (local_source s i (iv_source v)) (inet_address i) (tv_source t) (tp_local_port s) t2 (iv_protocol v2) (iv_version v2)) /\
  (forall s2 r pre2 h2 body2 v2 t2, proxy_reachable s1 s2 -> find_entry src s2 = Some id ->
     laid_out r pre2 h2 body2 -> ip_view body2 = Some v2 -> tcp_view body2 = Some t2 -> reply_from s2 i v2 t2 ->
     iv_destination v2 = local_source s i (iv_source v) -> tv_destination t2 = tv_source t ->
     exists r' h' b, try_process_packet_from_nic r s2 = Done (true, r') /\ laid_out r' pre2 h' b /\ is_no_proxy h' = Done true /\
       looks b (iv_destination v) (iv_source v) (tv_destination t) (tv_source t) t2 (iv_protocol v2) (iv_version v2)).
Proof.
  intros src. destruct (proxy_reachable_ok _ _ (proxy_new_ok _ _ _ _ _ Hwf) Hs) as [Ho _]. split_and!.
  - destruct (syn_taken s s1 p q pre body h v t id now i Ho Hl Hv Ht Hsyn Hi Htake) as (real & b & _ & _ & ? & ?). by exists b.
  - destruct (syn_taken s s1 p q pre body h v t id now i Ho Hl Hv Ht Hsyn Hi Htake) as (real & b & -> & _). intros Hno.
    unfold find_entry. cbn. fold src. by rewrite Hno, lookup_insert_eq.
  - intros s2 Hr Hf. destruct (accepted_is_this s s1 p q pre body h v t id now i Ho Hl Hv Ht Hsyn Hid Hi Hfake Htake s2 Hr Hf)
      as (s3 & e & Eacc & Hfe & Htask & _). exists s3. split_and!; [done | done | done |].
    by apply (connects_to_chosen s s1 p q pre body h v t id now i Ho Hl Hv Ht Hsyn Hid Hi Hfake Htake s2 s3).
  - intros s2 p2 pre2 h2 body2 v2 t2 id2 now2. by apply (segments_go_on s s1 p q pre body h v t id now i).
  - intros s2 r pre2 h2 body2 v2 t2. by apply (answers_come_back s s1 p q pre body h v t id now i).
Qed.
End nat.

(** ** Example *)

(** A packet format with one number per field. *)
Definition toy_ip_view (b : bytes) : option IpView :=
  match b with
  | version :: src :: dst :: proto :: _ =>
      if bool_decide (in_width 32 src /\ in_width 32 dst)
      then Some {| iv_version := version; iv_source := src; iv_destination := dst; iv_protocol := proto |} else None
  | _ => None
  end.

Definition toy_tcp_view (b : bytes) : option TcpView :=
  match b with
  | _ :: _ :: _ :: _ :: sport :: dport :: flags :: _ :: _ :: content =>
      if bool_decide (in_width 16 sport /\ in_width 16 dport)
      then Some {| tv_source := sport; tv_destination := dport; tv_flags := flags; tv_content := content |} else None
  | _ => None
  end.

#[global] Instance toy_lib : TcpIpLib := {|
  ip_view := toy_ip_view;
  tcp_view := toy_tcp_view;
  set_source a b := match b with v :: _ :: l => v :: a :: l | _ => b end;
  set_destination a b := match b with v :: s :: _ :: l => v :: s :: a :: l | _ => b end;
  set_tcp_source p b := match b with v :: s :: d :: k :: _ :: l => v :: s :: d :: k :: p :: l | _ => b end;
  set_tcp_destination p b := match b with v :: s :: d :: k :: sp :: _ :: l => v :: s :: d :: k :: sp :: p :: l | _ => b end;
  set_tcp_checksum src dst b :=
    match b with v :: s :: d :: k :: sp :: dp :: f :: _ :: l => v :: s :: d :: k :: sp :: dp :: f :: (src + dst + sp + dp) :: l | _ => b end;
  set_ip_checksum b :=
    match b with v :: s :: d :: k :: sp :: dp :: f :: ts :: _ :: l => v :: s :: d :: k :: sp :: dp :: f :: ts :: (s + d) :: l | _ => b end;
  tcp_sum_ok b := match b with _ :: s :: d :: _ :: sp :: dp :: _ :: ts :: _ => ts =? s + d + sp + dp | _ => false end;
  ip_sum_ok b := match b with _ :: s :: d :: _ :: _ :: _ :: _ :: _ :: isum :: _ => isum =? s + d | _ => false end
|}.

Lemma toy_ip_Some b v : toy_ip_view b = Some v -> exists l,
  b = iv_version v :: iv_source v :: iv_destination v :: iv_protocol v :: l /\ in_width 32 (iv_source v) /\ in_width 32 (iv_destination v).
Proof.
  destruct b as [|? [|? [|? [|? b]]]]; try done. cbn [toy_ip_view]. case_bool_decide; [|done]. intros [= <-]. exists b. done.
Qed.

Lemma toy_tcp_Some b t : toy_tcp_view b = Some t -> exists a1 a2 a3 a4 a5 a6,
  b = a1 :: a2 :: a3 :: a4 :: tv_source t :: tv_destination t :: tv_flags t :: a5 :: a6 :: tv_content t /\
  in_width 16 (tv_source t) /\ in_width 16 (tv_destination t).
Proof.
  destruct b as [|? [|? [|? [|? [|? [|? [|? [|? [|? b]]]]]]]]]; try done. cbn [toy_tcp_view]. case_bool_decide; [|done].
  intros [= <-]. by eexists _, _, _, _, _, _.
Qed.

Lemma toy_ip_mk v s d k l : in_width 32 s -> in_width 32 d ->
  toy_ip_view (v :: s :: d :: k :: l) = Some {| iv_version := v; iv_source := s; iv_destination := d; iv_protocol := k |}.
Proof. intros. cbn [toy_ip_view]. by rewrite bool_decide_eq_true_2. Qed.

Lemma toy_tcp_mk a1 a2 a3 a4 sp dp f a5 a6 l : in_width 16 sp -> in_width 16 dp ->
  toy_tcp_view (a1 :: a2 :: a3 :: a4 :: sp :: dp :: f :: a5 :: a6 :: l) =
  Some {| tv_source := sp; tv_destination := dp; tv_flags := f; tv_content := l |}.
Proof. intros. cbn [toy_tcp_view]. by rewrite bool_decide_eq_true_2. Qed.

#[global] Instance toy_laws : TcpIpLaws.
Proof.
  split; cbn -[in_width toy_ip_view toy_tcp_view].
  - intros a b v (l & -> & ? & ?)%toy_ip_Some Ha. split; [by rewrite toy_ip_mk | by destruct l as [|? [|? [|? [|? [|? l]]]]]].
  - intros a b v (l & -> & ? & ?)%toy_ip_Some Ha. split; [by rewrite toy_ip_mk | by destruct l as [|? [|? [|? [|? [|? l]]]]]].
  - intros p b t (a1 & a2 & a3 & a4 & a5 & a6 & -> & ? & ?)%toy_tcp_Some Hp. split; [by rewrite toy_tcp_mk | done].
  - intros p b t (a1 & a2 & a3 & a4 & a5 & a6 & -> & ? & ?)%toy_tcp_Some Hp. split; [by rewrite toy_tcp_mk | done].
  - intros src dst b v t Hv (a1 & a2 & a3 & a4 & a5 & a6 & -> & ? & ?)%toy_tcp_Some.
    apply toy_ip_Some in Hv as (l & [= -> -> -> -> <-] & ? & ?). split_and!.
    + by rewrite toy_ip_mk by done; destruct v.
    + by rewrite toy_tcp_mk by done; destruct t.
    + intros -> ->. apply Z.eqb_refl.
  - intros b v t Hv (a1 & a2 & a3 & a4 & a5 & a6 & -> & ? & ?)%toy_tcp_Some.
    apply toy_ip_Some in Hv as (l & [= -> -> -> -> <-] & ? & ?). split_and!.
    + by rewrite toy_ip_mk by done; destruct v.
    + by rewrite toy_tcp_mk by done; destruct t.
    + done.
    + apply Z.eqb_refl.
  - intros b v t (l & -> & ? & ?)%toy_ip_Some (a1 & a2 & a3 & a4 & a5 & a6 & E & ? & ?)%toy_tcp_Some. done.
Qed.

(** A node 100 that gives access to the addresses 256 to 511. *)
Definition proxy_ctx : GlobalCtx := {| enable_exit_node := false; no_tun := false; ctx_ipv4 := Some {| inet_address := 100; inet_first := 90 |} |}.
Definition proxy_cidrs : CidrSet := update_cidrs [{| pn_cidr := mkNet 8 1; pn_mapped_cidr := None; pn_allow := None |}] cidr_set_new.
Definition proxy_start : TcpProxy := proxy_new proxy_ctx 7 4000 false proxy_cidrs.

Definition proxy_header : PeerManagerHeader :=
  {| from_peer_id := 5; to_peer_id := 7; pm_packet_type := packet_type_u8 PktData; pm_flags := 0; forward_counter := 1;
     reserved := 0; pm_len := 11 |}.

Definition tcp_body (src sport dst dport flags : Z) : bytes := [4; src; dst; IP_TCP; sport; dport; flags; 0; 0; 1; 2].
Definition tcp_packet (src sport dst dport flags : Z) : ZCPacket :=
  mkZC (as_bytes proxy_header ++ tcp_body src sport dst dport flags) DummyTunnel.

Lemma proxy_packet_layout body : laid_out (mkZC (as_bytes proxy_header ++ body) DummyTunnel) [] proxy_header body.
Proof. split; [reflexivity|]. split; [reflexivity|]. vm_compute. intuition congruence. Qed.

Lemma proxy_start_wf : proxy_wf proxy_start.
Proof. split; [vm_compute; intuition congruence|]. split; [vm_compute; intuition congruence|]. intros i [= <-]. vm_compute. intuition congruence. Qed.

(** Peer 50 opens a connection to 260, port 80. *)
#[global] Existing Instance tcp_connector.

Definition after_syn : outcome (option ZCPacket * TcpProxy) := try_handle_peer_packet 1 0 (tcp_packet 50 1000 260 80 TCP_SYN) proxy_start.

Definition syn_taken_as : ZCPacket * TcpProxy :=
  match after_syn with Done (Some q, s) => (q, s) | _ => (tcp_packet 0 0 0 0 0, proxy_start) end.

Lemma after_syn_taken : after_syn = Done (Some syn_taken_as.1, syn_taken_as.2).
Proof. exact (eq_refl after_syn <: after_syn = Done (Some syn_taken_as.1, syn_taken_as.2)). Qed.

Lemma tcp_proxy_transparent_witness :
  after_syn = Done (Some syn_taken_as.1, syn_taken_as.2) /\
    exists r' h' b, try_process_packet_from_nic (tcp_packet 100 4000 50 1000 18) syn_taken_as.2 = Done (true, r') /\
      laid_out r' [] h' b /\ is_no_proxy h' = Done true /\
      looks b 260 50 80 1000 {| tv_source := 4000; tv_destination := 1000; tv_flags := 18; tv_content := [1; 2] |} IP_TCP 4.
Proof.
  split; [exact after_syn_taken|].
  destruct (tcp_proxy_transparent proxy_ctx 7 4000 false proxy_cidrs proxy_start syn_taken_as.2 (tcp_packet 50 1000 260 80 TCP_SYN) syn_taken_as.1 []
    (tcp_body 50 1000 260 80 TCP_SYN) proxy_header
    {| iv_version := 4; iv_source := 50; iv_destination := 260; iv_protocol := IP_TCP |}
    {| tv_source := 1000; tv_destination := 80; tv_flags := TCP_SYN; tv_content := [1; 2] |} 1 0
    {| inet_address := 100; inet_first := 90 |}) as (_ & _ & _ & Hr).
  - exact proxy_start_wf.
  - constructor.
  - apply proxy_packet_layout.
  - reflexivity.
  - reflexivity.
  - reflexivity.
  - reflexivity.
  - reflexivity.
  - intros n [= <-]. discriminate.
  - exact after_syn_taken.
  - apply (Hr syn_taken_as.2 (tcp_packet 100 4000 50 1000 18) [] proxy_header (tcp_body 100 4000 50 1000 18)
      {| iv_version := 4; iv_source := 100; iv_destination := 50; iv_protocol := IP_TCP |}
      {| tv_source := 4000; tv_destination := 1000; tv_flags := 18; tv_content := [1; 2] |}).
    + constructor.
    + vm_compute. reflexivity.
    + apply proxy_packet_layout.
    + reflexivity.
    + reflexivity.
    + repeat split.
    + reflexivity.
    + reflexivity.
Defined.

Definition syn_step : proxy_label := FromPeer (tcp_packet 50 1000 260 80 TCP_SYN) 1 0.

Lemma syn_step_reaches : proxy_reachable proxy_start syn_taken_as.2.
Proof.
  apply (proxy_next _ syn_step proxy_start); [constructor | |].
  - split; [|reflexivity]. exists [], proxy_header, (tcp_body 50 1000 260 80 TCP_SYN). apply proxy_packet_layout.
  - unfold proxy_step, syn_step. fold after_syn. rewrite after_syn_taken. reflexivity.
Qed.

(** Where the accepted connection waits for its destination. *)
Definition syn_accepted : TcpProxy :=
  match accept_connection (V4 50, 1000) syn_taken_as.2 with Done (_, s) => s | Panicked _ => proxy_start end.

Lemma syn_accepted_reached : proxy_reachable proxy_start syn_accepted.
Proof.
  apply (proxy_next _ (Accepted (V4 50, 1000)) syn_taken_as.2); [exact syn_step_reaches | exact I|].
  exact (eq_refl (proxy_step (Accepted (V4 50, 1000)) syn_taken_as.2) <: proxy_step (Accepted (V4 50, 1000)) syn_taken_as.2 = Done syn_accepted).
Qed.

Lemma tcp_proxy_safe_witness :
  (exists s', proxy_step (Connect 1 true) syn_accepted = Done s') /\
  (exists s', proxy_step (CleanSyn (31 * SEC)) syn_accepted = Done s').
Proof.
  destruct (tcp_proxy_safe proxy_ctx 7 4000 false proxy_cidrs _ proxy_start_wf syn_accepted_reached) as (Hd & _).
  split.
  - destruct (Hd (Connect 1 true)) as [?|[[] _]]; [vm_compute; reflexivity | assumption | exact I].
  - destruct (Hd (CleanSyn (31 * SEC))) as [?|[[] _]]; [exact I | assumption | exact I].
Defined.

(** A TCP packet too short for a TCP header, sent by any peer into a proxied
    network, makes the receiving task panic. *)
Definition short_packet : ZCPacket := mkZC (as_bytes proxy_header ++ [4; 50; 260; IP_TCP]) DummyTunnel.

Example short_segment_panics : fst <$> try_handle_peer_packet 1 0 short_packet proxy_start = Panicked UnwrapOnNone.
Proof. vm_compute. reflexivity. Qed.

(** Entries of closed connections stay for a while, and are found before new
    ones: when the peer uses the port again for another destination, the answer
    to its first packet carries the address of the old destination. *)
Definition run_proxy (ls : list proxy_label) (s : TcpProxy) : outcome TcpProxy :=
  foldl (fun r l => s ← r; proxy_step l s) (Done s) ls.

Definition port_reused : outcome TcpProxy :=
  run_proxy [FromPeer (tcp_packet 50 1000 260 80 TCP_SYN) 1 0; Accepted (V4 50, 1000); Connect 1 true; GoOn 1 Copying;
      GoOn 1 ShutSrc; GoOn 1 ShutDst; FromPeer (tcp_packet 50 1000 261 22 TCP_SYN) 2 SEC] proxy_start.

Example port_reuse_wrong_source :
  (s ← port_reused;
   '(taken, q) ← try_process_packet_from_nic (tcp_packet 100 4000 50 1000 18) s;
   b ← payload q;
   Done (taken, ip_view b)) =
  Done (true, Some {| iv_version := 4; iv_source := 260; iv_destination := 50; iv_protocol := IP_TCP |}).
Proof. vm_compute. reflexivity. Qed.
