(* ===== verification/RpcCall.v ===== *)
(** Remote calls: [easytier/src/proto/rpc_impl/client.rs], [server.rs],
    [service_registry.rs], [bidirect.rs], the errors of [proto/error.rs] and
    [peers/peer_rpc.rs].

    A call takes a transaction id, registers itself as in flight, and sends its
    request cut into packets ([RpcPacket]); the packets of requests and
    responses share one transport and are told apart by their type.  The server
    merges the packets of a request by sender and transaction, looks the service
    up in its registry and answers; the client merges the packets of the
    response by the ids of the call and wakes it up.

    A call is two steps, [call_begin] up to the first await and [call_end] from
    the answer on, so that other calls and packets come in between.  The
    channel of a call is the list of messages sent to it.  A service is what it
    answers, with its method names; whether a call timed out, failed to be sent
    or was answered is an argument.  What is counted is returned as a list of
    updates for the [StatsManager].

    The theorems: a call reaches its service and returns what it answered,
    whatever the order of the packets and whatever others arrive between them;
    whatever packets arrive, neither client nor server panics in its receive
    loop and a call is only ever woken up by a response that carries its ids;
    requests of different peers and calls never mix. *)

From stdpp Require Import base numbers list strings gmap sets.
From Stdlib Require Import ZifyBool.
From S2P Require Import Prelude Text PacketDef Compressor StatsManager RpcPacket.
Open Scope Z_scope.

Abbreviation PeerId := Z.

(** ** Errors *)

Inductive Error :=
| ExecutionError (message : text) | DecodeError | EncodeError | InvalidMethodIndex (index : Z) (service : text)
| InvalidServiceKey (service proto : text) | MalformatRpcPacket (message : text) | Timeout | TunnelError | Shutdown.

(** [error_kind] of the message. *)
Inductive ErrorKind :=
| KOtherError (message : text) | KInvalidMethodIndex (service : text) (index : Z) | KInvalidService (service : text)
| KProstDecodeError | KProstEncodeError | KExecuteError (message : text) | KMalformatRpcPacket (message : text)
| KTimeout (message : text).

(** The [Debug] text of a string, of an [anyhow] error with a message, of an
    error and of an error kind, and the texts of errors of the compressor. *)
Class DebugFmt := {
  debug_str : text -> text; debug_anyhow : text -> text; debug_error : Error -> text; debug_kind : option ErrorKind -> text;
  compress_error_text : compress_error -> text }.

Section errors.
Context `{DebugFmt}.

Definition error_to_pb (e : Error) : option ErrorKind :=
  Some match e with
       | ExecutionError m => KExecuteError (debug_anyhow m)
       | DecodeError => KProstDecodeError
       | EncodeError => KProstEncodeError
       | InvalidMethodIndex m s => KInvalidMethodIndex (debug_str s) m
       | InvalidServiceKey s _ => KInvalidService (debug_str s)
       | MalformatRpcPacket m => KMalformatRpcPacket (debug_str m)
       | Timeout => KTimeout (debug_error Timeout)
       | e => KOtherError (debug_error e)
       end.

Definition error_from_pb (e : option ErrorKind) : Error :=
  match e with
  | Some (KExecuteError m) => ExecutionError m
  | Some KProstDecodeError => DecodeError
  | Some KProstEncodeError => DecodeError
  | Some (KInvalidMethodIndex s i) => InvalidMethodIndex (as_u8 i) s
  | Some (KInvalidService s) => InvalidServiceKey s []
  | Some (KMalformatRpcPacket m) => MalformatRpcPacket m
  | Some (KTimeout m) => ExecutionError m
  | Some (KOtherError m) => ExecutionError m
  | None => ExecutionError (txt "unknown error " ++ debug_kind None)
  end.
End errors.

(** ** Services *)

Record ServiceKey := { key_domain_name : text; key_service_name : text; key_proto_name : text }.
#[global] Instance service_key_eq_dec : EqDecision ServiceKey.
Proof. solve_decision. Defined.
#[global] Instance service_key_countable : Countable ServiceKey.
Proof.
  refine (inj_countable' (fun k => (key_domain_name k, key_service_name k, key_proto_name k))
            (fun '(d, s, p) => {| key_domain_name := d; key_service_name := s; key_proto_name := p |}) _).
  by intros [].
Defined.

Definition service_key_from (desc : RpcDescriptor) : ServiceKey :=
  {| key_domain_name := domain_name desc; key_service_name := service_name desc; key_proto_name := proto_name desc |}.

(** A handler: its descriptor, the name of each method, and what a method
    answers with the raw output it leaves in the controller. *)
Record Service := {
  svc_name : text; svc_proto_name : text; svc_method : Z -> option text;
  svc_call : Z -> bytes -> result Error bytes * option bytes }.

Abbreviation ServiceRegistry := (gmap ServiceKey Service).

Definition service_key (h : Service) (domain : text) : ServiceKey :=
  {| key_domain_name := domain; key_service_name := svc_name h; key_proto_name := svc_proto_name h |}.

Definition replace_registry (registry table : ServiceRegistry) : ServiceRegistry := registry.
Definition register (h : Service) (domain : text) (table : ServiceRegistry) : ServiceRegistry :=
  <[service_key h domain := h]> table.
Definition unregister (h : Service) (domain : text) (table : ServiceRegistry) : option unit * ServiceRegistry :=
  ((fun _ => tt) <$> table !! service_key h domain, delete (service_key h domain) table).
Definition unregister_by_domain (domain : text) (table : ServiceRegistry) : ServiceRegistry :=
  retain (fun k _ => negb (bool_decide (key_domain_name k = domain))) table.
Definition unregister_all (table : ServiceRegistry) : ServiceRegistry := ∅.

(** [HandlerExt::call_method] and [get_method_name]. *)
Definition handler_call (h : Service) (index : Z) (input : bytes) : result Error bytes * option bytes :=
  match svc_method h index with
  | Some _ => svc_call h index input
  | None => (Err (InvalidMethodIndex index (svc_name h)), None)
  end.

Definition get_method_name (desc : RpcDescriptor) (table : ServiceRegistry) : option text :=
  entry ← table !! service_key_from desc;
  svc_method entry (as_u8 (method_index desc)).

Definition call_method (desc : RpcDescriptor) (input : bytes) (table : ServiceRegistry)
    : result Error bytes * option bytes :=
  let key := service_key_from desc in
  match table !! key with
  | None => (Err (InvalidServiceKey (key_service_name key) (key_proto_name key)), None)
  | Some entry => handler_call entry (as_u8 (method_index desc)) input
  end.

(** ** Messages *)

Record RpcRequest := { request : bytes; req_timeout_ms : Z }.
Record RpcResponse := { response : bytes; error : option (option ErrorKind); runtime_us : Z }.

(** [prost] for the two messages. *)
Class RpcMessages := {
  encode_request : RpcRequest -> bytes; decode_request : bytes -> option RpcRequest;
  encode_response : RpcResponse -> bytes; decode_response : bytes -> option RpcResponse }.

Class RpcMessagesLaws `{RpcMessages} := {
  decode_encode_request r : - 2 ^ 31 <= req_timeout_ms r < 2 ^ 31 -> decode_request (encode_request r) = Some r;
  decode_encode_response r : in_width 64 (runtime_us r) -> decode_response (encode_response r) = Some r }.

(** [CompressionAlgoPb::try_from], with the default [Invalid]; the accessors
    [algo()] and [accepted_algo()] read a field this way. *)
Definition algo_pb_from (i : Z) : CompressionAlgoPb :=
  if i =? 1 then AlgoPbNone else if i =? 2 then AlgoPbZstd else AlgoPbInvalid.

Definition compression_info_default : RpcCompressionInfo := {| algo := 0; accepted_algo := 0 |}.

(** An update of the statistics: a counter and what is added to it. *)
Abbreviation stat := (MetricName * LabelSet * Z)%type.
Definition as_millis (d : Z) : Z := as_u64 (d / 1000000).

(** [InflightRequestKey]: from, to, transaction. *)
Abbreviation InflightRequestKey := (PeerId * PeerId * Z)%type.

(** ** The server *)

Record Server := { srv_registry : ServiceRegistry; packet_mergers : gmap (PeerId * Z) PacketMerger }.

Definition with_mergers (m : gmap (PeerId * Z) PacketMerger) (s : Server) : Server :=
  {| srv_registry := srv_registry s; packet_mergers := m |}.

Section rpc.
Context `{Prost} `{Zstd} `{RpcMessages} `{DebugFmt} (junk : nat -> Z).

(** The body of the receive loop: the request to handle, if it is complete. *)
Definition server_recv (now : Z) (z : ZCPacket) (s : Server) : outcome (option RpcPacket * Server) :=
  pl ← payload z;
  match rpc_decode pl with
  | None => Done (None, s)
  | Some p =>
      if negb (is_request p) then Done (None, s)
      else
        let key := (from_peer p, transaction_id p) in
        '(r, m) ← feed now p (default (merger_new now) (packet_mergers s !! key));
        Done match r with
             | Ok (Some p) => (Some p, with_mergers (delete key (packet_mergers s)) s)
             | _ => (None, with_mergers (<[key := m]> (packet_mergers s)) s)
             end
  end.

(** The task that forgets requests whose packets stopped coming. *)
Definition server_clean (now : Z) (s : Server) : Server :=
  with_mergers (retain (fun _ m => elapsed_secs now (last_updated m) <? 10) (packet_mergers s)) s.

(** [late] says that the service did not answer in time. *)
Definition handle_rpc_request (packet : RpcPacket) (reg : ServiceRegistry) (late : bool) : outcome (result Error bytes) :=
  let body := match compression_info packet with
              | Some ci => decompress_packet (algo_pb_from (algo ci)) (body packet)
              | None => Ok (body packet)
              end in
  match body with
  | Err e => Done (Err (ExecutionError (compress_error_text e)))
  | Ok body =>
      match decode_request body with
      | None => Done (Err DecodeError)
      | Some rpc_request =>
          desc ← unwrap (descriptor packet);
          Done (if late then Err Timeout
                else match call_method desc (request rpc_request) reg with
                     | (Err e, _) => Err e
                     | (Ok ret, raw_output) => Ok (default ret raw_output)
                     end)
      end
  end.

(** The response with the answer of the service, and its packets' arguments. *)
Definition response_of (r : result Error bytes) (dur : Z) : RpcResponse :=
  {| response := match r with Ok r => r | Err _ => [] end;
     error := match r with Ok _ => None | Err e => Some (error_to_pb e) end;
     runtime_us := as_u64 (dur / 1000) |}.
Definition response_message (packet : RpcPacket) (desc : RpcDescriptor) (compressed : bytes) (a : CompressionAlgoPb)
    : BuildRpcPacketArgs := {|
  arg_from_peer := to_peer packet; arg_to_peer := from_peer packet; rpc_desc := desc;
  arg_transaction_id := transaction_id packet; is_req := false; content := compressed;
  arg_trace_id := trace_id packet;
  arg_compression_info := {| algo := algo_pb_i32 a; accepted_algo := algo_pb_i32 AlgoPbZstd |} |}.

(** [handle_rpc]: [dur] is the time from the receipt to the answer. *)
Definition handle_rpc (packet : RpcPacket) (reg : ServiceRegistry) (late : bool) (dur : Z)
    : outcome (list ZCPacket * list stat) :=
  desc ← unwrap (descriptor packet);
  let method_name := default (txt "<Nil>") (get_method_name desc reg) in
  let labels := foldl (fun s l => with_label_type l s) label_set_new
                  [NetworkName (domain_name desc); SrcPeerId (from_peer packet); DstPeerId (to_peer packet);
                   ServiceName (service_name desc); MethodName method_name] in
  resp_bytes ← handle_rpc_request packet reg late;
  let '(status, metric) := match resp_bytes with
                           | Ok _ => (txt "success", PeerRpcServerTx)
                           | Err _ => (txt "error", PeerRpcErrors)
                           end in
  let stat_labels := with_label_type (Status status) labels in
  let accepted := algo_pb_from (accepted_algo (default compression_info_default (compression_info packet))) in
  '(compressed, a) ← unwrap (ok_value (compress_packet accepted (encode_response (response_of resp_bytes dur))));
  packets ← build_rpc_packet junk (response_message packet desc compressed a);
  Done (packets, [(PeerRpcServerRx, labels, 1); (metric, stat_labels, 1); (PeerRpcDuration, stat_labels, as_millis dur)]).

(** ** The client *)

Record InflightRequest := { rq_channel : list RpcPacket; rq_merger : PacketMerger; rq_start_time : Z }.
Record PeerInfo := { pi_peer_id : PeerId; pi_compression_info : RpcCompressionInfo; pi_last_active : option Z }.

Record Client := { inflight_requests : gmap InflightRequestKey InflightRequest; peer_info : gmap PeerId PeerInfo }.
Definition client_new : Client := {| inflight_requests := ∅; peer_info := ∅ |}.

Definition with_inflight (m : gmap InflightRequestKey InflightRequest) (c : Client) : Client :=
  {| inflight_requests := m; peer_info := peer_info c |}.
Definition with_peer_info (m : gmap PeerId PeerInfo) (c : Client) : Client :=
  {| inflight_requests := inflight_requests c; peer_info := m |}.

(** The task that forgets peers that were silent for two minutes. *)
Definition client_clean (now : Z) (c : Client) : Client :=
  with_peer_info (retain (fun _ v => match pi_last_active v with
                                     | Some t => duration_since now t <? 120 * SEC
                                     | None => true
                                     end) (peer_info c)) c.

(** The body of the receive loop. *)
Definition client_recv (now : Z) (z : ZCPacket) (c : Client) : outcome Client :=
  pl ← payload z;
  match rpc_decode pl with
  | None => Done c
  | Some p =>
      if is_request p then Done c
      else
        let key := (to_peer p, from_peer p, transaction_id p) in
        match inflight_requests c !! key with
        | None => Done c
        | Some r =>
            '(ret, m) ← feed now p (rq_merger r);
            let sent := match ret with Ok (Some p) => [p] | _ => [] end in
            Done (with_inflight (<[key := {| rq_channel := rq_channel r ++ sent; rq_merger := m;
                                             rq_start_time := rq_start_time r |}]> (inflight_requests c)) c)
        end
  end.

(** *** A call *)

(** A stub made by [scoped_client], with the service it is for. *)
Record Stub := {
  st_domain_name : text; st_from_peer_id : PeerId; st_to_peer_id : PeerId; st_service : text; st_proto : text }.

(** The controller and the arguments of a call. *)
Record CallArgs := {
  ca_method : Z; ca_method_name : text; ca_input : bytes; ca_raw_input : option bytes; ca_timeout_ms : Z; ca_trace_id : Z }.

(** [fetch_add] on the [i64] that all clients draw from. *)
Definition as_i64 (z : Z) : Z := (z + 2 ^ 63) mod 2 ^ 64 - 2 ^ 63.
Definition next_tid (tid : Z) : Z := as_i64 (tid + 1).

Definition call_labels (st : Stub) (args : CallArgs) : LabelSet :=
  foldl (fun s l => with_label_type l s) label_set_new
    [NetworkName (st_domain_name st); SrcPeerId (st_from_peer_id st); DstPeerId (st_to_peer_id st);
     ServiceName (st_service st); MethodName (ca_method_name args)].

Definition call_key (st : Stub) (tid : Z) : InflightRequestKey := (st_from_peer_id st, st_to_peer_id st, tid).

Definition call_desc (st : Stub) (args : CallArgs) : RpcDescriptor :=
  {| domain_name := st_domain_name st; proto_name := st_proto st; service_name := st_service st;
     method_index := as_u32 (ca_method args) |}.

Definition call_request (args : CallArgs) : RpcRequest :=
  {| request := default (ca_input args) (ca_raw_input args); req_timeout_ms := ca_timeout_ms args |}.

(** The request message before it is cut, with what the peer accepts. *)
Definition call_message (st : Stub) (tid : Z) (args : CallArgs) (buf : bytes) (a : CompressionAlgoPb) : BuildRpcPacketArgs := {|
  arg_from_peer := st_from_peer_id st; arg_to_peer := st_to_peer_id st; rpc_desc := call_desc st args;
  arg_transaction_id := tid; is_req := true; content := buf; arg_trace_id := ca_trace_id args;
  arg_compression_info := {| algo := algo_pb_i32 a; accepted_algo := algo_pb_i32 AlgoPbZstd |} |}.

Definition accepted_by (peer : PeerId) (c : Client) : CompressionAlgoPb :=
  algo_pb_from (accepted_algo (default compression_info_default (pi_compression_info <$> peer_info c !! peer))).

Definition call_begin (now : Z) (st : Stub) (args : CallArgs) (tid : Z) (c : Client)
    : outcome (list ZCPacket * list stat * Client) :=
  let c := with_inflight (<[call_key st tid := {| rq_channel := []; rq_merger := merger_new now; rq_start_time := now |}]>
                            (inflight_requests c)) c in
  '(buf, a) ← unwrap (ok_value (compress_packet (accepted_by (st_to_peer_id st) c) (encode_request (call_request args))));
  packets ← build_rpc_packet junk (call_message st tid args buf a);
  Done (packets, [(PeerRpcClientTx, call_labels st args, 1)], c).

(** How the wait for the answer ends. *)
Inductive wait_end := Answer | TimedOut | SendFailed.

(** The rest of the call; [None] while there is nothing to read yet. *)
Definition call_end (now : Z) (w : wait_end) (st : Stub) (args : CallArgs) (tid : Z) (c : Client)
    : outcome (option (result Error bytes * list stat * Client)) :=
  let key := call_key st tid in
  let finish c := with_inflight (delete key (inflight_requests c)) c in
  match w with
  | TimedOut => Done (Some (Err Timeout, [], finish c))
  | SendFailed => Done (Some (Err TunnelError, [], finish c))
  | Answer =>
      r ← unwrap (inflight_requests c !! key);
      match rq_channel r with
      | [] => Done None
      | rpc_packet :: _ =>
          let c := match compression_info rpc_packet with
                   | Some ci => with_peer_info (<[st_to_peer_id st := {| pi_peer_id := st_to_peer_id st;
                                  pi_compression_info := ci; pi_last_active := Some now |}]> (peer_info c)) c
                   | None => c
                   end in
          let body := match compression_info rpc_packet with
                      | Some ci => decompress_packet (algo_pb_from (algo ci)) (body rpc_packet)
                      | None => Ok (body rpc_packet)
                      end in
          match body with
          | Err e => Done (Some (Err (ExecutionError (compress_error_text e)), [], finish c))
          | Ok body =>
              _ ← (if transaction_id rpc_packet =? tid then Done tt else Panicked AssertionFailed);
              let elapsed := as_millis (duration_since now (rq_start_time r)) in
              Done (Some match decode_response body with
                         | None => (Err DecodeError, [], finish c)
                         | Some rpc_resp =>
                             match error rpc_resp with
                             | Some err =>
                                 let labels := with_label_type (Status (txt "error"))
                                                 (with_label_type (ErrorType (debug_kind err)) (call_labels st args)) in
                                 (Err (error_from_pb err), [(PeerRpcErrors, labels, 1); (PeerRpcDuration, labels, elapsed)], finish c)
                             | None =>
                                 let labels := with_label_type (Status (txt "success")) (call_labels st args) in
                                 (Ok (response rpc_resp), [(PeerRpcClientRx, labels, 1); (PeerRpcDuration, labels, elapsed)], finish c)
                             end
                         end)
          end
      end
  end.

(** ** Both ends over one transport *)

Record BidirectRpcManager := { rpc_client : Client; rpc_server : Server }.

(** A packet from the transport, by its type; the request to handle, if any. *)
Definition bidirect_recv (now : Z) (o : ZCPacket) (b : BidirectRpcManager) : outcome (option RpcPacket * BidirectRpcManager) :=
  h ← peer_manager_header o;
  match h with
  | None => Done (None, b)
  | Some hdr =>
      if pm_packet_type hdr =? packet_type_u8 PktRpcReq then
        '(r, s) ← server_recv now o (rpc_server b);
        Done (r, {| rpc_client := rpc_client b; rpc_server := s |})
      else if pm_packet_type hdr =? packet_type_u8 PktRpcResp then
        c ← client_recv now o (rpc_client b);
        Done (None, {| rpc_client := c; rpc_server := rpc_server b |})
      else Done (None, b)
  end.

(** [PeerRpcManager::run]: where the transport sends an outgoing packet. *)
Definition outgoing_peer (packet : ZCPacket) : outcome PeerId :=
  h ← peer_manager_header packet;
  hdr ← unwrap h;
  Done (to_peer_id hdr).
End rpc.

(** ** Mergers only ever mix pieces of one call *)

(** Every piece that has arrived satisfies [P]; the others are defaults. *)
Definition merger_of (P : RpcPacket -> Prop) (m : PacketMerger) : Prop :=
  Forall (fun p => total_pieces p <> 0 -> P p) (pieces m).

Lemma merger_of_new P now : merger_of P (merger_new now).
Proof. constructor. Qed.

(** What identifies a call in a packet. *)
Definition ids_of (p : RpcPacket) : PeerId * PeerId * Z * bool := (from_peer p, to_peer p, transaction_id p, is_request p).

(** A message put together from pieces that satisfy [P]. *)
Definition merged_of (P : RpcPacket -> Prop) (q : RpcPacket) : Prop :=
  exists p0 ps, Forall P (p0 :: ps) /\ ids_of q = ids_of p0 /\ body q = concat (body <$> p0 :: ps) /\ compression_info q = compression_info p0.

Lemma feed_merged (P : RpcPacket -> Prop) now p m r m' :
  P p -> merger_of P m -> feed now p m = Done (r, m') ->
  merger_of P m' /\ forall q, r = Ok (Some q) -> merged_of P q.
Proof.
  intros Hp Hm. unfold feed. destruct (_ && _).
  { intros [= <- <-]. split; [done|]. intros q [= <-]. exists p, []. split; [by constructor|]. split; [done|]. simpl. by rewrite app_nil_r. }
  destruct (_ && bool_decide _); [by intros [= <- <-]|]. destruct (_ || _); [by intros [= <- <-]|].
  destruct (_ <=? _); [by intros [= <- <-]|].
  set (ps := resize _ _). assert (Forall (fun p => total_pieces p <> 0 -> P p) ps) as Hps.
  { unfold ps, resize. apply Forall_app. split; [|by apply Forall_replicate].
    apply Forall_take. by destruct (match first_piece m with None => true | Some f => _ end). }
  destruct (bool_decide _); [|done]. cbn [mbind outcome_bind]. intros [= <- <-].
  assert (Forall (fun p => total_pieces p <> 0 -> P p) (<[Z.to_nat (piece_idx p) := p]> ps)) as Hi by (by apply Forall_insert).
  split; [done|]. intros q [= Hq]. unfold try_merge_pieces in Hq. cbn [first_piece pieces] in Hq.
  match type of Hq with match ?x with _ => _ end = _ => destruct x; [|done] end.
  destruct (<[_ := p]> ps) as [|p0 l] eqn:El; [done|].
  destruct (existsb _ _) eqn:Ex; [done|]. injection Hq as <-. exists p0, l. split; [|done].
  apply Forall_forall. intros x Hx. rewrite Forall_forall in Hi. apply (Hi x Hx). intros E0. apply not_true_iff_false in Ex. apply Ex.
  apply existsb_exists. exists x. split; [by apply list_elem_of_In | lia].
Qed.

Lemma feed_of (P : RpcPacket -> Prop) now p m r m' : (forall x y, ids_of x = ids_of y -> P x -> P y) ->
  P p -> merger_of P m -> feed now p m = Done (r, m') ->
  merger_of P m' /\ forall q, r = Ok (Some q) -> P q.
Proof.
  intros HP Hp Hm E. destruct (feed_merged P now p m r m' Hp Hm E) as [Hm' Hq]. split; [done|]. intros q Eq.
  destruct (Hq q Eq) as (p0 & ps & Hps & Hids & _). apply Forall_cons in Hps as [Hp0 _]. by apply (HP p0 q).
Qed.

(** A packet with a header has a payload. *)
Lemma header_payload z h : peer_manager_header z = Done (Some h) -> exists pl, payload z = Done pl.
Proof.
  unfold peer_manager_header, payload. intros E. apply bind_Done in E as (l & Hl & [= E]).
  unfold ref_from_prefix in E. destruct (len l <? Z.of_nat size_of) eqn:Es; [done|].
  pose proof (offsets_gap (packet_type z)) as [H0 Hg]. unfold slice_from, payload_offset, pm_offset in *. rewrite Hg.
  case_bool_decide; [|done]. injection Hl as <-. unfold len in *. rewrite length_drop in Es.
  change (Z.of_nat size_of) with 16 in Es. rewrite bool_decide_eq_true_2 by lia. by eexists.
Qed.

(** ** Calls do not disturb each other *)

(** A message that answers the call with this key. *)
Definition answers (k : InflightRequestKey) (p : RpcPacket) : Prop :=
  (to_peer p, from_peer p, transaction_id p) = k /\ is_request p = false.

Lemma next_as_i64 z : next_tid (as_i64 z) = as_i64 (z + 1).
Proof.
  unfold next_tid, as_i64. f_equal.
  replace ((z + 2 ^ 63) mod 2 ^ 64 - 2 ^ 63 + 1 + 2 ^ 63) with ((z + 2 ^ 63) mod 2 ^ 64 + 1) by lia.
  rewrite Zplus_mod_idemp_l. f_equal. lia.
Qed.

Lemma as_i64_inj x y : Z.abs (x - y) < 2 ^ 64 -> as_i64 x = as_i64 y -> x = y.
Proof.
  unfold as_i64. intros Hd E. pose proof (Z.div_mod (x + 2 ^ 63) (2 ^ 64) ltac:(lia)).
  pose proof (Z.div_mod (y + 2 ^ 63) (2 ^ 64) ltac:(lia)).
  assert ((x + 2 ^ 63) / 2 ^ 64 = (y + 2 ^ 63) / 2 ^ 64) by nia. lia.
Qed.

Section isolation.
Context `{Prost} `{Zstd} `{RpcMessages} `{DebugFmt} (junk : nat -> Z).

(** A client with the shared counter, how often it was drawn from, the calls
    that are under way, and the packets that have arrived. *)
Record rpc_world := mkRpcWorld {
  w_client : Client; w_tid : Z; w_drawn : Z; w_calls : list (Stub * CallArgs * Z); w_got : list ZCPacket }.

Inductive rpc_step : rpc_world -> rpc_world -> Prop :=
| step_begin now st args zs stats c w : w_drawn w + 1 < 2 ^ 64 ->
    call_begin junk now st args (w_tid w) (w_client w) = Done (zs, stats, c) ->
    rpc_step w (mkRpcWorld c (next_tid (w_tid w)) (w_drawn w + 1) ((st, args, w_tid w) :: w_calls w) (w_got w))
| step_draw w : w_drawn w + 1 < 2 ^ 64 ->                              (** another client's call *)
    rpc_step w (mkRpcWorld (w_client w) (next_tid (w_tid w)) (w_drawn w + 1) (w_calls w) (w_got w))
| step_recv now z c w : client_recv now z (w_client w) = Done c ->
    rpc_step w (mkRpcWorld c (w_tid w) (w_drawn w) (w_calls w) (z :: w_got w))
| step_clean now w : rpc_step w (mkRpcWorld (client_clean now (w_client w)) (w_tid w) (w_drawn w) (w_calls w) (w_got w))
| step_end now e st args tid r stats c before after w : w_calls w = before ++ (st, args, tid) :: after ->
    call_end now e st args tid (w_client w) = Done (Some (r, stats, c)) ->
    rpc_step w (mkRpcWorld c (w_tid w) (w_drawn w) (before ++ after) (w_got w)).

Inductive rpc_reachable : rpc_world -> Prop :=
| rpc_start tid : rpc_reachable (mkRpcWorld client_new (as_i64 tid) 0 [] [])
| rpc_next w w' : rpc_reachable w -> rpc_step w w' -> rpc_reachable w'.

Definition key_of (call : Stub * CallArgs * Z) : InflightRequestKey := call_key call.1.1 call.2.

(** A piece of an answer that one of the packets carried. *)
Definition received (got : list ZCPacket) (k : InflightRequestKey) (p : RpcPacket) : Prop :=
  answers k p /\ exists z pl, z ∈ got /\ payload z = Done pl /\ rpc_decode pl = Some p.

Definition entry_answers (got : list ZCPacket) (k : InflightRequestKey) (r : InflightRequest) : Prop :=
  Forall (merged_of (received got k)) (rq_channel r) /\ merger_of (received got k) (rq_merger r).

Lemma received_mono got z k p : received got k p -> received (z :: got) k p.
Proof. intros (Ha & z' & pl & Hin & Hrest). split; [done|]. exists z', pl. split; [by right | done]. Qed.

Lemma entry_answers_mono got z k r : entry_answers got k r -> entry_answers (z :: got) k r.
Proof.
  intros [Hc Hm]. split.
  - eapply Forall_impl; [exact Hc|]. intros q (p0 & ps & Hps & Hrest). exists p0, ps. split; [|done].
    eapply Forall_impl; [exact Hps|]. intros. by apply received_mono.
  - eapply Forall_impl; [exact Hm|]. intros p Hp Hn. by apply received_mono, Hp.
Qed.

Lemma merged_answers got k q : merged_of (received got k) q -> answers k q.
Proof.
  intros (p0 & ps & Hps & Hids & _). apply Forall_cons in Hps as [[Ha _] _]. revert Ha Hids. unfold answers, ids_of.
  intros [Hk Hr] [= -> -> -> ->]. done.
Qed.

Record rpc_ok_world (w : rpc_world) : Prop := {
  rk_tids : exists start, w_tid w = as_i64 (start + w_drawn w) /\ 0 <= w_drawn w < 2 ^ 64 /\
    (forall call, call ∈ w_calls w -> exists i, 0 <= i < w_drawn w /\ call.2 = as_i64 (start + i)) /\ NoDup (w_calls w).*2;
  rk_keys : forall k, is_Some (inflight_requests (w_client w) !! k) <-> k ∈ key_of <$> w_calls w;
  rk_entries : forall k r, inflight_requests (w_client w) !! k = Some r -> entry_answers (w_got w) k r
}.

Lemma client_recv_ok got now z c c' : client_recv now z c = Done c' ->
  (forall k, is_Some (inflight_requests c' !! k) <-> is_Some (inflight_requests c !! k)) /\
  ((forall k r, inflight_requests c !! k = Some r -> entry_answers got k r) ->
   forall k r, inflight_requests c' !! k = Some r -> entry_answers (z :: got) k r).
Proof.
  unfold client_recv. intros E. apply bind_Done in E as (pl & Hpl & E).
  assert (forall k r, entry_answers got k r -> entry_answers (z :: got) k r) as Hmono by (intros; by apply entry_answers_mono).
  destruct (rpc_decode pl) as [p|] eqn:Edec; [|injection E as <-; split; [done | eauto]].
  destruct (is_request p) eqn:Ereq; [injection E as <-; split; [done | eauto]|].
  set (k0 := (to_peer p, from_peer p, transaction_id p)) in *.
  destruct (inflight_requests c !! k0) as [r0|] eqn:Er; [|injection E as <-; split; [done | eauto]].
  apply bind_Done in E as ([ret m] & Ef & [= <-]). simpl. split.
  - intros k. rewrite lookup_insert. case_decide; [subst k; rewrite Er; split; by eexists | done].
  - intros Hall k r. rewrite lookup_insert. case_decide as Hk; [subst k; intros [= <-] | eauto].
    destruct (Hmono _ _ (Hall _ _ Er)) as [Hch Hm].
    destruct (feed_merged (received (z :: got) k0) now p (rq_merger r0) ret m) as [Hm' Hq];
      [split; [done|]; exists z, pl; by split; [left|] | done | done|].
    split; [|done]. simpl. apply Forall_app. split; [done|]. destruct ret as [[q|]|]; constructor; [by apply Hq | constructor].
Qed.

Lemma call_end_keys now e st args tid c r stats c' : call_end now e st args tid c = Done (Some (r, stats, c')) ->
  inflight_requests c' = delete (call_key st tid) (inflight_requests c).
Proof.
  unfold call_end. destruct e; [|by intros [= _ _ <-]..]. intros E. apply bind_Done in E as (r0 & _ & E).
  destruct (rq_channel r0) as [|p l]; [done|]. destruct (match compression_info p with Some ci => _ | None => Ok _ end).
  - apply bind_Done in E as (u & _ & [= E]). destruct (compression_info p), (decode_response _) as [[? [] ?]|]; by injection E as _ _ <-.
  - destruct (compression_info p); by injection E as _ _ <-.
Qed.

Lemma rpc_step_ok w w' : rpc_ok_world w -> rpc_step w w' -> rpc_ok_world w'.
Proof.
  intros [(start & Ht & Hd & Hc & Hnd) Hk He] Hs.
  destruct Hs as [now st args zs stats c w Hlt E|w Hlt|now z c w E|now w|now e st args tid r stats c before after w Ew E]; simpl in *.
  - assert (forall call, call ∈ w_calls w -> call.2 <> w_tid w) as Hfresh.
    { intros call Hin. destruct (Hc call Hin) as (i & Hi & ->). rewrite Ht. intros Heq. apply as_i64_inj in Heq; lia. }
    unfold call_begin in E. apply bind_Done in E as ([buf a] & _ & E). apply bind_Done in E as (ps & _ & [= _ _ <-]). split; simpl.
    + exists start. split_and!; [rewrite Ht, next_as_i64; f_equal; lia | lia | lia | |].
      * intros call [->|Hin]%elem_of_cons; [exists (w_drawn w); by split; [lia|]|].
        destruct (Hc call Hin) as (i & Hi & ?). exists i. split; [lia|done].
      * constructor; [|done]. intros Hin. apply list_elem_of_fmap in Hin as (call & Heq & Hin). by apply (Hfresh call Hin).
    + intros k. rewrite lookup_insert. case_decide as Hke.
      * subst k. split; [intros _; by left | by eexists].
      * rewrite Hk. rewrite elem_of_cons. split; [by right|]. intros [->|]; [by destruct Hke | done].
    + intros k r'. rewrite lookup_insert. case_decide; [intros [= <-] | apply He]. split; [constructor | apply merger_of_new].
  - split; simpl; [|done|done]. exists start. split_and!; [rewrite Ht, next_as_i64; f_equal; lia | lia | lia | | done].
    intros call Hin. destruct (Hc call Hin) as (i & Hi & ?). exists i. split; [lia|done].
  - destruct (client_recv_ok (w_got w) _ _ _ _ E) as [Hdom Hent]. split; simpl; [by exists start | | by apply Hent].
    intros k. by rewrite Hdom.
  - split; simpl; [by exists start | done | done].
  - apply call_end_keys in E. rewrite Ew in Hc, Hnd, Hk. rewrite fmap_app, fmap_cons in Hnd.
    assert (forall call, call ∈ before ++ after -> call.2 <> tid) as Hother.
    { intros call Hin Heq. apply NoDup_app in Hnd as (_ & Hsep & Hnd2). apply NoDup_cons in Hnd2 as [Hn2 _].
      apply elem_of_app in Hin as [Hin|Hin].
      - apply (Hsep tid); [rewrite <- Heq; by apply list_elem_of_fmap_2 | by left].
      - apply Hn2. simpl. rewrite <- Heq. by apply list_elem_of_fmap_2. }
    split; simpl; rewrite ?E.
    + exists start. split_and!; [done|lia|lia| |].
      * intros call Hin. apply Hc. set_solver.
      * rewrite fmap_app. apply NoDup_app in Hnd as (H1' & Hsep & H2'). apply NoDup_cons in H2' as [_ H2'].
        apply NoDup_app. split_and!; [done | | done]. intros x Hx. specialize (Hsep x Hx). set_solver.
    + intros k. rewrite lookup_delete. case_decide as Hke.
      * subst k. split; [by intros []|]. intros Hin. apply list_elem_of_fmap in Hin as (call & Heq & Hin).
        exfalso. apply (Hother call Hin). unfold key_of, call_key in Heq. congruence.
      * rewrite Hk, !fmap_app, fmap_cons. set_solver.
    + intros k r'. rewrite lookup_delete. case_decide; [done | apply He].
Qed.

Lemma rpc_reachable_ok w : rpc_reachable w -> rpc_ok_world w.
Proof.
  induction 1 as [tid|w w' _ IH Hs]; [|by eapply rpc_step_ok]. split; simpl.
  - exists tid. rewrite Z.add_0_r. split_and!; [done|lia|lia| by intros ? ?%not_elem_of_nil | constructor].
  - intros k. rewrite lookup_empty. split; [by intros [] | by intros ?%not_elem_of_nil].
  - intros k r. by rewrite lookup_empty.
Qed.

Lemma client_recv_total now z c pl : payload z = Done pl -> exists c', client_recv now z c = Done c'.
Proof.
  intros Hp. unfold client_recv. rewrite Hp. cbn [mbind outcome_bind].
  destruct (rpc_decode pl) as [p|]; [|by eexists]. destruct (is_request p); [by eexists|].
  destruct (inflight_requests c !! _) as [r|]; [|by eexists].
  destruct (feed_never_panics now p (rq_merger r)) as (ret & m & ->). by eexists.
Qed.

Lemma server_recv_total now z s pl : payload z = Done pl -> exists r, server_recv now z s = Done r.
Proof.
  intros Hp. unfold server_recv. rewrite Hp. cbn [mbind outcome_bind].
  destruct (rpc_decode pl) as [p|]; [|by eexists]. destruct (is_request p); [|by eexists]. cbn [negb].
  destruct (feed_never_panics now p (default (merger_new now) (packet_mergers s !! (from_peer p, transaction_id p))))
    as (ret & m & ->). by eexists.
Qed.

(** What a call returns that gets a value: the response of a message in its
    channel. *)
Lemma call_end_value now e st args tid c v stats c' : call_end now e st args tid c = Done (Some (Ok v, stats, c')) ->
  exists r p l b resp, inflight_requests c !! call_key st tid = Some r /\ rq_channel r = p :: l /\
    match compression_info p with Some ci => decompress_packet (algo_pb_from (algo ci)) (body p) = Ok b | None => b = body p end /\
    decode_response b = Some resp /\ error resp = None /\ v = response resp.
Proof.
  unfold call_end. destruct e; [|done..]. intros E. apply bind_Done in E as (r & Er & E).
  destruct (inflight_requests c !! call_key st tid) as [r'|] eqn:Ek; [|done]. injection Er as ->.
  destruct (rq_channel r) as [|p l] eqn:Ec; [done|]. exists r, p, l.
  destruct (compression_info p) as [ci|]; [destruct (decompress_packet (algo_pb_from (algo ci)) (body p)) as [b|] eqn:Eb; [|done] | set (b := body p) in *];
    apply bind_Done in E as (u & _ & E); exists b; destruct (decode_response b) as [resp|] eqn:Ed; try done; exists resp;
    (destruct (error resp) as [err|] eqn:Eerr; [done|]); injection E as <- _ _; done.
Qed.

(** C21.  Whatever packets arrive, and however calls, answers, timeouts and the
    calls of other clients interleave, as long as fewer than 2^64 calls were
    made: exactly the calls under way are registered; a call reads only messages
    put together from pieces that packets have carried, that carry its own ids
    and are no requests, so its assertion never fails; a call that returns a
    value has decoded it from such pieces, decompressed as the first one says;
    and no packet with a header makes the receive loops panic. *)
Theorem rpc_calls_isolated (w : rpc_world) (Hw : rpc_reachable w) :
  (forall k, is_Some (inflight_requests (w_client w) !! k) <-> k ∈ key_of <$> w_calls w) /\
  (forall st args tid, (st, args, tid) ∈ w_calls w ->
     (exists r, inflight_requests (w_client w) !! call_key st tid = Some r /\
        Forall (merged_of (received (w_got w) (call_key st tid))) (rq_channel r)) /\
     (forall now e, exists o, call_end now e st args tid (w_client w) = Done o) /\
     (forall now e v stats c, call_end now e st args tid (w_client w) = Done (Some (Ok v, stats, c)) ->
        exists p0 ps b resp, Forall (received (w_got w) (call_key st tid)) (p0 :: ps) /\
          match compression_info p0 with
          | Some ci => decompress_packet (algo_pb_from (algo ci)) (concat (body <$> p0 :: ps)) = Ok b
          | None => b = concat (body <$> p0 :: ps)
          end /\ decode_response b = Some resp /\ error resp = None /\ v = response resp)) /\
  forall now z h s, peer_manager_header z = Done h ->
    exists o, bidirect_recv now z {| rpc_client := w_client w; rpc_server := s |} = Done o.
Proof.
  destruct (rpc_reachable_ok w Hw) as [_ Hk He]. split; [done|]. split.
  - intros st args tid Hin. assert (call_key st tid ∈ key_of <$> w_calls w) as Hik by (by apply (list_elem_of_fmap_2 key_of) in Hin).
    apply Hk in Hik as [r Hr]. destruct (He _ _ Hr) as [Hch _]. split; [by exists r|]. split.
    + intros now e. unfold call_end.
      destruct e; [|by eexists..]. rewrite Hr. cbn [unwrap mbind outcome_bind]. destruct (rq_channel r) as [|p l]; [by eexists|].
      apply Forall_cons in Hch as [Hp _]. apply merged_answers in Hp as [[= _ _ Htid] _].
      destruct (match compression_info p with Some ci => _ | None => Ok _ end); [|by eexists].
      rewrite Htid, Z.eqb_refl. by eexists.
    + intros now e v stats c E. destruct (call_end_value _ _ _ _ _ _ _ _ _ E) as (r' & p & l & b & resp & Hr' & Hc & Hb & Hd).
      rewrite Hr in Hr'. injection Hr' as <-. rewrite Hc in Hch. apply Forall_cons in Hch as [(p0 & ps & Hps & _ & Hbody & Hci) _].
      exists p0, ps, b, resp. split; [done|]. split; [by rewrite <- Hci, <- Hbody | done].
  - intros now z h s Hz. unfold bidirect_recv. rewrite Hz. cbn [mbind outcome_bind]. destruct h as [h|]; [|by eexists].
    destruct (header_payload _ _ Hz) as [pl Hpl]. destruct (_ =? _).
    { cbn [rpc_server]. destruct (server_recv_total now z s pl Hpl) as [[r s'] ->]. by eexists. }
    destruct (_ =? _); [|by eexists]. cbn [rpc_client]. destruct (client_recv_total now z (w_client w) pl Hpl) as [c' ->]. by eexists.
Qed.
End isolation.

(** ** A call returns what its service answered *)

Section returns.
Context `{ProstLaws} `{Zstd} `{RpcMessagesLaws} `{DebugFmt} (junk : nat -> Z) (Hj : forall i, is_byte (junk i)).

(** Packets from the transport, with their times; the requests to handle. *)
Fixpoint bidirect_run (l : list (Z * ZCPacket)) (b : BidirectRpcManager) : outcome (list RpcPacket * BidirectRpcManager) :=
  match l with
  | [] => Done ([], b)
  | (now, z) :: l =>
      '(r, b) ← bidirect_recv now z b;
      '(rs, b) ← bidirect_run l b;
      Done (option_list r ++ rs, b)
  end.

(** The piece of an RPC message that a packet of type [ty] carries. *)
Definition rpc_view (ty : PacketType) (z : ZCPacket) : option RpcPacket :=
  match peer_manager_header z, payload z with
  | Done (Some h), Done pl => if pm_packet_type h =? packet_type_u8 ty then rpc_decode pl else None
  | _, _ => None
  end.

Definition request_view (key : PeerId * Z) (z : ZCPacket) : option RpcPacket :=
  match rpc_view PktRpcReq z with
  | Some p => if is_request p && bool_decide ((from_peer p, transaction_id p) = key) then Some p else None
  | None => None
  end.

Definition response_view (key : InflightRequestKey) (z : ZCPacket) : option RpcPacket :=
  match rpc_view PktRpcResp z with
  | Some p => if negb (is_request p) && bool_decide ((to_peer p, from_peer p, transaction_id p) = key) then Some p else None
  | None => None
  end.

Definition headed (z : ZCPacket) : Prop := exists h, peer_manager_header z = Done h.

(** The mergers of a server hold pieces of their own key; the empty table does,
    and every packet keeps it so. *)
Definition of_key (key : PeerId * Z) (p : RpcPacket) : Prop := (from_peer p, transaction_id p) = key.
Definition server_ok (s : Server) : Prop :=
  forall key m, packet_mergers s !! key = Some m -> merger_of (of_key key) m.

#[local] Instance of_key_dec key p : Decision (of_key key p).
Proof. unfold of_key. apply _. Defined.

Lemma of_key_ids key x y : ids_of x = ids_of y -> of_key key x -> of_key key y.
Proof. unfold ids_of, of_key. by intros [= -> _ -> _]. Qed.

(** One packet, as the request with [key] sees it. *)
Lemma recv_request now z b key : headed z -> server_ok (rpc_server b) ->
  exists r b', bidirect_recv now z b = Done (r, b') /\ srv_registry (rpc_server b') = srv_registry (rpc_server b) /\
  server_ok (rpc_server b') /\
  match request_view key z with
  | Some p => forall x m, feed now p (default (merger_new now) (packet_mergers (rpc_server b) !! key)) = Done (x, m) ->
      match x with
      | Ok (Some q) => r = Some q /\ packet_mergers (rpc_server b') !! key = None
      | _ => r = None /\ packet_mergers (rpc_server b') !! key = Some m
      end
  | None => packet_mergers (rpc_server b') !! key = packet_mergers (rpc_server b) !! key /\
      forall q, r = Some q -> ~ of_key key q
  end.
Proof.
  intros [h Hz] Hok. unfold bidirect_recv, request_view, rpc_view. rewrite Hz. cbn [mbind outcome_bind].
  destruct h as [h|]; [|by eexists _, b]. destruct (header_payload _ _ Hz) as [pl Hpl]. rewrite Hpl.
  destruct (pm_packet_type h =? packet_type_u8 PktRpcReq).
  2:{ destruct (_ =? _); [|by eexists _, b]. destruct (client_recv_total now z (rpc_client b) pl Hpl) as [c' ->].
      by eexists _, {| rpc_client := c'; rpc_server := rpc_server b |}. }
  unfold server_recv. rewrite Hpl. cbn [mbind outcome_bind].
  destruct (rpc_decode pl) as [p|]; [|by eexists _, {| rpc_client := rpc_client b; rpc_server := rpc_server b |}].
  destruct (is_request p); cbn [negb andb]; [|by eexists _, {| rpc_client := rpc_client b; rpc_server := rpc_server b |}].
  set (k0 := (from_peer p, transaction_id p)). set (m0 := default (merger_new now) (packet_mergers (rpc_server b) !! k0)).
  destruct (feed_never_panics now p m0) as (x & m & Ef). rewrite Ef. cbn [mbind outcome_bind].
  assert (merger_of (of_key k0) m0) as Hm0.
  { unfold m0. destruct (packet_mergers _ !! k0) as [m1|] eqn:E1; simpl; [by apply Hok | apply merger_of_new]. }
  destruct (feed_of (of_key k0) now p m0 x m (of_key_ids k0)) as [Hm Hq]; [done..|].
  assert (forall s', s' = (match x with Ok (Some _) => delete k0 | _ => <[k0 := m]> end) (packet_mergers (rpc_server b)) ->
    server_ok (with_mergers s' (rpc_server b)) /\
    (key <> k0 -> s' !! key = packet_mergers (rpc_server b) !! key) /\
    s' !! k0 = match x with Ok (Some _) => None | _ => Some m end) as Hnext.
  { intros s' ->. split_and!.
    - intros k m1. destruct x as [[q|]|]; simpl; rewrite ?lookup_delete, ?lookup_insert; case_decide; try done;
        try apply Hok; intros [= <-]; by subst k.
    - intros Hne. destruct x as [[q|]|]; by rewrite ?lookup_delete_ne, ?lookup_insert_ne.
    - destruct x as [[q|]|]; by rewrite ?lookup_delete_eq, ?lookup_insert_eq. }
  destruct (Hnext _ eq_refl) as (Hs & Hother & Hmine). clear Hnext.
  exists (match x with Ok (Some q) => Some q | _ => None end), {| rpc_client := rpc_client b; rpc_server := with_mergers
    ((match x with Ok (Some _) => delete k0 | _ => <[k0 := m]> end) (packet_mergers (rpc_server b))) (rpc_server b) |}.
  split; [by destruct x as [[q|]|]|].
  split; [done|]. split; [exact Hs|]. case_bool_decide as Hk.
  - rewrite <- Hk. intros x' m' Ef'. fold m0 in Ef'. rewrite Ef in Ef'. injection Ef' as <- <-. by destruct x as [[q|]|].
  - split; [by apply Hother|]. intros q Hqq Hkk. destruct x as [[q'|]|]; try done. injection Hqq as <-.
    specialize (Hq _ eq_refl). unfold of_key in *. congruence.
Qed.

(** Likewise, as the call with [key] sees it. *)
Lemma recv_response now z b key : headed z ->
  exists r b', bidirect_recv now z b = Done (r, b') /\
  match response_view key z, inflight_requests (rpc_client b) !! key with
  | Some p, Some rq => forall x m, feed now p (rq_merger rq) = Done (x, m) ->
      inflight_requests (rpc_client b') !! key =
        Some {| rq_channel := rq_channel rq ++ match x with Ok (Some q) => [q] | _ => [] end; rq_merger := m;
                rq_start_time := rq_start_time rq |}
  | _, _ => inflight_requests (rpc_client b') !! key = inflight_requests (rpc_client b) !! key
  end.
Proof.
  intros [h Hz]. unfold bidirect_recv, response_view, rpc_view. rewrite Hz. cbn [mbind outcome_bind].
  destruct h as [h|]; [|by eexists _, b]. destruct (header_payload _ _ Hz) as [pl Hpl]. rewrite Hpl.
  destruct (pm_packet_type h =? packet_type_u8 PktRpcReq) eqn:E1.
  { destruct (server_recv_total now z (rpc_server b) pl Hpl) as [[r s'] ->]. cbn [mbind outcome_bind].
    exists r, {| rpc_client := rpc_client b; rpc_server := s' |}. split; [done|].
    replace (pm_packet_type h =? packet_type_u8 PktRpcResp) with false; [done|].
    symmetry. apply Z.eqb_neq. apply Z.eqb_eq in E1. by rewrite E1. }
  destruct (pm_packet_type h =? packet_type_u8 PktRpcResp); [|by eexists _, b].
  unfold client_recv. rewrite Hpl. cbn [mbind outcome_bind].
  destruct (rpc_decode pl) as [p|]; [|by eexists _, {| rpc_client := rpc_client b; rpc_server := rpc_server b |}].
  destruct (is_request p); cbn [negb andb]; [by eexists _, {| rpc_client := rpc_client b; rpc_server := rpc_server b |}|].
  set (k0 := (to_peer p, from_peer p, transaction_id p)).
  destruct (inflight_requests (rpc_client b) !! k0) as [rq|] eqn:Ek.
  2:{ eexists _, {| rpc_client := rpc_client b; rpc_server := rpc_server b |}. split; [done|].
      case_bool_decide as Hk; [|done]. by rewrite <- Hk, Ek. }
  destruct (feed_never_panics now p (rq_merger rq)) as (x & m & Ef). rewrite Ef. cbn [mbind outcome_bind].
  do 2 eexists. split; [done|]. simpl. case_bool_decide as Hk.
  - rewrite <- Hk, Ek. intros x' m' Ef'. rewrite Ef in Ef'. injection Ef' as <- <-. by rewrite lookup_insert_eq.
  - by rewrite lookup_insert_ne.
Qed.

(** Packets of others hand over nothing of ours. *)
Lemma request_absent key : forall l b, Forall (fun x => headed x.2) l -> server_ok (rpc_server b) ->
  omap (request_view key) l.*2 = [] ->
  exists rs b', bidirect_run l b = Done (rs, b') /\ srv_registry (rpc_server b') = srv_registry (rpc_server b) /\
    base.filter (of_key key) rs = [].
Proof.
  induction l as [|[now z] l IH]; intros b Hh Hok Hv; [by exists [], b|].
  apply Forall_cons in Hh as [Hz Hh]. destruct (recv_request now z b key Hz Hok) as (r & b1 & E & Hreg & Hok1 & Hr).
  cbn in Hv. destruct (request_view key z); [done|]. destruct Hr as [_ Hr].
  destruct (IH b1 Hh Hok1 Hv) as (rs & b2 & E2 & Hreg2 & Hf). exists (option_list r ++ rs), b2. cbn [bidirect_run].
  rewrite E. cbn [mbind outcome_bind]. rewrite E2. cbn [mbind outcome_bind]. split; [done|]. split; [congruence|].
  rewrite filter_app, Hf, app_nil_r. destruct r as [q|]; [|done]. simpl. by rewrite filter_cons_False by (by apply Hr).
Qed.

(** All packets of a message among others: it is handed over once. *)
Lemma request_arrives args key : message_ok args -> key = (arg_from_peer args, arg_transaction_id args) -> forall l gs hs b,
  Forall (fun x => headed x.2) l -> server_ok (rpc_server b) ->
  omap (request_view key) l.*2 ≡ₚ hs -> gs ++ hs ≡ₚ message_pieces args -> hs <> [] ->
  match packet_mergers (rpc_server b) !! key with Some m => holds args gs m | None => gs = [] end ->
  exists rs b', bidirect_run l b = Done (rs, b') /\ srv_registry (rpc_server b') = srv_registry (rpc_server b) /\
    base.filter (of_key key) rs = [message_whole args].
Proof.
  intros Hmo Hkey. induction l as [|[now z] l IH]; intros gs hs b Hh Hok Hv Hp Hne Hm.
  { by apply Permutation_nil_l in Hv. }
  apply Forall_cons in Hh as [Hz Hh]. destruct (recv_request now z b key Hz Hok) as (r & b1 & E & Hreg & Hok1 & Hr).
  cbn in Hv. destruct (request_view key z) as [p|].
  - rewrite <- Hv in Hp.
    destruct (feed_message args gs (omap (request_view key) l.*2) p (default (merger_new now) (packet_mergers (rpc_server b) !! key)) now Hmo Hp)
      as (m' & Ef & Hm').
    { destruct (packet_mergers _ !! key); [done|]. by subst gs. }
    specialize (Hr _ _ Ef). cbn [bidirect_run]. rewrite E. cbn [mbind outcome_bind]. case_decide as Hlast.
    + destruct Hr as [-> _]. destruct (request_absent key l b1 Hh Hok1 Hlast) as (rs & b2 & E2 & Hreg2 & Hf).
      exists (message_whole args :: rs), b2. rewrite E2. split; [done|]. split; [congruence|].
      rewrite filter_cons_True, Hf; [done|]. unfold of_key. destruct (message_whole_ids args) as (-> & _ & -> & _). by rewrite Hkey.
    + destruct Hr as [-> Hm1]. destruct (IH (gs ++ [p]) (omap (request_view key) l.*2) b1) as (rs & b2 & E2 & Hreg2 & Hf); try done.
      * by rewrite <- app_assoc.
      * rewrite Hm1. by apply Hm'.
      * exists rs, b2. rewrite E2. split; [done|]. split; [congruence|done].
  - destruct Hr as [Hsame Hr]. destruct (IH gs hs b1) as (rs & b2 & E2 & Hreg2 & Hf); try done.
    { by rewrite Hsame. }
    exists (option_list r ++ rs), b2. cbn [bidirect_run]. rewrite E. cbn [mbind outcome_bind]. rewrite E2. split; [done|].
    split; [congruence|]. rewrite filter_app, Hf. destruct r as [q|]; [|done]. simpl. by rewrite filter_cons_False by (by apply Hr).
Qed.

(** Likewise for a response and the call that waits for it. *)
Lemma response_arrives args key : message_ok args ->
  key = (arg_to_peer args, arg_from_peer args, arg_transaction_id args) -> forall l gs hs b rq,
  Forall (fun x => headed x.2) l -> omap (response_view key) l.*2 ≡ₚ hs -> gs ++ hs ≡ₚ message_pieces args ->
  inflight_requests (rpc_client b) !! key = Some rq ->
  (hs = [] -> rq_channel rq = [message_whole args]) ->
  (hs <> [] -> rq_channel rq = [] /\ holds args gs (rq_merger rq)) ->
  exists rs b' rq', bidirect_run l b = Done (rs, b') /\ inflight_requests (rpc_client b') !! key = Some rq' /\
    rq_channel rq' = [message_whole args] /\ rq_start_time rq' = rq_start_time rq.
Proof.
  intros Hmo Hkey. induction l as [|[now z] l IH]; intros gs hs b rq Hh Hv Hp Hk Hdone Hmore.
  { apply Permutation_nil_l in Hv. exists [], b, rq. by rewrite Hdone. }
  apply Forall_cons in Hh as [Hz Hh]. destruct (recv_response now z b key Hz) as (r & b1 & E & Hr).
  cbn in Hv. rewrite Hk in Hr. cbn [bidirect_run]. rewrite E. cbn [mbind outcome_bind]. destruct (response_view key z) as [p|].
  - assert (hs <> []) as Hne by (intros ->; by apply Permutation_nil_r in Hv).
    destruct (Hmore Hne) as [Hch Hm]. rewrite <- Hv in Hp.
    destruct (feed_message args gs (omap (response_view key) l.*2) p (rq_merger rq) now Hmo Hp Hm) as (m' & Ef & Hm').
    specialize (Hr _ _ Ef). eapply (IH (gs ++ [p]) (omap (response_view key) l.*2) b1) in Hr; try done.
    + destruct Hr as (rs & b2 & rq' & E2 & H2'). exists (option_list r ++ rs), b2, rq'. by rewrite E2.
    + by rewrite <- app_assoc.
    + intros Hl. simpl. by rewrite Hch, decide_True.
    + intros Hl. simpl. rewrite Hch, decide_False by done. split; [done | by apply Hm'].
  - destruct (IH gs hs b1 rq) as (rs & b2 & rq' & E2 & H2'); try done.
    exists (option_list r ++ rs), b2, rq'. by rewrite E2.
Qed.

(** What the packets of a message are for the other end. *)
Lemma packets_views args zs : Forall2 (carries_piece args) (message_pieces args) zs ->
  Forall (fun p => rpc_decode (rpc_encode p) = Some p) (message_pieces args) ->
  Forall headed zs /\
  (is_req args = true -> omap (request_view (arg_from_peer args, arg_transaction_id args)) zs = message_pieces args) /\
  (is_req args = false ->
   omap (response_view (arg_to_peer args, arg_from_peer args, arg_transaction_id args)) zs = message_pieces args).
Proof.
  intros Hz Hd. assert (Forall (fun p => from_peer p = arg_from_peer args /\ to_peer p = arg_to_peer args /\
    transaction_id p = arg_transaction_id args /\ is_request p = is_req args) (message_pieces args)) as Hids.
  { apply Forall_forall, message_pieces_ids. }
  induction Hz as [|p z ps zs [Hpl (h & Hh & _ & _ & Hty)] Hz IH]; [done|].
  apply Forall_cons in Hd as [Hdp Hd]. apply Forall_cons in Hids as [(Hf & Ht & Hx & Hr) Hids].
  destruct (IH Hd Hids) as (I1 & I2 & I3). split_and!.
  - constructor; [by eexists | done].
  - intros Hq. assert (request_view (arg_from_peer args, arg_transaction_id args) z = Some p) as Hv.
    { unfold request_view, rpc_view. rewrite Hh, Hpl, Hty. unfold rpc_packet_type.
      rewrite Hq, Z.eqb_refl, Hdp, Hr, Hq, Hf, Hx. cbn [andb]. by rewrite bool_decide_eq_true_2. }
    cbn. rewrite Hv. f_equal. by apply I2.
  - intros Hq. assert (response_view (arg_to_peer args, arg_from_peer args, arg_transaction_id args) z = Some p) as Hv.
    { unfold response_view, rpc_view. rewrite Hh, Hpl, Hty. unfold rpc_packet_type.
      rewrite Hq, Z.eqb_refl, Hdp, Hr, Hq, Hf, Hx, Ht. cbn [andb negb]. by rewrite bool_decide_eq_true_2. }
    cbn. rewrite Hv. f_equal. by apply I3.
Qed.

(** The packets [zs] among others that carry nothing of the same message. *)
Definition among (view : ZCPacket -> option RpcPacket) (zs : list ZCPacket) (l : list (Z * ZCPacket)) : Prop :=
  exists others, l.*2 ≡ₚ zs ++ others /\ Forall (fun z => headed z /\ view z = None) others.

Lemma among_view view zs l : Forall headed zs -> among view zs l ->
  Forall (fun x => headed x.2) l /\ omap view l.*2 ≡ₚ omap view zs.
Proof.
  intros Hz (others & Hp & Ho). split.
  - assert (Forall headed l.*2) as Hall.
    { rewrite Hp. apply Forall_app. split; [done|]. eapply Forall_impl; [exact Ho|]. by intros z []. }
    by rewrite Forall_fmap in Hall.
  - rewrite Hp, omap_app. replace (omap view others) with (@nil RpcPacket); [by rewrite app_nil_r|].
    clear Hp. induction Ho as [|z others [_ Hv] _ IH]; [done|]. cbn. by rewrite Hv.
Qed.

Lemma algo_pb_from_i32 a : algo_pb_from (algo_pb_i32 a) = a.
Proof. by destruct a. Qed.

(** A message that can be sent: it survives compression and fits the receiver. *)
Record sendable (accepted : CompressionAlgoPb) (msg buf : bytes) (a : CompressionAlgoPb) (args : BuildRpcPacketArgs) : Prop := {
  sd_compress : compress_packet accepted msg = Ok (buf, a);
  sd_decompress : decompress_packet a buf = Ok msg;
  sd_ok : message_ok args }.

(** What the caller sees of an answer: errors lose their details on the way. *)
Definition returned (answer : result Error bytes * option bytes) : result Error bytes :=
  match answer with
  | (Ok ret, raw_output) => Ok (default ret raw_output)
  | (Err e, _) => Err (error_from_pb (error_to_pb e))
  end.

Definition answered_with (answer : result Error bytes * option bytes) : result Error bytes :=
  match answer with (Ok ret, raw_output) => Ok (default ret raw_output) | (Err e, _) => Err e end.

(** The request, once it has arrived, is answered by its method. *)
Lemma handle_answers st tid args buf a reg dur buf2 a2 zs2 accepted :
  let req := message_whole (call_message st tid args buf a) in
  let answer := call_method (call_desc st args) (request (call_request args)) reg in
  sendable accepted (encode_request (call_request args)) buf a (call_message st tid args buf a) ->
  compress_packet AlgoPbZstd (encode_response (response_of (answered_with answer) dur)) = Ok (buf2, a2) ->
  build_rpc_packet junk (response_message req (call_desc st args) buf2 a2) = Done zs2 ->
  - 2 ^ 31 <= ca_timeout_ms args < 2 ^ 31 ->
  exists stats, handle_rpc junk req reg false dur = Done (zs2, stats).
Proof.
  intros req answer [_ Hd _] Hc Hb Htime. destruct (message_whole_body (call_message st tid args buf a)) as (Hbody & Hdesc & Hci).
  fold req in Hbody, Hdesc, Hci. unfold handle_rpc, handle_rpc_request. rewrite Hdesc, Hci, Hbody.
  cbn [unwrap mbind outcome_bind call_message content arg_compression_info rpc_desc default algo accepted_algo].
  rewrite !algo_pb_from_i32, Hd, decode_encode_request by done. cbn [unwrap mbind outcome_bind]. fold answer.
  replace (match answer with (Ok ret, raw_output) => _ | (Err e, _) => _ end) with (answered_with answer) by (by destruct answer as [[]]).
  cbn [mbind outcome_bind]. destruct (match answered_with answer with Ok _ => _ | Err _ => _ end) as [status metric].
  cbn [id accepted_algo]. rewrite algo_pb_from_i32, Hc. cbn [ok_value unwrap mbind outcome_bind]. rewrite Hb. by eexists.
Qed.

(** The response, once it has arrived, is what the call returns. *)
Lemma call_end_returns now st args tid c rq req answer dur buf2 a2 :
  to_peer req = st_to_peer_id st -> transaction_id req = tid ->
  sendable AlgoPbZstd (encode_response (response_of (answered_with answer) dur)) buf2 a2
    (response_message req (call_desc st args) buf2 a2) ->
  inflight_requests c !! call_key st tid = Some rq ->
  rq_channel rq = [message_whole (response_message req (call_desc st args) buf2 a2)] ->
  exists stats c', call_end now Answer st args tid c = Done (Some (returned answer, stats, c')) /\
    inflight_requests c' !! call_key st tid = None.
Proof.
  intros Hto Htid [_ Hd _] Hrq Hch. set (args2 := response_message _ _ _ _) in *.
  destruct (message_whole_body args2) as (Hbody & _ & Hci). destruct (message_whole_ids args2) as (_ & _ & Hx & _).
  unfold call_end. rewrite Hrq. cbn [unwrap mbind outcome_bind]. rewrite Hch, Hci, Hbody.
  cbn [args2 response_message content arg_compression_info algo]. rewrite algo_pb_from_i32, Hd.
  rewrite Hx. cbn [args2 response_message arg_transaction_id]. rewrite Htid, Z.eqb_refl. cbn [mbind outcome_bind].
  rewrite decode_encode_response by (apply wrap_in_width; lia). destruct answer as [[r|e] raw]; cbn [answered_with response_of error];
    (do 2 eexists; split; [reflexivity|]; simpl; apply lookup_delete_eq).
Qed.

(** C22.  A call whose packets arrive, in any order and among any others, is
    handled once, by the method its descriptor names in the server's registry;
    and when the packets of the response arrive, again in any order and among
    others, the call returns what the method answered and leaves nothing behind.
    Both messages must survive compression and have at most 32768 pieces. *)
Theorem rpc_call_returns (now now' dur tid : Z) (st : Stub) (args : CallArgs) (c : Client) (node : BidirectRpcManager)
    (buf buf2 : bytes) (a a2 : CompressionAlgoPb) (Htime : - 2 ^ 31 <= ca_timeout_ms args < 2 ^ 31) :
  let key := (st_from_peer_id st, tid) in
  let answer := call_method (call_desc st args) (request (call_request args)) (srv_registry (rpc_server node)) in
  let req := message_whole (call_message st tid args buf a) in
  sendable (accepted_by (st_to_peer_id st) c) (encode_request (call_request args)) buf a (call_message st tid args buf a) ->
  sendable AlgoPbZstd (encode_response (response_of (answered_with answer) dur)) buf2 a2
    (response_message req (call_desc st args) buf2 a2) ->
  server_ok (rpc_server node) -> packet_mergers (rpc_server node) !! key = None ->
  exists zs stats c1, call_begin junk now st args tid c = Done (zs, stats, c1) /\
  forall l, among (request_view key) zs l ->
  exists rs node', bidirect_run l node = Done (rs, node') /\ base.filter (of_key key) rs = [req] /\
  exists zs2 stats2, handle_rpc junk req (srv_registry (rpc_server node')) false dur = Done (zs2, stats2) /\
  forall l2 s2, among (response_view (call_key st tid)) zs2 l2 ->
  exists rs2 caller, bidirect_run l2 {| rpc_client := c1; rpc_server := s2 |} = Done (rs2, caller) /\
  exists stats3 c3, call_end now' Answer st args tid (rpc_client caller) = Done (Some (returned answer, stats3, c3)) /\
    inflight_requests c3 !! call_key st tid = None.
Proof.
  intros key answer req [Hc1 Hd1 Hok1] [Hc2 Hd2 Hok2] Hsrv Hfresh.
  set (args1 := call_message st tid args buf a) in *. set (args2 := response_message req (call_desc st args) buf2 a2) in *.
  destruct (build_message junk args1 Hj Hok1) as (zs & Ez & Hz & Hdec).
  destruct (packets_views args1 zs Hz Hdec) as (Hh & Hview & _). specialize (Hview eq_refl).
  unfold call_begin. change (accepted_by (st_to_peer_id st) (with_inflight _ c)) with (accepted_by (st_to_peer_id st) c).
  rewrite Hc1. cbn [ok_value unwrap mbind outcome_bind]. fold args1. rewrite Ez. cbn [mbind outcome_bind].
  set (c1 := with_inflight _ c). exists zs. eexists _, c1. split; [reflexivity|]. intros l Hl. destruct (among_view _ _ _ Hh Hl) as [Hlh Hlv].
  destruct (request_arrives args1 key Hok1 eq_refl l [] (message_pieces args1) node) as (rs & node' & Er & Hreg & Hf); try done.
  { rewrite Hlv. unfold key. by rewrite <- Hview. }
  { by apply message_pieces_nonempty. }
  { by rewrite Hfresh. }
  exists rs, node'. split; [done|]. split; [done|]. rewrite Hreg.
  destruct (build_message junk args2 Hj Hok2) as (zs2 & Ez2 & Hz2 & Hdec2).
  destruct (packets_views args2 zs2 Hz2 Hdec2) as (Hh2 & _ & Hview2). specialize (Hview2 eq_refl).
  destruct (handle_answers st tid args buf a (srv_registry (rpc_server node)) dur buf2 a2 zs2 (accepted_by (st_to_peer_id st) c))
    as (stats2 & Eh); [by split | done..|].
  exists zs2, stats2. split; [done|]. intros l2 s2 Hl2.
  destruct (message_whole_ids args1) as (Hreqf & Hreqt & Hreqx & _). fold req in Hreqf, Hreqt, Hreqx.
  assert (call_key st tid = (arg_to_peer args2, arg_from_peer args2, arg_transaction_id args2)) as Hkey.
  { unfold args2, response_message. cbn. by rewrite Hreqf, Hreqt, Hreqx. }
  destruct (among_view _ _ _ Hh2 Hl2) as [Hlh2 Hlv2].
  edestruct (response_arrives args2 (call_key st tid) Hok2 Hkey l2 [] (message_pieces args2)
    {| rpc_client := c1; rpc_server := s2 |}) as (rs2 & caller & rq & Er2 & Hrq & Hch & _); [done | | done | | | | ].
  { rewrite Hlv2, Hkey. by rewrite Hview2. }
  { simpl. apply lookup_insert_eq. }
  { intros He. by apply message_pieces_nonempty in Hok2. }
  { done. }
  exists rs2, caller. split; [exact Er2|].
  by apply (call_end_returns now' st args tid (rpc_client caller) rq req answer dur buf2 a2).
Qed.
End returns.

(** ** Services *)

(** A registered service is the one that a call with its descriptor reaches,
    until its domain is unregistered; other domains keep theirs. *)
Lemma registered_reached h domain table desc input :
  domain_name desc = domain -> service_name desc = svc_name h -> proto_name desc = svc_proto_name h ->
  call_method desc input (register h domain table) = handler_call h (as_u8 (method_index desc)) input /\
  call_method desc input (unregister_by_domain domain (register h domain table)) =
    (Err (InvalidServiceKey (svc_name h) (svc_proto_name h)), None).
Proof.
  intros Hd Hs Hp. unfold call_method, register, unregister_by_domain.
  assert (service_key_from desc = service_key h domain) as -> by (unfold service_key_from, service_key; congruence).
  rewrite lookup_insert_eq. split; [done|]. rewrite lookup_retain, lookup_insert_eq. simpl.
  by rewrite bool_decide_eq_true_2.
Qed.

(** ** Defects *)

Section defects.
Context `{Prost} `{Zstd} `{RpcMessages} `{DebugFmt} (junk : nat -> Z).

(** A request that says it has no pieces is handed over unchecked; without a
    descriptor it makes the task that handles it panic. *)
Lemma bare_request_panics now p m reg late dur :
  total_pieces p = 0 -> piece_idx p = 0 -> descriptor p = None ->
  feed now p m = Done (Ok (Some p), m) /\ handle_rpc junk p reg late dur = Panicked UnwrapOnNone.
Proof. intros Ht Hi Hd. unfold feed, handle_rpc. by rewrite Ht, Hi, Hd. Qed.

(** Two kinds of errors arrive as others. *)
Lemma error_kinds_changed :
  error_from_pb (error_to_pb EncodeError) = DecodeError /\
  error_from_pb (error_to_pb Timeout) = ExecutionError (debug_error Timeout).
Proof. done. Qed.
End defects.

(** ** Instances *)

Definition put_error (e : option (option ErrorKind)) : list Z :=
  match e with
  | None => [0]
  | Some None => [1]
  | Some (Some (KOtherError m)) => 2 :: put_text m
  | Some (Some (KInvalidMethodIndex s i)) => 3 :: i :: put_text s
  | Some (Some (KInvalidService s)) => 4 :: put_text s
  | Some (Some KProstDecodeError) => [5]
  | Some (Some KProstEncodeError) => [6]
  | Some (Some (KExecuteError m)) => 7 :: put_text m
  | Some (Some (KMalformatRpcPacket m)) => 8 :: put_text m
  | Some (Some (KTimeout m)) => 9 :: put_text m
  end.
Definition get_error (l : list Z) : option (option ErrorKind) * list Z :=
  match l with
  | 1 :: l => (Some None, l)
  | 2 :: l => let '(m, l) := get_text l in (Some (Some (KOtherError m)), l)
  | 3 :: i :: l => let '(s, l) := get_text l in (Some (Some (KInvalidMethodIndex s i)), l)
  | 4 :: l => let '(s, l) := get_text l in (Some (Some (KInvalidService s)), l)
  | 5 :: l => (Some (Some KProstDecodeError), l)
  | 6 :: l => (Some (Some KProstEncodeError), l)
  | 7 :: l => let '(m, l) := get_text l in (Some (Some (KExecuteError m)), l)
  | 8 :: l => let '(m, l) := get_text l in (Some (Some (KMalformatRpcPacket m)), l)
  | 9 :: l => let '(m, l) := get_text l in (Some (Some (KTimeout m)), l)
  | _ :: l => (None, l)
  | [] => (None, [])
  end.

Lemma get_put_error e l : get_error (put_error e ++ l) = (e, l).
Proof. destruct e as [[[]|]|]; cbn [put_error get_error app]; by rewrite ?get_put_text. Qed.

#[local] Instance field_messages : RpcMessages := {|
  encode_request r := req_timeout_ms r :: request r;
  decode_request l := match l with t :: l => Some {| request := l; req_timeout_ms := t |} | [] => None end;
  encode_response r := runtime_us r :: put_error (error r) ++ response r;
  decode_response l := match l with
                       | t :: l => let '(e, l) := get_error l in Some {| response := l; error := e; runtime_us := t |}
                       | [] => None
                       end |}.

#[local] Instance field_messages_laws : RpcMessagesLaws.
Proof. split; [by intros []|]. intros [r e t] _. cbn. by rewrite get_put_error. Qed.

#[local] Instance plain_fmt : DebugFmt :=
  {| debug_str t := t; debug_anyhow t := t; debug_error _ := []; debug_kind _ := []; compress_error_text _ := [] |}.

Existing Instance field_prost.
Existing Instance field_prost_laws.
Existing Instance rle.

(** The conditions on a message, as a test. *)
Definition message_check (args : BuildRpcPacketArgs) : bool :=
  (total_of args <=? 32 * 1024) && forallb (fun b => (0 <=? b) && (b <? 256)) (content args) &&
  bool_decide (in_width 32 (arg_from_peer args)) && bool_decide (in_width 32 (arg_to_peer args)) &&
  forallb (fun p => len (rpc_encode p) <? 2 ^ 64) (message_pieces args).

Lemma message_checked args : message_check args = true -> message_ok args.
Proof.
  unfold message_check. rewrite !andb_true_iff, !bool_decide_eq_true, !forallb_forall. intros ((((H1 & H2) & H3) & H4) & H5).
  split; [lia| |done|done|].
  - apply Forall_forall. intros b Hb. apply list_elem_of_In in Hb. specialize (H2 _ Hb). unfold is_byte, in_width. lia.
  - intros p Hp. apply list_elem_of_In in Hp. specialize (H5 _ Hp). lia.
Qed.

(** A service with one method, which doubles its input. *)
Definition twice : Service := {|
  svc_name := txt "s"; svc_proto_name := txt "p"; svc_method i := if i =? 1 then Some (txt "twice") else None;
  svc_call _ input := (Ok (input ++ input), None) |}.
Definition twice_node : BidirectRpcManager :=
  {| rpc_client := client_new; rpc_server := {| srv_registry := register twice (txt "d") ∅; packet_mergers := ∅ |} |}.
Definition twice_stub : Stub :=
  {| st_domain_name := txt "d"; st_from_peer_id := 1; st_to_peer_id := 2; st_service := txt "s"; st_proto := txt "p" |}.
Definition twice_args : CallArgs :=
  {| ca_method := 1; ca_method_name := txt "twice"; ca_input := [7; 8]; ca_raw_input := None; ca_timeout_ms := 50; ca_trace_id := 0 |}.

Lemma rpc_call_returns_witness :
  exists zs stats c1, call_begin (fun _ => 0) 0 twice_stub twice_args 5 client_new = Done (zs, stats, c1) /\
  exists rs node', bidirect_run ((fun z => (1, z)) <$> zs) twice_node = Done (rs, node') /\
  exists req zs2 stats2, handle_rpc (fun _ => 0) req (srv_registry (rpc_server node')) false 0 = Done (zs2, stats2) /\
  exists rs2 caller, bidirect_run ((fun z => (2, z)) <$> zs2) {| rpc_client := c1; rpc_server := rpc_server node' |} = Done (rs2, caller) /\
  exists stats3 c3, call_end 3 Answer twice_stub twice_args 5 (rpc_client caller) = Done (Some (Ok [7; 8; 7; 8], stats3, c3)).
Proof.
  assert (forall view (zs : list ZCPacket) (t : Z), among view zs ((fun z => (t, z)) <$> zs)) as Hall.
  { intros view zs t. exists []. rewrite app_nil_r. split; [|constructor].
    rewrite <- list_fmap_compose. unfold compose. simpl. by rewrite list_fmap_id. }
  destruct (rpc_call_returns (fun _ => 0) (fun i => ltac:(vm_compute; split; congruence)) 0 3 0 5 twice_stub twice_args client_new twice_node
              [50; 7; 8] [0; 0; 7; 8; 7; 8] AlgoPbNone AlgoPbNone)
    as (zs & stats & c1 & E1 & Hl).
  - vm_compute. split; congruence.
  - split; [vm_compute; reflexivity | vm_compute; reflexivity | apply message_checked; vm_compute; reflexivity].
  - split; [vm_compute; reflexivity | vm_compute; reflexivity | apply message_checked; vm_compute; reflexivity].
  - intros key m Hm. cbn in Hm. by rewrite lookup_empty in Hm.
  - apply lookup_empty.
  - exists zs, stats, c1. split; [exact E1|]. destruct (Hl _ (Hall _ zs 1)) as (rs & node' & E2 & _ & zs2 & stats2 & E3 & Hl2).
    exists rs, node'. split; [exact E2|]. eexists _, zs2, stats2. split; [exact E3|].
    destruct (Hl2 _ (rpc_server node') (Hall _ zs2 2)) as (rs2 & caller & E4 & stats3 & c3 & E5 & _).
    exists rs2, caller. split; [exact E4|]. exists stats3, c3. exact E5.
Defined.

(** A call under way, and a forged answer that has arrived for another. *)
Lemma rpc_calls_isolated_witness :
  exists w, rpc_reachable (fun _ => 0) w /\ w_calls w = [(twice_stub, twice_args, 5)] /\
    forall now e, exists o, call_end now e twice_stub twice_args 5 (w_client w) = Done o.
Proof.
  destruct (call_begin (fun _ => 0) 0 twice_stub twice_args 5 client_new) as [[[zs stats] c]|] eqn:E; [|exfalso; vm_compute in E; discriminate E].
  assert (rpc_reachable (fun _ => 0) (mkRpcWorld c (next_tid 5) 1 [(twice_stub, twice_args, 5)] [])) as Hw.
  { eapply rpc_next; [apply (rpc_start _ 5)|]. by eapply (step_begin _ 0 twice_stub twice_args zs stats c (mkRpcWorld client_new 5 0 [] [])). }
  exists (mkRpcWorld c (next_tid 5) 1 [(twice_stub, twice_args, 5)] []). split; [exact Hw|]. split; [reflexivity|].
  destruct (rpc_calls_isolated (fun _ => 0) _ Hw) as (_ & Hc & _).
  destruct (Hc twice_stub twice_args 5) as (_ & He & _); [by left | exact He].
Defined.
