(* ===== verification/IpProxy.v ===== *)
(** * What the UDP and ICMP proxies share

    [gateway/udp_proxy.rs] and [gateway/icmp_proxy.rs] decide in the same way
    whether a packet of a peer is one for them, collect the fragments of what it
    carries, and send what comes back as IPv4 packets of their own, cut to size,
    to the peer that asked. *)

From stdpp Require Import base numbers list gmap.
From Stdlib Require Import ZifyBool.
From S2P Require Import Prelude IpReassembler PacketDef CidrSet.
Open Scope Z_scope.

Definition IP_ICMP : Z := 1.
Definition IP_UDP : Z := 17.

(** ** Packets for a proxy *)

Section guard.
Context `{Ipv4CidrLib} `{Ipv4Codec}.

(** Whether the address is this node's own. *)
Definition own_address (ctx : GlobalCtx) (ip : Z) : bool := bool_decide (Some ip = inet_address <$> ctx_ipv4 ctx).

(** The header, the IP packet and the real destination of a packet with
    [protocol] that a proxy takes. *)
Definition proxied_packet (protocol : Z) (ctx : GlobalCtx) (cidrs : CidrSet) (packet : ZCPacket)
    : outcome (option (PeerManagerHeader * Ipv4View * Z)) :=
  if is_empty cidrs && negb (enable_exit_node ctx) && negb (no_tun ctx) then Done None
  else
    match ctx_ipv4 ctx with
    | None => Done None
    | Some _ =>
        h ← peer_manager_header packet;
        hdr ← unwrap h;
        exit ← is_exit_node hdr;
        skip ← (if negb (pm_packet_type hdr =? packet_type_u8 PktData) then Done true else is_no_proxy hdr);
        if skip : bool then Done None
        else
          data ← payload packet;
          match ipv4_view data with
          | None => Done None
          | Some ipv4 =>
              if negb (view_version ipv4 =? 4) || negb (view_protocol ipv4 =? protocol) then Done None
              else
                let dst := view_destination ipv4 in
                match contains_v4 cidrs dst with
                | Some real_dst_ip => Done (Some (hdr, ipv4, real_dst_ip))
                | None => if exit || (no_tun ctx && own_address ctx dst) then Done (Some (hdr, ipv4, dst)) else Done None
                end
          end
    end.

(** What the packet carries, once all of it is there. *)
Definition whole_payload (now : Z) (ipv4 : Ipv4View) (r : IpReassembler) : outcome (option bytes * IpReassembler) :=
  if is_packet_fragmented ipv4 then add_fragment now (view_source ipv4) (view_destination ipv4) ipv4 r
  else Done (Some (view_payload ipv4), r).
End guard.

(** ** Packets for a peer *)

(** The packet for a piece of an answer. *)
Definition reply_packet (junk : nat -> Z) (my_peer_id src_peer_id : Z) (piece : bytes) : outcome ZCPacket :=
  p ← new_with_payload junk piece;
  p ← fill_peer_manager_hdr p my_peer_id src_peer_id (packet_type_u8 PktData);
  m ← mut_peer_manager_header p;
  '(hdr, put) ← unwrap m;
  hdr ← set_no_proxy true hdr;
  Done (put hdr).

(** A message of the proxy's channel on its way to the peer manager. *)
Definition to_peer_manager (is_latency_first : bool) (msg : ZCPacket) : outcome (ZCPacket * Z) :=
  m ← mut_peer_manager_header msg;
  '(hdr, put) ← unwrap m;
  hdr ← set_latency_first is_latency_first hdr;
  Done (put hdr, to_peer_id hdr).

(** ** Reading a packet *)

Section packets.
Context `{Ipv4CidrLib} `{Ipv4Codec}.

(** [p] is a complete packet of a peer. *)
Definition whole_packet (p : ZCPacket) : Prop := exists pre h body, laid_out p pre h body.

Lemma proxied_packet_done protocol ctx cidrs p : whole_packet p -> exists r, proxied_packet protocol ctx cidrs p = Done r.
Proof.
  intros (pre & h & body & Hl). unfold proxied_packet. destruct (_ && _); [eauto|].
  destruct (ctx_ipv4 ctx); [|eauto]. rewrite (layout_header _ _ _ _ Hl). cbn [mbind outcome_bind unwrap].
  destruct (get_flag_done FLAG_EXIT_NODE h) as [ex Hex]; [apply Hl|]. unfold is_exit_node. rewrite Hex. cbn [mbind outcome_bind].
  destruct (get_flag_done FLAG_NO_PROXY h) as [np Hnp]; [apply Hl|]. unfold is_no_proxy. rewrite Hnp.
  destruct (negb _); cbn [mbind outcome_bind]; [eauto|]. destruct np; [eauto|].
  rewrite (layout_payload _ _ _ _ Hl). cbn [mbind outcome_bind]. repeat case_match; eauto.
Qed.

(** What is known of a packet that is taken. *)
Lemma proxied_packet_some protocol ctx cidrs p hdr ipv4 real :
  proxied_packet protocol ctx cidrs p = Done (Some (hdr, ipv4, real)) ->
  peer_manager_header p = Done (Some hdr) /\ (exists data, payload p = Done data /\ ipv4_view data = Some ipv4) /\
  view_version ipv4 = 4 /\ view_protocol ipv4 = protocol /\ real = default (view_destination ipv4) (contains_v4 cidrs (view_destination ipv4)) /\
  is_no_proxy hdr = Done false /\ is_Some (ctx_ipv4 ctx).
Proof.
  unfold proxied_packet. destruct (_ && _); [done|]. destruct (ctx_ipv4 ctx) as [inet|]; [|done]. intros E.
  apply bind_Done in E as (oh & Eh & E). apply bind_Done in E as (h & Eu & E).
  destruct oh; simplify_eq/=. apply bind_Done in E as (ex & _ & E). apply bind_Done in E as (np & Enp & E).
  destruct np; [done|]. apply bind_Done in E as (data & Ed & E). destruct (ipv4_view data) as [v|] eqn:Ev; [|done].
  destruct (negb (view_version v =? 4) || negb (view_protocol v =? protocol)) eqn:Eg; [done|].
  apply orb_false_iff in Eg as [G1%negb_false_iff%Z.eqb_eq G2%negb_false_iff%Z.eqb_eq].
  assert (is_no_proxy h = Done false) by (by destruct (negb _)).
  destruct (contains_v4 cidrs (view_destination v)) as [real0|] eqn:Er; [|destruct (ex || _); [|done]];
    injection E as <- <- <-; rewrite Er; split_and!; eauto.
Qed.

(** A packet without the marks that keep proxies away is taken if its
    destination is in a proxied network. *)
Lemma proxied_packet_taken protocol ctx cidrs p pre h body v real :
  laid_out p pre h body -> pm_packet_type h = packet_type_u8 PktData -> is_no_proxy h = Done false ->
  is_Some (ctx_ipv4 ctx) -> ipv4_view body = Some v -> view_version v = 4 -> view_protocol v = protocol ->
  contains_v4 cidrs (view_destination v) = Some real ->
  proxied_packet protocol ctx cidrs p = Done (Some (h, v, real)).
Proof.
  intros Hl Ht Hnp [inet Hi] Hv Hver Hproto Hc. unfold proxied_packet.
  assert (is_empty cidrs = false) as ->.
  { unfold is_empty, contains_v4 in *. by destruct (cidr_set cidrs). }
  cbn [andb]. rewrite Hi, (layout_header _ _ _ _ Hl). cbn [mbind outcome_bind unwrap].
  destruct (get_flag_done FLAG_EXIT_NODE h) as [ex Hex]; [apply Hl|]. unfold is_exit_node. rewrite Hex. cbn [mbind outcome_bind].
  rewrite Ht, Z.eqb_refl, Hnp. cbn [negb mbind outcome_bind]. rewrite (layout_payload _ _ _ _ Hl). cbn [mbind outcome_bind].
  rewrite Hv, Hver, Hproto, !Z.eqb_refl. cbn [negb orb]. by rewrite Hc.
Qed.
End packets.

Lemma whole_payload_len `{Ipv4CodecLaws} now l v r b r' :
  ipv4_view l = Some v -> whole_payload now v r = Done (Some b, r') -> len b <= 65535.
Proof.
  intros Hv. unfold whole_payload. destruct (is_packet_fragmented v); [apply add_fragment_len|]. intros [= <- _]. apply (view_range _ _ Hv).
Qed.

(** ** Answers *)

(** A message for [peer] of [me] with [piece] in it; [no_proxy] tells proxies to
    leave it alone. *)
Definition reply_msg (no_proxy : bool) (me peer : Z) (piece : bytes) (q : ZCPacket) : Prop :=
  exists pre h, laid_out q pre h piece /\ from_peer_id h = me /\ to_peer_id h = peer /\
    pm_packet_type h = packet_type_u8 PktData /\ is_no_proxy h = Done no_proxy.

Lemma reply_packet_spec junk me peer piece :
  (forall i, is_byte (junk i)) -> in_width 32 me -> in_width 32 peer -> len piece < 2 ^ 64 ->
  exists q, reply_packet junk me peer piece = Done q /\ reply_msg true me peer piece q.
Proof.
  intros Hj Hme Hpeer Hlen. unfold reply_packet.
  destruct (new_with_payload_layout junk piece Hj) as (p & pre & h & -> & _ & Hl). cbn [mbind outcome_bind].
  destruct (fill_hdr_layout p pre h piece me peer (packet_type_u8 PktData) Hl) as (q & -> & _ & Hq); try done.
  cbn [mbind outcome_bind]. destruct (layout_mut_header _ _ _ _ Hq) as (put & -> & Hput). cbn [mbind outcome_bind unwrap].
  set (h1 := filled_header _ _ _ _ _) in *.
  destruct (set_flag_range FLAG_NO_PROXY true h1) as (h2 & E2 & Hr2 & Hw & Hg); [unfold flag_masks; set_solver | apply Hq|].
  unfold set_no_proxy. rewrite E2. cbn [mbind outcome_bind]. eexists. split; [reflexivity|].
  exists pre, h2. split; [by apply Hput|]. rewrite Hw. split_and!; try done.
  rewrite <- Hw. unfold is_no_proxy. rewrite Hg by (unfold flag_masks; set_solver). by rewrite decide_True.
Qed.

Lemma to_peer_manager_spec lf np me peer piece q :
  reply_msg np me peer piece q -> exists q', to_peer_manager lf q = Done (q', peer) /\ reply_msg np me peer piece q'.
Proof.
  intros (pre & h & Hl & Hf & Ht & Hty & Hn). unfold to_peer_manager.
  destruct (layout_mut_header _ _ _ _ Hl) as (put & -> & Hput). cbn [mbind outcome_bind unwrap].
  destruct (set_flag_range FLAG_LATENCY_FIRST lf h) as (h2 & E2 & Hr2 & Hw & Hg); [unfold flag_masks; set_solver | apply Hl|].
  unfold set_latency_first. rewrite E2. cbn [mbind outcome_bind].
  assert (to_peer_id h2 = peer) as -> by (by rewrite Hw). eexists. split; [reflexivity|].
  exists pre, h2. split; [by apply Hput|]. rewrite Hw. split_and!; try done.
  rewrite <- Hw. unfold is_no_proxy. rewrite Hg by (unfold flag_masks; set_solver). by rewrite decide_False.
Qed.

(** ** Example packets *)

(** The node has address 100 and gives access to the addresses from 256 on,
    which peers know as those from 512 on. *)
Definition sample_ctx : GlobalCtx :=
  {| enable_exit_node := false; no_tun := false; ctx_ipv4 := Some {| inet_address := 100; inet_first := 90 |} |}.
Definition sample_cidrs : CidrSet :=
  update_cidrs [{| pn_cidr := mkNet 8 1; pn_mapped_cidr := Some (mkNet 8 2); pn_allow := None |}] cidr_set_new.

Definition sample_header (from : Z) : PeerManagerHeader :=
  {| from_peer_id := from; to_peer_id := 7; pm_packet_type := packet_type_u8 PktData; pm_flags := 0; forward_counter := 1;
     reserved := 0; pm_len := 0 |}.

(** An IPv4 packet in one piece. *)
Definition ip_body (protocol src dst : Z) (body : bytes) : bytes :=
  write_header {| set_version := 4; set_header_length := 5; set_total_length_ := 20 + len body; set_identification := 1; set_flags := DontFragment;
                  set_fragment_offset := 0; set_ecn := 0; set_dscp := 0; set_ttl := 64; set_source := src; set_destination := dst;
                  set_next_level_protocol := protocol |} (replicate 20 0) ++ body.

Definition peer_packet (from : Z) (body : bytes) : ZCPacket := mkZC (as_bytes (sample_header from) ++ body) DummyTunnel.

Lemma peer_packet_layout from body : in_width 32 from -> laid_out (peer_packet from body) [] (sample_header from) body.
Proof.
  intros Hf. split; [reflexivity|]. split; [reflexivity|]. split; [exact Hf|]. vm_compute. intuition congruence.
Qed.
