(* ===== verification/UdpProxy.v ===== *)
(** * The UDP proxy

    [gateway/udp_proxy.rs]: a node that gives access to a network keeps a socket
    per UDP source of the virtual network.  What a source sends leaves through
    its socket, and what comes to the socket goes back to the source, as from
    the address it wrote to.

    A socket belongs to an entry, which the table and the entry's forward task
    share, so entries live in a store under an address that also names the
    socket.  [UdpLib] is what pnet does with datagrams. *)

From stdpp Require Import base numbers list gmap.
From Stdlib Require Import ZifyBool.
From S2P Require Import Prelude IpReassembler PacketDef CidrSet IpProxy.
Open Scope Z_scope.

Record UdpView := { uv_source : Z; uv_destination : Z; uv_payload : bytes }.

Class UdpLib := {
  udp_view : bytes -> option UdpView;
  (** the setters of source, destination and length, and the checksum with the
      two addresses of the pseudo header *)
  write_udp : Z -> Z -> Z -> Z -> Z -> bytes -> bytes;
  udp_sum_ok : Z -> Z -> bytes -> bool
}.

Class UdpLibLaws `{UdpLib} := {
  udp_view_some b : 8 <= len b -> is_Some (udp_view b);
  udp_view_range b u : udp_view b = Some u -> in_width 16 (uv_source u) /\ in_width 16 (uv_destination u);
  write_udp_length sport dport n from to b : 8 <= len b -> len (write_udp sport dport n from to b) = len b;
  write_udp_view sport dport n from to b : 8 <= len b -> in_width 16 sport -> in_width 16 dport ->
    udp_view (write_udp sport dport n from to b) =
      Some {| uv_source := sport; uv_destination := dport; uv_payload := drop 8 b |};
  write_udp_sum sport dport n from to b : len b = n -> in_width 16 n ->
    udp_sum_ok from to (write_udp sport dport n from to b) = true
}.

(** ** State *)

(** The forward task of an entry: the receiving task waits for datagrams, the
    sending task takes them from a channel. *)
Record ForwardTask := {
  ft_virtual_ipv4 : Z; ft_real_ipv4 : Z; ft_mapped_ipv4 : Z;
  ft_queue : list (bytes * Z * SocketAddr); ft_receiving : bool; ft_sending : bool; ft_ip_id : Z
}.

Record UdpNatEntry := {
  un_src_peer_id : Z; un_my_peer_id : Z; un_src_socket : SocketAddr;
  un_forward_task : option ForwardTask; un_stopped : bool; un_last_active_time : Z
}.

Definition udp_nat_entry_new (now src_peer_id my_peer_id : Z) (src_socket : SocketAddr) : UdpNatEntry := {|
  un_src_peer_id := src_peer_id; un_my_peer_id := my_peer_id; un_src_socket := src_socket;
  un_forward_task := None; un_stopped := false; un_last_active_time := now |}.

Definition with_task (t : ForwardTask) (e : UdpNatEntry) : UdpNatEntry := {|
  un_src_peer_id := un_src_peer_id e; un_my_peer_id := un_my_peer_id e; un_src_socket := un_src_socket e;
  un_forward_task := Some t; un_stopped := un_stopped e; un_last_active_time := un_last_active_time e |}.

Definition udp_stop (e : UdpNatEntry) : UdpNatEntry := {|
  un_src_peer_id := un_src_peer_id e; un_my_peer_id := un_my_peer_id e; un_src_socket := un_src_socket e;
  un_forward_task := un_forward_task e; un_stopped := true; un_last_active_time := un_last_active_time e |}.

Definition mark_active (now : Z) (e : UdpNatEntry) : UdpNatEntry := {|
  un_src_peer_id := un_src_peer_id e; un_my_peer_id := un_my_peer_id e; un_src_socket := un_src_socket e;
  un_forward_task := un_forward_task e; un_stopped := un_stopped e; un_last_active_time := now |}.

Definition is_active (now : Z) (e : UdpNatEntry) : bool := elapsed_secs now (un_last_active_time e) <? 180.

Definition forward_task_new (virtual real mapped : Z) : ForwardTask := {|
  ft_virtual_ipv4 := virtual; ft_real_ipv4 := real; ft_mapped_ipv4 := mapped;
  ft_queue := []; ft_receiving := true; ft_sending := true; ft_ip_id := 1 |}.

Definition with_queue (q : list (bytes * Z * SocketAddr)) (receiving sending : bool) (id : Z) (t : ForwardTask) : ForwardTask := {|
  ft_virtual_ipv4 := ft_virtual_ipv4 t; ft_real_ipv4 := ft_real_ipv4 t; ft_mapped_ipv4 := ft_mapped_ipv4 t;
  ft_queue := q; ft_receiving := receiving; ft_sending := sending; ft_ip_id := id |}.

Section proxy.
Context `{Ipv4CidrLib} `{Ipv4Codec} `{UdpLib}.

(** [up_channel] is [None] once its receiver is gone. *)
Record UdpProxy := mkUdpProxy {
  up_ctx : GlobalCtx; up_latency_first : bool; up_cidr_set : CidrSet;
  up_entries : gmap nat UdpNatEntry; up_next : nat; up_nat_table : gmap SocketAddr nat;
  up_channel : option (list ZCPacket); up_reassembler : IpReassembler
}.
Implicit Types s : UdpProxy.

Definition udp_proxy_new (ctx : GlobalCtx) (latency_first : bool) (cidrs : CidrSet) : UdpProxy :=
  mkUdpProxy ctx latency_first cidrs ∅ 0 ∅ (Some []) (reassembler_new (10 * SEC)).

Definition with_entries entries s : UdpProxy :=
  mkUdpProxy (up_ctx s) (up_latency_first s) (up_cidr_set s) entries (up_next s) (up_nat_table s) (up_channel s) (up_reassembler s).
Definition with_channel c s : UdpProxy :=
  mkUdpProxy (up_ctx s) (up_latency_first s) (up_cidr_set s) (up_entries s) (up_next s) (up_nat_table s) c (up_reassembler s).
Definition with_reassembler r s : UdpProxy :=
  mkUdpProxy (up_ctx s) (up_latency_first s) (up_cidr_set s) (up_entries s) (up_next s) (up_nat_table s) (up_channel s) r.

Inductive up_action :=
| SendTo (socket : nat) (data : bytes) (dst : SocketAddr)
| SendForProxy (msg : ZCPacket) (peer : Z).

(** ** Packets of peers *)

(** [or_try_insert_with]; [new_socket] says whether a socket could be made. *)
Definition nat_entry_for (now : Z) (new_socket : bool) (hdr : PeerManagerHeader) (nat_key : SocketAddr) s
    : option (nat * UdpProxy) :=
  match up_nat_table s !! nat_key with
  | Some a => Some (a, s)
  | None =>
      if new_socket then
        let a := up_next s in
        Some (a, mkUdpProxy (up_ctx s) (up_latency_first s) (up_cidr_set s)
                   (<[a := udp_nat_entry_new now (from_peer_id hdr) (to_peer_id hdr) nat_key]> (up_entries s))
                   (S a) (<[nat_key := a]> (up_nat_table s)) (up_channel s) (up_reassembler s))
      else None
  end.

Definition LOCALHOST : Z := 127 * 2 ^ 24 + 1.

Definition dst_socket (ctx : GlobalCtx) (dst real_dst_ip port : Z) : SocketAddr :=
  if own_address ctx dst then (V4 LOCALHOST, port) else (V4 real_dst_ip, port).

Definition start_forward (ctx : GlobalCtx) (real_dst_ip dst : Z) (e : UdpNatEntry) : option UdpNatEntry :=
  match un_forward_task e with
  | Some _ => Some e
  | None => match ctx_ipv4 ctx with
            | Some inet => Some (with_task (forward_task_new (inet_address inet) real_dst_ip dst) e)
            | None => None
            end
  end.

(** Whether the packet was taken, and what leaves. *)
Definition try_handle_packet (now : Z) (new_socket : bool) (packet : ZCPacket) s
    : outcome (option unit * UdpProxy * list up_action) :=
  g ← proxied_packet IP_UDP (up_ctx s) (up_cidr_set s) packet;
  match g with
  | None => Done (None, s, [])
  | Some (hdr, ipv4, real_dst_ip) =>
      '(data, r) ← whole_payload now ipv4 (up_reassembler s);
      let s := with_reassembler r s in
      match data ≫= udp_view with
      | None => Done (None, s, [])
      | Some udp_packet =>
          match nat_entry_for now new_socket hdr (V4 (view_source ipv4), uv_source udp_packet) s with
          | None => Done (None, s, [])
          | Some (a, s) =>
              e ← unwrap (up_entries s !! a);
              match start_forward (up_ctx s) real_dst_ip (view_destination ipv4) e with
              | None => Done (None, s, [])
              | Some e =>
                  Done (Some tt, with_entries (<[a := mark_active now e]> (up_entries s)) s,
                        [SendTo a (uv_payload udp_packet)
                                (dst_socket (up_ctx s) (view_destination ipv4) real_dst_ip (uv_destination udp_packet))])
              end
          end
      end
  end.

(** ** Datagrams of the network *)

(** The room in front of a received datagram for the two headers. *)
Definition HEADER_ROOM : Z := 28.
Definition FORWARD_CHANNEL_CAP : Z := 128.
Definition PROXY_CHANNEL_CAP : Z := 1024.

(** The receiving task with a datagram: it waits while the channel is full, and
    dies when the sending task is gone; before it waits for the next one it
    looks whether the entry was stopped.  The buffer has 64 KiB of room, more
    than a UDP datagram can have. *)
Definition recv_task (junk : nat -> Z) (data : bytes) (src : SocketAddr) (e : UdpNatEntry) : option UdpNatEntry :=
  match un_forward_task e with
  | Some t =>
      if negb (ft_receiving t) then None
      else if negb (ft_sending t) then Some (with_task (with_queue (ft_queue t) false (ft_sending t) (ft_ip_id t) t) e)
      else if FORWARD_CHANNEL_CAP <=? len (ft_queue t) then None
      else Some (with_task (with_queue (ft_queue t ++ [(uninit junk HEADER_ROOM ++ data, len data, src)])
                              (negb (un_stopped e)) (ft_sending t) (ft_ip_id t) t) e)
  | None => None
  end.

(** The receiving task at a timeout or an error. *)
Definition recv_fails (e : UdpNatEntry) : option UdpNatEntry :=
  match un_forward_task e with
  | Some t => if ft_receiving t then Some (with_task (with_queue (ft_queue t) false (ft_sending t) (ft_ip_id t) t) e) else None
  | None => None
  end.

(** [Sender::try_send]: [Err] when the channel is closed, dropped when it is full. *)
Definition try_send (p : ZCPacket) (channel : option (list ZCPacket)) : result unit unit * option (list ZCPacket) :=
  match channel with
  | None => (Err tt, None)
  | Some q => (Ok tt, if len q <? PROXY_CHANNEL_CAP then Some (q ++ [p]) else Some q)
  end.

Definition udp_reply (junk : nat -> Z) (e : UdpNatEntry) (s : outcome (option (list ZCPacket))) (piece : bytes)
    : outcome (option (list ZCPacket)) * result unit unit :=
  match (channel ← s; p ← reply_packet junk (un_my_peer_id e) (un_src_peer_id e) piece; Done (try_send p channel)) with
  | Done (r, channel) => (Done channel, r)
  | Panicked x => (Panicked x, Err tt)
  end.

Definition udp_compose_ipv4_packet (junk : nat -> Z) (e : UdpNatEntry) (channel : option (list ZCPacket)) (buf : bytes)
    (src_v4 : Z * Z) (payload_len payload_mtu ip_id : Z) : outcome (result unit unit * option (list ZCPacket)) :=
  match un_src_socket e with
  | (V6 _, _) => Done (Err tt, channel)
  | (V4 nat_src_v4, nat_src_port) =>
      if negb (payload_mtu mod 8 =? 0) then Panicked AssertionFailed
      else
        udp_packet ← slice buf 20 (28 + payload_len);
        _ ← unwrap (udp_view udp_packet);
        let udp_packet := write_udp src_v4.2 nat_src_port (as_u16 (as_u16 payload_len + 8)) src_v4.1 nat_src_v4 udp_packet in
        let args := {| IpReassembler.src_v4 := src_v4.1; dst_v4 := nat_src_v4; next_protocol := IP_UDP;
                       IpReassembler.payload_len := payload_len + 8; IpReassembler.payload_mtu := payload_mtu;
                       IpReassembler.ip_id := ip_id |} in
        '(sent, _, r) ← compose_ipv4_packet (udp_reply junk e) args (splice buf 20 udp_packet) (Done channel);
        channel ← sent;
        Done (r, channel)
  end.

(** The address an answer is sent from. *)
Definition answer_source (t : ForwardTask) (ip : Z) : Z :=
  let ip := if is_loopback (V4 ip) then ft_virtual_ipv4 t else ip in
  if ip =? ft_real_ipv4 t then ft_mapped_ipv4 t else ip.

(** The sending task with the next datagram of its channel. *)
Definition send_task (junk : nat -> Z) (now : Z) (e : UdpNatEntry) (channel : option (list ZCPacket))
    : outcome (option (UdpNatEntry * option (list ZCPacket))) :=
  match un_forward_task e with
  | Some t =>
      match ft_sending t, ft_queue t with
      | true, (packet, n, src_socket) :: q =>
          let next id sending := with_task (with_queue q (ft_receiving t) sending id t) in
          match src_socket with
          | (V6 _, _) => Done (Some (next (ft_ip_id t) true e, channel))
          | (V4 ip, port) =>
              let e := mark_active now e in
              '(r, channel) ← udp_compose_ipv4_packet junk e channel packet (answer_source t ip, port) n 1280 (ft_ip_id t);
              Done (Some (match r with
                          | Ok _ => next (as_u16 (ft_ip_id t + 1)) true e
                          | Err _ => next (ft_ip_id t) false e
                          end, channel))
          end
      | _, _ => Done None
      end
  | None => Done None
  end.

(** Both tasks are done. *)
Definition task_ends (e : UdpNatEntry) : option UdpNatEntry :=
  match un_forward_task e with
  | Some t =>
      if ft_receiving t then None
      else if ft_sending t && negb (len (ft_queue t) =? 0) then None
      else Some (udp_stop (with_task (with_queue (ft_queue t) false false (ft_ip_id t) t) e))
  | None => None
  end.

(** ** The other tasks *)

Definition clean_nat_table (now : Z) s : UdpProxy :=
  let gone := fun a => match up_entries s !! a with Some e => negb (is_active now e) | None => false end in
  mkUdpProxy (up_ctx s) (up_latency_first s) (up_cidr_set s)
    (map_imap (fun a e => Some (if negb (is_active now e) && bool_decide (map_Exists (fun _ b => b = a) (up_nat_table s)) then udp_stop e else e))
              (up_entries s))
    (up_next s) (retain (fun _ a => negb (gone a)) (up_nat_table s)) (up_channel s) (up_reassembler s).

Definition forward_to_peer_manager s : outcome (option (UdpProxy * list up_action)) :=
  match up_channel s with
  | Some (msg :: q) =>
      '(msg, to_peer_id) ← to_peer_manager (up_latency_first s) msg;
      Done (Some (with_channel (Some q) s, [SendForProxy msg to_peer_id]))
  | _ => Done None
  end.

(** [Drop]. *)
Definition udp_proxy_drop s : UdpProxy :=
  with_entries (map_imap (fun a e => Some (if bool_decide (map_Exists (fun _ b => b = a) (up_nat_table s)) then udp_stop e else e))
                         (up_entries s)) s.

(** ** Moves *)

Inductive up_label :=
| UpFromPeer (p : ZCPacket) (new_socket : bool) (now : Z)
| UpDatagram (a : nat) (data : bytes) (src : SocketAddr) (junk : nat -> Z)
| UpRecvFails (a : nat)
| UpSend (a : nat) (junk : nat -> Z) (now : Z)
| UpTaskEnds (a : nat)
| UpClean (now : Z)
| UpExpire (now : Z)
| UpForward
| UpCidrs (cidrs : CidrSet).

Definition on_entry (a : nat) (f : UdpNatEntry -> option UdpNatEntry) s : option (UdpProxy * list up_action) :=
  e ← up_entries s !! a; e ← f e; Some (with_entries (<[a := e]> (up_entries s)) s, []).

(** [None] where the move cannot be made. *)
Definition up_step (l : up_label) s : outcome (option (UdpProxy * list up_action)) :=
  match l with
  | UpFromPeer p new_socket now => '(_, s, acts) ← try_handle_packet now new_socket p s; Done (Some (s, acts))
  | UpDatagram a data src junk => Done (on_entry a (recv_task junk data src) s)
  | UpRecvFails a => Done (on_entry a recv_fails s)
  | UpSend a junk now =>
      match up_entries s !! a with
      | None => Done None
      | Some e =>
          r ← send_task junk now e (up_channel s);
          Done (match r with Some (e, c) => Some (with_channel c (with_entries (<[a := e]> (up_entries s)) s), []) | None => None end)
      end
  | UpTaskEnds a => Done (on_entry a task_ends s)
  | UpClean now => Done (Some (clean_nat_table now s, []))
  | UpExpire now => Done (Some (with_reassembler (remove_expired_packets now (up_reassembler s)) s, []))
  | UpForward => forward_to_peer_manager s
  | UpCidrs cidrs => Done (Some (mkUdpProxy (up_ctx s) (up_latency_first s) cidrs (up_entries s) (up_next s) (up_nat_table s)
                                   (up_channel s) (up_reassembler s), []))
  end.

Definition up_run : list up_label -> UdpProxy -> outcome (UdpProxy * list up_action) := run up_step.
End proxy.

(** ** Composing an answer *)

(** What [try_send] leaves in the channel. *)
Definition enqueue (q qs : list ZCPacket) : list ZCPacket :=
  foldl (fun q m => if len q <? PROXY_CHANNEL_CAP then q ++ [m] else q) q qs.

Lemma enqueue_room q qs : len q + len qs <= PROXY_CHANNEL_CAP -> enqueue q qs = q ++ qs.
Proof.
  revert q; induction qs as [|m qs IH]; intros q Hr; simpl; [by rewrite app_nil_r|]. pose proof (len_nonneg qs).
  unfold len in Hr; simpl in Hr. rewrite (proj2 (Z.ltb_lt _ _)) by (unfold len in *; lia).
  rewrite IH by (rewrite len_app; unfold len in *; simpl; lia). by rewrite <- app_assoc.
Qed.

Lemma enqueue_elem q qs m : m ∈ enqueue q qs -> m ∈ q \/ m ∈ qs.
Proof.
  revert q; induction qs as [|x qs IH]; intros q; simpl; [by left|]. intros [Hq|Hq]%IH; [|right; by right].
  destruct (_ <? _); [|by left]. apply elem_of_app in Hq as [?|Hx%list_elem_of_singleton]; [by left | subst; right; left].
Qed.

Section composing.
Context `{Ipv4CodecLaws} `{UdpLibLaws} (junk : nat -> Z) (e : UdpNatEntry).
Context (Hj : forall i, is_byte (junk i)) (Hme : in_width 32 (un_my_peer_id e)) (Hpeer : in_width 32 (un_src_peer_id e)).

Lemma udp_reply_run ps : Forall (fun p => len p < 2 ^ 64) ps ->
  exists qs, Forall2 (reply_msg true (un_my_peer_id e) (un_src_peer_id e)) ps qs /\
    forall q, run_cb (udp_reply junk e) (Done (Some q)) ps = (Done (Some (enqueue q qs)), Ok tt).
Proof.
  induction 1 as [|p ps Hp Hps (qs & Hq & IH)]; [by exists []|].
  destruct (reply_packet_spec junk _ _ p Hj Hme Hpeer Hp) as (m & Em & Hm). exists (m :: qs). split; [by constructor|].
  intros q. cbn [run_cb]. unfold udp_reply at 1. rewrite Em. cbn [mbind outcome_bind]. unfold try_send at 1.
  cbn [enqueue foldl]. case_match; apply IH.
Qed.

Lemma udp_reply_closed p ps : len p < 2 ^ 64 -> run_cb (udp_reply junk e) (Done None) (p :: ps) = (Done None, Err tt).
Proof.
  intros Hp. destruct (reply_packet_spec junk _ _ p Hj Hme Hpeer Hp) as (m & Em & _). cbn [run_cb]. unfold udp_reply. by rewrite Em.
Qed.

(** Of a datagram for the source at [nat_ip] a list of messages is made that,
    in any order, are put together to it at the source. *)
Lemma udp_compose_spec (jb : nat -> Z) data ip port id nat_ip nat_port :
  un_src_socket e = (V4 nat_ip, nat_port) -> len data <= 65507 ->
  in_width 32 ip -> in_width 16 port -> in_width 16 id -> in_width 32 nat_ip -> in_width 16 nat_port ->
  exists ps vs qs dgram,
    (forall q, udp_compose_ipv4_packet junk e (Some q) (uninit jb HEADER_ROOM ++ data) (ip, port) (len data) 1280 id =
       Done (Ok tt, Some (enqueue q qs))) /\
    udp_compose_ipv4_packet junk e None (uninit jb HEADER_ROOM ++ data) (ip, port) (len data) 1280 id = Done (Err tt, None) /\
    Forall2 (reply_msg true (un_my_peer_id e) (un_src_peer_id e)) ps qs /\ Forall2 (fun p v => ipv4_view p = Some v) ps vs /\
    Forall (fun v => view_version v = 4 /\ view_source v = ip /\ view_destination v = nat_ip /\ view_protocol v = IP_UDP) vs /\
    udp_view dgram = Some {| uv_source := port; uv_destination := nat_port; uv_payload := data |} /\
    udp_sum_ok ip nat_ip dgram = true /\ len qs <= 52 /\
    forall now r vs', packets r !! {| key_source := ip; key_destination := nat_ip; key_id := id |} = None -> vs' ≡ₚ vs ->
      add_all now ip nat_ip vs' r = Done (replicate (length ps - 1) None ++ [Some dgram], r).
Proof.
  intros Hsock Hlen Hip Hport Hid Hnip Hnport. set (b := uninit jb HEADER_ROOM). pose proof (len_nonneg data) as Hd0.
  assert (length b = 28%nat) as Hb by (unfold b, uninit; by rewrite length_fmap, length_seq).
  set (d0 := drop 20 b ++ data). assert (len d0 = len data + 8) as Hd by (unfold d0; rewrite len_app; unfold len; rewrite length_drop, Hb; lia).
  set (dgram := write_udp port nat_port (len data + 8) ip nat_ip d0).
  assert (len dgram = len data + 8) as Hdl by (unfold dgram; rewrite write_udp_length; lia).
  set (args := {| src_v4 := ip; dst_v4 := nat_ip; next_protocol := IP_UDP; IpReassembler.payload_len := len data + 8; payload_mtu := 1280; ip_id := id |}).
  assert (compose_ok args dgram) as Hok.
  { split; cbn [IpReassembler.payload_len payload_mtu ip_id src_v4 dst_v4 next_protocol args]; try done; try lia.
    by right. }
  assert (length (take 20 b) = 20%nat) as H20 by (rewrite length_take; lia).
  destruct (compose_reassembles (E := unit) args dgram Hok (take 20 b) [] H20) as (ps & vs & buf' & E1 & Hps & Ha & Hne & Hsm & Hall).
  assert (Forall (fun p => len p < 2 ^ 64) ps) as Hsmall by (eapply Forall_impl; [exact Hsm|]; simpl; lia).
  destruct (udp_reply_run ps Hsmall) as (qs & Hqs & Hrun).
  assert (slice (b ++ data) 20 (28 + len data) = Done d0) as Hslice.
  { unfold slice. rewrite bool_decide_eq_true_2 by (rewrite len_app; unfold len in *; lia). f_equal.
    rewrite drop_app_le by lia. apply take_ge. unfold len in *. lia. }
  assert (splice (b ++ data) 20 dgram = take 20 b ++ dgram ++ []) as Hsplice.
  { unfold splice. rewrite take_app_le by lia. do 2 f_equal. apply drop_ge. rewrite length_app. unfold len in *. lia. }
  assert (as_u16 (as_u16 (len data) + 8) = len data + 8) as Hw by (rewrite !wrap_small; unfold in_width; try lia; rewrite wrap_small; unfold in_width; lia).
  assert (forall c, udp_compose_ipv4_packet junk e c (b ++ data) (ip, port) (len data) 1280 id =
    (channel ← (run_cb (udp_reply junk e) (Done c) ps).1; Done ((run_cb (udp_reply junk e) (Done c) ps).2, channel))) as Hc.
  { intros c. unfold udp_compose_ipv4_packet. rewrite Hsock. change (negb (1280 mod 8 =? 0)) with false. cbv iota. rewrite Hslice.
    cbn [mbind outcome_bind]. destruct (udp_view_some d0) as [u Hu]; [lia|]. rewrite Hu. cbn [unwrap mbind outcome_bind fst snd].
    rewrite Hw. fold dgram. rewrite Hsplice. fold args. destruct (compose_cb (udp_reply junk e) args _ ps buf' (Done c) E1) as [buf2 ->]. done. }
  exists ps, vs, qs, dgram. split_and!; try done.
  - intros q. rewrite Hc, Hrun. done.
  - rewrite Hc. destruct ps as [|p ps]; [done|]. rewrite udp_reply_closed; [done|]. by inversion Hsmall.
  - unfold dgram. by rewrite write_udp_view by (done || lia).
  - apply write_udp_sum; unfold in_width; lia.
  - apply compose_count in E1; cbn [IpReassembler.payload_len payload_mtu args] in *; [|lia..].
    assert ((len data + 8) / 1280 < 52) by (apply Z.div_lt_upper_bound; lia).
    apply Forall2_length in Hqs. unfold len in *. lia.
Qed.
End composing.

(** ** Each source has its own socket *)

Section isolation.
Context `{Ipv4CidrLib} `{Ipv4CodecLaws} `{UdpLibLaws}.
Context (ctx : GlobalCtx) (Hctx : forall inet, ctx_ipv4 ctx = Some inet -> in_width 32 (inet_address inet)).
Implicit Types (s : UdpProxy) (e : UdpNatEntry).

(** Peer, this node's id and the source an entry was made for. *)
Definition owner s (a : nat) : option (Z * Z * SocketAddr) :=
  (fun e => (un_src_peer_id e, un_my_peer_id e, un_src_socket e)) <$> up_entries s !! a.

Definition label_ok (l : up_label) : Prop :=
  match l with
  | UpFromPeer p _ _ => whole_packet p
  | UpDatagram _ data src junk => len data <= 65507 /\ (forall i, is_byte (junk i)) /\ in_width 16 src.2 /\
      match src.1 with V4 ip => in_width 32 ip | V6 _ => True end
  | UpSend _ junk _ => forall i, is_byte (junk i)
  | _ => True
  end.

(** [packet] is one of [ls] with source address [ip]. *)
Definition packet_of (ls : list up_label) (ip : Z) (packet : ZCPacket) : Prop :=
  exists new_socket now data v, UpFromPeer packet new_socket now ∈ ls /\ payload packet = Done data /\ ipv4_view data = Some v /\
    view_source v = ip.

(** An entry was made for a packet of its peer. *)
Definition owner_ok (ls : list up_label) (o : Z * Z * SocketAddr) : Prop :=
  exists packet hdr ip port, packet_of ls ip packet /\ peer_manager_header packet = Done (Some hdr) /\
    o = (from_peer_id hdr, to_peer_id hdr, (V4 ip, port)) /\ in_range hdr /\ in_width 32 ip /\ in_width 16 port.

Definition queued_ok (ls : list up_label) (a : nat) (x : bytes * Z * SocketAddr) : Prop :=
  exists data junk, UpDatagram a data x.2 junk ∈ ls /\ x.1.1 = uninit junk HEADER_ROOM ++ data /\ x.1.2 = len data.

Record task_ok (ls : list up_label) (a : nat) (t : ForwardTask) : Prop := {
  tk_id : in_width 16 (ft_ip_id t);
  tk_virtual : in_width 32 (ft_virtual_ipv4 t);
  tk_mapped : in_width 32 (ft_mapped_ipv4 t);
  tk_queue : Forall (queued_ok ls a) (ft_queue t)
}.

Record entry_ok (ls : list up_label) (a : nat) e : Prop := {
  en_owner : owner_ok ls (un_src_peer_id e, un_my_peer_id e, un_src_socket e);
  en_task : forall t, un_forward_task e = Some t -> task_ok ls a t
}.

(** [msg] goes to the source of a socket at which a datagram arrived. *)
Definition answer_ok (ls : list up_label) s (msg : ZCPacket) : Prop :=
  exists a peer me ip port data src junk piece v, owner s a = Some (peer, me, (V4 ip, port)) /\ UpDatagram a data src junk ∈ ls /\
    reply_msg true me peer piece msg /\ ipv4_view piece = Some v /\ view_destination v = ip /\ view_protocol v = IP_UDP.

Definition act_ok (ls : list up_label) s (act : up_action) : Prop :=
  match act with
  | SendTo a data dst =>
      exists peer me packet new_socket now hdr v cidrs real r r' b u,
        owner s a = Some (peer, me, (V4 (view_source v), uv_source u)) /\ UpFromPeer packet new_socket now ∈ ls /\
        proxied_packet IP_UDP ctx cidrs packet = Done (Some (hdr, v, real)) /\
        whole_payload now v r = Done (Some b, r') /\ udp_view b = Some u /\
        data = uv_payload u /\ dst = dst_socket ctx (view_destination v) real (uv_destination u)
  | SendForProxy msg peer => answer_ok ls s msg /\ get_dst_peer_id msg = Done (Some peer)
  end.

Record up_ok (ls : list up_label) s : Prop := {
  uo_ctx : up_ctx s = ctx;
  uo_entries : forall a e, up_entries s !! a = Some e -> (a < up_next s)%nat /\ entry_ok ls a e;
  uo_table : forall k a, up_nat_table s !! k = Some a -> exists e, up_entries s !! a = Some e /\ un_src_socket e = k;
  uo_channel : forall msg, msg ∈ default [] (up_channel s) -> answer_ok ls s msg
}.

Definition grows s s' : Prop := forall a o, owner s a = Some o -> owner s' a = Some o.

(** Everything said of the past stays true. *)
Lemma packet_of_mono ls ls' ip p : ls ⊆ ls' -> packet_of ls ip p -> packet_of ls' ip p.
Proof. intros Hsub (ns & now & d & v & Hin & Hrest). exists ns, now, d, v. split; [by apply Hsub | done]. Qed.

Lemma owner_ok_mono ls ls' o : ls ⊆ ls' -> owner_ok ls o -> owner_ok ls' o.
Proof. intros Hsub (p & h & ip & port & Hp & Hrest). exists p, h, ip, port. split; [by eapply packet_of_mono | done]. Qed.

Lemma forward_task_ok_mono ls ls' a t : ls ⊆ ls' -> task_ok ls a t -> task_ok ls' a t.
Proof.
  intros Hsub [? ? ? Hq]. split; try done. eapply Forall_impl; [exact Hq|]. intros x (d & j & Hin & Hrest).
  exists d, j. split; [by apply Hsub | done].
Qed.

Lemma up_entry_ok_mono ls ls' a e : ls ⊆ ls' -> entry_ok ls a e -> entry_ok ls' a e.
Proof. intros Hsub [Ho Ht]. split; [by eapply owner_ok_mono|]. intros t E. by eapply forward_task_ok_mono, Ht. Qed.

Lemma answer_ok_mono ls ls' s s' msg : ls ⊆ ls' -> grows s s' -> answer_ok ls s msg -> answer_ok ls' s' msg.
Proof.
  intros Hsub Hg (a & peer & me & ip & port & d & src & j & pc & v & Ho & Hin & Hrest). exists a, peer, me, ip, port, d, src, j, pc, v.
  split; [by apply Hg|]. split; [by apply Hsub | done].
Qed.

Lemma act_ok_mono ls ls' s s' act : ls ⊆ ls' -> grows s s' -> act_ok ls s act -> act_ok ls' s' act.
Proof.
  intros Hsub Hg. destruct act as [a d dst|msg peer]; simpl.
  - intros (peer & me & p & ns & now & hdr & v & c & real & r & r' & b & u & Ho & Hin & Hrest).
    exists peer, me, p, ns, now, hdr, v, c, real, r, r', b, u. split; [by apply Hg|]. split; [by apply Hsub | done].
  - intros [Ha Hd]. split; [by eapply answer_ok_mono | done].
Qed.

Lemma grows_refl s s' : up_entries s' = up_entries s -> grows s s'.
Proof. intros E a o. unfold owner. by rewrite E. Qed.

Lemma grows_trans s s' s'' : grows s s' -> grows s' s'' -> grows s s''.
Proof. unfold grows. naive_solver. Qed.

(** An entry changes, but not whom it is for. *)
Lemma grows_insert s s' a e e' :
  up_entries s !! a = Some e -> up_entries s' = <[a := e']> (up_entries s) ->
  un_src_peer_id e' = un_src_peer_id e -> un_my_peer_id e' = un_my_peer_id e -> un_src_socket e' = un_src_socket e -> grows s s'.
Proof.
  intros Ea E E1 E2 E3 b o. unfold owner. rewrite E. destruct (decide (a = b)) as [<-|Hne].
  - rewrite lookup_insert_eq, Ea. simpl. by rewrite E1, E2, E3.
  - by rewrite lookup_insert_ne.
Qed.

Lemma entry_insert ls ls' s s' a e e' :
  ls ⊆ ls' -> up_ok ls s -> up_entries s !! a = Some e -> entry_ok ls' a e' ->
  un_src_peer_id e' = un_src_peer_id e -> un_my_peer_id e' = un_my_peer_id e -> un_src_socket e' = un_src_socket e ->
  up_ctx s' = up_ctx s -> up_entries s' = <[a := e']> (up_entries s) -> up_next s' = up_next s -> up_nat_table s' = up_nat_table s ->
  (forall msg, msg ∈ default [] (up_channel s') -> msg ∈ default [] (up_channel s) \/ answer_ok ls' s' msg) ->
  up_ok ls' s' /\ grows s s'.
Proof.
  intros Hsub Ho Ea He E1 E2 E3 Ec Een En Et Hch. assert (grows s s') as Hg by (by eapply grows_insert). split; [|done]. split.
  - rewrite Ec. apply Ho.
  - intros b x. rewrite Een, En. destruct (decide (a = b)) as [<-|Hne]; [rewrite lookup_insert_eq; intros [= <-] | rewrite lookup_insert_ne by done].
    + split; [by eapply (uo_entries _ _ Ho) | done].
    + intros Hx. destruct (uo_entries _ _ Ho _ _ Hx). split; [done | by eapply up_entry_ok_mono].
  - intros k b. rewrite Et, Een. intros Hk. destruct (uo_table _ _ Ho _ _ Hk) as (x & Hx & Hs).
    destruct (decide (a = b)) as [<-|Hne]; [|exists x; by rewrite lookup_insert_ne].
    exists e'. rewrite lookup_insert_eq. split; [done|]. assert (x = e) as -> by congruence. by rewrite E3.
  - intros msg Hm. destruct (Hch msg Hm) as [Hm'|]; [|done]. by eapply answer_ok_mono, (uo_channel _ _ Ho).
Qed.

Definition same_owner e e' : Prop :=
  un_src_peer_id e' = un_src_peer_id e /\ un_my_peer_id e' = un_my_peer_id e /\ un_src_socket e' = un_src_socket e.

Lemma on_entry_ok ls ls' s f a s' acts :
  ls ⊆ ls' -> up_ok ls s -> on_entry a f s = Some (s', acts) ->
  (forall e e', entry_ok ls a e -> f e = Some e' -> entry_ok ls' a e' /\ same_owner e e') ->
  up_ok ls' s' /\ grows s s' /\ acts = [].
Proof.
  intros Hsub Ho E Hf. unfold on_entry in E. destruct (up_entries s !! a) as [e|] eqn:Ea; [|done]. simpl in E.
  destruct (f e) as [e'|] eqn:Ef; [|done]. injection E as <- <-.
  destruct (uo_entries _ _ Ho _ _ Ea) as [_ He]. destruct (Hf e e' He Ef) as [He' (E1 & E2 & E3)].
  match goal with |- ?A /\ ?B /\ _ => assert (A /\ B) as [] end; [|done]. eapply entry_insert; eauto.
Qed.

(** A task of an entry changes its queue and flags. *)
Lemma with_task_ok ls ls' a e t t' :
  ls ⊆ ls' -> entry_ok ls a e -> un_forward_task e = Some t -> ft_virtual_ipv4 t' = ft_virtual_ipv4 t -> ft_mapped_ipv4 t' = ft_mapped_ipv4 t ->
  in_width 16 (ft_ip_id t') -> (forall x, x ∈ ft_queue t' -> x ∈ ft_queue t \/ queued_ok ls' a x) ->
  entry_ok ls' a (with_task t' e) /\ same_owner e (with_task t' e).
Proof.
  intros Hsub He Et Ev Em Hid Hq. split; [|done]. destruct (forward_task_ok_mono ls ls' a t) as [_ Hv Hm Hqs]; [done | by apply He|].
  split; [by eapply owner_ok_mono, He|]. intros t0 [= <-]. split; try congruence.
  apply Forall_forall. intros x Hx. destruct (Hq x Hx) as [Hx'|]; [|done]. by eapply Forall_forall.
Qed.

Lemma recv_task_ok ls ls' a data src junk e e' :
  ls ⊆ ls' -> UpDatagram a data src junk ∈ ls' -> entry_ok ls a e -> recv_task junk data src e = Some e' ->
  entry_ok ls' a e' /\ same_owner e e'.
Proof.
  intros Hsub Hin He. unfold recv_task. destruct (un_forward_task e) as [t|] eqn:Et; [|done].
  pose proof (tk_id _ _ _ (en_task _ _ _ He _ Et)) as Hid.
  destruct (negb (ft_receiving t)); [done|]. destruct (negb (ft_sending t)); [|destruct (_ <=? _); [done|]]; intros [= <-];
    (eapply with_task_ok; [exact Hsub | exact He | exact Et | done | done | done |]); simpl; [auto|].
  intros x [Hx|Hx%list_elem_of_singleton]%elem_of_app; [by left|]. right. subst x. exists data, junk.
  done.
Qed.

Lemma recv_fails_ok ls ls' a e e' : ls ⊆ ls' -> entry_ok ls a e -> recv_fails e = Some e' -> entry_ok ls' a e' /\ same_owner e e'.
Proof.
  intros Hsub He. unfold recv_fails. destruct (un_forward_task e) as [t|] eqn:Et; [|done]. destruct (ft_receiving t); [|done]. intros [= <-].
  eapply with_task_ok; [exact Hsub | exact He | exact Et | done | done | apply (tk_id _ _ _ (en_task _ _ _ He _ Et)) | simpl; auto].
Qed.

Lemma stop_ok ls a e : entry_ok ls a e -> entry_ok ls a (udp_stop e).
Proof. intros [Ho Ht]. by split. Qed.

Lemma task_ends_ok ls ls' a e e' : ls ⊆ ls' -> entry_ok ls a e -> task_ends e = Some e' -> entry_ok ls' a e' /\ same_owner e e'.
Proof.
  intros Hsub He. unfold task_ends. destruct (un_forward_task e) as [t|] eqn:Et; [|done]. destruct (ft_receiving t); [done|].
  destruct (_ && _); [done|]. intros [= <-].
  destruct (with_task_ok ls ls' a e t (with_queue (ft_queue t) false false (ft_ip_id t) t)) as [He' Hs];
    [exact Hsub | exact He | exact Et | done | done | apply (tk_id _ _ _ (en_task _ _ _ He _ Et)) | simpl; auto|].
  split; [by apply stop_ok | done].
Qed.

Lemma answer_source_width ls a t ip : task_ok ls a t -> in_width 32 ip -> in_width 32 (answer_source t ip).
Proof. intros [_ Hv Hm _] Hip. unfold answer_source. by repeat case_match. Qed.

(** The sending task never fails, and its messages are answers. *)
Lemma send_task_ok ls ls' s a e junk now :
  ls ⊆ ls' -> up_ok ls s -> Forall label_ok ls -> label_ok (UpSend a junk now) -> up_entries s !! a = Some e ->
  exists r, send_task junk now e (up_channel s) = Done r /\
    forall e' c, r = Some (e', c) -> entry_ok ls' a e' /\ same_owner e e' /\
      forall msg, msg ∈ default [] c -> msg ∈ default [] (up_channel s) \/ answer_ok ls s msg.
Proof.
  intros Hsub Ho Hls Hj Ea. destruct (uo_entries _ _ Ho _ _ Ea) as [_ He]. unfold send_task.
  destruct (un_forward_task e) as [t|] eqn:Et; [|eexists; by split].
  pose proof (en_task _ _ _ He _ Et) as Ht. destruct (ft_sending t); [|eexists; by split].
  destruct (ft_queue t) as [|[[packet n] [addr port]] q] eqn:Eq; [eexists; by split|].
  pose proof (tk_queue _ _ _ Ht) as Hq. rewrite Eq in Hq. apply Forall_cons in Hq as [(data & jb & Hin & Ep & En) Hq]. cbn [fst snd] in Hin, Ep, En.
  assert (forall id sending, in_width 16 id -> entry_ok ls' a (with_task (with_queue q (ft_receiving t) sending id t) e)
    /\ same_owner e (with_task (with_queue q (ft_receiving t) sending id t) e)) as Hnext.
  { intros id sending Hid. eapply with_task_ok; [exact Hsub | exact He | exact Et | done | done | done |]. simpl. intros x Hx. left. rewrite Eq. by right. }
  destruct addr as [ip|ip]; cycle 1.
  { eexists. split; [reflexivity|]. intros e' c [= <- <-]. destruct (Hnext (ft_ip_id t) true (tk_id _ _ _ Ht)). split_and!; auto. }
  assert (label_ok (UpDatagram a data (V4 ip, port) jb)) as (Hlen & _ & Hport & Hip) by (by eapply Forall_forall in Hls).
  destruct (en_owner _ _ _ He) as (p & hdr & nip & nport & Hp & Hh & Eo & Hr & Hnip & Hnport).
  assert (un_src_peer_id e = from_peer_id hdr /\ un_my_peer_id e = to_peer_id hdr /\ un_src_socket e = (V4 nip, nport)) as (Eo1 & Eo2 & Eo3)
    by (split_and!; congruence).
  pose proof (answer_source_width _ _ _ ip Ht Hip) as Hsrc.
  set (e1 := mark_active now e).
  destruct (udp_compose_spec junk e1 Hj) with (jb := jb) (data := data) (ip := answer_source t ip) (port := port) (id := ft_ip_id t)
      (nat_ip := nip) (nat_port := nport) as (ps & vs & qs & dg & Hsome & Hnone & Hqs & Hvs & Hadd & _);
    [simpl; rewrite Eo2; apply Hr | simpl; rewrite Eo1; apply Hr | exact Eo3 | done | done | done | apply Ht | done | done |].
  assert (forall id sending, in_width 16 id -> entry_ok ls' a (with_task (with_queue q (ft_receiving t) sending id t) e1)
    /\ same_owner e (with_task (with_queue q (ft_receiving t) sending id t) e1)) as Hnext1.
  { intros id sending Hid. destruct (Hnext id sending Hid) as [[Hw Hw2] Hs]. split; [|done]. by split. }
  rewrite Ep, En. destruct (up_channel s) as [ch|].
  - rewrite Hsome. cbn [mbind outcome_bind]. eexists. split; [reflexivity|]. intros e' c [= <- <-].
    destruct (Hnext1 (as_u16 (ft_ip_id t + 1)) true) as [H1' H2']; [apply wrap_in_width; lia|]. split_and!; try done.
    simpl. intros msg [Hm|Hm]%enqueue_elem; [by left|]. right.
    apply list_elem_of_lookup in Hm as [i Hi]. destruct (Forall2_lookup_r _ _ _ _ _ Hqs Hi) as (pc & Hpc & Hmsg).
    destruct (Forall2_lookup_l _ _ _ _ _ Hvs Hpc) as (v & Hv & Hvw). destruct (Forall_lookup_1 _ _ _ _ Hadd Hv) as (_ & _ & Hdst & Hproto).
    exists a, (un_src_peer_id e), (un_my_peer_id e), nip, nport, data, (V4 ip, port), jb, pc, v.
    split_and!; try done. unfold owner. by rewrite Ea, <- Eo3.
  - rewrite Hnone. cbn [mbind outcome_bind]. eexists. split; [reflexivity|]. intros e' c [= <- <-].
    destruct (Hnext1 (ft_ip_id t) false (tk_id _ _ _ Ht)). split_and!; auto.
Qed.

Lemma up_ok_idle ls ls' s s' :
  ls ⊆ ls' -> up_ok ls s -> up_ctx s' = up_ctx s -> up_entries s' = up_entries s -> up_next s' = up_next s ->
  up_nat_table s' = up_nat_table s -> (forall msg, msg ∈ default [] (up_channel s') -> msg ∈ default [] (up_channel s)) ->
  up_ok ls' s' /\ grows s s'.
Proof.
  intros Hsub Ho Ec Ee En Et Hch. assert (grows s s') as Hg by (by apply grows_refl). split; [|done]. split.
  - rewrite Ec. apply Ho.
  - rewrite Ee, En. intros a e Ha. destruct (uo_entries _ _ Ho _ _ Ha). split; [done | by eapply up_entry_ok_mono].
  - rewrite Et, Ee. apply Ho.
  - intros msg Hm. by eapply answer_ok_mono, (uo_channel _ _ Ho), Hch.
Qed.

Lemma up_clean_ok ls ls' s now : ls ⊆ ls' -> up_ok ls s -> up_ok ls' (clean_nat_table now s) /\ grows s (clean_nat_table now s).
Proof.
  intros Hsub Ho. set (s' := clean_nat_table now s).
  assert (forall a e, up_entries s !! a = Some e -> exists e', up_entries s' !! a = Some e' /\ same_owner e e' /\ un_forward_task e' = un_forward_task e) as Hfw.
  { intros a e Ha. unfold s', clean_nat_table. cbn [up_entries]. rewrite map_lookup_imap, Ha. simpl. eexists. split; [done|]. by destruct (_ && _). }
  assert (forall a e', up_entries s' !! a = Some e' -> exists e, up_entries s !! a = Some e) as Hbw.
  { intros a e'. unfold s', clean_nat_table. cbn [up_entries]. rewrite map_lookup_imap. destruct (up_entries s !! a); [eauto | done]. }
  assert (grows s s') as Hg.
  { intros a o. unfold owner. destruct (up_entries s !! a) as [e|] eqn:Ha; [|done]. destruct (Hfw a e Ha) as (e' & -> & (E1 & E2 & E3) & _).
    simpl. by rewrite E1, E2, E3. }
  split; [|done]. split; [apply Ho | | |].
  - intros a e' Ha'. destruct (Hbw a e' Ha') as [e Ha]. destruct (Hfw a e Ha) as (e2 & E & (E1 & E2 & E3) & Et).
    assert (e2 = e') as -> by congruence. destruct (uo_entries _ _ Ho _ _ Ha) as [Hn He]. split; [done|].
    eapply up_entry_ok_mono in He as [Hw Hk]; [|exact Hsub]. split; [by rewrite E1, E2, E3|]. rewrite Et. done.
  - intros k a [Hk _]%retain_Some. destruct (uo_table _ _ Ho _ _ Hk) as (e & Ha & Hs). destruct (Hfw a e Ha) as (e' & -> & (_ & _ & E3) & _).
    exists e'. by rewrite E3.
  - intros msg Hm. by eapply answer_ok_mono, (uo_channel _ _ Ho).
Qed.

Lemma forward_ok ls ls' s : ls ⊆ ls' -> up_ok ls s ->
  exists r, forward_to_peer_manager s = Done r /\
    forall s' acts, r = Some (s', acts) -> up_ok ls' s' /\ grows s s' /\ Forall (act_ok ls' s') acts.
Proof.
  intros Hsub Ho. unfold forward_to_peer_manager. destruct (up_channel s) as [[|msg q]|] eqn:Ec; try (eexists; by split).
  destruct (uo_channel _ _ Ho msg) as (a & peer & me & ip & port & d & src & j & pc & v & Hown & Hin & Hmsg & Hrest).
  { rewrite Ec. left. }
  destruct (to_peer_manager_spec (up_latency_first s) _ _ _ _ _ Hmsg) as (msg' & -> & Hmsg'). cbn [mbind outcome_bind].
  eexists. split; [reflexivity|]. intros s' acts [= <- <-].
  destruct (up_ok_idle ls ls' s (with_channel (Some q) s)) as [Ho' Hg]; try done.
  { rewrite Ec. simpl. intros m Hm. by right. }
  split_and!; [done | done|]. apply Forall_singleton. split.
  - exists a, peer, me, ip, port, d, src, j, pc, v. split_and!; try apply Hrest; [by apply Hg | by apply Hsub | done].
  - destruct Hmsg' as (pre & h & Hl & _ & Ht & _). unfold get_dst_peer_id. rewrite (layout_header _ _ _ _ Hl). simpl. by rewrite Ht.
Qed.

(** The entry for a packet's source. *)
Lemma nat_entry_ok ls ls' s now new_socket hdr ip port p a s1 :
  ls ⊆ ls' -> up_ok ls s -> in_range hdr -> packet_of ls' ip p -> peer_manager_header p = Done (Some hdr) ->
  in_width 32 ip -> in_width 16 port -> nat_entry_for now new_socket hdr (V4 ip, port) s = Some (a, s1) ->
  up_ok ls' s1 /\ grows s s1 /\ exists e, up_entries s1 !! a = Some e /\ un_src_socket e = (V4 ip, port).
Proof.
  intros Hsub Ho Hr Hp Hh Hip Hport. unfold nat_entry_for. destruct (up_nat_table s !! (V4 ip, port)) as [b|] eqn:Et.
  { intros [= <- <-]. destruct (up_ok_idle ls ls' s s) as [Ho' Hg]; try done. split_and!; try done. by apply (uo_table _ _ Ho). }
  destruct new_socket; [|done]. intros [= <- <-]. set (s1 := mkUdpProxy _ _ _ _ _ _ _ _).
  assert (up_entries s !! up_next s = None) as Hfree.
  { destruct (up_entries s !! up_next s) eqn:E; [|done]. destruct (uo_entries _ _ Ho _ _ E). lia. }
  assert (grows s s1) as Hg.
  { intros a o. unfold owner, s1. cbn [up_entries]. destruct (decide (a = up_next s)) as [->|]; [by rewrite Hfree|]. by rewrite lookup_insert_ne. }
  split_and!; [|done|].
  - split; [apply Ho | | |].
    + intros a e. unfold s1. cbn [up_entries up_next]. destruct (decide (a = up_next s)) as [->|Hne].
      * rewrite lookup_insert_eq. intros [= <-]. split; [lia|]. split; [|done]. exists p, hdr, ip, port. done.
      * rewrite lookup_insert_ne by done. intros Ha. destruct (uo_entries _ _ Ho _ _ Ha). split; [lia | by eapply up_entry_ok_mono].
    + intros k a. unfold s1. cbn [up_entries up_nat_table]. destruct (decide (k = (V4 ip, port))) as [->|Hk].
      * rewrite lookup_insert_eq. intros [= <-]. eexists. rewrite lookup_insert_eq. split; done.
      * rewrite lookup_insert_ne by done. intros Ha. destruct (uo_table _ _ Ho _ _ Ha) as (e & He & Hs). exists e. split; [|done].
        rewrite lookup_insert_ne; [done|]. destruct (uo_entries _ _ Ho _ _ He). lia.
    + intros msg Hm. by eapply answer_ok_mono, (uo_channel _ _ Ho).
  - eexists. unfold s1. cbn [up_entries]. rewrite lookup_insert_eq. done.
Qed.

Lemma start_forward_ok ls a e e' real dst :
  entry_ok ls a e -> in_width 32 dst -> start_forward ctx real dst e = Some e' -> entry_ok ls a e' /\ same_owner e e'.
Proof.
  intros He Hd. unfold start_forward. destruct (un_forward_task e) as [t|]; [by intros [= <-]|].
  destruct (ctx_ipv4 ctx) as [inet|] eqn:Ei; [|done]. intros [= <-]. split; [|done]. split; [apply He|].
  intros t [= <-]. split; [vm_compute; split; congruence | by apply Hctx | done | constructor].
Qed.

Lemma from_peer_ok ls ls' s p new_socket now o s' acts :
  ls ⊆ ls' -> UpFromPeer p new_socket now ∈ ls' -> whole_packet p -> up_ok ls s ->
  try_handle_packet now new_socket p s = Done (o, s', acts) -> up_ok ls' s' /\ grows s s' /\ Forall (act_ok ls' s') acts.
Proof.
  intros Hsub Hin (pre & h & body & Hl) Ho E. unfold try_handle_packet in E. rewrite (uo_ctx _ _ Ho) in E.
  assert (forall r, up_ok ls' (with_reassembler r s) /\ grows s (with_reassembler r s)) as Hidle by (intros r; by eapply up_ok_idle).
  apply bind_Done in E as ([[[hdr v] real]|] & Eg & E); [|injection E as <- <- <-; destruct (up_ok_idle ls ls' s s); done].
  apply bind_Done in E as ([data r] & Ew & E). destruct (Hidle r) as [Ho0 Hg0].
  destruct (data ≫= udp_view) as [u|] eqn:Eu; [|injection E as <- <- <-; done].
  destruct data as [b|]; [|done]. simpl in Eu.
  destruct (proxied_packet_some _ _ _ _ _ _ _ Eg) as (Hh & (d & Hd & Hv) & _).
  assert (hdr = h) as -> by (rewrite (layout_header _ _ _ _ Hl) in Hh; congruence).
  pose proof (view_range _ _ Hv) as (Hsrc & Hdst & _ & _). pose proof (udp_view_range _ _ Eu) as [Hport _].
  destruct (nat_entry_for _ _ _ _ _) as [[a s1]|] eqn:En; [|injection E as <- <- <-; done].
  destruct (nat_entry_ok ls' ls' (with_reassembler r s) now new_socket h (view_source v) (uv_source u) p a s1)
    as (Ho1 & Hg1 & e & Ea & Esock); try done; [apply Hl | by exists new_socket, now, d, v|].
  rewrite Ea in E. cbn [unwrap mbind outcome_bind] in E. rewrite (uo_ctx _ _ Ho1) in E.
  destruct (start_forward _ _ _ e) as [e2|] eqn:Es; [|injection E as <- <- <-; split_and!; [done | by apply (grows_trans _ _ _ Hg0 Hg1) | done]].
  destruct (uo_entries _ _ Ho1 _ _ Ea) as [_ He]. destruct (start_forward_ok _ _ _ _ _ _ He Hdst Es) as [He2 (E1 & E2 & E3)].
  injection E as <- <- <-.
  destruct (entry_insert ls' ls' s1 (with_entries (<[a := mark_active now e2]> (up_entries s1)) s1) a e (mark_active now e2)) as [Ho2 Hg2]; try done.
  { destruct He2. by split. } { by left. }
  split_and!; [done | by apply (grows_trans _ _ _ Hg0 (grows_trans _ _ _ Hg1 Hg2))|]. apply Forall_singleton.
  exists (un_src_peer_id e), (un_my_peer_id e), p, new_socket, now, h, v, (up_cidr_set s), real, (up_reassembler s), r, b, u.
  split_and!; try done. apply Hg2. unfold owner. by rewrite Ea, <- Esock.
Qed.

(** Packets that are not fragments. *)
Definition unfragmented (l : up_label) : Prop :=
  match l with
  | UpFromPeer p _ _ => forall data v, payload p = Done data -> ipv4_view data = Some v -> is_packet_fragmented v = false
  | _ => True
  end.

Lemma from_peer_done ls s p new_socket now :
  up_ok ls s -> whole_packet p -> unfragmented (UpFromPeer p new_socket now) -> exists r, try_handle_packet now new_socket p s = Done r.
Proof.
  intros Ho Hp Hf. unfold try_handle_packet. destruct (proxied_packet_done IP_UDP (up_ctx s) (up_cidr_set s) p Hp) as [g Eg]. rewrite Eg.
  cbn [mbind outcome_bind]. destruct g as [[[hdr v] real]|]; [|by eexists].
  destruct (proxied_packet_some _ _ _ _ _ _ _ Eg) as (_ & (d & Hd & Hv) & _). unfold whole_payload. rewrite (Hf _ _ Hd Hv). cbn [mbind outcome_bind option_bind].
  destruct (udp_view (view_payload v)) as [u|]; [|by eexists].
  destruct (nat_entry_for now new_socket hdr (V4 (view_source v), uv_source u) (with_reassembler (up_reassembler s) s)) as [[a s1]|] eqn:En; [|by eexists]. unfold nat_entry_for in En. cbn [up_nat_table with_reassembler] in En.
  assert (exists e, up_entries s1 !! a = Some e) as [e ->].
  { destruct (up_nat_table s !! _) as [b|] eqn:Et.
    - injection En as <- <-. destruct (uo_table _ _ Ho _ _ Et) as (e & He & _). eauto.
    - destruct new_socket; [|done]. injection En as <- <-. cbn [up_entries]. rewrite lookup_insert_eq. eauto. }
  cbn [unwrap mbind outcome_bind]. destruct (start_forward _ _ _ _); by eexists.
Qed.

Lemma up_step_ok : step_inv up_step label_ok unfragmented up_ok act_ok.
Proof.
  intros ls l s Ho Hls. apply Forall_app in Hls as [Hls Hl]. apply (proj1 (Forall_singleton _ _)) in Hl. set (ls' := ls ++ [l]).
  assert (ls ⊆ ls') as Hsub by (unfold ls'; set_solver). assert (l ∈ ls') as Hin by (apply elem_of_app; right; left).
  destruct (up_ok_idle ls ls' s s) as [Hs Hg0]; try done. match goal with |- ?A /\ ?B /\ ?C => enough ((A /\ B) /\ C) as [[? ?] ?] by done end.
  split; [|split; [done|]; intros act; by apply act_ok_mono].
  enough ((unfragmented l -> exists r, up_step l s = Done r) /\
    forall s' acts, up_step l s = Done (Some (s', acts)) -> up_ok ls' s' /\ grows s s' /\ Forall (act_ok ls' s') acts) as [? Hok].
  { split; [done|]. intros s' acts E. destruct (Hok s' acts E) as (? & ? & ?). split_and!; [done | | done]. intros act. by apply act_ok_mono. }
  assert (forall a f s' acts, (forall e e', entry_ok ls a e -> f e = Some e' -> entry_ok ls' a e' /\ same_owner e e') ->
    Done (on_entry a f s) = Done (Some (s', acts)) -> up_ok ls' s' /\ grows s s' /\ Forall (act_ok ls' s') acts) as Hon.
  { intros a f s' acts Hf E. assert (on_entry a f s = Some (s', acts)) as E' by congruence.
    by destruct (on_entry_ok ls ls' s f a s' acts Hsub Ho E' Hf) as (? & ? & ->). }
  destruct l as [p ns now|a data src junk|a|a junk now|a|now|now| |cidrs]; cbn [up_step].
  - split; [intros Hf; destruct (from_peer_done ls s p ns now Ho Hl Hf) as [[[o s1] acts1] ->]; by eexists|].
    intros s' acts E. apply bind_Done in E as ([[o s1] acts1] & E & E2). injection E2 as <- <-. by eapply from_peer_ok.
  - split; [eauto|]. intros s' acts. apply Hon. intros e e' He. by eapply recv_task_ok.
  - split; [eauto|]. intros s' acts. apply Hon. intros e e' He. by eapply recv_fails_ok.
  - destruct (up_entries s !! a) as [e|] eqn:Ea; [|split; [eauto | done]].
    destruct (send_task_ok ls ls' s a e junk now) as (r & -> & Hr); try done. cbn [mbind outcome_bind]. split; [eauto|].
    intros s' acts E. destruct r as [[e' c]|]; [|done]. injection E as <- <-. destruct (Hr e' c eq_refl) as (He' & (E1 & E2 & E3) & Hc).
    set (s1 := with_channel _ _). assert (grows s s1) as Hg by (by eapply grows_insert).
    destruct (entry_insert ls ls' s s1 a e e') as [Ho' _]; try done.
    intros msg Hm. destruct (Hc msg Hm) as [?|Ha]; [by left|]. right. by eapply answer_ok_mono.
  - split; [eauto|]. intros s' acts. apply Hon. intros e e' He. by eapply task_ends_ok.
  - split; [eauto|]. intros s' acts [= <- <-]. destruct (up_clean_ok ls ls' s now Hsub Ho). done.
  - split; [eauto|]. intros s' acts [= <- <-].
    destruct (up_ok_idle ls ls' s (with_reassembler (remove_expired_packets now (up_reassembler s)) s)); done.
  - destruct (forward_ok ls ls' s Hsub Ho) as (r & -> & Hr). split; [eauto|]. intros s' acts [= ->]. by apply Hr.
  - split; [eauto|]. intros s' acts [= <- <-]. match goal with |- up_ok _ ?x /\ _ => destruct (up_ok_idle ls ls' s x) end; done.
Qed.

Lemma up_new_ok lf cidrs : up_ok [] (udp_proxy_new ctx lf cidrs).
Proof. split; simpl; [done | | |]; intros *; rewrite ?lookup_empty; try done. by intros ?%not_elem_of_nil. Qed.
End isolation.

(** C15.  However packets of peers, datagrams of the network and the proxy's tasks
    interleave, a socket serves one source only: a datagram that leaves through
    it is the payload of a packet from that source and goes to the packet's
    destination, as translated; a packet for a peer goes to the peer and the
    address the socket was made for, and only after a datagram arrived at that
    socket.  As long as no packet is a fragment, none of this panics. *)
Theorem udp_proxy_isolated `{Ipv4CidrLib} `{Ipv4CodecLaws} `{UdpLibLaws} (ctx : GlobalCtx) (latency_first : bool) (cidrs : CidrSet)
    (ls : list up_label) (Hctx : forall inet, ctx_ipv4 ctx = Some inet -> in_width 32 (inet_address inet))
    (Hls : Forall label_ok ls) :
  (Forall unfragmented ls -> exists r, up_run ls (udp_proxy_new ctx latency_first cidrs) = Done r) /\
  forall s acts, up_run ls (udp_proxy_new ctx latency_first cidrs) = Done (s, acts) ->
    (forall a data dst, SendTo a data dst ∈ acts ->
       exists peer me packet new_socket now hdr v c real r r' b u,
         owner s a = Some (peer, me, (V4 (view_source v), uv_source u)) /\ UpFromPeer packet new_socket now ∈ ls /\
         proxied_packet IP_UDP ctx c packet = Done (Some (hdr, v, real)) /\ whole_payload now v r = Done (Some b, r') /\
         udp_view b = Some u /\ data = uv_payload u /\ dst = dst_socket ctx (view_destination v) real (uv_destination u)) /\
    (forall msg to_peer, SendForProxy msg to_peer ∈ acts ->
       exists a me ip port data src junk piece v, owner s a = Some (to_peer, me, (V4 ip, port)) /\ UpDatagram a data src junk ∈ ls /\
         reply_msg true me to_peer piece msg /\ ipv4_view piece = Some v /\ view_destination v = ip /\ view_protocol v = IP_UDP).
Proof.
  destruct (run_inv _ _ _ _ _ [] ls (udp_proxy_new ctx latency_first cidrs) [] (up_step_ok ctx Hctx) (up_new_ok _ _ _) Hls) as [Hd Hr]; [done|].
  split; [done|]. intros s acts E. destruct (Hr s acts E) as [_ Ha]. rewrite Forall_forall in Ha. split.
  - intros a data dst Hin. exact (Ha _ Hin).
  - intros msg to_peer Hin. destruct (Ha _ Hin) as [(a & peer & me & ip & port & d & src & j & pc & v & Ho & Hd' & Hm & Hrest) Hdst].
    assert (peer = to_peer) as ->; [|exists a, me, ip, port, d, src, j, pc, v; split_and!; (done || apply Hrest)].
    destruct Hm as (pre & h & Hl & _ & Ht & _). unfold get_dst_peer_id in Hdst. rewrite (layout_header _ _ _ _ Hl) in Hdst. simpl in Hdst. congruence.
Qed.

(** ** A request and its answer *)

Section roundtrip.
Context `{Ipv4CidrLib} `{Ipv4CodecLaws} `{UdpLibLaws}.
Implicit Types (s : UdpProxy) (e : UdpNatEntry).

(** An entry that is ready for the answers of a peer's source. *)
Record ready (virtual real mapped peer me : Z) (key : SocketAddr) e (t : ForwardTask) : Prop := {
  rd_task : un_forward_task e = Some t;
  rd_addrs : ft_virtual_ipv4 t = virtual /\ ft_real_ipv4 t = real /\ ft_mapped_ipv4 t = mapped;
  rd_running : ft_receiving t = true /\ ft_sending t = true /\ ft_queue t = [];
  rd_id : in_width 16 (ft_ip_id t);
  rd_owner : un_src_peer_id e = peer /\ un_my_peer_id e = me /\ un_src_socket e = key
}.

(** The source is new, or its task is still running for the same addresses. *)
Definition serves s (virtual real mapped peer me : Z) (key : SocketAddr) : Prop :=
  forall a, up_nat_table s !! key = Some a -> exists e t, up_entries s !! a = Some e /\ ready virtual real mapped peer me key e t.

(** A datagram of a peer for [real], known to it as [view_destination v]. *)
Record request (s : UdpProxy) (inet : Ipv4Inet) (p : ZCPacket) (h : PeerManagerHeader) (v : Ipv4View) (u : UdpView) (real : Z) : Prop := {
  rq_packet : exists pre body, laid_out p pre h body /\ ipv4_view body = Some v;
  rq_data : pm_packet_type h = packet_type_u8 PktData /\ is_no_proxy h = Done false;
  rq_udp : view_version v = 4 /\ view_protocol v = IP_UDP /\ is_packet_fragmented v = false /\ udp_view (view_payload v) = Some u;
  rq_own : ctx_ipv4 (up_ctx s) = Some inet /\ in_width 32 (inet_address inet);
  rq_proxied : contains_v4 (up_cidr_set s) (view_destination v) = Some real;
  rq_real : is_loopback (V4 real) = false /\ in_width 32 real;
  rq_serves : serves s (inet_address inet) real (view_destination v) (from_peer_id h) (to_peer_id h) (V4 (view_source v), uv_source u)
}.

Lemma request_sent s inet p h v u real now :
  request s inet p h v u real ->
  exists a s1 e t, up_step (UpFromPeer p true now) s =
      Done (Some (s1, [SendTo a (uv_payload u) (dst_socket (up_ctx s) (view_destination v) real (uv_destination u))])) /\
    up_entries s1 !! a = Some e /\
    ready (inet_address inet) real (view_destination v) (from_peer_id h) (to_peer_id h) (V4 (view_source v), uv_source u) e t /\
    up_channel s1 = up_channel s /\ up_latency_first s1 = up_latency_first s.
Proof.
  intros [(pre & body & Hl & Hv) [Ht Hnp] (Hver & Hproto & Hfrag & Hu) [Hi _] Hc _ Hs]. cbn [up_step]. unfold try_handle_packet.
  rewrite (proxied_packet_taken IP_UDP (up_ctx s) (up_cidr_set s) p pre h body v real) by (done || eauto).
  cbn [mbind outcome_bind]. unfold whole_payload. rewrite Hfrag. cbn [mbind outcome_bind option_bind]. rewrite Hu. unfold nat_entry_for.
  cbn [up_nat_table with_reassembler]. destruct (up_nat_table s !! (V4 (view_source v), uv_source u)) as [a|] eqn:Et.
  - destruct (Hs a Et) as (e & t & Ea & Hr). exists a. cbn [up_entries with_reassembler]. rewrite Ea. cbn [unwrap mbind outcome_bind up_ctx with_reassembler].
    unfold start_forward. rewrite (rd_task _ _ _ _ _ _ _ _ Hr). do 3 eexists. split; [reflexivity|]. cbn [up_entries with_entries].
    rewrite lookup_insert_eq. split; [done|]. split; [|done]. destruct Hr. by split.
  - exists (up_next s). cbn [up_entries]. rewrite lookup_insert_eq. cbn [unwrap mbind outcome_bind up_ctx with_reassembler].
    unfold start_forward. cbn [un_forward_task udp_nat_entry_new]. rewrite Hi. do 3 eexists. split; [reflexivity|]. cbn [up_entries with_entries].
    rewrite lookup_insert_eq. split; [done|]. split; [|done]. split; try done.
Qed.

(** The address of the answer is the one the request was for. *)
Lemma answer_from inet (ctx : GlobalCtx) t dst real port :
  ctx_ipv4 ctx = Some inet -> is_loopback (V4 real) = false ->
  ft_virtual_ipv4 t = inet_address inet /\ ft_real_ipv4 t = real /\ ft_mapped_ipv4 t = dst ->
  exists ip, dst_socket ctx dst real port = (V4 ip, port) /\ answer_source t ip = dst /\ (ip = real \/ ip = LOCALHOST).
Proof.
  intros Hi Hl (Ev & Er & Em). unfold dst_socket, own_address. rewrite Hi. cbn [fmap option_fmap option_map].
  destruct (bool_decide_reflect (Some dst = Some (inet_address inet))) as [E|E].
  - injection E as ->. exists LOCALHOST. split_and!; [done | | by right]. unfold answer_source.
    change (is_loopback (V4 LOCALHOST)) with true. cbv iota. rewrite Ev, Er, Em. by destruct (_ =? _).
  - exists real. split_and!; [done | | by left]. unfold answer_source. rewrite Hl, Er, Em. by rewrite Z.eqb_refl.
Qed.

(** Messages that were waiting leave before. *)
Lemma forward_waiting s q qs : up_channel s = Some (q ++ qs) ->
  (forall m, m ∈ q -> exists me peer piece, reply_msg true me peer piece m) ->
  exists s' acts, up_run (replicate (length q) UpForward) s = Done (s', acts) /\ up_channel s' = Some qs /\ length acts = length q.
Proof.
  revert s. induction q as [|m q IH]; intros s Hc Hq; [by exists s, []|].
  unfold up_run in *. cbn [length replicate run up_step]. unfold forward_to_peer_manager. rewrite Hc.
  destruct (Hq m ltac:(left)) as (me & peer & pc & Hm). cbn [app].
  destruct (to_peer_manager_spec (up_latency_first s) _ _ _ _ _ Hm) as (m' & -> & _). cbn [mbind outcome_bind default].
  destruct (IH (with_channel (Some (q ++ qs)) s) eq_refl) as (s' & acts & E & Hc' & Ha); [intros x Hx; apply Hq; by right|].
  simpl. rewrite E. cbn [mbind outcome_bind]. exists s', (SendForProxy m' peer :: acts). split_and!; [done | done | simpl; by rewrite Ha].
Qed.

Lemma forward_all s ps qs me peer :
  up_channel s = Some qs -> Forall2 (reply_msg true me peer) ps qs ->
  exists s' acts, up_run (replicate (length qs) UpForward) s = Done (s', acts) /\ up_channel s' = Some [] /\
    Forall2 (fun p act => exists msg, act = SendForProxy msg peer /\ reply_msg true me peer p msg) ps acts.
Proof.
  intros Hc Hq. revert s Hc. induction Hq as [|p q ps qs Hm Hq IH]; intros s Hc; [by exists s, []|].
  unfold up_run in *. cbn [length replicate run up_step]. unfold forward_to_peer_manager. rewrite Hc.
  destruct (to_peer_manager_spec (up_latency_first s) _ _ _ _ _ Hm) as (q' & -> & Hm'). cbn [mbind outcome_bind default].
  destruct (IH (with_channel (Some qs) s) eq_refl) as (s' & acts & E & Hc' & Ha). simpl. rewrite E. cbn [mbind outcome_bind].
  exists s', (SendForProxy q' peer :: acts). split_and!; [done | done|]. constructor; eauto.
Qed.

(** A datagram at the socket of a ready entry becomes messages in the channel. *)
Lemma answer_queued s a e t inet real dst peer me nip nport ip port data jb junk now q :
  up_entries s !! a = Some e -> ready (inet_address inet) real dst peer me (V4 nip, nport) e t ->
  up_channel s = Some q -> len q + 52 <= PROXY_CHANNEL_CAP ->
  in_width 32 me -> in_width 32 peer -> in_width 32 nip -> in_width 16 nport -> in_width 16 port -> in_width 32 (answer_source t ip) ->
  len data <= 65507 -> (forall i, is_byte (junk i)) ->
  exists s' ps vs qs dgram, up_run [UpDatagram a data (V4 ip, port) jb; UpSend a junk now] s = Done (s', []) /\ up_channel s' = Some (q ++ qs) /\
    Forall2 (reply_msg true me peer) ps qs /\ Forall2 (fun p v => ipv4_view p = Some v) ps vs /\
    Forall (fun v => view_version v = 4 /\ view_source v = answer_source t ip /\ view_destination v = nip /\ view_protocol v = IP_UDP) vs /\
    udp_view dgram = Some {| uv_source := port; uv_destination := nport; uv_payload := data |} /\
    udp_sum_ok (answer_source t ip) nip dgram = true /\
    forall now r vs', packets r !! {| key_source := answer_source t ip; key_destination := nip; key_id := ft_ip_id t |} = None -> vs' ≡ₚ vs ->
      add_all now (answer_source t ip) nip vs' r = Done (replicate (length ps - 1) None ++ [Some dgram], r).
Proof.
  intros Ea [Et _ (Er & Es & Eq) Hid (Eo1 & Eo2 & Eo3)] Hc Hroom Hme Hpeer Hnip Hnport Hport Hsrc Hlen Hj.
  set (e1 := with_task (with_queue [(uninit jb HEADER_ROOM ++ data, len data, (V4 ip, port))] (negb (un_stopped e)) true (ft_ip_id t) t) e).
  assert (recv_task jb data (V4 ip, port) e = Some e1) as E1.
  { unfold recv_task. rewrite Et, Er, Es, Eq. cbn [negb app]. done. }
  unfold up_run. cbn [run up_step]. unfold on_entry. rewrite Ea. cbn [mbind option_bind]. rewrite E1. cbn [mbind outcome_bind option_bind from_option id].
  cbn [up_entries with_entries]. rewrite lookup_insert_eq. cbn [up_channel with_entries]. rewrite Hc.
  unfold send_task. cbn [un_forward_task e1 with_task ft_sending ft_queue with_queue].
  destruct (udp_compose_spec junk (mark_active now e1) Hj) with (jb := jb) (data := data) (ip := answer_source t ip) (port := port)
      (id := ft_ip_id t) (nat_ip := nip) (nat_port := nport)
    as (ps & vs & qs & dg & Hsome & _ & Hqs & Hvs & Hadd & Hdg & Hsum & Hn & Hall);
    [by simpl; rewrite Eo2 | by simpl; rewrite Eo1 | done..|].
  cbn [ft_ip_id with_queue]. change (answer_source (with_queue _ _ _ _ t) ip) with (answer_source t ip). fold e1. rewrite Hsome.
  rewrite enqueue_room by lia.
  cbn [mbind outcome_bind from_option id]. eexists _, ps, vs, qs, dg. split; [reflexivity|].
  cbn [un_my_peer_id un_src_peer_id mark_active e1 with_task] in Hqs. rewrite Eo1, Eo2 in Hqs. by split_and!.
Qed.
(** The moves of an entry's own tasks. *)
Definition own_move (a : nat) (l : up_label) : bool :=
  match l with
  | UpDatagram b _ _ _ | UpRecvFails b | UpSend b _ _ | UpTaskEnds b => bool_decide (a = b)
  | _ => false
  end.

(** An entry stays ready while its tasks wait. *)
Lemma ready_step ctx ls s l s' acts a e t virtual real mapped peer me key :
  up_ok ctx ls s -> own_move a l = false -> up_entries s !! a = Some e -> ready virtual real mapped peer me key e t ->
  up_step l s = Done (Some (s', acts)) -> exists e', up_entries s' !! a = Some e' /\ ready virtual real mapped peer me key e' t.
Proof.
  intros Ho Hown Ea Hr E.
  assert (forall b f, a <> b -> Done (on_entry b f s) = Done (Some (s', acts)) ->
    exists e', up_entries s' !! a = Some e' /\ ready virtual real mapped peer me key e' t) as Hon.
  { intros b f Hne E'. unfold on_entry in E'. destruct (up_entries s !! b) as [eb|]; [|done]. simpl in E'.
    destruct (f eb) as [eb'|]; [|done]. injection E' as <- <-. exists e. cbn [up_entries with_entries]. by rewrite lookup_insert_ne. }
  destruct l as [p ns now|b data src junk|b|b junk now|b|now|now| |cidrs]; cbn [up_step own_move] in *;
    try (apply bool_decide_eq_false in Hown; by eapply Hon).
  - apply bind_Done in E as ([[o s1] acts1] & E & E2). injection E2 as <- <-. unfold try_handle_packet in E.
    apply bind_Done in E as ([[[hdr v] r]|] & _ & E); [|injection E as <- <- <-; by exists e].
    apply bind_Done in E as ([data rs] & _ & E). destruct (data ≫= udp_view) as [u|]; [|injection E as <- <- <-; by exists e].
    destruct (nat_entry_for _ _ _ _ _) as [[b s2]|] eqn:En; [|injection E as <- <- <-; by exists e].
    assert (up_entries s2 !! a = Some e) as Ea2.
    { unfold nat_entry_for in En. cbn [up_nat_table with_reassembler] in En. destruct (up_nat_table s !! _); [by injection En as <- <-|].
      destruct ns; [|done]. injection En as <- <-. cbn [up_entries up_next with_reassembler]. destruct (uo_entries _ _ _ Ho _ _ Ea).
      rewrite lookup_insert_ne by lia. done. }
    destruct (up_entries s2 !! b) as [eb|] eqn:Eb; [|done]. cbn [unwrap mbind outcome_bind] in E.
    destruct (start_forward _ _ _ eb) as [e2|] eqn:Es; [|injection E as <- <- <-; by exists e]. injection E as <- <- <-.
    cbn [up_entries with_entries]. destruct (decide (a = b)) as [<-|Hne]; [|exists e; by rewrite lookup_insert_ne].
    rewrite lookup_insert_eq. eexists; split; [done|]. rewrite Ea2 in Eb. injection Eb as <-.
    unfold start_forward in Es. rewrite (rd_task _ _ _ _ _ _ _ _ Hr) in Es. injection Es as <-. destruct Hr. by split.
  - apply bool_decide_eq_false in Hown. destruct (up_entries s !! b) as [eb|]; [|done]. apply bind_Done in E as (r & _ & E).
    destruct r as [[eb' c]|]; [|done]. injection E as <- <-. exists e. cbn [up_entries with_channel with_entries]. by rewrite lookup_insert_ne.
  - injection E as <- <-. unfold clean_nat_table. cbn [up_entries]. rewrite map_lookup_imap, Ea. simpl. eexists; split; [done|].
    destruct (_ && _); [|done]. destruct Hr. by split.
  - injection E as <- <-. by exists e.
  - unfold forward_to_peer_manager in E. destruct (up_channel s) as [[|m q]|]; [done | | done].
    apply bind_Done in E as ([m' peer'] & _ & E). injection E as <- <-. by exists e.
  - injection E as <- <-. by exists e.
Qed.

Lemma ready_run ctx (Hctx : forall inet, ctx_ipv4 ctx = Some inet -> in_width 32 (inet_address inet)) ls0 ls s s' acts a e t virtual real mapped peer me key :
  up_ok ctx ls0 s -> Forall label_ok (ls0 ++ ls) -> Forall (fun l => own_move a l = false) ls ->
  up_entries s !! a = Some e -> ready virtual real mapped peer me key e t -> up_run ls s = Done (s', acts) ->
  exists e', up_entries s' !! a = Some e' /\ ready virtual real mapped peer me key e' t.
Proof.
  unfold up_run. revert ls0 s e acts. induction ls as [|l ls IH]; intros ls0 s e acts Ho Hls Hown Ea Hr; cbn [run].
  { intros [= <- <-]. by exists e. }
  intros E. apply Forall_cons in Hown as [Hl Hown]. rewrite cons_middle, app_assoc in Hls.
  assert (Forall label_ok (ls0 ++ [l])) as Hls1 by (by apply Forall_app in Hls as [? _]).
  apply bind_Done in E as (r & Es & E). destruct (up_step_ok ctx Hctx ls0 l s Ho Hls1) as (_ & Hok & Hidle & _).
  destruct r as [[s1 acts1]|]; simpl in E; apply bind_Done in E as ([s2 acts2] & E2 & E); injection E as <- <-.
  - destruct (ready_step ctx ls0 s l s1 acts1 a e t virtual real mapped peer me key Ho Hl Ea Hr Es) as (e1 & Ea1 & Hr1).
    destruct (Hok s1 acts1 Es) as [Ho1 _]. by apply (IH (ls0 ++ [l]) s1 e1 acts2).
  - by apply (IH (ls0 ++ [l]) s e acts2).
Qed.
End roundtrip.


(** ** Datagrams on the wire *)

Definition udp_checksum (from to : Z) (b : bytes) : Z :=
  internet_checksum (be32 from ++ be32 to ++ [0; IP_UDP] ++ be16 (len b) ++ take 6 b ++ drop 8 b).

#[global] Instance wire_udp : UdpLib := {|
  udp_view b := if len b <? 8 then None
                else Some {| uv_source := wrap 16 (byte_at b 0 * 256 + byte_at b 1); uv_destination := wrap 16 (byte_at b 2 * 256 + byte_at b 3);
                             uv_payload := drop 8 b |};
  write_udp sport dport n from to b :=
    let head := be16 sport ++ be16 dport ++ be16 n in
    head ++ be16 (udp_checksum from to (head ++ [0; 0] ++ drop 8 b)) ++ drop 8 b;
  udp_sum_ok from to b := bool_decide (take 2 (drop 6 b) = be16 (udp_checksum from to b))
|}.

#[global] Instance wire_udp_laws : UdpLibLaws.
Proof.
  assert (forall sp dp n from to b, 8 <= len b -> len (write_udp sp dp n from to b) = len b) as Hlen.
  { intros. unfold write_udp, wire_udp. cbv zeta. rewrite !len_app. unfold len in *. rewrite length_drop. simpl. lia. }
  split.
  - intros b Hb. unfold udp_view, wire_udp. rewrite (proj2 (Z.ltb_ge _ _)) by done. eauto.
  - intros b u. unfold udp_view, wire_udp. destruct (_ <? _); [done|]. intros [= <-]. split; apply wrap_in_width; lia.
  - done.
  - intros sp dp n from to b Hb Hsp Hdp. unfold udp_view. cbn [wire_udp]. rewrite Hlen, (proj2 (Z.ltb_ge _ _)) by done.
    unfold write_udp, wire_udp. cbn [be16 app byte_at lookup list_lookup default drop]. unfold byte_at. cbn [lookup list_lookup default from_option id].
    by rewrite !be16_value.
  - intros sp dp n from to b Hb Hn. unfold udp_sum_ok. apply bool_decide_eq_true_2. unfold write_udp. cbn [wire_udp be16 app drop take].
    unfold udp_checksum. cbn [be16 app drop take]. unfold len. cbn [length]. done.
Qed.

Definition udp_datagram (sport dport : Z) (data : bytes) : bytes := be16 sport ++ be16 dport ++ be16 (8 + len data) ++ [0; 0] ++ data.
Definition udp_request (from src sport dst dport : Z) (data : bytes) : ZCPacket :=
  peer_packet from (ip_body IP_UDP src dst (udp_datagram sport dport data)).

Definition udp_start : UdpProxy := udp_proxy_new sample_ctx false sample_cidrs.

Definition first_request : ZCPacket := udp_request 5 50 1000 517 80 [1; 2; 3].

Definition first_view : Ipv4View := {|
  view_version := 4; view_source := 50; view_destination := 517; view_protocol := IP_UDP; identification := 1; fragment_offset := 0;
  flags := DontFragment; total_length := 31; header_length := 5; view_payload := udp_datagram 1000 80 [1; 2; 3] |}.

Lemma first_request_channel :
  match up_step (UpFromPeer first_request true 0) udp_start with Done (Some r) => up_channel r.1 = Some [] | _ => False end.
Proof. vm_compute. reflexivity. Qed.


Lemma udp_proxy_isolated_witness :
  (exists r, up_run [UpFromPeer first_request true 0; UpDatagram 0 [7; 8] (V4 261, 80) (fun _ => 0); UpSend 0 (fun _ => 0) SEC; UpForward]
    udp_start = Done r).
Proof.
  refine (proj1 (udp_proxy_isolated sample_ctx false sample_cidrs _ _ _) _).
  - intros inet [= <-]. split; vm_compute; congruence.
  - apply Forall_cons. split.
    { exists [], (sample_header 5), (ip_body IP_UDP 50 517 (udp_datagram 1000 80 [1; 2; 3])). apply peer_packet_layout. split; lia. }
    apply Forall_cons. split.
    { split; [unfold len; simpl; lia|]. split; [|split; split; simpl; lia]. intros i. split; lia. }
    apply Forall_cons. split; [intros i; split; lia|]. apply Forall_cons. split; [exact I | constructor].
  - apply Forall_cons. split; [|repeat constructor]. intros data v E. unfold first_request, udp_request in E.
    rewrite (layout_payload _ _ _ _ (peer_packet_layout 5 _ ltac:(split; lia))) in E. injection E as <-.
    intros E. assert (first_view = v) as <- by (enough (Some first_view = Some v) by congruence; rewrite <- E; vm_compute; reflexivity). reflexivity.
Defined.

(** ** What goes wrong *)

(** Peers and source addresses of the packets sent back. *)
Definition answers_sent (r : outcome (UdpProxy * list up_action)) : list (Z * option Z) :=
  match r with
  | Done (_, acts) =>
      omap (fun act => match act with
                       | SendForProxy msg peer =>
                           Some (peer, match payload msg with Done b => view_source <$> ipv4_view b | Panicked _ => None end)
                       | SendTo _ _ _ => None
                       end) acts
  | Panicked _ => []
  end.

Definition answered (a : nat) (src : SocketAddr) : list up_label :=
  [UpDatagram a [7; 8] src (fun _ => 0); UpSend a (fun _ => 0) SEC; UpForward].

(** The forward task knows the destination of the first packet only: when the
    source writes to a second one, its answers come from the real address. *)
Example second_destination_unmapped :
  answers_sent (up_run ([UpFromPeer first_request true 0; UpFromPeer (udp_request 5 50 1000 518 80 [4]) true 0] ++
                        answered 0 (V4 261, 80) ++ answered 0 (V4 262, 80)) udp_start) = [(5, Some 517); (5, Some 262)].
Proof. vm_compute. reflexivity. Qed.

(** A source that connects anew gets another peer id, but its answers still go
    to the old one. *)
Example answers_to_old_peer :
  answers_sent (up_run ([UpFromPeer first_request true 0; UpFromPeer (udp_request 6 50 1000 517 80 [4]) true 0] ++
                        answered 0 (V4 261, 80)) udp_start) = [(5, Some 517)].
Proof. vm_compute. reflexivity. Qed.

(** After two minutes without an answer the forward task ends, and the entry is
    not replaced as long as the source goes on sending: what it sends leaves, but
    no answer comes back any more. *)
Example ended_task_not_restarted :
  let sends := flat_map (fun k => [UpFromPeer first_request true (k * 100 * SEC); UpClean (k * 100 * SEC)]) in
  let ls := sends [0; 1] ++ [UpRecvFails 0; UpTaskEnds 0] ++ sends [2; 3; 4; 5] ++
            answered 0 (V4 261, 80) in
  (match up_run ls udp_start with Done (_, acts) => length acts | Panicked _ => 0%nat end, answers_sent (up_run ls udp_start)) = (6%nat, []).
Proof. vm_compute. reflexivity. Qed.
