(* ===== verification/IcmpProxy.v ===== *)
(** * The ICMP proxy

    [gateway/icmp_proxy.rs]: echo requests for a proxied network are sent on
    through a raw socket, with an entry that remembers whom to tell; an echo
    reply finds its entry by the address it comes from, its identifier and its
    sequence number.  A node without a virtual interface answers requests for
    its own address itself.  [IcmpLib] is what pnet does with echo packets. *)

From stdpp Require Import base numbers list gmap.
From Stdlib Require Import ZifyBool.
From S2P Require Import Prelude IpReassembler PacketDef CidrSet IpProxy.
Open Scope Z_scope.

Record EchoView := { ev_type : Z; ev_identifier : Z; ev_sequence : Z; ev_payload : bytes }.

Definition EchoRequest : Z := 8.
Definition EchoReply : Z := 0.

Class IcmpLib := {
  (** echo requests and replies have the same layout *)
  echo_view : bytes -> option EchoView;
  (** all setters of a reply, and the checksum *)
  write_echo_reply : Z -> Z -> bytes -> bytes -> bytes
}.

Class IcmpLibLaws `{IcmpLib} := {
  echo_view_some b : 8 <= len b <-> is_Some (echo_view b);
  echo_view_payload b e : echo_view b = Some e -> ev_payload e = drop 8 b /\ in_width 16 (ev_identifier e) /\ in_width 16 (ev_sequence e);
  write_echo_length id seq body b : len b = 8 + len body -> len (write_echo_reply id seq body b) = len b;
  write_echo_view id seq body b : len b = 8 + len body -> in_width 16 id -> in_width 16 seq ->
    echo_view (write_echo_reply id seq body b) =
      Some {| ev_type := EchoReply; ev_identifier := id; ev_sequence := seq; ev_payload := body |}
}.

(** ** State *)

Abbreviation IcmpNatKey := (IpAddr * Z * Z)%type.

Record IcmpNatEntry := { in_src_peer_id : Z; in_my_peer_id : Z; in_src_ip : IpAddr; in_start_time : Z; in_mapped_dst_ip : Z }.

Definition icmp_nat_entry_new (now src_peer_id my_peer_id : Z) (src_ip : IpAddr) (mapped_dst_ip : Z) : IcmpNatEntry := {|
  in_src_peer_id := src_peer_id; in_my_peer_id := my_peer_id; in_src_ip := src_ip; in_start_time := now;
  in_mapped_dst_ip := mapped_dst_ip |}.

Definition ICMP_BUF_SIZE : Z := 8192.

Section proxy.
Context `{Ipv4CidrLib} `{Ipv4Codec} `{IcmpLib}.

(** A started proxy; [ic_receiving] says that there is a socket and a thread
    reading it into [ic_buf]. *)
Record IcmpProxy := mkIcmpProxy {
  ic_ctx : GlobalCtx; ic_latency_first : bool; ic_cidr_set : CidrSet; ic_socket : bool; ic_receiving : bool;
  ic_nat_table : gmap IcmpNatKey IcmpNatEntry; ic_reassembler : IpReassembler; ic_channel : list ZCPacket; ic_buf : bytes
}.
Implicit Types s : IcmpProxy.

Definition icmp_proxy_new (ctx : GlobalCtx) (latency_first : bool) (cidrs : CidrSet) (socket : bool) : IcmpProxy :=
  mkIcmpProxy ctx latency_first cidrs socket socket ∅ (reassembler_new (10 * SEC)) [] (replicate (Z.to_nat ICMP_BUF_SIZE) 0).

Definition with_nat_table t s : IcmpProxy :=
  mkIcmpProxy (ic_ctx s) (ic_latency_first s) (ic_cidr_set s) (ic_socket s) (ic_receiving s) t (ic_reassembler s) (ic_channel s) (ic_buf s).
Definition with_icmp_reassembler r s : IcmpProxy :=
  mkIcmpProxy (ic_ctx s) (ic_latency_first s) (ic_cidr_set s) (ic_socket s) (ic_receiving s) (ic_nat_table s) r (ic_channel s) (ic_buf s).
Definition with_icmp_channel c s : IcmpProxy :=
  mkIcmpProxy (ic_ctx s) (ic_latency_first s) (ic_cidr_set s) (ic_socket s) (ic_receiving s) (ic_nat_table s) (ic_reassembler s) c (ic_buf s).
Definition with_icmp_buf b s : IcmpProxy :=
  mkIcmpProxy (ic_ctx s) (ic_latency_first s) (ic_cidr_set s) (ic_socket s) (ic_receiving s) (ic_nat_table s) (ic_reassembler s) (ic_channel s) b.

Inductive icmp_action :=
| IcmpSendTo (packet : bytes) (dst : Z)
| IcmpForProxy (msg : ZCPacket) (peer : Z).

(** A piece is put into the channel, which has no limit. *)
Definition push_piece (make : bytes -> outcome ZCPacket) (s : outcome (list ZCPacket)) (piece : bytes)
    : outcome (list ZCPacket) * result unit unit :=
  match (q ← s; p ← make piece; Done (q ++ [p])) with
  | Done q => (Done q, Ok tt)
  | Panicked x => (Panicked x, Err tt)
  end.

(** ** Packets of peers *)

(** The packet for a piece of this node's own answer. *)
Definition own_reply_packet (junk : nat -> Z) (src_peer_id dst_peer_id : Z) (piece : bytes) : outcome ZCPacket :=
  p ← new_with_payload junk piece;
  fill_peer_manager_hdr p src_peer_id dst_peer_id (packet_type_u8 PktData).

Definition send_icmp_reply_to_peer (junk : nat -> Z) (random_id src_ip dst_ip src_peer_id dst_peer_id : Z) (packet : bytes) (e : EchoView)
    (channel : list ZCPacket) : outcome (list ZCPacket) :=
  let buf := replicate (Z.to_nat (len packet + 20)) 0 in
  reply ← slice_from buf 20;
  _ ← unwrap (echo_view reply);
  let reply := write_echo_reply (ev_identifier e) (ev_sequence e) (ev_payload e) reply in
  let args := {| src_v4 := src_ip; dst_v4 := dst_ip; next_protocol := IP_ICMP; IpReassembler.payload_len := len buf - 20;
                 payload_mtu := 1200; ip_id := random_id |} in
  '(sent, _, _) ← compose_ipv4_packet (push_piece (own_reply_packet junk src_peer_id dst_peer_id)) args (splice buf 20 reply) (Done channel);
  sent.

Definition try_handle_peer_packet (now random_id : Z) (junk : nat -> Z) (packet : ZCPacket) s
    : outcome (option unit * IcmpProxy * list icmp_action) :=
  g ← proxied_packet IP_ICMP (ic_ctx s) (ic_cidr_set s) packet;
  match g with
  | None => Done (None, s, [])
  | Some (hdr, ipv4, real_dst_ip) =>
      '(data, r) ← whole_payload now ipv4 (ic_reassembler s);
      let s := with_icmp_reassembler r s in
      match data with
      | None => Done (None, s, [])
      | Some data =>
          match echo_view data with
          | None => Done (None, s, [])
          | Some icmp_packet =>
              if negb (ev_type icmp_packet =? EchoRequest) then Done (None, s, [])
              else if no_tun (ic_ctx s) && own_address (ic_ctx s) (view_destination ipv4) then
                channel ← send_icmp_reply_to_peer junk random_id (view_destination ipv4) (view_source ipv4) (to_peer_id hdr) (from_peer_id hdr)
                            data icmp_packet (ic_channel s);
                Done (Some tt, with_icmp_channel channel s, [])
              else
                let key := (V4 real_dst_ip, ev_identifier icmp_packet, ev_sequence icmp_packet) in
                let value := icmp_nat_entry_new now (from_peer_id hdr) (to_peer_id hdr) (V4 (view_source ipv4)) (view_destination ipv4) in
                Done (Some tt, with_nat_table (<[key := value]> (ic_nat_table s)) s,
                      if ic_socket s then [IcmpSendTo data real_dst_ip] else [])
          end
      end
  end.

(** ** Packets of the raw socket *)

(** The round of [socket_recv_loop] with a packet of at most [ICMP_BUF_SIZE] bytes. *)
Definition socket_recv_round (junk : nat -> Z) (received : bytes) (peer_ip : IpAddr) s : outcome IcmpProxy :=
  let n := len received in
  let buf := received ++ drop (Z.to_nat n) (ic_buf s) in
  let s := with_icmp_buf buf s in
  if n =? 0 then
    Done (mkIcmpProxy (ic_ctx s) (ic_latency_first s) (ic_cidr_set s) (ic_socket s) false (ic_nat_table s) (ic_reassembler s) (ic_channel s) (ic_buf s))
  else
    match peer_ip with
    | V6 _ => Done s
    | V4 _ =>
        ipv4_bytes ← slice buf 0 n;
        match ipv4_view ipv4_bytes with
        | None => Done s
        | Some ipv4_packet =>
            match echo_view (view_payload ipv4_packet) with
            | None => Done s
            | Some icmp_packet =>
                if negb (ev_type icmp_packet =? EchoReply) then Done s
                else
                  let key := (peer_ip, ev_identifier icmp_packet, ev_sequence icmp_packet) in
                  match ic_nat_table s !! key with
                  | None => Done s
                  | Some v =>
                      let s := with_nat_table (delete key (ic_nat_table s)) s in
                      match in_src_ip v with
                      | V6 _ => Done s
                      | V4 dest_ip =>
                          let args := {| src_v4 := in_mapped_dst_ip v; dst_v4 := dest_ip; next_protocol := IP_ICMP;
                                         IpReassembler.payload_len := as_usize (n - header_length ipv4_packet * 4);
                                         payload_mtu := 1200; ip_id := identification ipv4_packet |} in
                          '(sent, buf, _) ← compose_ipv4_packet (push_piece (reply_packet junk (in_my_peer_id v) (in_src_peer_id v)))
                                              args buf (Done (ic_channel s));
                          channel ← sent;
                          Done (with_icmp_channel channel (with_icmp_buf buf s))
                      end
                  end
            end
        end
    end.

(** ** The other tasks *)

Definition clean_icmp_table (now : Z) s : IcmpProxy :=
  with_nat_table (retain (fun _ v => elapsed_secs now (in_start_time v) <? 20) (ic_nat_table s)) s.

Definition icmp_forward s : outcome (option (IcmpProxy * list icmp_action)) :=
  match ic_channel s with
  | msg :: q =>
      '(msg, to_peer_id) ← to_peer_manager (ic_latency_first s) msg;
      Done (Some (with_icmp_channel q s, [IcmpForProxy msg to_peer_id]))
  | [] => Done None
  end.

(** ** Moves *)

Inductive icmp_label :=
| IcFromPeer (p : ZCPacket) (now random_id : Z) (junk : nat -> Z)
| IcSocket (received : bytes) (peer_ip : IpAddr) (junk : nat -> Z)
| IcClean (now : Z)
| IcExpire (now : Z)
| IcForward
| IcCidrs (cidrs : CidrSet).

(** [None] where the move cannot be made. *)
Definition icmp_step (l : icmp_label) s : outcome (option (IcmpProxy * list icmp_action)) :=
  match l with
  | IcFromPeer p now random_id junk => '(_, s, acts) ← try_handle_peer_packet now random_id junk p s; Done (Some (s, acts))
  | IcSocket received peer_ip junk =>
      if ic_receiving s then s ← socket_recv_round junk received peer_ip s; Done (Some (s, [])) else Done None
  | IcClean now => Done (Some (clean_icmp_table now s, []))
  | IcExpire now => Done (Some (with_icmp_reassembler (remove_expired_packets now (ic_reassembler s)) s, []))
  | IcForward => icmp_forward s
  | IcCidrs cidrs => Done (Some (mkIcmpProxy (ic_ctx s) (ic_latency_first s) cidrs (ic_socket s) (ic_receiving s) (ic_nat_table s)
                                   (ic_reassembler s) (ic_channel s) (ic_buf s), []))
  end.

Definition icmp_run : list icmp_label -> IcmpProxy -> outcome (IcmpProxy * list icmp_action) := run icmp_step.
End proxy.

(** ** Composing answers *)

Section composing.
Context `{Ipv4CodecLaws} `{IcmpLibLaws}.

Lemma push_run (make : bytes -> outcome ZCPacket) (P : bytes -> ZCPacket -> Prop) ps :
  (forall piece, len piece <= 65535 -> exists q, make piece = Done q /\ P piece q) -> Forall (fun p => len p <= 65535) ps ->
  exists qs, Forall2 P ps qs /\ forall q, run_cb (push_piece make) (Done q) ps = (Done (q ++ qs), Ok tt).
Proof.
  intros Hm. induction 1 as [|p ps Hp Hps (qs & Hq & IH)]; [exists []; split; [constructor|]; intros q; by rewrite app_nil_r|].
  destruct (Hm p Hp) as (m & Em & HP). exists (m :: qs). split; [by constructor|].
  intros q. cbn [run_cb]. unfold push_piece at 1. rewrite Em. cbn [mbind outcome_bind]. rewrite IH. by rewrite <- app_assoc.
Qed.

(** The pieces of a payload in the channel, each for its peer, and put together
    in any order to the payload. *)
Definition pieces_of (P : bytes -> ZCPacket -> Prop) (src dst id : Z) (body : bytes) (qs : list ZCPacket) : Prop :=
  exists ps vs, Forall2 P ps qs /\ Forall2 (fun p v => ipv4_view p = Some v) ps vs /\
    Forall (fun v => view_source v = src /\ view_destination v = dst /\ view_protocol v = IP_ICMP) vs /\
    forall now r vs', packets r !! {| key_source := src; key_destination := dst; key_id := id |} = None -> vs' ≡ₚ vs ->
      add_all now src dst vs' r = Done (replicate (length ps - 1) None ++ [Some body], r).

Lemma compose_push (make : bytes -> outcome ZCPacket) (P : bytes -> ZCPacket -> Prop) src dst id header body rest :
  (forall piece, len piece <= 65535 -> exists q, make piece = Done q /\ P piece q) ->
  length header = 20%nat -> 0 < len body <= 65535 -> in_width 32 src -> in_width 32 dst -> in_width 16 id ->
  exists qs, pieces_of P src dst id body qs /\ forall q, exists buf2,
    compose_ipv4_packet (push_piece make) {| src_v4 := src; dst_v4 := dst; next_protocol := IP_ICMP;
      IpReassembler.payload_len := len body; payload_mtu := 1200; ip_id := id |} (header ++ body ++ rest) (Done q) =
      Done (Done (q ++ qs), buf2, Ok tt) /\ length buf2 = length (header ++ body ++ rest).
Proof.
  intros Hm Hh Hb Hsrc Hdst Hid. set (args := {| src_v4 := src |}).
  assert (compose_ok args body) as Hok.
  { split; cbn [IpReassembler.payload_len payload_mtu ip_id src_v4 dst_v4 next_protocol args]; try done; try lia. by right. }
  destruct (compose_reassembles (E := unit) args body Hok header rest Hh) as (ps & vs & buf' & E1 & Hps & Ha & Hne & Hsm & Hall).
  destruct (push_run make P ps Hm Hsm) as (qs & Hqs & Hrun). exists qs. split.
  - exists ps, vs. split_and!; try done. eapply Forall_impl; [exact Ha|]. by intros v (_ & ? & ? & ?).
  - intros q. destruct (compose_cb (push_piece make) args _ ps buf' (Done q) E1) as [buf2 E2]. rewrite Hrun in E2. exists buf2.
    split; [exact E2|]. eapply compose_length; [| |exact E2]; cbn [IpReassembler.payload_len payload_mtu args]; lia.
Qed.

Lemma own_reply_packet_spec junk me peer piece :
  (forall i, is_byte (junk i)) -> in_width 32 me -> in_width 32 peer -> len piece <= 65535 ->
  exists q, own_reply_packet junk me peer piece = Done q /\ reply_msg false me peer piece q.
Proof.
  intros Hj Hme Hpeer Hlen. unfold own_reply_packet.
  destruct (new_with_payload_layout junk piece Hj) as (p & pre & h & -> & _ & Hl). cbn [mbind outcome_bind].
  destruct (fill_hdr_layout p pre h piece me peer (packet_type_u8 PktData) Hl) as (q & -> & _ & Hq); try done; [lia|].
  exists q. split; [done|]. by exists pre, (filled_header me peer (packet_type_u8 PktData) h piece).
Qed.

(** The node's own answer is an echo reply with the request's identifier,
    sequence number and data. *)
Lemma own_reply_spec junk id src dst me peer packet e :
  (forall i, is_byte (junk i)) -> in_width 32 me -> in_width 32 peer -> in_width 32 src -> in_width 32 dst -> in_width 16 id ->
  echo_view packet = Some e -> len packet <= 65535 ->
  exists qs reply, (forall q, send_icmp_reply_to_peer junk id src dst me peer packet e q = Done (q ++ qs)) /\
    pieces_of (reply_msg false me peer) src dst id reply qs /\
    echo_view reply = Some {| ev_type := EchoReply; ev_identifier := ev_identifier e; ev_sequence := ev_sequence e; ev_payload := drop 8 packet |}.
Proof.
  intros Hj Hme Hpeer Hsrc Hdst Hid He Hlen. assert (8 <= len packet) as H8 by (apply echo_view_some; eauto).
  destruct (echo_view_payload _ _ He) as (Ep & Hi & Hs). set (b := replicate (Z.to_nat (len packet)) 0).
  assert (len b = 8 + len (ev_payload e)) as Hb by (rewrite Ep; unfold b, len in *; rewrite length_replicate, length_drop; lia).
  assert (len b = len packet) as Hb' by (unfold b, len; rewrite length_replicate; lia).
  set (reply := write_echo_reply (ev_identifier e) (ev_sequence e) (ev_payload e) b).
  assert (len reply = len packet) as Hr by (unfold reply; rewrite write_echo_length by done; lia).
  destruct (compose_push (own_reply_packet junk me peer) (reply_msg false me peer) src dst id (replicate 20 0) reply []) as (qs & Hqs & Hc);
    try done; [intros; by apply own_reply_packet_spec | lia |].
  exists qs, reply. split_and!; [|done|].
  - intros q. unfold send_icmp_reply_to_peer.
    replace (replicate (Z.to_nat (len packet + 20)) 0) with (replicate 20 0 ++ b)
      by (unfold b; rewrite <- replicate_add; f_equal; unfold len in *; lia).
    rewrite slice_from_app by done. cbn [mbind outcome_bind]. destruct (proj1 (echo_view_some b)) as [eb ->]; [lia|].
    cbn [unwrap mbind outcome_bind]. fold reply.
    replace (splice (replicate 20 0 ++ b) 20 reply) with (replicate 20 0 ++ reply ++ []); cycle 1.
    { unfold splice. change (Z.to_nat 20) with 20%nat. rewrite (take_app_length' (replicate 20 0)) by done. do 2 f_equal.
      symmetry. apply drop_ge. rewrite length_app. unfold len in *. simpl. lia. }
    replace (len (replicate 20 0 ++ b) - 20) with (len reply) by (rewrite len_app; unfold len in *; simpl; lia).
    destruct (Hc q) as (buf2 & -> & _). done.
  - unfold reply. rewrite write_echo_view by done. by rewrite Ep.
Qed.
End composing.

(** ** Answers belong to requests *)

Section answers.
Context `{Ipv4CidrLib} `{Ipv4CodecLaws} `{IcmpLibLaws} (ctx : GlobalCtx).
Implicit Types s : IcmpProxy.

(** What the kernel hands out is a whole IPv4 packet. *)
Definition label_ok (l : icmp_label) : Prop :=
  match l with
  | IcFromPeer p _ random_id junk => whole_packet p /\ in_width 16 random_id /\ forall i, is_byte (junk i)
  | IcSocket received _ junk => len received <= ICMP_BUF_SIZE /\ (forall i, is_byte (junk i)) /\
      forall v, ipv4_view received = Some v -> 5 <= header_length v /\ total_length v = len received
  | _ => True
  end.

(** An echo request for [real], known as [dst], of [peer]'s address [src]. *)
Definition echo_request (ls : list icmp_label) (real id seq peer me src dst : Z) (b : bytes) : Prop :=
  exists p now random_id junk hdr v c r r' e, IcFromPeer p now random_id junk ∈ ls /\
    proxied_packet IP_ICMP ctx c p = Done (Some (hdr, v, real)) /\ whole_payload now v r = Done (Some b, r') /\ echo_view b = Some e /\
    ev_type e = EchoRequest /\ ev_identifier e = id /\ ev_sequence e = seq /\ from_peer_id hdr = peer /\ to_peer_id hdr = me /\
    view_source v = src /\ view_destination v = dst.

(** The echo reply of [real]. *)
Definition echo_reply (ls : list icmp_label) (real id seq : Z) : Prop :=
  exists received junk v e, IcSocket received (V4 real) junk ∈ ls /\ ipv4_view received = Some v /\ echo_view (view_payload v) = Some e /\
    ev_type e = EchoReply /\ ev_identifier e = id /\ ev_sequence e = seq.

Definition entry_ok (ls : list icmp_label) (key : IcmpNatKey) (v : IcmpNatEntry) : Prop :=
  exists real id seq src b, key = (V4 real, id, seq) /\ in_src_ip v = V4 src /\ in_width 32 src /\ in_width 32 (in_mapped_dst_ip v) /\
    in_width 32 (in_src_peer_id v) /\ in_width 32 (in_my_peer_id v) /\
    echo_request ls real id seq (in_src_peer_id v) (in_my_peer_id v) src (in_mapped_dst_ip v) b.

(** A message that answers a request: its own, or one of the real host. *)
Definition answers (ls : list icmp_label) (peer : Z) (msg : ZCPacket) : Prop :=
  exists no_proxy real id seq me src dst b piece w, echo_request ls real id seq peer me src dst b /\ reply_msg no_proxy me peer piece msg /\
    ipv4_view piece = Some w /\ view_source w = dst /\ view_destination w = src /\ view_protocol w = IP_ICMP /\
    if no_proxy : bool then echo_reply ls real id seq else no_tun ctx = true /\ own_address ctx dst = true.

Record ic_ok (ls : list icmp_label) s : Prop := {
  io_ctx : ic_ctx s = ctx;
  io_table : forall k v, ic_nat_table s !! k = Some v -> entry_ok ls k v;
  io_channel : Forall (fun msg => exists peer, answers ls peer msg) (ic_channel s);
  io_buf : len (ic_buf s) = ICMP_BUF_SIZE
}.

Definition act_ok (ls : list icmp_label) (act : icmp_action) : Prop :=
  match act with
  | IcmpSendTo data real => exists id seq peer me src dst, echo_request ls real id seq peer me src dst data
  | IcmpForProxy msg peer => answers ls peer msg
  end.

Lemma echo_request_mono ls ls' real id seq peer me src dst b :
  ls ⊆ ls' -> echo_request ls real id seq peer me src dst b -> echo_request ls' real id seq peer me src dst b.
Proof.
  intros Hsub (p & now & rid & j & hdr & v & c & r & r' & e & Hin & Hrest). exists p, now, rid, j, hdr, v, c, r, r', e. split; [by apply Hsub | done].
Qed.

Lemma answers_mono ls ls' peer msg : ls ⊆ ls' -> answers ls peer msg -> answers ls' peer msg.
Proof.
  intros Hsub (np & real & id & seq & me & src & dst & b & pc & w & Hrq & Hm & Hw & H1' & H2' & H3' & Hnp).
  exists np, real, id, seq, me, src, dst, b, pc, w. split_and!; try done; [by eapply echo_request_mono|].
  destruct np; [|done]. destruct Hnp as (rc & j & v & e & Hin & Hrest). exists rc, j, v, e. split; [by apply Hsub | done].
Qed.

Lemma icmp_entry_ok_mono ls ls' k v : ls ⊆ ls' -> entry_ok ls k v -> entry_ok ls' k v.
Proof.
  intros Hsub (real & id & seq & src & b & E1 & E2 & Hw1 & Hw2 & Hw3 & Hw4 & Hrq). exists real, id, seq, src, b.
  split_and!; try done. by eapply echo_request_mono.
Qed.

Lemma icmp_act_ok_mono ls ls' act : ls ⊆ ls' -> act_ok ls act -> act_ok ls' act.
Proof.
  intros Hsub. destruct act as [pk real|msg to_peer]; simpl; [|by apply answers_mono].
  intros (id & seq & peer & me & src & dst & Hrq). exists id, seq, peer, me, src, dst. by eapply echo_request_mono.
Qed.

Lemma ic_ok_mono ls ls' s : ls ⊆ ls' -> ic_ok ls s -> ic_ok ls' s.
Proof.
  intros Hsub [Hc Ht Hch Hb]. split; try done.
  - intros k v Hk. eapply icmp_entry_ok_mono; eauto.
  - eapply Forall_impl; [exact Hch|]. intros m [peer Ha]. exists peer. by eapply answers_mono.
Qed.

(** Messages made of the pieces of an answer. *)
Lemma pieces_answer ls np real id seq peer me src dst b pid body qs :
  echo_request ls real id seq peer me src dst b ->
  (if np : bool then echo_reply ls real id seq else no_tun ctx = true /\ own_address ctx dst = true) ->
  pieces_of (reply_msg np me peer) dst src pid body qs -> Forall (fun msg => exists peer, answers ls peer msg) qs.
Proof.
  intros Hrq Hnp (ps & vs & Hqs & Hvs & Hadd & _). apply Forall_lookup. intros i m Hi.
  destruct (Forall2_lookup_r _ _ _ _ _ Hqs Hi) as (pc & Hpc & Hm). destruct (Forall2_lookup_l _ _ _ _ _ Hvs Hpc) as (w & Hw & Hvw).
  destruct (Forall_lookup_1 _ _ _ _ Hadd Hw) as (E1 & E2 & E3). exists peer, np, real, id, seq, me, src, dst, b, pc, w. done.
Qed.

(** A reply with an entry becomes messages for the peer of the entry. *)
Lemma socket_reply_spec s received ip junk v e x src :
  label_ok (IcSocket received (V4 ip) junk) -> len (ic_buf s) = ICMP_BUF_SIZE ->
  ipv4_view received = Some v -> echo_view (view_payload v) = Some e -> ev_type e = EchoReply ->
  ic_nat_table s !! (V4 ip, ev_identifier e, ev_sequence e) = Some x -> in_src_ip x = V4 src -> in_width 32 src ->
  in_width 32 (in_mapped_dst_ip x) -> in_width 32 (in_src_peer_id x) -> in_width 32 (in_my_peer_id x) ->
  exists qs body buf2, socket_recv_round junk received (V4 ip) s =
      Done (with_icmp_channel (ic_channel s ++ qs) (with_icmp_buf buf2
              (with_nat_table (delete (V4 ip, ev_identifier e, ev_sequence e) (ic_nat_table s)) s))) /\
    len buf2 = ICMP_BUF_SIZE /\
    pieces_of (reply_msg true (in_my_peer_id x) (in_src_peer_id x)) (in_mapped_dst_ip x) src (identification v) body qs /\
    (header_length v = 5 -> body = view_payload v).
Proof.
  intros (Hlen & Hj & Hv) Hb Ev Ee Ety Ek Esrc W1 W2 W3 W4. destruct (Hv v Ev) as [Hhl Htl].
  assert (8 <= len (view_payload v)) as H8 by (apply echo_view_some; eauto).
  pose proof (view_payload_whole _ _ Ev Hhl Htl) as Evp. rewrite Evp in H8. set (n := len received - header_length v * 4).
  assert (8 <= n <= 65535) as Hn8 by (unfold n, len in *; rewrite length_drop in H8; unfold ICMP_BUF_SIZE in *; lia).
  unfold socket_recv_round. set (buf := received ++ drop (Z.to_nat (len received)) (ic_buf s)).
  assert (len buf = ICMP_BUF_SIZE) as Hbuf by (unfold buf; rewrite len_app; unfold len in *; rewrite length_drop; lia).
  rewrite (proj2 (Z.eqb_neq _ _)) by lia.
  assert (slice buf 0 (len received) = Done received) as ->.
  { apply slice_Done. split; [lia|]. unfold buf. rewrite drop_0, take_app_length' by (unfold len; lia). done. }
  cbn [mbind outcome_bind]. rewrite Ev, Ee, Ety. change (negb (EchoReply =? EchoReply)) with false. cbv iota.
  cbn [ic_nat_table ic_channel with_icmp_buf with_nat_table]. rewrite Ek, Esrc. fold n. rewrite (wrap_small 64 n) by (unfold in_width; lia).
  set (body := take (Z.to_nat n) (drop 20 buf)).
  assert (len body = n) as Hbody by (unfold body, len in *; rewrite length_take, length_drop; unfold n, ICMP_BUF_SIZE in *; lia).
  assert (buf = take 20 buf ++ body ++ drop (Z.to_nat n) (drop 20 buf)) as Esplit by (unfold body; by rewrite take_drop, take_drop).
  destruct (compose_push (reply_packet junk (in_my_peer_id x) (in_src_peer_id x)) (reply_msg true (in_my_peer_id x) (in_src_peer_id x))
      (in_mapped_dst_ip x) src (identification v) (take 20 buf) body (drop (Z.to_nat n) (drop 20 buf))) as (qs & Hqs & Hcomp);
    try done; [intros pc Hpc; apply reply_packet_spec; try done; lia | rewrite length_take; unfold len, ICMP_BUF_SIZE in *; lia | lia |
               apply (view_range _ _ Ev)|].
  rewrite Hbody, <- Esplit in Hcomp. destruct (Hcomp (ic_channel s)) as (buf2 & -> & Hb2). cbn [mbind outcome_bind].
  exists qs, body, buf2. split_and!; [reflexivity | unfold len in *; lia | exact Hqs|]. intros E5. rewrite Evp, E5. change (Z.to_nat (5 * 4)) with 20%nat.
  unfold body, buf. rewrite drop_app_le by (unfold n, len in *; lia). apply take_app_length'. rewrite length_drop. unfold n, len in *. lia.
Qed.

(** A round without such a reply only changes the buffer, or ends the thread. *)
Lemma socket_recv_cases s received ip junk :
  len received <= ICMP_BUF_SIZE -> len (ic_buf s) = ICMP_BUF_SIZE ->
  (exists receiving buf, len buf = ICMP_BUF_SIZE /\ (received <> [] -> receiving = ic_receiving s) /\ socket_recv_round junk received ip s =
     Done (mkIcmpProxy (ic_ctx s) (ic_latency_first s) (ic_cidr_set s) (ic_socket s) receiving (ic_nat_table s) (ic_reassembler s) (ic_channel s) buf)) \/
  exists i v e x, ip = V4 i /\ ipv4_view received = Some v /\ echo_view (view_payload v) = Some e /\ ev_type e = EchoReply /\
    ic_nat_table s !! (V4 i, ev_identifier e, ev_sequence e) = Some x.
Proof.
  intros Hlen Hb. pose proof (len_nonneg received) as Hn. unfold socket_recv_round.
  set (buf := received ++ drop (Z.to_nat (len received)) (ic_buf s)).
  assert (len buf = ICMP_BUF_SIZE) as Hbuf by (unfold buf; rewrite len_app; unfold len in *; rewrite length_drop; lia).
  destruct (Z.eqb_spec (len received) 0); [left; exists false, buf; split_and!; [done | by destruct received | done]|]. destruct ip as [i|i]; [|left; by exists (ic_receiving s), buf].
  assert (slice buf 0 (len received) = Done received) as ->.
  { apply slice_Done. split; [lia|]. unfold buf. rewrite drop_0, take_app_length' by (unfold len; lia). done. }
  cbn [mbind outcome_bind]. destruct (ipv4_view received) as [v|] eqn:Ev; [|left; by exists (ic_receiving s), buf].
  destruct (echo_view (view_payload v)) as [e|] eqn:Ee; [|left; by exists (ic_receiving s), buf].
  destruct (Z.eqb_spec (ev_type e) EchoReply) as [Ety|]; cbn [negb]; [|left; by exists (ic_receiving s), buf].
  cbn [ic_nat_table with_icmp_buf]. destruct (ic_nat_table s !! (V4 i, ev_identifier e, ev_sequence e)) as [x|] eqn:Ek.
  - right. by exists i, v, e, x.
  - left. by exists (ic_receiving s), buf.
Qed.

(** A round of the receiving thread. *)
Lemma socket_recv_ok ls ls' s received ip junk :
  ls ⊆ ls' -> IcSocket received ip junk ∈ ls' -> label_ok (IcSocket received ip junk) -> ic_ok ls s ->
  exists s', socket_recv_round junk received ip s = Done s' /\ ic_ok ls' s' /\ (received <> [] -> ic_receiving s' = ic_receiving s) /\
    (forall k, ic_nat_table s' !! k = ic_nat_table s !! k \/
       exists v e, ipv4_view received = Some v /\ echo_view (view_payload v) = Some e /\ k = (ip, ev_identifier e, ev_sequence e)).
Proof.
  intros Hsub Hin Hl Ho. pose proof Hl as (Hlen & _ & _). pose proof (ic_ok_mono _ _ _ Hsub Ho) as [Hc Ht Hch Hb].
  destruct (socket_recv_cases s received ip junk Hlen Hb) as [(rc & buf & Hbuf & Hrc & ->)|(i & v & e & x & -> & Ev & Ee & Ety & Ek)].
  { eexists. split; [reflexivity|]. split_and!; [by split | done | by left]. }
  destruct (Ht _ _ Ek) as (real & id & seq & src & b & Eid & Esrc & W1 & W2 & W3 & W4 & Hrq).
  destruct (socket_reply_spec s received i junk v e x src) as (qs & body & buf2 & -> & Hb2 & Hqs & _); try done.
  eexists. split; [reflexivity|]. cbn [ic_nat_table with_icmp_channel with_icmp_buf with_nat_table]. split_and!; [|done|].
  - split; try done; cbn [ic_nat_table ic_channel with_icmp_channel with_icmp_buf with_nat_table].
    + intros k y Hk. apply lookup_delete_Some in Hk as [_ Hk]. by apply Ht.
    + apply Forall_app. split; [exact Hch|].
      assert (real = i /\ id = ev_identifier e /\ seq = ev_sequence e) as (-> & -> & ->) by (by injection Eid).
      eapply (pieces_answer ls' true); [exact Hrq | | exact Hqs]. by exists received, junk, v, e.
  - intros k. destruct (decide (k = (V4 i, ev_identifier e, ev_sequence e))) as [->|]; [right; by exists v, e | left; by rewrite lookup_delete_ne].
Qed.

(** Packets that are not fragments. *)
Definition unfragmented (l : icmp_label) : Prop :=
  match l with
  | IcFromPeer p _ _ _ => forall data v, payload p = Done data -> ipv4_view data = Some v -> is_packet_fragmented v = false
  | _ => True
  end.

Lemma icmp_from_peer_ok ls ls' s p now random_id junk o s' acts :
  ls ⊆ ls' -> IcFromPeer p now random_id junk ∈ ls' -> label_ok (IcFromPeer p now random_id junk) -> ic_ok ls s ->
  try_handle_peer_packet now random_id junk p s = Done (o, s', acts) -> ic_ok ls' s' /\ Forall (act_ok ls') acts.
Proof.
  intros Hsub Hin ((pre & h & body & Hl) & Hid & Hj) Ho E. pose proof (ic_ok_mono _ _ _ Hsub Ho) as Hs. unfold try_handle_peer_packet in E.
  rewrite (io_ctx _ _ Ho) in E. apply bind_Done in E as ([[[hdr v] real]|] & Eg & E); [|by injection E as <- <- <-].
  apply bind_Done in E as ([data r] & Ew & E). assert (ic_ok ls' (with_icmp_reassembler r s)) as Hr by (by destruct Hs; split).
  destruct data as [b|]; [|by injection E as <- <- <-]. destruct (echo_view b) as [e|] eqn:Ee; [|by injection E as <- <- <-].
  destruct (Z.eqb_spec (ev_type e) EchoRequest) as [Ety|]; cbn [negb] in E; [|by injection E as <- <- <-].
  cbn [ic_ctx with_icmp_reassembler] in E. rewrite (io_ctx _ _ Ho) in E.
  destruct (proxied_packet_some _ _ _ _ _ _ _ Eg) as (Hh & (d & Hd & Hv) & _).
  assert (hdr = h) as -> by (rewrite (layout_header _ _ _ _ Hl) in Hh; congruence).
  assert (in_width 32 (from_peer_id h) /\ in_width 32 (to_peer_id h)) as [Wf Wt] by (split; apply Hl).
  pose proof (view_range _ _ Hv) as (Hsrc & Hdst & _).
  assert (echo_request ls' real (ev_identifier e) (ev_sequence e) (from_peer_id h) (to_peer_id h) (view_source v) (view_destination v) b) as Hrq
    by (exists p, now, random_id, junk, h, v, (ic_cidr_set s), (ic_reassembler s), r, e; done).
  destruct (no_tun ctx && own_address ctx (view_destination v)) eqn:Eown.
  - apply andb_true_iff in Eown as Hown. destruct (own_reply_spec junk random_id (view_destination v) (view_source v) (to_peer_id h) (from_peer_id h) b e)
      as (qs & reply & Hsend & Hqs & _); try done; [by eapply whole_payload_len|].
    cbn [ic_channel with_icmp_reassembler] in E. rewrite Hsend in E. cbn [mbind outcome_bind] in E. injection E as <- <- <-. split; [|done].
    destruct Hr as [? ? Hch ?]. split; try done. cbn [ic_channel with_icmp_channel]. apply Forall_app. split; [exact Hch|].
    by eapply (pieces_answer ls' false).
  - injection E as <- <- <-. split.
    + destruct Hr as [? Ht ? ?]. split; try done. cbn [ic_nat_table with_nat_table with_icmp_reassembler] in *.
      intros k x Hk. apply lookup_insert_Some in Hk as [[<- <-]|[_ Hk]]; [|by apply Ht].
      by exists real, (ev_identifier e), (ev_sequence e), (view_source v), b.
    + destruct (ic_socket _); [|done]. apply Forall_singleton. by repeat eexists.
Qed.

Lemma icmp_from_peer_done ls s p now random_id junk :
  ic_ok ls s -> label_ok (IcFromPeer p now random_id junk) -> unfragmented (IcFromPeer p now random_id junk) ->
  exists o s' acts, try_handle_peer_packet now random_id junk p s = Done (o, s', acts) /\ ic_receiving s' = ic_receiving s /\
    (forall k, ic_nat_table s' !! k = ic_nat_table s !! k \/
       exists data v e real, payload p = Done data /\ ipv4_view data = Some v /\ echo_view (view_payload v) = Some e /\
         k = (V4 real, ev_identifier e, ev_sequence e)).
Proof.
  intros Ho (Hp & Hid & Hj) Hf. unfold try_handle_peer_packet. destruct (proxied_packet_done IP_ICMP (ic_ctx s) (ic_cidr_set s) p Hp) as [g Eg].
  rewrite Eg. cbn [mbind outcome_bind]. destruct g as [[[hdr v] real]|]; [|do 3 eexists; split_and!; [reflexivity | done | by left]].
  destruct (proxied_packet_some _ _ _ _ _ _ _ Eg) as (Hh & (d & Hd & Hv) & _). unfold whole_payload. rewrite (Hf _ _ Hd Hv). cbn [mbind outcome_bind].
  destruct (echo_view (view_payload v)) as [e|] eqn:Ee; [|do 3 eexists; split_and!; [reflexivity | done | by left]].
  destruct (negb _); [do 3 eexists; split_and!; [reflexivity | done | by left]|]. cbn [ic_ctx ic_channel with_icmp_reassembler].
  pose proof (view_range _ _ Hv) as (Hsrc & Hdst & _ & Hlen).
  destruct (no_tun (ic_ctx s) && own_address (ic_ctx s) (view_destination v)).
  - destruct Hp as (pre & h & body & Hl). assert (hdr = h) as -> by (rewrite (layout_header _ _ _ _ Hl) in Hh; congruence).
    destruct (own_reply_spec junk random_id (view_destination v) (view_source v) (to_peer_id h) (from_peer_id h) (view_payload v) e)
      as (qs & reply & Hsend & _); try done; try apply Hl. rewrite Hsend. cbn [mbind outcome_bind].
    do 3 eexists. split_and!; [reflexivity | done | by left].
  - do 3 eexists. split_and!; [reflexivity | done|]. cbn [ic_nat_table with_nat_table with_icmp_reassembler]. intros k.
    destruct (decide (k = (V4 real, ev_identifier e, ev_sequence e))) as [->|]; [right; by exists d, v, e, real | left; by rewrite lookup_insert_ne].
Qed.

Lemma icmp_forward_ok ls ls' s : ls ⊆ ls' -> ic_ok ls s ->
  exists r, icmp_forward s = Done r /\ forall s' acts, r = Some (s', acts) ->
    ic_ok ls' s' /\ Forall (act_ok ls') acts /\ ic_nat_table s' = ic_nat_table s /\ ic_receiving s' = ic_receiving s.
Proof.
  intros Hsub Ho. pose proof (ic_ok_mono _ _ _ Hsub Ho) as [Hc Ht Hch Hb]. unfold icmp_forward.
  destruct (ic_channel s) as [|msg q] eqn:Eq; [eexists; by split|]. apply Forall_cons in Hch as [[peer Ha] Hq].
  destruct Ha as (np & real & id & seq & me & src & dst & b & pc & w & Hrq & Hm & Hrest).
  destruct (to_peer_manager_spec (ic_latency_first s) _ _ _ _ _ Hm) as (msg' & -> & Hm'). cbn [mbind outcome_bind].
  eexists. split; [reflexivity|]. intros s' acts [= <- <-]. split_and!; [by split | | done | done]. apply Forall_singleton.
  exists np, real, id, seq, me, src, dst, b, pc, w. done.
Qed.

Lemma icmp_step_ok : step_inv icmp_step label_ok unfragmented ic_ok (fun ls _ => act_ok ls).
Proof.
  intros ls l s Ho Hls. apply Forall_app in Hls as [_ Hl]. apply (proj1 (Forall_singleton _ _)) in Hl. set (ls' := ls ++ [l]).
  assert (ls ⊆ ls') as Hsub by (unfold ls'; set_solver). assert (l ∈ ls') as Hin by (apply elem_of_app; right; left).
  pose proof (ic_ok_mono _ _ _ Hsub Ho) as Hs. assert (forall a, act_ok ls a -> act_ok ls' a) as Hacts by (intros a; by apply icmp_act_ok_mono).
  match goal with |- ?A /\ ?B /\ ?C => enough ((A /\ B) /\ C) as [[? ?] ?] by done end.
  split; [|done].
  enough ((unfragmented l -> exists r, icmp_step l s = Done r) /\
    forall s' acts, icmp_step l s = Done (Some (s', acts)) -> ic_ok ls' s' /\ Forall (act_ok ls') acts) as [? Hok] by (split; [done|]; naive_solver).
  destruct l as [p now rid junk|rc ip junk|now|now| |cidrs]; cbn [icmp_step].
  - split; [intros Hf; destruct (icmp_from_peer_done ls s p now rid junk Ho Hl Hf) as (o & s1 & acts1 & -> & _); by eexists|].
    intros s' acts E. apply bind_Done in E as ([[o s1] acts1] & E & E2). injection E2 as <- <-. by eapply icmp_from_peer_ok.
  - destruct (ic_receiving s); [|split; [eauto | done]].
    destruct (socket_recv_ok ls ls' s rc ip junk Hsub Hin Hl Ho) as (s1 & -> & Ho1 & _). cbn [mbind outcome_bind].
    split; [eauto|]. by intros s' acts [= <- <-].
  - split; [eauto|]. intros s' acts [= <- <-]. split; [|done]. destruct Hs as [? Ht ? ?]. split; try done.
    intros k v Hk. apply retain_Some in Hk as [Hk _]. by apply Ht.
  - split; [eauto|]. intros s' acts [= <- <-]. split; [|done]. by destruct Hs; split.
  - destruct (icmp_forward_ok ls ls' s Hsub Ho) as (r & -> & Hr). split; [eauto|]. intros s' acts [= ->]. by destruct (Hr s' acts eq_refl) as (? & ? & _).
  - split; [eauto|]. intros s' acts [= <- <-]. split; [|done]. by destruct Hs; split.
Qed.

Lemma icmp_new_ok lf cidrs socket : ic_ok [] (icmp_proxy_new ctx lf cidrs socket).
Proof. split; simpl; [done | | constructor | by vm_compute]. intros k v. by rewrite lookup_empty. Qed.
End answers.

(** However packets of peers, packets of the raw socket and the proxy's tasks
    interleave, what leaves the socket is an echo request of a peer, for the
    real address of its destination, and what is sent to a peer answers an echo
    request of that very peer: it goes to the address the request came from and
    comes from the address it was for, and either the real host has sent a reply
    with the request's identifier and sequence number, or the request was for
    this node.  As long as no packet is a fragment, none of this panics. *)
Theorem icmp_answers_requests `{Ipv4CidrLib} `{Ipv4CodecLaws} `{IcmpLibLaws} (ctx : GlobalCtx) (latency_first : bool) (cidrs : CidrSet)
    (socket : bool) (ls : list icmp_label) (Hls : Forall label_ok ls) :
  (Forall unfragmented ls -> exists r, icmp_run ls (icmp_proxy_new ctx latency_first cidrs socket) = Done r) /\
  forall s acts, icmp_run ls (icmp_proxy_new ctx latency_first cidrs socket) = Done (s, acts) ->
    (forall data real, IcmpSendTo data real ∈ acts -> exists id seq peer me src dst, echo_request ctx ls real id seq peer me src dst data) /\
    (forall msg peer, IcmpForProxy msg peer ∈ acts ->
       exists no_proxy real id seq me src dst b piece w, echo_request ctx ls real id seq peer me src dst b /\
         reply_msg no_proxy me peer piece msg /\ ipv4_view piece = Some w /\
         view_source w = dst /\ view_destination w = src /\ view_protocol w = IP_ICMP /\
         if no_proxy : bool then echo_reply ls real id seq else no_tun ctx = true /\ own_address ctx dst = true).
Proof.
  destruct (run_inv _ _ _ _ _ [] ls (icmp_proxy_new ctx latency_first cidrs socket) [] (icmp_step_ok ctx) (icmp_new_ok _ _ _ _) Hls) as [Hd Hr]; [done|].
  split; [done|]. intros s acts E. destruct (Hr s acts E) as [_ Ha]. rewrite Forall_forall in Ha.
  split; [intros data real Hin; exact (Ha _ Hin) | intros msg peer Hin; exact (Ha _ Hin)].
Qed.

(** ** A ping and its reply *)

Section ping.
Context `{Ipv4CidrLib} `{Ipv4CodecLaws} `{IcmpLibLaws} (ctx : GlobalCtx) (id seq start real : Z).
Implicit Types s : IcmpProxy.

(** What may happen between a request at [start] and its reply: anything but
    fragments of peers, requests with the same identifier and sequence number,
    replies of [real] with them, empty reads, which end the thread, and cleaning
    after twenty seconds. *)
Definition spares (l : icmp_label) : Prop :=
  match l with
  | IcFromPeer p _ _ _ => forall data v, payload p = Done data -> ipv4_view data = Some v -> is_packet_fragmented v = false /\
      forall e, echo_view (view_payload v) = Some e -> (ev_identifier e, ev_sequence e) <> (id, seq)
  | IcSocket received peer_ip _ => received <> [] /\ forall v e, ipv4_view received = Some v -> echo_view (view_payload v) = Some e ->
      (peer_ip, ev_identifier e, ev_sequence e) <> (V4 real, id, seq)
  | IcClean now => elapsed_secs now start < 20
  | _ => True
  end.

(** The entry of the request is there, and the thread is reading. *)
Definition waiting (x : IcmpNatEntry) s : Prop :=
  (exists ls, ic_ok ctx ls s /\ Forall label_ok ls) /\ ic_nat_table s !! (V4 real, id, seq) = Some x /\ in_start_time x = start /\ ic_receiving s = true.

Lemma spares_waiting x :
  step_inv icmp_step (fun l => label_ok l /\ spares l) (fun _ => True) (fun _ => waiting x) (fun _ _ _ => True).
Proof.
  intros ls0 l s ([ls [Ho Hls]] & Hx & Hst & Hrc) Hl. apply Forall_app in Hl as [_ Hl]. apply (proj1 (Forall_singleton _ _)) in Hl as [Hl Hsp].
  match goal with |- ?A /\ ?B /\ ?C => enough (A /\ B) as [] by (split_and!; try done; by split; [exists ls|]) end.
  assert (Forall label_ok (ls ++ [l])) as Hls' by (by apply Forall_app; split; [|apply Forall_singleton]).
  destruct (icmp_step_ok ctx ls l s Ho Hls') as (Hd & Hok & _).
  enough (exists r, icmp_step l s = Done r /\ forall s' acts, r = Some (s', acts) ->
    ic_nat_table s' !! (V4 real, id, seq) = Some x /\ ic_receiving s' = true) as (r & Er & Hr).
  { split; [by exists r|]. intros s' acts E. destruct (Hok s' acts E) as (Ho' & _). rewrite Er in E. injection E as ->.
    destruct (Hr s' acts eq_refl). split_and!; [split; [by exists (ls ++ [l]) | done] | done | by apply Forall_true]. }
  destruct l as [p now rid junk|rc ip junk|now|now| |cidrs]; cbn [icmp_step].
  - destruct (icmp_from_peer_done ctx ls s p now rid junk Ho Hl) as (o & s1 & acts1 & -> & Er & Hk).
    { intros d v Hd' Hv. by destruct (Hsp d v Hd' Hv). }
    cbn [mbind outcome_bind]. eexists. split; [reflexivity|]. intros s' acts [= <- <-]. split; [|congruence].
    destruct (Hk (V4 real, id, seq)) as [->|(d & v & e & real' & Hd' & Hv & He & Ek)]; [done|].
    destruct (Hsp d v Hd' Hv) as [_ Hne]. exfalso. apply (Hne e He). congruence.
  - rewrite Hrc. destruct (socket_recv_ok ctx ls (ls ++ [IcSocket rc ip junk]) s rc ip junk) as (s1 & -> & _ & Er & Hk); try done;
      [set_solver | apply elem_of_app; right; left|].
    destruct Hsp as [Hnil Hne]. cbn [mbind outcome_bind]. eexists. split; [reflexivity|]. intros s' acts [= <- <-]. split; [|rewrite Er; done].
    destruct (Hk (V4 real, id, seq)) as [->|(v & e & Hv & He & Ek)]; [done|]. exfalso. apply (Hne v e Hv He). congruence.
  - eexists. split; [reflexivity|]. intros s' acts [= <- <-]. split; [|done]. apply retain_Some. split; [done|].
    simpl in Hsp. rewrite Hst. apply Z.ltb_lt. done.
  - eexists. split; [reflexivity|]. by intros s' acts [= <- <-].
  - destruct (icmp_forward_ok ctx ls ls s) as (r & -> & Hr); [done | done|]. eexists. split; [reflexivity|].
    intros s' acts ->. destruct (Hr s' acts eq_refl) as (_ & _ & -> & ->). done.
  - eexists. split; [reflexivity|]. by intros s' acts [= <- <-].
Qed.
End ping.

(** An echo request of a peer for a proxied address. *)
Record ping_request `{Ipv4CidrLib} `{Ipv4Codec} `{IcmpLib} (s : IcmpProxy) (p : ZCPacket) (h : PeerManagerHeader) (v : Ipv4View) (e : EchoView)
    (real : Z) : Prop := {
  pq_packet : exists pre body, laid_out p pre h body /\ ipv4_view body = Some v;
  pq_data : pm_packet_type h = packet_type_u8 PktData /\ is_no_proxy h = Done false;
  pq_icmp : view_version v = 4 /\ view_protocol v = IP_ICMP /\ is_packet_fragmented v = false;
  pq_echo : echo_view (view_payload v) = Some e /\ ev_type e = EchoRequest;
  pq_node : is_Some (ctx_ipv4 (ic_ctx s)) /\ no_tun (ic_ctx s) && own_address (ic_ctx s) (view_destination v) = false;
  pq_proxied : contains_v4 (ic_cidr_set s) (view_destination v) = Some real;
  pq_running : ic_socket s = true /\ ic_receiving s = true
}.

(** An echo reply as the kernel hands it out. *)
Record ping_reply `{Ipv4Codec} `{IcmpLib} (received : bytes) (w : Ipv4View) (id seq : Z) : Prop := {
  pr_len : len received <= ICMP_BUF_SIZE;
  pr_view : ipv4_view received = Some w /\ header_length w = 5 /\ total_length w = len received;
  pr_echo : exists e, echo_view (view_payload w) = Some e /\ ev_type e = EchoReply /\ ev_identifier e = id /\ ev_sequence e = seq
}.

Lemma ping_sent `{Ipv4CidrLib} `{Ipv4CodecLaws} `{IcmpLibLaws} s p h v e real now random_id junk :
  ping_request s p h v e real ->
  icmp_step (IcFromPeer p now random_id junk) s =
    Done (Some (with_nat_table (<[(V4 real, ev_identifier e, ev_sequence e) :=
                  icmp_nat_entry_new now (from_peer_id h) (to_peer_id h) (V4 (view_source v)) (view_destination v)]> (ic_nat_table s)) s,
                [IcmpSendTo (view_payload v) real])).
Proof.
  intros [(pre & body & Hl & Hv) [Ht Hnp] (Hver & Hproto & Hfrag) [He Hty] [Hi Hown] Hc [Hsock _]]. cbn [icmp_step]. unfold try_handle_peer_packet.
  rewrite (proxied_packet_taken IP_ICMP (ic_ctx s) (ic_cidr_set s) p pre h body v real) by done.
  cbn [mbind outcome_bind]. unfold whole_payload. rewrite Hfrag. cbn [mbind outcome_bind]. rewrite He, Hty. cbn [ic_ctx with_icmp_reassembler].
  change (negb (EchoRequest =? EchoRequest)) with false. cbv iota. rewrite Hown. cbn [ic_socket with_icmp_reassembler]. rewrite Hsock. by destruct s.
Qed.

(** C17.  In every state of the proxy, an unfragmented ping of a peer into a
    proxied network is sent on to the real address.  When a reply of the real
    host comes whose IP header has no options, in the twenty seconds the entry
    lives, it is sent to that peer, unchanged, with the address the peer had
    pinged as its source, and a second reply is ignored; in between, any packets
    of peers but fragments and requests with the same identifier and sequence
    number, any packets of the socket but empty ones and replies of that host
    with them, and any moves of the proxy's tasks may come, and none of these
    panics. *)
Theorem icmp_ping_answered `{Ipv4CidrLib} `{Ipv4CodecLaws} `{IcmpLibLaws} (ctx : GlobalCtx) (latency_first : bool) (cidrs : CidrSet) (socket : bool)
    (before between : list icmp_label) (s : IcmpProxy) (acts0 : list icmp_action) (p : ZCPacket) (h : PeerManagerHeader) (v w : Ipv4View)
    (e : EchoView) (real now random_id : Z) (junk junk' : nat -> Z) (received : bytes)
    (Hbefore : Forall label_ok before) (Hrun : icmp_run before (icmp_proxy_new ctx latency_first cidrs socket) = Done (s, acts0))
    (Hid : in_width 16 random_id) (Hj : forall i, is_byte (junk i)) (Hj' : forall i, is_byte (junk' i))
    (Hrq : ping_request s p h v e real) (Hbetween : Forall (fun l => label_ok l /\ spares (ev_identifier e) (ev_sequence e) now real l) between)
    (Hrp : ping_reply received w (ev_identifier e) (ev_sequence e)) :
  exists s1 s2 s3 acts qs, icmp_step (IcFromPeer p now random_id junk) s = Done (Some (s1, [IcmpSendTo (view_payload v) real])) /\
    icmp_run between s1 = Done (s2, acts) /\
    icmp_step (IcSocket received (V4 real) junk') s2 = Done (Some (s3, [])) /\ ic_channel s3 = ic_channel s2 ++ qs /\
    pieces_of (reply_msg true (to_peer_id h) (from_peer_id h)) (view_destination v) (view_source v) (identification w) (view_payload w) qs /\
    exists s4, icmp_step (IcSocket received (V4 real) junk') s3 = Done (Some (s4, [])) /\ ic_channel s4 = ic_channel s3.
Proof.
  destruct (run_inv _ _ _ _ _ [] before _ [] (icmp_step_ok ctx) (icmp_new_ok _ latency_first cidrs socket) Hbefore) as [_ Hr]; [done|].
  destruct (Hr s acts0 Hrun) as [Ho _]. clear Hr. pose proof (ping_sent s p h v e real now random_id junk Hrq) as E1.
  destruct Hrq as [(pre & body & Hl & Hv) _ _ _ _ _ [_ Hrc]]. destruct (view_range _ _ Hv) as (Hsrc & Hdst & _).
  set (x := icmp_nat_entry_new now (from_peer_id h) (to_peer_id h) (V4 (view_source v)) (view_destination v)) in *.
  set (s1 := with_nat_table _ s) in *.
  assert (label_ok (IcFromPeer p now random_id junk)) as Hlp by (split; [by exists pre, h, body | done]).
  assert (waiting ctx (ev_identifier e) (ev_sequence e) now real x s1) as Hw1.
  { destruct (icmp_step_ok ctx before (IcFromPeer p now random_id junk) s Ho) as (_ & Hok & _); [by apply Forall_app; split; [|apply Forall_singleton]|].
    destruct (Hok s1 _ E1) as (Ho1 & _). split_and!; try done; [exists (before ++ [IcFromPeer p now random_id junk]); split; [done|];
      by apply Forall_app; split; [|apply Forall_singleton] | unfold s1; cbn [ic_nat_table with_nat_table]; by rewrite lookup_insert_eq]. }
  destruct (run_inv _ _ _ _ _ [] between s1 [] (spares_waiting ctx _ _ now real x) Hw1 Hbetween) as [Hd Hr]; [constructor|].
  destruct Hd as [[s2 acts] E2]; [by apply Forall_true|]. destruct (Hr s2 acts E2) as [([ls [Ho2 _]] & Hx & _ & Hrc2) _].
  destruct Hrp as [Hlen (Ew & Hhl & Htl) (e' & Ee' & Ety & Eid & Eseq)].
  assert (label_ok (IcSocket received (V4 real) junk')) as Hls by (split_and!; [done | done|]; intros w' Ew'; assert (w' = w) as -> by congruence; split; [lia | done]).
  rewrite <- Eid, <- Eseq in Hx.
  destruct (socket_reply_spec s2 received real junk' w e' x (view_source v) Hls (io_buf _ _ _ Ho2) Ew Ee' Ety Hx) as (qs & b & buf2 & E3 & Hb2 & Hqs & Hbody);
    try done; try apply Hl.
  match type of E3 with _ = Done ?t => set (s3 := t) in * end.
  exists s1, s2, s3, acts, qs. split_and!; [exact E1 | exact E2 | | done | by rewrite <- (Hbody Hhl)|].
  { cbn [icmp_step]. rewrite Hrc2, E3. done. }
  cbn [icmp_step]. unfold s3 at 1. cbn [ic_receiving with_icmp_channel with_icmp_buf with_nat_table]. rewrite Hrc2.
  destruct (socket_recv_cases s3 received (V4 real) junk' Hlen Hb2) as [(rc & buf & _ & _ & ->)|(i & w' & e2 & y & [= <-] & Ew2 & Ee2 & _ & Ey)].
  - by eexists.
  - exfalso. assert (w' = w) as -> by congruence. assert (e2 = e') as -> by congruence. unfold s3 in Ey.
    cbn [ic_nat_table with_icmp_channel with_icmp_buf with_nat_table] in Ey. by rewrite lookup_delete_eq in Ey.
Qed.

(** ** Echo packets on the wire *)

#[global] Instance wire_icmp : IcmpLib := {|
  echo_view b := if len b <? 8 then None
                 else Some {| ev_type := byte_at b 0; ev_identifier := wrap 16 (byte_at b 4 * 256 + byte_at b 5);
                              ev_sequence := wrap 16 (byte_at b 6 * 256 + byte_at b 7); ev_payload := drop 8 b |};
  write_echo_reply id seq body _ :=
    let rest := be16 id ++ be16 seq ++ body in
    [EchoReply; 0] ++ be16 (internet_checksum ([EchoReply; 0; 0; 0] ++ rest)) ++ rest
|}.

#[global] Instance wire_icmp_laws : IcmpLibLaws.
Proof.
  assert (forall id seq body b, len b = 8 + len body -> len (write_echo_reply id seq body b) = len b) as Hlen.
  { intros id seq body b Hb. rewrite Hb. unfold len. simpl. lia. }
  split.
  - intros b. unfold echo_view, wire_icmp. destruct (Z.ltb_spec (len b) 8); split; [lia | by intros [? ?] | eauto | done].
  - intros b e. unfold echo_view, wire_icmp. destruct (_ <? _); [done|]. intros [= <-]. split_and!; [done | apply wrap_in_width; lia..].
  - done.
  - intros id seq body b Hb Hi Hs. unfold echo_view. cbn [wire_icmp]. rewrite Hlen by done. pose proof (len_nonneg body).
    rewrite (proj2 (Z.ltb_ge _ _)) by lia. unfold write_echo_reply, wire_icmp, byte_at.
    cbn [be16 app drop lookup list_lookup default from_option Datatypes.id]. by rewrite !be16_value.
Qed.

Definition echo_bytes (type id seq : Z) (body : bytes) : bytes := [type; 0; 0; 0] ++ be16 id ++ be16 seq ++ body.
Definition ping (from src dst id seq : Z) : ZCPacket := peer_packet from (ip_body IP_ICMP src dst (echo_bytes EchoRequest id seq [1; 2])).
Definition pong (id seq : Z) : bytes := ip_body IP_ICMP 261 1 (echo_bytes EchoReply id seq [1; 2]).

Definition icmp_start : IcmpProxy := icmp_proxy_new sample_ctx false sample_cidrs true.
Definition no_junk : nat -> Z := fun _ => 0.

Lemma no_junk_bytes i : is_byte (no_junk i).
Proof. split; vm_compute; congruence. Qed.

Lemma ping_label_ok from src dst id seq now : in_width 32 from -> label_ok (IcFromPeer (ping from src dst id seq) now 1 no_junk).
Proof.
  intros Hf. split; [|split; [split; lia | apply no_junk_bytes]].
  exists [], (sample_header from), (ip_body IP_ICMP src dst (echo_bytes EchoRequest id seq [1; 2])). by apply peer_packet_layout.
Qed.

Definition icmp_sample_view (src dst ident : Z) (body : bytes) : Ipv4View := {|
  view_version := 4; view_source := src; view_destination := dst; view_protocol := IP_ICMP; identification := ident; fragment_offset := 0;
  flags := DontFragment; total_length := 20 + len body; header_length := 5; view_payload := body |}.

Lemma icmp_ping_answered_witness :
  exists s1 s2 s3 acts qs, icmp_step (IcFromPeer (ping 5 50 517 9 1) 0 1 no_junk) icmp_start =
      Done (Some (s1, [IcmpSendTo (echo_bytes EchoRequest 9 1 [1; 2]) 261])) /\
    icmp_run [IcClean SEC; IcForward] s1 = Done (s2, acts) /\ icmp_step (IcSocket (pong 9 1) (V4 261) no_junk) s2 = Done (Some (s3, [])) /\
    ic_channel s3 = ic_channel s2 ++ qs /\ pieces_of (reply_msg true 7 5) 517 50 1 (echo_bytes EchoReply 9 1 [1; 2]) qs.
Proof.
  destruct (icmp_ping_answered sample_ctx false sample_cidrs true [] [IcClean SEC; IcForward] icmp_start [] (ping 5 50 517 9 1) (sample_header 5)
      (icmp_sample_view 50 517 1 (echo_bytes EchoRequest 9 1 [1; 2])) (icmp_sample_view 261 1 1 (echo_bytes EchoReply 9 1 [1; 2]))
      {| ev_type := EchoRequest; ev_identifier := 9; ev_sequence := 1; ev_payload := [1; 2] |} 261 0 1 no_junk no_junk (pong 9 1))
    as (s1 & s2 & s3 & acts & qs & E1 & E2 & E3 & E4 & Hqs & _).
  - constructor.
  - reflexivity.
  - split; lia.
  - apply no_junk_bytes.
  - apply no_junk_bytes.
  - split.
    + exists [], (ip_body IP_ICMP 50 517 (echo_bytes EchoRequest 9 1 [1; 2])). split; [apply peer_packet_layout; split; lia | vm_compute; reflexivity].
    + split; vm_compute; reflexivity.
    + split_and!; vm_compute; reflexivity.
    + split; vm_compute; reflexivity.
    + split; [eexists; reflexivity | vm_compute; reflexivity].
    + vm_compute. reflexivity.
    + split; reflexivity.
  - apply Forall_cons. split; [split; [exact I | vm_compute; reflexivity]|]. apply Forall_cons. split; [split; exact I | constructor].
  - split.
    + vm_compute. discriminate.
    + split_and!; vm_compute; reflexivity.
    + eexists. split_and!; vm_compute; reflexivity.
  - exists s1, s2, s3, acts, qs. split_and!; [exact E1 | exact E2 | exact E3 | exact E4 | exact Hqs].
Defined.

Lemma icmp_answers_requests_witness :
  exists r, icmp_run [IcFromPeer (ping 5 50 517 9 1) 0 1 no_junk; IcSocket (pong 9 1) (V4 261) no_junk; IcForward] icmp_start = Done r.
Proof.
  refine (proj1 (icmp_answers_requests sample_ctx false sample_cidrs true _ _) _).
  - apply Forall_cons. split; [apply ping_label_ok; split; lia|]. apply Forall_cons. split; [|apply Forall_cons; split; [exact I | constructor]].
    split; [vm_compute; discriminate|]. split; [apply no_junk_bytes|]. intros v Ev.
    assert (icmp_sample_view 261 1 1 (echo_bytes EchoReply 9 1 [1; 2]) = v) as <-
      by (enough (Some (icmp_sample_view 261 1 1 (echo_bytes EchoReply 9 1 [1; 2])) = Some v) by congruence; rewrite <- Ev; vm_compute; reflexivity).
    split; [vm_compute; discriminate | vm_compute; reflexivity].
  - apply Forall_cons. split; [|repeat constructor]. intros data v E. unfold ping in E.
    rewrite (layout_payload _ _ _ _ (peer_packet_layout 5 _ ltac:(split; lia))) in E. injection E as <-. intros Ev.
    assert (icmp_sample_view 50 517 1 (echo_bytes EchoRequest 9 1 [1; 2]) = v) as <-
      by (enough (Some (icmp_sample_view 50 517 1 (echo_bytes EchoRequest 9 1 [1; 2])) = Some v) by congruence; rewrite <- Ev; vm_compute; reflexivity).
    reflexivity.
Defined.

(** ** What goes wrong *)

(** Peers and contents of the packets sent back. *)
Definition pongs_sent (r : outcome (IcmpProxy * list icmp_action)) : list (Z * option bytes) :=
  match r with
  | Done (_, acts) =>
      omap (fun act => match act with
                       | IcmpForProxy msg peer =>
                           Some (peer, match payload msg with Done b => view_payload <$> ipv4_view b | Panicked _ => None end)
                       | IcmpSendTo _ _ => None
                       end) acts
  | Panicked _ => []
  end.

(** Two peers that use the same identifier and sequence number: the entry of the
    first is replaced, and only the second gets a reply. *)
Example same_identifier_lost :
  pongs_sent (icmp_run [IcFromPeer (ping 5 50 517 9 1) 0 1 no_junk; IcFromPeer (ping 6 51 517 9 1) 0 1 no_junk;
                        IcSocket (pong 9 1) (V4 261) no_junk; IcSocket (pong 9 1) (V4 261) no_junk; IcForward; IcForward] icmp_start) =
  [(6, Some (echo_bytes EchoReply 9 1 [1; 2]))].
Proof. vm_compute. reflexivity. Qed.

(** A reply whose IP header has options is looked for behind a header without
    options: what is sent back begins with the options and lacks its end. *)
Definition pong_with_options : bytes :=
  [4 * 16 + 6; 0; 0; 34; 0; 1; 64; 0; 64; IP_ICMP; 0; 0; 0; 0; 1; 5; 0; 0; 0; 1] ++ [1; 1; 1; 1] ++ echo_bytes EchoReply 9 1 [1; 2].

Example options_sent_as_echo :
  pongs_sent (icmp_run [IcFromPeer (ping 5 50 517 9 1) 0 1 no_junk; IcSocket pong_with_options (V4 261) no_junk; IcForward] icmp_start) =
  [(5, Some ([1; 1; 1; 1] ++ take 6 (echo_bytes EchoReply 9 1 [1; 2])))].
Proof. vm_compute. reflexivity. Qed.
