(* ===== verification/Stun.v ===== *)
(** * STUN: what kind of NAT is a node behind

    [common/stun.rs] and [common/stun_codec_ext.rs], and the STUN server of
    [tunnel/udp.rs].  A node asks several servers from one socket how it is seen
    from outside, three times each: once for an answer from the address it asked,
    and twice for one from another port or from another address.  Which answers
    arrive, and with which addresses, tells the type of the NAT.

    All requests of a detection share a socket, whose datagrams are handed to
    every request, which recognises its own by their transaction numbers.  What a
    request receives is an argument: the datagrams that arrive before its
    timeout, with the clock after each.  [StunCodec] is the stun_codec crate and
    [Dns] the resolver with the random choice among its answers. *)

From stdpp Require Import base numbers list gmap strings.
From Stdlib Require Import ZifyBool.
From S2P Require Import Prelude Text PacketDef Framing UdpTunnel.
Open Scope Z_scope.

(** ** Types of NAT *)

Inductive NatType :=
| NatUnknown | OpenInternet | NoPat | FullCone | Restricted | PortRestricted | Symmetric | SymUdpFirewall
| SymmetricEasyInc | SymmetricEasyDec.

#[global] Instance nat_type_eq_dec : EqDecision NatType.
Proof. solve_decision. Defined.

Definition nat_type_i32 (t : NatType) : Z :=
  match t with
  | NatUnknown => 0 | OpenInternet => 1 | NoPat => 2 | FullCone => 3 | Restricted => 4 | PortRestricted => 5
  | Symmetric => 6 | SymUdpFirewall => 7 | SymmetricEasyInc => 8 | SymmetricEasyDec => 9
  end.

Definition nat_type_try_from (z : Z) : option NatType :=
  find (fun t => nat_type_i32 t =? z)
    [NatUnknown; OpenInternet; NoPat; FullCone; Restricted; PortRestricted; Symmetric; SymUdpFirewall;
     SymmetricEasyInc; SymmetricEasyDec].

(** ** Messages *)

Inductive Attribute :=
| Software (description : text) | MappedAddress (a : SocketAddr) | XorMappedAddress (a : SocketAddr)
| XorMappedAddress2 (a : SocketAddr) | OtherAddress (a : SocketAddr) | ChangeRequest (ip port : bool)
| ChangedAddress (a : SocketAddr) | SourceAddress (a : SocketAddr) | ResponseOrigin (a : SocketAddr).

Inductive MessageClass := Request | Indication | SuccessResponse | ErrorResponse.

#[global] Instance attribute_eq_dec : EqDecision Attribute.
Proof. solve_decision. Defined.
#[global] Instance message_class_eq_dec : EqDecision MessageClass.
Proof. solve_decision. Defined.

Record Message := { msg_class : MessageClass; msg_method : Z; msg_tid : bytes; msg_attributes : list Attribute }.

Definition BINDING : Z := 1.

(** [decode_from_bytes] fails on what is no STUN message at all, and has an error
    for a broken one. *)
Class StunCodec := {
  encode_into_bytes : Message -> result () bytes;
  decode_from_bytes : bytes -> result () (result () Message)
}.

(** Messages with transaction ids of twelve bytes can be encoded; the result
    starts with a header of twenty bytes that has two zero bits and the cookie. *)
Class StunCodecLaws `{StunCodec} := {
  encode_total m : length (msg_tid m) = 12%nat -> byte_list (msg_tid m) -> exists b, encode_into_bytes m = Ok b;
  stun_decode_encode m b : encode_into_bytes m = Ok b -> decode_from_bytes b = Ok (Ok m);
  encode_header m b : encode_into_bytes m = Ok b ->
    20 <= len b /\ byte_list b /\ exists x1 x2 x3 x4 rest, b = x1 :: x2 :: x3 :: x4 :: [33; 18; 164; 66] ++ rest /\ 0 <= x1 < 64
}.

(** The value of a [ChangeRequest] on the wire. *)
Definition change_request_encode (ip port : bool) : Z :=
  Z.shiftl (Z.lor (Z.shiftl (Z.b2z ip) 1) (Z.b2z port)) 1.
Definition change_request_decode (item : Z) : bool * bool :=
  (negb (Z.land item 4 =? 0), negb (Z.land item 2 =? 0)).

Definition tid_to_u32 (tid : bytes) : outcome Z :=
  tid_buf ← slice tid 8 12; Done (le_val tid_buf).

Definition u32_to_tid (tid : Z) : bytes := [222; 173; 190; 239] ++ [0; 0; 0; 0] ++ le_bytes 4 tid.

(** ** One request *)

Inductive stun_error :=
| StunIo | StunTimeout | StunChannel | StunDecode | StunEncode | StunUnknown | StunNotFound.

Record StunPacket := { sp_data : bytes; sp_addr : SocketAddr }.

Record BindRequestResponse := {
  br_local_addr : SocketAddr; stun_server_addr : SocketAddr; recv_from_addr : SocketAddr;
  mapped_socket_addr : option SocketAddr; changed_socket_addr : option SocketAddr;
  change_ip : bool; change_port : bool; real_ip_changed : bool; real_port_changed : bool; latency_us : Z
}.

Record StunClient := { stun_server : SocketAddr; resp_timeout : Z; req_repeat : nat }.

Definition stun_client_new (stun_server : SocketAddr) : StunClient :=
  {| stun_server := stun_server; resp_timeout := 3 * SEC; req_repeat := 2 |}.

(** The first attribute of one of two kinds. *)
Fixpoint first_attribute (sel : Attribute -> option SocketAddr) (l : list Attribute) : option SocketAddr :=
  match l with
  | [] => None
  | x :: l => match sel x with Some a => Some a | None => first_attribute sel l end
  end.

Definition extrace_mapped_addr (msg : Message) : option SocketAddr :=
  first_attribute (fun x => match x with MappedAddress a | XorMappedAddress a => Some a | _ => None end) (msg_attributes msg).

Definition extract_changed_addr (msg : Message) : option SocketAddr :=
  first_attribute (fun x => match x with OtherAddress a | ChangedAddress a => Some a | _ => None end) (msg_attributes msg).

(** What a receiver gets: a datagram, with the clock read after it, or the error
    of a receiver that fell behind. *)
Inductive recv_event := Received (p : StunPacket) (now : Z) | ReceiverError.

Section client.
Context `{StunCodec}.

(** The end of the list is the timeout. *)
Fixpoint wait_stun_response (now deadline : Z) (tids : list Z) (evs : list recv_event)
    : outcome (result stun_error (Message * SocketAddr)) :=
  if now <? deadline then
    match evs with
    | [] => Done (Err StunTimeout)
    | ReceiverError :: _ => Done (Err StunChannel)
    | Received p now :: evs =>
        if len (sp_data p) <? 20 then wait_stun_response now deadline tids evs
        else
          match decode_from_bytes (sp_data p) with
          | Err _ => Done (Err StunDecode)
          | Ok (Err _) => wait_stun_response now deadline tids evs
          | Ok (Ok msg) =>
              if bool_decide (msg_class msg = SuccessResponse) && (msg_method msg =? BINDING) then
                tid ← tid_to_u32 (msg_tid msg);
                if existsb (Z.eqb tid) tids then Done (Ok (msg, sp_addr p))
                else wait_stun_response now deadline tids evs
              else wait_stun_response now deadline tids evs
          end
    end
  else Done (Err StunUnknown).

Definition bind_message (tid : Z) (change_ip change_port : bool) : Message :=
  {| msg_class := Request; msg_method := BINDING; msg_tid := u32_to_tid tid;
     msg_attributes := [ChangeRequest change_ip change_port] |}.

(** The requests with their random transaction ids and whether the socket took
    them; what was handed to the socket. *)
Fixpoint send_requests (change_ip change_port : bool) (l : list (Z * bool)) : result stun_error () * list bytes :=
  match l with
  | [] => (Ok tt, [])
  | (tid, sent) :: l =>
      match encode_into_bytes (bind_message tid change_ip change_port) with
      | Err _ => (Err StunEncode, [])
      | Ok msg =>
          if sent : bool then let '(r, more) := send_requests change_ip change_port l in (r, msg :: more)
          else (Err StunIo, [msg])
      end
  end.

(** [rnd] is a source of transaction ids, [sent] what the socket answers; [start]
    and [finish] are readings of the clock, [local] the socket's own address. *)
Definition bind_request (c : StunClient) (change_ip change_port : bool) (rnd : nat -> Z) (sent : nat -> bool)
    (local : result stun_error SocketAddr) (start now finish : Z) (evs : list recv_event)
    : outcome (result stun_error BindRequestResponse * list bytes) :=
  let stun_host := stun_server c in
  let tids := rnd <$> seq 0 (req_repeat c) in
  let '(r, out) := send_requests change_ip change_port ((fun i => (rnd i, sent i)) <$> seq 0 (req_repeat c)) in
  match r with
  | Err e => Done (Err e, out)
  | Ok _ =>
      w ← wait_stun_response now (now + resp_timeout c) tids evs;
      match w with
      | Err e => Done (Err e, out)
      | Ok (msg, recv_addr) =>
          match local with
          | Err e => Done (Err e, out)
          | Ok local_addr =>
              Done (Ok {| br_local_addr := local_addr; stun_server_addr := stun_host; recv_from_addr := recv_addr;
                          mapped_socket_addr := extrace_mapped_addr msg;
                          changed_socket_addr := extract_changed_addr msg;
                          change_ip := change_ip; change_port := change_port;
                          real_ip_changed := negb (bool_decide (stun_host.1 = recv_addr.1));
                          real_port_changed := negb (stun_host.2 =? recv_addr.2);
                          latency_us := as_u32 (duration_since finish start / 1000) |}, out)
          end
      end
  end.

(** The server: what it answers, and whether from a new socket. *)
Inductive stun_server_error := StunReqDecode | StunReqBroken | StunNotFromEasytier | StunRespEncode.

Definition get_change_request (msg : Message) : option (bool * bool) :=
  head (omap (fun x => match x with ChangeRequest ip port => Some (ip, port) | _ => None end) (msg_attributes msg)).

Definition respond_stun_packet (addr : SocketAddr) (req_buf : bytes) : outcome (result stun_server_error (bool * bytes)) :=
  match decode_from_bytes req_buf with
  | Err _ => Done (Err StunReqDecode)
  | Ok (Err _) => Done (Err StunReqBroken)
  | Ok (Ok req_msg) =>
      let tid := msg_tid req_msg in
      prefix ← slice tid 0 4;
      if bool_decide (prefix = [222; 173; 190; 239]) then
        t ← tid_to_u32 tid;
        let resp_msg := {| msg_class := SuccessResponse; msg_method := BINDING; msg_tid := u32_to_tid t;
                           msg_attributes := [XorMappedAddress addr] |} in
        match encode_into_bytes resp_msg with
        | Err _ => Done (Err StunRespEncode)
        | Ok rsp_buf =>
            let change_req := match get_change_request req_msg with Some (ip, port) => ip || port | None => false end in
            Done (Ok (change_req, rsp_buf))
        end
      else Done (Err StunNotFromEasytier)
  end.
End client.

(** ** The result of a detection *)

Record UdpNatTypeDetectResult := {
  source_addr : SocketAddr; stun_resps : list BindRequestResponse; extra_bind_test : option BindRequestResponse
}.

Definition detect_result_new (source_addr : SocketAddr) (stun_resps : list BindRequestResponse) : UdpNatTypeDetectResult :=
  {| source_addr := source_addr; stun_resps := stun_resps; extra_bind_test := None |}.

Section result.
Implicit Types r : UdpNatTypeDetectResult.

Definition has_ip_changed_resp r : bool := existsb real_ip_changed (stun_resps r).
Definition has_port_changed_resp r : bool := existsb real_port_changed (stun_resps r).
Definition is_open_internet r : bool :=
  existsb (fun resp => bool_decide (mapped_socket_addr resp = Some (source_addr r))) (stun_resps r).
Definition is_pat r : bool :=
  existsb (fun resp => bool_decide (snd <$> mapped_socket_addr resp = Some (source_addr r).2)) (stun_resps r).

(** The sizes of sets of addresses. *)
Definition stun_server_count r : nat := length (remove_dups (recv_from_addr <$> stun_resps r)).
Definition mapped_addrs r : list SocketAddr := omap mapped_socket_addr (stun_resps r).
Definition stun_is_cone r : bool := Nat.eqb (length (remove_dups (mapped_addrs r))) 1.

(** The order of addresses: IPv4 first. *)
Definition ip_le (a b : IpAddr) : bool :=
  match a, b with
  | V4 x, V4 y | V6 x, V6 y => x <=? y
  | V4 _, V6 _ => true
  | V6 _, V4 _ => false
  end.
Definition public_ips r : list IpAddr := stable_sort ip_le (remove_dups (fst <$> mapped_addrs r)).

Definition list_min (l : list Z) : option Z :=
  match l with [] => None | x :: l => Some (foldl Z.min x l) end.
Definition list_max (l : list Z) : option Z :=
  match l with [] => None | x :: l => Some (foldl Z.max x l) end.
Definition min_port r : Z := default 0 (list_min (snd <$> mapped_addrs r)).
Definition max_port r : Z := default 65535 (list_max (snd <$> mapped_addrs r)).
Definition usable_stun_resp_count r : nat := length (mapped_addrs r).

Definition sat_sub (a b : Z) : Z := Z.max 0 (a - b).

Definition nat_type r : NatType :=
  if Nat.ltb (stun_server_count r) 2 then NatUnknown
  else if stun_is_cone r then
    if has_ip_changed_resp r then
      if is_open_internet r then OpenInternet else if is_pat r then NoPat else FullCone
    else if has_port_changed_resp r then Restricted else PortRestricted
  else if negb (bool_decide (stun_resps r = [])) then
    if negb (Nat.eqb (length (public_ips r)) 1) || Nat.leb (usable_stun_resp_count r) 1
       || (15 <? as_u16 (max_port r - min_port r)) then Symmetric
    else
      match extra_bind_test r ≫= mapped_socket_addr with
      | None => Symmetric
      | Some (_, extra_port) =>
          let max_port_diff := sat_sub extra_port (max_port r) in
          let min_port_diff := sat_sub (min_port r) extra_port in
          if negb (max_port_diff =? 0) && (max_port_diff <? 100) then SymmetricEasyInc
          else if negb (min_port_diff =? 0) && (min_port_diff <? 100) then SymmetricEasyDec
          else Symmetric
      end
  else NatUnknown.

Definition collect_available_stun_server r : list SocketAddr :=
  foldl (fun ret resp => if bool_decide (stun_server_addr resp ∈ ret) then ret else ret ++ [stun_server_addr resp])
    [] (stun_resps r).

Definition extend_result r (other : UdpNatTypeDetectResult) : UdpNatTypeDetectResult :=
  {| source_addr := source_addr r; stun_resps := stun_resps r ++ stun_resps other; extra_bind_test := extra_bind_test r |}.
End result.

(** ** Names of servers *)

Class Dns := {
  lookup_host : text -> result () (list SocketAddr);
  resolve_txt_record : text -> result () text;
  choose_multiple : nat -> list SocketAddr -> list SocketAddr
}.

Class DnsLaws `{Dns} := {
  choose_multiple_spec n l : exists rest, choose_multiple n l ++ rest ≡ₚ l /\ length (choose_multiple n l) = min n (length l)
}.

(** [str::trim_start_matches]. *)
Fixpoint strip_prefixes (fuel : nat) (p l : text) : text :=
  match fuel with
  | O => l
  | S fuel => if starts_with p l then strip_prefixes fuel p (drop (length p) l) else l
  end.
Definition trim_start_matches (p l : text) : text := strip_prefixes (length l) p l.

Record HostResolverIter := { hostnames : list text; ips : list SocketAddr; max_ip_per_domain : nat; use_ipv6 : bool }.

Section resolver.
Context `{Dns}.

Definition host_resolver_new (hostnames : list text) (max_ip_per_domain : nat) (use_ipv6 : bool) : HostResolverIter :=
  {| hostnames := hostnames; ips := []; max_ip_per_domain := max_ip_per_domain; use_ipv6 := use_ipv6 |}.

Definition get_txt_record (domain_name : text) : result () (list text) :=
  match resolve_txt_record domain_name with Ok txt_data => Ok (split 32 txt_data) | Err e => Err e end.

Definition with_hosts (hosts : list text) (addrs : list SocketAddr) (it : HostResolverIter) : HostResolverIter :=
  {| hostnames := hosts; ips := addrs; max_ip_per_domain := max_ip_per_domain it; use_ipv6 := use_ipv6 it |}.

(** One unit of fuel per name looked at. *)
Fixpoint resolver_next (fuel : nat) (it : HostResolverIter) : outcome (option SocketAddr * HostResolverIter) :=
  match fuel with
  | O => Panicked OutOfFuel
  | S fuel =>
      match ips it with
      | a :: rest => Done (Some a, with_hosts (hostnames it) rest it)
      | [] =>
          match hostnames it with
          | [] => Done (None, it)
          | host :: hosts =>
              let host := if existsb (Z.eqb 58) host then host else host ++ txt ":3478" in
              if starts_with (txt "txt:") host then
                let domain_name := trim_start_matches (txt "txt:") host in
                match get_txt_record domain_name with
                | Ok l => resolver_next fuel (with_hosts (l ++ hosts) [] it)
                | Err _ => resolver_next fuel (with_hosts hosts [] it)
                end
              else
                match lookup_host host with
                | Ok l =>
                    match choose_multiple (max_ip_per_domain it)
                            (List.filter (fun x : SocketAddr => if use_ipv6 it then is_ipv6 x.1 else negb (is_ipv6 x.1)) l) with
                    | [] => resolver_next fuel (with_hosts hosts [] it)
                    | a :: rest => Done (Some a, with_hosts hosts rest it)
                    end
                | Err _ => resolver_next fuel (with_hosts hosts [] it)
                end
          end
      end
  end.

(** [while let Some(addr) = next()]: to the end, or up to a number of addresses. *)
Fixpoint resolve_all (rounds fuel : nat) (it : HostResolverIter) : outcome (list SocketAddr) :=
  match rounds with
  | O => Panicked OutOfFuel
  | S rounds =>
      '(r, it) ← resolver_next fuel it;
      match r with
      | None => Done []
      | Some addr => more ← resolve_all rounds fuel it; Done (addr :: more)
      end
  end.

Fixpoint resolve_up_to (limit fuel : nat) (it : HostResolverIter) : outcome (list SocketAddr) :=
  match limit with
  | O => Done []
  | S limit =>
      '(r, it) ← resolver_next fuel it;
      match r with
      | None => Done []
      | Some addr => more ← resolve_up_to limit fuel it; Done (addr :: more)
      end
  end.
End resolver.

(** ** Detection *)

Record UdpNatTypeDetector := { stun_server_hosts : list text; det_max_ip_per_domain : nat }.

(** The requests for each server: which address, from another address, from
    another port. *)
Record stun_request := { rq_server : SocketAddr; rq_ip : bool; rq_port : bool }.

Definition detect_requests (servers : list SocketAddr) : list stun_request :=
  servers ≫= (fun s => [ {| rq_server := s; rq_ip := false; rq_port := false |};
                         {| rq_server := s; rq_ip := false; rq_port := true |};
                         {| rq_server := s; rq_ip := true; rq_port := true |} ]).

(** What a task ends with: [bind_request] and what it handed to the socket. *)
Abbreviation stun_task := (outcome (result stun_error BindRequestResponse * list bytes)).

Definition collect_responses (joined : list stun_task) : list BindRequestResponse :=
  omap (fun r => match r with Done (Ok resp, _) => Some resp | _ => None end) joined.

(** [task] is what the task of a request ends with, [order] the order in which the
    tasks end. *)
Definition detect_nat_type_with_socket `{Dns} (d : UdpNatTypeDetector) (rounds fuel : nat)
    (local : result stun_error SocketAddr) (task : nat * stun_request -> stun_task)
    (order : list (nat * stun_request) -> list (nat * stun_request)) : outcome (result stun_error UdpNatTypeDetectResult) :=
  stun_servers ← resolve_all rounds fuel (host_resolver_new (stun_server_hosts d) (det_max_ip_per_domain d) false);
  let stun_task_set := imap pair (detect_requests stun_servers) in
  let bind_resps := collect_responses (task <$> order stun_task_set) in
  Done (match local with Ok a => Ok (detect_result_new a bind_resps) | Err e => Err e end).

(** ** The collector *)

(** The texts of addresses are left as addresses. *)
Record StunInfo := {
  udp_nat_type : Z; tcp_nat_type : Z; last_update_time : Z; public_ip : list IpAddr; si_min_port : Z; si_max_port : Z
}.
Definition default_stun_info : StunInfo :=
  {| udp_nat_type := 0; tcp_nat_type := 0; last_update_time := 0; public_ip := []; si_min_port := 0; si_max_port := 0 |}.

Record StunInfoCollector := {
  stun_servers : list text; stun_servers_v6 : list text; udp_nat_test_result : option UdpNatTypeDetectResult;
  public_ipv6 : option Z; nat_test_result_time : Z; stun_started : bool
}.

Definition stun_info_collector_new (servers servers_v6 : list text) (now : Z) : StunInfoCollector := {|
  stun_servers := servers; stun_servers_v6 := servers_v6; udp_nat_test_result := None; public_ipv6 := None;
  nat_test_result_time := now; stun_started := false |}.

Definition get_default_servers : list text :=
  [txt "txt:stun.easytier.cn"; txt "stun.miwifi.com"; txt "stun.chat.bilibili.com"; txt "stun.hitv.com"].
Definition get_default_servers_v6 : list text := [txt "txt:stun-v6.easytier.cn"].

Section collector.
Implicit Types c : StunInfoCollector.

Definition set_stun_servers (l : list text) c : StunInfoCollector := {|
  stun_servers := l; stun_servers_v6 := stun_servers_v6 c; udp_nat_test_result := udp_nat_test_result c;
  public_ipv6 := public_ipv6 c; nat_test_result_time := nat_test_result_time c; stun_started := stun_started c |}.
Definition set_stun_servers_v6 (l : list text) c : StunInfoCollector := {|
  stun_servers := stun_servers c; stun_servers_v6 := l; udp_nat_test_result := udp_nat_test_result c;
  public_ipv6 := public_ipv6 c; nat_test_result_time := nat_test_result_time c; stun_started := stun_started c |}.
Definition start_stun_routine c : StunInfoCollector := {|
  stun_servers := stun_servers c; stun_servers_v6 := stun_servers_v6 c; udp_nat_test_result := udp_nat_test_result c;
  public_ipv6 := public_ipv6 c; nat_test_result_time := nat_test_result_time c; stun_started := true |}.
Definition store_test_result (r : UdpNatTypeDetectResult) (now : Z) c : StunInfoCollector := {|
  stun_servers := stun_servers c; stun_servers_v6 := stun_servers_v6 c; udp_nat_test_result := Some r;
  public_ipv6 := public_ipv6 c; nat_test_result_time := now; stun_started := stun_started c |}.
Definition store_ipv6 (a : Z) c : StunInfoCollector := {|
  stun_servers := stun_servers c; stun_servers_v6 := stun_servers_v6 c; udp_nat_test_result := udp_nat_test_result c;
  public_ipv6 := Some a; nat_test_result_time := nat_test_result_time c; stun_started := stun_started c |}.

Definition get_stun_info c : StunInfo * StunInfoCollector :=
  let c := start_stun_routine c in
  match udp_nat_test_result c with
  | None => (default_stun_info, c)
  | Some result =>
      ({| udp_nat_type := nat_type_i32 (nat_type result); tcp_nat_type := 0; last_update_time := nat_test_result_time c / SEC;
          public_ip := public_ips result ++ match public_ipv6 c with Some a => [V6 a] | None => [] end;
          si_min_port := min_port result; si_max_port := max_port result |}, c)
  end.

(** The servers of a round: [chosen] is the random choice among the rest. *)
Definition round_servers (chosen : option text) (servers : list text) : list text :=
  take 2 servers ++ option_list chosen.

(** The extra request goes to one server after the other until one answers. *)
Fixpoint first_ok {A E} (l : list (result E A)) : option A :=
  match l with [] => None | Ok a :: _ => Some a | Err _ :: l => first_ok l end.

Definition with_extra (extra : option BindRequestResponse) (r : UdpNatTypeDetectResult) : UdpNatTypeDetectResult :=
  match extra with
  | Some e => {| source_addr := source_addr r; stun_resps := stun_resps r; extra_bind_test := Some e |}
  | None => r
  end.

(** A round of the routine: [ret] is what [detect_nat_type] returned, [extra] what
    each of the available servers answers from another port; the second component
    is how long to sleep. *)
Definition stun_round (ret : result stun_error UdpNatTypeDetectResult)
    (extra : SocketAddr -> result stun_error BindRequestResponse) (now : Z) c : StunInfoCollector * Z :=
  match ret with
  | Err _ => (c, 10)
  | Ok resp =>
      let nat_type := nat_type resp in
      let resp := if bool_decide (nat_type = Symmetric)
                  then with_extra (first_ok (extra <$> collect_available_stun_server resp)) resp else resp in
      let c := store_test_result resp now c in
      if negb (bool_decide (nat_type = NatUnknown))
         && (negb (bool_decide (nat_type = Symmetric)) || bool_decide (is_Some (extra_bind_test resp)))
      then (c, 600) else (c, 10)
  end.

Context `{Dns}.

(** The addresses of the resolver, what binding a socket gives for each and what
    the server there answers. *)
Fixpoint get_public_ipv6 (rounds fuel : nat) (bound : nat -> bool)
    (ask : SocketAddr -> result stun_error BindRequestResponse) (it : HostResolverIter) : outcome (option Z) :=
  match rounds with
  | O => Panicked OutOfFuel
  | S rounds =>
      '(r, it) ← resolver_next fuel it;
      match r with
      | None => Done None
      | Some ip =>
          if bound rounds then
            match ask ip with
            | Ok resp => match mapped_socket_addr resp with
                         | Some (V6 v6, _) => Done (Some v6)
                         | _ => get_public_ipv6 rounds fuel bound ask it
                         end
            | Err _ => get_public_ipv6 rounds fuel bound ask it
            end
          else Done None
      end
  end.

Definition ipv6_round (rounds fuel : nat) (bound : nat -> bool)
    (ask : SocketAddr -> result stun_error BindRequestResponse) c : outcome (StunInfoCollector * Z) :=
  r ← get_public_ipv6 rounds fuel bound ask (host_resolver_new (stun_servers_v6 c) 10 true);
  let c := match r with Some x => store_ipv6 x c | None => c end in
  Done (c, match public_ipv6 c with None => 60 | Some _ => 360 end).

(** The servers that answered the last detection, or up to two of the configured
    ones; [bound] is whether the local port could be bound. *)
Definition get_udp_port_mapping (fuel : nat) (bound : bool)
    (ask : SocketAddr -> result stun_error BindRequestResponse) c : outcome (result stun_error SocketAddr * StunInfoCollector) :=
  let c := start_stun_routine c in
  let known := match udp_nat_test_result c with Some x => collect_available_stun_server x | None => [] end in
  servers ← match known with
            | [] => resolve_up_to 2 fuel (host_resolver_new (stun_servers c) 2 false)
            | _ => Done known
            end;
  match servers with
  | [] => Done (Err StunNotFound, c)
  | _ =>
      if bound then
        let mapped := omap (fun s => match ask s with Ok ret => mapped_socket_addr ret | Err _ => None end) servers in
        Done (match mapped with a :: _ => Ok a | [] => Err StunNotFound end, c)
      else Done (Err StunIo, c)
  end.
End collector.

(** ** NATs

    The behaviour of RFC 4787: a NAT gives a socket a public address, for each
    destination or one for all, and lets in what comes from anywhere, from an
    address or from an address and port that was written to. *)

Inductive Filtering := EndpointIndependent | AddressDependent | AddressAndPortDependent.

Record NatDevice := { nat_mapping : SocketAddr -> SocketAddr; nat_filtering : Filtering }.

Definition nat_passes (f : Filtering) (contacted : list SocketAddr) (from : SocketAddr) : bool :=
  match f with
  | EndpointIndependent => true
  | AddressDependent => existsb (fun a => bool_decide (a.1 = from.1)) contacted
  | AddressAndPortDependent => existsb (fun a => bool_decide (a = from)) contacted
  end.

(** The type a NAT should be found to have, given the servers asked and the
    address another socket was given. *)
Definition easy_type (ports : list Z) (extra : option SocketAddr) : NatType :=
  match list_min ports, list_max ports, extra with
  | Some lo, Some hi, Some (_, p) =>
      if 15 <? hi - lo then Symmetric
      else if (hi <? p) && (p <? hi + 100) then SymmetricEasyInc
      else if (p <? lo) && (lo - 100 <? p) then SymmetricEasyDec
      else Symmetric
  | _, _, _ => Symmetric
  end.

Definition expected_type (n : NatDevice) (source : SocketAddr) (servers : list SocketAddr) (extra : option SocketAddr)
    : NatType :=
  let addrs := nat_mapping n <$> servers in
  match remove_dups addrs with
  | [m] =>
      match nat_filtering n with
      | EndpointIndependent =>
          if bool_decide (m = source) then OpenInternet else if m.2 =? source.2 then NoPat else FullCone
      | AddressDependent => Restricted
      | AddressAndPortDependent => PortRestricted
      end
  | _ => if Nat.eqb (length (remove_dups (fst <$> addrs))) 1 then easy_type (snd <$> addrs) extra else Symmetric
  end.

(** ** Sets of addresses as lists *)

Lemma distinct_one {A} `{EqDecision A} (l : list A) x :
  l <> [] -> (forall y, y ∈ l -> y = x) -> remove_dups l = [x].
Proof.
  intros Hne Hall.
  assert (x ∈ remove_dups l).
  { destruct l as [|y l]; [done|]. rewrite elem_of_remove_dups. rewrite <- (Hall y) by set_solver. set_solver. }
  assert (Hnd := NoDup_remove_dups l).
  assert (Hall' : forall y, y ∈ remove_dups l -> y = x) by (intros y Hy; apply Hall; by apply elem_of_remove_dups).
  destruct (remove_dups l) as [|a [|b k]]; [set_solver| |].
  - by rewrite (Hall' a) by set_solver.
  - exfalso. apply NoDup_cons in Hnd as [Hn _]. apply Hn. rewrite (Hall' a), (Hall' b); set_solver.
Qed.

Lemma distinct_two {A} `{EqDecision A} (l : list A) x y :
  x ∈ l -> y ∈ l -> x <> y -> (2 <= length (remove_dups l))%nat.
Proof.
  rewrite <- (elem_of_remove_dups l x), <- (elem_of_remove_dups l y).
  destruct (remove_dups l) as [|a [|b k]]; simpl; [set_solver| |lia].
  rewrite !list_elem_of_singleton. congruence.
Qed.

Lemma distinct_ext {A} `{EqDecision A} (l k : list A) :
  (forall x, x ∈ l <-> x ∈ k) -> length (remove_dups l) = length (remove_dups k).
Proof.
  intros Hlk. apply Permutation_length, NoDup_Permutation; [apply NoDup_remove_dups..|].
  intros x. by rewrite !elem_of_remove_dups.
Qed.

Lemma distinct_le {A} `{EqDecision A} (l : list A) : (length (remove_dups l) <= length l)%nat.
Proof. induction l as [|x l IH]; simpl; [lia|]. case_decide; simpl; lia. Qed.

Lemma foldl_min_spec l x : (foldl Z.min x l = x \/ foldl Z.min x l ∈ l) /\ foldl Z.min x l <= x /\ forall y, y ∈ l -> foldl Z.min x l <= y.
Proof.
  revert x; induction l as [|z l IH]; intros x; simpl; [split_and!; [by left|lia|set_solver]|].
  destruct (IH (Z.min x z)) as (Hin & Hle & Hall). split_and!.
  - destruct Hin as [->|?]; [|set_solver]. destruct (Z.min_spec x z) as [[_ ->]|[_ ->]]; set_solver.
  - lia.
  - intros y [->|Hy]%elem_of_cons; [lia|auto].
Qed.

Lemma foldl_max_spec l x : (foldl Z.max x l = x \/ foldl Z.max x l ∈ l) /\ x <= foldl Z.max x l /\ forall y, y ∈ l -> y <= foldl Z.max x l.
Proof.
  revert x; induction l as [|z l IH]; intros x; simpl; [split_and!; [by left|lia|set_solver]|].
  destruct (IH (Z.max x z)) as (Hin & Hle & Hall). split_and!.
  - destruct Hin as [->|?]; [|set_solver]. destruct (Z.max_spec x z) as [[_ ->]|[_ ->]]; set_solver.
  - lia.
  - intros y [->|Hy]%elem_of_cons; [lia|auto].
Qed.

Lemma list_min_spec l m : list_min l = Some m <-> m ∈ l /\ forall y, y ∈ l -> m <= y.
Proof.
  destruct l as [|x l]; simpl; [set_solver|]. destruct (foldl_min_spec l x) as (Hin & Hle & Hall). split.
  - intros [= <-]. split; [set_solver|]. intros y [->|Hy]%elem_of_cons; auto.
  - intros [Hm Hmin]. f_equal. apply Z.le_antisymm.
    + apply elem_of_cons in Hm as [->|Hm]; auto.
    + apply Hmin. set_solver.
Qed.

Lemma list_max_spec l m : list_max l = Some m <-> m ∈ l /\ forall y, y ∈ l -> y <= m.
Proof.
  destruct l as [|x l]; simpl; [set_solver|]. destruct (foldl_max_spec l x) as (Hin & Hle & Hall). split.
  - intros [= <-]. split; [set_solver|]. intros y [->|Hy]%elem_of_cons; auto.
  - intros [Hm Hmax]. f_equal. apply Z.le_antisymm.
    + apply Hmax. set_solver.
    + apply elem_of_cons in Hm as [->|Hm]; auto.
Qed.

Lemma list_min_ext l k : (forall x, x ∈ l <-> x ∈ k) -> list_min l = list_min k.
Proof.
  intros Hlk. apply option_eq. intros m. rewrite !list_min_spec. setoid_rewrite Hlk. done.
Qed.

Lemma list_max_ext l k : (forall x, x ∈ l <-> x ∈ k) -> list_max l = list_max k.
Proof.
  intros Hlk. apply option_eq. intros m. rewrite !list_max_spec. setoid_rewrite Hlk. done.
Qed.

(** ** What is found is what the NAT does *)

Section classify.
Context (n : NatDevice) (alt : SocketAddr -> bool -> bool -> SocketAddr) (servers : list SocketAddr).

Definition asked : list (bool * bool) := [(false, false); (false, true); (true, true)].

(** At least two servers, each of which answers from where it is asked to: its own
    address, another port, another address, and none of these is another server. *)
Record stun_servers_ok : Prop := {
  servers_distinct : NoDup servers;
  servers_two : (2 <= length servers)%nat;
  alt_own s : s ∈ servers -> alt s false false = s;
  alt_port s : s ∈ servers -> (alt s false true).1 = s.1 /\ (alt s false true).2 <> s.2 /\ alt s false true ∉ servers;
  alt_ip s : s ∈ servers -> (alt s true true).1 ∉ fst <$> servers
}.

Definition lets_in (s : SocketAddr) (q : bool * bool) : bool :=
  nat_passes (nat_filtering n) servers (alt s q.1 q.2).

Definition resp_for (s : SocketAddr) (q : bool * bool) (resp : BindRequestResponse) : Prop :=
  recv_from_addr resp = alt s q.1 q.2 /\ mapped_socket_addr resp = Some (nat_mapping n s) /\
  stun_server_addr resp = s /\
  real_ip_changed resp = negb (bool_decide (s.1 = (alt s q.1 q.2).1)) /\
  real_port_changed resp = negb (s.2 =? (alt s q.1 q.2).2).

(** The answers that the NAT lets in, and only these. *)
Definition responses_of (resps : list BindRequestResponse) : Prop :=
  (forall resp, resp ∈ resps -> exists s q, s ∈ servers /\ q ∈ asked /\ lets_in s q = true /\ resp_for s q resp) /\
  (forall s q, s ∈ servers -> q ∈ asked -> lets_in s q = true -> exists resp, resp ∈ resps /\ resp_for s q resp).

Context (Hok : stun_servers_ok) (resps : list BindRequestResponse) (Hresps : responses_of resps).

Lemma own_lets_in s : s ∈ servers -> lets_in s (false, false) = true.
Proof.
  intros Hs. unfold lets_in; simpl. rewrite alt_own by done.
  destruct (nat_filtering n); simpl; [done|..]; apply existsb_exists; exists s;
    (split; [by apply list_elem_of_In | by apply bool_decide_eq_true]).
Qed.

Lemma existsb_elem {A} (f : A -> bool) l : existsb f l = true <-> exists x, x ∈ l /\ f x = true.
Proof. rewrite existsb_exists. by setoid_rewrite list_elem_of_In. Qed.

Lemma asked_cases (P : bool * bool -> Prop) q :
  q ∈ asked -> P (false, false) -> P (false, true) -> P (true, true) -> P q.
Proof. unfold asked. rewrite !elem_of_cons. intros [->|[->|[->|[]%not_elem_of_nil]]]; done. Qed.

Lemma two_servers : exists s s', s ∈ servers /\ s' ∈ servers /\ s <> s'.
Proof.
  pose proof (servers_two Hok) as H2. pose proof (servers_distinct Hok) as Hnd.
  destruct servers as [|s [|s' ss]]; simpl in *; [lia..|]. exists s, s'. apply NoDup_cons in Hnd as [Hn _]. set_solver.
Qed.

Lemma lets_in_port s : s ∈ servers -> lets_in s (false, true) = true <-> nat_filtering n <> AddressAndPortDependent.
Proof.
  intros Hs. destruct (alt_port Hok s Hs) as (Hip & _ & Hfresh). unfold lets_in; simpl.
  destruct (nat_filtering n); simpl; [done|split; [done|]|split; [|done]]; rewrite existsb_elem.
  - intros _. exists s. rewrite bool_decide_eq_true. done.
  - intros (a & Ha & ->%bool_decide_eq_true). done.
Qed.

Lemma lets_in_ip s : s ∈ servers -> lets_in s (true, true) = true <-> nat_filtering n = EndpointIndependent.
Proof.
  intros Hs. pose proof (alt_ip Hok s Hs) as Hfresh. unfold lets_in; simpl.
  destruct (nat_filtering n); simpl; [done|..]; (split; [|done]); rewrite existsb_elem;
    intros (a & Ha & E%bool_decide_eq_true); destruct Hfresh; apply list_elem_of_fmap; exists a; (split; [congruence|done]).
Qed.

Lemma ip_changed_filter : existsb real_ip_changed resps = true <-> nat_filtering n = EndpointIndependent.
Proof.
  rewrite existsb_elem. split.
  - intros (resp & Hin & Hc). destruct (proj1 Hresps resp Hin) as (s & q & Hs & Hq & Hl & _ & _ & _ & Hip & _).
    rewrite Hip in Hc. apply negb_true_iff, bool_decide_eq_false in Hc. revert Hl Hc.
    apply (asked_cases (fun q => _ -> _ -> _) q Hq); simpl; intros Hl Hc.
    + by rewrite alt_own in Hc.
    + destruct Hc. symmetry. apply alt_port; done.
    + by eapply lets_in_ip.
  - intros Hf. destruct two_servers as (s & _ & Hs & _).
    destruct (proj2 Hresps s (true, true) Hs) as (resp & Hin & _ & _ & _ & Hip & _); [set_solver|by apply lets_in_ip|].
    exists resp. split; [done|]. rewrite Hip. apply negb_true_iff, bool_decide_eq_false. simpl.
    intros E. apply (alt_ip Hok s Hs), list_elem_of_fmap. eauto.
Qed.

Lemma port_changed_filter : nat_filtering n <> EndpointIndependent ->
  existsb real_port_changed resps = true <-> nat_filtering n = AddressDependent.
Proof.
  intros Hei. rewrite existsb_elem. split.
  - intros (resp & Hin & Hc). destruct (proj1 Hresps resp Hin) as (s & q & Hs & Hq & Hl & _ & _ & _ & _ & Hport).
    rewrite Hport in Hc. revert Hl Hc. apply (asked_cases (fun q => _ -> _ -> _) q Hq); simpl; intros Hl Hc.
    + rewrite alt_own in Hc by done. by rewrite Z.eqb_refl in Hc.
    + apply lets_in_port in Hl; [|done]. by destruct (nat_filtering n).
    + by apply lets_in_ip in Hl.
  - intros Hf. destruct two_servers as (s & _ & Hs & _).
    destruct (proj2 Hresps s (false, true) Hs) as (resp & Hin & _ & _ & _ & _ & Hport);
      [set_solver|apply lets_in_port; [done|by rewrite Hf]|].
    exists resp. split; [done|]. rewrite Hport. simpl. destruct (alt_port Hok s Hs). lia.
Qed.

Lemma mapped_members x : x ∈ omap mapped_socket_addr resps <-> x ∈ nat_mapping n <$> servers.
Proof.
  rewrite list_elem_of_omap, list_elem_of_fmap. split.
  - intros (resp & Hin & E). destruct (proj1 Hresps resp Hin) as (s & q & Hs & _ & _ & _ & E' & _). exists s. split; [congruence|done].
  - intros (s & -> & Hs). destruct (proj2 Hresps s (false, false) Hs) as (resp & Hin & _ & E & _); [set_solver|by apply own_lets_in|].
    eauto.
Qed.

Lemma mapped_members_fmap {B} (f : SocketAddr -> B) x :
  x ∈ f <$> omap mapped_socket_addr resps <-> x ∈ f <$> (nat_mapping n <$> servers).
Proof. rewrite !list_elem_of_fmap. by setoid_rewrite mapped_members. Qed.

Lemma answers_of_two : (2 <= length (remove_dups (recv_from_addr <$> resps)))%nat.
Proof.
  destruct two_servers as (s & s' & Hs & Hs' & Hne). apply (distinct_two _ s s'); [..|done]; apply list_elem_of_fmap.
  - destruct (proj2 Hresps s (false, false) Hs) as (resp & Hin & E & _); [set_solver|by apply own_lets_in|].
    exists resp. simpl in E. rewrite alt_own in E by done. done.
  - destruct (proj2 Hresps s' (false, false) Hs') as (resp & Hin & E & _); [set_solver|by apply own_lets_in|].
    exists resp. simpl in E. rewrite alt_own in E by done. done.
Qed.

(** The branch for symmetric NATs. *)
Lemma symmetric_type source extra :
  (forall s, s ∈ servers -> in_width 16 (nat_mapping n s).2) ->
  (2 <= length (remove_dups (nat_mapping n <$> servers)))%nat ->
  let r := {| source_addr := source; stun_resps := resps; extra_bind_test := extra |} in
  (if negb (Nat.eqb (length (public_ips r)) 1) || Nat.leb (usable_stun_resp_count r) 1
      || (15 <? as_u16 (max_port r - min_port r)) then Symmetric
   else match extra ≫= mapped_socket_addr with
        | None => Symmetric
        | Some (_, extra_port) =>
            if negb (sat_sub extra_port (max_port r) =? 0) && (sat_sub extra_port (max_port r) <? 100) then SymmetricEasyInc
            else if negb (sat_sub (min_port r) extra_port =? 0) && (sat_sub (min_port r) extra_port <? 100) then SymmetricEasyDec
            else Symmetric
        end) =
  if Nat.eqb (length (remove_dups (fst <$> (nat_mapping n <$> servers)))) 1
  then easy_type (snd <$> (nat_mapping n <$> servers)) (extra ≫= mapped_socket_addr) else Symmetric.
Proof.
  intros Hports H2 r. unfold public_ips, usable_stun_resp_count, max_port, min_port, mapped_addrs, easy_type. subst r; simpl.
  rewrite stable_sort_length, (distinct_ext _ _ (mapped_members_fmap fst)).
  rewrite (list_min_ext _ _ (mapped_members_fmap snd)), (list_max_ext _ _ (mapped_members_fmap snd)).
  destruct (Nat.eqb _ 1); [|done]. cbn [negb orb].
  assert (Hlen : (2 <= length (omap mapped_socket_addr resps))%nat).
  { rewrite <- (distinct_ext _ _ mapped_members) in H2. pose proof (distinct_le (omap mapped_socket_addr resps)). lia. }
  destruct (Nat.leb_spec (length (omap mapped_socket_addr resps)) 1); [lia|]. cbn [orb].
  destruct (list_min _) as [lo|] eqn:Elo.
  2: { exfalso. clear - H2 Elo. destruct servers; simpl in *; [lia|done]. }
  destruct (list_max _) as [hi|] eqn:Ehi.
  2: { exfalso. clear - H2 Ehi. destruct servers; simpl in *; [lia|done]. }
  apply list_min_spec in Elo as [Hlo Hmin]. apply list_max_spec in Ehi as [Hhi _]. cbn [default from_option]. unfold id.
  assert (Hw : forall p, p ∈ snd <$> (nat_mapping n <$> servers) -> in_width 16 p).
  { intros p (a & -> & (s & -> & Hs)%list_elem_of_fmap)%list_elem_of_fmap. by apply Hports. }
  pose proof (Hmin _ Hhi). pose proof (Hw _ Hlo) as Wlo. pose proof (Hw _ Hhi) as Whi. unfold in_width in *.
  replace (as_u16 (hi - lo)) with (hi - lo) by (symmetry; apply wrap_small; unfold in_width; lia).
  destruct (15 <? hi - lo); [by destruct (extra ≫= mapped_socket_addr) as [[]|]|].
  destruct (extra ≫= mapped_socket_addr) as [[ip p]|]; [|done]. unfold sat_sub. clear.
  repeat match goal with |- context [if ?b then _ else _] => destruct b eqn:? end; try done; lia.
Qed.

Lemma mapped_in s : s ∈ servers -> nat_mapping n s ∈ remove_dups (nat_mapping n <$> servers).
Proof. intros Hs. rewrite elem_of_remove_dups. apply list_elem_of_fmap. eauto. Qed.

(** The branch for one public address. *)
Lemma cone_type source extra m : remove_dups (nat_mapping n <$> servers) = [m] ->
  let r := {| source_addr := source; stun_resps := resps; extra_bind_test := extra |} in
  (if has_ip_changed_resp r then if is_open_internet r then OpenInternet else if is_pat r then NoPat else FullCone
   else if has_port_changed_resp r then Restricted else PortRestricted) =
  match nat_filtering n with
  | EndpointIndependent => if bool_decide (m = source) then OpenInternet else if m.2 =? source.2 then NoPat else FullCone
  | AddressDependent => Restricted
  | AddressAndPortDependent => PortRestricted
  end.
Proof.
  intros Em r. assert (Hmap : forall resp, resp ∈ resps -> mapped_socket_addr resp = Some m).
  { intros resp Hin. destruct (proj1 Hresps resp Hin) as (s & q & Hs & _ & _ & _ & -> & _).
    pose proof (mapped_in s Hs) as Hm. rewrite Em in Hm. f_equal. set_solver. }
  destruct two_servers as (s1 & _ & Hs1 & _).
  destruct (proj2 Hresps s1 (false, false) Hs1) as (resp0 & Hin0 & _); [set_solver|by apply own_lets_in|].
  assert (Hall : forall (f : BindRequestResponse -> bool) b,
    (forall resp, mapped_socket_addr resp = Some m -> f resp = b) -> existsb f resps = b).
  { intros f b Hf. destruct b; [apply existsb_elem; eauto|]. apply not_true_iff_false. rewrite existsb_elem.
    intros (resp & Hin & E). rewrite Hf in E; [done|auto]. }
  unfold has_ip_changed_resp, has_port_changed_resp, is_open_internet, is_pat. subst r; cbn [stun_resps source_addr].
  rewrite (Hall (fun resp => bool_decide (mapped_socket_addr resp = Some source)) (bool_decide (m = source))).
  2: { intros resp ->. apply bool_decide_ext. split; [by intros [= ->]|by intros ->]. }
  rewrite (Hall (fun resp => bool_decide (snd <$> mapped_socket_addr resp = Some source.2)) (m.2 =? source.2)).
  2: { intros resp ->. apply eq_true_iff_eq. rewrite bool_decide_eq_true, Z.eqb_eq. simpl. split; [by intros [= ->]|by intros ->]. }
  pose proof ip_changed_filter as Hip. pose proof port_changed_filter as Hport.
  destruct (nat_filtering n); [by rewrite (proj2 Hip eq_refl)|..];
    (rewrite (proj1 (not_true_iff_false (existsb real_ip_changed resps))) by (rewrite Hip; done)).
  - by rewrite (proj2 (Hport ltac:(done)) eq_refl).
  - by rewrite (proj1 (not_true_iff_false (existsb real_port_changed resps))) by (rewrite Hport; done).
Qed.

Lemma classified source extra :
  (forall s, s ∈ servers -> in_width 16 (nat_mapping n s).2) ->
  nat_type {| source_addr := source; stun_resps := resps; extra_bind_test := extra |} =
  expected_type n source servers (extra ≫= mapped_socket_addr).
Proof.
  intros Hports. pose proof answers_of_two as H2. destruct two_servers as (s1 & _ & Hs1 & _).
  unfold nat_type, stun_server_count, stun_is_cone, expected_type. cbn [stun_resps extra_bind_test].
  destruct (Nat.ltb_spec (length (remove_dups (recv_from_addr <$> resps))) 2); [lia|].
  change (mapped_addrs _) with (omap mapped_socket_addr resps). rewrite (distinct_ext _ _ mapped_members).
  destruct (remove_dups (nat_mapping n <$> servers)) as [|m [|m' ms]] eqn:Em; cbn [length Nat.eqb].
  - pose proof (mapped_in s1 Hs1) as Hin. rewrite Em in Hin. set_solver.
  - by apply cone_type.
  - destruct (bool_decide_reflect (resps = [])) as [E|_]; [rewrite E in H2; simpl in H2; lia|]. cbn [negb].
    rewrite <- (symmetric_type source); [done|done|]. rewrite Em. simpl. lia.
Qed.
End classify.

(** ** Requests and their answers *)

Lemma change_request_roundtrip ip port : change_request_decode (change_request_encode ip port) = (ip, port).
Proof. by destruct ip, port. Qed.

Lemma u32_to_tid_ok t : length (u32_to_tid t) = 12%nat /\ byte_list (u32_to_tid t).
Proof.
  unfold u32_to_tid. split; [by rewrite !length_app, le_bytes_length|].
  apply Forall_app; split; [|apply Forall_app; split; [|apply le_bytes_bytes]]; repeat constructor; unfold is_byte, in_width; lia.
Qed.

Lemma tid_roundtrip t : in_width 32 t -> tid_to_u32 (u32_to_tid t) = Done t.
Proof.
  intros Ht. unfold tid_to_u32, u32_to_tid. rewrite app_assoc.
  rewrite <- (app_nil_r (_ ++ le_bytes 4 t)), <- (app_assoc _ (le_bytes 4 t) []), (slice_app _ (le_bytes 4 t) []); [|done..].
  cbn [mbind outcome_bind]. rewrite le_val_le_bytes. f_equal. apply Z.mod_small. done.
Qed.

Section heard.
Context `{StunCodec} `{!StunCodecLaws}.

(** A datagram that is not for a request: short, broken in its attributes, of
    another kind or with another transaction id; an event that ends the wait
    before its time, a datagram that is no STUN message at all or the end of the
    channel; and a datagram for the request. *)
Definition skipped (tids : list Z) (deadline : Z) (ev : recv_event) : Prop :=
  match ev with
  | ReceiverError => False
  | Received p t => t < deadline /\
      (len (sp_data p) < 20 \/ decode_from_bytes (sp_data p) = Ok (Err tt) \/
       exists msg, decode_from_bytes (sp_data p) = Ok (Ok msg) /\
         (msg_class msg <> SuccessResponse \/ msg_method msg <> BINDING \/
          exists tid, tid_to_u32 (msg_tid msg) = Done tid /\ tid ∉ tids))
  end.

Definition breaks_off (ev : recv_event) : Prop :=
  match ev with
  | ReceiverError => True
  | Received p _ => 20 <= len (sp_data p) /\ exists e, decode_from_bytes (sp_data p) = Err e
  end.

Definition answers (tids : list Z) (from mapped : SocketAddr) (ev : recv_event) : Prop :=
  exists p t msg tid, ev = Received p t /\ 20 <= len (sp_data p) /\ decode_from_bytes (sp_data p) = Ok (Ok msg) /\
    msg_class msg = SuccessResponse /\ msg_method msg = BINDING /\ tid_to_u32 (msg_tid msg) = Done tid /\ tid ∈ tids /\
    extrace_mapped_addr msg = Some mapped /\ sp_addr p = from.

Lemma existsb_eqb z l : existsb (Z.eqb z) l = bool_decide (z ∈ l).
Proof.
  apply eq_true_iff_eq. rewrite existsb_elem, bool_decide_eq_true. split.
  - intros (x & Hx & ->%Z.eqb_eq). done.
  - intros Hz. exists z. by rewrite Z.eqb_refl.
Qed.

Lemma wait_skips tids deadline pre evs now : now < deadline -> Forall (skipped tids deadline) pre ->
  exists now', now' < deadline /\
    wait_stun_response now deadline tids (pre ++ evs) = wait_stun_response now' deadline tids evs.
Proof.
  intros Hnow Hpre. revert now Hnow; induction Hpre as [|[p t|] pre Hp _ IH]; intros now Hnow; [eauto| |done].
  destruct Hp as (Ht & Hp). destruct (IH t Ht) as (now' & Hn' & E). exists now'. split; [done|]. rewrite <- E. simpl.
  rewrite (proj2 (Z.ltb_lt _ _) Hnow).
  destruct (Z.ltb_spec (len (sp_data p)) 20); [done|].
  destruct Hp as [?|[->|(msg & -> & Hmsg)]]; [lia|done|].
  destruct (bool_decide_reflect (msg_class msg = SuccessResponse)) as [Hc|]; [|done]. cbn [andb].
  destruct (Z.eqb_spec (msg_method msg) BINDING) as [Hm|]; [|done].
  destruct Hmsg as [?|[?|(tid & -> & Htid)]]; [done..|]. cbn [mbind outcome_bind].
  by rewrite existsb_eqb, bool_decide_eq_false_2.
Qed.

Lemma wait_hears tids deadline evs now from mapped ev : now < deadline -> answers tids from mapped ev ->
  exists msg, wait_stun_response now deadline tids (ev :: evs) = Done (Ok (msg, from)) /\ extrace_mapped_addr msg = Some mapped.
Proof.
  intros Hnow (p & t & msg & tid & -> & Hlen & Hd & Hc & Hm & Ht & Hin & Hmap & <-). exists msg. split; [|done]. simpl.
  rewrite (proj2 (Z.ltb_lt _ _) Hnow). destruct (Z.ltb_spec (len (sp_data p)) 20); [lia|].
  rewrite Hd, Hc, Hm, bool_decide_eq_true_2 by done. cbn [andb Z.eqb Pos.eqb BINDING]. rewrite Ht. cbn [mbind outcome_bind].
  by rewrite existsb_eqb, bool_decide_eq_true_2.
Qed.

Lemma send_requests_ok ip port l : Forall (fun x : Z * bool => x.2 = true) l ->
  exists out, send_requests ip port l = (Ok tt, out) /\
    Forall2 (fun x msg => encode_into_bytes (bind_message x.1 ip port) = Ok msg) l out.
Proof.
  induction 1 as [|[tid sent] l E _ (out & IH & Hout)]; simpl in *; [eauto|]. subst sent.
  destruct (encode_total (bind_message tid ip port)) as [b Hb]; [apply u32_to_tid_ok..|].
  rewrite Hb, IH. eauto.
Qed.

Lemma wait_broken_off tids deadline evs now ev : now < deadline -> breaks_off ev ->
  exists e, wait_stun_response now deadline tids (ev :: evs) = Done (Err e).
Proof.
  intros Hnow Hev. simpl. rewrite (proj2 (Z.ltb_lt _ _) Hnow). destruct ev as [p t|]; [|by eexists].
  destruct Hev as (Hlen & e & ->). destruct (Z.ltb_spec (len (sp_data p)) 20); [lia | by eexists].
Qed.

(** What a request hears behind a NAT: in time and before the wait is broken
    off, the answer, if the NAT lets it in, else none. *)
Definition request_tids (rnd : nat -> Z) : list Z := rnd <$> seq 0 2.

Definition heard (n : NatDevice) (alt : SocketAddr -> bool -> bool -> SocketAddr) (servers : list SocketAddr)
    (rq : stun_request) (tids : list Z) (deadline : Z) (evs : list recv_event) : Prop :=
  if lets_in n alt servers (rq_server rq) (rq_ip rq, rq_port rq) then
    exists pre ev post, evs = pre ++ ev :: post /\ Forall (skipped tids deadline) pre /\
      answers tids (alt (rq_server rq) (rq_ip rq) (rq_port rq)) (nat_mapping n (rq_server rq)) ev
  else exists pre post, evs = pre ++ post /\ Forall (skipped tids deadline) pre /\
    match post with [] => True | ev :: _ => breaks_off ev end.

Lemma bind_request_heard n alt servers rq rnd source start now finish evs :
  heard n alt servers rq (request_tids rnd) (now + 3 * SEC) evs ->
  exists out, match bind_request (stun_client_new (rq_server rq)) (rq_ip rq) (rq_port rq) rnd (fun _ => true)
                      (Ok source) start now finish evs with
  | Done (Ok resp, out') => out' = out /\ lets_in n alt servers (rq_server rq) (rq_ip rq, rq_port rq) = true /\
                            resp_for n alt (rq_server rq) (rq_ip rq, rq_port rq) resp
  | Done (Err _, out') => out' = out /\ lets_in n alt servers (rq_server rq) (rq_ip rq, rq_port rq) = false
  | Panicked _ => False
  end.
Proof.
  intros Hh. unfold bind_request. cbn [stun_client_new req_repeat stun_server resp_timeout].
  destruct (send_requests_ok (rq_ip rq) (rq_port rq) ((fun i => (rnd i, true)) <$> seq 0 2)) as (out & -> & _).
  { apply Forall_fmap, Forall_forall. done. }
  exists out. unfold heard in Hh. destruct (lets_in n alt servers _ _) eqn:El.
  - destruct Hh as (pre & ev & post & -> & Hpre & Hev).
    destruct (wait_skips _ (now + 3 * SEC) pre (ev :: post) now ltac:(unfold SEC; lia) Hpre) as (now' & Hn' & E). unfold request_tids in *. rewrite E.
    destruct (wait_hears _ _ post now' _ _ ev Hn' Hev) as (msg & -> & Hmap). cbn [mbind outcome_bind].
    split_and!; done.
  - destruct Hh as (pre & post & -> & Hpre & Hpost).
    destruct (wait_skips _ (now + 3 * SEC) pre post now ltac:(unfold SEC; lia) Hpre) as (now' & Hn' & E). unfold request_tids in *.
    rewrite E. destruct post as [|ev post]; [simpl; by rewrite (proj2 (Z.ltb_lt _ _) Hn')|].
    match goal with |- context [wait_stun_response _ _ ?tids _] => by destruct (wait_broken_off tids _ post now' ev Hn' Hpost) as (e & ->) end.
Qed.

Lemma easy_type_None ports : easy_type ports None = Symmetric.
Proof. unfold easy_type. by destruct (list_min ports), (list_max ports). Qed.

Lemma detect_requests_elem servers rq :
  rq ∈ detect_requests servers <-> rq_server rq ∈ servers /\ (rq_ip rq, rq_port rq) ∈ asked.
Proof.
  unfold detect_requests. rewrite list_elem_of_bind. destruct rq as [s ip port]; simpl. split.
  - intros (s' & Hrq & Hs'). split.
    + rewrite !elem_of_cons in Hrq. destruct Hrq as [[= -> _ _]|[[= -> _ _]|[[= -> _ _]|[]%not_elem_of_nil]]]; done.
    + unfold asked. rewrite !elem_of_cons in *. destruct Hrq as [[= _ -> ->]|[[= _ -> ->]|[[= _ -> ->]|[]%not_elem_of_nil]]]; auto.
  - intros (Hs & Hq). exists s. split; [|done]. unfold asked in Hq. rewrite !elem_of_cons in *.
    destruct Hq as [[= -> ->]|[[= -> ->]|[[= -> ->]|[]%not_elem_of_nil]]]; auto.
Qed.

Context `{Dns}.
Context (n : NatDevice) (alt : SocketAddr -> bool -> bool -> SocketAddr) (servers : list SocketAddr).
Context (source : SocketAddr) (rnd : nat -> nat -> Z) (start now finish : nat -> Z) (evs : nat -> list recv_event).

(** The task of the [i]th request. *)
Definition nth_task '((i, rq) : nat * stun_request) : stun_task :=
  bind_request (stun_client_new (rq_server rq)) (rq_ip rq) (rq_port rq) (rnd i) (fun _ => true)
    (Ok source) (start i) (now i) (finish i) (evs i).

Definition all_heard : Prop := forall i rq, detect_requests servers !! i = Some rq ->
  heard n alt servers rq (request_tids (rnd i)) (now i + 3 * SEC) (evs i).

Lemma collected order : all_heard -> order ≡ₚ imap pair (detect_requests servers) ->
  responses_of n alt servers (collect_responses (nth_task <$> order)).
Proof.
  intros Hh Hord.
  assert (Ho : forall i rq, (i, rq) ∈ order <-> detect_requests servers !! i = Some rq).
  { intros i rq. rewrite Hord, elem_of_lookup_imap. split; [by intros (j & y & [= -> ->] & E)|eauto]. }
  split.
  - intros resp (t & (x & -> & Hx)%list_elem_of_fmap & Ht)%list_elem_of_omap. destruct x as [i rq]. apply Ho in Hx.
    destruct (bind_request_heard _ _ _ _ (rnd i) source (start i) (now i) (finish i) (evs i) (Hh _ _ Hx)) as (out & E).
    simpl in Ht. destruct (bind_request _ _ _ _ _ _ _ _ _ _) as [[[r|] out']|]; simplify_eq. destruct E as (_ & Hl & Hr).
    apply list_elem_of_lookup_2, detect_requests_elem in Hx as (Hs & Hq). eauto 10.
  - intros s q Hs Hq Hl. set (rq := {| rq_server := s; rq_ip := q.1; rq_port := q.2 |}).
    destruct (list_elem_of_lookup_1 (detect_requests servers) rq) as [i Hi].
    { apply detect_requests_elem. simpl. by destruct q. }
    destruct (bind_request_heard _ _ _ _ (rnd i) source (start i) (now i) (finish i) (evs i) (Hh _ _ Hi)) as (out & E).
    destruct (bind_request _ _ _ _ _ _ _ _ _ _) as [[[r|] out']|] eqn:Eb; [| |done].
    + exists r. destruct E as (_ & _ & Hr). simpl in Hr. replace (q.1, q.2) with q in Hr by (by destruct q). split; [|done].
      apply list_elem_of_omap. exists (nth_task (i, rq)). split; [|unfold nth_task; by rewrite Eb].
      apply list_elem_of_fmap. exists (i, rq). split; [done|]. by apply Ho.
    + destruct E as (_ & E). simpl in E. replace (q.1, q.2) with q in E by (by destruct q). congruence.
Qed.

(** C23.  A node that asks at least two STUN servers, which answer from another
    port and from an address of no server when asked to, from behind a NAT whose
    mapping and filtering stay as they are, publishes the type that they have by
    definition, in whatever order the requests end: with one public address the
    filtering decides, with several the distance of the ports and the port of a
    further socket do.  Each request that the NAT lets an answer in for gets it
    within its three seconds; before it, any datagrams may arrive that are too
    short, have undecodable attributes, or are of another kind or for another
    transaction, but none that is no STUN message at all, and the channel does
    not fail: these break the wait off.  A request without an answer may be
    broken off. *)
Theorem nat_behaviour_detected d rounds fuel order extra t c :
  resolve_all rounds fuel (host_resolver_new (stun_server_hosts d) (det_max_ip_per_domain d) false) = Done servers ->
  (forall l, order l ≡ₚ l) ->
  stun_servers_ok alt servers -> (forall s, s ∈ servers -> in_width 16 (nat_mapping n s).2) -> all_heard ->
  exists r, detect_nat_type_with_socket d rounds fuel (Ok source) nth_task order = Done (Ok r) /\
    udp_nat_type (get_stun_info (stun_round (Ok r) extra t c).1).1 =
      nat_type_i32 (expected_type n source servers
        (first_ok (extra <$> collect_available_stun_server r) ≫= mapped_socket_addr)).
Proof.
  intros Hres Hord Hok Hports Hh. unfold detect_nat_type_with_socket. rewrite Hres. cbn [mbind outcome_bind].
  eexists. split; [done|]. set (resps := collect_responses _).
  assert (Hr : responses_of n alt servers resps) by (apply collected; auto).
  pose proof (fun e => classified n alt servers Hok resps Hr source e Hports) as Hcl.
  set (r := detect_result_new source resps).
  assert (E : nat_type (if bool_decide (nat_type r = Symmetric)
                        then with_extra (first_ok (extra <$> collect_available_stun_server r)) r else r) =
              expected_type n source servers (first_ok (extra <$> collect_available_stun_server r) ≫= mapped_socket_addr)).
  { pose proof (Hcl None) as Hno. change {| source_addr := _; stun_resps := _; extra_bind_test := _ |} with r in Hno.
    destruct (bool_decide_reflect (nat_type r = Symmetric)) as [Hs|Hs].
    - destruct (first_ok _) as [e|]; [exact (Hcl (Some e))|exact Hno].
    - rewrite Hno in *. revert Hs. unfold expected_type. destruct (remove_dups _) as [|m [|m' ms]]; [|done|];
        (destruct (Nat.eqb _ 1); [|done]); by rewrite easy_type_None. }
  unfold stun_round. fold r. rewrite <- E. by destruct (_ && _).
Qed.
End heard.

(** ** A listener as STUN server *)

Section server.
Context `{StunCodec} `{!StunCodecLaws}.

Lemma top_bits x : 0 <= x < 64 -> Z.land x 192 = 0.
Proof.
  intros Hx. assert (Hall : forallb (fun y => Z.land y 192 =? 0) (seqZ 0 64) = true) by done.
  rewrite forallb_forall in Hall. apply Z.eqb_eq, Hall, list_elem_of_In, elem_of_seqZ. lia.
Qed.

Lemma stun_recognised m b : encode_into_bytes m = Ok b -> is_stun_packet (take 8 b) = Done true.
Proof.
  intros E. apply encode_header in E as (_ & _ & x1 & x2 & x3 & x4 & rest & -> & Hx).
  unfold is_stun_packet, slice, len. simpl. unfold slice. simpl. by rewrite top_bits.
Qed.

(** The listener of a UDP tunnel hands a STUN request to the server, and the
    answer satisfies the request: it has its transaction id and the address the
    request came from; it is sent from a new socket iff the request asks for
    another address or port. *)
Lemma listener_answers_stun {B} `{RingBuffer B} (l : Listener B) random addr tid ip port req :
  in_width 32 tid -> encode_into_bytes (bind_message tid ip port) = Ok req ->
  get_zcpacket_from_buf req true = Done (Ok (new_from_buf req UDP)) /\
  do_forward_one_packet_to_conn random (new_from_buf req UDP) addr l = Done (l, [RespondStun req addr]) /\
  exists rsp, respond_stun_packet addr req = Done (Ok (ip || port, rsp)) /\
    forall tids from t, tid ∈ tids -> answers tids from addr (Received {| sp_data := rsp; sp_addr := from |} t).
Proof.
  intros Ht E. pose proof (stun_recognised _ _ E) as Hs. pose proof (encode_header _ _ E) as (Hlen & Hb & _).
  split_and!.
  - unfold get_zcpacket_from_buf, UDP_TUNNEL_HEADER_SIZE, slice. destruct (Z.ltb_spec (len req) 8); [lia|].
    rewrite bool_decide_eq_true_2 by (unfold len in *; lia). cbn [mbind outcome_bind]. change (Z.to_nat 0) with 0%nat.
    change (Z.to_nat (8 - 0)) with 8%nat. rewrite drop_0, Hs. done.
  - unfold do_forward_one_packet_to_conn. change (new_from_buf req UDP) with (mkZC req UDP). rewrite udp_header_buf by lia.
    cbn [mbind outcome_bind unwrap]. rewrite (stun_msg_type _ Hs). change (33 =? udp_packet_type_u8 UdpSyn) with false. cbv iota.
    unfold udp_hdr at 1. rewrite as_from_bytes; [by rewrite Hs|by apply Forall_take|].
    change (size_of (H := UDPTunnelHeader)) with 8%nat. rewrite length_take. unfold len in Hlen. lia.
  - unfold respond_stun_packet. rewrite (stun_decode_encode _ _ E). cbn [msg_tid bind_message].
    destruct (u32_to_tid_ok tid) as (Hl & Hby). change (slice (u32_to_tid tid) 0 4) with (Done [222; 173; 190; 239]).
    cbn [mbind outcome_bind]. rewrite bool_decide_eq_true_2 by done. rewrite (tid_roundtrip tid Ht). cbn [mbind outcome_bind].
    match goal with |- context [encode_into_bytes ?m] => destruct (encode_total m) as [rsp Er]; [done..|] end. rewrite Er.
    exists rsp. split; [done|]. intros tids from t Hin. pose proof (encode_header _ _ Er) as (Hr & _).
    eexists _, t, _, tid. split_and!; [done|exact Hr|by apply stun_decode_encode| | | | | |]; try done. by apply tid_roundtrip.
Qed.
End server.

(** ** What is never found *)

(** The socket is bound to the unspecified address, so its own address is never
    the one a server sees. *)
Lemma open_internet_never r : (source_addr r).1 = V4 0 ->
  (forall resp a, resp ∈ stun_resps r -> mapped_socket_addr resp = Some a -> a.1 <> V4 0) ->
  nat_type r <> OpenInternet.
Proof.
  intros Hsrc Hm. assert (is_open_internet r = false) as Ho.
  { apply not_true_iff_false. unfold is_open_internet. rewrite existsb_elem. intros (resp & Hin & E%bool_decide_eq_true).
    by apply (Hm resp _ Hin E). }
  unfold nat_type. rewrite Ho. split_cases; done.
Qed.

(** ** Resolving names ends, unless records refer to themselves *)

Section resolving.
Context `{Dns}.

(** The domain a name of a TXT record asks for. *)
Definition txt_domain (host : text) : option text :=
  let host := if existsb (Z.eqb 58) host then host else host ++ txt ":3478" in
  if starts_with (txt "txt:") host then Some (trim_start_matches (txt "txt:") host) else None.

Definition txt_hosts (host : text) : list text :=
  match txt_domain host with
  | Some d => match get_txt_record d with Ok l => l | Err _ => [] end
  | None => []
  end.

(** [w] bounds the number of names looked at for a name. *)
Definition acyclic (w : text -> nat) : Prop := forall host, (sum_list (w <$> txt_hosts host) < w host)%nat.

Lemma sum_list_nat_app (l k : list nat) : sum_list (l ++ k) = (sum_list l + sum_list k)%nat.
Proof. induction l; simpl; lia. Qed.

Definition to_resolve (w : text -> nat) (it : HostResolverIter) : nat := sum_list (w <$> hostnames it).

(** One call: an address of the name at hand, or of the next that has any. *)
Lemma resolver_next_ends `{!DnsLaws} w fuel it : acyclic w -> (to_resolve w it < fuel)%nat ->
  exists r it', resolver_next fuel it = Done (r, it') /\ max_ip_per_domain it' = max_ip_per_domain it /\
    (to_resolve w it' <= to_resolve w it)%nat /\
    (r <> None -> (length (ips it') + max_ip_per_domain it * to_resolve w it' <
                   length (ips it) + max_ip_per_domain it * to_resolve w it)%nat).
Proof.
  intros Hw. revert it; induction fuel as [|fuel IH]; intros it Hf; [lia|]. cbn [resolver_next].
  destruct (ips it) as [|a rest] eqn:Ei.
  2: { eexists _, _. split; [done|]. unfold to_resolve in *. simpl. split_and!; [done|lia|lia]. }
  destruct (hostnames it) as [|host hosts] eqn:Eh.
  { eexists _, _. split; [done|]. by split_and!. }
  pose proof (Hw host) as Hhost. unfold txt_hosts, txt_domain in Hhost.
  assert (Ht : to_resolve w it = (w host + sum_list (w <$> hosts))%nat) by (unfold to_resolve; by rewrite Eh).
  assert (Hgo : forall l, (sum_list (w <$> l) < to_resolve w it)%nat -> exists r it',
    resolver_next fuel (with_hosts l [] it) = Done (r, it') /\ max_ip_per_domain it' = max_ip_per_domain it /\
    (to_resolve w it' <= to_resolve w it)%nat /\
    (r <> None -> (length (ips it') + max_ip_per_domain it * to_resolve w it' < 0 + max_ip_per_domain it * to_resolve w it)%nat)).
  { intros l Hl. destruct (IH (with_hosts l [] it)) as (r & it' & E & Em & Hle & Hr); [unfold to_resolve in *; simpl; lia|].
    exists r, it'. unfold to_resolve at 2 in Hle. simpl in Hle, Em. unfold to_resolve at 2 in Hr. simpl in Hr.
    split_and!; [done|done|lia|]. intros Hn. specialize (Hr Hn). nia. }
  set (host' := if existsb (Z.eqb 58) host then host else host ++ txt ":3478") in *.
  destruct (starts_with (txt "txt:") host').
  - destruct (get_txt_record _); apply Hgo; [|lia]. rewrite fmap_app, sum_list_nat_app. lia.
  - destruct (lookup_host host') as [l|]; [|apply Hgo; lia].
    match goal with |- context [choose_multiple ?k ?l] => destruct (choose_multiple_spec k l) as (rest & _ & Hlen);
      destruct (choose_multiple k l) as [|a more] end; [apply Hgo; lia|].
    eexists _, _. split; [done|]. unfold to_resolve in Ht |- *. simpl in *. split_and!; [done|lia|]. intros _. rewrite Ht. nia.
Qed.

(** All names are resolved, to as many addresses as they have at most. *)
Lemma resolve_all_ends `{!DnsLaws} w rounds fuel it : acyclic w -> (to_resolve w it < fuel)%nat ->
  (length (ips it) + max_ip_per_domain it * to_resolve w it < rounds)%nat ->
  exists l, resolve_all rounds fuel it = Done l /\
    (length l <= length (ips it) + max_ip_per_domain it * to_resolve w it)%nat.
Proof.
  intros Hw. revert it; induction rounds as [|rounds IH]; intros it Hf Hr; [lia|]. cbn [resolve_all].
  destruct (resolver_next_ends w fuel it Hw Hf) as (r & it' & -> & Em & Hle & Hlt). cbn [mbind outcome_bind].
  destruct r as [addr|]; [|exists []; simpl; split; [done|lia]]. specialize (Hlt ltac:(done)).
  destruct (IH it') as (l & -> & Hl); [lia|rewrite Em; lia|]. cbn [mbind outcome_bind].
  exists (addr :: l). rewrite Em in Hl. simpl. split; [done|lia].
Qed.

(** A TXT record that names its own domain is looked up for ever. *)
Lemma self_reference_never_ends fuel hosts it : ips it = [] -> hostnames it = txt "txt:a:1" :: hosts ->
  get_txt_record (txt "a:1") = Ok [txt "txt:a:1"] -> resolver_next fuel it = Panicked OutOfFuel.
Proof.
  intros Hi Hh Hrec. revert it Hi Hh; induction fuel as [|fuel IH]; intros it Hi Hh; [done|]. cbn [resolver_next].
  rewrite Hi, Hh. change (existsb (Z.eqb 58) (txt "txt:a:1")) with true. cbv iota.
  change (starts_with (txt "txt:") (txt "txt:a:1")) with true. cbv iota.
  change (trim_start_matches (txt "txt:") (txt "txt:a:1")) with (txt "a:1"). rewrite Hrec. by apply IH.
Qed.
End resolving.

(** ** Examples *)

(** A codec: the header, the transaction id and a number for the rest. *)
#[local] Instance attribute_countable : Countable Attribute.
Proof.
  refine (inj_countable' (fun a => match a with
    | Software t => inl t
    | MappedAddress a => inr (0, a, (false, false)) | XorMappedAddress a => inr (1, a, (false, false))
    | XorMappedAddress2 a => inr (2, a, (false, false)) | OtherAddress a => inr (3, a, (false, false))
    | ChangeRequest i p => inr (4, (V4 0, 0), (i, p)) | ChangedAddress a => inr (5, a, (false, false))
    | SourceAddress a => inr (6, a, (false, false)) | ResponseOrigin a => inr (7, a, (false, false)) end)
   (fun x => match x with
    | inl t => Software t
    | inr (k, a, (i, p)) =>
        if k =? 0 then MappedAddress a else if k =? 1 then XorMappedAddress a else if k =? 2 then XorMappedAddress2 a
        else if k =? 3 then OtherAddress a else if k =? 4 then ChangeRequest i p else if k =? 5 then ChangedAddress a
        else if k =? 6 then SourceAddress a else ResponseOrigin a end) _).
  by intros [].
Defined.

Definition class_num (c : MessageClass) : Z :=
  match c with Request => 0 | Indication => 1 | SuccessResponse => 2 | ErrorResponse => 3 end.
Definition class_of (z : Z) : MessageClass :=
  if z =? 0 then Request else if z =? 1 then Indication else if z =? 2 then SuccessResponse else ErrorResponse.

Definition rest_num (m : Message) : Z := Z.pos (encode (class_num (msg_class m), msg_method m, msg_attributes m)).

Definition toy_encode (m : Message) : result () bytes :=
  if bool_decide (length (msg_tid m) = 12%nat) && forallb (fun x => (0 <=? x) && (x <? 256)) (msg_tid m) then
    Ok ([0; 1; 0; 0] ++ [33; 18; 164; 66] ++ msg_tid m ++ le_bytes (Z.to_nat (Z.log2 (rest_num m) + 1)) (rest_num m))
  else Err tt.

Definition toy_decode (b : bytes) : result () (result () Message) :=
  match decode (A := Z * Z * list Attribute) (Z.to_pos (le_val (drop 20 b))) with
  | Some (c, m, l) => Ok (Ok {| msg_class := class_of c; msg_method := m; msg_tid := take 12 (drop 8 b); msg_attributes := l |})
  | None => Err tt
  end.

#[local] Instance toy_codec : StunCodec := {| encode_into_bytes := toy_encode; decode_from_bytes := toy_decode |}.

Lemma toy_encode_Ok m b : toy_encode m = Ok b -> length (msg_tid m) = 12%nat /\ byte_list (msg_tid m) /\
  b = [0; 1; 0; 0] ++ [33; 18; 164; 66] ++ msg_tid m ++ le_bytes (Z.to_nat (Z.log2 (rest_num m) + 1)) (rest_num m).
Proof.
  unfold toy_encode. case_bool_decide as Hl; [|done]. destruct (forallb _ _) eqn:E; [|done]. intros [= <-]. split_and!; [done| |done].
  apply Forall_forall. intros x Hx%list_elem_of_In. rewrite forallb_forall in E. specialize (E x Hx). unfold is_byte, in_width. lia.
Qed.

#[local] Instance toy_laws : StunCodecLaws.
Proof.
  constructor; intros m; simpl.
  - intros Hl Hb. unfold toy_encode. rewrite bool_decide_eq_true_2 by done. eexists. rewrite (proj2 (forallb_forall _ _)); [done|].
    intros x Hx%list_elem_of_In. unfold byte_list in Hb. rewrite Forall_forall in Hb. specialize (Hb x Hx). unfold is_byte, in_width in Hb. lia.
  - intros b (Hl & Hb & ->)%toy_encode_Ok. unfold toy_decode.
    assert (Hd : drop 20 ([0; 1; 0; 0] ++ [33; 18; 164; 66] ++ msg_tid m ++ le_bytes (Z.to_nat (Z.log2 (rest_num m) + 1)) (rest_num m)) =
                 le_bytes (Z.to_nat (Z.log2 (rest_num m) + 1)) (rest_num m)).
    { simpl. rewrite drop_app_length' by done. done. }
    rewrite Hd, le_val_le_bytes, Z.mod_small.
    2: { split; [done|]. rewrite Z2Nat.id by (pose proof (Z.log2_nonneg (rest_num m)); lia).
         eapply Z.lt_le_trans; [apply (proj2 (Z.log2_spec (rest_num m) ltac:(done)))|]. apply Z.pow_le_mono_r; [lia|].
         pose proof (Z.log2_nonneg (rest_num m)). lia. }
    unfold rest_num. simpl Z.to_pos. rewrite decode_encode.
    assert (Ht : forall l, take 12 (drop 8 ([0; 1; 0; 0] ++ [33; 18; 164; 66] ++ msg_tid m ++ l)) = msg_tid m).
    { intros l. by apply take_app_length'. }
    rewrite Ht. by destruct m as [[] ? ? ?].
  - intros b (Hl & Hb & ->)%toy_encode_Ok. split_and!.
    + unfold len. rewrite !length_app. simpl. lia.
    + apply Forall_app; split; [repeat constructor; unfold is_byte, in_width; lia|].
      apply Forall_app; split; [repeat constructor; unfold is_byte, in_width; lia|].
      apply Forall_app; split; [done|apply le_bytes_bytes].
    + eexists _, _, _, _, _. split; [done|lia].
Qed.

#[local] Instance toy_dns : Dns := {|
  lookup_host := fun h => Ok [(V4 (nth 0 h 0), 3478)];
  resolve_txt_record := fun _ => Err tt;
  choose_multiple := fun k l => take k l |}.

(** An address-restricted NAT, two servers, and answers among other datagrams. *)
Definition ex_nat : NatDevice := {| nat_mapping := fun _ => (V4 9, 4000); nat_filtering := AddressDependent |}.
Definition ex_alt (s : SocketAddr) (ip port : bool) : SocketAddr :=
  if ip then (V4 77, 3479) else if port then (s.1, 3479) else s.
Definition ex_servers : list SocketAddr := [(V4 49, 3478); (V4 50, 3478)].
Definition ex_rnd (i j : nat) : Z := Z.of_nat (2 * i + j).
Definition ex_answer (i : nat) : Message :=
  {| msg_class := SuccessResponse; msg_method := BINDING; msg_tid := u32_to_tid (ex_rnd i 1);
     msg_attributes := [XorMappedAddress (V4 9, 4000)] |}.
Definition ex_datagram (i : nat) : bytes := match toy_encode (ex_answer i) with Ok b => b | Err _ => [] end.
Definition ex_evs (i : nat) : list recv_event :=
  match detect_requests ex_servers !! i with
  | Some rq =>
      Received {| sp_data := [1; 2; 3]; sp_addr := (V4 7, 7) |} 1 ::
      (if lets_in ex_nat ex_alt ex_servers (rq_server rq) (rq_ip rq, rq_port rq) then
         [Received {| sp_data := ex_datagram i; sp_addr := ex_alt (rq_server rq) (rq_ip rq) (rq_port rq) |} 2]
       else [])
  | None => []
  end.

Lemma ex_encoded i : encode_into_bytes (ex_answer i) = Ok (ex_datagram i).
Proof.
  unfold ex_datagram. destruct (encode_total (ex_answer i)) as [b Hb]; [apply u32_to_tid_ok..|]. rewrite Hb. simpl in Hb. by rewrite Hb.
Qed.

Lemma ex_all_heard : all_heard ex_nat ex_alt ex_servers ex_rnd (fun _ => 0) ex_evs.
Proof.
  intros i rq Hi. assert (Hi6 : (i < 6)%nat) by (apply lookup_lt_Some in Hi; done).
  unfold heard, ex_evs. rewrite Hi. destruct (lets_in _ _ _ _ _).
  - eexists [_], _, []. split; [done|]. split.
    + constructor; [|done]. split; [done|]. left. done.
    + pose proof (encode_header _ _ (ex_encoded i)) as (Hlen & _).
      eexists _, _, (ex_answer i), (ex_rnd i 1). split_and!; [done|exact Hlen| |done|done| | |done|].
      * apply (stun_decode_encode _ _ (ex_encoded i)).
      * apply tid_roundtrip. unfold ex_rnd, in_width. lia.
      * unfold request_tids. set_solver.
      * by destruct rq.
  - eexists [_], []. split; [done|]. split; [|done]. constructor; [|done]. split; [done|]. left. done.
Qed.

Lemma ex_servers_ok : stun_servers_ok ex_alt ex_servers.
Proof.
  constructor; try done.
  - by apply (bool_decide_unpack _).
  - intros s Hs. unfold ex_alt. simpl. split_and!; [done|set_solver|].
    unfold ex_servers in *. intros Hin. set_solver.
  - intros s Hs. unfold ex_alt. simpl. set_solver.
Qed.

Lemma nat_behaviour_detected_witness : exists r,
  detect_nat_type_with_socket {| stun_server_hosts := [txt "1"; txt "2"]; det_max_ip_per_domain := 1 |} 10 10
    (Ok (V4 0, 5000)) (nth_task (V4 0, 5000) ex_rnd (fun _ => 0) (fun _ => 0) (fun _ => 3) ex_evs) (rev (A := _)) = Done (Ok r) /\
  udp_nat_type (get_stun_info (stun_round (Ok r) (fun _ => Err StunTimeout) 5
    (stun_info_collector_new [] [] 0)).1).1 = 4.
Proof.
  apply (nat_behaviour_detected ex_nat ex_alt ex_servers (V4 0, 5000) ex_rnd (fun _ => 0) (fun _ => 0) (fun _ => 3) ex_evs).
  - reflexivity.
  - intros l. symmetry. apply Permutation_rev.
  - apply ex_servers_ok.
  - intros s _. unfold in_width; simpl; lia.
  - apply ex_all_heard.
Defined.

(** A host with a public address is taken for one behind a NAT that keeps ports. *)
Example public_host_found_nopat :
  expected_type {| nat_mapping := fun _ => (V4 9, 5000); nat_filtering := EndpointIndependent |} (V4 0, 5000) ex_servers None = NoPat.
Proof. reflexivity. Qed.
