(* ===== verification/PeerTask.v ===== *)
(** * A task for every peer that needs one

    [peers/peer_task.rs]: connectors that try to reach peers (hole punching,
    direct connections) keep one task per peer.  A loop asks the connector from
    time to time which peers need a task, stops the tasks of the others and of
    those that have ended, and starts the missing ones.

    Tasks run on their own, so they live in a store with their state; the loop's
    map holds their handles.  The connector is an instance of [PeerTaskLauncher]:
    its [launch_task] can panic. *)

From stdpp Require Import base numbers list gmap.
From S2P Require Import Prelude.
Open Scope Z_scope.

(** [D] is the connector's data, [C] what it collects, [T] the tasks it starts.
    What a connector collects depends on the time; [collect_peers_need_task]
    relates the data to the possible answers. *)
Class PeerTaskLauncher (D C T : Type) := {
  collects : D -> list C -> Prop;
  launch_task : D -> C -> outcome T;
  all_task_done : D -> D;
  loop_interval_ms : Z
}.

Inductive task_state := Running | Finished | Aborted.

#[global] Instance task_state_eq_dec : EqDecision task_state.
Proof. solve_decision. Defined.

Record SpawnedTask (C T : Type) := mkTask { st_item : C; st_task : T; st_state : task_state }.
Arguments mkTask {C T}. Arguments st_item {C T}. Arguments st_task {C T}. Arguments st_state {C T}.

Record TaskLoop (D C T : Type) `{Countable C} := mkLoop {
  tl_data : D; peer_task_map : gmap C nat; tl_tasks : gmap nat (SpawnedTask C T); tl_next : nat
}.
Arguments mkLoop {D C T _ _}. Arguments tl_data {D C T _ _}. Arguments peer_task_map {D C T _ _}.
Arguments tl_tasks {D C T _ _}. Arguments tl_next {D C T _ _}.

Section task_loop.
Context {D C T : Type} `{Countable C} `{!PeerTaskLauncher D C T}.
Implicit Types s : TaskLoop D C T.

Definition loop_new (d : D) : TaskLoop D C T := mkLoop d ∅ ∅ 0.

Definition is_finished s (id : nat) : bool :=
  match tl_tasks s !! id with Some t => bool_decide (st_state t <> Running) | None => true end.

Definition set_state (st : task_state) (t : SpawnedTask C T) : SpawnedTask C T := mkTask (st_item t) (st_task t) st.

(** [abort] does nothing to a task that has ended. *)
Definition abort_task (t : SpawnedTask C T) : SpawnedTask C T :=
  match st_state t with Running => set_state Aborted t | _ => t end.

Definition remove_task (key : C) s : TaskLoop D C T :=
  match peer_task_map s !! key with
  | Some id => mkLoop (tl_data s) (delete key (peer_task_map s)) (alter abort_task id (tl_tasks s)) (tl_next s)
  | None => s
  end.

Definition to_remove (peers : list C) s : list C :=
  omap (fun '(k, id) => if negb (bool_decide (k ∈ peers)) || is_finished s id then Some k else None)
    (map_iter (peer_task_map s)).

Definition spawn_task (item : C) s : outcome (TaskLoop D C T) :=
  match peer_task_map s !! item with
  | Some _ => Done s
  | None =>
      t ← launch_task (tl_data s) item;
      Done (mkLoop (tl_data s) (<[item := tl_next s]> (peer_task_map s))
              (<[tl_next s := mkTask item t Running]> (tl_tasks s)) (S (tl_next s)))
  end.

Fixpoint spawn_tasks (items : list C) s : outcome (TaskLoop D C T) :=
  match items with
  | [] => Done s
  | item :: items => s ← spawn_task item s; spawn_tasks items s
  end.

(** One round of [main_loop], with what was collected. *)
Definition loop_round (peers_to_connect : list C) s : outcome (TaskLoop D C T) :=
  let s := foldl (fun s key => remove_task key s) s (to_remove peers_to_connect s) in
  match peers_to_connect with
  | [] =>
      if bool_decide (peer_task_map s = ∅)
      then Done (mkLoop (all_task_done (tl_data s)) (peer_task_map s) (tl_tasks s) (tl_next s))
      else Done s
  | _ => spawn_tasks peers_to_connect s
  end.

(** A task ends by itself. *)
Definition task_ends (id : nat) s : TaskLoop D C T :=
  mkLoop (tl_data s) (peer_task_map s) (alter (fun t => match st_state t with Running => set_state Finished t | _ => t end) id (tl_tasks s))
    (tl_next s).

(** Rounds, tasks that end, and changes of the connector's data. *)
Inductive loop_step : TaskLoop D C T -> TaskLoop D C T -> Prop :=
| StepRound s s' peers : collects (tl_data s) peers -> loop_round peers s = Done s' -> loop_step s s'
| StepEnds s id : loop_step s (task_ends id s)
| StepData s d : loop_step s (mkLoop d (peer_task_map s) (tl_tasks s) (tl_next s)).

(** ** Invariant: a running task is in the map, under its item *)

Record loop_ok s : Prop := {
  map_tasks k id : peer_task_map s !! k = Some id -> exists t, tl_tasks s !! id = Some t /\ st_item t = k;
  running_mapped id t : tl_tasks s !! id = Some t -> st_state t = Running -> peer_task_map s !! st_item t = Some id;
  tasks_below id t : tl_tasks s !! id = Some t -> (id < tl_next s)%nat
}.

Lemma loop_new_ok d : loop_ok (loop_new d).
Proof. constructor; simpl; intros id t; rewrite lookup_empty; discriminate. Qed.

Lemma remove_task_ok key s : loop_ok s -> loop_ok (remove_task key s).
Proof.
  intros [Hm Hr Hb]. unfold remove_task. destruct (peer_task_map s !! key) as [id0|] eqn:Ek; [|done].
  assert (Ha : forall id t, alter abort_task id0 (tl_tasks s) !! id = Some t ->
    exists t0, tl_tasks s !! id = Some t0 /\ st_item t = st_item t0 /\ (st_state t = Running -> id <> id0 /\ t = t0)).
  { intros id t. rewrite lookup_alter. case_decide as E; [|intros Ht; eauto 10]. subst id0.
    rewrite fmap_Some. intros (t0 & Ht0 & ->). exists t0. split; [done|].
    unfold abort_task. destruct (st_state t0) eqn:Es; simpl; rewrite ?Es; split; done. }
  constructor; simpl.
  - intros k id [Hne Hk]%lookup_delete_Some. destruct (Hm k id Hk) as (t & Ht & <-).
    destruct (decide (id0 = id)) as [->|Hid]; [|exists t; by rewrite lookup_alter_ne].
    exists (abort_task t). rewrite lookup_alter_eq, Ht. split; [done|]. unfold abort_task. by destruct (st_state t).
  - intros id t Ht Hrun. destruct (Ha id t Ht) as (t0 & Ht0 & _ & Hrun'). destruct (Hrun' Hrun) as (Hne & ->).
    pose proof (Hr id t0 Ht0 Hrun) as Hmap. apply lookup_delete_Some. split; [|done]. intros ->. congruence.
  - intros id t Ht. destruct (Ha id t Ht) as (t0 & Ht0 & _). eauto.
Qed.

Lemma spawn_task_ok item s s' : loop_ok s -> spawn_task item s = Done s' -> loop_ok s'.
Proof.
  intros [Hm Hr Hb]. unfold spawn_task. destruct (peer_task_map s !! item) as [id|] eqn:Ei; [intros [= <-]; by constructor|].
  destruct (launch_task (tl_data s) item) as [t|]; [|done]. intros [= <-].
  assert (Hfresh : forall k id, peer_task_map s !! k = Some id -> id <> tl_next s).
  { intros k id Hk. destruct (Hm k id Hk) as (t0 & Ht0 & _). apply Hb in Ht0. lia. }
  constructor; simpl.
  - intros k id [[<- <-]|[Hne Hk]]%lookup_insert_Some; [rewrite lookup_insert_eq; eauto|].
    destruct (Hm k id Hk) as (t0 & Ht0 & E). exists t0. rewrite lookup_insert_ne by (apply not_eq_sym; eauto). done.
  - intros id t0 [[<- <-]|[Hne Ht0]]%lookup_insert_Some Hrun; simpl; [by rewrite lookup_insert_eq|].
    rewrite lookup_insert_ne; [by apply Hr|]. intros ->. pose proof (Hr _ _ Ht0 Hrun). congruence.
  - intros id t0 [[<- <-]|[Hne Ht0]]%lookup_insert_Some; [lia|]. apply Hb in Ht0. lia.
Qed.

(** ** A round *)

Definition running s (k : C) (id : nat) : Prop :=
  exists t, tl_tasks s !! id = Some t /\ st_item t = k /\ st_state t = Running.

Lemma is_finished_false s id : is_finished s id = false <-> exists t, tl_tasks s !! id = Some t /\ st_state t = Running.
Proof.
  unfold is_finished. destruct (tl_tasks s !! id) as [t|]; [|naive_solver].
  rewrite bool_decide_eq_false. split; [intros E; exists t; split; [done|by apply dec_stable]|naive_solver].
Qed.

Lemma elem_of_to_remove peers s k :
  k ∈ to_remove peers s <-> exists id, peer_task_map s !! k = Some id /\ (k ∉ peers \/ is_finished s id = true).
Proof.
  unfold to_remove. rewrite list_elem_of_omap. split.
  - intros ([k' id] & Hin%elem_of_map_iter & E). destruct (_ || _) eqn:Eb; [|done]. injection E as ->.
    exists id. split; [done|]. apply orb_true_iff in Eb as [Eb|Eb]; [left|by right].
    by apply negb_true_iff, bool_decide_eq_false in Eb.
  - intros (id & Hk & Hc). exists (k, id). rewrite elem_of_map_iter. split; [done|].
    assert (negb (bool_decide (k ∈ peers)) || is_finished s id = true) as ->; [|done].
    apply orb_true_iff. destruct Hc; [left|by right]. by apply negb_true_iff, bool_decide_eq_false.
Qed.

Lemma remove_task_spec key s : loop_ok s ->
  peer_task_map (remove_task key s) = delete key (peer_task_map s) /\ tl_data (remove_task key s) = tl_data s /\
  forall k id, k <> key -> running s k id -> running (remove_task key s) k id.
Proof.
  intros [Hm Hr Hb]. unfold remove_task. destruct (peer_task_map s !! key) as [id0|] eqn:Ek; simpl.
  - split_and!; [done..|]. intros k id Hne (t & Ht & <- & Hrun). exists t. simpl. rewrite lookup_alter_ne; [done|].
    intros ->. destruct (Hm _ _ Ek) as (t0 & Ht0 & E). congruence.
  - split_and!; [by rewrite delete_id|done|done].
Qed.

Lemma remove_tasks_spec keys s : loop_ok s ->
  let s' := foldl (fun s key => remove_task key s) s keys in
  loop_ok s' /\ tl_data s' = tl_data s /\
  (forall k, peer_task_map s' !! k = if decide (k ∈ keys) then None else peer_task_map s !! k) /\
  (forall k id, k ∉ keys -> running s k id -> running s' k id).
Proof.
  revert s; induction keys as [|key keys IH]; intros s Hs; simpl; [by split_and!|].
  destruct (remove_task_spec key s Hs) as (Em & Ed & Hk). destruct (IH _ (remove_task_ok key s Hs)) as (Hok & Ed' & Hl & Hr).
  split_and!; [done|congruence| |].
  - intros k. rewrite Hl, Em. destruct (decide (k = key)) as [->|Hne].
    + rewrite lookup_delete_eq, (decide_True (P := key ∈ key :: keys)) by left. by destruct (decide _).
    + rewrite lookup_delete_ne by done. apply decide_ext. rewrite elem_of_cons. naive_solver.
  - intros k id Hn Hrun. apply Hr; [set_solver|]. apply Hk; [set_solver|done].
Qed.

Lemma spawn_task_spec item s s' : spawn_task item s = Done s' -> loop_ok s ->
  tl_data s' = tl_data s /\ dom (peer_task_map s') = {[item]} ∪ dom (peer_task_map s) /\
  (forall k id, peer_task_map s !! k = Some id -> peer_task_map s' !! k = Some id) /\
  (forall k id, running s k id -> running s' k id) /\
  (forall k id, peer_task_map s' !! k = Some id -> peer_task_map s !! k = Some id \/ running s' k id).
Proof.
  unfold spawn_task. intros E Hok. destruct (peer_task_map s !! item) as [id|] eqn:Ei.
  - injection E as <-. split_and!; auto. apply elem_of_dom_2 in Ei. set_solver.
  - destruct (launch_task _ _) as [t|]; [|done]. injection E as <-. unfold running; simpl. split_and!; [done|set_solver| | |].
    + intros k id Hk. rewrite lookup_insert_ne; [done|congruence].
    + intros k id (t0 & Ht0 & Hrest). exists t0. rewrite lookup_insert_ne; [done|]. apply (tasks_below _ Hok) in Ht0. lia.
    + intros k id [[<- <-]|[_ Hk]]%lookup_insert_Some; [right|by left]. exists (mkTask item t Running). by rewrite lookup_insert_eq.
Qed.

Lemma spawn_tasks_spec items s s' : spawn_tasks items s = Done s' -> loop_ok s ->
  loop_ok s' /\ tl_data s' = tl_data s /\ dom (peer_task_map s') = list_to_set items ∪ dom (peer_task_map s) /\
  (forall k id, running s k id -> running s' k id) /\
  (forall k id, peer_task_map s' !! k = Some id -> peer_task_map s !! k = Some id \/ running s' k id).
Proof.
  revert s; induction items as [|item items IH]; intros s E Hok; simpl in E; [simplify_eq; split_and!; auto; set_solver|].
  apply bind_Done in E as (s1 & E1 & E). destruct (spawn_task_spec _ _ _ E1 Hok) as (Ed & Edom & _ & Hr & Hm).
  destruct (IH s1 E (spawn_task_ok _ _ _ Hok E1)) as (Hok' & Ed' & Edom' & Hr' & Hm').
  split_and!; [done|congruence|rewrite Edom', Edom; set_solver|auto|].
  intros k id Hk. destruct (Hm' k id Hk) as [H1|H1]; [|by right]. destruct (Hm k id H1); auto.
Qed.

Lemma spawn_tasks_done items s : (forall k, k ∈ items -> exists t, launch_task (tl_data s) k = Done t) ->
  exists s', spawn_tasks items s = Done s'.
Proof.
  revert s; induction items as [|item items IH]; intros s Hl; [eauto|]. simpl.
  assert (exists s1, spawn_task item s = Done s1 /\ tl_data s1 = tl_data s) as (s1 & -> & Ed).
  { unfold spawn_task. destruct (peer_task_map s !! item); [eauto|].
    destruct (Hl item) as [t ->]; [set_solver|]. eauto. }
  apply IH. rewrite Ed. set_solver.
Qed.

Lemma loop_round_ok peers s s' : loop_ok s -> loop_round peers s = Done s' -> loop_ok s'.
Proof.
  intros Hok. unfold loop_round. destruct (remove_tasks_spec (to_remove peers s) s Hok) as (Hok1 & _ & _).
  set (s1 := foldl _ _ _) in *. destruct peers as [|p peers].
  - case_bool_decide; intros [= <-]; [|done]. by destruct Hok1.
  - intros E. by eapply spawn_tasks_spec in E as (? & _).
Qed.

Lemma loop_step_ok s s' : loop_ok s -> loop_step s s' -> loop_ok s'.
Proof.
  intros Hok. destruct 1 as [s s' peers _ E|s id|s d]; [by eapply loop_round_ok| |by destruct Hok].
  destruct Hok as [Hm Hr Hb]. set (f := fun t => match st_state t with Running => set_state Finished t | _ => t end).
  assert (Hf : forall t, st_item (f t) = st_item t /\ (st_state (f t) = Running -> False)).
  { intros t. unfold f. by destruct (st_state t) eqn:E; simpl; rewrite ?E. }
  constructor; simpl.
  - intros k id' Hk. destruct (Hm k id' Hk) as (t & Ht & <-). destruct (decide (id = id')) as [->|?].
    + exists (f t). rewrite lookup_alter_eq, Ht. split; [done|apply Hf].
    + exists t. by rewrite lookup_alter_ne.
  - intros id' t. destruct (decide (id = id')) as [->|?]; [|rewrite lookup_alter_ne by done; apply Hr].
    rewrite lookup_alter_eq, fmap_Some. intros (t0 & _ & ->) Hrun. by apply Hf in Hrun.
  - intros id' t. destruct (decide (id = id')) as [->|?]; [|rewrite lookup_alter_ne by done; apply Hb].
    rewrite lookup_alter_eq, fmap_Some. intros (t0 & Ht0 & _). by eapply Hb.
Qed.

Lemma loop_reachable_ok d s : rtc loop_step (loop_new d) s -> loop_ok s.
Proof.
  intros Hr. assert (forall s0, rtc loop_step s0 s -> loop_ok s0 -> loop_ok s) as Hgo.
  { intros s0. induction 1; eauto using loop_step_ok. }
  eapply Hgo; [done|apply loop_new_ok].
Qed.

Lemma loop_round_spec peers s : loop_ok s ->
  (forall k, k ∈ peers -> exists t, launch_task (tl_data s) k = Done t) ->
  exists s', loop_round peers s = Done s' /\ loop_ok s' /\ dom (peer_task_map s') = list_to_set peers /\
    (forall k id, k ∈ peers -> running s k id -> running s' k id) /\
    (forall k id, peer_task_map s' !! k = Some id -> running s' k id).
Proof.
  intros Hok Hl. destruct (remove_tasks_spec (to_remove peers s) s Hok) as (Hok1 & Ed & Hmap & Hrun).
  unfold loop_round. set (s1 := foldl _ _ _) in *.
  assert (H1 : forall k id, peer_task_map s1 !! k = Some id -> k ∈ peers /\ running s1 k id).
  { intros k id. rewrite Hmap. case_decide as Hk; [done|]. intros Hks. rewrite elem_of_to_remove in Hk.
    destruct (decide (k ∈ peers)) as [Hp|Hp]; [|destruct Hk; eauto]. split; [done|].
    apply Hrun; [by rewrite elem_of_to_remove|]. destruct (is_finished s id) eqn:Ef; [destruct Hk; eauto|].
    apply is_finished_false in Ef as (t & Ht & Hst). exists t. destruct (map_tasks s Hok k id Hks) as (t' & Ht' & <-). naive_solver. }
  assert (H2 : forall k id, k ∈ peers -> running s k id -> running s1 k id).
  { intros k id Hp Hk. apply Hrun; [|done]. rewrite elem_of_to_remove. intros (id' & Hid' & [?|Hf]); [done|].
    destruct Hk as (t & Ht & <- & Hst). pose proof (running_mapped s Hok id t Ht Hst). assert (id' = id) as -> by congruence.
    assert (is_finished s id = false) by (apply is_finished_false; eauto). congruence. }
  destruct (decide (peers = [])) as [->|Hne].
  - assert (peer_task_map s1 = ∅) as E0.
    { apply map_eq. intros k. rewrite lookup_empty. destruct (peer_task_map s1 !! k) eqn:Ek; [|done]. apply H1 in Ek as [? _]. set_solver. }
    rewrite bool_decide_eq_true_2 by done. eexists. split; [done|]. split_and!; [by destruct Hok1|simpl; rewrite E0; set_solver|set_solver|].
    intros k id Hk. simpl in Hk. by apply H1 in Hk as [? _]; set_solver.
  - replace (match peers with [] => _ | _ => _ end) with (spawn_tasks peers s1) by (by destruct peers).
    destruct (spawn_tasks_done peers s1) as [s' E]; [by rewrite Ed|]. exists s'.
    destruct (spawn_tasks_spec _ _ _ E Hok1) as (Hok' & _ & Edom & Hr & Hm). split_and!; [done|done| |auto|].
    + rewrite Edom. apply set_eq. intros k. rewrite elem_of_union, elem_of_dom, elem_of_list_to_set. split; [|auto].
      intros [?|[id Hk]]; [done|]. by apply H1 in Hk as [? _].
    + intros k id Hk. destruct (Hm k id Hk) as [Hk1|]; [|done]. apply Hr. by apply H1.
Qed.

(** C24.  After every round of the loop, exactly the peers the connector asked for
    have a running task, each one task: tasks of other peers are stopped, tasks that
    had ended are started again, and tasks that still run are left alone, whatever
    ended before.  A round panics only if starting a task does. *)
Theorem one_task_per_peer d s peers :
  rtc loop_step (loop_new d) s -> (forall k, k ∈ peers -> exists t, launch_task (tl_data s) k = Done t) ->
  exists s', loop_round peers s = Done s' /\
    (forall k, k ∈ peers <-> exists id, running s' k id) /\
    (forall k id id', running s' k id -> running s' k id' -> id = id') /\
    (forall k id, k ∈ peers -> running s k id -> running s' k id).
Proof.
  intros Hreach Hl. pose proof (loop_reachable_ok d s Hreach) as Hok.
  destruct (loop_round_spec peers s Hok Hl) as (s' & E & Hok' & Edom & Hkeep & Hm). exists s'. split_and!; [done| | |done].
  - intros k. rewrite <- (elem_of_list_to_set (C := gset C)), <- Edom, elem_of_dom. split; [intros [id Hk]; eauto|].
    intros (id & t & Ht & <- & Hst). exists id. by apply running_mapped.
  - intros k id id' (t & Ht & <- & Hst) (t' & Ht' & E' & Hst'). pose proof (running_mapped _ Hok' _ _ Ht Hst).
    pose proof (running_mapped _ Hok' _ _ Ht' Hst'). congruence.
Qed.
End task_loop.

(** ** An example *)

#[local] Instance toy_launcher : PeerTaskLauncher () Z Z := {|
  collects := fun _ _ => True; launch_task := fun _ k => Done (k * 10); all_task_done := id; loop_interval_ms := 5000 |}.

Lemma one_task_per_peer_witness : exists s s' : TaskLoop () Z Z,
  rtc loop_step (loop_new ()) s /\ loop_round [2; 3] s = Done s' /\
  (forall k, k ∈ [2; 3] <-> exists id, running s' k id) /\ running s' 2 1.
Proof.
  set (s1 := mkLoop (D := ()) () {[1 := 0%nat; 2 := 1%nat]}
               {[0%nat := mkTask 1 10 Running; 1%nat := mkTask 2 20 Running]} 2).
  assert (Hr : rtc loop_step (loop_new ()) s1).
  { apply rtc_once. apply (StepRound _ _ [1; 2]); [done|]. vm_compute. reflexivity. }
  destruct (one_task_per_peer () s1 [2; 3] Hr) as (s' & E & Hiff & _ & Hkeep); [intros k _; by eexists|].
  exists s1, s'. split_and!; [exact Hr|exact E|exact Hiff|]. apply Hkeep; [set_solver|]. exists (mkTask 2 20 Running). done.
Defined.
