(* ===== verification/HolePunch.v ===== *)
(** * Who punches a hole, and how often

    The client side of [connector/udp_hole_punch/mod.rs] and the types of NAT in
    [connector/udp_hole_punch/common.rs].  Two nodes behind NATs each decide from
    the two types whether to try, and by which method; the tasks of [PeerTask]
    then try again and again, with pauses, until there is a tunnel.

    What a try ends with ([do_hole_punching], and adding the tunnel to the peer
    manager) is an argument of the loops.  [TimedMap] is the map of the timedmap
    crate whose entries expire; it holds the peers that do not offer the service. *)

From stdpp Require Import base numbers list gmap strings.
From Stdlib Require Import ZifyBool.
From S2P Require Import Prelude Text Stun RpcCall PeerTask.
Open Scope Z_scope.

(** ** Types of NAT *)

Inductive UdpNatType :=
| UdpUnknown | UdpOpen (t : NatType) | UdpCone (t : NatType) | UdpEasySymmetric (t : NatType) (inc : bool)
| UdpHardSymmetric (t : NatType).

#[global] Instance udp_nat_type_eq_dec : EqDecision UdpNatType.
Proof. solve_decision. Defined.

Definition udp_nat_type_from (nat_type : NatType) : UdpNatType :=
  match nat_type with
  | NatUnknown => UdpUnknown
  | OpenInternet => UdpOpen nat_type
  | NoPat | FullCone | Restricted | PortRestricted => UdpCone nat_type
  | Symmetric | SymUdpFirewall => UdpHardSymmetric nat_type
  | SymmetricEasyInc => UdpEasySymmetric nat_type true
  | SymmetricEasyDec => UdpEasySymmetric nat_type false
  end.

Definition udp_nat_type_into (val : UdpNatType) : NatType :=
  match val with
  | UdpUnknown => NatUnknown
  | UdpOpen t | UdpCone t | UdpEasySymmetric t _ | UdpHardSymmetric t => t
  end.

Definition is_open (t : UdpNatType) : bool := match t with UdpOpen _ => true | _ => false end.
Definition is_unknown (t : UdpNatType) : bool := match t with UdpUnknown => true | _ => false end.
Definition is_hard_sym (t : UdpNatType) : bool := match t with UdpHardSymmetric _ => true | _ => false end.
Definition is_easy_sym (t : UdpNatType) : bool := match t with UdpEasySymmetric _ _ => true | _ => false end.
Definition is_sym (t : UdpNatType) : bool := is_hard_sym t || is_easy_sym t.
Definition is_cone (t : UdpNatType) : bool := match t with UdpCone _ => true | _ => false end.
Definition get_inc_of_easy_sym (t : UdpNatType) : option bool := match t with UdpEasySymmetric _ inc => Some inc | _ => None end.

Inductive UdpPunchClientMethod := PunchNone | ConeToCone | SymToCone | EasySymToEasySym.

#[global] Instance punch_method_eq_dec : EqDecision UdpPunchClientMethod.
Proof. solve_decision. Defined.

Definition get_punch_hole_method (self other : UdpNatType) (disable_sym_hole_punching : bool) : outcome UdpPunchClientMethod :=
  if disable_sym_hole_punching && is_sym self then
    if is_sym other then Done PunchNone else Done ConeToCone
  else if is_unknown other then
    if is_sym self then Done SymToCone else Done ConeToCone
  else if is_unknown self then
    if is_sym other then Done PunchNone else Done ConeToCone
  else if is_open self || is_open other then Done PunchNone
  else if is_cone self then
    if is_sym other then Done PunchNone else Done ConeToCone
  else if is_easy_sym self then
    if is_hard_sym other then Done PunchNone
    else if is_easy_sym other then Done EasySymToEasySym
    else Done SymToCone
  else if is_hard_sym self then
    if is_sym other then Done PunchNone else Done SymToCone
  else Panicked UnreachableCode.

Definition can_punch_hole_as_client (self other : UdpNatType) (my_peer_id dst_peer_id : Z) (disable_sym : bool) : outcome bool :=
  m ← get_punch_hole_method self other disable_sym;
  Done (match m with
        | PunchNone => false
        | ConeToCone | SymToCone => true
        | EasySymToEasySym => my_peer_id <? dst_peer_id
        end).

(** ** Pauses *)

Record BackOff := { backoffs_ms : list Z; current_idx : nat }.

Definition backoff_new (backoffs_ms : list Z) : BackOff := {| backoffs_ms := backoffs_ms; current_idx := 0 |}.

Definition next_backoff (b : BackOff) : outcome (Z * BackOff) :=
  match backoffs_ms b !! current_idx b with
  | Some backoff =>
      Done (backoff, {| backoffs_ms := backoffs_ms b; current_idx := min (current_idx b + 1) (length (backoffs_ms b) - 1) |})
  | None => Panicked IndexOutOfRange
  end.

Definition backoff_rollback (b : BackOff) : BackOff :=
  {| backoffs_ms := backoffs_ms b; current_idx := current_idx b - 1 |}.

(** ** Tries *)

(** What a try ends with: an error, no tunnel, or a tunnel and whether the peer
    manager took it. *)
Inductive punch_ret := TryFailed | TryNoTunnel | TryTunnel (added : bool).

(** [round] is counted in 32 bits. *)
Definition handle_punch_result (ret : punch_ret) (backoff : option BackOff) (round : option Z)
    : bool * option BackOff * option Z :=
  let op rollback :=
    if rollback : bool then (backoff_rollback <$> backoff, (fun r => Z.max 0 (r - 1)) <$> round)
    else (backoff, (fun r => as_u32 (r + 1)) <$> round) in
  match ret with
  | TryTunnel true => (true, backoff, round)
  | TryTunnel false => let '(b, r) := op true in (false, b, r)
  | TryNoTunnel => let '(b, r) := op false in (false, b, r)
  | TryFailed => let '(b, r) := op true in (false, b, r)
  end.

(** The loops, on what their tries end with: the pauses, and whether a tunnel was
    found before the list ended. *)
Fixpoint cone_loop (backoff : BackOff) (rets : list punch_ret) : outcome (list Z * bool) :=
  match rets with
  | [] => Done ([], false)
  | ret :: rets =>
      '(ms, backoff) ← next_backoff backoff;
      let '(done, b, _) := handle_punch_result ret (Some backoff) None in
      if done : bool then Done ([ms], true)
      else '(more, found) ← cone_loop (default backoff b) rets; Done (ms :: more, found)
  end.

Definition CONE_BACKOFFS : list Z := [1000; 1000; 2000; 4000; 4000; 8000; 8000; 16000].
Definition SYM_BACKOFFS : list Z := [1000; 1000; 2000; 4000; 4000; 8000; 8000; 16000; 64000].

Definition cone_to_cone (rets : list punch_ret) : outcome (list Z * bool) := cone_loop (backoff_new CONE_BACKOFFS) rets.

(** A try for a symmetric NAT: what the cone method ended with, and the symmetric
    one for a round and a port index, with the next index. *)
Record sym_try := { try_cone : punch_ret; try_sym : Z -> Z -> punch_ret * Z }.

Fixpoint sym_loop (run_testing : bool) (backoff : BackOff) (round port_idx : Z) (tries : list sym_try)
    : outcome (list (Z * Z * Z) * bool) :=
  match tries with
  | [] => Done ([], false)
  | t :: tries =>
      '(ms, backoff) ← next_backoff backoff;
      let here := (ms, round, port_idx) in
      if negb run_testing && (handle_punch_result (try_cone t) None None).1.1 then Done ([here], true)
      else
        let '(ret, port_idx) := try_sym t round port_idx in
        let '(done, b, r) := handle_punch_result ret (Some backoff) (Some round) in
        if done : bool then Done ([here], true)
        else '(more, found) ← sym_loop run_testing (default backoff b) (default round r) port_idx tries;
             Done (here :: more, found)
  end.

Definition sym_to_cone (run_testing : bool) (port_idx : Z) (tries : list sym_try) : outcome (list (Z * Z * Z) * bool) :=
  sym_loop run_testing (backoff_new SYM_BACKOFFS) 0 port_idx tries.

(** Between two predictable NATs the other side may be busy. *)
Record easy_try := { try_cone_first : punch_ret; try_easy : punch_ret; try_busy : bool }.

Fixpoint easy_loop (run_testing : bool) (backoff : BackOff) (tries : list easy_try) : outcome (list Z * bool) :=
  match tries with
  | [] => Done ([], false)
  | t :: tries =>
      '(ms, backoff) ← next_backoff backoff;
      if negb run_testing && (handle_punch_result (try_cone_first t) None None).1.1 then Done ([ms], true)
      else if try_busy t then
        '(more, found) ← easy_loop run_testing (backoff_rollback backoff) tries; Done (ms :: more, found)
      else
        let '(done, b, _) := handle_punch_result (try_easy t) (Some backoff) None in
        if done : bool then Done ([ms], true)
        else '(more, found) ← easy_loop run_testing (default backoff b) tries; Done (ms :: more, found)
  end.

Definition both_easy_sym (run_testing : bool) (tries : list easy_try) : outcome (list Z * bool) :=
  easy_loop run_testing (backoff_new SYM_BACKOFFS) tries.

(** ** Peers without the service *)

Class TimedMap (K M : Type) := {
  tm_new : M;
  tm_insert : Z -> K -> Z -> M -> M;         (** the time, the key, for how long *)
  tm_contains : Z -> K -> M -> bool;
  tm_cleanup : Z -> M -> M
}.

Class TimedMapLaws (K M : Type) `{EqDecision K} `{TimedMap K M} := {
  tm_contains_new now k : tm_contains now k tm_new = false;
  tm_contains_insert now k d m t k' :
    tm_contains t k' (tm_insert now k d m) = if decide (k' = k) then t <? now + d else tm_contains t k' m;
  tm_contains_cleanup now m t k : now <= t -> tm_contains t k (tm_cleanup now m) = tm_contains t k m
}.

Definition BLACKLIST_TIMEOUT_SEC : Z := 3600.

Section punch.
Context {M : Type} `{TimedMap Z M}.

Definition handle_rpc_result {A} (now : Z) (ret : result Error A) (dst_peer_id : Z) (blacklist : M) : result Error A * M :=
  match ret with
  | Ok a => (Ok a, blacklist)
  | Err e =>
      (Err e, match e with
              | InvalidServiceKey _ _ => tm_insert now dst_peer_id (BLACKLIST_TIMEOUT_SEC * SEC) blacklist
              | _ => blacklist
              end)
  end.

(** ** Which peers to reach *)

Record PunchTaskInfo := { dst_peer_id : Z; dst_nat_type : UdpNatType; my_nat_type : UdpNatType }.

(** What the connector reads of a route, and of the node. *)
Record PunchRoute := { pr_peer_id : Z; pr_public_server : option bool; pr_stun_type : option Z }.

Record PunchData := {
  pd_my_peer_id : Z; pd_my_stun_type : Z; pd_disable_sym : bool; pd_routes : list PunchRoute;
  pd_conns : Z -> option nat;               (** the number of connections to a peer *)
  pd_blacklist : M; pd_udp_array : bool     (** whether sockets for a symmetric NAT are open *)
}.

Definition with_array (b : bool) (bl : M) (d : PunchData) : PunchData := {|
  pd_my_peer_id := pd_my_peer_id d; pd_my_stun_type := pd_my_stun_type d; pd_disable_sym := pd_disable_sym d;
  pd_routes := pd_routes d; pd_conns := pd_conns d; pd_blacklist := bl; pd_udp_array := b |}.

Definition my_type (d : PunchData) : UdpNatType :=
  udp_nat_type_from (default NatUnknown (nat_type_try_from (pd_my_stun_type d))).

(** The body of the loop over the routes. *)
Definition collect_route (now : Z) (d : PunchData) (route : PunchRoute) : outcome (option PunchTaskInfo) :=
  if default false (pr_public_server route) then Done None
  else
    match nat_type_try_from (default 0 (pr_stun_type route)) with
    | None => Done None
    | Some t =>
        let peer_nat_type := udp_nat_type_from t in
        let peer_id := pr_peer_id route in
        if tm_contains now peer_id (pd_blacklist d) then Done None
        else if match pd_conns d peer_id with Some n => negb (Nat.eqb n 0) | None => false end then Done None
        else
          ok ← can_punch_hole_as_client (my_type d) peer_nat_type (pd_my_peer_id d) peer_id (pd_disable_sym d);
          if ok : bool then
            Done (Some {| dst_peer_id := peer_id; dst_nat_type := peer_nat_type; my_nat_type := my_type d |})
          else Done None
    end.

Fixpoint collect_routes (now : Z) (d : PunchData) (routes : list PunchRoute) : outcome (list PunchTaskInfo) :=
  match routes with
  | [] => Done []
  | route :: routes =>
      o ← collect_route now d route;
      more ← collect_routes now d routes;
      Done (match o with Some i => i :: more | None => more end)
  end.

Definition collect_peers_need_task (now : Z) (d : PunchData) : outcome (list PunchTaskInfo * PunchData) :=
  let d := if is_sym (my_type d) then d else with_array false (pd_blacklist d) d in
  if is_open (my_type d) then Done ([], d)
  else
    let d := with_array (pd_udp_array d) (tm_cleanup now (pd_blacklist d)) d in
    l ← collect_routes now d (pd_routes d);
    Done (l, d).

(** Which of the loops is started. *)
Definition punch_launch (d : PunchData) (item : PunchTaskInfo) : outcome UdpPunchClientMethod :=
  m ← get_punch_hole_method (my_nat_type item) (dst_nat_type item) (pd_disable_sym d);
  match m with PunchNone => Panicked UnreachableCode | m => Done m end.
End punch.

Arguments PunchData : clear implicits.

(** ** Tasks for holes *)

#[global] Instance nat_type_countable : Countable NatType.
Proof.
  apply (inj_countable nat_type_i32 nat_type_try_from). by intros [].
Defined.

#[global] Instance udp_nat_type_countable : Countable UdpNatType.
Proof.
  apply (inj_countable' (fun t => match t with
      | UdpUnknown => (0, NatUnknown, false) | UdpOpen t => (1, t, false) | UdpCone t => (2, t, false)
      | UdpEasySymmetric t b => (3, t, b) | UdpHardSymmetric t => (4, t, false) end)
    (fun '(k, t, b) => if k =? 0 then UdpUnknown else if k =? 1 then UdpOpen t else if k =? 2 then UdpCone t
                       else if k =? 3 then UdpEasySymmetric t b else UdpHardSymmetric t)).
  by intros [].
Defined.

#[global] Instance punch_task_info_eq_dec : EqDecision PunchTaskInfo.
Proof. solve_decision. Defined.
#[global] Instance punch_task_info_countable : Countable PunchTaskInfo.
Proof.
  apply (inj_countable' (fun i => (dst_peer_id i, dst_nat_type i, my_nat_type i))
    (fun '(a, b, c) => {| dst_peer_id := a; dst_nat_type := b; my_nat_type := c |})).
  by intros [].
Defined.

Section theorems.
Context {M : Type} `{TimedMap Z M}.

#[global] Instance punch_launcher : PeerTaskLauncher (PunchData M) PunchTaskInfo UdpPunchClientMethod := {|
  collects := fun d l => exists now d', collect_peers_need_task now d = Done (l, d');
  launch_task := punch_launch;
  all_task_done := fun d => with_array false (pd_blacklist d) d;
  loop_interval_ms := 5000
|}.

Lemma nat_type_i32_roundtrip t : nat_type_try_from (nat_type_i32 t) = Some t.
Proof. by destruct t. Qed.

Lemma udp_nat_type_roundtrip t : udp_nat_type_into (udp_nat_type_from t) = t.
Proof. by destruct t. Qed.

(** The types a node works with come from the types of STUN. *)
Lemma method_defined a b disable : exists m, get_punch_hole_method (udp_nat_type_from a) (udp_nat_type_from b) disable = Done m.
Proof. destruct disable, a, b; by eexists. Qed.

Lemma can_punch_method a b i j disable : exists ok,
  can_punch_hole_as_client (udp_nat_type_from a) (udp_nat_type_from b) i j disable = Done ok /\
  (ok = true -> exists m, get_punch_hole_method (udp_nat_type_from a) (udp_nat_type_from b) disable = Done m /\ m <> PunchNone).
Proof.
  unfold can_punch_hole_as_client. destruct (method_defined a b disable) as [m ->]. cbn [mbind outcome_bind].
  eexists. split; [done|]. intros Hok. exists m. split; [done|]. by intros ->.
Qed.

(** A peer that is asked for. *)
Definition wanted (now : Z) (d : PunchData M) (b : NatType) (j : Z) : Prop :=
  exists route, route ∈ pd_routes d /\ pr_peer_id route = j /\ default false (pr_public_server route) = false /\
    nat_type_try_from (default 0 (pr_stun_type route)) = Some b /\ tm_contains now j (pd_blacklist d) = false /\
    match pd_conns d j with Some n => n = 0%nat | None => True end /\
    can_punch_hole_as_client (my_type d) (udp_nat_type_from b) (pd_my_peer_id d) j (pd_disable_sym d) = Done true.

Definition task_for (d : PunchData M) (b : NatType) (j : Z) : PunchTaskInfo :=
  {| dst_peer_id := j; dst_nat_type := udp_nat_type_from b; my_nat_type := my_type d |}.

Lemma collect_route_spec now d route : exists o, collect_route now d route = Done o /\
  forall i, o = Some i <-> exists b, i = task_for d b (pr_peer_id route) /\ default false (pr_public_server route) = false /\
    nat_type_try_from (default 0 (pr_stun_type route)) = Some b /\ tm_contains now (pr_peer_id route) (pd_blacklist d) = false /\
    match pd_conns d (pr_peer_id route) with Some n => n = 0%nat | None => True end /\
    can_punch_hole_as_client (my_type d) (udp_nat_type_from b) (pd_my_peer_id d) (pr_peer_id route) (pd_disable_sym d) = Done true.
Proof.
  unfold collect_route. destruct (default false (pr_public_server route)); [exists None; naive_solver|].
  destruct (nat_type_try_from _) as [t|]; [|exists None; naive_solver].
  destruct (tm_contains _ _ _); [exists None; naive_solver|].
  destruct (match pd_conns d (pr_peer_id route) with Some n => negb (Nat.eqb n 0) | None => false end) eqn:Ec.
  { exists None. split; [done|]. intros i. split; [done|]. intros (b & _ & _ & _ & _ & Hc & _).
    destruct (pd_conns d (pr_peer_id route)) as [[]|]; done. }
  destruct (can_punch_method (default NatUnknown (nat_type_try_from (pd_my_stun_type d))) t (pd_my_peer_id d) (pr_peer_id route)
              (pd_disable_sym d)) as ([|] & E & _); fold (my_type d) in E; rewrite E; cbn [mbind outcome_bind].
  - eexists. split; [done|]. intros i. split.
    + intros [= <-]. exists t. split_and!; try done. by destruct (pd_conns d (pr_peer_id route)) as [[]|].
    + intros (b & -> & _ & [= ->] & _). done.
  - exists None. split; [done|]. intros i. split; [done|]. intros (b & _ & _ & [= <-] & _ & _ & E'). congruence.
Qed.

Lemma collect_routes_spec now d routes : exists l, collect_routes now d routes = Done l /\
  forall i, i ∈ l <-> exists b j, i = task_for d b j /\
    exists route, route ∈ routes /\ pr_peer_id route = j /\ default false (pr_public_server route) = false /\
      nat_type_try_from (default 0 (pr_stun_type route)) = Some b /\ tm_contains now j (pd_blacklist d) = false /\
      match pd_conns d j with Some n => n = 0%nat | None => True end /\
      can_punch_hole_as_client (my_type d) (udp_nat_type_from b) (pd_my_peer_id d) j (pd_disable_sym d) = Done true.
Proof.
  induction routes as [|route routes (l & E & IH)]; simpl.
  - exists []. split; [done|]. intros i. split; [set_solver|]. intros (b & j & _ & route & Hin & _). set_solver.
  - destruct (collect_route_spec now d route) as (o & -> & Ho). cbn [mbind outcome_bind]. rewrite E. cbn [mbind outcome_bind].
    eexists. split; [done|]. intros i.
    assert (Hi : i ∈ match o with Some i => i :: l | None => l end <-> o = Some i \/ i ∈ l) by (destruct o; set_solver).
    rewrite Hi, Ho, IH. clear. setoid_rewrite elem_of_cons. naive_solver.
Qed.

Context `{!TimedMapLaws Z M}.

Lemma collect_spec now d : exists l d', collect_peers_need_task now d = Done (l, d') /\ pd_disable_sym d' = pd_disable_sym d /\
  forall i, i ∈ l <-> is_open (my_type d) = false /\ exists b j, i = task_for d b j /\ wanted now d b j.
Proof.
  unfold collect_peers_need_task.
  set (d0 := if is_sym (my_type d) then d else with_array false (pd_blacklist d) d).
  assert (Ed : exists a, d0 = with_array a (pd_blacklist d) d).
  { unfold d0. destruct (is_sym _); [|eauto]. exists (pd_udp_array d). by destruct d. }
  destruct Ed as [a ->]. change (my_type (with_array a (pd_blacklist d) d)) with (my_type d).
  destruct (is_open (my_type d)) eqn:Eo.
  - eexists _, _. split; [done|]. split; [done|]. set_solver.
  - match goal with |- context [collect_routes _ ?d2 ?rs] => destruct (collect_routes_spec now d2 rs) as (l & -> & Hl) end.
    cbn [mbind outcome_bind]. eexists _, _. split; [done|]. split; [done|]. intros i. rewrite Hl. unfold wanted. simpl.
    setoid_rewrite (tm_contains_cleanup now (pd_blacklist d) now _ ltac:(lia)). naive_solver.
Qed.

(** What was asked for can be started. *)
Lemma collected_launch now d l d' i : collect_peers_need_task now d = Done (l, d') -> i ∈ l ->
  exists m, punch_launch d i = Done m /\ m <> PunchNone /\
    get_punch_hole_method (my_nat_type i) (dst_nat_type i) (pd_disable_sym d) = Done m.
Proof.
  intros E Hi. destruct (collect_spec now d) as (l0 & d0 & E0 & _ & Hl). rewrite E0 in E. injection E as -> ->.
  apply Hl in Hi as (_ & b & j & -> & (route & _ & _ & _ & _ & _ & _ & Hc)). unfold punch_launch. simpl.
  destruct (can_punch_method (default NatUnknown (nat_type_try_from (pd_my_stun_type d))) b (pd_my_peer_id d) j (pd_disable_sym d))
    as (ok & Eok & Hm). fold (my_type d) in *. rewrite Hc in Eok. injection Eok as <-.
  destruct (Hm eq_refl) as (m & Em & Hne). exists m. rewrite Em. cbn [mbind outcome_bind]. split_and!; [by destruct m|done|done].
Qed.

(** One node tries to reach another: it is asked for in a round. *)
Definition tries (now : Z) (d : PunchData M) (j : Z) : Prop :=
  exists l d' i, collect_peers_need_task now d = Done (l, d') /\ i ∈ l /\ dst_peer_id i = j.

(** Node [j] of type [b] is known, in the network, without a connection to [d]. *)
Record sees (now : Z) (d : PunchData M) (b : NatType) (j : Z) : Prop := {
  sees_route : exists route, route ∈ pd_routes d /\ pr_peer_id route = j;
  sees_all route : route ∈ pd_routes d -> pr_peer_id route = j ->
    default false (pr_public_server route) = false /\ pr_stun_type route = Some (nat_type_i32 b);
  sees_free : tm_contains now j (pd_blacklist d) = false;
  sees_unconnected : match pd_conns d j with Some n => n = 0%nat | None => True end;
  sees_sym : pd_disable_sym d = false
}.

Definition symmetric (t : NatType) : bool := is_sym (udp_nat_type_from t).

Lemma tries_spec now d a b j : sees now d b j -> pd_my_stun_type d = nat_type_i32 a ->
  tries now d j <-> is_open (udp_nat_type_from a) = false /\
    can_punch_hole_as_client (udp_nat_type_from a) (udp_nat_type_from b) (pd_my_peer_id d) j false = Done true.
Proof.
  intros [(route & Hr & Ej) Hall Hfree Hconn Hsym] Ha. unfold tries.
  assert (Hmy : my_type d = udp_nat_type_from a) by (unfold my_type; by rewrite Ha, nat_type_i32_roundtrip).
  destruct (collect_spec now d) as (l & d' & E & _ & Hl). split.
  - intros (l0 & d0 & i & E0 & Hi & Hd). rewrite E in E0. injection E0 as <- <-. apply Hl in Hi as (Ho & b' & j' & -> & Hw).
    destruct Hw as (route' & Hr' & E' & _ & Hb & _ & _ & Hc). simpl in Hd. subst j'.
    destruct (Hall route' Hr' Hd) as [_ Hs]. rewrite Hs in Hb. simpl in Hb. rewrite nat_type_i32_roundtrip in Hb. injection Hb as ->.
    rewrite Hmy in *. rewrite Hsym, Hd in Hc. done.
  - intros [Ho Hc]. exists l, d', (task_for d b j). split_and!; [done| |done]. apply Hl. rewrite Hmy. split; [done|].
    exists b, j. split; [done|]. destruct (Hall route Hr Ej) as [Hp Hs]. exists route. rewrite Hs, Hmy, Hsym. simpl.
    split_and!; try done. apply nat_type_i32_roundtrip.
Qed.

(** Of two nodes behind NATs that know each other's type and are not connected,
    at least one tries to punch a hole unless both are symmetric and one of them is
    unpredictable, or one is on the open internet and the other's type is known; if
    one is symmetric it is that one which tries, of two predictable ones it is the
    one with the smaller id, and if neither is symmetric nor open both try.  Asking
    for peers never panics, and neither does starting what was asked for. *)
Theorem punch_roles now d1 d2 a b :
  pd_my_stun_type d1 = nat_type_i32 a -> pd_my_stun_type d2 = nat_type_i32 b ->
  pd_my_peer_id d1 <> pd_my_peer_id d2 ->
  sees now d1 b (pd_my_peer_id d2) -> sees now d2 a (pd_my_peer_id d1) ->
  let t1 := tries now d1 (pd_my_peer_id d2) in let t2 := tries now d2 (pd_my_peer_id d1) in
  (t1 \/ t2 <->
     ~ (symmetric a /\ symmetric b /\ (is_hard_sym (udp_nat_type_from a) \/ is_hard_sym (udp_nat_type_from b))) /\
     ~ (a = OpenInternet /\ b <> NatUnknown) /\ ~ (b = OpenInternet /\ a <> NatUnknown)) /\
  (symmetric a /\ ~ symmetric b -> ~ t2) /\ (symmetric b /\ ~ symmetric a -> ~ t1) /\
  (symmetric a /\ symmetric b -> (t1 -> pd_my_peer_id d1 < pd_my_peer_id d2) /\ (t2 -> pd_my_peer_id d2 < pd_my_peer_id d1)) /\
  (~ symmetric a /\ ~ symmetric b /\ a <> OpenInternet /\ b <> OpenInternet -> t1 /\ t2) /\
  (forall l d' i, collect_peers_need_task now d1 = Done (l, d') -> i ∈ l ->
     exists m, punch_launch d1 i = Done m /\ m <> PunchNone).
Proof.
  intros Ha Hb Hne S1 S2 t1 t2. subst t1 t2. rewrite (tries_spec _ _ _ _ _ S1 Ha), (tries_spec _ _ _ _ _ S2 Hb).
  split_and!; [| | | | |].
  6: { intros l d' i E Hi. destruct (collected_launch _ _ _ _ _ E Hi) as (m & Em & Hm & _). eauto. }
  all: remember (pd_my_peer_id d1) as i eqn:Ei; remember (pd_my_peer_id d2) as j eqn:Ej; clear - Hne.
  all: destruct a, b; unfold symmetric, can_punch_hole_as_client; cbn -[Z.ltb]; try (clear; naive_solver).
  all: destruct (Z.ltb_spec i j), (Z.ltb_spec j i); try lia; naive_solver lia.
Qed.

(** A peer that answers that it has no such service is left alone for an hour. *)
Lemma blacklisted_left_alone {A} now s p j t d bl :
  handle_rpc_result (A := A) now (Err (InvalidServiceKey s p)) j bl = (Err (InvalidServiceKey s p), pd_blacklist d) ->
  t < now + BLACKLIST_TIMEOUT_SEC * SEC -> ~ tries t d j.
Proof.
  intros [= E] Ht (l & d' & i & El & Hi & Hd). destruct (collect_spec t d) as (l0 & d0 & E0 & _ & Hl). rewrite E0 in El. injection El as -> ->.
  apply Hl in Hi as (_ & b & j' & -> & (route & _ & _ & _ & _ & Hbl & _)). simpl in Hd. subst j'.
  rewrite <- E, tm_contains_insert, decide_True in Hbl by done. lia.
Qed.
End theorems.

(** ** Pauses between tries *)

Definition backoff_ok (sched : list Z) (b : BackOff) : Prop := backoffs_ms b = sched /\ (current_idx b < length sched)%nat.

Lemma next_backoff_ok sched b : backoff_ok sched b ->
  exists ms b', next_backoff b = Done (ms, b') /\ ms ∈ sched /\ backoff_ok sched b'.
Proof.
  intros [E Hi]. unfold next_backoff. rewrite E. destruct (lookup_lt_is_Some_2 sched (current_idx b) Hi) as [ms Hms]. rewrite Hms.
  eexists _, _. split; [done|]. split; [by eapply list_elem_of_lookup_2|]. split; simpl; [done|lia].
Qed.

Lemma backoff_rollback_ok sched b : backoff_ok sched b -> backoff_ok sched (backoff_rollback b).
Proof. intros [E Hi]. split; simpl; [done|lia]. Qed.

Lemma handle_keeps_backoff sched ret b round ok b' r' : backoff_ok sched b ->
  handle_punch_result ret (Some b) round = (ok, b', r') ->
  backoff_ok sched (default b b') /\ (ok = true <-> ret = TryTunnel true).
Proof.
  intros Hb. destruct ret as [| |[]]; simpl; intros [= <- <- <-]; (split; [try by apply backoff_rollback_ok|]); done.
Qed.

(** The loops never panic, pause as their schedule says, and end exactly with the
    first tunnel that the peer manager takes. *)
Lemma cone_retries rets : exists pauses found, cone_to_cone rets = Done (pauses, found) /\
  Forall (.∈ CONE_BACKOFFS) pauses /\ (found = true <-> TryTunnel true ∈ rets).
Proof.
  assert (forall b, backoff_ok CONE_BACKOFFS b -> exists pauses found, cone_loop b rets = Done (pauses, found) /\
    Forall (.∈ CONE_BACKOFFS) pauses /\ (found = true <-> TryTunnel true ∈ rets)) as Hgo.
  { induction rets as [|ret rets IH]; intros b Hb; simpl; [eexists [], _; split; [done|]; split; [done|set_solver]|].
    destruct (next_backoff_ok _ b Hb) as (ms & b1 & -> & Hms & Hb1). cbn [mbind outcome_bind].
    destruct (handle_punch_result ret (Some b1) None) as [[ok b2] r2] eqn:Eh.
    destruct (handle_keeps_backoff _ _ _ _ _ _ _ Hb1 Eh) as (Hb2 & Hok). destruct ok.
    - eexists [ms], _. split; [done|]. split; [by constructor|]. destruct (proj1 Hok eq_refl). set_solver.
    - destruct (IH _ Hb2) as (pauses & found & -> & Hp & Hf). cbn [mbind outcome_bind]. eexists (ms :: pauses), found. split; [done|].
      split; [by constructor|]. rewrite Hf, elem_of_cons. split; [by right|]. intros [<-|?]; [|done]. discriminate (proj2 Hok eq_refl). }
  apply Hgo. split; [done|]. simpl. lia.
Qed.

Lemma sym_retries testing port_idx tries : exists seen found, sym_to_cone testing port_idx tries = Done (seen, found) /\
  Forall (fun '(ms, round, _) => ms ∈ SYM_BACKOFFS /\ in_width 32 round) seen /\
  (found = false -> length seen = length tries).
Proof.
  assert (forall b round idx, backoff_ok SYM_BACKOFFS b -> in_width 32 round ->
    exists seen found, sym_loop testing b round idx tries = Done (seen, found) /\
      Forall (fun '(ms, round, _) => ms ∈ SYM_BACKOFFS /\ in_width 32 round) seen /\
      (found = false -> length seen = length tries)) as Hgo.
  { induction tries as [|t tries IH]; intros b round idx Hb Hr; simpl; [eexists [], _; by split_and!|].
    destruct (next_backoff_ok _ b Hb) as (ms & b1 & -> & Hms & Hb1). cbn [mbind outcome_bind].
    destruct (negb testing && _); [eexists [_], _; split_and!; [done|by apply Forall_singleton|done]|].
    destruct (try_sym t round idx) as [ret idx'].
    destruct (handle_punch_result ret (Some b1) (Some round)) as [[ok b2] r2] eqn:Eh.
    destruct (handle_keeps_backoff _ _ _ _ _ _ _ Hb1 Eh) as (Hb2 & _). destruct ok; [eexists [_], _; split_and!; [done|by apply Forall_singleton|done]|].
    assert (Hr2 : in_width 32 (default round r2)).
    { destruct ret as [| |[]]; simpl in Eh; simplify_eq; simpl; [|by apply wrap_in_width|]; unfold in_width in *; lia. }
    destruct (IH _ _ idx' Hb2 Hr2) as (seen & found & -> & Hs & Hf). cbn [mbind outcome_bind].
    eexists (_ :: seen), found. split; [done|]. split; [by constructor|]. intros ->. simpl. by rewrite Hf. }
  apply Hgo; [split; [done|simpl; lia]|unfold in_width; lia].
Qed.

Lemma easy_retries testing tries : exists pauses found, both_easy_sym testing tries = Done (pauses, found) /\
  Forall (.∈ SYM_BACKOFFS) pauses /\ (found = false -> length pauses = length tries).
Proof.
  assert (forall b, backoff_ok SYM_BACKOFFS b -> exists pauses found, easy_loop testing b tries = Done (pauses, found) /\
    Forall (.∈ SYM_BACKOFFS) pauses /\ (found = false -> length pauses = length tries)) as Hgo.
  { induction tries as [|t tries IH]; intros b Hb; simpl; [eexists [], _; by split_and!|].
    destruct (next_backoff_ok _ b Hb) as (ms & b1 & -> & Hms & Hb1). cbn [mbind outcome_bind].
    destruct (negb testing && _); [eexists [_], _; split_and!; [done|by apply Forall_singleton|done]|].
    assert (Hrest : forall b2, backoff_ok SYM_BACKOFFS b2 -> exists pauses found,
      ('(more, found) ← easy_loop testing b2 tries; Done (ms :: more, found)) = Done (pauses, found) /\
      Forall (.∈ SYM_BACKOFFS) pauses /\ (found = false -> length pauses = S (length tries))).
    { intros b2 Hb2. destruct (IH b2 Hb2) as (pauses & found & -> & Hp & Hf). eexists (ms :: pauses), found.
      split; [done|]. split; [by constructor|]. intros ->. simpl. by rewrite Hf. }
    destruct (try_busy t); [by apply Hrest, backoff_rollback_ok|].
    destruct (handle_punch_result (try_easy t) (Some b1) None) as [[ok b2] r2] eqn:Eh.
    destruct (handle_keeps_backoff _ _ _ _ _ _ _ Hb1 Eh) as (Hb2 & _). destruct ok; [|by apply Hrest].
    eexists [_], _; split_and!; [done|by apply Forall_singleton|done]. }
  apply Hgo. split; [done|]. simpl. lia.
Qed.

(** Tries that find no tunnel are made more and more rarely, tries that fail are
    not. *)
Lemma cone_step ret i ms rets : CONE_BACKOFFS !! i = Some ms -> ret <> TryTunnel true ->
  cone_loop {| backoffs_ms := CONE_BACKOFFS; current_idx := i |} (ret :: rets) =
  '(more, found) ← cone_loop {| backoffs_ms := CONE_BACKOFFS;
      current_idx := match ret with TryNoTunnel => min (i + 1) 7 | _ => min (i + 1) 7 - 1 end |} rets; Done (ms :: more, found).
Proof.
  intros E Hr. cbn [cone_loop]. unfold next_backoff. cbn [backoffs_ms current_idx]. rewrite E. by destruct ret as [| |[]].
Qed.

Lemma cone_pauses_grow n : cone_to_cone (replicate n TryNoTunnel) =
  Done (take n CONE_BACKOFFS ++ replicate (n - 8) 16000, false).
Proof.
  assert (Hgo : forall k i, (i <= 7)%nat -> cone_loop {| backoffs_ms := CONE_BACKOFFS; current_idx := i |} (replicate k TryNoTunnel) =
    Done (take k (drop i CONE_BACKOFFS) ++ replicate (k - (8 - i)) 16000, false)).
  { induction k as [|k IH]; intros i Hi; [done|]. cbn [replicate].
    do 8 (destruct i as [|i]; [erewrite cone_step by done; cbn [Nat.add Nat.min]; rewrite IH by lia;
      cbn [mbind outcome_bind]; repeat f_equal; try lia; cbn -[Nat.sub]|]); [|lia].
    all: destruct k; cbn; rewrite ?take_nil, ?Nat.sub_0_r; done. }
  apply (Hgo n 0%nat). lia.
Qed.

Lemma cone_pauses_stay n : cone_to_cone (replicate n TryFailed) = Done (replicate n 1000, false).
Proof.
  unfold cone_to_cone, backoff_new. induction n as [|n IH]; [done|]. cbn [replicate]. erewrite cone_step by done.
  cbn [Nat.add Nat.min Nat.sub]. by rewrite IH.
Qed.

(** ** An example *)

(** A map with expiry times. *)
#[local] Instance toy_timed_map : TimedMap Z (gmap Z Z) := {|
  tm_new := ∅;
  tm_insert := fun now k d m => <[k := now + d]> m;
  tm_contains := fun now k m => match m !! k with Some e => now <? e | None => false end;
  tm_cleanup := fun now m => base.filter (fun '(_, e) => now < e) m |}.

#[local] Instance toy_timed_map_laws : TimedMapLaws Z (gmap Z Z).
Proof.
  constructor; simpl.
  - intros now k. by rewrite lookup_empty.
  - intros now k d m t k'. rewrite lookup_insert. repeat case_decide; congruence || done.
  - intros now m t k Ht. rewrite map_lookup_filter. destruct (m !! k) as [e|]; [|done]. simpl.
    case_guard; simpl; [done|]. destruct (Z.ltb_spec t e); [lia|done].
Qed.

(** A predictable symmetric NAT and a cone. *)
Definition ex_punch_data (me other my_type its_type : Z) : PunchData (gmap Z Z) := {|
  pd_my_peer_id := me; pd_my_stun_type := my_type; pd_disable_sym := false;
  pd_routes := [{| pr_peer_id := other; pr_public_server := None; pr_stun_type := Some its_type |}];
  pd_conns := fun _ => None; pd_blacklist := ∅; pd_udp_array := false |}.

Lemma ex_sees me other my_type t : sees 0 (ex_punch_data me other my_type (nat_type_i32 t)) t other.
Proof.
  constructor; try done.
  - eexists. split; [left|done].
  - intros route ->%list_elem_of_singleton _. done.
Qed.

Lemma punch_roles_witness :
  tries 0 (ex_punch_data 7 5 8 3) 5 /\ ~ tries 0 (ex_punch_data 5 7 3 8) 7.
Proof.
  destruct (punch_roles 0 (ex_punch_data 7 5 8 3) (ex_punch_data 5 7 3 8) SymmetricEasyInc FullCone) as (Hsome & Honly & _).
  - reflexivity.
  - reflexivity.
  - discriminate.
  - apply (ex_sees 7 5 8 FullCone).
  - apply (ex_sees 5 7 3 SymmetricEasyInc).
  - assert (Hn2 : ~ tries 0 (ex_punch_data 5 7 3 8) 7) by (apply Honly; split; [exact I|intros []]).
    split; [|exact Hn2]. destruct (proj2 Hsome) as [Ht|Ht]; [|exact Ht|by destruct Hn2].
    split_and!; [intros (_ & [] & _)|intros (? & _); discriminate..].
Defined.
