(* ===== verification/PunchProtocol.v ===== *)
(** * Punching holes

    The protocols of [connector/udp_hole_punch]: the sockets and listeners they
    use ([common.rs]), the method for NATs that keep their mapping ([cone.rs]), the
    one for a symmetric NAT towards such a one ([sym_to_cone.rs]) and the one
    between two predictable symmetric NATs ([both_easy_sym.rs]).

    A client learns its public address from STUN and the other side's from an RPC
    call, sends a packet with a random number there, asks the other side to send
    packets with this number back, and connects through the socket on which one
    arrives.  Sockets are known by their local address; what is sent is returned,
    what arrives, what calls answer and whether connecting succeeds are arguments. *)

From stdpp Require Import base numbers list gmap strings.
From Stdlib Require Import ZifyBool.
From S2P Require Import Prelude Text PacketDef UdpTunnel Stun RpcCall PeerTask HolePunch.
Open Scope Z_scope.

Definition HOLE_PUNCH_PACKET_BODY_LEN : Z := 16.

(** A datagram that leaves a socket. *)
Record sent_datagram := { sd_from : SocketAddr; sd_to : SocketAddr; sd_data : bytes }.

Definition send3 (from to : SocketAddr) (data : bytes) : list sent_datagram :=
  replicate 3 {| sd_from := from; sd_to := to; sd_data := data |}.

(** ** Sockets that wait for a packet *)

Record PunchedUdpSocket := { ps_socket : SocketAddr; ps_tid : Z; ps_remote_addr : SocketAddr }.

Record UdpSocketArray := {
  sockets : gset SocketAddr; max_socket_count : nat; intreast_tids : gset Z; tid_to_socket : gmap Z (list PunchedUdpSocket)
}.

Section array.
Implicit Types a : UdpSocketArray.

Definition socket_array_new (max_socket_count : nat) : UdpSocketArray :=
  {| sockets := ∅; max_socket_count := max_socket_count; intreast_tids := ∅; tid_to_socket := ∅ |}.

Definition with_sockets (ss : gset SocketAddr) a : UdpSocketArray :=
  {| sockets := ss; max_socket_count := max_socket_count a; intreast_tids := intreast_tids a; tid_to_socket := tid_to_socket a |}.

Definition array_started a : bool := negb (bool_decide (sockets a = ∅)).

Definition add_new_socket (local_addr : SocketAddr) a : UdpSocketArray := with_sockets ({[local_addr]} ∪ sockets a) a.

(** One round of the task of a socket: the buffer holds a header and a body, what
    does not fit is cut off; when it has found its packet the task ends and the
    socket leaves the array. *)
Definition array_recv (socket : SocketAddr) (datagram : bytes) (addr : SocketAddr) a : outcome UdpSocketArray :=
  if bool_decide (socket ∈ sockets a) then
    let buf_len := UDP_TUNNEL_HEADER_SIZE + HOLE_PUNCH_PACKET_BODY_LEN in
    let got := take (Z.to_nat buf_len) datagram in
    if negb (len got =? buf_len) then Done a
    else
      match ref_from_prefix (H := UDPTunnelHeader) got with
      | None => Done a
      | Some p =>
          let tid := udp_conn_id p in
          let valid := (udp_msg_type p =? udp_packet_type_u8 UdpHolePunch) && (udp_len p =? HOLE_PUNCH_PACKET_BODY_LEN) in
          if negb valid then Done a
          else if bool_decide (tid ∈ intreast_tids a) then
            let entry := {| ps_socket := socket; ps_tid := tid; ps_remote_addr := addr |} in
            Done {| sockets := sockets a ∖ {[socket]}; max_socket_count := max_socket_count a; intreast_tids := intreast_tids a;
                    tid_to_socket := upsert tid (fun l => l ++ [entry]) [entry] (tid_to_socket a) |}
          else Done a
      end
  else Done a.

Fixpoint array_recv_all (socket : SocketAddr) (l : list (bytes * SocketAddr)) a : outcome UdpSocketArray :=
  match l with
  | [] => Done a
  | (datagram, addr) :: l => a ← array_recv socket datagram addr a; array_recv_all socket l a
  end.

(** [start]: sockets are bound until there are enough; [binds] is what binding
    gives. *)
Fixpoint array_start (binds : list (option SocketAddr)) a : result () () * UdpSocketArray :=
  if Nat.ltb (size (sockets a)) (max_socket_count a) then
    match binds with
    | Some local_addr :: binds => array_start binds (add_new_socket local_addr a)
    | _ => (Err (), a)
    end
  else (Ok (), a).

(** Each socket sends three times; the order of the sockets is that of the map. *)
Definition send_with_all `{!IterOrder SocketAddr unit} (data : bytes) (addr : SocketAddr) a : list sent_datagram :=
  (map_iter (gset_to_gmap () (sockets a))).*1 ≫= (fun s => send3 s addr data).

(** The last one found is taken. *)
Definition try_fetch_punched_socket (tid : Z) a : option PunchedUdpSocket * UdpSocketArray :=
  match tid_to_socket a !! tid with
  | Some l =>
      (last l, {| sockets := sockets a; max_socket_count := max_socket_count a; intreast_tids := intreast_tids a;
                  tid_to_socket := <[tid := take (length l - 1) l]> (tid_to_socket a) |})
  | None => (None, a)
  end.

Definition add_intreast_tid (tid : Z) a : UdpSocketArray :=
  {| sockets := sockets a; max_socket_count := max_socket_count a; intreast_tids := {[tid]} ∪ intreast_tids a; tid_to_socket := tid_to_socket a |}.
Definition remove_intreast_tid (tid : Z) a : UdpSocketArray :=
  {| sockets := sockets a; max_socket_count := max_socket_count a; intreast_tids := intreast_tids a ∖ {[tid]};
     tid_to_socket := delete tid (tid_to_socket a) |}.
End array.

(** ** Listeners *)

Record UdpHolePunchListener := {
  hl_socket : SocketAddr; hl_running : bool; hl_mapped_addr : SocketAddr; hl_conn_count : Z;
  last_select_time : Z; last_active_time : Z
}.

Definition is_unspecified (ip : IpAddr) : bool := match ip with V4 a => a =? 0 | V6 a => a =? 0 end.
Definition is_multicast (ip : IpAddr) : bool := match ip with V4 a => a / 2 ^ 28 =? 14 | V6 a => a / 2 ^ 120 =? 255 end.

Definition select_at (now : Z) (l : UdpHolePunchListener) : UdpHolePunchListener := {|
  hl_socket := hl_socket l; hl_running := hl_running l; hl_mapped_addr := hl_mapped_addr l; hl_conn_count := hl_conn_count l;
  last_select_time := now; last_active_time := last_active_time l |}.

(** The task that notes activity, every five seconds. *)
Definition note_activity (now : Z) (l : UdpHolePunchListener) : UdpHolePunchListener :=
  if negb (hl_conn_count l =? 0) then {|
    hl_socket := hl_socket l; hl_running := hl_running l; hl_mapped_addr := hl_mapped_addr l; hl_conn_count := hl_conn_count l;
    last_select_time := last_select_time l; last_active_time := now |} else l.

(** The task that removes listeners. *)
Definition retain_listeners (now : Z) (ls : list UdpHolePunchListener) : list UdpHolePunchListener :=
  List.filter (fun l => (elapsed_secs now (last_active_time l) <? 40) || (elapsed_secs now (last_select_time l) <? 30)) ls.

Fixpoint update_first {A} (f : A -> bool) (g : A -> A) (l : list A) : option (A * list A) :=
  match l with
  | [] => None
  | x :: l => if f x then Some (x, g x :: l) else match update_first f g l with Some (y, l) => Some (y, x :: l) | None => None end
  end.

Definition find_listener (now : Z) (addr : SocketAddr) (ls : list UdpHolePunchListener)
    : option SocketAddr * list UdpHolePunchListener :=
  match update_first (fun l => bool_decide (hl_mapped_addr l = addr) && hl_running l) (select_at now) ls with
  | Some (l, ls) => (Some (hl_socket l), ls)
  | None => (None, ls)
  end.

(** [Iterator::max_by_key]: the last of the greatest, with its position. *)
Fixpoint max_active (best : option (nat * UdpHolePunchListener)) (i : nat) (ls : list UdpHolePunchListener)
    : option (nat * UdpHolePunchListener) :=
  match ls with
  | [] => best
  | l :: ls =>
      let best :=
        if is_unspecified (hl_mapped_addr l).1 then best
        else match best with
             | Some (_, b) => if last_active_time b <=? last_active_time l then Some (i, l) else best
             | None => Some (i, l)
             end in
      max_active best (S i) ls
  end.

(** [created] is what creating a listener gives, for this call and for the one it
    makes of itself. *)
Fixpoint select_listener (depth : nat) (now : Z) (use_new_listener : bool) (created : list (option UdpHolePunchListener))
    (ls : list UdpHolePunchListener) : outcome (option (SocketAddr * SocketAddr) * list UdpHolePunchListener) :=
  match depth with
  | O => Panicked OutOfFuel
  | S depth =>
      let make_new := Nat.ltb (length ls) 16 || use_new_listener in
      match (if make_new then match head created with Some (Some l) => Some (ls ++ [l]) | _ => None end else Some ls) with
      | None => Done (None, ls)
      | Some ls =>
          let listener := if make_new then match last ls with Some l => Some (length ls - 1, l)%nat | None => None end
                          else max_active None 0 ls in
          match listener with
          | Some (i, l) =>
              if is_unspecified (hl_mapped_addr l).1 then
                if use_new_listener then Done (None, ls) else select_listener depth now true (if make_new then tail created else created) ls
              else Done (Some (hl_socket l, hl_mapped_addr l), <[i := select_at now l]> ls)
          | None => if use_new_listener then Done (None, ls) else select_listener depth now true (if make_new then tail created else created) ls
          end
      end
  end.

(** ** Many ports *)

Definition USIZE : Z := 2 ^ 64.

Definition destinations (public_ips : list Z) (port : Z) : list SocketAddr :=
  public_ips ≫= (fun ip => replicate 3 (V4 ip, port)).

Inductive punch_error :=
| MissingListenerAddr | ListenerNotFound | MissingDestAddr | MalformedDest | ZeroPublicIps | InvalidPortRange | LockBusy
| PublicIpRequired | SocketError | PortMapping | RpcFailed (e : Error) | SendFailed | Ipv6NotSupported | NotEasySym | RemoteBusy
| NoListenerAvailable.

(** Packets are sent one after the other, up to the first that the system refuses to send: what went out, and whether that is all. *)
Fixpoint send_each (send_ok : SocketAddr -> bool) (l : list SocketAddr) : list SocketAddr * bool :=
  match l with
  | [] => ([], true)
  | a :: l => if send_ok a then let '(out, all) := send_each send_ok l in (a :: out, all) else ([], false)
  end.

(** The destinations of what is sent, and the next index or the error. *)
Fixpoint spray (send_ok : SocketAddr -> bool) (fuel : nat) (ports : list Z) (public_ips : list Z) (cur_port_idx : Z) (sent max_packets : Z)
    : outcome (list SocketAddr * result punch_error Z) :=
  if sent <? max_packets then
    match fuel with
    | O => Panicked OutOfFuel
    | S fuel =>
        if len ports =? 0 then Panicked DivisionByZero
        else
          port ← unwrap (ports !! Z.to_nat (cur_port_idx mod len ports));
          match send_each send_ok (destinations public_ips port) with
          | (out, false) => Done (out, Err SendFailed)
          | (out, true) =>
              '(more, next) ← spray send_ok fuel ports public_ips ((cur_port_idx + 1) mod USIZE) (sent + len public_ips) max_packets;
              Done (out ++ more, next)
          end
    end
  else if len ports =? 0 then Panicked DivisionByZero
  else Done ([], Ok (cur_port_idx mod len ports)).

Definition send_symmetric_hole_punch_packet (send_ok : SocketAddr -> bool) (ports public_ips : list Z) (port_start_idx max_packets : Z)
    : outcome (list SocketAddr * result punch_error Z) :=
  spray send_ok (Z.to_nat max_packets) ports public_ips port_start_idx 0 max_packets.

(** ** Requests *)

(** Addresses in messages: [proto/common.rs]. *)
Record ProtoAddr := { pa_ip : option IpAddr; pa_port : Z }.
Definition proto_of_addr (a : SocketAddr) : ProtoAddr := {| pa_ip := Some a.1; pa_port := a.2 |}.
Definition addr_of_proto (p : ProtoAddr) : SocketAddr :=
  match pa_ip p with None => (V4 0, 0) | Some ip => (ip, as_u16 (pa_port p)) end.

Record SendPunchPacketConeRequest := {
  cr_listener_mapped_addr : option ProtoAddr; cr_dest_addr : option ProtoAddr; cr_transaction_id : Z;
  packet_count_per_batch : nat; packet_batch_count : nat; packet_interval_ms : Z
}.

(** A failed send is only logged; the packets differ in their random body. *)
Definition send_punch_packet_cone (now : Z) (random : bytes) (request : SendPunchPacketConeRequest)
    (ls : list UdpHolePunchListener) : outcome (result punch_error (list sent_datagram) * list UdpHolePunchListener) :=
  match cr_listener_mapped_addr request with
  | None => Done (Err MissingListenerAddr, ls)
  | Some a =>
      match find_listener now (addr_of_proto a) ls with
      | (None, ls) => Done (Err ListenerNotFound, ls)
      | (Some listener, ls) =>
          match cr_dest_addr request with
          | None => Done (Err MissingDestAddr, ls)
          | Some d =>
              let dest_addr := addr_of_proto d in
              if is_unspecified dest_addr.1 || is_multicast dest_addr.1 then Done (Err MalformedDest, ls)
              else
                udp_packet ← new_hole_punch_packet (cr_transaction_id request) random;
                Done (Ok (replicate (packet_batch_count request * packet_count_per_batch request)
                            {| sd_from := listener; sd_to := dest_addr; sd_data := into_bytes udp_packet |}), ls)
          end
      end
  end.

Record SendPunchPacketEasySymRequest := {
  er_listener_mapped_addr : option ProtoAddr; er_public_ips : list Z; er_transaction_id : Z; base_port_num : Z;
  max_port_num : Z; is_incremental : bool
}.

Definition U32_MAX : Z := 2 ^ 32 - 1.
Definition sat_add32 (a b : Z) : Z := Z.min (a + b) U32_MAX.

(** The ports between two numbers, as 16-bit numbers. *)
Definition port_range (port_start port_end : Z) : list Z := as_u16 <$> seqZ port_start (port_end - port_start + 1).

Definition easy_sym_ports (request : SendPunchPacketEasySymRequest) : result punch_error (list Z) :=
  let max_port_num := Z.max (max_port_num request) 1 in
  let base := base_port_num request in
  let port_start := if is_incremental request then sat_add32 base 1 else sat_sub base max_port_num in
  let port_end := if is_incremental request then sat_add32 base max_port_num else sat_sub base 1 in
  if port_end <=? port_start then Err InvalidPortRange else Ok (port_range port_start port_end).

(** Whether the system takes a packet for an address is [send_ok]; after a packet that it refuses the call is an error, and what went
    out before is not told. *)
Definition send_punch_packet_easy_sym (send_ok : SocketAddr -> bool) (now : Z) (request : SendPunchPacketEasySymRequest) (ls : list UdpHolePunchListener)
    : outcome (result punch_error (list SocketAddr) * list UdpHolePunchListener) :=
  match er_listener_mapped_addr request with
  | None => Done (Err MissingListenerAddr, ls)
  | Some a =>
      match find_listener now (addr_of_proto a) ls with
      | (None, ls) => Done (Err ListenerNotFound, ls)
      | (Some _, ls) =>
          match er_public_ips request with
          | [] => Done (Err ZeroPublicIps, ls)
          | ips =>
              match easy_sym_ports request with
              | Err e => Done (Err e, ls)
              | Ok ports =>
                  '(first, r) ← send_symmetric_hole_punch_packet send_ok ports ips 0 (len ports);
                  match r with
                  | Err e => Done (Err e, ls)
                  | Ok _ =>
                      '(second, r) ← send_symmetric_hole_punch_packet send_ok ports ips 0 (len ports);
                      match r with Err e => Done (Err e, ls) | Ok _ => Done (Ok (first ++ second), ls) end
                  end
              end
          end
      end
  end.

Record SendPunchPacketHardSymRequest := {
  hr_listener_mapped_addr : option ProtoAddr; hr_public_ips : list Z; hr_transaction_id : Z; hr_round : Z; port_index : Z
}.

(** [rnd] is the random number of packets, between 600 and 800. *)
Definition hard_sym_packets (rnd round : Z) : Z :=
  let round := Z.max round 1 in
  if 2 <? round then Z.max (as_u32 (rnd * 2) / round) 180 else rnd.

Definition send_punch_packet_hard_sym (send_ok : SocketAddr -> bool) (now rnd : Z) (shuffled_port_vec : list Z) (request : SendPunchPacketHardSymRequest)
    (ls : list UdpHolePunchListener) : outcome (result punch_error (list SocketAddr * Z) * list UdpHolePunchListener) :=
  match hr_listener_mapped_addr request with
  | None => Done (Err MissingListenerAddr, ls)
  | Some a =>
      match find_listener now (addr_of_proto a) ls with
      | (None, ls) => Done (Err ListenerNotFound, ls)
      | (Some _, ls) =>
          match hr_public_ips request with
          | [] => Done (Err ZeroPublicIps, ls)
          | ips =>
              let max_k2 := hard_sym_packets rnd (hr_round request) in
              '(first, r) ← send_symmetric_hole_punch_packet send_ok shuffled_port_vec ips (port_index request) max_k2;
              match r with
              | Err e => Done (Err e, ls)
              | Ok _ =>
                  '(second, r) ← send_symmetric_hole_punch_packet send_ok shuffled_port_vec ips (port_index request) max_k2;
                  match r with
                  | Err e => Done (Err e, ls)
                  | Ok next_port_index => Done (Ok (first ++ second, as_u32 next_port_index), ls)
                  end
              end
          end
      end
  end.

(** Symmetric punching is done for one peer at a time: [locked] is whether the
    node's lock is taken. *)
Definition with_sym_lock {A} (locked : bool) (ls : list UdpHolePunchListener)
    (k : outcome (result punch_error A * list UdpHolePunchListener)) : outcome (result punch_error A * list UdpHolePunchListener) :=
  if locked then Done (Err LockBusy, ls) else k.

(** ** Clients *)

Record punched_tunnel := { pt_socket : SocketAddr; pt_remote : SocketAddr }.

(** One round of waiting: the clock at its start, whether sending works, whether
    the call to the other side has ended and when, what has arrived at which
    socket, and whether the attempts to connect succeed. *)
Record wait_round := {
  wr_now : Z; wr_sent : bool; wr_finished : option Z; wr_arrivals : list (SocketAddr * bytes * SocketAddr); wr_connect : list bool
}.

Fixpoint arrive (l : list (SocketAddr * bytes * SocketAddr)) (a : UdpSocketArray) : outcome UdpSocketArray :=
  match l with
  | [] => Done a
  | (socket, datagram, from) :: l => a ← array_recv socket datagram from a; arrive l a
  end.

Definition still_waiting (now : Z) (finish_time : option Z) : bool :=
  match finish_time with None => true | Some t => duration_since now t / 1000000 <? 1000 end.

Definition finish_at (r : wait_round) (finish_time : option Z) : option Z :=
  match finish_time with None => wr_finished r | Some t => Some t end.

Section clients.
Context `{!IterOrder SocketAddr unit}.

(** The loop of [cone.rs]: what the result is and what was sent; two attempts to
    connect per socket. *)
Fixpoint cone_wait (tid : Z) (packet : bytes) (remote : SocketAddr) (finish_time : option Z) (rounds : list wait_round)
    (a : UdpSocketArray) : outcome (result punch_error (option punched_tunnel) * list sent_datagram) :=
  match rounds with
  | [] => Panicked OutOfFuel
  | r :: rounds =>
      if still_waiting (wr_now r) finish_time then
        a ← arrive (wr_arrivals r) a;
        let finish_time := finish_at r finish_time in
        match try_fetch_punched_socket tid a with
        | (None, a) =>
            let out := send_with_all packet remote a in
            if wr_sent r then
              '(res, more) ← cone_wait tid packet remote finish_time rounds a; Done (res, out ++ more)
            else Done (Err SendFailed, out)
        | (Some socket, a) =>
            if existsb id (take 2 (wr_connect r)) then
              Done (Ok (Some {| pt_socket := ps_socket socket; pt_remote := remote |}), [])
            else cone_wait tid packet remote finish_time rounds a
        end
      else Done (Ok None, [])
  end.

(** What happens to a try with the cone method before the wait. *)
Record cone_env := {
  ce_now : Z; ce_tid : Z; ce_random : bytes; ce_local : option SocketAddr; ce_mapping : option SocketAddr; ce_rebound : bool;
  ce_listener : result Error (option ProtoAddr); ce_sent : bool; ce_rounds : list wait_round
}.

Definition cone_request (remote_mapped_addr : ProtoAddr) (local_mapped_addr : SocketAddr) (tid : Z) : SendPunchPacketConeRequest := {|
  cr_listener_mapped_addr := Some remote_mapped_addr; cr_dest_addr := Some (proto_of_addr local_mapped_addr);
  cr_transaction_id := tid; packet_count_per_batch := 2; packet_batch_count := 5; packet_interval_ms := 400 |}.

(** The request the other side gets is returned with the result. *)
Definition cone_do_hole_punching {M} `{TimedMap Z M} (e : cone_env) (dst_peer_id : Z) (blacklist : M)
    : outcome (result punch_error (option punched_tunnel) * list sent_datagram * option SendPunchPacketConeRequest * M) :=
  if tm_contains (ce_now e) dst_peer_id blacklist then Done (Ok None, [], None, blacklist)
  else
    match ce_local e with
    | None => Done (Err SocketError, [], None, blacklist)
    | Some local_addr =>
        match ce_mapping e with
        | None => Done (Err PortMapping, [], None, blacklist)
        | Some local_mapped_addr =>
            if negb (ce_rebound e) then Done (Err SocketError, [], None, blacklist)
            else
              let '(resp, blacklist) := handle_rpc_result (ce_now e) (ce_listener e) dst_peer_id blacklist in
              match resp with
              | Err err => Done (Err (RpcFailed err), [], None, blacklist)
              | Ok None => Done (Err MissingListenerAddr, [], None, blacklist)
              | Ok (Some remote_mapped_addr) =>
                  let tid := ce_tid e in
                  let udp_array := add_intreast_tid tid (add_new_socket local_addr (socket_array_new 1)) in
                  p ← new_hole_punch_packet tid (ce_random e);
                  let packet := into_bytes p in
                  let remote := addr_of_proto remote_mapped_addr in
                  let out := send_with_all packet remote udp_array in
                  if negb (ce_sent e) then Done (Err SendFailed, out, None, blacklist)
                  else
                    let request := cone_request remote_mapped_addr local_mapped_addr tid in
                    '(res, more) ← cone_wait tid packet remote None (ce_rounds e) udp_array;
                    Done (res, out ++ more, Some request, blacklist)
              end
        end
    end.

(** [check_hole_punch_result] of [sym_to_cone.rs]: one attempt per socket, which
    goes back to the array if it fails. *)
Fixpoint check_hole_punch_result (packet : bytes) (tid : Z) (remote : SocketAddr) (finish_time : option Z)
    (rounds : list wait_round) (a : UdpSocketArray)
    : outcome (result punch_error (option punched_tunnel) * list sent_datagram * UdpSocketArray) :=
  match rounds with
  | [] => Panicked OutOfFuel
  | r :: rounds =>
      if still_waiting (wr_now r) finish_time then
        let out := send_with_all packet remote a in
        if negb (wr_sent r) then Done (Err SendFailed, out, a)
        else
          a ← arrive (wr_arrivals r) a;
          let finish_time := finish_at r finish_time in
          match try_fetch_punched_socket tid a with
          | (None, a) =>
              '(res, more, a) ← check_hole_punch_result packet tid remote finish_time rounds a; Done (res, out ++ more, a)
          | (Some socket, a) =>
              if default false (head (wr_connect r)) then
                Done (Ok (Some {| pt_socket := ps_socket socket; pt_remote := remote |}), out, a)
              else
                '(res, more, a) ← check_hole_punch_result packet tid remote finish_time rounds (add_new_socket (ps_socket socket) a);
                Done (res, out ++ more, a)
          end
      else Done (Ok None, [], a)
  end.

(** The client's own state: the sockets it keeps open, and which ways it tries. *)
Record SymClient := {
  sc_array : option UdpSocketArray; try_direct_connect : bool; punch_predicablely : bool; punch_randomly : bool
}.
Definition sym_client_new : SymClient :=
  {| sc_array := None; try_direct_connect := true; punch_predicablely := true; punch_randomly := true |}.
Definition with_sc_array (a : option UdpSocketArray) (c : SymClient) : SymClient :=
  {| sc_array := a; try_direct_connect := try_direct_connect c; punch_predicablely := punch_predicablely c; punch_randomly := punch_randomly c |}.

Definition UDP_ARRAY_SIZE_FOR_HARD_SYM : nat := 84.

Definition prepare_udp_array (binds : list (option SocketAddr)) (c : SymClient) : result punch_error UdpSocketArray * SymClient :=
  match sc_array c with
  | Some a => (Ok a, c)
  | None =>
      match array_start binds (socket_array_new UDP_ARRAY_SIZE_FOR_HARD_SYM) with
      | (Ok _, a) => (Ok a, with_sc_array (Some a) c)
      | (Err _, _) => (Err SocketError, c)
      end
  end.

Definition clear_udp_array (c : SymClient) : SymClient := with_sc_array None c.

Definition get_base_port_for_easy_sym (my_nat_info : UdpNatType) (mapping : option SocketAddr) : option Z :=
  if is_easy_sym my_nat_info then snd <$> mapping else None.

(** The two requests to the other side. *)
Definition predicable_request (base : option Z) (my_nat_info : UdpNatType) (remote : ProtoAddr) (public_ips : list Z) (tid : Z)
    : outcome (option SendPunchPacketEasySymRequest) :=
  match get_inc_of_easy_sym my_nat_info with
  | None => Done None
  | Some inc =>
      port ← unwrap base;
      Done (Some {| er_listener_mapped_addr := Some remote; er_public_ips := public_ips; er_transaction_id := tid;
                    base_port_num := port; max_port_num := 50; is_incremental := inc |})
  end.

Definition random_request (remote : ProtoAddr) (public_ips : list Z) (tid round port_idx : Z) : SendPunchPacketHardSymRequest :=
  {| hr_listener_mapped_addr := Some remote; hr_public_ips := public_ips; hr_transaction_id := tid; hr_round := round;
     port_index := port_idx |}.

Record sym_env := {
  se_now : Z; se_binds : list (option SocketAddr); se_listener : result Error (option ProtoAddr);
  se_direct_bound : option SocketAddr; se_direct : bool; se_public_ips : list IpAddr; se_tid : Z; se_random : bytes;
  se_mapping : option SocketAddr; se_sent : bool; se_easy_rounds : list wait_round; se_rounds : list wait_round;
  se_next : option Z; se_rnd_index : Z        (** the next index of the call, or a random one *)
}.

Definition v4_only (l : list IpAddr) : list Z := omap (fun ip => match ip with V4 a => Some a | V6 _ => None end) l.

(** The random way, after the predictable one; [last_port_idx] is a [usize]. *)
Definition sym_random (e : sym_env) (round last_port_idx : Z) (remote : ProtoAddr) (packet : bytes) (c : SymClient) (a : UdpSocketArray)
    : outcome (result punch_error (option punched_tunnel) * Z * option SendPunchPacketHardSymRequest * SymClient) :=
  let request := random_request remote (v4_only (se_public_ips e)) (se_tid e) round (as_u32 last_port_idx) in
  '(res, _, a) ← check_hole_punch_result packet (se_tid e) (addr_of_proto remote) None (se_rounds e) a;
  let c := with_sc_array (Some (remove_intreast_tid (se_tid e) a)) c in
  match res with
  | Err err => Done (Err err, last_port_idx, Some request, c)
  | Ok t => Done (Ok t, default (se_rnd_index e) (se_next e), Some request, c)
  end.

Definition sym_do_hole_punching {M} `{TimedMap Z M} (e : sym_env) (dst_peer_id round last_port_idx : Z) (my_nat_info : UdpNatType)
    (c : SymClient) (blacklist : M)
    : outcome (result punch_error (option punched_tunnel) * Z * option SendPunchPacketEasySymRequest
               * option SendPunchPacketHardSymRequest * SymClient * M) :=
  if tm_contains (se_now e) dst_peer_id blacklist then Done (Ok None, last_port_idx, None, None, c, blacklist)
  else
    match prepare_udp_array (se_binds e) c with
    | (Err err, c) => Done (Err err, last_port_idx, None, None, c, blacklist)
    | (Ok udp_array, c) =>
        let '(resp, blacklist) := handle_rpc_result (se_now e) (se_listener e) dst_peer_id blacklist in
        match resp with
        | Err err => Done (Err (RpcFailed err), last_port_idx, None, None, c, blacklist)
        | Ok None => Done (Err MissingListenerAddr, last_port_idx, None, None, c, blacklist)
        | Ok (Some remote) =>
            match (if try_direct_connect c then se_direct_bound e else Some (V4 0, 0)) with
            | None => Done (Err SocketError, last_port_idx, None, None, c, blacklist)
            | Some direct_socket =>
                if try_direct_connect c && se_direct e then
                  Done (Ok (Some {| pt_socket := direct_socket; pt_remote := addr_of_proto remote |}), last_port_idx, None, None, c, blacklist)
                else
                  match v4_only (se_public_ips e) with
                  | [] => Done (Err PublicIpRequired, last_port_idx, None, None, c, blacklist)
                  | public_ips =>
                      p ← new_hole_punch_packet (se_tid e) (se_random e);
                      let packet := into_bytes p in
                      let a := add_intreast_tid (se_tid e) udp_array in
                      let base := get_base_port_for_easy_sym my_nat_info (se_mapping e) in
                      if negb (se_sent e) then
                        Done (Err SendFailed, last_port_idx, None, None, with_sc_array (Some (remove_intreast_tid (se_tid e) a)) c, blacklist)
                      else if punch_predicablely c && bool_decide (is_Some base) then
                        request ← predicable_request base my_nat_info remote public_ips (se_tid e);
                        '(res, _, a) ← check_hole_punch_result packet (se_tid e) (addr_of_proto remote) None (se_easy_rounds e) a;
                        match res with
                        | Err err => Done (Err err, last_port_idx, request, None, with_sc_array (Some (remove_intreast_tid (se_tid e) a)) c, blacklist)
                        | Ok (Some t) => Done (Ok (Some t), last_port_idx, request, None, with_sc_array (Some (remove_intreast_tid (se_tid e) a)) c, blacklist)
                        | Ok None =>
                            '(res, idx, hard, c) ← sym_random e round last_port_idx remote packet c a;
                            Done (res, idx, request, hard, c, blacklist)
                        end
                      else
                        '(res, idx, hard, c) ← sym_random e round last_port_idx remote packet c a;
                        Done (res, idx, None, hard, c, blacklist)
                  end
            end
        end
    end.

(** ** Two predictable NATs *)

Definition UDP_ARRAY_SIZE_FOR_BOTH_EASY_SYM : nat := 25.
Definition DST_PORT_OFFSET : Z := 20.
Definition REMOTE_WAIT_TIME_MS : Z := 5000.

Record SendPunchPacketBothEasySymRequest := {
  br_udp_socket_count : nat; br_public_ip : option Z; br_transaction_id : Z; br_dst_port_num : Z; br_wait_time_ms : Z
}.
Record SendPunchPacketBothEasySymResponse := { bs_is_busy : bool; bs_base_mapped_addr : option ProtoAddr }.

(** The port the other side is to send to, and the one to send to. *)
Definition my_predicted_port (inc : bool) (port : Z) : Z :=
  if inc then Z.min (port + DST_PORT_OFFSET) 65535 else Z.max (port - DST_PORT_OFFSET) 0.
Definition remote_predicted_addr (inc : bool) (a : ProtoAddr) : ProtoAddr :=
  {| pa_ip := pa_ip a; pa_port := if inc then sat_add32 (pa_port a) DST_PORT_OFFSET else sat_sub (pa_port a) DST_PORT_OFFSET |}.

Fixpoint easy_wait (tid : Z) (packet : bytes) (remote : SocketAddr) (start : Z) (rounds : list wait_round)
    (a : UdpSocketArray) : outcome (result punch_error (option punched_tunnel)) :=
  match rounds with
  | [] => Panicked OutOfFuel
  | r :: rounds =>
      if duration_since (wr_now r) start / 1000000 <? REMOTE_WAIT_TIME_MS + 1000 then
        if negb (wr_sent r) then Done (Err SendFailed)
        else
          a ← arrive (wr_arrivals r) a;
          match try_fetch_punched_socket tid a with
          | (None, a) => easy_wait tid packet remote start rounds a
          | (Some socket, a) =>
              if existsb id (take 2 (wr_connect r)) then Done (Ok (Some {| pt_socket := ps_socket socket; pt_remote := remote |}))
              else easy_wait tid packet remote start rounds (add_new_socket (ps_socket socket) a)
          end
      else Done (Ok None)
  end.

Record easy_env := {
  ee_now : Z; ee_binds : list (option SocketAddr); ee_mapping : option SocketAddr; ee_tid : Z; ee_random : bytes;
  ee_answer : result Error SendPunchPacketBothEasySymResponse; ee_start : Z; ee_rounds : list wait_round
}.

Definition both_easy_request (inc : bool) (ip port tid : Z) : SendPunchPacketBothEasySymRequest := {|
  br_udp_socket_count := UDP_ARRAY_SIZE_FOR_BOTH_EASY_SYM; br_public_ip := Some ip; br_transaction_id := tid;
  br_dst_port_num := my_predicted_port inc port; br_wait_time_ms := REMOTE_WAIT_TIME_MS |}.

(** The flag says whether the other side was busy. *)
Definition easy_do_hole_punching {M} `{TimedMap Z M} (e : easy_env) (dst_peer_id : Z) (my_nat_info peer_nat_info : UdpNatType)
    (blacklist : M) : outcome (result punch_error (option punched_tunnel) * bool * M) :=
  if tm_contains (ee_now e) dst_peer_id blacklist then Done (Ok None, false, blacklist)
  else
    match array_start (ee_binds e) (socket_array_new UDP_ARRAY_SIZE_FOR_BOTH_EASY_SYM) with
    | (Err _, _) => Done (Err SocketError, false, blacklist)
    | (Ok _, udp_array) =>
        match ee_mapping e with
        | None => Done (Err PortMapping, false, blacklist)
        | Some (V6 _, _) => Done (Err Ipv6NotSupported, false, blacklist)
        | Some (V4 ip, port) =>
            match get_inc_of_easy_sym my_nat_info, get_inc_of_easy_sym peer_nat_info with
            | Some me_inc, Some peer_inc =>
                let udp_array := add_intreast_tid (ee_tid e) udp_array in
                let '(remote_ret, blacklist) := handle_rpc_result (ee_now e) (ee_answer e) dst_peer_id blacklist in
                match remote_ret with
                | Err err => Done (Err (RpcFailed err), false, blacklist)
                | Ok ret =>
                    if bs_is_busy ret then Done (Err RemoteBusy, true, blacklist)
                    else
                      match bs_base_mapped_addr ret with
                      | None => Done (Err MissingListenerAddr, false, blacklist)
                      | Some base =>
                          p ← new_hole_punch_packet (ee_tid e) (ee_random e);
                          res ← easy_wait (ee_tid e) (into_bytes p) (addr_of_proto (remote_predicted_addr peer_inc base))
                                  (ee_start e) (ee_rounds e) udp_array;
                          Done (res, false, blacklist)
                      end
                end
            | _, _ => Done (Err NotEasySym, false, blacklist)
            end
        end
    end.

(** The server: [running] is whether its last task still runs, [locked] whether
    another request is being handled. *)
Definition both_easy_sym_begin (locked running : bool) (mapping : option SocketAddr) (binds : list (option SocketAddr))
    (request : SendPunchPacketBothEasySymRequest)
    : result punch_error (SendPunchPacketBothEasySymResponse * option (UdpSocketArray * SocketAddr)) :=
  if locked || running then Ok ({| bs_is_busy := true; bs_base_mapped_addr := None |}, None)
  else
    match mapping with
    | None => Err PortMapping
    | Some cur_mapped_addr =>
        match br_public_ip request with
        | None => Err PublicIpRequired
        | Some ip =>
            match array_start binds (socket_array_new (br_udp_socket_count request)) with
            | (Err _, _) => Err SocketError
            | (Ok _, a) =>
                Ok ({| bs_is_busy := false; bs_base_mapped_addr := Some (proto_of_addr cur_mapped_addr) |},
                    Some (add_intreast_tid (br_transaction_id request) a, (V4 ip, as_u16 (br_dst_port_num request))))
            end
        end
    end.

(** One round of its task: [refs] counts the references to a socket that was
    found, [created] is the listener made for its port. *)
Record server_round := {
  sr_now : Z; sr_sent : bool; sr_arrivals : list (SocketAddr * bytes * SocketAddr); sr_refs : Z;
  sr_created : option UdpHolePunchListener
}.

Fixpoint both_easy_task (packet : bytes) (tid : Z) (dst : SocketAddr) (start wait_ms : Z) (rounds : list server_round)
    (a : UdpSocketArray) (punched : list (SocketAddr * SocketAddr)) (listeners : list UdpHolePunchListener)
    : outcome (list sent_datagram * list UdpHolePunchListener) :=
  match rounds with
  | [] => Panicked OutOfFuel
  | r :: rounds =>
      if duration_since (sr_now r) start <? wait_ms * 1000000 then
        let out := send_with_all packet dst a in
        if negb (sr_sent r) then Done (out, listeners)
        else
          a ← arrive (sr_arrivals r) a;
          let resend punched := (fun '(s, remote) => {| sd_from := s; sd_to := remote; sd_data := packet |}) <$> punched in
          match try_fetch_punched_socket tid a with
          | (Some s, a) =>
              if negb (sr_refs r =? 1) then Panicked AssertionFailed
              else
                match sr_created r with
                | None => '(more, ls) ← both_easy_task packet tid dst start wait_ms rounds a punched listeners; Done (out ++ more, ls)
                | Some l =>
                    let punched := punched ++ [(hl_socket l, ps_remote_addr s)] in
                    '(more, ls) ← both_easy_task packet tid dst start wait_ms rounds a punched (listeners ++ [l]);
                    Done (out ++ resend punched ++ more, ls)
                end
          | (None, a) =>
              '(more, ls) ← both_easy_task packet tid dst start wait_ms rounds a punched listeners;
              Done (out ++ resend punched ++ more, ls)
          end
      else Done ([], listeners)
  end.

(** The listeners with connections are kept. *)
Definition keep_listeners (found ls : list UdpHolePunchListener) : list UdpHolePunchListener :=
  ls ++ List.filter (fun l => 0 <? hl_conn_count l) found.
End clients.

(** ** A packet is recognised *)

Lemma proto_addr_roundtrip a : in_width 16 a.2 -> addr_of_proto (proto_of_addr a) = a.
Proof. intros Hp. unfold addr_of_proto; simpl. rewrite (wrap_small 16) by done. by destruct a. Qed.

(** What a punching packet is on the wire. *)
Lemma punch_packet tid random : in_width 32 tid -> len random = 16 -> exists p h, new_hole_punch_packet tid random = Done p /\
  into_bytes p = as_bytes h ++ random /\ in_range h /\ h = set_header UdpHolePunch tid 16 h.
Proof.
  intros Ht Hr. unfold new_hole_punch_packet. destruct (new_udp_packet_spec (set_header UdpHolePunch tid (len random)) random) as (h & Hp & ->).
  eexists _, _. split; [done|]. split; [done|]. rewrite Hr. split; [|by destruct h].
  unfold in_range; simpl. unfold set_header; simpl. rewrite Hp. unfold in_width in *. repeat split; simpl; try lia; done.
Qed.

Lemma array_recv_finds a socket tid random from p : in_width 32 tid -> len random = 16 ->
  new_hole_punch_packet tid random = Done p -> socket ∈ sockets a -> tid ∈ intreast_tids a -> tid_to_socket a !! tid = None ->
  exists a', array_recv socket (into_bytes p) from a = Done a' /\ sockets a' = sockets a ∖ {[socket]} /\
    tid_to_socket a' !! tid = Some [{| ps_socket := socket; ps_tid := tid; ps_remote_addr := from |}].
Proof.
  intros Ht Hr Ep Hs Hi Hn. destruct (punch_packet tid random Ht Hr) as (p' & h & Ep' & Eb & Hin & Eh).
  rewrite Ep in Ep'. injection Ep' as <-. unfold array_recv. rewrite bool_decide_eq_true_2 by done.
  pose proof (as_bytes_length h Hin) as Hlen. change (size_of (H := UDPTunnelHeader)) with 8%nat in Hlen.
  change (Z.to_nat (UDP_TUNNEL_HEADER_SIZE + HOLE_PUNCH_PACKET_BODY_LEN)) with 24%nat.
  assert (take 24 (into_bytes p) = into_bytes p) as ->.
  { apply take_ge. rewrite Eb, length_app. unfold len in Hr. lia. }
  rewrite Eb. unfold len. rewrite length_app, Hlen. unfold len in Hr.
  replace (Z.of_nat (8 + length random) =? UDP_TUNNEL_HEADER_SIZE + HOLE_PUNCH_PACKET_BODY_LEN) with true by (symmetry; apply Z.eqb_eq; cbv [UDP_TUNNEL_HEADER_SIZE HOLE_PUNCH_PACKET_BODY_LEN]; lia).
  cbn [negb]. unfold ref_from_prefix. change (Z.of_nat (size_of (H := UDPTunnelHeader))) with 8.
  destruct (Z.ltb_spec (len (as_bytes h ++ random)) 8) as [Hlt|_]; [unfold len in Hlt; rewrite length_app in Hlt; lia|].
  change (size_of (H := UDPTunnelHeader)) with 8%nat.
  rewrite take_app_length' by done. rewrite from_as_bytes by done. rewrite Eh. unfold set_header. cbn [udp_conn_id udp_msg_type udp_len].
  rewrite !Z.eqb_refl. cbn [andb negb]. rewrite bool_decide_eq_true_2 by done. eexists. split; [done|]. simpl. split; [done|].
  unfold upsert. rewrite Hn. by rewrite lookup_insert_eq.
Qed.

(** A datagram that leaves an array as it is. *)
Definition quiet (a : UdpSocketArray) (x : SocketAddr * bytes * SocketAddr) : Prop :=
  array_recv x.1.1 x.1.2 x.2 a = Done a.

Lemma arrive_quiet a l l' : Forall (quiet a) l -> arrive (l ++ l') a = arrive l' a.
Proof.
  induction 1 as [|[[s d] f] l Hq _ IH]; [done|]. simpl. unfold quiet in Hq. simpl in Hq. rewrite Hq. done.
Qed.

(** A socket that is gone hears nothing. *)
Lemma arrive_gone a l : sockets a = ∅ -> arrive l a = Done a.
Proof.
  intros Hs. induction l as [|[[s d] f] l IH]; [done|]. simpl. unfold array_recv. rewrite Hs, bool_decide_eq_false_2 by set_solver. done.
Qed.

(** ** Through two NATs *)

Section cone.
Context `{!IterOrder SocketAddr unit} {M : Type} `{TimedMap Z M}.

Lemma send_from_one data addr local tid :
  send_with_all data addr (add_intreast_tid tid (add_new_socket local (socket_array_new 1))) = send3 local addr data.
Proof.
  unfold send_with_all. cbn [sockets add_intreast_tid add_new_socket with_sockets socket_array_new].
  replace ({[local]} ∪ ∅ : gset SocketAddr) with ({[local]} : gset SocketAddr) by set_solver.
  assert (map_iter (gset_to_gmap () ({[local]} : gset SocketAddr)) = [(local, ())]) as ->; [|done].
  apply Permutation_singleton_r. rewrite map_iter_perm.
  replace (gset_to_gmap () {[local]}) with ({[local := ()]} : gmap SocketAddr ()).
  - by rewrite map_to_list_singleton.
  - apply map_eq. intros k. rewrite lookup_gset_to_gmap, lookup_singleton. 
    destruct (decide (local = k)) as [->|Hne].
    + by rewrite option_guard_True by set_solver.
    + by rewrite option_guard_False by set_solver.
Qed.

(** The array while nothing has been found. *)
Definition waiting_array (tid : Z) (local : SocketAddr) : UdpSocketArray :=
  add_intreast_tid tid (add_new_socket local (socket_array_new 1)).

(** A round in which nothing for the request arrives and the call goes on. *)
Definition quiet_round (a : UdpSocketArray) (r : wait_round) : Prop :=
  Forall (quiet a) (wr_arrivals r) /\ wr_finished r = None /\ wr_sent r = true.

(** What gets through: datagrams of the other side, if the NAT before the client
    lets them in after what the client has sent; and the client's connection, if
    the other NAT lets it in after what the other side has sent. *)
Record gets_through (f1 f2 : Filtering) (m1 m2 : SocketAddr) (tid : Z) (local : SocketAddr)
    (out sends : list sent_datagram) (rounds : list wait_round) : Prop := {
  gt_rounds : exists pre r post, rounds = pre ++ r :: post /\ Forall (quiet_round (waiting_array tid local)) pre /\
    (nat_passes f1 (sd_to <$> out) m2 = true -> exists xs d ys, d ∈ sends /\
       wr_arrivals r = xs ++ (local, sd_data d, m2) :: ys /\ Forall (quiet (waiting_array tid local)) xs) /\
    (nat_passes f2 (sd_to <$> sends) m1 = true -> head (wr_connect r) = Some true)
}.

Lemma passes_after f contacted a : a ∈ contacted -> nat_passes f contacted a = true.
Proof. intros Ha. destruct f; simpl; [done|..]; apply existsb_elem; exists a; by rewrite bool_decide_eq_true. Qed.

Lemma nothing_found tid local : try_fetch_punched_socket tid (waiting_array tid local) = (None, waiting_array tid local).
Proof. done. Qed.

Lemma cone_wait_finds tid packet remote local pre r post random from p xs ys :
  in_width 32 tid -> len random = 16 -> new_hole_punch_packet tid random = Done p ->
  Forall (quiet_round (waiting_array tid local)) pre -> Forall (quiet (waiting_array tid local)) xs ->
  wr_arrivals r = xs ++ (local, into_bytes p, from) :: ys -> head (wr_connect r) = Some true ->
  exists out, cone_wait tid packet remote None (pre ++ r :: post) (waiting_array tid local) =
    Done (Ok (Some {| pt_socket := local; pt_remote := remote |}), out).
Proof.
  intros Ht Hr Ep Hpre Hxs Harr Hconn. induction Hpre as [|r0 pre (Hq & Hf & Hs) _ (out & IH)]; cbn [app cone_wait still_waiting].
  - rewrite Harr, arrive_quiet by done. simpl.
    destruct (array_recv_finds (waiting_array tid local) local tid random from p Ht Hr Ep) as (a' & -> & Ha' & Htid);
      [simpl; set_solver|simpl; set_solver|done|]. cbn [mbind outcome_bind].
    rewrite arrive_gone. 2: { rewrite Ha'. simpl. set_solver. }
    cbn [mbind outcome_bind]. unfold try_fetch_punched_socket. rewrite Htid. cbn [last ps_socket].
    destruct (wr_connect r) as [|[] l]; [done| |done]. simpl. eexists. done.
  - rewrite <- (app_nil_r (wr_arrivals r0)), arrive_quiet by done. cbn [arrive mbind outcome_bind]. unfold finish_at. rewrite Hf.
    rewrite nothing_found, Hs, IH. cbn [mbind outcome_bind]. eauto.
Qed.

(** C25.  Punching a hole between two NATs that keep one public address per socket
    succeeds, whatever each of them filters: the client sends to the address that the
    listener is seen under and the other side, on the client's request, sends to the
    address the client is seen under, so each NAT lets in what comes from the other;
    the client recognises the packet and connects through the socket it came to. *)
Theorem cone_punch_connects f1 f2 m1 m2 (e : cone_env) dst bl now random ls ls1 local listener :
  in_width 16 m1.2 -> in_width 16 m2.2 -> is_unspecified m1.1 = false -> is_multicast m1.1 = false ->
  tm_contains (ce_now e) dst bl = false -> ce_local e = Some local -> ce_mapping e = Some m1 -> ce_rebound e = true ->
  ce_listener e = Ok (Some (proto_of_addr m2)) -> ce_sent e = true -> in_width 32 (ce_tid e) ->
  len (ce_random e) = 16 -> len random = 16 ->
  find_listener now m2 ls = (Some listener, ls1) ->
  let request := cone_request (proto_of_addr m2) m1 (ce_tid e) in
  exists sends p1, send_punch_packet_cone now random request ls = Done (Ok sends, ls1) /\
    new_hole_punch_packet (ce_tid e) (ce_random e) = Done p1 /\
    (gets_through f1 f2 m1 m2 (ce_tid e) local (send3 local m2 (into_bytes p1)) sends (ce_rounds e) ->
     exists more, cone_do_hole_punching e dst bl =
       Done (Ok (Some {| pt_socket := local; pt_remote := m2 |}), send3 local m2 (into_bytes p1) ++ more, Some request, bl)).
Proof.
  intros Hm1 Hm2 Hun Hmc Hbl Hloc Hmap Hreb Hlis Hsent Htid Hr1 Hr2 Hfind request.
  destruct (punch_packet (ce_tid e) random Htid Hr2) as (p2 & _ & Ep2 & _).
  destruct (punch_packet (ce_tid e) (ce_random e) Htid Hr1) as (p1 & _ & Ep1 & _).
  set (sends := replicate 10 {| sd_from := listener; sd_to := m1; sd_data := into_bytes p2 |}).
  exists sends, p1. split_and!; [|done|].
  - unfold send_punch_packet_cone. cbn [request cone_request cr_listener_mapped_addr cr_dest_addr cr_transaction_id packet_batch_count packet_count_per_batch].
    rewrite proto_addr_roundtrip, Hfind, proto_addr_roundtrip, Hun, Hmc, Ep2 by done. done.
  - intros [(pre & r & post & Er & Hpre & Harr & Hconn)].
    destruct Harr as (xs & d & ys & Hd & Ea & Hxs). { apply passes_after. simpl. set_solver. }
    assert (sd_data d = into_bytes p2) as Edata. { apply elem_of_replicate in Hd as [-> _]. done. }
    specialize (Hconn ltac:(apply passes_after; simpl; set_solver)).
    unfold cone_do_hole_punching. rewrite Hbl, Hloc, Hmap, Hreb, Hlis. cbn [negb handle_rpc_result]. rewrite Ep1. cbn [mbind outcome_bind].
    rewrite Hsent, proto_addr_roundtrip, send_from_one by done. cbn [negb]. rewrite Er. rewrite Edata in Ea.
    destruct (cone_wait_finds (ce_tid e) (into_bytes p1) m2 local pre r post random m2 p2 xs ys) as (out & E); try done.
    unfold waiting_array in E. rewrite E. cbn [mbind outcome_bind]. eauto.
Qed.
End cone.

(** ** Which ports are tried *)

(** The number of ports for a number of packets. *)
Definition ports_for (packets k : Z) : Z := Z.max 0 ((packets + k - 1) / k).

Lemma ports_for_step packets k : 0 < k -> 0 < packets -> ports_for packets k = 1 + ports_for (packets - k) k.
Proof.
  intros Hk Hp. unfold ports_for. replace (packets + k - 1) with ((packets - k + k - 1) + 1 * k) by lia.
  rewrite Z.div_add by lia. set (x := packets - k + k - 1). assert (0 <= x) by (subst x; lia).
  pose proof (Z.div_pos x k ltac:(lia) ltac:(lia)). lia.
Qed.

Lemma ports_for_le packets k : 0 < k -> 0 <= packets -> packets <= k * ports_for packets k /\ ports_for packets k <= packets.
Proof.
  intros Hk Hp. unfold ports_for. pose proof (Z.div_mod (packets + k - 1) k ltac:(lia)) as E.
  pose proof (Z.mod_pos_bound (packets + k - 1) k Hk). split; [nia|]. apply Z.max_lub; [lia|].
  destruct (decide (packets = 0)) as [->|]; [rewrite Z.div_small; lia|]. nia.
Qed.

Definition port_at (ports : list Z) (i : Z) : Z := ports !!! Z.to_nat (i mod len ports).

Lemma port_at_lookup ports i : 0 < len ports -> ports !! Z.to_nat (i mod len ports) = Some (port_at ports i).
Proof.
  intros Hl. pose proof (Z.mod_pos_bound i (len ports) Hl). unfold port_at. apply list_lookup_lookup_total_lt. unfold len in *. lia.
Qed.

(** The system sends to every port of every address. *)
Definition sends_all (send_ok : SocketAddr -> bool) (ports ips : list Z) : Prop :=
  forall ip port, ip ∈ ips -> port ∈ ports -> send_ok (V4 ip, port) = true.

Lemma send_each_all send_ok l : (forall a, a ∈ l -> send_ok a = true) -> send_each send_ok l = (l, true).
Proof. induction l as [|a l IH]; intros Hl; [done|]. cbn. rewrite Hl by left. rewrite IH; [done|]. intros; apply Hl; by right. Qed.

Lemma elem_of_destinations ips port a : a ∈ destinations ips port <-> exists ip, ip ∈ ips /\ a = (V4 ip, port).
Proof.
  unfold destinations. rewrite list_elem_of_bind. split.
  - intros (ip & Ha%elem_of_replicate & Hin). destruct Ha as [-> _]. eauto.
  - intros (ip & Hin & ->). exists ip. split; [|done]. apply elem_of_replicate. done.
Qed.

(** Consecutive ports, from the start index on. *)
Lemma spray_spec send_ok fuel ports ips cur sent max : sends_all send_ok ports ips ->
  0 < len ports -> 0 < len ips -> 0 <= cur -> cur + (max - sent) < USIZE -> max - sent <= Z.of_nat fuel ->
  spray send_ok fuel ports ips cur sent max =
    Done (seqZ cur (ports_for (max - sent) (len ips)) ≫= (fun i => destinations ips (port_at ports i)),
          Ok ((cur + ports_for (max - sent) (len ips)) mod len ports)).
Proof.
  intros Hok Hp Hi. revert cur sent; induction fuel as [|fuel IH]; intros cur sent Hc Hw Hf; cbn [spray];
    (destruct (Z.ltb_spec sent max) as [Hlt|Hge]; [|]).
  - lia.
  - replace (len ports =? 0) with false by lia. replace (ports_for (max - sent) (len ips)) with 0; [by rewrite Z.add_0_r|].
    unfold ports_for. rewrite Z.max_l; [done|]. apply Z.lt_succ_r, Z.div_lt_upper_bound; lia.
  - replace (len ports =? 0) with false by lia. pose proof (port_at_lookup ports cur Hp) as Hport. rewrite Hport. cbn [unwrap mbind outcome_bind].
    rewrite send_each_all by (intros a (ip & Hip & ->)%elem_of_destinations; apply Hok; [done|by eapply list_elem_of_lookup_2]).
    rewrite (Z.mod_small (cur + 1)) by (unfold USIZE in *; lia). rewrite IH by lia. cbn [mbind outcome_bind].
    replace (max - (sent + len ips)) with (max - sent - len ips) by lia.
    rewrite (ports_for_step (max - sent)) by lia. rewrite (seqZ_cons cur) by (unfold ports_for; lia). simpl.
    replace (Z.succ cur) with (cur + 1) by lia. replace (Z.pred (1 + ports_for (max - sent - len ips) (len ips))) with (ports_for (max - sent - len ips) (len ips)) by lia.
    do 4 f_equal. lia.
  - replace (len ports =? 0) with false by lia. replace (ports_for (max - sent) (len ips)) with 0; [by rewrite Z.add_0_r|].
    unfold ports_for. rewrite Z.max_l; [done|]. apply Z.lt_succ_r, Z.div_lt_upper_bound; lia.
Qed.

Lemma send_symmetric_spec send_ok ports ips start max : sends_all send_ok ports ips ->
  0 < len ports -> 0 < len ips -> 0 <= start -> 0 <= max -> start + max < USIZE ->
  send_symmetric_hole_punch_packet send_ok ports ips start max =
    Done (seqZ start (ports_for max (len ips)) ≫= (fun i => destinations ips (port_at ports i)),
          Ok ((start + ports_for max (len ips)) mod len ports)).
Proof.
  intros Hok Hp Hi Hs Hm Hw. unfold send_symmetric_hole_punch_packet.
  rewrite spray_spec by (try done; lia). by rewrite Z.sub_0_r.
Qed.

(** ** Unpredictable NATs: the whole range is swept *)

Lemma find_listener_again now now' m ls l ls1 : find_listener now m ls = (Some l, ls1) ->
  exists ls2, find_listener now' m ls1 = (Some l, ls2).
Proof.
  unfold find_listener. destruct (update_first _ (select_at now) ls) as [[x l0]|] eqn:E; [|done]. intros [= <- <-].
  set (f := fun l => bool_decide (hl_mapped_addr l = m) && hl_running l) in *.
  assert (Hgo : exists l2, update_first f (select_at now') l0 = Some (select_at now x, l2)).
  { revert l0 E. induction ls as [|y ls IH]; intros l0 E; [done|]. simpl in E. destruct (f y) eqn:Ef.
    - injection E as <- <-. simpl. replace (f (select_at now y)) with true by (by rewrite <- Ef). eauto.
    - destruct (update_first f (select_at now) ls) as [[z l3]|] eqn:E0; [|done]. injection E as -> <-. simpl. rewrite Ef.
      destruct (IH _ eq_refl) as [l2 ->]. eauto. }
  destruct Hgo as [l2 ->]. eauto.
Qed.

Lemma find_listener_now now now' m ls l ls1 : find_listener now m ls = (Some l, ls1) ->
  exists ls2, find_listener now' m ls = (Some l, ls2).
Proof.
  unfold find_listener. set (f := fun l => bool_decide (hl_mapped_addr l = m) && hl_running l).
  assert (Hsame : fst <$> update_first f (select_at now) ls = fst <$> update_first f (select_at now') ls).
  { induction ls as [|y ls IHl]; [done|]. simpl. destruct (f y); [done|].
    destruct (update_first f (select_at now) ls) as [[]|], (update_first f (select_at now') ls) as [[]|]; simpl in *; congruence. }
  destruct (update_first f (select_at now) ls) as [[x l0]|]; [|done]. intros [= <- <-].
  destruct (update_first f (select_at now') ls) as [[x' l0']|]; [|done]. simpl in Hsame. injection Hsame as ->. eauto.
Qed.

(** The rounds of a client, each with the index that the last one returned. *)
Fixpoint hard_sweep (send_ok : SocketAddr -> bool) (ports ips : list Z) (remote : ProtoAddr) (tid : Z) (rs : list (Z * Z * Z)) (idx : Z) (ls : list UdpHolePunchListener)
    : outcome (result punch_error (list SocketAddr)) :=
  match rs with
  | [] => Done (Ok [])
  | (now, rnd, round) :: rs =>
      '(r, ls) ← send_punch_packet_hard_sym send_ok now rnd ports (random_request remote ips tid round (as_u32 idx)) ls;
      match r with
      | Err e => Done (Err e)
      | Ok (dsts, next) => more ← hard_sweep send_ok ports ips remote tid rs next ls;
                           Done (match more with Ok l => Ok (dsts ++ l) | Err e => Err e end)
      end
  end.

Lemma hard_sym_packets_bounds rnd round : 600 <= rnd < 800 -> 0 <= round -> 180 <= hard_sym_packets rnd round < 800.
Proof.
  intros Hr Hn. unfold hard_sym_packets. destruct (Z.ltb_spec 2 (Z.max round 1)); [|lia].
  rewrite (wrap_small 32) by (unfold in_width; lia).
  assert (rnd * 2 / Z.max round 1 < 800) by (apply Z.div_lt_upper_bound; nia). lia.
Qed.

(** One round: a stretch of ports from the index on. *)
Lemma hard_sym_round send_ok now rnd round ports ips remote tid idx ls l ls1 : sends_all send_ok ports ips ->
  0 < len ports < 2 ^ 32 -> ips <> [] -> 600 <= rnd < 800 -> 0 <= round -> in_width 32 idx ->
  find_listener now (addr_of_proto remote) ls = (Some l, ls1) ->
  let n := ports_for (hard_sym_packets rnd round) (len ips) in
  exists dsts, send_punch_packet_hard_sym send_ok now rnd ports (random_request remote ips tid round (as_u32 idx)) ls =
      Done (Ok (dsts, (idx + n) mod len ports), ls1) /\
    180 <= len ips * n /\
    forall i ip, idx <= i < idx + n -> ip ∈ ips -> (V4 ip, port_at ports i) ∈ dsts.
Proof.
  intros Hok Hp Hi Hr Hn Hx Hf. pose proof (hard_sym_packets_bounds rnd round Hr Hn) as Hk.
  assert (0 < len ips) as Hips by (destruct ips; [done|unfold len; simpl; lia]).
  unfold send_punch_packet_hard_sym. cbn [random_request hr_listener_mapped_addr hr_public_ips hr_round port_index].
  rewrite Hf, (wrap_small 32 idx) by done. destruct ips as [|ip0 ips0] eqn:Eips; [done|]. rewrite <- Eips in *. clear Eips.
  rewrite send_symmetric_spec; [|done|unfold in_width, USIZE in *; lia..]. cbn [mbind outcome_bind].
  pose proof (Z.mod_pos_bound (idx + ports_for (hard_sym_packets rnd round) (len ips)) (len ports) ltac:(lia)).
  rewrite (wrap_small 32) by (unfold in_width; lia). eexists. split; [done|].
  destruct (ports_for_le (hard_sym_packets rnd round) (len ips) Hips ltac:(lia)) as [Hle _].
  set (n := ports_for _ _) in *. split; [lia|].
  intros i ip Hi' Hip. apply elem_of_app. left. apply list_elem_of_bind. exists i. split; [|apply elem_of_seqZ; lia].
  apply elem_of_destinations. eauto.
Qed.

(** The rounds together cover a stretch that starts at the first index. *)
Lemma hard_sweep_stretch send_ok ports ips remote tid rs idx ls l ls1 now0 : sends_all send_ok ports ips ->
  0 < len ports < 2 ^ 32 -> ips <> [] -> in_width 32 idx ->
  Forall (fun '(_, rnd, round) => 600 <= rnd < 800 /\ 0 <= round) rs ->
  find_listener now0 (addr_of_proto remote) ls = (Some l, ls1) ->
  exists dsts total, hard_sweep send_ok ports ips remote tid rs idx ls = Done (Ok dsts) /\
    180 * len rs <= len ips * total /\ 0 <= total /\
    forall i ip, idx <= i < idx + total -> ip ∈ ips -> (V4 ip, port_at ports i) ∈ dsts.
Proof.
  intros Hok Hp Hi. revert idx ls ls1 now0; induction rs as [|[[now rnd] round] rs IH]; intros idx ls ls1 now0 Hx Hrs Hf.
  { exists [], 0. split_and!; [done|unfold len; simpl; lia|lia|]. intros; lia. }
  apply Forall_cons in Hrs as [[Hr Hn] Hrs].
  destruct (find_listener_now now0 now _ _ _ _ Hf) as [ls2 Hf2].
  destruct (hard_sym_round send_ok now rnd round ports ips remote tid idx ls l ls2 Hok Hp Hi Hr Hn Hx Hf2) as (d1 & E1 & Hk & Hc1).
  set (n := ports_for (hard_sym_packets rnd round) (len ips)) in *. cbn [hard_sweep]. rewrite E1. cbn [mbind outcome_bind].
  destruct (find_listener_again now now (addr_of_proto remote) ls l ls2 Hf2) as [ls3 Hf3].
  pose proof (Z.mod_pos_bound (idx + n) (len ports) ltac:(lia)) as Hmod.
  destruct (IH ((idx + n) mod len ports) ls2 ls3 now ltac:(unfold in_width; lia) Hrs Hf3) as (d2 & total & E2 & Hk2 & Ht & Hc2).
  rewrite E2. cbn [mbind outcome_bind]. assert (0 <= n) by (unfold n, ports_for; lia).
  exists (d1 ++ d2), (n + total). split_and!; [done|unfold len in *; simpl; lia|lia|].
  intros i ip Hi' Hip. apply elem_of_app. destruct (decide (i < idx + n)) as [|Hge]; [left; apply Hc1; [lia|done]|right].
  replace (port_at ports i) with (port_at ports ((idx + n) mod len ports + (i - (idx + n)))); [apply Hc2; [lia|done]|].
  unfold port_at. do 2 f_equal. rewrite Zplus_mod_idemp_l. f_equal. lia.
Qed.

(** C26.  A client behind an unpredictable NAT that asks the other side again and
    again, each time with the index the last answer returned, has packets sent to
    every port of every public address it has, after at most one request per 180
    pairs of them: no port is left out, whatever random numbers of packets are
    drawn and however far the sequence of ports has wrapped around.  The system of the other side sends
    what it is asked to send; a packet that it refuses ends the request with an error. *)
Theorem hard_sym_covers_all send_ok ports ips remote tid rs idx ls l ls1 now0 : sends_all send_ok ports ips ->
  0 < len ports < 2 ^ 32 -> ips <> [] -> in_width 32 idx ->
  Forall (fun '(_, rnd, round) => 600 <= rnd < 800 /\ 0 <= round) rs ->
  find_listener now0 (addr_of_proto remote) ls = (Some l, ls1) ->
  len ips * len ports <= 180 * len rs ->
  exists dsts, hard_sweep send_ok ports ips remote tid rs idx ls = Done (Ok dsts) /\
    forall port ip, port ∈ ports -> ip ∈ ips -> (V4 ip, port) ∈ dsts.
Proof.
  intros Hok Hp Hi Hx Hrs Hf Hlen. destruct (hard_sweep_stretch send_ok ports ips remote tid rs idx ls l ls1 now0 Hok Hp Hi Hx Hrs Hf) as (dsts & total & E & Hk & Ht & Hc).
  exists dsts. split; [done|]. intros port ip [k Hk']%list_elem_of_lookup Hip.
  assert (Hkl : Z.of_nat k < len ports) by (apply lookup_lt_Some in Hk'; unfold len; lia).
  assert (0 < len ips) by (destruct ips; [done|unfold len; simpl; lia]).
  assert (len ports <= total) by nia.
  set (i := idx + (Z.of_nat k - idx) mod len ports).
  pose proof (Z.mod_pos_bound (Z.of_nat k - idx) (len ports) ltac:(lia)).
  assert (Ei : i mod len ports = Z.of_nat k).
  { unfold i. rewrite Zplus_mod_idemp_r. replace (idx + (Z.of_nat k - idx)) with (Z.of_nat k) by lia. apply Z.mod_small. lia. }
  replace port with (port_at ports i); [apply Hc; [unfold i; lia|done]|].
  unfold port_at. rewrite Ei, Nat2Z.id. by apply list_lookup_total_correct.
Qed.

(** ** Predictable NATs *)

(** With one public address, every predicted port is sent to. *)
Lemma easy_sym_covered send_ok now request ls l ls1 ip remote port :
  er_listener_mapped_addr request = Some remote -> find_listener now (addr_of_proto remote) ls = (Some l, ls1) ->
  er_public_ips request = [ip] -> is_incremental request = true -> 0 <= base_port_num request ->
  2 <= max_port_num request -> base_port_num request + max_port_num request <= 65535 ->
  base_port_num request < port <= base_port_num request + max_port_num request ->
  (forall a, send_ok a = true) ->
  exists dsts, send_punch_packet_easy_sym send_ok now request ls = Done (Ok dsts, ls1) /\ (V4 ip, port) ∈ dsts.
Proof.
  intros Hl Hf Hips Hinc Hb Hm Hmax Hport Hok. unfold send_punch_packet_easy_sym. rewrite Hl, Hf, Hips. unfold easy_sym_ports. rewrite Hinc.
  set (b := base_port_num request) in *. set (m := max_port_num request) in *. unfold sat_add32, U32_MAX.
  rewrite (Z.max_l m), !Z.min_l by lia. destruct (Z.leb_spec (b + m) (b + 1)); [lia|].
  assert (Hlen : len (port_range (b + 1) (b + m)) = m).
  { unfold port_range, len. rewrite length_fmap, length_seqZ. lia. }
  assert (Hlen1 : len [ip] = 1) by done.
  rewrite send_symmetric_spec; [|by intros ????; apply Hok|rewrite ?Hlen; unfold USIZE; lia..]. cbn [mbind outcome_bind]. eexists. split; [done|].
  apply elem_of_app. left. rewrite Hlen, Hlen1. apply list_elem_of_bind. exists (port - b - 1). split.
  - apply elem_of_destinations. exists ip. split; [set_solver|]. f_equal. unfold port_at. rewrite Hlen, Z.mod_small by lia.
    symmetry. apply list_lookup_total_correct. unfold port_range. rewrite list_lookup_fmap, lookup_seqZ_lt by lia. simpl. f_equal.
    rewrite (wrap_small 16) by (unfold in_width; lia). lia.
  - apply elem_of_seqZ. unfold ports_for. rewrite Z.div_1_r. lia.
Qed.

(** Selecting a listener ends. *)
Lemma select_listener_ends now use_new created ls : exists r, select_listener 2 now use_new created ls = Done r.
Proof.
  cbn [select_listener]. split_cases; by eexists.
Qed.

(** ** Examples *)

Definition ex_listener (running : bool) (addr : SocketAddr) (active : Z) : UdpHolePunchListener := {|
  hl_socket := (V4 0, 500 + active); hl_running := running; hl_mapped_addr := addr; hl_conn_count := 0;
  last_select_time := 0; last_active_time := active |}.

Definition ex_easy_request (ips : list Z) (base max : Z) (inc : bool) : SendPunchPacketEasySymRequest := {|
  er_listener_mapped_addr := Some (proto_of_addr (V4 9, 4000)); er_public_ips := ips; er_transaction_id := 1;
  base_port_num := base; max_port_num := max; is_incremental := inc |}.

Definition sends_to (request : SendPunchPacketEasySymRequest) (a : SocketAddr) : option bool :=
  match send_punch_packet_easy_sym (fun _ => true) 0 request [ex_listener true (V4 9, 4000) 0] with
  | Done (Ok dsts, _) => Some (bool_decide (a ∈ dsts))
  | _ => None
  end.

(** The number of packets is that of the ports, for all addresses together: with
    two addresses only the first half of the predicted ports is tried. *)
Example second_half_not_tried :
  sends_to (ex_easy_request [7] 1000 50 true) (V4 7, 1050) = Some true /\
  sends_to (ex_easy_request [7; 8] 1000 50 true) (V4 7, 1025) = Some true /\
  sends_to (ex_easy_request [7; 8] 1000 50 true) (V4 7, 1026) = Some false.
Proof. vm_compute. done. Qed.

(** The first packet that cannot be sent ends the request. *)
Example refused_send_ends : exists ls,
  send_punch_packet_easy_sym (fun a => negb (a.2 =? 1003)) 0 (ex_easy_request [7] 1000 50 true) [ex_listener true (V4 9, 4000) 0] = Done (Err SendFailed, ls).
Proof. eexists. vm_compute. reflexivity. Qed.

(** Ports past the last one wrap around, to port 0 and on; a single port is refused. *)
Example predicted_ports_wrap : sends_to (ex_easy_request [7] 65530 50 true) (V4 7, 0) = Some true.
Proof. vm_compute. done. Qed.
Example single_port_refused : sends_to (ex_easy_request [7] 1000 1 true) (V4 7, 1001) = None.
Proof. vm_compute. done. Qed.

(** Near the last port the two sides predict differently: one stops at it, the
    other wraps around. *)
Example predictions_differ :
  my_predicted_port true 65530 = 65535 /\
  addr_of_proto (remote_predicted_addr true (proto_of_addr (V4 7, 65530))) = (V4 7, 14).
Proof. done. Qed.

(** A listener that has stopped can still be selected, and is then not found. *)
Example stopped_listener_selected :
  let ls := replicate 15 (ex_listener true (V4 9, 4000) 1) ++ [ex_listener false (V4 9, 4001) 2] in
  exists ls', select_listener 2 5 false [] ls = Done (Some ((V4 0, 502), (V4 9, 4001)), ls') /\
    (find_listener 6 (V4 9, 4001) ls').1 = None.
Proof. eexists. split; [vm_compute; reflexivity|done]. Qed.

#[local] Instance nothing_listed : TimedMap Z () := {|
  tm_new := (); tm_insert := fun _ _ _ m => m; tm_contains := fun _ _ _ => false; tm_cleanup := fun _ m => m |}.

Definition ex_body : bytes := replicate 16 0.
Definition ex_packet : bytes := match new_hole_punch_packet 5 ex_body with Done p => into_bytes p | Panicked _ => [] end.

(** The first round hears noise, the second the packet. *)
Definition ex_cone : cone_env := {|
  ce_now := 0; ce_tid := 5; ce_random := ex_body; ce_local := Some (V4 0, 3000); ce_mapping := Some (V4 7, 3000); ce_rebound := true;
  ce_listener := Ok (Some (proto_of_addr (V4 9, 4000))); ce_sent := true;
  ce_rounds := [ {| wr_now := 0; wr_sent := true; wr_finished := None; wr_arrivals := [((V4 0, 3000), [1; 2], (V4 8, 1))]; wr_connect := [] |};
                 {| wr_now := 1; wr_sent := true; wr_finished := None; wr_arrivals := [((V4 0, 3000), ex_packet, (V4 9, 4000))]; wr_connect := [true] |} ] |}.

Lemma cone_punch_connects_witness : exists more, cone_do_hole_punching ex_cone 2 () =
  Done (Ok (Some {| pt_socket := (V4 0, 3000); pt_remote := (V4 9, 4000) |}), more,
        Some (cone_request (proto_of_addr (V4 9, 4000)) (V4 7, 3000) 5), ()).
Proof.
  destruct (cone_punch_connects AddressAndPortDependent AddressAndPortDependent (V4 7, 3000) (V4 9, 4000) ex_cone 2 () 0 ex_body
    [ex_listener true (V4 9, 4000) 0] [ex_listener true (V4 9, 4000) 0] (V4 0, 3000) (V4 0, 500)) as (sends & p1 & Es & Ep & Hgo);
    try done; try (unfold in_width; simpl; lia).
  destruct Hgo as [more E]; [|exists (send3 (V4 0, 3000) (V4 9, 4000) (into_bytes p1) ++ more); exact E].
  vm_compute in Es. injection Es as <-. constructor.
  eexists [_], _, []. split; [reflexivity|]. split_and!.
  - constructor; [|constructor]. split_and!; [|done|done]. constructor; [|constructor]. vm_compute. reflexivity.
  - intros _. eexists [], _, []. split_and!; [left|reflexivity|constructor].
  - intros _. reflexivity.
Defined.

Lemma hard_sym_covers_all_witness : exists dsts,
  hard_sweep (fun _ => true) [10; 20; 30] [7] (proto_of_addr (V4 9, 4000)) 1 [(0, 600, 0)] 2 [ex_listener true (V4 9, 4000) 0] = Done (Ok dsts) /\
  forall port ip, port ∈ [10; 20; 30] -> ip ∈ [7] -> (V4 ip, port) ∈ dsts.
Proof.
  apply (hard_sym_covers_all (fun _ => true) [10; 20; 30] [7] (proto_of_addr (V4 9, 4000)) 1 [(0, 600, 0)] 2 [ex_listener true (V4 9, 4000) 0]
    (V4 0, 500) [ex_listener true (V4 9, 4000) 0] 0).
  - intros ip port _ _. reflexivity.
  - unfold len; simpl; lia.
  - discriminate.
  - unfold in_width; lia.
  - constructor; [lia|constructor].
  - reflexivity.
  - unfold len; simpl; lia.
Defined.
