(* ===== verification/ManualConnector.v ===== *)
(** * Configured peers

    [connector/manual.rs]: the peers a user has configured by URL.  Whenever there
    is no connection to one of them, a task tries to make one; while it does, the
    URL is in another set.  Removals are noted and carried out later.  Which URLs
    are connected is learnt from the events of the peer manager.

    [UrlLib] is the url crate: parsing gives the canonical text.  The sets are those
    of the code; the tasks are the URLs being reconnected.  Rounds of the routine
    and ends of tasks are split at every change of a set, where other threads can
    come in between; adding, removing, listing and collecting the dead URLs are one
    step each. *)

From stdpp Require Import base numbers list gmap strings.
From S2P Require Import Prelude Text.
Open Scope Z_scope.

Class UrlLib := { url_parse : text -> option text }.
Class UrlLaws `{UrlLib} := { url_canonical t u : url_parse t = Some u -> url_parse u = Some u }.

(** [md_pending] are the dead URLs a round has still to hand to a task,
    [md_taken] the one it has taken out of the first set and not yet put into the
    second, [md_back] those that ended tasks have taken out of the second and not
    yet put back into the first. *)
Record ConnectorManagerData := mkMD {
  connectors : gset text; reconnecting : gset text; alive_conn_urls : gset text; removed_conn_urls : gset text;
  md_pending : list text; md_taken : option text; md_back : gset text
}.

Inductive ConnectorStatus := Connected | Disconnected | Connecting.

Section manager.
Context `{UrlLib}.
Implicit Types s : ConnectorManagerData.

Definition manager_new : ConnectorManagerData := mkMD ∅ ∅ ∅ ∅ [] None ∅.

Definition with_sets (conns recon removed : gset text) s : ConnectorManagerData :=
  mkMD conns recon (alive_conn_urls s) removed (md_pending s) (md_taken s) (md_back s).

Definition add_connector_by_url (url : text) s : ConnectorManagerData :=
  with_sets ({[url]} ∪ connectors s) (reconnecting s) (removed_conn_urls s) s.

(** A URL that is being reconnected is removed later. *)
Definition handle_remove_connector s : ConnectorManagerData :=
  with_sets (connectors s ∖ removed_conn_urls s) (reconnecting s)
    (base.filter (fun u => u ∉ connectors s /\ u ∈ reconnecting s) (removed_conn_urls s)) s.

Definition collect_dead_conns s : gset text * ConnectorManagerData :=
  let s := handle_remove_connector s in
  (connectors s ∖ alive_conn_urls s, s).

(** The order is that of the sorted sets, reversed; [unwrap] on URLs that do not
    parse. *)
Fixpoint parse_all (l : list (text * ConnectorStatus)) : outcome (list (text * ConnectorStatus)) :=
  match l with
  | [] => Done []
  | (u, st) :: l => u ← unwrap (url_parse u); more ← parse_all l; Done ((u, st) :: more)
  end.

Definition sorted_urls (x : gset text) : list text := stable_sort text_le (elements x).

Definition list_connectors s : outcome (list (text * ConnectorStatus) * ConnectorManagerData) :=
  let conn_urls := connectors s in
  let '(dead_urls, s) := collect_dead_conns s in
  l ← parse_all ((fun u => (u, Connecting)) <$> reverse (sorted_urls (reconnecting s)));
  l' ← parse_all ((fun u => (u, if bool_decide (u ∈ dead_urls) then Disconnected else Connected)) <$> reverse (sorted_urls conn_urls));
  Done (l ++ l', s).

Definition note_removed (urls : gset text) s : ConnectorManagerData :=
  with_sets (connectors s) (reconnecting s) (urls ∪ removed_conn_urls s) s.

Definition remove_connector (url : text) s : outcome (result () () * ConnectorManagerData) :=
  '(l, s) ← list_connectors s;
  if bool_decide (url ∈ l.*1) then Done (Ok (), note_removed {[url]} s) else Done (Err (), s).

Definition clear_connectors s : outcome ConnectorManagerData :=
  '(l, s) ← list_connectors s;
  Done (note_removed (list_to_set l.*1) s).

(** ** Events *)

(** A connection of the peer manager: whether this node made it, and to where. *)
Record ConnInfo := { ci_is_client : bool; ci_remote_addr : option text }.

Inductive conn_event := PeerConnAdded (c : ConnInfo) | PeerConnRemoved (c : ConnInfo) | OtherEvent.

Definition with_alive (x : gset text) s : ConnectorManagerData :=
  mkMD (connectors s) (reconnecting s) x (removed_conn_urls s) (md_pending s) (md_taken s) (md_back s).

Definition handle_event (event : conn_event) s : outcome ConnectorManagerData :=
  match event with
  | PeerConnAdded c =>
      if ci_is_client c then addr ← unwrap (ci_remote_addr c); Done (with_alive ({[addr]} ∪ alive_conn_urls s) s) else Done s
  | PeerConnRemoved c =>
      if ci_is_client c then addr ← unwrap (ci_remote_addr c); Done (with_alive (alive_conn_urls s ∖ {[addr]}) s) else Done s
  | OtherEvent => Done s
  end.

(** When events were lost, the set is rebuilt from all connections there are. *)
Definition handle_lagged (conns : list ConnInfo) s : ConnectorManagerData :=
  with_alive (list_to_set ((fun c => default [] (ci_remote_addr c)) <$> conns)) s.

(** ** Reconnecting *)

(** A round of [conn_mgr_reconn_routine] collects the dead URLs, and moves each
    of them from one set to the other when it starts a task for it. *)
Definition tick_collect s : ConnectorManagerData :=
  let '(dead_urls, s) := collect_dead_conns s in
  mkMD (connectors s) (reconnecting s) (alive_conn_urls s) (removed_conn_urls s) (sorted_urls dead_urls) (md_taken s) (md_back s).

Definition tick_take s : outcome ConnectorManagerData :=
  match md_pending s with
  | [] => Done s
  | dead_url :: l =>
      if bool_decide (dead_url ∈ connectors s) then
        Done (mkMD (connectors s ∖ {[dead_url]}) (reconnecting s) (alive_conn_urls s) (removed_conn_urls s) l (Some dead_url) (md_back s))
      else Panicked UnwrapOnNone
  end.

Definition tick_insert s : outcome ConnectorManagerData :=
  match md_taken s with
  | None => Done s
  | Some dead_url =>
      if bool_decide (dead_url ∉ reconnecting s) then
        Done (mkMD (connectors s) ({[dead_url]} ∪ reconnecting s) (alive_conn_urls s) (removed_conn_urls s) (md_pending s) None (md_back s))
      else Panicked AssertionFailed
  end.

(** The rest of a round that nothing interrupts, with [n] URLs to hand out. *)
Fixpoint tick_rest (n : nat) s : outcome ConnectorManagerData :=
  match n with O => Done s | S n => s ← tick_take s; s ← tick_insert s; tick_rest n s end.

Definition reconn_tick s : outcome ConnectorManagerData :=
  let s := tick_collect s in tick_rest (length (md_pending s)) s.

(** The end of a task, whatever its result. *)
Definition reconn_done (dead_url : text) s : outcome ConnectorManagerData :=
  if bool_decide (dead_url ∈ reconnecting s) then
    Done (mkMD (connectors s) (reconnecting s ∖ {[dead_url]}) (alive_conn_urls s) (removed_conn_urls s) (md_pending s) (md_taken s)
            ({[dead_url]} ∪ md_back s))
  else Panicked UnwrapOnNone.

Definition reconn_back (dead_url : text) s : ConnectorManagerData :=
  mkMD ({[dead_url]} ∪ connectors s) (reconnecting s) (alive_conn_urls s) (removed_conn_urls s) (md_pending s) (md_taken s)
    (md_back s ∖ {[dead_url]}).

(** ** One task: which IP versions are tried, and what the result is *)

Inductive IpVersion := VersionV4 | VersionV6 | VersionBoth.

Fixpoint ip_versions_of (has_ipv4 has_ipv6 : bool) (vs : list IpVersion) (addrs : list SocketAddr) : list IpVersion :=
  match addrs with
  | [] => vs
  | a :: addrs =>
      match a.1 with
      | V4 _ => ip_versions_of true has_ipv6 (if has_ipv4 then vs else VersionV4 :: vs) addrs
      | V6 _ => ip_versions_of has_ipv4 true (if has_ipv6 then vs else vs ++ [VersionV6]) addrs
      end
  end.

Inductive reconn_error := UrlParse | ResolveFailed | NoIp | ConnectFailed | ReconnTimeout.

(** [attempt] is what connecting with an IP version gives; events are counted. *)
Fixpoint try_versions (attempt : IpVersion -> result reconn_error ()) (vs : list IpVersion) (last : result reconn_error ())
    : result reconn_error () * nat :=
  match vs with
  | [] => (last, 0%nat)
  | v :: vs =>
      match attempt v with
      | Ok _ => (Ok (), 0%nat)
      | Err e => let '(r, n) := try_versions attempt vs (Err e) in (r, S n)
      end
  end.

Definition conn_reconnect (scheme : option text) (addrs : result () (list SocketAddr)) (attempt : IpVersion -> result reconn_error ())
    : result reconn_error () * nat :=
  match scheme with
  | None => (Err UrlParse, 0%nat)
  | Some sch =>
      if bool_decide (sch = txt "ring" \/ sch = txt "txt" \/ sch = txt "srv") then try_versions attempt [VersionBoth] (Err NoIp)
      else
        match addrs with
        | Err _ => (Err ResolveFailed, 1%nat)
        | Ok l => try_versions attempt (ip_versions_of false false [] l) (Err NoIp)
        end
  end.

(** ** What a user sees: the configured URLs *)

Inductive label := LAdd (u : text) | LRemove (u : text) | LClear | LList
| LCollect | LTake | LInsert | LDone (u : text) | LBack (u : text) | LEvent (e : conn_event) | LLagged (conns : list ConnInfo).

Definition manual_step (l : label) s : outcome ConnectorManagerData :=
  match l with
  | LAdd u => Done (add_connector_by_url u s)
  | LRemove u => '(_, s) ← remove_connector u s; Done s
  | LClear => clear_connectors s
  | LList => '(_, s) ← list_connectors s; Done s
  | LCollect => Done (tick_collect s)
  | LTake => tick_take s
  | LInsert => tick_insert s
  | LDone u => reconn_done u s
  | LBack u => Done (reconn_back u s)
  | LEvent e => handle_event e s
  | LLagged conns => Done (handle_lagged conns s)
  end.

Fixpoint manual_run (ls : list label) s : outcome ConnectorManagerData :=
  match ls with [] => Done s | l :: ls => s ← manual_step l s; manual_run ls s end.

(** The URLs that are on their way from one set to the other. *)
Definition moving s : gset text := match md_taken s with Some u => {[u]} | None => ∅ end ∪ md_back s.

(** The abstract state is a set of URLs. *)
Definition wanted s : gset text := (connectors s ∪ reconnecting s ∪ moving s) ∖ removed_conn_urls s.

Definition spec_step (l : label) (x : gset text) : gset text :=
  match l with LAdd u => {[u]} ∪ x | LRemove u => x ∖ {[u]} | LClear => ∅ | _ => x end.

(** No URL that is to be removed waits for its task or is moving. *)
Definition quiet s : Prop := removed_conn_urls s ## moving s /\ forall u, u ∈ md_pending s -> u ∉ removed_conn_urls s.

(** The routine is between two rounds. *)
Definition between_rounds s : Prop := md_pending s = [] /\ md_taken s = None.

(** URLs are added in canonical form, and not while they are being reconnected,
    removed or moving; a moving URL is not removed; pending removals are not
    carried out, which listing, removing and collecting do, while one of them
    waits for its task or is moving; the steps of the routine and of a task come
    in their order; events carry addresses. *)
Definition label_safe (l : label) s : Prop :=
  match l with
  | LAdd u => url_parse u = Some u /\ u ∉ reconnecting s /\ u ∉ removed_conn_urls s /\ u ∉ moving s
  | LRemove u => u ∉ moving s /\ quiet s
  | LClear => moving s = ∅ /\ quiet s
  | LList => quiet s
  | LCollect => between_rounds s /\ quiet s
  | LTake => md_taken s = None
  | LInsert => True
  | LDone u => u ∈ reconnecting s
  | LBack u => u ∈ md_back s
  | LEvent (PeerConnAdded c) | LEvent (PeerConnRemoved c) => ci_is_client c = true -> is_Some (ci_remote_addr c)
  | _ => True
  end.

Fixpoint run_safe (ls : list label) s : Prop :=
  match ls with
  | [] => True
  | l :: ls => label_safe l s /\ forall s', manual_step l s = Done s' -> run_safe ls s'
  end.

Record manager_ok s : Prop := {
  apart : connectors s ## reconnecting s;
  moving_apart u : u ∈ moving s -> u ∉ connectors s /\ u ∉ reconnecting s;
  taken_apart u : md_taken s = Some u -> u ∉ md_back s;
  pending_there : NoDup (md_pending s) /\ forall u, u ∈ md_pending s -> u ∈ connectors s;
  canonical u : u ∈ connectors s ∪ reconnecting s ∪ moving s -> url_parse u = Some u
}.

Lemma moving_elem s u : u ∈ moving s <-> md_taken s = Some u \/ u ∈ md_back s.
Proof. unfold moving. destruct (md_taken s) as [v|]; [|set_solver]. rewrite elem_of_union, elem_of_singleton. naive_solver. Qed.

Lemma wanted_elem s u : u ∈ wanted s <-> (u ∈ connectors s \/ u ∈ reconnecting s \/ u ∈ moving s) /\ u ∉ removed_conn_urls s.
Proof. unfold wanted. set_solver. Qed.

Lemma handle_remove_ok s : manager_ok s -> quiet s ->
  manager_ok (handle_remove_connector s) /\ wanted (handle_remove_connector s) = wanted s.
Proof.
  intros [Ha Hm Ht [Hn Hp] Hc] [Hq1 Hq2]. change (moving s) with (moving (handle_remove_connector s)) in *. split.
  - constructor; simpl.
    + set_solver.
    + intros u Hu. destruct (Hm u Hu). set_solver.
    + done.
    + split; [done|]. intros u Hu. apply elem_of_difference. split; [by apply Hp | by apply Hq2].
    + intros u Hu. apply Hc. set_solver.
  - apply set_eq. intros u. rewrite !wanted_elem. change (moving s) with (moving (handle_remove_connector s)).
    simpl. rewrite elem_of_filter, elem_of_difference.
    destruct (decide (u ∈ removed_conn_urls s)), (decide (u ∈ connectors s)); set_solver.
Qed.

Lemma parse_all_ok l : (forall u st, (u, st) ∈ l -> url_parse u = Some u) -> parse_all l = Done l.
Proof.
  induction l as [|[u st] l IH]; intros Hl; [done|]. simpl. rewrite (Hl u st) by set_solver. cbn [unwrap mbind outcome_bind].
  rewrite IH; [done|]. intros u' st' Hin. apply (Hl u' st'). set_solver.
Qed.

Lemma elem_of_sorted (x : gset text) u : u ∈ sorted_urls x <-> u ∈ x.
Proof. unfold sorted_urls. by rewrite stable_sort_perm, elem_of_elements. Qed.

Lemma list_connectors_ok s : manager_ok s ->
  exists l, list_connectors s = Done (l, handle_remove_connector s) /\
    forall u, u ∈ l.*1 <-> u ∈ connectors s \/ u ∈ reconnecting s.
Proof.
  intros [_ _ _ _ Hc]. unfold list_connectors, collect_dead_conns. rewrite !parse_all_ok; cbn [mbind outcome_bind].
  - eexists. split; [done|]. intros u. rewrite fmap_app, elem_of_app, <- !list_fmap_compose.
    assert (Hf : forall {B} (g : text -> B) l, fst ∘ (fun u => (u, g u)) <$> l = l) by (intros B g l; by apply list_fmap_id).
    rewrite !Hf, !elem_of_reverse, !elem_of_sorted. simpl. tauto.
  - intros u st (x & [= -> _] & Hx)%list_elem_of_fmap. rewrite elem_of_reverse, elem_of_sorted in Hx. apply Hc. set_solver.
  - intros u st (x & [= -> _] & Hx)%list_elem_of_fmap. rewrite elem_of_reverse, elem_of_sorted in Hx. apply Hc. set_solver.
Qed.

Lemma tick_take_ok s : manager_ok s -> md_taken s = None ->
  exists s', tick_take s = Done s' /\ manager_ok s' /\ wanted s' = wanted s /\
    (forall u l, md_pending s = u :: l -> md_taken s' = Some u /\ md_pending s' = l /\ connectors s' = connectors s ∖ {[u]}) /\
    reconnecting s' = reconnecting s /\ alive_conn_urls s' = alive_conn_urls s /\ removed_conn_urls s' = removed_conn_urls s /\ md_back s' = md_back s.
Proof.
  intros [Ha Hm Ht [Hn Hp] Hc] Hno. unfold tick_take. destruct (md_pending s) as [|u l] eqn:Ep.
  { exists s. split; [done|]. split_and!; try done. constructor; try done. by rewrite Ep. }
  apply NoDup_cons in Hn as [Hu Hn]. assert (u ∈ connectors s) as Hin by (apply Hp; set_solver). rewrite bool_decide_eq_true_2 by done.
  eexists. split; [done|]. assert (forall x, x ∈ moving s -> x ∈ md_back s) as Hmb by (intros x; rewrite moving_elem, Hno; naive_solver).
  assert (u ∉ md_back s) as Hub by (intros Hb; apply (proj1 (Hm u (proj2 (moving_elem s u) (or_intror Hb)))); done).
  split_and!; try done; [| |by intros ? ? [= <- <-]].
  - constructor; simpl.
    + set_solver.
    + intros x. rewrite moving_elem. simpl. intros [[= <-]|Hx]; [set_solver|].
      destruct (Hm x (proj2 (moving_elem s x) (or_intror Hx))). set_solver.
    + by intros x [= <-].
    + split; [done|]. intros x Hx. apply elem_of_difference. split; [apply Hp; set_solver | set_solver].
    + intros x. rewrite elem_of_union, moving_elem. simpl. intros [Hx|[[= <-]|Hx]]; apply Hc; [set_solver | set_solver |].
      apply elem_of_union_r, moving_elem. by right.
  - apply set_eq. intros x. rewrite !wanted_elem, !moving_elem, Hno. simpl. destruct (decide (x = u)) as [->|]; set_solver.
Qed.

Lemma tick_insert_ok s : manager_ok s ->
  exists s', tick_insert s = Done s' /\ manager_ok s' /\ wanted s' = wanted s /\ md_taken s' = None /\
    (forall u, md_taken s = Some u -> reconnecting s' = {[u]} ∪ reconnecting s) /\ (md_taken s = None -> reconnecting s' = reconnecting s) /\
    connectors s' = connectors s /\ md_pending s' = md_pending s /\
    alive_conn_urls s' = alive_conn_urls s /\ removed_conn_urls s' = removed_conn_urls s /\ md_back s' = md_back s.
Proof.
  intros [Ha Hm Ht Hp Hc]. unfold tick_insert. destruct (md_taken s) as [u|] eqn:Et.
  2:{ exists s. split; [done|]. split_and!; try done. constructor; try done. by rewrite Et. }
  destruct (Hm u) as [Hu1 Hu2]; [apply moving_elem; by left|]. rewrite bool_decide_eq_true_2 by done.
  eexists. split; [done|]. split_and!; try done; [| |by intros ? [= <-]].
  - constructor; simpl.
    + set_solver.
    + intros x. rewrite moving_elem. simpl. intros [?|Hx]; [done|]. destruct (Hm x (proj2 (moving_elem s x) (or_intror Hx))).
      specialize (Ht u eq_refl). set_solver.
    + done.
    + done.
    + intros x. rewrite elem_of_union, moving_elem. simpl. intros [Hx|[?|Hx]]; [|done|].
      * destruct (decide (x = u)) as [->|]; apply Hc; [apply elem_of_union_r, moving_elem; by left | set_solver].
      * apply Hc, elem_of_union_r, moving_elem. by right.
  - apply set_eq. intros x. rewrite !wanted_elem, !moving_elem, Et. simpl. rewrite elem_of_union, elem_of_singleton. naive_solver.
Qed.

(** A round hands every dead URL to a task. *)
Lemma tick_rest_ok n s : manager_ok s -> md_taken s = None -> length (md_pending s) = n ->
  exists s', tick_rest n s = Done s' /\ manager_ok s' /\ wanted s' = wanted s /\ between_rounds s' /\
    connectors s' = connectors s ∖ list_to_set (md_pending s) /\ reconnecting s' = list_to_set (md_pending s) ∪ reconnecting s /\
    alive_conn_urls s' = alive_conn_urls s /\ md_back s' = md_back s.
Proof.
  revert s; induction n as [|n IH]; intros s Hok Hno Hlen.
  { apply length_zero_iff_nil in Hlen. exists s. rewrite Hlen. split_and!; try done; set_solver. }
  destruct (md_pending s) as [|u l] eqn:Ep; [done|]. injection Hlen as Hlen. cbn [tick_rest].
  destruct (tick_take_ok s Hok Hno) as (s1 & -> & Hok1 & Hw1 & Ht1 & Er1 & Ea1 & _ & Eb1). destruct (Ht1 u l Ep) as (Htk & Hpd & Hcn). cbn [mbind outcome_bind].
  destruct (tick_insert_ok s1 Hok1) as (s2 & -> & Hok2 & Hw2 & Hno2 & Hin & _ & Ec2 & Ep2 & Ea2 & _ & Eb2). cbn [mbind outcome_bind].
  destruct (IH s2) as (s3 & -> & Hok3 & Hw3 & Hb & Ec3 & Er3 & Ea3 & Eb3); [done | done | by rewrite Ep2, Hpd|].
  exists s3. rewrite Ec3, Er3, Ep2, Hpd, Ec2, Hcn, (Hin u Htk), Er1. split_and!; try done; [congruence | set_solver | set_solver | congruence | congruence].
Qed.

Lemma tick_collect_ok s : manager_ok s -> between_rounds s -> quiet s ->
  manager_ok (tick_collect s) /\ wanted (tick_collect s) = wanted s /\ md_taken (tick_collect s) = None /\
  forall u, u ∈ connectors (tick_collect s) -> u ∈ alive_conn_urls (tick_collect s) \/ u ∈ md_pending (tick_collect s).
Proof.
  intros Hok [_ Hno] Hq. destruct (handle_remove_ok s Hok Hq) as ([Ha Hm Ht _ Hc] & Hw). unfold tick_collect, collect_dead_conns.
  set (s1 := handle_remove_connector s) in *. split_and!; [|exact Hw | done|].
  - constructor; try done. simpl. split; [unfold sorted_urls; rewrite stable_sort_perm; apply NoDup_elements|].
    intros u. rewrite elem_of_sorted. set_solver.
  - intros u Hu. simpl in *. rewrite elem_of_sorted. destruct (decide (u ∈ alive_conn_urls s1)); set_solver.
Qed.

Lemma reconn_tick_ok s : manager_ok s -> between_rounds s -> quiet s ->
  exists s', reconn_tick s = Done s' /\ wanted s' = wanted s /\ wanted s' ⊆ alive_conn_urls s' ∪ reconnecting s' ∪ md_back s'.
Proof.
  intros Hok Hb Hq. destruct (tick_collect_ok s Hok Hb Hq) as (Hok1 & Hw1 & Hno & Hdead). unfold reconn_tick.
  destruct (tick_rest_ok _ _ Hok1 Hno eq_refl) as (s' & -> & Hok' & Hw' & [_ Hno'] & Ec & Er & Ea & Eb). exists s'. split; [done|].
  split; [congruence|]. intros u. rewrite wanted_elem, moving_elem, Hno', Ec, Er, Ea. intros [[Hu|[Hu|[?|Hu]]] _]; [|set_solver | done | set_solver].
  apply elem_of_difference in Hu as [Hu Hn]. destruct (Hdead u Hu); set_solver.
Qed.

Lemma manual_step_ok l s : manager_ok s -> label_safe l s ->
  exists s', manual_step l s = Done s' /\ manager_ok s' /\ wanted s' = spec_step l (wanted s).
Proof.
  intros Hok Hs. assert (Hrem := handle_remove_ok s Hok). destruct (list_connectors_ok s Hok) as (lst & Elist & Hlst).
  destruct l as [u|u| | | | | |u|u|e|conns]; cbn [manual_step label_safe] in *.
  - destruct Hs as (Hp & Hr & Hm & Hmv). destruct Hok as [Ha Hma Ht [Hn Hpd] Hc]. eexists. split; [done|]. split.
    + constructor; simpl; [set_solver | | done | split; [done|]; set_solver|].
      * intros v Hv. destruct (Hma v Hv). change (v ∈ moving s) in Hv. set_solver.
      * intros v Hv. destruct (decide (v = u)) as [->|]; [done|]. apply Hc. change (moving (add_connector_by_url u s)) with (moving s) in Hv. set_solver.
    + apply set_eq. intros v. simpl. rewrite wanted_elem, elem_of_union, wanted_elem. change (moving (add_connector_by_url u s)) with (moving s). simpl. set_solver.
  - destruct Hs as [Hmv Hq]. destruct (Hrem Hq) as [Hok1 Hw]. unfold remove_connector. rewrite Elist. cbn [mbind outcome_bind].
    case_bool_decide as Hu; cbn [mbind outcome_bind]; (eexists; split; [done|]; split).
    + by destruct Hok1.
    + simpl. rewrite <- Hw. apply set_eq. intros v. rewrite elem_of_difference, !wanted_elem.
      change (moving (note_removed {[u]} (handle_remove_connector s))) with (moving (handle_remove_connector s)). simpl. set_solver.
    + done.
    + simpl. rewrite Hw. apply set_eq. intros v. rewrite elem_of_difference, wanted_elem. rewrite Hlst in Hu. set_solver.
  - destruct Hs as [Hmv Hq]. destruct (Hrem Hq) as [Hok1 Hw].
    unfold clear_connectors. rewrite Elist. cbn [mbind outcome_bind]. eexists. split; [done|]. split; [by destruct Hok1|].
    apply set_eq. intros v. rewrite wanted_elem. change (moving (note_removed (list_to_set lst.*1) (handle_remove_connector s))) with (moving s).
    rewrite Hmv. simpl. rewrite elem_of_union, elem_of_list_to_set, Hlst. set_solver.
  - destruct (Hrem Hs) as [Hok1 Hw]. rewrite Elist. cbn [mbind outcome_bind]. eexists. split; [done|]. by split.
  - destruct Hs as [Hb Hq]. destruct (tick_collect_ok s Hok Hb Hq) as (? & ? & _). eauto.
  - destruct (tick_take_ok s Hok Hs) as (s' & ? & ? & ? & _). eauto.
  - destruct (tick_insert_ok s Hok) as (s' & ? & ? & ? & _). eauto.
  - unfold reconn_done. rewrite bool_decide_eq_true_2 by done. destruct Hok as [Ha Hma Ht Hpd Hc]. eexists. split; [done|]. split.
    + constructor; simpl.
      * set_solver.
      * intros v. rewrite moving_elem. simpl. intros [Hv|Hv]; [destruct (Hma v (proj2 (moving_elem s v) (or_introl Hv))); set_solver|].
        destruct (decide (v = u)) as [->|]; [set_solver|]. assert (v ∈ md_back s) as Hb by set_solver.
        destruct (Hma v (proj2 (moving_elem s v) (or_intror Hb))). set_solver.
      * intros v Hv. specialize (Ht v Hv). destruct (Hma v (proj2 (moving_elem s v) (or_introl Hv))). set_solver.
      * done.
      * intros v. rewrite elem_of_union, moving_elem. simpl. intros Hv. apply Hc. rewrite elem_of_union, moving_elem.
        destruct (decide (v = u)); set_solver.
    + apply set_eq. intros v. simpl. rewrite !wanted_elem, !moving_elem. simpl. destruct (decide (v = u)); set_solver.
  - destruct Hok as [Ha Hma Ht [Hn Hpd] Hc]. destruct (Hma u (proj2 (moving_elem s u) (or_intror Hs))) as [Hu1 Hu2]. eexists. split; [done|]. split.
    + constructor; simpl.
      * set_solver.
      * intros v. rewrite moving_elem. simpl. intros [Hv|Hv].
        -- destruct (Hma v (proj2 (moving_elem s v) (or_introl Hv))). specialize (Ht v Hv). set_solver.
        -- assert (v ∈ md_back s) as Hb by set_solver. destruct (Hma v (proj2 (moving_elem s v) (or_intror Hb))). set_solver.
      * intros v Hv. specialize (Ht v Hv). set_solver.
      * split; [done|]. set_solver.
      * intros v. rewrite elem_of_union, moving_elem. simpl. intros Hv. apply Hc. rewrite elem_of_union, moving_elem.
        destruct (decide (v = u)); set_solver.
    + apply set_eq. intros v. simpl. rewrite !wanted_elem, !moving_elem. simpl. destruct (decide (v = u)); set_solver.
  - destruct e as [c|c|]; simpl in *; [| |eexists; (split; [done|]); by split];
      (destruct (ci_is_client c); [destruct (Hs eq_refl) as [a ->]; simpl|]); eexists; (split; [done|]); (split; [by destruct Hok|done]).
  - eexists. split; [done|]. split; [by destruct Hok|done].
Qed.

End manager.

(** ** Examples *)

#[local] Instance toy_urls : UrlLib := {| url_parse := fun t => Some t |}.

Definition ex_url : text := txt "tcp://1.2.3.4:11010".
Definition ex_conn : ConnInfo := {| ci_is_client := true; ci_remote_addr := Some ex_url |}.

(** A round with one dead URL, and the end of its task. *)
Definition one_round : list label := [LCollect; LTake; LInsert].
Definition task_ends (u : text) : list label := [LDone u; LBack u].

Definition ex_labels : list label :=
  [LAdd ex_url] ++ one_round ++ task_ends ex_url ++ [LEvent (PeerConnAdded ex_conn); LRemove ex_url].


(** A URL that is added again while it is being reconnected ends the routine: the
    next round finds it in both sets. *)
Example adding_again_panics :
  manual_run ([LAdd ex_url] ++ one_round ++ [LAdd ex_url] ++ one_round) manager_new = Panicked AssertionFailed.
Proof. vm_compute. reflexivity. Qed.

(** A URL that is removed and added again at once is gone. *)
Example readded_lost :
  match manual_run ([LAdd ex_url; LRemove ex_url; LAdd ex_url] ++ one_round) manager_new with
  | Done s => bool_decide (ex_url ∈ connectors s ∪ reconnecting s) = false
  | Panicked _ => False
  end.
Proof. vm_compute. reflexivity. Qed.

(** A removal that is carried out while a round hands out tasks ends the routine. *)
Example removal_during_round_panics :
  manual_run [LAdd ex_url; LCollect; LRemove ex_url; LList; LTake] manager_new = Panicked UnwrapOnNone.
Proof. vm_compute. reflexivity. Qed.

(** A URL that a thread is moving from one set to the other is in neither: its
    removal is refused, and one that was noted before is forgotten. *)
Example moving_not_removed :
  match manual_run [LAdd ex_url; LCollect; LTake] manager_new with
  | Done s => match remove_connector ex_url s with Done (Err _, s) => manual_run [LInsert; LDone ex_url; LBack ex_url] s | _ => Panicked ExplicitPanic end
  | Panicked _ => Panicked ExplicitPanic
  end = manual_run ([LAdd ex_url] ++ one_round ++ task_ends ex_url) manager_new.
Proof. vm_compute. reflexivity. Qed.

Example removal_forgotten :
  match manual_run ([LAdd ex_url] ++ one_round ++ [LRemove ex_url; LDone ex_url; LList; LBack ex_url; LList]) manager_new with
  | Done s => bool_decide (ex_url ∈ wanted s) = true
  | Panicked _ => False
  end.
Proof. vm_compute. reflexivity. Qed.

(** Of two connections to a URL, closing one makes it count as unconnected. *)
Example second_connection_forgotten :
  match manual_run [LAdd ex_url; LEvent (PeerConnAdded ex_conn); LEvent (PeerConnAdded ex_conn); LEvent (PeerConnRemoved ex_conn); LCollect; LTake; LInsert] manager_new with
  | Done s => bool_decide (ex_url ∈ reconnecting s) = true
  | Panicked _ => False
  end.
Proof. vm_compute. reflexivity. Qed.
