(* ===== verification/DirectConnect.v ===== *)
(** * Direct connections

    [connector/direct.rs]: a node asks a peer it has no direct connection to for its
    listeners and addresses and tries to connect to them, protocol by protocol, each
    address a few times with growing pauses.

    Tasks of one protocol run side by side; what the attempts end with, and whether
    a direct connection exists when it is looked for, are arguments.  [UrlOps] is the
    url crate with the resolver. *)

From stdpp Require Import base numbers list gmap strings sorting.
From S2P Require Import Prelude Text Stun RpcCall PeerTask HolePunch.
Open Scope Z_scope.

Inductive UrlHost := HostDomain (d : text) | HostV4 (a : Z) | HostV6 (a : Z).
#[global] Instance url_host_eq_dec : EqDecision UrlHost.
Proof. solve_decision. Defined.

Record Url := { u_scheme : text; u_host : option UrlHost; u_port : option Z; u_text : text }.
#[global] Instance url_eq_dec : EqDecision Url.
Proof. solve_decision. Defined.

Class UrlOps := {
  parse_url : text -> option Url;
  socket_addrs : Url -> result () (list SocketAddr);
  set_host : IpAddr -> Url -> option Url
}.

Definition DIRECT_CONNECTOR_BLACKLIST_TIMEOUT_SEC : Z := 300.

(** ** Peers *)

(** What is read of a route. *)
Record DirectRoute := { dr_peer_id : Z; dr_public_server : option bool }.

Definition direct_list_peers (allow_public_server : bool) (routes : list DirectRoute) : list Z :=
  dr_peer_id <$> List.filter (fun r => match dr_public_server r with Some p => allow_public_server || negb p | None => true end) routes.

Record DirectData (M : Type) := mkDirect {
  dd_my_peer_id : Z; dd_allow_public : bool; dd_routes : list DirectRoute; dd_has_direct : Z -> bool; dd_peer_black_list : M
}.
Arguments mkDirect {M}. Arguments dd_my_peer_id {M}. Arguments dd_allow_public {M}. Arguments dd_routes {M}.
Arguments dd_has_direct {M}. Arguments dd_peer_black_list {M}.

Section data.
Context {M : Type} `{TimedMap Z M}.

Definition direct_collect (now : Z) (d : DirectData M) : list Z * DirectData M :=
  let d := mkDirect (dd_my_peer_id d) (dd_allow_public d) (dd_routes d) (dd_has_direct d) (tm_cleanup now (dd_peer_black_list d)) in
  (List.filter (fun p => negb (p =? dd_my_peer_id d) && negb (dd_has_direct d p) && negb (tm_contains now p (dd_peer_black_list d)))
     (direct_list_peers (dd_allow_public d) (dd_routes d)), d).

(** A task is the peer it is for. *)
#[global] Instance direct_launcher : PeerTaskLauncher (DirectData M) Z Z := {|
  collects := fun d l => exists now, l = (direct_collect now d).1;
  launch_task := fun _ item => Done item;
  all_task_done := fun d => d;
  loop_interval_ms := 5000
|}.

(** ** One address *)

Inductive direct_error := InvalidUrl (t : text) | UrlInBlacklist | ConnectError | CloseError | NoValidListener | PeerBlacklisted | GetIpList (e : Error).

(** [conn] is the connection that was made; one to another peer is closed again. *)
Definition do_try_connect_to_ip (testing : bool) (dst_peer_id : Z) (addr : text) (conn : result direct_error (Z * Z)) (closed : result direct_error ())
    : result direct_error () * option (Z * Z) :=
  match conn with
  | Err e => (Err e, None)
  | Ok (peer_id, conn_id) =>
      if negb (peer_id =? dst_peer_id) && negb testing then
        (match closed with Ok _ => Err (InvalidUrl addr) | Err e => Err e end, Some (peer_id, conn_id))
      else (Ok (), None)
  end.

Definition DIRECT_BACKOFFS : list Z := [1000; 2000; 4000].

(** An attempt: whether there is a direct connection before and after it, what it
    ends with, and the random part of the pause after it. *)
Record attempt := { at_before : bool; at_ret : result direct_error (); at_after : bool; at_jitter : Z }.

(** The pauses, the result, and whether the address goes on the list of failures. *)
Fixpoint connect_loop (backoff_idx : nat) (ats : list attempt) : outcome (list Z * result direct_error () * bool) :=
  match ats with
  | [] => Panicked OutOfFuel
  | a :: ats =>
      if at_before a then Done ([], Ok (), false)
      else
        match at_ret a with
        | Ok _ => Done ([], Ok (), false)
        | Err e =>
            if at_after a then Done ([], Ok (), false)
            else
              match DIRECT_BACKOFFS !! backoff_idx with
              | Some ms =>
                  let delta := Z.shiftr ms 1 in
                  if (0 <? delta) && (delta <? ms) then
                    '(pauses, r, listed) ← connect_loop (S backoff_idx) ats;
                    Done (ms + at_jitter a :: pauses, r, listed)
                  else Panicked AssertionFailed
              | None => Done ([], Err e, true)
              end
        end
  end.

Context {L : Type} `{TimedMap (Z * text) L}.

Definition try_connect_to_ip (now : Z) (dst_peer_id : Z) (addr : text) (ats : list attempt) (later : Z) (listed : L)
    : outcome (result direct_error () * list Z * L) :=
  let listed := tm_cleanup now listed in
  if tm_contains now (dst_peer_id, addr) listed then Done (Err UrlInBlacklist, [], listed)
  else
    '(pauses, r, failed) ← connect_loop 0 ats;
    Done (r, pauses, if failed : bool then tm_insert later (dst_peer_id, addr) (DIRECT_CONNECTOR_BLACKLIST_TIMEOUT_SEC * SEC) listed else listed).
End data.

(** ** One peer *)

Record IpList := {
  interface_ipv4s : list Z; public_ipv4 : option Z; interface_ipv6s : list Z; list_public_ipv6 : option Z; il_listeners : list text
}.

Definition v6_prefix (bits value a : Z) : bool := a / 2 ^ (128 - bits) =? value.
Definition is_unique_local (a : Z) : bool := v6_prefix 7 126 a.
Definition is_unicast_link_local (a : Z) : bool := v6_prefix 10 1018 a.
Definition is_multicast6 (a : Z) : bool := v6_prefix 8 255 a.
Definition v6_usable (testing : bool) (a : Z) : bool :=
  testing || (negb (a =? 1) && negb (a =? 0) && negb (is_unique_local a) && negb (is_unicast_link_local a) && negb (is_multicast6 a)).

Section peer.
Context `{UrlOps}.

(** The addresses a listener stands for: of all interfaces if it is bound to all. *)
Definition spawn_direct_connect_task (testing : bool) (ip_list : IpList) (listener : Url) : list text :=
  match socket_addrs listener with
  | Err _ => []
  | Ok addrs =>
      match last addrs with
      | Some (V4 a, _) =>
          if a =? 0 then
            omap (fun ip => u_text <$> set_host (V4 ip) listener) (interface_ipv4s ip_list ++ option_list (public_ipv4 ip_list))
          else if negb (is_loopback (V4 a)) || testing then [u_text listener] else []
      | Some (V6 a, _) =>
          if a =? 0 then
            omap (fun ip => u_text <$> set_host (V6 ip) listener)
              (remove_dups (List.filter (v6_usable testing) (interface_ipv6s ip_list ++ option_list (list_public_ipv6 ip_list))))
          else if negb (is_loopback (V6 a)) || testing then [u_text listener] else []
      | None => []
      end
  end.

(** [Into<url::Url>] panics on a text that is no URL. *)
Fixpoint parse_listeners (l : list text) : outcome (list Url) :=
  match l with
  | [] => Done []
  | t :: l => u ← unwrap (parse_url t); more ← parse_listeners l; Done (u :: more)
  end.

Definition listener_ok (enable_ipv6 : bool) (l : Url) : bool :=
  negb (bool_decide (u_scheme l = txt "ring")) && bool_decide (is_Some (u_port l)) && bool_decide (is_Some (u_host l)) &&
  (enable_ipv6 || match u_host l with Some (HostV6 _) => false | _ => true end).

Definition priority (default_protocol : text) (l : Url) : Z :=
  if bool_decide (u_scheme l = default_protocol) then 3 else if bool_decide (u_scheme l = txt "udp") then 2 else 1.

(** The listeners of a protocol at the front of a list. *)
Fixpoint span_scheme (scheme : text) (l : list Url) : list Url * list Url :=
  match l with
  | [] => ([], [])
  | u :: l' => if bool_decide (u_scheme u = scheme) then let '(g, rest) := span_scheme scheme l' in (u :: g, rest) else ([], l)
  end.

Fixpoint group_schemes (fuel : nat) (l : list Url) : list (list Url) :=
  match fuel, l with
  | O, _ | _, [] => []
  | S fuel, u :: _ => let '(g, rest) := span_scheme (u_scheme u) l in g :: group_schemes fuel rest
  end.

(** The list is sorted and worked off from its end. *)
Definition listener_groups (default_protocol : text) (l : list Url) : list (list Url) :=
  let sorted := reverse (stable_sort (fun a b => priority default_protocol a <=? priority default_protocol b) l) in
  group_schemes (length sorted) sorted.

(** The groups that are tried: [connected] is whether there is a direct connection
    after a group. *)
Fixpoint try_groups (connected : list bool) (gs : list (list Url)) : list (list Url) :=
  match gs with
  | [] => []
  | g :: gs => g :: (if default false (head connected) then [] else try_groups (tail connected) gs)
  end.

Definition do_try_direct_connect_internal (enable_ipv6 : bool) (default_protocol : text) (ip_list : IpList) (connected : list bool)
    : outcome (result direct_error (list (list Url))) :=
  urls ← parse_listeners (il_listeners ip_list);
  match List.filter (listener_ok enable_ipv6) urls with
  | [] => Done (Err NoValidListener)
  | available => Done (Ok (try_groups connected (listener_groups default_protocol available)))
  end.
End peer.

(** The loop of a task: [rpc] is what asking for the addresses gives, [has_direct]
    whether there is a direct connection after the try. *)
Record direct_round := { rd_now : Z; rd_rpc : result Error (); rd_has_direct : bool }.

Section rounds.
Context {M : Type} `{TimedMap Z M}.

Definition DIRECT_ROUND_BACKOFFS : list Z := [1000; 2000; 2000; 5000; 5000; 10000; 30000; 60000].

Fixpoint do_try_direct_connect (attempt : nat) (backoff : BackOff) (dst : Z) (rounds : list direct_round) (bl : M)
    : outcome (result direct_error () * list Z * M) :=
  match rounds with
  | [] => Panicked OutOfFuel
  | r :: rounds =>
      if tm_contains (rd_now r) dst bl then Done (Err PeerBlacklisted, [], bl)
      else
        '(pauses, backoff) ← (match attempt with O => Done ([], backoff) | S _ => '(ms, b) ← next_backoff backoff; Done ([ms], b) end);
        let '(resp, bl) := handle_rpc_result (rd_now r) (rd_rpc r) dst bl in
        match resp with
        | Err e => Done (Err (GetIpList e), pauses, bl)
        | Ok _ =>
            if rd_has_direct r then Done (Ok (), pauses, bl)
            else '(res, more, bl) ← do_try_direct_connect (S attempt) backoff dst rounds bl; Done (res, pauses ++ more, bl)
        end
  end.
End rounds.

(** ** An address is tried at most four times *)

Definition succeeds (a : attempt) : bool := at_before a || match at_ret a with Ok _ => true | Err _ => at_after a end.

Lemma connect_loop_ends ats idx : (idx <= 3)%nat -> (4 <= idx + length ats)%nat ->
  exists pauses r listed, connect_loop idx ats = Done (pauses, r, listed) /\ (length pauses <= 3 - idx)%nat /\
    (r = Ok () <-> existsb succeeds (take (4 - idx) ats) = true) /\ (listed = true <-> r <> Ok ()).
Proof.
  revert idx; induction ats as [|a ats IH]; intros idx Hi Hlen; [simpl in Hlen; lia|]. cbn [connect_loop].
  replace (4 - idx)%nat with (S (3 - idx)) by lia. cbn [take existsb]. unfold succeeds at 1.
  destruct (at_before a). { eexists _, _, _. split; [done|]. simpl. split_and!; [lia|done|done]. }
  destruct (at_ret a) as [|e]. { eexists _, _, _. split; [done|]. simpl. split_and!; [lia|done|done]. }
  destruct (at_after a). { eexists _, _, _. split; [done|]. simpl. split_and!; [lia|done|done]. }
  simpl orb. destruct (decide (idx = 3)%nat) as [->|Hne].
  - eexists _, _, _. split; [done|]. simpl. done.
  - assert (exists ms, DIRECT_BACKOFFS !! idx = Some ms /\ (0 <? Z.shiftr ms 1) && (Z.shiftr ms 1 <? ms) = true) as (ms & -> & ->).
    { destruct idx as [|[|[|]]]; [by eexists..|lia]. }
    destruct (IH (S idx)) as (pauses & r & listed & -> & Hp & Hr & Hl); [lia|simpl in Hlen; lia|]. cbn [mbind outcome_bind].
    eexists _, _, _. split; [done|]. simpl. replace (3 - idx)%nat with (4 - S idx)%nat by lia. split_and!; [lia|done|done].
Qed.

(** ** Every listener is tried, the preferred protocol first *)

Lemma span_scheme_spec sch l g rest : span_scheme sch l = (g, rest) -> l = g ++ rest /\ Forall (fun u => u_scheme u = sch) g.
Proof.
  revert g rest; induction l as [|u l IH]; intros g rest E; simpl in E; [by simplify_eq|].
  case_bool_decide as Hu; [|by simplify_eq]. destruct (span_scheme sch l) as [g' rest'] eqn:E'. simplify_eq.
  destruct (IH _ _ eq_refl) as [-> Hg]. split; [done|by constructor].
Qed.

Lemma group_schemes_spec fuel l : (length l <= fuel)%nat ->
  concat (group_schemes fuel l) = l /\
  Forall (fun g => g <> [] /\ exists sch, Forall (fun u => u_scheme u = sch) g) (group_schemes fuel l).
Proof.
  revert l; induction fuel as [|fuel IH]; intros l Hf; [destruct l; simpl in *; [done|lia]|]. destruct l as [|u l]; [done|].
  cbn [group_schemes]. destruct (span_scheme (u_scheme u) (u :: l)) as [g rest] eqn:E.
  destruct (span_scheme_spec _ _ _ _ E) as [El Hg].
  assert (g <> []) as Hne. { simpl in E. rewrite bool_decide_eq_true_2 in E by done. destruct (span_scheme _ l). by simplify_eq. }
  assert (length rest <= fuel)%nat.
  { apply (f_equal length) in El. rewrite length_app in El. destruct g; [done|]. simpl in *. lia. }
  destruct (IH rest) as [Ec Hall]; [done|]. simpl. rewrite Ec, El. split; [done|]. constructor; [eauto|done].
Qed.

Lemma StronglySorted_app_inv {A} (R : A -> A -> Prop) l k : StronglySorted R (l ++ k) ->
  StronglySorted R k /\ forall x y, x ∈ l -> y ∈ k -> R x y.
Proof.
  induction l as [|x l IH]; simpl; intros Hs; [split; [done|set_solver]|]. apply StronglySorted_inv in Hs as [Hs Hx].
  destruct (IH Hs) as [Hk Hxy]. split; [done|]. intros y z [->|Hy]%elem_of_cons Hz; [|by apply Hxy].
  rewrite Forall_forall in Hx. apply Hx. set_solver.
Qed.

Lemma groups_sorted {A} (R : A -> A -> Prop) (gs : list (list A)) : StronglySorted R (concat gs) ->
  StronglySorted (fun g g' => forall x y, x ∈ g -> y ∈ g' -> R x y) gs.
Proof.
  induction gs as [|g gs IH]; simpl; intros Hs; [constructor|]. apply StronglySorted_app_inv in Hs as [Hs Hx].
  constructor; [by apply IH|]. apply Forall_forall. intros g' Hg' x y Hxg Hyg'. apply Hx; [done|].
  apply list_elem_of_In, in_concat. exists g'. rewrite <- !list_elem_of_In. done.
Qed.

Lemma StronglySorted_reverse {A} (R : A -> A -> Prop) (l : list A) : StronglySorted R l -> StronglySorted (fun x y => R y x) (reverse l).
Proof.
  induction 1 as [|x l Hs IH Hx]; [constructor|]. rewrite reverse_cons. clear Hs. rewrite Forall_forall in Hx.
  assert (Hx' : forall y, y ∈ reverse l -> R x y) by (intros y Hy; apply Hx; by rewrite elem_of_reverse in Hy).
  induction IH as [|y k Hk IHk Hy]; simpl; [by repeat constructor|]. constructor.
  - apply IHk. intros z Hz. apply Hx'. set_solver.
  - apply Forall_app. split; [done|]. constructor; [|done]. apply Hx'. set_solver.
Qed.


Lemma StronglySorted_impl {A} (R R' : A -> A -> Prop) l : (forall x y, R x y -> R' x y) -> StronglySorted R l -> StronglySorted R' l.
Proof. intros Himp. induction 1 as [|x l _ IH Hx]; constructor; [done|]. eapply Forall_impl; eauto. Qed.

(** The listeners of a peer that can be used are all tried, grouped by protocol:
    the groups together are exactly the usable listeners, a group has one protocol,
    no group is tried after one of lower priority (the node's default protocol comes
    first, then udp), and trying stops with the first group after which there is a
    direct connection and not before. *)
Theorem direct_listeners_tried `{UrlOps} enable_ipv6 default_protocol ip_list connected urls :
  parse_listeners (il_listeners ip_list) = Done urls -> List.filter (listener_ok enable_ipv6) urls <> [] ->
  exists gs tried, do_try_direct_connect_internal enable_ipv6 default_protocol ip_list connected = Done (Ok tried) /\
    concat gs ≡ₚ List.filter (listener_ok enable_ipv6) urls /\
    Forall (fun g => g <> [] /\ exists sch, Forall (fun u => u_scheme u = sch) g) gs /\
    StronglySorted (fun g g' => forall x y, x ∈ g -> y ∈ g' -> priority default_protocol y <= priority default_protocol x) gs /\
    (forall k, connected !! k = Some true -> (forall j, (j < k)%nat -> connected !! j = Some false) -> tried = take (S k) gs) /\
    ((forall k, (k < length gs)%nat -> connected !! k = Some false) -> tried = gs).
Proof.
  intros Ep Hne. unfold do_try_direct_connect_internal. rewrite Ep. cbn [mbind outcome_bind].
  set (av := List.filter (listener_ok enable_ipv6) urls) in *.
  set (le := fun a b => priority default_protocol a <=? priority default_protocol b).
  set (sorted := reverse (stable_sort le av)). destruct (group_schemes_spec (length sorted) sorted (Nat.le_refl _)) as [Ec Hg].
  exists (listener_groups default_protocol av), (try_groups connected (listener_groups default_protocol av)).
  change (listener_groups default_protocol av) with (group_schemes (length sorted) sorted). split_and!.
  - by destruct av.
  - rewrite Ec. unfold sorted. by rewrite reverse_Permutation, stable_sort_perm.
  - done.
  - apply groups_sorted. rewrite Ec. assert (Hs : StronglySorted (fun a b => le a b = true) (stable_sort le av)).
    { apply stable_sort_sorted; unfold le; intros *; lia. }
    apply StronglySorted_reverse in Hs. eapply StronglySorted_impl; [|exact Hs]. unfold le. simpl. intros x y Hxy. lia.
  - generalize (group_schemes (length sorted) sorted) as gs. clear. intros gs k. revert connected gs.
    induction k as [|k IH]; intros connected gs Hk Hj; destruct connected as [|c connected]; try done.
    + injection Hk as ->. by destruct gs.
    + pose proof (Hj 0%nat ltac:(lia)) as E. injection E as ->. destruct gs as [|g gs]; [done|]. simpl. f_equal.
      apply IH; [done|]. intros j Hjk. apply (Hj (S j)). lia.
  - generalize (group_schemes (length sorted) sorted) as gs. clear. intros gs. revert connected.
    induction gs as [|g gs IH]; intros connected Hk; [done|]. simpl. pose proof (Hk 0%nat ltac:(simpl; lia)) as E.
    destruct connected as [|c connected]; [done|]. injection E as ->. simpl. f_equal. apply IH. intros k Hlt. apply (Hk (S k)). simpl. lia.
Qed.

(** ** Examples *)

Definition ex_listener_url (sch : string) (port : Z) : Url :=
  {| u_scheme := txt sch; u_host := Some (HostV4 7); u_port := Some port; u_text := txt sch |}.

#[local] Instance toy_url_ops : UrlOps := {|
  parse_url := fun t => if bool_decide (t = []) then None
                        else Some {| u_scheme := t; u_host := Some (HostV4 7); u_port := Some 1; u_text := t |};
  socket_addrs := fun _ => Ok [(V4 7, 1)]; set_host := fun _ u => Some u |}.

Definition ex_ip_list (l : list text) : IpList :=
  {| interface_ipv4s := [7]; public_ipv4 := None; interface_ipv6s := []; list_public_ipv6 := None; il_listeners := l |}.

Lemma direct_listeners_tried_witness : exists gs tried : list (list Url),
  do_try_direct_connect_internal false (txt "tcp") (ex_ip_list [txt "ws"; txt "tcp"; txt "udp"]) [false; true] = Done (Ok tried) /\
  tried = take 2 gs /\ concat gs ≡ₚ [ex_listener_url "ws" 1; ex_listener_url "tcp" 1; ex_listener_url "udp" 1].
Proof.
  destruct (direct_listeners_tried false (txt "tcp") (ex_ip_list [txt "ws"; txt "tcp"; txt "udp"]) [false; true]
    [ex_listener_url "ws" 1; ex_listener_url "tcp" 1; ex_listener_url "udp" 1]) as (gs & tried & E & Hp & Hg & _ & Hk & _).
  - vm_compute. reflexivity.
  - vm_compute. discriminate.
  - exists gs, tried. split; [exact E|]. assert (Ht : tried = take 2 gs).
    { apply (Hk 1%nat); [reflexivity|]. intros [|j] Hj; [reflexivity|lia]. }
    split; [exact Ht|exact Hp].
Defined.

(** A peer that announces a text that is no URL makes the task panic. *)
Example malformed_listener_panics :
  do_try_direct_connect_internal false (txt "tcp") (ex_ip_list [txt "tcp"; []]) [] = Panicked UnwrapOnNone.
Proof. vm_compute. reflexivity. Qed.

(** Listeners of other protocols are grouped as they come, so a protocol can have
    several groups. *)
Example others_not_grouped :
  listener_groups (txt "tcp") [ex_listener_url "ws" 1; ex_listener_url "wg" 1; ex_listener_url "ws" 2] =
    [[ex_listener_url "ws" 2]; [ex_listener_url "wg" 1]; [ex_listener_url "ws" 1]].
Proof. vm_compute. reflexivity. Qed.
