(* ===== verification/NetText.v ===== *)
(** * Text of addresses

    [FromStr] of [core::net] for IP and socket addresses, whose [Display] is in
    [AclProcessor], and the further string operations the configuration uses:
    printing of signed integers, [split] on a string, [split_whitespace],
    [char::is_control].

    A reader takes a text to what it read and the rest, like the methods of
    [core::net::parser::Parser]; one that fails leaves the text as it was. *)

From stdpp Require Import base numbers list strings.
From Stdlib Require Import ZifyBool.
From S2P Require Import Prelude Text AclProcessor.
Open Scope Z_scope.

(** ** Integers *)

Definition print_i32 (n : Z) : text := if n <? 0 then 45 :: print_digits 10 (- n) else print_digits 10 n.

Definition as_i32 (n : Z) : Z := let m := wrap 32 n in if m <? 2 ^ 31 then m else m - 2 ^ 32.

(** ** Strings *)

(** [str::split] with the two characters [a] and [b]. *)
Fixpoint split2 (a b : Z) (l : text) : list text :=
  match l with
  | [] => [[]]
  | c :: l' =>
      let keep := match split2 a b l' with [] => [[c]] | p :: ps => (c :: p) :: ps end in
      match l' with
      | d :: l'' => if (c =? a) && (d =? b) then [] :: split2 a b l'' else keep
      | [] => keep
      end
  end.

Fixpoint split_ws (l : text) : list text :=
  match l with
  | [] => [[]]
  | c :: l => if is_whitespace c then [] :: split_ws l
              else match split_ws l with [] => [[c]] | p :: ps => (c :: p) :: ps end
  end.
Definition split_whitespace (l : text) : list text := List.filter (fun p => negb (bool_decide (p = []))) (split_ws l).

Definition is_control (c : Z) : bool := (c <=? 31) || ((127 <=? c) && (c <=? 159)).

(** ** Readers *)

Abbreviation reader A := (text -> option (A * text)).

(** [char::to_digit]. *)
Definition to_digit (radix c : Z) : option Z :=
  let d := if is_digit c then c - 48 else if (97 <=? c) && (c <=? 122) then c - 87
           else if (65 <=? c) && (c <=? 90) then c - 55 else 36 in
  if d <? radix then Some d else None.

Fixpoint read_digits (radix : Z) (l : text) : list Z * text :=
  match l with
  | [] => ([], [])
  | c :: l' =>
      match to_digit radix c with
      | Some d => let '(ds, rest) := read_digits radix l' in (d :: ds, rest)
      | None => ([], l)
      end
  end.

Definition digits_value (radix : Z) (ds : list Z) : Z := foldl (fun acc d => acc * radix + d) 0 ds.

Definition read_number (radix : Z) (max_digits : option nat) (allow_zero_prefix : bool) (max : Z) : reader Z := fun l =>
  let '(ds, rest) := read_digits radix l in
  if bool_decide (ds = []) || match max_digits with Some m => Nat.ltb m (length ds) | None => false end then None
  else if negb allow_zero_prefix && bool_decide (head ds = Some 0) && Nat.ltb 1 (length ds) then None
  else if max <? digits_value radix ds then None
  else Some (digits_value radix ds, rest).

Definition read_given_char (c : Z) (l : text) : option text :=
  match l with d :: l => if d =? c then Some l else None | [] => None end.

Definition read_separator {A} (sep : Z) (first : bool) (r : reader A) : reader A := fun l =>
  if first then r l else l ← read_given_char sep l; r l.

Definition read_octet : reader Z := read_number 10 (Some 3%nat) false 255.

Definition read_ipv4_addr : reader Z := fun l =>
  '(a, l) ← read_octet l;
  '(b, l) ← read_separator 46 false read_octet l;
  '(c, l) ← read_separator 46 false read_octet l;
  '(d, l) ← read_separator 46 false read_octet l;
  Some (((a * 256 + b) * 256 + c) * 256 + d, l).

(** The groups read into [left] places, and whether the last two are those of an
    IPv4 address. *)
Fixpoint read_groups (left : nat) (first : bool) (l : text) : list Z * bool * text :=
  match left with
  | O => ([], false, l)
  | S left' =>
      match (if Nat.ltb 0 left' then read_separator 58 first read_ipv4_addr l else None) with
      | Some (a, l) => ([a / 65536; a mod 65536], true, l)
      | None =>
          match read_separator 58 first (read_number 16 (Some 4%nat) true 65535) l with
          | Some (g, l) => let '(gs, v4, l) := read_groups left' false l in (g :: gs, v4, l)
          | None => ([], false, l)
          end
      end
  end.

Definition groups_value (gs : list Z) : Z := foldl (fun acc g => acc * 65536 + g) 0 gs.

Definition read_ipv6_addr : reader Z := fun l =>
  let '(hd, head_ipv4, l) := read_groups 8 true l in
  if Nat.eqb (length hd) 8 then Some (groups_value hd, l)
  else if head_ipv4 then None
  else
    l ← read_given_char 58 l;
    l ← read_given_char 58 l;
    let '(tl, _, l) := read_groups (7 - length hd) true l in
    Some (groups_value (hd ++ replicate (8 - length hd - length tl) 0 ++ tl), l).

Definition read_ip_addr : reader IpAddr := fun l =>
  match read_ipv4_addr l with
  | Some (a, l) => Some (V4 a, l)
  | None => match read_ipv6_addr l with Some (a, l) => Some (V6 a, l) | None => None end
  end.

Definition read_port : reader Z := fun l => l ← read_given_char 58 l; read_number 10 None true 65535 l.

Definition read_socket_addr_v4 : reader SocketAddr := fun l =>
  '(a, l) ← read_ipv4_addr l; '(p, l) ← read_port l; Some ((V4 a, p), l).

(** Scope ids are read and, like flow labels, not kept in the model. *)
Definition read_scope_id (l : text) : text :=
  match (l ← read_given_char 37 l; read_number 10 None true (2 ^ 32 - 1) l) with Some (_, l) => l | None => l end.

Definition read_socket_addr_v6 : reader SocketAddr := fun l =>
  l ← read_given_char 91 l;
  '(a, l) ← read_ipv6_addr l;
  l ← read_given_char 93 (read_scope_id l);
  '(p, l) ← read_port l;
  Some ((V6 a, p), l).

Definition parse_with {A} (r : reader A) (l : text) : option A :=
  match r l with Some (a, []) => Some a | _ => None end.

Definition parse_ip : text -> option IpAddr := parse_with read_ip_addr.
Definition parse_socket_addr : text -> option SocketAddr :=
  parse_with (fun l => match read_socket_addr_v4 l with Some x => Some x | None => read_socket_addr_v6 l end).

(** ** Printing and reading back *)

(** Reading digits: those that are there, then what follows. *)
Lemma read_digits_app radix a ds rest : Forall2 (fun c d => to_digit radix c = Some d) a ds ->
  read_digits radix (a ++ rest) = (ds ++ (read_digits radix rest).1, (read_digits radix rest).2).
Proof.
  induction 1 as [|c d a ds Hc _ IH]; simpl; [by destruct (read_digits radix rest)|]. by rewrite Hc, IH.
Qed.

(** Nothing of [rest] reads as a digit. *)
Definition no_digit (radix : Z) (rest : text) : Prop := match rest with c :: _ => to_digit radix c = None | [] => True end.

Lemma read_digits_none radix rest : no_digit radix rest -> read_digits radix rest = ([], rest).
Proof. destruct rest as [|c rest]; simpl; [done|]. by intros ->. Qed.

Lemma digits_value_snoc radix ds d : digits_value radix (ds ++ [d]) = digits_value radix ds * radix + d.
Proof. unfold digits_value. by rewrite foldl_app. Qed.

Lemma to_digit_dec d : 0 <= d < 10 -> to_digit 10 (48 + d) = Some d.
Proof. intros Hd. unfold to_digit, is_digit. assert ((48 <=? 48 + d) && (48 + d <=? 57) = true) as -> by lia.
  replace (48 + d - 48) with d by lia. by destruct (Z.ltb_spec d 10); [|lia]. Qed.

Lemma to_digit_hex d : 0 <= d < 16 -> to_digit 16 (hex_digit d) = Some d.
Proof.
  intros Hd. unfold hex_digit, to_digit, is_digit. destruct (Z.ltb_spec d 10).
  - assert ((48 <=? 48 + d) && (48 + d <=? 57) = true) as -> by lia. replace (48 + d - 48) with d by lia.
    by destruct (Z.ltb_spec d 16); [|lia].
  - assert ((48 <=? 87 + d) && (87 + d <=? 57) = false) as -> by lia.
    assert ((97 <=? 87 + d) && (87 + d <=? 122) = true) as -> by lia. replace (87 + d - 87) with d by lia.
    by destruct (Z.ltb_spec d 16); [|lia].
Qed.

(** The digits of a printed number. *)
Lemma print_digits_read fuel n : 0 <= n < 10 ^ Z.of_nat fuel ->
  exists ds, Forall2 (fun c d => to_digit 10 c = Some d) (print_digits fuel n) ds /\ digits_value 10 ds = n /\
    (head ds = Some 0 -> (length ds <= 1)%nat) /\ (length ds <= fuel)%nat /\ (fuel <> O -> ds <> []).
Proof.
  revert n; induction fuel as [|fuel IH]; intros n Hn.
  - exists []. replace n with 0 by lia. split_and!; simpl; try done; lia.
  - rewrite Nat2Z.inj_succ, Z.pow_succ_r in Hn by lia. simpl. destruct (Z.ltb_spec n 10).
    + exists [n]. split_and!; simpl; try done; try lia. constructor; [apply to_digit_dec; lia|done].
    + destruct (IH (n / 10)) as (ds & Hds & Hv & Hz & Hl & Hne).
      { split; [apply Z.div_pos; lia|apply Z.div_lt_upper_bound; lia]. }
      assert (ds <> []) as Hds0. { apply Hne. intros ->. simpl in Hn. lia. }
      exists (ds ++ [n mod 10]). pose proof (Z.mod_pos_bound n 10 ltac:(lia)). split_and!.
      * apply Forall2_app; [done|]. constructor; [apply to_digit_dec; lia|done].
      * rewrite digits_value_snoc, Hv. pose proof (Z.div_mod n 10 ltac:(lia)). lia.
      * destruct ds as [|d ds]; [done|]. simpl. intros [= ->]. specialize (Hz eq_refl). destruct ds; [|simpl in Hz; lia].
        unfold digits_value in Hv. simpl in Hv. assert (n / 10 = 0) as E by lia. apply Z.div_small_iff in E; lia.
      * rewrite length_app. simpl. lia.
      * intros _. by destruct ds.
Qed.

Lemma print_hex_read fuel n : 0 <= n < 16 ^ Z.of_nat fuel ->
  exists ds, Forall2 (fun c d => to_digit 16 c = Some d) (print_hex fuel n) ds /\ digits_value 16 ds = n /\
    (length ds <= fuel)%nat /\ (fuel <> O -> ds <> []).
Proof.
  revert n; induction fuel as [|fuel IH]; intros n Hn.
  - exists []. replace n with 0 by lia. split_and!; simpl; try done; lia.
  - rewrite Nat2Z.inj_succ, Z.pow_succ_r in Hn by lia. simpl. pose proof (Z.mod_pos_bound n 16 ltac:(lia)).
    destruct (Z.ltb_spec n 16).
    + exists [n]. rewrite (Z.mod_small n 16) by lia. split_and!; simpl; try done; try lia.
      constructor; [apply to_digit_hex; lia|done].
    + destruct (IH (n / 16)) as (ds & Hds & Hv & Hl & _).
      { split; [apply Z.div_pos; lia|apply Z.div_lt_upper_bound; lia]. }
      exists (ds ++ [n mod 16]). split_and!.
      * apply Forall2_app; [done|]. constructor; [apply to_digit_hex; lia|done].
      * rewrite digits_value_snoc, Hv. pose proof (Z.div_mod n 16 ltac:(lia)). lia.
      * rewrite length_app. simpl. lia.
      * intros _. by destruct ds.
Qed.

(** A printed decimal reads back, with or without a limit on its digits. *)
Lemma read_decimal fuel max_digits zero max n rest : (fuel <> O) -> 0 <= n < 10 ^ Z.of_nat fuel -> n <= max ->
  (forall m, max_digits = Some m -> (fuel <= m)%nat) -> no_digit 10 rest ->
  read_number 10 max_digits zero max (print_digits fuel n ++ rest) = Some (n, rest).
Proof.
  intros Hf Hn Hmax Hm Hrest. destruct (print_digits_read fuel n Hn) as (ds & Hds & Hv & Hz & Hl & Hne). specialize (Hne Hf).
  unfold read_number. rewrite (read_digits_app _ _ _ _ Hds), read_digits_none, app_nil_r by done. cbn [fst snd].
  rewrite (bool_decide_eq_false_2 (ds = [])) by done. rewrite Hv.
  assert (match max_digits with Some m => Nat.ltb m (length ds) | None => false end = false) as ->.
  { destruct max_digits as [m|]; [|done]. apply Nat.ltb_ge. specialize (Hm m eq_refl). lia. }
  destruct (bool_decide_reflect (head ds = Some 0)) as [E|E].
  - assert (Nat.ltb 1 (length ds) = false) as -> by (apply Nat.ltb_ge; auto). rewrite andb_false_r. simpl.
    by destruct (Z.ltb_spec max n); [lia|].
  - rewrite andb_false_r. simpl. by destruct (Z.ltb_spec max n); [lia|].
Qed.

Lemma read_hex n rest : in_width 16 n -> no_digit 16 rest ->
  read_number 16 (Some 4%nat) true 65535 (print_hex 4 n ++ rest) = Some (n, rest).
Proof.
  intros Hn Hrest. destruct (print_hex_read 4 n) as (ds & Hds & Hv & Hl & Hne). { unfold in_width in Hn. simpl. lia. }
  unfold read_number. rewrite (read_digits_app _ _ _ _ Hds), read_digits_none, app_nil_r by done. cbn [fst snd].
  rewrite (bool_decide_eq_false_2 (ds = [])) by (by apply Hne). rewrite Hv.
  assert (Nat.ltb 4 (length ds) = false) as -> by (by apply Nat.ltb_ge). simpl.
  unfold in_width in Hn. by destruct (Z.ltb_spec 65535 n); [lia|].
Qed.

(** ** IPv4 *)

Lemma octet_range a i : 0 <= octet a i < 256.
Proof. unfold octet. rewrite (Z.land_ones _ 8) by lia. apply Z.mod_pos_bound. lia. Qed.

Lemma octets_value a : in_width 32 a -> ((octet a 3 * 256 + octet a 2) * 256 + octet a 1) * 256 + octet a 0 = a.
Proof.
  unfold in_width, octet. intros Ha. change 255 with (Z.ones 8). rewrite !Z.land_ones by lia.
  rewrite !Z.shiftr_div_pow2 by lia. change (2 ^ 8) with 256. change (2 ^ (8 * 3)) with 16777216. change (2 ^ (8 * 2)) with 65536.
  change (2 ^ (8 * 1)) with 256. change (2 ^ (8 * 0)) with 1. rewrite Z.div_1_r.
  assert (a / 16777216 < 256) by (apply Z.div_lt_upper_bound; lia).
  assert (0 <= a / 16777216) by (apply Z.div_pos; lia).
  rewrite (Z.mod_small (a / 16777216)) by lia.
  assert (a / 65536 / 256 = a / 16777216) as E1 by (by rewrite Z.div_div by lia).
  assert (a / 256 / 256 = a / 65536) as E2 by (by rewrite Z.div_div by lia).
  pose proof (Z.div_mod a 256 ltac:(lia)). pose proof (Z.div_mod (a / 256) 256 ltac:(lia)).
  pose proof (Z.div_mod (a / 65536) 256 ltac:(lia)). lia.
Qed.

Lemma read_octet_print a i rest : no_digit 10 rest -> read_octet (print_digits 3 (octet a i) ++ rest) = Some (octet a i, rest).
Proof. intros Hr. pose proof (octet_range a i). apply read_decimal; [done|simpl; lia|lia| |done]. by intros m [= <-]. Qed.

Lemma read_ipv4_print a rest : in_width 32 a -> no_digit 10 rest -> read_ipv4_addr (print_ipv4 a ++ rest) = Some (a, rest).
Proof.
  intros Ha Hr. unfold read_ipv4_addr, print_ipv4. rewrite <- !app_assoc, read_octet_print by done. cbn [mbind option_bind].
  unfold read_separator. cbn [app read_given_char Z.eqb Pos.eqb mbind option_bind].
  rewrite read_octet_print by done. cbn [mbind option_bind app read_given_char Z.eqb Pos.eqb].
  rewrite read_octet_print by done. cbn [mbind option_bind app read_given_char Z.eqb Pos.eqb].
  rewrite read_octet_print by done. cbn [mbind option_bind]. by rewrite octets_value.
Qed.

Lemma print_ipv4_nonempty a : print_ipv4 a <> [].
Proof. unfold print_ipv4. destruct (print_digits 3 (octet a 3)); done. Qed.

(** An address with a port, as [format!] puts them together. *)
Lemma parse_socket_v4 a port : in_width 32 a -> in_width 16 port ->
  parse_socket_addr (print_ipv4 a ++ [58] ++ print_u32 port) = Some (V4 a, port).
Proof.
  intros Ha Hp. unfold parse_socket_addr, parse_with, read_socket_addr_v4. rewrite read_ipv4_print by done.
  cbn [mbind option_bind app]. unfold read_port. cbn [read_given_char Z.eqb Pos.eqb mbind option_bind].
  unfold in_width in Hp. rewrite <- (app_nil_r (print_u32 port)). unfold print_u32.
  by rewrite read_decimal; [|done|simpl; lia|lia|done|done].
Qed.

(** ** IPv6 *)

(** What may follow a group: nothing, or the gap. *)
Definition stops (rest : text) : Prop := rest = [] \/ exists r, rest = 58 :: 58 :: r.

Definition more_groups (gs : list Z) : text := gs ≫= (fun g => 58 :: print_hex 4 g).

Lemma fmt_subslice_cons g gs : fmt_subslice (g :: gs) = print_hex 4 g ++ more_groups gs.
Proof.
  revert g; induction gs as [|h gs IH]; intros g; [unfold more_groups; simpl; by rewrite app_nil_r|].
  change (fmt_subslice (g :: h :: gs)) with (print_hex 4 g ++ [58] ++ fmt_subslice (h :: gs)). by rewrite IH.
Qed.

Lemma groups_follow gs rest : stops rest -> no_digit 16 (more_groups gs ++ rest) /\ head (more_groups gs ++ rest) <> Some 46 /\
  no_digit 10 (more_groups gs ++ rest).
Proof. destruct gs as [|g gs]; [|done]. by intros [->|[r ->]]. Qed.

Lemma read_ipv4_not_hex n rest : in_width 16 n -> head rest <> Some 46 -> no_digit 10 rest ->
  read_ipv4_addr (print_hex 4 n ++ rest) = None.
Proof.
  intros Hn Hdot Hr. destruct (print_hex_read 4 n) as (ds & Hds & _). { unfold in_width in Hn. simpl. lia. }
  assert (Hrest : read_given_char 46 (read_digits 10 (print_hex 4 n ++ rest)).2 = None).
  { induction Hds as [|c d l ds Hc _ IH]; simpl.
    - rewrite read_digits_none by done. destruct rest as [|c rest]; [done|]. simpl in *. destruct (Z.eqb_spec c 46); congruence.
    - destruct (to_digit 10 c) as [x|].
      + by destruct (read_digits 10 (l ++ rest)).
      + simpl. destruct (Z.eqb_spec c 46) as [->|]; [|done]. vm_compute in Hc. congruence. }
  unfold read_ipv4_addr. destruct (read_octet _) as [[a l']|] eqn:Eo; [|done]. cbn [mbind option_bind].
  assert (l' = (read_digits 10 (print_hex 4 n ++ rest)).2) as ->.
  { revert Eo. unfold read_octet, read_number. destruct (read_digits 10 _) as [ds' rest']. repeat case_match; intros; simplify_eq/=; done. }
  unfold read_separator. by rewrite Hrest.
Qed.

Lemma read_ipv4_colon l : read_ipv4_addr (58 :: l) = None. Proof. done. Qed.
Lemma read_hex_colon l : read_number 16 (Some 4%nat) true 65535 (58 :: l) = None. Proof. done. Qed.

Lemma read_more_groups gs left rest : Forall (in_width 16) gs -> (length gs <= left)%nat -> stops rest ->
  read_groups left false (more_groups gs ++ rest) = (gs, false, rest).
Proof.
  intros Hgs Hl Hrest. revert left Hl; induction Hgs as [|g gs Hg Hgs IH]; intros left Hl.
  - destruct left as [|left]; [done|]. destruct Hrest as [->|[r ->]]; simpl; by destruct (Nat.ltb 0 left).
  - destruct left as [|left]; [simpl in Hl; lia|]. destruct (groups_follow gs rest Hrest) as (H16 & Hdot & H10).
    change (more_groups (g :: gs)) with (58 :: print_hex 4 g ++ more_groups gs). rewrite <- app_comm_cons, <- app_assoc. cbn [read_groups].
    unfold read_separator. cbn [read_given_char Z.eqb Pos.eqb mbind option_bind].
    rewrite read_ipv4_not_hex, read_hex by done. rewrite IH by (simpl in Hl; lia). by destruct (Nat.ltb 0 left).
Qed.

Lemma read_groups_fmt gs left rest : Forall (in_width 16) gs -> (length gs <= left)%nat -> stops rest ->
  read_groups left true (fmt_subslice gs ++ rest) = (gs, false, rest).
Proof.
  intros Hgs Hl Hrest. destruct gs as [|g gs].
  - destruct left as [|left]; [done|]. destruct Hrest as [->|[r ->]]; simpl; by destruct (Nat.ltb 0 left).
  - destruct left as [|left]; [simpl in Hl; lia|]. destruct (groups_follow gs rest Hrest) as (H16 & Hdot & H10).
    inversion_clear Hgs. rewrite fmt_subslice_cons, <- app_assoc. cbn [read_groups]. unfold read_separator.
    rewrite read_ipv4_not_hex, read_hex by done. rewrite read_more_groups by (done || (simpl in Hl; lia)). by destruct (Nat.ltb 0 left).
Qed.

(** The span found is one of zeros. *)
Lemma zero_span_spec pre segs longest current :
  let whole := pre ++ segs in
  (forall sp, sp = longest \/ sp = current -> (sp.1 + sp.2 <= length pre)%nat /\
     forall i, (sp.1 <= i < sp.1 + sp.2)%nat -> whole !! i = Some 0) ->
  (current.2 <> 0 -> current.1 + current.2 = length pre)%nat ->
  let sp := zero_span (length pre) longest current segs in
  (sp.1 + sp.2 <= length whole)%nat /\ forall i, (sp.1 <= i < sp.1 + sp.2)%nat -> whole !! i = Some 0.
Proof.
  revert pre longest current; induction segs as [|s segs IH]; intros pre longest current whole Hsp Hcur; simpl.
  - destruct (Hsp longest (or_introl eq_refl)) as [H1 H2]. split; [unfold whole; rewrite length_app; simpl; lia|done].
  - assert (Ew : whole = (pre ++ [s]) ++ segs) by (unfold whole; by rewrite <- app_assoc).
    assert (El : S (length pre) = length (pre ++ [s])) by (rewrite length_app; simpl; lia).
    assert (Hold : forall sp, sp = longest \/ sp = current -> (sp.1 + sp.2 <= length (pre ++ [s]))%nat /\
       forall i, (sp.1 <= i < sp.1 + sp.2)%nat -> whole !! i = Some 0).
    { intros sp H. destruct (Hsp sp H). split; [lia|done]. }
    rewrite El. destruct (Z.eqb_spec s 0) as [->|Hs].
    + set (current' := (if (current.2 =? 0)%nat then length pre else current.1, S current.2)).
      assert (Hc' : (current'.1 + current'.2 = length (pre ++ [0]%Z))%nat /\
        forall i, (current'.1 <= i < current'.1 + current'.2)%nat -> whole !! i = Some 0).
      { assert (Hlast : whole !! length pre = Some 0) by (unfold whole; by apply list_lookup_middle).
        unfold current'; simpl. destruct (Nat.eqb_spec current.2 0) as [E|E]; simpl.
        - split; [lia|]. intros i Hi. assert (i = length pre) as -> by lia. done.
        - specialize (Hcur E). split; [lia|]. intros i Hi. destruct (decide (i = length pre)) as [->|]; [done|].
          apply (Hsp current); [by right|lia]. }
      rewrite Ew. apply IH; rewrite <- ?Ew.
      * intros sp [-> | ->]; [|split; [lia|apply Hc']]. destruct (Nat.ltb _ _); [split; [lia|apply Hc']|apply Hold; by left].
      * intros _. lia.
    + rewrite Ew. apply IH; rewrite <- ?Ew.
      * intros sp [-> | ->]; [apply Hold; by left|]. simpl. split; [lia|]. intros i Hi. simpl in Hi. lia.
      * done.
Qed.

Lemma zero_span_zeros segs : let sp := zero_span 0 (0, 0)%nat (0, 0)%nat segs in
  segs = take sp.1 segs ++ replicate sp.2 0 ++ drop (sp.1 + sp.2) segs /\ (sp.1 + sp.2 <= length segs)%nat.
Proof.
  intros sp. destruct (zero_span_spec [] segs (0, 0)%nat (0, 0)%nat) as [H1 H2]; simpl in *.
  { intros ? [-> | ->]; simpl; split; lia || (intros i Hi; lia). }
  { done. }
  fold sp in H1, H2. split; [|done]. apply list_eq. intros i. destruct (decide (i < sp.1)%nat) as [Hi|Hi].
  - rewrite lookup_app_l by (rewrite length_take; lia). by rewrite lookup_take_lt.
  - rewrite lookup_app_r by (rewrite length_take; lia). rewrite length_take, Nat.min_l by lia.
    destruct (decide (i < sp.1 + sp.2)%nat).
    + rewrite H2, lookup_app_l by (rewrite ?length_replicate; lia). rewrite lookup_replicate_2; [done|lia].
    + rewrite lookup_app_r by (rewrite length_replicate; lia). rewrite length_replicate, lookup_drop. f_equal. lia.
Qed.

Lemma segments_range a : Forall (in_width 16) (segments a).
Proof.
  apply Forall_fmap, Forall_forall. intros i _. simpl. change 65535 with (Z.ones 16). rewrite Z.land_ones by lia.
  apply Z.mod_pos_bound. lia.
Qed.

Lemma segments_value a : in_width 128 a -> groups_value (segments a) = a.
Proof.
  intros Ha. unfold groups_value, segments. cbn [fmap list_fmap foldl]. change 65535 with (Z.ones 16). rewrite !Z.land_ones by lia.
  assert (Hs : forall i, 0 <= i -> Z.shiftr a (16 * i) = Z.shiftr a (16 * (i + 1)) * 65536 + Z.shiftr a (16 * i) mod 2 ^ 16).
  { intros i Hi. rewrite !Z.shiftr_div_pow2 by lia. replace (16 * (i + 1)) with (16 * i + 16) by lia.
    pose proof (Z.pow_pos_nonneg 2 (16 * i) ltac:(lia) ltac:(lia)).
    rewrite Z.pow_add_r, <- Z.div_div by lia. change (2 ^ 16) with 65536. generalize (a / 2 ^ (16 * i)). intros q.
    pose proof (Z.div_mod q 65536 ltac:(lia)). lia. }
  assert (H8 : Z.shiftr a (16 * 8) = 0). { rewrite Z.shiftr_div_pow2 by lia. apply Z.div_small. exact Ha. }
  pose proof (Hs 7 ltac:(lia)) as H7. pose proof (Hs 6 ltac:(lia)) as H6. pose proof (Hs 5 ltac:(lia)) as H5. pose proof (Hs 4 ltac:(lia)) as H4.
  pose proof (Hs 3 ltac:(lia)) as H3. pose proof (Hs 2 ltac:(lia)) as H2. pose proof (Hs 1 ltac:(lia)) as H1. pose proof (Hs 0 ltac:(lia)) as H0.
  change (7 + 1) with 8 in H7. change (6 + 1) with 7 in H6. change (5 + 1) with 6 in H5. change (4 + 1) with 5 in H4.
  change (3 + 1) with 4 in H3. change (2 + 1) with 3 in H2. change (1 + 1) with 2 in H1. change (0 + 1) with 1 in H0.
  assert (E0 : Z.shiftr a (16 * 0) = a) by apply Z.shiftr_0_r.
  rewrite <- E0 at 9. clear Hs E0 Ha.
  repeat match goal with |- context [?x mod 2 ^ 16] => let m := fresh "m" in set (m := x mod 2 ^ 16) in * end.
  clearbody m m0 m1 m2 m3 m4 m5 m6. lia.
Qed.

Lemma segments_length a : length (segments a) = 8%nat. Proof. done. Qed.

Lemma read_ipv6_mapped v : in_width 32 v -> read_ipv6_addr (txt "::ffff:" ++ print_ipv4 v) = Some (65535 * 2 ^ 32 + v, []).
Proof.
  intros Hv.
  assert (Etl : read_groups 7 true (102 :: 102 :: 102 :: 102 :: 58 :: print_ipv4 v) = ([65535; v / 65536; v mod 65536], true, [])).
  { change (102 :: 102 :: 102 :: 102 :: 58 :: print_ipv4 v) with (print_hex 4 65535 ++ 58 :: print_ipv4 v). cbn [read_groups].
    unfold read_separator. rewrite read_ipv4_not_hex, read_hex by done. cbn [Nat.ltb Nat.leb read_given_char Z.eqb Pos.eqb mbind option_bind].
    rewrite <- (app_nil_r (print_ipv4 v)), read_ipv4_print by done. done. }
  change (read_ipv6_addr (txt "::ffff:" ++ print_ipv4 v)) with
    (let '(tl, _, l) := read_groups 7 true (102 :: 102 :: 102 :: 102 :: 58 :: print_ipv4 v) in
     Some (groups_value ([] ++ replicate (8 - 0 - length tl) 0 ++ tl), l)).
  rewrite Etl. unfold groups_value. cbn [length Nat.sub replicate app foldl].
  pose proof (Z.div_mod v 65536 ltac:(lia)). do 2 f_equal. lia.
Qed.

Lemma read_ipv6_print a : in_width 128 a -> read_ipv6_addr (print_ipv6 a) = Some (a, []).
Proof.
  intros Ha. unfold print_ipv6. destruct (Z.eqb_spec (Z.shiftr a 32) 65535) as [Em|_].
  - set (v := Z.land a (2 ^ 32 - 1)). assert (Hv : in_width 32 v).
    { unfold v. change (2 ^ 32 - 1) with (Z.ones 32). rewrite Z.land_ones by lia. apply Z.mod_pos_bound. lia. }
    assert (Hav : a = 65535 * 2 ^ 32 + v).
    { unfold v. change (2 ^ 32 - 1) with (Z.ones 32). rewrite Z.land_ones, <- Em, Z.shiftr_div_pow2 by lia.
      pose proof (Z.div_mod a (2 ^ 32) ltac:(lia)). lia. }
    clearbody v. rewrite Hav. by apply read_ipv6_mapped.
  - set (segs := segments a). set (z := zero_span 0 _ _ segs).
    assert (Hr : Forall (in_width 16) segs) by apply segments_range.
    destruct (zero_span_zeros segs) as [Hz Hlen]. fold z in Hz, Hlen. change (length segs) with 8%nat in Hlen.
    destruct (Nat.ltb_spec 1 z.2) as [Hlong|_].
    + unfold read_ipv6_addr. rewrite read_groups_fmt; [|by apply Forall_take|rewrite length_take; lia|right; by eexists].
      assert (length (take z.1 segs) = z.1) as El by (rewrite length_take_le; [done|change (length segs) with 8%nat; lia]).
      rewrite El. destruct (Nat.eqb_spec z.1 8); [lia|]. cbn [app read_given_char Z.eqb Pos.eqb mbind option_bind].
      assert (length (drop (z.1 + z.2) segs) = 8 - (z.1 + z.2))%nat as Ed by (rewrite length_drop; done).
      rewrite <- (app_nil_r (fmt_subslice _)), read_groups_fmt; [|by apply Forall_drop|rewrite Ed; lia|by left].
      rewrite Ed. replace (8 - z.1 - (8 - (z.1 + z.2)))%nat with z.2 by lia. rewrite <- Hz. unfold segs. by rewrite segments_value.
    + unfold read_ipv6_addr. rewrite <- (app_nil_r (fmt_subslice segs)), read_groups_fmt; [|done..|by left].
      change (length segs =? 8)%nat with true. unfold segs. by rewrite segments_value.
Qed.

Definition ip_ok (a : IpAddr) : Prop := match a with V4 a => in_width 32 a | V6 a => in_width 128 a end.

(** No IPv6 text starts with an IPv4 address, also when a port follows. *)
Lemma read_ipv4_of_ipv6_then a rest : rest = [] \/ head rest = Some 58 -> read_ipv4_addr (print_ipv6 a ++ rest) = None.
Proof.
  intros Hrest. assert (Hnext : head rest <> Some 46 /\ no_digit 10 rest).
  { destruct Hrest as [->|E]; [done|]. destruct rest as [|c rest]; [done|]. injection E as ->. by split. }
  assert (Hgs : forall gs, head (more_groups gs ++ rest) <> Some 46 /\ no_digit 10 (more_groups gs ++ rest)) by (by intros [|g gs]).
  unfold print_ipv6. destruct (_ =? _); [done|]. pose proof (segments_range a) as Hr.
  set (z := zero_span _ _ _ _) in *. destruct (Nat.ltb_spec 1 z.2).
  - destruct (take z.1 (segments a)) as [|g gs] eqn:E; [done|].
    assert (in_width 16 g). { pose proof (Forall_take (in_width 16) z.1 _ Hr) as Ht. rewrite E in Ht. by inversion Ht. }
    rewrite fmt_subslice_cons, <- !app_assoc. apply read_ipv4_not_hex; [done|by destruct gs|by destruct gs].
  - destruct (segments a) as [|g gs] eqn:E; [by pose proof (segments_length a); rewrite E in *|]. rewrite fmt_subslice_cons, <- app_assoc. inversion Hr; subst.
    by apply read_ipv4_not_hex; [done|apply Hgs..].
Qed.

Lemma read_ipv4_of_ipv6 a : read_ipv4_addr (print_ipv6 a) = None.
Proof. rewrite <- (app_nil_r (print_ipv6 a)). apply read_ipv4_of_ipv6_then. by left. Qed.

Lemma print_hex_first n rest : in_width 16 n -> read_given_char 91 (print_hex 4 n ++ rest) = None.
Proof.
  intros Hn. destruct (print_hex_read 4 n) as (ds & Hds & _ & _ & Hne). { unfold in_width in Hn. simpl. lia. }
  destruct Hds as [|c d l ds Hc _]; [by destruct Hne|]. simpl. destruct (Z.eqb_spec c 91) as [->|]; [|done]. by vm_compute in Hc.
Qed.

(** Nor does it start with a bracket, so that with a port it is no socket address. *)
Lemma parse_socket_v6 a rest : parse_socket_addr (print_ipv6 a ++ [58] ++ rest) = None.
Proof.
  assert (Hb : read_given_char 91 (print_ipv6 a ++ [58] ++ rest) = None).
  { unfold print_ipv6. destruct (_ =? _); [done|]. pose proof (segments_range a) as Hr.
    set (z := zero_span _ _ _ _) in *. destruct (Nat.ltb_spec 1 z.2).
    - destruct (take z.1 (segments a)) as [|g gs] eqn:E; [done|].
      assert (in_width 16 g). { pose proof (Forall_take (in_width 16) z.1 _ Hr) as Ht. rewrite E in Ht. by inversion Ht. }
      rewrite fmt_subslice_cons, <- !app_assoc. by apply print_hex_first.
    - destruct (segments a) as [|g gs]; [done|]. rewrite fmt_subslice_cons, <- app_assoc. inversion Hr; subst. by apply print_hex_first. }
  unfold parse_socket_addr, parse_with, read_socket_addr_v4, read_socket_addr_v6. rewrite read_ipv4_of_ipv6_then by (by right).
  cbn [mbind option_bind]. by rewrite Hb.
Qed.

(** Every address reads back from its text. *)
Lemma parse_ip_print a : ip_ok a -> parse_ip (print_ip a) = Some a.
Proof.
  unfold parse_ip, parse_with, read_ip_addr. destruct a as [a|a]; cbn [print_ip ip_ok]; intros Ha.
  - by rewrite <- (app_nil_r (print_ipv4 a)), read_ipv4_print.
  - by rewrite read_ipv4_of_ipv6, read_ipv6_print.
Qed.

(** ** Splitting *)

Lemma split2_absent a b l : a ∉ l -> split2 a b l = [l].
Proof.
  induction l as [|c l IH]; [done|]. rewrite not_elem_of_cons. intros [Hc Hl]. specialize (IH Hl). simpl. rewrite IH.
  destruct l; [done|]. by destruct (Z.eqb_spec c a); [congruence|].
Qed.

Lemma split2_once a b l r : a <> b -> a ∉ l -> a ∉ r -> split2 a b (l ++ a :: b :: r) = [l; r].
Proof.
  intros Hab Hl Hr. induction l as [|c l IH].
  - simpl. rewrite !Z.eqb_refl. simpl. by rewrite split2_absent.
  - rewrite not_elem_of_cons in Hl. destruct Hl as [Hc Hl]. simpl. rewrite (IH Hl).
    destruct (l ++ a :: b :: r) eqn:E; [done|]. by destruct (Z.eqb_spec c a); [congruence|].
Qed.

Lemma as_i32_width n : in_width 32 n -> wrap 32 (as_i32 n) = n.
Proof.
  intros Hn. unfold as_i32. rewrite (wrap_small 32 n Hn). destruct (n <? 2 ^ 31); [by apply wrap_small|].
  unfold wrap. replace (n - 2 ^ 32) with (n + -1 * 2 ^ 32) by lia. rewrite Z.mod_add by lia. by apply Z.mod_small.
Qed.
