(* ===== verification/Config.v ===== *)
(** * The configuration of an instance

    [TomlConfigLoader] of [common/config.rs]: reading a configuration, what its
    methods read and change, and writing it out again.

    The lock around the configuration makes each method one step; a method that
    changes what it reads returns the new configuration.  Strings that are only
    handed on are kept as they are ([text]).  [UuidLib], [CidrText] and [ConfigWire]
    are the uuid and cidr crates and serde with its TOML and JSON formats;
    [hostname] is what the operating system calls the machine. *)

From stdpp Require Import base numbers list gmap strings.
From Stdlib Require Import ZifyBool.
From S2P Require Import Prelude Text AclRules PeerConn CidrSet AclProcessor NetText Stun DirectConnect.
Open Scope Z_scope.

(** ** Libraries *)

Class UuidLib := {
  Uuid : Type;
  #[global] uuid_eq_dec :: EqDecision Uuid;
  uuid_text : Uuid -> text;
  uuid_parse : text -> option Uuid
}.

Class UuidLaws `{UuidLib} := { uuid_parse_text u : uuid_parse (uuid_text u) = Some u }.

(** [cidr::Ipv4Inet] and [cidr::Ipv6Inet]: an address with the length of its
    network's prefix. *)
Record Inet := { in_address : Z; in_length : Z }.
#[global] Instance inet_eq_dec : EqDecision Inet.
Proof. solve_decision. Defined.

Definition inet_ok (i : Inet) : Prop := in_width 32 (in_address i) /\ 0 <= in_length i <= 32.
#[global] Instance inet_ok_dec i : Decision (inet_ok i).
Proof. unfold inet_ok. apply _. Defined.

Class CidrText `{Ipv4CidrLib} := {
  cidr_text : Ipv4Cidr -> text;
  cidr_parse : text -> option Ipv4Cidr;
  inet_text : Inet -> text;
  inet_parse : text -> option Inet;
  inet6_text : Inet -> text;
  inet6_parse : text -> option Inet
}.

(** Networks and addresses read back from their text, and from an address and a
    prefix length put together; no network has a hyphen in its text. *)
Class CidrTextLaws `{CidrText} := {
  cidr_parse_text c : cidr_parse (cidr_text c) = Some c;
  cidr_no_hyphen c : 45 ∉ cidr_text c;
  cidr_parse_put c : cidr_parse (print_ipv4 (first_address c) ++ [47] ++ print_i32 (network_length c)) = Some c;
  inet_parse_text i : inet_ok i -> inet_parse (inet_text i) = Some i;
  inet_parse_ok t i : inet_parse t = Some i -> inet_ok i;
  inet_parse_put i : inet_ok i -> inet_parse (print_ipv4 (in_address i) ++ [47] ++ print_i32 (in_length i)) = Some i
}.

(** ** Data *)

Record Flags := {
  fl_default_protocol : text; fl_dev_name : text; fl_enable_encryption : bool; fl_enable_ipv6 : bool;
  fl_mtu : Z; fl_latency_first : bool; fl_enable_exit_node : bool; fl_no_tun : bool; fl_use_smoltcp : bool;
  fl_relay_network_whitelist : text; fl_disable_p2p : bool; fl_relay_all_peer_rpc : bool;
  fl_disable_udp_hole_punching : bool; fl_multi_thread : bool; fl_data_compress_algo : Z;
  fl_bind_device : bool; fl_enable_kcp_proxy : bool; fl_disable_kcp_input : bool; fl_disable_relay_kcp : bool;
  fl_proxy_forward_by_system : bool; fl_accept_dns : bool; fl_private_mode : bool; fl_enable_quic_proxy : bool;
  fl_disable_quic_input : bool; fl_quic_listen_port : Z; fl_foreign_relay_bps_limit : Z;
  fl_multi_thread_count : Z; fl_enable_relay_foreign_network_kcp : bool; fl_encryption_algorithm : text;
  fl_disable_sym_hole_punching : bool; fl_tld_dns_zone : text }.

Definition gen_default_flags : Flags := {|
  fl_default_protocol := txt "tcp"; fl_dev_name := []; fl_enable_encryption := true; fl_enable_ipv6 := true;
  fl_mtu := 1380; fl_latency_first := false; fl_enable_exit_node := false; fl_no_tun := false;
  fl_use_smoltcp := false; fl_relay_network_whitelist := txt "*"; fl_disable_p2p := false;
  fl_relay_all_peer_rpc := false; fl_disable_udp_hole_punching := false; fl_multi_thread := true;
  fl_data_compress_algo := 1; fl_bind_device := true; fl_enable_kcp_proxy := false;
  fl_disable_kcp_input := false; fl_disable_relay_kcp := false; fl_proxy_forward_by_system := false;
  fl_accept_dns := false; fl_private_mode := false; fl_enable_quic_proxy := false;
  fl_disable_quic_input := false; fl_quic_listen_port := 0; fl_foreign_relay_bps_limit := U64_MAX;
  fl_multi_thread_count := 2; fl_enable_relay_foreign_network_kcp := false;
  fl_encryption_algorithm := txt "aes-gcm"; fl_disable_sym_hole_punching := false;
  fl_tld_dns_zone := txt "et.net." |}.

(** [Flags::default]. *)
Definition zero_flags : Flags := {|
  fl_default_protocol := []; fl_dev_name := []; fl_enable_encryption := false; fl_enable_ipv6 := false;
  fl_mtu := 0; fl_latency_first := false; fl_enable_exit_node := false; fl_no_tun := false;
  fl_use_smoltcp := false; fl_relay_network_whitelist := []; fl_disable_p2p := false;
  fl_relay_all_peer_rpc := false; fl_disable_udp_hole_punching := false; fl_multi_thread := false;
  fl_data_compress_algo := 0; fl_bind_device := false; fl_enable_kcp_proxy := false;
  fl_disable_kcp_input := false; fl_disable_relay_kcp := false; fl_proxy_forward_by_system := false;
  fl_accept_dns := false; fl_private_mode := false; fl_enable_quic_proxy := false;
  fl_disable_quic_input := false; fl_quic_listen_port := 0; fl_foreign_relay_bps_limit := 0;
  fl_multi_thread_count := 0; fl_enable_relay_foreign_network_kcp := false; fl_encryption_algorithm := [];
  fl_disable_sym_hole_punching := false; fl_tld_dns_zone := [] |}.

Record PortForwardConfig := { bind_addr : SocketAddr; dst_addr : SocketAddr; pf_proto : text }.
#[global] Instance port_forward_eq_dec : EqDecision PortForwardConfig.
Proof. solve_decision. Defined.

Record VpnPortalConfig `{Ipv4CidrLib} := { client_cidr : Ipv4Cidr; wireguard_listen : SocketAddr }.

Section config.
Context `{Ipv4CidrLib} `{UuidLib} {Json : Type}.

(** [PeerConfig] holds a URL and nothing else. *)
Record Config := mkConfig {
  cf_netns : option text; cf_hostname : option text; cf_instance_name : option text;
  cf_instance_id : option Uuid; cf_ipv4 : option text; cf_ipv6 : option text; cf_dhcp : option bool;
  cf_network_identity : option NetworkIdentity; cf_listeners : option (list Url);
  cf_mapped_listeners : option (list Url); cf_exit_nodes : option (list IpAddr); cf_peer : option (list Url);
  cf_proxy_network : option (list ProxyNetworkConfig); cf_vpn_portal_config : option VpnPortalConfig;
  cf_routes : option (list Ipv4Cidr); cf_socks5_proxy : option Url;
  cf_port_forward : option (list PortForwardConfig); cf_flags : option (gmap text Json);
  cf_flags_struct : option Flags; cf_acl : option Acl; cf_tcp_whitelist : option (list text);
  cf_udp_whitelist : option (list text); cf_stun_servers : option (list text);
  cf_stun_servers_v6 : option (list text) }.

(** Assignments to the fields. *)
Definition put_netns (v : option text) (c : Config) : Config :=
  mkConfig
    v (cf_hostname c) (cf_instance_name c) (cf_instance_id c) (cf_ipv4 c) (cf_ipv6 c) (cf_dhcp c)
    (cf_network_identity c) (cf_listeners c) (cf_mapped_listeners c) (cf_exit_nodes c) (cf_peer c)
    (cf_proxy_network c) (cf_vpn_portal_config c) (cf_routes c) (cf_socks5_proxy c) (cf_port_forward c)
    (cf_flags c) (cf_flags_struct c) (cf_acl c) (cf_tcp_whitelist c) (cf_udp_whitelist c) (cf_stun_servers c)
    (cf_stun_servers_v6 c).

Definition put_hostname (v : option text) (c : Config) : Config :=
  mkConfig
    (cf_netns c) v (cf_instance_name c) (cf_instance_id c) (cf_ipv4 c) (cf_ipv6 c) (cf_dhcp c)
    (cf_network_identity c) (cf_listeners c) (cf_mapped_listeners c) (cf_exit_nodes c) (cf_peer c)
    (cf_proxy_network c) (cf_vpn_portal_config c) (cf_routes c) (cf_socks5_proxy c) (cf_port_forward c)
    (cf_flags c) (cf_flags_struct c) (cf_acl c) (cf_tcp_whitelist c) (cf_udp_whitelist c) (cf_stun_servers c)
    (cf_stun_servers_v6 c).

Definition put_instance_name (v : option text) (c : Config) : Config :=
  mkConfig
    (cf_netns c) (cf_hostname c) v (cf_instance_id c) (cf_ipv4 c) (cf_ipv6 c) (cf_dhcp c)
    (cf_network_identity c) (cf_listeners c) (cf_mapped_listeners c) (cf_exit_nodes c) (cf_peer c)
    (cf_proxy_network c) (cf_vpn_portal_config c) (cf_routes c) (cf_socks5_proxy c) (cf_port_forward c)
    (cf_flags c) (cf_flags_struct c) (cf_acl c) (cf_tcp_whitelist c) (cf_udp_whitelist c) (cf_stun_servers c)
    (cf_stun_servers_v6 c).

Definition put_instance_id (v : option Uuid) (c : Config) : Config :=
  mkConfig
    (cf_netns c) (cf_hostname c) (cf_instance_name c) v (cf_ipv4 c) (cf_ipv6 c) (cf_dhcp c)
    (cf_network_identity c) (cf_listeners c) (cf_mapped_listeners c) (cf_exit_nodes c) (cf_peer c)
    (cf_proxy_network c) (cf_vpn_portal_config c) (cf_routes c) (cf_socks5_proxy c) (cf_port_forward c)
    (cf_flags c) (cf_flags_struct c) (cf_acl c) (cf_tcp_whitelist c) (cf_udp_whitelist c) (cf_stun_servers c)
    (cf_stun_servers_v6 c).

Definition put_ipv4 (v : option text) (c : Config) : Config :=
  mkConfig
    (cf_netns c) (cf_hostname c) (cf_instance_name c) (cf_instance_id c) v (cf_ipv6 c) (cf_dhcp c)
    (cf_network_identity c) (cf_listeners c) (cf_mapped_listeners c) (cf_exit_nodes c) (cf_peer c)
    (cf_proxy_network c) (cf_vpn_portal_config c) (cf_routes c) (cf_socks5_proxy c) (cf_port_forward c)
    (cf_flags c) (cf_flags_struct c) (cf_acl c) (cf_tcp_whitelist c) (cf_udp_whitelist c) (cf_stun_servers c)
    (cf_stun_servers_v6 c).

Definition put_ipv6 (v : option text) (c : Config) : Config :=
  mkConfig
    (cf_netns c) (cf_hostname c) (cf_instance_name c) (cf_instance_id c) (cf_ipv4 c) v (cf_dhcp c)
    (cf_network_identity c) (cf_listeners c) (cf_mapped_listeners c) (cf_exit_nodes c) (cf_peer c)
    (cf_proxy_network c) (cf_vpn_portal_config c) (cf_routes c) (cf_socks5_proxy c) (cf_port_forward c)
    (cf_flags c) (cf_flags_struct c) (cf_acl c) (cf_tcp_whitelist c) (cf_udp_whitelist c) (cf_stun_servers c)
    (cf_stun_servers_v6 c).

Definition put_dhcp (v : option bool) (c : Config) : Config :=
  mkConfig
    (cf_netns c) (cf_hostname c) (cf_instance_name c) (cf_instance_id c) (cf_ipv4 c) (cf_ipv6 c) v
    (cf_network_identity c) (cf_listeners c) (cf_mapped_listeners c) (cf_exit_nodes c) (cf_peer c)
    (cf_proxy_network c) (cf_vpn_portal_config c) (cf_routes c) (cf_socks5_proxy c) (cf_port_forward c)
    (cf_flags c) (cf_flags_struct c) (cf_acl c) (cf_tcp_whitelist c) (cf_udp_whitelist c) (cf_stun_servers c)
    (cf_stun_servers_v6 c).

Definition put_network_identity (v : option NetworkIdentity) (c : Config) : Config :=
  mkConfig
    (cf_netns c) (cf_hostname c) (cf_instance_name c) (cf_instance_id c) (cf_ipv4 c) (cf_ipv6 c) (cf_dhcp c) v
    (cf_listeners c) (cf_mapped_listeners c) (cf_exit_nodes c) (cf_peer c) (cf_proxy_network c)
    (cf_vpn_portal_config c) (cf_routes c) (cf_socks5_proxy c) (cf_port_forward c) (cf_flags c)
    (cf_flags_struct c) (cf_acl c) (cf_tcp_whitelist c) (cf_udp_whitelist c) (cf_stun_servers c)
    (cf_stun_servers_v6 c).

Definition put_listeners (v : option (list Url)) (c : Config) : Config :=
  mkConfig
    (cf_netns c) (cf_hostname c) (cf_instance_name c) (cf_instance_id c) (cf_ipv4 c) (cf_ipv6 c) (cf_dhcp c)
    (cf_network_identity c) v (cf_mapped_listeners c) (cf_exit_nodes c) (cf_peer c) (cf_proxy_network c)
    (cf_vpn_portal_config c) (cf_routes c) (cf_socks5_proxy c) (cf_port_forward c) (cf_flags c)
    (cf_flags_struct c) (cf_acl c) (cf_tcp_whitelist c) (cf_udp_whitelist c) (cf_stun_servers c)
    (cf_stun_servers_v6 c).

Definition put_mapped_listeners (v : option (list Url)) (c : Config) : Config :=
  mkConfig
    (cf_netns c) (cf_hostname c) (cf_instance_name c) (cf_instance_id c) (cf_ipv4 c) (cf_ipv6 c) (cf_dhcp c)
    (cf_network_identity c) (cf_listeners c) v (cf_exit_nodes c) (cf_peer c) (cf_proxy_network c)
    (cf_vpn_portal_config c) (cf_routes c) (cf_socks5_proxy c) (cf_port_forward c) (cf_flags c)
    (cf_flags_struct c) (cf_acl c) (cf_tcp_whitelist c) (cf_udp_whitelist c) (cf_stun_servers c)
    (cf_stun_servers_v6 c).

Definition put_exit_nodes (v : option (list IpAddr)) (c : Config) : Config :=
  mkConfig
    (cf_netns c) (cf_hostname c) (cf_instance_name c) (cf_instance_id c) (cf_ipv4 c) (cf_ipv6 c) (cf_dhcp c)
    (cf_network_identity c) (cf_listeners c) (cf_mapped_listeners c) v (cf_peer c) (cf_proxy_network c)
    (cf_vpn_portal_config c) (cf_routes c) (cf_socks5_proxy c) (cf_port_forward c) (cf_flags c)
    (cf_flags_struct c) (cf_acl c) (cf_tcp_whitelist c) (cf_udp_whitelist c) (cf_stun_servers c)
    (cf_stun_servers_v6 c).

Definition put_peer (v : option (list Url)) (c : Config) : Config :=
  mkConfig
    (cf_netns c) (cf_hostname c) (cf_instance_name c) (cf_instance_id c) (cf_ipv4 c) (cf_ipv6 c) (cf_dhcp c)
    (cf_network_identity c) (cf_listeners c) (cf_mapped_listeners c) (cf_exit_nodes c) v (cf_proxy_network c)
    (cf_vpn_portal_config c) (cf_routes c) (cf_socks5_proxy c) (cf_port_forward c) (cf_flags c)
    (cf_flags_struct c) (cf_acl c) (cf_tcp_whitelist c) (cf_udp_whitelist c) (cf_stun_servers c)
    (cf_stun_servers_v6 c).

Definition put_proxy_network (v : option (list ProxyNetworkConfig)) (c : Config) : Config :=
  mkConfig
    (cf_netns c) (cf_hostname c) (cf_instance_name c) (cf_instance_id c) (cf_ipv4 c) (cf_ipv6 c) (cf_dhcp c)
    (cf_network_identity c) (cf_listeners c) (cf_mapped_listeners c) (cf_exit_nodes c) (cf_peer c) v
    (cf_vpn_portal_config c) (cf_routes c) (cf_socks5_proxy c) (cf_port_forward c) (cf_flags c)
    (cf_flags_struct c) (cf_acl c) (cf_tcp_whitelist c) (cf_udp_whitelist c) (cf_stun_servers c)
    (cf_stun_servers_v6 c).

Definition put_vpn_portal_config (v : option VpnPortalConfig) (c : Config) : Config :=
  mkConfig
    (cf_netns c) (cf_hostname c) (cf_instance_name c) (cf_instance_id c) (cf_ipv4 c) (cf_ipv6 c) (cf_dhcp c)
    (cf_network_identity c) (cf_listeners c) (cf_mapped_listeners c) (cf_exit_nodes c) (cf_peer c)
    (cf_proxy_network c) v (cf_routes c) (cf_socks5_proxy c) (cf_port_forward c) (cf_flags c)
    (cf_flags_struct c) (cf_acl c) (cf_tcp_whitelist c) (cf_udp_whitelist c) (cf_stun_servers c)
    (cf_stun_servers_v6 c).

Definition put_routes (v : option (list Ipv4Cidr)) (c : Config) : Config :=
  mkConfig
    (cf_netns c) (cf_hostname c) (cf_instance_name c) (cf_instance_id c) (cf_ipv4 c) (cf_ipv6 c) (cf_dhcp c)
    (cf_network_identity c) (cf_listeners c) (cf_mapped_listeners c) (cf_exit_nodes c) (cf_peer c)
    (cf_proxy_network c) (cf_vpn_portal_config c) v (cf_socks5_proxy c) (cf_port_forward c) (cf_flags c)
    (cf_flags_struct c) (cf_acl c) (cf_tcp_whitelist c) (cf_udp_whitelist c) (cf_stun_servers c)
    (cf_stun_servers_v6 c).

Definition put_socks5_proxy (v : option Url) (c : Config) : Config :=
  mkConfig
    (cf_netns c) (cf_hostname c) (cf_instance_name c) (cf_instance_id c) (cf_ipv4 c) (cf_ipv6 c) (cf_dhcp c)
    (cf_network_identity c) (cf_listeners c) (cf_mapped_listeners c) (cf_exit_nodes c) (cf_peer c)
    (cf_proxy_network c) (cf_vpn_portal_config c) (cf_routes c) v (cf_port_forward c) (cf_flags c)
    (cf_flags_struct c) (cf_acl c) (cf_tcp_whitelist c) (cf_udp_whitelist c) (cf_stun_servers c)
    (cf_stun_servers_v6 c).

Definition put_port_forward (v : option (list PortForwardConfig)) (c : Config) : Config :=
  mkConfig
    (cf_netns c) (cf_hostname c) (cf_instance_name c) (cf_instance_id c) (cf_ipv4 c) (cf_ipv6 c) (cf_dhcp c)
    (cf_network_identity c) (cf_listeners c) (cf_mapped_listeners c) (cf_exit_nodes c) (cf_peer c)
    (cf_proxy_network c) (cf_vpn_portal_config c) (cf_routes c) (cf_socks5_proxy c) v (cf_flags c)
    (cf_flags_struct c) (cf_acl c) (cf_tcp_whitelist c) (cf_udp_whitelist c) (cf_stun_servers c)
    (cf_stun_servers_v6 c).

Definition put_flags (v : option (gmap text Json)) (c : Config) : Config :=
  mkConfig
    (cf_netns c) (cf_hostname c) (cf_instance_name c) (cf_instance_id c) (cf_ipv4 c) (cf_ipv6 c) (cf_dhcp c)
    (cf_network_identity c) (cf_listeners c) (cf_mapped_listeners c) (cf_exit_nodes c) (cf_peer c)
    (cf_proxy_network c) (cf_vpn_portal_config c) (cf_routes c) (cf_socks5_proxy c) (cf_port_forward c) v
    (cf_flags_struct c) (cf_acl c) (cf_tcp_whitelist c) (cf_udp_whitelist c) (cf_stun_servers c)
    (cf_stun_servers_v6 c).

Definition put_flags_struct (v : option Flags) (c : Config) : Config :=
  mkConfig
    (cf_netns c) (cf_hostname c) (cf_instance_name c) (cf_instance_id c) (cf_ipv4 c) (cf_ipv6 c) (cf_dhcp c)
    (cf_network_identity c) (cf_listeners c) (cf_mapped_listeners c) (cf_exit_nodes c) (cf_peer c)
    (cf_proxy_network c) (cf_vpn_portal_config c) (cf_routes c) (cf_socks5_proxy c) (cf_port_forward c)
    (cf_flags c) v (cf_acl c) (cf_tcp_whitelist c) (cf_udp_whitelist c) (cf_stun_servers c)
    (cf_stun_servers_v6 c).

Definition put_acl (v : option Acl) (c : Config) : Config :=
  mkConfig
    (cf_netns c) (cf_hostname c) (cf_instance_name c) (cf_instance_id c) (cf_ipv4 c) (cf_ipv6 c) (cf_dhcp c)
    (cf_network_identity c) (cf_listeners c) (cf_mapped_listeners c) (cf_exit_nodes c) (cf_peer c)
    (cf_proxy_network c) (cf_vpn_portal_config c) (cf_routes c) (cf_socks5_proxy c) (cf_port_forward c)
    (cf_flags c) (cf_flags_struct c) v (cf_tcp_whitelist c) (cf_udp_whitelist c) (cf_stun_servers c)
    (cf_stun_servers_v6 c).

Definition put_tcp_whitelist (v : option (list text)) (c : Config) : Config :=
  mkConfig
    (cf_netns c) (cf_hostname c) (cf_instance_name c) (cf_instance_id c) (cf_ipv4 c) (cf_ipv6 c) (cf_dhcp c)
    (cf_network_identity c) (cf_listeners c) (cf_mapped_listeners c) (cf_exit_nodes c) (cf_peer c)
    (cf_proxy_network c) (cf_vpn_portal_config c) (cf_routes c) (cf_socks5_proxy c) (cf_port_forward c)
    (cf_flags c) (cf_flags_struct c) (cf_acl c) v (cf_udp_whitelist c) (cf_stun_servers c)
    (cf_stun_servers_v6 c).

Definition put_udp_whitelist (v : option (list text)) (c : Config) : Config :=
  mkConfig
    (cf_netns c) (cf_hostname c) (cf_instance_name c) (cf_instance_id c) (cf_ipv4 c) (cf_ipv6 c) (cf_dhcp c)
    (cf_network_identity c) (cf_listeners c) (cf_mapped_listeners c) (cf_exit_nodes c) (cf_peer c)
    (cf_proxy_network c) (cf_vpn_portal_config c) (cf_routes c) (cf_socks5_proxy c) (cf_port_forward c)
    (cf_flags c) (cf_flags_struct c) (cf_acl c) (cf_tcp_whitelist c) v (cf_stun_servers c)
    (cf_stun_servers_v6 c).

Definition put_stun_servers (v : option (list text)) (c : Config) : Config :=
  mkConfig
    (cf_netns c) (cf_hostname c) (cf_instance_name c) (cf_instance_id c) (cf_ipv4 c) (cf_ipv6 c) (cf_dhcp c)
    (cf_network_identity c) (cf_listeners c) (cf_mapped_listeners c) (cf_exit_nodes c) (cf_peer c)
    (cf_proxy_network c) (cf_vpn_portal_config c) (cf_routes c) (cf_socks5_proxy c) (cf_port_forward c)
    (cf_flags c) (cf_flags_struct c) (cf_acl c) (cf_tcp_whitelist c) (cf_udp_whitelist c) v
    (cf_stun_servers_v6 c).

Definition put_stun_servers_v6 (v : option (list text)) (c : Config) : Config :=
  mkConfig
    (cf_netns c) (cf_hostname c) (cf_instance_name c) (cf_instance_id c) (cf_ipv4 c) (cf_ipv6 c) (cf_dhcp c)
    (cf_network_identity c) (cf_listeners c) (cf_mapped_listeners c) (cf_exit_nodes c) (cf_peer c)
    (cf_proxy_network c) (cf_vpn_portal_config c) (cf_routes c) (cf_socks5_proxy c) (cf_port_forward c)
    (cf_flags c) (cf_flags_struct c) (cf_acl c) (cf_tcp_whitelist c) (cf_udp_whitelist c) (cf_stun_servers c) v.
End config.
Arguments Config {_} {_} Json.

(** serde with the TOML and JSON formats.  Fields marked [serde(skip)] are left out
    when a configuration is written. *)
Class ConfigWire `{Ipv4CidrLib} `{UuidLib} := {
  Json : Type;
  #[global] json_eq_dec :: EqDecision Json;
  flags_to_json : Flags -> gmap text Json;
  flags_from_json : gmap text Json -> option Flags;
  toml_to_string : Config Json -> option text;
  toml_from_str : text -> option (Config Json)
}.

Section loader.
Context `{Hasher64} `{ConfigWire} `{!CidrText} (sys_hostname : text).
Implicit Types c : Config Json.

(** ** Methods *)

Definition get_inst_name c : text := default (txt "default") (cf_instance_name c).
Definition set_inst_name (name : text) c := put_instance_name (Some name) c.

Definition set_hostname (name : option text) c := put_hostname name c.
Definition get_hostname c : text * Config Json :=
  match cf_hostname c with
  | Some h =>
      let h := take 32 (List.filter (fun x => negb (is_control x)) h) in
      if bool_decide (h = []) then (sys_hostname, set_hostname None c) else (h, set_hostname (Some h) c)
  | None => (sys_hostname, c)
  end.

Definition get_netns c : option text := cf_netns c.
Definition set_netns (ns : option text) c := put_netns ns c.

Definition get_ipv4 c : option Inet :=
  (fun i => if in_length i =? 32 then {| in_address := in_address i; in_length := 24 |} else i)
    <$> (cf_ipv4 c ≫= inet_parse).
Definition set_ipv4 (addr : option Inet) c := put_ipv4 (inet_text <$> addr) c.

Definition get_ipv6 c : option Inet := cf_ipv6 c ≫= inet6_parse.
Definition set_ipv6 (addr : option Inet) c := put_ipv6 (inet6_text <$> addr) c.

Definition get_dhcp c : bool := default false (cf_dhcp c).
Definition set_dhcp (b : bool) c := put_dhcp (Some b) c.

Definition config_add_proxy_cidr (cidr : Ipv4Cidr) (mapped : option Ipv4Cidr) c : result string () * Config Json :=
  let '(r, p) := add_proxy_cidr cidr mapped (cf_proxy_network c) in (r, put_proxy_network p c).
Definition config_remove_proxy_cidr (cidr : Ipv4Cidr) c := put_proxy_network (remove_proxy_cidr cidr (cf_proxy_network c)) c.
Definition config_clear_proxy_cidrs c := put_proxy_network (clear_proxy_cidrs (cf_proxy_network c)) c.
Definition config_get_proxy_cidrs c : list ProxyNetworkConfig := get_proxy_cidrs (cf_proxy_network c).

(** [random] is the id made up when there is none. *)
Definition get_id (random : Uuid) c : Uuid * Config Json :=
  match cf_instance_id c with None => (random, put_instance_id (Some random) c) | Some id => (id, c) end.
Definition set_id (id : Uuid) c := put_instance_id (Some id) c.

Definition get_network_identity c : outcome NetworkIdentity :=
  match cf_network_identity c with Some i => Done i | None => network_identity_new (txt "default") [] end.
Definition set_network_identity (i : NetworkIdentity) c := put_network_identity (Some i) c.

Definition get_listener_uris c : list Url := default [] (cf_listeners c).
Definition get_peers c : list Url := default [] (cf_peer c).
Definition set_peers (l : list Url) c := put_peer (Some l) c.
Definition get_listeners c : option (list Url) := cf_listeners c.
Definition set_listeners (l : list Url) c := put_listeners (Some l) c.
Definition get_mapped_listeners c : list Url := default [] (cf_mapped_listeners c).
Definition set_mapped_listeners (l : option (list Url)) c := put_mapped_listeners l c.
Definition get_vpn_portal_config c : option VpnPortalConfig := cf_vpn_portal_config c.
Definition set_vpn_portal_config (v : VpnPortalConfig) c := put_vpn_portal_config (Some v) c.
Definition get_flags c : Flags := default zero_flags (cf_flags_struct c).
Definition set_flags (f : Flags) c := put_flags_struct (Some f) c.
Definition get_exit_nodes c : list IpAddr := default [] (cf_exit_nodes c).
Definition set_exit_nodes (l : list IpAddr) c := put_exit_nodes (Some l) c.
Definition get_routes c : option (list Ipv4Cidr) := cf_routes c.
Definition set_routes (l : option (list Ipv4Cidr)) c := put_routes l c.
Definition get_socks5_portal c : option Url := cf_socks5_proxy c.
Definition set_socks5_portal (u : option Url) c := put_socks5_proxy u c.
Definition get_port_forwards c : list PortForwardConfig := default [] (cf_port_forward c).
Definition set_port_forwards (l : list PortForwardConfig) c := put_port_forward (Some l) c.
Definition get_acl c : option Acl := cf_acl c.
Definition set_acl (a : option Acl) c := put_acl a c.
Definition get_tcp_whitelist c : list text := default [] (cf_tcp_whitelist c).
Definition set_tcp_whitelist (l : list text) c := put_tcp_whitelist (Some l) c.
Definition get_udp_whitelist c : list text := default [] (cf_udp_whitelist c).
Definition set_udp_whitelist (l : list text) c := put_udp_whitelist (Some l) c.
Definition get_stun_servers c : option (list text) := cf_stun_servers c.
Definition set_config_stun_servers (l : option (list text)) c := put_stun_servers l c.
Definition get_stun_servers_v6 c : option (list text) := cf_stun_servers_v6 c.
Definition set_config_stun_servers_v6 (l : option (list text)) c := put_stun_servers_v6 l c.

(** ** Reading and writing *)

(** A flag that is set replaces its default; unknown keys are dropped. *)
Definition gen_flags (flags_hashmap : gmap text Json) : outcome Flags :=
  unwrap (flags_from_json (map_imap (fun k v => Some (default v (flags_hashmap !! k))) (flags_to_json gen_default_flags))).

Definition new_from_str (config_str : text) : outcome (result () (Config Json)) :=
  match toml_from_str config_str with
  | None => Done (Err tt)
  | Some config =>
      f ← gen_flags (default ∅ (cf_flags config));
      let config := put_flags_struct (Some f) config in
      old_ns ← get_network_identity config;
      i ← network_identity_new (network_name old_ns) (default [] (network_secret old_ns));
      Done (Ok (set_network_identity i config))
  end.

(** [TomlConfigLoader::default]. *)
Definition loader_default : outcome (Config Json) :=
  r ← new_from_str []; match r with Ok c => Done c | Err _ => Panicked UnwrapOnNone end.

(** The flags that differ from their default. *)
Definition changed_flags (f : Flags) : gmap text Json :=
  map_imap (fun k v => match flags_to_json f !! k with
                       | Some w => if bool_decide (w = v) then None else Some w
                       | None => None
                       end) (flags_to_json gen_default_flags).

Definition without_default_servers c : Config Json :=
  let c := if bool_decide (cf_stun_servers c = Some get_default_servers) then put_stun_servers None c else c in
  if bool_decide (cf_stun_servers_v6 c = Some get_default_servers_v6) then put_stun_servers_v6 None c else c.

Definition dump c : outcome text :=
  unwrap (toml_to_string (without_default_servers (put_flags (Some (changed_flags (get_flags c))) c))).
End loader.

(** What serde keeps of a configuration. *)
Definition serde_skip {Json} `{Ipv4CidrLib} `{UuidLib} (c : Config Json) : Config Json :=
  put_flags_struct None (put_network_identity ((fun i => {| network_name := network_name i; network_secret := network_secret i;
    network_secret_digest := None |}) <$> cf_network_identity c) c).

Class ConfigWireLaws `{ConfigWire} := {
  flags_json f : flags_from_json (flags_to_json f) = Some f;
  flags_keys f g : dom (flags_to_json f) = dom (flags_to_json g);
  toml_empty : toml_from_str [] = Some (mkConfig None None None None None None None None None None None None None None None None None None None None None None None None);
  toml_roundtrip c t : toml_to_string c = Some t -> toml_from_str t = Some (serde_skip c)
}.

Section reading.
Context `{Hasher64} `{Hc : Ipv4CidrLib} `{Hu : UuidLib} `{Hw : !ConfigWire} `{!ConfigWireLaws}.
Implicit Types c : Config Json.

Lemma gen_changed_flags f : gen_flags (changed_flags f) = Done f.
Proof.
  unfold gen_flags. assert (map_imap (fun k v => Some (default v (changed_flags f !! k))) (flags_to_json gen_default_flags) = flags_to_json f) as ->.
  { apply map_eq. intros k. rewrite map_lookup_imap. unfold changed_flags. rewrite map_lookup_imap.
    assert (is_Some (flags_to_json gen_default_flags !! k) <-> is_Some (flags_to_json f !! k)) as Hk.
    { rewrite <- !elem_of_dom. by rewrite (flags_keys f gen_default_flags). }
    destruct (flags_to_json gen_default_flags !! k) as [v|] eqn:Ev; simpl.
    - destruct (proj1 Hk (ex_intro _ v eq_refl)) as [w ->]. case_bool_decide; by subst.
    - destruct (flags_to_json f !! k) as [w|]; [|done]. by destruct (proj2 Hk (ex_intro _ w eq_refl)). }
  by rewrite flags_json.
Qed.

Lemma gen_no_flags : gen_flags ∅ = Done gen_default_flags.
Proof.
  unfold gen_flags. assert (map_imap (fun k v => Some (default v ((∅ : gmap text Json) !! k))) (flags_to_json gen_default_flags) =
    flags_to_json gen_default_flags) as ->; [|by rewrite flags_json].
  apply map_eq. intros k. rewrite map_lookup_imap, lookup_empty. by destruct (_ !! k).
Qed.

(** The identity of a node that is given none. *)
Definition default_identity (i : NetworkIdentity) : Prop := network_identity_new (txt "default") [] = Done i.

Lemma identity_new_done name secret : exists i, network_identity_new name secret = Done i.
Proof. unfold network_identity_new, generate_digest_from_str. change (32 mod 8 =? 0) with true. by eexists. Qed.

Lemma identity_new_parts name secret i : network_identity_new name secret = Done i ->
  network_name i = name /\ network_secret i = Some secret.
Proof. unfold network_identity_new. intros E. apply bind_Done in E as (d & _ & [= <-]). done. Qed.

(** The default configuration has flags and identity, and nothing else. *)
Lemma loader_default_done : exists i, default_identity i /\
  loader_default = Done (put_flags_struct (Some gen_default_flags) (put_network_identity (Some i) (mkConfig None None None None None None None None None None None None None None None None None None None None None None None None))).
Proof.
  destruct (identity_new_done (txt "default") []) as [i Hi]. exists i. split; [done|]. destruct (identity_new_parts _ _ _ Hi) as [En Es].
  unfold loader_default, new_from_str. rewrite toml_empty. change (default ∅ (cf_flags _)) with (∅ : gmap text Json). rewrite gen_no_flags.
  cbn [mbind outcome_bind]. unfold get_network_identity. cbn [cf_network_identity put_flags_struct]. rewrite Hi. cbn [mbind outcome_bind].
  rewrite En, Es. cbn [from_option id]. rewrite Hi. done.
Qed.

(** What every configuration a node works with has: its flags, and an identity that
    was made from a name and a secret. *)
Definition loader_ok c : Prop :=
  (exists f, cf_flags_struct c = Some f) /\
  exists name secret i, cf_network_identity c = Some i /\ network_identity_new name secret = Done i.

Lemma new_from_str_ok t c : new_from_str t = Done (Ok c) -> loader_ok c.
Proof.
  unfold new_from_str. destruct (toml_from_str t) as [c0|]; [|done]. intros E.
  apply bind_Done in E as (f & _ & E). apply bind_Done in E as (o & _ & E). apply bind_Done in E as (i & Ei & E).
  injection E as <-. split; [by eexists|]. by eexists _, _, _.
Qed.

(** What is written, and therefore read back. *)
Definition reloaded c : Config Json := without_default_servers (put_flags (Some (changed_flags (get_flags c))) c).

Lemma reloaded_keeps c f i : cf_flags_struct c = Some f -> cf_network_identity c = Some i ->
  cf_flags_struct (reloaded c) = Some f /\ cf_network_identity (reloaded c) = Some i /\ cf_flags (reloaded c) = Some (changed_flags f) /\
  cf_instance_id (reloaded c) = cf_instance_id c /\
  default get_default_servers (cf_stun_servers (reloaded c)) = default get_default_servers (cf_stun_servers c).
Proof.
  intros Ef Ei. unfold reloaded, without_default_servers, get_flags. rewrite Ef. destruct c; simpl in *. subst.
  repeat case_bool_decide; simpl in *; by simplify_eq.
Qed.

Lemma reloaded_reloaded c f i : cf_flags_struct c = Some f -> cf_network_identity c = Some i -> reloaded (reloaded c) = reloaded c.
Proof.
  intros Ef Ei. destruct (reloaded_keeps _ _ _ Ef Ei) as (Hf & _ & Hfl & _ & _). unfold reloaded at 1, get_flags. rewrite Hf. cbn [from_option id].
  assert (put_flags (Some (changed_flags f)) (reloaded c) = reloaded c) as -> by (destruct (reloaded c); simpl in *; by subst).
  unfold reloaded, without_default_servers. generalize (put_flags (Some (changed_flags (get_flags c))) c). clear. intros [].
  repeat case_bool_decide; simpl in *; congruence.
Qed.

Lemma dump_reads_back c t : loader_ok c -> dump c = Done t -> new_from_str t = Done (Ok (reloaded c)) /\ dump (reloaded c) = Done t.
Proof.
  intros [[f Ef] (name & secret & i & Ei & Hi)] Hd. destruct (reloaded_keeps _ _ _ Ef Ei) as (Hf' & Hi' & Hfl & _).
  split; [|unfold dump; fold (reloaded (reloaded c)); by rewrite (reloaded_reloaded _ _ _ Ef Ei)].
  unfold dump in Hd. apply unwrap_Done in Hd. fold (reloaded c) in Hd. destruct (identity_new_parts _ _ _ Hi) as [En Es].
  unfold new_from_str. rewrite (toml_roundtrip _ _ Hd). assert (cf_flags (serde_skip (reloaded c)) = Some (changed_flags f)) as -> by (by rewrite <- Hfl).
  change (default ∅ (Some (changed_flags f))) with (changed_flags f). rewrite gen_changed_flags. cbn [mbind outcome_bind]. unfold get_network_identity.
  assert (cf_network_identity (put_flags_struct (Some f) (serde_skip (reloaded c))) =
    Some {| network_name := name; network_secret := Some secret; network_secret_digest := None |}) as ->.
  { destruct (reloaded c); simpl in *. subst. simpl. by rewrite Es. }
  cbn [mbind outcome_bind network_name network_secret from_option id]. rewrite Hi. cbn [mbind outcome_bind]. do 2 f_equal.
  unfold set_network_identity. destruct (reloaded c); simpl in *. by subst.
Qed.

(** C28.  A configuration that is written and read again is the one that was
    written: every flag, also those left out because they have their default, the
    identity with its digest, which is not written, and every other setting; STUN
    servers that are the default ones may come back as none given.  Writing it
    again writes the same text. *)
Theorem dump_reload c t : loader_ok c -> dump c = Done t ->
  exists c', new_from_str t = Done (Ok c') /\
    c' = without_default_servers (put_flags (Some (changed_flags (get_flags c))) c) /\
    get_flags c' = get_flags c /\ get_network_identity c' = get_network_identity c /\
    default get_default_servers (get_stun_servers c') = default get_default_servers (get_stun_servers c) /\
    dump c' = Done t.
Proof.
  intros Hok Hd. destruct (dump_reads_back _ _ Hok Hd) as [Hr Hd']. destruct Hok as [[f Ef] (name & secret & i & Ei & Hi)].
  destruct (reloaded_keeps _ _ _ Ef Ei) as (Hf' & Hi' & _ & _ & Hst). exists (reloaded c). split_and!; try done.
  - unfold get_flags. by rewrite Hf', Ef.
  - unfold get_network_identity. by rewrite Hi', Ei.
Qed.
End reading.

(** ** An example: a file format for flags, identity and DHCP *)

Inductive toy_json := JText (t : text) | JBool (b : bool) | JInt (z : Z).
#[local] Instance toy_json_eq_dec : EqDecision toy_json.
Proof. solve_decision. Defined.
#[local] Instance toy_json_countable : Countable toy_json.
Proof.
  refine (inj_countable' (fun j => match j with JText t => inl (inl t) | JBool b => inl (inr b) | JInt z => inr z end)
    (fun x => match x with inl (inl t) => JText t | inl (inr b) => JBool b | inr z => JInt z end) _).
  by intros [].
Defined.

Definition get_text (j : toy_json) : option text := match j with JText t => Some t | _ => None end.
Definition get_bool (j : toy_json) : option bool := match j with JBool b => Some b | _ => None end.
Definition get_int (j : toy_json) : option Z := match j with JInt z => Some z | _ => None end.

Definition toy_flags_json (f : Flags) : list (text * toy_json) := [
  (txt "default_protocol", JText (fl_default_protocol f)); (txt "dev_name", JText (fl_dev_name f));
  (txt "enable_encryption", JBool (fl_enable_encryption f)); (txt "enable_ipv6", JBool (fl_enable_ipv6 f));
  (txt "mtu", JInt (fl_mtu f)); (txt "latency_first", JBool (fl_latency_first f));
  (txt "enable_exit_node", JBool (fl_enable_exit_node f)); (txt "no_tun", JBool (fl_no_tun f));
  (txt "use_smoltcp", JBool (fl_use_smoltcp f));
  (txt "relay_network_whitelist", JText (fl_relay_network_whitelist f));
  (txt "disable_p2p", JBool (fl_disable_p2p f)); (txt "relay_all_peer_rpc", JBool (fl_relay_all_peer_rpc f));
  (txt "disable_udp_hole_punching", JBool (fl_disable_udp_hole_punching f));
  (txt "multi_thread", JBool (fl_multi_thread f)); (txt "data_compress_algo", JInt (fl_data_compress_algo f));
  (txt "bind_device", JBool (fl_bind_device f)); (txt "enable_kcp_proxy", JBool (fl_enable_kcp_proxy f));
  (txt "disable_kcp_input", JBool (fl_disable_kcp_input f));
  (txt "disable_relay_kcp", JBool (fl_disable_relay_kcp f));
  (txt "proxy_forward_by_system", JBool (fl_proxy_forward_by_system f));
  (txt "accept_dns", JBool (fl_accept_dns f)); (txt "private_mode", JBool (fl_private_mode f));
  (txt "enable_quic_proxy", JBool (fl_enable_quic_proxy f));
  (txt "disable_quic_input", JBool (fl_disable_quic_input f));
  (txt "quic_listen_port", JInt (fl_quic_listen_port f));
  (txt "foreign_relay_bps_limit", JInt (fl_foreign_relay_bps_limit f));
  (txt "multi_thread_count", JInt (fl_multi_thread_count f));
  (txt "enable_relay_foreign_network_kcp", JBool (fl_enable_relay_foreign_network_kcp f));
  (txt "encryption_algorithm", JText (fl_encryption_algorithm f));
  (txt "disable_sym_hole_punching", JBool (fl_disable_sym_hole_punching f));
  (txt "tld_dns_zone", JText (fl_tld_dns_zone f))].

Definition toy_flags_of (m : gmap text toy_json) : option Flags :=
  x0 ← m !! txt "default_protocol" ≫= get_text;
  x1 ← m !! txt "dev_name" ≫= get_text;
  x2 ← m !! txt "enable_encryption" ≫= get_bool;
  x3 ← m !! txt "enable_ipv6" ≫= get_bool;
  x4 ← m !! txt "mtu" ≫= get_int;
  x5 ← m !! txt "latency_first" ≫= get_bool;
  x6 ← m !! txt "enable_exit_node" ≫= get_bool;
  x7 ← m !! txt "no_tun" ≫= get_bool;
  x8 ← m !! txt "use_smoltcp" ≫= get_bool;
  x9 ← m !! txt "relay_network_whitelist" ≫= get_text;
  x10 ← m !! txt "disable_p2p" ≫= get_bool;
  x11 ← m !! txt "relay_all_peer_rpc" ≫= get_bool;
  x12 ← m !! txt "disable_udp_hole_punching" ≫= get_bool;
  x13 ← m !! txt "multi_thread" ≫= get_bool;
  x14 ← m !! txt "data_compress_algo" ≫= get_int;
  x15 ← m !! txt "bind_device" ≫= get_bool;
  x16 ← m !! txt "enable_kcp_proxy" ≫= get_bool;
  x17 ← m !! txt "disable_kcp_input" ≫= get_bool;
  x18 ← m !! txt "disable_relay_kcp" ≫= get_bool;
  x19 ← m !! txt "proxy_forward_by_system" ≫= get_bool;
  x20 ← m !! txt "accept_dns" ≫= get_bool;
  x21 ← m !! txt "private_mode" ≫= get_bool;
  x22 ← m !! txt "enable_quic_proxy" ≫= get_bool;
  x23 ← m !! txt "disable_quic_input" ≫= get_bool;
  x24 ← m !! txt "quic_listen_port" ≫= get_int;
  x25 ← m !! txt "foreign_relay_bps_limit" ≫= get_int;
  x26 ← m !! txt "multi_thread_count" ≫= get_int;
  x27 ← m !! txt "enable_relay_foreign_network_kcp" ≫= get_bool;
  x28 ← m !! txt "encryption_algorithm" ≫= get_text;
  x29 ← m !! txt "disable_sym_hole_punching" ≫= get_bool;
  x30 ← m !! txt "tld_dns_zone" ≫= get_text;
  Some {|
    fl_default_protocol := x0; fl_dev_name := x1; fl_enable_encryption := x2; fl_enable_ipv6 := x3;
    fl_mtu := x4; fl_latency_first := x5; fl_enable_exit_node := x6; fl_no_tun := x7; fl_use_smoltcp := x8;
    fl_relay_network_whitelist := x9; fl_disable_p2p := x10; fl_relay_all_peer_rpc := x11;
    fl_disable_udp_hole_punching := x12; fl_multi_thread := x13; fl_data_compress_algo := x14;
    fl_bind_device := x15; fl_enable_kcp_proxy := x16; fl_disable_kcp_input := x17;
    fl_disable_relay_kcp := x18; fl_proxy_forward_by_system := x19; fl_accept_dns := x20;
    fl_private_mode := x21; fl_enable_quic_proxy := x22; fl_disable_quic_input := x23;
    fl_quic_listen_port := x24; fl_foreign_relay_bps_limit := x25; fl_multi_thread_count := x26;
    fl_enable_relay_foreign_network_kcp := x27; fl_encryption_algorithm := x28;
    fl_disable_sym_hole_punching := x29; fl_tld_dns_zone := x30 |}.

#[local] Instance toy_uuid : UuidLib := {| Uuid := Z; uuid_text := fun u => [u]; uuid_parse := fun t => head t |}.

Definition toy_file : Type := option bool * option (text * option text) * option (gmap text toy_json).

Definition toy_to_string (c : @Config net_lib toy_uuid toy_json) : option text :=
  match c with
  | mkConfig None None None None None None d i None None None None None None None None None m _ None None None None None =>
      Some [Z.pos (encode (d, (fun i => (network_name i, network_secret i)) <$> i, m) : positive)]
  | _ => None
  end.

Definition toy_from_str (t : text) : option (@Config net_lib toy_uuid toy_json) :=
  let make (x : toy_file) :=
    let '(d, i, m) := x in
    let i := (fun '(n, s) => {| network_name := n; network_secret := s; network_secret_digest := None |}) <$> i in
    mkConfig None None None None None None d i None None None None None None None None None m None None None None None None in
  match t with
  | [] => Some (make (None, None, None))
  | [Z.pos p] => make <$> decode p
  | _ => None
  end.

#[local] Instance toy_wire : @ConfigWire net_lib toy_uuid := {|
  Json := toy_json; flags_to_json := fun f => list_to_map (toy_flags_json f); flags_from_json := toy_flags_of;
  toml_to_string := toy_to_string; toml_from_str := toy_from_str |}.

#[local] Instance toy_wire_laws : ConfigWireLaws.
Proof.
  split.
  - intros []. vm_compute. reflexivity.
  - intros f g. cbn [flags_to_json toy_wire]. by rewrite !(dom_list_to_map_L (D := gset text)).
  - done.
  - intros c t. cbn. unfold toy_to_string. destruct c as [? ? ? ? ? ? d ni ? ? ? ? ? ? ? ? ? m fs ? ? ? ? ?].
    repeat (case_match; try done). intros [= <-]. unfold toy_from_str. rewrite decode_encode. cbn. by destruct ni.
Qed.

#[local] Instance config_hasher : Hasher64 := {| hash64 l := as_u64 (len l) |}.

(** A configuration as it is read, with another MTU and identity. *)
Definition ex_flags : Flags := {|
  fl_default_protocol := txt "tcp"; fl_dev_name := []; fl_enable_encryption := true; fl_enable_ipv6 := true;
  fl_mtu := 1400; fl_latency_first := false; fl_enable_exit_node := false; fl_no_tun := false;
  fl_use_smoltcp := false; fl_relay_network_whitelist := txt "*"; fl_disable_p2p := false;
  fl_relay_all_peer_rpc := false; fl_disable_udp_hole_punching := false; fl_multi_thread := true;
  fl_data_compress_algo := 1; fl_bind_device := true; fl_enable_kcp_proxy := false;
  fl_disable_kcp_input := false; fl_disable_relay_kcp := false; fl_proxy_forward_by_system := false;
  fl_accept_dns := false; fl_private_mode := false; fl_enable_quic_proxy := false;
  fl_disable_quic_input := false; fl_quic_listen_port := 0; fl_foreign_relay_bps_limit := U64_MAX;
  fl_multi_thread_count := 2; fl_enable_relay_foreign_network_kcp := false;
  fl_encryption_algorithm := txt "aes-gcm"; fl_disable_sym_hole_punching := false;
  fl_tld_dns_zone := txt "et.net." |}.

Lemma dump_reload_witness : exists (c : Config Json) t c', dump c = Done t /\ new_from_str t = Done (Ok c') /\
  fl_mtu (get_flags c') = 1400 /\ get_network_identity c' = network_identity_new (txt "net") (txt "secret").
Proof.
  destruct loader_default_done as (i0 & _ & E0). destruct (identity_new_done (txt "net") (txt "secret")) as [i Hi].
  destruct loader_default as [c0|p]; [|done]. injection E0 as ->.
  set (c := set_flags ex_flags (set_network_identity i (set_dhcp true (put_flags_struct (Some gen_default_flags) (put_network_identity (Some i0) (mkConfig None None None None None None None None None None None None None None None None None None None None None None None None)))))).
  destruct (dump c) as [t|p] eqn:Ed; [|done].
  destruct (dump_reload c t) as (c' & En & _ & Ef & Ei & _); [split; [by eexists|by eexists _, _, _]|exact Ed|].
  exists c, t, c'. split_and!; [done|exact En|by rewrite Ef|]. rewrite Ei. by rewrite Hi.
Defined.
