(* ===== verification/NetworkConfig.v ===== *)
(** * Configurations of the front ends

    [NetworkConfig] of [launcher.rs], the form in which a configuration is edited
    and sent: it is turned into a configuration of an instance ([gen_config]) and
    made from one ([new_from_config]). *)

From stdpp Require Import base numbers list gmap strings.
From Stdlib Require Import ZifyBool.
From S2P Require Import Prelude Text AclRules PeerConn CidrSet AclProcessor NetText Stun DirectConnect Config.
Open Scope Z_scope.

(** A URL reads back from its text; the empty string is none. *)
Class UrlTextLaws `{UrlOps} := {
  parse_url_text t u : parse_url t = Some u -> parse_url (u_text u) = Some u;
  parse_url_empty : parse_url [] = None
}.

Record PortForward := { fw_bind_ip : text; fw_bind_port : Z; fw_dst_ip : text; fw_dst_port : Z; fw_proto : text }.

Record NetworkConfig := {
  nc_instance_id : option text; nc_dhcp : option bool; nc_virtual_ipv4 : option text;
  nc_network_length : option Z; nc_hostname : option text; nc_network_name : option text;
  nc_network_secret : option text; nc_networking_method : option Z; nc_public_server_url : option text;
  nc_peer_urls : list text; nc_proxy_cidrs : list text; nc_enable_vpn_portal : option bool;
  nc_vpn_portal_listen_port : option Z; nc_vpn_portal_client_network_addr : option text;
  nc_vpn_portal_client_network_len : option Z; nc_listener_urls : list text; nc_latency_first : option bool;
  nc_dev_name : option text; nc_use_smoltcp : option bool; nc_disable_ipv6 : option bool;
  nc_enable_kcp_proxy : option bool; nc_disable_kcp_input : option bool; nc_disable_p2p : option bool;
  nc_bind_device : option bool; nc_no_tun : option bool; nc_enable_exit_node : option bool;
  nc_relay_all_peer_rpc : option bool; nc_multi_thread : option bool;
  nc_enable_relay_network_whitelist : option bool; nc_relay_network_whitelist : list text;
  nc_enable_manual_routes : option bool; nc_routes : list text; nc_exit_nodes : list text;
  nc_proxy_forward_by_system : option bool; nc_disable_encryption : option bool;
  nc_enable_socks5 : option bool; nc_socks5_port : option Z; nc_disable_udp_hole_punching : option bool;
  nc_mtu : option Z; nc_mapped_listeners : list text; nc_enable_magic_dns : option bool;
  nc_enable_private_mode : option bool; nc_enable_quic_proxy : option bool;
  nc_disable_quic_input : option bool; nc_quic_listen_port : option Z; nc_port_forwards : list PortForward;
  nc_disable_sym_hole_punching : option bool }.

Inductive NetworkingMethod := PublicServer | Manual | Standalone.

(** [try_from] and [unwrap_or_default]. *)
Definition networking_method_of (z : Z) : NetworkingMethod :=
  if z =? 1 then Manual else if z =? 2 then Standalone else PublicServer.

Inductive config_error :=
  | BadInstanceId | BadIpv4 | BadServerUrl | BadPeerUrl | BadListenerUrl | BadProxyNetwork | BadProxyFormat
  | BadMappedNetwork | MappedLength (e : string) | BadVpnCidr | BadVpnPort | BadRoute | BadExitNode.

Definition gen_flags_of (n : NetworkConfig) : Flags := {|
  fl_default_protocol := fl_default_protocol gen_default_flags;
  fl_dev_name := default (fl_dev_name gen_default_flags) (nc_dev_name n);
  fl_enable_encryption := match nc_disable_encryption n with Some b => negb b | None => fl_enable_encryption gen_default_flags end;
  fl_enable_ipv6 := match nc_disable_ipv6 n with Some b => negb b | None => fl_enable_ipv6 gen_default_flags end;
  fl_mtu := match nc_mtu n with Some x => as_u32 x | None => fl_mtu gen_default_flags end;
  fl_latency_first := default (fl_latency_first gen_default_flags) (nc_latency_first n);
  fl_enable_exit_node := default (fl_enable_exit_node gen_default_flags) (nc_enable_exit_node n);
  fl_no_tun := default (fl_no_tun gen_default_flags) (nc_no_tun n);
  fl_use_smoltcp := default (fl_use_smoltcp gen_default_flags) (nc_use_smoltcp n);
  fl_relay_network_whitelist := if default false (nc_enable_relay_network_whitelist n) then join [32] (nc_relay_network_whitelist n) else fl_relay_network_whitelist gen_default_flags;
  fl_disable_p2p := default (fl_disable_p2p gen_default_flags) (nc_disable_p2p n);
  fl_relay_all_peer_rpc := default (fl_relay_all_peer_rpc gen_default_flags) (nc_relay_all_peer_rpc n);
  fl_disable_udp_hole_punching := default (fl_disable_udp_hole_punching gen_default_flags) (nc_disable_udp_hole_punching n);
  fl_multi_thread := default (fl_multi_thread gen_default_flags) (nc_multi_thread n);
  fl_data_compress_algo := fl_data_compress_algo gen_default_flags;
  fl_bind_device := default (fl_bind_device gen_default_flags) (nc_bind_device n);
  fl_enable_kcp_proxy := default (fl_enable_kcp_proxy gen_default_flags) (nc_enable_kcp_proxy n);
  fl_disable_kcp_input := default (fl_disable_kcp_input gen_default_flags) (nc_disable_kcp_input n);
  fl_disable_relay_kcp := fl_disable_relay_kcp gen_default_flags;
  fl_proxy_forward_by_system := default (fl_proxy_forward_by_system gen_default_flags) (nc_proxy_forward_by_system n);
  fl_accept_dns := default (fl_accept_dns gen_default_flags) (nc_enable_magic_dns n);
  fl_private_mode := default (fl_private_mode gen_default_flags) (nc_enable_private_mode n);
  fl_enable_quic_proxy := default (fl_enable_quic_proxy gen_default_flags) (nc_enable_quic_proxy n);
  fl_disable_quic_input := default (fl_disable_quic_input gen_default_flags) (nc_disable_quic_input n);
  fl_quic_listen_port := match nc_quic_listen_port n with Some x => as_u32 x | None => fl_quic_listen_port gen_default_flags end;
  fl_foreign_relay_bps_limit := fl_foreign_relay_bps_limit gen_default_flags;
  fl_multi_thread_count := fl_multi_thread_count gen_default_flags;
  fl_enable_relay_foreign_network_kcp := fl_enable_relay_foreign_network_kcp gen_default_flags;
  fl_encryption_algorithm := fl_encryption_algorithm gen_default_flags;
  fl_disable_sym_hole_punching := default (fl_disable_sym_hole_punching gen_default_flags) (nc_disable_sym_hole_punching n);
  fl_tld_dns_zone := fl_tld_dns_zone gen_default_flags |}.

Section convert.
Context `{Hasher64} `{ConfigWire} `{!CidrText} `{!UrlOps} (sys_hostname : text).
Implicit Types (c : Config Json) (n : NetworkConfig).

(** ** From the front end *)

Fixpoint parse_each {A} (parse : text -> option A) (e : config_error) (l : list text) : result config_error (list A) :=
  match l with
  | [] => Ok []
  | t :: l =>
      match parse t with
      | None => Err e
      | Some a => match parse_each parse e l with Ok r => Ok (a :: r) | Err e => Err e end
      end
  end.

Definition nonempty (l : list text) : list text := List.filter (fun t => negb (bool_decide (t = []))) l.

Definition gen_basics (random : Uuid) n c : outcome (result config_error (Config Json)) :=
  match uuid_parse (default (uuid_text random) (nc_instance_id n)) with
  | None => Done (Err BadInstanceId)
  | Some id =>
      let name := default [] (nc_network_name n) in
      i ← network_identity_new name (default [] (nc_network_secret n));
      Done (Ok (set_network_identity i (set_inst_name name (set_dhcp (default false (nc_dhcp n))
                 (set_hostname (nc_hostname n) (set_id id c))))))
  end.

Definition gen_ipv4 n c : result config_error (Config Json) :=
  if get_dhcp c then Ok c
  else
    let virtual_ipv4 := default [] (nc_virtual_ipv4 n) in
    if bool_decide (virtual_ipv4 = []) then Ok c
    else
      match inet_parse (virtual_ipv4 ++ [47] ++ print_i32 (default 24 (nc_network_length n))) with
      | None => Err BadIpv4
      | Some ip => Ok (set_ipv4 (Some ip) c)
      end.

Definition gen_peers n c : result config_error (Config Json) :=
  match networking_method_of (default 0 (nc_networking_method n)) with
  | PublicServer =>
      match parse_url (default [] (nc_public_server_url n)) with None => Err BadServerUrl | Some u => Ok (set_peers [u] c) end
  | Manual =>
      match parse_each parse_url BadPeerUrl (nonempty (nc_peer_urls n)) with Ok l => Ok (set_peers l c) | Err e => Err e end
  | Standalone => Ok c
  end.

Definition gen_listeners n c : result config_error (Config Json) :=
  match parse_each parse_url BadListenerUrl (nonempty (nc_listener_urls n)) with Ok l => Ok (set_listeners l c) | Err e => Err e end.

Definition add_proxy_network_to_config (proxy_network : text) c : result config_error (Config Json) :=
  let add real mapped :=
    match config_add_proxy_cidr real mapped c with (Ok _, c) => Ok c | (Err e, _) => Err (MappedLength e) end in
  match split2 45 62 proxy_network with
  | [] => Err BadProxyNetwork
  | real :: rest =>
      match cidr_parse real with
      | None => Err BadProxyNetwork
      | Some real_cidr =>
          match rest with
          | [] => add real_cidr None
          | [mapped] => match cidr_parse mapped with None => Err BadMappedNetwork | Some m => add real_cidr (Some m) end
          | _ => Err BadProxyFormat
          end
      end
  end.

Fixpoint gen_proxies (l : list text) c : result config_error (Config Json) :=
  match l with
  | [] => Ok c
  | p :: l => match add_proxy_network_to_config p c with Ok c => gen_proxies l c | Err e => Err e end
  end.

(** A forward with an address that does not parse is left out. *)
Definition parse_forward (pf : PortForward) : option PortForwardConfig :=
  if bool_decide (fw_bind_ip pf = []) || bool_decide (fw_dst_ip pf = []) then None
  else
    match parse_socket_addr (fw_bind_ip pf ++ [58] ++ print_u32 (fw_bind_port pf)),
          parse_socket_addr (fw_dst_ip pf ++ [58] ++ print_u32 (fw_dst_port pf)) with
    | Some b, Some d => Some {| bind_addr := b; dst_addr := d; pf_proto := fw_proto pf |}
    | _, _ => None
    end.

Definition gen_forwards n c : Config Json :=
  match nc_port_forwards n with [] => c | l => set_port_forwards (omap parse_forward l) c end.

Definition gen_vpn n c : result config_error (Config Json) :=
  if default false (nc_enable_vpn_portal n) then
    match cidr_parse (default [] (nc_vpn_portal_client_network_addr n) ++ [47] ++ print_i32 (default 24 (nc_vpn_portal_client_network_len n))) with
    | None => Err BadVpnCidr
    | Some cidr =>
        match parse_socket_addr (txt "0.0.0.0:" ++ print_i32 (default 0 (nc_vpn_portal_listen_port n))) with
        | None => Err BadVpnPort
        | Some a => Ok (set_vpn_portal_config {| client_cidr := cidr; wireguard_listen := a |} c)
        end
    end
  else Ok c.

Definition gen_routes n c : result config_error (Config Json) :=
  if default false (nc_enable_manual_routes n) then
    match parse_each cidr_parse BadRoute (nc_routes n) with Ok l => Ok (set_routes (Some l) c) | Err e => Err e end
  else Ok c.

Definition gen_exit_nodes n c : result config_error (Config Json) :=
  match nc_exit_nodes n with
  | [] => Ok c
  | l => match parse_each parse_ip BadExitNode l with Ok l => Ok (set_exit_nodes l c) | Err e => Err e end
  end.

(** [unwrap] on a port the URL does not take. *)
Definition socks5_text (port : Z) : text := txt "socks5://0.0.0.0:" ++ print_i32 port.

Definition gen_socks5 n c : outcome (Config Json) :=
  if default false (nc_enable_socks5 n) then
    match nc_socks5_port n with
    | Some port => u ← unwrap (parse_url (socks5_text port)); Done (set_socks5_portal (Some u) c)
    | None => Done c
    end
  else Done c.

Fixpoint parse_mapped (l : list text) : outcome (list Url) :=
  match l with
  | [] => Done []
  | t :: l =>
      u ← unwrap (parse_url t);
      match u_port u with
      | None => Panicked ExplicitPanic
      | Some _ => us ← parse_mapped l; Done (u :: us)
      end
  end.

Definition gen_mapped n c : outcome (Config Json) :=
  match nc_mapped_listeners n with
  | [] => Done c
  | l => us ← parse_mapped l; Done (set_mapped_listeners (Some us) c)
  end.

Definition gen_config (random : Uuid) n : outcome (result config_error (Config Json)) :=
  cfg ← loader_default;
  r ← gen_basics random n cfg;
  try r (fun c => try (gen_ipv4 n c) (fun c => try (gen_peers n c) (fun c => try (gen_listeners n c) (fun c =>
  try (gen_proxies (nc_proxy_cidrs n) c) (fun c => let c := gen_forwards n c in try (gen_vpn n c) (fun c =>
  try (gen_routes n c) (fun c => try (gen_exit_nodes n c) (fun c =>
    c ← gen_socks5 n c;
    c ← gen_mapped n c;
    Done (Ok (set_flags (gen_flags_of n) c)))))))))).

(** ** To the front end *)

Definition proxy_text (p : ProxyNetworkConfig) : text :=
  match pn_mapped_cidr p with Some m => cidr_text (pn_cidr p) ++ txt "->" ++ cidr_text m | None => cidr_text (pn_cidr p) end.

Definition forward_text (f : PortForwardConfig) : PortForward := {|
  fw_proto := pf_proto f; fw_bind_ip := print_ip (bind_addr f).1; fw_bind_port := (bind_addr f).2;
  fw_dst_ip := print_ip (dst_addr f).1; fw_dst_port := (dst_addr f).2 |}.

Definition new_from_config (random : Uuid) c : outcome NetworkConfig :=
  default_config ← loader_default;
  let '(id, c) := get_id random c in
  let '(host, c) := get_hostname sys_hostname c in
  let default_host := (get_hostname sys_hostname default_config).1 in
  i ← get_network_identity c;
  let peers := get_peers c in
  let f := get_flags c in
  let listed := negb (bool_decide (fl_relay_network_whitelist f = [])) && negb (bool_decide (fl_relay_network_whitelist f = txt "*")) in
  Done {|
     nc_instance_id := Some (uuid_text id);
     nc_dhcp := Some (get_dhcp c);
     nc_virtual_ipv4 := print_ipv4 ∘ in_address <$> get_ipv4 c;
     nc_network_length := in_length <$> get_ipv4 c;
     nc_hostname := if bool_decide (host = default_host) then None else Some host;
     nc_network_name := Some (network_name i);
     nc_network_secret := network_secret i;
     nc_networking_method := Some (match peers with [] => 2 | [_] => 0 | _ => 1 end);
     nc_public_server_url := match peers with [p] => Some (u_text p) | _ => None end;
     nc_peer_urls := match peers with [] | [_] => [] | _ => u_text <$> peers end;
     nc_proxy_cidrs := proxy_text <$> config_get_proxy_cidrs c;
     nc_enable_vpn_portal := (fun _ => true) <$> get_vpn_portal_config c;
     nc_vpn_portal_listen_port := (fun v => (wireguard_listen v).2) <$> get_vpn_portal_config c;
     nc_vpn_portal_client_network_addr := (fun v => print_ipv4 (first_address (client_cidr v))) <$> get_vpn_portal_config c;
     nc_vpn_portal_client_network_len := (fun v => network_length (client_cidr v)) <$> get_vpn_portal_config c;
     nc_listener_urls := u_text <$> default [] (get_listeners c);
     nc_latency_first := Some (fl_latency_first f);
     nc_dev_name := Some (fl_dev_name f);
     nc_use_smoltcp := Some (fl_use_smoltcp f);
     nc_disable_ipv6 := Some (negb (fl_enable_ipv6 f));
     nc_enable_kcp_proxy := Some (fl_enable_kcp_proxy f);
     nc_disable_kcp_input := Some (fl_disable_kcp_input f);
     nc_disable_p2p := Some (fl_disable_p2p f);
     nc_bind_device := Some (fl_bind_device f);
     nc_no_tun := Some (fl_no_tun f);
     nc_enable_exit_node := Some (fl_enable_exit_node f);
     nc_relay_all_peer_rpc := Some (fl_relay_all_peer_rpc f);
     nc_multi_thread := Some (fl_multi_thread f);
     nc_enable_relay_network_whitelist := if listed then Some true else None;
     nc_relay_network_whitelist := if listed then split_whitespace (fl_relay_network_whitelist f) else [];
     nc_enable_manual_routes := match get_routes c with Some (_ :: _) => Some true | _ => None end;
     nc_routes := cidr_text <$> default [] (get_routes c);
     nc_exit_nodes := print_ip <$> get_exit_nodes c;
     nc_proxy_forward_by_system := Some (fl_proxy_forward_by_system f);
     nc_disable_encryption := Some (negb (fl_enable_encryption f));
     nc_enable_socks5 := (fun _ => true) <$> get_socks5_portal c;
     nc_socks5_port := get_socks5_portal c ≫= u_port;
     nc_disable_udp_hole_punching := Some (fl_disable_udp_hole_punching f);
     nc_mtu := Some (as_i32 (fl_mtu f));
     nc_mapped_listeners := u_text <$> get_mapped_listeners c;
     nc_enable_magic_dns := Some (fl_accept_dns f);
     nc_enable_private_mode := Some (fl_private_mode f);
     nc_enable_quic_proxy := Some (fl_enable_quic_proxy f);
     nc_disable_quic_input := Some (fl_disable_quic_input f);
     nc_quic_listen_port := Some (as_i32 (fl_quic_listen_port f));
     nc_port_forwards := forward_text <$> get_port_forwards c;
     nc_disable_sym_hole_punching := Some (fl_disable_sym_hole_punching f) |}.
End convert.

(** ** There and back *)

Section roundtrip.
Context `{Hasher64} `{Hc : Ipv4CidrLib} `{Hu : UuidLib} `{Hw : !ConfigWire} `{!ConfigWireLaws} `{!UuidLaws} `{!CidrText} `{!CidrTextLaws}
  `{!UrlOps} `{!UrlTextLaws} (sys_hostname : text).
Implicit Types (c : Config Json) (n : NetworkConfig).

(** A URL that was parsed. *)
Definition url_ok (u : Url) : Prop := parse_url (u_text u) = Some u.

(** Networks as [add_proxy_cidr] leaves them. *)
Definition networks_ok (ps : list ProxyNetworkConfig) : Prop :=
  NoDup ((fun p => (pn_cidr p, pn_mapped_cidr p)) <$> ps) /\
  Forall (fun p => forall m, pn_mapped_cidr p = Some m -> network_length m = network_length (pn_cidr p)) ps.

Definition socket_ok (a : SocketAddr) : Prop := ip_ok a.1 /\ in_width 16 a.2.

(** What the program needs of a configuration to take it to the front ends and back: addresses, ports and numbers fit their types, and
    URLs are parsed ones, as in every configuration it holds; proxy networks are as it adds them itself; mapped
    listeners have a port, and the port of the SOCKS5 portal is one a URL takes. *)
Record form_ok c : Prop := {
  fo_identity : exists name secret i, get_network_identity c = Done i /\ network_identity_new name secret = Done i;
  fo_peers : Forall url_ok (get_peers c);
  fo_listeners : Forall url_ok (default [] (get_listeners c));
  fo_mapped : Forall (fun u => url_ok u /\ is_Some (u_port u)) (get_mapped_listeners c);
  fo_proxies : networks_ok (config_get_proxy_cidrs c);
  fo_forwards : Forall (fun f => socket_ok (bind_addr f) /\ socket_ok (dst_addr f)) (get_port_forwards c);
  fo_vpn : forall v, get_vpn_portal_config c = Some v -> in_width 16 (wireguard_listen v).2;
  fo_exit_nodes : Forall ip_ok (get_exit_nodes c);
  fo_socks5 : forall u port, get_socks5_portal c = Some u -> u_port u = Some port -> is_Some (parse_url (socks5_text port));
  fo_flags : in_width 32 (fl_mtu (get_flags c)) /\ in_width 32 (fl_quic_listen_port (get_flags c))
}.

(** *** What comes back *)

Definition is_v4 (a : SocketAddr) : bool := match a.1 with V4 _ => true | V6 _ => false end.

Definition form_forwards (l : list PortForwardConfig) : list PortForwardConfig :=
  List.filter (fun f => is_v4 (bind_addr f) && is_v4 (dst_addr f)) l.

Definition form_proxy (p : ProxyNetworkConfig) : ProxyNetworkConfig :=
  {| pn_cidr := pn_cidr p; pn_mapped_cidr := pn_mapped_cidr p; pn_allow := None |}.

Definition form_vpn (v : VpnPortalConfig) : VpnPortalConfig :=
  {| client_cidr := client_cidr v; wireguard_listen := (V4 0, (wireguard_listen v).2) |}.

Definition form_routes (o : option (list Ipv4Cidr)) : option (list Ipv4Cidr) := match o with Some [] => None | o => o end.

Definition form_socks5 (o : option Url) : option Url := u ← o; port ← u_port u; parse_url (socks5_text port).

(** The flags the front ends do not know get their defaults; the list of relayed networks is written with single spaces, and an
    empty one becomes the one that allows all. *)
Definition form_whitelist (w : text) : text :=
  if bool_decide (w = []) || bool_decide (w = txt "*") then txt "*" else join [32] (split_whitespace w).

Definition form_flags_of (f : Flags) : Flags := {|
  fl_default_protocol := fl_default_protocol gen_default_flags; fl_dev_name := fl_dev_name f;
  fl_enable_encryption := fl_enable_encryption f; fl_enable_ipv6 := fl_enable_ipv6 f; fl_mtu := fl_mtu f;
  fl_latency_first := fl_latency_first f; fl_enable_exit_node := fl_enable_exit_node f; fl_no_tun := fl_no_tun f;
  fl_use_smoltcp := fl_use_smoltcp f; fl_relay_network_whitelist := form_whitelist (fl_relay_network_whitelist f);
  fl_disable_p2p := fl_disable_p2p f; fl_relay_all_peer_rpc := fl_relay_all_peer_rpc f;
  fl_disable_udp_hole_punching := fl_disable_udp_hole_punching f; fl_multi_thread := fl_multi_thread f;
  fl_data_compress_algo := fl_data_compress_algo gen_default_flags; fl_bind_device := fl_bind_device f;
  fl_enable_kcp_proxy := fl_enable_kcp_proxy f; fl_disable_kcp_input := fl_disable_kcp_input f;
  fl_disable_relay_kcp := fl_disable_relay_kcp gen_default_flags;
  fl_proxy_forward_by_system := fl_proxy_forward_by_system f; fl_accept_dns := fl_accept_dns f;
  fl_private_mode := fl_private_mode f; fl_enable_quic_proxy := fl_enable_quic_proxy f;
  fl_disable_quic_input := fl_disable_quic_input f; fl_quic_listen_port := fl_quic_listen_port f;
  fl_foreign_relay_bps_limit := fl_foreign_relay_bps_limit gen_default_flags;
  fl_multi_thread_count := fl_multi_thread_count gen_default_flags;
  fl_enable_relay_foreign_network_kcp := fl_enable_relay_foreign_network_kcp gen_default_flags;
  fl_encryption_algorithm := fl_encryption_algorithm gen_default_flags;
  fl_disable_sym_hole_punching := fl_disable_sym_hole_punching f;
  fl_tld_dns_zone := fl_tld_dns_zone gen_default_flags |}.

(** Every setting an instance reads, after the way through a front end. *)
Record came_back c c' : Prop := {
  cb_id r r' : forall id, cf_instance_id c = Some id -> (get_id r c).1 = (get_id r' c').1;
  cb_hostname : (get_hostname sys_hostname c').1 = (get_hostname sys_hostname c).1;
  cb_name : Done (get_inst_name c') = (i ← get_network_identity c; Done (network_name i));
  cb_identity : get_network_identity c' = get_network_identity c;
  cb_dhcp : get_dhcp c' = get_dhcp c;
  cb_ipv4 : get_ipv4 c' = if get_dhcp c then None else get_ipv4 c;
  cb_peers : get_peers c' = get_peers c;
  cb_listeners : get_listeners c' = Some (default [] (get_listeners c));
  cb_mapped : get_mapped_listeners c' = get_mapped_listeners c;
  cb_proxies : config_get_proxy_cidrs c' = form_proxy <$> config_get_proxy_cidrs c;
  cb_forwards : get_port_forwards c' = form_forwards (get_port_forwards c);
  cb_vpn : get_vpn_portal_config c' = form_vpn <$> get_vpn_portal_config c;
  cb_routes : get_routes c' = form_routes (get_routes c);
  cb_exit_nodes : get_exit_nodes c' = get_exit_nodes c;
  cb_socks5 : get_socks5_portal c' = form_socks5 (get_socks5_portal c);
  cb_flags : get_flags c' = form_flags_of (get_flags c);
  cb_rest : get_netns c' = None /\ get_ipv6 c' = None /\ get_acl c' = None /\ get_tcp_whitelist c' = [] /\ get_udp_whitelist c' = [] /\
    get_stun_servers c' = None /\ get_stun_servers_v6 c' = None
}.

(** A configuration that uses only what the front ends know: nothing of it is changed on the way. *)
Record carried c : Prop := {
  ca_name : Done (get_inst_name c) = (i ← get_network_identity c; Done (network_name i));
  ca_ipv4 : get_dhcp c = true -> get_ipv4 c = None;
  ca_listeners : is_Some (get_listeners c);
  ca_proxies : Forall (fun p => pn_allow p = None) (config_get_proxy_cidrs c);
  ca_forwards : Forall (fun f => is_v4 (bind_addr f) && is_v4 (dst_addr f)) (get_port_forwards c);
  ca_vpn : forall v, get_vpn_portal_config c = Some v -> (wireguard_listen v).1 = V4 0;
  ca_routes : get_routes c <> Some [];
  ca_socks5 : form_socks5 (get_socks5_portal c) = get_socks5_portal c;
  ca_flags : form_flags_of (get_flags c) = get_flags c;
  ca_rest : get_netns c = None /\ get_ipv6 c = None /\ get_acl c = None /\ get_tcp_whitelist c = [] /\ get_udp_whitelist c = [] /\
    get_stun_servers c = None /\ get_stun_servers_v6 c = None
}.

(** Every setting an instance reads is the same. *)
Record same_settings c c' : Prop := {
  sm_id r r' : forall id, cf_instance_id c = Some id -> (get_id r c).1 = (get_id r' c').1;
  sm_hostname : (get_hostname sys_hostname c').1 = (get_hostname sys_hostname c).1;
  sm_name : get_inst_name c' = get_inst_name c;
  sm_identity : get_network_identity c' = get_network_identity c;
  sm_dhcp : get_dhcp c' = get_dhcp c;
  sm_ipv4 : get_ipv4 c' = get_ipv4 c;
  sm_peers : get_peers c' = get_peers c;
  sm_listeners : get_listeners c' = get_listeners c;
  sm_mapped : get_mapped_listeners c' = get_mapped_listeners c;
  sm_proxies : config_get_proxy_cidrs c' = config_get_proxy_cidrs c;
  sm_forwards : get_port_forwards c' = get_port_forwards c;
  sm_vpn : get_vpn_portal_config c' = get_vpn_portal_config c;
  sm_routes : get_routes c' = get_routes c;
  sm_exit_nodes : get_exit_nodes c' = get_exit_nodes c;
  sm_socks5 : get_socks5_portal c' = get_socks5_portal c;
  sm_flags : get_flags c' = get_flags c;
  sm_rest : get_netns c' = get_netns c /\ get_ipv6 c' = get_ipv6 c /\ get_acl c' = get_acl c /\
    get_tcp_whitelist c' = get_tcp_whitelist c /\ get_udp_whitelist c' = get_udp_whitelist c /\
    get_stun_servers c' = get_stun_servers c /\ get_stun_servers_v6 c' = get_stun_servers_v6 c
}.

(** *** Lists of texts *)

Lemma parse_each_text {A} (f : A -> text) parse e l :
  Forall (fun a => parse (f a) = Some a) l -> parse_each parse e (f <$> l) = Ok l.
Proof. induction 1 as [|a l Ha _ IH]; csimpl; [done|]. by rewrite Ha, IH. Qed.

Lemma url_ok_nonempty u : url_ok u -> u_text u <> [].
Proof. unfold url_ok. intros Hu' E. rewrite E, parse_url_empty in Hu'. done. Qed.

Lemma nonempty_urls l : Forall url_ok l -> nonempty (u_text <$> l) = u_text <$> l.
Proof.
  unfold nonempty. induction 1 as [|u l Hu' _ IH]; csimpl; [done|]. rewrite IH, bool_decide_eq_false_2; [done|]. by apply url_ok_nonempty.
Qed.

Lemma parse_mapped_text l : Forall (fun u => url_ok u /\ is_Some (u_port u)) l -> parse_mapped (u_text <$> l) = Done l.
Proof.
  induction 1 as [|u l [Hu' [p Hp]] _ IH]; csimpl; [done|]. unfold url_ok in Hu'. rewrite Hu'. cbn [unwrap mbind outcome_bind].
  rewrite Hp. by rewrite IH.
Qed.

Lemma parse_forward_text f : socket_ok (bind_addr f) -> socket_ok (dst_addr f) ->
  parse_forward (forward_text f) = if is_v4 (bind_addr f) && is_v4 (dst_addr f) then Some f else None.
Proof.
  destruct f as [[b bp] [d dp] p]. intros [Hb Hbp] [Hd Hdp].
  unfold parse_forward. cbn [forward_text bind_addr dst_addr fst snd fw_bind_ip fw_dst_ip fw_bind_port fw_dst_port print_ip is_v4] in *.
  destruct (_ || _) eqn:E.
  - destruct b as [b|b]; [|done]. destruct d as [d|d]; [|done]. exfalso.
    apply orb_true_iff in E as [E|E]; apply bool_decide_eq_true in E; exact (print_ipv4_nonempty _ E).
  - clear E. destruct b as [b|b], d as [d|d]; cbn [print_ip ip_ok] in *; rewrite ?parse_socket_v6, ?parse_socket_v4 by done; reflexivity.
Qed.

Lemma proxies_text pre ps c : config_get_proxy_cidrs c = pre -> networks_ok (pre ++ ps) ->
  exists v, gen_proxies (proxy_text <$> ps) c = Ok (put_proxy_network v c) /\ get_proxy_cidrs v = pre ++ (form_proxy <$> ps).
Proof.
  revert pre c; induction ps as [|p ps IH]; intros pre c Hpre Hok.
  - exists (cf_proxy_network c). csimpl. rewrite app_nil_r. split; [|done]. by destruct c.
  - assert (Hadd : exists v, add_proxy_network_to_config (proxy_text p) c = Ok (put_proxy_network v c) /\ get_proxy_cidrs v = pre ++ [form_proxy p]).
    { destruct Hok as [Hnd Hall]. rewrite fmap_app in Hnd. apply NoDup_app in Hnd as (_ & Hnew & _).
      apply Forall_app in Hall as [_ Hall]. inversion Hall as [|? ? Hm _]; subst.
      assert (Hno : existsb (fun x => bool_decide (pn_cidr x = pn_cidr p /\ pn_mapped_cidr x = pn_mapped_cidr p)) (config_get_proxy_cidrs c) = false).
      { apply not_true_iff_false. rewrite existsb_exists. intros (x & Hx & Ex). apply bool_decide_eq_true in Ex as [E1 E2].
        apply (Hnew (pn_cidr p, pn_mapped_cidr p)); [|by left]. apply list_elem_of_fmap. exists x. split; [by rewrite E1, E2|by apply list_elem_of_In]. }
      assert (Hput : config_add_proxy_cidr (pn_cidr p) (pn_mapped_cidr p) c =
        (Ok tt, put_proxy_network (Some (config_get_proxy_cidrs c ++ [form_proxy p])) c)).
      { unfold config_add_proxy_cidr, add_proxy_cidr. unfold config_get_proxy_cidrs in *. rewrite Hno.
        destruct p as [pc [m|] pa]; simpl in *; subst; [|done]. rewrite (Hm m eq_refl), Z.eqb_refl. done. }
      exists (Some (config_get_proxy_cidrs c ++ [form_proxy p])). split; [|done]. unfold add_proxy_network_to_config, proxy_text.
      destruct (pn_mapped_cidr p) as [m|] eqn:Em.
      - change (txt "->") with [45; 62]. cbn [app]. rewrite split2_once by (done || apply cidr_no_hyphen). rewrite !cidr_parse_text. by rewrite Hput.
      - rewrite split2_absent by apply cidr_no_hyphen. rewrite cidr_parse_text. by rewrite Hput. }
    destruct Hadd as (v & Ev & Hv). destruct (IH (pre ++ [form_proxy p]) (put_proxy_network v c)) as (v' & E & Hv'); [by rewrite <- Hv| |].
    { rewrite <- app_assoc. destruct Hok as [Hnd Hall]. split; [by rewrite !fmap_app in *|].
      apply Forall_app in Hall as [Hl1 Hl2]. apply Forall_cons in Hl2 as [Hl2 Hl3]. apply Forall_app. split; [done|by constructor]. }
    exists v'. csimpl. rewrite Ev, E, Hv', <- app_assoc. done.
Qed.

(** *** One step each *)

Lemma get_ipv4_ok c i : get_ipv4 c = Some i -> inet_ok i /\ in_length i <> 32.
Proof.
  unfold get_ipv4. destruct (cf_ipv4 c ≫= inet_parse) as [j|] eqn:E; [|done]. intros [= <-].
  assert (inet_ok j) as [Ha Hl]. { destruct (cf_ipv4 c) as [t|]; [|done]. by eapply inet_parse_ok. }
  destruct (Z.eqb_spec (in_length j) 32); split; try done; (split; [done|simpl; lia]).
Qed.

Lemma ipv4_step n c c0 : cf_ipv4 c = None -> get_dhcp c = get_dhcp c0 ->
  nc_virtual_ipv4 n = print_ipv4 ∘ in_address <$> get_ipv4 c0 -> nc_network_length n = in_length <$> get_ipv4 c0 ->
  exists v, gen_ipv4 n c = Ok (put_ipv4 v c) /\ get_ipv4 (put_ipv4 v c) = if get_dhcp c0 then None else get_ipv4 c0.
Proof.
  intros Hn Hd Hv Hl. assert (Hnone : put_ipv4 None c = c) by (rewrite <- Hn; by destruct c).
  assert (Hno : get_ipv4 c = None) by (unfold get_ipv4; by rewrite Hn).
  unfold gen_ipv4. rewrite Hd, Hv, Hl. destruct (get_dhcp c0); [by exists None; rewrite Hnone|].
  destruct (get_ipv4 c0) as [i|] eqn:Ei; [|by exists None; rewrite Hnone].
  destruct (get_ipv4_ok _ _ Ei) as [Hi Hne]. cbn [fmap option_fmap option_map from_option id compose].
  rewrite bool_decide_eq_false_2 by apply print_ipv4_nonempty. rewrite inet_parse_put by done.
  exists (Some (inet_text i)). split; [done|]. unfold get_ipv4. cbn [put_ipv4 cf_ipv4 mbind option_bind]. rewrite inet_parse_text by done.
  cbn. by destruct (Z.eqb_spec (in_length i) 32).
Qed.

Lemma peers_step n c peers : cf_peer c = None -> Forall url_ok peers ->
  nc_networking_method n = Some (match peers with [] => 2 | [_] => 0 | _ => 1 end) ->
  nc_public_server_url n = match peers with [p] => Some (u_text p) | _ => None end ->
  nc_peer_urls n = match peers with [] | [_] => [] | _ => u_text <$> peers end ->
  exists v, gen_peers n c = Ok (put_peer v c) /\ default [] v = peers.
Proof.
  intros Hn Hok Hm Hs Hp. unfold gen_peers. rewrite Hm, Hs, Hp. destruct peers as [|p [|q peers]].
  - exists None. split; [|done]. cbn. rewrite <- Hn. by destruct c.
  - exists (Some [p]). cbn. inversion Hok as [|? ? Hu' _]; subst. unfold url_ok in Hu'. by rewrite Hu'.
  - exists (Some (p :: q :: peers)). split; [|done].
    change (networking_method_of (default 0 (Some 1))) with Manual. cbv iota. rewrite nonempty_urls, parse_each_text by done. done.
Qed.

Lemma forwards_step n c fs : cf_port_forward c = None -> nc_port_forwards n = forward_text <$> fs ->
  Forall (fun f => socket_ok (bind_addr f) /\ socket_ok (dst_addr f)) fs ->
  exists v, gen_forwards n c = put_port_forward v c /\ default [] v = form_forwards fs.
Proof.
  intros Hn Hf Hok. unfold gen_forwards. rewrite Hf. assert (omap parse_forward (forward_text <$> fs) = form_forwards fs) as E.
  { clear Hf. induction Hok as [|f fs [Hb Hd] _ IH]; csimpl; [done|]. rewrite parse_forward_text, IH by done. unfold form_forwards. cbn.
    by destruct (_ && _). }
  destruct fs as [|f fs].
  - exists None. split; [|done]. cbn. rewrite <- Hn. by destruct c.
  - exists (Some (form_forwards (f :: fs))). split; [|done].
    change (set_port_forwards (omap parse_forward (forward_text <$> f :: fs)) c = put_port_forward (Some (form_forwards (f :: fs))) c).
    by rewrite E.
Qed.

Lemma vpn_step n c o : cf_vpn_portal_config c = None -> (forall v, o = Some v -> in_width 16 (wireguard_listen v).2) ->
  nc_enable_vpn_portal n = (fun _ => true) <$> o ->
  nc_vpn_portal_listen_port n = (fun v => (wireguard_listen v).2) <$> o ->
  nc_vpn_portal_client_network_addr n = (fun v => print_ipv4 (first_address (client_cidr v))) <$> o ->
  nc_vpn_portal_client_network_len n = (fun v => network_length (client_cidr v)) <$> o ->
  gen_vpn n c = Ok (put_vpn_portal_config (form_vpn <$> o) c).
Proof.
  intros Hn Hok He Hp Ha Hl. unfold gen_vpn. rewrite He, Hp, Ha, Hl. destruct o as [[cidr [a port]]|].
  - pose proof (Hok _ eq_refl) as Hport. cbn [fmap option_fmap option_map from_option id client_cidr wireguard_listen snd] in *. rewrite cidr_parse_put.
    assert (parse_socket_addr (txt "0.0.0.0:" ++ print_i32 port) = Some (V4 0, port)) as ->; [|done].
    change (txt "0.0.0.0:" ++ print_i32 port) with (print_ipv4 0 ++ [58] ++ print_i32 port). unfold print_i32.
    unfold in_width in Hport. destruct (Z.ltb_spec port 0); [lia|]. by apply parse_socket_v4.
  - cbn. f_equal. rewrite <- Hn. by destruct c.
Qed.

Lemma routes_step n c o : cf_routes c = None ->
  nc_enable_manual_routes n = match o with Some (_ :: _) => Some true | _ => None end -> nc_routes n = cidr_text <$> default [] o ->
  gen_routes n c = Ok (put_routes (form_routes o) c).
Proof.
  intros Hn He Hr. unfold gen_routes. rewrite He, Hr. destruct o as [[|r rs]|].
  - cbn. rewrite <- Hn. by destruct c.
  - cbn [from_option id]. rewrite parse_each_text; [done|]. apply Forall_forall. intros a _. apply cidr_parse_text.
  - cbn. rewrite <- Hn. by destruct c.
Qed.

Lemma exit_nodes_step n c l : cf_exit_nodes c = None -> Forall ip_ok l -> nc_exit_nodes n = print_ip <$> l ->
  exists v, gen_exit_nodes n c = Ok (put_exit_nodes v c) /\ default [] v = l.
Proof.
  intros Hn Hok Hl. unfold gen_exit_nodes. rewrite Hl. destruct l as [|a l].
  - exists None. split; [|done]. cbn. rewrite <- Hn. by destruct c.
  - exists (Some (a :: l)). split; [|done].
    change (match parse_each parse_ip BadExitNode (print_ip <$> a :: l) with Ok l => Ok (set_exit_nodes l c) | Err e => Err e end =
      Ok (put_exit_nodes (Some (a :: l)) c)). rewrite parse_each_text; [done|]. eapply Forall_impl; [exact Hok|]. apply parse_ip_print.
Qed.

Lemma socks5_step n c o : cf_socks5_proxy c = None ->
  (forall u port, o = Some u -> u_port u = Some port -> is_Some (parse_url (socks5_text port))) ->
  nc_enable_socks5 n = (fun _ => true) <$> o -> nc_socks5_port n = o ≫= u_port ->
  gen_socks5 n c = Done (put_socks5_proxy (form_socks5 o) c).
Proof.
  intros Hn Hok He Hp. assert (Hnone : put_socks5_proxy None c = c) by (rewrite <- Hn; by destruct c).
  unfold gen_socks5. rewrite He, Hp. destruct o as [u|]; [|by cbn; rewrite Hnone].
  unfold form_socks5. cbn -[socks5_text]. destruct (u_port u) as [port|] eqn:Eu; [|by cbn; rewrite Hnone].
  destruct (Hok u port eq_refl Eu) as [u' E]. cbn -[socks5_text]. by rewrite E.
Qed.

Lemma mapped_step n c l : cf_mapped_listeners c = None -> Forall (fun u => url_ok u /\ is_Some (u_port u)) l ->
  nc_mapped_listeners n = u_text <$> l -> exists v, gen_mapped n c = Done (put_mapped_listeners v c) /\ default [] v = l.
Proof.
  intros Hn Hok Hl. unfold gen_mapped. rewrite Hl. destruct l as [|u l].
  - exists None. split; [|done]. cbn. f_equal. rewrite <- Hn. by destruct c.
  - exists (Some (u :: l)). split; [|done].
    change ((us ← parse_mapped (u_text <$> u :: l); Done (set_mapped_listeners (Some us) c)) = Done (put_mapped_listeners (Some (u :: l)) c)).
    by rewrite parse_mapped_text.
Qed.

Definition listed_in (f : Flags) : bool :=
  negb (bool_decide (fl_relay_network_whitelist f = [])) && negb (bool_decide (fl_relay_network_whitelist f = txt "*")).

Lemma flags_back n f : in_width 32 (fl_mtu f) -> in_width 32 (fl_quic_listen_port f) ->
  nc_latency_first n = (Some (fl_latency_first f)) ->
  nc_dev_name n = (Some (fl_dev_name f)) ->
  nc_use_smoltcp n = (Some (fl_use_smoltcp f)) ->
  nc_disable_ipv6 n = (Some (negb (fl_enable_ipv6 f))) ->
  nc_enable_kcp_proxy n = (Some (fl_enable_kcp_proxy f)) ->
  nc_disable_kcp_input n = (Some (fl_disable_kcp_input f)) ->
  nc_disable_p2p n = (Some (fl_disable_p2p f)) ->
  nc_bind_device n = (Some (fl_bind_device f)) ->
  nc_no_tun n = (Some (fl_no_tun f)) ->
  nc_enable_exit_node n = (Some (fl_enable_exit_node f)) ->
  nc_relay_all_peer_rpc n = (Some (fl_relay_all_peer_rpc f)) ->
  nc_multi_thread n = (Some (fl_multi_thread f)) ->
  nc_enable_relay_network_whitelist n = (if (listed_in f) then Some true else None) ->
  nc_relay_network_whitelist n = (if (listed_in f) then split_whitespace (fl_relay_network_whitelist f) else []) ->
  nc_proxy_forward_by_system n = (Some (fl_proxy_forward_by_system f)) ->
  nc_disable_encryption n = (Some (negb (fl_enable_encryption f))) ->
  nc_disable_udp_hole_punching n = (Some (fl_disable_udp_hole_punching f)) ->
  nc_mtu n = (Some (as_i32 (fl_mtu f))) ->
  nc_enable_magic_dns n = (Some (fl_accept_dns f)) ->
  nc_enable_private_mode n = (Some (fl_private_mode f)) ->
  nc_enable_quic_proxy n = (Some (fl_enable_quic_proxy f)) ->
  nc_disable_quic_input n = (Some (fl_disable_quic_input f)) ->
  nc_quic_listen_port n = (Some (as_i32 (fl_quic_listen_port f))) ->
  nc_disable_sym_hole_punching n = (Some (fl_disable_sym_hole_punching f)) ->
  gen_flags_of n = form_flags_of f.
Proof.
  intros Hm Hq. intros. unfold gen_flags_of, form_flags_of.
  repeat match goal with E : _ n = _ |- _ => rewrite E; clear E end. cbn -[join split_whitespace as_i32 wrap txt].
  rewrite !negb_involutive, !as_i32_width by done. f_equal. unfold listed_in, form_whitelist.
  repeat case_bool_decide; done.
Qed.

Lemma filter_filter_take (p : Z -> bool) k l : List.filter p (take k (List.filter p l)) = take k (List.filter p l).
Proof.
  revert k; induction l as [|x l IH]; intros k; simpl; [by rewrite take_nil|]. destruct (p x) eqn:E; [|apply IH].
  destruct k as [|k]; [done|]. simpl. by rewrite E, IH.
Qed.

(** The name of the machine is found again, also when it is not set. *)
Lemma hostname_step c c' : cf_hostname c' = (if bool_decide ((get_hostname sys_hostname c).1 = sys_hostname) then None
    else Some (get_hostname sys_hostname c).1) -> (get_hostname sys_hostname c').1 = (get_hostname sys_hostname c).1.
Proof.
  intros E. unfold get_hostname at 1. rewrite E. case_bool_decide as Hs; [done|]. revert Hs. unfold get_hostname.
  destruct (cf_hostname c) as [h|]; [|done]. case_bool_decide as Hh; [done|]. intros _. cbn [fst].
  rewrite filter_filter_take, take_take, Nat.min_id. by rewrite bool_decide_eq_false_2.
Qed.

Lemma get_id_put random c : exists id, get_id random c = (id, put_instance_id (Some id) c) /\
  forall id', cf_instance_id c = Some id' -> id = id'.
Proof.
  unfold get_id. destruct (cf_instance_id c) as [id|] eqn:E; exists (default random (cf_instance_id c)); rewrite E; cbn.
  - split; [|by intros ? [= <-]]. f_equal. rewrite <- E. by destruct c.
  - done.
Qed.

Lemma get_hostname_put c : exists h, get_hostname sys_hostname c = ((get_hostname sys_hostname c).1, put_hostname h c).
Proof.
  unfold get_hostname. destruct (cf_hostname c) as [h|] eqn:E; [case_bool_decide; by eexists|].
  exists None. f_equal. rewrite <- E. by destruct c.
Qed.

(** What is changed by the way through a front end is nothing for a configuration that uses only what they know. *)
Lemma carried_same c c' : carried c -> came_back c c' -> same_settings c c'.
Proof.
  intros Hca Hcb. split; try (by apply Hcb).
  - pose proof (cb_name _ _ Hcb) as E. rewrite <- (ca_name _ Hca) in E. by injection E.
  - rewrite (cb_ipv4 _ _ Hcb). destruct (get_dhcp c) eqn:Ed; [|done]. by rewrite (ca_ipv4 _ Hca).
  - rewrite (cb_listeners _ _ Hcb). by destruct (ca_listeners _ Hca) as [l ->].
  - rewrite (cb_proxies _ _ Hcb). induction (ca_proxies _ Hca) as [|p ps Hp _ IH]; [done|]. csimpl. rewrite IH. f_equal. destruct p. cbn in *. by subst.
  - rewrite (cb_forwards _ _ Hcb). unfold form_forwards. induction (ca_forwards _ Hca) as [|f fs Hf _ IH]; [done|]. simpl.
    destruct (_ && _); [by rewrite IH|done].
  - rewrite (cb_vpn _ _ Hcb). destruct (get_vpn_portal_config c) as [v|] eqn:Ev; [|done]. cbn. f_equal. pose proof (ca_vpn _ Hca v Ev).
    destruct v as [ci [a port]]. cbn in *. by subst.
  - rewrite (cb_routes _ _ Hcb). pose proof (ca_routes _ Hca). by destruct (get_routes c) as [[|r rs]|].
  - rewrite (cb_socks5 _ _ Hcb). apply Hca.
  - rewrite (cb_flags _ _ Hcb). apply Hca.
  - destruct (cb_rest _ _ Hcb) as (-> & -> & -> & -> & -> & -> & ->). by destruct (ca_rest _ Hca) as (-> & -> & -> & -> & -> & -> & ->).
Qed.

(** C29.  What becomes of a configuration that goes to a front end and back.  For every configuration with parsed URLs, distinct
    proxy networks mapped to networks of their length, mapped listeners with ports and a SOCKS5 port that a URL takes:
    [new_from_config] and then [gen_config] succeed, and every setting an instance reads is known afterwards.  Instance id, host name,
    network identity, DHCP, peers, mapped listeners, exit nodes and the flags the front ends know are what they were. What is not kept:
    the instance is named like its network; an address beside DHCP, an empty list of routes, forwards to or from version 6
    addresses, the [allow] lists of proxy networks, the SOCKS5 portal without a port, the ACL, the whitelists of ports, STUN servers, the
    IPv6 address and the network namespace are dropped; no listeners become an empty list; the VPN portal listens on all addresses, and so
    does the SOCKS5 portal; eight flags the front ends do not know get their defaults; the relay whitelist is written with single
    spaces, and an empty one allows all.  A configuration that uses none of these comes back as it was. *)
Theorem network_config_roundtrip random random' c : form_ok c ->
  exists n c', new_from_config sys_hostname random c = Done n /\ gen_config random' n = Done (Ok c') /\
    came_back c c' /\ (carried c -> same_settings c c').
Proof.
  intros Hca. destruct (fo_identity _ Hca) as (name & secret & i & Hid & Hi). destruct (identity_new_parts _ _ _ Hi) as [En Es].
  destruct loader_default_done as (i0 & _ & E0). destruct (get_id_put random c) as (uid & Eid & Hsame).
  destruct (get_hostname_put (put_instance_id (Some uid) c)) as [h Eh].
  assert (Hhost : (get_hostname sys_hostname (put_instance_id (Some uid) c)).1 = (get_hostname sys_hostname c).1).
  { unfold get_hostname. cbn. destruct (cf_hostname c); [by case_bool_decide|done]. }
  rewrite Hhost in Eh. set (host := (get_hostname sys_hostname c).1) in *.
  unfold new_from_config. rewrite E0. cbn [mbind outcome_bind]. rewrite Eid, Eh.
  change (get_network_identity (put_hostname h (put_instance_id (Some uid) c))) with (get_network_identity c). rewrite Hid.
  cbn [mbind outcome_bind]. match goal with |- exists n c', Done ?m = Done n /\ _ => set (n := m) end. exists n.
  assert (Hb : forall d, gen_basics random' n d = Done (Ok (set_network_identity i (set_inst_name name (set_dhcp (get_dhcp c)
                 (set_hostname (nc_hostname n) (set_id uid d))))))).
  { intros d. unfold gen_basics. change (default _ (nc_instance_id n)) with (uuid_text uid). rewrite uuid_parse_text.
    change (default [] (nc_network_name n)) with (network_name i). change (nc_network_secret n) with (network_secret i). rewrite En, Es.
    change (default [] (Some secret)) with secret. rewrite Hi. done. }
  unfold gen_config. rewrite E0. cbn [mbind outcome_bind]. rewrite Hb. cbn [mbind outcome_bind try].
  set (b := set_network_identity i _). destruct (ipv4_step n b c eq_refl eq_refl eq_refl eq_refl) as (v4 & E4 & Hv4). rewrite E4.
  cbn [try]. set (b1 := put_ipv4 v4 b). destruct (peers_step n b1 (get_peers c) eq_refl (fo_peers _ Hca) eq_refl eq_refl eq_refl) as (vp & Ep & Hp).
  rewrite Ep. cbn [try]. set (b2 := put_peer vp b1).
  assert (gen_listeners n b2 = Ok (set_listeners (default [] (get_listeners c)) b2)) as ->.
  { unfold gen_listeners. change (nc_listener_urls n) with (u_text <$> default [] (get_listeners c)).
    by rewrite nonempty_urls, parse_each_text by apply Hca. }
  cbn [try]. set (b3 := set_listeners _ b2).
  destruct (proxies_text [] (config_get_proxy_cidrs c) b3 eq_refl (fo_proxies _ Hca)) as (vx & Ex & Hx).
  change (nc_proxy_cidrs n) with (proxy_text <$> config_get_proxy_cidrs c). rewrite Ex. cbn [try app] in *. set (b4 := put_proxy_network vx b3).
  destruct (forwards_step n b4 (get_port_forwards c) eq_refl eq_refl (fo_forwards _ Hca)) as (vf & Ef & Hf). rewrite Ef. set (b5 := put_port_forward vf b4).
  rewrite (vpn_step n b5 (get_vpn_portal_config c) eq_refl (fo_vpn _ Hca)) by reflexivity. cbn [try]. set (b6 := put_vpn_portal_config _ b5).
  rewrite (routes_step n b6 (get_routes c) eq_refl) by reflexivity. cbn [try]. set (b7 := put_routes _ b6).
  destruct (exit_nodes_step n b7 (get_exit_nodes c) eq_refl (fo_exit_nodes _ Hca) eq_refl) as (ve & Ee & He). rewrite Ee. cbn [try]. set (b8 := put_exit_nodes ve b7).
  rewrite (socks5_step n b8 (get_socks5_portal c) eq_refl (fo_socks5 _ Hca)) by reflexivity. cbn [mbind outcome_bind]. set (b9 := put_socks5_proxy _ b8).
  destruct (mapped_step n b9 (get_mapped_listeners c) eq_refl (fo_mapped _ Hca) eq_refl) as (vm & Em & Hm). rewrite Em. cbn [mbind outcome_bind].
  match goal with |- exists c', _ /\ Done (Ok ?r) = _ /\ _ => set (c' := r); exists c' end.
  assert (Hcb : came_back c c').
  { split; try done.
    - intros r r' id' Hid'. unfold get_id. rewrite Hid'. cbn. by rewrite (Hsame id' Hid').
    - apply hostname_step. done.
    - rewrite Hid. cbn. by rewrite En.
    - change (gen_flags_of n = form_flags_of (get_flags c)). apply flags_back; try reflexivity; apply (fo_flags _ Hca). }
  split_and!; [done|done|exact Hcb|]. intros Hcar. by apply carried_same.
Qed.
End roundtrip.

(** ** What does not come back *)

Section surprises.
Context `{Hasher64} `{Hc : Ipv4CidrLib} `{Hu : UuidLib} `{Hw : !ConfigWire} `{!ConfigWireLaws} `{!UuidLaws} `{!CidrText}
  `{!UrlOps} (sys_hostname : text).
Implicit Types (c : Config Json) (n : NetworkConfig).

(** A node that relays for no foreign network relays for all of them after its
    configuration went through a front end. *)
Lemma whitelist_opens random c n : fl_relay_network_whitelist (get_flags c) = [] -> new_from_config sys_hostname random c = Done n ->
  fl_relay_network_whitelist (gen_flags_of n) = txt "*".
Proof.
  intros Hf. unfold new_from_config. destruct (loader_default) as [d|]; [|done]. cbn [mbind outcome_bind].
  destruct (get_id_put random c) as (id & -> & _). destruct (get_hostname_put sys_hostname (put_instance_id (Some id) c)) as [h ->].
  destruct (get_network_identity _) as [i|]; [|done]. cbn [mbind outcome_bind]. intros [= <-].
  unfold gen_flags_of. cbn [fl_relay_network_whitelist nc_enable_relay_network_whitelist].
  change (get_flags (put_hostname h (put_instance_id (Some id) c))) with (get_flags c). by rewrite Hf.
Qed.

(** The encryption algorithm goes back to the default, whatever it was. *)
Lemma algorithm_forgotten n : fl_encryption_algorithm (gen_flags_of n) = txt "aes-gcm".
Proof. done. Qed.

(** A SOCKS5 port that a URL does not take panics instead of being refused. *)
Lemma socks5_port_panics n c port : nc_enable_socks5 n = Some true -> nc_socks5_port n = Some port ->
  parse_url (socks5_text port) = None -> gen_socks5 n c = Panicked UnwrapOnNone.
Proof. intros He Hp Hn. unfold gen_socks5. rewrite He, Hp. cbn -[socks5_text]. by rewrite Hn. Qed.

(** So does a mapped listener without a port. *)
Lemma mapped_without_port_panics n c t u : nc_mapped_listeners n = [t] -> parse_url t = Some u -> u_port u = None ->
  gen_mapped n c = Panicked ExplicitPanic.
Proof. intros Hm Hp Hn. unfold gen_mapped. rewrite Hm. cbn. rewrite Hp. cbn. by rewrite Hn. Qed.
End surprises.

(** An address of version 6 loses its forward: [format!] puts no brackets around
    it. *)
Example ipv6_forward_lost : parse_forward (forward_text
  {| bind_addr := (V4 0, 8080); dst_addr := (V6 1, 80); pf_proto := txt "tcp" |}) = None.
Proof. vm_compute. reflexivity. Qed.

(** ** An example, with the text of networks as the cidr crate has it *)

Definition net_valid (c : Z * Z) : bool :=
  bool_decide (in_width 32 c.1) && (0 <=? c.2) && (c.2 <=? 32) && (c.1 mod 2 ^ (32 - c.2) =? 0).

Definition cidr4 : Type := { c : Z * Z | net_valid c = true }.

#[local] Instance cidr4_lib : Ipv4CidrLib := {|
  Ipv4Cidr := cidr4;
  network_length c := (proj1_sig c).2;
  first_address c := (proj1_sig c).1;
  mask c := 2 ^ 32 - 2 ^ (32 - (proj1_sig c).2);
  contains c ip := ip / 2 ^ (32 - (proj1_sig c).2) =? (proj1_sig c).1 / 2 ^ (32 - (proj1_sig c).2) |}.

Definition put_length (a n : Z) : text := print_ipv4 a ++ [47] ++ print_i32 n.

Definition read_length : text -> option (Z * Z) := parse_with (fun l =>
  '(a, l) ← read_ipv4_addr l; l ← read_given_char 47 l; '(n, l) ← read_number 10 None true 32 l; Some ((a, n), l)).

Lemma read_length_put a n : in_width 32 a -> 0 <= n <= 32 -> read_length (put_length a n) = Some (a, n).
Proof.
  intros Ha Hn. unfold read_length, parse_with, put_length. rewrite read_ipv4_print by done. cbn [mbind option_bind app read_given_char Z.eqb Pos.eqb].
  unfold print_i32. destruct (Z.ltb_spec n 0); [lia|]. rewrite <- (app_nil_r (print_digits 10 n)).
  by rewrite read_decimal; [|done|simpl; lia|lia|done|done].
Qed.

Lemma digits_no_hyphen fuel n : 0 <= n < 10 ^ Z.of_nat fuel -> 45 ∉ print_digits fuel n.
Proof.
  intros Hn Hin. destruct (print_digits_read fuel n Hn) as (ds & Hds & _). apply list_elem_of_lookup in Hin as [k Hk].
  destruct (Forall2_lookup_l _ _ _ _ _ Hds Hk) as (d & _ & Hd). done.
Qed.

Lemma put_length_no_hyphen a n : 0 <= n <= 32 -> 45 ∉ put_length a n.
Proof.
  intros Hn. unfold put_length, print_ipv4, print_i32. destruct (Z.ltb_spec n 0); [lia|].
  assert (Ho : forall i, 45 ∉ print_digits 3 (octet a i)).
  { intros i. pose proof (octet_range a i). apply digits_no_hyphen. simpl. lia. }
  rewrite !not_elem_of_app. split_and!; try apply Ho; try (by intros ?%list_elem_of_singleton); apply digits_no_hyphen; simpl; lia.
Qed.

Definition to_cidr4 (c : Z * Z) : option cidr4 :=
  match decide (net_valid c = true) with left e => Some (exist _ c e) | right _ => None end.

#[local] Instance cidr4_text : @CidrText cidr4_lib := @Build_CidrText cidr4_lib
  (fun c : cidr4 => put_length (proj1_sig c).1 (proj1_sig c).2)
  (fun t => read_length t ≫= to_cidr4)
  (fun i => put_length (in_address i) (in_length i))
  (fun t => '(a, n) ← read_length t;
    if bool_decide (inet_ok {| in_address := a; in_length := n |}) then Some {| in_address := a; in_length := n |} else None)
  (fun i => [in_address i; in_length i])
  (fun t => match t with [a; n] => Some {| in_address := a; in_length := n |} | _ => None end).

Lemma to_cidr4_of (c : cidr4) : to_cidr4 (proj1_sig c) = Some c.
Proof.
  unfold to_cidr4. destruct c as [c e]. cbn. destruct (decide _) as [e'|]; [|done]. do 2 f_equal. apply proof_irrel.
Qed.

Lemma cidr4_range (c : cidr4) : in_width 32 (proj1_sig c).1 /\ 0 <= (proj1_sig c).2 <= 32.
Proof. destruct c as [[a n] e]. unfold net_valid in e. cbn in *. rewrite !andb_true_iff, bool_decide_eq_true in e. split; [tauto|lia]. Qed.

#[local] Instance cidr4_text_laws : @CidrTextLaws cidr4_lib cidr4_text.
Proof.
  split; cbn [cidr_text cidr_parse inet_text inet_parse first_address network_length cidr4_text cidr4_lib].
  - intros c. destruct (cidr4_range c). rewrite read_length_put by done. cbn [mbind option_bind]. rewrite <- surjective_pairing. apply to_cidr4_of.
  - intros c. apply put_length_no_hyphen, cidr4_range.
  - intros c. destruct (cidr4_range c). change (print_ipv4 (proj1_sig c).1 ++ [47] ++ print_i32 (proj1_sig c).2) with (put_length (proj1_sig c).1 (proj1_sig c).2).
    rewrite read_length_put by done. cbn [mbind option_bind]. rewrite <- surjective_pairing. apply to_cidr4_of.
  - intros [a n] Hi. destruct Hi as [Ha Hn]. cbn [in_address in_length] in *. rewrite read_length_put by done. cbn [mbind option_bind]. by rewrite bool_decide_eq_true_2.
  - intros t i. destruct (read_length t) as [[a n]|]; [|done]. cbn. case_bool_decide; [|done]. by intros [= <-].
  - intros [a n] Hi. destruct Hi as [Ha Hn]. cbn [in_address in_length] in *. change (print_ipv4 a ++ [47] ++ print_i32 n) with (put_length a n).
    rewrite read_length_put by done. cbn [mbind option_bind]. by rewrite bool_decide_eq_true_2.
Qed.

#[local] Existing Instance toy_uuid.

#[local] Instance form_uuid_laws : @UuidLaws toy_uuid.
Proof. by split. Qed.

#[local] Instance form_wire : @ConfigWire cidr4_lib toy_uuid := @Build_ConfigWire cidr4_lib toy_uuid toy_json toy_json_eq_dec
  (fun f => list_to_map (toy_flags_json f)) toy_flags_of (fun _ => None)
  (fun t => match t with [] => Some (mkConfig None None None None None None None None None None None None None None None None None None None None None None None None) | _ => None end).

#[local] Instance form_wire_laws : @ConfigWireLaws cidr4_lib toy_uuid form_wire.
Proof.
  split.
  - intros []. vm_compute. reflexivity.
  - intros f g. cbn [flags_to_json form_wire]. by rewrite !(dom_list_to_map_L (D := gset text)).
  - done.
  - done.
Qed.

#[local] Instance form_urls : UrlOps := {|
  parse_url := fun t => if bool_decide (t = []) then None else Some {| u_scheme := []; u_host := None; u_port := Some 80; u_text := t |};
  socket_addrs := fun _ => Err tt; set_host := fun _ _ => None |}.

#[local] Instance form_urls_laws : UrlTextLaws.
Proof. split; [|done]. intros t u. cbn. case_bool_decide as E; [done|]. intros [= <-]. cbn. by rewrite bool_decide_eq_false_2. Qed.

#[local] Instance form_hasher : Hasher64 := {| hash64 l := as_u64 (len l) |}.

Definition form_url (s : string) : Url := {| u_scheme := []; u_host := None; u_port := Some 80; u_text := txt s |}.

Definition form_net (a n : Z) (e : net_valid (a, n) = true) : cidr4 := exist _ (a, n) e.

Definition form_flags : Flags := {|
  fl_default_protocol := txt "tcp"; fl_dev_name := []; fl_enable_encryption := true; fl_enable_ipv6 := true;
  fl_mtu := 1380; fl_latency_first := false; fl_enable_exit_node := false; fl_no_tun := false;
  fl_use_smoltcp := false; fl_relay_network_whitelist := txt "a b"; fl_disable_p2p := false;
  fl_relay_all_peer_rpc := false; fl_disable_udp_hole_punching := false; fl_multi_thread := true;
  fl_data_compress_algo := 1; fl_bind_device := true; fl_enable_kcp_proxy := false;
  fl_disable_kcp_input := false; fl_disable_relay_kcp := false; fl_proxy_forward_by_system := false;
  fl_accept_dns := false; fl_private_mode := false; fl_enable_quic_proxy := false;
  fl_disable_quic_input := false; fl_quic_listen_port := 0; fl_foreign_relay_bps_limit := U64_MAX;
  fl_multi_thread_count := 2; fl_enable_relay_foreign_network_kcp := false;
  fl_encryption_algorithm := txt "aes-gcm"; fl_disable_sym_hole_punching := false;
  fl_tld_dns_zone := txt "et.net." |}.

(** A configuration with two peers, a mapped proxy network, a forward, an exit node
    of version 6 and a list of relayed networks. *)
Definition form_config (i : NetworkIdentity) : @Config cidr4_lib toy_uuid toy_json :=
  let c : @Config cidr4_lib toy_uuid toy_json := mkConfig None None None None None None None None None None None None None None None None None None None None None None None None in
  let a := form_net 167772160 8 eq_refl in
  let b := form_net 184549376 8 eq_refl in
  set_flags form_flags (set_network_identity i (set_inst_name (txt "net") (set_id 7 (set_hostname (Some (txt "node"))
    (set_ipv4 (Some {| in_address := 167837955; in_length := 24 |}) (set_peers [form_url "tcp://a:1"; form_url "udp://b:2"]
      (set_listeners [form_url "tcp://0.0.0.0:11010"] (set_exit_nodes [V6 1]
        (set_port_forwards [{| bind_addr := (V4 0, 8080); dst_addr := (V4 167837955, 80); pf_proto := txt "tcp" |}]
          (put_proxy_network (Some [{| pn_cidr := a; pn_mapped_cidr := Some b; pn_allow := None |}]) c)))))))))).

Lemma network_config_roundtrip_witness : exists (i : NetworkIdentity) n (c' : @Config cidr4_lib toy_uuid toy_json),
  new_from_config (txt "host") 0 (form_config i) = Done n /\ gen_config 0 n = Done (Ok c') /\
  get_exit_nodes c' = [V6 1] /\ fl_relay_network_whitelist (get_flags c') = txt "a b".
Proof.
  destruct (identity_new_done (txt "net") (txt "secret")) as [i Hi].
  destruct (network_config_roundtrip (Hc := cidr4_lib) (Hu := toy_uuid) (Hw := form_wire) (txt "host") 0 0 (form_config i)) as (n & c' & En & Ec & Hs & _).
  - split.
    + by exists (txt "net"), (txt "secret"), i.
    + by repeat constructor.
    + by repeat constructor.
    + constructor.
    + split; [apply (bool_decide_unpack _); vm_compute; reflexivity|]. repeat constructor. intros m [= <-]. reflexivity.
    + by repeat constructor; apply (bool_decide_unpack _).
    + done.
    + by repeat constructor; apply (bool_decide_unpack _).
    + done.
    + by split; apply (bool_decide_unpack _).
  - exists i, n, c'. split_and!; [exact En|exact Ec| |].
    + by rewrite (cb_exit_nodes _ _ _ Hs).
    + by rewrite (cb_flags _ _ _ Hs).
Defined.
