(* ===== verification/Dhcp.v ===== *)
(** * Addresses given out automatically

    [check_dhcp_ip_conflict] of [instance/instance.rs]: a node without a configured
    address takes a free one of the network its peers use, keeps it while nobody
    else has it, and takes another one when somebody has.

    One round of its loop is a function of what the round reads: the routes, whether
    the interface was closed, whether the interface can be set up with the new
    address, and the random pause. *)

From stdpp Require Import base numbers list gmap.
From Stdlib Require Import ZifyBool.
From S2P Require Import Prelude Config.
Open Scope Z_scope.

#[global] Instance inet_countable : Countable Inet.
Proof.
  refine (inj_countable' (fun i => (in_address i, in_length i)) (fun '(a, n) => {| in_address := a; in_length := n |}) _).
  by intros [].
Defined.

(** ** Networks of the cidr crate *)

Definition inet_hosts (i : Inet) : Z := 2 ^ (32 - in_length i).
Definition inet_first (i : Inet) : Z := in_address i - in_address i mod inet_hosts i.
Definition inet_last (i : Inet) : Z := inet_first i + inet_hosts i - 1.

(** [network]: first address and length. *)
Definition inet_network (i : Inet) : Z * Z := (inet_first i, in_length i).

(** ** The loop *)

Inductive dhcp_event := DhcpIpv4Changed (old new : option Inet) | DhcpIpv4Conflicted (old : option Inet).

(** [dh_ipv4] is the address of the global context, which the routes announce;
    [dh_nic] whether an interface is set up. *)
Record DhcpState := { current_dhcp_ip : option Inet; next_sleep_time : Z; dh_ipv4 : option Inet; dh_nic : bool }.

Definition dhcp_new : DhcpState := {| current_dhcp_ip := None; next_sleep_time := 0; dh_ipv4 := None; dh_nic := false |}.

Definition default_ipv4_addr : Inet := {| in_address := 176061952; in_length := 24 |}.

(** [network().iter().find(..)]: [fuel] addresses from [a] on. *)
Fixpoint find_free (fuel : nat) (a : Z) (inet : Inet) (used : gset Inet) : option Inet :=
  match fuel with
  | O => None
  | S fuel =>
      let ip := {| in_address := a; in_length := in_length inet |} in
      if negb (a =? inet_first inet) && negb (a =? inet_last inet) && bool_decide (ip ∉ used) then Some ip
      else find_free fuel (a + 1) inet used
  end.

Section dhcp.
Context `{!IterOrder Inet ()}.
Implicit Types s : DhcpState.

Definition used_ipv4 (routes : list (option Inet)) : gset Inet := list_to_set (omap id routes).

Definition dhcp_inet (used : gset Inet) : Inet := default default_ipv4_addr (head (map_iter (gset_to_gmap () used)).*1).

Definition candidate_ipv4_addr (used : gset Inet) : option Inet :=
  let inet := dhcp_inet used in find_free (Z.to_nat (inet_hosts inet)) (inet_first inet) inet used.

Definition with_current (ip : option Inet) s : DhcpState := {|
  current_dhcp_ip := ip; next_sleep_time := next_sleep_time s; dh_ipv4 := dh_ipv4 s; dh_nic := dh_nic s |}.
Definition with_sleep (t : Z) s : DhcpState := {|
  current_dhcp_ip := current_dhcp_ip s; next_sleep_time := t; dh_ipv4 := dh_ipv4 s; dh_nic := dh_nic s |}.
Definition with_ipv4 (ip : option Inet) s : DhcpState := {|
  current_dhcp_ip := current_dhcp_ip s; next_sleep_time := next_sleep_time s; dh_ipv4 := ip; dh_nic := dh_nic s |}.
Definition with_nic (b : bool) s : DhcpState := {|
  current_dhcp_ip := current_dhcp_ip s; next_sleep_time := next_sleep_time s; dh_ipv4 := dh_ipv4 s; dh_nic := b |}.

Definition dhcp_round (no_tun closed nic_ok : bool) (rnd : Z) (routes : list (option Inet)) s : DhcpState * list dhcp_event :=
  let s := if closed then with_current None s else s in
  match routes with
  | [] => (with_sleep 1 s, [])
  | _ =>
      let s := with_sleep rnd s in
      let used := used_ipv4 routes in
      if match current_dhcp_ip s with
         | Some ip => bool_decide (inet_network ip = inet_network (dhcp_inet used)) && bool_decide (ip ∉ used)
         | None => false
         end
      then (s, [])
      else
        let candidate := candidate_ipv4_addr used in
        if bool_decide (current_dhcp_ip s = candidate) then (s, [])
        else
          let last_ip := current_dhcp_ip s in
          let s := with_nic false s in
          match candidate with
          | Some ip =>
              if no_tun then (with_ipv4 (Some ip) (with_current (Some ip) s), [DhcpIpv4Changed last_ip (Some ip)])
              else if negb nic_ok then (with_ipv4 None s, [])
              else (with_ipv4 (Some ip) (with_current (Some ip) (with_nic true s)), [DhcpIpv4Changed last_ip (Some ip)])
          | None => (with_ipv4 None (with_current None s), [DhcpIpv4Conflicted last_ip])
          end
  end.

(** ** Free addresses *)

Lemma find_free_spec fuel a inet used :
  match find_free fuel a inet used with
  | Some ip => exists k, (k < fuel)%nat /\ in_address ip = a + Z.of_nat k /\ in_length ip = in_length inet /\
      in_address ip <> inet_first inet /\ in_address ip <> inet_last inet /\ ip ∉ used
  | None => forall k, (k < fuel)%nat -> a + Z.of_nat k <> inet_first inet -> a + Z.of_nat k <> inet_last inet ->
      {| in_address := a + Z.of_nat k; in_length := in_length inet |} ∈ used
  end.
Proof.
  revert a; induction fuel as [|fuel IH]; intros a; cbn [find_free]; [intros k Hk; lia|].
  set (ip := {| in_address := a; in_length := in_length inet |}).
  destruct (negb (a =? inet_first inet) && negb (a =? inet_last inet) && bool_decide (ip ∉ used)) eqn:E.
  - rewrite !andb_true_iff, !negb_true_iff, !Z.eqb_neq, bool_decide_eq_true in E. exists 0%nat. cbn. split_and!; try tauto; lia.
  - specialize (IH (a + 1)). destruct (find_free fuel (a + 1) inet used) as [ip'|].
    + destruct IH as (k & Hk & Ea & ?). exists (S k). split_and!; [lia|lia|tauto..].
    + intros k Hk Hf Hl. destruct k as [|k].
      * rewrite Z.add_0_r in *. apply dec_stable. intros Hu. rewrite (bool_decide_eq_true_2 _ Hu) in E.
        destruct (Z.eqb_spec a (inet_first inet)), (Z.eqb_spec a (inet_last inet)); done.
      * replace (a + Z.of_nat (S k)) with (a + 1 + Z.of_nat k) in * by lia. apply IH; [lia|done|done].
Qed.

(** A network with more host addresses than used ones has a free one. *)
Lemma candidate_exists used : Z.of_nat (size used) < inet_hosts (dhcp_inet used) - 2 -> 0 < in_length (dhcp_inet used) <= 32 ->
  exists ip, candidate_ipv4_addr used = Some ip.
Proof.
  intros Hsize Hlen. unfold candidate_ipv4_addr. set (inet := dhcp_inet used) in *.
  pose proof (find_free_spec (Z.to_nat (inet_hosts inet)) (inet_first inet) inet used) as H.
  destruct (find_free _ _ _ _) as [ip|]; [by eexists|]. exfalso.
  set (hosts := (fun k : nat => {| in_address := inet_first inet + Z.of_nat k; in_length := in_length inet |}) <$> seq 1 (Z.to_nat (inet_hosts inet - 2))).
  assert (list_to_set hosts ⊆ used) as Hsub.
  { intros ip Hip. apply elem_of_list_to_set, list_elem_of_fmap in Hip as (k & -> & Hk). apply elem_of_seq in Hk.
    apply H; unfold inet_last; lia. }
  apply subseteq_size in Hsub. rewrite size_list_to_set in Hsub.
  - unfold hosts in Hsub. rewrite length_fmap, length_seq in Hsub. lia.
  - apply NoDup_fmap_2_strong; [|apply NoDup_seq]. intros x y _ _ [= E]. lia.
Qed.

Lemma used_size routes : (size (used_ipv4 routes) <= length routes)%nat.
Proof.
  unfold used_ipv4. induction routes as [|[ip|] l IH]; cbn [omap list_omap id]; csimpl; [done| |lia].
  rewrite size_union_alt, size_singleton. pose proof (subseteq_size (list_to_set (omap id l) ∖ {[ip]} : gset Inet) (list_to_set (omap id l)) ltac:(set_solver)). lia.
Qed.

(** ** Rounds in a network *)

(** A host address of the default network. *)
Definition host_ip (ip : Inet) : Prop := in_length ip = 24 /\ 176061952 < in_address ip < 176062207.

Lemma host_ip_network ip : host_ip ip -> inet_network ip = inet_network default_ipv4_addr.
Proof.
  intros [Hl Ha]. unfold inet_network, inet_first, inet_hosts. rewrite Hl. change (2 ^ (32 - 24)) with 256.
  change (in_length default_ipv4_addr) with 24.
  assert (in_address ip mod 256 = in_address ip - 687742 * 256) as -> by (symmetry; apply (Z.mod_unique _ _ 687742); lia).
  f_equal. change (in_address default_ipv4_addr - in_address default_ipv4_addr mod 2 ^ (32 - 24)) with 176061952. lia.
Qed.

Lemma dhcp_inet_network used : (forall ip, ip ∈ used -> host_ip ip) -> inet_network (dhcp_inet used) = inet_network default_ipv4_addr.
Proof.
  intros Hall. unfold dhcp_inet. destruct (map_iter (gset_to_gmap () used)) as [|[ip []] l] eqn:E; [done|]. cbn.
  apply host_ip_network, Hall. assert ((ip, ()) ∈ map_iter (gset_to_gmap () used)) as Hin by (rewrite E; by left).
  apply elem_of_map_iter in Hin. by apply lookup_gset_to_gmap_Some in Hin as [? _].
Qed.

(** The current address is the announced one, and both are host addresses of the default network. *)
Definition dhcp_ok s : Prop :=
  (forall ip, current_dhcp_ip s = Some ip -> dh_ipv4 s = Some ip) /\ (forall ip, dh_ipv4 s = Some ip -> host_ip ip).

(** What a round does when the routes show host addresses of the network. *)
Lemma dhcp_round_spec no_tun rnd routes s :
  routes <> [] -> (length routes < 254)%nat -> (forall ip, Some ip ∈ routes -> host_ip ip) -> dhcp_ok s ->
  let s' := (dhcp_round no_tun false true rnd routes s).1 in
  exists ip, current_dhcp_ip s' = Some ip /\ dh_ipv4 s' = Some ip /\ host_ip ip /\ Some ip ∉ routes /\
    (forall old, current_dhcp_ip s = Some old -> Some old ∉ routes -> ip = old).
Proof.
  intros Hne Hlen Hhost [Heq Hok]. assert (Hcur : forall ip, current_dhcp_ip s = Some ip -> host_ip ip) by auto.
  unfold dhcp_round. destruct routes as [|r routes']; [done|]. set (routes := r :: routes') in *.
  assert (Hused : forall ip, ip ∈ used_ipv4 routes <-> Some ip ∈ routes).
  { intros ip. unfold used_ipv4. rewrite elem_of_list_to_set, list_elem_of_omap. split; [intros (x & Hx & E); unfold id in E; by subst x|]. intros ?. by exists (Some ip). }
  assert (Hall : forall ip, ip ∈ used_ipv4 routes -> host_ip ip) by (intros ip Hip; by apply Hhost, Hused).
  pose proof (used_size routes) as Hsz.
  set (used := used_ipv4 routes) in *. pose proof (dhcp_inet_network used Hall) as Hnet.
  assert (Hn : inet_first (dhcp_inet used) = 176061952 /\ in_length (dhcp_inet used) = 24).
  { revert Hnet. unfold inet_network. change (inet_first default_ipv4_addr) with 176061952. intros [= -> ->]. done. }
  destruct Hn as [Hf Hl]. cbn [with_sleep current_dhcp_ip].
  destruct (candidate_exists used) as [ip Hip]. { unfold inet_hosts. rewrite Hl. change (2 ^ (32 - 24)) with 256. lia. } { rewrite Hl. lia. }
  assert (Hspec : host_ip ip /\ ip ∉ used).
  { unfold candidate_ipv4_addr in Hip. pose proof (find_free_spec (Z.to_nat (inet_hosts (dhcp_inet used))) (inet_first (dhcp_inet used)) (dhcp_inet used) used) as H.
    rewrite Hip in H. destruct H as (k & Hk & Ea & El & Hnf & Hnl & Hnu). split; [|done]. unfold inet_last, inet_hosts in *. rewrite Hf, Hl in *.
    change (2 ^ (32 - 24)) with 256 in *. split; [done|]. lia. }
  destruct Hspec as [Hh Hnew].
  assert (Hkeep : forall old, current_dhcp_ip s = Some old -> Some old ∉ routes ->
    bool_decide (inet_network old = inet_network (dhcp_inet used)) && bool_decide (old ∉ used) = true).
  { intros old Eold Hno. rewrite !bool_decide_eq_true_2; [done| |]. - by rewrite Hused. - rewrite Hnet. by apply host_ip_network, Hcur. }
  destruct (current_dhcp_ip s) as [old|] eqn:Ec.
  - destruct (bool_decide _ && bool_decide _) eqn:E; cbn [fst].
    + exists old. apply andb_true_iff in E as [_ E]. apply bool_decide_eq_true in E.
      split_and!; [done|by apply Heq|by apply Hcur|by rewrite <- Hused|by intros ? [= <-]].
    + assert (Hin : Some old ∈ routes). { apply dec_stable. intros Hno. by rewrite (Hkeep old eq_refl Hno) in E. }
      cbn [with_sleep current_dhcp_ip]. rewrite Hip, ?Ec. clear E. case_bool_decide as Eo.
      { exfalso. injection Eo as ->. by apply Hnew, Hused. }
      destruct no_tun; cbn; (exists ip; split_and!; [done|done|done|by rewrite <- Hused|by intros ? [= <-] ?]).
  - rewrite Hip. rewrite bool_decide_eq_false_2 by (by rewrite ?Ec).
    destruct no_tun; cbn; (exists ip; split_and!; [done|done|done|by rewrite <- Hused|done]).
Qed.

(** Whatever the routes show of such addresses, and also when the interface was closed. *)
Lemma dhcp_round_ok no_tun closed rnd routes s :
  (length routes < 254)%nat -> (forall ip, Some ip ∈ routes -> host_ip ip) -> dhcp_ok s ->
  dhcp_ok (dhcp_round no_tun closed true rnd routes s).1.
Proof.
  intros Hlen Hhost Hok.
  assert (Hok' : dhcp_ok (if closed then with_current None s else s)) by (destruct closed; [by destruct Hok|done]).
  change (dhcp_round no_tun closed true rnd routes s) with (dhcp_round no_tun false true rnd routes (if closed then with_current None s else s)).
  set (s0 := if closed then _ else _) in *. destruct (decide (routes = [])) as [-> |Hne]; [exact Hok'|].
  destruct (dhcp_round_spec no_tun rnd routes s0 Hne Hlen Hhost Hok') as (ip & Ec & Ei & Hh & _).
  split; intros ip' E; congruence.
Qed.
End dhcp.

(** ** A network of nodes

    The nodes, and what the routes of node [i] show of node [j], at key [(i, j)]: nothing while [j] is not
    in the table of [i], and otherwise the address [j] had announced when its information last reached [i].
    Rounds read only this, so a round may be done on outdated addresses.  Each round walks its hash set
    in an order of its own. *)

Record dhcp_net := { dn_nodes : list DhcpState; dn_heard : gmap (nat * nat) (option Inet) }.

Definition net_new (n : nat) : dhcp_net := {| dn_nodes := replicate n dhcp_new; dn_heard := ∅ |}.

(** [list_routes] of node [i]. *)
Definition routes_of (i : nat) (net : dhcp_net) : list (option Inet) :=
  omap (fun j => dn_heard net !! (i, j)) (base.filter (fun j => j <> i) (seq 0 (length (dn_nodes net)))).

Record dhcp_turn := { tn_node : nat; tn_no_tun : bool; tn_closed : bool; tn_nic_ok : bool; tn_rnd : Z; tn_order : IterOrder Inet () }.

(** Node [i] hears of the address [j] has now; it loses its route to [j]; a node does a round of its loop. *)
Inductive dhcp_act := Hear (i j : nat) | Lose (i j : nat) | Turn (t : dhcp_turn).

Definition network_round (t : dhcp_turn) (net : dhcp_net) : dhcp_net :=
  match dn_nodes net !! tn_node t with
  | Some s => {|
      dn_nodes := <[tn_node t :=
        (dhcp_round (IterOrder0 := tn_order t) (tn_no_tun t) (tn_closed t) (tn_nic_ok t) (tn_rnd t) (routes_of (tn_node t) net) s).1]>
        (dn_nodes net);
      dn_heard := dn_heard net |}
  | None => net
  end.

Definition network_act (a : dhcp_act) (net : dhcp_net) : dhcp_net :=
  match a with
  | Hear i j =>
      match dn_nodes net !! j with
      | Some s => {| dn_nodes := dn_nodes net; dn_heard := <[(i, j) := dh_ipv4 s]> (dn_heard net) |}
      | None => net
      end
  | Lose i j => {| dn_nodes := dn_nodes net; dn_heard := base.delete (i, j) (dn_heard net) |}
  | Turn t => network_round t net
  end.

Definition network_run (acts : list dhcp_act) (net : dhcp_net) : dhcp_net := foldl (fun net a => network_act a net) net acts.

Definition announced (net : dhcp_net) : list (option Inet) := dh_ipv4 <$> dn_nodes net.

(** ** The network settles *)

(** No two nodes have an address in common. *)
Definition all_distinct (net : dhcp_net) : Prop :=
  forall i j ip, announced net !! i = Some (Some ip) -> announced net !! j = Some (Some ip) -> i = j.

(** The routes of node [i] show every other node with the address it has. *)
Definition fresh (i : nat) (net : dhcp_net) : Prop :=
  Forall (fun j => j <> i -> dn_heard net !! (i, j) = announced net !! j) (seq 0 (length (dn_nodes net))).

#[global] Instance fresh_dec i net : Decision (fresh i net).
Proof. unfold fresh. solve_decision. Defined.

(** Setting up the interface works whenever it is tried. *)
Definition nic_works (a : dhcp_act) : bool := match a with Turn t => tn_nic_ok t | _ => true end.

(** Besides, no interface is closed, and when a node does a round its routes are up to date. *)
Fixpoint timely (acts : list dhcp_act) (net : dhcp_net) : Prop :=
  match acts with
  | [] => True
  | a :: acts =>
      match a with Turn t => tn_nic_ok t = true /\ tn_closed t = false /\ fresh (tn_node t) net | _ => True end /\
      timely acts (network_act a net)
  end.

(** Node [i] has a round among [acts]. *)
Definition has_turn (acts : list dhcp_act) (i : nat) : Prop := exists t, Turn t ∈ acts /\ tn_node t = i.

(** What every action preserves. *)
Definition dhcp_inv (n : nat) (net : dhcp_net) : Prop :=
  length (dn_nodes net) = n /\ Forall dhcp_ok (dn_nodes net) /\
  (forall i j ip, dn_heard net !! (i, j) = Some (Some ip) -> host_ip ip).

(** Node [i] has an address that nobody else has. *)
Definition own_address (net : dhcp_net) (i : nat) : Prop :=
  exists s ip, dn_nodes net !! i = Some s /\ current_dhcp_ip s = Some ip /\ dh_ipv4 s = Some ip /\
    forall j, j <> i -> announced net !! j <> Some (Some ip).

Lemma announced_lookup net i s : dn_nodes net !! i = Some s -> announced net !! i = Some (dh_ipv4 s).
Proof. intros E. unfold announced. by rewrite list_lookup_fmap, E. Qed.

Lemma elem_of_routes i net r : r ∈ routes_of i net -> exists j, dn_heard net !! (i, j) = Some r.
Proof. unfold routes_of. intros (j & _ & E)%list_elem_of_omap. by exists j. Qed.

Lemma omap_length_le {A B} (f : A -> option B) l : (length (omap f l) <= length l)%nat.
Proof. induction l as [|x l IH]; csimpl; [done|]. destruct (f x); csimpl; lia. Qed.

Lemma routes_length i net : (i < length (dn_nodes net))%nat -> (length (routes_of i net) < length (dn_nodes net))%nat.
Proof.
  intros Hi. unfold routes_of. eapply Nat.le_lt_trans; [apply omap_length_le|]. rewrite <- (length_seq (length (dn_nodes net)) 0) at 2.
  apply (length_filter_lt _ _ i); [apply elem_of_seq; lia|tauto].
Qed.

(** Up-to-date routes show the addresses of all the others. *)
Lemma fresh_routes i j s net : fresh i net -> j <> i -> dn_nodes net !! j = Some s -> dh_ipv4 s ∈ routes_of i net.
Proof.
  intros Hf Hj Es. unfold fresh in Hf. rewrite Forall_forall in Hf. pose proof (lookup_lt_Some _ _ _ Es) as Hlt.
  unfold routes_of. apply list_elem_of_omap. exists j. split.
  - apply list_elem_of_filter. split; [done|]. apply elem_of_seq. lia.
  - rewrite Hf; [by apply announced_lookup| |done]. apply elem_of_seq. lia.
Qed.

Lemma fresh_nonempty i net : (2 <= length (dn_nodes net))%nat -> fresh i net -> routes_of i net <> [].
Proof.
  intros Hn Hf E. assert (exists j, (j < length (dn_nodes net))%nat /\ j <> i) as (j & Hj & Hji). { destruct i; [exists 1%nat|exists 0%nat]; lia. }
  apply lookup_lt_is_Some in Hj as [s Es]. pose proof (fresh_routes i j s net Hf Hji Es) as H. rewrite E in H. by apply not_elem_of_nil in H.
Qed.

Lemma dhcp_inv_new n : dhcp_inv n (net_new n).
Proof.
  split_and!; [apply length_replicate| |done]. apply Forall_forall. intros s Hs. apply elem_of_replicate in Hs as [-> _]. by split.
Qed.

Lemma network_act_inv n a net : (2 <= n <= 254)%nat -> nic_works a = true -> dhcp_inv n net -> dhcp_inv n (network_act a net).
Proof.
  intros Hn Hnic (Hlen & Hok & Hheard). destruct a as [i j|i j|t]; cbn [network_act].
  - destruct (dn_nodes net !! j) as [s|] eqn:Es; [|done]. split_and!; [done|done|]. cbn. intros i' j' ip [[_ E]|[_ E]]%lookup_insert_Some; [|by eauto].
    by eapply Forall_lookup_1 in Hok as [_ Hh]; [apply Hh|].
  - split_and!; [done|done|]. cbn. intros i' j' ip [_ E]%lookup_delete_Some. by eauto.
  - unfold network_round. destruct (dn_nodes net !! tn_node t) as [s|] eqn:Es; [|done]. cbn in Hnic. rewrite Hnic.
    pose proof (lookup_lt_Some _ _ _ Es) as Hi. split_and!; cbn; [by rewrite length_insert| |done].
    apply Forall_insert; [done|]. apply dhcp_round_ok.
    + pose proof (routes_length _ _ Hi). lia.
    + intros ip (j & E)%elem_of_routes. by eauto.
    + by eapply Forall_lookup_1 in Hok.
Qed.

Lemma network_run_inv n acts : (2 <= n <= 254)%nat -> forall net, Forall nic_works acts -> dhcp_inv n net -> dhcp_inv n (network_run acts net).
Proof.
  intros Hn. induction acts as [|a acts IH]; intros net Hw Hinv; [done|]. apply Forall_cons in Hw as [Hw Hws].
  apply (IH (network_act a net)); [done|]. apply network_act_inv; [done|by destruct (nic_works a)|done].
Qed.

(** A round on up-to-date routes: the node has an address of its own afterwards, the old one if that was its own,
    and the other nodes are untouched and keep theirs to themselves. *)
Lemma fresh_round n t net : (2 <= n <= 254)%nat -> dhcp_inv n net -> tn_nic_ok t = true -> tn_closed t = false -> fresh (tn_node t) net ->
  let net' := network_round t net in
  ((tn_node t < n)%nat -> own_address net' (tn_node t)) /\
  (forall i, own_address net i -> own_address net' i /\ announced net' !! i = announced net !! i).
Proof.
  intros Hn (Hlen & Hok & Hheard) Hnic Hcl Hfresh. cbv zeta. unfold network_round.
  destruct (dn_nodes net !! tn_node t) as [s|] eqn:Es.
  2:{ split; [intros Hlt; apply lookup_ge_None in Es; lia|done]. }
  pose proof (lookup_lt_Some _ _ _ Es) as Hi. rewrite Hnic, Hcl.
  destruct (dhcp_round_spec (IterOrder0 := tn_order t) (tn_no_tun t) (tn_rnd t) (routes_of (tn_node t) net) s) as (ip & Ec & Ei & _ & Hnew & Hkeep).
  { apply fresh_nonempty; [lia|done]. } { pose proof (routes_length _ _ Hi). lia. } { intros ip (j & E)%elem_of_routes. by eauto. } { by eapply Forall_lookup_1 in Hok. }
  set (s' := (dhcp_round _ _ _ _ _ _).1) in *. set (net' := Build_dhcp_net _ _).
  assert (Hself : dn_nodes net' !! tn_node t = Some s') by (cbn; by rewrite list_lookup_insert_eq).
  assert (Hrest : forall j, j <> tn_node t -> announced net' !! j = announced net !! j).
  { intros j Hj. unfold announced. cbn. by rewrite !list_lookup_fmap, list_lookup_insert_ne. }
  assert (Hothers : forall j, j <> tn_node t -> announced net !! j <> Some (Some ip)).
  { intros j Hj E. unfold announced in E. rewrite list_lookup_fmap in E. destruct (dn_nodes net !! j) as [sj|] eqn:Ej; [|done].
    injection E as E. apply Hnew. rewrite <- E. by eapply fresh_routes. }
  assert (Hown : own_address net' (tn_node t)).
  { exists s', ip. split_and!; [done|done|done|]. intros j Hj. rewrite Hrest by done. by apply Hothers. }
  split; [done|]. intros i (si & ipi & Esi & Eci & Eii & Hui). destruct (decide (i = tn_node t)) as [-> |Hne].
  - split; [done|]. assert (si = s) as -> by congruence. rewrite (announced_lookup _ _ _ Hself), (announced_lookup _ _ _ Es), Ei, Eii.
    do 2 f_equal. apply Hkeep; [done|]. unfold routes_of. intros (j & [Hj Hjn]%list_elem_of_filter & E)%list_elem_of_omap.
    apply (Hui j Hj). unfold fresh in Hfresh. rewrite Forall_forall in Hfresh. by rewrite <- (Hfresh j Hjn Hj).
  - split; [|by apply Hrest]. exists si, ipi. split_and!; [cbn; by rewrite list_lookup_insert_ne|done|done|].
    intros j Hj. destruct (decide (j = tn_node t)) as [-> |Hjt]; [|rewrite Hrest by done; by apply Hui].
    rewrite (announced_lookup _ _ _ Hself), Ei. intros [= ->]. apply (Hothers i Hne). by rewrite (announced_lookup _ _ _ Esi), Eii.
Qed.

(** What holds of one such action holds of a run of them: nodes that have an address of their own keep it, and whoever
    has a round gets one. *)
Lemma timely_run n acts : (2 <= n <= 254)%nat -> forall net, dhcp_inv n net -> timely acts net ->
  let net' := network_run acts net in
  dhcp_inv n net' /\
  (forall i, own_address net i -> own_address net' i /\ announced net' !! i = announced net !! i) /\
  (forall i, (i < n)%nat -> has_turn acts i -> own_address net' i).
Proof.
  intros Hn. induction acts as [|a acts IH]; intros net Hinv Ht.
  { split_and!; [done|done|]. by intros i _ (t & Ht'%not_elem_of_nil & _). }
  destruct Ht as [Ha Ht].
  assert (Hstep : dhcp_inv n (network_act a net) /\
    (forall i, own_address net i -> own_address (network_act a net) i /\ announced (network_act a net) !! i = announced net !! i) /\
    (forall t, a = Turn t -> (tn_node t < n)%nat -> own_address (network_act a net) (tn_node t))).
  { split; [apply network_act_inv; [done| |done]; destruct a; [done|done|]; by destruct Ha|].
    destruct a as [i j|i j|t]; cbn [network_act].
    - destruct (dn_nodes net !! j); [|done]. by split.
    - by split.
    - destruct Ha as (Hnic & Hcl & Hf). destruct (fresh_round n t net Hn Hinv Hnic Hcl Hf) as [H1 H2].
      split; [done|]. by intros t' [= <-]. }
  destruct Hstep as (Hinv' & Hkeep & Hturn). destruct (IH (network_act a net) Hinv' Ht) as (Hi & Hk & Hd).
  split_and!; [done| |].
  - intros i Ho. destruct (Hkeep i Ho) as [Ho' E]. destruct (Hk i Ho') as [Ho2 E2]. split; [done|]. by rewrite <- E.
  - intros i Hlt (t & Hin & <-). apply elem_of_cons in Hin as [Hin|Hin].
    + by apply Hk, Hturn.
    + apply Hd; [done|]. by exists t.
Qed.

(** C33.  Between 2 and 254 nodes of a network that all get their address automatically, with nothing but
    automatic addresses in use.  Whatever happened before, rounds done on outdated routes, lost routes and
    closed interfaces included, so that several nodes may have taken the same address: once each node
    has had a round at a time when its routes showed the others' addresses as they were,
    every node has a host address of the default network, no two have the same one, and no further such round
    changes any address; a node whose address nobody else has keeps it through all of it.
    Setting up the interface is assumed to work whenever it is tried, and no interface
    is closed during the settling rounds. *)
Theorem dhcp_settles (n : nat) (before acts more : list dhcp_act) :
  (2 <= n <= 254)%nat -> Forall nic_works before ->
  let start := network_run before (net_new n) in
  timely acts start -> (forall i, (i < n)%nat -> has_turn acts i) ->
  let net := network_run acts start in
  timely more net ->
  length (announced net) = n /\
  (forall i, (i < n)%nat -> exists ip, announced net !! i = Some (Some ip) /\ host_ip ip) /\
  all_distinct net /\
  (forall i, own_address start i -> announced net !! i = announced start !! i) /\
  announced (network_run more net) = announced net.
Proof.
  intros Hn Hbefore start Hacts Hall net Hmore.
  assert (Hinv0 : dhcp_inv n start) by (apply network_run_inv; [done|done|apply dhcp_inv_new]).
  destruct (timely_run n acts Hn start Hinv0 Hacts) as (Hinv & Hkeep & Hd). fold net in Hinv, Hkeep, Hd.
  destruct (timely_run n more Hn net Hinv Hmore) as ((Hlen' & _) & Hkeep' & _). destruct Hinv as (Hlen & Hok & _).
  assert (Hown : forall i, (i < n)%nat -> own_address net i) by auto.
  assert (Hlena : length (announced net) = n) by (unfold announced; by rewrite length_fmap).
  split_and!; [done| | |by intros i Hi; apply Hkeep|].
  - intros i Hi. destruct (Hown i Hi) as (s & ip & Es & _ & Eip & _). exists ip. rewrite (announced_lookup _ _ _ Es), Eip. split; [done|].
    by eapply Forall_lookup_1 in Hok as [_ Hh]; [apply Hh|].
  - intros i j ip Ei Ej. pose proof (lookup_lt_Some _ _ _ Ei) as Hi. destruct (Hown i) as (s & ip' & Es & _ & Eip & Hu); [lia|].
    destruct (decide (j = i)) as [|Hne]; [done|]. destruct (Hu j Hne). rewrite (announced_lookup _ _ _ Es) in Ei. congruence.
  - apply list_eq_same_length with n; [done|unfold announced; by rewrite length_fmap|].
    intros i x y Hi Hx Hy. destruct (Hkeep' i (Hown i Hi)) as [_ E]. congruence.
Qed.

Definition turn_of (i : nat) : dhcp_turn :=
  {| tn_node := i; tn_no_tun := false; tn_closed := false; tn_nic_ok := true; tn_rnd := 5; tn_order := _ |}.
Definition turn (i : nat) : dhcp_act := Turn (turn_of i).

(** Node [i] hears of all the others. *)
Definition hear_all (i : nat) : list dhcp_act := Hear i <$> base.filter (fun j => j <> i) [0; 1; 2]%nat.

(** Nodes 0 and 1 do their first rounds before either has heard of the other's address, and take the same one;
    node 2 does nothing yet. *)
Lemma dhcp_settles_witness :
  let before := [Hear 0 1; Hear 1 0; turn 0; turn 1]%nat in
  let acts := hear_all 1 ++ [turn 1] ++ hear_all 0 ++ [turn 0] ++ hear_all 2 ++ [turn 2] in
  let more := hear_all 0 ++ [turn 0] ++ hear_all 1 ++ [turn 1] in
  let addr a := Some {| in_address := a; in_length := 24 |} in
  let start := network_run before (net_new 3) in
  let net := network_run acts start in
  announced start = [addr 176061953; addr 176061953; None] /\
  announced net = [addr 176061953; addr 176061954; addr 176061955] /\
  announced (network_run more net) = announced net.
Proof.
  intros before acts more addr start net. split; [vm_compute; reflexivity|]. split; [vm_compute; reflexivity|].
  refine (proj2 (proj2 (proj2 (proj2 (dhcp_settles 3 before acts more _ _ _ _ _))))).
  - lia.
  - by repeat constructor.
  - vm_compute. split_and!; (done || (repeat constructor; done)).
  - intros i Hi. assert (i = 0 \/ i = 1 \/ i = 2)%nat as [-> |[-> | ->]] by lia; [exists (turn_of 0)|exists (turn_of 1)|exists (turn_of 2)];
      (split; [apply list_elem_of_lookup|reflexivity]); [by exists 5%nat|by exists 2%nat|by exists 8%nat].
  - vm_compute. split_and!; (done || (repeat constructor; done)).
Defined.

(** ** What may surprise *)

(** When the interface cannot be set up, the old address stays the current one while
    the interface and the announced address are gone; once nobody has the old address any more,
    rounds change nothing, so the node stays without an interface. *)
Lemma nic_failure_sticks :
  let old := {| in_address := 176061953; in_length := 24 |} in
  let peer a := Some {| in_address := a; in_length := 24 |} in
  let s := {| current_dhcp_ip := Some old; next_sleep_time := 5; dh_ipv4 := Some old; dh_nic := true |} in
  let '(s1, _) := dhcp_round false false false 5 [peer 176061953] s in
  let '(s2, ev) := dhcp_round false false true 5 [peer 176061954] s1 in
  (dh_nic s1, dh_ipv4 s1) = (false, None) /\ (dh_nic s2, dh_ipv4 s2, current_dhcp_ip s2, ev) = (false, None, Some old, []).
Proof. vm_compute. done. Qed.

(** Addresses are compared with their prefix length: a peer's address with another length is not a conflict. *)
Lemma other_length_no_conflict :
  let mine := {| in_address := 176061953; in_length := 24 |} in
  let s := {| current_dhcp_ip := Some mine; next_sleep_time := 5; dh_ipv4 := Some mine; dh_nic := true |} in
  let routes := [Some {| in_address := 176061955; in_length := 24 |}; Some {| in_address := 176061953; in_length := 25 |}] in
  (* whichever of the two networks the set yields first *)
  inet_network mine = inet_network {| in_address := 176061955; in_length := 24 |} /\ mine ∉ used_ipv4 routes.
Proof. split; [done|]. by apply (bool_decide_unpack _). Qed.
