(* ===== verification/Socks5.v ===== *)
(** * Port forwards and the SOCKS5 server

    [gateway/socks5.rs]: connections and datagrams that reach local ports are carried
    over a TCP/IP stack of the program's own.  Packets of peers that belong to
    a flow of this stack are taken from the packet path; which they are is read from
    a set of entries, one per flow.  A UDP forward makes a flow per client,
    with a task that brings answers back to it.

    Sockets are named by their ports.  What the operating system and the stack
    answer (a free port, whether a bind works) is an argument.  The tasks of the server
    are labels; an iteration of a task is one step. *)

From stdpp Require Import base numbers list gmap strings.
From Stdlib Require Import ZifyBool.
From S2P Require Import Prelude Text IpReassembler PacketDef CidrSet IpProxy UdpProxy NetText Config.
Open Scope Z_scope.

(** [TcpPacket::new] and the two ports. *)
Class TcpPorts := { tcp_ports : bytes -> option (Z * Z) }.

Definition IP_TCP_PROTO : Z := 6.

(** ** State *)

Definition UDP_ENTRY : Z := 1.
Definition TCP_ENTRY : Z := 2.

Record Socks5Entry := { se_src : SocketAddr; se_dst : SocketAddr; se_type : Z }.
#[global] Instance socks5_entry_eq_dec : EqDecision Socks5Entry.
Proof. solve_decision. Defined.
#[global] Instance socks5_entry_countable : Countable Socks5Entry.
Proof.
  refine (inj_countable' (fun e => (se_src e, se_dst e, se_type e)) (fun '(a, b, c) => {| se_src := a; se_dst := b; se_type := c |}) _).
  by intros [].
Defined.

Record UdpClientKey := { ck_client : SocketAddr; ck_dst : SocketAddr }.
#[global] Instance udp_client_key_eq_dec : EqDecision UdpClientKey.
Proof. solve_decision. Defined.
#[global] Instance udp_client_key_countable : Countable UdpClientKey.
Proof.
  refine (inj_countable' (fun k => (ck_client k, ck_dst k)) (fun '(a, b) => {| ck_client := a; ck_dst := b |}) _). by intros [].
Defined.

#[global] Instance port_forward_countable : Countable PortForwardConfig.
Proof.
  refine (inj_countable' (fun c => (bind_addr c, dst_addr c, pf_proto c)) (fun '(a, b, c) => {| bind_addr := a; dst_addr := b; pf_proto := c |}) _).
  by intros [].
Defined.

(** A socket of the system, which holds a port, or one of the stack. *)
Inductive SocksUdpSocket := RealUdpSocket (port : Z) | SmolUdpSocket (addr : SocketAddr).

Inductive Socks5EntryData := EntryTcp (port : Z) | EntryUdp (s : SocksUdpSocket) (k : UdpClientKey).

(** [port_holder_socket] is the socket with the port of [ci_local_addr]. *)
Record UdpClientInfo := { ci_client_addr : SocketAddr; ci_local_addr : SocketAddr; ci_last_active : Z; ci_entry_key : Socks5Entry }.

(** The task that takes answers from a socket to a client, through the socket of a forward. *)
Record ReplyTask := { rt_socket : SocksUdpSocket; rt_forward : SocketAddr; rt_client : SocketAddr }.

(** [ss_prev_ipv4] belongs to the task of [run_net_update_task]; [ss_net] is the address of the
    running stack, if there is one. *)
Record Socks5Server := mkSocks {
  ss_entries : gmap Socks5Entry Socks5EntryData; udp_client_map : gmap UdpClientKey UdpClientInfo;
  udp_forward_task : gmap UdpClientKey ReplyTask; ss_net : option Inet; ss_prev_ipv4 : option Inet;
  socks5_enabled : bool; cancel_tokens : gset PortForwardConfig; ss_channel : list ZCPacket
}.

Inductive socks_action :=
| SendFromSocket (s : SocksUdpSocket) (data : bytes) (dst : SocketAddr)
| SendToClient (from : SocketAddr) (data : bytes) (client : SocketAddr)
| PortForwardAdded (cfg : PortForwardConfig)
| ToStack (data : bytes).

Inductive forward_error := BindFailed | UnsupportedProtocol.

Definition with_ss_entries e s : Socks5Server :=
  mkSocks e (udp_client_map s) (udp_forward_task s) (ss_net s) (ss_prev_ipv4 s) (socks5_enabled s) (cancel_tokens s) (ss_channel s).
Definition with_clients m s : Socks5Server :=
  mkSocks (ss_entries s) m (udp_forward_task s) (ss_net s) (ss_prev_ipv4 s) (socks5_enabled s) (cancel_tokens s) (ss_channel s).
Definition with_tasks m s : Socks5Server :=
  mkSocks (ss_entries s) (udp_client_map s) m (ss_net s) (ss_prev_ipv4 s) (socks5_enabled s) (cancel_tokens s) (ss_channel s).
Definition with_net n s : Socks5Server :=
  mkSocks (ss_entries s) (udp_client_map s) (udp_forward_task s) n (ss_prev_ipv4 s) (socks5_enabled s) (cancel_tokens s) (ss_channel s).
Definition with_prev p s : Socks5Server :=
  mkSocks (ss_entries s) (udp_client_map s) (udp_forward_task s) (ss_net s) p (socks5_enabled s) (cancel_tokens s) (ss_channel s).
Definition with_tokens t s : Socks5Server :=
  mkSocks (ss_entries s) (udp_client_map s) (udp_forward_task s) (ss_net s) (ss_prev_ipv4 s) (socks5_enabled s) t (ss_channel s).
Definition with_packets c s : Socks5Server :=
  mkSocks (ss_entries s) (udp_client_map s) (udp_forward_task s) (ss_net s) (ss_prev_ipv4 s) (socks5_enabled s) (cancel_tokens s) c.
Definition with_enabled b s : Socks5Server :=
  mkSocks (ss_entries s) (udp_client_map s) (udp_forward_task s) (ss_net s) (ss_prev_ipv4 s) b (cancel_tokens s) (ss_channel s).

Definition socks5_new : Socks5Server := mkSocks ∅ ∅ ∅ None None false ∅ [].

(** ** Packets of peers *)

Section server.
Context `{Ipv4Codec} `{UdpLib} `{TcpPorts}.
Implicit Types s : Socks5Server.

(** [try_send] into the channel of 1024 packets. *)
Definition try_send_packet (packet : ZCPacket) s : Socks5Server :=
  if (length (ss_channel s) <? 1024)%nat then with_packets (ss_channel s ++ [packet]) s else s.

(** The flow a packet belongs to, seen from this side. *)
Definition flow_of (v : Ipv4View) (ports : Z * Z) (type : Z) : Socks5Entry :=
  {| se_dst := (V4 (view_source v), ports.1); se_src := (V4 (view_destination v), ports.2); se_type := type |}.

Definition udp_ports (b : bytes) : option (Z * Z) := (fun u => (uv_source u, uv_destination u)) <$> udp_view b.

(** [Some] when the packet goes on. *)
Definition socks_filter (packet : ZCPacket) s : outcome (option ZCPacket * Socks5Server) :=
  if bool_decide (cancel_tokens s = ∅) && bool_decide (ss_entries s = ∅) && negb (socks5_enabled s) then Done (Some packet, s)
  else
    h ← peer_manager_header packet;
    hdr ← unwrap h;
    if negb (pm_packet_type hdr =? packet_type_u8 PktData) then Done (Some packet, s)
    else
      data ← payload packet;
      v ← unwrap (ipv4_view data);
      if negb (view_version v =? 4) then Done (Some packet, s)
      else
        let take key :=
          if bool_decide (is_Some (ss_entries s !! key)) then Done (None, try_send_packet packet s) else Done (Some packet, s) in
        if view_protocol v =? IP_TCP_PROTO then
          match tcp_ports (view_payload v) with
          | None => Done (Some packet, s)
          | Some ports => take (flow_of v ports TCP_ENTRY)
          end
        else if view_protocol v =? IP_UDP then
          if is_packet_fragmented v && negb (bool_decide (ss_entries s = ∅)) then
            if bool_decide (exists k, k ∈ dom (ss_entries s) /\ fst (se_dst k) = V4 (view_source v))
            then Done (Some packet, try_send_packet packet s)
            else Done (Some packet, s)
          else
            match udp_ports (view_payload v) with
            | None => Done (Some packet, s)
            | Some ports => take (flow_of v ports UDP_ENTRY)
            end
        else Done (Some packet, s).

(** The task of [Socks5ServerNet] that feeds the stack; it lives as long as the stack. *)
Definition feed_stack s : outcome (option (Socks5Server * list socks_action)) :=
  match ss_net s, ss_channel s with
  | Some _, packet :: rest => data ← payload packet; Done (Some (with_packets rest s, [ToStack data]))
  | _, _ => Done None
  end.

(** ** TCP connections over the stack *)

(** [SmolTcpConnector::tcp_connect] with the port the system gave: the entry, and where to connect to,
    with a socket of the system or one of the stack. *)
Definition tcp_connect (port : Z) (addr : SocketAddr) (net : Inet) s : Socks5Entry * (bool * SocketAddr) * Socks5Server :=
  let entry := {| se_src := (V4 (in_address net), port); se_dst := addr; se_type := TCP_ENTRY |} in
  let to := if bool_decide (fst addr = V4 (in_address net)) then (true, (V4 LOCALHOST, snd addr)) else (false, addr) in
  (entry, to, with_ss_entries (<[entry := EntryTcp port]> (ss_entries s)) s).

(** [drop] of the connector. *)
Definition tcp_connector_drop (entry : option Socks5Entry) s : Socks5Server :=
  match entry with Some e => with_ss_entries (delete e (ss_entries s)) s | None => s end.

(** ** UDP forwards *)

(** A datagram of a client at the socket of [fwd].  [port] is the port of the system for a new client,
    [smol_ok] whether the stack can bind. *)
Definition client_info_for (now : Z) (port : option Z) (fwd : PortForwardConfig) (addr : SocketAddr) s : option (UdpClientInfo * Socks5Server) :=
  let key := {| ck_client := addr; ck_dst := dst_addr fwd |} in
  match udp_client_map s !! key with
  | Some i => Some (i, s)
  | None =>
      port ← port;
      net ← ss_net s;
      let local := (V4 (in_address net), port) in
      let i := {| ci_client_addr := addr; ci_local_addr := local; ci_last_active := now;
                  ci_entry_key := {| se_src := local; se_dst := dst_addr fwd; se_type := UDP_ENTRY |} |} in
      Some (i, with_clients (<[key := i]> (udp_client_map s)) s)
  end.

Definition touch_client (now : Z) (i : UdpClientInfo) : UdpClientInfo :=
  {| ci_client_addr := ci_client_addr i; ci_local_addr := ci_local_addr i; ci_last_active := now; ci_entry_key := ci_entry_key i |}.

Definition own_dst (net : Inet) (dst : SocketAddr) : bool := bool_decide (fst dst = V4 (in_address net)).

(** What is meant for this node itself is sent from the socket that holds the port. *)
Definition socket_for (net : Inet) (dst : SocketAddr) (port : Z) : SocksUdpSocket :=
  if own_dst net dst then RealUdpSocket port else SmolUdpSocket (V4 (in_address net), port).

Definition entry_data_for (smol_ok : bool) (fwd : PortForwardConfig) (addr : SocketAddr) (i : UdpClientInfo) s
    : outcome (option (Socks5EntryData * Socks5Server)) :=
  let key := {| ck_client := addr; ck_dst := dst_addr fwd |} in
  match ss_entries s !! ci_entry_key i with
  | Some data => Done (Some (data, s))
  | None =>
      match ss_net s with
      | None => Done None
      | Some net =>
          sock ← (if own_dst net (dst_addr fwd) || smol_ok then Done (socket_for net (dst_addr fwd) (snd (ci_local_addr i)))
                  else Panicked UnwrapOnNone);
          let data := EntryUdp sock key in
          let task := {| rt_socket := sock; rt_forward := bind_addr fwd; rt_client := addr |} in
          Done (Some (data, with_tasks (<[key := task]> (udp_forward_task s)) (with_ss_entries (<[ci_entry_key i := data]> (ss_entries s)) s)))
      end
  end.

Definition ascii_lower (t : text) : text := (fun c => if (65 <=? c) && (c <=? 90) then c + 32 else c) <$> t.
Definition is_proto (name : string) (cfg : PortForwardConfig) : bool := bool_decide (ascii_lower (pf_proto cfg) = txt name).

(** The buffer has 8192 bytes. *)
Definition udp_from_client (now : Z) (port : option Z) (smol_ok : bool) (fwd : PortForwardConfig) (addr : SocketAddr) (data : bytes) s
    : outcome (option (Socks5Server * list socks_action)) :=
  if negb (bool_decide (fwd ∈ cancel_tokens s) && is_proto "udp" fwd) then Done None
  else
    match client_info_for now port fwd addr s with
    | None => Done (Some (s, []))
    | Some (i, s) =>
        let key := {| ck_client := addr; ck_dst := dst_addr fwd |} in
        let i := touch_client now i in
        let s := with_clients (<[key := i]> (udp_client_map s)) s in
        d ← entry_data_for smol_ok fwd addr i s;
        match d with
        | None => Done (Some (s, []))
        | Some (EntryUdp sock _, s) => Done (Some (s, [SendFromSocket sock (take 8192 data) (dst_addr fwd)]))
        | Some (EntryTcp _, _) => Panicked ExplicitPanic
        end
    end.

(** What arrives at the socket of a reply task. *)
Definition udp_reply (key : UdpClientKey) (data : bytes) s : outcome (option (Socks5Server * list socks_action)) :=
  match udp_forward_task s !! key with
  | Some t => Done (Some (s, [SendToClient (rt_forward t) (take 8192 data) (rt_client t)]))
  | None => Done None
  end.

(** A round of the clean-up task that nothing interrupts. *)
Definition clean_up (now : Z) s : Socks5Server :=
  let clients := retain (fun _ i => elapsed_secs now (ci_last_active i) <? 600) (udp_client_map s) in
  let alive key := bool_decide (is_Some (clients !! key)) in
  with_ss_entries (retain (fun _ d => match d with EntryUdp _ key => alive key | EntryTcp _ => true end) (ss_entries s))
    (with_tasks (retain (fun key _ => alive key) (udp_forward_task s)) (with_clients clients s)).

(** ** The configured forwards *)

Section reload.
(** Whether the port of a forward can be bound. *)
Variable bind_ok : PortForwardConfig -> bool.

Definition add_port_forward (cfg : PortForwardConfig) s : result forward_error () * Socks5Server * list socks_action :=
  if is_proto "tcp" cfg || is_proto "udp" cfg then
    if bind_ok cfg then (Ok (), with_tokens ({[cfg]} ∪ cancel_tokens s) s, [PortForwardAdded cfg])
    else (Err BindFailed, s, [])
  else (Err UnsupportedProtocol, s, []).

Definition remove_port_forward (cfg : PortForwardConfig) s : Socks5Server := with_tokens (cancel_tokens s ∖ {[cfg]}) s.

Fixpoint add_missing (cfgs : list PortForwardConfig) s : result forward_error () * Socks5Server * list socks_action :=
  match cfgs with
  | [] => (Ok (), s, [])
  | cfg :: cfgs =>
      if bool_decide (cfg ∈ cancel_tokens s) then add_missing cfgs s
      else
        match add_port_forward cfg s with
        | (Ok _, s, acts) => let '(r, s, more) := add_missing cfgs s in (r, s, acts ++ more)
        | (Err e, s, acts) => (Err e, s, acts)
        end
  end.

(** [is_unspecified]. *)
Definition unspecified (a : SocketAddr) : bool := bool_decide (fst a = V4 0 \/ fst a = V6 0).

Definition still_wanted (cfgs : list PortForwardConfig) (k : PortForwardConfig) : Prop :=
  Exists (fun cfg => if unspecified (dst_addr cfg) then bind_addr k = bind_addr cfg /\ pf_proto k = pf_proto cfg else k = cfg) cfgs.

#[global] Instance still_wanted_dec cfgs k : Decision (still_wanted cfgs k).
Proof. unfold still_wanted. apply Exists_dec. intros cfg. destruct (unspecified (dst_addr cfg)); apply _. Defined.

Definition reload_port_forwards (cfgs : list PortForwardConfig) s : result forward_error () * Socks5Server * list socks_action :=
  add_missing cfgs (with_tokens (base.filter (still_wanted cfgs) (cancel_tokens s)) s).

End reload.

(** ** The address of the stack *)

(** An iteration of [run_net_update_task]: [Idle] waits for the list of forwards to change, the other for events and time. *)
Inductive net_wait := WaitForwards | WaitEvents.

Definition net_update (cur_ipv4 : option Inet) s : Socks5Server * net_wait :=
  if bool_decide (cancel_tokens s = ∅) && negb (socks5_enabled s) then (with_net None s, WaitForwards)
  else if bool_decide (ss_prev_ipv4 s = cur_ipv4) then (s, WaitEvents)
  else (with_net cur_ipv4 (with_clients ∅ (with_ss_entries ∅ (with_prev cur_ipv4 s))), WaitEvents).

(** ** Tasks *)

Inductive socks_label :=
| LPacket (p : ZCPacket)
| LFeed
| LTcpConnect (port : Z) (addr : SocketAddr)
| LTcpDrop (entry : option Socks5Entry)
| LClient (now : Z) (port : option Z) (smol_ok : bool) (fwd : PortForwardConfig) (addr : SocketAddr) (data : bytes)
| LReply (key : UdpClientKey) (data : bytes)
| LCleanUp (now : Z)
| LReload (bind_ok : PortForwardConfig -> bool) (cfgs : list PortForwardConfig)
| LNetUpdate (cur_ipv4 : option Inet)
| LEnable.

Definition socks_step (l : socks_label) s : outcome (option (Socks5Server * list socks_action)) :=
  match l with
  | LPacket p => '(_, s) ← socks_filter p s; Done (Some (s, []))
  | LFeed => feed_stack s
  | LTcpConnect port addr => match ss_net s with Some net => Done (Some ((tcp_connect port addr net s).2, [])) | None => Done None end
  | LTcpDrop entry => Done (Some (tcp_connector_drop entry s, []))
  | LClient now port smol_ok fwd addr data => udp_from_client now port smol_ok fwd addr data s
  | LReply key data => udp_reply key data s
  | LCleanUp now => Done (Some (clean_up now s, []))
  | LReload bind_ok cfgs => let '(_, s, acts) := reload_port_forwards bind_ok cfgs s in Done (Some (s, acts))
  | LNetUpdate cur => Done (Some ((net_update cur s).1, []))
  | LEnable => Done (Some (with_enabled true s, []))
  end.

(** ** Reachable states *)

(** The system gives out no port that a client has. *)
Definition fresh_port (port : Z) s : Prop := forall k i, udp_client_map s !! k = Some i -> snd (ci_local_addr i) <> port.

Definition label_safe (l : socks_label) s : Prop :=
  match l with
  | LClient _ (Some port) _ _ _ _ => fresh_port port s
  | LTcpDrop (Some e) => se_type e = TCP_ENTRY
  | _ => True
  end.

Inductive socks_trace : list socks_label -> Socks5Server -> Socks5Server -> Prop :=
| trace_nil s : socks_trace [] s s
| trace_cons l ls s s1 acts s2 :
    label_safe l s -> socks_step l s = Done (Some (s1, acts)) -> socks_trace ls s1 s2 -> socks_trace (l :: ls) s s2.

Definition socks_reach s : Prop := exists ls, socks_trace ls socks5_new s.

Record client_ok s (k : UdpClientKey) (i : UdpClientInfo) : Prop := {
  co_client : ci_client_addr i = ck_client k;
  co_local : exists net, ss_prev_ipv4 s = Some net /\ fst (ci_local_addr i) = V4 (in_address net);
  co_entry : ci_entry_key i = {| se_src := ci_local_addr i; se_dst := ck_dst k; se_type := UDP_ENTRY |}
}.

(** The flow [e] is that of client [k]. *)
Record flow_ok s (e : Socks5Entry) (sock : SocksUdpSocket) (k : UdpClientKey) (i : UdpClientInfo) (t : ReplyTask) : Prop := {
  fo_client : udp_client_map s !! k = Some i;
  fo_key : ci_entry_key i = e;
  fo_task : udp_forward_task s !! k = Some t;
  fo_socket : rt_socket t = sock;
  fo_to : rt_client t = ck_client k;
  fo_bound : exists net, ss_prev_ipv4 s = Some net /\ sock = socket_for net (ck_dst k) (snd (ci_local_addr i))
}.

Record socks_ok s : Prop := {
  so_clients k i : udp_client_map s !! k = Some i -> client_ok s k i;
  so_ports k k' i i' : udp_client_map s !! k = Some i -> udp_client_map s !! k' = Some i' ->
    snd (ci_local_addr i) = snd (ci_local_addr i') -> k = k';
  so_tcp e port : ss_entries s !! e = Some (EntryTcp port) -> se_type e = TCP_ENTRY;
  so_udp e sock k : ss_entries s !! e = Some (EntryUdp sock k) -> exists i t, flow_ok s e sock k i t;
  so_net net : ss_net s = Some net -> ss_prev_ipv4 s = Some net
}.

Lemma socks_new_ok : socks_ok socks5_new.
Proof. split; cbn; intros *; rewrite ?lookup_empty; done. Qed.

(** Steps that touch neither clients nor their flows. *)
Lemma socks_ok_same s s' : socks_ok s -> udp_client_map s' = udp_client_map s -> udp_forward_task s' = udp_forward_task s ->
  ss_prev_ipv4 s' = ss_prev_ipv4 s -> (ss_net s' = ss_net s \/ ss_net s' = None) ->
  (forall e d, ss_entries s' !! e = Some d -> ss_entries s !! e = Some d \/ se_type e = TCP_ENTRY /\ exists p, d = EntryTcp p) -> socks_ok s'.
Proof.
  intros Ho Ec Et Ep En Hd. split.
  - rewrite Ec. intros k i Hi. destruct (so_clients _ Ho _ _ Hi) as [? Hl ?]. split; rewrite ?Ep; done.
  - rewrite Ec. apply Ho.
  - intros e p He. destruct (Hd _ _ He) as [He'|[? _]]; [by eapply so_tcp|done].
  - intros e sock k He. destruct (Hd _ _ He) as [He'|[_ [p ?]]]; [|done].
    destruct (so_udp _ Ho _ _ _ He') as (i & t & [? ? ? ? ? Hb]). exists i, t. split; rewrite ?Ec, ?Et, ?Ep; done.
  - intros net E. rewrite Ep. destruct En as [En|En]; rewrite En in E; [by apply Ho|done].
Qed.

Lemma with_packets_ok c s : socks_ok s -> socks_ok (with_packets c s).
Proof. intros Ho. eapply socks_ok_same; eauto. Qed.

Lemma try_send_ok p s : socks_ok s -> socks_ok (try_send_packet p s).
Proof. intros Ho. unfold try_send_packet. case_match; [by apply with_packets_ok|done]. Qed.

Lemma socks_filter_state p s r s' : socks_filter p s = Done (r, s') -> s' = s \/ s' = try_send_packet p s.
Proof.
  unfold socks_filter. destruct (_ && _ && _); [intros [= <- <-]; by left|].
  intros (h & _ & E)%bind_Done. apply bind_Done in E as (hdr & _ & E). destruct (negb _); [injection E as <- <-; by left|].
  apply bind_Done in E as (data & _ & E). apply bind_Done in E as (v & _ & E). revert E.
  repeat case_match; intros [= <- <-]; auto.
Qed.

Lemma add_missing_tokens_only bind_ok cfgs s : exists t, (add_missing bind_ok cfgs s).1.2 = with_tokens t s.
Proof.
  revert s; induction cfgs as [|cfg cfgs IH]; intros s; cbn [add_missing]; [exists (cancel_tokens s); by destruct s|].
  case_bool_decide; [apply IH|]. unfold add_port_forward. destruct (_ || _); [destruct (bind_ok cfg)|]; cbn [fst snd];
    [|exists (cancel_tokens s); by destruct s..].
  destruct (IH (with_tokens ({[cfg]} ∪ cancel_tokens s) s)) as [t Ht]. destruct (add_missing _ _ _) as [[r s'] more]. cbn in *. subst s'. by exists t.
Qed.

Lemma clean_up_ok now s : socks_ok s -> socks_ok (clean_up now s).
Proof.
  intros Ho. split; unfold clean_up; cbn [udp_client_map ss_prev_ipv4 ss_entries udp_forward_task ss_net with_ss_entries with_tasks with_clients].
  - intros k i [Hi _]%retain_Some. destruct (so_clients _ Ho _ _ Hi). by split.
  - intros k k' i i' [Hi _]%retain_Some [Hi' _]%retain_Some. by eapply so_ports.
  - intros e p [He _]%retain_Some. by eapply so_tcp.
  - intros e sock k [He Halive]%retain_Some. destruct (so_udp _ Ho _ _ _ He) as (i & t & [Hi ? Ht ? ? ?]). exists i, t.
    assert (Hi' := Halive). apply bool_decide_eq_true in Hi' as [i' Hi']. pose proof (proj1 (retain_Some _ _ _ _) Hi') as [Hi2 _].
    assert (i' = i) as -> by congruence. split; try done. cbn. apply retain_Some. done.
  - apply Ho.
Qed.

(** The datagram of a client. *)
Lemma client_info_ok now port fwd addr s i s1 : let key := {| ck_client := addr; ck_dst := dst_addr fwd |} in
  socks_ok s -> (forall p, port = Some p -> fresh_port p s) -> client_info_for now port fwd addr s = Some (i, s1) ->
  socks_ok s1 /\ udp_client_map s1 !! key = Some i /\ ss_net s1 = ss_net s /\ cancel_tokens s1 = cancel_tokens s /\ ss_entries s1 = ss_entries s /\
  udp_forward_task s1 = udp_forward_task s /\ ss_prev_ipv4 s1 = ss_prev_ipv4 s /\
  (forall k j, udp_client_map s !! k = Some j -> udp_client_map s1 !! k = Some j).
Proof.
  intros key Ho Hf. unfold client_info_for. fold key. destruct (udp_client_map s !! key) as [j|] eqn:Ej; [intros [= <- <-]; done|].
  destruct port as [p|]; [|done]. cbn [mbind option_bind]. destruct (ss_net s) as [net|] eqn:En; [|done]. cbn [mbind option_bind].
  intros [= <- <-]. set (i := {| ci_client_addr := addr |}). pose proof (so_net _ Ho _ En) as Ep. specialize (Hf p eq_refl).
  split_and!; try done; [split|by apply lookup_insert_eq|]; cbn [udp_client_map ss_prev_ipv4 ss_entries udp_forward_task ss_net with_clients].
  - intros k j. destruct (decide (k = key)) as [-> |Hne].
    + rewrite lookup_insert_eq. intros [= <-]. split; [done| |done]. by exists net.
    + rewrite lookup_insert_ne by done. intros Hj. destruct (so_clients _ Ho _ _ Hj). by split.
  - intros k k' j j' Hj Hj' E. destruct (decide (k = key)) as [-> |Hne], (decide (k' = key)) as [-> |Hne']; try done;
      rewrite ?lookup_insert_eq, ?lookup_insert_ne in Hj by done; rewrite ?lookup_insert_eq, ?lookup_insert_ne in Hj' by done; simplify_eq.
    + exfalso. by apply (Hf _ _ Hj').
    + exfalso. by apply (Hf _ _ Hj).
    + by eapply so_ports.
  - apply Ho.
  - intros e sock k He. destruct (so_udp _ Ho _ _ _ He) as (j & t & [Hj ? ? ? ? ?]). exists j, t. split; try done.
    cbn. rewrite lookup_insert_ne; [done|]. intros ->. congruence.
  - apply Ho.
  - intros k j Hj. rewrite lookup_insert_ne; [done|]. intros ->. congruence.
Qed.

Lemma touch_ok now k i s : socks_ok s -> udp_client_map s !! k = Some i ->
  socks_ok (with_clients (<[k := touch_client now i]> (udp_client_map s)) s).
Proof.
  intros Ho Hi. assert (Hl : forall k' j, <[k := touch_client now i]> (udp_client_map s) !! k' = Some j ->
    exists j', udp_client_map s !! k' = Some j' /\ (j = j' \/ j = touch_client now j')).
  { intros k' j. destruct (decide (k' = k)) as [-> |Hne]; [rewrite lookup_insert_eq; intros [= <-]; eauto|]. rewrite lookup_insert_ne by done. eauto. }
  split; cbn [udp_client_map ss_prev_ipv4 ss_entries udp_forward_task ss_net with_clients].
  - intros k' j (j' & Hj & Ej)%Hl. destruct (so_clients _ Ho _ _ Hj). destruct Ej as [-> | ->]; by split.
  - intros k1 k2 j1 j2 (j1' & H1' & E1)%Hl (j2' & H2' & E2)%Hl E. eapply so_ports; [done|exact H1'|exact H2'|]. destruct E1 as [-> | ->], E2 as [-> | ->]; done.
  - apply Ho.
  - intros e sock k' He. destruct (so_udp _ Ho _ _ _ He) as (j & t & [Hj ? ? ? ? ?]).
    destruct (decide (k' = k)) as [-> |Hne].
    + assert (j = i) as -> by congruence. exists (touch_client now i), t. split; try done. cbn. by rewrite lookup_insert_eq.
    + exists j, t. split; try done. cbn. by rewrite lookup_insert_ne.
  - apply Ho.
Qed.

Lemma entry_data_ok smol_ok fwd addr i s d s1 : let key := {| ck_client := addr; ck_dst := dst_addr fwd |} in
  socks_ok s -> udp_client_map s !! key = Some i -> entry_data_for smol_ok fwd addr i s = Done (Some (d, s1)) ->
  socks_ok s1 /\ ss_entries s1 !! ci_entry_key i = Some d /\ udp_client_map s1 = udp_client_map s /\ ss_prev_ipv4 s1 = ss_prev_ipv4 s /\
  cancel_tokens s1 = cancel_tokens s /\ ss_net s1 = ss_net s /\
  (forall k t, k <> key -> udp_forward_task s !! k = Some t -> udp_forward_task s1 !! k = Some t) /\
  (forall e d', ss_entries s !! e = Some d' -> ss_entries s1 !! e = Some d') /\
  (ss_entries s !! ci_entry_key i = None -> exists t, udp_forward_task s1 !! key = Some t /\ rt_forward t = bind_addr fwd).
Proof.
  intros key Ho Hi. unfold entry_data_for. destruct (ss_entries s !! ci_entry_key i) as [d'|] eqn:Ed; [intros [= <- <-]; done|].
  destruct (ss_net s) as [net|] eqn:En; [|done]. intros (sock & Es & E)%bind_Done. injection E as <- <-. fold key.
  assert (sock = socket_for net (dst_addr fwd) (snd (ci_local_addr i))) as -> by (by destruct (_ || _); [injection Es as <-|done]).
  set (sock := socket_for _ _ _). destruct (so_clients _ Ho _ _ Hi) as [Hc (net' & Ep & El) Hk].
  split_and!; try done; [split|by apply lookup_insert_eq| | |]; cbn [udp_client_map ss_prev_ipv4 ss_entries udp_forward_task ss_net with_tasks with_ss_entries].
  - intros k j Hj. destruct (so_clients _ Ho _ _ Hj). by split.
  - apply Ho.
  - intros e p. destruct (decide (e = ci_entry_key i)) as [-> |Hne]; [by rewrite lookup_insert_eq|]. rewrite lookup_insert_ne by done. apply Ho.
  - intros e sk k. destruct (decide (e = ci_entry_key i)) as [-> |Hne].
    + rewrite lookup_insert_eq. intros [= <- <-]. eexists i, _. split; [done|done|cbn; by rewrite lookup_insert_eq|done|done|].
      exists net. split; [by apply Ho|done].
    + rewrite lookup_insert_ne by done. intros He. destruct (so_udp _ Ho _ _ _ He) as (j & t & [Hj Hjk ? ? ? ?]).
      exists j, t. split; try done. cbn. rewrite lookup_insert_ne; [done|]. intros <-. apply Hne. rewrite <- Hjk. congruence.
  - apply Ho.
  - intros k t Hne Ht. by rewrite lookup_insert_ne.
  - intros e d' He. rewrite lookup_insert_ne; [done|]. intros <-. congruence.
  - intros _. eexists. by rewrite lookup_insert_eq.
Qed.

(** A datagram in a state where the client can be served: it goes out of the client's socket, which its reply task reads. *)
Lemma udp_from_client_spec now port smol_ok fwd addr data s : let key := {| ck_client := addr; ck_dst := dst_addr fwd |} in
  socks_ok s -> (forall p, port = Some p -> fresh_port p s) ->
  match udp_from_client now port smol_ok fwd addr data s with
  | Done (Some (s', acts)) => socks_ok s' /\ (acts = [] \/ exists sock i t,
      acts = [SendFromSocket sock (take 8192 data) (dst_addr fwd)] /\
      ss_entries s' !! ci_entry_key i = Some (EntryUdp sock key) /\ flow_ok s' (ci_entry_key i) sock key i t /\ ci_last_active i = now)
  | Done None => True
  | Panicked p => p = UnwrapOnNone /\ smol_ok = false
  end.
Proof.
  intros key Ho Hf. unfold udp_from_client. destruct (negb _); [done|].
  destruct (client_info_for now port fwd addr s) as [[i s1]|] eqn:Ei; [|split; [done|by left]].
  destruct (client_info_ok _ _ _ _ _ _ _ Ho Hf Ei) as (Ho1 & Hi & En1 & _). fold key in Hi |- *.
  pose proof (touch_ok now key i s1 Ho1 Hi) as Ho2. set (s2 := with_clients _ s1) in *. set (i2 := touch_client now i).
  assert (Hi2 : udp_client_map s2 !! key = Some i2) by apply lookup_insert_eq.
  destruct (entry_data_for smol_ok fwd addr i2 s2) as [[[d s3]|]|p] eqn:Ed; cbn [mbind outcome_bind]; [|split; [done|by left]|].
  - destruct (entry_data_ok _ _ _ _ _ _ _ Ho2 Hi2 Ed) as (Ho3 & Hd & Ec & _). destruct d as [tp|sock k'].
    { pose proof (so_tcp _ Ho3 _ _ Hd) as Ht. destruct (so_clients _ Ho2 _ _ Hi2) as [_ _ Hk]. by rewrite Hk in Ht. }
    split; [done|]. right. destruct (so_udp _ Ho3 _ _ _ Hd) as (j & t & Hfl).
    assert (k' = key) as ->.
    { pose proof (fo_key _ _ _ _ _ _ Hfl) as Ek. pose proof (fo_client _ _ _ _ _ _ Hfl) as Hj. rewrite Ec in Hj.
      eapply so_ports; [exact Ho2|exact Hj|exact Hi2|]. destruct (so_clients _ Ho2 _ _ Hj) as [_ _ E1], (so_clients _ Ho2 _ _ Hi2) as [_ _ E2].
      rewrite E1, E2 in Ek. by injection Ek as ->. }
    exists sock, i2, t. assert (j = i2) as -> by (pose proof (fo_client _ _ _ _ _ _ Hfl) as Hj; rewrite Ec in Hj; congruence). done.
  - unfold entry_data_for in Ed. destruct (ss_entries s2 !! _); [done|]. destruct (ss_net s2) as [net|]; [|done].
    destruct smol_ok; [rewrite orb_true_r in Ed; done|]. rewrite orb_false_r in Ed. destruct (own_dst net (dst_addr fwd)); [done|].
    by injection Ed as <-.
Qed.

Lemma socks_step_ok l s s' acts : socks_ok s -> label_safe l s -> socks_step l s = Done (Some (s', acts)) -> socks_ok s'.
Proof.
  intros Ho Hl. destruct l as [p| |port addr|entry|now port smol fwd addr data|key data|now|bind cfgs|cur| ]; cbn [socks_step].
  - intros ([r s1] & E & [= <- <-])%bind_Done. destruct (socks_filter_state _ _ _ _ E) as [-> | ->]; [done|by apply try_send_ok].
  - unfold feed_stack. destruct (ss_net s), (ss_channel s); try done. intros (d & _ & [= <- <-])%bind_Done. by apply with_packets_ok.
  - destruct (ss_net s) as [net|]; [|done]. intros [= <- <-]. eapply socks_ok_same; try done; [by left|]. cbn. intros e d He.
    apply lookup_insert_Some in He as [[<- <-]|[_ He]]; [right; split; [done|by eexists]|by left].
  - intros [= <- <-]. destruct entry as [e|]; [|done]. eapply socks_ok_same; try done; [by left|]. cbn. intros e' d [_ He]%lookup_delete_Some. by left.
  - intros E. pose proof (udp_from_client_spec now port smol fwd addr data s Ho) as Hs. rewrite E in Hs. apply Hs.
    intros p ->. done.
  - unfold udp_reply. destruct (udp_forward_task s !! key); [by intros [= <- <-]|done].
  - intros [= <- <-]. by apply clean_up_ok.
  - unfold reload_port_forwards. destruct (add_missing_tokens_only bind cfgs (with_tokens (base.filter (still_wanted cfgs) (cancel_tokens s)) s)) as [t Ht].
    destruct (add_missing _ _ _) as [[r s1] a]. intros [= <- <-]. cbn in Ht. subst s1. eapply socks_ok_same; try done; by left.
  - intros [= <- <-]. unfold net_update. destruct (_ && _); [eapply socks_ok_same; eauto|]. case_bool_decide; [done|]. cbn.
    split; cbn; intros *; rewrite ?lookup_empty; done.
  - intros [= <- <-]. eapply socks_ok_same; eauto.
Qed.

(** Only a reload changes which forwards run. *)
Definition not_reload (l : socks_label) : Prop := match l with LReload _ _ => False | _ => True end.

Lemma socks_step_tokens l s s' acts : not_reload l -> socks_step l s = Done (Some (s', acts)) -> cancel_tokens s' = cancel_tokens s.
Proof.
  intros Hl. destruct l as [p| |port addr|entry|now port smol fwd addr data|key data|now|bind cfgs|cur| ]; cbn [socks_step]; [..|done| |].
  - intros ([r s1] & E & [= <- <-])%bind_Done. destruct (socks_filter_state _ _ _ _ E) as [-> | ->]; [done|]. unfold try_send_packet. by case_match.
  - unfold feed_stack. destruct (ss_net s), (ss_channel s); try done. by intros (d & _ & [= <- <-])%bind_Done.
  - destruct (ss_net s); [|done]. by intros [= <- <-].
  - intros [= <- <-]. by destruct entry.
  - unfold udp_from_client. destruct (negb _); [done|]. destruct (client_info_for now port fwd addr s) as [[i s1]|] eqn:Ei; [|by intros [= <- <-]].
    assert (cancel_tokens s1 = cancel_tokens s) as <-.
    { unfold client_info_for in Ei. destruct (udp_client_map s !! _); [by injection Ei as _ <-|]. destruct port; [|done]. cbn in Ei.
      destruct (ss_net s); [|done]. by injection Ei as _ <-. }
    intros (d & Ed & E)%bind_Done. destruct d as [[[tp|sock k] s3]|]; [done| |by injection E as <- <-]. injection E as <- <-.
    unfold entry_data_for in Ed. cbn in Ed. destruct (ss_entries s1 !! _); [by injection Ed as -> <-|]. destruct (ss_net s1); [|done].
    destruct (own_dst _ _ || smol); [|done]. by injection Ed as <- <- <-.
  - unfold udp_reply. destruct (udp_forward_task s !! key); [by intros [= <- <-]|done].
  - by intros [= <- <-].
  - intros [= <- <-]. unfold net_update. destruct (_ && _); [done|]. by case_bool_decide.
  - by intros [= <- <-].
Qed.

Lemma socks_trace_ok ls s s' : socks_trace ls s s' -> socks_ok s -> socks_ok s'.
Proof. induction 1 as [|l ls s s1 acts s2 Hl Hs _ IH]; [done|]. intros Ho. by eapply IH, socks_step_ok. Qed.

Lemma socks_reach_ok s : socks_reach s -> socks_ok s.
Proof. intros [ls Ht]. eapply socks_trace_ok; [exact Ht|apply socks_new_ok]. Qed.

(** *** Flows last *)

(** Steps that do not end the flow of a client last heard of at [t0]: clean-ups come less than 600 seconds later,
    the clock does not go back, and the address of the node stays. *)
Definition calm (t0 : Z) (net : Inet) (l : socks_label) : Prop :=
  match l with
  | LCleanUp now => elapsed_secs now t0 < 600
  | LClient now _ _ _ _ _ => t0 <= now
  | LNetUpdate cur => cur = Some net
  | _ => True
  end.

Definition served (t0 : Z) (net : Inet) (e : Socks5Entry) (sock : SocksUdpSocket) (key : UdpClientKey) (fwd client : SocketAddr) s : Prop :=
  ss_prev_ipv4 s = Some net /\ ss_entries s !! e = Some (EntryUdp sock key) /\
  (exists i, udp_client_map s !! key = Some i /\ ci_entry_key i = e /\ t0 <= ci_last_active i) /\
  exists t, udp_forward_task s !! key = Some t /\ rt_socket t = sock /\ rt_forward t = fwd /\ rt_client t = client.

Lemma elapsed_mono now t t' : t <= t' -> elapsed_secs now t' <= elapsed_secs now t.
Proof. intros. unfold elapsed_secs, duration_since. apply Z.div_le_mono; unfold SEC; lia. Qed.

Lemma served_same t0 net e sock key fwd client s s' : served t0 net e sock key fwd client s ->
  udp_client_map s' = udp_client_map s -> udp_forward_task s' = udp_forward_task s -> ss_prev_ipv4 s' = ss_prev_ipv4 s ->
  (forall d, ss_entries s !! e = Some d -> ss_entries s' !! e = Some d) -> served t0 net e sock key fwd client s'.
Proof. intros (Hp & He & Hc & Ht) Ec Et Ep Hd. split_and!; [congruence|by apply Hd|by rewrite Ec|by rewrite Et]. Qed.

Lemma served_type t0 net e sock key fwd client s : socks_ok s -> served t0 net e sock key fwd client s -> se_type e = UDP_ENTRY.
Proof. intros Ho (_ & _ & (i & Hi & <- & _) & _). by rewrite (co_entry _ _ _ (so_clients _ Ho _ _ Hi)). Qed.

Lemma served_client t0 net e sock key fwd client now port smol f addr data s s' acts :
  socks_ok s -> (forall p, port = Some p -> fresh_port p s) -> t0 <= now -> served t0 net e sock key fwd client s ->
  udp_from_client now port smol f addr data s = Done (Some (s', acts)) -> served t0 net e sock key fwd client s'.
Proof.
  intros Ho Hf Hn Hs. unfold udp_from_client. destruct (negb _); [done|].
  destruct (client_info_for now port f addr s) as [[i s1]|] eqn:Ei; [|by intros [= <- <-]].
  destruct (client_info_ok _ _ _ _ _ _ _ Ho Hf Ei) as (Ho1 & Hi & _ & _ & Ee1 & Et1 & Ep1 & Hm1).
  set (key' := {| ck_client := addr; ck_dst := dst_addr f |}) in *.
  assert (Hs1 : served t0 net e sock key fwd client s1).
  { destruct Hs as (Hp & He & (j & Hj & Hk & Ht) & Htk). split_and!; [congruence|by rewrite Ee1|exists j; auto|by rewrite Et1]. }
  pose proof (touch_ok now key' i s1 Ho1 Hi) as Ho2. set (s2 := with_clients _ s1) in *.
  assert (Hs2 : served t0 net e sock key fwd client s2).
  { destruct Hs1 as (Hp & He & (j & Hj & Hk & Ht) & Htk). split_and!; [done|done| |done]. destruct (decide (key = key')) as [-> |Hne].
    - exists (touch_client now i). unfold s2. cbn. rewrite lookup_insert_eq. assert (j = i) as -> by congruence. done.
    - exists j. unfold s2. cbn. by rewrite lookup_insert_ne. }
  set (i2 := touch_client now i). assert (Hi2 : udp_client_map s2 !! key' = Some i2) by apply lookup_insert_eq.
  intros (d & Ed & E)%bind_Done. destruct d as [[d s3]|]; [|by injection E as <- <-].
  assert (s' = s3) as -> by (destruct d; [done|by injection E as <- <-]).
  destruct (entry_data_ok _ _ _ _ _ _ _ Ho2 Hi2 Ed) as (_ & _ & Ec & Ep & _ & _ & Htk & Hent & _). fold key' in Htk.
  destruct Hs2 as (Hp & He & Hc & (t & Ht & Ht')). split_and!; [congruence|by apply Hent|by rewrite Ec|].
  destruct (decide (key = key')) as [Heq|Hne]; [|exists t; split; [by apply Htk|done]].
  (* the same client: the entry is there, so nothing is made *)
  destruct Hc as (j & Hj & Hk & _). subst key. assert (j = i2) as -> by congruence. unfold entry_data_for in Ed. rewrite Hk, He in Ed.
  injection Ed as <- <-. by exists t.
Qed.

Lemma served_step t0 net e sock key fwd client l s s' acts : socks_ok s -> label_safe l s -> calm t0 net l ->
  served t0 net e sock key fwd client s -> socks_step l s = Done (Some (s', acts)) -> served t0 net e sock key fwd client s'.
Proof.
  intros Ho Hl Hcalm Hs. pose proof (served_type _ _ _ _ _ _ _ _ Ho Hs) as Hty.
  destruct l as [p| |port addr|entry|now port smol f addr data|k data|now|bind cfgs|cur| ]; cbn [socks_step].
  - intros ([r s1] & E & [= <- <-])%bind_Done. destruct (socks_filter_state _ _ _ _ E) as [-> | ->]; [done|].
    unfold try_send_packet. case_match; [by eapply served_same|done].
  - unfold feed_stack. destruct (ss_net s), (ss_channel s); try done. intros (d & _ & [= <- <-])%bind_Done. by eapply served_same.
  - destruct (ss_net s) as [n|]; [|done]. intros [= <- <-]. eapply served_same; try done. cbn. intros d Hd. rewrite lookup_insert_ne; [done|].
    intros <-. done.
  - intros [= <- <-]. destruct entry as [e'|]; [|done]. eapply served_same; try done. cbn. intros d Hd. rewrite lookup_delete_ne; [done|].
    intros ->. cbn in Hl. by rewrite Hl in Hty.
  - intros E. eapply served_client; [exact Ho| |exact Hcalm|exact Hs|exact E]. intros p ->. done.
  - unfold udp_reply. destruct (udp_forward_task s !! k); [by intros [= <- <-]|done].
  - intros [= <- <-]. destruct Hs as (Hp & He & (i & Hi & Hk & Ht) & (t & Htk & Ht')).
    assert (Hal : retain (fun _ j => elapsed_secs now (ci_last_active j) <? 600) (udp_client_map s) !! key = Some i).
    { apply retain_Some. split; [done|]. pose proof (elapsed_mono now _ _ Ht). cbn in Hcalm. lia. }
    unfold clean_up. split_and!; cbn; [done|apply retain_Some; split; [done|]; rewrite Hal; by apply bool_decide_eq_true_2|by exists i|].
    exists t. split; [|done]. apply retain_Some. split; [done|]. rewrite Hal. by apply bool_decide_eq_true_2.
  - unfold reload_port_forwards. destruct (add_missing_tokens_only bind cfgs (with_tokens (base.filter (still_wanted cfgs) (cancel_tokens s)) s)) as [t Ht].
    destruct (add_missing _ _ _) as [[r s1] a]. intros [= <- <-]. cbn in Ht. subst s1. by eapply served_same.
  - cbn in Hcalm. subst cur. intros [= <- <-]. unfold net_update. destruct (_ && _); [by eapply served_same|].
    rewrite bool_decide_eq_true_2; [done|]. apply Hs.
  - intros [= <- <-]. by eapply served_same.
Qed.

Lemma served_trace t0 net e sock key fwd client ls s s' : socks_trace ls s s' -> socks_ok s -> Forall (calm t0 net) ls ->
  served t0 net e sock key fwd client s -> served t0 net e sock key fwd client s' /\ socks_ok s'.
Proof.
  induction 1 as [|l ls s s1 acts s2 Hl Hs _ IH]; [done|]. intros Ho [Hc Hcs]%Forall_cons Hsv.
  apply IH; [by eapply socks_step_ok|done|by eapply served_step].
Qed.

(** *** Which packets are taken *)

(** A packet with an IPv4 packet that is not a fragment, of protocol [proto], between two sockets. *)
Definition ip_packet_from (proto : Z) (ports_of : bytes -> option (Z * Z)) (p : ZCPacket) (src dst : SocketAddr) : Prop :=
  exists hdr data v ports, peer_manager_header p = Done (Some hdr) /\ pm_packet_type hdr = packet_type_u8 PktData /\
    payload p = Done data /\ ipv4_view data = Some v /\ view_version v = 4 /\ view_protocol v = proto /\
    is_packet_fragmented v = false /\ ports_of (view_payload v) = Some ports /\
    src = (V4 (view_source v), ports.1) /\ dst = (V4 (view_destination v), ports.2).

Lemma filter_udp p src dst s : ip_packet_from IP_UDP udp_ports p src dst ->
  socks_filter p s = Done (if bool_decide (is_Some (ss_entries s !! {| se_src := dst; se_dst := src; se_type := UDP_ENTRY |}))
                           then (None, try_send_packet p s) else (Some p, s)).
Proof.
  intros (hdr & data & v & ports & Hh & Ht & Hp & Hv & H4 & Hpr & Hf & Hpo & -> & ->). unfold socks_filter.
  destruct (_ && _ && _) eqn:E.
  - rewrite !andb_true_iff, !bool_decide_eq_true in E. destruct E as [[_ ->] _]. by rewrite lookup_empty.
  - rewrite Hh. cbn [mbind outcome_bind unwrap]. rewrite Ht, Z.eqb_refl, Hp. cbn [negb mbind outcome_bind]. rewrite Hv. cbn [unwrap mbind outcome_bind].
    rewrite H4, Hpr, Hf, Hpo. cbn. unfold flow_of. by destruct (bool_decide (is_Some _)).
Qed.

Lemma filter_tcp p src dst s : ip_packet_from IP_TCP_PROTO tcp_ports p src dst ->
  socks_filter p s = Done (if bool_decide (is_Some (ss_entries s !! {| se_src := dst; se_dst := src; se_type := TCP_ENTRY |}))
                           then (None, try_send_packet p s) else (Some p, s)).
Proof.
  intros (hdr & data & v & ports & Hh & Ht & Hp & Hv & H4 & Hpr & Hf & Hpo & -> & ->). unfold socks_filter.
  destruct (_ && _ && _) eqn:E.
  - rewrite !andb_true_iff, !bool_decide_eq_true in E. destruct E as [[_ ->] _]. by rewrite lookup_empty.
  - rewrite Hh. cbn [mbind outcome_bind unwrap]. rewrite Ht, Z.eqb_refl, Hp. cbn [negb mbind outcome_bind]. rewrite Hv. cbn [unwrap mbind outcome_bind].
    rewrite H4, Hpr, Hpo. cbn. unfold flow_of. by destruct (bool_decide (is_Some _)).
Qed.

(** *** Reloading the configured forwards *)

Lemma add_missing_spec bind_ok cfgs s : (forall cfg, cfg ∈ cfgs -> bind_ok cfg = true /\ (is_proto "tcp" cfg || is_proto "udp" cfg) = true) ->
  exists acts, add_missing bind_ok cfgs s = (Ok (), with_tokens (list_to_set cfgs ∪ cancel_tokens s) s, acts).
Proof.
  revert s; induction cfgs as [|cfg cfgs IH]; intros s Hc; cbn [add_missing].
  { exists []. do 2 f_equal. replace (list_to_set [] ∪ cancel_tokens s) with (cancel_tokens s) by set_solver. by destruct s. }
  destruct (Hc cfg) as [Hb Hp]; [set_solver|]. case_bool_decide as Hin.
  - destruct (IH s) as [acts ->]; [set_solver|]. exists acts. do 3 f_equal. set_solver.
  - unfold add_port_forward. rewrite Hp, Hb. destruct (IH (with_tokens ({[cfg]} ∪ cancel_tokens s) s)) as [acts ->]; [set_solver|].
    eexists. do 2 f_equal. cbn. unfold with_tokens. cbn. f_equal. set_solver.
Qed.

(** When every forward has a destination, a supported protocol and a port that can be bound, exactly the configured ones run. *)
Lemma reload_spec bind_ok cfgs s :
  (forall cfg, cfg ∈ cfgs -> bind_ok cfg = true /\ (is_proto "tcp" cfg || is_proto "udp" cfg) = true /\ unspecified (dst_addr cfg) = false) ->
  exists acts, reload_port_forwards bind_ok cfgs s = (Ok (), with_tokens (list_to_set cfgs) s, acts).
Proof.
  intros Hc. unfold reload_port_forwards. destruct (add_missing_spec bind_ok cfgs (with_tokens (base.filter (still_wanted cfgs) (cancel_tokens s)) s)) as [acts ->].
  { intros cfg Hin. destruct (Hc cfg Hin) as (? & ? & _). done. }
  exists acts. do 2 f_equal. unfold with_tokens. cbn. f_equal. apply set_eq. intros k. rewrite elem_of_union, elem_of_filter, elem_of_list_to_set.
  split; [|by left]. intros [?|[Hw _]]; [done|]. apply Exists_exists in Hw as (cfg & Hin & Hk). destruct (Hc cfg Hin) as (_ & _ & Hu).
  rewrite Hu in Hk. by subst k.
Qed.

(** If a forward cannot be started the rest is not tried, and the error is returned. *)
Lemma reload_error bind_ok cfgs s e s' acts : reload_port_forwards bind_ok cfgs s = (Err e, s', acts) ->
  exists cfg, cfg ∈ cfgs /\ cfg ∉ cancel_tokens s' /\ (bind_ok cfg = false \/ (is_proto "tcp" cfg || is_proto "udp" cfg) = false).
Proof.
  unfold reload_port_forwards. generalize (with_tokens (base.filter (still_wanted cfgs) (cancel_tokens s)) s). clear s. revert e s' acts.
  induction cfgs as [|cfg cfgs IH]; intros e s' acts s; cbn [add_missing]; [done|]. case_bool_decide as Hin.
  - intros E. destruct (IH _ _ _ _ E) as (c & ? & ?). exists c. set_solver.
  - unfold add_port_forward. destruct (_ || _) eqn:Ep; [destruct (bind_ok cfg) eqn:Eb|].
    + destruct (add_missing _ _ _) as [[[u|e'] s1] more] eqn:Em; [done|]. intros [= -> <- <-]. destruct (IH _ _ _ _ Em) as (c & ? & ?). exists c. set_solver.
    + intros [= <- <- <-]. exists cfg. split_and!; [set_solver|done|by left].
    + intros [= <- <- <-]. exists cfg. split_and!; [set_solver|done|by right].
Qed.

(** *** Where reply tasks come from *)

(** A datagram of [client] at a forward to [dst] that listens at [from]. *)
Definition asked_at (from : SocketAddr) (key : UdpClientKey) (l : socks_label) : Prop :=
  exists now port smol_ok fwd data, l = LClient now port smol_ok fwd (ck_client key) data /\ dst_addr fwd = ck_dst key /\ bind_addr fwd = from.

Lemma task_origin_step l s s' acts key t : socks_step l s = Done (Some (s', acts)) -> udp_forward_task s' !! key = Some t ->
  udp_forward_task s !! key = Some t \/ asked_at (rt_forward t) key l.
Proof.
  destruct l as [p| |port addr|entry|now port smol fwd addr data|k data|now|bind cfgs|cur| ]; cbn [socks_step].
  - intros ([r s1] & E & [= <- <-])%bind_Done. destruct (socks_filter_state _ _ _ _ E) as [-> | ->]; [by left|].
    unfold try_send_packet. by case_match; left.
  - unfold feed_stack. destruct (ss_net s), (ss_channel s); try done. intros (d & _ & [= <- <-])%bind_Done. by left.
  - destruct (ss_net s); [|done]. intros [= <- <-]. by left.
  - intros [= <- <-]. destruct entry; by left.
  - unfold udp_from_client. destruct (negb _); [done|]. destruct (client_info_for now port fwd addr s) as [[i s1]|] eqn:Ei; [|intros [= <- <-]; by left].
    assert (udp_forward_task s1 = udp_forward_task s) as <-.
    { unfold client_info_for in Ei. destruct (udp_client_map s !! _); [by injection Ei as _ <-|]. destruct port; [|done]. cbn in Ei.
      destruct (ss_net s); [|done]. by injection Ei as _ <-. }
    intros (d & Ed & E)%bind_Done. destruct d as [[[tp|sock k] s3]|]; [done| |injection E as <- <-; by left]. injection E as <- <-.
    unfold entry_data_for in Ed. cbn in Ed. destruct (ss_entries s1 !! _); [injection Ed as -> <-; by left|]. destruct (ss_net s1); [|done].
    destruct (own_dst _ _ || smol); [|done]. injection Ed as <- <- <-. cbn. intros [[<- <-]|[_ ?]]%lookup_insert_Some; [right|by left].
    by exists now, port, smol, fwd, data.
  - unfold udp_reply. destruct (udp_forward_task s !! k); [intros [= <- <-]; by left|done].
  - intros [= <- <-]. cbn. intros [? _]%retain_Some. by left.
  - destruct (add_missing_tokens_only bind cfgs (with_tokens (base.filter (still_wanted cfgs) (cancel_tokens s)) s)) as [tk Htk].
    unfold reload_port_forwards. destruct (add_missing _ _ _) as [[r s1] a]. intros [= <- <-]. cbn in Htk. subst s1. by left.
  - intros [= <- <-]. unfold net_update. destruct (_ && _); [by left|]. case_bool_decide; by left.
  - intros [= <- <-]. by left.
Qed.

(** A reply task answers from the port of a forward at which its client asked for its destination. *)
Lemma task_origin ls s s' key t : socks_trace ls s s' -> udp_forward_task s' !! key = Some t ->
  udp_forward_task s !! key = Some t \/ Exists (asked_at (rt_forward t) key) ls.
Proof.
  induction 1 as [|l ls s s1 acts s2 Hl Hs _ IH]; [by left|]. intros Ht. destruct (IH Ht) as [Hm|Hm]; [|right; by apply Exists_cons_tl].
  destruct (task_origin_step _ _ _ _ _ _ Hs Hm) as [?|?]; [by left|right; by apply Exists_cons_hd].
Qed.

(** C34.  UDP forwards carry answers back to the client that asked.  In every state the server can have come to in
    which the stack runs, a datagram of a client at a forward leaves for the forward's destination, from a socket
    that no other client has.  From then on, as long as the node keeps its address and clean-ups come less than
    600 seconds after the datagram, and whatever else the server does: a packet from the destination to this
    socket is taken from the packet path, the reply task of this client reads the socket, and what it
    reads it sends to the client.  It sends it from one and the same port [from]: the port of this forward when the client
    has no reply task for the destination yet, and otherwise possibly that of another forward with the same destination
    at which the client had asked before. *)
Theorem udp_forward_roundtrip ls0 s now port fwd addr data net :
  let key := {| ck_client := addr; ck_dst := dst_addr fwd |} in
  socks_trace ls0 socks5_new s -> ss_net s = Some net -> fwd ∈ cancel_tokens s -> is_proto "udp" fwd = true -> fresh_port port s ->
  exists s1 lport from, let sock := socket_for net (dst_addr fwd) lport in
    (udp_forward_task s !! key = None -> from = bind_addr fwd) /\
    (from = bind_addr fwd \/ Exists (asked_at from key) ls0) /\
    socks_step (LClient now (Some port) true fwd addr data) s = Done (Some (s1, [SendFromSocket sock (take 8192 data) (dst_addr fwd)])) /\
    (forall k i, udp_client_map s1 !! k = Some i -> snd (ci_local_addr i) = lport -> k = key) /\
    forall ls s2, socks_trace ls s1 s2 -> Forall (calm now net) ls ->
      (forall p, ip_packet_from IP_UDP udp_ports p (dst_addr fwd) (V4 (in_address net), lport) ->
         socks_filter p s2 = Done (None, try_send_packet p s2)) /\
      (exists t, udp_forward_task s2 !! key = Some t /\ rt_socket t = sock) /\
      forall answer, socks_step (LReply key answer) s2 = Done (Some (s2, [SendToClient from (take 8192 answer) addr])).
Proof.
  intros key Htr0 En Hin Hp Hf. pose proof (socks_trace_ok _ _ _ Htr0 socks_new_ok) as Hr.
  assert (Hf' : forall p, Some port = Some p -> fresh_port p s) by (by intros p [= <-]).
  destruct (client_info_for now (Some port) fwd addr s) as [[i s1]|] eqn:Ei; cycle 1.
  { exfalso. unfold client_info_for in Ei. rewrite En in Ei. cbn in Ei. by destruct (udp_client_map s !! _). }
  destruct (client_info_ok _ _ _ _ _ _ _ Hr Hf' Ei) as (Ho1 & Hi & En1 & _ & _ & Et1 & _). fold key in Hi.
  pose proof (touch_ok now key i s1 Ho1 Hi) as Ho2. set (s2 := with_clients _ s1) in *. set (i2 := touch_client now i).
  assert (Hi2 : udp_client_map s2 !! key = Some i2) by apply lookup_insert_eq.
  assert (exists d s3, entry_data_for true fwd addr i2 s2 = Done (Some (d, s3))) as (d & s3 & Ed).
  { unfold entry_data_for. destruct (ss_entries s2 !! _) as [d|]; [by eauto|]. change (ss_net s2) with (ss_net s1). rewrite En1, En, orb_true_r. by eauto. }
  destruct (entry_data_ok _ _ _ _ _ _ _ Ho2 Hi2 Ed) as (Ho3 & Hd & Ec & Ep & _ & En3 & _ & _ & Hnew). fold key in Hnew.
  pose proof (udp_from_client_spec now (Some port) true fwd addr data s Hr Hf') as Hspec. fold key in Hspec.
  assert (Es : udp_from_client now (Some port) true fwd addr data s =
    match d with EntryUdp sock _ => Done (Some (s3, [SendFromSocket sock (take 8192 data) (dst_addr fwd)])) | EntryTcp _ => Panicked ExplicitPanic end).
  { unfold udp_from_client. rewrite bool_decide_eq_true_2, Hp by done. cbn [andb negb]. rewrite Ei. fold key s2 i2. rewrite Ed. by destruct d. }
  destruct d as [tp|sock k']; [by rewrite Es in Hspec; destruct Hspec|]. rewrite Es in Hspec.
  destruct Hspec as [_ [?|(sock' & j & t & [= <-] & Hj & Hfl & Hla)]]; [done|].
  assert (j = i2) as ->. { pose proof (fo_client _ _ _ _ _ _ Hfl) as Hj'. rewrite Ec in Hj'. congruence. }
  assert (ss_prev_ipv4 s3 = Some net) as Hprev. { apply Ho3. rewrite En3. change (ss_net s2) with (ss_net s1). congruence. }
  destruct (fo_bound _ _ _ _ _ _ Hfl) as (net' & Hn' & Esock). assert (net' = net) as -> by congruence.
  destruct (so_clients _ Ho2 _ _ Hi2) as [_ (net2 & Hn2 & El) Hk]. assert (net2 = net) as -> by congruence.
  assert (Hsv : served now net (ci_entry_key i2) sock key (rt_forward t) addr s3).
  { split_and!; [done|done|exists i2; split; [apply Hfl|done]|]. exists t. split_and!; [apply Hfl|apply Hfl|done|apply Hfl]. }
  assert (Hfrom : rt_forward t = bind_addr fwd \/ udp_forward_task s !! key = Some t).
  { destruct (ss_entries s2 !! ci_entry_key i2) as [d'|] eqn:E2.
    - unfold entry_data_for in Ed. rewrite E2 in Ed. injection Ed as -> <-. right. rewrite <- Et1. apply Hfl.
    - left. destruct (Hnew eq_refl) as (t' & Ht' & <-). f_equal. pose proof (fo_task _ _ _ _ _ _ Hfl). congruence. }
  exists s3, (snd (ci_local_addr i2)), (rt_forward t). change (socket_for net (dst_addr fwd) (snd (ci_local_addr i2))) with (socket_for net (ck_dst key) (snd (ci_local_addr i2))).
  rewrite <- Esock. split_and!; [intros Hno; destruct Hfrom; congruence| |exact Es| |].
  - destruct Hfrom as [?|Ht]; [by left|]. destruct (task_origin _ _ _ _ _ Htr0 Ht) as [?|?]; [done|by right].
  - intros k j. rewrite Ec. intros Hkj E. exact (so_ports _ Ho2 _ _ _ _ Hkj Hi2 E).
  - intros ls s4 Htr Hcalm. destruct (served_trace _ _ _ _ _ _ _ _ _ _ Htr Ho3 Hcalm Hsv) as [(_ & He4 & _ & (t4 & Ht4 & Hs4 & Hf4 & Hc4)) _].
    split_and!.
    + intros p Hpk. rewrite (filter_udp _ _ _ _ Hpk). rewrite bool_decide_eq_true_2; [done|]. rewrite Hk in He4. cbn [ck_dst key] in He4.
      rewrite <- El, <- surjective_pairing. by eexists.
    + by exists t4.
    + intros answer. cbn [socks_step]. unfold udp_reply. by rewrite Ht4, Hf4, Hc4.
Qed.
End server.

(** ** Concrete runs *)

#[local] Instance no_tcp : TcpPorts := {| tcp_ports _ := None |}.

Definition fwd_a : PortForwardConfig := {| bind_addr := (V4 LOCALHOST, 5000); dst_addr := (V4 50, 53); pf_proto := txt "UDP" |}.
Definition fwd_b : PortForwardConfig := {| bind_addr := (V4 LOCALHOST, 5001); dst_addr := (V4 50, 53); pf_proto := txt "udp" |}.
Definition home : Inet := {| in_address := 100; in_length := 24 |}.
Definition client_a : SocketAddr := (V4 LOCALHOST, 9999).

Definition forwards_up : list socks_label := [LReload (fun _ => true) [fwd_a; fwd_b]; LNetUpdate (Some home)].
Definition up_state : Socks5Server := mkSocks ∅ ∅ ∅ (Some home) (Some home) false {[fwd_a; fwd_b]} [].

Lemma up_trace : socks_trace forwards_up socks5_new up_state.
Proof. repeat (eapply trace_cons; [done|vm_compute; reflexivity|]). apply trace_nil. Qed.

Lemma udp_forward_roundtrip_witness : exists s1 lport,
  socks_step (LClient 0 (Some 40000) true fwd_a client_a [1; 2; 3]) up_state =
    Done (Some (s1, [SendFromSocket (SmolUdpSocket (V4 100, lport)) [1; 2; 3] (V4 50, 53)])) /\
  forall answer, socks_step (LReply {| ck_client := client_a; ck_dst := (V4 50, 53) |} answer) s1 =
    Done (Some (s1, [SendToClient (V4 LOCALHOST, 5000) (take 8192 answer) client_a])).
Proof.
  destruct (udp_forward_roundtrip forwards_up up_state 0 40000 fwd_a client_a [1; 2; 3] home) as (s1 & lport & from & Hfrom & _ & Hs & _ & Hl).
  - apply up_trace.
  - reflexivity.
  - by apply (bool_decide_unpack _).
  - reflexivity.
  - intros k i E. done.
  - exists s1, lport. split; [exact Hs|]. intros answer. destruct (Hl [] s1 (trace_nil _)) as (_ & _ & Ha); [constructor|].
    rewrite Hfrom in Ha by reflexivity. apply Ha.
Defined.

(** ** What may surprise *)

(** A data packet too short for an IPv4 header stops the packet path, once there is a forward or the server is enabled. *)
Lemma short_packet_panics : socks_filter (peer_packet 5 [1; 2; 3]) up_state = Panicked UnwrapOnNone.
Proof. vm_compute. reflexivity. Qed.

(** When the last forward goes, the stack is dropped but its address is remembered: forwards that are configured later
    find no stack, until the address of the node changes. *)
Lemma stack_not_restored :
  let '(s, w) := net_update (Some home) (reload_port_forwards (fun _ => true) [] up_state).1.2 in
  let s := (reload_port_forwards (fun _ => true) [fwd_a] s).1.2 in
  w = WaitForwards /\ ss_net s = None /\ ss_net (net_update (Some home) s).1 = None /\
  forall now port data, udp_from_client now port true fwd_a client_a data (net_update (Some home) s).1 = Done (Some ((net_update (Some home) s).1, [])).
Proof.
  set (s0 := (reload_port_forwards (fun _ => true) [] up_state).1.2). set (s1 := (net_update (Some home) s0).1).
  change (net_update (Some home) s0) with (s1, WaitForwards). cbv iota beta zeta.
  set (s2 := (net_update (Some home) (reload_port_forwards (fun _ => true) [fwd_a] s1).1.2).1).
  assert (E : s2 = mkSocks ∅ ∅ ∅ None (Some home) false {[fwd_a]} []) by (vm_compute; reflexivity).
  split_and!; [reflexivity|vm_compute; reflexivity|by rewrite E|]. intros now port data. rewrite E.
  unfold udp_from_client. rewrite bool_decide_eq_true_2 by (cbn; set_solver). by destruct port.
Qed.

Definition two_forwards : outcome (option (list socks_action) * option (list socks_action)) :=
  r1 ← udp_from_client 0 (Some 40000) true fwd_a client_a [1] up_state;
  r2 ← udp_from_client 1 (Some 40001) true fwd_b client_a [2] (from_option fst up_state r1);
  r3 ← udp_reply {| ck_client := client_a; ck_dst := (V4 50, 53) |} [9] (from_option fst up_state r2);
  Done (option_map snd r2, option_map snd r3).

(** Flows are told apart by client and destination, not by forward: a client that uses two forwards with the same
    destination has the answers to the second from the port of the first. *)
Lemma two_forwards_one_flow : two_forwards =
  Done (Some [SendFromSocket (SmolUdpSocket (V4 100, 40000)) [2] (V4 50, 53)], Some [SendToClient (bind_addr fwd_a) [9] client_a]).
Proof. vm_compute. reflexivity. Qed.

(** A forward without a destination address keeps every forward of its port, and is then not added beside it when the port is taken. *)
Lemma unspecified_keeps_old :
  let any := {| bind_addr := bind_addr fwd_b; dst_addr := (V4 0, 53); pf_proto := txt "udp" |} in
  let '(r, s, _) := reload_port_forwards (fun c => negb (bool_decide (bind_addr c = bind_addr fwd_b))) [any] up_state in
  (r, bool_decide (fwd_b ∈ cancel_tokens s), bool_decide (any ∈ cancel_tokens s)) = (Err BindFailed, true, false).
Proof. vm_compute. reflexivity. Qed.
