(* ===== verification/InstancePatch.v ===== *)
(** * Changing a running instance

    [InstanceConfigPatcher] of [instance/instance.rs]: a patch changes the configuration of
    an instance and the parts of it that run: port forwards, ACL, exit nodes, configured
    peers, addresses.  With it the address cache of [common/global_ctx.rs], the patches of lists
    ([proto/api.rs]), the conversions of the messages ([proto/common.rs]), and the check of clients of the RPC portal.

    A patch goes through its sections in order and stops at the first that fails, so the
    state after an error matters: [PM] is a monad of state and errors that keeps the state. *)

From stdpp Require Import base numbers list gmap strings.
From Stdlib Require Import ZifyBool.
From S2P Require Import Prelude Text AclRules TokenBucket AclProcessor AclFilter IpReassembler PacketDef PeerConn CidrSet UdpProxy NetText Stun DirectConnect ManualConnector Config NetworkConfig Socks5.
Open Scope Z_scope.

(** ** Messages *)

Inductive ConfigPatchAction := PatchAdd | PatchRemove | PatchClear.

(** [try_from] of the number on the wire. *)
Definition action_of (z : Z) : option ConfigPatchAction :=
  if z =? 0 then Some PatchAdd else if z =? 1 then Some PatchRemove else if z =? 2 then Some PatchClear else None.

Record ProtoInet := { pi_address : option Z; pi_length : Z }.
(** IPv6 addresses are one number. *)
Record ProtoSocketAddr := { ps_ip : option IpAddr; ps_port : Z }.
Record PortForwardConfigPb := { pb_bind_addr : option ProtoSocketAddr; pb_dst_addr : option ProtoSocketAddr; pb_socket_type : Z }.

(** A patch of a list: the action on the wire and the value. *)
Record WirePatch (A : Type) := { wp_action : Z; wp_value : A }.
Arguments wp_action {A}. Arguments wp_value {A}.

Record AclPatch := { ap_acl : option Acl; ap_tcp_whitelist : list (WirePatch text); ap_udp_whitelist : list (WirePatch text) }.
Record ProxyNetworkPatch := { pp_action : Z; pp_cidr : option ProtoInet; pp_mapped_cidr : option ProtoInet }.

(** The value of an exit node is a message whose address may be missing. *)
Record InstanceConfigPatch := {
  ip_hostname : option text; ip_ipv4 : option ProtoInet; ip_ipv6 : option ProtoInet;
  ip_port_forwards : list (WirePatch (option PortForwardConfigPb)); ip_acl : option AclPatch;
  ip_proxy_networks : list ProxyNetworkPatch; ip_routes : list (WirePatch (option ProtoInet));
  ip_exit_nodes : list (WirePatch (option (option IpAddr))); ip_mapped_listeners : list (WirePatch (option text));
  ip_connectors : list (WirePatch (option text))
}.

(** [Ipv4Cidr::new]: none when host bits are set. *)
Class CidrNew `{Ipv4CidrLib} := { cidr_new : Z -> Z -> option Ipv4Cidr }.

Definition inet_from_proto (bits : Z) (i : ProtoInet) : outcome Inet :=
  let n := as_u8 (pi_length i) in
  if n <=? bits then Done {| in_address := default 0 (pi_address i); in_length := n |} else Panicked UnwrapOnNone.

Definition cidr_from_proto `{CidrNew} (i : ProtoInet) : outcome Ipv4Cidr :=
  unwrap (cidr_new (default 0 (pi_address i)) (as_u8 (pi_length i))).

Definition ip_from_proto (a : option IpAddr) : outcome IpAddr := match a with Some a => Done a | None => Panicked ExplicitPanic end.

Definition socket_addr_from_proto (a : ProtoSocketAddr) : SocketAddr :=
  match ps_ip a with None => (V4 0, 0) | Some ip => (ip, as_u16 (ps_port a)) end.

Definition url_from_proto `{UrlOps} (t : text) : outcome Url := unwrap (parse_url t).

Definition forward_from_pb (c : PortForwardConfigPb) : PortForwardConfig :=
  let addr a := socket_addr_from_proto (default {| ps_ip := None; ps_port := 0 |} a) in
  {| bind_addr := addr (pb_bind_addr c); dst_addr := addr (pb_dst_addr c);
     pf_proto := if pb_socket_type c =? 1 then txt "udp" else txt "tcp" |}.

Definition forward_to_pb (c : PortForwardConfig) : PortForwardConfigPb :=
  let addr (a : SocketAddr) := Some {| ps_ip := Some (fst a); ps_port := snd a |} in
  {| pb_bind_addr := addr (bind_addr c); pb_dst_addr := addr (dst_addr c); pb_socket_type := if is_proto "udp" c then 1 else 0 |}.

(** ** Patches of lists *)

Record Patchable (T : Type) := { pt_action : option ConfigPatchAction; pt_value : option T }.
Arguments pt_action {T}. Arguments pt_value {T}.

Section patch_vec.
Context {T : Type} `{EqDecision T}.

Definition patch_one (v : list T) (p : Patchable T) : list T :=
  match pt_action p, pt_value p with
  | Some PatchAdd, Some value => v ++ [value]
  | Some PatchRemove, Some value => base.filter (fun x => x <> value) v
  | Some PatchClear, _ => []
  | _, _ => v
  end.

Definition patch_vec (v : list T) (patches : list (Patchable T)) : list T := foldl patch_one v patches.
End patch_vec.

(** [map(Into::into).collect()]; the first value that does not convert panics. *)
Fixpoint convert_patches {A T} (f : A -> outcome (option T)) (l : list (WirePatch A)) : outcome (list (Patchable T)) :=
  match l with
  | [] => Done []
  | p :: l => v ← f (wp_value p); rest ← convert_patches f l; Done ({| pt_action := action_of (wp_action p); pt_value := v |} :: rest)
  end.

Definition convert_option {A T} (f : A -> outcome T) (a : option A) : outcome (option T) :=
  match a with None => Done None | Some a => t ← f a; Done (Some t) end.

(** ** The instance *)

Inductive patch_error := Unavailable | ReloadFailed (e : forward_error) | BadWhitelist (e : port_error) | ProxyNetwork (e : string) | NoSuchConnector.
Inductive stop := Failed (e : patch_error) | Panics (p : panic).

Section instance.
Context `{CidrLib} `{!IterOrder AclCacheKey AclCacheEntry} `{!IterOrder text ConnTrackEntry} `{Ipv4Codec} `{UdpLib} `{TcpPorts}.
Context `{Hasher64} `{ConfigWire} `{!CidrText} `{!CidrNew} `{UrlOps} `{UrlLib} (sys_hostname : text).
(** Whether a forward's port can be bound, and which parts of the instance still exist. *)
Variable bind_ok : PortForwardConfig -> bool.
Record Alive := { socks5_alive : bool; ctx_alive : bool; peer_manager_alive : bool; conn_manager_alive : bool }.
Variable alive : Alive.

Record Instance' := mkInst {
  ri_config : Config Json; cached_ipv4 : option Inet; cached_ipv6 : option Inet; ri_hostname : text;
  ri_acl : AclFilter; ri_exit_nodes : list IpAddr; ri_socks : Socks5Server; ri_conns : ConnectorManagerData;
  ri_events : list InstanceConfigPatch; ri_ip_proxy : bool
}.
Implicit Types s : Instance'.

Definition with_config c s := mkInst c (cached_ipv4 s) (cached_ipv6 s) (ri_hostname s) (ri_acl s) (ri_exit_nodes s) (ri_socks s) (ri_conns s) (ri_events s) (ri_ip_proxy s).
Definition with_cached_ipv4 x s := mkInst (ri_config s) x (cached_ipv6 s) (ri_hostname s) (ri_acl s) (ri_exit_nodes s) (ri_socks s) (ri_conns s) (ri_events s) (ri_ip_proxy s).
Definition with_cached_ipv6 x s := mkInst (ri_config s) (cached_ipv4 s) x (ri_hostname s) (ri_acl s) (ri_exit_nodes s) (ri_socks s) (ri_conns s) (ri_events s) (ri_ip_proxy s).
Definition with_hostname x s := mkInst (ri_config s) (cached_ipv4 s) (cached_ipv6 s) x (ri_acl s) (ri_exit_nodes s) (ri_socks s) (ri_conns s) (ri_events s) (ri_ip_proxy s).
Definition with_acl x s := mkInst (ri_config s) (cached_ipv4 s) (cached_ipv6 s) (ri_hostname s) x (ri_exit_nodes s) (ri_socks s) (ri_conns s) (ri_events s) (ri_ip_proxy s).
Definition with_exit_nodes x s := mkInst (ri_config s) (cached_ipv4 s) (cached_ipv6 s) (ri_hostname s) (ri_acl s) x (ri_socks s) (ri_conns s) (ri_events s) (ri_ip_proxy s).
Definition with_socks x s := mkInst (ri_config s) (cached_ipv4 s) (cached_ipv6 s) (ri_hostname s) (ri_acl s) (ri_exit_nodes s) x (ri_conns s) (ri_events s) (ri_ip_proxy s).
Definition with_conns x s := mkInst (ri_config s) (cached_ipv4 s) (cached_ipv6 s) (ri_hostname s) (ri_acl s) (ri_exit_nodes s) (ri_socks s) x (ri_events s) (ri_ip_proxy s).
Definition with_ip_proxy x s := mkInst (ri_config s) (cached_ipv4 s) (cached_ipv6 s) (ri_hostname s) (ri_acl s) (ri_exit_nodes s) (ri_socks s) (ri_conns s) (ri_events s) x.
Definition with_events x s := mkInst (ri_config s) (cached_ipv4 s) (cached_ipv6 s) (ri_hostname s) (ri_acl s) (ri_exit_nodes s) (ri_socks s) (ri_conns s) x (ri_ip_proxy s).

(** ** The addresses of the global context *)

(** The parts of [get_ipv4]: what the cache has, what the configuration has, and the store. *)
Definition ctx_load_ipv4 s : option Inet := cached_ipv4 s.
Definition ctx_store_ipv4 (addr : option Inet) s : Instance' := with_cached_ipv4 addr s.

Definition ctx_get_ipv4 s : option Inet * Instance' :=
  match ctx_load_ipv4 s with
  | Some ret => (Some ret, s)
  | None => let addr := get_ipv4 (ri_config s) in (addr, ctx_store_ipv4 addr s)
  end.

Definition ctx_set_ipv4 (addr : option Inet) s : Instance' := with_cached_ipv4 None (with_config (set_ipv4 addr (ri_config s)) s).

Definition ctx_get_ipv6 s : option Inet * Instance' :=
  match cached_ipv6 s with
  | Some ret => (Some ret, s)
  | None => let addr := get_ipv6 (ri_config s) in (addr, with_cached_ipv6 addr s)
  end.

Definition ctx_set_ipv6 (addr : option Inet) s : Instance' := with_cached_ipv6 None (with_config (set_ipv6 addr (ri_config s)) s).

(** ** The monad *)

Definition PM (A : Type) : Type := Instance' -> result stop A * Instance'.

#[local] Instance pm_ret : MRet PM := fun _ a s => (Ok a, s).
#[local] Instance pm_bind : MBind PM := fun _ _ f m s => match m s with (Ok a, s) => f a s | (Err e, s) => (Err e, s) end.

Definition fail {A} (e : patch_error) : PM A := fun s => (Err (Failed e), s).
Definition lift {A} (o : outcome A) : PM A := fun s => match o with Done a => (Ok a, s) | Panicked p => (Err (Panics p), s) end.
Definition reads {A} (f : Config Json -> A) : PM A := fun s => (Ok (f (ri_config s)), s).
Definition modify (f : Instance' -> Instance') : PM () := fun s => (Ok (), f s).
Definition writes (f : Config Json -> Config Json) : PM () := modify (fun s => with_config (f (ri_config s)) s).
Definition upgrade (b : bool) : PM () := if b then mret () else fail Unavailable.

(** ** The sections of a patch *)

Definition reload_forwards (current : list PortForwardConfig) : PM () := fun s =>
  match reload_port_forwards bind_ok current (ri_socks s) with
  | (Ok _, socks, _) => (Ok (), with_socks socks s)
  | (Err e, socks, _) => (Err (Failed (ReloadFailed e)), with_socks socks s)
  end.

Definition patch_port_forwards (l : list (WirePatch (option PortForwardConfigPb))) : PM () :=
  if bool_decide (length l = 0%nat) then mret ()
  else
    _ ← upgrade (socks5_alive alive);
    _ ← upgrade (ctx_alive alive);
    current ← reads get_port_forwards;
    patches ← lift (convert_patches (convert_option (fun c => Done (forward_from_pb c))) l);
    let current := patch_vec current patches in
    _ ← writes (set_port_forwards current);
    reload_forwards current.

Definition patch_whitelist (get : Config Json -> list text) (set : list text -> Config Json -> Config Json) (l : list (WirePatch text)) : PM () :=
  if bool_decide (length l = 0%nat) then mret ()
  else
    current ← reads get;
    patches ← lift (convert_patches (fun t => Done (Some t)) l);
    writes (set (patch_vec current patches)).

Definition reload_acl : PM () := fun s =>
  let c := ri_config s in
  match AclRules.build (get_acl c) (get_tcp_whitelist c) (get_udp_whitelist c) with
  | Ok acl => (Ok (), with_acl (reload_rules acl (ri_acl s)) s)
  | Err e => (Err (Failed (BadWhitelist e)), s)
  end.

Definition patch_acl (p : option AclPatch) : PM () :=
  match p with
  | None => mret ()
  | Some p =>
      _ ← upgrade (ctx_alive alive);
      _ ← match ap_acl p with Some acl => writes (set_acl (Some acl)) | None => mret () end;
      _ ← patch_whitelist get_tcp_whitelist set_tcp_whitelist (ap_tcp_whitelist p);
      _ ← patch_whitelist get_udp_whitelist set_udp_whitelist (ap_udp_whitelist p);
      reload_acl
  end.

Definition add_network (cidr : Ipv4Cidr) (mapped : option Ipv4Cidr) : PM () := fun s =>
  match config_add_proxy_cidr cidr mapped (ri_config s) with
  | (Ok _, c) => (Ok (), with_config c s)
  | (Err e, c) => (Err (Failed (ProxyNetwork e)), with_config c s)
  end.

Definition patch_proxy_network (p : ProxyNetworkPatch) : PM () :=
  match pp_cidr p with
  | None => mret ()
  | Some i =>
      cidr ← lift (cidr_from_proto i);
      mapped ← lift (convert_option cidr_from_proto (pp_mapped_cidr p));
      match action_of (pp_action p) with
      | Some PatchAdd => add_network cidr mapped
      | Some PatchRemove => writes (config_remove_proxy_cidr cidr)
      | Some PatchClear => writes config_clear_proxy_cidrs
      | None => mret ()
      end
  end.

Fixpoint each {A} (f : A -> PM ()) (l : list A) : PM () := match l with [] => mret () | a :: l => _ ← f a; each f l end.

Definition patch_proxy_networks (l : list ProxyNetworkPatch) : PM () :=
  if bool_decide (length l = 0%nat) then mret () else _ ← upgrade (ctx_alive alive); each patch_proxy_network l.

Definition patch_routes (l : list (WirePatch (option ProtoInet))) : PM () :=
  if bool_decide (length l = 0%nat) then mret ()
  else
    _ ← upgrade (ctx_alive alive);
    current ← reads (fun c => default [] (get_routes c));
    patches ← lift (convert_patches (convert_option cidr_from_proto) l);
    let current := patch_vec current patches in
    writes (set_routes (if bool_decide (current = []) then None else Some current)).

Definition update_exit_nodes : PM () := modify (fun s => with_exit_nodes (get_exit_nodes (ri_config s)) s).

Definition patch_exit_nodes (l : list (WirePatch (option (option IpAddr)))) : PM () :=
  if bool_decide (length l = 0%nat) then mret ()
  else
    _ ← upgrade (ctx_alive alive);
    _ ← upgrade (peer_manager_alive alive);
    current ← reads get_exit_nodes;
    patches ← lift (convert_patches (convert_option ip_from_proto) l);
    _ ← writes (set_exit_nodes (patch_vec current patches));
    update_exit_nodes.

Definition patch_mapped_listeners (l : list (WirePatch (option text))) : PM () :=
  if bool_decide (length l = 0%nat) then mret ()
  else
    _ ← upgrade (ctx_alive alive);
    current ← reads get_mapped_listeners;
    patches ← lift (convert_patches (convert_option url_from_proto) l);
    let current := patch_vec current patches in
    writes (set_mapped_listeners (if bool_decide (current = []) then None else Some current)).

Definition drop_connector (url : text) : PM () := fun s =>
  match remove_connector url (ri_conns s) with
  | Done (Ok _, conns) => (Ok (), with_conns conns s)
  | Done (Err _, conns) => (Err (Failed NoSuchConnector), with_conns conns s)
  | Panicked p => (Err (Panics p), s)
  end.

Definition drop_connectors : PM () := fun s =>
  match clear_connectors (ri_conns s) with
  | Done conns => (Ok (), with_conns conns s)
  | Panicked p => (Err (Panics p), s)
  end.

(** A patch without a URL ends the section. *)
Fixpoint patch_connectors (l : list (WirePatch (option text))) : PM () :=
  match l with
  | [] => mret ()
  | p :: l =>
      match wp_value p with
      | None => mret ()
      | Some t =>
          url ← lift (url_from_proto t);
          _ ← match action_of (wp_action p) with
              | Some PatchAdd => modify (fun s => with_conns (add_connector_by_url (u_text url) (ri_conns s)) s)
              | Some PatchRemove => drop_connector (u_text url)
              | Some PatchClear => drop_connectors
              | None => mret ()
              end;
          patch_connectors l
      end
  end.

Definition patch_connector (l : list (WirePatch (option text))) : PM () :=
  if bool_decide (length l = 0%nat) then mret () else _ ← upgrade (conn_manager_alive alive); patch_connectors l.

Definition patch_hostname (h : option text) : PM () :=
  match h with
  | None => mret ()
  | Some h => _ ← modify (with_hostname h); writes (set_hostname (Some h))
  end.

Definition patch_ipv4 (i : option ProtoInet) : PM () :=
  match i with
  | None => mret ()
  | Some i =>
      dhcp ← reads get_dhcp;
      if dhcp : bool then mret ()
      else
        addr ← lift (inet_from_proto 32 i);
        _ ← modify (ctx_set_ipv4 (Some addr));
        writes (set_ipv4 (Some addr))
  end.

Definition patch_ipv6 (i : option ProtoInet) : PM () :=
  match i with
  | None => mret ()
  | Some i => addr ← lift (inet_from_proto 128 i); _ ← modify (ctx_set_ipv6 (Some addr)); writes (set_ipv6 (Some addr))
  end.

Definition apply_patch (p : InstanceConfigPatch) : PM () :=
  _ ← patch_port_forwards (ip_port_forwards p);
  _ ← patch_acl (ip_acl p);
  _ ← patch_proxy_networks (ip_proxy_networks p);
  _ ← patch_routes (ip_routes p);
  _ ← patch_exit_nodes (ip_exit_nodes p);
  _ ← patch_mapped_listeners (ip_mapped_listeners p);
  _ ← patch_connector (ip_connectors p);
  _ ← upgrade (ctx_alive alive);
  _ ← patch_hostname (ip_hostname p);
  _ ← patch_ipv4 (ip_ipv4 p);
  _ ← patch_ipv6 (ip_ipv6 p);
  modify (fun s => with_events (ri_events s ++ [p]) s).

(** ** Starting *)

(** [IpProxy::start]; it is called once, when the instance starts. *)
Definition ip_proxy_start : PM () := modify (fun s =>
  let f := get_flags (ri_config s) in
  if (bool_decide (config_get_proxy_cidrs (ri_config s) = []) || ri_ip_proxy s) && negb (fl_enable_exit_node f) && negb (fl_no_tun f) then s
  else if fl_proxy_forward_by_system f && negb (fl_no_tun f) then s
  else with_ip_proxy true s).

Definition add_initial_peers : PM () := modify (fun s =>
  with_conns (foldl (fun m u => add_connector_by_url (u_text u) m) (ri_conns s) (get_peers (ri_config s))) s).

Definition instance_new (c : Config Json) : Instance' :=
  let '(hostname, c) := get_hostname sys_hostname c in
  mkInst c None None hostname acl_filter_new (get_exit_nodes c) socks5_new manager_new [] false.

(** [Instance::run] from the ACL on; the SOCKS5 portal is left out. *)
Definition instance_run : PM () :=
  _ ← reload_acl;
  _ ← ip_proxy_start;
  _ ← add_initial_peers;
  cfgs ← reads get_port_forwards;
  reload_forwards cfgs.

(** ** What a patch means *)

Record Decoded := {
  dc_forwards : list (Patchable PortForwardConfig); dc_tcp : list (Patchable text); dc_udp : list (Patchable text);
  dc_networks : list (option (Ipv4Cidr * option Ipv4Cidr) * option ConfigPatchAction);
  dc_routes : list (Patchable Ipv4Cidr); dc_exit_nodes : list (Patchable IpAddr); dc_mapped : list (Patchable Url);
  dc_ipv4 : option Inet; dc_ipv6 : option Inet
}.

Definition decode_network (p : ProxyNetworkPatch) : outcome (option (Ipv4Cidr * option Ipv4Cidr) * option ConfigPatchAction) :=
  match pp_cidr p with
  | None => Done (None, None)
  | Some i =>
      cidr ← cidr_from_proto i;
      mapped ← convert_option cidr_from_proto (pp_mapped_cidr p);
      Done (Some (cidr, mapped), action_of (pp_action p))
  end.

Fixpoint map_outcome {A B} (f : A -> outcome B) (l : list A) : outcome (list B) :=
  match l with [] => Done [] | a :: l => b ← f a; bs ← map_outcome f l; Done (b :: bs) end.

Definition whitelist_patches (l : list (WirePatch text)) : outcome (list (Patchable text)) := convert_patches (fun t => Done (Some t)) l.

Definition decode (dhcp : bool) (p : InstanceConfigPatch) : outcome Decoded :=
  fwds ← convert_patches (convert_option (fun c => Done (forward_from_pb c))) (ip_port_forwards p);
  tcp ← whitelist_patches (from_option ap_tcp_whitelist [] (ip_acl p));
  udp ← whitelist_patches (from_option ap_udp_whitelist [] (ip_acl p));
  networks ← map_outcome decode_network (ip_proxy_networks p);
  routes ← convert_patches (convert_option cidr_from_proto) (ip_routes p);
  exits ← convert_patches (convert_option ip_from_proto) (ip_exit_nodes p);
  mapped ← convert_patches (convert_option url_from_proto) (ip_mapped_listeners p);
  ipv4 ← (if dhcp then Done None else convert_option (inet_from_proto 32) (ip_ipv4 p));
  ipv6 ← convert_option (inet_from_proto 128) (ip_ipv6 p);
  Done {| dc_forwards := fwds; dc_tcp := tcp; dc_udp := udp; dc_networks := networks; dc_routes := routes;
          dc_exit_nodes := exits; dc_mapped := mapped; dc_ipv4 := ipv4; dc_ipv6 := ipv6 |}.

(** Lists without patches stay as they are; routes and mapped listeners that are empty are not given at all. *)
Definition patched {T} `{EqDecision T} (ps : list (Patchable T)) (get : Config Json -> list T) (set : list T -> Config Json -> Config Json) (c : Config Json)
    : Config Json := if bool_decide (length ps = 0%nat) then c else set (patch_vec (get c) ps) c.

Definition none_if_empty {T} `{EqDecision T} (l : list T) : option (list T) := if bool_decide (l = []) then None else Some l.

Definition patched_network (c : Config Json) (p : option (Ipv4Cidr * option Ipv4Cidr) * option ConfigPatchAction) : Config Json :=
  match p with
  | (Some (cidr, mapped), Some PatchAdd) => (config_add_proxy_cidr cidr mapped c).2
  | (Some (cidr, _), Some PatchRemove) => config_remove_proxy_cidr cidr c
  | (Some _, Some PatchClear) => config_clear_proxy_cidrs c
  | _ => c
  end.

(** The configuration after a patch. *)
Definition patched_config (p : InstanceConfigPatch) (d : Decoded) (c : Config Json) : Config Json :=
  let c := patched (dc_forwards d) get_port_forwards set_port_forwards c in
  let c := match ip_acl p ≫= ap_acl with Some acl => set_acl (Some acl) c | None => c end in
  let c := patched (dc_tcp d) get_tcp_whitelist set_tcp_whitelist c in
  let c := patched (dc_udp d) get_udp_whitelist set_udp_whitelist c in
  let c := foldl patched_network c (dc_networks d) in
  let c := patched (dc_routes d) (fun c => default [] (get_routes c)) (fun l => set_routes (none_if_empty l)) c in
  let c := patched (dc_exit_nodes d) get_exit_nodes set_exit_nodes c in
  let c := patched (dc_mapped d) get_mapped_listeners (fun l => set_mapped_listeners (none_if_empty l)) c in
  let c := match ip_hostname p with Some h => set_hostname (Some h) c | None => c end in
  let c := match dc_ipv4 d with Some a => set_ipv4 (Some a) c | None => c end in
  match dc_ipv6 d with Some a => set_ipv6 (Some a) c | None => c end.

(** What the peer connector is told. *)
Fixpoint connector_labels (l : list (WirePatch (option text))) : list label :=
  match l with
  | [] => []
  | p :: l =>
      match wp_value p ≫= parse_url with
      | None => []
      | Some url =>
          match action_of (wp_action p) with
          | Some PatchAdd => [LAdd (u_text url)] | Some PatchRemove => [LRemove (u_text url)] | Some PatchClear => [LClear] | None => []
          end ++ connector_labels l
      end
  end.

(** ** What runs is what is configured *)

Definition acl_in_force (acl : option Acl) (f : AclFilter) : Prop :=
  match acl with
  | None => acl_enabled f = false
  | Some acl => acl_enabled f = true /\ forall ct, ct <> UnspecifiedChain ->
      rules_of ct (acl_processor f) = rules_of ct (new acl) /\ default_of ct (acl_processor f) = default_action_for ct acl
  end.

Definition forwards_run (cfgs : list PortForwardConfig) (x : Socks5Server) : Prop :=
  (forall cfg, cfg ∈ cfgs -> cfg ∈ cancel_tokens x) /\ forall k, k ∈ cancel_tokens x -> still_wanted cfgs k.

Record runs_configured s : Prop := {
  rc_exit_nodes : ri_exit_nodes s = get_exit_nodes (ri_config s);
  rc_acl : exists acl, AclRules.build (get_acl (ri_config s)) (get_tcp_whitelist (ri_config s)) (get_udp_whitelist (ri_config s)) = Ok acl /\
    acl_in_force acl (ri_acl s);
  rc_forwards : forwards_run (get_port_forwards (ri_config s)) (ri_socks s);
  rc_ipv4 a : cached_ipv4 s = Some a -> get_ipv4 (ri_config s) = Some a;
  rc_ipv6 a : cached_ipv6 s = Some a -> get_ipv6 (ri_config s) = Some a
}.

(** What also holds after patches that were refused: the exit nodes are those of the configuration, and no forward runs that is not
    configured. *)
Definition always_configured s : Prop :=
  ri_exit_nodes s = get_exit_nodes (ri_config s) /\ forall k, k ∈ cancel_tokens (ri_socks s) -> still_wanted (get_port_forwards (ri_config s)) k.

(** What an accepted patch leaves, whatever was before: the parts it has a section for run as configured, the others stay. *)
Record patch_done (p : InstanceConfigPatch) (d : Decoded) s s' : Prop := {
  pd_forwards : match ip_port_forwards p with
                | [] => ri_socks s' = ri_socks s /\ get_port_forwards (ri_config s') = get_port_forwards (ri_config s)
                | _ => forwards_run (get_port_forwards (ri_config s')) (ri_socks s')
                end;
  pd_acl : match ip_acl p with
           | None => ri_acl s' = ri_acl s /\ get_acl (ri_config s') = get_acl (ri_config s) /\
               get_tcp_whitelist (ri_config s') = get_tcp_whitelist (ri_config s) /\ get_udp_whitelist (ri_config s') = get_udp_whitelist (ri_config s)
           | Some _ => exists acl,
               AclRules.build (get_acl (ri_config s')) (get_tcp_whitelist (ri_config s')) (get_udp_whitelist (ri_config s')) = Ok acl /\
               acl_in_force acl (ri_acl s')
           end;
  pd_ipv4 : match dc_ipv4 d with Some _ => (ctx_get_ipv4 s').1 = get_ipv4 (ri_config s') | None => cached_ipv4 s' = cached_ipv4 s end;
  pd_ipv6 : match dc_ipv6 d with Some _ => (ctx_get_ipv6 s').1 = get_ipv6 (ri_config s') | None => cached_ipv6 s' = cached_ipv6 s end
}.

(** ** Lemmas *)

Lemma pm_bind_Ok {A B} (m : PM A) (f : A -> PM B) s b s' :
  (m ≫= f) s = (Ok b, s') <-> exists a s1, m s = (Ok a, s1) /\ f a s1 = (Ok b, s').
Proof.
  unfold mbind, pm_bind. destruct (m s) as [[a|e] s1].
  - split; [intros E; by exists a, s1|]. intros (? & ? & [= <- <-] & E). done.
  - split; [done|]. by intros (? & ? & ? & _).
Qed.

Lemma upgrade_Ok b s u s' : upgrade b s = (Ok u, s') -> s' = s.
Proof. unfold upgrade. by destruct b; intros [= <-]. Qed.

Lemma lift_Ok {A} (o : outcome A) s a s' : lift o s = (Ok a, s') -> o = Done a /\ s' = s.
Proof. unfold lift. by destruct o; intros [= -> <-]. Qed.

Lemma with_config_id s : with_config (ri_config s) s = s.
Proof. by destruct s. Qed.

Lemma convert_patches_length {A T} (f : A -> outcome (option T)) l ps : convert_patches f l = Done ps -> length ps = length l.
Proof.
  revert ps; induction l as [|p l IH]; intros ps; cbn [convert_patches]; [by intros [= <-]|].
  intros (v & _ & E)%bind_Done. apply bind_Done in E as (r & Er & [= <-]). cbn. by rewrite (IH r Er).
Qed.

(** A section that changes one list of the configuration. *)
Lemma patched_nil {A T} `{EqDecision T} (l : list (WirePatch A)) (get : Config Json -> list T) set c :
  length l = 0%nat -> patched [] get set c = c.
Proof. done. Qed.

Lemma patched_cons {A T} `{EqDecision T} f (l : list (WirePatch A)) (ps : list (Patchable T)) (get : Config Json -> list T) set c :
  convert_patches f l = Done ps -> length l <> 0%nat -> patched ps get set c = set (patch_vec (get c) ps) c.
Proof. intros E Hl. unfold patched. rewrite bool_decide_eq_false_2; [done|]. by rewrite (convert_patches_length _ _ _ E). Qed.

(** Take a successful run of a section apart. *)
Ltac pm_split :=
  repeat match goal with
  | H : (_ ≫= _) _ = (Ok _, _) |- _ => apply pm_bind_Ok in H as (? & ? & ? & H)
  | H : upgrade _ _ = (Ok _, _) |- _ => apply upgrade_Ok in H; subst
  | H : lift _ _ = (Ok _, _) |- _ => apply lift_Ok in H as [? ?]; subst
  | H : reads _ _ = (Ok _, _) |- _ => injection H as <- <-
  | H : modify _ _ = (Ok _, _) |- _ => injection H as <- <-
  | H : writes _ _ = (Ok _, _) |- _ => injection H as <- <-
  | H : mret _ _ = (Ok _, _) |- _ => injection H as <- <-
  end.

Lemma empty_list {A} (l : list A) : length l = 0%nat -> l = [].
Proof. by destruct l. Qed.

Lemma reload_forwards_Ok cfgs s u s' : reload_forwards cfgs s = (Ok u, s') ->
  exists x, s' = with_socks x s /\ forwards_run cfgs x.
Proof.
  unfold reload_forwards. destruct (reload_port_forwards bind_ok cfgs (ri_socks s)) as [[[[]|e] x] acts] eqn:E; [|done].
  intros [= <- <-]. exists x. split; [done|]. unfold reload_port_forwards in E.
  assert (Hgen : forall l y, add_missing bind_ok l y = (Ok (), x, acts) ->
    (forall cfg, cfg ∈ l -> cfg ∈ cancel_tokens x) /\ cancel_tokens y ⊆ cancel_tokens x /\ forall k, k ∈ cancel_tokens x -> k ∈ cancel_tokens y \/ k ∈ l).
  { clear E. intros l. revert acts. induction l as [|cfg l IH]; intros acts y; cbn [add_missing]; [intros [= <- _]; set_solver|]. case_bool_decide as Hin.
    - intros E. destruct (IH _ _ E) as (? & ? & ?). set_solver.
    - unfold add_port_forward. destruct (_ || _); [destruct (bind_ok cfg)|]; [|done..]. destruct (add_missing _ _ _) as [[r z] more] eqn:Em.
      intros [= -> -> <-]. destruct (IH _ _ Em) as (H1' & H2' & H3'). cbn in *. split_and!; set_solver. }
  destruct (Hgen _ _ E) as (Hall & _ & Hback). split; [done|]. intros k Hk. destruct (Hback k Hk) as [Hk'|Hk'].
  - cbn in Hk'. by apply elem_of_filter in Hk' as [? _].
  - apply Exists_exists. exists k. split; [done|]. by destruct (unspecified _).
Qed.

Lemma patch_port_forwards_Ok l s u s' : patch_port_forwards l s = (Ok u, s') ->
  exists ps x, convert_patches (convert_option (fun c => Done (forward_from_pb c))) l = Done ps /\
    let c := patched ps get_port_forwards set_port_forwards (ri_config s) in
    s' = with_socks x (with_config c s) /\
    (l = [] /\ x = ri_socks s /\ c = ri_config s \/ l <> [] /\ forwards_run (get_port_forwards c) x).
Proof.
  unfold patch_port_forwards. case_bool_decide as Hl; intros E; pm_split.
  - rewrite (empty_list l Hl). exists [], (ri_socks s). split; [done|]. cbn. split; [by destruct s|by left].
  - destruct (reload_forwards_Ok _ _ _ _ E) as (y & -> & Hr). do 2 eexists. split; [done|]. cbn.
    erewrite patched_cons by eassumption. split; [done|]. right. split; [by intros ->|]. exact Hr.
Qed.

Lemma patch_whitelist_Ok get set l s u s' : patch_whitelist get set l s = (Ok u, s') ->
  exists ps, whitelist_patches l = Done ps /\ s' = with_config (patched ps get set (ri_config s)) s.
Proof.
  unfold patch_whitelist. case_bool_decide as Hl; intros E; pm_split.
  - rewrite (empty_list l Hl). exists []. split; [done|]. symmetry. apply with_config_id.
  - eexists. split; [eassumption|]. by erewrite patched_cons by eassumption.
Qed.

Lemma reload_acl_Ok s u s' : reload_acl s = (Ok u, s') -> exists acl,
  AclRules.build (get_acl (ri_config s)) (get_tcp_whitelist (ri_config s)) (get_udp_whitelist (ri_config s)) = Ok acl /\
  s' = with_acl (reload_rules acl (ri_acl s)) s /\ acl_in_force acl (ri_acl s').
Proof.
  unfold reload_acl. destruct (AclRules.build _ _ _) as [acl|e]; [|done]. intros [= <- <-]. exists acl. split_and!; [done|done|].
  destruct acl as [acl|]; [|done]. split; [done|]. by intros [] Hct.
Qed.

(** The configuration after the ACL section. *)
Definition acl_patched (p : option AclPatch) (tcp udp : list (Patchable text)) (c : Config Json) : Config Json :=
  let c := match p ≫= ap_acl with Some acl => set_acl (Some acl) c | None => c end in
  patched udp get_udp_whitelist set_udp_whitelist (patched tcp get_tcp_whitelist set_tcp_whitelist c).

Lemma patch_acl_Ok p s u s' : patch_acl p s = (Ok u, s') ->
  exists tcp udp f, whitelist_patches (from_option ap_tcp_whitelist [] p) = Done tcp /\ whitelist_patches (from_option ap_udp_whitelist [] p) = Done udp /\
    s' = with_acl f (with_config (acl_patched p tcp udp (ri_config s)) s) /\
    (p = None /\ f = ri_acl s /\ ri_config s' = ri_config s \/
     is_Some p /\ exists acl, AclRules.build (get_acl (ri_config s')) (get_tcp_whitelist (ri_config s')) (get_udp_whitelist (ri_config s')) = Ok acl /\
       acl_in_force acl f).
Proof.
  destruct p as [p|]; cbn [patch_acl]; intros E; pm_split; cycle 1.
  { exists [], [], (ri_acl s). split_and!; [done|done|by destruct s|by left]. }
  apply reload_acl_Ok in E as (acl & Eb & -> & Hf).
  repeat match goal with H : patch_whitelist _ _ _ _ = _ |- _ => apply patch_whitelist_Ok in H as (? & ? & ->) end.
  do 3 eexists. split_and!; [eassumption|eassumption| |right; split; [by eexists|]; exists acl; split; [exact Eb|exact Hf]].
  unfold acl_patched. cbn [mbind option_bind]. destruct (ap_acl p) as [acl'|]; pm_split; by destruct s.
Qed.

Lemma patch_proxy_network_Ok p s u s' : patch_proxy_network p s = (Ok u, s') ->
  exists d, decode_network p = Done d /\ s' = with_config (patched_network (ri_config s) d) s.
Proof.
  unfold patch_proxy_network, decode_network. destruct (pp_cidr p) as [i|]; intros E; pm_split; cycle 1.
  { eexists. split; [done|]. symmetry. apply with_config_id. }
  repeat match goal with H : ?o = Done _ |- context [?o] => rewrite H; cbn [mbind outcome_bind] end.
  eexists. split; [done|]. cbn [patched_network]. destruct (action_of (pp_action p)) as [[]|]; pm_split; [|done|done|symmetry; apply with_config_id].
  unfold add_network in E. destruct (config_add_proxy_cidr _ _ _) as [[|] c]; [by injection E as _ <-|done].
Qed.

Lemma each_network_Ok l s u s' : each patch_proxy_network l s = (Ok u, s') ->
  exists ds, map_outcome decode_network l = Done ds /\ s' = with_config (foldl patched_network (ri_config s) ds) s.
Proof.
  revert s; induction l as [|p l IH]; intros s; cbn [each map_outcome]; intros E; pm_split.
  - exists []. split; [done|]. symmetry. apply with_config_id.
  - match goal with H : patch_proxy_network _ _ = _ |- _ => apply patch_proxy_network_Ok in H as (d & -> & ->) end. destruct (IH _ E) as (ds & -> & ->). by exists (d :: ds).
Qed.

Lemma patch_proxy_networks_Ok l s u s' : patch_proxy_networks l s = (Ok u, s') ->
  exists ds, map_outcome decode_network l = Done ds /\ s' = with_config (foldl patched_network (ri_config s) ds) s.
Proof.
  unfold patch_proxy_networks. case_bool_decide as Hl; intros E; pm_split; [|by eapply each_network_Ok].
  rewrite (empty_list l Hl). exists []. split; [done|]. symmetry. apply with_config_id.
Qed.

Lemma patch_routes_Ok l s u s' : patch_routes l s = (Ok u, s') ->
  exists ps, convert_patches (convert_option cidr_from_proto) l = Done ps /\
    s' = with_config (patched ps (fun c => default [] (get_routes c)) (fun l => set_routes (none_if_empty l)) (ri_config s)) s.
Proof.
  unfold patch_routes. case_bool_decide as Hl; intros E; pm_split.
  - rewrite (empty_list l Hl). exists []. split; [done|]. symmetry. apply with_config_id.
  - eexists. split; [eassumption|]. by erewrite patched_cons by eassumption.
Qed.

Lemma patch_mapped_Ok l s u s' : patch_mapped_listeners l s = (Ok u, s') ->
  exists ps, convert_patches (convert_option url_from_proto) l = Done ps /\
    s' = with_config (patched ps get_mapped_listeners (fun l => set_mapped_listeners (none_if_empty l)) (ri_config s)) s.
Proof.
  unfold patch_mapped_listeners. case_bool_decide as Hl; intros E; pm_split.
  - rewrite (empty_list l Hl). exists []. split; [done|]. symmetry. apply with_config_id.
  - eexists. split; [eassumption|]. by erewrite patched_cons by eassumption.
Qed.

Lemma patch_exit_nodes_Ok l s u s' : patch_exit_nodes l s = (Ok u, s') ->
  exists ps x, convert_patches (convert_option ip_from_proto) l = Done ps /\
    let c := patched ps get_exit_nodes set_exit_nodes (ri_config s) in
    s' = with_exit_nodes x (with_config c s) /\ (ri_exit_nodes s = get_exit_nodes (ri_config s) -> x = get_exit_nodes c).
Proof.
  unfold patch_exit_nodes. case_bool_decide as Hl; intros E; pm_split.
  - rewrite (empty_list l Hl). exists [], (ri_exit_nodes s). split; [done|]. cbn. split; [by destruct s|done].
  - do 2 eexists. split; [eassumption|]. cbn. erewrite patched_cons by eassumption. split; [|intros _; reflexivity]. unfold update_exit_nodes in E. pm_split. done.
Qed.

Lemma patch_connectors_Ok l s u s' : patch_connectors l s = (Ok u, s') ->
  exists x, s' = with_conns x s /\ manual_run (connector_labels l) (ri_conns s) = Done x.
Proof.
  revert s; induction l as [|p l IH]; intros s; cbn [patch_connectors connector_labels]; intros E; pm_split.
  { exists (ri_conns s). by destruct s. }
  destruct (wp_value p) as [t|]; pm_split; cbn [mbind option_bind]; [|exists (ri_conns s); by destruct s].
  match goal with H : url_from_proto _ = Done _ |- _ => apply unwrap_Done in H; rewrite H end.
  match goal with H : match action_of _ with _ => _ end _ = _ |- _ => rename H into Ea end. destruct (action_of (wp_action p)) as [[]|]; pm_split; cbn [app].
  - destruct (IH _ E) as (y & -> & Hy). exists y. done.
  - unfold drop_connector in Ea. cbn [manual_run manual_step]. destruct (remove_connector _ _) as [[[[]|[]] y]|q]; try done. cbn [mbind outcome_bind].
    injection Ea as _ <-. destruct (IH _ E) as (z & -> & Hz). exists z. done.
  - unfold drop_connectors in Ea. cbn [manual_run manual_step]. destruct (clear_connectors _) as [y|q]; try done. cbn [mbind outcome_bind].
    injection Ea as _ <-. destruct (IH _ E) as (z & -> & Hz). exists z. done.
  - by apply IH.
Qed.

Lemma patch_connector_Ok l s u s' : patch_connector l s = (Ok u, s') ->
  exists x, s' = with_conns x s /\ manual_run (connector_labels l) (ri_conns s) = Done x.
Proof.
  unfold patch_connector. case_bool_decide as Hl; intros E; pm_split; [|by eapply patch_connectors_Ok].
  rewrite (empty_list l Hl). exists (ri_conns s). by destruct s.
Qed.

Lemma patch_hostname_Ok h s u s' : patch_hostname h s = (Ok u, s') ->
  s' = with_hostname (default (ri_hostname s) h) (with_config (match h with Some h => set_hostname (Some h) (ri_config s) | None => ri_config s end) s).
Proof. destruct h as [h|]; cbn [patch_hostname]; intros E; pm_split; by destruct s. Qed.

Lemma patch_ipv4_Ok i s u s' : patch_ipv4 i s = (Ok u, s') ->
  exists a, (if get_dhcp (ri_config s) then Done None else convert_option (inet_from_proto 32) i) = Done a /\
    s' = with_cached_ipv4 (match a with Some _ => None | None => cached_ipv4 s end)
           (with_config (match a with Some a => set_ipv4 (Some a) (ri_config s) | None => ri_config s end) s).
Proof.
  destruct i as [i|]; cbn [patch_ipv4]; intros E; pm_split; [|exists None; split; [by destruct (get_dhcp _)|by destruct s]].
  destruct (get_dhcp (ri_config s)); pm_split; [exists None; by destruct s|]. cbn [convert_option].
  match goal with H : inet_from_proto _ _ = Done _ |- _ => rewrite H end. eexists. split; [done|]. by destruct s.
Qed.

Lemma patch_ipv6_Ok i s u s' : patch_ipv6 i s = (Ok u, s') ->
  exists a, convert_option (inet_from_proto 128) i = Done a /\
    s' = with_cached_ipv6 (match a with Some _ => None | None => cached_ipv6 s end)
           (with_config (match a with Some a => set_ipv6 (Some a) (ri_config s) | None => ri_config s end) s).
Proof.
  destruct i as [i|]; cbn [patch_ipv6]; intros E; pm_split; [|exists None; split; [done|by destruct s]].
  cbn [convert_option].
  match goal with H : inet_from_proto _ _ = Done _ |- _ => rewrite H end. eexists. split; [done|]. by destruct s.
Qed.

(** Every section writes one field. *)
Lemma patched_put {T V} `{EqDecision T} (ps : list (Patchable T)) get set (put : V -> Config Json -> Config Json) (mk : list T -> V) (field : Config Json -> V) c :
  (forall l c, set l c = put (mk l) c) -> (forall c, put (field c) c = c) -> exists v, patched ps get set c = put v c.
Proof. intros Hs Hf. unfold patched. case_bool_decide; [by exists (field c); rewrite Hf|]. by eexists; rewrite Hs. Qed.

Lemma networks_put ds c : exists v, foldl patched_network c ds = put_proxy_network v c.
Proof.
  revert c; induction ds as [|[[[cidr mapped]|] [[]|]] ds IH]; intros c; cbn [foldl patched_network]; try apply IH.
  - exists (cf_proxy_network c). by destruct c.
  - unfold config_add_proxy_cidr. destruct (add_proxy_cidr _ _ _) as [r q]. destruct (IH (put_proxy_network q c)) as [v Hv]. exists v. exact Hv.
  - unfold config_remove_proxy_cidr. destruct (IH (put_proxy_network (remove_proxy_cidr cidr (cf_proxy_network c)) c)) as [v Hv]. exists v. exact Hv.
  - unfold config_clear_proxy_cidrs. destruct (IH (put_proxy_network (clear_proxy_cidrs (cf_proxy_network c)) c)) as [v Hv]. exists v. exact Hv.
Qed.

Lemma acl_patched_put p tcp udp c : exists a t v, acl_patched p tcp udp c = put_udp_whitelist v (put_tcp_whitelist t (put_acl a c)).
Proof.
  unfold acl_patched. set (c1 := match p ≫= ap_acl with Some acl => _ | None => _ end).
  destruct (patched_put tcp get_tcp_whitelist set_tcp_whitelist put_tcp_whitelist Some cf_tcp_whitelist c1) as [t ->]; [done|by intros []|].
  destruct (patched_put udp get_udp_whitelist set_udp_whitelist put_udp_whitelist Some cf_udp_whitelist (put_tcp_whitelist t c1)) as [v ->]; [done|by intros []|].
  assert (exists a, c1 = put_acl a c) as [a ->]; [|by exists a, t, v]. unfold c1. destruct (p ≫= ap_acl) as [a|]; [by exists (Some a)|]. exists (cf_acl c). by destruct c.
Qed.

(** The decoded patch with the pieces of its sections. *)
Lemma decode_pieces dhcp p fwds tcp udp ds routes exits mapped v4 v6 :
  convert_patches (convert_option (fun c => Done (forward_from_pb c))) (ip_port_forwards p) = Done fwds ->
  whitelist_patches (from_option ap_tcp_whitelist [] (ip_acl p)) = Done tcp -> whitelist_patches (from_option ap_udp_whitelist [] (ip_acl p)) = Done udp ->
  map_outcome decode_network (ip_proxy_networks p) = Done ds -> convert_patches (convert_option cidr_from_proto) (ip_routes p) = Done routes ->
  convert_patches (convert_option ip_from_proto) (ip_exit_nodes p) = Done exits ->
  convert_patches (convert_option url_from_proto) (ip_mapped_listeners p) = Done mapped ->
  (if dhcp : bool then Done None else convert_option (inet_from_proto 32) (ip_ipv4 p)) = Done v4 ->
  convert_option (inet_from_proto 128) (ip_ipv6 p) = Done v6 ->
  decode dhcp p = Done {| dc_forwards := fwds; dc_tcp := tcp; dc_udp := udp; dc_networks := ds; dc_routes := routes;
    dc_exit_nodes := exits; dc_mapped := mapped; dc_ipv4 := v4; dc_ipv6 := v6 |}.
Proof.
  intros E1 E2 E3 E4 E5 E6 E7 E8 E9. unfold decode.
  rewrite E1; cbn [mbind outcome_bind]. rewrite E2; cbn [mbind outcome_bind]. rewrite E3; cbn [mbind outcome_bind]. rewrite E4; cbn [mbind outcome_bind].
  rewrite E5; cbn [mbind outcome_bind]. rewrite E6; cbn [mbind outcome_bind]. rewrite E7; cbn [mbind outcome_bind]. rewrite E8; cbn [mbind outcome_bind].
  by rewrite E9.
Qed.

Lemma apply_patch_Ok p s u s' : apply_patch p s = (Ok u, s') ->
  exists d, decode (get_dhcp (ri_config s)) p = Done d /\ ri_config s' = patched_config p d (ri_config s) /\
    ri_hostname s' = default (ri_hostname s) (ip_hostname p) /\
    manual_run (connector_labels (ip_connectors p)) (ri_conns s) = Done (ri_conns s') /\
    ri_events s' = ri_events s ++ [p] /\ patch_done p d s s' /\ (runs_configured s -> runs_configured s').
Proof.
  unfold apply_patch. intros E. pm_split.
  repeat match goal with
  | H : patch_port_forwards _ _ = _ |- _ => apply patch_port_forwards_Ok in H as (fwds & socks1 & E1 & Es1 & Hf)
  | H : patch_acl _ _ = _ |- _ => apply patch_acl_Ok in H as (tcp & udp & f & E2 & E3 & Es2 & Hacl)
  | H : patch_proxy_networks _ _ = _ |- _ => apply patch_proxy_networks_Ok in H as (ds & E4 & Es4)
  | H : patch_routes _ _ = _ |- _ => apply patch_routes_Ok in H as (routes & E5 & Es5)
  | H : patch_exit_nodes _ _ = _ |- _ => apply patch_exit_nodes_Ok in H as (exits & ex & E6 & Es6 & Hex)
  | H : patch_mapped_listeners _ _ = _ |- _ => apply patch_mapped_Ok in H as (mapped & E7 & Es7)
  | H : patch_connector _ _ = _ |- _ => apply patch_connector_Ok in H as (conns & Es8 & Hconns)
  | H : patch_hostname _ _ = _ |- _ => apply patch_hostname_Ok in H as Es9
  | H : patch_ipv4 _ _ = _ |- _ => apply patch_ipv4_Ok in H as (v4 & E10 & Es10)
  | H : patch_ipv6 _ _ = _ |- _ => apply patch_ipv6_Ok in H as (v6 & E11 & Es11)
  end.
  set (c := ri_config s) in *.
  set (c1 := patched fwds get_port_forwards set_port_forwards c) in *.
  destruct (patched_put fwds get_port_forwards set_port_forwards put_port_forward Some cf_port_forward c) as [p1 P1]; [done|by intros []|]. fold c1 in P1.
  subst. cbn [ri_config with_config with_socks with_acl with_exit_nodes with_conns with_hostname with_cached_ipv4 with_cached_ipv6 with_events] in *.
  set (c2 := acl_patched (ip_acl p) tcp udp c1) in *.
  set (c3 := foldl patched_network c2 ds) in *. set (c4 := patched routes _ _ c3) in *. set (c5 := patched exits _ _ c4) in *. set (c6 := patched mapped _ _ c5) in *.
  destruct (acl_patched_put (ip_acl p) tcp udp c1) as (pa & pt & pu & P2). fold c2 in P2.
  destruct (networks_put ds c2) as [p3 P3]. fold c3 in P3.
  destruct (patched_put routes (fun c => default [] (get_routes c)) (fun l => set_routes (none_if_empty l)) put_routes none_if_empty cf_routes c3) as [p4 P4]; [done|by intros []|].
  fold c4 in P4.
  destruct (patched_put exits get_exit_nodes set_exit_nodes put_exit_nodes Some cf_exit_nodes c4) as [p5 P5]; [done|by intros []|]. fold c5 in P5.
  destruct (patched_put mapped get_mapped_listeners (fun l => set_mapped_listeners (none_if_empty l)) put_mapped_listeners none_if_empty cf_mapped_listeners c5)
    as [p6 P6]; [done|by intros []|]. fold c6 in P6.
  set (c7 := match ip_hostname p with Some h => _ | None => c6 end) in *.
  assert (exists v, c7 = put_hostname v c6) as [p7 P7].
  { unfold c7. destruct (ip_hostname p) as [h|]; [by exists (Some h)|]. exists (cf_hostname c6). by destruct c6. }
  assert (Hdhcp : get_dhcp c7 = get_dhcp c) by (rewrite P7, P6, P5, P4, P3, P2, P1; done). rewrite Hdhcp in E10.
  eexists. split; [by apply (decode_pieces _ p)|]. split; [done|]. split; [done|]. split; [done|]. split; [done|].
  cbn. set (c8 := match v4 with Some a => _ | None => c7 end). set (c9 := match v6 with Some a => _ | None => c8 end).
  assert (exists v, c8 = put_ipv4 v c7) as [p8 P8].
  { unfold c8. destruct v4 as [a|]; [by eexists|]. exists (cf_ipv4 c7). by destruct c7. }
  assert (exists v, c9 = put_ipv6 v c8) as [p9 P9].
  { unfold c9. destruct v6 as [a|]; [by eexists|]. exists (cf_ipv6 c8). by destruct c8. }
  assert (Eg : get_acl c9 = get_acl c2 /\ get_tcp_whitelist c9 = get_tcp_whitelist c2 /\ get_udp_whitelist c9 = get_udp_whitelist c2)
      by (rewrite P9, P8, P7, P6, P5, P4, P3; done). destruct Eg as (Eg1 & Eg2 & Eg3).
  assert (Ef : get_port_forwards c9 = get_port_forwards c1) by (rewrite P9, P8, P7, P6, P5, P4, P3, P2; done).
  split.
  { split; cbn.
    - rewrite Ef. destruct Hf as [(-> & -> & ->)|[Hne Hf]]; [done|]. by destruct (ip_port_forwards p).
    - rewrite Eg1, Eg2, Eg3. destruct Hacl as [(-> & -> & ->)|[[? ->] Hacl]]; [|exact Hacl]. rewrite P1. done.
    - destruct v4 as [a|]; [|done]. done.
    - destruct v6 as [a|]; [|done]. done. }
  intros Hr. split; cbn.
  - rewrite Hex; [by rewrite P9, P8, P7, P6|]. rewrite P4, P3, P2, P1. apply (rc_exit_nodes _ Hr).
  - rewrite Eg1, Eg2, Eg3. destruct Hacl as [(_ & -> & ->)|[_ Hacl]]; [|done]. rewrite P1. apply (rc_acl _ Hr).
  - rewrite Ef. destruct Hf as [(_ & -> & ->)|[_ Hf]]; [apply (rc_forwards _ Hr) | exact Hf].
  - intros a. rewrite P9. destruct v4 as [a'|]; [done|]. intros Ha%(rc_ipv4 _ Hr). unfold c8. rewrite P7, P6, P5, P4, P3, P2, P1. exact Ha.
  - intros a. destruct v6 as [a'|]; [done|]. intros Ha%(rc_ipv6 _ Hr). unfold c9. rewrite P8, P7, P6, P5, P4, P3, P2, P1. exact Ha.
Qed.

Lemma instance_run_Ok c u s : instance_run (instance_new c) = (Ok u, s) -> runs_configured s.
Proof.
  unfold instance_run. intros E. pm_split.
  repeat match goal with
  | H : reload_acl _ = _ |- _ => apply reload_acl_Ok in H as (acl & Eb & Es & Hf)
  | H : ip_proxy_start _ = _ |- _ => unfold ip_proxy_start in H
  | H : add_initial_peers _ = _ |- _ => unfold add_initial_peers in H
  end. pm_split. apply reload_forwards_Ok in E as (y & -> & Hr).
  assert (Hip : forall b s (f : Instance' -> Instance'), exists b', (if b : bool then s else with_ip_proxy true s) = with_ip_proxy b' s).
  { intros b s _. destruct b; [exists (ri_ip_proxy s); by destruct s|by exists true]. }
  revert Hr. cbn [ri_config with_conns].
  match goal with |- context [if ?b1 then ?z else if ?b2 then ?z else with_ip_proxy true ?z] =>
    assert (exists b', (if b1 then z else if b2 then z else with_ip_proxy true z) = with_ip_proxy b' z) as [b' ->] end.
  { destruct (_ && _); [|by apply Hip; exact (fun s => s)]. match goal with |- context [with_ip_proxy _ ?z] => exists (ri_ip_proxy z); by destruct z end. }
  intros Hr. subst. unfold instance_new in *. destruct (get_hostname sys_hostname c) as [h c'].
  split; cbn in *; [done|by exists acl|done|done|done].
Qed.

(** ** Refused patches *)

(** A section that keeps [always_configured], whether it fails or not. *)
Definition keeps {A} (m : PM A) : Prop := forall s r s', m s = (r, s') -> always_configured s -> always_configured s'.

Lemma keeps_bind {A B} (m : PM A) (f : A -> PM B) : keeps m -> (forall a, keeps (f a)) -> keeps (m ≫= f).
Proof.
  intros Hm Hf s r s'. unfold mbind, pm_bind. destruct (m s) as [[a|e] s1] eqn:E; intros E' Hs.
  - apply (Hf a _ _ _ E'), (Hm _ _ _ E), Hs.
  - injection E' as _ <-. apply (Hm _ _ _ E), Hs.
Qed.

Lemma keeps_same {A} (m : PM A) : (forall s, (m s).2 = s) -> keeps m.
Proof. intros Hm s r s' E. specialize (Hm s). rewrite E in Hm. by subst. Qed.

Lemma keeps_ret {A} (a : A) : keeps (mret a).
Proof. by apply keeps_same. Qed.
Lemma keeps_lift {A} (o : outcome A) : keeps (lift o).
Proof. apply keeps_same. intros s. unfold lift. by destruct o. Qed.
Lemma keeps_reads {A} (f : Config Json -> A) : keeps (reads f).
Proof. by apply keeps_same. Qed.
Lemma keeps_upgrade b : keeps (upgrade b).
Proof. apply keeps_same. intros s. by destruct b. Qed.

(** A change of the instance that leaves exit nodes and forwards alone. *)
Lemma keeps_modify f : (forall s, ri_exit_nodes (f s) = ri_exit_nodes s /\ ri_socks (f s) = ri_socks s /\
    get_exit_nodes (ri_config (f s)) = get_exit_nodes (ri_config s) /\ get_port_forwards (ri_config (f s)) = get_port_forwards (ri_config s)) ->
  keeps (modify f).
Proof. intros Hf s r s' [= _ <-] [H1' H2']. destruct (Hf s) as (E1 & E2 & E3 & E4). unfold always_configured. by rewrite E1, E2, E3, E4. Qed.

Create HintDb keeps.
#[local] Hint Resolve keeps_bind keeps_ret keeps_lift keeps_reads keeps_upgrade : keeps.
#[local] Hint Extern 1 (keeps (modify _)) => apply keeps_modify; intros []; done : keeps.
#[local] Hint Extern 1 (keeps (writes _)) => unfold writes; apply keeps_modify; intros []; done : keeps.
Ltac keeps := repeat first [match goal with |- forall _, keeps _ => intros ? end | case_match | apply keeps_bind | solve [eauto with keeps]].

Lemma reload_forwards_keeps cfgs s r s' : reload_forwards cfgs s = (r, s') ->
  exists x, s' = with_socks x s /\ forall k, k ∈ cancel_tokens x -> still_wanted cfgs k.
Proof.
  unfold reload_forwards. destruct (reload_port_forwards bind_ok cfgs (ri_socks s)) as [[res x] acts] eqn:E. intros Er.
  exists x. split; [destruct res; by injection Er as _ <-|]. unfold reload_port_forwards in E. clear Er.
  assert (Hgen : forall l y, add_missing bind_ok l y = (res, x, acts) -> forall k, k ∈ cancel_tokens x -> k ∈ cancel_tokens y \/ k ∈ l).
  { clear E. intros l. revert acts. induction l as [|cfg l IH]; intros acts y; cbn [add_missing]; [intros [= _ <- _]; set_solver|]. case_bool_decide as Hin.
    - intros E. specialize (IH _ _ E). set_solver.
    - unfold add_port_forward. destruct (_ || _); [destruct (bind_ok cfg)|]; [|intros [= _ <- _]; cbn; set_solver..]. destruct (add_missing _ _ _) as [[r0 z] more] eqn:Em.
      intros [= -> -> <-]. specialize (IH _ _ Em). cbn in IH. set_solver. }
  intros k Hk. destruct (Hgen _ _ E k Hk) as [Hk'|Hk'].
  - cbn in Hk'. by apply elem_of_filter in Hk' as [? _].
  - apply Exists_exists. exists k. split; [done|]. by destruct (unspecified _).
Qed.

Lemma port_forwards_keep l : keeps (patch_port_forwards l).
Proof.
  unfold patch_port_forwards. case_match; [apply keeps_ret|]. do 4 (apply keeps_bind; [eauto with keeps | intros ?]). intros s r s' E [H1' H2']. unfold mbind, pm_bind, writes, modify in E.
  destruct (reload_forwards_keeps _ _ _ _ E) as (x & -> & Hx). by split.
Qed.

Lemma exit_nodes_keep l : keeps (patch_exit_nodes l).
Proof.
  unfold patch_exit_nodes. case_match; [apply keeps_ret|]. do 4 (apply keeps_bind; [eauto with keeps | intros ?]). intros s r s' E [H1' H2'].
  unfold mbind, pm_bind, writes, modify, update_exit_nodes in E. injection E as _ <-. by split.
Qed.

Lemma keeps_reload_acl : keeps reload_acl.
Proof. intros s r s' E. unfold reload_acl in E. destruct (AclRules.build _ _ _); by injection E as _ <-. Qed.

Lemma keeps_add_network cidr mapped : keeps (add_network cidr mapped).
Proof.
  intros s r s' E. unfold add_network, config_add_proxy_cidr in E. destruct (add_proxy_cidr _ _ _) as [[|] c]; by injection E as _ <-.
Qed.

Lemma keeps_drop_connector u : keeps (drop_connector u).
Proof. intros s r s' E. unfold drop_connector in E. destruct (remove_connector _ _) as [[[|] ?]|]; by injection E as _ <-. Qed.

Lemma keeps_drop_connectors : keeps drop_connectors.
Proof. intros s r s' E. unfold drop_connectors in E. destruct (clear_connectors _); by injection E as _ <-. Qed.

#[local] Hint Resolve keeps_reload_acl keeps_add_network keeps_drop_connector keeps_drop_connectors : keeps.

Lemma keeps_networks l : keeps (each patch_proxy_network l).
Proof. induction l as [|p l IH]; cbn [each]; [apply keeps_ret|]. apply keeps_bind; [|by intros _]. unfold patch_proxy_network. keeps. Qed.

Lemma keeps_connectors l : keeps (patch_connectors l).
Proof. induction l as [|p l IH]; cbn [patch_connectors]; [apply keeps_ret|]. destruct (wp_value p); [|apply keeps_ret]. keeps. Qed.

#[local] Hint Resolve keeps_networks keeps_connectors port_forwards_keep exit_nodes_keep : keeps.

Lemma apply_patch_keeps p : keeps (apply_patch p).
Proof.
  unfold apply_patch. apply keeps_bind; [apply port_forwards_keep | intros _].
  apply keeps_bind; [unfold patch_acl, patch_whitelist; keeps | intros _].
  apply keeps_bind; [unfold patch_proxy_networks; keeps | intros _].
  apply keeps_bind; [unfold patch_routes; keeps | intros _].
  apply keeps_bind; [apply exit_nodes_keep | intros _].
  apply keeps_bind; [unfold patch_mapped_listeners; keeps | intros _].
  apply keeps_bind; [unfold patch_connector; keeps | intros _].
  unfold patch_hostname, patch_ipv4, patch_ipv6. keeps.
Qed.

(** ** Everything else that happens *)

(** The moves are [true], but for patches that are refused, which leave what they have done, and for stores of addresses that
    another thread has read before, which may be any. *)
Inductive inst_step : bool -> Instance' -> Instance' -> Prop :=
| st_socks l x acts s : not_reload l -> socks_step l (ri_socks s) = Done (Some (x, acts)) -> inst_step true s (with_socks x s)
| st_patch p s s' : apply_patch p s = (Ok (), s') -> inst_step true s s'
| st_refused p e s s' : apply_patch p s = (Err e, s') -> inst_step false s s'
| st_get_ipv4 s : inst_step true s (ctx_get_ipv4 s).2
| st_get_ipv6 s : inst_step true s (ctx_get_ipv6 s).2
| st_late_ipv4 addr s : inst_step false s (ctx_store_ipv4 addr s)
| st_late_ipv6 addr s : inst_step false s (with_cached_ipv6 addr s)
| st_set_ipv4 addr s : inst_step true s (ctx_set_ipv4 addr s)
| st_conns x s : inst_step true s (with_conns x s).

(** [true]: all moves so far were. *)
Inductive inst_reach (c : Config Json) : bool -> Instance' -> Prop :=
| reach_started s : instance_run (instance_new c) = (Ok (), s) -> inst_reach c true s
| reach_step calm b s s' : inst_reach c calm s -> inst_step b s s' -> inst_reach c (calm && b) s'.

Lemma runs_always s : runs_configured s -> always_configured s.
Proof. intros [H1' _ [_ H3'] _ _]. by split. Qed.

Lemma inst_step_ok b s s' : inst_step b s s' ->
  (always_configured s -> always_configured s') /\ (b = true -> runs_configured s -> runs_configured s').
Proof.
  intros Hs. destruct Hs as [l x acts s Hl E|p s s' E|p e s s' E|s|s|addr s|addr s|addr s|x s].
  - split; [|intros _]; intros Hr.
    + destruct Hr as [H1' H2']. split; [done|]. cbn. rewrite (socks_step_tokens _ _ _ _ Hl E). exact H2'.
    + destruct Hr as [H1' H2' H3' H4' H5']. split; try done. unfold forwards_run. cbn. rewrite (socks_step_tokens _ _ _ _ Hl E). exact H3'.
  - split; [by eapply apply_patch_keeps|]. intros _. destruct (apply_patch_Ok _ _ _ _ E) as (d & _ & _ & _ & _ & _ & _ & Hk). exact Hk.
  - split; [by eapply apply_patch_keeps | done].
  - unfold ctx_get_ipv4, ctx_load_ipv4. destruct (cached_ipv4 s) as [a|] eqn:Ea; [done|]. split; [by intros []|]. intros _ Hr. destruct Hr. by split.
  - unfold ctx_get_ipv6. destruct (cached_ipv6 s) as [a|] eqn:Ea; [done|]. split; [by intros []|]. intros _ Hr. destruct Hr. by split.
  - split; [by intros [] | done].
  - split; [by intros [] | done].
  - split; [by intros []|]. intros _ Hr. destruct Hr. by split.
  - split; [by intros []|]. intros _ Hr. destruct Hr. by split.
Qed.

Lemma inst_reach_ok c calm s : inst_reach c calm s -> always_configured s /\ (calm = true -> runs_configured s).
Proof.
  induction 1 as [s E|calm b s s' _ [IHa IHr] Hs].
  - apply instance_run_Ok in E. split; [by apply runs_always | done].
  - destruct (inst_step_ok _ _ _ Hs) as [Ha Hr]. split; [by apply Ha|]. intros [-> ->]%andb_true_iff. auto.
Qed.

(** C30.  What runs is what is configured.  From the start of an instance on, through patches that are accepted or refused, addresses
    that are read and set, and other threads' late stores into the address cache: the exit nodes in use are the configured ones, and no
    port forward runs that is not configured.  An accepted patch changes the configuration to the patched one and nothing else in it,
    and the peers to connect to are told in order what the patch says; if it has a section for the ACL, the filter's rules and default
    actions are those of the configured ACL with the whitelists, if it has one for forwards, every configured forward runs, and if it
    sets an address, the next read gives the configured one; what it has no section for stays as it was.  As long as no patch was refused and no
    read of an address was overtaken, all of these agree with the configuration after every patch. *)
Theorem patched_instance_runs c calm s p s' :
  inst_reach c calm s -> apply_patch p s = (Ok (), s') ->
  always_configured s /\ always_configured s' /\ (calm = true -> runs_configured s') /\
  exists d, decode (get_dhcp (ri_config s)) p = Done d /\ ri_config s' = patched_config p d (ri_config s) /\
    ri_hostname s' = default (ri_hostname s) (ip_hostname p) /\
    manual_run (connector_labels (ip_connectors p)) (ri_conns s) = Done (ri_conns s') /\ patch_done p d s s'.
Proof.
  intros Hreach E. destruct (inst_reach_ok _ _ _ Hreach) as [Ha Hr].
  destruct (apply_patch_Ok _ _ _ _ E) as (d & Hd & Hc & Hh & Hm & _ & Hp & Hk).
  split_and!; [done | by eapply apply_patch_keeps | by intros Ec; apply Hk, Hr |]. by exists d.
Qed.

(** ** What may surprise *)

(** While [get_ipv4] has read the old address and not yet stored it, [set_ipv4] clears the cache in vain: the old address is
    stored, and every later read gives it. *)
Lemma stale_ipv4 s a b : get_ipv4 (ri_config s) = Some a -> cached_ipv4 s = None ->
  let read := get_ipv4 (ri_config s) in
  let s' := ctx_store_ipv4 read (ctx_set_ipv4 b s) in
  ctx_get_ipv4 s' = (Some a, s') /\ ri_config s' = set_ipv4 b (ri_config s).
Proof. intros Ha _. cbn. by rewrite Ha. Qed.

(** A whitelist that cannot be read is put into the configuration before it is refused, and the rules in force stay the old ones. *)
Lemma bad_whitelist_kept s ports e : ctx_alive alive = true -> ports <> [] ->
  let p := {| ap_acl := None; ap_tcp_whitelist := (fun t => {| wp_action := 0; wp_value := t |}) <$> ports; ap_udp_whitelist := [] |} in
  AclRules.build (get_acl (ri_config s)) (get_tcp_whitelist (ri_config s) ++ ports) (get_udp_whitelist (ri_config s)) = Err e ->
  exists s', patch_acl (Some p) s = (Err (Failed (BadWhitelist e)), s') /\
    get_tcp_whitelist (ri_config s') = get_tcp_whitelist (ri_config s) ++ ports /\ ri_acl s' = ri_acl s.
Proof.
  intros Ha Hp p Eb.
  assert (Hconv : forall l (v : list text), convert_patches (fun t : text => Done (Some t)) ((fun t => {| wp_action := 0; wp_value := t |}) <$> l) =
    Done ((fun t => {| pt_action := Some PatchAdd; pt_value := Some t |}) <$> l) /\
    patch_vec v ((fun t => {| pt_action := Some PatchAdd; pt_value := Some t |}) <$> l) = v ++ l).
  { clear. induction l as [|t l IH]; intros v; csimpl; [by rewrite app_nil_r|]. destruct (IH (v ++ [t])) as [-> Hv]. split; [done|].
    unfold patch_vec in *. cbn [foldl fmap list_fmap]. unfold patch_one at 2. cbn [pt_action pt_value]. by rewrite Hv, <- app_assoc. }
  exists (with_config (set_tcp_whitelist (get_tcp_whitelist (ri_config s) ++ ports) (ri_config s)) s). split_and!; [|done|done].
  cbn [patch_acl]. unfold upgrade. rewrite Ha. unfold mbind, pm_bind, mret, pm_ret. cbn [ap_acl p]. unfold patch_whitelist at 1. cbn [ap_tcp_whitelist p].
  rewrite bool_decide_eq_false_2 by (rewrite length_fmap; by destruct ports). destruct (Hconv ports (get_tcp_whitelist (ri_config s))) as [Hc Hv].
  unfold mbind, pm_bind, reads, lift. rewrite Hc. unfold writes, modify. rewrite Hv. cbn [patch_whitelist ap_udp_whitelist p]. unfold patch_whitelist. cbn [bool_decide length].
  rewrite bool_decide_eq_true_2 by done. unfold mret, pm_ret, reload_acl.
  match goal with |- context [AclRules.build ?x ?y ?z] =>
    change (AclRules.build x y z) with (AclRules.build (get_acl (ri_config s)) (get_tcp_whitelist (ri_config s) ++ ports) (get_udp_whitelist (ri_config s))) end.
  by rewrite Eb.
Qed.
End instance.

(** ** The RPC portal *)

Section portal.
Context `{UrlOps}.
(** The cidr crate: networks, what they contain, and the two of the loopback interface. *)
Variable IpCidr : Type.
Variable cidr_contains : IpCidr -> IpAddr -> bool.
Variable loopback_v4 loopback_v6 : IpCidr.
(** [Url::host_str], which puts addresses of version 6 in brackets. *)
Variable host_str : Url -> option text.
Hypothesis host_str_v6 : forall u a, u_host u = Some (HostV6 a) -> host_str u = Some ([91] ++ print_ipv6 a ++ [93]).

Definition hook_new (whitelist : option (list IpCidr)) : list IpCidr := default [loopback_v4; loopback_v6] whitelist.

(** Whether the client is let in; [None] for a tunnel without information or remote address. *)
Definition on_new_client (whitelist : list IpCidr) (remote : option text) : bool :=
  match (t ← remote; u ← parse_url t; h ← host_str u; NetText.parse_ip h) with
  | Some ip => existsb (fun c => cidr_contains c ip) whitelist
  | None => false
  end.

(** Addresses of version 6 do not read with their brackets, so no client with one is let in, whatever the whitelist says. *)
Lemma no_ipv6_client whitelist t u a : parse_url t = Some u -> u_host u = Some (HostV6 a) -> on_new_client whitelist (Some t) = false.
Proof.
  intros Eu Eh. unfold on_new_client. cbn [mbind option_bind]. rewrite Eu. cbn [mbind option_bind]. rewrite (host_str_v6 _ _ Eh). reflexivity.
Qed.
End portal.

(** ** A concrete instance *)

#[local] Existing Instance no_cidr.
#[local] Existing Instance cidr4_lib.
#[local] Existing Instance cidr4_text.
#[local] Existing Instance toy_uuid.
#[local] Existing Instance form_wire.
#[local] Existing Instance form_urls.
#[local] Existing Instance form_hasher.
#[local] Existing Instance toy_urls.
#[local] Existing Instance no_tcp.
#[local] Instance cidr4_new : @CidrNew cidr4_lib := @Build_CidrNew cidr4_lib (fun a n => to_cidr4 (a, n)).

Definition ex_config : Config Json :=
  set_flags form_flags (mkConfig None None None None None None None None None None None None None None None None None None None None None None None None).

Definition all_alive : Alive := {| socks5_alive := true; ctx_alive := true; peer_manager_alive := true; conn_manager_alive := true |}.

Definition ex_started : Instance' := (instance_run (fun _ => true) (instance_new (txt "host") ex_config)).2.

Definition ex_forward : PortForwardConfigPb := {|
  pb_bind_addr := Some {| ps_ip := Some (V4 LOCALHOST); ps_port := 5000 |};
  pb_dst_addr := Some {| ps_ip := Some (V4 50); ps_port := 53 |}; pb_socket_type := 1 |}.

Definition ex_patch : InstanceConfigPatch := {|
  ip_hostname := Some (txt "node"); ip_ipv4 := Some {| pi_address := Some 167837955; pi_length := 24 |}; ip_ipv6 := None;
  ip_port_forwards := [{| wp_action := 0; wp_value := Some ex_forward |}];
  ip_acl := Some {| ap_acl := None; ap_tcp_whitelist := [{| wp_action := 0; wp_value := txt "80" |}]; ap_udp_whitelist := [] |};
  ip_proxy_networks := [{| pp_action := 0; pp_cidr := Some {| pi_address := Some 167772160; pi_length := 8 |}; pp_mapped_cidr := None |}];
  ip_routes := []; ip_exit_nodes := [{| wp_action := 0; wp_value := Some (Some (V4 5)) |}]; ip_mapped_listeners := [];
  ip_connectors := [{| wp_action := 0; wp_value := Some (txt "tcp://a:1") |}]
|}.

Lemma ex_reach : inst_reach (txt "host") (fun _ => true) all_alive ex_config true ex_started.
Proof.
  apply reach_started. unfold ex_started.
  assert (E : (instance_run (fun _ => true) (instance_new (txt "host") ex_config)).1 = Ok ()) by (vm_compute; reflexivity).
  destruct (instance_run (fun _ => true) (instance_new (txt "host") ex_config)) as [r s]. cbn in *. by rewrite E.
Qed.

Lemma patched_instance_runs_witness : exists s',
  apply_patch (fun _ => true) all_alive ex_patch ex_started = (Ok (), s') /\ runs_configured s' /\ ri_hostname s' = txt "node".
Proof.
  assert (E : (apply_patch (fun _ => true) all_alive ex_patch ex_started).1 = Ok ()) by (vm_compute; reflexivity).
  destruct (apply_patch (fun _ => true) all_alive ex_patch ex_started) as [r s'] eqn:Ea. cbn in E. subst r. exists s'.
  destruct (patched_instance_runs (txt "host") (fun _ => true) all_alive ex_config true ex_started ex_patch s' ex_reach Ea) as (_ & _ & Hr & d & _ & _ & Hh & _).
  split_and!; [done|exact (Hr eq_refl)|exact Hh].
Defined.

(** The proxies are started once: a network that is given access to later is announced, and not served. *)
Lemma patched_network_not_served :
  let s' := (apply_patch (fun _ => true) all_alive ex_patch ex_started).2 in
  (length (config_get_proxy_cidrs (ri_config s')), ri_ip_proxy s') = (1%nat, false).
Proof. vm_compute. reflexivity. Qed.

(** A patch without a URL ends the section without an error: what comes after it is not done. *)
Lemma missing_url_ends_section :
  let '(r, s') := patch_connector all_alive [{| wp_action := 0; wp_value := None |}; {| wp_action := 0; wp_value := Some (txt "tcp://a:1") |}] ex_started in
  (r, bool_decide (connectors (ri_conns s') = ∅)) = (Ok (), true).
Proof. vm_compute. reflexivity. Qed.

(** The hostname that is used is the one of the patch; the configuration cuts it and takes control characters out when it is read. *)
Lemma hostname_not_cleaned :
  let s' := (patch_hostname (Some (txt "a" ++ [10])) ex_started).2 in
  (ri_hostname s', (get_hostname (txt "host") (ri_config s')).1) = (txt "a" ++ [10], txt "a").
Proof. vm_compute. reflexivity. Qed.

(** A length above 32 panics, after the sections before it have been carried out. *)
Lemma bad_length_panics :
  let p := {| ip_hostname := Some (txt "node"); ip_ipv4 := Some {| pi_address := Some 5; pi_length := 33 |}; ip_ipv6 := None; ip_port_forwards := [];
    ip_acl := None; ip_proxy_networks := []; ip_routes := []; ip_exit_nodes := []; ip_mapped_listeners := []; ip_connectors := [] |} in
  let '(r, s') := apply_patch (fun _ => true) all_alive p ex_started in (r, ri_hostname s') = (Err (Panics UnwrapOnNone), txt "node").
Proof. vm_compute. reflexivity. Qed.
