(* ===== verification/CoreOptions.v ===== *)
(** * The options of the command line

    [NetworkOptions] of [easytier-core.rs]: when options given on the command line
    apply to a configuration that was read from a file, and what they change in it.
    The text of the options is parsed by the functions of [NetText] and [Config];
    reading the command line itself is left to clap. *)

From stdpp Require Import base numbers list gmap strings.
From Stdlib Require Import ZifyBool.
From S2P Require Import Prelude Text AclRules PeerConn CidrSet NetText Stun DirectConnect Config NetworkConfig.
Open Scope Z_scope.

(** ** Data *)

Definition PROTO_PORT_OFFSET : list (text * Z) :=
  [(txt "tcp", 0); (txt "udp", 0); (txt "wg", 1); (txt "ws", 1); (txt "wss", 2)].

(** The parts of a URL that are read here. *)
Class UrlParts := {
  host_str : Url -> option text;
  url_path : Url -> text;
  path_segments : Url -> option (list text)
}.

Record NetworkOptions := {
  no_network_name : option text; no_network_secret : option text; no_ipv4 : option text; no_ipv6 : option text;
  no_dhcp : option bool; no_peers : list text; no_external_node : option text; no_proxy_networks : list text;
  no_listeners : list text; no_mapped_listeners : list text; no_no_listener : bool; no_hostname : option text;
  no_instance_name : option text; no_vpn_portal : option text; no_default_protocol : option text;
  no_disable_encryption : option bool; no_encryption_algorithm : option text; no_multi_thread : option bool;
  no_multi_thread_count : option Z; no_disable_ipv6 : option bool; no_dev_name : option text; no_mtu : option Z;
  no_latency_first : option bool; no_exit_nodes : list IpAddr; no_enable_exit_node : option bool;
  no_proxy_forward_by_system : option bool; no_no_tun : option bool; no_use_smoltcp : option bool;
  no_manual_routes : option (list text); no_relay_network_whitelist : option (list text);
  no_disable_p2p : option bool; no_disable_udp_hole_punching : option bool;
  no_disable_sym_hole_punching : option bool; no_relay_all_peer_rpc : option bool; no_socks5 : option Z;
  no_compression : option text; no_bind_device : option bool; no_enable_kcp_proxy : option bool;
  no_disable_kcp_input : option bool; no_enable_quic_proxy : option bool; no_disable_quic_input : option bool;
  no_quic_listen_port : option Z; no_port_forward : list Url; no_accept_dns : option bool;
  no_tld_dns_zone : option text; no_private_mode : option bool; no_foreign_relay_bps_limit : option Z;
  no_tcp_whitelist : list text; no_udp_whitelist : list text; no_disable_relay_kcp : option bool;
  no_enable_relay_foreign_network_kcp : option bool; no_stun_servers : option (list text);
  no_stun_servers_v6 : option (list text) }.
#[global] Instance network_options_eq_dec : EqDecision NetworkOptions.
Proof. solve_decision. Defined.

Definition default_options : NetworkOptions := {|
  no_network_name := None; no_network_secret := None; no_ipv4 := None; no_ipv6 := None;
  no_dhcp := None; no_peers := []; no_external_node := None; no_proxy_networks := [];
  no_listeners := []; no_mapped_listeners := []; no_no_listener := false; no_hostname := None;
  no_instance_name := None; no_vpn_portal := None; no_default_protocol := None;
  no_disable_encryption := None; no_encryption_algorithm := None; no_multi_thread := None;
  no_multi_thread_count := None; no_disable_ipv6 := None; no_dev_name := None; no_mtu := None;
  no_latency_first := None; no_exit_nodes := []; no_enable_exit_node := None;
  no_proxy_forward_by_system := None; no_no_tun := None; no_use_smoltcp := None;
  no_manual_routes := None; no_relay_network_whitelist := None;
  no_disable_p2p := None; no_disable_udp_hole_punching := None;
  no_disable_sym_hole_punching := None; no_relay_all_peer_rpc := None; no_socks5 := None;
  no_compression := None; no_bind_device := None; no_enable_kcp_proxy := None;
  no_disable_kcp_input := None; no_enable_quic_proxy := None; no_disable_quic_input := None;
  no_quic_listen_port := None; no_port_forward := []; no_accept_dns := None;
  no_tld_dns_zone := None; no_private_mode := None; no_foreign_relay_bps_limit := None;
  no_tcp_whitelist := []; no_udp_whitelist := []; no_disable_relay_kcp := None;
  no_enable_relay_foreign_network_kcp := None; no_stun_servers := None; no_stun_servers_v6 := None |}.

Inductive options_error :=
  | UnknownProtocol | BadIpv4Option | BadIpv6Option | BadPeerUri | MappedPortMissing | BadProxyOption (e : config_error)
  | BadExternalNode | BadVpnUrl | VpnHostMissing | VpnPortMissing | BadVpnClients | BadManualRoute.

(** ** Taking results apart *)

Lemma try_Ok {E A B} (r : result E A) (k : A -> outcome (result E B)) b :
  try r k = Done (Ok b) -> exists a, r = Ok a /\ k a = Done (Ok b).
Proof. destruct r; [by eexists|done]. Qed.

(** Taking a merge apart into the configurations in between. *)
Ltac inv_merge :=
  repeat match goal with
  | H : try _ _ = Done (Ok _) |- _ => apply try_Ok in H as (? & ? & H)
  | H : mbind _ _ = Done _ |- _ => apply bind_Done in H as (? & ? & H)
  | H : Done (Ok _) = Done (Ok _) |- _ => injection H as H
  | H : Ok _ = Ok _ |- _ => injection H as H
  | H : Done (Err _) = _ |- _ => discriminate H
  | H : context [match ?x with _ => _ end] |- _ => destruct x eqn:?; try discriminate H
  end; simplify_eq.

(** For parts of a merge that set other fields. *)
Ltac core := intros; inv_merge; by repeat split.

Section options.
Context `{Hasher64} `{Hc : Ipv4CidrLib} `{Hu : UuidLib} `{Hw : !ConfigWire} `{!CidrText} `{!UrlOps} `{!UrlParts}.
Implicit Types (c : Config Json) (o : NetworkOptions).

(** ** Listeners *)

Definition listener_text (proto : text) (port : Z) : text := proto ++ txt "://0.0.0.0:" ++ print_u16 port.

(** One listener: a URL, a protocol with a port, or a protocol alone. *)
Definition parse_listener (l : text) : outcome (result options_error text) :=
  match split 58 l with
  | _ :: _ :: _ :: _ => match parse_url l with Some u => Done (Ok (u_text u)) | None => Panicked ExplicitPanic end
  | proto_port =>
      let proto := default [] (head proto_port) in
      match list_find (fun pr => pr.1 = proto) PROTO_PORT_OFFSET with
      | None => Done (Err UnknownProtocol)
      | Some (_, (proto, offset)) =>
          port ← match proto_port with [_; p] => unwrap (parse_u16 p) | _ => Done (11010 + offset) end;
          Done (Ok (listener_text proto port))
      end
  end.

Fixpoint parse_each_listener (ls : list text) : outcome (result options_error (list text)) :=
  match ls with
  | [] => Done (Ok [])
  | l :: ls =>
      r ← parse_listener l;
      try r (fun t => r ← parse_each_listener ls; try r (fun ts => Done (Ok (t :: ts))))
  end.

Definition parse_listeners (no_listener : bool) (listeners : list text) : outcome (result options_error (list text)) :=
  if no_listener || bool_decide (listeners = []) then Done (Ok [])
  else
    match (match listeners with [l] => parse_u16 l | _ => None end) with
    | Some port => Done (Ok ((fun '(proto, offset) => listener_text proto (wrap 16 (port + offset))) <$> PROTO_PORT_OFFSET))
    | None => parse_each_listener listeners
    end.

(** [parse().unwrap()] of each. *)
Fixpoint unwrap_urls (ts : list text) : outcome (list Url) :=
  match ts with
  | [] => Done []
  | t :: ts => u ← unwrap (parse_url t); us ← unwrap_urls ts; Done (u :: us)
  end.

(** ** Merging *)

Definition can_merge o (config_file_count : Z) c : outcome bool :=
  if bool_decide (o = default_options) then Done false
  else if config_file_count =? 1 then Done true
  else
    match no_network_name o with
    | None => Done false
    | Some name => i ← get_network_identity c; Done (bool_decide (network_name i = name))
    end.

Definition merge_identity o c : outcome (Config Json) :=
  let c := match no_hostname o with Some h => set_hostname (Some h) c | None => c end in
  old_ns ← get_network_identity c;
  i ← network_identity_new (default (network_name old_ns) (no_network_name o))
                           (default (default [] (network_secret old_ns)) (no_network_secret o));
  let c := set_network_identity i c in
  Done (match no_dhcp o with Some b => set_dhcp b c | None => c end).

Definition merge_addresses o c : result options_error (Config Json) :=
  match (match no_ipv4 o with
         | Some t => match inet_parse t with Some a => Ok (set_ipv4 (Some a) c) | None => Err BadIpv4Option end
         | None => Ok c
         end) with
  | Err e => Err e
  | Ok c =>
      match no_ipv6 o with
      | Some t => match inet6_parse t with Some a => Ok (set_ipv6 (Some a) c) | None => Err BadIpv6Option end
      | None => Ok c
      end
  end.

Fixpoint parse_uris (e : options_error) (ts : list text) : result options_error (list Url) :=
  match ts with
  | [] => Ok []
  | t :: ts =>
      match parse_url t with
      | None => Err e
      | Some u => match parse_uris e ts with Ok us => Ok (u :: us) | Err e => Err e end
      end
  end.

Definition merge_peers o c : result options_error (Config Json) :=
  match no_peers o with
  | [] => Ok c
  | ts => match parse_uris BadPeerUri ts with Ok us => Ok (set_peers (get_peers c ++ us) c) | Err e => Err e end
  end.

Definition merge_listeners o c : outcome (result options_error (Config Json)) :=
  let put no_listener ts :=
    r ← parse_listeners no_listener ts;
    try r (fun ts => us ← unwrap_urls ts; Done (Ok (set_listeners us c))) in
  if no_no_listener o || negb (bool_decide (no_listeners o = [])) then put (no_no_listener o) (no_listeners o)
  else match get_listeners c with None => put false [txt "11010"] | Some _ => Done (Ok c) end.

Definition merge_mapped o c : outcome (result options_error (Config Json)) :=
  match no_mapped_listeners o with
  | [] => Done (Ok c)
  | ts =>
      us ← unwrap_urls ts;
      if existsb (fun u => bool_decide (u_port u = None)) us then Done (Err MappedPortMissing)
      else Done (Ok (set_mapped_listeners (Some us) c))
  end.

Fixpoint merge_proxies (ns : list text) c : result options_error (Config Json) :=
  match ns with
  | [] => Ok c
  | n :: ns => match add_proxy_network_to_config n c with Ok c => merge_proxies ns c | Err e => Err (BadProxyOption e) end
  end.

Definition merge_external o c : result options_error (Config Json) :=
  match no_external_node o with
  | Some t => match parse_url t with Some u => Ok (set_peers (get_peers c ++ [u]) c) | None => Err BadExternalNode end
  | None => Ok c
  end.

Definition merge_vpn_portal o c : outcome (result options_error (Config Json)) :=
  match no_vpn_portal o with
  | None => Done (Ok c)
  | Some t =>
      match parse_url t with
      | None => Done (Err BadVpnUrl)
      | Some url =>
          match host_str url, u_port url with
          | None, _ => Done (Err VpnHostMissing)
          | _, None => Done (Err VpnPortMissing)
          | Some host, Some port =>
              match url_path url with
              | [] => Panicked IndexOutOfRange
              | _ :: path =>
                  match cidr_parse path with
                  | None => Done (Err BadVpnClients)
                  | Some cidr =>
                      a ← unwrap (parse_socket_addr (host ++ [58] ++ print_u16 port));
                      Done (Ok (set_vpn_portal_config {| client_cidr := cidr; wireguard_listen := a |} c))
                  end
              end
          end
      end
  end.

Fixpoint parse_manual_routes (ts : list text) : result options_error (list Ipv4Cidr) :=
  match ts with
  | [] => Ok []
  | t :: ts =>
      match cidr_parse t with
      | None => Err BadManualRoute
      | Some r => match parse_manual_routes ts with Ok rs => Ok (r :: rs) | Err e => Err e end
      end
  end.

Definition merge_routes o c : result options_error (Config Json) :=
  match no_manual_routes o with
  | None => Ok c
  | Some ts => match parse_manual_routes ts with Ok rs => Ok (set_routes (Some rs) c) | Err e => Err e end
  end.

Definition merge_socks5 o c : outcome (Config Json) :=
  match no_socks5 o with
  | None => Done c
  | Some port => u ← unwrap (parse_url (txt "socks5://0.0.0.0:" ++ print_u16 port)); Done (set_socks5_portal (Some u) c)
  end.

(** [unwrap_or_else(|| panic!(..))]. *)
Definition or_panic {A} (x : option A) : outcome A := match x with Some a => Done a | None => Panicked ExplicitPanic end.

(** The forward a URL such as [udp://0.0.0.0:12345/10.126.126.1:12345] stands for. *)
Definition forward_of_url (u : Url) : outcome PortForwardConfig :=
  host ← unwrap (host_str u);
  port ← unwrap (u_port u);
  b ← or_panic (parse_socket_addr (host ++ [58] ++ print_u16 port));
  d ← or_panic ((path_segments u ≫= head) ≫= parse_socket_addr);
  Done {| bind_addr := b; dst_addr := d; pf_proto := u_scheme u |}.

Fixpoint merge_forwards (us : list Url) c : outcome (Config Json) :=
  match us with
  | [] => Done c
  | u :: us => f ← forward_of_url u; merge_forwards us (set_port_forwards (get_port_forwards c ++ [f]) c)
  end.

Definition compression_of (t : text) : outcome Z :=
  if bool_decide (t = txt "none") then Done 1 else if bool_decide (t = txt "zstd") then Done 2 else Panicked ExplicitPanic.

(** [cfg!(not(feature = "tun"))] is false in the default build. *)
Definition merge_flags o (f : Flags) : outcome Flags :=
  algo ← match no_compression o with Some t => compression_of t | None => Done (fl_data_compress_algo f) end;
  Done {|
    fl_default_protocol := default (fl_default_protocol f) (no_default_protocol o);
    fl_dev_name := default (fl_dev_name f) (no_dev_name o);
    fl_enable_encryption := match no_disable_encryption o with Some v => negb v | None => fl_enable_encryption f end;
    fl_enable_ipv6 := match no_disable_ipv6 o with Some v => negb v | None => fl_enable_ipv6 f end;
    fl_mtu := default (fl_mtu f) (no_mtu o);
    fl_latency_first := default (fl_latency_first f) (no_latency_first o);
    fl_enable_exit_node := default (fl_enable_exit_node f) (no_enable_exit_node o);
    fl_no_tun := default (fl_no_tun f) (no_no_tun o);
    fl_use_smoltcp := default (fl_use_smoltcp f) (no_use_smoltcp o);
    fl_relay_network_whitelist := match no_relay_network_whitelist o with Some wl => join [32] wl | None => fl_relay_network_whitelist f end;
    fl_disable_p2p := default (fl_disable_p2p f) (no_disable_p2p o);
    fl_relay_all_peer_rpc := default (fl_relay_all_peer_rpc f) (no_relay_all_peer_rpc o);
    fl_disable_udp_hole_punching := default (fl_disable_udp_hole_punching f) (no_disable_udp_hole_punching o);
    fl_multi_thread := default (fl_multi_thread f) (no_multi_thread o);
    fl_data_compress_algo := algo;
    fl_bind_device := default (fl_bind_device f) (no_bind_device o);
    fl_enable_kcp_proxy := default (fl_enable_kcp_proxy f) (no_enable_kcp_proxy o);
    fl_disable_kcp_input := default (fl_disable_kcp_input f) (no_disable_kcp_input o);
    fl_disable_relay_kcp := default (fl_disable_relay_kcp f) (no_disable_relay_kcp o);
    fl_proxy_forward_by_system := default (fl_proxy_forward_by_system f) (no_proxy_forward_by_system o);
    fl_accept_dns := default (fl_accept_dns f) (no_accept_dns o);
    fl_private_mode := default (fl_private_mode f) (no_private_mode o);
    fl_enable_quic_proxy := default (fl_enable_quic_proxy f) (no_enable_quic_proxy o);
    fl_disable_quic_input := default (fl_disable_quic_input f) (no_disable_quic_input o);
    fl_quic_listen_port := default (fl_quic_listen_port f) (no_quic_listen_port o);
    fl_foreign_relay_bps_limit := default (fl_foreign_relay_bps_limit f) (no_foreign_relay_bps_limit o);
    fl_multi_thread_count := default (fl_multi_thread_count f) (no_multi_thread_count o);
    fl_enable_relay_foreign_network_kcp := default (fl_enable_relay_foreign_network_kcp f) (no_enable_relay_foreign_network_kcp o);
    fl_encryption_algorithm := default (fl_encryption_algorithm f) (no_encryption_algorithm o);
    fl_disable_sym_hole_punching := default false (no_disable_sym_hole_punching o);
    fl_tld_dns_zone := default (fl_tld_dns_zone f) (no_tld_dns_zone o) |}.

Definition merge_lists o c : Config Json :=
  let c := match no_exit_nodes o with [] => c | l => set_exit_nodes l c end in
  let c := set_tcp_whitelist (get_tcp_whitelist c ++ no_tcp_whitelist o) c in
  let c := set_udp_whitelist (get_udp_whitelist c ++ no_udp_whitelist o) c in
  let c := match no_stun_servers o with
           | Some l => set_config_stun_servers (Some (default [] (get_stun_servers c) ++ l)) c
           | None => c
           end in
  match no_stun_servers_v6 o with
  | Some l => set_config_stun_servers_v6 (Some (default [] (get_stun_servers_v6 c) ++ l)) c
  | None => c
  end.

Definition merge_rest o c : outcome (result options_error (Config Json)) :=
  try (merge_addresses o c) (fun c => try (merge_peers o c) (fun c =>
  r ← merge_listeners o c; try r (fun c =>
  r ← merge_mapped o c; try r (fun c =>
  try (merge_proxies (no_proxy_networks o) c) (fun c => try (merge_external o c) (fun c =>
  let c := match no_instance_name o with Some n => set_inst_name n c | None => c end in
  r ← merge_vpn_portal o c; try r (fun c =>
  try (merge_routes o c) (fun c =>
  c ← merge_socks5 o c;
  c ← merge_forwards (no_port_forward o) c;
  f ← merge_flags o (get_flags c);
  Done (Ok (merge_lists o (set_flags f c))))))))))).

(** When it fails the configuration is given up by the caller. *)
Definition merge_into o c : outcome (result options_error (Config Json)) := c ← merge_identity o c; merge_rest o c.

(** ** What is kept *)

(** The parts of a configuration no option changes. *)
Definition untouched c c' : Prop :=
  cf_instance_id c' = cf_instance_id c /\ cf_netns c' = cf_netns c /\ cf_acl c' = cf_acl c.

(** Identity and flags of a configuration, and what no option changes. *)
Definition same_core c c' : Prop :=
  untouched c c' /\ cf_network_identity c' = cf_network_identity c /\ cf_flags_struct c' = cf_flags_struct c.

Lemma same_core_refl c : same_core c c.
Proof. by repeat split. Qed.

Lemma same_core_trans c1 c2 c3 : same_core c1 c2 -> same_core c2 c3 -> same_core c1 c3.
Proof. unfold same_core, untouched. intuition congruence. Qed.

Lemma add_proxy_core n c c' : add_proxy_network_to_config n c = Ok c' -> same_core c c'.
Proof.
  unfold add_proxy_network_to_config, config_add_proxy_cidr. intros E.
  repeat match goal with H : context [match ?x with _ => _ end] |- _ => destruct x eqn:?; try discriminate end; simplify_eq; by repeat split.
Qed.

Lemma merge_proxies_core ns c c' : merge_proxies ns c = Ok c' -> same_core c c'.
Proof.
  revert c; induction ns as [|n ns IH]; intros c E; simpl in E; [simplify_eq; apply same_core_refl|].
  destruct (add_proxy_network_to_config n c) as [c1|] eqn:E1; [|done]. eapply same_core_trans; [by eapply add_proxy_core|by apply IH].
Qed.

Lemma merge_forwards_core us c c' : merge_forwards us c = Done c' -> same_core c c'.
Proof.
  revert c; induction us as [|u us IH]; intros c E; simpl in E; [simplify_eq; apply same_core_refl|].
  apply bind_Done in E as (f & _ & E). eapply same_core_trans; [|by apply IH]. by repeat split.
Qed.
Lemma merge_lists_core o c : same_core c (merge_lists o c).
Proof. unfold merge_lists. destruct (no_exit_nodes o), (no_stun_servers o), (no_stun_servers_v6 o); by repeat split. Qed.

Lemma merge_addresses_core o c c' : merge_addresses o c = Ok c' -> same_core c c'.
Proof. unfold merge_addresses. core. Qed.
Lemma merge_peers_core o c c' : merge_peers o c = Ok c' -> same_core c c'.
Proof. unfold merge_peers. core. Qed.
Lemma merge_listeners_core o c c' : merge_listeners o c = Done (Ok c') -> same_core c c'.
Proof. unfold merge_listeners. core. Qed.
Lemma merge_mapped_core o c c' : merge_mapped o c = Done (Ok c') -> same_core c c'.
Proof. unfold merge_mapped. core. Qed.
Lemma merge_external_core o c c' : merge_external o c = Ok c' -> same_core c c'.
Proof. unfold merge_external. core. Qed.
Lemma merge_vpn_portal_core o c c' : merge_vpn_portal o c = Done (Ok c') -> same_core c c'.
Proof. unfold merge_vpn_portal. core. Qed.
Lemma merge_routes_core o c c' : merge_routes o c = Ok c' -> same_core c c'.
Proof. unfold merge_routes. core. Qed.
Lemma merge_socks5_core o c c' : merge_socks5 o c = Done c' -> same_core c c'.
Proof. unfold merge_socks5. intros. inv_merge; inv_outcome; by repeat split. Qed.
Lemma set_inst_name_core n c : same_core c (match n with Some n => set_inst_name n c | None => c end).
Proof. by destruct n. Qed.

Lemma merge_rest_core o c0 c' : merge_rest o c0 = Done (Ok c') ->
  exists c1 f, same_core c0 c1 /\ merge_flags o (get_flags c1) = Done f /\ c' = merge_lists o (set_flags f c1).
Proof.
  unfold merge_rest. intros E. apply try_Ok in E as (a & Ea%merge_addresses_core & E). apply try_Ok in E as (b & Eb%merge_peers_core & E).
  apply bind_Done in E as (r & Er & E). apply try_Ok in E as (d & -> & E). apply merge_listeners_core in Er.
  apply bind_Done in E as (r & Er' & E). apply try_Ok in E as (e & -> & E). apply merge_mapped_core in Er'.
  apply try_Ok in E as (g & Eg%merge_proxies_core & E). apply try_Ok in E as (h & Eh%merge_external_core & E).
  pose proof (set_inst_name_core (no_instance_name o) h) as Hi. set (j := match no_instance_name o with Some _ => _ | None => _ end) in *.
  apply bind_Done in E as (r & Er'' & E). apply try_Ok in E as (k & -> & E). apply merge_vpn_portal_core in Er''.
  apply try_Ok in E as (l & El%merge_routes_core & E). apply bind_Done in E as (m & Em%merge_socks5_core & E).
  apply bind_Done in E as (n & En%merge_forwards_core & E). apply bind_Done in E as (f & Ef & E). injection E as <-.
  exists n, f. split; [|done]. eauto 20 using same_core_trans.
Qed.

(** Merging keeps the instance's id, its ACL and its network namespace.  The network
    is the one the options name, or else the one of the file, with a digest made from
    its name and secret; the flags are those of the file with those of the options. *)
Lemma merge_into_core o c c' : loader_ok c -> merge_into o c = Done (Ok c') ->
  untouched c c' /\ loader_ok c' /\ merge_flags o (get_flags c) = Done (get_flags c') /\
  exists i i', get_network_identity c = Done i /\ get_network_identity c' = Done i' /\
    network_identity_new (default (network_name i) (no_network_name o)) (default (default [] (network_secret i)) (no_network_secret o)) = Done i'.
Proof.
  intros Hok E. unfold merge_into in E. apply bind_Done in E as (c0 & E0 & E).
  assert (exists i i', get_network_identity c = Done i /\ cf_network_identity c0 = Some i' /\ untouched c c0 /\ cf_flags_struct c0 = cf_flags_struct c /\
    network_identity_new (default (network_name i) (no_network_name o)) (default (default [] (network_secret i)) (no_network_secret o)) = Done i')
    as (i & i' & Ei & Ei' & Hu0 & Hf & Hn).
  { unfold merge_identity in E0. apply bind_Done in E0 as (i & Ei & E0). apply bind_Done in E0 as (i' & Ei' & E0). injection E0 as <-.
    assert (get_network_identity c = Done i) as Hi by (rewrite <- Ei; by destruct (no_hostname o)).
    exists i, i'. destruct (no_hostname o), (no_dhcp o); by repeat split. }
  apply merge_rest_core in E as (c1 & f & ((Hid & Hns & Hacl) & Hi1 & Hf1) & Ef & ->).
  destruct (merge_lists_core o (set_flags f c1)) as ((Hid2 & Hns2 & Hacl2) & Hi2 & Hf2). destruct Hu0 as (Hid0 & Hns0 & Hacl0).
  cbn in Hid2, Hns2, Hacl2, Hi2, Hf2. rewrite Hi1, Ei' in Hi2. destruct Hok as [[f0 Hf0] _]. split_and!.
  - unfold untouched. split_and!; congruence.
  - split; [by eexists|]. by eexists _, _, i'.
  - unfold get_flags in *. rewrite Hf2. cbn. rewrite Hf1, Hf, Hf0 in Ef. by rewrite Hf0.
  - exists i, i'. split_and!; [done| |done]. unfold get_network_identity. by rewrite Hi2.
Qed.
End options.

(** ** What surprises *)

(** Any option turns the punching of holes between symmetric NATs on again that the
    file turns off. *)
Lemma sym_punching_reset o f f' : no_disable_sym_hole_punching o = None -> merge_flags o f = Done f' ->
  fl_disable_sym_hole_punching f' = false.
Proof. unfold merge_flags. intros Ho E. apply bind_Done in E as (algo & _ & [= <-]). cbn. by rewrite Ho. Qed.

(** One port stands for five listeners; a port near the end wraps around. *)
Example listeners_of_port `{!UrlOps} : parse_listeners false [txt "11010"] =
  Done (Ok [txt "tcp://0.0.0.0:11010"; txt "udp://0.0.0.0:11010"; txt "wg://0.0.0.0:11011"; txt "ws://0.0.0.0:11011"; txt "wss://0.0.0.0:11012"]).
Proof. reflexivity. Qed.

Example listener_port_wraps `{!UrlOps} : parse_listeners false [txt "65535"] =
  Done (Ok [txt "tcp://0.0.0.0:65535"; txt "udp://0.0.0.0:65535"; txt "wg://0.0.0.0:0"; txt "ws://0.0.0.0:0"; txt "wss://0.0.0.0:1"]).
Proof. reflexivity. Qed.

Example listener_alone `{!UrlOps} : parse_listeners false [txt "wg"; txt "tcp:1"] = Done (Ok [txt "wg://0.0.0.0:11011"; txt "tcp://0.0.0.0:1"]).
Proof. reflexivity. Qed.

(** A port that is none panics instead of an error. *)
Example listener_bad_port_panics `{!UrlOps} : parse_listeners false [txt "tcp:x"; txt "udp"] = Panicked UnwrapOnNone.
Proof. reflexivity. Qed.
