(* ===== verification/InstanceManager.v ===== *)
(** * The instances of a process

    [instance_manager.rs], the launcher of an instance in [launcher.rs], the file
    an instance is kept in ([ConfigFileControl] and [load_config_from_file] of
    [common/config.rs]), the RPC service by which front ends run and delete
    instances ([rpc_service/instance_manage.rs]), and [run_main] of
    [easytier-core.rs], which starts the instances of the configuration files.

    An instance runs in a thread of its own; what happens there is a step: it becomes
    ready, reports an event, or ends.  What the operating system answers when a file is written
    or removed is an input.  A launcher that is dropped stops its thread and waits for it, so
    that an instance that is removed has ended. *)

From stdpp Require Import base numbers list gmap strings.
From Stdlib Require Import ZifyBool.
From S2P Require Import Prelude Text AclRules PeerConn CidrSet NetText Stun DirectConnect Config NetworkConfig CoreOptions.
Open Scope Z_scope.

(** ** Paths and files *)

(** A path, as the directory it is in (with no trailing separator) and a name. *)
Record Path := { pa_dir : text; pa_name : text }.
#[global] Instance path_eq_dec : EqDecision Path.
Proof. solve_decision. Defined.
#[global] Instance path_countable : Countable Path.
Proof. refine (inj_countable' (fun p => (pa_dir p, pa_name p)) (fun x => {| pa_dir := x.1; pa_name := x.2 |}) _). by intros []. Defined.

(** [rsplitn(2, '.')]: what is before and after the last dot. *)
Fixpoint rsplit_dot (l : text) : option (text * text) :=
  match l with
  | [] => None
  | x :: l =>
      match rsplit_dot l with
      | Some (before, after) => Some (x :: before, after)
      | None => if x =? 46 then Some ([], l) else None
      end
  end.

(** [rsplit_file_at_dot] of the standard library, by which [file_stem] and
    [extension] split a name. *)
Definition rsplit_file_at_dot (name : text) : option text * option text :=
  if bool_decide (name = txt "..") then (Some name, None)
  else
    match rsplit_dot name with
    | None => (None, Some name)
    | Some (before, after) => if bool_decide (before = []) then (Some name, None) else (Some before, Some after)
    end.

Definition file_stem (p : Path) : option text :=
  let '(before, after) := rsplit_file_at_dot (pa_name p) in match before with Some b => Some b | None => after end.
Definition extension (p : Path) : option text :=
  let '(before, after) := rsplit_file_at_dot (pa_name p) in match before with Some _ => after | None => None end.

(** A file: its text, none when it cannot be read, and whether it is read-only. *)
Record File := { fi_text : option text; fi_readonly : bool }.
Abbreviation Disk := (gmap Path File).

(** [std::fs::write]: the file is written, cannot be opened, or is left with part of
    the text. *)
Inductive WriteAnswer := Written | NotOpened | LeftWith (t : text).

Definition put_text (t : text) (p : Path) (d : Disk) : Disk :=
  <[p := {| fi_text := Some t; fi_readonly := from_option fi_readonly false (d !! p) |}]> d.

Definition fs_write (a : WriteAnswer) (p : Path) (t : text) (d : Disk) : bool * Disk :=
  match a with
  | Written => (true, put_text t p d)
  | NotOpened => (false, d)
  | LeftWith t' => (false, put_text t' p d)
  end.

(** ** Permissions *)

Definition READ_ONLY : Z := Z.shiftl 1 0.
Definition NO_DELETE : Z := Z.shiftl 1 1.

Definition with_flag (p flag : Z) : Z := Z.lor p flag.
Definition remove_flag (p flag : Z) : Z := Z.land p (Z.lxor flag 255).
Definition has_flag (p flag : Z) : bool := negb (Z.land p flag =? 0).

Record ConfigFileControl := { cc_path : option Path; cc_permission : Z }.

Definition STATIC_CONFIG : ConfigFileControl := {| cc_path := None; cc_permission := Z.lor READ_ONLY NO_DELETE |}.
Definition control_new (path : option Path) (permission : Z) : ConfigFileControl := {| cc_path := path; cc_permission := permission |}.

Definition from_path (d : Disk) (path : Path) : ConfigFileControl :=
  let read_only := match d !! path with Some f => fi_readonly f | None => true end in
  control_new (Some path) (if read_only then READ_ONLY else 0).

Definition is_read_only (c : ConfigFileControl) : bool := has_flag (cc_permission c) READ_ONLY.
Definition set_read_only (b : bool) (c : ConfigFileControl) : ConfigFileControl :=
  control_new (cc_path c) (if b then with_flag (cc_permission c) READ_ONLY else remove_flag (cc_permission c) READ_ONLY).
Definition is_no_delete (c : ConfigFileControl) : bool := has_flag (cc_permission c) NO_DELETE.
Definition set_no_delete (b : bool) (c : ConfigFileControl) : ConfigFileControl :=
  control_new (cc_path c) (if b then with_flag (cc_permission c) NO_DELETE else remove_flag (cc_permission c) NO_DELETE).
Definition is_deletable (c : ConfigFileControl) : bool := negb (is_no_delete c).

Inductive manage_error :=
  | CannotRead | BadConfigText | NoRuntime | InstanceNotFound | InstanceExists | ConfigRequired | BadForm (e : config_error)
  | InstanceReadOnly | FileReadOnly | InstanceIdRequired | ServiceNotFound | InstanceGone | NoMatch | ManyMatch | NotADirectory | BadOptions (e : options_error).

Section manager.
Context `{Hasher64} `{Hc : Ipv4CidrLib} `{Hu : UuidLib} `{!Countable Uuid} `{Hw : !ConfigWire} `{!CidrText} `{!UrlOps} `{!UrlParts}
  (sys_hostname : text) {Event : Type}.

(** ** The launcher of an instance *)

(** Whether its thread runs, the error it ended with, whether its services can be
    asked, the last events, and the descriptor of its interface. *)
Record EasyTierLauncher := {
  la_alive : bool; la_error_msg : option text; la_api_service : bool; la_running_cfg : text;
  la_events : list (Z * Event); la_tun_fd : option Z }.

Definition launcher_new : EasyTierLauncher := {|
  la_alive := false; la_error_msg := None; la_api_service := false; la_running_cfg := []; la_events := []; la_tun_fd := None |}.

Record NetworkInstance := { ni_config : Config Json; ni_launcher : option EasyTierLauncher; ni_control : ConfigFileControl }.

Definition instance_new (cfg : Config Json) (control : ConfigFileControl) : NetworkInstance :=
  {| ni_config := cfg; ni_launcher := None; ni_control := control |}.

(** [start]; the generator always gives the configuration. *)
Definition launcher_start (cfg : Config Json) (l : EasyTierLauncher) : outcome EasyTierLauncher :=
  t ← dump cfg;
  Done {| la_alive := true; la_error_msg := la_error_msg l; la_api_service := la_api_service l; la_running_cfg := t;
          la_events := la_events l; la_tun_fd := la_tun_fd l |}.

(** [handle_easytier_event]: the last twenty events are kept. *)
Definition handle_easytier_event (now : Z) (e : Event) (l : EasyTierLauncher) : EasyTierLauncher :=
  let events := (now, e) :: la_events l in
  {| la_alive := la_alive l; la_error_msg := la_error_msg l; la_api_service := la_api_service l; la_running_cfg := la_running_cfg l;
     la_events := if Nat.ltb 20 (length events) then removelast events else events; la_tun_fd := la_tun_fd l |}.

(** The thread: the instance has started, and the routine returns. *)
Definition routine_ready (l : EasyTierLauncher) : EasyTierLauncher :=
  {| la_alive := la_alive l; la_error_msg := la_error_msg l; la_api_service := true; la_running_cfg := la_running_cfg l;
     la_events := la_events l; la_tun_fd := la_tun_fd l |}.
Definition routine_end (error : option text) (l : EasyTierLauncher) : EasyTierLauncher :=
  {| la_alive := false; la_error_msg := match error with Some e => Some e | None => la_error_msg l end; la_api_service := la_api_service l;
     la_running_cfg := la_running_cfg l; la_events := la_events l; la_tun_fd := la_tun_fd l |}.

Definition is_easytier_running (i : NetworkInstance) : bool := from_option la_alive false (ni_launcher i).
Definition get_latest_error_msg (i : NetworkInstance) : option text := ni_launcher i ≫= la_error_msg.
Definition has_api_service (i : NetworkInstance) : bool := from_option la_api_service false (ni_launcher i).

Definition put_launcher (l : option EasyTierLauncher) (i : NetworkInstance) : NetworkInstance :=
  {| ni_config := ni_config i; ni_launcher := l; ni_control := ni_control i |}.

Definition instance_start (i : NetworkInstance) : outcome NetworkInstance :=
  if is_easytier_running i then Done i
  else l ← launcher_start (ni_config i) launcher_new; Done (put_launcher (Some l) i).

Definition set_tun_fd (fd : Z) (i : NetworkInstance) : NetworkInstance :=
  put_launcher ((fun l => {| la_alive := la_alive l; la_error_msg := la_error_msg l; la_api_service := la_api_service l;
    la_running_cfg := la_running_cfg l; la_events := la_events l; la_tun_fd := Some fd |}) <$> ni_launcher i) i.

(** What the manager itself knows of an instance; peers and routes are asked of the
    instance's services, which hold no more than weak references to it. *)
Record RunningInfo := { ri_running : bool; ri_error_msg : option text; ri_info_events : list (Z * Event) }.

Definition get_running_info (i : NetworkInstance) : option RunningInfo :=
  l ← ni_launcher i;
  if la_api_service l && la_alive l then Some {| ri_running := la_alive l; ri_error_msg := la_error_msg l; ri_info_events := la_events l |} else None.

Definition error_info (e : text) : RunningInfo := {| ri_running := false; ri_error_msg := Some e; ri_info_events := [] |}.

Definition get_network_name (i : NetworkInstance) : outcome text := n ← get_network_identity (ni_config i); Done (network_name n).

(** ** The manager *)

(** A stop task waits for the end of a thread; whether that has been signalled.
    [nm_notified] is the permit of [stop_check_notifier]. *)
Record Manager := mkManager {
  nm_instances : gmap Uuid NetworkInstance; nm_stop_tasks : gmap Uuid bool; nm_errors : gmap Uuid text;
  nm_config_dir : option text; nm_web_clients : nat; nm_notified : bool }.
Implicit Types m : Manager.

Definition manager_new (config_dir : option text) : Manager := mkManager ∅ ∅ ∅ config_dir 0 false.

Definition put_instances (x : gmap Uuid NetworkInstance) m : Manager :=
  mkManager x (nm_stop_tasks m) (nm_errors m) (nm_config_dir m) (nm_web_clients m) (nm_notified m).
Definition put_stop_tasks (x : gmap Uuid bool) m : Manager :=
  mkManager (nm_instances m) x (nm_errors m) (nm_config_dir m) (nm_web_clients m) (nm_notified m).
Definition put_errors (x : gmap Uuid text) m : Manager :=
  mkManager (nm_instances m) (nm_stop_tasks m) x (nm_config_dir m) (nm_web_clients m) (nm_notified m).
Definition put_web_clients (x : nat) m : Manager :=
  mkManager (nm_instances m) (nm_stop_tasks m) (nm_errors m) (nm_config_dir m) x (nm_notified m).
Definition put_notified (x : bool) m : Manager :=
  mkManager (nm_instances m) (nm_stop_tasks m) (nm_errors m) (nm_config_dir m) (nm_web_clients m) x.

(** [in_runtime] is whether there is a runtime.  A task that was there for the
    instance is dropped, which ends it. *)
Definition start_instance_task (in_runtime : bool) (id : Uuid) m : result manage_error () * Manager :=
  if negb in_runtime then (Err NoRuntime, m)
  else match nm_instances m !! id with
       | None => (Err InstanceNotFound, m)
       | Some _ => (Ok (), put_stop_tasks (<[id := false]> (nm_stop_tasks m)) m)
       end.

Definition manager_run (in_runtime : bool) (random : Uuid) (cfg : Config Json) (watch_event : bool) (control : ConfigFileControl) m
  : outcome (result manage_error Uuid * Manager) :=
  let '(id, cfg) := get_id random cfg in
  match nm_instances m !! id with
  | Some _ => Done (Err InstanceExists, m)
  | None =>
      i ← instance_start (instance_new cfg control);
      let m := put_instances (<[id := i]> (nm_instances m)) m in
      if watch_event then
        Done (match start_instance_task in_runtime id m with (Ok _, m) => (Ok id, m) | (Err e, m) => (Err e, m) end)
      else Done (Ok id, m)
  end.

(** [DashMap::retain] drops the launchers of the others: their threads end, and the
    stop tasks that wait for them are signalled. *)
Definition retain_instances (keep : Uuid -> bool) m : Manager :=
  let gone id := match nm_instances m !! id with Some i => negb (keep id) && bool_decide (is_Some (ni_launcher i)) | None => false end in
  let m1 := put_instances (filter (fun p => keep p.1 = true) (nm_instances m)) m in
  let m2 := put_stop_tasks (map_imap (fun id signalled => Some (signalled || gone id)) (nm_stop_tasks m)) m1 in
  put_errors (filter (fun p => keep p.1 = true) (nm_errors m)) m2.

Definition list_network_instance_ids `{!IterOrder Uuid NetworkInstance} m : list Uuid := (map_iter (nm_instances m)).*1.

Definition retain_network_instance `{!IterOrder Uuid NetworkInstance} (ids : list Uuid) m : list Uuid * Manager :=
  let m := retain_instances (fun id => bool_decide (id ∈ ids)) m in (list_network_instance_ids m, m).
Definition delete_network_instance `{!IterOrder Uuid NetworkInstance} (ids : list Uuid) m : list Uuid * Manager :=
  let m := retain_instances (fun id => negb (bool_decide (id ∈ ids))) m in (list_network_instance_ids m, m).

Definition collect_network_infos m : gmap Uuid RunningInfo :=
  (error_info <$> nm_errors m) ∪ omap get_running_info (nm_instances m).

Definition get_network_info (id : Uuid) m : option RunningInfo :=
  match nm_errors m !! id with Some e => Some (error_info e) | None => nm_instances m !! id ≫= get_running_info end.

Definition get_instance_config_control (id : Uuid) m : option ConfigFileControl := ni_control <$> nm_instances m !! id.

Definition manager_set_tun_fd (id : Uuid) (fd : Z) m : result manage_error () * Manager :=
  match nm_instances m !! id with
  | None => (Err InstanceNotFound, m)
  | Some i => (Ok (), put_instances (<[id := set_tun_fd fd i]> (nm_instances m)) m)
  end.

Definition register_web_client m : Manager := put_web_clients (S (nm_web_clients m)) m.
Definition drop_web_client m : Manager := put_notified true (put_web_clients (pred (nm_web_clients m)) m).

(** The end of a stop task that was signalled. *)
Definition stop_task_end (id : Uuid) m : Manager :=
  let m := match nm_instances m !! id ≫= get_latest_error_msg with
           | Some e => put_errors (<[id := e]> (nm_errors m)) m
           | None => m
           end in
  put_stop_tasks (delete id (nm_stop_tasks m)) (put_notified true m).

(** The condition [wait] checks. *)
Definition nothing_runs m : bool :=
  forallb (fun p => negb (is_easytier_running p.2)) (map_to_list (nm_instances m)) && Nat.eqb (nm_web_clients m) 0.

(** ** Loading and saving *)

(** [TomlConfigLoader::new]. *)
Definition loader_new (d : Disk) (p : Path) : outcome (result manage_error (Config Json)) :=
  match d !! p ≫= fi_text with
  | None => Done (Err CannotRead)
  | Some t => r ← new_from_str t; Done (match r with Ok c => Ok c | Err _ => Err BadConfigText end)
  end.

(** [stdin] is what can be read there, when the file is a hyphen. *)
Definition load_config_from_file (random : Uuid) (stdin : option text) (d : Disk) (config_file : Path) (config_dir : option text)
  : outcome (result manage_error (Config Json * ConfigFileControl)) :=
  if bool_decide (config_file = {| pa_dir := []; pa_name := txt "-" |}) then
    match stdin with
    | None => Done (Err CannotRead)
    | Some t => r ← new_from_str t; Done (match r with Ok c => Ok (c, STATIC_CONFIG) | Err _ => Err BadConfigText end)
    end
  else
    r ← loader_new d config_file;
    try r (fun config =>
      let control := from_path d config_file in
      if is_read_only control then Done (Ok (config, set_no_delete true control))
      else
        match config_dir with
        | Some config_dir =>
            if bool_decide (pa_dir config_file = config_dir) then
              let '(id, config) := get_id random config in
              let own := bool_decide (file_stem config_file = Some (uuid_text id)) && bool_decide (extension config_file = Some (txt "toml")) in
              Done (Ok (config, set_no_delete (negb own) control))
            else Done (Ok (config, set_no_delete true control))
        | None => Done (Ok (config, set_no_delete true control))
        end).

(** The file of an instance in the directory of the manager. *)
Definition config_file_of (config_dir : text) (id : Uuid) : Path := {| pa_dir := config_dir; pa_name := uuid_text id ++ txt ".toml" |}.

(** ** The RPC service *)

Record Sys := { sy_manager : Manager; sy_disk : Disk }.
Implicit Types s : Sys.

Definition validate_config (random : Uuid) (form : NetworkConfig) : outcome (result manage_error text) :=
  r ← gen_config random form;
  match r with Err e => Done (Err (BadForm e)) | Ok cfg => t ← dump cfg; Done (Ok t) end.

Record RunRequest := { rq_inst_id : option Uuid; rq_config : option NetworkConfig; rq_overwrite : bool }.

(** Writing the file, unless it is not to be changed; when that fails the instance
    counts as read-only. *)
Definition save_config (a : WriteAnswer) (cfg : Config Json) (control : ConfigFileControl) (d : Disk) : outcome (ConfigFileControl * Disk) :=
  if is_read_only control then Done (control, d)
  else
    match cc_path control with
    | None => Done (control, d)
    | Some config_file =>
        t ← dump cfg;
        let '(ok, d) := fs_write a config_file t d in
        Done (if ok then control else set_read_only true control, d)
    end.

Definition save_and_run (a : WriteAnswer) (random : Uuid) (id : Uuid) (cfg : Config Json) (control : ConfigFileControl) s
  : outcome (result manage_error Uuid * Sys) :=
  '(control, d) ← save_config a cfg control (sy_disk s);
  '(r, m) ← manager_run true random cfg true control (sy_manager s);
  Done (match r with Ok _ => Ok id | Err e => Err e end, {| sy_manager := m; sy_disk := d |}).

Definition run_network_instance `{!IterOrder Uuid NetworkInstance} (a : WriteAnswer) (random : Uuid) (req : RunRequest) s
  : outcome (result manage_error Uuid * Sys) :=
  match rq_config req with
  | None => Done (Err ConfigRequired, s)
  | Some form =>
      r ← gen_config random form;
      match r with
      | Err e => Done (Err (BadForm e), s)
      | Ok cfg =>
          let '(id, cfg) := get_id random cfg in
          let cfg := match rq_inst_id req with Some inst_id => set_id inst_id cfg | None => cfg end in
          match get_instance_config_control id (sy_manager s) with
          | Some control =>
              if negb (rq_overwrite req) then Done (Ok id, s)
              else if is_read_only control then Done (Err InstanceReadOnly, s)
              else if from_option (fun path => is_read_only (from_path (sy_disk s) path)) false (cc_path control) then Done (Err FileReadOnly, s)
              else
                let m := (delete_network_instance [id] (sy_manager s)).2 in
                save_and_run a random id cfg control {| sy_manager := m; sy_disk := sy_disk s |}
          | None =>
              save_and_run a random id cfg
                (control_new ((fun dir => config_file_of dir id) <$> nm_config_dir (sy_manager s)) 0) s
          end
      end
  end.

(** [removed] tells which files can be removed. *)
Definition rpc_delete_network_instance `{!IterOrder Uuid NetworkInstance} (removed : Path -> bool) (ids : list Uuid) s : list Uuid * Sys :=
  let m := sy_manager s in
  let inst_ids := (List.filter (fun p => bool_decide (p.1 ∈ ids) && is_deletable (ni_control p.2)) (map_iter (nm_instances m))).*1 in
  let config_files := omap (fun id => get_instance_config_control id m ≫= cc_path) inst_ids in
  let '(remain, m) := delete_network_instance inst_ids m in
  (remain, {| sy_manager := m; sy_disk := foldl (fun d p => if removed p then delete p d else d) (sy_disk s) config_files |}).

Definition get_network_instance_config (random : Uuid) (inst_id : option Uuid) m : outcome (result manage_error NetworkConfig) :=
  match inst_id with
  | None => Done (Err InstanceIdRequired)
  | Some id =>
      match nm_instances m !! id with
      | Some i =>
          if negb (has_api_service i) then Done (Err ServiceNotFound)
          else if negb (is_easytier_running i) then Done (Err InstanceGone)
          else c ← new_from_config sys_hostname random (ni_config i); Done (Ok c)
      | None => Done (Err ServiceNotFound)
      end
  end.

Definition collect_network_info (ids : list Uuid) m : gmap Uuid RunningInfo :=
  match ids with [] => collect_network_infos m | _ => filter (fun p => p.1 ∈ ids) (collect_network_infos m) end.

Record NetworkMeta := { me_inst_id : Uuid; me_network_name : text; me_config_permission : Z }.

Fixpoint list_network_instance_meta (ids : list Uuid) m : outcome (list NetworkMeta) :=
  match ids with
  | [] => Done []
  | id :: ids =>
      match nm_instances m !! id with
      | None => list_network_instance_meta ids m
      | Some i =>
          name ← get_network_name i;
          rest ← list_network_instance_meta ids m;
          Done ({| me_inst_id := id; me_network_name := name; me_config_permission := cc_permission (ni_control i) |} :: rest)
      end
  end.

(** How a request names the instance it is for. *)
Inductive Selector := SelId (id : Uuid) | SelName (name : option text).

(** The instance whose service answers. *)
Definition get_instance_service `{!IterOrder Uuid NetworkInstance} (selector : option Selector) m : result manage_error Uuid :=
  let found id := match nm_instances m !! id with Some i => if has_api_service i then Ok id else Err ServiceNotFound | None => Err ServiceNotFound end in
  match selector with
  | Some (SelId id) => found id
  | _ =>
      let name := match selector with Some (SelName name) => name | _ => None end in
      match (List.filter (fun p => from_option (fun n => bool_decide (get_inst_name (ni_config p.2) = n)) true name) (map_iter (nm_instances m))).*1 with
      | [] => Err NoMatch
      | [id] => found id
      | _ => Err ManyMatch
      end
  end.

(** ** The start of the process *)

(** What is read of the command line. *)
Record Cli := { cl_config_server : bool; cl_config_file : list Path; cl_config_dir : option text; cl_options : NetworkOptions }.

Definition is_toml (p : Path) : bool := bool_decide (extension p = Some (txt "toml")).

(** The files of a directory with the extension [toml], in the order [read_dir] gives them. *)
Definition read_config_dir `{!IterOrder Path File} (config_dir : text) (d : Disk) : list Path :=
  List.filter (fun p => bool_decide (pa_dir p = config_dir) && is_toml p) (map_iter d).*1.

(** The files one by one: the manager, and whether a network is to be made from the
    options alone.  [dump] is printed. *)
Fixpoint run_config_files (random : Path -> Uuid) (stdin : option text) (d : Disk) (cli : Cli) (count : Z) (files : list Path)
  (cli_network : bool) m : outcome (result manage_error (bool * Manager)) :=
  match files with
  | [] => Done (Ok (cli_network, m))
  | p :: files =>
      r ← load_config_from_file (random p) stdin d p (cl_config_dir cli);
      try r (fun '(cfg, control) =>
        merge ← can_merge (cl_options cli) count cfg;
        r ← (if merge : bool then
               r ← merge_into (cl_options cli) cfg;
               Done (match r with
                     | Ok cfg => Ok (cfg, set_no_delete true (set_read_only true control), false)
                     | Err e => Err (BadOptions e)
                     end)
             else Done (Ok (cfg, control, cli_network)));
        try r (fun '(cfg, control, cli_network) =>
          _ ← dump cfg;
          '(r, m) ← manager_run true (random p) cfg true control m;
          try r (fun _ => run_config_files random stdin d cli count files cli_network m)))
  end.

(** Up to the point where the process waits: the web client of a configuration server is
    registered, and the instances of the files run. *)
Definition run_main `{!IterOrder Path File} (random : Path -> Uuid) (random_cli : Uuid) (stdin : option text) (is_dir : bool) (cli : Cli) (d : Disk)
  : outcome (result manage_error Manager) :=
  let m := manager_new (cl_config_dir cli) in
  let m := if cl_config_server cli then register_web_client m else m in
  match cl_config_dir cli with
  | Some _ => if negb is_dir then Done (Err NotADirectory) else Done (Ok ())
  | None => Done (Ok ())
  end ≫= fun r => try r (fun _ =>
  let config_files := cl_config_file cli ++ from_option (fun dir => read_config_dir dir d) [] (cl_config_dir cli) in
  let count := len config_files in
  let cli_network := ((count =? 0) && negb (cl_config_server cli)) || bool_decide (is_Some (no_network_name (cl_options cli))) in
  r ← run_config_files random stdin d cli count config_files cli_network m;
  try r (fun '(cli_network, m) =>
    if cli_network : bool then
      cfg ← loader_default;
      r ← merge_into (cl_options cli) cfg;
      try (match r with Ok cfg => Ok cfg | Err e => Err (BadOptions e) end) (fun cfg =>
        _ ← dump cfg;
        '(r, m) ← manager_run true random_cli cfg true STATIC_CONFIG m;
        Done (match r with Ok _ => Ok m | Err e => Err e end))
    else Done (Ok m))).

(** What [run_main] returns when the wait is over. *)
Definition exit_ok m : bool := forallb (fun p => bool_decide (ri_error_msg p.2 = None)) (map_to_list (collect_network_infos m)).

(** ** The process *)

(** The main task checks whether something runs, waits to be notified, or has ended. *)
Inductive MainTask := Checking | Waiting | Exited.

Record Process := { pr_sys : Sys; pr_main : MainTask }.

Inductive Label :=
  | LRun (a : WriteAnswer) (random : Uuid) (req : RunRequest)
  | LDelete (removed : Path -> bool) (ids : list Uuid)
  | LRetain (ids : list Uuid)
  | LTunFd (id : Uuid) (fd : Z)
  | LReady (id : Uuid) | LEvent (id : Uuid) (now : Z) (e : Event) | LEnd (id : Uuid) (error : option text)
  | LStopTask (id : Uuid)
  | LWebClient | LWebGone
  | LWait.

Inductive Answer := RunAnswer (r : result manage_error Uuid) | RemainAnswer (ids : list Uuid) | TunFdAnswer (r : result manage_error ()).

(** A step of the thread of an instance. *)
Definition thread_step (f : EasyTierLauncher -> EasyTierLauncher) (id : Uuid) m : option Manager :=
  i ← nm_instances m !! id;
  l ← ni_launcher i;
  if la_alive l then Some (put_instances (<[id := put_launcher (Some (f l)) i]> (nm_instances m)) m) else None.

(** The end of a thread also signals the task that waits for it. *)
Definition signal_end (id : Uuid) m : Manager := put_stop_tasks (alter (fun _ => true) id (nm_stop_tasks m)) m.

Definition wait_step (p : Process) : option Process :=
  let m := sy_manager (pr_sys p) in
  match pr_main p with
  | Checking => Some {| pr_sys := pr_sys p; pr_main := if nothing_runs m then Exited else Waiting |}
  | Waiting =>
      if nm_notified m then Some {| pr_sys := {| sy_manager := put_notified false m; sy_disk := sy_disk (pr_sys p) |}; pr_main := Checking |}
      else None
  | Exited => None
  end.

Definition with_manager m (p : Process) : Process :=
  {| pr_sys := {| sy_manager := m; sy_disk := sy_disk (pr_sys p) |}; pr_main := pr_main p |}.

Definition process_step `{!IterOrder Uuid NetworkInstance} (l : Label) (p : Process) : outcome (option (Process * list Answer)) :=
  let s := pr_sys p in
  let m := sy_manager s in
  let quiet (x : option Manager) := Done ((fun m => (with_manager m p, [])) <$> x) in
  match pr_main p with
  | Exited => Done None
  | _ =>
      match l with
      | LRun a random req =>
          '(r, s) ← run_network_instance a random req s;
          Done (Some ({| pr_sys := s; pr_main := pr_main p |}, [RunAnswer r]))
      | LDelete removed ids =>
          let '(remain, s) := rpc_delete_network_instance removed ids s in
          Done (Some ({| pr_sys := s; pr_main := pr_main p |}, [RemainAnswer remain]))
      | LRetain ids => let '(remain, m) := retain_network_instance ids m in Done (Some (with_manager m p, [RemainAnswer remain]))
      | LTunFd id fd => let '(r, m) := manager_set_tun_fd id fd m in Done (Some (with_manager m p, [TunFdAnswer r]))
      | LReady id => quiet (thread_step routine_ready id m)
      | LEvent id now e => quiet (thread_step (handle_easytier_event now e) id m)
      | LEnd id error => quiet (signal_end id <$> thread_step (routine_end error) id m)
      | LStopTask id => quiet (if default false (nm_stop_tasks m !! id) then Some (stop_task_end id m) else None)
      | LWebClient => quiet (Some (register_web_client m))
      | LWebGone => quiet (if Nat.eqb (nm_web_clients m) 0 then None else Some (drop_web_client m))
      | LWait => Done ((fun p => (p, [])) <$> wait_step p)
      end
  end.

(** A process that has started: what [run_main] has set up, about to wait. *)
Definition process_of m (d : Disk) : Process := {| pr_sys := {| sy_manager := m; sy_disk := d |}; pr_main := Checking |}.
End manager.
Arguments NetworkInstance {_ _ _} Event.
Arguments Manager {_ _ _ _} Event.
Arguments Sys {_ _ _ _} Event.

(** ** The end of the process *)

Section ending.
Context `{Hasher64} `{Hc : Ipv4CidrLib} `{Hu : UuidLib} `{!Countable Uuid} `{Hw : !ConfigWire} `{!CidrText} `{!UrlOps}
  {Event : Type} `{!IterOrder Uuid (NetworkInstance Event)}.
Implicit Types (m : Manager Event) (p : Process (Event := Event)) (i : NetworkInstance Event).

Lemma nothing_runs_spec m : nothing_runs m = true <->
  (forall id i, nm_instances m !! id = Some i -> is_easytier_running i = false) /\ nm_web_clients m = O.
Proof.
  unfold nothing_runs. rewrite andb_true_iff, forallb_forall, Nat.eqb_eq. f_equiv. split.
  - intros Hall id i E. specialize (Hall (id, i)). apply negb_true_iff, Hall. by apply list_elem_of_In, elem_of_map_to_list.
  - intros Hall [id i] Hin%list_elem_of_In%elem_of_map_to_list. by apply negb_true_iff, (Hall id).
Qed.

(** A running instance is watched by a task that is not signalled yet. *)
Definition watched m : Prop := forall id i, nm_instances m !! id = Some i -> is_easytier_running i = true -> nm_stop_tasks m !! id = Some false.

(** When nothing runs the main task has been notified, or will be by a task that was signalled. *)
Definition wakes m : Prop := nothing_runs m = true -> nm_notified m = true \/ exists id, nm_stop_tasks m !! id = Some true.

Definition ending_ok p : Prop := watched (sy_manager (pr_sys p)) /\ (pr_main p = Waiting -> wakes (sy_manager (pr_sys p))).

(** What a change of the manager must keep. *)
Definition ending_step m m' : Prop := (watched m -> watched m') /\ (watched m -> wakes m -> wakes m').

Lemma ending_step_refl m : ending_step m m.
Proof. done. Qed.
Lemma ending_step_trans m1 m2 m3 : ending_step m1 m2 -> ending_step m2 m3 -> ending_step m1 m3.
Proof. unfold ending_step. tauto. Qed.

Lemma ending_retain keep m : ending_step m (retain_instances keep m).
Proof.
  split.
  - intros Hw' id i E Hr. cbn in *. apply map_lookup_filter_Some in E as [E Hk]. cbn in Hk. rewrite map_lookup_imap, (Hw' _ _ E Hr). cbn.
    by rewrite E, Hk.
  - intros Hw' Hwk Hn. destruct (nothing_runs m) eqn:Em.
    + destruct (Hwk Em) as [Hnt|[id Hid]]; [by left|]. right. exists id. cbn. rewrite map_lookup_imap, Hid. done.
    + right. apply not_true_iff_false in Em. rewrite nothing_runs_spec in Em, Hn. destruct Hn as [Hn Hc0].
      destruct (decide (map_Forall (fun _ i => is_easytier_running i = false) (nm_instances m))) as [Hall|Hex]; [by destruct Em|].
      apply map_not_Forall in Hex as (id & i & E & Hr); [|apply _]. apply not_false_iff_true in Hr. exists id. cbn. rewrite map_lookup_imap, (Hw' _ _ E Hr).
      cbn. rewrite E. destruct (keep id) eqn:Ek.
      * exfalso. apply not_false_iff_true in Hr. apply Hr, (Hn id). cbn. by apply map_lookup_filter_Some.
      * cbn. unfold is_easytier_running in Hr. destruct (ni_launcher i); [|done]. by rewrite bool_decide_eq_true_2.
Qed.

Lemma instance_start_running cfg control i : instance_start (instance_new cfg control) = Done i ->
  is_easytier_running i = true /\ ni_config i = cfg /\ ni_control i = control /\ exists t, dump cfg = Done t.
Proof.
  unfold instance_start. cbn. unfold launcher_start. intros E. inv_outcome. split_and!; try done. by eexists.
Qed.

Lemma ending_run random cfg control m r m' : manager_run true random cfg true control m = Done (r, m') -> ending_step m m'.
Proof.
  unfold manager_run. destruct (get_id random cfg) as [id cfg'] eqn:Eid. destruct (nm_instances m !! id) as [i0|] eqn:E0; [by intros [= <- <-]|].
  intros E. apply bind_Done in E as (i & Ei & E). apply instance_start_running in Ei as (Hr & _).
  unfold start_instance_task in E. cbn in E. rewrite lookup_insert_eq in E. injection E as <- <-. split.
  - intros Hw' id' i' E' Hr'. cbn in *. destruct (decide (id' = id)) as [->|Hne]; [by rewrite lookup_insert_eq|].
    rewrite lookup_insert_ne in E' by done. rewrite lookup_insert_ne by done. by eapply Hw'.
  - intros _ _ Hn. apply nothing_runs_spec in Hn as [Hn _]. specialize (Hn id i). cbn in Hn. rewrite lookup_insert_eq in Hn. rewrite Hn in Hr by done. done.
Qed.

Lemma ending_save_and_run a random id cfg control (s : Sys Event) r s' :
  save_and_run a random id cfg control s = Done (r, s') -> ending_step (sy_manager s) (sy_manager s').
Proof.
  unfold save_and_run. intros E. apply bind_Done in E as ([c d] & _ & E). apply bind_Done in E as ([r' m] & Er & E). injection E as <- <-.
  by eapply ending_run.
Qed.

Lemma ending_rpc_run a random req (s : Sys Event) r s' :
  run_network_instance a random req s = Done (r, s') -> ending_step (sy_manager s) (sy_manager s').
Proof.
  unfold run_network_instance. destruct (rq_config req) as [form|]; [|by intros [= <- <-]]. intros E. apply bind_Done in E as ([cfg|e] & _ & E); [|by simplify_eq].
  destruct (get_id random cfg) as [id cfg'] eqn:Eid. destruct (get_instance_config_control id (sy_manager s)) as [control|].
  - repeat (case_match; [by simplify_eq|]). apply ending_save_and_run in E. eapply ending_step_trans; [|exact E]. apply ending_retain.
  - by apply ending_save_and_run in E.
Qed.

(** A step of a thread that leaves it running or not as it was. *)
Lemma ending_thread f id m m' : (forall l, la_alive (f l) = la_alive l) -> thread_step f id m = Some m' -> ending_step m m'.
Proof.
  unfold thread_step. intros Hf E. destruct (nm_instances m !! id) as [i|] eqn:Ei; [|done]. cbn in E. destruct (ni_launcher i) as [l|] eqn:El; [|done]. cbn in E.
  destruct (la_alive l) eqn:Ea; [|done]. injection E as <-. assert (Hi : is_easytier_running i = true) by (unfold is_easytier_running; by rewrite El).
  split.
  - intros Hw' id' i' E' Hr. cbn in *. destruct (decide (id' = id)) as [->|Hne]; [by eapply Hw'|]. rewrite lookup_insert_ne in E' by done. by eapply Hw'.
  - intros _ _ Hn. apply nothing_runs_spec in Hn as [Hn _]. specialize (Hn id). cbn in Hn. rewrite lookup_insert_eq in Hn. specialize (Hn _ eq_refl).
    cbn in Hn. by rewrite Hf, Ea in Hn.
Qed.
Lemma ending_end error id m m' : thread_step (routine_end error) id m = Some m' -> ending_step m (signal_end id m').
Proof.
  unfold thread_step. intros E. destruct (nm_instances m !! id) as [i|] eqn:Ei; [|done]. cbn in E. destruct (ni_launcher i) as [l|] eqn:El; [|done]. cbn in E.
  destruct (la_alive l) eqn:Ea; [|done]. injection E as <-. assert (Hi : is_easytier_running i = true) by (unfold is_easytier_running; by rewrite El).
  split.
  - intros Hw' id' i' E' Hr. cbn in *. destruct (decide (id' = id)) as [->|Hne].
    + rewrite lookup_insert_eq in E'. injection E' as <-. done.
    + rewrite lookup_insert_ne in E' by done. rewrite lookup_alter_ne by done. by eapply Hw'.
  - intros Hw' _ _. right. exists id. cbn. rewrite lookup_alter_eq, (Hw' _ _ Ei Hi). done.
Qed.

Lemma ending_stop_task id m : nm_stop_tasks m !! id = Some true -> ending_step m (stop_task_end id m).
Proof.
  intros Hs. unfold stop_task_end. set (m0 := match _ ≫= _ with Some _ => _ | None => _ end).
  assert (nm_instances m0 = nm_instances m /\ nm_stop_tasks m0 = nm_stop_tasks m) as [Ei Et] by (unfold m0; by case_match).
  split; [|intros _ _ _; by left]. intros Hw' id' i E Hr. cbn in *. rewrite Ei in E. rewrite Et. specialize (Hw' _ _ E Hr).
  rewrite lookup_delete_ne; [done|]. intros ->. congruence.
Qed.

Lemma ending_tun_fd id fd m : ending_step m (manager_set_tun_fd id fd m).2.
Proof.
  unfold manager_set_tun_fd. destruct (nm_instances m !! id) as [i|] eqn:Ei; [|done]. cbn [snd].
  assert (Hr : is_easytier_running (set_tun_fd fd i) = is_easytier_running i) by (unfold is_easytier_running; cbn; by destruct (ni_launcher i)).
  split.
  - intros Hw' id' i' E Hr'. cbn in E |- *. destruct (decide (id' = id)) as [->|Hne].
    + rewrite lookup_insert_eq in E. injection E as <-. rewrite Hr in Hr'. by eapply Hw'.
    + rewrite lookup_insert_ne in E by done. by eapply Hw'.
  - intros _ Hwk Hn. apply Hwk. apply nothing_runs_spec in Hn as [Hn Hw0]. apply nothing_runs_spec. split; [|done]. intros id' i' E.
    destruct (decide (id' = id)) as [->|Hne].
    + assert (i' = i) as -> by congruence. rewrite <- Hr. apply (Hn id). cbn. by rewrite lookup_insert_eq.
    + apply (Hn id'). cbn. by rewrite lookup_insert_ne.
Qed.

Lemma ending_web_client m : ending_step m (register_web_client m).
Proof. split; [done|]. intros _ _ Hn. apply nothing_runs_spec in Hn as [_ Hn]. done. Qed.

Lemma ending_web_gone m : ending_step m (drop_web_client m).
Proof. split; [done|]. intros _ _ _. by left. Qed.

Lemma ending_ok_change p p' : ending_step (sy_manager (pr_sys p)) (sy_manager (pr_sys p')) -> pr_main p' = pr_main p -> ending_ok p -> ending_ok p'.
Proof.
  intros [Hs1 Hs2] Hm [Hw' Hwk]. split; [by apply Hs1|]. rewrite Hm. intros Ew. by apply Hs2, Hwk.
Qed.

Lemma process_step_ending l p p' acts : ending_ok p -> process_step l p = Done (Some (p', acts)) -> ending_ok p'.
Proof.
  intros Hok E. unfold process_step in E. destruct (pr_main p) eqn:Em; [| |done].
  all: destruct l as [a random req|removed ids|ids|id fd|id|id now e|id error|id| | |]; cbv zeta in E; try (rewrite <- Em in E).
  1, 12: apply bind_Done in E as ([r s] & E & E'); injection E' as <- <-; (eapply (ending_ok_change p); [|by cbn; rewrite ?Em|done]; by eapply ending_rpc_run).
  1, 11: unfold rpc_delete_network_instance, delete_network_instance in E; cbv zeta beta iota in E; injection E as <- <-; eapply (ending_ok_change p); [|cbn; congruence|done]; apply ending_retain.
  1, 10: unfold retain_network_instance in E; cbv zeta beta iota in E; injection E as <- <-; eapply (ending_ok_change p); [|cbn; congruence|done]; apply ending_retain.
  1, 9: destruct (manager_set_tun_fd id fd _) as [r m] eqn:Et in E; simplify_eq; eapply (ending_ok_change p); [|cbn; congruence|done];
    cbn; replace m with (manager_set_tun_fd id fd (sy_manager (pr_sys p))).2 by (by rewrite Et); apply ending_tun_fd.
  1, 2, 8, 9: destruct (thread_step _ _ _) as [m|] eqn:Et in E; cbn in E; simplify_eq; eapply (ending_ok_change p); [|cbn; congruence|done]; by eapply ending_thread; [|exact Et].
  1, 6: destruct (thread_step _ _ _) as [m|] eqn:Et in E; cbn in E; simplify_eq; eapply (ending_ok_change p); [|cbn; congruence|done]; by eapply ending_end.
  1, 5: destruct (nm_stop_tasks _ !! id) as [[]|] eqn:Et in E; cbn in E; simplify_eq; eapply (ending_ok_change p); [|cbn; congruence|done]; by apply ending_stop_task.
  1, 4: simplify_eq; eapply (ending_ok_change p); [|cbn; congruence|done]; apply ending_web_client.
  1, 3: case_match; simplify_eq; eapply (ending_ok_change p); [|cbn; congruence|done]; apply ending_web_gone.
  - unfold wait_step in E. rewrite Em in E. cbn in E. simplify_eq. destruct Hok as [Hw' Hwk]. split; [done|]. cbn. intros Hx Hn. by rewrite Hn in Hx.
  - unfold wait_step in E. rewrite Em in E. destruct (nm_notified _) in E; cbn in E; simplify_eq. destruct Hok as [Hw' Hwk]. by split.
Qed.

(** A process in the middle of its work: it has started with no instance or with the
    ones of its files, and has done any steps since. *)
Inductive process_reach (p0 : Process) : Process -> Prop :=
  | reach_start : process_reach p0 p0
  | reach_step p l p' acts : process_reach p0 p -> process_step l p = Done (Some (p', acts)) -> process_reach p0 p'.

Lemma run_reach ls p p' acts : run process_step ls p = Done (p', acts) -> process_reach p p'.
Proof.
  cut (forall p0, process_reach p0 p -> run process_step ls p = Done (p', acts) -> process_reach p0 p').
  { intros Hc'. apply Hc', reach_start. }
  revert p acts; induction ls as [|l ls IH]; intros p acts p0 Hr E; cbn [run] in E; [by simplify_eq|].
  apply bind_Done in E as ([[p1 acts1]|] & Er & E); cbn in E; apply bind_Done in E as ([p2 acts2] & E & E'); simplify_eq.
  - eapply IH; [|exact E]. by eapply reach_step.
  - by eapply IH.
Qed.

Definition own_steps (l : Label (Event := Event)) : Prop := match l with LStopTask _ | LWait => True | _ => False end.

Lemma stop_task_end_runs id m : nothing_runs (stop_task_end id m) = nothing_runs m.
Proof. unfold stop_task_end, nothing_runs. by case_match. Qed.

Lemma process_step_wait p p' : wait_step p = Some p' -> process_step LWait p = Done (Some (p', [])).
Proof. intros E. unfold process_step. cbv zeta. rewrite E. unfold wait_step in E. by destruct (pr_main p). Qed.

Lemma run_one l p p' : process_step l p = Done (Some (p', [])) -> run process_step [l] p = Done (p', []).
Proof. intros E. cbn [run]. by rewrite E. Qed.

Lemma wait_twice p : pr_main p = Waiting -> nm_notified (sy_manager (pr_sys p)) = true -> nothing_runs (sy_manager (pr_sys p)) = true ->
  exists p', run process_step [LWait; LWait] p = Done (p', []) /\ pr_main p' = Exited.
Proof.
  intros Em En Hr. eexists. split; [eapply (run_app process_step [LWait] [LWait] p _ _ [] [])|].
  - apply run_one, process_step_wait. unfold wait_step. by rewrite Em, En.
  - apply run_one, process_step_wait. unfold wait_step. done.
  - cbn [pr_main]. unfold nothing_runs in Hr |- *. cbn. by rewrite Hr.
Qed.

Lemma ending_ok_exits p : ending_ok p -> nothing_runs (sy_manager (pr_sys p)) = true ->
  exists ls p', Forall own_steps ls /\ (length ls <= 3)%nat /\ run process_step ls p = Done (p', []) /\ pr_main p' = Exited.
Proof.
  intros [Hw' Hwk] Hr. destruct (pr_main p) eqn:Em.
  - exists [LWait], {| pr_sys := pr_sys p; pr_main := Exited |}. split_and!; [by repeat constructor|cbn; lia| |done].
    apply run_one, process_step_wait. unfold wait_step. by rewrite Em, Hr.
  - destruct (Hwk eq_refl Hr) as [Hn|[id Hid]].
    + destruct (wait_twice p) as (p' & E & E'); [done..|]. exists [LWait; LWait], p'. split_and!; [by repeat constructor|cbn; lia|done|done].
    + destruct (wait_twice (with_manager (stop_task_end id (sy_manager (pr_sys p))) p)) as (p' & E & E'); [done|done|exact (eq_trans (stop_task_end_runs _ _) Hr)|].
      exists [LStopTask id; LWait; LWait], p'. split_and!; [by repeat constructor|cbn; lia| |done].
      eapply (run_app process_step [LStopTask id] [LWait; LWait] p _ _ [] []); [|exact E]. apply run_one. unfold process_step. rewrite Em. cbv zeta. by rewrite Hid.
  - exists [], p. split_and!; [constructor|cbn; lia|done|done].
Qed.

Lemma reach_ending_ok p0 p : ending_ok p0 -> process_reach p0 p -> ending_ok p.
Proof. intros Hp. induction 1; [done|]. by eapply process_step_ending. Qed.

Lemma process_step_main l p p' acts : process_step l p = Done (Some (p', acts)) ->
  pr_main p' = pr_main p \/ exists p1, wait_step p = Some p1 /\ p' = p1.
Proof.
  intros E. unfold process_step in E. destruct (pr_main p) eqn:Em; [| |done].
  all: destruct l; cbv zeta in E; unfold rpc_delete_network_instance, delete_network_instance, retain_network_instance in E; cbv zeta beta iota in E;
    repeat (case_match; try done); inv_outcome; try (injection E as <- <-); try (by left).
  all: repeat match goal with H : _ <$> ?x = Some _ |- _ => destruct x eqn:?; cbn in H; simplify_eq end; try (by left); try (right; by eexists).
  all: case_match; simplify_eq; by left.
Qed.

Lemma exited_nothing_runs p0 p : pr_main p0 = Checking -> process_reach p0 p -> pr_main p = Exited -> nothing_runs (sy_manager (pr_sys p)) = true.
Proof.
  intros Hp. induction 1 as [|p l p' acts _ IH E]; [congruence|]. intros Ee.
  assert (pr_main p <> Exited) as Hne by (intros Hx; unfold process_step in E; by rewrite Hx in E).
  apply process_step_main in E as [E|(p1 & E & ->)]; [congruence|]. unfold wait_step in E. destruct (pr_main p); [|by destruct (nm_notified _); simplify_eq|done].
  injection E as <-. cbn in Ee |- *. by destruct (nothing_runs _).
Qed.

(** *** The start *)

Context `{!UrlParts} `{!IterOrder Path File}.

Lemma run_config_files_watched random stdin d cli count files net m net' m' : watched m ->
  run_config_files random stdin d cli count files net m = Done (Ok (net', m')) -> watched m'.
Proof.
  revert net m; induction files as [|f files IH]; intros net m Hw' E; cbn [run_config_files] in E; [by simplify_eq|].
  apply bind_Done in E as (r & _ & E). apply try_Ok in E as ([cfg control] & -> & E). apply bind_Done in E as (mg & _ & E).
  apply bind_Done in E as (r & _ & E). apply try_Ok in E as ([[cfg' control'] net1] & -> & E). apply bind_Done in E as (t & _ & E).
  apply bind_Done in E as ([r m1] & Er & E). apply try_Ok in E as (id & -> & E). eapply IH; [|exact E]. by eapply ending_run in Er as [Hs _]; apply Hs.
Qed.

Lemma run_main_watched random random_cli stdin is_dir cli d m : run_main random random_cli stdin is_dir cli d = Done (Ok m) -> watched m.
Proof.
  unfold run_main. cbv zeta. intros E. apply bind_Done in E as (r & _ & E). apply try_Ok in E as (u & -> & E).
  apply bind_Done in E as (r & Er & E). apply try_Ok in E as ([net m1] & -> & E).
  assert (watched m1) as Hw1 by (eapply run_config_files_watched; [|exact Er]; destruct (cl_config_server cli); intros id i Ei; done).
  destruct net; [|by simplify_eq]. apply bind_Done in E as (cfg & _ & E). apply bind_Done in E as (r & _ & E). apply try_Ok in E as (cfg' & _ & E).
  apply bind_Done in E as (t & _ & E). apply bind_Done in E as ([r' m2] & Er' & E). destruct r'; simplify_eq. by eapply ending_run in Er' as [Hs _]; apply Hs.
Qed.

(** C32.  The process ends when it has nothing left to do, and not before.  However it
    was started and whatever has happened since, in any order: once no instance runs and
    no web client is registered, at most three steps of its own tasks, without any
    request, end the wait of the main task, because every thread that ends and
    every instance that is removed leaves a task that notifies it; and the wait is only
    over when nothing runs. *)
Theorem process_ends random random_cli stdin is_dir cli d m p :
  run_main random random_cli stdin is_dir cli d = Done (Ok m) -> process_reach (process_of m d) p ->
  (nothing_runs (sy_manager (pr_sys p)) = true ->
   exists ls p', Forall own_steps ls /\ (length ls <= 3)%nat /\ run process_step ls p = Done (p', []) /\ pr_main p' = Exited) /\
  (pr_main p = Exited -> nothing_runs (sy_manager (pr_sys p)) = true).
Proof.
  intros Hm Hr. split.
  - apply ending_ok_exits. eapply reach_ending_ok; [|done]. split; [by eapply run_main_watched|done].
  - by apply (exited_nothing_runs (process_of m d)).
Qed.
End ending.

(** ** Restarting *)

(** The text of an id is not empty. *)
Class UuidTextLaws `{UuidLib} := { uuid_text_nonempty u : uuid_text u <> [] }.

Section saving.
Context `{Hasher64} `{Hc : Ipv4CidrLib} `{Hu : UuidLib} `{!UuidLaws} `{!UuidTextLaws} `{!Countable Uuid} `{Hw : !ConfigWire} `{!ConfigWireLaws}
  `{!CidrText} `{!UrlOps} `{!UrlParts} {Event : Type} `{!IterOrder Uuid (NetworkInstance Event)} `{!IterOrder Path File}.
Implicit Types (m : Manager Event) (s : Sys Event) (p : Process (Event := Event)) (i : NetworkInstance Event) (dir : text).

(** *** Names of files *)

Lemma rsplit_dot_none l : 46 ∉ l -> rsplit_dot l = None.
Proof. induction l as [|x l IH]; intros Hn; [done|]. apply not_elem_of_cons in Hn as [Hx Hn]. simpl. rewrite IH by done. case_match eqn:E; [lia|done]. Qed.

Lemma rsplit_dot_app l e : 46 ∉ e -> rsplit_dot (l ++ 46 :: e) = Some (l, e).
Proof. intros He. induction l as [|x l IH]; simpl; [by rewrite (rsplit_dot_none e)|by rewrite IH]. Qed.

Lemma config_file_parts dir id :
  rsplit_file_at_dot (pa_name (config_file_of dir id)) = (Some (uuid_text id), Some (txt "toml")).
Proof.
  unfold rsplit_file_at_dot, config_file_of. cbn [pa_name]. rewrite bool_decide_eq_false_2.
  - change (txt ".toml") with (46 :: txt "toml"). rewrite rsplit_dot_app by (apply (bool_decide_unpack _); vm_compute; exact I).
    by rewrite bool_decide_eq_false_2 by apply uuid_text_nonempty.
  - intros E. apply (f_equal length) in E. rewrite length_app in E. cbn in E. lia.
Qed.

Lemma config_file_stem dir id : file_stem (config_file_of dir id) = Some (uuid_text id).
Proof. unfold file_stem. by rewrite config_file_parts. Qed.
Lemma config_file_extension dir id : extension (config_file_of dir id) = Some (txt "toml").
Proof. unfold extension. by rewrite config_file_parts. Qed.
Lemma config_file_toml dir id : is_toml (config_file_of dir id) = true.
Proof. unfold is_toml. rewrite config_file_extension. by rewrite bool_decide_eq_true_2. Qed.

Lemma config_file_inj dir id id' : config_file_of dir id = config_file_of dir id' -> id = id'.
Proof.
  intros E. assert (uuid_text id = uuid_text id') as Et by (apply (f_equal file_stem) in E; rewrite !config_file_stem in E; congruence).
  apply (f_equal uuid_parse) in Et. rewrite !uuid_parse_text in Et. congruence.
Qed.

(** *** Configurations of the front ends *)

Lemma gen_proxies_core l c c' : gen_proxies l c = Ok c' -> same_core c c'.
Proof.
  revert c; induction l as [|n l IH]; intros c E; simpl in E; [simplify_eq; apply same_core_refl|].
  destruct (add_proxy_network_to_config n c) as [c1|] eqn:E1; [|done]. eapply same_core_trans; [by eapply add_proxy_core|by apply IH].
Qed.

Lemma gen_ipv4_core n c c' : gen_ipv4 n c = Ok c' -> same_core c c'.
Proof. unfold gen_ipv4. core. Qed.
Lemma gen_peers_core n c c' : gen_peers n c = Ok c' -> same_core c c'.
Proof. unfold gen_peers. core. Qed.
Lemma gen_listeners_core n c c' : gen_listeners n c = Ok c' -> same_core c c'.
Proof. unfold gen_listeners. core. Qed.
Lemma gen_forwards_core n c : same_core c (gen_forwards n c).
Proof. unfold gen_forwards. by case_match. Qed.
Lemma gen_vpn_core n c c' : gen_vpn n c = Ok c' -> same_core c c'.
Proof. unfold gen_vpn. core. Qed.
Lemma gen_routes_core n c c' : gen_routes n c = Ok c' -> same_core c c'.
Proof. unfold gen_routes. core. Qed.
Lemma gen_exit_nodes_core n c c' : gen_exit_nodes n c = Ok c' -> same_core c c'.
Proof. unfold gen_exit_nodes. core. Qed.
Lemma gen_socks5_core n c c' : gen_socks5 n c = Done c' -> same_core c c'.
Proof. unfold gen_socks5. intros. repeat case_match; inv_outcome; by repeat split. Qed.
Lemma gen_mapped_core n c c' : gen_mapped n c = Done c' -> same_core c c'.
Proof. unfold gen_mapped. intros. repeat case_match; inv_outcome; by repeat split. Qed.

Lemma gen_config_ok random form c : gen_config random form = Done (Ok c) ->
  loader_ok c /\ cf_instance_id c = uuid_parse (default (uuid_text random) (nc_instance_id form)) /\ is_Some (cf_instance_id c).
Proof.
  unfold gen_config. intros E. apply bind_Done in E as (c0 & _ & E). apply bind_Done in E as (r & Er & E). apply try_Ok in E as (c1 & -> & E).
  assert (exists c2, same_core c1 c2 /\ c = set_flags (gen_flags_of form) c2) as (c2 & ((Hid & _) & Hi & _) & ->).
  { apply try_Ok in E as (a & Ea%gen_ipv4_core & E). apply try_Ok in E as (b & Eb%gen_peers_core & E). apply try_Ok in E as (d & Ed%gen_listeners_core & E).
    apply try_Ok in E as (e & Ee%gen_proxies_core & E). cbv zeta in E. pose proof (gen_forwards_core form e) as Ef. apply try_Ok in E as (g & Eg%gen_vpn_core & E).
    apply try_Ok in E as (h & Eh%gen_routes_core & E). apply try_Ok in E as (i & Ei%gen_exit_nodes_core & E).
    apply bind_Done in E as (j & Ej%gen_socks5_core & E). apply bind_Done in E as (k & Ek%gen_mapped_core & E). injection E as <-.
    exists k. split; [|done]. eauto 20 using same_core_trans. }
  unfold gen_basics in Er. destruct (uuid_parse _) as [id|] eqn:Eid; [|by simplify_eq]. apply bind_Done in Er as (n & En & Er). injection Er as <-.
  cbn in Hid, Hi |- *. rewrite Hid. split_and!; [|done|done]. split; [by eexists|]. eexists _, _, n. split; [exact Hi|exact En].
Qed.

(** *** What is on disk *)

(** An instance whose file holds its configuration, and which front ends may change
    and delete. *)
Definition saved_as dir (d : Disk) (id : Uuid) i : Prop :=
  ni_control i = control_new (Some (config_file_of dir id)) 0 /\ cf_instance_id (ni_config i) = Some id /\ loader_ok (ni_config i) /\
  exists t, dump (ni_config i) = Done t /\ d !! config_file_of dir id = Some {| fi_text := Some t; fi_readonly := false |}.

Record saved dir s : Prop := {
  sv_dir : nm_config_dir (sy_manager s) = Some dir;
  sv_instances id i : nm_instances (sy_manager s) !! id = Some i -> saved_as dir (sy_disk s) id i;
  sv_files q f : sy_disk s !! q = Some f -> pa_dir q = dir -> is_toml q = true ->
    exists id, q = config_file_of dir id /\ is_Some (nm_instances (sy_manager s) !! id) }.

(** Requests that name the instance as its configuration does, while every file can be
    written and removed, and no request drops instances without deleting them. *)
Definition careful (l : Label (Event := Event)) : Prop :=
  match l with
  | LRun a random req => a = Written /\ forall form inst_id, rq_config req = Some form -> rq_inst_id req = Some inst_id ->
      uuid_parse (default (uuid_text random) (nc_instance_id form)) = Some inst_id
  | LDelete removed _ => forall q, removed q = true
  | LRetain _ => False
  | _ => True
  end.

(** Changes of a manager that concern neither configurations nor files. *)
Definition kept_of i : Config Json * ConfigFileControl := (ni_config i, ni_control i).
Definition same_saved m m' : Prop :=
  nm_config_dir m' = nm_config_dir m /\ forall id, kept_of <$> nm_instances m' !! id = kept_of <$> nm_instances m !! id.

Lemma saved_same dir s s' : saved dir s -> sy_disk s' = sy_disk s -> same_saved (sy_manager s) (sy_manager s') -> saved dir s'.
Proof.
  intros [Hd Hi Hf] Ed [Ec Es]. split; [congruence| |].
  - intros id i' E. specialize (Es id). rewrite E in Es. destruct (nm_instances (sy_manager s) !! id) as [i|] eqn:E0; [|done].
    cbn in Es. unfold kept_of in Es. injection Es as E1 E2. specialize (Hi _ _ E0). unfold saved_as in *. by rewrite E1, E2, Ed.
  - intros q f. rewrite Ed. intros Eq Hq Ht. destruct (Hf q f Eq Hq Ht) as (id & -> & i & E0). exists id. split; [done|].
    specialize (Es id). rewrite E0 in Es. by destruct (nm_instances (sy_manager s') !! id).
Qed.

Lemma same_saved_thread f id m m' : thread_step f id m = Some m' -> same_saved m m'.
Proof.
  unfold thread_step. intros E. destruct (nm_instances m !! id) as [i|] eqn:Ei; [|done]. cbn in E. destruct (ni_launcher i) as [l|]; [|done]. cbn in E.
  destruct (la_alive l); [|done]. injection E as <-. split; [done|]. intros id'. cbn. destruct (decide (id' = id)) as [->|Hne].
  - by rewrite lookup_insert_eq, Ei.
  - by rewrite lookup_insert_ne.
Qed.

Lemma same_saved_tun_fd id fd m : same_saved m (manager_set_tun_fd id fd m).2.
Proof.
  unfold manager_set_tun_fd. destruct (nm_instances m !! id) as [i|] eqn:Ei; [|done]. split; [done|]. intros id'. cbn.
  destruct (decide (id' = id)) as [->|Hne]; [by rewrite lookup_insert_eq, Ei|by rewrite lookup_insert_ne].
Qed.

Lemma same_saved_stop_task id m : same_saved m (stop_task_end id m).
Proof. unfold stop_task_end. by case_match. Qed.

(** *** Running an instance *)

Lemma saved_run dir s cfg id random r s' : nm_config_dir (sy_manager s) = Some dir ->
  (forall id i, nm_instances (sy_manager s) !! id = Some i -> saved_as dir (sy_disk s) id i) -> loader_ok cfg -> cf_instance_id cfg = Some id ->
  nm_instances (sy_manager s) !! id = None ->
  from_option fi_readonly false (sy_disk s !! config_file_of dir id) = false ->
  (forall q f, sy_disk s !! q = Some f -> pa_dir q = dir -> is_toml q = true -> q <> config_file_of dir id ->
     exists id, q = config_file_of dir id /\ is_Some (nm_instances (sy_manager s) !! id)) ->
  save_and_run Written random id cfg (control_new (Some (config_file_of dir id)) 0) s = Done (r, s') -> saved dir s'.
Proof.
  intros Hd Hi Hok Hid Hnone Hro Hf E. unfold save_and_run in E. apply bind_Done in E as ([c d] & Es & E).
  apply bind_Done in E as ([r' m'] & Er & E). injection E as <- <-. unfold save_config in Es. cbn in Es. apply bind_Done in Es as (t & Et & Es).
  injection Es as <- <-. unfold manager_run in Er. unfold get_id in Er. rewrite Hid, Hnone in Er. apply bind_Done in Er as (i & Ei & Er).
  apply instance_start_running in Ei as (_ & Hcfg & Hctl & _). unfold start_instance_task in Er. cbn in Er. rewrite lookup_insert_eq in Er. injection Er as <- <-.
  split; [done| |]; cbn.
  - intros id' i' E'. destruct (decide (id' = id)) as [->|Hne].
    + rewrite lookup_insert_eq in E'. injection E' as <-. split_and!; [by rewrite Hctl|by rewrite Hcfg|by rewrite Hcfg|].
      exists t. rewrite Hcfg. split; [done|]. unfold put_text. by rewrite lookup_insert_eq, Hro.
    + rewrite lookup_insert_ne in E' by done. destruct (Hi _ _ E') as (Hp & Hq & Hl & t' & Hd' & Hf'). split_and!; try done. exists t'. split; [done|].
      unfold put_text. rewrite lookup_insert_ne; [done|]. by intros ->%config_file_inj.
  - intros q f Eq Hq Ht. unfold put_text in Eq. destruct (decide (q = config_file_of dir id)) as [->|Hne].
    + exists id. split; [done|]. by rewrite lookup_insert_eq.
    + rewrite lookup_insert_ne in Eq by done. destruct (Hf q f Eq Hq Ht Hne) as (id' & -> & Hs). exists id'. split; [done|].
      rewrite lookup_insert_ne; [done|]. by intros ->.
Qed.

Lemma not_read_only_saved path : is_read_only (control_new path 0) = false.
Proof. done. Qed.

Lemma saved_rpc_run dir s a random req r s' : saved dir s -> careful (LRun a random req) ->
  run_network_instance a random req s = Done (r, s') -> saved dir s'.
Proof.
  intros Hs [-> Hreq] E. destruct Hs as [Hd Hi Hf]. unfold run_network_instance in E.
  destruct (rq_config req) as [form|] eqn:Eform; [|by simplify_eq]. apply bind_Done in E as ([cfg0|e] & Eg & E); [|by simplify_eq].
  destruct (gen_config_ok _ _ _ Eg) as (Hok0 & Hid0 & [id Hid]). unfold get_id in E. rewrite Hid in E.
  set (cfg := match rq_inst_id req with Some inst_id => set_id inst_id cfg0 | None => cfg0 end) in *.
  assert (loader_ok cfg /\ cf_instance_id cfg = Some id) as [Hok Hcid].
  { unfold cfg. destruct (rq_inst_id req) as [inst_id|] eqn:Ei; [|done]. specialize (Hreq _ _ eq_refl eq_refl). split; [done|]. cbn. congruence. }
  clearbody cfg. unfold get_instance_config_control in E. destruct (nm_instances (sy_manager s) !! id) as [i|] eqn:Ei; cbn in E.
  - destruct (Hi _ _ Ei) as (Hctl & _ & _ & t & _ & Hfile). rewrite Hctl in E. destruct (rq_overwrite req); cbn in E; [|by simplify_eq].
    unfold from_path in E. rewrite Hfile in E. cbn in E. eapply saved_run; [| |done|done| | | |exact E]; cbn.
    + done.
    + intros id' i' [E' _]%map_lookup_filter_Some. by apply Hi.
    + apply map_lookup_filter_None. right. intros i' _. cbn. rewrite bool_decide_eq_true_2 by (by apply list_elem_of_singleton). done.
    + by rewrite Hfile.
    + intros q f Eq Hq Ht Hne. destruct (Hf q f Eq Hq Ht) as (id' & -> & [i' Hi']). exists id'. split; [done|]. exists i'.
      apply map_lookup_filter_Some. split; [done|]. cbn. rewrite bool_decide_eq_false_2; [done|]. intros ->%list_elem_of_singleton. done.
  - rewrite Hd in E. cbn in E. eapply saved_run; [done|done|done|done|done| | |exact E].
    + destruct (sy_disk s !! config_file_of dir id) as [f|] eqn:Ef; [|done]. destruct (Hf _ _ Ef) as (id' & E' & Hs); [done|apply config_file_toml|].
      apply config_file_inj in E' as ->. rewrite Ei in Hs. by destruct Hs.
    + intros q f Eq Hq Ht _. by eapply Hf.
Qed.

(** *** Deleting instances *)

Lemma elem_of_bool_filter {A} (f : A -> bool) l x : x ∈ List.filter f l <-> x ∈ l /\ f x = true.
Proof. by rewrite !list_elem_of_In, filter_In. Qed.

Lemma delete_files (fs : list Path) (removed : Path -> bool) (d : Disk) q : (forall q, removed q = true) ->
  foldl (fun d q => if removed q then delete q d else d) d fs !! q = if bool_decide (q ∈ fs) then None else d !! q.
Proof.
  intros Hr. revert d; induction fs as [|f fs IH]; intros d; cbn [foldl]; [by rewrite bool_decide_eq_false_2 by apply not_elem_of_nil|].
  rewrite IH, Hr. destruct (decide (q = f)) as [->|Hne].
  - rewrite (bool_decide_eq_true_2 (f ∈ f :: fs)) by left. case_bool_decide; [done|]. apply lookup_delete_eq.
  - rewrite lookup_delete_ne by done. repeat case_bool_decide; set_solver.
Qed.

Lemma saved_rpc_delete dir s removed ids : saved dir s -> (forall q, removed q = true) -> saved dir (rpc_delete_network_instance removed ids s).2.
Proof.
  intros [Hd Hi Hf] Hr. unfold rpc_delete_network_instance, delete_network_instance. cbv zeta. cbn [snd].
  set (gone := (List.filter _ _).*1).
  assert (Hgone : forall id, id ∈ gone -> is_Some (nm_instances (sy_manager s) !! id)).
  { intros id. unfold gone. rewrite list_elem_of_fmap. intros ([id' i] & -> & [Hin%elem_of_map_iter _]%elem_of_bool_filter). by exists i. }
  assert (Hfiles : forall id, config_file_of dir id ∈ omap (fun id => get_instance_config_control id (sy_manager s) ≫= cc_path) gone <-> id ∈ gone).
  { intros id. rewrite list_elem_of_omap. unfold get_instance_config_control. split.
    - intros (id' & Hin & E). destruct (Hgone _ Hin) as [i Ei]. rewrite Ei in E. destruct (Hi _ _ Ei) as (Hctl & _). cbn in E. rewrite Hctl in E. cbn in E.
      injection E as E. assert (id' = id) as -> by (apply (config_file_inj dir); unfold config_file_of; by f_equal). done.
    - intros Hin. exists id. split; [done|]. destruct (Hgone _ Hin) as [i Ei]. rewrite Ei. destruct (Hi _ _ Ei) as (Hctl & _). cbn. by rewrite Hctl. }
  split; cbn.
  - done.
  - intros id i [E Hk]%map_lookup_filter_Some. cbn in Hk. apply negb_true_iff, bool_decide_eq_false in Hk.
    destruct (Hi _ _ E) as (Hp & Hq & Hl & t' & Hd' & Hf'). split_and!; try done. exists t'. split; [done|].
    rewrite delete_files by done. rewrite bool_decide_eq_false_2; [done|]. by rewrite Hfiles.
  - intros q f Eq Hq Ht. rewrite delete_files in Eq by done. case_bool_decide as Hin; [done|]. destruct (Hf q f Eq Hq Ht) as (id & -> & [i Ei]).
    exists id. split; [done|]. exists i. apply map_lookup_filter_Some. split; [done|]. cbn. apply negb_true_iff, bool_decide_eq_false. by rewrite <- Hfiles.
Qed.

(** *** A process that saves what it runs *)

Lemma process_step_saved dir l p p' acts : saved dir (pr_sys p) -> careful l -> process_step l p = Done (Some (p', acts)) -> saved dir (pr_sys p').
Proof.
  intros Hs Hl E. unfold process_step in E. destruct (pr_main p) eqn:Em; [| |done].
  all: destruct l as [a random req|removed ids|ids|id fd|id|id now e|id error|id| | |]; cbv zeta in E; [..|unfold wait_step in E; rewrite Em in E].
  1, 12: apply bind_Done in E as ([r s] & E & E'); injection E' as <- <-; by eapply saved_rpc_run.
  1, 11: destruct (rpc_delete_network_instance removed ids (pr_sys p)) as [remain s] eqn:Es; injection E as <- <-; cbn;
    replace s with (rpc_delete_network_instance removed ids (pr_sys p)).2 by (by rewrite Es); by apply saved_rpc_delete.
  1, 10: done.
  1, 9: destruct (manager_set_tun_fd id fd _) as [r m] eqn:Et in E; injection E as <- <-; eapply saved_same; [done|done|]; cbn;
    replace m with (manager_set_tun_fd id fd (sy_manager (pr_sys p))).2 by (by rewrite Et); apply same_saved_tun_fd.
  1, 2, 8, 9: destruct (thread_step _ _ _) as [m|] eqn:Et in E; cbn in E; simplify_eq; eapply saved_same; [done|done|]; by eapply same_saved_thread.
  1, 6: destruct (thread_step _ _ _) as [m|] eqn:Et in E; cbn in E; simplify_eq; eapply saved_same; [done|done|]; by apply same_saved_thread in Et.
  1, 5: destruct (nm_stop_tasks _ !! id) as [[]|] eqn:Et in E; cbn in E; simplify_eq; eapply saved_same; [done|done|]; apply same_saved_stop_task.
  1, 4: simplify_eq; by eapply saved_same.
  1, 3: case_match; simplify_eq; by eapply saved_same.
  - cbn in E. by simplify_eq.
  - destruct (nm_notified _) in E; cbn in E; simplify_eq. by eapply saved_same.
Qed.

Lemma run_saved dir ls p p' acts : saved dir (pr_sys p) -> Forall careful ls -> run process_step ls p = Done (p', acts) -> saved dir (pr_sys p').
Proof.
  revert p acts; induction ls as [|l ls IH]; intros p acts Hs Hl E; cbn [run] in E; [by simplify_eq|]. apply Forall_cons in Hl as [Hl Hls].
  apply bind_Done in E as (r & Er & E). destruct r as [[p1 acts1]|]; cbn in E; apply bind_Done in E as ([p2 acts2] & E & E'); simplify_eq.
  - eapply IH; [|done|done]. by eapply process_step_saved.
  - by eapply IH.
Qed.

(** *** Starting again *)

(** A command line with a configuration server and a directory, and nothing else. *)
Definition server_cli dir : Cli :=
  {| cl_config_server := true; cl_config_file := []; cl_config_dir := Some dir; cl_options := default_options |}.

(** An instance that comes back: with what its file holds, and as changeable as before. *)
Definition restored i i' : Prop :=
  ni_config i' = reloaded (ni_config i) /\ ni_control i' = ni_control i /\ is_easytier_running i' = true.

Lemma restored_dom (a b : gmap Uuid (NetworkInstance Event)) : (forall id, option_Forall2 restored (a !! id) (b !! id)) -> dom b = dom a.
Proof.
  intros Hr. apply set_eq. intros id. rewrite !elem_of_dom. specialize (Hr id). inversion Hr as [i i' _ Ei Ei'|Ei Ei'].
  - split; intros _; [by exists i|by exists i'].
  - split; by intros [? ?].
Qed.

Lemma reloaded_id c id : loader_ok c -> cf_instance_id c = Some id -> cf_instance_id (reloaded c) = Some id.
Proof. intros [[f Ef] (name & secret & j & Ej & _)] Hid. destruct (reloaded_keeps _ _ _ Ef Ej) as (_ & _ & _ & -> & _). done. Qed.

Lemma config_file_not_stdin dir id : config_file_of dir id <> {| pa_dir := []; pa_name := txt "-" |}.
Proof. unfold config_file_of. intros E. injection E as _ E. apply (f_equal length) in E. rewrite length_app in E. cbn in E. lia. Qed.

Lemma load_saved dir (d : Disk) id i random stdin : saved_as dir d id i ->
  load_config_from_file random stdin d (config_file_of dir id) (Some dir) = Done (Ok (reloaded (ni_config i), ni_control i)).
Proof.
  intros (Hctl & Hid & Hok & t & Ht & Hf). destruct (dump_reads_back _ _ Hok Ht) as [Hr _]. unfold load_config_from_file.
  rewrite bool_decide_eq_false_2 by apply config_file_not_stdin. unfold loader_new. rewrite Hf. cbn [mbind option_bind fi_text]. rewrite Hr.
  cbn [mbind outcome_bind try]. unfold from_path. rewrite Hf. cbn [fi_readonly control_new]. rewrite not_read_only_saved.
  rewrite (bool_decide_eq_true_2 (pa_dir (config_file_of dir id) = dir)) by done. unfold get_id. rewrite (reloaded_id _ _ Hok Hid).
  rewrite config_file_stem, config_file_extension, !bool_decide_eq_true_2 by done. by rewrite Hctl.
Qed.

Lemma run_saved_files dir random stdin (d : Disk) (insts : gmap Uuid (NetworkInstance Event)) count files m :
  (forall id i, insts !! id = Some i -> saved_as dir d id i) -> NoDup files ->
  (forall q, q ∈ files -> exists id i, q = config_file_of dir id /\ insts !! id = Some i /\ nm_instances m !! id = None) ->
  exists m', run_config_files random stdin d (server_cli dir) count files false m = Done (Ok (false, m')) /\
    forall id, (config_file_of dir id ∈ files -> option_Forall2 restored (insts !! id) (nm_instances m' !! id)) /\
               (config_file_of dir id ∉ files -> nm_instances m' !! id = nm_instances m !! id).
Proof.
  intros Hsv. revert m; induction files as [|q files IH]; intros m Hnd Hall.
  { exists m. split; [done|]. intros id. split; [intros Hin; by apply not_elem_of_nil in Hin|done]. }
  apply NoDup_cons in Hnd as [Hq Hnd]. destruct (Hall q) as (id & i & -> & Ei & Hm); [left|]. pose proof (Hsv _ _ Ei) as Hsi.
  pose proof Hsi as (Hctl & Hid & Hok & t & Ht & Hf). destruct (dump_reads_back _ _ Hok Ht) as [_ Hd'].
  cbn [run_config_files]. change (cl_config_dir (server_cli dir)) with (Some dir). rewrite (load_saved _ _ _ _ _ _ Hsi). cbn [mbind outcome_bind try].
  assert (can_merge (cl_options (server_cli dir)) count (reloaded (ni_config i)) = Done false) as -> by (unfold can_merge; by rewrite bool_decide_eq_true_2).
  cbn [mbind outcome_bind try]. rewrite Hd'. cbn [mbind outcome_bind].
  unfold manager_run, get_id. rewrite (reloaded_id _ _ Hok Hid), Hm. unfold instance_start, launcher_start. cbn [is_easytier_running ni_launcher ni_config instance_new from_option].
  rewrite Hd'. cbn [mbind outcome_bind]. unfold start_instance_task. cbn [negb]. cbn [nm_instances put_instances]. rewrite lookup_insert_eq. cbn [try].
  match goal with |- context [run_config_files _ _ _ _ _ files false ?m1] => destruct (IH m1 Hnd) as (m' & E & Hres) end; [|exists m'; split; [exact E|]].
  - intros q' Hin. destruct (Hall q') as (id' & i' & -> & Ei' & Hm'); [by right|]. exists id', i'. split_and!; [done|done|]. cbn. rewrite lookup_insert_ne; [done|]. by intros ->.
  - intros id'. destruct (Hres id') as [H1' H2']. split.
    + intros [Heq|Hin]%elem_of_cons; [|by apply H1']. apply config_file_inj in Heq as ->. rewrite H2' by done. cbn. rewrite lookup_insert_eq, Ei. by constructor.
    + intros [Hne Hnin]%not_elem_of_cons. rewrite H2' by done. cbn. rewrite lookup_insert_ne; [done|]. by intros ->.
Qed.

Lemma elem_of_read_config_dir dir (d : Disk) q : q ∈ read_config_dir dir d <-> is_Some (d !! q) /\ pa_dir q = dir /\ is_toml q = true.
Proof.
  unfold read_config_dir. rewrite elem_of_bool_filter, andb_true_iff, bool_decide_eq_true, list_elem_of_fmap. f_equiv. split.
  - intros ([q' f] & -> & Hin%elem_of_map_iter). by exists f.
  - intros [f Hf]. exists (q, f). split; [done|]. by apply elem_of_map_iter.
Qed.

Lemma read_config_dir_nodup dir (d : Disk) : NoDup (read_config_dir dir d).
Proof.
  unfold read_config_dir. assert (NoDup (map_iter d).*1) as Hnd by (rewrite map_iter_perm; apply NoDup_fst_map_to_list).
  induction Hnd as [|x l Hx Hnd IH]; cbn; [constructor|]. case_match; [|done]. constructor; [|done]. by rewrite elem_of_bool_filter; intros [? _].
Qed.

Lemma saved_restarts dir s random random_cli stdin : saved dir s ->
  exists m', run_main random random_cli stdin true (server_cli dir) (sy_disk s) = Done (Ok m') /\
    forall id, option_Forall2 restored (nm_instances (sy_manager s) !! id) (nm_instances m' !! id).
Proof.
  intros [Hd Hi Hf]. unfold run_main. cbv zeta. cbn [cl_config_dir server_cli negb mbind outcome_bind try cl_config_file app from_option cl_config_server].
  rewrite andb_false_r. cbn [orb cl_options]. rewrite bool_decide_eq_false_2 by (intros [? ?]; done).
  destruct (run_saved_files dir random stdin (sy_disk s) (nm_instances (sy_manager s)) (len (read_config_dir dir (sy_disk s))) (read_config_dir dir (sy_disk s))
    (register_web_client (manager_new (Some dir)))) as (m' & E & Hres); [done|apply read_config_dir_nodup| |].
  - intros q ([f Eq] & Hq & Ht)%elem_of_read_config_dir. destruct (Hf q f Eq Hq Ht) as (id & -> & [i Ei]). by exists id, i.
  - exists m'. rewrite E. split; [done|]. intros id. destruct (Hres id) as [H1' H2'].
    destruct (nm_instances (sy_manager s) !! id) as [i|] eqn:Ei.
    + apply H1'. apply elem_of_read_config_dir. destruct (Hi _ _ Ei) as (_ & _ & _ & t & _ & Eq). split_and!; [by eexists|done|apply config_file_toml].
    + rewrite H2'; [constructor|]. intros ([f Eq] & Hq & Ht)%elem_of_read_config_dir. destruct (Hf _ f Eq Hq Ht) as (id' & Eid & [i' Ei']).
      apply config_file_inj in Eid as ->. congruence.
Qed.

Lemma loader_ok_reloaded c : loader_ok c -> loader_ok (reloaded c).
Proof.
  intros [[f Ef] (name & secret & j & Ej & Hj)]. destruct (reloaded_keeps _ _ _ Ef Ej) as (Hf & Hi & _). split; [by eexists|]. by eexists _, _, j.
Qed.

Lemma run_main_dir random random_cli stdin cli (d : Disk) m' : run_main random random_cli stdin true cli d = Done (Ok m') ->
  nm_config_dir m' = cl_config_dir cli.
Proof.
  assert (Hrun : forall random cfg control m r m', manager_run true random cfg true control m = Done (r, m') -> nm_config_dir m' = nm_config_dir m).
  { clear. intros random cfg control m r m' E. unfold manager_run in E. destruct (get_id random cfg) as [id cfg']. case_match; [by simplify_eq|].
    apply bind_Done in E as (i & _ & E). unfold start_instance_task in E. cbn in E. rewrite lookup_insert_eq in E. by simplify_eq. }
  assert (Hfiles : forall random stdin d cli count files net m net' m', run_config_files random stdin d cli count files net m = Done (Ok (net', m')) ->
    nm_config_dir m' = nm_config_dir m).
  { clear -Hrun. intros random stdin d cli count files. induction files as [|f files IH]; intros net m net' m' E; cbn [run_config_files] in E; [by simplify_eq|].
    apply bind_Done in E as (r & _ & E). apply try_Ok in E as ([cfg control] & -> & E). apply bind_Done in E as (mg & _ & E).
    apply bind_Done in E as (r & _ & E). apply try_Ok in E as ([[cfg' control'] net1] & -> & E). apply bind_Done in E as (t & _ & E).
    apply bind_Done in E as ([r m1] & Er & E). apply try_Ok in E as (id & -> & E). rewrite (IH _ _ _ _ E). by eapply Hrun. }
  unfold run_main. cbv zeta. intros E. apply bind_Done in E as (r & _ & E). apply try_Ok in E as (u & -> & E).
  apply bind_Done in E as (r & Er & E). apply try_Ok in E as ([net m1] & -> & E). apply Hfiles in Er.
  assert (nm_config_dir m1 = cl_config_dir cli) as Hm1 by (rewrite Er; by destruct (cl_config_server cli)). destruct net; [|by simplify_eq].
  apply bind_Done in E as (cfg & _ & E). apply bind_Done in E as (r & _ & E). apply try_Ok in E as (cfg' & _ & E).
  apply bind_Done in E as (t & _ & E). apply bind_Done in E as ([r' m2] & Er' & E). apply Hrun in Er'. destruct r'; simplify_eq. congruence.
Qed.

(** Processes that serve a directory one after the other, the first of them when it had
    no configuration files in it. *)
Inductive history dir : Sys Event -> Prop :=
  | first_start random random_cli stdin (d : Disk) m : (forall q f, d !! q = Some f -> pa_dir q = dir -> is_toml q = false) ->
      run_main random random_cli stdin true (server_cli dir) d = Done (Ok m) -> history dir {| sy_manager := m; sy_disk := d |}
  | process_works s main ls p acts : history dir s -> Forall careful ls ->
      run process_step ls {| pr_sys := s; pr_main := main |} = Done (p, acts) -> history dir (pr_sys p)
  | process_restarts random random_cli stdin s m : history dir s ->
      run_main random random_cli stdin true (server_cli dir) (sy_disk s) = Done (Ok m) -> history dir {| sy_manager := m; sy_disk := sy_disk s |}.

Lemma saved_restarted dir s random random_cli stdin m : saved dir s ->
  run_main random random_cli stdin true (server_cli dir) (sy_disk s) = Done (Ok m) -> saved dir {| sy_manager := m; sy_disk := sy_disk s |}.
Proof.
  intros Hs E. pose proof (run_main_dir _ _ _ _ _ _ E) as Hdir. destruct (saved_restarts dir s random random_cli stdin Hs) as (m' & E' & Hres).
  rewrite E in E'. injection E' as <-. destruct Hs as [Hd Hi Hf]. split; [done| |]; cbn.
  - intros id i' Ei'. specialize (Hres id). rewrite Ei' in Hres. inversion Hres as [i i2 (Hcfg & Hctl & _) Ei E2|]; subst. symmetry in Ei.
    destruct (Hi _ _ Ei) as (Hc' & Hid & Hok & t & Ht & Hfile). split_and!.
    + congruence.
    + rewrite Hcfg. by apply reloaded_id.
    + rewrite Hcfg. by apply loader_ok_reloaded.
    + exists t. rewrite Hcfg. split; [|done]. by apply dump_reads_back.
  - intros q f Eq Hq Ht. destruct (Hf q f Eq Hq Ht) as (id & -> & [i Ei]). exists id. split; [done|]. specialize (Hres id). rewrite Ei in Hres.
    inversion Hres. by eexists.
Qed.

Lemma empty_saved dir (d : Disk) : (forall q f, d !! q = Some f -> pa_dir q = dir -> is_toml q = false) ->
  saved dir {| sy_manager := manager_new (Some dir); sy_disk := d |}.
Proof. intros Hno. split; [done|done|]. intros q f Eq Hq Ht. cbn in Eq. by rewrite (Hno q f Eq Hq) in Ht. Qed.

Lemma history_saved dir s : history dir s -> saved dir s.
Proof.
  induction 1 as [random random_cli stdin d m Hno E|s main ls p acts _ IH Hl E|random random_cli stdin s m _ IH E].
  - exact (saved_restarted dir _ _ _ _ m (empty_saved dir d Hno) E).
  - by apply (run_saved dir ls {| pr_sys := s; pr_main := main |} p acts).
  - by eapply saved_restarted.
Qed.

(** C31.  Instances survive a restart.  Let processes with a configuration server serve a
    directory one after the other, each running, overwriting and deleting instances on
    request while its instances start, report and end in any order.  If requests name an
    instance as its configuration does, files can be written and removed, and instances
    are deleted and not just left out of a list of those to retain, then a process that is
    started on the directory starts exactly the instances that the last one had, each with the configuration
    it was run with as that reads back from its file, and each can be changed and
    deleted as before. *)
Theorem instances_survive_restart dir s random random_cli stdin : history dir s ->
  exists m', run_main random random_cli stdin true (server_cli dir) (sy_disk s) = Done (Ok m') /\
    forall id, option_Forall2 restored (nm_instances (sy_manager s) !! id) (nm_instances m' !! id).
Proof. intros Hs%history_saved. by apply saved_restarts. Qed.

(** ** What surprises *)

(** Retaining drops instances and keeps their files: the next process starts them again. *)
Lemma dropped_instances_return dir s ids random random_cli stdin : saved dir s ->
  exists m', run_main random random_cli stdin true (server_cli dir) (sy_disk s) = Done (Ok m') /\
    forall id, is_Some (nm_instances (sy_manager s) !! id) -> id ∉ ids ->
      nm_instances (retain_network_instance ids (sy_manager s)).2 !! id = None /\ is_Some (nm_instances m' !! id).
Proof.
  intros Hs. destruct (saved_restarts dir s random random_cli stdin Hs) as (m' & E & Hres). exists m'. split; [done|]. intros id [i Ei] Hid. split.
  - cbn. apply map_lookup_filter_None. right. intros i' _. cbn. by rewrite bool_decide_eq_false_2.
  - specialize (Hres id). rewrite Ei in Hres. inversion Hres. by eexists.
Qed.

(** A request that names an instance other than its configuration does is judged by the
    configuration's id: when the instance it names is there, it fails, but a file under the
    other id has been written with the configuration of the one that is there. *)
Lemma stray_file_written dir s random req form cfg id x t : nm_config_dir (sy_manager s) = Some dir ->
  rq_config req = Some form -> rq_inst_id req = Some x -> gen_config random form = Done (Ok cfg) -> cf_instance_id cfg = Some id ->
  nm_instances (sy_manager s) !! id = None -> is_Some (nm_instances (sy_manager s) !! x) -> dump (set_id x cfg) = Done t ->
  run_network_instance Written random req s =
    Done (Err InstanceExists, {| sy_manager := sy_manager s; sy_disk := put_text t (config_file_of dir id) (sy_disk s) |}).
Proof.
  intros Hd Ef Ex Eg Hid Hn [i Hx] Ht. unfold run_network_instance. rewrite Ef, Eg. cbn [mbind outcome_bind]. unfold get_id. rewrite Hid, Ex.
  unfold get_instance_config_control. rewrite Hn, Hd. cbn [fmap option_fmap option_map]. unfold save_and_run, save_config. rewrite not_read_only_saved.
  cbn [cc_path control_new]. rewrite Ht. cbn [mbind outcome_bind fs_write]. unfold manager_run, get_id. cbn [cf_instance_id set_id put_instance_id]. by rewrite Hx.
Qed.

(** Two files with one id keep the process from starting. *)
Lemma duplicate_id_stops random stdin (d : Disk) cli count q files net m cfg control id : load_config_from_file (random q) stdin d q (cl_config_dir cli) = Done (Ok (cfg, control)) ->
  cl_options cli = default_options -> cf_instance_id cfg = Some id -> is_Some (nm_instances m !! id) -> is_done (dump cfg) = true ->
  run_config_files random stdin d cli count (q :: files) net m = Done (Err InstanceExists).
Proof.
  intros Hl Ho Hid [i Hi] Hd. cbn [run_config_files]. rewrite Hl. cbn [mbind outcome_bind try]. unfold can_merge. rewrite Ho, bool_decide_eq_true_2 by done.
  cbn [mbind outcome_bind try]. destruct (dump cfg); [|done]. cbn [mbind outcome_bind]. unfold manager_run, get_id. by rewrite Hid, Hi.
Qed.

(** An instance whose file could not be written can not be overwritten any more, nor one
    whose file is gone. *)
Lemma failed_write_locks cfg path d control' d' : save_config NotOpened cfg (control_new (Some path) 0) d = Done (control', d') -> is_read_only control' = true.
Proof. unfold save_config. rewrite not_read_only_saved. cbn [cc_path control_new]. intros E. apply bind_Done in E as (t & _ & E). cbn in E. by simplify_eq. Qed.

Lemma missing_file_locks (d : Disk) path : d !! path = None -> is_read_only (from_path d path) = true.
Proof. unfold from_path. by intros ->. Qed.

(** An instance that ends with an error before the main task first checks: the process
    ends, and reports no error. *)
Lemma early_error_lost m (d : Disk) id i e : nm_instances m = {[id := i]} -> is_easytier_running i = true -> nm_errors m = ∅ -> nm_web_clients m = O ->
  exists p, run process_step [LEnd id (Some e); LWait] (process_of m d) = Done (p, []) /\ pr_main p = Exited /\ exit_ok (sy_manager (pr_sys p)) = true.
Proof.
  intros Hi Hr He Hw0. unfold is_easytier_running in Hr. destruct (ni_launcher i) as [l|] eqn:El; [|done]. cbn in Hr.
  set (m1 := signal_end id (put_instances {[id := put_launcher (Some (routine_end (Some e) l)) i]} m)).
  assert (nothing_runs m1 = true) as Hn.
  { apply nothing_runs_spec. split; [|done]. intros id' i' E'. cbn in E'. apply lookup_singleton_Some in E' as [_ <-]. done. }
  exists {| pr_sys := {| sy_manager := m1; sy_disk := d |}; pr_main := Exited |}. split_and!; [|done|].
  - eapply (run_app process_step [LEnd id (Some e)] [LWait] _ (with_manager m1 (process_of m d)) _ [] []).
    + apply run_one. unfold process_step. cbv zeta. cbn [process_of pr_main pr_sys sy_manager]. unfold thread_step. rewrite Hi, lookup_singleton_eq. cbn [mbind option_bind].
      rewrite El. cbn [mbind option_bind]. rewrite Hr, insert_singleton_eq. reflexivity.
    + apply run_one, process_step_wait. unfold wait_step. cbn [pr_main with_manager process_of pr_sys sy_manager sy_disk]. by rewrite Hn.
  - cbn [pr_sys sy_manager]. unfold exit_ok, collect_network_infos. cbn [m1 nm_errors signal_end put_stop_tasks put_instances nm_instances]. rewrite He, fmap_empty, (left_id_L ∅ (∪)).
    rewrite omap_singleton_None; [done|]. cbn. by rewrite andb_false_r.
Qed.
End saving.

(** ** An example: files that hold name, id, DHCP, identity and flags *)

#[local] Existing Instances net_lib toy_uuid toy_json_eq_dec toy_json_countable.

Definition run_file : Type := text * Z * option bool * option (text * option text) * option (gmap text toy_json).

Definition run_to_string (c : @Config net_lib toy_uuid toy_json) : option text :=
  match c with
  | mkConfig None None (Some n) (Some id) None None d i (Some []) None None None None None None None None m _ None None None None None =>
      Some [Z.pos (encode ((n, id : Z, d, (fun i => (network_name i, network_secret i)) <$> i, m) : run_file))]
  | _ => None
  end.

Definition run_from_str (t : text) : option (@Config net_lib toy_uuid toy_json) :=
  match t with
  | [] => Some (mkConfig None None None None None None None None None None None None None None None None None None None None None None None None)
  | [Z.pos p] =>
      (fun x : run_file =>
         let '(n, id, d, i, m) := x in
         let i := (fun '(n, s) => {| network_name := n; network_secret := s; network_secret_digest := None |}) <$> i in
         mkConfig None None (Some n) (Some (id : @Uuid toy_uuid)) None None d i (Some []) None None None None None None None None m None None None None None None)
      <$> decode p
  | _ => None
  end.

#[local] Instance run_uuid_countable : Countable (@Uuid toy_uuid) := Z_countable.
#[local] Instance run_uuid_laws : @UuidLaws toy_uuid.
Proof. by split. Qed.
#[local] Instance run_uuid_text_laws : @UuidTextLaws toy_uuid.
Proof. by split. Qed.

#[local] Instance run_wire : @ConfigWire net_lib toy_uuid := @Build_ConfigWire net_lib toy_uuid toy_json toy_json_eq_dec
  (fun f => list_to_map (toy_flags_json f)) toy_flags_of run_to_string run_from_str.

#[local] Instance run_wire_laws : @ConfigWireLaws net_lib toy_uuid run_wire.
Proof.
  split.
  - intros []. vm_compute. reflexivity.
  - intros f g. cbn [flags_to_json run_wire]. by rewrite !(dom_list_to_map_L (D := gset text)).
  - done.
  - intros c t. cbn [toml_to_string run_wire]. unfold run_to_string. destruct c as [? ? ? ? ? ? d ni ? ? ? ? ? ? ? ? ? m fs ? ? ? ? ?].
    repeat (case_match; try done). intros [= <-]. cbn [toml_from_str run_wire]. unfold run_from_str. rewrite decode_encode. cbn. by destruct ni.
Qed.

#[local] Instance run_cidr_text : @CidrText net_lib := @Build_CidrText net_lib (fun _ => []) (fun _ => None) (fun _ => []) (fun _ => None) (fun _ => []) (fun _ => None).
#[local] Instance run_urls : UrlOps := {| parse_url := fun _ => None; socket_addrs := fun _ => Err tt; set_host := fun _ _ => None |}.
#[local] Instance run_url_parts : UrlParts := {| host_str := fun _ => None; url_path := fun _ => []; path_segments := fun _ => None |}.
#[local] Instance run_hasher : Hasher64 := {| hash64 l := as_u64 (len l) |}.

Definition run_form (id : Z) : NetworkConfig := {|
  nc_instance_id := Some [id]; nc_dhcp := Some true; nc_virtual_ipv4 := None; nc_network_length := None; nc_hostname := None;
  nc_network_name := Some (txt "net"); nc_network_secret := Some (txt "secret"); nc_networking_method := Some 2; nc_public_server_url := None;
  nc_peer_urls := []; nc_proxy_cidrs := []; nc_enable_vpn_portal := None; nc_vpn_portal_listen_port := None;
  nc_vpn_portal_client_network_addr := None; nc_vpn_portal_client_network_len := None; nc_listener_urls := []; nc_latency_first := None;
  nc_dev_name := None; nc_use_smoltcp := None; nc_disable_ipv6 := None; nc_enable_kcp_proxy := None; nc_disable_kcp_input := None;
  nc_disable_p2p := None; nc_bind_device := None; nc_no_tun := None; nc_enable_exit_node := None; nc_relay_all_peer_rpc := None;
  nc_multi_thread := None; nc_enable_relay_network_whitelist := None; nc_relay_network_whitelist := [];
  nc_enable_manual_routes := None; nc_routes := []; nc_exit_nodes := []; nc_proxy_forward_by_system := None; nc_disable_encryption := None;
  nc_enable_socks5 := None; nc_socks5_port := None; nc_disable_udp_hole_punching := None; nc_mtu := None; nc_mapped_listeners := [];
  nc_enable_magic_dns := None; nc_enable_private_mode := None; nc_enable_quic_proxy := None; nc_disable_quic_input := None;
  nc_quic_listen_port := None; nc_port_forwards := []; nc_disable_sym_hole_punching := None |}.

Definition run_req (id : Z) : @RunRequest toy_uuid := {| rq_inst_id := None; rq_config := Some (run_form id); rq_overwrite := true |}.

(** Two instances are run, one is overwritten, the other deleted. *)
Definition run_labels : list (@Label toy_uuid ()) :=
  [LRun Written 0 (run_req 7); LRun Written 0 (run_req 8); LReady 7; LRun Written 0 (run_req 7); LDelete (fun _ => true) [8]; LStopTask 8; LWait].

Definition run_start : Process (Event := ()) :=
  process_of (register_web_client (manager_new (Some (txt "conf")))) ∅.

Example run_labels_done : match run process_step run_labels run_start with
  | Done (p, _) => bool_decide (dom (nm_instances (sy_manager (pr_sys p))) = {[7]}) && bool_decide (dom (sy_disk (pr_sys p)) = {[config_file_of (txt "conf") 7]})
  | Panicked _ => false
  end = true.
Proof. vm_compute. reflexivity. Qed.

Definition no_id : @Uuid toy_uuid := 0.

Lemma run_start_main : run_main (fun _ => no_id) no_id None true (server_cli (txt "conf")) ∅ = Done (Ok (sy_manager (pr_sys run_start))).
Proof.
  unfold run_main. cbv zeta. cbn [cl_config_dir cl_config_file server_cli negb mbind outcome_bind try app from_option cl_config_server].
  assert (read_config_dir (txt "conf") ∅ = []) as -> by (unfold read_config_dir; cbn [map_iter default_iter_order]; by rewrite map_to_list_empty).
  rewrite bool_decide_eq_false_2 by (intros [? ?]; done). reflexivity.
Qed.

Lemma run_labels_careful : Forall careful run_labels.
Proof. repeat constructor; done. Qed.

Lemma instances_survive_restart_witness : exists (s : Sys ()) (m' : Manager ()), history (txt "conf") s /\
  run_main (fun _ => no_id) no_id None true (server_cli (txt "conf")) (sy_disk s) = Done (Ok m') /\
  dom (nm_instances m') = {[7]}.
Proof.
  pose proof run_labels_done as Hd. destruct (run process_step run_labels run_start) as [[p acts]|] eqn:E; [|discriminate].
  apply andb_true_iff in Hd as [Hd _]. apply bool_decide_eq_true in Hd.
  assert (history (txt "conf") (pr_sys p)) as Hh.
  { eapply (process_works _ (pr_sys run_start)); [|apply run_labels_careful|exact E]. apply (first_start _ (fun _ => no_id) no_id None ∅); [|exact run_start_main].
    intros q f Eq. by rewrite lookup_empty in Eq. }
  destruct (instances_survive_restart (txt "conf") (pr_sys p) (fun _ => no_id) no_id None Hh) as (m' & Em & Hres).
  exists (pr_sys p), m'. split_and!; [exact Hh|exact Em|]. exact (eq_trans (restored_dom _ _ Hres) Hd).
Defined.

(** The instance of a process ends, and the web client goes. *)
Definition end_labels : list (@Label toy_uuid ()) := [LWait; LRun Written 0 (run_req 7); LEnd 7 None; LWebGone].

Example end_labels_done : match run process_step end_labels run_start with
  | Done (p, _) => nothing_runs (sy_manager (pr_sys p))
  | Panicked _ => false
  end = true.
Proof. vm_compute. reflexivity. Qed.

Lemma process_ends_witness : exists (p : Process (Event := ())) ls p', process_reach run_start p /\ Forall own_steps ls /\
  run process_step ls p = Done (p', []) /\ pr_main p' = Exited.
Proof.
  pose proof end_labels_done as Hd. destruct (run process_step end_labels run_start) as [[p acts]|] eqn:E; [|discriminate].
  pose proof (run_reach _ _ _ _ E) as Hr.
  destruct (process_ends (fun _ => no_id) no_id None true (server_cli (txt "conf")) ∅ (sy_manager (pr_sys run_start)) p run_start_main Hr) as [He _].
  destruct (He Hd) as (ls & p' & Ho & _ & El & Ex).
  exists p, ls, p'. exact (conj Hr (conj Ho (conj El Ex))).
Defined.
